(* ===== verification/_CoqProject ===== *)
-Q . S2P
Prelude.v
Status.v
Shareable.v
Printf.v
PrintfSpec.v
Klibc.v
KlibcSpec.v
UStd.v
StrToInt.v
KernelSync.v
Osi.v
BitIo.v
Alloc.v
Mutex.v
MutexSpec.v
FieldIo.v
FieldIoSpec.v
Gas.v
GasSpec.v
Registers.v
RegistersSpec.v
UFormat.v
UFormatSpec.v
FormatText.v
LogSpec.v
Pmm.v
PmmSpec.v
Vmm.v
VmmSpec.v
Liballoc.v
LiballocInv.v
LiballocSpec.v
FlantermTables.v
FlantermFont.v
Flanterm.v
FlantermSpec.v
FlantermFb.v
FlantermFbSpec.v
FlantermScreen.v
FlantermFlush.v
FlantermInit.v
ResourceTables.v
Resources.v
ResourcesSpec.v
ResourcesSafe.v
ResourcesRoundtrip.v
X86.v
X86Spec.v
Ports.v
Pci.v
PciSpec.v
Hlec.v
HlecSpec.v
Vector.v
VectorSpec.v
IoMap.v
IoMapSpec.v
Boot.v
BootSpec.v
KernelApi.v
KernelApiSpec.v
Fadt.v
Tables.v
TableSamples.v
TablesSpec.v
SearchSpec.v
InstallSpec.v
RequestSpec.v
FadtSpec.v
FirmwareSpec.v
Objects.v
Namespace.v
NamespaceTree.v
NamespacePath.v
NamespaceWalk.v
ObjectsSpec.v
