(* ===== verification/Prelude.v ===== *)
(** * Helix-Kernel: a verification library

    Helix-Kernel is a small 64-bit kernel: boot, a console on the boot
    framebuffer, physical pages, page tables and a heap, interrupt
    tables, an event list, and uACPI, which brings up ACPI.  The definitions
    of this library translate its C and C++ sources, under [kernel/src/]; the
    theorems are about those definitions.  Paths below are relative to
    [kernel/src/].

    ** Conventions

    - Integers are [Z]; a conversion to [w] bits is [wrap w] ([u8], [u16],
      [u32], [u64]), to signed [swrap w].
    - [None] is undefined behaviour (a null or dangling pointer, an index out
      of bounds, a division by zero, a shift out of range) or a spin that
      never ends.  Error codes of the program are values.
    - Stateful code runs in the state monad [M] of this file, or takes and
      returns its state; [triple P m Q] is total correctness.
    - A loop whose bound is not structural has fuel; each file says which
      fuel is enough, and the theorems prove that it is.
    - A device or a layer that is not a source here (ports, memory-mapped
      registers, the firmware, the boot protocol) is a class or a parameter,
      with the laws the code relies on as hypotheses that a witness
      instantiates.

    ** The parts, and where they are

    Memory and machine
    - [Pmm], [PmmSpec]: the buddy page allocator, [mm/pmm.cpp].
    - [Vmm], [VmmSpec]: page tables, [mm/vmm.cpp], over physical memory and
      a TLB, with the pages of [Pmm]; uACPI's map and unmap.
    - [Liballoc], [LiballocInv], [LiballocSpec]: the heap,
      [extra/liballoc/liballoc.c], over the interface [PageSource], whose
      instance in the kernel is [liballoc_wrapper.cpp] on [Vmm].
    - [Alloc]: the heap as its clients below see it, [malloc] and [free] with
      the set of live blocks.
    - [X86], [X86Spec]: the interrupt and segment tables and the interrupt
      lines, [arch/x86_64/idt] and [arch/x86_64/gdt], as [main.cpp] sets
      them up.
    - [Ports], [Pci], [PciSpec]: the port instructions as an interface, and
      PCI configuration space, [pcie/pcie.cpp].

    Kernel
    - [Klibc], [KlibcSpec]: strings and character classes, [klibc/].
    - [Vector], [VectorSpec]: [klibc/vector].
    - [Boot], [BootSpec]: the command line, [entry.cpp], and the accessors of
      what the boot loader answers, [protocols/].
    - [Hlec], [HlecSpec]: the event list, [hlec/hlec.cpp].
    - [IoMap], [IoMapSpec]: the I/O port mappings, [resources/io.cpp], a
      [Vector], and uACPI's port accesses through them.
    - [KernelSync], [KernelApi], [KernelApiSpec]: the mutex, [mutex/mutex.cpp],
      and the rest of uACPI's kernel interface,
      [extra/uacpi/uacpi_kernel_wrapper.cpp].

    Console
    - [Printf], [PrintfSpec]: [extra/printf/printf.c].
    - [FlantermTables], [Flanterm], [FlantermSpec]: the terminal emulator,
      [extra/flanterm/flanterm.c], over the interface [TermBackend] that is
      the function pointers of its context; [SafeBackend] is the contract of
      a backend.
    - [FlantermFont], [FlantermFb], [FlantermFbSpec], [FlantermScreen],
      [FlantermFlush], [FlantermInit]: the framebuffer backend,
      [extra/flanterm/flanterm_backends/fb.c], and the kernel's console,
      [klibc/cstdio.cpp], which meets the contract.

    uACPI, [extra/uacpi/] with headers under [uacpi/]
    - [Status]: status codes and init levels.
    - [Shareable]: reference counts, [shareable.c].
    - [UStd]: memory, strings and bit scans, [stdlib.c].
    - [UFormat], [UFormatSpec], [FormatText], [LogSpec]: the formatter of
      [stdlib.c], the text a format prints said apart from it, and the log,
      which meets the kernel's printf in [uacpi_kernel_wrapper.cpp].
    - [StrToInt]: text to integer, [utilities.c].
    - [Mutex], [MutexSpec]: the global lock, AML mutexes, recursive and
      read-write locks, [mutex.c].
    - [Osi]: the [_OSI] interface registry, [osi.c].
    - [BitIo], [FieldIo], [FieldIoSpec], [Gas], [GasSpec]: bit fields, field
      units over operation regions and generic address structures, [io.c].
    - [Registers], [RegistersSpec]: the fixed registers, [registers.c], over
      the interface of [Gas].
    - [ResourceTables], [Resources], [ResourcesSpec], [ResourcesSafe],
      [ResourcesRoundtrip]: resource descriptors, [resources.c]: the tables
      of conversion programs and the interpreter of both directions.
    - [Fadt], [Tables], [TableSamples], [TablesSpec], [SearchSpec],
      [InstallSpec], [RequestSpec], [FadtSpec], [FirmwareSpec]: the ACPI
      tables, [tables.c] with [internal/dynamic_array.h]: the growing array of
      tables with their references and mappings, installation, search,
      requests, the FADT that [Registers] is given, and the loop of
      [uacpi.c] that loads the secondary tables.
    - [Objects], [ObjectsSpec]: the objects AML computes with, [types.c]:
      blocks of every kind in one store, counted by [Shareable].
    - [Namespace], [NamespaceTree], [NamespacePath], [NamespaceWalk]: the tree
      of named nodes, [namespace.c], over [Objects] and the read-write lock
      of [Mutex], and the mathematical tree behind it.

    ** What the theorems show

    - Pages: live and free blocks never overlap over any run.  A mapped range
      translates to its memory with its rights, an unmapped one not at all,
      and nothing else changes; unmapping up to the last page of the address
      space never ends and is left out.
    - Heap: over any run live blocks are apart and inside what the page
      source gave, and every call returns - for a source that keeps its
      contract; the kernel's does not ([kernel_region_is_one_page]).
    - Tables: the processor finds its stubs, code segment and stack in the
      bytes that [main] leaves ([interrupt_delivered]); a line belongs to its
      key ([irq_owner_keeps]).
    - Kernel: the event list refines a registry and the vector a list, with
      the cases where they do not; the command line is split into its words;
      what uACPI's port, PCI and interrupt functions reach.
    - Console: every byte stream is handled safely ([terminal_safe]); the
      backend implements one logical screen ([fb_refines_screen]); what is
      written is shown ([flush_draws_screen], [written_text_shown]); the
      console starts on every framebuffer ([console_ready]); UTF-8 is decoded
      ([utf8_decoded]).  printf: truncation, agreement of its four sinks, the
      text and value of numbers, termination.
    - uACPI data: formatter contract and round trip with the parser; bit
      copies, buffer fields and field units read back what was written and
      change no other bit; GAS and fixed registers likewise over
      memory-like devices.
    - uACPI resources: both passes over a resource buffer visit the same
      descriptors, the native list stays in the block its size was computed
      for, and the plain descriptors come back from their native form.
    - uACPI tables: mappings and references stay in step over any run and
      shutdown returns them all ([tables_keep_mappings]); a search gives the
      first good table ([search_returns_first]); registers as the FADT says
      ([fixed_hardware_from_fadt]); and three ways firmware or host break the
      code ([bad_checksum_blocks_tables], [self_pointing_fadt_recurses],
      [denied_facs_dangles]).
    - uACPI objects: what counting and dropping a reference does to the chain
      of objects it leads to ([reference_and_drop_balance],
      [drop_frees_what_nobody_counts]), and an assignment that takes an
      integer for a package.
    - uACPI namespace: absolute paths lead back to their nodes
      ([absolute_path_leads_back]); the iteration is a recursive walk of the
      tree ([for_each_child_walks_the_tree]).
    - uACPI synchronisation: exclusion and atomicity of the global lock
      against firmware steps, the read-write lock as a refinement, nesting of
      AML mutexes, the life of shareable objects.
    - [_OSI]: the registry refines a map from names to kinds.

    ** Bounds and fuel

    Printf's number loops run at most 64 times (fuel 64 of [ntoa_digits]
    suffices for every 64-bit value and base from 2); format loops take the
    length of the format; the terminal's loops are bounded by the screen and
    by the 16 values of a sequence; the buddy allocator's by its 16 orders;
    [munmap]'s by the pages of its range; the heap's walks by the number of
    its tags, the event list's by the number of live events and the vector's
    by its size, one more each; resource conversion by the bytes of the
    buffer and the length of a program; a search of the tables by the array,
    the walk of a table's entries by its bytes; walks over objects and nodes
    take a fuel that the length of the chain, or twice the nodes below, bounds.  Nested installations take a
    depth: two are enough unless an FADT names an FADT as its DSDT
    ([InstallSpec]).  The specifications prove that each
    is enough, or that a walk that exhausts it never ends.

    ** Not modelled

    Assembly and inline assembly (interrupt stubs, descriptor loads,
    [cli]/[sti] apart from their effect where stated), [exception_handler],
    which prints the frame, the boot requests answered by the boot loader,
    the linker scripts and the build.  Concurrency beyond the firmware's
    steps on the global lock: the kernel has one thread of control.
    Of uACPI: the AML interpreter (an abstract machine of its own over
    objects, namespace and regions) and what only runs through it - events,
    operation regions, sleep states, notify and the start-up sequence; PROJECT.json lists each with its files and
    the reason. *)
From Stdlib Require Export ZArith Lia Bool.
From Stdlib Require Export Ascii String.
From stdpp Require Export base option list gmap strings.
#[global] Close Scope string_scope.
#[global] Open Scope list_scope.
#[global] Open Scope Z_scope.

(** ** Machine integers

    A [w]-bit unsigned integer is a [Z] in [0, 2^w); [wrap w] is the
    conversion C performs on assignment.  Signed integers are two's
    complement. *)

Definition wrap (w z : Z) : Z := z mod 2 ^ w.
Definition swrap (w z : Z) : Z :=
  let r := wrap w z in if r <? 2 ^ (w - 1) then r else r - 2 ^ w.

Declare Scope cint_scope.
Delimit Scope cint_scope with cint.
Abbreviation u8 := (wrap 8).
Abbreviation u16 := (wrap 16).
Abbreviation u32 := (wrap 32).
Abbreviation u64 := (wrap 64).
Abbreviation s8 := (swrap 8).
Abbreviation s16 := (swrap 16).
Abbreviation s32 := (swrap 32).
Abbreviation s64 := (swrap 64).

(** C's truth value of an integer, and of a masked flag word. *)
Definition truthy (z : Z) : bool := negb (z =? 0).
Definition has_flag (flags bit : Z) : bool := truthy (Z.land flags bit).

(** Clearing bits of a [w]-bit word, [x &= ~m]. *)
Definition clear_bits (x m : Z) : Z := Z.ldiff x m.

Create HintDb cint.
Create Rewrite HintDb cint.

Section Wrap.
Implicit Types w z : Z.

Lemma pow2_pos w : 0 <= w -> 0 < 2 ^ w.
Proof. intros. apply Z.pow_pos_nonneg; lia. Qed.

Lemma wrap_range w z : 0 <= w -> 0 <= wrap w z < 2 ^ w.
Proof. intros. apply Z.mod_pos_bound, pow2_pos; done. Qed.

Lemma wrap_small w z : 0 <= z < 2 ^ w -> wrap w z = z.
Proof. intros. by apply Z.mod_small. Qed.

Lemma u8_small z : 0 <= z < 256 -> u8 z = z.
Proof. exact (wrap_small 8 z). Qed.
Lemma u16_small z : 0 <= z < 65536 -> u16 z = z.
Proof. exact (wrap_small 16 z). Qed.
Lemma u32_small z : 0 <= z < 4294967296 -> u32 z = z.
Proof. exact (wrap_small 32 z). Qed.
Lemma u64_small z : 0 <= z < 18446744073709551616 -> u64 z = z.
Proof. exact (wrap_small 64 z). Qed.

Lemma wrap_wrap w z : wrap w (wrap w z) = wrap w z.
Proof. unfold wrap. by rewrite Zmod_mod. Qed.

Lemma wrap_add_l w x y : wrap w (wrap w x + y) = wrap w (x + y).
Proof. unfold wrap. by rewrite Zplus_mod_idemp_l. Qed.

Lemma wrap_sub_l w x y : wrap w (wrap w x - y) = wrap w (x - y).
Proof. unfold wrap. by rewrite Zminus_mod_idemp_l. Qed.

Lemma wrap_testbit w z i :
    0 <= w -> 0 <= i ->
    Z.testbit (wrap w z) i = (i <? w) && Z.testbit z i.
Proof.
    intros Hw Hi. unfold wrap. destruct (Z.ltb_spec i w); simpl.
    - by rewrite Z.mod_pow2_bits_low.
    - by rewrite Z.mod_pow2_bits_high by lia.
Qed.
End Wrap.
#[export] Hint Resolve wrap_range pow2_pos : cint.
#[export] Hint Rewrite wrap_wrap wrap_add_l wrap_sub_l : cint.

(** ** Characters and C strings

    A character is its code; a C string is the list of the characters before
    its terminator, so reading at its length gives the NUL. *)
Definition chr (a : ascii) : Z := Z.of_N (N_of_ascii a).
Definition cstr (s : string) : list Z := map chr (list_ascii_of_string s).
Definition char_at (s : list Z) (i : nat) : Z := default 0 (s !! i).

(** Number of iterations of [for (i = a; i < b; i++)]. *)
Definition iters (a b : Z) : nat := Z.to_nat (b - a).

(** ** A state monad with undefined behaviour

    [M S A] runs on a state [S]; [None] is undefined behaviour (a null or
    dangling pointer, an index out of bounds) or a spin that never ends.  It
    is never an error code of the program: those are values of [A]. *)

Definition M (S A : Type) : Type := S -> option (A * S).
#[global] Instance M_ret S : MRet (M S) := fun A a s => Some (a, s).
#[global] Instance M_bind S : MBind (M S) := fun A B f m s =>
  match m s with Some (a, s') => f a s' | None => None end.

Definition ub {S A} : M S A := fun _ => None.
Definition gets {S A} (f : S -> A) : M S A := fun s => Some (f s, s).
Definition modify {S} (f : S -> S) : M S unit := fun s => Some (tt, f s).
Definition liftO {S A} (o : option A) : M S A := fun s =>
  match o with Some a => Some (a, s) | None => None end.

(** Laws of the monad, used to rewrite sequential code. *)
Lemma bind_ret_l {S A B} (a : A) (f : A -> M S B) (s : S) :
  mbind (M := M S) f (mret a) s = f a s.
Proof. reflexivity. Qed.

Lemma bind_assoc {S A B C} (m : M S A) (f : A -> M S B) (g : B -> M S C) s :
  mbind (M := M S) g (mbind (M := M S) f m) s
  = mbind (M := M S) (fun a => mbind (M := M S) g (f a)) m s.
Proof. cbv [mbind M_bind]. by destruct (m s) as [[? ?]|]. Qed.

Lemma bind_none {S A B} (m : M S A) (f : A -> M S B) (s : S) : m s = None -> (m ≫= f) s = None.
Proof. intros E. unfold mbind, M_bind. by rewrite E. Qed.

Lemma bind_run {S A B} (m : M S A) (f : A -> M S B) (s s' : S) (a : A) :
  m s = Some (a, s') -> mbind (M := M S) f m s = f a s'.
Proof. intros E. cbv [mbind M_bind]. by rewrite E. Qed.

(** ** Buffers *)

(** [t] written over [b] from index [i] on. *)
Definition write_at (b : list Z) (i : nat) (t : list Z) : list Z :=
  take i b ++ t ++ drop (i + length t) b.

Lemma length_write_at b i t :
  (i + length t <= length b)%nat -> length (write_at b i t) = length b.
Proof. intros H. unfold write_at. rewrite !length_app, length_take, length_drop. lia. Qed.

Lemma lookup_write_at b i t j :
  (i + length t <= length b)%nat ->
  write_at b i t !! j
  = if bool_decide (i <= j < i + length t)%nat then t !! (j - i)%nat else b !! j.
Proof.
  intros H. unfold write_at. destruct (bool_decide_reflect (i <= j < i + length t)%nat).
  - rewrite lookup_app_r by (rewrite length_take; lia). rewrite length_take.
    rewrite lookup_app_l by lia. f_equal. lia.
  - destruct (decide (j < i)%nat).
    + rewrite lookup_app_l by (rewrite length_take; lia). by rewrite lookup_take_lt by lia.
    + rewrite lookup_app_r by (rewrite length_take; lia).
      rewrite lookup_app_r by (rewrite length_take; lia).
      rewrite lookup_drop, length_take. f_equal. lia.
Qed.

Lemma write_at_nil b i : write_at b i [] = b.
Proof. unfold write_at. simpl. by rewrite Nat.add_0_r, take_drop. Qed.

Lemma write_at_cons b i c t :
  (i + S (length t) <= length b)%nat ->
  write_at (<[i := c]> b) (S i) t = write_at b i (c :: t).
Proof.
  intros H. unfold write_at.
  replace (take (S i) (<[i:=c]> b)) with (take i b ++ [c]).
  2: { erewrite take_S_r by (apply list_lookup_insert_eq; lia).
       by rewrite take_insert_ge by lia. }
  rewrite drop_insert_lt by lia. rewrite <- app_assoc. simpl.
  by replace (i + S (length t))%nat with (S (i + length t)) by lia.
Qed.

Lemma write_at_app b i t u :
  (i + length t + length u <= length b)%nat ->
  write_at (write_at b i t) (i + length t) u = write_at b i (t ++ u).
Proof.
  revert b i. induction t as [|c t IH]; intros b i H; simpl in *.
  - by rewrite write_at_nil, Nat.add_0_r.
  - rewrite <- !write_at_cons by (rewrite ?length_app; lia).
    replace (i + S (length t))%nat with (S i + length t)%nat by lia.
    apply IH. rewrite length_insert. lia.
Qed.

(** ** Bits *)

(** Two non-negative integers with the same bits are equal. *)
Lemma Z_bits_ext x y :
  (forall i, 0 <= i -> Z.testbit x i = Z.testbit y i) -> x = y.
Proof. intros H. apply Z.bits_inj'. exact H. Qed.

(** Testing a flag is testing its bit. *)
Lemma land_pow2 v k : 0 <= k -> truthy (Z.land v (2 ^ k)) = Z.testbit v k.
Proof.
  intros Hk. unfold truthy. destruct (Z.testbit v k) eqn:Hb.
  - apply negb_true_iff, Z.eqb_neq. intros H.
    apply (f_equal (fun z => Z.testbit z k)) in H.
    by rewrite Z.land_spec, Hb, Z.pow2_bits_true, Z.bits_0 in H.
  - apply negb_false_iff, Z.eqb_eq, Z_bits_ext. intros j Hj.
    rewrite Z.land_spec, Z.pow2_bits_eqb, Z.bits_0 by done.
    destruct (Z.eqb_spec k j) as [<-|]; [by rewrite Hb | by rewrite andb_false_r].
Qed.

(** Below a power of two. *)
Lemma lor_below k a b : 0 <= k -> 0 <= a < 2 ^ k -> 0 <= b < 2 ^ k -> 0 <= Z.lor a b < 2 ^ k.
Proof.
  intros Hk Ha Hb. assert (0 <= Z.lor a b) by (apply Z.lor_nonneg; lia).
  assert (Hs : Z.shiftr (Z.lor a b) k = 0).
  { rewrite Z.shiftr_lor, !Z.shiftr_div_pow2, !Z.div_small by done. done. }
  rewrite Z.shiftr_div_pow2 in Hs by done. apply Z.div_small_iff in Hs; lia.
Qed.

(** ** Finite checks

    A decidable fact about every integer below [n], by evaluation. *)
Definition check_below (n : nat) (f : Z -> bool) : bool := forallb (fun i => f (Z.of_nat i)) (seq 0 n).

Lemma check_below_spec n f i : check_below n f = true -> 0 <= i < Z.of_nat n -> f i = true.
Proof.
  intros H Hi. unfold check_below in H. rewrite forallb_forall in H.
  specialize (H (Z.to_nat i)). rewrite Z2Nat.id in H by lia. apply H, in_seq. lia.
Qed.

(** ** Tactics *)

(** Run the primitives of the monad down to the state they act on. *)
Ltac mstep :=
  cbv [mbind M_bind mret M_ret ub gets modify liftO].

(** Prove [b = true] for [c] below [n] by evaluating [b] at every value. *)
Ltac check_all_below n c :=
  match goal with
  | |- ?b = true =>
      let p := eval pattern c in b in
      match p with ?f _ => apply (check_below_spec n f) end
  end.

(** Split the boolean conditions of the goal into their cases and turn the
    tests on integers into propositions. *)
Ltac zify_bool :=
  repeat match goal with
  | H : (_ =? _) = true |- _ => apply Z.eqb_eq in H
  | H : (_ =? _) = false |- _ => apply Z.eqb_neq in H
  | H : (_ <? _) = true |- _ => apply Z.ltb_lt in H
  | H : (_ <? _) = false |- _ => apply Z.ltb_ge in H
  | H : (_ <=? _) = true |- _ => apply Z.leb_le in H
  | H : (_ <=? _) = false |- _ => apply Z.leb_gt in H
  | H : _ && _ = true |- _ => apply andb_true_iff in H as [? ?]
  | H : _ || _ = false |- _ => apply orb_false_iff in H as [? ?]
  | H : _ && _ = false |- _ => apply andb_false_iff in H as [?|?]
  | H : _ || _ = true |- _ => apply orb_true_iff in H as [?|?]
  | H : negb _ = true |- _ => apply negb_true_iff in H
  | H : negb _ = false |- _ => apply negb_false_iff in H
  end.

Ltac case_if :=
  match goal with
  | |- context [if ?b then _ else _] => destruct b eqn:?; zify_bool
  end.

(** Evaluate character constants. *)
Ltac chars :=
  repeat match goal with
  | |- context [chr ?a] => let v := eval vm_compute in (chr a) in change (chr a) with v
  | H : context [chr ?a] |- _ =>
      let v := eval vm_compute in (chr a) in change (chr a) with v in H
  end.

(** ** Updating records

    [r <| f := v |>] is the record [r] with field [f] set to [v], for a
    record type with a [Settable] instance (its constructor applied to its
    projections). *)
Class Settable (R : Type) := eta_record : R -> R.
Class Setter {R E : Type} (proj : R -> E) := set_field : (E -> E) -> R -> R.
#[global] Arguments set_field {R E} proj {_} f r : assert.

Ltac solve_setter :=
  match goal with
  | |- @Setter ?R ?E ?p =>
      let eta := constr:(eta_record (R := R)) in
      let eta := eval hnf in eta in
      exact (fun (upd__ : E -> E) (rec__ : R) =>
        ltac:(let t := eval cbv beta in (eta rec__) in
              let t := eval pattern (p rec__) in t in
              match t with ?g _ =>
                let t := eval cbv beta in (g (upd__ (p rec__))) in exact t end))
  end.
#[export] Hint Extern 1 (Setter _) => solve_setter : typeclass_instances.
Notation "x <| proj := v |>" := (set_field proj (fun _ => v) x)
  (at level 1, left associativity, format "x  <| proj  :=  v |>").

(** ** Loops

    [for (i = a; i < b; i++)], whose bounds the body leaves alone, and
    [for (i = a; i >= lo; i--)] on a [size_t], which wraps below 0. *)
Fixpoint for_n {T} (n : nat) (i : Z) (body : Z -> M T unit) : M T unit :=
  match n with
  | O => mret tt
  | S n' => _ ← body i; for_n n' (i + 1) body
  end.
Definition for_range {T} (a b : Z) (body : Z -> M T unit) : M T unit :=
  for_n (iters a b) a body.

Fixpoint for_down {T} (fuel : nat) (i lo : Z) (body : Z -> M T unit) : M T unit :=
  if i <? lo then mret tt
  else match fuel with
       | O => ub
       | S n => _ ← body i; for_down n (u64 (i - 1)) lo body
       end.

(** A loop whose turn either goes on with a new value or leaves with a result. *)
Fixpoint loop {T A B} (fuel : nat) (turn : A -> M T (A + B)) (a : A) : M T B :=
  match fuel with
  | O => ub
  | S n => r ← turn a; match r with inl a' => loop n turn a' | inr b => mret b end
  end.

Lemma loop_inl {T A B} n (turn : A -> M T (A + B)) a a' s s' :
  turn a s = Some (inl a', s') -> loop (S n) turn a s = loop n turn a' s'.
Proof. intros E. cbn [loop]. by rewrite (bind_run _ _ _ _ _ E). Qed.

Lemma loop_inr {T A B} n (turn : A -> M T (A + B)) a b s s' :
  turn a s = Some (inr b, s') -> loop (S n) turn a s = Some (b, s').
Proof. intros E. cbn [loop]. by rewrite (bind_run _ _ _ _ _ E). Qed.

(** ** Total correctness

    [triple P m Q]: from a state of [P], [m] returns, in a state and with a
    value of [Q]. *)
Definition triple {T A} (P : T -> Prop) (m : M T A) (Q : A -> T -> Prop) : Prop :=
  forall s, P s -> exists a s', m s = Some (a, s') /\ Q a s'.

Section Triple.
Context {T : Type}.
Implicit Types P : T -> Prop.

Lemma triple_ret {A} P (a : A) (Q : A -> T -> Prop) : (forall s, P s -> Q a s) -> triple P (mret a) Q.
Proof. intros H s Hs. by exists a, s; split; [|apply H]. Qed.

Lemma triple_bind {A B} P (m : M T A) (f : A -> M T B) (Q : A -> T -> Prop) (R : B -> T -> Prop) :
  triple P m Q -> (forall a, triple (Q a) (f a) R) -> triple P (m ≫= f) R.
Proof.
  intros Hm Hf s Hs. destruct (Hm s Hs) as (a & s1 & E & Hq).
  destruct (Hf a s1 Hq) as (b & s2 & E2 & Hr). exists b, s2. mstep. by rewrite E.
Qed.

Lemma triple_conseq {A} P P' (m : M T A) (Q Q' : A -> T -> Prop) :
  triple P m Q -> (forall s, P' s -> P s) -> (forall a s, Q a s -> Q' a s) -> triple P' m Q'.
Proof.
  intros Hm HP HQ s Hs. destruct (Hm s (HP s Hs)) as (a & s' & E & Hq). eauto.
Qed.

Lemma triple_for_n P n i body :
  (forall j, i <= j < i + Z.of_nat n -> triple P (body j) (fun _ => P)) ->
  triple P (for_n n i body) (fun _ => P).
Proof.
  revert i. induction n as [|n IH]; intros i Hb; cbn [for_n]; [by apply triple_ret|].
  apply triple_bind with (Q := fun _ => P); [apply Hb; lia|].
  intros _. apply IH. intros j Hj. apply Hb. lia.
Qed.

(** The invariant may depend on the index. *)
Lemma triple_for_n_at (P : Z -> T -> Prop) n i body :
  (forall j, i <= j < i + Z.of_nat n -> triple (P j) (body j) (fun _ => P (j + 1))) ->
  triple (P i) (for_n n i body) (fun _ => P (i + Z.of_nat n)).
Proof.
  revert i. induction n as [|n IH]; intros i Hb; cbn [for_n].
  - apply triple_ret. intros s Hs. by replace (i + Z.of_nat 0) with i by lia.
  - apply triple_bind with (Q := fun _ => P (i + 1)); [apply Hb; lia|].
    intros _. replace (i + Z.of_nat (S n)) with (i + 1 + Z.of_nat n) by lia.
    apply IH. intros j Hj. apply Hb. lia.
Qed.

Lemma triple_for_range_at (P : Z -> T -> Prop) a b body :
  a <= b -> (forall j, a <= j < b -> triple (P j) (body j) (fun _ => P (j + 1))) ->
  triple (P a) (for_range a b body) (fun _ => P b).
Proof.
  intros Hab Hb. unfold for_range, iters. replace (P b) with (P (a + Z.of_nat (Z.to_nat (b - a)))) by (f_equal; lia).
  apply triple_for_n_at. intros j Hj. apply Hb. lia.
Qed.

Lemma triple_for_range P a b body :
  (forall j, a <= j < b -> triple P (body j) (fun _ => P)) ->
  triple P (for_range a b body) (fun _ => P).
Proof. intros Hb. apply triple_for_n. intros j Hj. apply Hb. unfold iters in Hj. lia. Qed.

(** A loop down whose invariant depends on the index. *)
Lemma triple_for_down_at (P : Z -> T -> Prop) fuel i lo body :
  0 < lo -> lo - 1 <= i < 2 ^ 64 -> i - lo < Z.of_nat fuel ->
  (forall j, lo <= j <= i -> triple (P j) (body j) (fun _ => P (j - 1))) ->
  triple (P i) (for_down fuel i lo body) (fun _ => P (lo - 1)).
Proof.
  revert i. induction fuel as [|fuel IH]; intros i Hlo Hi Hf Hb; cbn [for_down].
  - rewrite (proj2 (Z.ltb_lt i lo)) by lia. apply triple_ret. intros s Hs. by replace (lo - 1) with i by lia.
  - destruct (Z.ltb_spec i lo).
    { apply triple_ret. intros s Hs. by replace (lo - 1) with i by lia. }
    apply triple_bind with (Q := fun _ => P (i - 1)); [apply Hb; lia|]. intros _.
    rewrite u64_small by lia. apply IH; try lia. intros j Hj. apply Hb. lia.
Qed.

(** A loop ends when a measure of its value decreases below its fuel. *)
Lemma triple_loop {A B} (I : A -> T -> Prop) (m : A -> nat) (Q : B -> T -> Prop) fuel turn a :
  (forall a, triple (I a) (turn a) (fun r s =>
     match r with inl a' => I a' s /\ (m a' < m a)%nat | inr b => Q b s end)) ->
  (m a < fuel)%nat -> triple (I a) (loop fuel turn a) Q.
Proof.
  intros Ht. revert a. induction fuel as [|n IH]; intros a Hm; [lia|]. cbn [loop].
  eapply triple_bind; [apply Ht|]. intros [a'|b]; cbn beta iota.
  - intros s [Hs Hlt]. apply (IH a'); [lia | done].
  - by apply triple_ret.
Qed.

Lemma triple_for_down P fuel i lo body :
  0 < lo -> i < 2 ^ 64 -> i - lo < Z.of_nat fuel ->
  (forall j, lo <= j <= i -> triple P (body j) (fun _ => P)) ->
  triple P (for_down fuel i lo body) (fun _ => P).
Proof.
  revert i. induction fuel as [|fuel IH]; intros i Hlo Hi Hf Hb; cbn [for_down].
  - rewrite (proj2 (Z.ltb_lt i lo)) by lia. by apply triple_ret.
  - destruct (Z.ltb_spec i lo); [by apply triple_ret|].
    apply triple_bind with (Q := fun _ => P); [apply Hb; lia|]. intros _.
    rewrite u64_small by lia. apply IH; try lia. intros j Hj. apply Hb. lia.
Qed.
End Triple.
