(* ===== verification/Status.v ===== *)
(** * The status codes of uACPI ([uacpi/status.h]) and the outcome of a call.

    Every fallible uACPI operation returns a [uacpi_status]; the models return
    it as a value beside the new state. *)
From S2P Require Import Prelude.

Inductive uacpi_status : Type :=
  | UACPI_STATUS_OK
  | UACPI_STATUS_MAPPING_FAILED
  | UACPI_STATUS_OUT_OF_MEMORY
  | UACPI_STATUS_BAD_CHECKSUM
  | UACPI_STATUS_INVALID_SIGNATURE
  | UACPI_STATUS_INVALID_TABLE_LENGTH
  | UACPI_STATUS_NOT_FOUND
  | UACPI_STATUS_INVALID_ARGUMENT
  | UACPI_STATUS_UNIMPLEMENTED
  | UACPI_STATUS_ALREADY_EXISTS
  | UACPI_STATUS_INTERNAL_ERROR
  | UACPI_STATUS_TYPE_MISMATCH
  | UACPI_STATUS_INIT_LEVEL_MISMATCH
  | UACPI_STATUS_NAMESPACE_NODE_DANGLING
  | UACPI_STATUS_NO_HANDLER
  | UACPI_STATUS_NO_RESOURCE_END_TAG
  | UACPI_STATUS_COMPILED_OUT
  | UACPI_STATUS_HARDWARE_TIMEOUT
  | UACPI_STATUS_TIMEOUT
  | UACPI_STATUS_OVERRIDDEN
  | UACPI_STATUS_DENIED
  | UACPI_STATUS_AML_UNDEFINED_REFERENCE
  | UACPI_STATUS_AML_INVALID_NAMESTRING
  | UACPI_STATUS_AML_OBJECT_ALREADY_EXISTS
  | UACPI_STATUS_AML_INVALID_OPCODE
  | UACPI_STATUS_AML_INCOMPATIBLE_OBJECT_TYPE
  | UACPI_STATUS_AML_BAD_ENCODING
  | UACPI_STATUS_AML_OUT_OF_BOUNDS_INDEX
  | UACPI_STATUS_AML_SYNC_LEVEL_TOO_HIGH
  | UACPI_STATUS_AML_INVALID_RESOURCE
  | UACPI_STATUS_AML_LOOP_TIMEOUT
  | UACPI_STATUS_AML_CALL_STACK_DEPTH_LIMIT.

#[global] Instance uacpi_status_eq_dec : EqDecision uacpi_status.
Proof. solve_decision. Defined.

(** [uacpi_likely_success] / [uacpi_unlikely_error]. *)
Definition is_ok (s : uacpi_status) : bool :=
  match s with UACPI_STATUS_OK => true | _ => false end.

Lemma is_ok_true s : is_ok s = true <-> s = UACPI_STATUS_OK.
Proof. by destruct s. Qed.

(** The initialisation levels ([uacpi_init_level], [uacpi/uacpi.h]) that
    guard the public entry points. *)
Inductive uacpi_init_level : Type :=
  | UACPI_INIT_LEVEL_EARLY
  | UACPI_INIT_LEVEL_SUBSYSTEM_INITIALIZED
  | UACPI_INIT_LEVEL_NAMESPACE_LOADED
  | UACPI_INIT_LEVEL_NAMESPACE_INITIALIZED.

Definition init_level_num (l : uacpi_init_level) : Z :=
  match l with
  | UACPI_INIT_LEVEL_EARLY => 0
  | UACPI_INIT_LEVEL_SUBSYSTEM_INITIALIZED => 1
  | UACPI_INIT_LEVEL_NAMESPACE_LOADED => 2
  | UACPI_INIT_LEVEL_NAMESPACE_INITIALIZED => 3
  end.

(** The test of [UACPI_ENSURE_INIT_LEVEL_AT_LEAST] ([internal/context.h]). *)
Definition init_level_at_least (cur lvl : uacpi_init_level) : bool :=
  init_level_num lvl <=? init_level_num cur.
