(* ===== verification/Shareable.v ===== *)
(** * Reference-counted objects: [extra/uacpi/shareable.c]

    Every uACPI object that can be shared starts with a [reference_count].
    The store maps a handle to its count; a handle that is not in the store
    is freed memory, and touching it is undefined behaviour.  [uacpi_handle]
    is nullable, hence [option Z]. *)
From S2P Require Import Prelude Status.

Abbreviation shareables := (gmap Z Z).

Definition BUGGED_REFCOUNT : Z := 4294967295. (* 0xFFFFFFFF *)

Definition load_refcount (h : Z) : M shareables Z :=
  fun s => match s !! h with Some c => Some (c, s) | None => None end.
Definition store_refcount (h c : Z) : M shareables unit :=
  fun s => match s !! h with Some _ => Some (tt, <[h := c]> s) | None => None end.

(** Writes the count of memory the caller owns: no previous value needed. *)
Definition uacpi_shareable_init (h : Z) : M shareables unit :=
  modify (insert h 1).

Definition uacpi_make_shareable_bugged (h : Z) : M shareables unit :=
  store_refcount h BUGGED_REFCOUNT.

Definition uacpi_bugged_shareable (h : Z) : M shareables bool :=
  c ← load_refcount h;
  _ ← (if c =? 0 then uacpi_make_shareable_bugged h else mret tt);
  c' ← load_refcount h;
  mret (c' =? BUGGED_REFCOUNT).

(** [uacpi_atomic_inc32] and [uacpi_atomic_dec32] return the new value; the
    callers below return the old one. *)
Definition uacpi_atomic_inc32 (h : Z) : M shareables Z :=
  c ← load_refcount h;
  _ ← store_refcount h (u32 (c + 1));
  mret (u32 (c + 1)).

Definition uacpi_atomic_dec32 (h : Z) : M shareables Z :=
  c ← load_refcount h;
  _ ← store_refcount h (u32 (c - 1));
  mret (u32 (c - 1)).

Definition uacpi_shareable_ref (h : Z) : M shareables Z :=
  bugged ← uacpi_bugged_shareable h;
  if bugged : bool then mret BUGGED_REFCOUNT
  else n ← uacpi_atomic_inc32 h; mret (u32 (n - 1)).

Definition uacpi_shareable_unref (h : Z) : M shareables Z :=
  bugged ← uacpi_bugged_shareable h;
  if bugged : bool then mret BUGGED_REFCOUNT
  else n ← uacpi_atomic_dec32 h; mret (u32 (n + 1)).

Definition uacpi_shareable_unref_and_delete_if_last
    (handle : option Z) (do_free : Z -> M shareables unit) : M shareables unit :=
  match handle with
  | None => mret tt
  | Some h =>
      bugged ← uacpi_bugged_shareable h;
      if bugged : bool then mret tt
      else
        n ← uacpi_shareable_unref h;
        if n =? 1 then do_free h else mret tt
  end.

Definition uacpi_shareable_refcount (h : Z) : M shareables Z :=
  load_refcount h.

(** ** The life of one object

    Clients take and drop references to an object they own; the destructor
    the type's owner passes frees the memory. *)
Inductive share_op := Ref | Unref.

Definition free_shareable (h : Z) : M shareables unit := modify (delete h).

Definition run_op (h : Z) (o : share_op) : M shareables unit :=
  match o with
  | Ref => _ ← uacpi_shareable_ref h; mret tt
  | Unref => uacpi_shareable_unref_and_delete_if_last (Some h) free_shareable
  end.

Fixpoint run_ops (h : Z) (os : list share_op) : M shareables unit :=
  match os with
  | [] => mret tt
  | o :: os => _ ← run_op h o; run_ops h os
  end.

(** The number of references the clients hold: [None] when they use the
    object after its last reference, or hold more than the counter counts. *)
Fixpoint live (n : Z) (os : list share_op) : option Z :=
  match os with
  | [] => Some n
  | Ref :: os =>
      if (0 <? n) && (n + 1 <? BUGGED_REFCOUNT) then live (n + 1) os else None
  | Unref :: os => if 0 <? n then live (n - 1) os else None
  end.

(** The store that holds [n] references to [h]. *)
Definition holds (h n : Z) (s : shareables) : shareables :=
  if n =? 0 then delete h s else <[h := n]> s.

(** Counts the counter represents, outside the poison value. *)
Definition countable (n : Z) : Prop := 0 < n < BUGGED_REFCOUNT.

Section Lifetime.
Context (h : Z).
Implicit Types (s : shareables) (n : Z) (os : list share_op).

Lemma not_bugged n s :
    countable n -> s !! h = Some n -> uacpi_bugged_shareable h s = Some (false, s).
Proof.
    intros [Hp Hm] Hs.
    cbv [uacpi_bugged_shareable mbind M_bind load_refcount mret M_ret].
    rewrite Hs. replace (n =? 0) with false by lia. rewrite Hs.
    by replace (n =? BUGGED_REFCOUNT) with false by lia.
Qed.

Lemma run_ref n s :
    countable n -> s !! h = Some n ->
    uacpi_shareable_ref h s = Some (n, <[h := n + 1]> s).
Proof.
    intros Hc Hs. unfold uacpi_shareable_ref.
    unfold mbind at 1, M_bind at 1. rewrite (not_bugged n) by done.
    cbv [uacpi_atomic_inc32 mbind M_bind load_refcount store_refcount mret M_ret].
    rewrite Hs, Hs. unfold countable, BUGGED_REFCOUNT in Hc.
    by rewrite (u32_small (n + 1)), (u32_small (n + 1 - 1)), Z.add_simpl_r by lia.
Qed.

Lemma run_unref n s :
    countable n -> s !! h = Some n ->
    uacpi_shareable_unref h s = Some (n, <[h := n - 1]> s).
Proof.
    intros Hc Hs. unfold uacpi_shareable_unref.
    unfold mbind at 1, M_bind at 1. rewrite (not_bugged n) by done.
    cbv [uacpi_atomic_dec32 mbind M_bind load_refcount store_refcount mret M_ret].
    rewrite Hs, Hs. unfold countable, BUGGED_REFCOUNT in Hc.
    by rewrite (u32_small (n - 1)), (u32_small (n - 1 + 1)), Z.sub_simpl_r by lia.
Qed.

Lemma run_release n s :
    countable n ->
    run_op h Unref (<[h := n]> s) = Some (tt, holds h (n - 1) s).
Proof.
    intros Hc. unfold run_op, uacpi_shareable_unref_and_delete_if_last.
    unfold mbind at 1, M_bind at 1.
    rewrite (not_bugged n) by (done || apply lookup_insert_eq).
    unfold mbind, M_bind.
    rewrite (run_unref n) by (done || apply lookup_insert_eq).
    unfold holds. destruct (Z.eqb_spec n 1) as [->|Hn].
    - cbv [free_shareable modify]. simpl.
      by rewrite insert_insert_eq, delete_insert_eq.
    - replace (n - 1 =? 0) with false by lia. by rewrite insert_insert_eq.
Qed.

Lemma run_acquire n s :
    countable n ->
    run_op h Ref (<[h := n]> s) = Some (tt, <[h := n + 1]> s).
Proof.
    intros Hc. unfold run_op, mbind, M_bind.
    rewrite (run_ref n) by (done || apply lookup_insert_eq).
    by rewrite insert_insert_eq.
Qed.

Lemma run_ops_cons o os s s' :
    run_op h o s = Some (tt, s') -> run_ops h (o :: os) s = run_ops h os s'.
Proof. intros Ho. cbn [run_ops]. mstep. by rewrite Ho. Qed.

Lemma live_zero os m : live 0 os = Some m -> os = [] /\ m = 0.
Proof. destruct os as [|[] os]; simpl; [|done..]. by intros [= ->]. Qed.
End Lifetime.

(** C8: the reference-count protocol.  An object is created with one
    reference; for every sequence of acquisitions and releases in which the
    clients only use the object while they hold a reference (and never hold
    more than the 32-bit counter represents), the run is free of undefined
    behaviour, the counter is exactly the number of references held, and the
    destructor has run exactly when that number has reached zero. *)
Theorem shareable_lifetime (h n : Z) (s : shareables) (os : list share_op) (m : Z) :
  countable n -> live n os = Some m ->
  run_ops h os (<[h := n]> s) = Some (tt, holds h m s).
Proof.
  revert n. induction os as [|[] os IH]; intros n Hc Hl; cbn [live] in Hl.
  - injection Hl as <-. unfold holds. by replace (n =? 0) with false by (unfold countable in Hc; lia).
  - destruct (_ && _) eqn:Hb; [|done]. zify_bool.
    rewrite (run_ops_cons _ _ _ _ _ (run_acquire h n s Hc)).
    apply IH; [unfold countable in *; lia | done].
  - destruct (0 <? n) eqn:Hb; [|done]. zify_bool.
    rewrite (run_ops_cons _ _ _ _ _ (run_release h n s Hc)).
    destruct (Z.eqb_spec n 1) as [->|Hn].
    + apply live_zero in Hl as [-> ->]. done.
    + unfold holds at 1. replace (n - 1 =? 0) with false by lia.
      apply IH; [unfold countable in *; lia | done].
Qed.

Lemma shareable_lifetime_witness :
  run_ops 7 [Ref; Unref; Ref; Unref; Unref] (<[7 := 1]> ∅)
  = Some (tt, holds 7 0 ∅).
Proof.
  apply (shareable_lifetime 7 1 ∅ [Ref; Unref; Ref; Unref; Unref] 0).
  - unfold countable, BUGGED_REFCOUNT; lia.
  - reflexivity.
Defined.

(** A counter that was dropped to zero is poisoned, not freed twice: any
    further use marks it bugged, reports [BUGGED_REFCOUNT], never calls the
    destructor, and the poison is permanent. *)
Theorem shareable_poison (h : Z) (s : shareables) (os : list share_op) (c : Z) :
  s !! h = Some c -> c = 0 \/ c = BUGGED_REFCOUNT -> os <> [] ->
  run_ops h os s = Some (tt, <[h := BUGGED_REFCOUNT]> s) /\
  uacpi_shareable_ref h s = Some (BUGGED_REFCOUNT, <[h := BUGGED_REFCOUNT]> s) /\
  uacpi_shareable_unref h s = Some (BUGGED_REFCOUNT, <[h := BUGGED_REFCOUNT]> s).
Proof.
  intros Hs Hc Hne.
  assert (Hb : forall s c, s !! h = Some c -> c = 0 \/ c = BUGGED_REFCOUNT ->
    uacpi_bugged_shareable h s = Some (true, <[h := BUGGED_REFCOUNT]> s)).
  { clear. intros s c Hs Hc.
    cbv [uacpi_bugged_shareable mbind M_bind load_refcount mret M_ret
         uacpi_make_shareable_bugged store_refcount]. rewrite Hs.
    destruct Hc as [-> | ->]; simpl.
    - rewrite Hs, lookup_insert_eq. done.
    - rewrite Hs. simpl. by rewrite insert_id. }
  assert (Ho : forall o s c, s !! h = Some c -> c = 0 \/ c = BUGGED_REFCOUNT ->
    run_op h o s = Some (tt, <[h := BUGGED_REFCOUNT]> s)).
  { clear - Hb. intros [] s c Hs Hc; unfold run_op, uacpi_shareable_ref,
      uacpi_shareable_unref_and_delete_if_last, mbind, M_bind;
      by rewrite (Hb s c). }
  split_and!.
  - destruct os as [|o os]; [done|]. clear Hne. revert o s c Hs Hc.
    induction os as [|o' os IH]; intros o s c Hs Hc;
      rewrite (run_ops_cons _ _ _ _ _ (Ho o s c Hs Hc)); [done|].
    rewrite (IH o' _ BUGGED_REFCOUNT); [|apply lookup_insert_eq|by right].
    by rewrite insert_insert_eq.
  - unfold uacpi_shareable_ref, mbind, M_bind. by rewrite (Hb s c).
  - unfold uacpi_shareable_unref, mbind, M_bind. by rewrite (Hb s c).
Qed.

Lemma shareable_poison_witness :
  run_ops 7 [Unref; Ref] (<[7 := 0]> ∅)
  = Some (tt, <[7 := BUGGED_REFCOUNT]> (<[7 := 0]> ∅)).
Proof.
  exact (proj1 (shareable_poison 7 (<[7 := 0]> ∅) [Unref; Ref] 0
           eq_refl (or_introl eq_refl) ltac:(discriminate))).
Defined.
