(* ===== verification/Printf.v ===== *)
(** * Formatted output: [extra/printf/printf.c]

    The kernel's [printf] family, with the configuration of the file: no
    floating point, [long long] and [ptrdiff_t] enabled, on a 64-bit target
    where [int] has 32 bits and [long], [long long], [size_t] and pointers 64.

    A sink is one of the four [out_fct_type] functions of the file; the
    state holds what the sinks write to.  [None] is undefined behaviour: a
    write outside [buffer], a variadic argument of the wrong kind or missing,
    or a format read past its terminator.  Indices are unbounded: a run
    emits fewer than 2^64 characters. *)
From S2P Require Import Prelude.

Definition PRINTF_NTOA_BUFFER_SIZE : nat := 32.

Definition FLAGS_ZEROPAD : Z := Z.shiftl 1 0.
Definition FLAGS_LEFT : Z := Z.shiftl 1 1.
Definition FLAGS_PLUS : Z := Z.shiftl 1 2.
Definition FLAGS_SPACE : Z := Z.shiftl 1 3.
Definition FLAGS_HASH : Z := Z.shiftl 1 4.
Definition FLAGS_UPPERCASE : Z := Z.shiftl 1 5.
Definition FLAGS_CHAR : Z := Z.shiftl 1 6.
Definition FLAGS_SHORT : Z := Z.shiftl 1 7.
Definition FLAGS_LONG : Z := Z.shiftl 1 8.
Definition FLAGS_LONG_LONG : Z := Z.shiftl 1 9.
Definition FLAGS_PRECISION : Z := Z.shiftl 1 10.

(** What the sinks write to: the caller's buffer, the characters given to
    [putchar], and those given to the function of [fctprintf]. *)
Record sinks := Sinks {
  buffer : list Z;
  terminal : list Z;
  callback : list Z;
}.

Inductive out_fct_type := OutBuffer | OutNull | OutChar | OutFct.

Definition _out_buffer (character : Z) (idx maxlen : Z) : M sinks unit := fun s =>
  if idx <? maxlen then
    if (0 <=? idx) && (idx <? Z.of_nat (length (buffer s))) then
      Some (tt, Sinks (<[Z.to_nat idx := character]> (buffer s)) (terminal s) (callback s))
    else None
  else Some (tt, s).

Definition _out_null (character : Z) (idx maxlen : Z) : M sinks unit := mret tt.

Definition _out_char (character : Z) (idx maxlen : Z) : M sinks unit := fun s =>
  Some (tt, if truthy character
            then Sinks (buffer s) (terminal s ++ [character]) (callback s) else s).

Definition _out_fct (character : Z) (idx maxlen : Z) : M sinks unit := fun s =>
  Some (tt, if truthy character
            then Sinks (buffer s) (terminal s) (callback s ++ [character]) else s).

Definition out_call (out : out_fct_type) : Z -> Z -> Z -> M sinks unit :=
  match out with
  | OutBuffer => _out_buffer
  | OutNull => _out_null
  | OutChar => _out_char
  | OutFct => _out_fct
  end.

(** [for (s = str; *s && maxsize--; ++s)], then [(unsigned int)(s - str)]. *)
Fixpoint strnlen_loop (str : list Z) (maxsize : Z) : Z :=
  match str with
  | [] => 0
  | _ :: str' => if maxsize =? 0 then 0 else 1 + strnlen_loop str' (maxsize - 1)
  end.
Definition _strnlen_s (str : list Z) (maxsize : Z) : Z := u32 (strnlen_loop str maxsize).

Definition _is_digit (ch : Z) : bool := (chr "0" <=? ch) && (ch <=? chr "9").

Fixpoint _atoi_loop (i : Z) (str : list Z) : Z * list Z :=
  match str with
  | c :: str' =>
      if _is_digit c then _atoi_loop (u32 (i * 10 + (c - chr "0"))) str' else (i, str)
  | [] => (i, [])
  end.
Definition _atoi (str : list Z) : Z * list Z := _atoi_loop 0 str.

Section Out.
Context (out : out_fct_type) (maxlen : Z).

(** [n] times [out(c, buffer, idx++, maxlen)]. *)
Fixpoint out_repeat (n : nat) (c idx : Z) : M sinks Z :=
  match n with
  | O => mret idx
  | S n' => _ ← out_call out c idx maxlen; out_repeat n' c (idx + 1)
  end.

(** [while (len) out(buf[--len], buffer, idx++, maxlen)]. *)
Fixpoint out_chars (cs : list Z) (idx : Z) : M sinks Z :=
  match cs with
  | [] => mret idx
  | c :: cs' => _ ← out_call out c idx maxlen; out_chars cs' (idx + 1)
  end.

Definition _out_rev (idx : Z) (buf : list Z) (width flags : Z) : M sinks Z :=
  let start_idx := idx in
  let len := Z.of_nat (length buf) in
  idx ← (if negb (has_flag flags FLAGS_LEFT) && negb (has_flag flags FLAGS_ZEROPAD)
         then out_repeat (iters len width) (chr " ") idx else mret idx);
  idx ← out_chars (rev buf) idx;
  if has_flag flags FLAGS_LEFT
  then out_repeat (iters (idx - start_idx) width) (chr " ") idx else mret idx.

(** [buf[len++] = c] on the conversion buffer; [buf] is its first [len]
    characters. *)
Definition push (buf : list Z) (c : Z) : option (list Z) :=
  if (length buf <? PRINTF_NTOA_BUFFER_SIZE)%nat then Some (buf ++ [c]) else None.

(** [while (cond && (len < bound) && (len < SIZE)) buf[len++] = '0'], with
    [fuel] at least the size of the buffer. *)
Fixpoint pad_zeros (fuel : nat) (bound : Z) (buf : list Z) : option (list Z) :=
  match fuel with
  | O => Some buf
  | S fuel' =>
      if (Z.of_nat (length buf) <? bound)
         && (length buf <? PRINTF_NTOA_BUFFER_SIZE)%nat
      then buf' ← push buf (chr "0"); pad_zeros fuel' bound buf'
      else Some buf
  end.

Definition push_if_room (buf : list Z) (c : Z) : option (list Z) :=
  if (length buf <? PRINTF_NTOA_BUFFER_SIZE)%nat then push buf c else Some buf.

(** The [FLAGS_HASH] branch: drop padding zeros to make room for the prefix,
    then append it (the buffer is reversed). *)
Definition hash_prefix (buf : list Z) (base prec width flags : Z) : option (list Z) :=
  let len := Z.of_nat (length buf) in
  let buf1 :=
    if negb (has_flag flags FLAGS_PRECISION) && truthy len
       && ((len =? prec) || (len =? width)) then
      let b := take (length buf - 1) buf in
      if truthy (Z.of_nat (length b)) && (base =? 16)
      then take (length b - 1) b else b
    else buf in
  buf2 ←
    (if (base =? 16) && negb (has_flag flags FLAGS_UPPERCASE)
        && (length buf1 <? PRINTF_NTOA_BUFFER_SIZE)%nat then push buf1 (chr "x")
     else if (base =? 16) && has_flag flags FLAGS_UPPERCASE
        && (length buf1 <? PRINTF_NTOA_BUFFER_SIZE)%nat then push buf1 (chr "X")
     else if (base =? 2) && (length buf1 <? PRINTF_NTOA_BUFFER_SIZE)%nat
        then push buf1 (chr "b")
     else Some buf1);
  push_if_room buf2 (chr "0").

Definition push_sign (buf : list Z) (negative : bool) (flags : Z) : option (list Z) :=
  if (length buf <? PRINTF_NTOA_BUFFER_SIZE)%nat then
    if negative then push buf (chr "-")
    else if has_flag flags FLAGS_PLUS then push buf (chr "+")
    else if has_flag flags FLAGS_SPACE then push buf (chr " ")
    else Some buf
  else Some buf.

(** The conversion buffer and the width [_out_rev] is called with. *)
Definition _ntoa_format_buf (buf : list Z) (negative : bool)
    (base prec width flags : Z) : option (list Z * Z) :=
  '(buf, width) ←
    (if negb (has_flag flags FLAGS_LEFT) then
       let width :=
         if truthy width && has_flag flags FLAGS_ZEROPAD
            && (negative || has_flag flags (Z.lor FLAGS_PLUS FLAGS_SPACE))
         then width - 1 else width in
       buf ← pad_zeros PRINTF_NTOA_BUFFER_SIZE prec buf;
       buf ← (if has_flag flags FLAGS_ZEROPAD
              then pad_zeros PRINTF_NTOA_BUFFER_SIZE width buf else Some buf);
       Some (buf, width)
     else Some (buf, width));
  buf ← (if has_flag flags FLAGS_HASH
         then hash_prefix buf base prec width flags else Some buf);
  buf ← push_sign buf negative flags;
  Some (buf, width).

Definition _ntoa_format (idx : Z) (buf : list Z) (negative : bool)
    (base prec width flags : Z) : M sinks Z :=
  '(buf, width) ← liftO (_ntoa_format_buf buf negative base prec width flags);
  _out_rev idx buf width flags.

Definition digit_char (digit flags : Z) : Z :=
  if digit <? 10 then chr "0" + digit
  else (if has_flag flags FLAGS_UPPERCASE then chr "A" else chr "a") + digit - 10.

(** The do-while of the digits, least significant first; it runs at most
    [PRINTF_NTOA_BUFFER_SIZE] times because each turn fills one slot. *)
Fixpoint ntoa_digits (fuel : nat) (value base flags : Z) (buf : list Z) : option (list Z) :=
  match fuel with
  | O => None
  | S fuel' =>
      buf ← push buf (digit_char (value mod base) flags);
      let value := value / base in
      if truthy value && (length buf <? PRINTF_NTOA_BUFFER_SIZE)%nat
      then ntoa_digits fuel' value base flags buf else Some buf
  end.

(** [_ntoa_long]; [unsigned long] has 64 bits, so [_ntoa_long_long] is the
    same code at the same width. *)
Definition _ntoa_long (idx value : Z) (negative : bool)
    (base prec width flags : Z) : M sinks Z :=
  let flags := if negb (truthy value) then clear_bits flags FLAGS_HASH else flags in
  buf ← liftO
    (if negb (has_flag flags FLAGS_PRECISION) || truthy value
     then ntoa_digits PRINTF_NTOA_BUFFER_SIZE value base flags [] else Some []);
  _ntoa_format idx buf negative base prec width flags.

Definition _ntoa_long_long := _ntoa_long.
End Out.

(** ** Variadic arguments *)

Inductive va_item :=
  | VaInt (z : Z)        (* int, unsigned int, and what promotes to them *)
  | VaLong (z : Z)       (* long, long long and their unsigned versions *)
  | VaPtr (z : Z)        (* void* *)
  | VaStr (s : list Z).  (* char* to a terminated string *)

Definition va_int (va : list va_item) : option (Z * list va_item) :=
  match va with VaInt z :: va' => Some (s32 z, va') | _ => None end.
Definition va_uint (va : list va_item) : option (Z * list va_item) :=
  match va with VaInt z :: va' => Some (u32 z, va') | _ => None end.
Definition va_long (va : list va_item) : option (Z * list va_item) :=
  match va with VaLong z :: va' => Some (s64 z, va') | _ => None end.
Definition va_ulong (va : list va_item) : option (Z * list va_item) :=
  match va with VaLong z :: va' => Some (u64 z, va') | _ => None end.
Definition va_ptr (va : list va_item) : option (Z * list va_item) :=
  match va with VaPtr z :: va' => Some (u64 z, va') | _ => None end.
Definition va_str (va : list va_item) : option (list Z * list va_item) :=
  match va with VaStr s :: va' => Some (s, va') | _ => None end.

(** ** The fields of a conversion specification *)

Fixpoint parse_flags (flags : Z) (format : list Z) : Z * list Z :=
  match format with
  | c :: f =>
      if c =? chr "0" then parse_flags (Z.lor flags FLAGS_ZEROPAD) f
      else if c =? chr "-" then parse_flags (Z.lor flags FLAGS_LEFT) f
      else if c =? chr "+" then parse_flags (Z.lor flags FLAGS_PLUS) f
      else if c =? chr " " then parse_flags (Z.lor flags FLAGS_SPACE) f
      else if c =? chr "#" then parse_flags (Z.lor flags FLAGS_HASH) f
      else (flags, format)
  | [] => (flags, [])
  end.

Definition parse_width (flags : Z) (format : list Z) (va : list va_item)
    : option (Z * Z * list Z * list va_item) :=
  if _is_digit (char_at format 0) then
    let '(width, format) := _atoi format in Some (flags, width, format, va)
  else if char_at format 0 =? chr "*" then
    '(w, va) ← va_int va;
    Some (if w <? 0 then (Z.lor flags FLAGS_LEFT, u32 (- w), tail format, va)
          else (flags, u32 w, tail format, va))
  else Some (flags, 0, format, va).

Definition parse_precision (flags : Z) (format : list Z) (va : list va_item)
    : option (Z * Z * list Z * list va_item) :=
  if char_at format 0 =? chr "." then
    let flags := Z.lor flags FLAGS_PRECISION in
    let format := tail format in
    if _is_digit (char_at format 0) then
      let '(precision, format) := _atoi format in Some (flags, precision, format, va)
    else if char_at format 0 =? chr "*" then
      '(prec, va) ← va_int va;
      Some (flags, if 0 <? prec then u32 prec else 0, tail format, va)
    else Some (flags, 0, format, va)
  else Some (flags, 0, format, va).

(** [sizeof(long) = sizeof(ptrdiff_t) = sizeof(intmax_t) = sizeof(size_t)]. *)
Definition parse_length (flags : Z) (format : list Z) : Z * list Z :=
  let c := char_at format 0 in
  let c' := char_at format 1 in
  if c =? chr "l" then
    if c' =? chr "l"
    then (Z.lor (Z.lor flags FLAGS_LONG) FLAGS_LONG_LONG, drop 2 format)
    else (Z.lor flags FLAGS_LONG, drop 1 format)
  else if c =? chr "h" then
    if c' =? chr "h"
    then (Z.lor (Z.lor flags FLAGS_SHORT) FLAGS_CHAR, drop 2 format)
    else (Z.lor flags FLAGS_SHORT, drop 1 format)
  else if (c =? chr "t") || (c =? chr "j") || (c =? chr "z")
  then (Z.lor flags FLAGS_LONG, drop 1 format)
  else (flags, format).

(** The base, and the flags the integer conversions adjust. *)
Definition int_base (c : Z) : Z :=
  if (c =? chr "x") || (c =? chr "X") then 16
  else if c =? chr "o" then 8 else if c =? chr "b" then 2 else 10.

Definition is_signed_spec (c : Z) : bool := (c =? chr "i") || (c =? chr "d").

Definition int_flags (c flags : Z) : Z :=
  let flags := if int_base c =? 10 then clear_bits flags FLAGS_HASH else flags in
  let flags := if c =? chr "X" then Z.lor flags FLAGS_UPPERCASE else flags in
  let flags := if is_signed_spec c then flags
               else clear_bits flags (Z.lor FLAGS_PLUS FLAGS_SPACE) in
  if has_flag flags FLAGS_PRECISION then clear_bits flags FLAGS_ZEROPAD else flags.

Definition is_int_spec (c : Z) : bool :=
  is_signed_spec c || (c =? chr "u") || (c =? chr "x") || (c =? chr "X")
  || (c =? chr "o") || (c =? chr "b").

(** The value of an integer argument: its magnitude and its sign. *)
Definition int_arg (c flags : Z) (va : list va_item)
    : option (Z * bool * list va_item) :=
  if is_signed_spec c then
    if has_flag flags FLAGS_LONG_LONG || has_flag flags FLAGS_LONG then
      '(value, va) ← va_long va;
      Some (u64 (if 0 <? value then value else 0 - value), value <? 0, va)
    else
      '(v, va) ← va_int va;
      let value := if has_flag flags FLAGS_CHAR then s8 v
                   else if has_flag flags FLAGS_SHORT then s16 v else v in
      Some (u32 (if 0 <? value then value else 0 - value), value <? 0, va)
  else
    if has_flag flags FLAGS_LONG_LONG || has_flag flags FLAGS_LONG then
      '(value, va) ← va_ulong va; Some (value, false, va)
    else
      '(v, va) ← va_uint va;
      Some (if has_flag flags FLAGS_CHAR then u8 v
            else if has_flag flags FLAGS_SHORT then u16 v else v, false, va).

(** [while ((p != 0) && (!(flags & FLAGS_PRECISION) || precision--))]: the
    characters of the string that are printed. *)
Definition str_chars (p : list Z) (precision flags : Z) : list Z :=
  if has_flag flags FLAGS_PRECISION then take (Z.to_nat precision) p else p.

Section Vsnprintf.
Context (out : out_fct_type) (maxlen : Z).

Definition conv_int (c idx precision width flags : Z) (va : list va_item)
    : M sinks (Z * list va_item) :=
  let flags := int_flags c flags in
  '(value, negative, va) ← liftO (int_arg c flags va);
  idx ← _ntoa_long out maxlen idx value negative (int_base c) precision width flags;
  mret (idx, va).

Definition conv_char (idx width flags : Z) (va : list va_item)
    : M sinks (Z * list va_item) :=
  idx ← (if negb (has_flag flags FLAGS_LEFT)
         then out_repeat out maxlen (iters 1 width) (chr " ") idx else mret idx);
  '(v, va) ← liftO (va_int va);
  _ ← out_call out (u8 v) idx maxlen;
  let idx := idx + 1 in
  idx ← (if has_flag flags FLAGS_LEFT
         then out_repeat out maxlen (iters 1 width) (chr " ") idx else mret idx);
  mret (idx, va).

Definition conv_str (idx precision width flags : Z) (va : list va_item)
    : M sinks (Z * list va_item) :=
  '(p, va) ← liftO (va_str va);
  let l := _strnlen_s p (if truthy precision then precision else u64 (-1)) in
  let l := if has_flag flags FLAGS_PRECISION
           then (if l <? precision then l else precision) else l in
  idx ← (if negb (has_flag flags FLAGS_LEFT)
         then out_repeat out maxlen (iters l width) (chr " ") idx else mret idx);
  idx ← out_chars out maxlen (str_chars p precision flags) idx;
  idx ← (if has_flag flags FLAGS_LEFT
         then out_repeat out maxlen (iters l width) (chr " ") idx else mret idx);
  mret (idx, va).

Definition conv_ptr (idx precision flags : Z) (va : list va_item)
    : M sinks (Z * list va_item) :=
  let width := 16 in
  let flags := Z.lor flags (Z.lor FLAGS_ZEROPAD FLAGS_UPPERCASE) in
  '(value, va) ← liftO (va_ptr va);
  idx ← _ntoa_long_long out maxlen idx value false 16 precision width flags;
  mret (idx, va).

(** The switch on the specifier: [format] points at it. *)
Definition conv_spec (idx precision width flags : Z) (format : list Z)
    (va : list va_item) : M sinks (Z * list Z * list va_item) :=
  let c := char_at format 0 in
  if is_int_spec c then
    '(idx, va) ← conv_int c idx precision width flags va; mret (idx, tail format, va)
  else if c =? chr "c" then
    '(idx, va) ← conv_char idx width flags va; mret (idx, tail format, va)
  else if c =? chr "s" then
    '(idx, va) ← conv_str idx precision width flags va; mret (idx, tail format, va)
  else if c =? chr "p" then
    '(idx, va) ← conv_ptr idx precision flags va; mret (idx, tail format, va)
  else
    (* '%' and the default case print the character and step over it; on the
       terminator that step leaves the string *)
    _ ← out_call out c idx maxlen;
    match format with
    | [] => ub
    | _ :: format' => mret (idx + 1, format', va)
    end.

(** One conversion specification, after its [%]. *)
Definition directive (idx : Z) (format : list Z) (va : list va_item)
    : M sinks (Z * list Z * list va_item) :=
  let '(flags, format) := parse_flags 0 format in
  '(flags, width, format, va) ← liftO (parse_width flags format va);
  '(flags, precision, format, va) ← liftO (parse_precision flags format va);
  let '(flags, format) := parse_length flags format in
  conv_spec idx precision width flags format va.

(** [while ( *format)]; every turn consumes a character of the format. *)
Fixpoint format_loop (fuel : nat) (idx : Z) (format : list Z) (va : list va_item)
    : M sinks Z :=
  match format with
  | [] => mret idx
  | c :: format' =>
      match fuel with
      | O => ub
      | S fuel' =>
          if negb (c =? chr "%") then
            _ ← out_call out c idx maxlen;
            format_loop fuel' (idx + 1) format' va
          else
            '(idx, format', va) ← directive idx format' va;
            format_loop fuel' idx format' va
      end
  end.
End Vsnprintf.

(** [buffer] is [None] for a null pointer, which selects [_out_null]. *)
Definition _vsnprintf (out : out_fct_type) (buf_null : bool) (maxlen : Z)
    (format : list Z) (va : list va_item) : M sinks Z :=
  let out := if buf_null then OutNull else out in
  idx ← format_loop out maxlen (length format) 0 format va;
  _ ← out_call out 0 (if idx <? maxlen then idx else u64 (maxlen - 1)) maxlen;
  mret (s32 idx).

Definition printf_ (format : list Z) (va : list va_item) : M sinks Z :=
  _vsnprintf OutChar false (u64 (-1)) format va.
Definition sprintf_ (buf_null : bool) (format : list Z) (va : list va_item) : M sinks Z :=
  _vsnprintf OutBuffer buf_null (u64 (-1)) format va.
Definition snprintf_ (buf_null : bool) (count : Z) (format : list Z)
    (va : list va_item) : M sinks Z :=
  _vsnprintf OutBuffer buf_null count format va.
Definition vprintf_ := printf_.
Definition vsnprintf_ := snprintf_.
Definition fctprintf (format : list Z) (va : list va_item) : M sinks Z :=
  _vsnprintf OutFct false (u64 (-1)) format va.

(** Running a call on an empty terminal and a buffer of [n] bytes. *)
Definition fresh_sinks (n : nat) : sinks := Sinks (replicate n 170) [] [].
Definition result_buffer (r : option (Z * sinks)) : option (Z * list Z) :=
  '(n, s) ← r; Some (n, buffer s).
