(* ===== verification/PrintfSpec.v ===== *)
(** * What [printf] prints

    [render] is the specification of the formatted-output functions: the
    list of the characters a format and its arguments denote, with no sink,
    no index and no buffer.  Every entry point of [Printf] is proved to be
    [render] followed by the sink's treatment of that list. *)
From S2P Require Import Prelude Printf.

Definition spaces (n : nat) : list Z := replicate n (chr " ").

(** The characters of a converted number: [buf] is reversed. *)
Definition rev_text (buf : list Z) (width flags : Z) : list Z :=
  let fill := spaces (iters (Z.of_nat (length buf)) width) in
  if has_flag flags FLAGS_LEFT then rev buf ++ fill
  else if has_flag flags FLAGS_ZEROPAD then rev buf else fill ++ rev buf.

Definition number_text (value : Z) (negative : bool) (base prec width flags : Z)
    : option (list Z) :=
  let flags := if negb (truthy value) then clear_bits flags FLAGS_HASH else flags in
  buf ← (if negb (has_flag flags FLAGS_PRECISION) || truthy value
         then ntoa_digits PRINTF_NTOA_BUFFER_SIZE value base flags [] else Some []);
  '(buf, width) ← _ntoa_format_buf buf negative base prec width flags;
  Some (rev_text buf width flags).

(** A field of text that occupies [l] columns in a field of [width]. *)
Definition pad_field (left : bool) (l width : Z) (text : list Z) : list Z :=
  let fill := spaces (iters l width) in
  if left then text ++ fill else fill ++ text.

Definition str_columns (p : list Z) (precision flags : Z) : Z :=
  let l := _strnlen_s p (if truthy precision then precision else u64 (-1)) in
  if has_flag flags FLAGS_PRECISION then Z.min l precision else l.

(** The text of the specifier [format] points at, and what is left. *)
Definition spec_text (precision width flags : Z) (format : list Z) (va : list va_item)
    : option (list Z * list Z * list va_item) :=
  let c := char_at format 0 in
  if is_int_spec c then
    let flags := int_flags c flags in
    '(value, negative, va) ← int_arg c flags va;
    t ← number_text value negative (int_base c) precision width flags;
    Some (t, tail format, va)
  else if c =? chr "c" then
    '(v, va) ← va_int va;
    Some (pad_field (has_flag flags FLAGS_LEFT) 1 width [u8 v], tail format, va)
  else if c =? chr "s" then
    '(p, va) ← va_str va;
    Some (pad_field (has_flag flags FLAGS_LEFT) (str_columns p precision flags) width
            (str_chars p precision flags), tail format, va)
  else if c =? chr "p" then
    '(value, va) ← va_ptr va;
    t ← number_text value false 16 precision 16
          (Z.lor flags (Z.lor FLAGS_ZEROPAD FLAGS_UPPERCASE));
    Some (t, tail format, va)
  else match format with [] => None | c :: format' => Some ([c], format', va) end.

Definition directive_text (format : list Z) (va : list va_item)
    : option (list Z * list Z * list va_item) :=
  let '(flags, format) := parse_flags 0 format in
  '(flags, width, format, va) ← parse_width flags format va;
  '(flags, precision, format, va) ← parse_precision flags format va;
  let '(flags, format) := parse_length flags format in
  spec_text precision width flags format va.

Fixpoint render_loop (fuel : nat) (format : list Z) (va : list va_item)
    : option (list Z) :=
  match format with
  | [] => Some []
  | c :: format' =>
      match fuel with
      | O => None
      | S fuel' =>
          if negb (c =? chr "%") then
            t ← render_loop fuel' format' va; Some (c :: t)
          else
            '(t, format', va) ← directive_text format' va;
            t' ← render_loop fuel' format' va; Some (t ++ t')
      end
  end.

Definition render (format : list Z) (va : list va_item) : option (list Z) :=
  render_loop (length format) format va.

(** ** Every routine emits its text, character by character *)

Section Emit.
Context (out : out_fct_type) (maxlen : Z).
Abbreviation emit := (out_chars out maxlen).

Lemma emit_app a b idx s :
  emit (a ++ b) idx s = (mbind (M := M sinks) (emit b) (emit a idx)) s.
Proof.
  revert idx s. induction a as [|c a IH]; intros; simpl; [done|].
  mstep. destruct (out_call _ _ _ _ s) as [[[] s']|]; [|done]. by rewrite IH.
Qed.

Lemma emit_repeat n c idx s :
  out_repeat out maxlen n c idx s = emit (replicate n c) idx s.
Proof.
  revert idx s. induction n as [|n IH]; intros; simpl; [done|].
  mstep. by destruct (out_call _ _ _ _ s) as [[[] s']|].
Qed.

Lemma emit_idx t idx s idx' s' :
  emit t idx s = Some (idx', s') -> idx' = idx + Z.of_nat (length t).
Proof.
  revert idx s. induction t as [|c t IH]; intros idx s; simpl.
  - mstep. intros [= <- <-]. lia.
  - mstep. destruct (out_call _ _ _ _ s) as [[[] s1]|]; [|done].
    intros H. apply IH in H. lia.
Qed.

(** [f] emits the text [o]; it is stuck when there is none. *)
Definition emits (f : Z -> M sinks Z) (o : option (list Z)) : Prop :=
  forall idx s, f idx s = match o with Some t => emit t idx s | None => None end.

Lemma out_rev_emits buf width flags :
  emits (fun idx => _out_rev out maxlen idx buf width flags)
    (Some (rev_text buf width flags)).
Proof.
  intros idx s. unfold _out_rev, rev_text, spaces.
  destruct (has_flag flags FLAGS_LEFT); simpl.
  - rewrite emit_app. mstep. destruct (emit (rev buf) idx s) as [[i s']|] eqn:H; [|done].
    apply emit_idx in H as ->. rewrite emit_repeat.
    by rewrite Z.add_simpl_l, length_rev.
  - destruct (has_flag flags FLAGS_ZEROPAD); simpl.
    + mstep. by destruct (emit (rev buf) idx s) as [[i s']|].
    + rewrite emit_app. mstep. rewrite emit_repeat.
      destruct (emit (replicate _ _) idx s) as [[i s']|]; [|done].
      by destruct (emit (rev buf) i s') as [[i' s'']|].
Qed.

Lemma ntoa_long_emits value negative base prec width flags :
  emits (fun idx => _ntoa_long out maxlen idx value negative base prec width flags)
    (number_text value negative base prec width flags).
Proof.
  intros idx s. unfold _ntoa_long, number_text, _ntoa_format.
  mstep. cbv [option_bind].
  destruct (if _ : bool then _ else _) as [buf|]; [|done]. simpl.
  destruct (_ntoa_format_buf _ _ _ _ _ _) as [[buf' w']|]; [|done].
  apply out_rev_emits.
Qed.

(** Outcome of a conversion: the text is emitted from [idx], the format and
    the arguments that remain are those of the specification. *)
Definition emits_conv {B} (r : Z -> M sinks (Z * B)) (o : option (list Z * B)) : Prop :=
  forall idx s, r idx s =
    match o with
    | Some (t, b) => match emit t idx s with
                     | Some (idx', s') => Some ((idx', b), s') | None => None end
    | None => None
    end.

Lemma conv_int_emits c precision width flags va :
  emits_conv (fun idx => conv_int out maxlen c idx precision width flags va)
    (let flags := int_flags c flags in
     '(value, negative, va) ← int_arg c flags va;
     t ← number_text value negative (int_base c) precision width flags;
     Some (t, va)).
Proof.
  intros idx s. unfold conv_int. mstep. cbv [option_bind].
  destruct (int_arg _ _ _) as [[[v n] va']|]; [|done].
  rewrite ntoa_long_emits.
  destruct (number_text _ _ _ _ _ _) as [t|]; [|done].
  by destruct (emit t idx s) as [[i s']|].
Qed.

Lemma conv_char_emits width flags va :
  emits_conv (fun idx => conv_char out maxlen idx width flags va)
    ('(v, va) ← va_int va;
     Some (pad_field (has_flag flags FLAGS_LEFT) 1 width [u8 v], va)).
Proof.
  intros idx s. unfold conv_char, pad_field, spaces. mstep. cbv [option_bind].
  destruct (has_flag flags FLAGS_LEFT); cbn [negb].
  - destruct (va_int va) as [[v va']|]; [|done]. simpl. mstep.
    destruct (out_call _ _ _ _ s) as [[[] s1]|]; [|done].
    rewrite emit_repeat. by destruct (emit _ _ s1) as [[i s']|].
  - rewrite emit_repeat. destruct (va_int va) as [[v va']|].
    + rewrite emit_app. mstep.
      destruct (emit (replicate _ _) idx s) as [[i s']|]; [|done]. simpl. mstep.
      by destruct (out_call _ _ _ _ s') as [[[] s1]|].
    + by destruct (emit _ idx s) as [[i s']|].
Qed.

Lemma conv_str_emits precision width flags va :
  emits_conv (fun idx => conv_str out maxlen idx precision width flags va)
    ('(p, va) ← va_str va;
     Some (pad_field (has_flag flags FLAGS_LEFT) (str_columns p precision flags) width
             (str_chars p precision flags), va)).
Proof.
  intros idx s. unfold conv_str, pad_field, spaces. mstep. cbv [option_bind].
  destruct (va_str va) as [[p va']|]; [|done].
  replace (if has_flag flags FLAGS_PRECISION then _ else _)
    with (str_columns p precision flags).
  2: { unfold str_columns. destruct (has_flag _ _); [|done].
       destruct (Z.ltb_spec (_strnlen_s p (if truthy precision then precision else u64 (-1)))
                   precision); lia. }
  destruct (has_flag flags FLAGS_LEFT); cbn [negb]; rewrite emit_app; mstep.
  - destruct (emit (str_chars _ _ _) idx s) as [[i s']|]; [|done].
    rewrite emit_repeat. by destruct (emit _ i s') as [[i' s'']|].
  - rewrite emit_repeat. destruct (emit (replicate _ _) idx s) as [[i s']|]; [|done].
    by destruct (emit (str_chars _ _ _) i s') as [[i' s'']|].
Qed.

Lemma conv_ptr_emits precision flags va :
  emits_conv (fun idx => conv_ptr out maxlen idx precision flags va)
    ('(value, va) ← va_ptr va;
     t ← number_text value false 16 precision 16
           (Z.lor flags (Z.lor FLAGS_ZEROPAD FLAGS_UPPERCASE));
     Some (t, va)).
Proof.
  intros idx s. unfold conv_ptr, _ntoa_long_long. mstep. cbv [option_bind].
  destruct (va_ptr va) as [[v va']|]; [|done].
  rewrite ntoa_long_emits.
  destruct (number_text _ _ _ _ _ _) as [t|]; [|done].
  by destruct (emit t idx s) as [[i s']|].
Qed.

Definition emits_dir (r : Z -> M sinks (Z * list Z * list va_item))
    (o : option (list Z * list Z * list va_item)) : Prop :=
  forall idx s, r idx s =
    match o with
    | Some (t, f, va) => match emit t idx s with
                         | Some (idx', s') => Some ((idx', f, va), s') | None => None end
    | None => None
    end.

(** A conversion followed by a step over its specifier. *)
Lemma emits_conv_step (r : Z -> M sinks (Z * list va_item)) o (f : list Z) :
  emits_conv r o ->
  emits_dir (fun idx => '(idx, va) ← r idx; mret (idx, f, va))
    ('(t, va) ← o; Some (t, f, va)).
Proof.
  intros H idx s. mstep. cbv [option_bind]. rewrite H.
  destruct o as [[t va]|]; [|done]. by destruct (emit t idx s) as [[i s']|].
Qed.

Lemma emits_dir_ext r o o' : emits_dir r o -> o = o' -> emits_dir r o'.
Proof. by intros H <-. Qed.

Lemma conv_spec_emits precision width flags format va :
  emits_dir (fun idx => conv_spec out maxlen idx precision width flags format va)
    (spec_text precision width flags format va).
Proof.
  unfold conv_spec, spec_text. destruct (is_int_spec _).
  { eapply emits_dir_ext; [apply emits_conv_step, conv_int_emits|].
    cbv [mbind option_bind]. destruct (int_arg _ _ _) as [[[v n] va']|]; [|done].
    by destruct (number_text _ _ _ _ _ _). }
  destruct (_ =? chr "c").
  { eapply emits_dir_ext; [apply emits_conv_step, conv_char_emits|].
    cbv [mbind option_bind]. by destruct (va_int va) as [[v va']|]. }
  destruct (_ =? chr "s").
  { eapply emits_dir_ext; [apply emits_conv_step, conv_str_emits|].
    cbv [mbind option_bind]. by destruct (va_str va) as [[p va']|]. }
  destruct (_ =? chr "p").
  { eapply emits_dir_ext; [apply emits_conv_step, conv_ptr_emits|].
    cbv [mbind option_bind]. destruct (va_ptr va) as [[v va']|]; [|done].
    by destruct (number_text _ _ _ _ _ _). }
  intros idx s. mstep. destruct format as [|c f]; simpl; mstep.
  - by destruct (out_call _ _ _ _ s) as [[[] s']|].
  - by destruct (out_call _ _ _ _ s) as [[[] s']|].
Qed.

Lemma directive_emits format va :
  emits_dir (fun idx => directive out maxlen idx format va) (directive_text format va).
Proof.
  intros idx s. unfold directive, directive_text. mstep. cbv [option_bind].
  destruct (parse_flags 0 format) as [fl f].
  destruct (parse_width fl f va) as [[[[fl' w] f'] va']|]; [|done].
  destruct (parse_precision fl' f' va') as [[[[fl'' p] f''] va'']|]; [|done].
  destruct (parse_length fl'' f'') as [fl3 f3]. apply conv_spec_emits.
Qed.

Lemma format_loop_emits fuel format va :
  emits (fun idx => format_loop out maxlen fuel idx format va)
    (render_loop fuel format va).
Proof.
  revert format va. induction fuel as [|fuel IH]; intros [|c f] va idx s; [done..|].
  cbn [format_loop render_loop]. destruct (negb (c =? chr "%")).
  - mstep. cbv [option_bind]. destruct (out_call _ _ _ _ s) as [[[] s']|] eqn:Ho.
    + rewrite IH. destruct (render_loop _ _ _) as [t|]; [|done]. simpl. mstep.
      by rewrite Ho.
    + destruct (render_loop _ _ _) as [t|]; [|done]. simpl. mstep. by rewrite Ho.
  - mstep. cbv [option_bind]. rewrite directive_emits.
    destruct (directive_text f va) as [[[t f'] va']|]; [|done].
    destruct (emit t idx s) as [[i s']|] eqn:He.
    + rewrite IH. destruct (render_loop _ _ _) as [t'|]; [|done].
      rewrite emit_app. mstep. by rewrite He.
    + destruct (render_loop _ _ _) as [t'|]; [|done].
      rewrite emit_app. mstep. by rewrite He.
Qed.
End Emit.

(** ** What each sink does with a text *)

(** [_out_buffer] stores the characters whose index is below [maxlen]. *)
Lemma buffer_emit (maxlen : Z) t (i : nat) s :
  0 <= maxlen <= Z.of_nat (length (buffer s)) ->
  out_chars OutBuffer maxlen t (Z.of_nat i) s =
    Some (Z.of_nat i + Z.of_nat (length t),
          Sinks (write_at (buffer s) i (take (Z.to_nat maxlen - i) t))
                (terminal s) (callback s)).
Proof.
  revert i s. induction t as [|c t IH]; intros i s Hm; simpl; mstep.
  - unfold write_at. rewrite take_nil. simpl. rewrite Nat.add_0_r, take_drop.
    destruct s; simpl. do 2 f_equal. lia.
  - unfold _out_buffer. destruct (Z.ltb_spec (Z.of_nat i) maxlen) as [Hi|Hi].
    + replace ((0 <=? Z.of_nat i) && (Z.of_nat i <? Z.of_nat (length (buffer s)))) with true by lia.
      replace (Z.of_nat i + 1) with (Z.of_nat (S i)) by lia.
      rewrite IH by (simpl; rewrite length_insert; lia). simpl buffer. rewrite Nat2Z.id.
      replace (Z.to_nat maxlen - i)%nat with (S (Z.to_nat maxlen - S i)) by lia.
      cbn [take]. rewrite write_at_cons by (rewrite length_take; lia).
      do 2 f_equal; simpl; lia.
    + replace (Z.of_nat i + 1) with (Z.of_nat (S i)) by lia.
      rewrite IH by done. replace (Z.to_nat maxlen - S i)%nat with 0%nat by lia.
      replace (Z.to_nat maxlen - i)%nat with 0%nat by lia.
      unfold write_at. simpl. rewrite !Nat.add_0_r, !take_drop.
      do 2 f_equal; lia.
Qed.

Lemma char_emit maxlen t idx s :
  out_chars OutChar maxlen t idx s =
    Some (idx + Z.of_nat (length t),
          Sinks (buffer s) (terminal s ++ List.filter truthy t) (callback s)).
Proof.
  revert idx s. induction t as [|c t IH]; intros idx s; simpl; mstep.
  - rewrite app_nil_r, Z.add_0_r. by destruct s.
  - unfold _out_char. rewrite IH. destruct (truthy c); simpl;
      rewrite <- ?app_assoc; do 2 f_equal; lia.
Qed.

Lemma null_emit maxlen t idx s :
  out_chars OutNull maxlen t idx s = Some (idx + Z.of_nat (length t), s).
Proof.
  revert idx s. induction t as [|c t IH]; intros idx s; simpl; mstep.
  - by rewrite Z.add_0_r.
  - unfold _out_null. mstep. rewrite IH. do 2 f_equal. lia.
Qed.

Lemma vsnprintf_emit out maxlen format va t s :
  render format va = Some t ->
  _vsnprintf out false maxlen format va s =
    match out_chars out maxlen t 0 s with
    | Some (idx, s') =>
        match out_call out 0 (if idx <? maxlen then idx else u64 (maxlen - 1)) maxlen s' with
        | Some (_, s'') => Some (s32 idx, s'')
        | None => None
        end
    | None => None
    end.
Proof.
  intros Hr. unfold _vsnprintf. mstep. rewrite format_loop_emits. fold (render format va).
  rewrite Hr. by destruct (out_chars out maxlen t 0 s) as [[i s']|].
Qed.

(** C9: [snprintf] is memory safe, truncates and terminates.  Whatever the
    format and the arguments, if they denote the text [t] and the caller's
    [count] is at most the size of the buffer, the call writes only inside
    the buffer; the buffer then holds the first [count - 1] characters of
    [t], a terminating NUL right after them, and its old bytes beyond; and
    the call returns the length of the whole text, as an [int]. *)
Theorem snprintf_truncates (count : Z) (format : list Z) (va : list va_item)
    (t : list Z) (s : sinks) :
  render format va = Some t ->
  0 < count <= Z.of_nat (length (buffer s)) -> count < 2 ^ 64 ->
  let kept := take (Z.to_nat (count - 1)) t in
  snprintf_ false count format va s =
    Some (s32 (Z.of_nat (length t)),
          Sinks (kept ++ [0] ++ drop (S (length kept)) (buffer s))
                (terminal s) (callback s)).
Proof.
  intros Hr Hc Hc64 kept. unfold snprintf_. rewrite (vsnprintf_emit _ _ _ _ t) by done.
  pose proof (buffer_emit count t 0 s ltac:(lia)) as He.
  change (Z.of_nat 0) with 0 in He. rewrite He. clear He.
  rewrite Z.add_0_l, Nat.sub_0_r. cbn [out_call]. unfold _out_buffer. cbn [buffer].
  set (k := length kept). set (b1 := write_at _ _ _).
  assert (Hk : k = Nat.min (Z.to_nat (count - 1)) (length t)) by apply length_take.
  assert (Hl : length b1 = length (buffer s)).
  { apply length_write_at. rewrite length_take. lia. }
  replace (if Z.of_nat (length t) <? count then _ else _) with (Z.of_nat k).
  2: { destruct (Z.ltb_spec (Z.of_nat (length t)) count); [lia|].
       rewrite u64_small by lia. lia. }
  replace (Z.of_nat k <? count) with true by lia.
  replace ((0 <=? Z.of_nat k) && _) with true by lia. cbn [terminal callback].
  do 3 f_equal. rewrite Nat2Z.id, insert_take_drop by lia.
  unfold b1, write_at. rewrite take_0, Nat.add_0_l, app_nil_l, length_take.
  rewrite (take_app_le _ _ k), take_take by (rewrite length_take; lia).
  f_equal.
  { rewrite Nat.min_l by lia. unfold kept. rewrite Hk.
    destruct (Nat.le_ge_cases (length t) (Z.to_nat (count - 1))).
    - by rewrite Nat.min_r, !take_ge by lia.
    - by rewrite Nat.min_l by lia. }
  simpl. f_equal.
  rewrite drop_app, length_take, drop_drop.
  rewrite (drop_ge (take _ t)) by (rewrite length_take; lia). simpl. f_equal. lia.
Qed.

Lemma snprintf_truncates_witness :
  snprintf_ false 4 (cstr "%d!") [VaInt (-12)] (fresh_sinks 6)
  = Some (4, Sinks (cstr "-12" ++ [0; 170; 170]) [] []).
Proof.
  exact (snprintf_truncates 4 (cstr "%d!") [VaInt (-12)] (cstr "-12!") (fresh_sinks 6)
           eq_refl ltac:(split; [reflexivity | discriminate]) eq_refl).
Defined.

(** All the entry points print the same text.  [printf] sends to the
    terminal exactly the characters of the text (NULs excepted) and touches
    no buffer, [snprintf] with a null buffer only measures it, and each
    returns the length [snprintf] returns whatever its [count]. *)
Theorem printf_sinks_agree (format : list Z) (va : list va_item) (t : list Z) (s : sinks)
    (count : Z) :
  render format va = Some t ->
  printf_ format va s =
    Some (s32 (Z.of_nat (length t)),
          Sinks (buffer s) (terminal s ++ List.filter truthy t) (callback s)) /\
  snprintf_ true count format va s = Some (s32 (Z.of_nat (length t)), s).
Proof.
  intros Hr. split.
  - unfold printf_. rewrite (vsnprintf_emit _ _ _ _ t), char_emit by done. simpl.
    unfold _out_char. simpl. by rewrite Z.add_0_l.
  - unfold snprintf_. change (_vsnprintf OutBuffer true) with (_vsnprintf OutNull false).
    rewrite (vsnprintf_emit _ _ _ _ t), null_emit by done. by rewrite Z.add_0_l.
Qed.

Lemma printf_sinks_agree_witness :
  printf_ (cstr "%c%c") [VaInt 65; VaInt 0] (fresh_sinks 0) = Some (2, Sinks [] [65] []) /\
  snprintf_ true 0 (cstr "%c%c") [VaInt 65; VaInt 0] (fresh_sinks 0)
  = Some (2, fresh_sinks 0).
Proof.
  exact (printf_sinks_agree (cstr "%c%c") [VaInt 65; VaInt 0] [65; 0] (fresh_sinks 0) 0
           eq_refl).
Defined.

(** ** Numbers *)

(** The value of a digit character, and of a numeral. *)
Definition digit_value (c : Z) : option Z :=
  if _is_digit c then Some (c - chr "0")
  else if (chr "a" <=? c) && (c <=? chr "f") then Some (c - chr "a" + 10)
  else if (chr "A" <=? c) && (c <=? chr "F") then Some (c - chr "A" + 10)
  else None.

(** Least significant digit first, as the conversion buffer holds it. *)
Fixpoint numeral_rev (base : Z) (buf : list Z) : option Z :=
  match buf with
  | [] => Some 0
  | c :: buf' =>
      d ← digit_value c; v ← numeral_rev base buf'; Some (d + base * v)
  end.
Definition numeral (base : Z) (ds : list Z) : option Z := numeral_rev base (rev ds).

Lemma digit_value_char d flags :
  0 <= d < 16 -> digit_value (digit_char d flags) = Some d.
Proof.
  intros H. unfold digit_char, digit_value, _is_digit.
  destruct (Z.ltb_spec d 10), (has_flag flags FLAGS_UPPERCASE); chars;
    repeat case_if; try lia; f_equal; lia.
Qed.

Lemma push_room (buf : list Z) c :
  (length buf < PRINTF_NTOA_BUFFER_SIZE)%nat -> push buf c = Some (buf ++ [c]).
Proof. intros H. unfold push. by rewrite (proj2 (Nat.ltb_lt _ _) H). Qed.

Definition digit_below (base c : Z) : Prop := exists d, digit_value c = Some d /\ 0 <= d < base.

(** The digits [buf0] already written stay; the new ones denote the value,
    cut to the slots that are left. *)
Lemma ntoa_digits_spec fuel value base flags buf0 :
  0 <= value -> 2 <= base <= 16 ->
  (length buf0 + fuel = PRINTF_NTOA_BUFFER_SIZE)%nat -> (0 < fuel)%nat ->
  exists ds, ntoa_digits fuel value base flags buf0 = Some (buf0 ++ ds) /\
    (1 <= length ds <= fuel)%nat /\
    numeral_rev base ds = Some (value mod base ^ Z.of_nat fuel) /\
    Forall (digit_below base) ds /\
    (value <> 0 -> value < base ^ Z.of_nat fuel -> last ds <> Some (chr "0")) /\
    (forall k, value < base ^ Z.of_nat (S k) -> (length ds <= S k)%nat).
Proof.
  revert value buf0. induction fuel as [|fuel IH]; intros value buf0 Hv Hb Hl Hf; [lia|].
  cbn [ntoa_digits]. rewrite push_room by lia. simpl.
  set (c := digit_char (value mod base) flags).
  assert (Hm : 0 <= value mod base < base) by (apply Z.mod_pos_bound; lia).
  assert (Hdc : digit_value c = Some (value mod base)) by (apply digit_value_char; lia).
  rewrite length_app. simpl.
  destruct (_ && _) eqn:Hgo.
  - zify_bool. apply Nat.ltb_lt in H0.
    destruct (IH (value / base) (buf0 ++ [c])) as (ds & Hds & Hlen & Hnum & Hbel & Hlast & Hk).
    { apply Z.div_pos; lia. } { done. } { rewrite length_app; simpl; lia. } { lia. }
    exists (c :: ds). rewrite Hds, <- app_assoc.
    split_and!; [done | simpl; lia.. | | by constructor; [eexists|] | |].
    + simpl. rewrite Hdc. simpl. rewrite Hnum. simpl. f_equal.
      rewrite Nat2Z.inj_succ, Z.pow_succ_r by lia.
      rewrite Z.rem_mul_r; [done | lia | apply Z.pow_pos_nonneg; lia].
    + intros Hv0 Hvb. rewrite Nat2Z.inj_succ, Z.pow_succ_r in Hvb by lia.
      unfold truthy in H. zify_bool.
      destruct ds as [|d ds]; [simpl in Hlen; lia|]. rewrite last_cons_cons.
      apply Hlast; [done|]. apply Z.div_lt_upper_bound; lia.
    + intros k Hvk. unfold truthy in H. zify_bool.
      rewrite Nat2Z.inj_succ, Z.pow_succ_r in Hvk by lia.
      destruct k as [|k].
      { rewrite Z.mul_1_r in Hvk. exfalso. apply H, Z.div_small. lia. }
      simpl. apply le_n_S, Hk. apply Z.div_lt_upper_bound; lia.
  - exists [c]. split_and!; [done | simpl; lia.. | | by constructor; [eexists|] | |].
    + simpl. rewrite Hdc. simpl. f_equal.
      unfold truthy in Hgo.
      assert (Hq : fuel = 0%nat \/ value / base = 0).
      { destruct (Z.eqb_spec (value / base) 0); [by right|]. left.
        simpl in Hgo. apply Nat.ltb_ge in Hgo. lia. }
      rewrite Z.mul_0_r, Z.add_0_r. destruct Hq as [-> | Hq].
      { by change (Z.of_nat 1) with 1; rewrite Z.pow_1_r. }
      assert (value < base) by (apply Z.div_small_iff in Hq; lia).
      rewrite (Z.mod_small value base) by lia. symmetry. apply Z.mod_small.
      split; [done|]. eapply Z.lt_le_trans; [done|].
      rewrite Nat2Z.inj_succ, Z.pow_succ_r by lia.
      assert (0 < base ^ Z.of_nat fuel) by (apply Z.pow_pos_nonneg; lia). nia.
    + intros Hv0 Hvb. simpl. intros [= Hc].
      assert (value mod base = 0).
      { rewrite Hc in Hdc. change (digit_value (chr "0")) with (Some 0) in Hdc. congruence. }
      unfold truthy in Hgo. destruct (Z.eqb_spec (value / base) 0) as [Hq|Hq].
      * apply Hv0. rewrite (Z.div_mod value base) by lia. rewrite Hq. lia.
      * simpl in Hgo. apply Nat.ltb_ge in Hgo.
        assert (fuel = 0)%nat as -> by lia. change (Z.of_nat 1) with 1 in Hvb.
        rewrite Z.pow_1_r in Hvb. apply Hq, Z.div_small. lia.
    + intros k _. simpl. lia.
Qed.

(** The sign character of a number with no [+] or space flag. *)
Definition sign_text (negative : bool) : list Z := if negative then [chr "-"] else [].

Lemma head_rev {A} (l : list A) : head (rev l) = last l.
Proof.
  induction l as [|a l _] using rev_ind; [done|]. by rewrite rev_app_distr, last_snoc.
Qed.

(** No flag is set in the word 0, and a field of width 0 has no width. *)
Ltac no_flags :=
  repeat match goal with
  | |- context [has_flag 0 ?f] => change (has_flag 0 f) with false
  end;
  change (truthy 0) with false; cbn [negb andb orb].

Lemma format_plain buf negative base :
  (length buf <= PRINTF_NTOA_BUFFER_SIZE)%nat ->
  (negative = true -> (length buf < PRINTF_NTOA_BUFFER_SIZE)%nat) ->
  _ntoa_format_buf buf negative base 0 0 0
  = Some (buf ++ sign_text negative, 0).
Proof.
  intros Hl Hn. unfold _ntoa_format_buf, push_sign. no_flags.
  assert (Hp : pad_zeros PRINTF_NTOA_BUFFER_SIZE 0 buf = Some buf).
  { unfold PRINTF_NTOA_BUFFER_SIZE. cbn [pad_zeros].
    by replace (Z.of_nat (length buf) <? 0) with false by lia. }
  rewrite Hp. cbn [mbind option_bind].
  destruct negative; cbn [sign_text].
  - pose proof (Hn eq_refl). by rewrite (proj2 (Nat.ltb_lt _ _)), push_room.
  - rewrite app_nil_r. by destruct (length buf <? _)%nat.
Qed.

Lemma number_text_spec (value : Z) (negative : bool) (base : Z) :
  0 <= value < 2 ^ 64 -> 2 <= base <= 16 -> (negative = true -> 8 <= base) ->
  exists ds, number_text value negative base 0 0 0 = Some (sign_text negative ++ ds) /\
    (1 <= length ds <= PRINTF_NTOA_BUFFER_SIZE)%nat /\
    numeral base ds = Some (value mod base ^ 32) /\
    (8 <= base -> numeral base ds = Some value) /\
    Forall (digit_below base) ds /\
    (value <> 0 -> value < base ^ 32 -> head ds <> Some (chr "0")).
Proof.
  intros Hv Hb Hneg.
  destruct (ntoa_digits_spec PRINTF_NTOA_BUFFER_SIZE value base 0 [])
    as (ds & Hds & Hlen & Hnum & Hbel & Hlast & Hk); [lia | done | done | unfold PRINTF_NTOA_BUFFER_SIZE; lia |].
  change (Z.of_nat PRINTF_NTOA_BUFFER_SIZE) with 32 in *.
  assert (Hb8 : 8 <= base -> value < base ^ 22).
  { intros H8. eapply Z.lt_le_trans; [apply Hv|].
    transitivity (8 ^ 22); [done | by apply Z.pow_le_mono_l]. }
  exists (rev ds). split_and!.
  - unfold number_text.
    replace (if negb (truthy value) then clear_bits 0 FLAGS_HASH else 0) with 0
      by (by destruct (negb _)).
    no_flags. rewrite Hds. cbn [mbind option_bind app].
    rewrite format_plain.
    + cbn [mbind option_bind]. unfold rev_text.
      change (has_flag 0 _) with false. cbv iota.
      rewrite rev_app_distr. unfold iters. rewrite Z2Nat.nonpos by lia.
      by destruct negative.
    + apply Hlen.
    + intros Hn. specialize (Hk 21%nat (Hb8 (Hneg Hn))). unfold PRINTF_NTOA_BUFFER_SIZE. lia.
  - rewrite length_rev. lia.
  - rewrite length_rev. lia.
  - unfold numeral. by rewrite rev_involutive.
  - intros H8. unfold numeral. rewrite rev_involutive, Hnum. f_equal. apply Z.mod_small.
    split; [lia|]. etrans; [by apply Hb8|]. apply Z.pow_lt_mono_r; lia.
  - by apply Forall_rev.
  - intros Hv0 Hvb. specialize (Hlast Hv0 Hvb). rewrite head_rev in *. done.
Qed.

(** A number is printed in its base.  For every value below 2^64 and
    every base from 2 to 16, the text of a number with no flags, width or
    precision is its sign followed by between 1 and 32 digits that denote
    the value modulo base^32 (so exactly the value in octal, decimal and
    hexadecimal), each below the base, and has no leading zero unless the value is zero. *)
Theorem number_text_value (value : Z) (negative : bool) (base : Z) :
  0 <= value < 2 ^ 64 -> 2 <= base <= 16 -> (negative = true -> 8 <= base) ->
  exists ds, number_text value negative base 0 0 0 = Some (sign_text negative ++ ds) /\
    (1 <= length ds <= PRINTF_NTOA_BUFFER_SIZE)%nat /\
    numeral base ds = Some (value mod base ^ 32) /\
    (8 <= base -> numeral base ds = Some value) /\
    Forall (digit_below base) ds /\
    (value <> 0 -> value < base ^ 32 -> head ds <> Some (chr "0")).
Proof. exact (number_text_spec value negative base). Qed.

Lemma number_text_value_witness :
  exists ds, number_text 255 true 16 0 0 0 = Some (sign_text true ++ ds) /\
    (1 <= length ds <= PRINTF_NTOA_BUFFER_SIZE)%nat /\
    numeral 16 ds = Some (255 mod 16 ^ 32) /\
    (8 <= 16 -> numeral 16 ds = Some 255) /\
    Forall (digit_below 16) ds /\
    (255 <> 0 -> 255 < 16 ^ 32 -> head ds <> Some (chr "0")).
Proof. apply (number_text_value 255 true 16); intros; lia. Defined.

(** ** The conversion buffer never overflows *)

Lemma push_if_room_spec buf c :
  (length buf <= PRINTF_NTOA_BUFFER_SIZE)%nat ->
  exists b, push_if_room buf c = Some b /\ (length b <= PRINTF_NTOA_BUFFER_SIZE)%nat.
Proof.
  intros H. unfold push_if_room. destruct (Nat.ltb_spec (length buf) PRINTF_NTOA_BUFFER_SIZE).
  - rewrite push_room by done. eexists. split; [done|]. rewrite length_app. simpl. lia.
  - by eexists.
Qed.

Lemma pad_zeros_spec fuel bound buf :
  (length buf <= PRINTF_NTOA_BUFFER_SIZE)%nat ->
  exists b, pad_zeros fuel bound buf = Some b /\ (length b <= PRINTF_NTOA_BUFFER_SIZE)%nat.
Proof.
  revert buf. induction fuel as [|fuel IH]; intros buf H; cbn [pad_zeros]; [by eexists|].
  destruct (_ && _) eqn:Hc; [|by eexists]. zify_bool. apply Nat.ltb_lt in H1.
  rewrite push_room by done. simpl. apply IH. rewrite length_app. simpl. lia.
Qed.

Lemma push_sign_spec buf negative flags :
  (length buf <= PRINTF_NTOA_BUFFER_SIZE)%nat ->
  exists b, push_sign buf negative flags = Some b /\ (length b <= PRINTF_NTOA_BUFFER_SIZE)%nat.
Proof.
  intros H. unfold push_sign. destruct (Nat.ltb_spec (length buf) PRINTF_NTOA_BUFFER_SIZE); [|by eexists].
  repeat case_match; rewrite ?push_room by done; eexists; (split; [done|]);
    rewrite ?length_app; simpl; lia.
Qed.

Lemma hash_prefix_spec buf base prec width flags :
  (length buf <= PRINTF_NTOA_BUFFER_SIZE)%nat ->
  exists b, hash_prefix buf base prec width flags = Some b /\
    (length b <= PRINTF_NTOA_BUFFER_SIZE)%nat.
Proof.
  intros H. unfold hash_prefix. cbv zeta. set (buf1 := if _ : bool then _ else buf).
  assert (Hb : (length buf1 <= PRINTF_NTOA_BUFFER_SIZE)%nat).
  { subst buf1. repeat case_match; rewrite ?length_take; lia. }
  assert (Hp : forall c, (length buf1 <? PRINTF_NTOA_BUFFER_SIZE)%nat = true ->
    exists b, (mbind (M := option) (fun b => push_if_room b (chr "0")) (push buf1 c)) = Some b /\
      (length b <= PRINTF_NTOA_BUFFER_SIZE)%nat).
  { intros c Hc%Nat.ltb_lt. rewrite push_room by done. apply push_if_room_spec.
    rewrite length_app. simpl. lia. }
  repeat match goal with |- context [if ?b && ?c && ?d then _ else _] => destruct (b && c && d) eqn:?
    | |- context [if (_ =? 2) && ?d then _ else _] => destruct ((base =? 2) && d) eqn:? end;
    zify_bool; first [by apply Hp | exact (push_if_room_spec buf1 _ Hb)].
Qed.

Lemma format_buf_spec buf negative base prec width flags :
  (length buf <= PRINTF_NTOA_BUFFER_SIZE)%nat ->
  exists b w, _ntoa_format_buf buf negative base prec width flags = Some (b, w) /\
    (length b <= PRINTF_NTOA_BUFFER_SIZE)%nat.
Proof.
  intros H. unfold _ntoa_format_buf.
  assert (Htail : forall buf w, (length buf <= PRINTF_NTOA_BUFFER_SIZE)%nat ->
    exists b w', (buf0 ← (if has_flag flags FLAGS_HASH then hash_prefix buf base prec w flags else Some buf);
      buf1 ← push_sign buf0 negative flags; Some (buf1, w)) = Some (b, w') /\
      (length b <= PRINTF_NTOA_BUFFER_SIZE)%nat).
  { clear buf H. intros buf w H. destruct (has_flag flags FLAGS_HASH).
    - destruct (hash_prefix_spec buf base prec w flags H) as (b & -> & Hb). cbn [mbind option_bind].
      destruct (push_sign_spec b negative flags Hb) as (b' & -> & Hb'). cbn [mbind option_bind]. eauto.
    - cbn [mbind option_bind]. destruct (push_sign_spec buf negative flags H) as (b' & -> & Hb'). cbn [mbind option_bind]. eauto. }
  destruct (negb (has_flag flags FLAGS_LEFT)); [|by apply Htail].
  cbv zeta. set (w := if _ : bool then width - 1 else width).
  destruct (pad_zeros_spec PRINTF_NTOA_BUFFER_SIZE prec buf H) as (b & -> & Hb). cbn [mbind option_bind].
  destruct (has_flag flags FLAGS_ZEROPAD); [|by apply Htail].
  destruct (pad_zeros_spec PRINTF_NTOA_BUFFER_SIZE w b Hb) as (b' & -> & Hb'). cbn [mbind option_bind].
  by apply Htail.
Qed.

(** The 32-byte conversion buffer is never overrun.  For every value,
    base, precision, width and combination of flags, converting a number
    writes only inside the buffer, so it always produces a text. *)
Theorem number_text_total (value : Z) (negative : bool) (base prec width flags : Z) :
  0 <= value -> 2 <= base <= 16 ->
  exists b w, number_text value negative base prec width flags
    = Some (rev_text b w (if negb (truthy value) then clear_bits flags FLAGS_HASH else flags)) /\
    (length b <= PRINTF_NTOA_BUFFER_SIZE)%nat.
Proof.
  intros Hv Hb. unfold number_text. set (fl := if _ : bool then clear_bits _ _ else flags).
  assert (Hd : exists ds, (if negb (has_flag fl FLAGS_PRECISION) || truthy value
     then ntoa_digits PRINTF_NTOA_BUFFER_SIZE value base fl [] else Some []) = Some ds /\
     (length ds <= PRINTF_NTOA_BUFFER_SIZE)%nat).
  { destruct (_ || _); [|by exists []; split; [|unfold PRINTF_NTOA_BUFFER_SIZE; simpl; lia]].
    destruct (ntoa_digits_spec PRINTF_NTOA_BUFFER_SIZE value base fl []) as (ds & Hds & Hlen & _);
      [done | done | done | unfold PRINTF_NTOA_BUFFER_SIZE; lia|].
    exists ds. split; [done | apply Hlen]. }
  destruct Hd as (ds & -> & Hlen). simpl.
  destruct (format_buf_spec ds negative base prec width fl Hlen) as (b & w & -> & Hb'). simpl. eauto.
Qed.

Lemma number_text_total_witness :
  exists b w, number_text (2 ^ 64 - 1) true 2 100 200 (Z.lor FLAGS_ZEROPAD FLAGS_HASH)
    = Some (rev_text b w (Z.lor FLAGS_ZEROPAD FLAGS_HASH)) /\
    (length b <= PRINTF_NTOA_BUFFER_SIZE)%nat.
Proof.
  apply (number_text_total (2 ^ 64 - 1) true 2 100 200 (Z.lor FLAGS_ZEROPAD FLAGS_HASH)); lia.
Defined.

(** ** Field width *)

Lemma length_rev_text b w flags :
  Z.of_nat (length (rev_text b w flags)) =
    if has_flag flags FLAGS_LEFT || negb (has_flag flags FLAGS_ZEROPAD)
    then Z.max (Z.of_nat (length b)) w else Z.of_nat (length b).
Proof.
  unfold rev_text, spaces, iters.
  destruct (has_flag flags FLAGS_LEFT), (has_flag flags FLAGS_ZEROPAD); simpl;
    rewrite ?length_app, ?length_rev, ?length_replicate; lia.
Qed.

(** Zero padding stops at the bound or at the end of the buffer. *)
Lemma pad_zeros_length fuel bound buf b :
  (PRINTF_NTOA_BUFFER_SIZE <= length buf + fuel)%nat ->
  pad_zeros fuel bound buf = Some b ->
  bound <= Z.of_nat (length b) \/ (PRINTF_NTOA_BUFFER_SIZE <= length b)%nat.
Proof.
  revert buf. induction fuel as [|fuel IH]; intros buf Hf; cbn [pad_zeros].
  - intros [= <-]. right. lia.
  - destruct (_ && _) eqn:Hc.
    + zify_bool. apply Nat.ltb_lt in H0. rewrite push_room by done.
      cbn [mbind option_bind]. intros Hp. eapply IH; [|done]. rewrite length_app. simpl. lia.
    + intros [= <-]. zify_bool; [by left|]. right. by apply Nat.ltb_ge.
Qed.

(** With the zero flag the sign takes the column the padding left free. *)
Lemma zero_padded_length buf negative base prec width flags b w :
  (length buf <= PRINTF_NTOA_BUFFER_SIZE)%nat ->
  has_flag flags FLAGS_LEFT = false -> has_flag flags FLAGS_ZEROPAD = true ->
  has_flag flags FLAGS_HASH = false -> 0 <= width <= 32 ->
  _ntoa_format_buf buf negative base prec width flags = Some (b, w) ->
  width <= Z.of_nat (length b).
Proof.
  intros Hl HL HZ HH Hw. unfold _ntoa_format_buf. rewrite HL, HZ, HH.
  cbn [negb]. cbv zeta. set (w' := if _ : bool then width - 1 else width).
  destruct (pad_zeros_spec PRINTF_NTOA_BUFFER_SIZE prec buf Hl) as (b1 & -> & Hb1).
  cbn [mbind option_bind].
  destruct (pad_zeros_spec PRINTF_NTOA_BUFFER_SIZE w' b1 Hb1) as (b2 & Hp & Hb2).
  rewrite Hp. cbn [mbind option_bind].
  apply pad_zeros_length in Hp; [|lia]. unfold PRINTF_NTOA_BUFFER_SIZE in *.
  unfold push_sign. destruct (Nat.ltb_spec (length b2) PRINTF_NTOA_BUFFER_SIZE) as [Hr|Hr];
    unfold PRINTF_NTOA_BUFFER_SIZE in Hr.
  2: { intros [= <- _]. lia. }
  assert (Hflag : has_flag flags (Z.lor FLAGS_PLUS FLAGS_SPACE)
    = has_flag flags FLAGS_PLUS || has_flag flags FLAGS_SPACE).
  { unfold has_flag, truthy. rewrite Z.land_lor_distr_r.
    destruct (Z.eqb_spec (Z.land flags FLAGS_PLUS) 0) as [->|Hp1];
      destruct (Z.eqb_spec (Z.land flags FLAGS_SPACE) 0) as [->|Hp2]; [done|..];
      rewrite ?Z.lor_0_l, ?Z.lor_0_r; simpl; apply negb_true_iff, Z.eqb_neq; [done..|].
    intros [? ?]%Z.lor_eq_0_iff. done. }
  subst w'. rewrite Hflag in Hp.
  destruct negative, (has_flag flags FLAGS_PLUS), (has_flag flags FLAGS_SPACE);
    cbn [orb andb] in Hp; rewrite ?push_room by (unfold PRINTF_NTOA_BUFFER_SIZE; lia);
    cbn [mbind option_bind]; intros [= <- _]; rewrite ?length_app; simpl length;
    unfold truthy in Hp; destruct (Z.eqb_spec width 0); simpl in Hp; lia.
Qed.

(** With spaces the width is the field's own. *)
Lemma space_padded_width buf negative base prec width flags b w :
  has_flag flags FLAGS_LEFT || negb (has_flag flags FLAGS_ZEROPAD) = true ->
  _ntoa_format_buf buf negative base prec width flags = Some (b, w) -> w = width.
Proof.
  intros Hsp. unfold _ntoa_format_buf.
  assert (Htail : forall o, (buf0 ← o; buf1 ← push_sign buf0 negative flags;
    Some (buf1, width)) = Some (b, w) -> w = width).
  { intros [b0|]; cbn [mbind option_bind]; [|done].
    destruct (push_sign b0 negative flags); cbn [mbind option_bind]; [|done].
    by intros [= _ <-]. }
  destruct (has_flag flags FLAGS_LEFT), (has_flag flags FLAGS_ZEROPAD); try done;
    rewrite ?andb_false_r; cbn [negb andb mbind option_bind]; try apply Htail.
  destruct (pad_zeros _ _ _); cbn [mbind option_bind]; [apply Htail | done].
Qed.

(** Dropping the [#] flag of a zero value keeps the others. *)
Lemma clear_hash flags f (z : bool) :
  (Z.land FLAGS_HASH f = 0 ->
   has_flag (if z then clear_bits flags FLAGS_HASH else flags) f = has_flag flags f) /\
  (has_flag flags FLAGS_HASH = false ->
   has_flag (if z then clear_bits flags FLAGS_HASH else flags) FLAGS_HASH = false).
Proof.
  destruct z; [|done]. unfold has_flag, clear_bits. split; intros H.
  - f_equal. apply Z_bits_ext. intros i Hi. rewrite !Z.land_spec, Z.ldiff_spec.
    apply (f_equal (fun z => Z.testbit z i)) in H. rewrite Z.land_spec, Z.bits_0 in H.
    destruct (Z.testbit flags i), (Z.testbit f i), (Z.testbit FLAGS_HASH i); done.
  - unfold truthy. apply negb_false_iff, Z.eqb_eq, Z_bits_ext. intros i Hi.
    rewrite Z.land_spec, Z.ldiff_spec, Z.bits_0.
    destruct (Z.testbit flags i), (Z.testbit FLAGS_HASH i); done.
Qed.

(** The digits [_ntoa_long] hands to [_ntoa_format] fit the buffer. *)
Lemma digits_fit value base (fl : Z) (c : bool) ds :
  0 <= value -> 2 <= base <= 16 ->
  (if c then ntoa_digits PRINTF_NTOA_BUFFER_SIZE value base fl [] else Some []) = Some ds ->
  (length ds <= PRINTF_NTOA_BUFFER_SIZE)%nat.
Proof.
  intros Hv Hb. destruct c.
  - destruct (ntoa_digits_spec PRINTF_NTOA_BUFFER_SIZE value base fl []) as (d & -> & Hlen & _);
      [done | done | done | unfold PRINTF_NTOA_BUFFER_SIZE; lia|].
    intros [= <-]. apply Hlen.
  - intros [= <-]. unfold PRINTF_NTOA_BUFFER_SIZE. simpl. lia.
Qed.

(** A number fills its field.  The text of a converted number has at
    least [width] characters when it is padded with spaces (on either side),
    and also when it is padded with zeros, without the [#] flag and within
    the 32 bytes of the conversion buffer. *)
Theorem number_field_width (value : Z) (negative : bool) (base prec width flags : Z)
    (t : list Z) :
  0 <= value -> 2 <= base <= 16 -> 0 <= width ->
  number_text value negative base prec width flags = Some t ->
  has_flag flags FLAGS_LEFT = true \/ has_flag flags FLAGS_ZEROPAD = false \/
    (has_flag flags FLAGS_HASH = false /\ width <= 32) ->
  width <= Z.of_nat (length t).
Proof.
  intros Hv Hb Hw0 Ht Hc. unfold number_text in Ht. revert Ht. cbv zeta.
  pose proof (clear_hash flags FLAGS_LEFT (negb (truthy value))) as [HL HH].
  pose proof (proj1 (clear_hash flags FLAGS_ZEROPAD (negb (truthy value)))) as HZ.
  specialize (HL eq_refl). specialize (HZ eq_refl).
  set (fl := if negb (truthy value) then clear_bits flags FLAGS_HASH else flags) in *.
  destruct (if negb _ || _ then _ else _) as [ds|] eqn:Hds; [|done].
  apply digits_fit in Hds; [|done..]. cbn [mbind option_bind].
  destruct (_ntoa_format_buf ds negative base prec width fl) as [[b w]|] eqn:Hf; [|done].
  cbn [mbind option_bind]. intros [= <-]. rewrite length_rev_text.
  destruct (has_flag fl FLAGS_LEFT || negb (has_flag fl FLAGS_ZEROPAD)) eqn:Hsp.
  - apply space_padded_width in Hf as ->; [lia | done].
  - apply orb_false_iff in Hsp as [HL' HZ']. apply negb_false_iff in HZ'.
    rewrite <- HL, <- HZ, HL', HZ' in Hc. destruct Hc as [|[|[Hh Hw]]]; [done..|].
    eapply zero_padded_length; [exact Hds | done.. | auto | done | exact Hf].
Qed.

Lemma number_field_width_witness : 6 <= Z.of_nat (length (cstr "-00042")).
Proof.
  apply (number_field_width 42 true 10 0 6 FLAGS_ZEROPAD (cstr "-00042")); try lia.
  - reflexivity.
  - right; right; split; [reflexivity | lia].
Defined.

(** ** The loop over the format *)

Lemma atoi_loop_length i str : (length (snd (_atoi_loop i str)) <= length str)%nat.
Proof.
  revert i. induction str as [|c str IH]; intros i; cbn [_atoi_loop]; [done|].
  destruct (_is_digit c); [|done]. specialize (IH (u32 (i * 10 + (c - chr "0")))). simpl. lia.
Qed.

Lemma parse_flags_length fl f : (length (snd (parse_flags fl f)) <= length f)%nat.
Proof.
  revert fl. induction f as [|c f IH]; intros fl; cbn [parse_flags]; [done|].
  repeat case_match; try (etrans; [apply IH | simpl; lia]); done.
Qed.

Lemma parse_width_length fl f va fl' w f' va' :
  parse_width fl f va = Some (fl', w, f', va') -> (length f' <= length f)%nat.
Proof.
  unfold parse_width, _atoi. destruct (_is_digit _).
  - pose proof (atoi_loop_length 0 f). destruct (_atoi_loop 0 f). by intros [= _ _ <- _].
  - destruct (_ =? _); [|by intros [= _ _ <- _]].
    destruct (va_int va) as [[v va1]|]; [|done]. simpl.
    destruct (v <? 0); intros [= _ _ <- _]; destruct f; simpl; lia.
Qed.

Lemma parse_precision_length fl f va fl' p f' va' :
  parse_precision fl f va = Some (fl', p, f', va') -> (length f' <= length f)%nat.
Proof.
  unfold parse_precision, _atoi. destruct (_ =? _); [|by intros [= _ _ <- _]].
  assert (Ht : (length (tail f) <= length f)%nat) by (destruct f; simpl; lia).
  destruct (_is_digit _).
  - pose proof (atoi_loop_length 0 (tail f)). destruct (_atoi_loop 0 (tail f)).
    intros [= _ _ <- _]. simpl in *. lia.
  - destruct (_ =? _); [|by intros [= _ _ <- _]].
    destruct (va_int va) as [[v va1]|]; [|done]. simpl.
    intros [= _ _ <- _]. destruct f as [|? [|? ?]]; simpl; lia.
Qed.

Lemma parse_length_length fl f : (length (snd (parse_length fl f)) <= length f)%nat.
Proof.
  unfold parse_length. repeat case_match; simpl; rewrite ?length_drop; lia.
Qed.

Lemma spec_text_length p w fl f va t f' va' :
  spec_text p w fl f va = Some (t, f', va') -> (length f' <= length f)%nat.
Proof.
  assert (Ht : (length (tail f) <= length f)%nat) by (destruct f; simpl; lia).
  unfold spec_text. destruct (is_int_spec _).
  { destruct (int_arg _ _ _) as [[[? ?] ?]|]; [|done]. cbn [mbind option_bind].
    destruct (number_text _ _ _ _ _ _); [|done]. by intros [= _ <- _]. }
  destruct (_ =? _); [destruct (va_int va) as [[? ?]|]; [|done]; by intros [= _ <- _]|].
  destruct (_ =? _); [destruct (va_str va) as [[? ?]|]; [|done]; by intros [= _ <- _]|].
  destruct (_ =? _).
  { destruct (va_ptr va) as [[? ?]|]; [|done]. cbn [mbind option_bind].
    destruct (number_text _ _ _ _ _ _); [|done]. by intros [= _ <- _]. }
  destruct f; [done|]. by intros [= _ <- _].
Qed.

Lemma directive_text_length f va t f' va' :
  directive_text f va = Some (t, f', va') -> (length f' <= length f)%nat.
Proof.
  unfold directive_text. pose proof (parse_flags_length 0 f) as Hf.
  destruct (parse_flags 0 f) as [fl1 f1].
  destruct (parse_width fl1 f1 va) as [[[[fl2 w] f2] va2]|] eqn:Hw; [|done].
  apply parse_width_length in Hw. cbn [mbind option_bind].
  destruct (parse_precision fl2 f2 va2) as [[[[fl3 p] f3] va3]|] eqn:Hp; [|done].
  apply parse_precision_length in Hp. cbn [mbind option_bind].
  pose proof (parse_length_length fl3 f3) as Hl. destruct (parse_length fl3 f3) as [fl4 f4].
  intros Hs%spec_text_length. simpl in *. lia.
Qed.

(** The loop over the format ends within one turn per character: with
    any fuel of at least the length of the format the sequence of output
    calls is the same, so running out of fuel is never what stops a call. *)
Theorem format_loop_terminates (out : out_fct_type) (maxlen : Z) (format : list Z)
    (va : list va_item) (fuel : nat) (idx : Z) (s : sinks) :
  (length format <= fuel)%nat ->
  format_loop out maxlen fuel idx format va s
  = format_loop out maxlen (length format) idx format va s.
Proof.
  intros Hl. rewrite !format_loop_emits.
  enough (H : forall fuel fuel' format va, (length format <= fuel)%nat ->
    (length format <= fuel')%nat -> render_loop fuel format va = render_loop fuel' format va)
    by (by rewrite (H fuel (length format))).
  clear. induction fuel as [|fuel IH]; intros [|fuel'] [|c f] va H1 H2;
    try done; try (simpl in *; lia). cbn [render_loop]. simpl in H1, H2.
  destruct (negb (c =? chr "%")).
  - by rewrite (IH fuel' f va) by lia.
  - destruct (directive_text f va) as [[[t f'] va']|] eqn:Hd; [|done].
    apply directive_text_length in Hd. cbn [mbind option_bind].
    by rewrite (IH fuel' f' va') by lia.
Qed.

Lemma format_loop_terminates_witness :
  format_loop OutChar 5 40 0 (cstr "%s!") [VaStr (cstr "hi")] (fresh_sinks 0)
  = format_loop OutChar 5 3 0 (cstr "%s!") [VaStr (cstr "hi")] (fresh_sinks 0).
Proof.
  apply (format_loop_terminates OutChar 5 (cstr "%s!") [VaStr (cstr "hi")] 40). simpl. lia.
Defined.

(** A format that ends inside a conversion is read past its terminator.
    After any text without [%], a final [%] followed only by flag characters
    makes the default case print the terminating NUL and step over it. *)
Theorem truncated_conversion_overreads (out : out_fct_type) (maxlen : Z)
    (text flags : list Z) (va : list va_item) (s : sinks) :
  chr "%" ∉ text ->
  Forall (fun c => c ∈ [chr "0"; chr "-"; chr "+"; chr " "; chr "#"]) flags ->
  _vsnprintf out false maxlen (text ++ chr "%" :: flags) va s = None.
Proof.
  intros Ht Hf. unfold _vsnprintf. mstep. rewrite format_loop_emits.
  replace (render_loop _ _ _) with (@None (list Z)); [done|].
  assert (Hpf : forall fl, exists fl', parse_flags fl flags = (fl', [])).
  { induction Hf as [|c f Hc Hf IH]; intros fl; [by exists fl|].
    rewrite !elem_of_cons, elem_of_nil in Hc. cbn [parse_flags].
    destruct Hc as [->|[->|[->|[->|[->|[]]]]]]; apply IH. }
  assert (Hd : directive_text flags va = None).
  { unfold directive_text. destruct (Hpf 0) as [fl' ->]. reflexivity. }
  rewrite length_app. simpl length.
  induction text as [|c text IH].
  - simpl. by rewrite Hd.
  - rewrite not_elem_of_cons in Ht. destruct Ht as [Hc Ht]. simpl.
    replace (c =? chr "%") with false by (symmetry; apply Z.eqb_neq; congruence).
    simpl. by rewrite <- (IH Ht).
Qed.

Lemma truncated_conversion_overreads_witness :
  _vsnprintf OutBuffer false 8 (cstr "ab" ++ chr "%" :: cstr "-0") [] (fresh_sinks 8) = None.
Proof.
  apply (truncated_conversion_overreads OutBuffer 8 (cstr "ab") (cstr "-0") [] (fresh_sinks 8)).
  - vm_compute. intros H. repeat (inversion H as [|? ? ? H']; clear H; rename H' into H).
  - repeat constructor.
Defined.
