(* ===== verification/Klibc.v ===== *)
(** * The kernel's C library: [klibc/cstring.cpp], [klibc/cctype.cpp]

    Memory is a partial map from addresses to bytes; a read or a write
    outside it is [None].  A [char] is its byte: the code only compares
    characters for equality and with ASCII ranges, which no byte above 127 is
    in, signed or not.  The loops over strings have fuel; the
    length of the strings is enough. *)
From S2P Require Import Prelude.

Abbreviation memory := (gmap Z Z).

Definition peek (p : Z) : M memory Z := fun m => b ← m !! p; Some (b, m).
Definition poke (p b : Z) : M memory unit := fun m => _ ← m !! p; Some (tt, <[p := b]> m).

(** ** Blocks *)

Definition memcpy (dest src n : Z) : M memory Z :=
  _ ← for_range 0 n (fun i => b ← peek (src + i); poke (dest + i) b);
  mret dest.

Definition memset (s c n : Z) : M memory Z :=
  _ ← for_range 0 n (fun i => poke (s + i) (u8 c));
  mret s.

Definition memmove (dest src n : Z) : M memory Z :=
  _ ← (if dest <? src then
         for_range 0 n (fun i => b ← peek (src + i); poke (dest + i) b)
       else if src <? dest then
         for_down (Z.to_nat n) n 1 (fun i => b ← peek (src + (i - 1)); poke (dest + (i - 1)) b)
       else mret tt);
  mret dest.

Fixpoint memcmp_loop (n : nat) (i s1 s2 : Z) : M memory Z :=
  match n with
  | O => mret 0
  | S n' =>
      a ← peek (s1 + i); b ← peek (s2 + i);
      if negb (a =? b) then mret (if a <? b then -1 else 1)
      else memcmp_loop n' (i + 1) s1 s2
  end.
Definition memcmp (s1 s2 n : Z) : M memory Z := memcmp_loop (Z.to_nat n) 0 s1 s2.

(** ** Characters *)

Definition isspace (c : Z) : bool :=
  (c =? chr " ") || (c =? 9) || (c =? 10) || (c =? 11) || (c =? 12) || (c =? 13).
Definition isdigit (c : Z) : bool := (chr "0" <=? c) && (c <=? chr "9").
Definition isalpha (c : Z) : bool :=
  if (chr "a" <=? c) && (c <=? chr "z") then true
  else if (chr "A" <=? c) && (c <=? chr "Z") then true else false.
Definition isalnum (c : Z) : bool := isalpha c || isdigit c.
Definition toupper (c : Z) : Z :=
  if (chr "a" <=? c) && (c <=? chr "z") then u8 (c + 0x20) else c.
Definition tolower (c : Z) : Z := u8 (toupper c - 0x20).

(** ** Strings *)

Section Strings.
(** The fuel of each loop. *)
Context (fuel : nat).

Definition strcpy (dest src : Z) : M memory Z :=
  _ ← loop fuel (fun '(ptr, src) =>
        c ← peek src; _ ← poke ptr c;
        mret (if truthy c then inl (ptr + 1, src + 1) else inr tt)) (dest, src);
  mret dest.

Definition strncpy (dest src n : Z) : M memory Z :=
  i ← loop fuel (fun i =>
        if i <? n then
          c ← peek (src + i);
          if truthy c then _ ← poke (dest + i) c; mret (inl (i + 1)) else mret (inr i)
        else mret (inr i)) 0;
  _ ← for_range i n (fun i => poke (dest + i) 0);
  mret dest.

Definition strlen (str : Z) : M memory Z :=
  loop fuel (fun len => c ← peek (str + len); mret (if truthy c then inl (u32 (len + 1)) else inr len)) 0.

Definition strcmp (s1 s2 : Z) : M memory Z :=
  loop fuel (fun '(s1, s2) =>
    a ← peek s1;
    if truthy a then
      b ← peek s2; mret (if a =? b then inl (s1 + 1, s2 + 1) else inr (a - b))
    else b ← peek s2; mret (inr (a - b))) (s1, s2).

Definition strncmp (s1 s2 n : Z) : M memory Z :=
  i ← loop fuel (fun i =>
        if i <? n then
          a ← peek (s1 + i);
          if truthy a then
            b ← peek (s2 + i); mret (if a =? b then inl (i + 1) else inr i)
          else mret (inr i)
        else mret (inr i)) 0;
  if i =? n then mret 0
  else a ← peek (s1 + i); b ← peek (s2 + i); mret (a - b).

(** [while ( *ptr) ptr++]. *)
Definition str_end (ptr : Z) : M memory Z :=
  loop fuel (fun ptr => c ← peek ptr; mret (if truthy c then inl (ptr + 1) else inr ptr)) ptr.

Definition strcat (dest src : Z) : M memory Z :=
  ptr ← str_end dest; _ ← strcpy ptr src; mret dest.

Definition strncat (dest src n : Z) : M memory Z :=
  ptr ← str_end dest;
  ptr ← loop fuel (fun '(i, ptr) =>
          if i <? n then
            c ← peek (src + i);
            if truthy c then _ ← poke ptr c; mret (inl (i + 1, ptr + 1)) else mret (inr ptr)
          else mret (inr ptr)) (0, ptr);
  _ ← poke ptr 0;
  mret dest.

Definition strchr (str c : Z) : M memory Z :=
  loop fuel (fun str =>
    x ← peek str;
    mret (if truthy x then if x =? u8 c then inr str else inl (str + 1) else inr 0)) str.

Definition strrchr (s c : Z) : M memory Z :=
  loop fuel (fun '(s, last) =>
    x ← peek s;
    mret (if truthy x then inl (s + 1, if x =? u8 c then s else last) else inr last)) (s, 0).

(** Whether [needle] is at [h]. *)
Definition str_prefix (h needle : Z) : M memory bool :=
  loop fuel (fun '(h, n) =>
    a ← peek h; b ← peek n;
    mret (if truthy a && truthy b && (a =? b) then inl (h + 1, n + 1) else inr (negb (truthy b))))
  (h, needle).

Definition strstr (haystack needle : Z) : M memory Z :=
  n0 ← peek needle;
  if negb (truthy n0) then mret haystack else
  loop fuel (fun h =>
    c ← peek h;
    if truthy c then
      found ← str_prefix h needle;
      mret (if (found : bool) then inr h else inl (h + 1))
    else mret (inr 0)) haystack.

(** Whether a character is one of [delim]. *)
Definition in_set (delim c : Z) : M memory bool := p ← strchr delim c; mret (truthy p).

(** Skip characters of the set, or characters outside it. *)
Definition skip_set (delim : Z) (inside : bool) (s : Z) : M memory Z :=
  loop fuel (fun s =>
    c ← peek s;
    if truthy c then
      i ← in_set delim c; mret (if Bool.eqb i inside then inl (s + 1) else inr s)
    else mret (inr s)) s.

(** The token and the saved pointer. *)
Definition strtok_r (str delim saveptr : Z) : M memory (Z * Z) :=
  let saveptr := if truthy str then str else saveptr in
  if saveptr =? 0 then mret (0, saveptr) else
  s ← skip_set delim true saveptr;
  c ← peek s;
  if negb (truthy c) then mret (0, 0) else
  let token := s in
  s ← skip_set delim false s;
  c ← peek s;
  if negb (truthy c) then mret (token, 0)
  else _ ← poke s 0; mret (token, s + 1).

(** [strtok] is the same over a static pointer. *)
Definition strtok (str delim next : Z) : M memory (Z * Z) :=
  let next := if truthy str then str else next in
  if next =? 0 then mret (0, next) else
  start ← skip_set delim true next;
  c ← peek start;
  if negb (truthy c) then mret (0, 0) else
  end_ ← skip_set delim false start;
  c ← peek end_;
  if truthy c then _ ← poke end_ 0; mret (start, end_ + 1)
  else mret (start, 0).

(** ** Numbers *)

(** Skip the characters of a predicate. *)
Definition skip_while (f : Z -> bool) (s : Z) : M memory Z :=
  loop fuel (fun s => c ← peek s; mret (if f c then inl (s + 1) else inr s)) s.

(** The value and the end pointer. *)
Definition strtod (nptr : Z) : M memory (Z * Z) :=
  s ← skip_while (fun c => (c =? chr " ") || (c =? 9) || (c =? 10)) nptr;
  c ← peek s;
  let '(sign, s) :=
    if c =? chr "+" then (1, s + 1) else if c =? chr "-" then (-1, s + 1) else (1, s) in
  '(result, s) ← loop fuel (fun '(result, s) =>
      c ← peek s;
      mret (if isdigit c then inl (u64 (result * 10 + (c - chr "0")), s + 1)
            else inr (result, s))) (0, s);
  mret (u64 (sign * result), s).

(** The value of a digit or letter, as in [strtol]. *)
Definition strtol_digit (c : Z) : option Z :=
  if (chr "0" <=? c) && (c <=? chr "9") then Some (c - chr "0")
  else if (chr "a" <=? c) && (c <=? chr "z") then Some (c - chr "a" + 10)
  else if (chr "A" <=? c) && (c <=? chr "Z") then Some (c - chr "A" + 10)
  else None.

(** A [long]; signed overflow is undefined. *)
Definition in_long (x : Z) : bool := (- 2 ^ 63 <=? x) && (x <? 2 ^ 63).

Definition strtol_digits (base s : Z) : M memory (Z * Z) :=
  loop fuel (fun '(result, s) =>
    c ← peek s;
    if truthy c then
      match strtol_digit c with
      | None => mret (inr (result, s))
      | Some digit =>
          if base <=? digit then mret (inr (result, s))
          else
            let result := result * base + digit in
            if in_long result then mret (inl (result, s + 1)) else ub
      end
    else mret (inr (result, s))) (0, s).

Definition strtol_space (c : Z) : bool :=
  (c =? chr " ") || (c =? 9) || (c =? 10) || (c =? 13) || (c =? 12) || (c =? 11).

(** The base, guessed from the prefix, and the text after the prefix. *)
Definition strtol_base (base s : Z) : M memory (Z * Z) :=
  if base =? 0 then
    c0 ← peek s;
    if c0 =? chr "0" then
      c1 ← peek (s + 1);
      mret (if (c1 =? chr "x") || (c1 =? chr "X") then (16, s + 2) else (8, s + 1))
    else mret (10, s)
  else if base =? 16 then
    c0 ← peek s;
    if c0 =? chr "0" then
      c1 ← peek (s + 1);
      mret (if (c1 =? chr "x") || (c1 =? chr "X") then (base, s + 2) else (base, s))
    else mret (base, s)
  else mret (base, s).

Definition strtol_value (nptr : Z) (neg : bool) (base start : Z) : M memory (Z * Z) :=
  '(result, s) ← strtol_digits base start;
  if s =? start then mret (0, nptr)
  else mret (if neg then - result else result, s).

(** The value and the end pointer. *)
Definition strtol (nptr base : Z) : M memory (Z * Z) :=
  s ← skip_while strtol_space nptr;
  c ← peek s;
  let '(neg, s) :=
    if c =? chr "-" then (true, s + 1) else if c =? chr "+" then (false, s + 1) else (false, s) in
  '(base, s) ← strtol_base base s;
  strtol_value nptr neg base s.

(** ** Copies, over the allocator: [malloc] gives an address. *)
Section Copies.
Context (malloc : Z -> M memory Z).

Definition strdup (s : Z) : M memory Z :=
  szs ← strlen s;
  new_str ← malloc (szs + 1);
  _ ← memcpy new_str s szs;
  _ ← poke (new_str + szs) 0;
  mret new_str.

Definition strndup (s n : Z) : M memory Z :=
  szs ← strlen s;
  let szs := if n <? szs then n else szs in
  new_str ← malloc szs;
  _ ← memcpy new_str s szs;
  mret new_str.
End Copies.
End Strings.

(** ** Copies between address spaces, [mm/vmm.cpp] *)

Definition copy_to_user (data user_memory n : Z) : M memory Z :=
  if data =? 0 then mret (-1)
  else if user_memory =? 0 then mret (-1)
  else _ ← memcpy data user_memory n; mret 0.

Definition copy_from_user (data kernel_memory n : Z) : M memory Z :=
  if data =? 0 then mret (-1)
  else if kernel_memory =? 0 then mret (-1)
  else _ ← memcpy kernel_memory data n; mret 0.
