(* ===== verification/KlibcSpec.v ===== *)
(** * The kernel's C library: theorems about [Klibc] *)
From S2P Require Import Prelude Printf PrintfSpec Klibc.

(** The bytes [l] are at [p]. *)
Definition holds (m : memory) (p : Z) (l : list Z) : Prop :=
  forall k c, l !! k = Some c -> m !! (p + Z.of_nat k) = Some c.
Definition mapped_bytes (m : memory) (p n : Z) : Prop := forall k, 0 <= k < n -> is_Some (m !! (p + k)).

(** [l], of characters that are not NUL, and its terminator. *)
Definition holds_str (m : memory) (p : Z) (l : list Z) : Prop :=
  holds m p (l ++ [0]) /\ Forall (fun c => c <> 0) l.

Lemma peek_run m p c : m !! p = Some c -> peek p m = Some (c, m).
Proof. intros H. unfold peek. by rewrite H. Qed.

Lemma poke_run m p c : is_Some (m !! p) -> poke p c m = Some (tt, <[p := c]> m).
Proof. intros [x H]. unfold poke. by rewrite H. Qed.

(** ** Moving blocks *)

(** [m'] is [m] with the bytes of [src + a .. src + b) of [m] at [dest]. *)
Definition moved (m : memory) (dest src a b : Z) (m' : memory) : Prop :=
  (forall k, a <= k < b -> m' !! (dest + k) = m !! (src + k)) /\
  (forall p, ~ (dest + a <= p < dest + b) -> m' !! p = m !! p).

Lemma move_byte m dest src a b i m' :
  mapped_bytes m src (i + 1) -> mapped_bytes m dest (i + 1) -> 0 <= i -> ~ (dest + a <= src + i < dest + b) ->
  (a = i + 1 \/ b = i) -> a <= b -> moved m dest src a b m' ->
  exists m'', (b ← peek (src + i); poke (dest + i) b) m' = Some (tt, m'') /\
    moved m dest src (Z.min a i) (Z.max b (i + 1)) m''.
Proof.
  intros Hs Hd Hi Hout Hend Hab [Hin Heq]. destruct (Hs i ltac:(lia)) as [c Hc].
  assert (Hc' : m' !! (src + i) = Some c) by by rewrite Heq.
  rewrite (bind_run _ _ _ _ _ (peek_run _ _ _ Hc')). eexists. split.
  { apply poke_run. rewrite Heq by lia. apply Hd. lia. }
  split.
  - intros k Hk. destruct (decide (k = i)) as [->|]; [by rewrite lookup_insert_eq|].
    rewrite lookup_insert_ne by lia. apply Hin. lia.
  - intros p Hp. rewrite lookup_insert_ne by lia. apply Heq. lia.
Qed.

Lemma mapped_bytes_le m p n n' : n' <= n -> mapped_bytes m p n -> mapped_bytes m p n'.
Proof. intros Hn H k Hk. apply H. lia. Qed.

Lemma move_up m dest src n :
  0 <= n -> dest < src \/ src + n <= dest -> mapped_bytes m src n -> mapped_bytes m dest n ->
  exists m', for_range 0 n (fun i => b ← peek (src + i); poke (dest + i) b) m = Some (tt, m') /\
    moved m dest src 0 n m'.
Proof.
  intros Hn Hds Hs Hd.
  assert (H : triple (moved m dest src 0 0) (for_range 0 n (fun i => b ← peek (src + i); poke (dest + i) b))
    (fun _ => moved m dest src 0 n)).
  { apply (triple_for_range_at (fun i => moved m dest src 0 i)); [done|]. intros i Hi m' Hm.
    destruct (move_byte m dest src 0 i i m') as (m2 & Hrun & Hm2); try lia; try done.
    { by apply mapped_bytes_le with n; [lia|]. } { by apply mapped_bytes_le with n; [lia|]. }
    exists tt, m2. split; [exact Hrun|]. by replace (Z.max i (i + 1)) with (i + 1) in Hm2 by lia;
      replace (Z.min 0 i) with 0 in Hm2 by lia. }
  destruct (H m) as ([] & m' & Hrun & Hm); [|by exists m']. split; [lia|done].
Qed.

Lemma move_down m dest src n :
  0 <= n < 2 ^ 64 -> src < dest -> mapped_bytes m src n -> mapped_bytes m dest n ->
  exists m', for_down (Z.to_nat n) n 1 (fun i => b ← peek (src + (i - 1)); poke (dest + (i - 1)) b) m
    = Some (tt, m') /\ moved m dest src 0 n m'.
Proof.
  intros Hn Hds Hs Hd.
  assert (H : triple (moved m dest src n n)
    (for_down (Z.to_nat n) n 1 (fun i => b ← peek (src + (i - 1)); poke (dest + (i - 1)) b))
    (fun _ => moved m dest src (1 - 1) n)).
  { apply (triple_for_down_at (fun i => moved m dest src i n)); [lia..|]. intros i Hi m' Hm.
    destruct (move_byte m dest src i n (i - 1) m') as (m2 & Hrun & Hm2); try lia; try done.
    { by apply mapped_bytes_le with n; [lia|]. } { by apply mapped_bytes_le with n; [lia|]. }
    exists tt, m2. split; [exact Hrun|]. by replace (Z.max n (i - 1 + 1)) with n in Hm2 by lia;
      replace (Z.min i (i - 1)) with (i - 1) in Hm2 by lia. }
  destruct (H m) as ([] & m' & Hrun & Hm); [|by exists m']. split; [lia|done].
Qed.

(** [memmove] copies, however the blocks overlap: it returns the
    destination, which then holds the bytes the source held before the call,
    and no other byte changes. *)
Theorem memmove_overlap (m : memory) (dest src n : Z) :
  0 <= n < 2 ^ 64 -> mapped_bytes m src n -> mapped_bytes m dest n ->
  exists m', memmove dest src n m = Some (dest, m') /\ moved m dest src 0 n m'.
Proof.
  intros Hn Hs Hd. unfold memmove. destruct (Z.ltb_spec dest src).
  - destruct (move_up m dest src n) as (m' & Hrun & Hm); [lia|by left|done..|].
    exists m'. by rewrite (bind_run _ _ _ _ _ Hrun).
  - destruct (Z.ltb_spec src dest).
    + destruct (move_down m dest src n) as (m' & Hrun & Hm); [done..|].
      exists m'. by rewrite (bind_run _ _ _ _ _ Hrun).
    + assert (src = dest) as -> by lia. exists m. split; [done|]. split; done.
Qed.

Lemma memcpy_run m dest src n :
  0 <= n -> src + n <= dest \/ dest + n <= src -> mapped_bytes m src n -> mapped_bytes m dest n ->
  exists m', memcpy dest src n m = Some (dest, m') /\ moved m dest src 0 n m'.
Proof.
  intros Hn Hap Hs Hd. unfold memcpy. destruct (decide (n = 0)) as [->|].
  { exists m. split; [done|]. split; [lia|done]. }
  destruct (move_up m dest src n) as (m' & Hrun & Hm); [lia|lia|done..|].
  exists m'. by rewrite (bind_run _ _ _ _ _ Hrun).
Qed.

(** The kernel's copies to and from user memory read the user's and write
    the kernel's: neither direction writes user memory. *)
Lemma copy_to_user_reads (m : memory) (data user n : Z) :
  0 <= n -> data <> 0 -> user <> 0 -> user + n <= data \/ data + n <= user ->
  mapped_bytes m user n -> mapped_bytes m data n ->
  exists m', copy_to_user data user n m = Some (0, m') /\ moved m data user 0 n m'.
Proof.
  intros Hn Hd0 Hu0 Hap Hu Hd. unfold copy_to_user.
  rewrite (proj2 (Z.eqb_neq data 0)), (proj2 (Z.eqb_neq user 0)) by done.
  destruct (memcpy_run m data user n) as (m' & Hrun & Hm); [done..|].
  exists m'. by rewrite (bind_run _ _ _ _ _ Hrun).
Qed.

(** ** Strings *)

Lemma holds_cons m p c l : holds m p (c :: l) -> m !! p = Some c /\ holds m (p + 1) l.
Proof.
  intros H. split.
  - specialize (H 0%nat c eq_refl). by rewrite Z.add_0_r in H.
  - intros k d Hk. specialize (H (S k) d Hk). by replace (p + 1 + Z.of_nat k) with (p + Z.of_nat (S k)) by lia.
Qed.

Lemma holds_app m p l1 l2 : holds m p (l1 ++ l2) -> holds m p l1 /\ holds m (p + Z.of_nat (length l1)) l2.
Proof.
  revert p. induction l1 as [|c l1 IH]; intros p H.
  - split; [intros k d Hk; done|]. by rewrite Z.add_0_r.
  - cbn [app] in H. apply holds_cons in H as [H0 H]. apply IH in H as [H1 H2]. split.
    + intros [|k] d Hk; [rewrite Z.add_0_r; by injection Hk as <-|].
      replace (p + Z.of_nat (S k)) with (p + 1 + Z.of_nat k) by lia. by apply H1.
    + cbn [length]. by replace (p + Z.of_nat (S (length l1))) with (p + 1 + Z.of_nat (length l1)) by lia.
Qed.

Lemma truthy_nz c : c <> 0 -> truthy c = true.
Proof. intros H. unfold truthy. by rewrite (proj2 (Z.eqb_neq c 0)). Qed.

(** [strcmp] is 0 exactly on equal strings, and its sign the order of the
    first characters that differ. *)
Fixpoint str_order (l1 l2 : list Z) : Z :=
  match l1, l2 with
  | a :: l1', b :: l2' => if a =? b then str_order l1' l2' else a - b
  | a :: _, [] => a
  | [], b :: _ => - b
  | [], [] => 0
  end.

Lemma strcmp_sign_spec fuel m s1 s2 l1 l2 :
  holds_str m s1 l1 -> holds_str m s2 l2 -> (length l1 < fuel)%nat ->
  strcmp fuel s1 s2 m = Some (str_order l1 l2, m).
Proof.
  unfold strcmp. revert fuel s1 s2 l2. induction l1 as [|a l1 IH]; intros fuel s1 s2 l2 [H1 N1] [H2 N2] Hf;
    (destruct fuel as [|fuel]; [cbn in Hf; lia|]); cbn [loop]; cbv beta iota.
  - apply holds_cons in H1 as [H1 _]. destruct l2 as [|b l2]; cbn [app] in H2; apply holds_cons in H2 as [H2 _];
      mstep; rewrite (peek_run _ _ _ H1); change (truthy 0) with false; cbv beta iota;
      rewrite (peek_run _ _ _ H2); cbn [str_order]; repeat f_equal; lia.
  - cbn [app] in H1. apply holds_cons in H1 as [Ha H1]. apply Forall_cons in N1 as [Na N1].
    mstep. rewrite (peek_run _ _ _ Ha), (truthy_nz a) by done. destruct l2 as [|b l2].
    + apply holds_cons in H2 as [H2 _]. rewrite (peek_run _ _ _ H2).
      rewrite (proj2 (Z.eqb_neq a 0)) by done. cbn [str_order]. repeat f_equal. lia.
    + cbn [app] in H2. apply holds_cons in H2 as [Hb H2]. apply Forall_cons in N2 as [Nb N2].
      rewrite (peek_run _ _ _ Hb). cbn [str_order]. destruct (a =? b); [|done].
      apply (IH fuel); [by split | by split | cbn in Hf; lia].
Qed.

(** ** Reading numbers *)

Lemma numeral_snoc base l c : numeral base (l ++ [c]) = d ← digit_value c; v ← numeral base l; Some (d + base * v).
Proof. unfold numeral. by rewrite rev_app_distr. Qed.

(** A prefix of a numeral denotes no more than the numeral. *)
Lemma numeral_prefix base l1 l2 v :
  1 <= base -> Forall (digit_below base) (l1 ++ l2) -> numeral base (l1 ++ l2) = Some v ->
  exists v1, numeral base l1 = Some v1 /\ 0 <= v1 <= v.
Proof.
  intros Hb. revert v. induction l2 as [|c l2 IH] using rev_ind; intros v Hf Hv.
  - rewrite app_nil_r in *. exists v. split; [done|]. split; [|lia]. revert v Hv.
    induction l1 as [|c l1 IH] using rev_ind; intros v Hv; [by injection Hv as <-|].
    rewrite numeral_snoc in Hv. apply Forall_app in Hf as [Hf (d & Hd & Hdb)%Forall_singleton].
    rewrite Hd in Hv. cbn [mbind option_bind] in Hv. destruct (numeral base l1) as [v1|]; [|done].
    injection Hv as <-. specialize (IH Hf v1 eq_refl). nia.
  - rewrite app_assoc in *. rewrite numeral_snoc in Hv.
    apply Forall_app in Hf as [Hf (d & Hd & Hdb)%Forall_singleton]. rewrite Hd in Hv.
    cbn [mbind option_bind] in Hv. destruct (numeral base (l1 ++ l2)) as [w|]; [|done].
    injection Hv as <-. destruct (IH w Hf eq_refl) as (v1 & H1 & H2). exists v1. split; [done|]. nia.
Qed.

Lemma strtol_digit_value c d : digit_value c = Some d -> strtol_digit c = Some d /\ c <> 0.
Proof.
  unfold digit_value, strtol_digit, _is_digit. chars.
  repeat match goal with |- context [?x <=? ?y] => destruct (Z.leb_spec x y); cbn [andb]; try lia end;
    intros [= <-]; split; (done || lia).
Qed.

Lemma strtol_digits_spec fuel m p base l1 l2 acc v :
  2 <= base -> v < 2 ^ 63 -> (length l2 < fuel)%nat -> Forall (digit_below base) (l1 ++ l2) ->
  numeral base (l1 ++ l2) = Some v -> numeral base l1 = Some acc -> holds m p (l2 ++ [0]) ->
  loop fuel (fun '(result, s) =>
    c ← peek s;
    if truthy c then
      match strtol_digit c with
      | None => mret (inr (result, s))
      | Some digit =>
          if base <=? digit then mret (inr (result, s))
          else
            let result := result * base + digit in
            if in_long result then mret (inl (result, s + 1)) else ub
      end
    else mret (inr (result, s))) (acc, p) m = Some ((v, p + Z.of_nat (length l2)), m).
Proof.
  intros Hb Hv. revert fuel p l1 acc. induction l2 as [|c l2 IH]; intros fuel p l1 acc Hf Hok Hnum Hacc Hm;
    (destruct fuel as [|fuel]; [cbn in Hf; lia|]).
  - apply holds_cons in Hm as [H0 _]. rewrite app_nil_r in Hnum. rewrite Hacc in Hnum. injection Hnum as ->.
    cbn [length]. rewrite Z.add_0_r. apply loop_inr. cbv beta iota.
    by rewrite (bind_run _ _ _ _ _ (peek_run _ _ _ H0)).
  - cbn [app] in Hm. apply holds_cons in Hm as [Hc Hm].
    replace (l1 ++ c :: l2) with ((l1 ++ [c]) ++ l2) in * by by rewrite <- app_assoc.
    destruct (numeral_prefix base _ _ _ ltac:(lia) Hok Hnum) as (v1 & Hv1 & Hle).
    pose proof Hok as Hok1. apply Forall_app in Hok1 as [Hok1 _].
    apply Forall_app in Hok1 as [_ (d & Hd & Hdb)%Forall_singleton].
    rewrite numeral_snoc, Hd, Hacc in Hv1. cbn [mbind option_bind] in Hv1. injection Hv1 as Hv1.
    destruct (strtol_digit_value c d Hd) as [Hsd Hc0].
    etransitivity; [apply loop_inl with (a' := (acc * base + d, p + 1)) (s' := m)|].
    + cbv beta iota. rewrite (bind_run _ _ _ _ _ (peek_run _ _ _ Hc)), (truthy_nz c Hc0), Hsd.
      rewrite (proj2 (Z.leb_gt base d)) by lia. cbv zeta.
      assert (in_long (acc * base + d) = true) as ->; [|done].
      unfold in_long. apply andb_true_iff. split; [apply Z.leb_le | apply Z.ltb_lt]; lia.
    + rewrite (IH fuel (p + 1) (l1 ++ [c])); try done.
      * cbn [length]. by replace (p + 1 + Z.of_nat (length l2)) with (p + Z.of_nat (S (length l2))) by lia.
      * cbn in Hf. lia.
      * rewrite numeral_snoc, Hd, Hacc. cbn [mbind option_bind]. f_equal. lia.
Qed.

(** The first character of a number is no space. *)
Lemma digit_not_space base c : digit_below base c ->
  strtol_space c = false /\
  (c =? chr "-") = false /\ (c =? chr "+") = false /\ c <> 0 /\ (c =? chr "x") || (c =? chr "X") = false.
Proof.
  intros (d & Hd & _). unfold digit_value, _is_digit in Hd. revert Hd. unfold strtol_space. chars.
  repeat match goal with |- context [?x <=? ?y] => destruct (Z.leb_spec x y); cbn [andb]; try lia end;
    intros Hdig; try discriminate Hdig; clear Hdig;
    repeat match goal with |- context [?x =? ?y] => destruct (Z.eqb_spec x y); try lia end;
    split_and!; (done || lia).
Qed.

Lemma skip_none fuel m f p c :
  m !! p = Some c -> f c = false -> (0 < fuel)%nat -> skip_while fuel f p m = Some (p, m).
Proof.
  intros Hc Hf Hfuel. destruct fuel as [|n]; [lia|]. unfold skip_while. apply loop_inr.
  by rewrite (bind_run _ _ _ _ _ (peek_run _ _ _ Hc)), Hf.
Qed.

Lemma strtol_spec fuel m p neg ds v base :
  base = 8 \/ base = 10 \/ base = 16 -> ds <> [] -> Forall (digit_below base) ds ->
  numeral base ds = Some v -> v < 2 ^ 63 -> (length ds < fuel)%nat ->
  holds m p ((sign_text neg ++ ds) ++ [0]) ->
  strtol fuel p base m
  = Some ((if neg then - v else v, p + Z.of_nat (length (sign_text neg ++ ds))), m).
Proof.
  intros Hb Hne Hok Hnum Hv Hf Hm. destruct ds as [|c ds]; [done|].
  pose proof Hok as Hok'. apply Forall_cons in Hok' as [Hc _].
  destruct (digit_not_space base c Hc) as (Hsp & Hmi & Hpl & Hc0 & Hx).
  set (s := p + Z.of_nat (length (sign_text neg))).
  rewrite <- app_assoc in Hm. apply holds_app in Hm as [Hsign Hds]. fold s in Hds.
  pose proof Hds as Hd0. cbn [app] in Hd0. apply holds_cons in Hd0 as [Hc1 Hd1].
  assert (Hnext : exists c1, m !! (s + 1) = Some c1 /\ (c1 =? chr "x") || (c1 =? chr "X") = false).
  { destruct ds as [|c1 ds]; cbn [app] in Hd1; apply holds_cons in Hd1 as [H1 _].
    - by exists 0.
    - exists c1. split; [done|]. apply Forall_cons in Hok as [_ [Hc2 _]%Forall_cons].
      by apply (digit_not_space base c1). }
  destruct Hnext as (c1 & Hn1 & Hnx).
  assert (Hrest : forall k, strtol_value fuel p k base s m
    = Some ((if k then - v else v, s + Z.of_nat (length (c :: ds))), m)).
  { intros k. unfold strtol_value, strtol_digits.
    rewrite (bind_run _ _ _ _ _ (strtol_digits_spec fuel m s base [] (c :: ds) 0 v ltac:(lia) Hv Hf Hok Hnum eq_refl Hds)).
    cbv beta iota. rewrite (proj2 (Z.eqb_neq _ s)) by (cbn [length]; lia). done. }
  unfold strtol.
  assert (Hend : p + Z.of_nat (length (sign_text neg ++ c :: ds)) = s + Z.of_nat (length (c :: ds))).
  { unfold s. rewrite length_app. lia. }
  rewrite Hend.
  assert (Hbase : strtol_base base s m = Some ((base, s), m)).
  { unfold strtol_base. rewrite (proj2 (Z.eqb_neq base 0)) by lia. destruct (base =? 16); [|done].
    rewrite (bind_run _ _ _ _ _ (peek_run _ _ _ Hc1)). destruct (c =? chr "0"); [|done].
    by rewrite (bind_run _ _ _ _ _ (peek_run _ _ _ Hn1)), Hnx. }
  destruct neg; cbn [sign_text app] in *.
  - apply holds_cons in Hsign as [Hp _].
    rewrite (bind_run _ _ _ _ _ (skip_none fuel m strtol_space p (chr "-") Hp ltac:(done) ltac:(cbn in Hf; lia))).
    rewrite (bind_run _ _ _ _ _ (peek_run _ _ _ Hp)). change (chr "-" =? chr "-") with true. cbv iota beta zeta.
    change (p + 1) with s. rewrite (bind_run _ _ _ _ _ Hbase). apply (Hrest true).
  - assert (s = p) as Hs by (unfold s; cbn; lia). rewrite Hs in *.
    rewrite (bind_run _ _ _ _ _ (skip_none fuel m strtol_space p c Hc1 Hsp ltac:(cbn in Hf; lia))).
    rewrite (bind_run _ _ _ _ _ (peek_run _ _ _ Hc1)), Hmi, Hpl. cbv iota beta zeta.
    rewrite (bind_run _ _ _ _ _ Hbase). apply (Hrest false).
Qed.

(** C23: the kernel's [strtol] reads what its printf writes: the text of
    every value below 2^63, negative or not, in octal, decimal or
    hexadecimal, terminated in memory, is read back as that value, up to its
    end, with no signed overflow on the way. *)
Theorem strtol_reads_printf (value : Z) (negative : bool) (base : Z) :
  0 <= value < 2 ^ 63 -> base = 8 \/ base = 10 \/ base = 16 ->
  exists text, number_text value negative base 0 0 0 = Some text /\
    forall fuel m p, holds m p (text ++ [0]) -> (length text < fuel)%nat ->
      strtol fuel p base m
      = Some ((if negative then - value else value, p + Z.of_nat (length text)), m).
Proof.
  intros Hv Hb. destruct (number_text_spec value negative base) as (ds & Ht & Hlen & _ & Hnum & Hok & _);
    [lia..|]. exists (sign_text negative ++ ds). split; [done|]. intros fuel m p Hm Hf.
  apply strtol_spec; try done.
  - by intros ->; cbn in Hlen; lia.
  - apply Hnum. lia.
  - lia.
  - rewrite length_app in Hf. lia.
Qed.

Lemma strtol_reads_printf_witness :
  exists text, number_text 255 true 16 0 0 0 = Some text /\
    forall fuel m p, holds m p (text ++ [0]) -> (length text < fuel)%nat ->
      strtol fuel p 16 m = Some ((-255, p + Z.of_nat (length text)), m).
Proof. apply (strtol_reads_printf 255 true 16); [lia | auto]. Defined.

(** Three bytes moved up by one, over themselves. *)
Lemma memmove_overlap_witness :
  exists m', memmove 101 100 3 (list_to_map [(100, 1); (101, 2); (102, 3); (103, 4)]) = Some (101, m') /\
    m' !! 103 = Some 3.
Proof.
  destruct (memmove_overlap (list_to_map [(100, 1); (101, 2); (102, 3); (103, 4)]) 101 100 3)
    as (m' & Hr & Hm & _); [lia|..].
  - intros k Hk. assert (k = 0 \/ k = 1 \/ k = 2) as [->|[->| ->]] by lia; vm_compute; by eexists.
  - intros k Hk. assert (k = 0 \/ k = 1 \/ k = 2) as [->|[->| ->]] by lia; vm_compute; by eexists.
  - exists m'. split; [exact Hr|]. exact (Hm 2 ltac:(lia)).
Defined.

(** [toupper] maps the lower-case letters out of ASCII, and [tolower] maps
    the upper-case ones to punctuation. *)
Example toupper_a : toupper (chr "a") = 129 /\ tolower (chr "A") = chr "!".
Proof. done. Qed.
