(* ===== verification/UStd.v ===== *)
(** * uACPI's own standard library: [extra/uacpi/stdlib.c]

    The string, memory and bit-scanning helpers; [memcpy] and [memset] are the
    ones of [klibc/cstring.cpp], which the build links.  A buffer is the list
    of its bytes and a pointer into it an index; an access outside the list is
    undefined behaviour ([None]).  [uacpi_vsnprintf] is in [UFormat]. *)
From S2P Require Import Prelude Status.

(** ** Buffers *)

Definition load (b : list Z) (i : nat) : option Z := b !! i.
Definition store (b : list Z) (i : nat) (v : Z) : option (list Z) :=
  if (i <? length b)%nat then Some (<[i := v]> b) else None.

(** [klibc]: [for (i = 0; i < n; i++) pdest[i] = psrc[i]]. *)
Fixpoint memcpy_loop (n : nat) (dst : list Z) (d : nat) (src : list Z) (s : nat)
    : option (list Z) :=
  match n with
  | O => Some dst
  | S n' => v ← load src s; dst ← store dst d v; memcpy_loop n' dst (S d) src (S s)
  end.
Definition memcpy (dst : list Z) (d : nat) (src : list Z) (s : nat) (n : Z)
    : option (list Z) := memcpy_loop (Z.to_nat n) dst d src s.

Fixpoint memset_loop (n : nat) (s : list Z) (i : nat) (c : Z) : option (list Z) :=
  match n with
  | O => Some s
  | S n' => s ← store s i (u8 c); memset_loop n' s (S i) c
  end.
Definition memset (s : list Z) (i : nat) (c n : Z) : option (list Z) :=
  memset_loop (Z.to_nat n) s i c.

Definition uacpi_memcpy_zerout (dst : list Z) (d : nat) (src : list Z) (s : nat)
    (dst_size src_size : Z) : option (list Z) :=
  let bytes_to_copy := Z.min src_size dst_size in
  dst ← (if truthy bytes_to_copy then memcpy dst d src s bytes_to_copy else Some dst);
  if bytes_to_copy <? dst_size
  then memset dst (d + Z.to_nat bytes_to_copy) 0 (dst_size - bytes_to_copy)
  else Some dst.

(** ** Strings: lists of the characters before the terminator *)

Definition uacpi_strlen (str : list Z) : Z := Z.of_nat (length str).

Fixpoint uacpi_strnlen (str : list Z) (max : Z) : Z :=
  if max =? 0 then 0
  else match str with [] => 0 | _ :: str' => 1 + uacpi_strnlen str' (max - 1) end.

Fixpoint uacpi_strcmp (lhs rhs : list Z) : Z :=
  match lhs, rhs with
  | l :: lhs', r :: rhs' => if negb (l =? r) then l - r else uacpi_strcmp lhs' rhs'
  | _, _ => char_at lhs 0 - char_at rhs 0
  end.

(** The characters of a C string: bytes other than NUL. *)
Definition is_cstring (s : list Z) : Prop := Forall (fun c => 0 < c < 256) s.

(** ** Bit scanning

    The build takes the branch of the compiler built-ins: [__builtin_ffsll]
    is one plus the index of the least significant set bit (0 for 0), and
    [__builtin_clzll] the number of leading zero bits of a non-zero value. *)
Definition builtin_ffsll (value : Z) : Z :=
  if value =? 0 then 0 else Z.log2 (Z.land value (- value)) + 1.
Definition builtin_clzll (value : Z) : Z := 63 - Z.log2 value.

Definition uacpi_bit_scan_forward (value : Z) : Z := u8 (builtin_ffsll value).
Definition uacpi_bit_scan_backward (value : Z) : Z :=
  if value =? 0 then 0 else u8 (64 - builtin_clzll value).

(** The portable branch of the same functions (no built-ins):
    [for (index = 1; index <= 64; index++, mask <<= 1)] and
    [for (index = 64; index > 0; index--, mask >>= 1)]. *)
Fixpoint scan_forward_loop (n : nat) (value index mask : Z) : Z :=
  match n with
  | O => 0
  | S n' => if truthy (Z.land value mask) then index
            else scan_forward_loop n' value (u8 (index + 1)) (u64 (Z.shiftl mask 1))
  end.
Definition bit_scan_forward_portable (value : Z) : Z := scan_forward_loop 64 value 1 1.

Fixpoint scan_backward_loop (n : nat) (value index mask : Z) : Z :=
  match n with
  | O => 0
  | S n' => if truthy (Z.land value mask) then index
            else scan_backward_loop n' value (u8 (index - 1)) (Z.shiftr mask 1)
  end.
Definition bit_scan_backward_portable (value : Z) : Z :=
  scan_backward_loop 64 value 64 (Z.shiftl 1 63).

(** ** Buffers: what the loops compute *)

Lemma store_ok b i v : (i < length b)%nat -> store b i v = Some (<[i := v]> b).
Proof. intros H. unfold store. by rewrite (proj2 (Nat.ltb_lt _ _) H). Qed.

Lemma memcpy_loop_spec n dst d src s :
  (d + n <= length dst)%nat -> (s + n <= length src)%nat ->
  memcpy_loop n dst d src s = Some (write_at dst d (take n (drop s src))).
Proof.
  revert dst d s. induction n as [|n IH]; intros dst d s Hd Hs; cbn [memcpy_loop].
  - by rewrite take_0, write_at_nil.
  - destruct (lookup_lt_is_Some_2 src s) as [v Hv]; [lia|].
    unfold load. rewrite Hv. cbn [mbind option_bind]. rewrite store_ok by lia.
    cbn [mbind option_bind]. rewrite IH by (rewrite ?length_insert; lia).
    rewrite write_at_cons by (rewrite length_take, length_drop; lia).
    by rewrite (drop_S src v s Hv).
Qed.

Lemma memset_loop_spec n b i c :
  (i + n <= length b)%nat -> memset_loop n b i c = Some (write_at b i (replicate n (u8 c))).
Proof.
  revert b i. induction n as [|n IH]; intros b i H; cbn [memset_loop].
  - by rewrite write_at_nil.
  - rewrite store_ok by lia. cbn [mbind option_bind].
    rewrite IH by (rewrite length_insert; lia). simpl.
    by rewrite write_at_cons by (rewrite length_replicate; lia).
Qed.

Lemma memcpy_zerout_write (dst : list Z) (d : nat) (src : list Z) (s : nat)
    (dst_size src_size : Z) :
  0 <= dst_size -> 0 <= src_size ->
  (d + Z.to_nat dst_size <= length dst)%nat -> (s + Z.to_nat src_size <= length src)%nat ->
  uacpi_memcpy_zerout dst d src s dst_size src_size =
    Some (write_at dst d (take (Z.to_nat (Z.min src_size dst_size)) (drop s src)
                          ++ replicate (Z.to_nat (dst_size - src_size)) 0)).
Proof.
  intros Hd0 Hs0 Hd Hs. unfold uacpi_memcpy_zerout, memcpy, memset. cbv zeta.
  set (k := Z.min src_size dst_size).
  assert (Hc : (if truthy k then memcpy_loop (Z.to_nat k) dst d src s else Some dst)
    = Some (write_at dst d (take (Z.to_nat k) (drop s src)))).
  { unfold truthy. destruct (Z.eqb_spec k 0) as [->|Hk]; simpl.
    - by rewrite take_0, write_at_nil.
    - rewrite memcpy_loop_spec by lia. done. }
  rewrite Hc. cbn [mbind option_bind].
  assert (Hlen : length (take (Z.to_nat k) (drop s src)) = Z.to_nat k)
    by (rewrite length_take, length_drop; lia).
  destruct (Z.ltb_spec k dst_size) as [Hlt|Hge].
  - rewrite memset_loop_spec by (rewrite length_write_at by lia; lia).
    rewrite <- Hlen at 2. rewrite write_at_app by (rewrite Hlen, length_replicate; lia).
    do 3 f_equal. change (u8 0) with 0. f_equal. lia.
  - replace (Z.to_nat (dst_size - src_size)) with 0%nat by lia. simpl.
    by rewrite app_nil_r.
Qed.

(** [uacpi_memcpy_zerout] fills exactly the destination: byte by byte,
    the source where the source has one, zero past its end, and the bytes
    before and after the destination as they were. *)
Theorem memcpy_zerout_spec (dst : list Z) (d : nat) (src : list Z) (s : nat)
    (dst_size src_size : Z) :
  0 <= dst_size -> 0 <= src_size ->
  (d + Z.to_nat dst_size <= length dst)%nat -> (s + Z.to_nat src_size <= length src)%nat ->
  exists dst', uacpi_memcpy_zerout dst d src s dst_size src_size = Some dst' /\
    length dst' = length dst /\
    (forall i, (i < Z.to_nat dst_size)%nat ->
       dst' !! (d + i)%nat = if Z.of_nat i <? src_size then src !! (s + i)%nat else Some 0) /\
    (forall i, (i < d \/ d + Z.to_nat dst_size <= i)%nat -> dst' !! i = dst !! i).
Proof.
  intros Hd0 Hs0 Hd Hs. rewrite memcpy_zerout_write by done.
  set (t := _ ++ _).
  assert (Ht : length t = Z.to_nat dst_size)
    by (unfold t; rewrite length_app, length_take, length_drop, length_replicate; lia).
  eexists. split; [done|]. split; [apply length_write_at; lia|]. split; intros i Hi.
  - rewrite lookup_write_at, bool_decide_true by lia.
    replace (d + i - d)%nat with i by lia. unfold t.
    destruct (Z.ltb_spec (Z.of_nat i) src_size).
    + rewrite lookup_app_l by (rewrite length_take, length_drop; lia).
      rewrite lookup_take_lt by lia. apply lookup_drop.
    + rewrite lookup_app_r by (rewrite length_take, length_drop; lia).
      apply lookup_replicate_2. rewrite length_take, length_drop. lia.
  - by rewrite lookup_write_at, bool_decide_false by lia.
Qed.

Lemma memcpy_zerout_spec_witness :
  exists dst', uacpi_memcpy_zerout [9; 9; 9; 9; 9] 1 [1; 2] 0 3 2 = Some dst' /\
    length dst' = 5%nat /\
    (forall i, (i < 3)%nat ->
       dst' !! (1 + i)%nat = if Z.of_nat i <? 2 then [1; 2] !! (0 + i)%nat else Some 0) /\
    (forall i, (i < 1 \/ 1 + 3 <= i)%nat -> dst' !! i = [9; 9; 9; 9; 9] !! i).
Proof. exact (memcpy_zerout_spec [9; 9; 9; 9; 9] 1 [1; 2] 0 3 2 ltac:(lia) ltac:(lia)
  ltac:(simpl; lia) ltac:(simpl; lia)). Defined.

(** ** Strings *)

Lemma is_cstring_cons c s : is_cstring (c :: s) <-> 0 < c < 256 /\ is_cstring s.
Proof. exact (Forall_cons (fun c => 0 < c < 256) c s). Qed.

(** [uacpi_strcmp] is zero exactly on equal strings. *)
Lemma strcmp_eq l r : is_cstring l -> is_cstring r -> (uacpi_strcmp l r = 0 <-> l = r).
Proof.
  intros Hl. revert r. induction l as [|a l IH]; intros [|b r] Hr.
  - done.
  - apply is_cstring_cons in Hr as [Hb _]. cbn [uacpi_strcmp].
    change (char_at (b :: r) 0) with b. change (char_at [] 0) with 0.
    split; [lia | done].
  - apply is_cstring_cons in Hl as [Ha _]. cbn [uacpi_strcmp].
    change (char_at [] 0) with 0. change (char_at (a :: l) 0) with a.
    split; [lia | done].
  - apply is_cstring_cons in Hl as [Ha Hl], Hr as [Hb Hr]. cbn [uacpi_strcmp].
    destruct (Z.eqb_spec a b) as [->|Hne]; cbn [negb].
    + rewrite (IH Hl r Hr). split; congruence.
    + split; [lia | congruence].
Qed.

(** [uacpi_strcmp] decides equality and is a total order's comparison:
    it is zero exactly on equal strings and swapping its arguments negates
    its result. *)
Theorem strcmp_spec (l r : list Z) :
  is_cstring l -> is_cstring r ->
  (uacpi_strcmp l r = 0 <-> l = r) /\ uacpi_strcmp r l = - uacpi_strcmp l r /\
  -255 <= uacpi_strcmp l r <= 255.
Proof.
  intros Hl Hr. split; [by apply strcmp_eq|].
  revert r Hr. induction l as [|a l IH]; intros [|b r] Hr.
  - done.
  - apply is_cstring_cons in Hr as [Hb _]. cbn [uacpi_strcmp].
    change (char_at [] 0) with 0. change (char_at (b :: r) 0) with b. lia.
  - apply is_cstring_cons in Hl as [Ha _]. cbn [uacpi_strcmp].
    change (char_at [] 0) with 0. change (char_at (a :: l) 0) with a. lia.
  - apply is_cstring_cons in Hl as [Ha Hl], Hr as [Hb Hr]. cbn [uacpi_strcmp].
    rewrite (Z.eqb_sym b a). destruct (Z.eqb_spec a b) as [->|Hne]; cbn [negb];
      [by apply IH | lia].
Qed.

Lemma strcmp_spec_witness :
  (uacpi_strcmp (cstr "ab") (cstr "ac") = 0 <-> cstr "ab" = cstr "ac") /\
  uacpi_strcmp (cstr "ac") (cstr "ab") = - uacpi_strcmp (cstr "ab") (cstr "ac") /\
  -255 <= uacpi_strcmp (cstr "ab") (cstr "ac") <= 255.
Proof. apply (strcmp_spec (cstr "ab") (cstr "ac")); repeat constructor. Defined.

(** ** Bit scanning *)

(** The least significant set bit of a value. *)
Definition lowest_bit (v i : Z) : Prop :=
  0 <= i /\ Z.testbit v i = true /\ forall j, 0 <= j < i -> Z.testbit v j = false.
Definition highest_bit (v i : Z) : Prop :=
  0 <= i /\ Z.testbit v i = true /\ forall j, i < j -> Z.testbit v j = false.

Lemma testbit_shiftr v i j : 0 <= i <= j -> Z.testbit v j = Z.testbit (v / 2 ^ i) (j - i).
Proof.
  intros H. rewrite <- Z.shiftr_div_pow2, Z.shiftr_spec by lia. f_equal. lia.
Qed.

(** A value splits around its lowest bit. *)
Lemma lowest_bit_split v i :
  lowest_bit v i -> v = 2 ^ (i + 1) * (v / 2 ^ (i + 1)) + 2 ^ i.
Proof.
  intros (Hi & Hb & Hl).
  rewrite (Z.div_mod v (2 ^ (i + 1))) at 1 by (pose proof (pow2_pos (i + 1)); lia).
  f_equal. apply Z_bits_ext. intros j Hj. rewrite Z.pow2_bits_eqb by done.
  destruct (Z.ltb_spec j (i + 1)).
  - rewrite Z.mod_pow2_bits_low by lia. destruct (Z.eqb_spec i j) as [->|]; [done|].
    apply Hl. lia.
  - rewrite Z.mod_pow2_bits_high by lia. symmetry. apply Z.eqb_neq. lia.
Qed.

Lemma land_opp_lowest v i : lowest_bit v i -> Z.land v (- v) = 2 ^ i.
Proof.
  intros H. pose proof H as (Hi & Hb & Hl). apply lowest_bit_split in H.
  pose proof (pow2_pos i Hi) as Hp.
  set (q := v / 2 ^ (i + 1)) in *. rewrite Z.pow_add_r, Z.pow_1_r in H by lia.
  assert (Hs : forall r k, 0 <= k -> 0 <= r < 2 ^ k ->
    forall m, (2 ^ k * m + r) / 2 ^ k = m).
  { intros r k Hk Hr m. rewrite Z.mul_comm, Z.div_add_l by lia. rewrite Z.div_small; lia. }
  apply Z_bits_ext. intros j Hj.
  rewrite Z.land_spec, Z.pow2_bits_eqb by done.
  replace (- v) with (Z.lnot (v - 1)) by (unfold Z.lnot; lia).
  rewrite Z.lnot_spec by done.
  destruct (Z.lt_trichotomy j i) as [Hji|[->|Hji]].
  - rewrite Hl by lia. symmetry. apply Z.eqb_neq. lia.
  - rewrite Hb, Z.eqb_refl. rewrite (testbit_shiftr (v - 1) i i) by lia.
    replace (v - 1) with (2 ^ i * (2 * q) + (2 ^ i - 1)) by lia.
    rewrite Hs, Z.sub_diag by lia. by rewrite Z.testbit_even_0.
  - replace (i =? j) with false by lia.
    rewrite (testbit_shiftr v (i + 1) j), (testbit_shiftr (v - 1) (i + 1) j) by lia.
    rewrite Z.pow_add_r, Z.pow_1_r by lia.
    replace (v - 1) with (2 ^ i * 2 * q + (2 ^ i - 1)) by lia.
    replace ((2 ^ i * 2 * q + (2 ^ i - 1)) / (2 ^ i * 2)) with q.
    + replace (v / (2 ^ i * 2)) with q by (unfold q; by rewrite Z.pow_add_r, Z.pow_1_r by lia).
      by destruct (Z.testbit q _).
    + rewrite (Z.mul_comm (2 ^ i * 2)), Z.div_add_l by lia. rewrite Z.div_small; lia.
Qed.

Lemma lowest_bit_exists v : 0 < v -> exists i, lowest_bit v i /\ i <= Z.log2 v.
Proof.
  intros Hv.
  assert (Hex : exists n : nat, Z.testbit v (Z.of_nat n) = true /\
    forall m, (m < n)%nat -> Z.testbit v (Z.of_nat m) = false).
  { assert (Hb : Z.testbit v (Z.of_nat (Z.to_nat (Z.log2 v))) = true).
    { rewrite Z2Nat.id by apply Z.log2_nonneg. by apply Z.bit_log2. }
    revert Hb. generalize (Z.to_nat (Z.log2 v)). intros n.
    induction n as [n IH] using lt_wf_ind. intros Hb.
    destruct (decide (Exists (fun m => Z.testbit v (Z.of_nat m) = true) (seq 0 n))) as [He|Hn].
    - apply Exists_exists in He as (m & Hm & Hbm). apply elem_of_seq in Hm.
      apply (IH m); [lia | done].
    - exists n. split; [done|]. intros m Hm.
      destruct (Z.testbit v (Z.of_nat m)) eqn:E; [|done].
      exfalso. apply Hn, Exists_exists. exists m. rewrite elem_of_seq. split; [lia | done]. }
  destruct Hex as (n & Hn & Hl). exists (Z.of_nat n). split.
  - split_and!; [lia | done |]. intros j Hj. rewrite <- (Z2Nat.id j) by lia. apply Hl. lia.
  - destruct (Z.le_gt_cases (Z.of_nat n) (Z.log2 v)); [done|].
    by rewrite Z.bits_above_log2 in Hn by lia.
Qed.

Lemma log2_u64 v : 0 < v < 2 ^ 64 -> 0 <= Z.log2 v < 64.
Proof. intros H. split; [apply Z.log2_nonneg | apply Z.log2_lt_pow2; lia]. Qed.

Lemma scan_forward_loop_spec (n : nat) v k i :
  lowest_bit v i -> 0 <= k <= i -> i < 64 -> (n = 64 - Z.to_nat k)%nat ->
  scan_forward_loop n v (k + 1) (2 ^ k) = i + 1.
Proof.
  intros Hl. revert k. induction n as [|n IH]; intros k Hk Hi Hn; [lia|].
  cbn [scan_forward_loop]. rewrite land_pow2 by lia.
  destruct Hl as (Hi0 & Hb & Hlow).
  destruct (Z.eq_dec k i) as [->|Hne]; [by rewrite Hb|].
  rewrite Hlow by lia. rewrite u8_small by lia.
  rewrite Z.shiftl_mul_pow2, Z.pow_1_r, Z.mul_comm, <- Z.pow_succ_r by lia.
  unfold wrap. rewrite Z.mod_small by (split; [apply Z.pow_nonneg; lia | apply Z.pow_lt_mono_r; lia]).
  apply IH; lia.
Qed.

Lemma scan_backward_loop_spec (n : nat) v k i :
  highest_bit v i -> i <= k < 64 -> (n = S (Z.to_nat k)) ->
  scan_backward_loop n v (k + 1) (2 ^ k) = i + 1.
Proof.
  intros Hl. revert k. induction n as [|n IH]; intros k Hk Hn; [lia|].
  cbn [scan_backward_loop]. destruct Hl as (Hi0 & Hb & Hhigh).
  rewrite land_pow2 by lia.
  destruct (Z.eq_dec k i) as [->|Hne]; [by rewrite Hb|].
  rewrite Hhigh by lia. rewrite u8_small by lia.
  replace (Z.shiftr (2 ^ k) 1) with (2 ^ (k - 1)).
  2: { rewrite Z.shiftr_div_pow2, <- Z.pow_sub_r by lia. done. }
  replace (k + 1 - 1) with ((k - 1) + 1) by lia. apply IH; lia.
Qed.

(** The bit scans return the one-based position of the least and of the
    most significant set bit (0 for 0), and the compiler built-ins the build
    uses agree with the portable loops on every 64-bit value. *)
Theorem bit_scan_spec (v : Z) :
  0 <= v < 2 ^ 64 ->
  uacpi_bit_scan_forward v = bit_scan_forward_portable v /\
  uacpi_bit_scan_backward v = bit_scan_backward_portable v /\
  (v <> 0 -> lowest_bit v (uacpi_bit_scan_forward v - 1) /\
             highest_bit v (uacpi_bit_scan_backward v - 1)) /\
  (v = 0 -> uacpi_bit_scan_forward v = 0 /\ uacpi_bit_scan_backward v = 0).
Proof.
  intros Hv. destruct (Z.eq_dec v 0) as [->|Hne].
  { split_and!; [reflexivity.. | done | split; reflexivity]. }
  assert (Hv0 : 0 < v < 2 ^ 64) by lia. pose proof (log2_u64 v Hv0) as Hlog.
  destruct (lowest_bit_exists v) as (i & Hi & Hil); [lia|].
  assert (Hh : highest_bit v (Z.log2 v)).
  { split_and!; [lia | apply Z.bit_log2; lia |]. intros j Hj. apply Z.bits_above_log2; lia. }
  pose proof Hi as [Hi0 _].
  assert (Hf : uacpi_bit_scan_forward v = i + 1).
  { unfold uacpi_bit_scan_forward, builtin_ffsll. rewrite (proj2 (Z.eqb_neq v 0) Hne).
    rewrite (land_opp_lowest v i), Z.log2_pow2 by done. apply u8_small. lia. }
  assert (Hb : uacpi_bit_scan_backward v = Z.log2 v + 1).
  { unfold uacpi_bit_scan_backward, builtin_clzll. rewrite (proj2 (Z.eqb_neq v 0) Hne).
    rewrite u8_small by lia. lia. }
  rewrite Hf, Hb. split_and!.
  - symmetry. apply (scan_forward_loop_spec 64 v 0 i); [done | lia.. | done].
  - symmetry. change (bit_scan_backward_portable v) with (scan_backward_loop 64 v (63 + 1) (2 ^ 63)).
    apply scan_backward_loop_spec; [done | lia | done].
  - intros _. by rewrite !Z.add_simpl_r.
  - done.
Qed.

Lemma bit_scan_spec_witness :
  uacpi_bit_scan_forward 40 = bit_scan_forward_portable 40 /\
  uacpi_bit_scan_backward 40 = bit_scan_backward_portable 40.
Proof.
  destruct (bit_scan_spec 40 ltac:(lia)) as (H1 & H2 & _). exact (conj H1 H2).
Defined.
