(* ===== verification/StrToInt.v ===== *)
(** * Text to integers: [uacpi_string_to_integer] of [extra/uacpi/utilities.c]

    The character classes, the cursor helpers and the conversion AML's
    [ToInteger], the [_Lxx] event names and the format parser use.  A pointer
    into a string is the list of the bytes from it on, so reading past the
    end of the object is undefined behaviour ([None]). *)
From S2P Require Import Prelude Status.

(** ** Character classes *)

Definition CHAR_TYPE_CONTROL : Z := Z.shiftl 1 0.
Definition CHAR_TYPE_SPACE : Z := Z.shiftl 1 1.
Definition CHAR_TYPE_BLANK : Z := Z.shiftl 1 2.
Definition CHAR_TYPE_PUNCTUATION : Z := Z.shiftl 1 3.
Definition CHAR_TYPE_LOWER : Z := Z.shiftl 1 4.
Definition CHAR_TYPE_UPPER : Z := Z.shiftl 1 5.
Definition CHAR_TYPE_DIGIT : Z := Z.shiftl 1 6.
Definition CHAR_TYPE_HEX_DIGIT : Z := Z.shiftl 1 7.
Definition CHAR_TYPE_ALPHA : Z := Z.lor CHAR_TYPE_LOWER CHAR_TYPE_UPPER.
Definition CHAR_TYPE_ALHEX : Z := Z.lor CHAR_TYPE_ALPHA CHAR_TYPE_HEX_DIGIT.

(** The 128 initialisers of the table; the other entries are zero. *)
Definition ascii_map : list Z :=
  replicate 9 CHAR_TYPE_CONTROL
  ++ [Z.lor (Z.lor CHAR_TYPE_CONTROL CHAR_TYPE_SPACE) CHAR_TYPE_BLANK]
  ++ replicate 4 (Z.lor CHAR_TYPE_CONTROL CHAR_TYPE_SPACE)
  ++ replicate 18 CHAR_TYPE_CONTROL
  ++ [Z.lor CHAR_TYPE_SPACE CHAR_TYPE_BLANK]
  ++ replicate 15 CHAR_TYPE_PUNCTUATION
  ++ replicate 10 (Z.lor CHAR_TYPE_DIGIT CHAR_TYPE_HEX_DIGIT)
  ++ replicate 7 CHAR_TYPE_PUNCTUATION
  ++ replicate 6 (Z.lor CHAR_TYPE_UPPER CHAR_TYPE_HEX_DIGIT)
  ++ replicate 20 CHAR_TYPE_UPPER
  ++ replicate 6 CHAR_TYPE_PUNCTUATION
  ++ replicate 6 (Z.lor CHAR_TYPE_LOWER CHAR_TYPE_HEX_DIGIT)
  ++ replicate 20 CHAR_TYPE_LOWER
  ++ replicate 4 CHAR_TYPE_PUNCTUATION
  ++ [CHAR_TYPE_CONTROL]
  ++ replicate 128 0.

Definition char_class (c : Z) : Z := char_at ascii_map (Z.to_nat (u8 c)).

Definition is_char (c type : Z) : bool := Z.land (char_class c) type =? type.

Definition to_lower (c : Z) : Z :=
  if is_char c CHAR_TYPE_UPPER then c + (chr "a" - chr "A") else c.

(** ** The cursor: the bytes from the pointer on and the characters left *)

Definition cursor : Type := list Z * Z.

(** The outer [None] is a read outside the object, the inner one the
    function's [UACPI_FALSE]. *)
Definition peek_one (cur : cursor) : option (option Z) :=
  let '(str, size) := cur in
  if size =? 0 then Some None
  else match str with [] => None | c :: _ => Some (Some c) end.

Definition advance (cur : cursor) : cursor := (tail cur.1, cur.2 - 1).

Definition consume_one (cur : cursor) : option (option Z * cursor) :=
  oc ← peek_one cur;
  Some (match oc with None => (None, cur) | Some c => (Some c, advance cur) end).

Definition consume_if (type : Z) (cur : cursor) : option (bool * cursor) :=
  oc ← peek_one cur;
  Some (match oc with
        | None => (false, cur)
        | Some c => if is_char c type then (true, advance cur) else (false, cur)
        end).

Definition consume_if_equals (ch : Z) (cur : cursor) : option (bool * cursor) :=
  oc ← peek_one cur;
  Some (match oc with
        | None => (false, cur)
        | Some c => if to_lower c =? ch then (true, advance cur) else (false, cur)
        end).

(** [while (consume_if(&str, &max_chars, CHAR_TYPE_SPACE));] every turn but
    the last moves past a byte of the string. *)
Fixpoint skip_space (fuel : nat) (cur : cursor) : option cursor :=
  match fuel with
  | O => None
  | S fuel' =>
      '(more, cur) ← consume_if CHAR_TYPE_SPACE cur;
      if (more : bool) then skip_space fuel' cur else Some cur
  end.

(** ** The conversion *)

Inductive uacpi_base :=
  | UACPI_BASE_AUTO | UACPI_BASE_OCT | UACPI_BASE_DEC | UACPI_BASE_HEX.

Definition base_num (b : uacpi_base) : Z :=
  match b with
  | UACPI_BASE_AUTO => 0
  | UACPI_BASE_OCT => 8
  | UACPI_BASE_DEC => 10
  | UACPI_BASE_HEX => 16
  end.

(** [if (base == UACPI_BASE_AUTO)]: the base the prefix selects. *)
Definition detect_base (base : uacpi_base) (cur : cursor)
    : option (uacpi_base * cursor) :=
  match base with
  | UACPI_BASE_AUTO =>
      '(zero, cur) ← consume_if_equals (chr "0") cur;
      if (zero : bool) then
        '(x, cur) ← consume_if_equals (chr "x") cur;
        Some (if (x : bool) then UACPI_BASE_HEX else UACPI_BASE_OCT, cur)
      else Some (UACPI_BASE_DEC, cur)
  | _ => Some (base, cur)
  end.

(** The switch: the value of a digit in the base, [None] for [goto out]. *)
Definition digit_of (base : uacpi_base) (c : Z) : option Z :=
  let class := Z.land (char_class c) (Z.lor CHAR_TYPE_DIGIT CHAR_TYPE_ALHEX) in
  if class =? Z.lor CHAR_TYPE_DIGIT CHAR_TYPE_HEX_DIGIT then
    let next := c - chr "0" in
    if (base_num base =? 8) && (7 <? next) then None else Some next
  else if (class =? Z.lor CHAR_TYPE_LOWER CHAR_TYPE_HEX_DIGIT)
       || (class =? Z.lor CHAR_TYPE_UPPER CHAR_TYPE_HEX_DIGIT) then
    if negb (base_num base =? 16) then None else Some (10 + (to_lower c - chr "a"))
  else None.

(** [while (consume_one(&str, &max_chars, &c))]: the value, the last
    character read and the cursor where the loop stops. *)
Fixpoint digits_loop (fuel : nat) (base : uacpi_base) (value c : Z) (cur : cursor)
    : option (Z * Z * cursor) :=
  match fuel with
  | O => None
  | S fuel' =>
      '(oc, cur) ← consume_one cur;
      match oc with
      | None => Some (value, c, cur)
      | Some c =>
          match digit_of base c with
          | None => Some (value, c, cur)
          | Some d =>
              let next := u64 (value * base_num base + d) in
              if negb (next / base_num base =? value)
              then Some (18446744073709551615, c, cur)
              else digits_loop fuel' base next c cur
          end
      end
  end.

Definition uacpi_string_to_integer (str : list Z) (max_chars : Z) (base : uacpi_base)
    : option (uacpi_status * Z) :=
  let fuel := S (length str) in
  cur ← skip_space fuel (str, max_chars);
  '(negative, cur) ← consume_if_equals (chr "-") cur;
  cur ← (if (negative : bool) then Some cur
         else '(_, cur) ← consume_if_equals (chr "+") cur; Some cur);
  '(base, cur) ← detect_base base cur;
  '(value, c, cur) ← digits_loop fuel base 0 0 cur;
  let value := if (negative : bool) then u64 (- s64 value) else value in
  Some (if (cur.2 =? 0) || (c =? 0) then UACPI_STATUS_OK else UACPI_STATUS_INVALID_ARGUMENT,
        value).

Example string_to_integer_ex1 :
  uacpi_string_to_integer (cstr "  -0x1Fz") 7 UACPI_BASE_AUTO
  = Some (UACPI_STATUS_OK, 2 ^ 64 - 31).
Proof. reflexivity. Qed.

Example string_to_integer_ex2 :
  uacpi_string_to_integer (cstr "18446744073709551616") 20 UACPI_BASE_DEC
  = Some (UACPI_STATUS_OK, 2 ^ 64 - 1).
Proof. reflexivity. Qed.

Example string_to_integer_ex3 :
  uacpi_string_to_integer (cstr "12z") 3 UACPI_BASE_DEC
  = Some (UACPI_STATUS_OK, 12).
Proof. reflexivity. Qed.

(** ** The cursor helpers on a string that has the character *)

Definition cur_at (str : list Z) (n : Z) : cursor := (str, n).

Lemma consume_one_cons c str n :
  0 < n -> consume_one (cur_at (c :: str) n) = Some (Some c, cur_at str (n - 1)).
Proof. intros H. unfold consume_one, peek_one, cur_at. by rewrite (proj2 (Z.eqb_neq n 0)) by lia. Qed.

Lemma consume_one_end str : consume_one (cur_at str 0) = Some (None, cur_at str 0).
Proof. done. Qed.

Lemma consume_if_cons type c str n :
  0 < n -> consume_if type (cur_at (c :: str) n) =
    Some (if is_char c type then (true, cur_at str (n - 1)) else (false, cur_at (c :: str) n)).
Proof. intros H. unfold consume_if, peek_one, cur_at. rewrite (proj2 (Z.eqb_neq n 0)) by lia.
    simpl. by case_if. Qed.

Lemma consume_if_equals_cons ch c str n :
  0 < n -> consume_if_equals ch (cur_at (c :: str) n) =
    Some (if to_lower c =? ch then (true, cur_at str (n - 1)) else (false, cur_at (c :: str) n)).
Proof. intros H. unfold consume_if_equals, peek_one, cur_at. rewrite (proj2 (Z.eqb_neq n 0)) by lia.
    simpl. by case_if. Qed.

Lemma skip_space_spec (fuel : nat) ws c str n :
  Forall (fun s => is_char s CHAR_TYPE_SPACE = true) ws ->
  is_char c CHAR_TYPE_SPACE = false ->
  (length ws < fuel)%nat -> Z.of_nat (length ws) < n ->
  skip_space fuel (cur_at (ws ++ c :: str) n) = Some (cur_at (c :: str) (n - Z.of_nat (length ws))).
Proof.
  intros Hws Hc. revert fuel n.
  induction Hws as [|w ws Hw Hws IH]; intros [|fuel] n Hf Hn; try (simpl in *; lia).
  - cbn [skip_space app]. rewrite consume_if_cons, Hc by (simpl in *; lia).
    cbn [mbind option_bind]. do 2 f_equal. simpl. lia.
  - cbn [skip_space app length] in *. rewrite consume_if_cons, Hw by lia.
    cbn [mbind option_bind]. rewrite IH by lia. do 2 f_equal. lia.
Qed.

(** ** Digits *)

Definition is_digit_in (base : uacpi_base) (c d : Z) : Prop :=
  0 <= c < 256 /\ digit_of base c = Some d.

Lemma digit_facts base c d :
  is_digit_in base c d -> base <> UACPI_BASE_AUTO ->
  0 <= d < base_num base /\ is_char c CHAR_TYPE_SPACE = false /\
  to_lower c <> chr "-" /\ to_lower c <> chr "+" /\ (base = UACPI_BASE_OCT -> to_lower c <> chr "x").
Proof.
  intros [Hc Hd] Hb.
  assert (H : (match digit_of base c with
    | None => true
    | Some d => (0 <=? d) && (d <? base_num base) && negb (is_char c CHAR_TYPE_SPACE)
        && negb (to_lower c =? chr "-") && negb (to_lower c =? chr "+")
        && ((base_num base =? 16) || negb (to_lower c =? chr "x")) end) = true).
  { clear Hd. check_all_below 256%nat c;
      [destruct base; vm_compute; done | exact Hc]. }
  rewrite Hd in H. zify_bool; split_and!; try done; by destruct base.
Qed.

Lemma base_num_range base : base <> UACPI_BASE_AUTO -> 8 <= base_num base <= 16.
Proof. destruct base; simpl; [done | lia..]. Qed.

Lemma digits_nonneg base cs ds :
  Forall2 (is_digit_in base) cs ds -> base <> UACPI_BASE_AUTO -> Forall (fun d => 0 <= d) ds.
Proof.
  intros Hcs Hb. induction Hcs as [|c d cs ds Hc Hcs IH]; constructor; [|done].
  destruct (digit_facts _ _ _ Hc Hb). lia.
Qed.

(** The value of a list of digits. *)
Definition horner (base v : Z) (ds : list Z) : Z := foldl (fun v d => v * base + d) v ds.

Lemma horner_mono base v ds :
  1 <= base -> 0 <= v -> Forall (fun d => 0 <= d) ds -> v <= horner base v ds.
Proof.
  intros Hb Hv Hds. revert v Hv.
  induction Hds as [|d ds Hd Hds IH]; intros v Hv; cbn [horner foldl]; [lia|].
  transitivity (v * base + d); [nia | apply IH; nia].
Qed.

(** The overflow test is exact. *)
Lemma overflow_test v b d :
  0 <= v < 2 ^ 64 -> 8 <= b <= 16 -> 0 <= d < b ->
  (u64 (v * b + d) / b =? v) = (v * b + d <? 2 ^ 64).
Proof.
  intros Hv Hb Hd. assert (0 <= v * b) by nia.
  destruct (Z.ltb_spec (v * b + d) (2 ^ 64)) as [Hlt|Hge].
  - rewrite u64_small by lia. apply Z.eqb_eq. rewrite Z.div_add_l by lia.
    rewrite Z.div_small; lia.
  - apply Z.eqb_neq. intros He.
    assert (Hw : u64 (v * b + d) <= v * b + d - 2 ^ 64).
    { unfold wrap. pose proof (Z.div_mod (v * b + d) (2 ^ 64) ltac:(lia)).
      assert (1 <= (v * b + d) / 2 ^ 64) by (apply Z.div_le_lower_bound; lia). nia. }
    assert (b * (u64 (v * b + d) / b) <= u64 (v * b + d)) by (apply Z.mul_div_le; lia). nia.
Qed.

(** The digits loop over a run of digits: their value when it fits 64 bits,
    the greatest value otherwise. *)
Definition digits_stop (base : uacpi_base) (rest : list Z) (n : Z) : Prop :=
  n = 0 \/ 0 < n /\ exists c r, rest = c :: r /\ digit_of base c = None.
Definition digits_done (rest : list Z) (n : Z) : bool := (n <=? 1) || (char_at rest 0 =? 0).

Lemma digits_loop_value (fuel : nat) base v c0 cs ds rest n :
  base <> UACPI_BASE_AUTO -> Forall2 (is_digit_in base) cs ds ->
  0 <= v -> horner (base_num base) v ds < 2 ^ 64 ->
  (length cs < fuel)%nat -> digits_stop base rest (n - Z.of_nat (length cs)) ->
  exists c cur, digits_loop fuel base v c0 (cur_at (cs ++ rest) n)
      = Some (horner (base_num base) v ds, c, cur) /\
    ((cur.2 =? 0) || (c =? 0)) = digits_done rest (n - Z.of_nat (length cs)).
Proof.
  intros Hb Hcs. pose proof (base_num_range _ Hb) as Hbn. revert fuel v c0 n.
  induction Hcs as [|c d cs ds Hc Hcs IH]; intros [|fuel] v c0 n Hv Hh Hf Hs;
    try (simpl in *; lia); cbn [digits_loop app].
  - simpl in Hs. rewrite Z.sub_0_r in *.
    destruct Hs as [->|[Hn (c & r & -> & Hc)]].
    + rewrite consume_one_end. cbn [mbind option_bind]. by do 2 eexists.
    + rewrite consume_one_cons by done. cbn [mbind option_bind]. rewrite Hc.
      do 2 eexists. split; [done|]. simpl. unfold digits_done. cbn [char_at lookup list_lookup default].
      f_equal. destruct (Z.leb_spec n 1), (Z.eqb_spec (n - 1) 0); try done; lia.
  - cbn [length] in *. destruct (digit_facts _ _ _ Hc Hb) as (Hd & _).
    rewrite consume_one_cons by (destruct Hs as [?|[? _]]; lia).
    cbn [mbind option_bind]. rewrite (proj2 Hc). cbv zeta.
    assert (Hle : v * base_num base + d < 2 ^ 64).
    { eapply Z.le_lt_trans; [|exact Hh]. cbn [horner foldl]. apply horner_mono; [lia | nia |].
      by eapply digits_nonneg. }
    rewrite overflow_test by (cbn; nia).
    rewrite (proj2 (Z.ltb_lt _ _) Hle). cbn [negb].
    rewrite u64_small by (cbn in *; nia).
    edestruct (IH fuel (v * base_num base + d) c (n - 1)) as (c' & cur & He & Hd').
    + nia.
    + exact Hh.
    + lia.
    + replace (n - 1 - Z.of_nat (length cs)) with (n - Z.of_nat (S (length cs))) by lia. done.
    + exists c', cur. split; [exact He|]. rewrite Hd'. f_equal. lia.
Qed.

Lemma digits_loop_overflow (fuel : nat) base v c0 cs ds rest n :
  base <> UACPI_BASE_AUTO -> Forall2 (is_digit_in base) cs ds ->
  0 <= v < 2 ^ 64 -> 2 ^ 64 <= horner (base_num base) v ds ->
  (length cs < fuel)%nat -> Z.of_nat (length cs) <= n ->
  exists c cur, digits_loop fuel base v c0 (cur_at (cs ++ rest) n) = Some (2 ^ 64 - 1, c, cur).
Proof.
  intros Hb Hcs. pose proof (base_num_range _ Hb) as Hbn. revert fuel v c0 n.
  induction Hcs as [|c d cs ds Hc Hcs IH]; intros [|fuel] v c0 n Hv Hh Hf Hn;
    try (simpl in *; lia); cbn [digits_loop app length] in *.
  destruct (digit_facts _ _ _ Hc Hb) as (Hd & _).
  rewrite consume_one_cons by lia. cbn [mbind option_bind]. rewrite (proj2 Hc). cbv zeta.
  rewrite overflow_test by done.
  destruct (Z.ltb_spec (v * base_num base + d) (2 ^ 64)); cbn [negb]; [|by do 2 eexists].
  rewrite u64_small by (cbn in *; nia). apply IH; [nia | exact Hh | lia | lia].
Qed.

(** ** The grammar of integers *)

Definition sign_text (neg : bool) (sign : list Z) : Prop :=
  if neg then sign = [chr "-"] else sign = [] \/ sign = [chr "+"].

(** The prefix that selects [base] when the caller asks for [sel]; [cs] are
    the digits after it. *)
Inductive prefix_text : uacpi_base -> uacpi_base -> list Z -> list Z -> Prop :=
  | prefix_given base cs : base <> UACPI_BASE_AUTO -> prefix_text base base [] cs
  | prefix_hex x cs : x = chr "x" \/ x = chr "X" ->
      prefix_text UACPI_BASE_AUTO UACPI_BASE_HEX [chr "0"; x] cs
  | prefix_oct cs : prefix_text UACPI_BASE_AUTO UACPI_BASE_OCT [chr "0"] cs
  | prefix_dec c cs : c <> chr "0" -> prefix_text UACPI_BASE_AUTO UACPI_BASE_DEC [] (c :: cs).

Lemma prefix_base sel base pre cs : prefix_text sel base pre cs -> base <> UACPI_BASE_AUTO.
Proof. by destruct 1. Qed.

(** What is read after the sign starts with a character that is none of a
    space or a sign. *)
Lemma number_head sel base pre cs ds c :
  prefix_text sel base pre cs -> Forall2 (is_digit_in base) cs ds ->
  head (pre ++ cs) = Some c ->
  is_char c CHAR_TYPE_SPACE = false /\ to_lower c <> chr "-" /\ to_lower c <> chr "+".
Proof.
  intros Hp Hcs Hh.
  assert (Hd : forall d, base <> UACPI_BASE_AUTO -> is_digit_in base c d ->
    is_char c CHAR_TYPE_SPACE = false /\ to_lower c <> chr "-" /\ to_lower c <> chr "+").
  { intros d Hb H. by destruct (digit_facts _ _ _ H Hb) as (_ & ? & ? & ? & _). }
  destruct Hp; simpl in Hh; try (injection Hh as <-; done);
    inversion Hcs; subst; try done; injection Hh as ->; by eapply Hd.
Qed.

Lemma detect_base_spec sel base pre cs ds rest n :
  prefix_text sel base pre cs -> Forall2 (is_digit_in base) cs ds -> cs <> [] ->
  Z.of_nat (length (pre ++ cs)) <= n ->
  detect_base sel (cur_at (pre ++ cs ++ rest) n)
  = Some (base, cur_at (cs ++ rest) (n - Z.of_nat (length pre))).
Proof.
  intros Hp Hcs Hne Hn. rewrite length_app in Hn.
  destruct Hp as [base cs Hb|x cs Hx|cs|c cs Hc]; cbn [app length detect_base] in *.
  - destruct base; try done; cbn [detect_base]; by rewrite Z.sub_0_r.
  - rewrite consume_if_equals_cons by lia. change (to_lower (chr "0") =? chr "0") with true.
    cbn [mbind option_bind]. rewrite consume_if_equals_cons by lia.
    replace (to_lower x =? chr "x") with true by (by destruct Hx as [-> | ->]).
    cbn [mbind option_bind]. do 3 f_equal. lia.
  - rewrite consume_if_equals_cons by lia. change (to_lower (chr "0") =? chr "0") with true.
    cbn [mbind option_bind]. destruct Hcs as [|c d cs ds Hc Hcs]; [done|].
    cbn [app length] in *. rewrite consume_if_equals_cons by lia.
    destruct (digit_facts _ _ _ Hc ltac:(done)) as (_ & _ & _ & _ & Hx).
    rewrite (proj2 (Z.eqb_neq _ _) (Hx eq_refl)). done.
  - rewrite consume_if_equals_cons by (simpl in *; lia).
    inversion Hcs as [|? d ? ds' Hd]; subst.
    assert (Hl : to_lower c <> chr "0").
    { intros Hl. apply Hc. destruct Hd as [Hr _].
      assert (Ht : implb (to_lower c =? chr "0") (c =? chr "0") = true)
        by (check_all_below 256%nat c; [by vm_compute | exact Hr]).
      rewrite Hl, Z.eqb_refl in Ht. by apply Z.eqb_eq. }
    rewrite (proj2 (Z.eqb_neq _ _) Hl). cbn [mbind option_bind]. by rewrite Z.sub_0_r.
Qed.

Lemma u64_opp_s64 v : u64 (- s64 v) = u64 (- v).
Proof.
  unfold swrap. cbv zeta. unfold wrap. case_if.
  - rewrite <- (Z.sub_0_l (v mod _)). by rewrite Zminus_mod_idemp_r.
  - replace (- (v mod 2 ^ 64 - 2 ^ 64)) with (2 ^ 64 - v mod 2 ^ 64) by lia.
    rewrite Zminus_mod_idemp_r. replace (2 ^ 64 - v) with (- v + 1 * 2 ^ 64) by lia.
    by rewrite Z_mod_plus_full.
Qed.

(** The result for a number of magnitude [v]: clamped to 64 bits, then
    negated modulo [2^64]. *)
Definition clamped (neg : bool) (v : Z) : Z :=
  let m := Z.min v (2 ^ 64 - 1) in u64 (if neg then - m else m).

Section Number.
Context (ws : list Z) (neg : bool) (sign : list Z) (sel base : uacpi_base).
Context (pre cs ds rest : list Z) (n : Z).
Context (Hws : Forall (fun s => is_char s CHAR_TYPE_SPACE = true) ws).
Context (Hsign : sign_text neg sign) (Hpre : prefix_text sel base pre cs).
Context (Hcs : Forall2 (is_digit_in base) cs ds) (Hne : cs <> []).
Let used := Z.of_nat (length (ws ++ sign ++ pre ++ cs)).
Context (Hstop : digits_stop base rest (n - used)).

Lemma number_start c :
  head (pre ++ cs) = Some c ->
  (skip_space (S (length (ws ++ sign ++ pre ++ cs ++ rest)))
    (cur_at (ws ++ sign ++ pre ++ cs ++ rest) n) ≫= fun cur =>
   consume_if_equals (chr "-") cur ≫= fun '(negative, cur) =>
   (if (negative : bool) then Some cur
    else consume_if_equals (chr "+") cur ≫= fun '(_, cur) => Some cur) ≫= fun cur =>
   Some (negative, cur))
  = Some (neg, cur_at (pre ++ cs ++ rest) (n - Z.of_nat (length (ws ++ sign)))).
Proof.
  intros Hh. destruct (number_head _ _ _ _ _ _ Hpre Hcs Hh) as (Hsp & Hm & Hpl).
  assert (Hn : used <= n) by (destruct Hstop as [?|[? _]]; lia).
  unfold used in Hn. rewrite !length_app in Hn.
  assert (Hl : (0 < length cs)%nat) by (destruct cs; [done | simpl; lia]).
  destruct (pre ++ cs) as [|c' num] eqn:Hnum; [done|]. injection Hh as ->.
  rewrite (app_assoc pre), Hnum. clear Hnum. cbn [app].
  unfold sign_text in Hsign. destruct neg; [subst sign | destruct Hsign; subst sign];
    cbn [app length] in *;
    rewrite skip_space_spec by (try done; rewrite ?length_app; simpl; lia);
    cbn [mbind option_bind]; rewrite consume_if_equals_cons by lia.
  - change (to_lower (chr "-") =? chr "-") with true. cbn [mbind option_bind].
    rewrite length_app. simpl. do 3 f_equal. lia.
  - rewrite (proj2 (Z.eqb_neq _ _) Hm). cbn [mbind option_bind].
    rewrite consume_if_equals_cons by lia. rewrite (proj2 (Z.eqb_neq _ _) Hpl).
    cbn [mbind option_bind]. by rewrite app_nil_r.
  - change (to_lower (chr "+") =? chr "-") with false. cbn [mbind option_bind].
    rewrite consume_if_equals_cons by lia. change (to_lower (chr "+") =? chr "+") with true.
    cbn [mbind option_bind]. rewrite length_app. simpl. do 3 f_equal. lia.
Qed.

Lemma number_run :
  uacpi_string_to_integer (ws ++ sign ++ pre ++ cs ++ rest) n sel =
  ('(value, c, cur) ← digits_loop (S (length (ws ++ sign ++ pre ++ cs ++ rest))) base 0 0
      (cur_at (cs ++ rest) (n - Z.of_nat (length (ws ++ sign ++ pre))));
   Some (if (cur.2 =? 0) || (c =? 0) then UACPI_STATUS_OK else UACPI_STATUS_INVALID_ARGUMENT,
         if neg then u64 (- s64 value) else value)).
Proof.
  assert (Hn : used <= n) by (destruct Hstop as [?|[? _]]; lia).
  unfold used in Hn. rewrite !length_app in Hn.
  assert (exists c, head (pre ++ cs) = Some c) as [c Hc].
  { destruct pre; [|by eexists]. destruct cs; [done | by eexists]. }
  pose proof (number_start c Hc) as Hs. unfold uacpi_string_to_integer. cbv zeta.
  change (ws ++ sign ++ pre ++ cs ++ rest, n) with (cur_at (ws ++ sign ++ pre ++ cs ++ rest) n).
  destruct (skip_space _ _) as [cur|]; [|done]. cbn [mbind option_bind] in *.
  destruct (consume_if_equals (chr "-") cur) as [[negative cur']|]; [|done].
  cbn [mbind option_bind] in *.
  destruct (if negative then _ else _) as [cur''|]; [|done]. cbn [mbind option_bind] in *.
  injection Hs as -> ->.
  rewrite (detect_base_spec sel base pre cs ds) by (try done; rewrite !length_app in *; lia).
  cbn [mbind option_bind]. do 3 f_equal. rewrite !length_app. lia.
Qed.

Lemma number_stop :
  digits_stop base rest (n - Z.of_nat (length (ws ++ sign ++ pre)) - Z.of_nat (length cs)).
Proof.
  replace (n - _ - _) with (n - used); [done|]. unfold used. rewrite !length_app. lia.
Qed.

Lemma horner_nonneg : 0 <= horner (base_num base) 0 ds.
Proof.
  pose proof (prefix_base _ _ _ _ Hpre) as Hb. pose proof (base_num_range _ Hb).
  apply horner_mono; [lia | done | by eapply digits_nonneg].
Qed.

Lemma number_value :
  exists status, uacpi_string_to_integer (ws ++ sign ++ pre ++ cs ++ rest) n sel
      = Some (status, clamped neg (horner (base_num base) 0 ds)) /\
    (horner (base_num base) 0 ds < 2 ^ 64 ->
       status = if digits_done rest (n - used) then UACPI_STATUS_OK
                else UACPI_STATUS_INVALID_ARGUMENT).
Proof.
  pose proof (prefix_base _ _ _ _ Hpre) as Hb. pose proof number_stop as Hst.
  pose proof horner_nonneg as H0. rewrite number_run.
  assert (Hf : (length cs < S (length (ws ++ sign ++ pre ++ cs ++ rest)))%nat)
    by (rewrite !length_app; lia).
  unfold clamped. cbv zeta.
  destruct (Z.lt_ge_cases (horner (base_num base) 0 ds) (2 ^ 64)) as [Hlt|Hge].
  - edestruct digits_loop_value as (c & cur & -> & Hd); [done | exact Hcs | done | done | exact Hf | exact Hst |].
    cbn [mbind option_bind]. eexists. split.
    + f_equal. f_equal. rewrite Z.min_l by lia. destruct neg; [apply u64_opp_s64|].
      by rewrite u64_small by lia.
    + intros _. rewrite Hd. unfold used. rewrite !length_app, !Nat2Z.inj_add.
      by rewrite !Z.sub_add_distr.
  - edestruct digits_loop_overflow as (c & cur & ->); [done | exact Hcs | lia | done | exact Hf | |].
    { unfold digits_stop in Hst. destruct Hst as [?|[? _]]; lia. }
    cbn [mbind option_bind]. eexists. split; [|lia].
    f_equal. f_equal. rewrite Z.min_r by lia. by destruct neg.
Qed.
End Number.

(** [uacpi_string_to_integer] reads optional spaces, a sign, the prefix
    that selects the base, and the digits: the result is their value, negated
    modulo 2^64 after a minus sign.  A value over 64 bits is clamped to
    2^64 - 1, so after a minus sign it reads as 1.  The status is OK when the
    text ends at the digits, at a NUL, or after exactly one more character,
    whatever it is. *)
Theorem string_to_integer_spec ws neg sign sel base pre cs ds rest (n : Z) :
  Forall (fun s => is_char s CHAR_TYPE_SPACE = true) ws ->
  sign_text neg sign -> prefix_text sel base pre cs ->
  Forall2 (is_digit_in base) cs ds -> cs <> [] ->
  let left := n - Z.of_nat (length (ws ++ sign ++ pre ++ cs)) in
  digits_stop base rest left ->
  exists status, uacpi_string_to_integer (ws ++ sign ++ pre ++ cs ++ rest) n sel
      = Some (status, clamped neg (horner (base_num base) 0 ds)) /\
    (horner (base_num base) 0 ds < 2 ^ 64 ->
       status = if (left <=? 1) || (char_at rest 0 =? 0) then UACPI_STATUS_OK
                else UACPI_STATUS_INVALID_ARGUMENT).
Proof. intros Hws Hsign Hpre Hcs Hne left Hstop. by apply number_value. Qed.

(** One character of garbage after the digits is accepted. *)
Lemma string_to_integer_spec_witness :
  exists status, uacpi_string_to_integer (cstr " " ++ cstr "-" ++ cstr "0x" ++ cstr "1f" ++ cstr "z") 7
      UACPI_BASE_AUTO = Some (status, clamped true 31) /\
    (31 < 2 ^ 64 -> status = UACPI_STATUS_OK).
Proof.
  apply (string_to_integer_spec (cstr " ") true (cstr "-") UACPI_BASE_AUTO UACPI_BASE_HEX
    (cstr "0x") (cstr "1f") [1; 15] (cstr "z") 7).
  - repeat constructor.
  - reflexivity.
  - constructor. by left.
  - change (cstr "1f") with [49; 102].
    do 2 (constructor; [split; [lia | reflexivity]|]). constructor.
  - discriminate.
  - right. split; [cbn; lia|]. exists (chr "z"), []. split; reflexivity.
Defined.
