(* ===== verification/KernelSync.v ===== *)
(** * The kernel's mutex, as uACPI sees it: [mutex/mutex.cpp],
    [extra/uacpi/uacpi_kernel_wrapper.cpp] and [internal/mutex.h]

    A [uacpi_handle] of a mutex is null or points to an [internal_mutex].
    There is one thread of control, so [mutex_lock] on a locked mutex spins
    for ever: the models return [None] there. *)
From S2P Require Import Prelude Status.

Record internal_mutex := InternalMutex { locked : bool }.

(** [create_mutex] does not test the result of [malloc]: it stores through
    it, so [None] (undefined behaviour) when the allocation fails. *)
Definition create_mutex (malloc_ok : bool) : option internal_mutex :=
  if malloc_ok then Some (InternalMutex false) else None.

Definition mutex_lock (m : internal_mutex) : option internal_mutex :=
  if locked m then None else Some (InternalMutex true).
Definition mutex_unlock (m : internal_mutex) : internal_mutex := InternalMutex false.

(** [destroy_mutex] locks the mutex before it frees it. *)
Definition destroy_mutex (m : internal_mutex) : option unit :=
  _ ← mutex_lock m; Some tt.

Abbreviation mutex_handle := (option internal_mutex).

Definition uacpi_kernel_create_mutex (malloc_ok : bool) : option mutex_handle :=
  m ← create_mutex malloc_ok; Some (Some m).
Definition uacpi_kernel_free_mutex (m : internal_mutex) : option unit := destroy_mutex m.
Definition uacpi_kernel_acquire_mutex (m : internal_mutex) (timeout : Z)
    : option (uacpi_status * internal_mutex) :=
  m ← mutex_lock m; Some (UACPI_STATUS_OK, m).
Definition uacpi_kernel_release_mutex (m : internal_mutex) : internal_mutex := mutex_unlock m.
Definition uacpi_kernel_get_thread_id : Z := 1.

Definition uacpi_acquire_native_mutex (mtx : mutex_handle)
    : option (uacpi_status * mutex_handle) :=
  match mtx with
  | None => Some (UACPI_STATUS_INVALID_ARGUMENT, None)
  | Some m => '(st, m) ← uacpi_kernel_acquire_mutex m 65535; Some (st, Some m)
  end.

Definition uacpi_release_native_mutex (mtx : mutex_handle)
    : uacpi_status * mutex_handle :=
  match mtx with
  | None => (UACPI_STATUS_INVALID_ARGUMENT, None)
  | Some m => (UACPI_STATUS_OK, Some (uacpi_kernel_release_mutex m))
  end.

(** The errors are only reported: the timed form returns the same status. *)
Definition uacpi_acquire_native_mutex_with_timeout (mtx : mutex_handle) (timeout : Z)
    : option (uacpi_status * mutex_handle) :=
  match mtx with
  | None => Some (UACPI_STATUS_INVALID_ARGUMENT, None)
  | Some m => '(st, m) ← uacpi_kernel_acquire_mutex m timeout; Some (st, Some m)
  end.

(** An existing mutex nobody holds. *)
Definition free_handle (mtx : mutex_handle) : Prop := mtx = Some (InternalMutex false).

Lemma acquire_free mtx :
  free_handle mtx ->
  uacpi_acquire_native_mutex mtx = Some (UACPI_STATUS_OK, Some (InternalMutex true)).
Proof. by intros ->. Qed.
