(* ===== verification/Osi.v ===== *)
(** * The [_OSI] interface registry: [extra/uacpi/osi.c]

    The registry is a singly linked list of [registered_interface], whose
    head is [registered_interfaces].  A node is reached from the head only,
    so the list of the nodes, in order, is the state; a pointer to a node is
    its index.  The static nodes live in the array [predefined_interfaces],
    which keeps their [disabled] flags when the list is taken down. *)
From S2P Require Import Prelude Status UStd KernelSync.

Definition UACPI_INTERFACE_KIND_VENDOR : Z := Z.shiftl 1 0.
Definition UACPI_INTERFACE_KIND_FEATURE : Z := Z.shiftl 1 1.
Definition UACPI_INTERFACE_KIND_ALL : Z :=
  Z.lor UACPI_INTERFACE_KIND_VENDOR UACPI_INTERFACE_KIND_FEATURE.

(** [uacpi_vendor_interface] and [uacpi_host_interface], by value. *)
Definition UACPI_VENDOR_INTERFACE_NONE : Z := 0.
Definition UACPI_HOST_INTERFACE_MODULE_DEVICE : Z := 1.
Definition UACPI_HOST_INTERFACE_PROCESSOR_DEVICE : Z := 2.
Definition UACPI_HOST_INTERFACE_3_0_THERMAL_MODEL : Z := 3.
Definition UACPI_HOST_INTERFACE_3_0_SCP_EXTENSIONS : Z := 4.
Definition UACPI_HOST_INTERFACE_PROCESSOR_AGGREGATOR_DEVICE : Z := 5.

Inductive uacpi_interface_action :=
  | UACPI_INTERFACE_ACTION_DISABLE
  | UACPI_INTERFACE_ACTION_ENABLE.

Record registered_interface := RegisteredInterface {
  name : list Z;
  weight : Z;
  kind : Z;
  host_type : Z;
  disabled : bool;
  dynamic : bool;
}.

Definition set_disabled (b : bool) (i : registered_interface) : registered_interface :=
  RegisteredInterface (name i) (weight i) (kind i) (host_type i) b (dynamic i).

Definition WINDOWS (s : string) (w : Z) : registered_interface :=
  RegisteredInterface (cstr ("Windows " ++ s)%string) w UACPI_INTERFACE_KIND_VENDOR 0 false false.
Definition HOST_FEATURE (s : string) (t : Z) : registered_interface :=
  RegisteredInterface (cstr s) 0 UACPI_INTERFACE_KIND_FEATURE t true false.

(** The initial contents of the array. *)
Definition predefined_interfaces_init : list registered_interface :=
  [ WINDOWS "2000" 1; WINDOWS "2001" 2; WINDOWS "2001 SP1" 3; WINDOWS "2001.1" 4;
    WINDOWS "2001 SP2" 5; WINDOWS "2001.1 SP1" 6; WINDOWS "2006" 7; WINDOWS "2006.1" 8;
    WINDOWS "2006 SP1" 9; WINDOWS "2006 SP2" 10; WINDOWS "2009" 11; WINDOWS "2012" 12;
    WINDOWS "2013" 13; WINDOWS "2015" 14; WINDOWS "2016" 15; WINDOWS "2017" 16;
    WINDOWS "2017.2" 17; WINDOWS "2018" 18; WINDOWS "2018.2" 19; WINDOWS "2019" 20;
    WINDOWS "2020" 21; WINDOWS "2021" 22; WINDOWS "2022" 23;
    HOST_FEATURE "Module Device" UACPI_HOST_INTERFACE_MODULE_DEVICE;
    HOST_FEATURE "Processor Device" UACPI_HOST_INTERFACE_PROCESSOR_DEVICE;
    HOST_FEATURE "3.0 Thermal Model" UACPI_HOST_INTERFACE_3_0_THERMAL_MODEL;
    HOST_FEATURE "3.0 _SCP Extensions" UACPI_HOST_INTERFACE_3_0_SCP_EXTENSIONS;
    HOST_FEATURE "Processor Aggregator Device"
      UACPI_HOST_INTERFACE_PROCESSOR_AGGREGATOR_DEVICE;
    RegisteredInterface (cstr "Extended Address Space Descriptor") 0 0 0 false false ].

(** The file's statics, and the init level of the runtime context. *)
Record osi_state := OsiState {
  init_level : uacpi_init_level;
  interface_mutex : mutex_handle;
  registered_interfaces : list registered_interface;
  predefined_interfaces : list registered_interface;
  interface_handler : option (list Z -> bool -> bool);
  latest_queried_interface : Z;
}.

Definition set_mutex (m : mutex_handle) (s : osi_state) : osi_state :=
  OsiState (init_level s) m (registered_interfaces s) (predefined_interfaces s)
    (interface_handler s) (latest_queried_interface s).
Definition set_registered (l : list registered_interface) (s : osi_state) : osi_state :=
  OsiState (init_level s) (interface_mutex s) l (predefined_interfaces s)
    (interface_handler s) (latest_queried_interface s).
Definition set_handler (h : option (list Z -> bool -> bool)) (s : osi_state) : osi_state :=
  OsiState (init_level s) (interface_mutex s) (registered_interfaces s)
    (predefined_interfaces s) h (latest_queried_interface s).
Definition set_latest (v : Z) (s : osi_state) : osi_state :=
  OsiState (init_level s) (interface_mutex s) (registered_interfaces s)
    (predefined_interfaces s) (interface_handler s) v.

Definition acquire_interface_mutex : M osi_state uacpi_status := fun s =>
  '(st, m) ← uacpi_acquire_native_mutex (interface_mutex s); Some (st, set_mutex m s).
Definition release_interface_mutex : M osi_state unit := fun s =>
  Some (tt, set_mutex (snd (uacpi_release_native_mutex (interface_mutex s))) s).

(** The shape of the public operations: the init-level guard (skipped when
    [guard] is false), the lock, the body, the unlock. *)
Definition locked_op (guard : bool) (body : M osi_state uacpi_status)
    : M osi_state uacpi_status :=
  lvl ← gets init_level;
  if guard && negb (init_level_at_least lvl UACPI_INIT_LEVEL_SUBSYSTEM_INITIALIZED)
  then mret UACPI_STATUS_INIT_LEVEL_MISMATCH
  else
    ret ← acquire_interface_mutex;
    if negb (is_ok ret) then mret ret
    else ret ← body; _ ← release_interface_mutex; mret ret.

(** Linking [predefined_interfaces[i].next] makes the list the array. *)
Definition uacpi_initialize_interfaces (malloc_ok : bool) : M osi_state uacpi_status := fun s =>
  mtx ← uacpi_kernel_create_mutex malloc_ok;
  match mtx with
  | None => Some (UACPI_STATUS_OUT_OF_MEMORY,
                  set_registered (take 1 (predefined_interfaces s)) s)
  | Some m => Some (UACPI_STATUS_OK,
                    set_mutex (Some m) (set_registered (predefined_interfaces s) s))
  end.

(** The walk unlinks every node, frees the dynamic ones and resets the flag
    of the others in the array; a static node that was never linked keeps its
    contents. *)
Definition reset_interface (i : registered_interface) : registered_interface :=
  set_disabled (kind i =? UACPI_INTERFACE_KIND_FEATURE) i.

Definition uacpi_deinitialize_interfaces : M osi_state unit := fun s =>
  let statics := List.filter (fun i => negb (dynamic i)) (registered_interfaces s) in
  let array := map reset_interface statics ++ drop (length statics) (predefined_interfaces s) in
  _ ← (match interface_mutex s with
       | Some m => uacpi_kernel_free_mutex m | None => Some tt end);
  Some (tt, OsiState (init_level s) None [] array None 0).

Definition uacpi_latest_queried_vendor_interface : M osi_state Z :=
  gets latest_queried_interface.

(** The index of the first node that satisfies the test. *)
Fixpoint find_node (test : registered_interface -> bool) (l : list registered_interface)
    : option nat :=
  match l with
  | [] => None
  | i :: l' => if test i then Some O else S <$> find_node test l'
  end.

Definition find_interface_unlocked (n : list Z) (l : list registered_interface) : option nat :=
  find_node (fun i => uacpi_strcmp (name i) n =? 0) l.
Definition find_host_interface_unlocked (t : Z) (l : list registered_interface) : option nat :=
  find_node (fun i => host_type i =? t) l.

(** [alloc1] and [alloc2] tell whether the two allocations succeed. *)
Definition uacpi_install_interface (alloc1 alloc2 : bool) (n : list Z) (k : Z)
    : M osi_state uacpi_status :=
  locked_op true (fun s =>
    let l := registered_interfaces s in
    match find_interface_unlocked n l with
    | Some p =>
        let l' := alter (fun i => if disabled i then set_disabled false i else i) p l in
        Some (UACPI_STATUS_ALREADY_EXISTS, set_registered l' s)
    | None =>
        if negb alloc1 then Some (UACPI_STATUS_OUT_OF_MEMORY, s)
        else if negb alloc2 then Some (UACPI_STATUS_OUT_OF_MEMORY, s)
        else Some (UACPI_STATUS_OK,
                   set_registered (RegisteredInterface n 0 (u8 k) 0 false true :: l) s)
    end).

(** The walk of [uacpi_uninstall_interface]: unlink the node when it is
    dynamic, disable it otherwise. *)
Fixpoint uninstall_walk (n : list Z) (l : list registered_interface)
    : uacpi_status * list registered_interface :=
  match l with
  | [] => (UACPI_STATUS_NOT_FOUND, [])
  | cur :: l' =>
      if negb (uacpi_strcmp (name cur) n =? 0) then
        let '(ret, l'') := uninstall_walk n l' in (ret, cur :: l'')
      else if dynamic cur then (UACPI_STATUS_OK, l')
      else if negb (disabled cur) then (UACPI_STATUS_OK, set_disabled true cur :: l')
      else (UACPI_STATUS_NOT_FOUND, l)
  end.

Definition uacpi_uninstall_interface (n : list Z) : M osi_state uacpi_status :=
  locked_op true (fun s =>
    let '(ret, l) := uninstall_walk n (registered_interfaces s) in
    Some (ret, set_registered l s)).

Definition configure_host_interface (t : Z) (enabled : bool) : M osi_state uacpi_status :=
  locked_op true (fun s =>
    match find_host_interface_unlocked t (registered_interfaces s) with
    | None => Some (UACPI_STATUS_NOT_FOUND, s)
    | Some p => Some (UACPI_STATUS_OK,
        set_registered (alter (set_disabled (negb enabled)) p (registered_interfaces s)) s)
    end).

Definition uacpi_enable_host_interface (t : Z) := configure_host_interface t true.
Definition uacpi_disable_host_interface (t : Z) := configure_host_interface t false.

Definition uacpi_set_interface_query_handler (h : option (list Z -> bool -> bool))
    : M osi_state uacpi_status :=
  locked_op true (fun s =>
    match interface_handler s, h with
    | Some _, Some _ => Some (UACPI_STATUS_ALREADY_EXISTS, s)
    | _, _ => Some (UACPI_STATUS_OK, set_handler h s)
    end).

Definition bulk_configure (action : uacpi_interface_action) (k : Z)
    (i : registered_interface) : registered_interface :=
  if truthy (Z.land k (kind i))
  then set_disabled (match action with UACPI_INTERFACE_ACTION_DISABLE => true
                                     | UACPI_INTERFACE_ACTION_ENABLE => false end) i
  else i.

Definition uacpi_bulk_configure_interfaces (action : uacpi_interface_action) (k : Z)
    : M osi_state uacpi_status :=
  locked_op true (fun s =>
    Some (UACPI_STATUS_OK,
          set_registered (map (bulk_configure action k) (registered_interfaces s)) s)).

(** The answer to [_OSI(string)] for the node found, and the state after. *)
Definition osi_query (string : list Z) (s : osi_state) : bool * osi_state :=
  match find_interface_unlocked string (registered_interfaces s) ≫=
        (fun p => registered_interfaces s !! p) with
  | None => (false, s)
  | Some i =>
      let s := if latest_queried_interface s <? weight i then set_latest (weight i) s else s in
      let is_supported := negb (disabled i) in
      (match interface_handler s with Some h => h string is_supported | None => is_supported end, s)
  end.

(** [*out_value] is written unless the mutex cannot be taken. *)
Definition uacpi_handle_osi (string : list Z) : M osi_state (uacpi_status * option bool) :=
  ret ← acquire_interface_mutex;
  if negb (is_ok ret) then mret (ret, None)
  else
    v ← (fun s => Some (osi_query string s));
    _ ← release_interface_mutex;
    mret (UACPI_STATUS_OK, Some v).

(** ** What the registry promises

    The abstract state is the answer to [_OSI] for every name, before the
    host's query handler: [supported]. *)

Definition entry (n : list Z) (l : list registered_interface) : option registered_interface :=
  List.find (fun i => bool_decide (name i = n)) l.
Definition supported (l : list registered_interface) (n : list Z) : bool :=
  match entry n l with Some i => negb (disabled i) | None => false end.

(** What never changes of a static node. *)
Definition identity (i : registered_interface) : list Z * Z * Z * Z * bool :=
  (name i, weight i, kind i, host_type i, dynamic i).

(** The registry between two operations: the mutex is free, the names are
    C strings and distinct, the nodes are the installed ones followed by the
    predefined ones, and the array has all its elements. *)
Record registry_wf (s : osi_state) : Prop := {
  wf_level : init_level_at_least (init_level s) UACPI_INIT_LEVEL_SUBSYSTEM_INITIALIZED = true;
  wf_mutex : free_handle (interface_mutex s);
  wf_names : NoDup (map name (registered_interfaces s));
  wf_cstr : Forall (fun i => is_cstring (name i)) (registered_interfaces s);
  wf_shape : exists dyn, Forall (fun i => dynamic i = true /\ host_type i = 0) dyn /\
    map identity (registered_interfaces s)
    = map identity dyn ++ map identity predefined_interfaces_init;
  wf_array : length (predefined_interfaces s) = length predefined_interfaces_init;
}.

Section Registry.
Implicit Types (l : list registered_interface) (n : list Z) (i : registered_interface).

Lemma entry_Some n l i : entry n l = Some i -> In i l /\ name i = n.
Proof.
  intros H. apply List.find_some in H as [Hi Hn]. split; [done|].
  by apply bool_decide_eq_true in Hn.
Qed.

Lemma strcmp_zero i n : is_cstring (name i) -> is_cstring n ->
  (uacpi_strcmp (name i) n =? 0) = bool_decide (name i = n).
Proof.
  intros Hi Hn. apply Bool.eq_iff_eq_true. rewrite Z.eqb_eq, bool_decide_eq_true.
  by apply strcmp_eq.
Qed.

(** The search by [uacpi_strcmp] finds the entry of that name. *)
Lemma find_interface_entry n l :
  Forall (fun i => is_cstring (name i)) l -> is_cstring n ->
  find_interface_unlocked n l ≫= (fun p => l !! p) = entry n l.
Proof.
  intros Hl Hn. unfold find_interface_unlocked, entry.
  induction Hl as [|i l Hi Hl IH]; [done|]. cbn [find_node List.find].
  rewrite strcmp_zero by done. destruct (bool_decide _); [done|].
  rewrite <- IH. by destruct (find_node _ l).
Qed.

Lemma entry_name_None n l : entry n l = None <-> n ∉ map name l.
Proof.
  unfold entry. induction l as [|i l IH]; cbn [List.find map].
  - split; [intros _; apply not_elem_of_nil | done].
  - rewrite not_elem_of_cons. case_bool_decide; [|rewrite IH]; naive_solver.
Qed.

(** Rewriting nodes without renaming them keeps every entry in place. *)
Lemma entry_map (f : registered_interface -> registered_interface) n l :
  (forall i, name (f i) = name i) -> entry n (map f l) = f <$> entry n l.
Proof.
  intros Hf. unfold entry. induction l as [|i l IH]; cbn [List.find map]; [done|].
  rewrite Hf. by case_bool_decide.
Qed.

Lemma alter_named {A} (f : registered_interface -> registered_interface) (g : registered_interface -> A) p l :
  (forall i, g (f i) = g i) -> map g (alter f p l) = map g l.
Proof.
  intros Hf. revert p. induction l as [|i l IH]; intros [|p]; simpl; [done..| |].
  - by rewrite Hf.
  - f_equal. apply IH.
Qed.
End Registry.

(** ** The abstract registry: a map from names to interfaces

    [osi_exec] is what the code does for a command, [osi_spec] what the
    command does to the interface a name denotes, whatever the order of the
    list. *)
Inductive osi_cmd :=
  | CInstall (alloc1 alloc2 : bool) (n : list Z) (k : Z)
  | CUninstall (n : list Z)
  | CHost (t : Z) (enabled : bool)
  | CHandler (h : option (list Z -> bool -> bool))
  | CBulk (action : uacpi_interface_action) (k : Z)
  | CQuery (n : list Z).

(** What a command gives back: a status, and for a query the value of
    [*out_value] if it is written. *)
Inductive osi_answer :=
  | Status (st : uacpi_status)
  | Answer (st : uacpi_status) (v : option bool).

Definition osi_exec (c : osi_cmd) : M osi_state osi_answer :=
  match c with
  | CInstall a1 a2 n k => st ← uacpi_install_interface a1 a2 n k; mret (Status st)
  | CUninstall n => st ← uacpi_uninstall_interface n; mret (Status st)
  | CHost t true => st ← uacpi_enable_host_interface t; mret (Status st)
  | CHost t false => st ← uacpi_disable_host_interface t; mret (Status st)
  | CHandler h => st ← uacpi_set_interface_query_handler h; mret (Status st)
  | CBulk a k => st ← uacpi_bulk_configure_interfaces a k; mret (Status st)
  | CQuery n => '(st, v) ← uacpi_handle_osi n; mret (Answer st v)
  end.

Definition valid_cmd (c : osi_cmd) : Prop :=
  match c with
  | CInstall _ _ n _ | CUninstall n | CQuery n => is_cstring n
  | CHost t _ => 1 <= t <= 5
  | _ => True
  end.

Definition osi_spec (c : osi_cmd) (n' : list Z) (e : option registered_interface)
    : option registered_interface :=
  match c with
  | CInstall a1 a2 n k =>
      if bool_decide (n' = n) then
        match e with
        | Some i => Some (set_disabled false i)
        | None => if a1 && a2 then Some (RegisteredInterface n 0 (u8 k) 0 false true) else None
        end
      else e
  | CUninstall n =>
      if bool_decide (n' = n) then
        i ← e; if dynamic i then None else Some (set_disabled true i)
      else e
  | CHost t enabled =>
      (fun i => if host_type i =? t then set_disabled (negb enabled) i else i) <$> e
  | CBulk a k => bulk_configure a k <$> e
  | CHandler _ | CQuery _ => e
  end.

(** What the command gives back, from the interfaces the names denote and the
    handler; the handler after it, and the latest vendor version queried. *)
Definition osi_reply (c : osi_cmd) (m : list Z -> option registered_interface)
    (h : option (list Z -> bool -> bool)) : osi_answer :=
  match c with
  | CInstall a1 a2 n _ =>
      Status (match m n with
              | Some _ => UACPI_STATUS_ALREADY_EXISTS
              | None => if a1 && a2 then UACPI_STATUS_OK else UACPI_STATUS_OUT_OF_MEMORY
              end)
  | CUninstall n =>
      Status (match m n with
              | Some i => if dynamic i || negb (disabled i) then UACPI_STATUS_OK else UACPI_STATUS_NOT_FOUND
              | None => UACPI_STATUS_NOT_FOUND
              end)
  | CHost _ _ | CBulk _ _ => Status UACPI_STATUS_OK
  | CHandler h' =>
      Status (match h, h' with Some _, Some _ => UACPI_STATUS_ALREADY_EXISTS | _, _ => UACPI_STATUS_OK end)
  | CQuery n =>
      Answer UACPI_STATUS_OK (Some (
        match m n with
        | None => false
        | Some i => match h with Some h => h n (negb (disabled i)) | None => negb (disabled i) end
        end))
  end.
Definition osi_handler_after (c : osi_cmd) (h : option (list Z -> bool -> bool)) : option (list Z -> bool -> bool) :=
  match c with
  | CHandler h' => match h, h' with Some _, Some _ => h | _, _ => h' end
  | _ => h
  end.
Definition osi_latest_after (c : osi_cmd) (m : list Z -> option registered_interface) (v : Z) : Z :=
  match c with
  | CQuery n => match m n with Some i => Z.max v (weight i) | None => v end
  | _ => v
  end.

Definition unlock (s : osi_state) : osi_state := set_mutex (Some (InternalMutex false)) s.
Definition lock (s : osi_state) : osi_state := set_mutex (Some (InternalMutex true)) s.

Lemma locked_op_run body s r s' :
  registry_wf s -> body (lock s) = Some (r, s') -> interface_mutex s' = Some (InternalMutex true) ->
  locked_op true body s = Some (r, unlock s').
Proof.
  intros Hwf Hb Hm. unfold locked_op, acquire_interface_mutex, release_interface_mutex. mstep.
  rewrite (wf_level s Hwf). cbn [andb negb]. rewrite (acquire_free _ (wf_mutex s Hwf)). simpl.
  unfold lock in Hb. rewrite Hb. simpl. by rewrite Hm.
Qed.

(** A body that only replaces the list. *)
Lemma locked_op_list body s r l :
  registry_wf s -> body (lock s) = Some (r, set_registered l (lock s)) ->
  locked_op true body s = Some (r, set_registered l s).
Proof.
  intros Hwf Hb. rewrite (locked_op_run _ _ _ _ Hwf Hb eq_refl).
  destruct s as [? m ? ? ? ?]. pose proof (wf_mutex _ Hwf) as Hm. simpl in Hm.
  unfold free_handle in Hm. by subst m.
Qed.

(** Static nodes are not dynamic, and each host type has one node. *)
Lemma map_id_alter f p (l : list registered_interface) :
  (forall i, identity (f i) = identity i) -> map identity (alter f p l) = map identity l.
Proof. apply alter_named. Qed.

Definition same_identity (l l' : list registered_interface) : Prop :=
  map identity l' = map identity l.

Lemma same_identity_names l l' : same_identity l l' -> map name l' = map name l.
Proof.
  intros H. apply (f_equal (map (fun x => fst (fst (fst (fst x)))))) in H.
  rewrite !map_map in H. exact H.
Qed.

Lemma wf_set_registered s l :
  registry_wf s -> same_identity (registered_interfaces s) l ->
  registry_wf (set_registered l s).
Proof.
  intros Hwf Hi. pose proof (same_identity_names _ _ Hi) as Hn. destruct Hwf as [H1 H2 H3 H4 H5 H6].
  split; simpl; try done.
  - by rewrite Hn.
  - apply Forall_map with (P := is_cstring). rewrite Hn. by apply Forall_map.
  - destruct H5 as (dyn & Hd & He). exists dyn. split; [done|]. by rewrite Hi.
Qed.

(** The node [find_interface_unlocked] returns is the entry of the name, and
    rewriting it rewrites that entry only. *)
Lemma alter_entry f n p (l : list registered_interface) n' :
  NoDup (map name l) -> Forall (fun i => is_cstring (name i)) l -> is_cstring n ->
  (forall i, name (f i) = name i) ->
  find_interface_unlocked n l = Some p ->
  entry n' (alter f p l) = if bool_decide (n' = n) then f <$> entry n l else entry n' l.
Proof.
  intros Hnd Hc Hn Hf. revert p. induction l as [|i l IH]; intros p; [done|].
  apply Forall_cons in Hc as [Hi Hc]. simpl in Hnd. apply NoDup_cons in Hnd as [Hni Hnd].
  unfold find_interface_unlocked, entry in *. cbn [find_node List.find].
  rewrite strcmp_zero by done. destruct (bool_decide_reflect (name i = n)) as [Hin|Hin].
  - intros [= <-]. change (alter f 0%nat (i :: l)) with (f i :: l). cbn [List.find].
    rewrite Hf, Hin. repeat case_bool_decide; try congruence; done.
  - destruct (find_node _ l) as [q|] eqn:Hq; [|done]. intros [= <-].
    change (alter f (S q) (i :: l)) with (i :: alter f q l). cbn [List.find].
    rewrite (IH Hnd Hc q eq_refl). repeat case_bool_decide; try congruence; done.
Qed.

Lemma find_none_entry n (l : list registered_interface) :
  Forall (fun i => is_cstring (name i)) l -> is_cstring n ->
  find_interface_unlocked n l = None -> entry n l = None.
Proof. intros Hc Hn H. rewrite <- find_interface_entry by done. by rewrite H. Qed.

Lemma find_some_entry n p (l : list registered_interface) :
  Forall (fun i => is_cstring (name i)) l -> is_cstring n ->
  find_interface_unlocked n l = Some p -> exists i, l !! p = Some i /\ entry n l = Some i.
Proof.
  intros Hc Hn H. rewrite <- find_interface_entry by done. rewrite H. simpl.
  unfold find_interface_unlocked in H.
  enough (exists i, l !! p = Some i) as [i Hi] by (exists i; by rewrite Hi).
  apply lookup_lt_is_Some. clear Hc. revert p H.
  induction l as [|j l IH]; intros p; cbn [find_node]; [done|].
  destruct (_ =? 0); [intros [= <-]; simpl; lia|].
  destruct (find_node _ l) as [q|]; [|done]. intros [= <-].
  specialize (IH q eq_refl). simpl. lia.
Qed.

(** ** Each operation refines the map *)

Definition refines (c : osi_cmd) (s : osi_state) : Prop :=
  let m n := entry n (registered_interfaces s) in
  exists s', osi_exec c s = Some (osi_reply c m (interface_handler s), s') /\ registry_wf s' /\
    (forall n', entry n' (registered_interfaces s') = osi_spec c n' (m n')) /\
    interface_handler s' = osi_handler_after c (interface_handler s) /\
    latest_queried_interface s' = osi_latest_after c m (latest_queried_interface s).

Lemma exec_status (m : M osi_state uacpi_status) s r s' :
  m s = Some (r, s') -> (mbind (M := M osi_state) (fun st => mret (Status st)) m) s = Some (Status r, s').
Proof. intros H. mstep. by rewrite H. Qed.

Lemma install_refines a1 a2 n k s :
  registry_wf s -> is_cstring n -> refines (CInstall a1 a2 n k) s.
Proof.
  intros Hwf Hn. set (l := registered_interfaces s).
  pose proof (wf_cstr s Hwf) as Hc. pose proof (wf_names s Hwf) as Hnd. fold l in Hc, Hnd.
  set (f := fun i => if disabled i then set_disabled false i else i).
  assert (Hfe : forall i, f i = set_disabled false i).
  { intros [? ? ? ? [] ?]; done. }
  unfold refines. cbn [osi_reply osi_handler_after osi_latest_after]. fold l.
  destruct (find_interface_unlocked n l) as [p|] eqn:Hp.
  - destruct (find_some_entry n p l Hc Hn Hp) as (i0 & _ & ->).
    exists (set_registered (alter f p l) s). split_and!; [| | |done|done].
    + eapply exec_status, locked_op_list; [done|]. simpl. fold l. by rewrite Hp.
    + apply wf_set_registered; [done|]. apply map_id_alter. intros i. by rewrite Hfe.
    + intros n'. cbn [osi_spec registered_interfaces set_registered]. fold l.
      rewrite (alter_entry f n p) by (done || intros i; by rewrite Hfe).
      case_bool_decide as Hn'; [subst n'|done].
      apply find_some_entry in Hp as (i & _ & ->); [|done..]. simpl. by rewrite Hfe.
  - pose proof (find_none_entry n l Hc Hn Hp) as He. rewrite He.
    destruct (a1 && a2) eqn:Ha.
    + apply andb_true_iff in Ha as [-> ->].
      exists (set_registered (RegisteredInterface n 0 (u8 k) 0 false true :: l) s). split_and!; [| | |done|done].
      * eapply exec_status, locked_op_list; [done|]. simpl. fold l. by rewrite Hp.
      * destruct Hwf as [H1 H2 H3 H4 (dyn & Hd & Hs) H6]. split; simpl; try done.
        -- apply NoDup_cons. split; [|done]. by apply entry_name_None.
        -- by apply Forall_cons.
        -- exists (RegisteredInterface n 0 (u8 k) 0 false true :: dyn).
           split; [by apply Forall_cons|]. exact (f_equal (cons _) Hs).
      * intros n'. cbn [osi_spec registered_interfaces set_registered andb]. fold l.
        unfold entry at 1. cbn [List.find]. simpl name. fold (entry n' l).
        case_bool_decide; case_bool_decide; try congruence. subst. by rewrite He.
    + exists s. split_and!; [|done| |done|done].
      * replace s with (set_registered l s) at 2 by (by destruct s).
        apply (exec_status _ _ UACPI_STATUS_OUT_OF_MEMORY), locked_op_list; [done|].
        simpl. fold l. rewrite Hp. destruct a1, a2; try done; simpl; by destruct s.
      * intros n'. cbn [osi_spec]. rewrite Ha. case_bool_decide; [|done]. subst. fold l. by rewrite He.
Qed.

Lemma uninstall_walk_static n (l : list registered_interface) :
  Forall (fun i => dynamic i = false) l ->
  map identity (snd (uninstall_walk n l)) = map identity l.
Proof.
  induction 1 as [|i l Hi Hl IH]; cbn [uninstall_walk]; [done|].
  destruct (negb (_ =? 0)).
  - destruct (uninstall_walk n l) as [r l'']. simpl in *. by rewrite IH.
  - rewrite Hi. by destruct (disabled i).
Qed.

Lemma static_nodes : Forall (fun i => dynamic i = false) predefined_interfaces_init.
Proof. repeat constructor. Qed.

Lemma identity_static (l l' : list registered_interface) :
  map identity l = map identity l' -> Forall (fun i => dynamic i = false) l' ->
  Forall (fun i => dynamic i = false) l.
Proof.
  intros H. apply (f_equal (map snd)) in H. rewrite !map_map in H. simpl in H.
  change (fun x => dynamic x) with dynamic in H.
  rewrite <- !(Forall_map dynamic (fun b => b = false)). by rewrite H.
Qed.

Lemma uninstall_walk_shape n (l dyn : list registered_interface) :
  Forall (fun i => dynamic i = true /\ host_type i = 0) dyn ->
  map identity l = map identity dyn ++ map identity predefined_interfaces_init ->
  exists dyn', Forall (fun i => dynamic i = true /\ host_type i = 0) dyn' /\
    map identity (snd (uninstall_walk n l))
    = map identity dyn' ++ map identity predefined_interfaces_init.
Proof.
  intros Hd. revert l. induction Hd as [|d dyn Hdd Hd IH]; intros l Hl.
  - exists []. split; [done|]. rewrite uninstall_walk_static; [exact Hl|].
    eapply identity_static; [exact Hl | apply static_nodes].
  - destruct l as [|i l]; [done|]. cbn [map app] in Hl.
    injection Hl as Hn Hw Hk Hh Hdy Hl. cbn [uninstall_walk].
    destruct (negb (_ =? 0)).
    + destruct (IH l Hl) as (dyn' & Hd' & He). destruct (uninstall_walk n l) as [r l''].
      exists (d :: dyn'). split; [by apply Forall_cons|]. simpl in *. rewrite He. f_equal.
      unfold identity. congruence.
    + rewrite Hdy, (proj1 Hdd). by exists dyn.
Qed.

Lemma uninstall_walk_names n (l : list registered_interface) :
  sublist (map name (snd (uninstall_walk n l))) (map name l).
Proof.
  induction l as [|i l IH]; cbn [uninstall_walk]; [done|].
  destruct (negb (_ =? 0)).
  - destruct (uninstall_walk n l) as [r l'']. simpl in *. by constructor.
  - destruct (dynamic i); simpl; [by constructor|]. destruct (disabled i); simpl; done.
Qed.

Lemma uninstall_walk_entry n n' (l : list registered_interface) :
  NoDup (map name l) -> Forall (fun i => is_cstring (name i)) l -> is_cstring n ->
  entry n' (snd (uninstall_walk n l)) = osi_spec (CUninstall n) n' (entry n' l).
Proof.
  intros Hnd Hc Hn. cbn [osi_spec].
  induction l as [|i l IH]; cbn [uninstall_walk]; [by case_bool_decide|].
  apply Forall_cons in Hc as [Hi Hc]. simpl in Hnd. apply NoDup_cons in Hnd as [Hni Hnd].
  specialize (IH Hnd Hc). rewrite strcmp_zero by done.
  pose proof (proj2 (entry_name_None (name i) l) Hni) as Hno.
  unfold entry in *. cbn [List.find].
  destruct (bool_decide_reflect (name i = n)) as [<-|Hin]; cbn [negb].
  - destruct (dynamic i) eqn:Hdy; cbn [snd].
    + repeat case_bool_decide; try congruence. subst. cbn [mbind option_bind]. by rewrite Hdy.
    + destruct (disabled i) eqn:Hdis; cbn [snd negb List.find name set_disabled];
        repeat case_bool_decide; try congruence; cbn [mbind option_bind]; rewrite ?Hdy; [|done].
      destruct i; simpl in *. by subst.
  - destruct (uninstall_walk n l) as [r l'']. cbn [snd] in *. cbn [List.find].
    repeat case_bool_decide; try congruence; done.
Qed.

Lemma uninstall_walk_status n (l : list registered_interface) :
  Forall (fun i => is_cstring (name i)) l -> is_cstring n ->
  fst (uninstall_walk n l) = match entry n l with
    | Some i => if dynamic i || negb (disabled i) then UACPI_STATUS_OK else UACPI_STATUS_NOT_FOUND
    | None => UACPI_STATUS_NOT_FOUND
    end.
Proof.
  intros Hc Hn. induction Hc as [|i l Hi Hc IH]; [done|]. cbn [uninstall_walk]. rewrite strcmp_zero by done.
  unfold entry in *. cbn [List.find]. destruct (bool_decide (name i = n)); cbn [negb].
  - by destruct (dynamic i), (disabled i).
  - by destruct (uninstall_walk n l).
Qed.

Lemma Forall_sublist_of {A} (P : A -> Prop) (l l' : list A) :
  Forall P l -> sublist l' l -> Forall P l'.
Proof.
  intros H Hs. induction Hs; [done|..]; apply Forall_cons in H as [? H]; auto.
Qed.

Lemma uninstall_refines n s : registry_wf s -> is_cstring n -> refines (CUninstall n) s.
Proof.
  intros Hwf Hn. set (l := registered_interfaces s).
  exists (set_registered (snd (uninstall_walk n l)) s). split_and!; [| | |done|done].
  - cbn [osi_reply]. rewrite <- uninstall_walk_status by (done || apply Hwf). apply (exec_status _ _ (fst (uninstall_walk n l))), locked_op_list; [done|].
    simpl. fold l. by destruct (uninstall_walk n l).
  - destruct Hwf as [H1 H2 H3 H4 (dyn & Hd & Hs) H6].
    split; simpl; try done.
    + eapply sublist_NoDup; [exact H3 | apply uninstall_walk_names].
    + apply (Forall_map name is_cstring). apply (Forall_map name is_cstring) in H4.
      by eapply Forall_sublist_of, uninstall_walk_names.
    + by apply (uninstall_walk_shape n l dyn).
  - intros n'. apply uninstall_walk_entry; [apply Hwf.. | done].
Qed.

(** At most one node has a given non-zero host type. *)
Lemma host_types_unique s :
  registry_wf s ->
  NoDup (List.filter (fun t => negb (t =? 0)) (map host_type (registered_interfaces s))).
Proof.
  intros [_ _ _ _ (dyn & Hd & Hs) _].
  apply (f_equal (map (fun x => snd (fst x)))) in Hs. rewrite map_app, !map_map in Hs.
  change (map host_type (registered_interfaces s)
    = map host_type dyn ++ map host_type predefined_interfaces_init) in Hs.
  rewrite Hs, List.filter_app.
  replace (List.filter _ (map host_type dyn)) with (@nil Z).
  - vm_compute. repeat constructor; set_solver.
  - clear Hs. induction Hd as [|i l [_ Hi] _ IH]; [done|]. simpl. by rewrite Hi.
Qed.

Lemma alter_host_entry f t p n' (l : list registered_interface) :
  t <> 0 -> NoDup (List.filter (fun t => negb (t =? 0)) (map host_type l)) ->
  (forall i, name (f i) = name i) -> NoDup (map name l) ->
  find_host_interface_unlocked t l = Some p ->
  entry n' (alter f p l) = (fun i => if host_type i =? t then f i else i) <$> entry n' l.
Proof.
  intros Ht Hu Hf Hnd. unfold find_host_interface_unlocked, entry.
  assert (Hskip : forall l, (forall i, In i l -> host_type i <> t) ->
    List.find (fun i => bool_decide (name i = n')) l
    = (fun i => if host_type i =? t then f i else i) <$> List.find (fun i => bool_decide (name i = n')) l).
  { clear. intros l H. destruct (List.find _ l) as [i|] eqn:E; [|done].
    apply List.find_some in E as [Hi _]. simpl.
    by rewrite (proj2 (Z.eqb_neq _ _) (H i Hi)). }
  revert p. induction l as [|i l IH]; intros p; cbn [find_node]; [done|].
  simpl in Hnd. apply NoDup_cons in Hnd as [Hni Hnd].
  destruct (Z.eqb_spec (host_type i) t) as [Hi|Hi].
  - intros [= <-]. change (alter f 0%nat (i :: l)) with (f i :: l). cbn [List.find].
    rewrite Hf. case_bool_decide; simpl; [by rewrite (proj2 (Z.eqb_eq _ _) Hi)|].
    apply Hskip. intros j Hj Hjt. cbn [map List.filter] in Hu.
    replace (host_type i =? 0) with false in Hu by lia. cbn [negb] in Hu.
    apply NoDup_cons in Hu as [Hu _]. apply Hu, list_elem_of_In, List.filter_In. split.
    + rewrite Hi, <- Hjt. by apply in_map.
    + apply negb_true_iff. lia.
  - destruct (find_node _ l) as [q|] eqn:Hq; [|done]. intros [= <-].
    change (alter f (S q) (i :: l)) with (i :: alter f q l). cbn [List.find].
    case_bool_decide; simpl; [by rewrite (proj2 (Z.eqb_neq _ _) Hi)|].
    apply IH; try done. cbn [map List.filter] in Hu.
    destruct (negb (host_type i =? 0)); [by apply NoDup_cons in Hu as [_ Hu] | done].
Qed.

Lemma find_host_none t n' (l : list registered_interface) :
  find_host_interface_unlocked t l = None ->
  forall f : registered_interface -> registered_interface,
  entry n' l = (fun i => if host_type i =? t then f i else i) <$> entry n' l.
Proof.
  unfold find_host_interface_unlocked, entry. intros H f.
  induction l as [|i l IH]; cbn [find_node List.find] in *; [done|].
  destruct (Z.eqb_spec (host_type i) t); [done|].
  destruct (find_node _ l); [done|]. case_bool_decide; [|by apply IH]. simpl.
  by rewrite (proj2 (Z.eqb_neq _ _) n).
Qed.

(** Every host feature has its node. *)
Lemma host_found t s : registry_wf s -> 1 <= t <= 5 ->
  find_host_interface_unlocked t (registered_interfaces s) <> None.
Proof.
  intros [_ _ _ _ (dyn & Hd & Hs) _] Ht Hno.
  apply (f_equal (map (fun x => snd (fst x)))) in Hs. rewrite map_app, !map_map in Hs.
  change (map host_type (registered_interfaces s)
    = map host_type dyn ++ map host_type predefined_interfaces_init) in Hs.
  assert (Hin : t ∈ map host_type (registered_interfaces s)).
  { rewrite Hs. apply elem_of_app. right. assert (t = 1 \/ t = 2 \/ t = 3 \/ t = 4 \/ t = 5) as H by lia.
    destruct H as [->|[->|[->|[->| ->]]]]; apply (bool_decide_unpack _); vm_compute; exact I. }
  clear Hs. revert Hno. unfold find_host_interface_unlocked.
  induction (registered_interfaces s) as [|i l IH]; [by apply elem_of_nil in Hin|]. cbn [find_node map] in *.
  destruct (Z.eqb_spec (host_type i) t); [done|]. apply elem_of_cons in Hin as [?|Hin]; [congruence|].
  specialize (IH Hin). by destruct (find_node _ l).
Qed.

Lemma host_refines t enabled s :
  registry_wf s -> 1 <= t <= 5 -> refines (CHost t enabled) s.
Proof.
  intros Hwf Ht. set (l := registered_interfaces s).
  assert (Hop : forall r s', configure_host_interface t enabled s = Some (r, s') ->
    osi_exec (CHost t enabled) s = Some (Status r, s')).
  { intros r s' H. destruct enabled; by eapply exec_status. }
  destruct (find_host_interface_unlocked t l) as [p|] eqn:Hp.
  - exists (set_registered (alter (set_disabled (negb enabled)) p l) s). split_and!; [| | |done|done].
    + eapply Hop, locked_op_list; [done|]. simpl. fold l. by rewrite Hp.
    + apply wf_set_registered; [done|]. by apply map_id_alter.
    + intros n'. cbn [osi_spec registered_interfaces set_registered].
      apply alter_host_entry; [lia | by apply host_types_unique | done | apply Hwf | done].
  - by apply (host_found t s) in Hp.
Qed.

Lemma bulk_refines a k s : registry_wf s -> refines (CBulk a k) s.
Proof.
  intros Hwf.
  assert (Hid : forall i, identity (bulk_configure a k i) = identity i).
  { intros i. unfold bulk_configure. by destruct (truthy _). }
  exists (set_registered (map (bulk_configure a k) (registered_interfaces s)) s). split_and!; [| | |done|done].
  - eapply exec_status, locked_op_list; [done|]. reflexivity.
  - apply wf_set_registered; [done|]. unfold same_identity. rewrite map_map.
    by apply map_ext.
  - intros n'. apply entry_map. intros i. by injection (Hid i).
Qed.

(** Operations that leave the list alone. *)
Lemma wf_same s s' :
  registry_wf s -> init_level s' = init_level s -> free_handle (interface_mutex s') ->
  registered_interfaces s' = registered_interfaces s ->
  predefined_interfaces s' = predefined_interfaces s -> registry_wf s'.
Proof. intros [H1 H2 H3 H4 H5 H6] El Hm Er Ep. split; rewrite ?El, ?Er, ?Ep; done. Qed.

Lemma handler_refines h s : registry_wf s -> refines (CHandler h) s.
Proof.
  intros Hwf. set (h' := osi_handler_after (CHandler h) (interface_handler s)).
  exists (unlock (set_handler h' (lock s))). split_and!; [|by apply (wf_same s)|done..].
  apply exec_status, locked_op_run; [done| |done]. subst h'.
  cbn [osi_handler_after interface_handler lock set_mutex]. by destruct s as [? ? ? ? [] ?], h.
Qed.

(** The query's result and its effect on [latest_queried_interface]. *)
Lemma handle_osi_run n s :
  registry_wf s -> is_cstring n ->
  uacpi_handle_osi n s =
    Some ((UACPI_STATUS_OK, Some (
             let v := supported (registered_interfaces s) n in
             match entry n (registered_interfaces s), interface_handler s with
             | Some _, Some h => h n v | _, _ => v end)),
          set_latest (match entry n (registered_interfaces s) with
                      | Some i => Z.max (latest_queried_interface s) (weight i)
                      | None => latest_queried_interface s end) s).
Proof.
  intros Hwf Hn. unfold uacpi_handle_osi, acquire_interface_mutex, release_interface_mutex.
  mstep. rewrite (acquire_free _ (wf_mutex s Hwf)). simpl.
  unfold osi_query. cbn [registered_interfaces set_mutex].
  rewrite find_interface_entry by (done || apply Hwf). unfold supported.
  pose proof (wf_mutex s Hwf) as Hm. destruct s as [lv m l pr hd lt]. simpl in *.
  unfold free_handle in Hm. subst m.
  destruct (entry n l) as [i|]; simpl; [|done].
  destruct (Z.ltb_spec lt (weight i)); simpl; unfold set_latest, set_mutex; simpl;
    do 3 f_equal; try (destruct hd; done); lia.
Qed.

Lemma query_refines n s : registry_wf s -> is_cstring n -> refines (CQuery n) s.
Proof.
  intros Hwf Hn. eexists (set_latest (osi_latest_after (CQuery n) (fun n => entry n (registered_interfaces s)) (latest_queried_interface s)) s). split_and!.
  - cbn [osi_exec osi_reply]. mstep. rewrite handle_osi_run by done. unfold supported. cbn [osi_latest_after].
    by destruct (entry n (registered_interfaces s)).
  - apply (wf_same s); [done.. | apply Hwf | done | done].
  - done.
  - done.
  - done.
Qed.

(** The statics as the program starts, at the level [uacpi_initialize] has
    reached when it sets the interfaces up. *)
Definition osi_static (lvl : uacpi_init_level) : osi_state :=
  OsiState lvl None [] predefined_interfaces_init None 0.
Definition osi_boot : osi_state :=
  OsiState UACPI_INIT_LEVEL_SUBSYSTEM_INITIALIZED (Some (InternalMutex false))
    predefined_interfaces_init predefined_interfaces_init None 0.

Lemma initialize_boot :
  uacpi_initialize_interfaces true (osi_static UACPI_INIT_LEVEL_SUBSYSTEM_INITIALIZED)
  = Some (UACPI_STATUS_OK, osi_boot).
Proof. reflexivity. Qed.

Lemma boot_wf : registry_wf osi_boot.
Proof.
  split; try done.
  - apply (bool_decide_unpack _). vm_compute. exact I.
  - simpl. repeat (apply Forall_cons; split; [repeat constructor|]). constructor.
  - by exists [].
Qed.

(** A sequence of operations, and what it means for one name. *)
Fixpoint osi_run (cs : list osi_cmd) : M osi_state unit :=
  match cs with
  | [] => mret tt
  | c :: cs => _ ← osi_exec c; osi_run cs
  end.
Definition osi_trace_spec (n : list Z) (cs : list osi_cmd) (e : option registered_interface)
    : option registered_interface := fold_left (fun e c => osi_spec c n e) cs e.

Lemma osi_refines (c : osi_cmd) (s : osi_state) : registry_wf s -> valid_cmd c -> refines c s.
Proof.
  intros Hwf Hv. destruct c as [a1 a2 n k|n|t e|h|a k|n].
  - by apply install_refines.
  - by apply uninstall_refines.
  - by apply host_refines.
  - by apply handler_refines.
  - by apply bulk_refines.
  - by apply query_refines.
Qed.

Lemma osi_run_refines cs s :
  registry_wf s -> Forall valid_cmd cs ->
  exists s', osi_run cs s = Some (tt, s') /\ registry_wf s' /\
    forall n, entry n (registered_interfaces s')
      = osi_trace_spec n cs (entry n (registered_interfaces s)).
Proof.
  intros Hwf Hv. revert s Hwf. induction Hv as [|c cs Hc Hcs IH]; intros s Hwf; [by exists s|].
  destruct (osi_refines c s Hwf Hc) as (s1 & Hx & Hwf1 & He & _).
  destruct (IH s1 Hwf1) as (s2 & Hx2 & Hwf2 & He2).
  exists s2. cbn [osi_run]. mstep. rewrite Hx. split_and!; [done..|].
  intros n. rewrite He2, He. reflexivity.
Qed.



(** What [_OSI] answers.  After the registry is set up and any sequence
    of valid operations has run, a query for a name terminates with the mutex
    free and answers whether the interface that the sequence gives the name
    exists and is enabled, as the installed query handler adjusts it. *)
Theorem osi_query_after (cs : list osi_cmd) (n : list Z) :
  Forall valid_cmd cs -> is_cstring n ->
  exists s s',
    (mbind (M := M osi_state) (fun _ => osi_run cs) (uacpi_initialize_interfaces true))
      (osi_static UACPI_INIT_LEVEL_SUBSYSTEM_INITIALIZED) = Some (tt, s) /\
    uacpi_handle_osi n s =
      Some ((UACPI_STATUS_OK, Some
        (match osi_trace_spec n cs (entry n predefined_interfaces_init) with
         | None => false
         | Some i => match interface_handler s with
                     | Some h => h n (negb (disabled i)) | None => negb (disabled i) end
         end)), s') /\
    free_handle (interface_mutex s').
Proof.
  intros Hv Hn. destruct (osi_run_refines cs osi_boot boot_wf Hv) as (s & Hr & Hwf & He).
  exists s, (set_latest (match entry n (registered_interfaces s) with
    | Some i => Z.max (latest_queried_interface s) (weight i)
    | None => latest_queried_interface s end) s).
  mstep. rewrite initialize_boot. split_and!; [exact Hr | | apply Hwf].
  rewrite handle_osi_run by done. unfold supported. rewrite He.
  change (registered_interfaces osi_boot) with predefined_interfaces_init.
  by destruct (osi_trace_spec _ _ _).
Qed.

Lemma osi_query_after_witness :
  exists s s',
    (mbind (M := M osi_state)
       (fun _ => osi_run [CUninstall (cstr "Windows 2015"); CHost 3 true])
       (uacpi_initialize_interfaces true))
      (osi_static UACPI_INIT_LEVEL_SUBSYSTEM_INITIALIZED) = Some (tt, s) /\
    uacpi_handle_osi (cstr "Windows 2015") s =
      Some ((UACPI_STATUS_OK,
             Some (match interface_handler s with
                   | Some h => h (cstr "Windows 2015") false | None => false end)), s') /\
    free_handle (interface_mutex s').
Proof.
  apply (osi_query_after [CUninstall (cstr "Windows 2015"); CHost 3 true] (cstr "Windows 2015")).
  - constructor; [repeat constructor | constructor; [simpl; lia | constructor]].
  - repeat constructor.
Defined.

(** The documented promise of [uacpi_install_interface]: once it has
    returned [OK] or [ALREADY_EXISTS], [_OSI] reports the interface as
    supported, and no other interface has changed. *)
Theorem installed_is_supported (n : list Z) (k : Z) (s : osi_state) :
  registry_wf s -> is_cstring n ->
  exists r s', uacpi_install_interface true true n k s = Some (r, s') /\
    (r = UACPI_STATUS_OK \/ r = UACPI_STATUS_ALREADY_EXISTS) /\
    supported (registered_interfaces s') n = true /\
    forall n', n' <> n ->
      supported (registered_interfaces s') n' = supported (registered_interfaces s) n'.
Proof.
  intros Hwf Hn. destruct (install_refines true true n k s Hwf Hn) as (s1 & Hx & Hwf1 & He & _).
  revert Hx. cbn [osi_exec osi_reply]. mstep.
  destruct (uacpi_install_interface true true n k s) as [[r s']|] eqn:Hi; [|done].
  intros [= -> ->]. eexists _, s1. split_and!; [done| | |].
  - destruct (entry n (registered_interfaces s)); auto.
  - unfold supported. rewrite He. cbn [osi_spec andb]. rewrite bool_decide_true by done.
    by destruct (entry n (registered_interfaces s)).
  - intros n' Hne. unfold supported. rewrite He. cbn [osi_spec].
    by rewrite bool_decide_false by done.
Qed.

Lemma installed_is_supported_witness :
  exists r s', uacpi_install_interface true true (cstr "Module Device") 2 osi_boot = Some (r, s') /\
    (r = UACPI_STATUS_OK \/ r = UACPI_STATUS_ALREADY_EXISTS) /\
    supported (registered_interfaces s') (cstr "Module Device") = true /\
    forall n', n' <> cstr "Module Device" ->
      supported (registered_interfaces s') n' = supported (registered_interfaces osi_boot) n'.
Proof.
  apply (installed_is_supported (cstr "Module Device") 2 osi_boot); [apply boot_wf | repeat constructor].
Defined.

(** ** The latest queried vendor interface *)

Definition query_weight (l : list registered_interface) (n : list Z) : Z :=
  match entry n l with Some i => weight i | None => 0 end.

(** [uacpi_latest_queried_vendor_interface] is the latest interface the
    firmware asked for, not the last: after any sequence of queries it is the
    greatest of its old value and of the vendor versions queried, in any
    order and whether or not they are enabled. *)
Theorem latest_is_maximum (ns : list (list Z)) (s : osi_state) :
  registry_wf s -> Forall is_cstring ns -> 0 <= latest_queried_interface s ->
  exists s', osi_run (map CQuery ns) s = Some (tt, s') /\
    uacpi_latest_queried_vendor_interface s'
    = Some (fold_right Z.max (latest_queried_interface s)
              (map (query_weight (registered_interfaces s)) ns), s').
Proof.
  intros Hwf Hns. revert s Hwf. induction Hns as [|n ns Hn Hns IH]; intros s Hwf H0.
  - by exists s.
  - cbn [map osi_run osi_exec]. mstep. rewrite handle_osi_run by done.
    set (s1 := set_latest _ s).
    destruct (IH s1) as (s' & Hr & Hl).
    { apply (wf_same s); [done.. | apply Hwf | done | done]. }
    { subst s1. simpl. destruct (entry n _); lia. }
    exists s'. split; [exact Hr|]. rewrite Hl. do 2 f_equal. subst s1.
    cbn [registered_interfaces latest_queried_interface set_latest fold_right].
    set (ws := map _ ns). unfold query_weight at 1.
    destruct (entry n (registered_interfaces s)) as [i|]; generalize ws; clear ws;
      intros ws; induction ws as [|w ws IHw]; simpl in *; try lia.
Qed.

Lemma latest_is_maximum_witness :
  exists s', osi_run (map CQuery [cstr "Windows 2021"; cstr "Windows 2000"]) osi_boot = Some (tt, s') /\
    uacpi_latest_queried_vendor_interface s' = Some (22, s').
Proof.
  apply (latest_is_maximum [cstr "Windows 2021"; cstr "Windows 2000"] osi_boot);
    [apply boot_wf | repeat constructor | simpl; lia].
Defined.

(** A reset node is the node of the initial array. *)
Lemma reset_identity (l l' : list registered_interface) :
  map identity l = map identity l' -> map reset_interface l = map reset_interface l'.
Proof.
  revert l'. induction l as [|i l IH]; intros [|i' l'] H; try done.
  cbn [map] in *. injection H as Hn Hw Hk Hh Hd Hl. rewrite (IH l') by done. f_equal.
  unfold reset_interface, set_disabled. congruence.
Qed.

Lemma statics_of (l dyn : list registered_interface) :
  Forall (fun i => dynamic i = true /\ host_type i = 0) dyn ->
  map identity l = map identity dyn ++ map identity predefined_interfaces_init ->
  map identity (List.filter (fun i => negb (dynamic i)) l)
  = map identity predefined_interfaces_init.
Proof.
  intros Hd. revert l. induction Hd as [|d dyn [Hdd _] Hd IH]; intros l Hl.
  - change (map identity l = map identity predefined_interfaces_init) in Hl. rewrite <- Hl.
    pose proof (identity_static l _ Hl static_nodes) as Hs. clear Hl.
    induction Hs as [|i l Hi Hs IHs]; [done|]. simpl. rewrite Hi. simpl. by rewrite IHs.
  - destruct l as [|i l]; [done|]. cbn [map app] in Hl.
    injection Hl as Hn Hw Hk Hh Hdy Hl. simpl. rewrite Hdy, Hdd. by apply IH.
Qed.

(** Taking the registry down and setting it up again restores the
    defaults, whatever was installed, enabled or queried before: every node
    installed at run time is gone, vendor strings are enabled, host features
    disabled, and there is no handler and no queried interface. *)
Theorem reinitialize_restores_defaults (s : osi_state) :
  registry_wf s ->
  (mbind (M := M osi_state) (fun _ => uacpi_initialize_interfaces true)
     uacpi_deinitialize_interfaces) s
  = Some (UACPI_STATUS_OK,
      OsiState (init_level s) (Some (InternalMutex false))
        predefined_interfaces_init predefined_interfaces_init None 0).
Proof.
  intros [H1 H2 H3 H4 (dyn & Hd & Hs) H6].
  pose proof (statics_of _ _ Hd Hs) as Hst.
  pose proof (f_equal length Hst) as Hlen. rewrite !length_map in Hlen.
  apply reset_identity in Hst.
  unfold uacpi_deinitialize_interfaces, uacpi_initialize_interfaces. mstep.
  rewrite H2. simpl mbind. cbn [predefined_interfaces init_level].
  rewrite Hst, drop_ge by (rewrite Hlen, H6; done). rewrite app_nil_r. reflexivity.
Qed.

Lemma reinitialize_restores_defaults_witness :
  (mbind (M := M osi_state) (fun _ => uacpi_initialize_interfaces true)
     uacpi_deinitialize_interfaces) osi_boot = Some (UACPI_STATUS_OK, osi_boot).
Proof. exact (reinitialize_restores_defaults osi_boot boot_wf). Defined.
