(* ===== verification/BitIo.v ===== *)
(** * Bit fields of byte buffers: [extra/uacpi/io.c], first part

    [bit_copy] and the buffer-field accessors built on it.  A [bit_span] is a
    byte buffer with the index and the number of the bits it selects; source
    and destination are distinct buffers.  Counts have 64 bits, the scratch
    values 8 or 16: the conversions the C assignments make are written out. *)
From S2P Require Import Prelude Status UStd.

(** [UACPI_ALIGN_UP(x, val, type)] at the width of [type]. *)
Definition UACPI_ALIGN_UP (w x val : Z) : Z :=
  let mask := wrap w (val - 1) in Z.land (wrap w (x + mask)) (Z.lnot mask).

Definition uacpi_round_up_bits_to_bytes (bit_length : Z) : Z :=
  UACPI_ALIGN_UP 64 bit_length 8 / 8.

Definition cut_misaligned_tail (data : list Z) (offset : nat) (bit_length : Z)
    : option (list Z) :=
  let remainder := Z.land bit_length 7 in
  if remainder =? 0 then Some data
  else v ← load data offset;
       store data offset (Z.land v (u8 (Z.shiftl 1 remainder - 1))).

Record bit_span := BitSpan { span_data : list Z; index : Z; span_length : Z }.

(** Advances the span and returns by how much. *)
Definition bit_span_offset (span : bit_span) (bits : Z) : Z * bit_span :=
  let delta := Z.min (span_length span) bits in
  (delta, BitSpan (span_data span) (u64 (index span + delta)) (span_length span - delta)).

(** One turn of the loop, first half: the next (up to) 8 source bits. *)
Definition src_bits (src : list Z) (src_ptr : nat) (src_shift src_count : Z) : option Z :=
  if src_count =? 0 then Some 0 else
  b ← load src src_ptr;
  let bits := u8 (Z.shiftr b src_shift) in
  bits ← (if truthy src_shift && (8 - src_shift <? src_count)
          then b' ← load src (S src_ptr); Some (u8 (Z.lor bits (Z.shiftl b' (8 - src_shift))))
          else Some bits);
  Some (if src_count <? 8 then Z.land bits (Z.shiftl 1 src_count - 1) else bits).

(** Second half: they replace the next (up to) 8 destination bits. *)
Definition dst_bits (dst : list Z) (dst_ptr : nat) (dst_shift dst_count bits : Z)
    : option (list Z) :=
  let dst_mask :=
    u16 (Z.shiftl (if dst_count <? 8 then Z.shiftl 1 dst_count - 1 else 255) dst_shift) in
  b ← load dst dst_ptr;
  dst ← store dst dst_ptr
    (u8 (Z.lor (Z.land b (Z.lnot dst_mask)) (Z.land (Z.shiftl bits dst_shift) dst_mask)));
  if truthy dst_shift && (8 - dst_shift <? dst_count) then
    let dst_mask := Z.shiftr dst_mask 8 in
    b' ← load dst (S dst_ptr);
    let b' := u8 (Z.land b' (Z.lnot dst_mask)) in
    store dst (S dst_ptr) (u8 (Z.lor b' (Z.land (Z.shiftr bits (8 - dst_shift)) dst_mask)))
  else Some dst.

(** [while (dst_count)], which runs once per 8 destination bits. *)
Fixpoint bit_copy_loop (fuel : nat) (dst src : list Z) (dst_ptr src_ptr : nat)
    (dst_shift src_shift dst_count src_count : Z) : option (list Z) :=
  if dst_count =? 0 then Some dst else
  match fuel with
  | O => None
  | S fuel' =>
      bits ← src_bits src src_ptr src_shift src_count;
      let '(src_ptr, src_count) :=
        if src_count <? 8 then (src_ptr, 0) else (S src_ptr, src_count - 8) in
      dst ← dst_bits dst dst_ptr dst_shift dst_count bits;
      bit_copy_loop fuel' dst src (S dst_ptr) src_ptr dst_shift src_shift
        (if 8 <? dst_count then dst_count - 8 else 0) src_count
  end.

(** The destination buffer after [bit_copy(&dst, &src)]. *)
Definition bit_copy (dst src : bit_span) : option (list Z) :=
  bit_copy_loop (Z.to_nat (span_length dst)) (span_data dst) (span_data src)
    (Z.to_nat (index dst / 8)) (Z.to_nat (index src / 8))
    (Z.land (index dst) 7) (Z.land (index src) 7) (span_length dst) (span_length src).

(** [uacpi_buffer_field], with the bytes of its backing buffer. *)
Record uacpi_buffer_field := BufferField {
  backing : list Z;
  bit_index : Z;
  bit_length : Z;
}.

Definition do_misaligned_buffer_read (field : uacpi_buffer_field) (dst : list Z)
    : option (list Z) :=
  bit_copy (BitSpan dst 0 (u64 (uacpi_round_up_bits_to_bytes (bit_length field) * 8)))
           (BitSpan (backing field) (bit_index field) (bit_length field)).

(** The destination after [uacpi_read_buffer_field(field, dst)]. *)
Definition uacpi_read_buffer_field (field : uacpi_buffer_field) (dst : list Z)
    : option (list Z) :=
  if Z.land (bit_index field) 7 =? 0 then
    let count := uacpi_round_up_bits_to_bytes (bit_length field) in
    dst ← memcpy dst 0 (backing field) (Z.to_nat (bit_index field / 8)) count;
    cut_misaligned_tail dst (Z.to_nat (u64 (count - 1))) (bit_length field)
  else do_misaligned_buffer_read field dst.

Definition do_write_misaligned_buffer_field (field : uacpi_buffer_field)
    (src : list Z) (size : Z) : option (list Z) :=
  bit_copy (BitSpan (backing field) (bit_index field) (bit_length field))
           (BitSpan src 0 (u64 (size * 8))).

(** The backing buffer after [uacpi_write_buffer_field(field, src, size)]. *)
Definition uacpi_write_buffer_field (field : uacpi_buffer_field) (src : list Z) (size : Z)
    : option (list Z) :=
  if Z.land (bit_index field) 7 =? 0 then
    let d := Z.to_nat (bit_index field / 8) in
    let count := uacpi_round_up_bits_to_bytes (bit_length field) in
    let last := (d + Z.to_nat (count - 1))%nat in
    last_byte ← load (backing field) last;
    let tail_shift := Z.land (bit_length field) 7 in
    dst ← uacpi_memcpy_zerout (backing field) d src 0 count size;
    if truthy tail_shift then
      let last_shift := 8 - tail_shift in
      v ← load dst last;
      dst ← store dst last (u8 (Z.shiftl v last_shift));
      v ← load dst last;
      dst ← store dst last (Z.shiftr v last_shift);
      v ← load dst last;
      store dst last (u8 (Z.lor v (Z.shiftl (Z.shiftr last_byte tail_shift) tail_shift)))
    else Some dst
  else do_write_misaligned_buffer_field field src size.

(** ** Bits of a buffer *)

(** A buffer seen as the sequence of its bits, the lowest of byte 0 first. *)
Definition buf_bit (b : list Z) (i : Z) : bool :=
  Z.testbit (default 0 (b !! Z.to_nat (i / 8))) (i mod 8).

(** A buffer holds bytes. *)
Definition is_bytes (b : list Z) : Prop := Forall (fun v => 0 <= v < 256) b.

Definition buf_bits (b : list Z) : Z := 8 * Z.of_nat (length b).

(** Bit [k] of a copy of the [m] bits of [src] from [q] on; zeros follow. *)
Definition copied (src : list Z) (q m k : Z) : bool := (k <? m) && buf_bit src (q + k).

Lemma byte_high v i : 0 <= v < 256 -> 8 <= i -> Z.testbit v i = false.
Proof.
  intros H Hi. destruct (decide (v = 0)) as [->|]; [apply Z.bits_0|].
  apply Z.bits_above_log2; [lia|]. apply Z.log2_lt_pow2; [lia|].
  apply Z.lt_le_trans with (2 ^ 8); [lia|]. apply Z.pow_le_mono_r; lia.
Qed.

Lemma shiftl1_ones n : Z.shiftl 1 n - 1 = Z.ones n.
Proof. unfold Z.ones. lia. Qed.

Lemma ones_bit n i : 0 <= n -> 0 <= i -> Z.testbit (Z.ones n) i = (i <? n).
Proof. apply Z.testbit_ones_nonneg. Qed.

Lemma wrap_bytes v : 0 <= u8 v < 256.
Proof. exact (wrap_range 8 v ltac:(lia)). Qed.
#[export] Hint Resolve wrap_bytes : cint.

Lemma is_bytes_insert b k v : is_bytes b -> 0 <= v < 256 -> is_bytes (<[k := v]> b).
Proof. intros Hb Hv. by apply Forall_insert. Qed.

Lemma is_bytes_lookup b k v : is_bytes b -> b !! k = Some v -> 0 <= v < 256.
Proof. intros Hb Hk. exact (Forall_lookup_1 _ b k v Hb Hk). Qed.
#[export] Hint Resolve is_bytes_insert is_bytes_lookup : cint.

Lemma buf_bit_at b (k : nat) j v :
  b !! k = Some v -> 0 <= j < 8 -> buf_bit b (8 * Z.of_nat k + j) = Z.testbit v j.
Proof.
  intros Hk Hj. unfold buf_bit.
  replace ((8 * Z.of_nat k + j) / 8) with (Z.of_nat k) by (Z.div_mod_to_equations; lia).
  replace ((8 * Z.of_nat k + j) mod 8) with j by (Z.div_mod_to_equations; lia).
  by rewrite Nat2Z.id, Hk.
Qed.

Lemma buf_bit_in b (k : nat) v i :
  b !! k = Some v -> i / 8 = Z.of_nat k -> buf_bit b i = Z.testbit v (i mod 8).
Proof. intros Hk E. unfold buf_bit. by rewrite E, Nat2Z.id, Hk. Qed.

Lemma buf_bit_insert b (k : nat) v i :
  (k < length b)%nat -> 0 <= i ->
  buf_bit (<[k := v]> b) i
  = if i / 8 =? Z.of_nat k then Z.testbit v (i mod 8) else buf_bit b i.
Proof.
  intros Hk Hi. unfold buf_bit. destruct (Z.eqb_spec (i / 8) (Z.of_nat k)) as [E|E].
  - rewrite E, Nat2Z.id. by rewrite list_lookup_insert_eq by done.
  - rewrite list_lookup_insert_ne; [done|]. intros ->.
    apply E. rewrite Z2Nat.id; [done|]. apply Z.div_pos; lia.
Qed.

Lemma load_ok b i : (i < length b)%nat -> exists v, load b i = Some v /\ b !! i = Some v.
Proof. intros H. destruct (lookup_lt_is_Some_2 b i H) as [v Hv]. by exists v. Qed.

(** Push [Z.testbit] to the leaves of the integer expressions of the goal. *)
Ltac testbits :=
  repeat first
    [ rewrite wrap_testbit by lia | rewrite Z.lor_spec | rewrite Z.land_spec
    | rewrite Z.lnot_spec by lia | rewrite Z.shiftl_spec by lia
    | rewrite Z.shiftr_spec by lia | rewrite shiftl1_ones
    | rewrite ones_bit by lia ].

(** Decide every comparison of the goal. *)
Ltac cmp_cases :=
  repeat match goal with
  | |- context [?x <? ?y] => destruct (Z.ltb_spec x y); try lia
  | |- context [?x <=? ?y] => destruct (Z.leb_spec x y); try lia
  | |- context [?x =? ?y] => destruct (Z.eqb_spec x y); try lia
  end.

(** ** One turn of [bit_copy] *)

Lemma src_bits_spec src (p : nat) sh n :
  is_bytes src -> 0 <= sh < 8 -> 0 <= n ->
  8 * Z.of_nat p + sh + n <= buf_bits src ->
  exists bits, src_bits src p sh n = Some bits /\ 0 <= bits < 256 /\
    forall j, 0 <= j < 8 -> Z.testbit bits j = copied src (8 * Z.of_nat p + sh) n j.
Proof.
  intros Hb Hs Hn Hlen. unfold src_bits, buf_bits, copied in *.
  destruct (Z.eqb_spec n 0) as [->|Hn0].
  { exists 0. split; [done|]. split; [lia|]. intros j Hj. rewrite Z.bits_0.
    by rewrite (proj2 (Z.ltb_ge j 0)) by lia. }
  destruct (load_ok src p) as (v & -> & Hv); [lia|]. cbn [mbind option_bind].
  assert (Hv' := is_bytes_lookup _ _ _ Hb Hv).
  assert (Hcut : forall raw, 0 <= raw < 256 ->
    (forall j, 0 <= j < 8 -> j < n -> Z.testbit raw j = buf_bit src (8 * Z.of_nat p + sh + j)) ->
    exists bits, Some (if n <? 8 then Z.land raw (Z.shiftl 1 n - 1) else raw) = Some bits /\
      0 <= bits < 256 /\
      forall j, 0 <= j < 8 ->
        Z.testbit bits j = (j <? n) && buf_bit src (8 * Z.of_nat p + sh + j)).
  { intros raw Hr Hbits. destruct (Z.ltb_spec n 8).
    - eexists. split; [done|]. rewrite shiftl1_ones, Z.land_ones by lia. split.
      + pose proof (Z.mod_pos_bound raw (2 ^ n) (pow2_pos n Hn)).
        assert (raw mod 2 ^ n <= raw) by (apply Z.mod_le; [lia|apply pow2_pos; lia]). lia.
      + intros j Hj. rewrite <- Z.land_ones by lia. testbits.
        destruct (Z.ltb_spec j n); [by rewrite Hbits, andb_true_r by lia|by rewrite andb_false_r].
    - exists raw. split; [done|]. split; [done|]. intros j Hj.
      rewrite (proj2 (Z.ltb_lt j n)) by lia. rewrite Hbits by lia. done. }
  assert (Hlow : forall j, 0 <= j -> sh + j < 8 ->
    buf_bit src (8 * Z.of_nat p + sh + j) = Z.testbit v (sh + j)).
  { intros j Hj Hsj. rewrite <- Z.add_assoc. by rewrite (buf_bit_at _ _ _ v) by (done || lia). }
  unfold truthy. destruct (Z.eqb_spec sh 0) as [->|Hsh]; simpl negb; cbn [andb].
  - apply Hcut; [auto with cint|]. intros j Hj Hjn. testbits.
    rewrite Hlow by lia. cmp_cases. cbn [andb]. f_equal; lia.
  - destruct (Z.ltb_spec (8 - sh) n).
    + destruct (load_ok src (S p)) as (v' & -> & Hvn); [lia|].
      cbn [mbind option_bind]. assert (Hv'' := is_bytes_lookup _ _ _ Hb Hvn).
      apply Hcut; [auto with cint|]. intros j Hj Hjn. testbits.
      destruct (Z.ltb_spec j 8); [|lia]. cbn [andb].
      destruct (Z.ltb_spec (sh + j) 8).
      * rewrite Hlow by lia. rewrite (Z.testbit_neg_r v') by lia.
        rewrite orb_false_r. f_equal; lia.
      * rewrite (byte_high v) by lia. cbn [orb].
        replace (8 * Z.of_nat p + sh + j) with (8 * Z.of_nat (S p) + (sh + j - 8)) by lia.
        rewrite (buf_bit_at _ _ _ v') by (done || lia). f_equal; lia.
    + cbn [mbind option_bind]. apply Hcut; [auto with cint|]. intros j Hj Hjn. testbits.
      rewrite Hlow by lia. cmp_cases. cbn [andb]. f_equal; lia.
Qed.

(** The mask of the destination bits: [n] bits from [sh] on, at most 8. *)
Lemma dst_mask_bit n sh j :
  0 <= sh < 8 -> 0 <= n -> 0 <= j < 16 ->
  Z.testbit (u16 (Z.shiftl (if n <? 8 then Z.shiftl 1 n - 1 else 255) sh)) j
  = (sh <=? j) && (j <? sh + Z.min n 8).
Proof.
  intros Hs Hn Hj. change 255 with (Z.ones 8).
  replace (if n <? 8 then Z.shiftl 1 n - 1 else Z.ones 8) with (Z.ones (Z.min n 8))
    by (rewrite shiftl1_ones; destruct (Z.ltb_spec n 8); f_equal; lia).
  rewrite wrap_testbit by lia. rewrite Z.shiftl_spec by lia.
  destruct (Z.leb_spec sh j).
  - rewrite ones_bit by lia. by cmp_cases.
  - rewrite Z.testbit_neg_r by lia. by rewrite andb_false_r.
Qed.

Lemma dst_bits_spec dst (p : nat) sh n bits :
  is_bytes dst -> 0 <= sh < 8 -> 0 < n -> 0 <= bits < 256 ->
  8 * Z.of_nat p + sh + n <= buf_bits dst ->
  exists dst', dst_bits dst p sh n bits = Some dst' /\
    is_bytes dst' /\ length dst' = length dst /\
    forall i, 0 <= i -> let k := i - (8 * Z.of_nat p + sh) in
      buf_bit dst' i
      = if (0 <=? k) && (k <? Z.min n 8) then Z.testbit bits k else buf_bit dst i.
Proof.
  intros Hb Hs Hn Hbits Hlen. unfold dst_bits, buf_bits in *. cbv zeta.
  set (mask := u16 _).
  assert (Hm : forall j, 0 <= j < 16 ->
    Z.testbit mask j = (sh <=? j) && (j <? sh + Z.min n 8))
    by (intros; apply dst_mask_bit; lia).
  clearbody mask.
  destruct (load_ok dst p) as (v & Hl & Hv); [lia|]. rewrite Hl. cbn [mbind option_bind].
  rewrite store_ok by lia. cbn [mbind option_bind].
  set (b0 := u8 _). set (d1 := <[p := b0]> dst).
  assert (Hb1 : is_bytes d1) by (unfold d1, b0; auto with cint).
  assert (Hl1 : length d1 = length dst) by apply length_insert.
  (* the first byte *)
  assert (H1 : forall i, 0 <= i -> i / 8 <> Z.of_nat p + 1 \/ sh + Z.min n 8 <= 8 ->
    let k := i - (8 * Z.of_nat p + sh) in
    buf_bit d1 i = if (0 <=? k) && (k <? Z.min n 8) then Z.testbit bits k else buf_bit dst i).
  { intros i Hi Hne k. unfold d1. rewrite buf_bit_insert by lia.
    assert (0 <= i mod 8 < 8) by (apply Z.mod_pos_bound; lia).
    destruct (Z.eqb_spec (i / 8) (Z.of_nat p)) as [E|E].
    - replace k with (i mod 8 - sh) by (unfold k; Z.div_mod_to_equations; lia).
      rewrite (buf_bit_in _ _ v i Hv E).
      unfold b0. testbits. rewrite Hm by lia.
      destruct (Z.leb_spec sh (i mod 8)), (Z.ltb_spec (i mod 8) (sh + Z.min n 8));
        cmp_cases; cbn [andb negb];
        rewrite ?andb_false_r, ?andb_true_r, ?orb_false_l, ?orb_false_r; done.
    - assert (k < 0 \/ Z.min n 8 <= k) by (unfold k; Z.div_mod_to_equations; lia).
      destruct (Z.leb_spec 0 k), (Z.ltb_spec k (Z.min n 8)); done || lia. }
  unfold truthy. destruct (Z.eqb_spec sh 0) as [->|Hsh]; cbn [negb andb].
  { exists d1. repeat split; try done. intros i Hi. apply H1; lia. }
  destruct (Z.ltb_spec (8 - sh) n) as [Hsn|Hsn]; cbn [mbind option_bind].
  - destruct (load_ok d1 (S p)) as (v' & Hlv & Hv'); [lia|].
    rewrite Hlv. cbn [mbind option_bind]. rewrite store_ok by lia.
    eexists. split; [done|]. split; [auto with cint|].
    split; [by rewrite length_insert|]. intros i Hi. cbv zeta.
    rewrite buf_bit_insert by lia.
    assert (0 <= i mod 8 < 8) by (apply Z.mod_pos_bound; lia).
    destruct (Z.eqb_spec (i / 8) (Z.of_nat (S p))) as [E|E]; [|apply H1; lia].
    assert (Hdst : buf_bit dst i = Z.testbit v' (i mod 8)).
    { apply (buf_bit_in _ (S p)); [|done]. unfold d1 in Hv'.
      by rewrite list_lookup_insert_ne in Hv' by lia. }
    replace (i - (8 * Z.of_nat p + sh)) with (i mod 8 + (8 - sh))
      by (Z.div_mod_to_equations; lia).
    testbits. rewrite Hm by lia. rewrite Hdst.
    destruct (Z.leb_spec sh (i mod 8 + 8)); [|lia].
    destruct (Z.leb_spec 0 (i mod 8 + (8 - sh))); [|lia].
    destruct (Z.ltb_spec (i mod 8 + 8) (sh + Z.min n 8)),
      (Z.ltb_spec (i mod 8 + (8 - sh)) (Z.min n 8)); try lia; cmp_cases; cbn [andb negb];
      by rewrite ?andb_false_r, ?andb_true_r, ?orb_false_l, ?orb_false_r.
  - exists d1. repeat split; try done. intros i Hi. apply H1; lia.
Qed.

(** Advancing the source: what is left of it. *)
Lemma src_advance src (sp : nat) sh n :
  0 <= n -> 8 * Z.of_nat sp + sh + n <= buf_bits src ->
  exists sp' n', (if n <? 8 then (sp, 0) else (S sp, n - 8)) = (sp', n') /\ 0 <= n' /\
    8 * Z.of_nat sp' + sh + n' <= buf_bits src /\
    forall k, 8 <= k -> copied src (8 * Z.of_nat sp' + sh) n' (k - 8)
                        = copied src (8 * Z.of_nat sp + sh) n k.
Proof.
  intros Hn Hl. unfold copied. destruct (Z.ltb_spec n 8).
  - exists sp, 0. repeat split; lia.
  - exists (S sp), (n - 8). repeat split; try lia. intros k Hk.
    replace (8 * Z.of_nat (S sp) + sh + (k - 8)) with (8 * Z.of_nat sp + sh + k) by lia.
    by cmp_cases.
Qed.

Lemma bit_copy_loop_spec fuel dst src (dp sp : nat) dsh ssh dn sn :
  is_bytes dst -> is_bytes src -> 0 <= dsh < 8 -> 0 <= ssh < 8 -> 0 <= dn -> 0 <= sn ->
  dn <= 8 * Z.of_nat fuel ->
  8 * Z.of_nat dp + dsh + dn <= buf_bits dst -> 8 * Z.of_nat sp + ssh + sn <= buf_bits src ->
  exists dst', bit_copy_loop fuel dst src dp sp dsh ssh dn sn = Some dst' /\
    is_bytes dst' /\ length dst' = length dst /\
    forall i, 0 <= i -> let k := i - (8 * Z.of_nat dp + dsh) in
      buf_bit dst' i = if (0 <=? k) && (k <? dn)
                       then copied src (8 * Z.of_nat sp + ssh) sn k else buf_bit dst i.
Proof.
  revert dst dp sp dn sn. induction fuel as [|fuel IH];
    intros dst dp sp dn sn Hd Hs Hdsh Hssh Hdn Hsn Hf Hdl Hsl; cbn [bit_copy_loop].
  all: destruct (Z.eqb_spec dn 0) as [->|Hn0].
  1,3: exists dst; repeat split; try done; intros i Hi; cbv zeta; by cmp_cases.
  1: lia.
  destruct (src_bits_spec src sp ssh sn) as (bits & -> & Hbits & Hbit); try done.
  cbn [mbind option_bind].
  destruct (dst_bits_spec dst dp dsh dn bits) as (d1 & Hd1 & Hb1 & Hl1 & H1); try done; [lia|].
  destruct (src_advance src sp ssh sn) as (sp' & sn' & Hnext & Hsn' & Hsl' & Hcopy); try done.
  rewrite Hnext, Hd1. cbn [mbind option_bind].
  set (dn' := if 8 <? dn then dn - 8 else 0).
  assert (Hdn' : dn' = Z.max 0 (dn - 8)) by (unfold dn'; cmp_cases).
  destruct (decide (dn' = 0)) as [E|E].
  - (* the last turn *)
    exists d1. rewrite E. split; [by destruct fuel|]. split; [done|]. split; [done|].
    intros i Hi. cbv zeta. specialize (H1 i Hi). cbv zeta in H1. rewrite H1.
    set (k := i - _). destruct (Z.leb_spec 0 k); [|done]. cbn [andb].
    replace (Z.min dn 8) with dn by lia.
    destruct (Z.ltb_spec k dn); [|done]. apply Hbit; lia.
  - destruct (IH d1 (S dp) sp' dn' sn') as (d' & Hrun & Hb' & Hl' & H'); try done; try lia.
    { unfold buf_bits in *. rewrite Hl1. lia. }
    exists d'. split; [exact Hrun|]. split; [done|]. split; [congruence|].
    intros i Hi. cbv zeta. specialize (H' i Hi). specialize (H1 i Hi). cbv zeta in H', H1.
    replace (i - (8 * Z.of_nat (S dp) + dsh)) with (i - (8 * Z.of_nat dp + dsh) - 8) in H' by lia.
    rewrite H', H1. set (k := i - _).
    destruct (Z.ltb_spec k 8).
    + rewrite (proj2 (Z.leb_gt 0 (k - 8))) by lia. cbn [andb].
      replace (k <? Z.min dn 8) with (k <? dn) by cmp_cases.
      destruct (Z.leb_spec 0 k), (Z.ltb_spec k dn); try done. apply Hbit; lia.
    + rewrite (proj2 (Z.ltb_ge k (Z.min dn 8))), andb_false_r by lia.
      rewrite Hcopy by lia.
      replace ((0 <=? k - 8) && (k - 8 <? dn')) with ((0 <=? k) && (k <? dn)); [done|].
      by cmp_cases.
Qed.

(** [bit_copy] replaces the bits of the destination span by those of the
    source span, zero-extended or cut, and no other bit; both spans lie in
    their buffers, so no access is out of bounds. *)
Lemma bit_copy_spec dst src :
  is_bytes (span_data dst) -> is_bytes (span_data src) ->
  0 <= index dst -> 0 <= index src -> 0 <= span_length dst -> 0 <= span_length src ->
  index dst + span_length dst <= buf_bits (span_data dst) ->
  index src + span_length src <= buf_bits (span_data src) ->
  exists d', bit_copy dst src = Some d' /\ is_bytes d' /\
    length d' = length (span_data dst) /\
    forall i, 0 <= i ->
      buf_bit d' i = if (index dst <=? i) && (i <? index dst + span_length dst)
                     then copied (span_data src) (index src) (span_length src) (i - index dst)
                     else buf_bit (span_data dst) i.
Proof.
  destruct dst as [d di dl], src as [s si sl]; cbn [span_data index span_length].
  intros Hd Hs Hdi Hsi Hdl Hsl Hdf Hsf. unfold bit_copy. cbn [span_data index span_length].
  change 7 with (Z.ones 3). rewrite !Z.land_ones by lia. change (2 ^ 3) with 8.
  assert (Ed : 8 * Z.of_nat (Z.to_nat (di / 8)) + di mod 8 = di)
    by (Z.div_mod_to_equations; lia).
  assert (Es : 8 * Z.of_nat (Z.to_nat (si / 8)) + si mod 8 = si)
    by (Z.div_mod_to_equations; lia).
  destruct (bit_copy_loop_spec (Z.to_nat dl) d s (Z.to_nat (di / 8)) (Z.to_nat (si / 8))
    (di mod 8) (si mod 8) dl sl) as (d' & Hrun & Hb & Hl & H);
    try done; try (apply Z.mod_pos_bound; lia); try lia.
  exists d'. repeat split; try done. intros i Hi. rewrite H by done. cbv zeta.
  rewrite Ed, Es. by cmp_cases.
Qed.

Lemma round_up_bits n :
  0 <= n < 2 ^ 63 -> uacpi_round_up_bits_to_bytes n = (n + 7) / 8.
Proof.
  intros H. unfold uacpi_round_up_bits_to_bytes, UACPI_ALIGN_UP.
  change (u64 (8 - 1)) with (Z.ones 3). rewrite <- Z.ldiff_land.
  rewrite Z.ldiff_ones_r, Z.shiftl_mul_pow2, Z.shiftr_div_pow2 by lia.
  rewrite u64_small by (change (Z.ones 3) with 7; lia).
  change (2 ^ 3) with 8. rewrite Z.div_mul by lia. done.
Qed.

Lemma land7 n : Z.land n 7 = n mod 8.
Proof. exact (Z.land_ones n 3 ltac:(lia)). Qed.

(** A field lies in its buffer. *)
Record field_ok (f : uacpi_buffer_field) : Prop := {
  field_bytes : is_bytes (backing f);
  field_index : 0 <= bit_index f;
  field_length : 0 < bit_length f < 2 ^ 63;
  field_fits : bit_index f + bit_length f <= buf_bits (backing f);
}.

Lemma lookup_memcpy dst d src s n :
  0 <= n -> (d + Z.to_nat n <= length dst)%nat -> (s + Z.to_nat n <= length src)%nat ->
  exists dst', memcpy dst d src s n = Some dst' /\ length dst' = length dst /\
    forall k, dst' !! k = if bool_decide (d <= k < d + Z.to_nat n)%nat
                          then src !! (s + (k - d))%nat else dst !! k.
Proof.
  intros Hn Hd Hs. unfold memcpy. rewrite memcpy_loop_spec by done.
  assert (Hl : length (take (Z.to_nat n) (drop s src)) = Z.to_nat n)
    by (rewrite length_take, length_drop; lia).
  eexists. split; [done|]. split; [apply length_write_at; lia|]. intros k.
  rewrite lookup_write_at, Hl by lia. case_bool_decide; [|done].
  rewrite lookup_take_lt by lia. apply lookup_drop.
Qed.

(** Cutting the last byte of a copy of [n] bits to the bits it holds. *)
Lemma cut_tail_spec d n :
  is_bytes d -> 0 < n < 2 ^ 63 -> (n + 7) / 8 <= Z.of_nat (length d) ->
  exists d', cut_misaligned_tail d (Z.to_nat (u64 ((n + 7) / 8 - 1))) n = Some d' /\
    is_bytes d' /\ length d' = length d /\
    forall i, 0 <= i -> buf_bit d' i =
      if (n <=? i) && (i <? 8 * ((n + 7) / 8)) then false else buf_bit d i.
Proof.
  intros Hb Hn Hl. rewrite u64_small by (Z.div_mod_to_equations; lia).
  unfold cut_misaligned_tail. rewrite land7. destruct (Z.eqb_spec (n mod 8) 0) as [E|E].
  { exists d. repeat split; try done. intros i Hi.
    destruct (Z.leb_spec n i), (Z.ltb_spec i (8 * ((n + 7) / 8))); try done.
    Z.div_mod_to_equations; lia. }
  set (last := Z.to_nat ((n + 7) / 8 - 1)).
  assert (Hlast : Z.of_nat last = n / 8) by (unfold last; Z.div_mod_to_equations; lia).
  assert ((last < length d)%nat) by (Z.div_mod_to_equations; lia).
  destruct (load_ok d last) as (v & -> & Hv); [done|]. cbn [mbind option_bind].
  rewrite store_ok by done.
  assert (0 <= n mod 8 < 8) by (apply Z.mod_pos_bound; lia).
  assert (Hones : u8 (Z.shiftl 1 (n mod 8) - 1) = Z.ones (n mod 8)).
  { rewrite shiftl1_ones. apply u8_small. rewrite Z.ones_equiv.
    pose proof (pow2_pos (n mod 8) ltac:(lia)).
    assert (2 ^ (n mod 8) <= 2 ^ 8) by (apply Z.pow_le_mono_r; lia). lia. }
  rewrite Hones.
  assert (Hv' := is_bytes_lookup _ _ _ Hb Hv).
  eexists. split; [done|]. split; [|split; [apply length_insert|]].
  { apply is_bytes_insert; [done|]. rewrite Z.land_ones by lia.
    pose proof (Z.mod_pos_bound v (2 ^ (n mod 8)) (pow2_pos (n mod 8) ltac:(lia))).
    assert (v mod 2 ^ (n mod 8) <= v) by (apply Z.mod_le; [lia|apply pow2_pos; lia]). lia. }
  intros i Hi. rewrite buf_bit_insert by done. rewrite Hlast.
  assert (0 <= i mod 8 < 8) by (apply Z.mod_pos_bound; lia).
  destruct (Z.eqb_spec (i / 8) (n / 8)) as [Ei|Ei].
  - testbits. rewrite <- (buf_bit_in d last v i) by (done || lia).
    destruct (Z.ltb_spec (i mod 8) (n mod 8)), (Z.leb_spec n i),
      (Z.ltb_spec i (8 * ((n + 7) / 8))); cbn [andb];
      rewrite ?andb_true_r, ?andb_false_r; try done; Z.div_mod_to_equations; lia.
  - destruct (Z.leb_spec n i), (Z.ltb_spec i (8 * ((n + 7) / 8))); try done.
    Z.div_mod_to_equations; lia.
Qed.

Lemma read_field_bits f dst :
  field_ok f -> is_bytes dst -> (bit_length f + 7) / 8 <= Z.of_nat (length dst) ->
  exists d', uacpi_read_buffer_field f dst = Some d' /\ is_bytes d' /\
    length d' = length dst /\
    forall i, 0 <= i -> buf_bit d' i =
      if i <? 8 * ((bit_length f + 7) / 8)
      then copied (backing f) (bit_index f) (bit_length f) i else buf_bit dst i.
Proof.
  intros [Hb Hi Hn Hf] Hd Hl. unfold uacpi_read_buffer_field.
  set (n := bit_length f) in *. set (p := bit_index f) in *.
  rewrite land7. destruct (Z.eqb_spec (p mod 8) 0) as [E|E].
  - rewrite round_up_bits by (fold n; lia). fold n p. cbv zeta. unfold buf_bits in Hf.
    destruct (lookup_memcpy dst 0 (backing f) (Z.to_nat (p / 8)) ((n + 7) / 8))
      as (d1 & -> & Hl1 & H1); try (Z.div_mod_to_equations; lia).
    cbn [mbind option_bind].
    assert (Hb1 : is_bytes d1).
    { apply Forall_lookup. intros k v Hk. rewrite H1 in Hk.
      case_bool_decide; [apply (is_bytes_lookup _ _ _ Hb Hk)|apply (is_bytes_lookup _ _ _ Hd Hk)]. }
    destruct (cut_tail_spec d1 n Hb1 Hn) as (d' & Hcut & Hb' & Hl' & H'); [lia|].
    exists d'. split; [exact Hcut|]. split; [done|]. split; [congruence|].
    intros i Hi'. rewrite H' by done. unfold copied, buf_bit. rewrite H1.
    assert (0 <= i / 8) by (apply Z.div_pos; lia).
    replace ((p + i) mod 8) with (i mod 8) by (Z.div_mod_to_equations; lia).
    replace (Z.to_nat ((p + i) / 8)) with (Z.to_nat (p / 8) + (Z.to_nat (i / 8) - 0))%nat
      by (Z.div_mod_to_equations; lia).
    case_bool_decide;
      destruct (Z.leb_spec n i), (Z.ltb_spec i (8 * ((n + 7) / 8))), (Z.ltb_spec i n);
      try done; try lia; Z.div_mod_to_equations; lia.
  - unfold do_misaligned_buffer_read. fold n p. rewrite round_up_bits by lia.
    rewrite u64_small by (Z.div_mod_to_equations; lia).
    destruct (bit_copy_spec (BitSpan dst 0 ((n + 7) / 8 * 8)) (BitSpan (backing f) p n))
      as (d' & Hrun & Hb' & Hl' & H'); cbn [span_data index span_length] in *;
      try done; try (unfold buf_bits; Z.div_mod_to_equations; lia).
    exists d'. repeat split; try done. intros i Hi'. rewrite H' by done.
    rewrite Z.sub_0_r. rewrite (proj2 (Z.leb_le 0 i)) by done. cbn [andb].
    by replace (0 + (n + 7) / 8 * 8) with (8 * ((n + 7) / 8)) by lia.
Qed.

(** Replacing the low [t] bits of the last byte and keeping its high bits. *)
Lemma merge_tail_bit v old t j :
  0 <= v < 256 -> 0 <= old < 256 -> 0 < t < 8 -> 0 <= j < 8 ->
  Z.testbit (u8 (Z.lor (Z.shiftr (u8 (Z.shiftl v (8 - t))) (8 - t))
                       (Z.shiftl (Z.shiftr old t) t))) j
  = if j <? t then Z.testbit v j else Z.testbit old j.
Proof.
  intros Hv Ho Ht Hj. testbits. rewrite (proj2 (Z.ltb_lt j 8)) by lia. cbn [andb].
  destruct (Z.ltb_spec j t).
  - rewrite (proj2 (Z.ltb_lt _ 8)) by lia. rewrite (Z.testbit_neg_r _ (j - t)) by lia.
    rewrite orb_false_r. cbn [andb]. f_equal. lia.
  - rewrite (proj2 (Z.ltb_ge _ 8)) by lia. cbn [andb orb].
    rewrite Z.shiftr_spec by lia. f_equal. lia.
Qed.

(** The bytes of the field after [uacpi_memcpy_zerout]: the source's bits. *)
Lemma zerout_bits b d src size n :
  is_bytes b -> is_bytes src -> 0 <= n -> 0 <= size <= Z.of_nat (length src) ->
  (d + Z.to_nat n <= length b)%nat ->
  exists b', uacpi_memcpy_zerout b d src 0 n size = Some b' /\ is_bytes b' /\
    length b' = length b /\
    forall i, 0 <= i -> let k := i - 8 * Z.of_nat d in
      buf_bit b' i = if (0 <=? k) && (k <? 8 * n)
                     then copied src 0 (8 * size) k else buf_bit b i.
Proof.
  intros Hb Hs Hn Hsz Hd. rewrite memcpy_zerout_write by lia.
  set (t := _ ++ _).
  assert (Ht : length t = Z.to_nat n)
    by (unfold t; rewrite length_app, length_take, length_drop, length_replicate; lia).
  assert (Hlk : forall k, (k < Z.to_nat n)%nat ->
    t !! k = if (Z.of_nat k <? size) then src !! k else Some 0).
  { intros k Hk. unfold t. destruct (Z.ltb_spec (Z.of_nat k) size).
    - rewrite lookup_app_l by (rewrite length_take, length_drop; lia).
      rewrite lookup_take_lt by lia. apply lookup_drop.
    - rewrite lookup_app_r by (rewrite length_take, length_drop; lia).
      apply lookup_replicate_2. rewrite length_take, length_drop. lia. }
  clearbody t. eexists. split; [done|]. split; [|split; [apply length_write_at; lia|]].
  - apply Forall_lookup. intros k v. rewrite lookup_write_at by lia. case_bool_decide; intros Hv.
    + rewrite Hlk in Hv by lia.
      destruct (_ <? _); [apply (is_bytes_lookup _ _ _ Hs Hv) | injection Hv as <-; lia].
    + apply (is_bytes_lookup _ _ _ Hb Hv).
  - intros i Hi. cbv zeta. unfold copied, buf_bit.
    rewrite lookup_write_at by lia. rewrite Ht.
    assert (0 <= i / 8) by (apply Z.div_pos; lia).
    destruct (Z.leb_spec 0 (i - 8 * Z.of_nat d)), (Z.ltb_spec (i - 8 * Z.of_nat d) (8 * n));
      cbn [andb]; [|rewrite bool_decide_false by (Z.div_mod_to_equations; lia); done..].
    rewrite bool_decide_true by (Z.div_mod_to_equations; lia).
    rewrite Hlk by (Z.div_mod_to_equations; lia).
    replace (Z.to_nat ((0 + (i - 8 * Z.of_nat d)) / 8)) with (Z.to_nat (i / 8) - d)%nat
      by (Z.div_mod_to_equations; lia).
    replace ((0 + (i - 8 * Z.of_nat d)) mod 8) with (i mod 8) by (Z.div_mod_to_equations; lia).
    destruct (Z.ltb_spec (Z.of_nat (Z.to_nat (i / 8) - d)) size),
      (Z.ltb_spec (i - 8 * Z.of_nat d) (8 * size)); try done;
      try (Z.div_mod_to_equations; lia).
    cbn [default]. apply Z.bits_0.
Qed.

Lemma write_field_bits f src size :
  field_ok f -> is_bytes src -> 0 <= size <= Z.of_nat (length src) -> size < 2 ^ 60 ->
  exists b', uacpi_write_buffer_field f src size = Some b' /\ is_bytes b' /\
    length b' = length (backing f) /\
    forall i, 0 <= i -> buf_bit b' i =
      if (bit_index f <=? i) && (i <? bit_index f + bit_length f)
      then copied src 0 (8 * size) (i - bit_index f) else buf_bit (backing f) i.
Proof.
  intros [Hb Hi Hn Hf] Hs Hsz Hbig. unfold uacpi_write_buffer_field.
  set (n := bit_length f) in *. set (p := bit_index f) in *.
  rewrite land7. destruct (Z.eqb_spec (p mod 8) 0) as [E|E].
  - rewrite round_up_bits by (fold n; lia). fold n p. cbv zeta.
    unfold buf_bits in Hf. set (d := Z.to_nat (p / 8)). set (count := (n + 7) / 8).
    set (last := (d + Z.to_nat (count - 1))%nat).
    assert (Ed : 8 * Z.of_nat d = p) by (unfold d; Z.div_mod_to_equations; lia).
    assert (0 < count /\ n <= 8 * count < n + 8) by (unfold count; Z.div_mod_to_equations; lia).
    assert ((last < length (backing f))%nat) by (unfold last; Z.div_mod_to_equations; lia).
    destruct (load_ok (backing f) last) as (old & -> & Hold); [done|]. cbn [mbind option_bind].
    destruct (zerout_bits (backing f) d src size count) as (b1 & -> & Hb1 & Hl1 & H1);
      try done; try lia. cbn [mbind option_bind].
    rewrite land7. unfold truthy. destruct (Z.eqb_spec (n mod 8) 0) as [En|En]; cbn [negb].
    { exists b1. repeat split; try done. intros i Hi'. rewrite H1 by done. cbv zeta.
      rewrite Ed. replace (8 * count) with n by (unfold count; Z.div_mod_to_equations; lia).
      by cmp_cases. }
    destruct (load_ok b1 last) as (v & -> & Hv); [lia|]. cbn [mbind option_bind].
    set (t := n mod 8) in *. assert (0 < t < 8) by (unfold t; Z.div_mod_to_equations; lia).
    rewrite store_ok by lia. cbn [mbind option_bind]. unfold load.
    rewrite list_lookup_insert_eq by lia. cbn [mbind option_bind].
    rewrite store_ok by (rewrite length_insert; lia). cbn [mbind option_bind].
    rewrite list_lookup_insert_eq by (rewrite length_insert; lia). cbn [mbind option_bind].
    rewrite store_ok by (rewrite !length_insert; lia). rewrite !list_insert_insert_eq.
    eexists. split; [done|]. split; [auto with cint|].
    split; [by rewrite length_insert|]. intros i Hi'.
    rewrite buf_bit_insert by lia.
    assert (Hlast : Z.of_nat last = (p + n) / 8) by (unfold last, count, t in *; Z.div_mod_to_equations; lia).
    assert (0 <= i mod 8 < 8) by (apply Z.mod_pos_bound; lia).
    specialize (H1 i Hi'). cbv zeta in H1. rewrite Ed in H1.
    destruct (Z.eqb_spec (i / 8) (Z.of_nat last)) as [Ei|Ei].
    + rewrite merge_tail_bit; [|by eauto with cint..|done|done].
      rewrite <- (buf_bit_in b1 last v i), <- (buf_bit_in (backing f) last old i), H1 by done.
      destruct (Z.ltb_spec (i mod 8) t), (Z.leb_spec p i), (Z.ltb_spec i (p + n)),
        (Z.leb_spec 0 (i - p)), (Z.ltb_spec (i - p) (8 * count)); try done;
        unfold t in *; Z.div_mod_to_equations; lia.
    + rewrite H1.
      destruct (Z.leb_spec p i), (Z.ltb_spec i (p + n)),
        (Z.leb_spec 0 (i - p)), (Z.ltb_spec (i - p) (8 * count)); try done;
        unfold count in *; Z.div_mod_to_equations; lia.
  - unfold do_write_misaligned_buffer_field. fold n p.
    rewrite u64_small by lia. unfold buf_bits in *.
    destruct (bit_copy_spec (BitSpan (backing f) p n) (BitSpan src 0 (size * 8)))
      as (d' & Hrun & Hb' & Hl' & H'); cbn [span_data index span_length] in *;
      try done; try (unfold buf_bits; lia).
    exists d'. repeat split; try done. intros i Hi'. rewrite H' by done.
    by replace (size * 8) with (8 * size) by lia.
Qed.

(** ** Buffers as little-endian integers *)

Fixpoint le (b : list Z) : Z :=
  match b with [] => 0 | v :: b' => v + 256 * le b' end.

Lemma buf_bit_cons v b i :
  0 <= i -> buf_bit (v :: b) i = if i <? 8 then Z.testbit v i else buf_bit b (i - 8).
Proof.
  intros Hi. unfold buf_bit. destruct (Z.ltb_spec i 8).
  - rewrite Z.div_small, Z.mod_small by lia. done.
  - replace (Z.to_nat (i / 8)) with (S (Z.to_nat ((i - 8) / 8)))
      by (Z.div_mod_to_equations; lia).
    replace ((i - 8) mod 8) with (i mod 8) by (Z.div_mod_to_equations; lia). done.
Qed.

Lemma le_nonneg b : is_bytes b -> 0 <= le b.
Proof. induction 1; simpl; lia. Qed.

(** The buffer's bits are the integer's. *)
Lemma le_bit b i : is_bytes b -> 0 <= i -> Z.testbit (le b) i = buf_bit b i.
Proof.
  intros Hb. revert i. induction Hb as [|v b Hv Hb IH]; intros i Hi.
  - cbn [le]. rewrite Z.bits_0. unfold buf_bit. rewrite lookup_nil. cbn [default].
    by rewrite Z.bits_0.
  - rewrite buf_bit_cons by done. cbn [le].
    replace (v + 256 * le b) with (Z.lor v (Z.shiftl (le b) 8)).
    + rewrite Z.lor_spec, Z.shiftl_spec by lia. destruct (Z.ltb_spec i 8).
      * rewrite (Z.testbit_neg_r _ (i - 8)) by lia. apply orb_false_r.
      * rewrite (byte_high v) by done. by apply IH; lia.
    + assert (Z.land v (Z.shiftl (le b) 8) = 0).
      { apply Z_bits_ext. intros j Hj. rewrite Z.land_spec, Z.shiftl_spec, Z.bits_0 by lia.
        destruct (Z.ltb_spec j 8).
        - rewrite (Z.testbit_neg_r _ (j - 8)) by lia. apply andb_false_r.
        - by rewrite (byte_high v). }
      rewrite <- Z.lxor_lor, <- Z.add_nocarry_lxor by done.
      rewrite Z.shiftl_mul_pow2 by lia. lia.
Qed.

Lemma is_bytes_take n b : is_bytes b -> is_bytes (take n b).
Proof. apply Forall_take. Qed.
#[export] Hint Resolve is_bytes_take : cint.

Lemma buf_bit_take n b i :
  0 <= i -> buf_bit (take n b) i = (i <? 8 * Z.of_nat n) && buf_bit b i.
Proof.
  intros Hi. unfold buf_bit. assert (0 <= i / 8) by (apply Z.div_pos; lia).
  destruct (Z.ltb_spec i (8 * Z.of_nat n)).
  - rewrite lookup_take_lt by (Z.div_mod_to_equations; lia). done.
  - rewrite lookup_take_ge by (Z.div_mod_to_equations; lia). apply Z.bits_0.
Qed.

(** A byte is determined by its bits. *)
Lemma byte_ext b b' (k : nat) :
  is_bytes b -> is_bytes b' -> length b = length b' ->
  (forall j, 0 <= j < 8 ->
     buf_bit b (8 * Z.of_nat k + j) = buf_bit b' (8 * Z.of_nat k + j)) ->
  b !! k = b' !! k.
Proof.
  intros Hb Hb' Hl H. destruct (decide (k < length b)%nat) as [Hk|Hk].
  - destruct (load_ok b k Hk) as (v & _ & Hv).
    destruct (load_ok b' k) as (v' & _ & Hv'); [lia|]. rewrite Hv, Hv'. f_equal.
    apply Z_bits_ext. intros i Hi. destruct (decide (i < 8)).
    + specialize (H i ltac:(lia)).
      by rewrite (buf_bit_at _ _ _ v), (buf_bit_at _ _ _ v') in H by (done || lia).
    + by rewrite !byte_high by (eauto with cint || lia).
  - rewrite !lookup_ge_None_2 by lia. done.
Qed.

(** The integer a field denotes. *)
Definition field_value (f : uacpi_buffer_field) : Z :=
  Z.shiftr (le (backing f)) (bit_index f) mod 2 ^ bit_length f.

Lemma field_value_bit f i :
  field_ok f -> 0 <= i ->
  Z.testbit (field_value f) i = copied (backing f) (bit_index f) (bit_length f) i.
Proof.
  intros [Hb Hp Hn Hf] Hi. unfold field_value, copied. rewrite <- Z.land_ones by lia.
  testbits. rewrite le_bit by (done || lia). rewrite andb_comm. by rewrite Z.add_comm.
Qed.

Definition field_bytes_n (f : uacpi_buffer_field) : nat := Z.to_nat ((bit_length f + 7) / 8).

(** The number a read leaves in the destination, whatever path it takes. *)
Lemma read_field_value f dst :
  field_ok f -> is_bytes dst -> (field_bytes_n f <= length dst)%nat ->
  exists d', uacpi_read_buffer_field f dst = Some d' /\
    le (take (field_bytes_n f) d') = field_value f /\
    drop (field_bytes_n f) d' = drop (field_bytes_n f) dst.
Proof.
  intros Hf Hd Hl. unfold field_bytes_n in *.
  destruct (read_field_bits f dst) as (d' & Hrun & Hb & Hl' & H); try done.
  { destruct Hf. Z.div_mod_to_equations; lia. }
  assert (0 <= (bit_length f + 7) / 8 /\ bit_length f <= 8 * ((bit_length f + 7) / 8))
    by (destruct Hf; Z.div_mod_to_equations; lia).
  exists d'. split; [done|]. split.
  - apply Z_bits_ext. intros i Hi. rewrite le_bit, buf_bit_take by auto with cint.
    rewrite H, field_value_bit, Z2Nat.id by done || lia.
    destruct (Z.ltb_spec i (8 * ((bit_length f + 7) / 8))); [done|].
    unfold copied. rewrite (proj2 (Z.ltb_ge _ _)) by lia. done.
  - apply list_eq. intros k. rewrite !lookup_drop. apply byte_ext; try done.
    intros j Hj. rewrite H by lia. rewrite (proj2 (Z.ltb_ge _ _)) by lia. done.
Qed.

(** Reading a buffer field, byte-aligned or not, fills the bytes that
    hold [bit_length] bits with the field's value, zero-extended, and leaves
    the rest of the destination alone. *)
Theorem buffer_field_read_value (f : uacpi_buffer_field) (dst : list Z) :
  field_ok f -> is_bytes dst -> (field_bytes_n f <= length dst)%nat ->
  exists d', uacpi_read_buffer_field f dst = Some d' /\
    le (take (field_bytes_n f) d') = field_value f /\
    drop (field_bytes_n f) d' = drop (field_bytes_n f) dst.
Proof. apply read_field_value. Qed.

(** A two-byte buffer read through its 12-bit field at bit 3. *)
Definition field_3_12 (b : list Z) : uacpi_buffer_field := BufferField b 3 12.

Lemma field_3_12_ok x y : 0 <= x < 256 -> 0 <= y < 256 -> field_ok (field_3_12 [x; y]).
Proof. intros Hx Hy. constructor; cbn; unfold buf_bits; simpl; try lia. repeat constructor; lia. Qed.

Lemma buffer_field_read_value_witness :
  exists d', uacpi_read_buffer_field (field_3_12 [248; 127]) [7; 7; 7] = Some d' /\
    le (take 2 d') = 4095 /\ drop 2 d' = [7].
Proof.
  apply (buffer_field_read_value (field_3_12 [248; 127]) [7; 7; 7]).
  - apply field_3_12_ok; lia.
  - repeat constructor; lia.
  - vm_compute; lia.
Defined.

(** C11: writing a buffer field changes the integer the buffer denotes in the
    field's bits only, which take the source's value cut to the field's
    length (or zero-extended to it), whatever the alignment. *)
Theorem buffer_field_write_value (f : uacpi_buffer_field) (src : list Z) (size : Z) :
  field_ok f -> is_bytes src -> 0 <= size <= Z.of_nat (length src) -> size < 2 ^ 60 ->
  exists b', uacpi_write_buffer_field f src size = Some b' /\
    length b' = length (backing f) /\
    le b' = Z.lor (Z.ldiff (le (backing f)) (Z.shiftl (Z.ones (bit_length f)) (bit_index f)))
                  (Z.shiftl (le (take (Z.to_nat size) src) mod 2 ^ bit_length f) (bit_index f)).
Proof.
  intros Hf Hs Hsz Hbig. destruct (write_field_bits f src size) as (b' & Hrun & Hb & Hl & H);
    try done. exists b'. split; [done|]. split; [done|].
  destruct Hf as [Hbf Hp Hn Hfit]. apply Z_bits_ext. intros i Hi.
  rewrite le_bit, H by done. rewrite <- Z.land_ones by lia.
  rewrite Z.lor_spec, Z.ldiff_spec, !Z.shiftl_spec by lia. rewrite (le_bit (backing f)) by done.
  destruct (Z.leb_spec (bit_index f) i); cbn [andb].
  - rewrite Z.land_spec, !ones_bit, le_bit, buf_bit_take by (auto with cint || lia).
    unfold copied. rewrite Z2Nat.id, Z.add_0_l by lia.
    destruct (Z.ltb_spec i (bit_index f + bit_length f)), (Z.ltb_spec (i - bit_index f) (bit_length f));
      try lia; cbn [negb]; by rewrite ?andb_false_r, ?andb_true_r, ?orb_false_r.
  - rewrite !(Z.testbit_neg_r _ (i - bit_index f)) by lia. cbn [negb].
    by rewrite andb_true_r, orb_false_r.
Qed.

Lemma buffer_field_write_value_witness :
  exists b', uacpi_write_buffer_field (field_3_12 [255; 255]) [52; 18] 2 = Some b' /\
    length b' = 2%nat /\ le b' = 32768 + 0x234 * 8 + 7.
Proof.
  apply (buffer_field_write_value (field_3_12 [255; 255]) [52; 18] 2).
  - apply field_3_12_ok; lia.
  - repeat constructor; lia.
  - cbn; lia.
  - lia.
Defined.

(** Two fields that share no bit. *)
Definition disjoint_fields (f g : uacpi_buffer_field) : Prop :=
  bit_index f + bit_length f <= bit_index g \/ bit_index g + bit_length g <= bit_index f.

Definition with_backing (b : list Z) (f : uacpi_buffer_field) : uacpi_buffer_field :=
  BufferField b (bit_index f) (bit_length f).

Lemma with_backing_ok b f :
  field_ok f -> is_bytes b -> length b = length (backing f) -> field_ok (with_backing b f).
Proof.
  intros [Hb Hp Hn Hf] Hb' Hl. constructor; cbn; try done.
  unfold buf_bits in *. by rewrite Hl.
Qed.

(** C12: write then read.  What is read back from a field is what was written
    to it, cut to the field, and every disjoint field of the same buffer
    reads as before. *)
Theorem buffer_field_roundtrip (f g : uacpi_buffer_field) (src : list Z) (size : Z)
    (dst : list Z) :
  field_ok f -> field_ok g -> backing g = backing f -> disjoint_fields f g ->
  is_bytes src -> 0 <= size <= Z.of_nat (length src) -> size < 2 ^ 60 ->
  is_bytes dst -> (field_bytes_n f <= length dst)%nat -> (field_bytes_n g <= length dst)%nat ->
  exists b' df dg, uacpi_write_buffer_field f src size = Some b' /\
    uacpi_read_buffer_field (with_backing b' f) dst = Some df /\
    le (take (field_bytes_n f) df) = le (take (Z.to_nat size) src) mod 2 ^ bit_length f /\
    uacpi_read_buffer_field (with_backing b' g) dst = Some dg /\
    le (take (field_bytes_n g) dg) = field_value g.
Proof.
  intros Hf Hg Hfg Hdis Hs Hsz Hbig Hd Hlf Hlg.
  destruct (write_field_bits f src size) as (b' & Hrun & Hb & Hl & H); try done.
  assert (Hf' := with_backing_ok b' f Hf Hb Hl).
  assert (Hg' : field_ok (with_backing b' g)) by (apply with_backing_ok; congruence).
  destruct (read_field_value _ dst Hf' Hd Hlf) as (df & Hrf & Hvf & _).
  destruct (read_field_value _ dst Hg' Hd Hlg) as (dg & Hrg & Hvg & _).
  exists b', df, dg. split; [done|]. split; [done|]. split; [|split; [done|]].
  - etransitivity; [exact Hvf|]. apply Z_bits_ext. intros i Hi.
    rewrite field_value_bit by done. destruct Hf as [Hbf Hp Hn Hfit].
    rewrite <- Z.land_ones by lia. unfold copied. cbn [with_backing backing bit_index bit_length].
    rewrite Z.land_spec, ones_bit, le_bit, buf_bit_take by (auto with cint || lia).
    rewrite H, Z2Nat.id by lia. unfold copied.
    destruct (Z.ltb_spec i (bit_length f)); [|by rewrite andb_false_r].
    rewrite (proj2 (Z.leb_le _ _)), (proj2 (Z.ltb_lt _ (bit_index f + _))) by lia.
    cbn [andb]. rewrite andb_true_r.
    by replace (0 + (bit_index f + i - bit_index f)) with i by lia;
      replace (bit_index f + i - bit_index f) with i by lia.
  - etransitivity; [exact Hvg|]. apply Z_bits_ext. intros i Hi.
    rewrite !field_value_bit by done. destruct Hg as [_ Hp _ _], Hf as [_ _ _ _]. unfold copied.
    cbn [with_backing backing bit_index bit_length].
    destruct (Z.ltb_spec i (bit_length g)); [|done]. cbn [andb]. rewrite H, Hfg by lia.
    unfold disjoint_fields in Hdis.
    destruct (Z.leb_spec (bit_index f) (bit_index g + i)),
      (Z.ltb_spec (bit_index g + i) (bit_index f + bit_length f)); done || lia.
Qed.

Lemma buffer_field_roundtrip_witness :
  exists b' df dg, uacpi_write_buffer_field (field_3_12 [255; 255]) [52; 18] 2 = Some b' /\
    uacpi_read_buffer_field (field_3_12 b') [0; 0] = Some df /\
    le (take 2 df) = 0x1234 mod 2 ^ 12 /\
    uacpi_read_buffer_field (BufferField b' 0 3) [0; 0] = Some dg /\
    le (take 1 dg) = 7.
Proof.
  apply (buffer_field_roundtrip (field_3_12 [255; 255]) (BufferField [255; 255] 0 3)
           [52; 18] 2 [0; 0]); try (vm_compute; intuition congruence); try lia; try (repeat constructor; lia).
  - apply field_3_12_ok; lia.
  - constructor; cbn; unfold buf_bits; simpl; try lia. repeat constructor; lia.
Defined.
