(* ===== verification/Alloc.v ===== *)
(** * The heap, as its clients see it

    [malloc] and [free] of the kernel for components whose blocks are
    objects of their own: which blocks are live, and what the allocator
    answers to each call.  An [Allocator] may answer anything; a
    [LawfulAllocator] answers null or a block that is not live, which
    [LiballocSpec] proves of the kernel's.  To free what is not live is
    undefined. *)
From S2P Require Import Prelude.

Record heap := Heap { live : gset Z; calls : nat }.

(** The answer to the call with this number, for this size. *)
Class Allocator := { pick : nat -> Z -> gset Z -> Z }.
Class LawfulAllocator `{Allocator} :=
  pick_fresh : forall n sz L, pick n sz L = 0 \/ 0 < pick n sz L /\ pick n sz L ∉ L.

Section Heap.
Context `{Allocator}.

Definition malloc (sz : Z) (h : heap) : Z * heap :=
  let p := pick (calls h) sz (live h) in
  (p, Heap (if p =? 0 then live h else {[p]} ∪ live h) (S (calls h))).

Definition free (p : Z) (h : heap) : option heap :=
  if p =? 0 then Some h
  else if bool_decide (p ∈ live h) then Some (Heap (live h ∖ {[p]}) (calls h)) else None.

Lemma malloc_null h sz h' : malloc sz h = (0, h') -> live h' = live h.
Proof. unfold malloc. intros [= E <-]. by rewrite E. Qed.

Lemma malloc_live h sz p h' : malloc sz h = (p, h') -> p <> 0 -> live h' = {[p]} ∪ live h.
Proof. unfold malloc. intros [= <- <-] Hp. cbn. by rewrite (proj2 (Z.eqb_neq _ 0)). Qed.

Lemma malloc_grows h sz : live h ⊆ live (malloc sz h).2.
Proof. unfold malloc. cbn. case_if; set_solver. Qed.

Lemma malloc_fresh `{!LawfulAllocator} h sz p h' :
  malloc sz h = (p, h') -> p <> 0 -> 0 < p /\ p ∉ live h.
Proof.
  unfold malloc. intros [= <- <-] Hp. by destruct (pick_fresh (calls h) sz (live h)) as [?|?].
Qed.

Lemma free_live p h : p <> 0 -> p ∈ live h -> free p h = Some (Heap (live h ∖ {[p]}) (calls h)).
Proof.
  intros Hp Hl. unfold free. rewrite (proj2 (Z.eqb_neq p 0)) by done.
  by rewrite bool_decide_true.
Qed.
End Heap.
#[global] Typeclasses Opaque pick.

(** Two allocators for the witnesses: one that takes the next page, one that
    never has memory. *)
Definition bump : Allocator := {|
  pick n _ L := let p := 0x1000 * (Z.of_nat n + 1) in if bool_decide (p ∈ L) then 0 else p |}.
Definition exhausted : Allocator := {| pick _ _ _ := 0 |}.

Lemma bump_lawful : @LawfulAllocator bump.
Proof.
  intros n sz L. unfold pick, bump. destruct (decide (0x1000 * (Z.of_nat n + 1) ∈ L)).
  - rewrite bool_decide_true by done. by left.
  - rewrite bool_decide_false by done. right. split; [lia | done].
Qed.

Lemma exhausted_lawful : @LawfulAllocator exhausted.
Proof. intros n sz L. by left. Qed.
