(* ===== verification/Mutex.v ===== *)
(** * Locks of uACPI: [extra/uacpi/mutex.c]

    The ACPI global lock shared with the firmware, AML mutexes, recursive
    locks and read-write locks, over the kernel's mutexes ([KernelSync]).

    A handle of a native mutex is null or a key of [natives]; a pointer to an
    AML mutex is a key of [mutexes].  The firmware runs beside the kernel:
    [firmware] lists what it does at the next accesses the kernel makes to
    the lock word, or while the kernel waits for an event.  An empty list is
    a firmware that does nothing more.  [None] is undefined behaviour or a
    spin that never ends. *)
From S2P Require Import Prelude Status KernelSync.

Definition GLOBAL_LOCK_PENDING : Z := Z.shiftl 1 0.
Definition GLOBAL_LOCK_OWNED_BIT : Z := 1.
Definition GLOBAL_LOCK_OWNED : Z := Z.shiftl 1 GLOBAL_LOCK_OWNED_BIT.
Definition GLOBAL_LOCK_MASK : Z := 3.
Definition UACPI_THREAD_ID_NONE : Z := u64 (-1).

Record uacpi_mutex := AmlMutex {
  handle : option nat;
  owner : Z;
  depth : Z;
}.

Record uacpi_recursive_lock := RecursiveLock {
  rec_mutex : option nat;
  rec_depth : Z;
  rec_owner : Z;
}.

Record uacpi_rw_lock := RwLock {
  read_mutex : option nat;
  write_mutex : option nat;
  num_readers : Z;
}.

(** One action of the firmware: it may rewrite the lock word and may raise
    the interrupt that announces a release. *)
Record firmware_action := FwAction {
  fw_word : Z -> Z;
  fw_notifies : bool;
}.

(** The part of [g_uacpi_rt_ctx] the locks use, the mutexes they live on,
    and the number of writes to the register field [GBL_RLS]. *)
Record rt := Rt {
  rt_level : uacpi_init_level;
  natives : gmap nat internal_mutex;
  mutexes : gmap nat uacpi_mutex;
  namespace_lock : uacpi_rw_lock;
  firmware : list firmware_action;
  facs_global_lock : Z;
  has_global_lock : bool;
  global_lock_pending : bool;
  global_lock_acquired : bool;
  global_lock_seq_num : Z;
  global_lock_mutex : nat;
  global_lock_spinlock : nat;
  global_lock_event : option bool;
  gbl_rls_writes : nat;
}.

Definition with_natives (n : gmap nat internal_mutex) (s : rt) : rt :=
  Rt (rt_level s) n (mutexes s) (namespace_lock s) (firmware s) (facs_global_lock s)
    (has_global_lock s) (global_lock_pending s) (global_lock_acquired s)
    (global_lock_seq_num s) (global_lock_mutex s) (global_lock_spinlock s)
    (global_lock_event s) (gbl_rls_writes s).
Definition with_mutexes (m : gmap nat uacpi_mutex) (s : rt) : rt :=
  Rt (rt_level s) (natives s) m (namespace_lock s) (firmware s) (facs_global_lock s)
    (has_global_lock s) (global_lock_pending s) (global_lock_acquired s)
    (global_lock_seq_num s) (global_lock_mutex s) (global_lock_spinlock s)
    (global_lock_event s) (gbl_rls_writes s).
Definition with_word (l : list firmware_action) (w : Z) (s : rt) : rt :=
  Rt (rt_level s) (natives s) (mutexes s) (namespace_lock s) l w
    (has_global_lock s) (global_lock_pending s) (global_lock_acquired s)
    (global_lock_seq_num s) (global_lock_mutex s) (global_lock_spinlock s)
    (global_lock_event s) (gbl_rls_writes s).
Definition with_pending (b : bool) (e : option bool) (s : rt) : rt :=
  Rt (rt_level s) (natives s) (mutexes s) (namespace_lock s) (firmware s)
    (facs_global_lock s) (has_global_lock s) b (global_lock_acquired s)
    (global_lock_seq_num s) (global_lock_mutex s) (global_lock_spinlock s) e
    (gbl_rls_writes s).
Definition with_acquired (b : bool) (seq : Z) (s : rt) : rt :=
  Rt (rt_level s) (natives s) (mutexes s) (namespace_lock s) (firmware s)
    (facs_global_lock s) (has_global_lock s) (global_lock_pending s) b seq
    (global_lock_mutex s) (global_lock_spinlock s) (global_lock_event s)
    (gbl_rls_writes s).
Definition with_gbl_rls (n : nat) (s : rt) : rt :=
  Rt (rt_level s) (natives s) (mutexes s) (namespace_lock s) (firmware s)
    (facs_global_lock s) (has_global_lock s) (global_lock_pending s)
    (global_lock_acquired s) (global_lock_seq_num s) (global_lock_mutex s)
    (global_lock_spinlock s) (global_lock_event s) n.

(** ** Native mutexes behind handles *)

Definition on_native {A} (f : internal_mutex -> option (A * internal_mutex)) (p : nat)
    : M rt A := fun s =>
  m ← natives s !! p; '(a, m) ← f m; Some (a, with_natives (<[p := m]> (natives s)) s).

Definition kernel_acquire_mutex (p : nat) (timeout : Z) : M rt uacpi_status :=
  on_native (fun m => uacpi_kernel_acquire_mutex m timeout) p.
Definition kernel_release_mutex (h : option nat) : M rt unit :=
  match h with
  | None => ub
  | Some p => on_native (fun m => Some (tt, uacpi_kernel_release_mutex m)) p
  end.

Definition acquire_native_mutex_with_timeout (h : option nat) (timeout : Z)
    : M rt uacpi_status :=
  match h with
  | None => mret UACPI_STATUS_INVALID_ARGUMENT
  | Some p => kernel_acquire_mutex p timeout
  end.
Definition acquire_native_mutex (h : option nat) : M rt uacpi_status :=
  acquire_native_mutex_with_timeout h 65535.
Definition release_native_mutex (h : option nat) : M rt uacpi_status :=
  match h with
  | None => mret UACPI_STATUS_INVALID_ARGUMENT
  | Some p => _ ← kernel_release_mutex h; mret UACPI_STATUS_OK
  end.

(** A mutex created is a fresh key; [malloc_ok] as in [create_mutex]. *)
Definition create_native (malloc_ok : bool) : M rt (option nat) := fun s =>
  m ← create_mutex malloc_ok;
  let p := fresh (dom (natives s)) in
  Some (Some p, with_natives (<[p := m]> (natives s)) s).
Definition free_native (p : nat) : M rt unit := fun s =>
  m ← natives s !! p; _ ← uacpi_kernel_free_mutex m;
  Some (tt, with_natives (delete p (natives s)) s).

(** The kernel's spinlocks are its mutexes. *)
Definition lock_spinlock (p : nat) : M rt unit :=
  _ ← kernel_acquire_mutex p 65535; mret tt.
Definition unlock_spinlock (p : nat) : M rt unit := kernel_release_mutex (Some p).

(** ** The firmware beside the kernel *)

(** The interrupt handler of [event.c] for a release notification. *)
Definition handle_global_lock : M rt unit := fun s =>
  if negb (has_global_lock s) then Some (tt, s) else
  '(_, s) ← lock_spinlock (global_lock_spinlock s) s;
  let s := if global_lock_pending s
           then with_pending false (fmap (fun _ => true) (global_lock_event s)) s else s in
  unlock_spinlock (global_lock_spinlock s) s.

(** The firmware's next action, if it has one. *)
Definition firmware_step : M rt unit := fun s =>
  match firmware s with
  | [] => Some (tt, s)
  | a :: l =>
      let s := with_word l (fw_word a (facs_global_lock s)) s in
      if fw_notifies a then handle_global_lock s else Some (tt, s)
  end.

(** [*(volatile uacpi_u32* )lock] and [uacpi_atomic_cmpxchg32]. *)
Definition load_lock : M rt Z := _ ← firmware_step; gets facs_global_lock.
Definition cmpxchg_lock (value new_value : Z) : M rt (bool * Z) := fun s =>
  '(_, s) ← firmware_step s;
  if facs_global_lock s =? value
  then Some ((true, value), with_word (firmware s) new_value s)
  else Some ((false, facs_global_lock s), s).

(** [uacpi_kernel_wait_for_event], which ignores its timeout unless it is 0
    and never clears the event: it polls until the event is signalled, which
    only the firmware's notification does. *)
Fixpoint poll_event (n : nat) : M rt bool := fun s =>
  match global_lock_event s with
  | None => Some (false, s)
  | Some true => Some (true, s)
  | Some false =>
      match n with
      | O => None
      | S n' => '(_, s) ← firmware_step s; poll_event n' s
      end
  end.
Definition wait_for_event (timeout : Z) : M rt bool := fun s =>
  if timeout =? 0 then Some (default false (global_lock_event s), s)
  else poll_event (length (firmware s)) s.

(** ** The global lock word *)

Definition was_owned (value : Z) : bool :=
  truthy (Z.shiftr (Z.land value GLOBAL_LOCK_OWNED) GLOBAL_LOCK_OWNED_BIT).

Definition acquire_word (value : Z) : Z :=
  let new_value := Z.ldiff value GLOBAL_LOCK_MASK in
  let new_value := Z.lor new_value GLOBAL_LOCK_OWNED in
  if was_owned value then Z.lor new_value GLOBAL_LOCK_PENDING else new_value.

Definition release_word (value : Z) : Z := Z.ldiff value GLOBAL_LOCK_MASK.

(** The [do .. while (!cmpxchg)] loops; each failed exchange is an action of
    the firmware, which bounds the turns. *)
Fixpoint try_acquire_loop (n : nat) (value : Z) : M rt bool :=
  '(ok, value') ← cmpxchg_lock value (acquire_word value);
  if (ok : bool) then mret (negb (was_owned value))
  else match n with O => ub | S n' => try_acquire_loop n' value' end.
Definition try_acquire_global_lock_from_firmware : M rt bool :=
  value ← load_lock; n ← gets (fun s => length (firmware s)); try_acquire_loop n value.

Fixpoint do_release_loop (n : nat) (value : Z) : M rt bool :=
  '(ok, value') ← cmpxchg_lock value (release_word value);
  if (ok : bool) then mret (has_flag value GLOBAL_LOCK_PENDING)
  else match n with O => ub | S n' => do_release_loop n' value' end.
Definition do_release_global_lock_to_firmware : M rt bool :=
  value ← load_lock; n ← gets (fun s => length (firmware s)); do_release_loop n value.

(** The [for (;;)] of [uacpi_acquire_global_lock_from_firmware], entered with
    the spinlock held; [n] bounds the attempts left. *)
Fixpoint acquire_attempts (n : nat) (spins : Z) : M rt bool :=
  let spins := u16 (spins + 1) in
  success ← try_acquire_global_lock_from_firmware;
  if (success : bool) then mret true
  else if spins =? 65535 then mret false
  else match n with
  | O => ub
  | S n' =>
      _ ← modify (fun s => with_pending true (global_lock_event s) s);
      spinlock ← gets global_lock_spinlock;
      _ ← unlock_spinlock spinlock;
      _ ← wait_for_event 65535;
      _ ← lock_spinlock spinlock;
      acquire_attempts n' spins
  end.

Definition uacpi_acquire_global_lock_from_firmware : M rt uacpi_status :=
  has ← gets has_global_lock;
  if negb has then mret UACPI_STATUS_OK else
  spinlock ← gets global_lock_spinlock;
  _ ← lock_spinlock spinlock;
  success ← acquire_attempts (Z.to_nat 65534) 0;
  _ ← modify (fun s => with_pending false (global_lock_event s) s);
  _ ← unlock_spinlock spinlock;
  mret (if (success : bool) then UACPI_STATUS_OK else UACPI_STATUS_HARDWARE_TIMEOUT).

Definition uacpi_release_global_lock_to_firmware : M rt unit :=
  has ← gets has_global_lock;
  if negb has then mret tt else
  pending ← do_release_global_lock_to_firmware;
  if (pending : bool)
  then modify (fun s => with_gbl_rls (S (gbl_rls_writes s)) s) else mret tt.

(** ** The public global lock *)

(** [global_lock_mutex->handle] *)
Definition global_handle : M rt (option nat) := fun s =>
  m ← mutexes s !! global_lock_mutex s; Some (handle m, s).

Definition uacpi_acquire_global_lock (timeout : Z) : M rt (uacpi_status * option Z) :=
  lvl ← gets rt_level;
  if negb (init_level_at_least lvl UACPI_INIT_LEVEL_SUBSYSTEM_INITIALIZED)
  then mret (UACPI_STATUS_INIT_LEVEL_MISMATCH, None) else
  h ← global_handle;
  ret ← acquire_native_mutex_with_timeout h timeout;
  if negb (is_ok ret) then mret (ret, None) else
  ret ← uacpi_acquire_global_lock_from_firmware;
  if negb (is_ok ret) then _ ← release_native_mutex h; mret (ret, None) else
  seq ← gets global_lock_seq_num;
  let seq := if seq =? 4294967295 then 0 else seq in
  _ ← modify (fun s => with_acquired true (u32 (seq + 1)) s);
  mret (UACPI_STATUS_OK, Some seq).

Definition uacpi_release_global_lock (seq : Z) : M rt uacpi_status :=
  lvl ← gets rt_level;
  if negb (init_level_at_least lvl UACPI_INIT_LEVEL_SUBSYSTEM_INITIALIZED)
  then mret UACPI_STATUS_INIT_LEVEL_MISMATCH else
  acquired ← gets global_lock_acquired;
  cur ← gets global_lock_seq_num;
  if negb acquired || negb (seq =? cur) then mret UACPI_STATUS_INVALID_ARGUMENT else
  _ ← modify (fun s => with_acquired false cur s);
  _ ← uacpi_release_global_lock_to_firmware;
  h ← global_handle;
  _ ← release_native_mutex h;
  mret UACPI_STATUS_OK.

(** ** Read-write locks *)

Definition uacpi_rw_lock_init (ok1 ok2 : bool) : M rt (uacpi_status * uacpi_rw_lock) :=
  r ← create_native ok1;
  match r with
  | None => mret (UACPI_STATUS_OUT_OF_MEMORY, RwLock None None 0)
  | Some pr =>
      w ← create_native ok2;
      match w with
      | None => _ ← free_native pr; mret (UACPI_STATUS_OUT_OF_MEMORY, RwLock None None 0)
      | Some _ => mret (UACPI_STATUS_OK, RwLock r w 0)
      end
  end.

Definition free_if (h : option nat) : M rt unit :=
  match h with None => mret tt | Some p => free_native p end.

Definition uacpi_rw_lock_deinit (lock : uacpi_rw_lock) : M rt (uacpi_status * uacpi_rw_lock) :=
  _ ← free_if (read_mutex lock); _ ← free_if (write_mutex lock);
  mret (UACPI_STATUS_OK, RwLock None None 0).

Definition uacpi_rw_lock_read (lock : uacpi_rw_lock) : M rt (uacpi_status * uacpi_rw_lock) :=
  ret ← acquire_native_mutex (read_mutex lock);
  if negb (is_ok ret) then mret (ret, lock) else
  let n := num_readers lock in
  let lock := RwLock (read_mutex lock) (write_mutex lock) (u64 (n + 1)) in
  '(ret, lock) ←
    (if n =? 0 then
       ret ← acquire_native_mutex (write_mutex lock);
       mret (ret, if negb (is_ok ret) then RwLock (read_mutex lock) (write_mutex lock) 0
                  else lock)
     else mret (ret, lock));
  _ ← kernel_release_mutex (read_mutex lock);
  mret (ret, lock).

Definition uacpi_rw_unlock_read (lock : uacpi_rw_lock) : M rt (uacpi_status * uacpi_rw_lock) :=
  ret ← acquire_native_mutex (read_mutex lock);
  if negb (is_ok ret) then mret (ret, lock) else
  let n := num_readers lock in
  let lock := RwLock (read_mutex lock) (write_mutex lock) (u64 (n - 1)) in
  _ ← (if n =? 1 then release_native_mutex (write_mutex lock) else mret UACPI_STATUS_OK);
  _ ← kernel_release_mutex (read_mutex lock);
  mret (ret, lock).

Definition uacpi_rw_lock_write (lock : uacpi_rw_lock) : M rt uacpi_status :=
  acquire_native_mutex (write_mutex lock).
Definition uacpi_rw_unlock_write (lock : uacpi_rw_lock) : M rt uacpi_status :=
  release_native_mutex (write_mutex lock).

(** The namespace lock of [namespace.c]. *)
Definition uacpi_namespace_write_lock : M rt uacpi_status :=
  l ← gets namespace_lock; uacpi_rw_lock_write l.
Definition uacpi_namespace_write_unlock : M rt uacpi_status :=
  l ← gets namespace_lock; uacpi_rw_unlock_write l.

(** ** AML mutexes *)

Definition get_mutex (p : nat) : M rt uacpi_mutex := fun s =>
  m ← mutexes s !! p; Some (m, s).
Definition put_mutex (p : nat) (m : uacpi_mutex) : M rt unit := fun s =>
  Some (tt, with_mutexes (<[p := m]> (mutexes s)) s).

Definition uacpi_this_thread_owns_aml_mutex (p : nat) : M rt bool :=
  m ← get_mutex p; mret (owner m =? uacpi_kernel_get_thread_id).

(** Between the native acquisition and the [out] label. *)
Definition take_aml_mutex (p : nat) (timeout : Z) : M rt uacpi_status :=
  m ← get_mutex p;
  ret ← acquire_native_mutex_with_timeout (handle m) timeout;
  if negb (is_ok ret) then mret ret else
  gh ← global_handle;
  ret ← (if bool_decide (handle m = gh) then
           ret ← uacpi_acquire_global_lock_from_firmware;
           if negb (is_ok ret) then _ ← release_native_mutex (handle m); mret ret
           else mret ret
         else mret UACPI_STATUS_OK);
  if negb (is_ok ret) then mret ret else
  m ← get_mutex p;
  _ ← put_mutex p (AmlMutex (handle m) uacpi_kernel_get_thread_id 1);
  mret ret.

Definition uacpi_acquire_aml_mutex (p : nat) (timeout : Z) : M rt uacpi_status :=
  m ← get_mutex p;
  if owner m =? uacpi_kernel_get_thread_id then
    if depth m =? 65535 then mret UACPI_STATUS_DENIED
    else _ ← put_mutex p (AmlMutex (handle m) (owner m) (u16 (depth m + 1)));
         mret UACPI_STATUS_OK
  else
    _ ← uacpi_namespace_write_unlock;
    ret ← take_aml_mutex p timeout;
    _ ← uacpi_namespace_write_lock;
    mret ret.

Definition uacpi_release_aml_mutex (p : nat) : M rt uacpi_status :=
  m ← get_mutex p;
  let d := depth m in
  _ ← put_mutex p (AmlMutex (handle m) (owner m) (u16 (d - 1)));
  if 1 <? d then mret UACPI_STATUS_OK else
  gh ← global_handle;
  _ ← (if bool_decide (handle m = gh) then uacpi_release_global_lock_to_firmware
       else mret tt);
  m ← get_mutex p;
  _ ← put_mutex p (AmlMutex (handle m) UACPI_THREAD_ID_NONE (depth m));
  _ ← release_native_mutex (handle m);
  mret UACPI_STATUS_OK.

(** ** Recursive locks *)

Definition uacpi_recursive_lock_init (malloc_ok : bool)
    : M rt (uacpi_status * uacpi_recursive_lock) :=
  h ← create_native malloc_ok;
  match h with
  | None => mret (UACPI_STATUS_OUT_OF_MEMORY, RecursiveLock None 0 0)
  | Some _ => mret (UACPI_STATUS_OK, RecursiveLock h 0 UACPI_THREAD_ID_NONE)
  end.

Definition uacpi_recursive_lock_deinit (lock : uacpi_recursive_lock)
    : M rt (uacpi_status * uacpi_recursive_lock) :=
  _ ← free_if (rec_mutex lock);
  mret (UACPI_STATUS_OK, RecursiveLock None 0 UACPI_THREAD_ID_NONE).

Definition uacpi_recursive_lock_acquire (lock : uacpi_recursive_lock)
    : M rt (uacpi_status * uacpi_recursive_lock) :=
  if rec_owner lock =? uacpi_kernel_get_thread_id then
    mret (UACPI_STATUS_OK,
          RecursiveLock (rec_mutex lock) (u64 (rec_depth lock + 1)) (rec_owner lock))
  else
    ret ← acquire_native_mutex (rec_mutex lock);
    if negb (is_ok ret) then mret (ret, lock)
    else mret (ret, RecursiveLock (rec_mutex lock) 1 uacpi_kernel_get_thread_id).

Definition uacpi_recursive_lock_release (lock : uacpi_recursive_lock)
    : M rt (uacpi_status * uacpi_recursive_lock) :=
  let d := rec_depth lock in
  if 1 <? d
  then mret (UACPI_STATUS_OK, RecursiveLock (rec_mutex lock) (u64 (d - 1)) (rec_owner lock))
  else
    ret ← release_native_mutex (rec_mutex lock);
    mret (ret, RecursiveLock (rec_mutex lock) (u64 (d - 1)) UACPI_THREAD_ID_NONE).
