(* ===== verification/MutexSpec.v ===== *)
(** * What the locks promise: theorems about [Mutex]

    The global lock word as a protocol between the kernel and the firmware,
    the public global lock, recursion of AML mutexes, and the read-write lock
    as a refinement of its abstract state. *)
From S2P Require Import Prelude Status KernelSync Mutex.

(** ** The native mutexes of a state *)

Definition native_locked (p : nat) (b : bool) (s : rt) : Prop :=
  natives s !! p = Some (InternalMutex b).

Definition set_native (p : nat) (b : bool) (s : rt) : rt :=
  with_natives (<[p := InternalMutex b]> (natives s)) s.

Lemma acquire_native_free p t s :
  native_locked p false s ->
  acquire_native_mutex_with_timeout (Some p) t s = Some (UACPI_STATUS_OK, set_native p true s).
Proof.
  intros H. cbn [acquire_native_mutex_with_timeout]. unfold kernel_acquire_mutex, on_native.
  by rewrite H.
Qed.

Lemma acquire_native_held p t s :
  native_locked p true s -> acquire_native_mutex_with_timeout (Some p) t s = None.
Proof.
  intros H. cbn [acquire_native_mutex_with_timeout]. unfold kernel_acquire_mutex, on_native.
  by rewrite H.
Qed.

Lemma release_kernel p b s :
  native_locked p b s -> kernel_release_mutex (Some p) s = Some (tt, set_native p false s).
Proof. intros H. cbn [kernel_release_mutex]. unfold on_native. by rewrite H. Qed.

Lemma lock_spinlock_free p s :
  native_locked p false s -> lock_spinlock p s = Some (tt, set_native p true s).
Proof.
  intros H. unfold lock_spinlock, kernel_acquire_mutex, on_native. mstep. by rewrite H.
Qed.

Lemma unlock_spinlock_held p b s :
  native_locked p b s -> unlock_spinlock p s = Some (tt, set_native p false s).
Proof. apply release_kernel. Qed.

Lemma release_native p b s :
  native_locked p b s ->
  release_native_mutex (Some p) s = Some (UACPI_STATUS_OK, set_native p false s).
Proof.
  intros H. unfold release_native_mutex. mstep. by rewrite (release_kernel p b s H).
Qed.

Lemma set_native_self p b s : native_locked p b (set_native p b s).
Proof. unfold native_locked, set_native. simpl. apply lookup_insert_eq. Qed.

Lemma set_native_other p q b b' s :
  p <> q -> native_locked q b' s -> native_locked q b' (set_native p b s).
Proof. unfold native_locked, set_native. simpl. intros Hne H. by rewrite lookup_insert_ne. Qed.

Lemma set_native_twice p b b' s : set_native p b (set_native p b' s) = set_native p b s.
Proof. unfold set_native. cbn [natives with_natives]. by rewrite insert_insert_eq. Qed.

Lemma set_native_id p b s : native_locked p b s -> set_native p b s = s.
Proof. unfold native_locked, set_native. intros H. rewrite insert_id by done. by destruct s. Qed.
#[export] Hint Resolve set_native_self set_native_other : core.

(** ** The read-write lock

    Its abstract state is the number of readers and whether a writer holds
    it.  Locking is enabled when it may succeed; unlocking, when the caller
    holds the lock. *)

Inductive rw_op := ReadLock | ReadUnlock | WriteLock | WriteUnlock.

Definition rw_enabled (op : rw_op) (n : Z) (writer : bool) : bool :=
  match op with
  | ReadLock => negb writer
  | ReadUnlock => 0 <? n
  | WriteLock => (n =? 0) && negb writer
  | WriteUnlock => writer
  end.

Definition rw_next (op : rw_op) (n : Z) (writer : bool) : Z * bool :=
  match op with
  | ReadLock => (n + 1, writer)
  | ReadUnlock => (n - 1, writer)
  | WriteLock => (n, true)
  | WriteUnlock => (n, false)
  end.

Definition rw_exec (op : rw_op) (lock : uacpi_rw_lock) : M rt (uacpi_status * uacpi_rw_lock) :=
  match op with
  | ReadLock => uacpi_rw_lock_read lock
  | ReadUnlock => uacpi_rw_unlock_read lock
  | WriteLock => ret ← uacpi_rw_lock_write lock; mret (ret, lock)
  | WriteUnlock => ret ← uacpi_rw_unlock_write lock; mret (ret, lock)
  end.

(** The lock [(r, w)] in state [s] stands for [n] readers and [writer]. *)
Record rw_abs (r w : nat) (lock : uacpi_rw_lock) (s : rt) (n : Z) (writer : bool) : Prop := {
  abs_lock : lock = RwLock (Some r) (Some w) n;
  abs_ne : r <> w;
  abs_readers : 0 <= n < 2 ^ 64 - 1;
  abs_exclusive : writer = true -> n = 0;
  abs_read : native_locked r false s;
  abs_write : native_locked w ((0 <? n) || writer) s;
}.

(** Nothing but the two mutexes of the lock changes. *)
Definition rw_frame (r w : nat) (s s' : rt) : Prop :=
  exists b b', s' = set_native w b (set_native r b' s).

Lemma rw_read_first r w n s :
  r <> w -> native_locked r false s -> native_locked w false s -> n = 0 ->
  exists s', uacpi_rw_lock_read (RwLock (Some r) (Some w) n) s
      = Some ((UACPI_STATUS_OK, RwLock (Some r) (Some w) 1), s') /\
    s' = set_native r false (set_native w true (set_native r true s)).
Proof.
  intros Hne Hr Hw ->. eexists. split; [|done].
  unfold uacpi_rw_lock_read, acquire_native_mutex. cbn [read_mutex write_mutex num_readers]. mstep.
  rewrite acquire_native_free by done. cbn [is_ok negb]. change (0 =? 0) with true. cbv beta iota.
  rewrite acquire_native_free by auto. cbn [is_ok negb read_mutex].
  erewrite release_kernel; [done|]. by apply set_native_other; auto.
Qed.

Lemma rw_read_next r w n b s :
  r <> w -> native_locked r false s -> native_locked w b s -> 0 < n < 2 ^ 64 - 1 ->
  uacpi_rw_lock_read (RwLock (Some r) (Some w) n) s
  = Some ((UACPI_STATUS_OK, RwLock (Some r) (Some w) (n + 1)), s).
Proof.
  intros Hne Hr Hw Hn. unfold uacpi_rw_lock_read, acquire_native_mutex.
  cbn [read_mutex write_mutex num_readers]. mstep.
  rewrite acquire_native_free by done. cbn [is_ok negb].
  rewrite (proj2 (Z.eqb_neq n 0)) by lia. cbn [read_mutex].
  erewrite release_kernel by auto. rewrite set_native_twice, set_native_id by done.
  rewrite u64_small by lia. done.
Qed.

Lemma rw_read_unlock r w n s :
  r <> w -> native_locked r false s -> native_locked w true s -> 0 < n < 2 ^ 64 ->
  uacpi_rw_unlock_read (RwLock (Some r) (Some w) n) s
  = Some ((UACPI_STATUS_OK, RwLock (Some r) (Some w) (n - 1)),
          if n =? 1 then set_native r false (set_native w false (set_native r true s)) else s).
Proof.
  intros Hne Hr Hw Hn. unfold uacpi_rw_unlock_read, acquire_native_mutex.
  cbn [read_mutex write_mutex num_readers]. mstep.
  rewrite acquire_native_free by done. cbn [is_ok negb]. rewrite u64_small by lia.
  destruct (n =? 1).
  - erewrite release_native by (apply set_native_other; done). cbn [read_mutex].
    erewrite release_kernel; [done|]. by apply set_native_other; auto.
  - cbn [read_mutex]. erewrite release_kernel by auto.
    by rewrite set_native_twice, set_native_id.
Qed.

Lemma rw_swap r w b b' b'' s :
  r <> w -> set_native r b (set_native w b' (set_native r b'' s))
            = set_native w b' (set_native r b s).
Proof.
  intros Hne. unfold set_native. cbn [natives with_natives].
  rewrite (insert_insert_ne _ r w) by done. by rewrite insert_insert_eq.
Qed.

(** C14: the read-write lock refines its abstract state.  An operation that
    is enabled returns [UACPI_STATUS_OK] and makes the abstract move, touching
    no other mutex; a lock operation that is not enabled blocks, so readers
    and a writer never hold the lock together. *)
Theorem rw_lock_refines (op : rw_op) (r w : nat) (lock : uacpi_rw_lock) (s : rt)
    (n : Z) (writer : bool) :
  rw_abs r w lock s n writer -> n < 2 ^ 64 - 2 ->
  (rw_enabled op n writer = true ->
     exists lock' s', rw_exec op lock s = Some ((UACPI_STATUS_OK, lock'), s') /\
       rw_abs r w lock' s' (fst (rw_next op n writer)) (snd (rw_next op n writer)) /\
       rw_frame r w s s') /\
  (rw_enabled op n writer = false -> op = ReadLock \/ op = WriteLock ->
     rw_exec op lock s = None).
Proof.
  intros [-> Hne Hn Hex Hr Hw] Hbig.
  assert (Hframe : rw_frame r w s s).
  { exists ((0 <? n) || writer), false. rewrite (set_native_id r) by done.
    by rewrite set_native_id. }
  split.
  - intros Hen. destruct op; cbn [rw_enabled rw_exec rw_next fst snd] in *.
    + destruct writer; [done|]. rewrite orb_false_r in Hw.
      destruct (decide (n = 0)) as [->|Hn0].
      * destruct (rw_read_first r w 0 s) as (s' & Hrun & ->); try done.
        eexists _, _. split; [exact Hrun|]. rewrite rw_swap by done.
        split; [constructor; auto; lia | by eexists _, _].
      * rewrite (rw_read_next r w n (0 <? n)) by (done || lia).
        eexists _, _. split; [done|]. split; [|done].
        constructor; auto; try lia.
        replace (0 <? n + 1) with (0 <? n) by lia. by rewrite orb_false_r.
    + destruct writer; [specialize (Hex eq_refl); lia|]. rewrite Hen in Hw.
      rewrite rw_read_unlock by (done || lia). eexists _, _. split; [done|].
      destruct (Z.eqb_spec n 1) as [->|Hn1].
      * rewrite rw_swap by done. split; [constructor; auto; lia | by eexists _, _].
      * split; [|done]. constructor; auto; try lia.
        by replace (0 <? n - 1) with true by lia.
    + apply andb_true_iff in Hen as [->%Z.eqb_eq ->%negb_true_iff].
      unfold uacpi_rw_lock_write, acquire_native_mutex. cbn [write_mutex]. mstep.
      rewrite acquire_native_free by done. eexists _, _. split; [done|]. split.
      * constructor; auto; lia.
      * exists true, false. by rewrite (set_native_id r).
    + subst writer. rewrite orb_true_r in Hw. assert (n = 0) as -> by auto.
      unfold uacpi_rw_unlock_write. cbn [write_mutex]. mstep.
      rewrite (release_native w true) by done. eexists _, _. split; [done|]. split.
      * constructor; auto; lia.
      * exists false, false. by rewrite (set_native_id r).
  - intros Hdis Hop. destruct op; cbn [rw_enabled rw_exec] in *; try (by destruct Hop).
    + destruct writer; [|done]. assert (n = 0) as -> by auto.
      unfold uacpi_rw_lock_read, acquire_native_mutex. cbn [read_mutex write_mutex num_readers].
      mstep. rewrite acquire_native_free by done. cbn [is_ok negb].
      change (0 =? 0) with true. cbv beta iota. by rewrite acquire_native_held by auto.
    + assert ((0 <? n) || writer = true) as E.
      { destruct writer; [apply orb_true_r|]. rewrite andb_true_r in Hdis. lia. }
      rewrite E in Hw. unfold uacpi_rw_lock_write, acquire_native_mutex. cbn [write_mutex]. mstep.
      by rewrite acquire_native_held.
Qed.

(** A state with mutexes 0 and 1 free, and nothing else. *)
Definition two_mutexes : rt :=
  Rt UACPI_INIT_LEVEL_SUBSYSTEM_INITIALIZED
    {[ 0%nat := InternalMutex false; 1%nat := InternalMutex false ]} ∅
    (RwLock None None 0) [] 0 false false false 0 0 0 None 0.

Lemma two_mutexes_abs : rw_abs 0 1 (RwLock (Some 0%nat) (Some 1%nat) 0) two_mutexes 0 false.
Proof. constructor; done. Qed.

Lemma rw_lock_refines_witness :
  exists lock' s',
    rw_exec ReadLock (RwLock (Some 0%nat) (Some 1%nat) 0) two_mutexes
      = Some ((UACPI_STATUS_OK, lock'), s') /\
    rw_abs 0 1 lock' s' 1 false /\ rw_frame 0 1 two_mutexes s'.
Proof. apply (rw_lock_refines ReadLock 0 1 _ two_mutexes 0 false two_mutexes_abs); done. Defined.

(** ** The global lock word *)

Definition pending (w : Z) : bool := has_flag w GLOBAL_LOCK_PENDING.

Lemma was_owned_bit w : was_owned w = Z.testbit w 1.
Proof.
  unfold was_owned, GLOBAL_LOCK_OWNED, GLOBAL_LOCK_OWNED_BIT.
  change (Z.shiftl 1 1) with (2 ^ 1). rewrite <- (land_pow2 w 1) by lia. unfold truthy.
  change (2 ^ 1) with 2.
  rewrite Z.shiftr_div_pow2 by lia. change (2 ^ 1) with 2.
  assert (E : Z.land w 2 = 0 \/ Z.land w 2 = 2).
  { destruct (Z.testbit w 1) eqn:Hb; [right|left]; apply Z_bits_ext; intros i Hi;
      rewrite Z.land_spec; change 2 with (2 ^ 1); rewrite Z.pow2_bits_eqb, ?Z.bits_0 by lia;
      destruct (Z.eqb_spec 1 i) as [<-|]; by rewrite ?Hb, ?andb_false_r. }
  by destruct E as [-> | ->].
Qed.

Lemma pending_bit w : pending w = Z.testbit w 0.
Proof. exact (land_pow2 w 0 ltac:(lia)). Qed.

Lemma mask_bit i : 0 <= i -> Z.testbit GLOBAL_LOCK_MASK i = (i <? 2).
Proof. intros Hi. change GLOBAL_LOCK_MASK with (Z.ones 2). by apply Z.testbit_ones_nonneg. Qed.

(** The word the kernel writes to take the lock: owned, pending iff it was
    owned, the other bits kept. *)
Lemma acquire_word_bit w i :
  0 <= i -> Z.testbit (acquire_word w) i
            = if i =? 0 then was_owned w else if i =? 1 then true else Z.testbit w i.
Proof.
  intros Hi. unfold acquire_word.
  destruct (was_owned w); rewrite !Z.lor_spec, Z.ldiff_spec, mask_bit by done;
    change GLOBAL_LOCK_OWNED with (2 ^ 1); change GLOBAL_LOCK_PENDING with (2 ^ 0);
    rewrite !Z.pow2_bits_eqb by lia;
    destruct (Z.eqb_spec i 0) as [->|]; try (by destruct (Z.testbit w 0));
    destruct (Z.eqb_spec i 1) as [->|]; try (by destruct (Z.testbit w 1));
    rewrite (proj2 (Z.ltb_ge i 2)), ?(proj2 (Z.eqb_neq 1 i)), ?(proj2 (Z.eqb_neq 0 i)) by lia;
    by destruct (Z.testbit w i).
Qed.

Lemma release_word_bit w i :
  0 <= i -> Z.testbit (release_word w) i = if i <? 2 then false else Z.testbit w i.
Proof.
  intros Hi. unfold release_word. rewrite Z.ldiff_spec, mask_bit by done.
  destruct (i <? 2); by rewrite ?andb_false_r, ?andb_true_r.
Qed.

Lemma acquire_word_owned w : was_owned (acquire_word w) = true.
Proof. by rewrite was_owned_bit, acquire_word_bit. Qed.
Lemma acquire_word_pending w : pending (acquire_word w) = was_owned w.
Proof. by rewrite pending_bit, acquire_word_bit. Qed.
Lemma release_word_owned w : was_owned (release_word w) = false.
Proof. by rewrite was_owned_bit, release_word_bit. Qed.
Lemma release_word_pending w : pending (release_word w) = false.
Proof. by rewrite pending_bit, release_word_bit. Qed.
#[export] Hint Rewrite acquire_word_owned acquire_word_pending release_word_owned
  release_word_pending : cint.

(** Firmware actions that raise no interrupt. *)
Definition silent (l : list firmware_action) : Prop :=
  Forall (fun a => fw_notifies a = false) l.

Definition fw_words (l : list firmware_action) (w : Z) : Z :=
  foldl (fun w a => fw_word a w) w l.

Lemma firmware_step_silent s :
  silent (firmware s) ->
  exists pre post, firmware s = pre ++ post /\ (length pre <= 1)%nat /\
    firmware_step s = Some (tt, with_word post (fw_words pre (facs_global_lock s)) s).
Proof.
  unfold firmware_step. intros H. destruct (firmware s) as [|a l] eqn:E.
  - exists [], []. repeat split; [simpl; lia|]. do 2 f_equal. destruct s. simpl in *. by subst.
  - apply Forall_cons in H as [Ha Hl]. exists [a], l. rewrite Ha. repeat split. simpl; lia.
Qed.

(** The compare-and-exchange loops, with [f] the word they write and [g]
    what they return, both of the word the exchange replaced. *)
Section Exchange.
Context {A : Type} (f : Z -> Z) (g : Z -> A) (loop : nat -> Z -> M rt A).
Hypothesis loop_eq : forall n v s,
  loop n v s = match cmpxchg_lock v (f v) s with
               | Some ((true, _), s') => Some (g v, s')
               | Some ((false, v'), s') =>
                   match n with O => None | S n' => loop n' v' s' end
               | None => None
               end.

Lemma exchange_loop n s :
  silent (firmware s) -> (length (firmware s) <= n)%nat ->
  exists pre post, firmware s = pre ++ post /\
    let w := fw_words pre (facs_global_lock s) in
    loop n (facs_global_lock s) s = Some (g w, with_word post (f w) s).
Proof.
  revert s. induction n as [|n IH]; intros s Hs Hn; rewrite loop_eq; unfold cmpxchg_lock;
    destruct (firmware_step_silent s Hs) as (pre & post & E & Hp & ->);
    cbn [mbind option_bind facs_global_lock with_word firmware];
    set (w := fw_words pre (facs_global_lock s)) in *;
    (destruct (Z.eqb_spec w (facs_global_lock s)) as [Hw|Hne]; [exists pre, post; split; [done|]; cbv zeta; fold w; by rewrite <- Hw|]);
    (destruct pre; [done|]); rewrite E in Hs, Hn; simpl in Hn; [lia|].
  apply Forall_app in Hs as [_ Hs]. rewrite length_app in Hn.
  destruct (IH (with_word post w s)) as (pre' & post' & E' & Hrun); [done|simpl; lia|].
  cbn [firmware with_word] in E'. subst post.
  exists ((f0 :: pre) ++ pre'), post'. split; [by rewrite E, <- app_assoc|]. cbv zeta.
  unfold fw_words. rewrite foldl_app. fold (fw_words (f0 :: pre) (facs_global_lock s)).
  exact Hrun.
Qed.
End Exchange.

(** An exchange loop entered with the word just read. *)
Lemma exchange_after_load {A} (f : Z -> Z) (g : Z -> A) (loop : nat -> Z -> M rt A) s :
  (forall n v s, loop n v s = match cmpxchg_lock v (f v) s with
     | Some ((true, _), s') => Some (g v, s')
     | Some ((false, v'), s') => match n with O => None | S n' => loop n' v' s' end
     | None => None end) ->
  silent (firmware s) ->
  exists pre post, firmware s = pre ++ post /\
    let w := fw_words pre (facs_global_lock s) in
    (value ← load_lock; n ← gets (fun s => length (firmware s)); loop n value) s
    = Some (g w, with_word post (f w) s).
Proof.
  intros Heq Hs. destruct (firmware_step_silent s Hs) as (pre & post & E & _ & Hstep).
  set (s1 := with_word post (fw_words pre (facs_global_lock s)) s) in *.
  assert (Hs1 : silent (firmware s1))
    by (unfold silent in *; rewrite E in Hs; by apply Forall_app in Hs as [_ ?]).
  destruct (exchange_loop f g loop Heq (length (firmware s1)) s1 Hs1) as (pre' & post' & E' & Hrun);
    [done|].
  exists (pre ++ pre'), post'. split; [by rewrite E, <- app_assoc; f_equal|].
  cbv zeta. unfold fw_words. rewrite foldl_app.
  unfold load_lock. mstep. rewrite Hstep. exact Hrun.
Qed.

Lemma try_acquire_atomic s :
  silent (firmware s) ->
  exists pre post, firmware s = pre ++ post /\
    let w := fw_words pre (facs_global_lock s) in
    try_acquire_global_lock_from_firmware s
    = Some (negb (was_owned w), with_word post (acquire_word w) s).
Proof.
  intros Hs. unfold try_acquire_global_lock_from_firmware.
  apply (exchange_after_load acquire_word (fun w => negb (was_owned w))); [|done].
  intros [|n] v s'; cbn [try_acquire_loop]; mstep;
    by destruct (cmpxchg_lock v (acquire_word v) s') as [[[[] ?] ?]|].
Qed.

Lemma do_release_atomic s :
  silent (firmware s) ->
  exists pre post, firmware s = pre ++ post /\
    let w := fw_words pre (facs_global_lock s) in
    do_release_global_lock_to_firmware s = Some (pending w, with_word post (release_word w) s).
Proof.
  intros Hs. unfold do_release_global_lock_to_firmware.
  apply (exchange_after_load release_word pending); [|done].
  intros [|n] v s'; cbn [do_release_loop]; mstep;
    by destruct (cmpxchg_lock v (release_word v) s') as [[[[] ?] ?]|].
Qed.

(** Taking and releasing the lock word is atomic and terminates.  Whatever
    the firmware writes to the word meanwhile, the kernel's read-and-exchange
    loops end, and act as one replacement of the word the firmware left after
    some of its actions: an acquisition sets the owned bit, and the pending
    bit when the word was owned, and succeeds iff it was not; a release
    clears both and reports the pending bit; the other bits survive. *)
Theorem global_lock_atomic (s : rt) :
  silent (firmware s) ->
  (exists pre post, firmware s = pre ++ post /\
    let w := fw_words pre (facs_global_lock s) in
    try_acquire_global_lock_from_firmware s
      = Some (negb (was_owned w), with_word post (acquire_word w) s) /\
    was_owned (acquire_word w) = true /\ pending (acquire_word w) = was_owned w /\
    forall i, 2 <= i -> Z.testbit (acquire_word w) i = Z.testbit w i) /\
  (exists pre post, firmware s = pre ++ post /\
    let w := fw_words pre (facs_global_lock s) in
    do_release_global_lock_to_firmware s = Some (pending w, with_word post (release_word w) s) /\
    was_owned (release_word w) = false /\ pending (release_word w) = false /\
    forall i, 2 <= i -> Z.testbit (release_word w) i = Z.testbit w i).
Proof.
  intros Hs. split.
  - destruct (try_acquire_atomic s Hs) as (pre & post & E & Hrun). exists pre, post.
    repeat split; autorewrite with cint; try done. intros i Hi. rewrite acquire_word_bit by lia.
    by rewrite !(proj2 (Z.eqb_neq _ _)) by lia.
  - destruct (do_release_atomic s Hs) as (pre & post & E & Hrun). exists pre, post.
    repeat split; autorewrite with cint; try done. intros i Hi. rewrite release_word_bit by lia.
    by rewrite (proj2 (Z.ltb_ge _ _)) by lia.
Qed.

(** The firmware releases the word it owns, then takes it again. *)
Definition busy_firmware : rt :=
  with_word [FwAction (fun w => Z.ldiff w 3) false; FwAction (fun w => Z.lor w 2) false] 6
    two_mutexes.

Lemma global_lock_atomic_witness :
  (exists pre post, firmware busy_firmware = pre ++ post /\
    let w := fw_words pre 6 in
    try_acquire_global_lock_from_firmware busy_firmware
      = Some (negb (was_owned w), with_word post (acquire_word w) busy_firmware) /\
    was_owned (acquire_word w) = true /\ pending (acquire_word w) = was_owned w /\
    forall i, 2 <= i -> Z.testbit (acquire_word w) i = Z.testbit w i) /\
  (exists pre post, firmware busy_firmware = pre ++ post /\
    let w := fw_words pre 6 in
    do_release_global_lock_to_firmware busy_firmware
      = Some (pending w, with_word post (release_word w) busy_firmware) /\
    was_owned (release_word w) = false /\ pending (release_word w) = false /\
    forall i, 2 <= i -> Z.testbit (release_word w) i = Z.testbit w i).
Proof. apply (global_lock_atomic busy_firmware). repeat constructor. Defined.

(** ** The protocol between kernel and firmware

    The kernel moves by running the code above; the firmware's two moves are
    whatever the ACPI specification allows: taking the lock sets the owned
    bit, and the pending bit if it was owned, and releasing clears both.  By
    [global_lock_atomic] each kernel move is one exchange of the word, so
    interleaving whole moves loses nothing.  A side that finds the word owned
    waits until the other side's release tells it to retry, which it does
    only if it sees the pending bit. *)
Section Protocol.
Context (fw_try fw_release : Z -> Z).
Hypothesis fw_try_owned : forall w, was_owned (fw_try w) = true.
Hypothesis fw_try_pending : forall w, was_owned w = true -> pending (fw_try w) = true.
Hypothesis fw_release_owned : forall w, was_owned (fw_release w) = false.

Record gl := Gl {
  gl_rt : rt;
  os_holds : bool; fw_holds : bool;
  os_waits : bool; fw_waits : bool;
}.

Definition gl_word (g : gl) : Z := facs_global_lock (gl_rt g).

Inductive gl_step : gl -> gl -> Prop :=
  | gl_os_try s s' ok fw ow fww :
      try_acquire_global_lock_from_firmware s = Some (ok, s') ->
      gl_step (Gl s false fw ow fww) (Gl s' ok fw (negb ok) fww)
  | gl_os_release s s' notify fw ow fww :
      do_release_global_lock_to_firmware s = Some (notify, s') ->
      gl_step (Gl s true fw ow fww) (Gl s' false fw ow (fww && negb notify))
  | gl_fw_try s os ow fww :
      let owned := was_owned (facs_global_lock s) in
      gl_step (Gl s os false ow fww)
        (Gl (with_word [] (fw_try (facs_global_lock s)) s) os (negb owned) ow owned)
  | gl_fw_release s os ow fww :
      gl_step (Gl s os true ow fww)
        (Gl (with_word [] (fw_release (facs_global_lock s)) s) os false
          (ow && negb (pending (facs_global_lock s))) fww).

(** Nobody holds the lock or waits for it, and the word says so. *)
Definition gl_initial (g : gl) : Prop :=
  firmware (gl_rt g) = [] /\ was_owned (gl_word g) = false /\
  os_holds g = false /\ fw_holds g = false /\ os_waits g = false /\ fw_waits g = false.

Record gl_inv (g : gl) : Prop := {
  gl_quiet : firmware (gl_rt g) = [];
  gl_exclusive : os_holds g && fw_holds g = false;
  gl_owned : was_owned (gl_word g) = os_holds g || fw_holds g;
  gl_os_wait : os_waits g = true -> fw_holds g = true /\ pending (gl_word g) = true;
  gl_fw_wait : fw_waits g = true -> os_holds g = true /\ pending (gl_word g) = true;
}.

Lemma gl_step_inv g g' : gl_step g g' -> gl_inv g -> gl_inv g'.
Proof.
  intros Hstep [Hq Hx Ho How Hfw]. unfold gl_word in *.
  destruct Hstep as [s s' ok fw ow fww H|s s' n fw ow fww H|s os ow fww owned|s os ow fww];
    cbn [gl_rt os_holds fw_holds os_waits fw_waits] in *.
  - destruct (try_acquire_atomic s) as (pre & post & E & Hrun); [by rewrite Hq; constructor|].
    rewrite Hq in E. symmetry in E. apply app_eq_nil in E as [-> ->]. cbv zeta in Hrun.
    rewrite Hrun in H. cbn [fw_words foldl] in H. injection H as <- <-.
    constructor; unfold gl_word; cbn [gl_rt os_holds fw_holds os_waits fw_waits firmware
      with_word facs_global_lock]; rewrite ?acquire_word_owned, ?acquire_word_pending, ?Ho;
      destruct fw, ow, fww; simpl in *; intuition congruence.
  - destruct (do_release_atomic s) as (pre & post & E & Hrun); [by rewrite Hq; constructor|].
    rewrite Hq in E. symmetry in E. apply app_eq_nil in E as [-> ->]. cbv zeta in Hrun.
    rewrite Hrun in H. cbn [fw_words foldl] in H. injection H as <- <-.
    constructor; unfold gl_word; cbn [gl_rt os_holds fw_holds os_waits fw_waits firmware
      with_word facs_global_lock]; rewrite ?release_word_owned;
      destruct fw, ow, fww; simpl in *; try intuition congruence.
    all: intros Hc; rewrite (proj2 (Hfw eq_refl)) in Hc; done.
  - subst owned. constructor; unfold gl_word; cbn [gl_rt os_holds fw_holds os_waits fw_waits
      firmware with_word facs_global_lock]; rewrite ?fw_try_owned, ?Ho;
      destruct os, ow, fww; simpl in *; auto; try intuition congruence.
  - constructor; unfold gl_word; cbn [gl_rt os_holds fw_holds os_waits fw_waits
      firmware with_word facs_global_lock]; rewrite ?fw_release_owned;
      destruct os, ow, fww; simpl in *; auto; try intuition congruence.
    all: intros Hc; rewrite (proj2 (How eq_refl)) in Hc; done.
Qed.

Lemma gl_initial_inv g : gl_initial g -> gl_inv g.
Proof.
  intros (Hq & Hw & Ho & Hf & How & Hfw).
  constructor; rewrite ?Hw, ?Ho, ?Hf, ?How, ?Hfw; done || congruence.
Qed.

Lemma gl_reachable_inv g g' : gl_initial g -> rtc gl_step g g' -> gl_inv g'.
Proof.
  intros Hi Hr. apply gl_initial_inv in Hi. induction Hr; [done|].
  by apply IHHr, (gl_step_inv x).
Qed.

(** C13: mutual exclusion and no lost wake-up.  In every state reachable by
    moves of the kernel and of the firmware, the kernel and the firmware do
    not both hold the lock, the owned bit says whether one of them does, and
    a side that waits waits for a holder that will see the pending bit.  A
    move of the kernel is one successful compare and exchange; that its
    retry loops act as one such move is [global_lock_atomic]. *)
Theorem global_lock_exclusion (g g' : gl) :
  gl_initial g -> rtc gl_step g g' ->
  os_holds g' && fw_holds g' = false /\
  was_owned (gl_word g') = os_holds g' || fw_holds g' /\
  (os_waits g' = true -> fw_holds g' = true /\ pending (gl_word g') = true) /\
  (fw_waits g' = true -> os_holds g' = true /\ pending (gl_word g') = true).
Proof. intros Hi Hr. by destruct (gl_reachable_inv g g' Hi Hr). Qed.
End Protocol.

(** A firmware that runs the kernel's own algorithm; the kernel takes the
    lock, the firmware then waits for it. *)
Lemma global_lock_exclusion_witness :
  let g := Gl two_mutexes false false false false in
  exists g', rtc (gl_step acquire_word release_word) g g' /\ os_holds g' = true /\
    fw_waits g' = true /\
    (os_holds g' && fw_holds g' = false /\
     was_owned (gl_word g') = os_holds g' || fw_holds g' /\
     (os_waits g' = true -> fw_holds g' = true /\ pending (gl_word g') = true) /\
     (fw_waits g' = true -> os_holds g' = true /\ pending (gl_word g') = true)).
Proof.
  intros g. set (s1 := with_word [] 2 two_mutexes). set (g1 := Gl s1 true false false false).
  set (g2 := Gl (with_word [] 3 s1) true false false true).
  assert (Hr : rtc (gl_step acquire_word release_word) g g2).
  { apply (rtc_l _ g g1).
    - exact (gl_os_try acquire_word release_word two_mutexes s1 true false false false eq_refl).
    - apply rtc_once. exact (gl_fw_try acquire_word release_word s1 true false false). }
  exists g2. split; [exact Hr|]. split; [reflexivity|]. split; [reflexivity|].
  apply (global_lock_exclusion acquire_word release_word) with g; [| | |repeat split|exact Hr].
  - exact acquire_word_owned.
  - intros w Hw. by rewrite acquire_word_pending.
  - exact release_word_owned.
Defined.

(** ** The public global lock *)

(** With the firmware silent, one attempt on the word. *)
Lemma try_acquire_quiet s :
  firmware s = [] ->
  try_acquire_global_lock_from_firmware s
  = Some (negb (was_owned (facs_global_lock s)),
          with_word [] (acquire_word (facs_global_lock s)) s).
Proof.
  intros Hq. destruct (try_acquire_atomic s) as (pre & post & E & Hrun); [by rewrite Hq; constructor|].
  rewrite Hq in E. symmetry in E. by apply app_eq_nil in E as [-> ->].
Qed.

Lemma do_release_quiet s :
  firmware s = [] ->
  do_release_global_lock_to_firmware s
  = Some (pending (facs_global_lock s), with_word [] (release_word (facs_global_lock s)) s).
Proof.
  intros Hq. destruct (do_release_atomic s) as (pre & post & E & Hrun); [by rewrite Hq; constructor|].
  rewrite Hq in E. symmetry in E. by apply app_eq_nil in E as [-> ->].
Qed.

Lemma acquire_word_idem w : was_owned w = true -> acquire_word (acquire_word w) = acquire_word w.
Proof.
  intros H. apply Z_bits_ext. intros i Hi.
  rewrite (acquire_word_bit (acquire_word w)), acquire_word_owned, acquire_word_bit by done.
  rewrite H. by destruct (i =? 0), (i =? 1).
Qed.

(** Taking a free, unpending word and releasing it restores it. *)
Lemma release_acquire_word w :
  was_owned w = false -> pending w = false -> release_word (acquire_word w) = w.
Proof.
  rewrite was_owned_bit, pending_bit. intros H1 H0. apply Z_bits_ext. intros i Hi.
  rewrite release_word_bit, acquire_word_bit by done.
  destruct (Z.ltb_spec i 2).
  - assert (i = 0 \/ i = 1) as [-> | ->] by lia; done.
  - by rewrite !(proj2 (Z.eqb_neq i _)) by lia.
Qed.

(** A state in which the kernel can take the global lock: initialised, the
    lock's mutex and the spinlock free, the firmware silent. *)
Record lock_ready (h : nat) (s : rt) : Prop := {
  ready_level : init_level_at_least (rt_level s) UACPI_INIT_LEVEL_SUBSYSTEM_INITIALIZED = true;
  ready_mutex : exists m, mutexes s !! global_lock_mutex s = Some m /\ handle m = Some h;
  ready_native : native_locked h false s;
  ready_spin : native_locked (global_lock_spinlock s) false s;
  ready_distinct : h <> global_lock_spinlock s;
  ready_quiet : firmware s = [];
}.

(** What taking the lock from the firmware does to the word. *)
Definition word_taken (s : rt) : rt :=
  if has_global_lock s
  then with_pending false (global_lock_event s)
         (with_word [] (acquire_word (facs_global_lock s)) s)
  else s.

Lemma acquire_from_firmware_free s :
  firmware s = [] -> native_locked (global_lock_spinlock s) false s ->
  was_owned (facs_global_lock s) = false ->
  uacpi_acquire_global_lock_from_firmware s = Some (UACPI_STATUS_OK, word_taken s).
Proof.
  intros Hq Hspin Hw. unfold uacpi_acquire_global_lock_from_firmware, word_taken. mstep.
  destruct (has_global_lock s) eqn:Hh; cbn [negb]; [|done].
  rewrite lock_spinlock_free by done. cbv beta iota.
  assert (Hat : forall n spins s1, firmware s1 = [] -> was_owned (facs_global_lock s1) = false ->
    acquire_attempts n spins s1 = Some (true, with_word [] (acquire_word (facs_global_lock s1)) s1)).
  { intros n spins s1 Hq1 Hw1. destruct n; cbn [acquire_attempts]; mstep;
      by rewrite try_acquire_quiet, Hw1 by done. }
  rewrite Hat by done. cbv beta iota.
  erewrite unlock_spinlock_held by (apply (set_native_self _ true)). cbv beta iota.
  unfold set_native. simpl. rewrite insert_insert_eq, insert_id by done. by destruct s.
Qed.

Lemma global_handle_eq s m :
  mutexes s !! global_lock_mutex s = Some m -> global_handle s = Some (handle m, s).
Proof. intros H. unfold global_handle. by rewrite H. Qed.

Definition next_seq (n : Z) : Z := if n =? 4294967295 then 0 else n.

Lemma acquire_global_ready h t s :
  lock_ready h s -> was_owned (facs_global_lock s) = false ->
  let seq := next_seq (global_lock_seq_num s) in
  uacpi_acquire_global_lock t s
  = Some ((UACPI_STATUS_OK, Some seq),
          with_acquired true (u32 (seq + 1)) (word_taken (set_native h true s))).
Proof.
  intros [Hl (m & Hm & Hh) Hn Hsp Hne Hq] Hw. unfold uacpi_acquire_global_lock. mstep.
  rewrite Hl. cbn [negb]. rewrite (global_handle_eq s m Hm), Hh, acquire_native_free by done.
  cbn [is_ok negb].
  rewrite acquire_from_firmware_free; [|done|by apply set_native_other|done].
  cbn [is_ok negb]. unfold word_taken. by destruct (has_global_lock _).
Qed.

(** Releasing with the sequence number the lock holds. *)
Lemma release_global_held h s :
  init_level_at_least (rt_level s) UACPI_INIT_LEVEL_SUBSYSTEM_INITIALIZED = true ->
  (exists m, mutexes s !! global_lock_mutex s = Some m /\ handle m = Some h) ->
  native_locked h true s -> firmware s = [] -> global_lock_acquired s = true ->
  pending (facs_global_lock s) = false ->
  uacpi_release_global_lock (global_lock_seq_num s) s
  = Some (UACPI_STATUS_OK,
          set_native h false (with_acquired false (global_lock_seq_num s)
            (if has_global_lock s then with_word [] (release_word (facs_global_lock s)) s else s))).
Proof.
  intros Hl (m & Hm & Hh) Hn Hq Ha Hp. unfold uacpi_release_global_lock,
    uacpi_release_global_lock_to_firmware. mstep.
  rewrite Hl. cbn [negb]. rewrite Ha, Z.eqb_refl. cbn [negb orb]. cbn [has_global_lock with_acquired].
  destruct (has_global_lock s); cbn [negb].
  - rewrite do_release_quiet by done. cbn [facs_global_lock with_acquired]. rewrite Hp.
    rewrite (global_handle_eq _ m), Hh by done. by erewrite release_native.
  - rewrite (global_handle_eq _ m), Hh by done. by erewrite release_native.
Qed.

(** The sequence numbers of the global lock.  From a free lock,
    [uacpi_acquire_global_lock] succeeds, takes the mutex and the firmware's
    word, and gives back a sequence number.  Releasing with that number is
    refused and changes nothing; releasing with its successor is what frees
    the mutex and restores the word. *)
Theorem global_lock_sequence (h : nat) (t : Z) (s : rt) :
  lock_ready h s -> was_owned (facs_global_lock s) = false ->
  pending (facs_global_lock s) = false ->
  exists seq s1, uacpi_acquire_global_lock t s = Some ((UACPI_STATUS_OK, Some seq), s1) /\
    global_lock_acquired s1 = true /\ native_locked h true s1 /\
    was_owned (facs_global_lock s1) = has_global_lock s /\
    uacpi_release_global_lock seq s1 = Some (UACPI_STATUS_INVALID_ARGUMENT, s1) /\
    exists s2, uacpi_release_global_lock (u32 (seq + 1)) s1 = Some (UACPI_STATUS_OK, s2) /\
      global_lock_acquired s2 = false /\ native_locked h false s2 /\
      facs_global_lock s2 = facs_global_lock s /\ gbl_rls_writes s2 = gbl_rls_writes s.
Proof.
  intros Hr Hw Hp. exists (next_seq (global_lock_seq_num s)).
  set (seq := next_seq _). eexists. split; [by apply acquire_global_ready|]. fold seq.
  set (s1 := with_acquired true _ _).
  assert (Hn1 : native_locked h true s1).
  { unfold s1, word_taken. destruct (has_global_lock _); apply (set_native_self h true s). }
  assert (Hl1 : rt_level s1 = rt_level s)
    by (unfold s1, word_taken; by destruct (has_global_lock _)).
  destruct Hr as [Hl (m & Hm & Hh) Hn Hsp Hne Hq].
  assert (Hm1 : exists m, mutexes s1 !! global_lock_mutex s1 = Some m /\ handle m = Some h)
    by (exists m; unfold s1, word_taken; by destruct (has_global_lock _)).
  assert (Hq1 : firmware s1 = []) by (unfold s1, word_taken; by destruct (has_global_lock _)).
  assert (Hw1 : facs_global_lock s1
    = if has_global_lock s then acquire_word (facs_global_lock s) else facs_global_lock s)
    by (unfold s1, word_taken; simpl; by destruct (has_global_lock _)).
  assert (Hh1 : has_global_lock s1 = has_global_lock s)
    by (unfold s1, word_taken; simpl; by destruct (has_global_lock s) eqn:E).
  assert (Hg1 : gbl_rls_writes s1 = gbl_rls_writes s)
    by (unfold s1, word_taken; by destruct (has_global_lock _)).
  assert (Hs1 : global_lock_seq_num s1 = u32 (seq + 1)) by done.
  split; [done|]. split; [done|]. split; [|split].
  - rewrite Hw1. destruct (has_global_lock s); [apply acquire_word_owned|done].
  - unfold uacpi_release_global_lock. mstep. rewrite Hl1, Hl. cbn [negb]. rewrite Hs1.
    replace (seq =? u32 (seq + 1)) with false; [by rewrite orb_true_r|].
    symmetry. apply Z.eqb_neq. unfold wrap. Z.div_mod_to_equations; lia.
  - rewrite <- Hs1. eexists. split.
    { apply (release_global_held h); try done; [by rewrite Hl1|].
      rewrite Hw1. destruct (has_global_lock s); [by rewrite acquire_word_pending|done]. }
    split; [by destruct (has_global_lock s1)|]. split; [apply set_native_self|].
    split; [|by destruct (has_global_lock s1)]. rewrite Hh1, Hw1 in *.
    destruct (has_global_lock s); [by apply release_acquire_word | exact Hw1].
Qed.

(** Mutex 0 is the global lock's, mutex 1 its spinlock. *)
Definition lock_state (word : Z) (event : bool) : rt :=
  Rt UACPI_INIT_LEVEL_NAMESPACE_LOADED
    {[ 0%nat := InternalMutex false; 1%nat := InternalMutex false ]}
    {[ 0%nat := AmlMutex (Some 0%nat) UACPI_THREAD_ID_NONE 0 ]}
    (RwLock None None 0) [] word true false false 7 0 1 (Some event) 0.

Lemma lock_state_ready w e : lock_ready 0 (lock_state w e).
Proof. constructor; try done. by eexists. Qed.

Lemma global_lock_sequence_witness :
  exists seq s1, uacpi_acquire_global_lock 65535 (lock_state 0 false)
      = Some ((UACPI_STATUS_OK, Some seq), s1) /\
    global_lock_acquired s1 = true /\ native_locked 0 true s1 /\
    was_owned (facs_global_lock s1) = true /\
    uacpi_release_global_lock seq s1 = Some (UACPI_STATUS_INVALID_ARGUMENT, s1) /\
    exists s2, uacpi_release_global_lock (u32 (seq + 1)) s1 = Some (UACPI_STATUS_OK, s2) /\
      global_lock_acquired s2 = false /\ native_locked 0 false s2 /\
      facs_global_lock s2 = 0 /\ gbl_rls_writes s2 = 0%nat.
Proof.
  apply (global_lock_sequence 0 65535 (lock_state 0 false)); [apply lock_state_ready|done|done].
Defined.

(** ** A firmware that keeps the lock *)

(** The state an attempt that fails leaves: owned and pending. *)
Definition contended (b : bool) (s : rt) : rt :=
  with_pending b (global_lock_event s) (with_word [] (acquire_word (facs_global_lock s)) s).

Lemma wait_signalled s :
  global_lock_event s = Some true -> wait_for_event 65535 s = Some (true, s).
Proof.
  intros He. unfold wait_for_event. change (65535 =? 0) with false. cbv iota.
  destruct (firmware s); cbn [length poll_event]; by rewrite He.
Qed.

(** One failed attempt and the wait after it, when the event is signalled. *)
Lemma failed_attempt n spins s :
  firmware s = [] -> was_owned (facs_global_lock s) = true ->
  global_lock_event s = Some true -> native_locked (global_lock_spinlock s) true s ->
  u16 (spins + 1) <> 65535 ->
  acquire_attempts (S n) spins s = acquire_attempts n (u16 (spins + 1)) (contended true s).
Proof.
  intros Hq Hw He Hsp Hne. cbn [acquire_attempts]. mstep.
  rewrite try_acquire_quiet, Hw by done. cbn [negb].
  rewrite (proj2 (Z.eqb_neq _ _) Hne).
  fold (contended true s). set (s1 := contended true s).
  change (global_lock_spinlock (with_pending _ _ _)) with (global_lock_spinlock s).
  change (with_pending true _ _) with s1.
  assert (H1 : native_locked (global_lock_spinlock s) true s1) by exact Hsp.
  rewrite (unlock_spinlock_held _ true) by done.
  rewrite wait_signalled by exact He. rewrite lock_spinlock_free by auto.
  by rewrite set_native_twice, set_native_id.
Qed.

Lemma attempts_exhausted n spins s :
  firmware s = [] -> was_owned (facs_global_lock s) = true ->
  global_lock_event s = Some true -> native_locked (global_lock_spinlock s) true s ->
  0 <= spins < 65535 -> 65534 - spins <= Z.of_nat n ->
  exists b, acquire_attempts n spins s = Some (false, contended b s).
Proof.
  revert spins s. induction n as [|n IH]; intros spins s Hq Hw He Hsp Hr Hn.
  all: destruct (decide (spins = 65534)) as [->|Hne]; [|try lia].
  1, 2: exists (global_lock_pending s); cbn [acquire_attempts]; mstep;
    rewrite try_acquire_quiet, Hw by done; change (u16 (65534 + 1)) with 65535;
    unfold contended; cbn; do 2 f_equal; by destruct s.
  assert (Hu : u16 (spins + 1) = spins + 1) by (apply u16_small; lia).
  rewrite failed_attempt by (done || (rewrite Hu; lia)). rewrite Hu.
  destruct (IH (spins + 1) (contended true s)) as (b & Hrun); try done; try lia.
  { apply acquire_word_owned. }
  exists b. rewrite Hrun. unfold contended. cbn. do 2 f_equal.
  by rewrite acquire_word_idem.
Qed.

(** With the event clear the first wait never ends. *)
Lemma attempts_stuck n s :
  firmware s = [] -> was_owned (facs_global_lock s) = true ->
  global_lock_event s = Some false -> native_locked (global_lock_spinlock s) true s ->
  acquire_attempts (S n) 0 s = None.
Proof.
  intros Hq Hw He Hsp. cbn [acquire_attempts]. mstep.
  rewrite try_acquire_quiet, Hw by done. cbn [negb].
  change (u16 (0 + 1) =? 65535) with false. cbv beta iota.
  erewrite unlock_spinlock_held by exact Hsp. unfold wait_for_event.
  change (65535 =? 0) with false. cbv beta iota.
  cbn [firmware set_native with_natives with_pending with_word length poll_event
       global_lock_event]. by rewrite He.
Qed.

Lemma acquire_from_firmware_eq s :
  has_global_lock s = true -> native_locked (global_lock_spinlock s) false s ->
  uacpi_acquire_global_lock_from_firmware s =
  match acquire_attempts (Z.to_nat 65534) 0 (set_native (global_lock_spinlock s) true s) with
  | Some (success, s') =>
      match unlock_spinlock (global_lock_spinlock s)
              (with_pending false (global_lock_event s') s') with
      | Some (_, s'') =>
          Some (if success then UACPI_STATUS_OK else UACPI_STATUS_HARDWARE_TIMEOUT, s'')
      | None => None
      end
  | None => None
  end.
Proof.
  intros Hh Hsp. unfold uacpi_acquire_global_lock_from_firmware. mstep. rewrite Hh. cbn [negb].
  by rewrite lock_spinlock_free.
Qed.

Lemma acquire_global_eq h t s m :
  init_level_at_least (rt_level s) UACPI_INIT_LEVEL_SUBSYSTEM_INITIALIZED = true ->
  mutexes s !! global_lock_mutex s = Some m -> handle m = Some h -> native_locked h false s ->
  uacpi_acquire_global_lock t s =
  match uacpi_acquire_global_lock_from_firmware (set_native h true s) with
  | Some (ret, s') =>
      if negb (is_ok ret)
      then match release_native_mutex (Some h) s' with
           | Some (_, s'') => Some ((ret, None), s'') | None => None end
      else Some ((UACPI_STATUS_OK, Some (next_seq (global_lock_seq_num s'))),
                 with_acquired true (u32 (next_seq (global_lock_seq_num s') + 1)) s')
  | None => None
  end.
Proof.
  intros Hl Hm Hh Hn. unfold uacpi_acquire_global_lock. mstep. rewrite Hl. cbn [negb].
  rewrite (global_handle_eq s m Hm), Hh, acquire_native_free by done. cbn [is_ok negb].
  destruct (uacpi_acquire_global_lock_from_firmware _) as [[ret s']|]; [|done].
  by destruct (negb (is_ok ret)).
Qed.

(** A firmware that never releases the lock.  The event of the kernel is
    never cleared once it has been signalled, so the wait does not block: the
    65535 attempts are made in a row, the word is left owned and pending, the
    spinlock is released, and the caller gets [HARDWARE_TIMEOUT] without the
    global lock's mutex.  With the event not yet signalled the wait is
    endless. *)
Theorem global_lock_gives_up (h : nat) (t : Z) (s : rt) :
  lock_ready h s -> has_global_lock s = true -> was_owned (facs_global_lock s) = true ->
  (global_lock_event s = Some true ->
     exists s', uacpi_acquire_global_lock t s = Some ((UACPI_STATUS_HARDWARE_TIMEOUT, None), s') /\
       natives s' = natives s /\ global_lock_acquired s' = global_lock_acquired s /\
       was_owned (facs_global_lock s') = true /\ pending (facs_global_lock s') = true) /\
  (global_lock_event s = Some false -> uacpi_acquire_global_lock t s = None).
Proof.
  intros [Hl (m & Hm & Hh) Hn Hsp Hne Hq] Hhas Hw.
  set (s0 := set_native (global_lock_spinlock s) true (set_native h true s)).
  assert (Hsp0 : native_locked (global_lock_spinlock s) true s0) by apply set_native_self.
  rewrite (acquire_global_eq h t s m) by done.
  rewrite acquire_from_firmware_eq by (done || by apply set_native_other).
  change (global_lock_spinlock (set_native h true s)) with (global_lock_spinlock s). fold s0.
  split; intros He.
  - destruct (attempts_exhausted (Z.to_nat 65534) 0 s0) as (b & Hrun); try lia; try done.
    rewrite Hrun. cbv beta iota.
    rewrite (unlock_spinlock_held _ true) by exact Hsp0. cbv beta iota. cbn [is_ok negb].
    rewrite (release_native h true) by (apply set_native_other; [done|];
      exact (set_native_other _ _ true true _ (not_eq_sym Hne) (set_native_self h true s))).
    eexists. split; [done|]. split; [|split; [done|split]].
    + unfold set_native, s0, contended, set_native. simpl.
      rewrite insert_insert_eq, (insert_insert_ne _ _ h) by done.
      rewrite (insert_id _ (global_lock_spinlock s)) by done.
      by rewrite insert_insert_eq, insert_id.
    + apply acquire_word_owned.
    + simpl. by rewrite acquire_word_pending.
  - replace (Z.to_nat 65534) with (S (Z.to_nat 65533)) by lia. by rewrite attempts_stuck.
Qed.

Lemma global_lock_gives_up_witness :
  (Some true = Some true ->
     exists s', uacpi_acquire_global_lock 65535 (lock_state 2 true)
       = Some ((UACPI_STATUS_HARDWARE_TIMEOUT, None), s') /\
       natives s' = natives (lock_state 2 true) /\ global_lock_acquired s' = false /\
       was_owned (facs_global_lock s') = true /\ pending (facs_global_lock s') = true) /\
  (Some true = Some false -> uacpi_acquire_global_lock 65535 (lock_state 2 true) = None).
Proof.
  apply (global_lock_gives_up 0 65535 (lock_state 2 true)); [apply lock_state_ready|done|done].
Defined.

(** ** Recursive AML mutexes *)

Fixpoint run_n {A} (n : nat) (m : M rt A) : M rt (list A) :=
  match n with
  | O => mret []
  | S n' => a ← m; l ← run_n n' m; mret (a :: l)
  end.

Definition aml_owned (p h : nat) (d : Z) (s : rt) : Prop :=
  mutexes s !! p = Some (AmlMutex (Some h) uacpi_kernel_get_thread_id d).

(** The interpreter's situation: it holds the namespace lock, and mutex [p],
    which nobody owns, is on the free native mutex [h], not the global lock's. *)
Record aml_ready (p h ns : nat) (s : rt) : Prop := {
  aml_free : mutexes s !! p = Some (AmlMutex (Some h) UACPI_THREAD_ID_NONE 0);
  aml_native : native_locked h false s;
  aml_ns : write_mutex (namespace_lock s) = Some ns;
  aml_ns_held : native_locked ns true s;
  aml_ne : h <> ns;
  aml_not_global : exists gm, mutexes s !! global_lock_mutex s = Some gm /\ handle gm <> Some h;
}.

Definition with_depth (p h : nat) (o d : Z) (s : rt) : rt :=
  with_mutexes (<[p := AmlMutex (Some h) o d]> (mutexes s)) s.

Definition aml_taken (p h : nat) (d : Z) (s : rt) : rt :=
  with_depth p h uacpi_kernel_get_thread_id d (set_native h true s).

Lemma aml_global_handle p h ns o d s s1 :
  aml_ready p h ns s -> mutexes s1 = mutexes s -> global_lock_mutex s1 = global_lock_mutex s ->
  exists g, global_handle (with_depth p h o d s1) = Some (g, with_depth p h o d s1) /\ g <> Some h.
Proof.
  intros [Hf _ _ _ _ (gm & Hg & Hne)] Em Eg. exists (handle gm). split; [|done].
  apply global_handle_eq. unfold with_depth. simpl. rewrite Em, Eg, lookup_insert_ne; [done|].
  intros ->. rewrite Hf in Hg. injection Hg as <-. done.
Qed.

Lemma get_mutex_eq p m s : mutexes s !! p = Some m -> get_mutex p s = Some (m, s).
Proof. intros H. unfold get_mutex. by rewrite H. Qed.

Lemma with_depth_self p h o d s :
  mutexes (with_depth p h o d s) !! p = Some (AmlMutex (Some h) o d).
Proof. unfold with_depth. simpl. apply lookup_insert_eq. Qed.

(** The first acquisition takes the native mutex. *)
Lemma aml_acquire_first p h ns t s :
  aml_ready p h ns s ->
  uacpi_acquire_aml_mutex p t s = Some (UACPI_STATUS_OK, aml_taken p h 1 s).
Proof.
  intros Hr. assert (Hr' := Hr). destruct Hr as [Hf Hn Hns Hnsl Hne (gm & Hg & Hgne)].
  unfold uacpi_acquire_aml_mutex, uacpi_namespace_write_unlock, uacpi_namespace_write_lock,
    uacpi_rw_unlock_write, uacpi_rw_lock_write, take_aml_mutex. mstep.
  rewrite (get_mutex_eq p _ s Hf). cbn [owner].
  change (UACPI_THREAD_ID_NONE =? uacpi_kernel_get_thread_id) with false. cbv beta iota.
  rewrite Hns, (release_native ns true s Hnsl). cbv beta iota.
  set (s1 := set_native ns false s).
  rewrite (get_mutex_eq p _ s1 Hf). cbv beta iota. cbn [handle].
  rewrite acquire_native_free by (apply set_native_other; congruence). cbn [is_ok negb].
  rewrite (global_handle_eq (set_native h true s1) gm) by exact Hg. cbv beta iota.
  rewrite bool_decide_false by congruence.
  cbv beta iota. cbn [is_ok negb]. rewrite (get_mutex_eq p _ (set_native h true s1) Hf).
  cbn [handle]. unfold put_mutex. cbv beta iota.
  change (namespace_lock (with_mutexes _ _)) with (namespace_lock s). rewrite Hns.
  unfold acquire_native_mutex. rewrite acquire_native_free.
  2: { exact (set_native_other h ns true false s1 Hne (set_native_self ns false s)). }
  do 2 f_equal. unfold aml_taken, with_depth, s1, set_native. cbn.
  rewrite (insert_insert_ne _ h ns), insert_insert_eq by done.
  unfold with_natives, with_mutexes. cbn. f_equal.
  rewrite insert_insert_ne by done. by rewrite (insert_id _ ns).
Qed.

Lemma aml_acquire_again p h d t s :
  aml_owned p h d s -> 0 < d < 65535 ->
  uacpi_acquire_aml_mutex p t s
  = Some (UACPI_STATUS_OK, with_depth p h uacpi_kernel_get_thread_id (d + 1) s).
Proof.
  intros Ho Hd. unfold uacpi_acquire_aml_mutex. mstep. rewrite (get_mutex_eq p _ s Ho).
  cbn [owner depth]. rewrite Z.eqb_refl, (proj2 (Z.eqb_neq d 65535)) by lia.
  unfold put_mutex. cbn [handle]. by rewrite u16_small by lia.
Qed.

Lemma aml_acquire_denied p h t s :
  aml_owned p h 65535 s -> uacpi_acquire_aml_mutex p t s = Some (UACPI_STATUS_DENIED, s).
Proof.
  intros Ho. unfold uacpi_acquire_aml_mutex. mstep. by rewrite (get_mutex_eq p _ s Ho).
Qed.

Lemma aml_release_inner p h d s :
  aml_owned p h d s -> 1 < d <= 65535 ->
  uacpi_release_aml_mutex p s
  = Some (UACPI_STATUS_OK, with_depth p h uacpi_kernel_get_thread_id (d - 1) s).
Proof.
  intros Ho Hd. unfold uacpi_release_aml_mutex. mstep. rewrite (get_mutex_eq p _ s Ho).
  cbn [owner depth handle]. unfold put_mutex. rewrite (proj2 (Z.ltb_lt 1 d)) by lia.
  by rewrite u16_small by lia.
Qed.

Lemma with_depth_twice p h o d o' d' s :
  with_depth p h o d (with_depth p h o' d' s) = with_depth p h o d s.
Proof. unfold with_depth, with_mutexes. cbn. by rewrite insert_insert_eq. Qed.

(** The last release gives the native mutex back. *)
Lemma aml_release_last p h ns s :
  aml_ready p h ns s -> uacpi_release_aml_mutex p (aml_taken p h 1 s) = Some (UACPI_STATUS_OK, s).
Proof.
  intros Hr. assert (Hr' := Hr). destruct Hr' as [Hf Hn _ _ _ _].
  unfold uacpi_release_aml_mutex, aml_taken. mstep.
  rewrite (get_mutex_eq p _ _ (with_depth_self _ _ _ _ _)). cbn [owner depth handle].
  unfold put_mutex. cbv beta iota. change (1 <? 1) with false. cbv iota.
  change (u16 (1 - 1)) with 0.
  set (s1 := set_native h true s).
  destruct (aml_global_handle p h ns uacpi_kernel_get_thread_id 0 s s1 Hr) as (g & Hg & Hne);
    [done|done|].
  change (with_mutexes (<[p := _]> (mutexes (with_depth p h uacpi_kernel_get_thread_id 1 s1)))
    (with_depth p h uacpi_kernel_get_thread_id 1 s1))
    with (with_depth p h uacpi_kernel_get_thread_id 0 (with_depth p h uacpi_kernel_get_thread_id 1 s1)).
  rewrite with_depth_twice, Hg. cbv beta iota. rewrite bool_decide_false by congruence.
  rewrite (get_mutex_eq p _ _ (with_depth_self _ _ _ _ _)). cbn [owner depth handle].
  change (with_mutexes (<[p := _]> (mutexes (with_depth p h uacpi_kernel_get_thread_id 0 s1)))
    (with_depth p h uacpi_kernel_get_thread_id 0 s1))
    with (with_depth p h UACPI_THREAD_ID_NONE 0 (with_depth p h uacpi_kernel_get_thread_id 0 s1)).
  rewrite with_depth_twice, (release_native h true) by apply (set_native_self h true s).
  cbv beta iota. do 2 f_equal. unfold with_depth, s1, set_native, with_mutexes, with_natives. cbn.
  rewrite insert_insert_eq, !insert_id by done. by destruct s.
Qed.

Lemma aml_taken_owned p h d s : aml_owned p h d (aml_taken p h d s).
Proof. apply with_depth_self. Qed.

Lemma aml_taken_depth p h d d' s :
  with_depth p h uacpi_kernel_get_thread_id d' (aml_taken p h d s) = aml_taken p h d' s.
Proof. apply with_depth_twice. Qed.

Lemma run_acquires p h t n d s :
  0 < d -> d + Z.of_nat n <= 65535 ->
  run_n n (uacpi_acquire_aml_mutex p t) (aml_taken p h d s)
  = Some (replicate n UACPI_STATUS_OK, aml_taken p h (d + Z.of_nat n) s).
Proof.
  revert d. induction n as [|n IH]; intros d Hd Hb; cbn [run_n]; mstep.
  - by rewrite Z.add_0_r.
  - rewrite (aml_acquire_again p h d) by (apply aml_taken_owned || lia).
    rewrite aml_taken_depth. cbv beta iota. mstep. rewrite IH by lia.
    by replace (d + 1 + Z.of_nat n) with (d + Z.of_nat (S n)) by lia.
Qed.

Lemma run_releases p h n d s :
  Z.of_nat n < d <= 65535 ->
  run_n n (uacpi_release_aml_mutex p) (aml_taken p h d s)
  = Some (replicate n UACPI_STATUS_OK, aml_taken p h (d - Z.of_nat n) s).
Proof.
  revert d. induction n as [|n IH]; intros d Hb; cbn [run_n]; mstep.
  - by rewrite Z.sub_0_r.
  - rewrite (aml_release_inner p h d) by (apply aml_taken_owned || lia).
    rewrite aml_taken_depth. cbv beta iota. mstep. rewrite IH by lia.
    by replace (d - 1 - Z.of_nat n) with (d - Z.of_nat (S n)) by lia.
Qed.

Lemma run_snoc {A} n (m : M rt A) s l s1 :
  run_n n m s = Some (l, s1) ->
  run_n (S n) m s = match m s1 with Some (a, s2) => Some (l ++ [a], s2) | None => None end.
Proof.
  revert s l. induction n as [|n IH]; intros s l H.
  - injection H as <- <-. cbn [run_n]. mstep. by destruct (m s) as [[? ?]|].
  - cbn [run_n] in H. revert H. mstep. change (run_n (S (S n)) m) with
      (a ← m; l ← run_n (S n) m; mret (a :: l)). mstep.
    destruct (m s) as [[a s']|]; [|done]. destruct (run_n n m s') as [[l' s'']|] eqn:E; [|done].
    intros [= <- <-]. rewrite (IH s' l' E). by destruct (m s'') as [[? ?]|].
Qed.

(** AML mutexes nest.  A free mutex can be acquired [n] times in a row by
    the thread, which then owns it at depth [n] and holds the native mutex;
    one acquisition past 65535 is denied and changes nothing.  Fewer than [n]
    releases keep it owned, and the [n]th gives everything back: the state is
    the one before the first acquisition. *)
Theorem aml_mutex_nests (p h ns : nat) (t : Z) (n : nat) (s : rt) :
  aml_ready p h ns s -> (0 < n)%nat -> Z.of_nat n <= 65535 ->
  exists s1, run_n n (uacpi_acquire_aml_mutex p t) s = Some (replicate n UACPI_STATUS_OK, s1) /\
    aml_owned p h (Z.of_nat n) s1 /\ native_locked h true s1 /\
    (Z.of_nat n = 65535 -> uacpi_acquire_aml_mutex p t s1 = Some (UACPI_STATUS_DENIED, s1)) /\
    (forall k, (k < n)%nat -> exists s2,
       run_n k (uacpi_release_aml_mutex p) s1 = Some (replicate k UACPI_STATUS_OK, s2) /\
       aml_owned p h (Z.of_nat n - Z.of_nat k) s2 /\ native_locked h true s2) /\
    run_n n (uacpi_release_aml_mutex p) s1 = Some (replicate n UACPI_STATUS_OK, s).
Proof.
  intros Hr Hn Hb. destruct n as [|n]; [lia|]. exists (aml_taken p h (Z.of_nat (S n)) s).
  assert (Hrel := run_releases p h n (Z.of_nat (S n)) s ltac:(lia)).
  replace (Z.of_nat (S n) - Z.of_nat n) with 1 in Hrel by lia.
  split; [|split; [apply aml_taken_owned|split; [apply (set_native_self h true s)|split; [|split]]]].
  - cbn [run_n]. mstep. rewrite (aml_acquire_first p h ns) by done.
    cbv beta iota. mstep. rewrite run_acquires by lia.
    by replace (1 + Z.of_nat n) with (Z.of_nat (S n)) by lia.
  - intros E. apply (aml_acquire_denied p h). rewrite <- E. apply aml_taken_owned.
  - intros k Hk. eexists. split; [apply run_releases; lia|].
    split; [apply aml_taken_owned|apply (set_native_self h true s)].
  - rewrite (run_snoc n _ _ _ _ Hrel), (aml_release_last p h ns) by done.
    by rewrite replicate_S_end.
Qed.

(** The interpreter holds the namespace lock (mutex 2); AML mutex 1 is free. *)
Definition aml_state : rt :=
  Rt UACPI_INIT_LEVEL_NAMESPACE_LOADED
    {[ 0%nat := InternalMutex false; 1%nat := InternalMutex false; 2%nat := InternalMutex true ]}
    {[ 0%nat := AmlMutex (Some 0%nat) UACPI_THREAD_ID_NONE 0;
       1%nat := AmlMutex (Some 1%nat) UACPI_THREAD_ID_NONE 0 ]}
    (RwLock None (Some 2%nat) 0) [] 0 false false false 0 0 0 None 0.

Lemma aml_state_ready : aml_ready 1 1 2 aml_state.
Proof. constructor; try done. by eexists. Qed.

Lemma aml_mutex_nests_witness :
  exists s1, run_n 2 (uacpi_acquire_aml_mutex 1 65535) aml_state
      = Some ([UACPI_STATUS_OK; UACPI_STATUS_OK], s1) /\
    aml_owned 1 1 2 s1 /\ native_locked 1 true s1 /\
    (2 = 65535 -> uacpi_acquire_aml_mutex 1 65535 s1 = Some (UACPI_STATUS_DENIED, s1)) /\
    (forall k, (k < 2)%nat -> exists s2,
       run_n k (uacpi_release_aml_mutex 1) s1 = Some (replicate k UACPI_STATUS_OK, s2) /\
       aml_owned 1 1 (2 - Z.of_nat k) s2 /\ native_locked 1 true s2) /\
    run_n 2 (uacpi_release_aml_mutex 1) s1 = Some ([UACPI_STATUS_OK; UACPI_STATUS_OK], aml_state).
Proof. apply (aml_mutex_nests 1 1 2 65535 2 aml_state aml_state_ready); lia. Defined.
