(* ===== verification/FieldIo.v ===== *)
(** * Field units of operation regions: [extra/uacpi/io.c], second part

    Reads and writes of a field are sequences of accesses of the region's
    access width; bits move between the caller's buffer and the accesses by
    [bit_copy].  Bank and index fields first write another field.  What the
    region does with an access is the interface [RegionIo], which
    [uacpi_dispatch_opregion_io] implements.  A field unit refers to field
    units created before it, so it is a tree. *)
From S2P Require Import Prelude Status UStd BitIo.

Definition UACPI_ADDRESS_SPACE_SYSTEM_MEMORY : Z := 0.
Definition UACPI_ADDRESS_SPACE_SYSTEM_IO : Z := 1.
Definition UACPI_ADDRESS_SPACE_SMBUS : Z := 4.
Definition UACPI_ADDRESS_SPACE_IPMI : Z := 7.
Definition UACPI_ADDRESS_SPACE_GENERAL_PURPOSE_IO : Z := 8.
Definition UACPI_ADDRESS_SPACE_GENERIC_SERIAL_BUS : Z := 9.
Definition UACPI_ADDRESS_SPACE_PRM : Z := 11.
Definition UACPI_ADDRESS_SPACE_FFIXEDHW : Z := 127.

Inductive uacpi_region_op :=
  | UACPI_REGION_OP_ATTACH | UACPI_REGION_OP_DETACH
  | UACPI_REGION_OP_READ | UACPI_REGION_OP_WRITE
  | UACPI_REGION_OP_PCC_SEND
  | UACPI_REGION_OP_GPIO_READ | UACPI_REGION_OP_GPIO_WRITE
  | UACPI_REGION_OP_IPMI_COMMAND | UACPI_REGION_OP_FFIXEDHW_COMMAND
  | UACPI_REGION_OP_PRM_COMMAND
  | UACPI_REGION_OP_SERIAL_READ | UACPI_REGION_OP_SERIAL_WRITE.

#[global] Instance uacpi_region_op_eq_dec : EqDecision uacpi_region_op.
Proof. solve_decision. Defined.

Definition UACPI_UPDATE_RULE_PRESERVE : Z := 0.
Definition UACPI_UPDATE_RULE_WRITE_AS_ONES : Z := 1.
Definition UACPI_UPDATE_RULE_WRITE_AS_ZEROES : Z := 2.

(** The part of [uacpi_field_unit] that does not depend on its kind; regions
    are nodes of the namespace, by number. *)
Record field_attrs := FieldAttrs {
  f_byte_offset : Z;
  f_bit_length : Z;
  f_bit_offset_within_first_byte : Z;
  f_access_width_bytes : Z;
  f_access_length : Z;
  f_attributes : Z;
  f_update_rule : Z;
  f_lock_rule : bool;
}.

Inductive uacpi_field_unit :=
  | FIELD_UNIT_NORMAL (a : field_attrs) (region : nat)
  | FIELD_UNIT_INDEX (a : field_attrs) (idx data : uacpi_field_unit)
  | FIELD_UNIT_BANK (a : field_attrs) (bank_region : nat)
      (bank_selection : uacpi_field_unit) (bank_value : Z)
  | FIELD_UNIT_OTHER (a : field_attrs) (region : nat).

Definition attrs (field : uacpi_field_unit) : field_attrs :=
  match field with
  | FIELD_UNIT_NORMAL a _ | FIELD_UNIT_INDEX a _ _
  | FIELD_UNIT_BANK a _ _ _ | FIELD_UNIT_OTHER a _ => a
  end.

(** [union uacpi_opregion_io_data], with the memory it points to: the eight
    bytes of a [uacpi_u64], or a buffer. *)
Inductive uacpi_opregion_io_data :=
  | IO_INTEGER (integer : list Z)
  | IO_BUFFER (buffer : list Z).

(** The bytes of a [w]-byte little-endian integer. *)
Fixpoint to_le (w : nat) (v : Z) : list Z :=
  match w with O => [] | S w' => u8 v :: to_le w' (Z.shiftr v 8) end.

(** What the fields need from the rest of uACPI. *)
Class RegionIo (St : Type) := {
  uacpi_dispatch_opregion_io :
    uacpi_field_unit -> Z -> uacpi_region_op -> uacpi_opregion_io_data ->
    M St (uacpi_status * uacpi_opregion_io_data);
  acquire_global_mutex : M St uacpi_status;
  release_global_mutex : M St unit;
  (** the address space of a region's object, if the node still has one *)
  region_space : nat -> M St (option Z);
  kernel_alloc : Z -> M St bool;
  (** the contents of an uninitialised [uacpi_u64] *)
  uninit : list Z;
}.

Definition SERIAL_HEADER_SIZE : Z := 2.
Definition IPMI_DATA_SIZE : Z := 64.

Definition size_for_protocol (a : field_attrs) : option Z :=
  let s := SERIAL_HEADER_SIZE in
  let attr := f_attributes a in
  if attr =? 2 then Some s
  else if (attr =? 4) || (attr =? 6) then Some (s + 1)
  else if (attr =? 8) || (attr =? 12) then Some (s + 2)
  else if attr =? 11 then Some (s + f_access_length a)
  else if (attr =? 10) || (attr =? 13) || (attr =? 14) || (attr =? 15) then Some (s + 255)
  else None.

Definition wtr_buffer_size (a : field_attrs) (space : Z) : uacpi_status * Z :=
  if space =? UACPI_ADDRESS_SPACE_IPMI
  then (UACPI_STATUS_OK, SERIAL_HEADER_SIZE + IPMI_DATA_SIZE)
  else if space =? UACPI_ADDRESS_SPACE_PRM then (UACPI_STATUS_OK, 26)
  else if space =? UACPI_ADDRESS_SPACE_FFIXEDHW then (UACPI_STATUS_OK, 256)
  else if (space =? UACPI_ADDRESS_SPACE_GENERIC_SERIAL_BUS) || (space =? UACPI_ADDRESS_SPACE_SMBUS)
  then match size_for_protocol a with
       | Some n => (UACPI_STATUS_OK, n) | None => (UACPI_STATUS_UNIMPLEMENTED, 0) end
  else (UACPI_STATUS_INVALID_ARGUMENT, 0).

Section FieldIo.
Context {St : Type} `{RegionIo St}.

(** An access of one field unit: [access_field_unit(field, ...)]. *)
Abbreviation accessor :=
  (Z -> uacpi_region_op -> uacpi_opregion_io_data -> M St (uacpi_status * uacpi_opregion_io_data)).

(** Whether the field was handled, the status, the caller's buffer and the
    write-then-read response after the call. *)
Abbreviation special := (bool * uacpi_status * list Z * option (list Z))%type.

Definition handle_gpio (access : accessor) (buf : list Z) (len : Z) (op : uacpi_region_op)
    : M St special :=
  in_out ← liftO (if bool_decide (op = UACPI_REGION_OP_WRITE)
                  then uacpi_memcpy_zerout uninit 0 buf 0 8 len else Some uninit);
  '(ret, data) ← access 0 op (IO_INTEGER in_out);
  if negb (is_ok ret) then mret (true, ret, buf, None) else
  match data with
  | IO_BUFFER _ => ub
  | IO_INTEGER in_out =>
      buf ← liftO (if bool_decide (op = UACPI_REGION_OP_READ)
                   then uacpi_memcpy_zerout buf 0 in_out 0 len 8 else Some buf);
      mret (true, ret, buf, None)
  end.

(** The write-then-read buffer is handed back when the caller asked for it. *)
Definition do_wtr (access : accessor) (a : field_attrs) (space : Z) (buf : list Z) (len : Z)
    (op : uacpi_region_op) (want_response : bool) : M St special :=
  let '(ret, n) := wtr_buffer_size a space in
  if negb (is_ok ret) then mret (true, ret, buf, None) else
  ok ← kernel_alloc n;
  if negb ok then mret (true, UACPI_STATUS_OUT_OF_MEMORY, buf, None) else
  wtr ← liftO (uacpi_memcpy_zerout (replicate (Z.to_nat n) 0) 0 buf 0 n len);
  '(ret, data) ← access (f_byte_offset a) op (IO_BUFFER wtr);
  if negb (is_ok ret) then mret (true, ret, buf, None) else
  match data with
  | IO_INTEGER _ => ub
  | IO_BUFFER wtr => mret (true, ret, buf, if want_response then Some wtr else None)
  end.

Definition handle_special_field (access : accessor) (field : uacpi_field_unit) (buf : list Z)
    (len : Z) (op : uacpi_region_op) (want_response : bool) : M St special :=
  match field with
  | FIELD_UNIT_INDEX _ _ _ => mret (false, UACPI_STATUS_OK, buf, None)
  | FIELD_UNIT_NORMAL a r | FIELD_UNIT_BANK a r _ _ | FIELD_UNIT_OTHER a r =>
      space ← region_space r;
      match space with
      | None => mret (true, UACPI_STATUS_INVALID_ARGUMENT, buf, None)
      | Some space =>
          if space =? UACPI_ADDRESS_SPACE_GENERAL_PURPOSE_IO then handle_gpio access buf len op
          else if (space =? UACPI_ADDRESS_SPACE_IPMI) || (space =? UACPI_ADDRESS_SPACE_PRM) then
            if bool_decide (op = UACPI_REGION_OP_READ)
            then mret (true, UACPI_STATUS_AML_INCOMPATIBLE_OBJECT_TYPE, buf, None)
            else do_wtr access a space buf len op want_response
          else if (space =? UACPI_ADDRESS_SPACE_FFIXEDHW)
               || (space =? UACPI_ADDRESS_SPACE_GENERIC_SERIAL_BUS)
               || (space =? UACPI_ADDRESS_SPACE_SMBUS)
          then do_wtr access a space buf len op want_response
          else mret (false, UACPI_STATUS_OK, buf, None)
      end
  end.

(** ** Reads *)

(** One read access: the eight bytes of [data.integer] after it. *)
Definition read_access (access : accessor) (offset : Z) (out : list Z)
    : M St (uacpi_status * list Z) :=
  '(ret, data) ← access offset UACPI_REGION_OP_READ (IO_INTEGER out);
  match data with IO_INTEGER out => mret (ret, out) | IO_BUFFER _ => ub end.

(** [while (reads_to_do-- > 0)] *)
Fixpoint read_loop (access : accessor) (a : field_attrs) (reads_to_do : nat)
    (byte_offset bits_left src_index : Z) (out : list Z) (dst_span : bit_span)
    : M St (uacpi_status * list Z) :=
  match reads_to_do with
  | O => mret (UACPI_STATUS_OK, span_data dst_span)
  | S n =>
      let width_access_bits := u8 (f_access_width_bytes a * 8) in
      let src_length := Z.min bits_left (u64 (width_access_bits - src_index)) in
      '(ret, out) ← read_access access byte_offset out;
      if negb (is_ok ret) then mret (ret, span_data dst_span) else
      dst ← liftO (bit_copy dst_span (BitSpan out src_index src_length));
      let dst_span := BitSpan dst (index dst_span) (span_length dst_span) in
      read_loop access a n (u32 (byte_offset + f_access_width_bytes a))
        (u32 (bits_left - src_length)) 0 out (snd (bit_span_offset dst_span src_length))
  end.

Definition do_read_misaligned_field_unit (access : accessor) (a : field_attrs) (dst : list Z)
    (size : Z) : M St (uacpi_status * list Z) :=
  let width_access_bits := u8 (f_access_width_bytes a * 8) in
  let reads_to_do :=
    UACPI_ALIGN_UP 32 (f_bit_offset_within_first_byte a + f_bit_length a) width_access_bits
    / width_access_bits in
  read_loop access a (Z.to_nat reads_to_do) (f_byte_offset a) (f_bit_length a)
    (f_bit_offset_within_first_byte a) uninit (BitSpan dst 0 (u64 (size * 8))).

(** [uacpi_read_field_unit(field, dst, size, wtr_response)]: the status, the
    destination and the response. *)
Definition read_field_unit_with (access : accessor) (field : uacpi_field_unit) (dst : list Z)
    (size : Z) (want_response : bool) : M St (uacpi_status * list Z * option (list Z)) :=
  '(did_handle, ret, dst, wtr) ←
    handle_special_field access field dst size UACPI_REGION_OP_READ want_response;
  if (did_handle : bool) then mret (ret, dst, wtr) else
  let a := attrs field in
  let field_byte_length := u32 (uacpi_round_up_bits_to_bytes (f_bit_length a)) in
  if (f_bit_offset_within_first_byte a =? 0)
     && (field_byte_length <=? f_access_width_bytes a)
  then
    '(ret, out) ← read_access access (f_byte_offset a) uninit;
    if negb (is_ok ret) then mret (ret, dst, None) else
    dst ← liftO (uacpi_memcpy_zerout dst 0 out 0 size field_byte_length);
    dst ← liftO (if field_byte_length <=? size
                 then cut_misaligned_tail dst (Z.to_nat (u32 (field_byte_length - 1)))
                        (f_bit_length a)
                 else Some dst);
    mret (UACPI_STATUS_OK, dst, None)
  else
    '(ret, dst) ← do_read_misaligned_field_unit access a dst size;
    mret (ret, dst, None).

(** ** Writes *)

(** The contents the access starts from, by the update rule; only accesses
    that do not replace the whole unit ask. *)
Definition initial_unit (access : accessor) (a : field_attrs) (byte_offset dst_index dst_length : Z)
    : M St (uacpi_status * list Z) :=
  let width_access_bits := u8 (f_access_width_bytes a * 8) in
  let zero := to_le 8 0 in
  if truthy dst_index || (dst_length <? width_access_bits) then
    if f_update_rule a =? UACPI_UPDATE_RULE_PRESERVE then read_access access byte_offset zero
    else if f_update_rule a =? UACPI_UPDATE_RULE_WRITE_AS_ONES
         then mret (UACPI_STATUS_OK, to_le 8 (u64 (Z.lnot 0)))
    else if f_update_rule a =? UACPI_UPDATE_RULE_WRITE_AS_ZEROES
         then mret (UACPI_STATUS_OK, zero)
    else mret (UACPI_STATUS_INVALID_ARGUMENT, zero)
  else mret (UACPI_STATUS_OK, zero).

(** [while (bits_left)]; each turn writes at least a bit, so [bits_left] turns
    are enough. *)
Fixpoint write_loop (fuel : nat) (access : accessor) (a : field_attrs)
    (byte_offset bits_left dst_index : Z) (src_span : bit_span) : M St uacpi_status :=
  if bits_left =? 0 then mret UACPI_STATUS_OK else
  match fuel with
  | O => ub
  | S n =>
      let width_access_bits := u8 (f_access_width_bytes a * 8) in
      let dst_length := Z.min (u64 (width_access_bits - dst_index)) bits_left in
      '(ret, in_) ← initial_unit access a byte_offset dst_index dst_length;
      if negb (is_ok ret) then mret ret else
      in_ ← liftO (bit_copy (BitSpan in_ dst_index dst_length) src_span);
      let src_span := snd (bit_span_offset src_span dst_length) in
      '(ret, _) ← access byte_offset UACPI_REGION_OP_WRITE (IO_INTEGER in_);
      if negb (is_ok ret) then mret ret else
      write_loop n access a (u32 (byte_offset + f_access_width_bytes a))
        (u32 (bits_left - dst_length)) 0 src_span
  end.

Definition write_generic_field_unit (access : accessor) (a : field_attrs) (src : list Z)
    (size : Z) : M St uacpi_status :=
  write_loop (Z.to_nat (f_bit_length a)) access a (f_byte_offset a) (f_bit_length a)
    (f_bit_offset_within_first_byte a) (BitSpan src 0 (u64 (size * 8))).

Definition write_field_unit_with (access : accessor) (field : uacpi_field_unit) (src : list Z)
    (size : Z) (want_response : bool) : M St (uacpi_status * option (list Z)) :=
  '(did_handle, ret, _, wtr) ←
    handle_special_field access field src size UACPI_REGION_OP_WRITE want_response;
  if (did_handle : bool) then mret (ret, wtr)
  else ret ← write_generic_field_unit access (attrs field) src size; mret (ret, None).

(** ** Accesses of a field unit

    [access_field_unit] and the reads and writes call each other along the
    tree of field units. *)

Fixpoint access_field_unit (field : uacpi_field_unit) (offset : Z) (op : uacpi_region_op)
    (data : uacpi_opregion_io_data) {struct field}
    : M St (uacpi_status * uacpi_opregion_io_data) :=
  let do_access : M St (uacpi_status * uacpi_opregion_io_data) :=
    match field with
    | FIELD_UNIT_NORMAL _ _ => uacpi_dispatch_opregion_io field offset op data
    | FIELD_UNIT_BANK _ _ sel v =>
        '(ret, _) ← write_field_unit_with (access_field_unit sel) sel (to_le 8 v) 8 false;
        if negb (is_ok ret) then mret (ret, data)
        else uacpi_dispatch_opregion_io field offset op data
    | FIELD_UNIT_INDEX a idx dat =>
        '(ret, _) ← write_field_unit_with (access_field_unit idx) idx (to_le 4 offset) 4 false;
        if negb (is_ok ret) then mret (ret, data) else
        match data, op with
        | IO_INTEGER v, UACPI_REGION_OP_READ =>
            '(ret, v, _) ← read_field_unit_with (access_field_unit dat) dat v
                             (f_access_width_bytes a) false;
            mret (ret, IO_INTEGER v)
        | IO_INTEGER v, UACPI_REGION_OP_WRITE =>
            '(ret, _) ← write_field_unit_with (access_field_unit dat) dat v
                          (f_access_width_bytes a) false;
            mret (ret, data)
        | _, UACPI_REGION_OP_READ | _, UACPI_REGION_OP_WRITE => ub
        | _, _ => mret (UACPI_STATUS_INVALID_ARGUMENT, data)
        end
    | FIELD_UNIT_OTHER _ _ => mret (UACPI_STATUS_INVALID_ARGUMENT, data)
    end in
  if f_lock_rule (attrs field) then
    ret ← acquire_global_mutex;
    if negb (is_ok ret) then mret (ret, data)
    else r ← do_access; _ ← release_global_mutex; mret r
  else do_access.

Definition uacpi_read_field_unit (field : uacpi_field_unit) (dst : list Z) (size : Z)
    (want_response : bool) : M St (uacpi_status * list Z * option (list Z)) :=
  read_field_unit_with (access_field_unit field) field dst size want_response.

Definition uacpi_write_field_unit (field : uacpi_field_unit) (src : list Z) (size : Z)
    (want_response : bool) : M St (uacpi_status * option (list Z)) :=
  write_field_unit_with (access_field_unit field) field src size want_response.

(** ** The type and length a read has *)

Definition uacpi_is_buffer_access_address_space (space : Z) : bool :=
  (space =? UACPI_ADDRESS_SPACE_SMBUS) || (space =? UACPI_ADDRESS_SPACE_IPMI)
  || (space =? UACPI_ADDRESS_SPACE_GENERIC_SERIAL_BUS) || (space =? UACPI_ADDRESS_SPACE_FFIXEDHW)
  || (space =? UACPI_ADDRESS_SPACE_PRM).

(** The region of a field that has one of its own. *)
Definition own_region (field : uacpi_field_unit) : option nat :=
  match field with
  | FIELD_UNIT_INDEX _ _ _ => None
  | FIELD_UNIT_NORMAL _ r | FIELD_UNIT_BANK _ r _ _ | FIELD_UNIT_OTHER _ r => Some r
  end.

(** What [_get_read_type] and [_get_bit_length] share: [None] on a deleted
    region, else whether the field is accessed through a buffer protocol. *)
Definition buffer_access (field : uacpi_field_unit) : M St (option bool) :=
  match own_region field with
  | None => mret (Some false)
  | Some r => space ← region_space r; mret (uacpi_is_buffer_access_address_space <$> space)
  end.

(** [Some true] is [UACPI_OBJECT_BUFFER], [Some false] is [.._INTEGER]. *)
Definition uacpi_field_unit_get_read_type (is_rev1 : bool) (field : uacpi_field_unit)
    : M St (uacpi_status * option bool) :=
  b ← buffer_access field;
  match b with
  | None => mret (UACPI_STATUS_INVALID_ARGUMENT, None)
  | Some true => mret (UACPI_STATUS_OK, Some true)
  | Some false =>
      mret (UACPI_STATUS_OK, Some ((if is_rev1 then 32 else 64) <? f_bit_length (attrs field)))
  end.

Definition uacpi_field_unit_get_bit_length (field : uacpi_field_unit)
    : M St (uacpi_status * option Z) :=
  b ← buffer_access field;
  match b with
  | None => mret (UACPI_STATUS_INVALID_ARGUMENT, None)
  | Some true => mret (UACPI_STATUS_OK, Some 0)
  | Some false => mret (UACPI_STATUS_OK, Some (f_bit_length (attrs field)))
  end.
End FieldIo.
