(* ===== verification/FieldIoSpec.v ===== *)
(** * Fields over memory-like regions: theorems about [FieldIo]

    The contract of a region that behaves as memory, and what reads and
    writes of field units do over any region that meets it: which bits move,
    what the update rules do to the others, and the round trip. *)
From S2P Require Import Prelude Status UStd BitIo FieldIo.

(** ** Bits of overwritten buffers *)

Lemma buf_bit_write_at b i t j :
  (i + length t <= length b)%nat -> 0 <= j ->
  buf_bit (write_at b i t) j
  = if (8 * Z.of_nat i <=? j) && (j <? 8 * Z.of_nat (i + length t))
    then buf_bit t (j - 8 * Z.of_nat i) else buf_bit b j.
Proof.
  intros Hl Hj. unfold buf_bit. assert (0 <= j / 8) by (apply Z.div_pos; lia).
  rewrite lookup_write_at by done.
  destruct (Z.leb_spec (8 * Z.of_nat i) j), (Z.ltb_spec j (8 * Z.of_nat (i + length t)));
    cbn [andb]; [|rewrite bool_decide_false by (Z.div_mod_to_equations; lia); done..].
  rewrite bool_decide_true by (Z.div_mod_to_equations; lia).
  replace (Z.to_nat ((j - 8 * Z.of_nat i) / 8)) with (Z.to_nat (j / 8) - i)%nat
    by (Z.div_mod_to_equations; lia).
  by replace ((j - 8 * Z.of_nat i) mod 8) with (j mod 8) by (Z.div_mod_to_equations; lia).
Qed.

Lemma buf_bit_drop b n i :
  0 <= i -> buf_bit (drop n b) i = buf_bit b (8 * Z.of_nat n + i).
Proof.
  intros Hi. unfold buf_bit. rewrite lookup_drop.
  replace (Z.to_nat ((8 * Z.of_nat n + i) / 8)) with (n + Z.to_nat (i / 8))%nat
    by (Z.div_mod_to_equations; lia).
  by replace ((8 * Z.of_nat n + i) mod 8) with (i mod 8) by (Z.div_mod_to_equations; lia).
Qed.

Lemma buf_bit_app_l a b i :
  0 <= i < buf_bits a -> buf_bit (a ++ b) i = buf_bit a i.
Proof.
  unfold buf_bits, buf_bit. intros Hi.
  rewrite lookup_app_l by (Z.div_mod_to_equations; lia). done.
Qed.

Lemma is_bytes_write_at b i t :
  is_bytes b -> is_bytes t -> (i + length t <= length b)%nat -> is_bytes (write_at b i t).
Proof.
  intros Hb Ht Hl. unfold write_at, is_bytes. apply Forall_app. split; [by apply Forall_take|].
  apply Forall_app. split; [done|]. by apply Forall_drop.
Qed.

Lemma to_le_bytes w v : is_bytes (to_le w v).
Proof.
  revert v. induction w as [|w IH]; intros v; cbn [to_le]; constructor;
    [auto with cint | apply IH].
Qed.

Lemma length_to_le w v : length (to_le w v) = w.
Proof. revert v. induction w as [|w IH]; intros v; simpl; auto. Qed.
#[export] Hint Resolve to_le_bytes is_bytes_write_at : cint.

(** The bits of an integer's bytes are the integer's. *)
Lemma buf_bit_to_le w v i :
  0 <= i < 8 * Z.of_nat w -> buf_bit (to_le w v) i = Z.testbit v i.
Proof.
  revert v i. induction w as [|w IH]; intros v i Hi; [lia|].
  cbn [to_le]. rewrite buf_bit_cons by lia. destruct (Z.ltb_spec i 8).
  - rewrite wrap_testbit by lia. by rewrite (proj2 (Z.ltb_lt i 8)).
  - rewrite IH, Z.shiftr_spec by lia. f_equal. lia.
Qed.

(** ** A region that behaves as memory *)

(** The copy and cut of a field read in one access. *)
Lemma fast_copy dst out size n :
  is_bytes dst -> is_bytes out -> length out = 8%nat -> 0 <= size <= Z.of_nat (length dst) ->
  size < 2 ^ 32 -> 0 < n < 2 ^ 31 -> (n + 7) / 8 <= 8 ->
  let fbl := (n + 7) / 8 in
  exists d1 d2, uacpi_memcpy_zerout dst 0 out 0 size fbl = Some d1 /\
    (if fbl <=? size then cut_misaligned_tail d1 (Z.to_nat (u32 (fbl - 1))) n else Some d1)
      = Some d2 /\
    is_bytes d2 /\ length d2 = length dst /\
    forall j, 0 <= j -> buf_bit d2 j = if j <? 8 * size then copied out 0 n j else buf_bit dst j.
Proof.
  intros Hdb Hob Hol Hds Hs32 Hn Hfbl8 fbl.
  assert (Hfbl : 0 < fbl /\ n <= 8 * fbl < n + 8) by (unfold fbl; Z.div_mod_to_equations; lia).
  destruct (zerout_bits dst 0 out fbl size) as (d1 & -> & Hb1 & Hl1 & H1); try done; try lia.
  change (8 * Z.of_nat 0) with 0 in H1. cbv zeta in H1. exists d1.
  destruct (Z.leb_spec fbl size) as [Hle|Hgt].
  - destruct (cut_tail_spec d1 n Hb1) as (d2 & Hcut & Hb2 & Hl2 & H2); [lia|fold fbl; lia|].
    fold fbl in Hcut, H2. exists d2.
    replace (u32 (fbl - 1)) with (u64 (fbl - 1)) by (rewrite u32_small, u64_small by lia; done).
    repeat split; try done; try congruence. intros j Hj. rewrite H2, H1, Z.sub_0_r by done.
    rewrite (proj2 (Z.leb_le 0 j) Hj). cbn [andb]. unfold copied.
    destruct (Z.leb_spec n j), (Z.ltb_spec j (8 * fbl)), (Z.ltb_spec j (8 * size)),
      (Z.ltb_spec j n); try lia; done.
  - exists d1. repeat split; try done. intros j Hj. rewrite H1, Z.sub_0_r by done.
    rewrite (proj2 (Z.leb_le 0 j) Hj). cbn [andb]. unfold copied.
    destruct (Z.ltb_spec j (8 * fbl)), (Z.ltb_spec j (8 * size)), (Z.ltb_spec j n); try lia; done.
Qed.

Section Memory.
Context {St : Type} `{RegionIo St}.

(** [field] is a plain field of a region whose contents are [mem]: an access
    inside the region succeeds and moves the bytes of the access, nothing
    else. *)
Record mem_backed (field : uacpi_field_unit) (mem : St -> list Z) : Prop := {
  mb_plain : exists a r, field = FIELD_UNIT_NORMAL a r /\ f_lock_rule a = false /\
    forall s, exists space, region_space r s = Some (Some space, s) /\
      space <> UACPI_ADDRESS_SPACE_GENERAL_PURPOSE_IO /\
      uacpi_is_buffer_access_address_space space = false;
  mb_uninit : is_bytes uninit /\ length uninit = 8%nat;
  mb_bytes : forall s, is_bytes (mem s);
  mb_read : forall s (off : nat) d,
    let w := Z.to_nat (f_access_width_bytes (attrs field)) in
    (off + w <= length (mem s))%nat ->
    uacpi_dispatch_opregion_io field (Z.of_nat off) UACPI_REGION_OP_READ (IO_INTEGER d) s
    = Some ((UACPI_STATUS_OK,
             IO_INTEGER (take w (drop off (mem s)) ++ replicate (8 - w) 0)), s);
  mb_write : forall s (off : nat) d,
    let w := Z.to_nat (f_access_width_bytes (attrs field)) in
    (off + w <= length (mem s))%nat -> is_bytes d -> length d = 8%nat ->
    exists s', uacpi_dispatch_opregion_io field (Z.of_nat off) UACPI_REGION_OP_WRITE
        (IO_INTEGER d) s = Some ((UACPI_STATUS_OK, IO_INTEGER d), s') /\
      mem s' = write_at (mem s) off (take w d);
}.

(** The access width is one the hardware has. *)
Definition width_ok (a : field_attrs) : Prop :=
  let w := f_access_width_bytes a in w = 1 \/ w = 2 \/ w = 4 \/ w = 8.

Definition unit_bits (a : field_attrs) : Z := 8 * f_access_width_bytes a.

(** The accesses from byte [bo] on that cover [n] bits from bit [i] of the
    first one: their number, and that they lie in memory. *)
Definition units (a : field_attrs) (i n : Z) : Z := (i + n + unit_bits a - 1) / unit_bits a.

Definition in_memory (a : field_attrs) (m : list Z) (bo i n : Z) : Prop :=
  0 <= bo /\ bo + units a i n * f_access_width_bytes a <= Z.of_nat (length m) < 2 ^ 32.

Lemma width_cases a :
  width_ok a -> u8 (f_access_width_bytes a * 8) = unit_bits a /\
  (f_access_width_bytes a = 1 \/ f_access_width_bytes a = 2 \/
   f_access_width_bytes a = 4 \/ f_access_width_bytes a = 8).
Proof. unfold width_ok, unit_bits. intros [->|[->|[->| ->]]]; vm_compute; auto. Qed.

Context (field : uacpi_field_unit) (mem : St -> list Z) (Hmem : mem_backed field mem).
Let a := attrs field.
Hypothesis Hw : width_ok a.

Lemma access_plain offset op data s :
  access_field_unit field offset op data s = uacpi_dispatch_opregion_io field offset op data s.
Proof.
  destruct Hmem as [(a0 & r & -> & Hl & _) _ _ _ _]. cbn [access_field_unit attrs].
  by rewrite Hl.
Qed.

(** A read access of the memory. *)
Lemma read_access_mem s (off : nat) d :
  (off + Z.to_nat (f_access_width_bytes a) <= length (mem s))%nat ->
  exists out, read_access (access_field_unit field) (Z.of_nat off) d s
      = Some ((UACPI_STATUS_OK, out), s) /\
    is_bytes out /\ length out = 8%nat /\
    forall i, 0 <= i < unit_bits a -> buf_bit out i = buf_bit (mem s) (8 * Z.of_nat off + i).
Proof.
  intros Hoff. assert (Hb := mb_bytes field mem Hmem s).
  destruct (width_cases a Hw) as [_ Hc]. unfold unit_bits.
  eexists. split; [|split; [|split]].
  - unfold read_access. mstep. rewrite access_plain, (mb_read field mem Hmem) by exact Hoff. done.
  - apply Forall_app. split; [by apply Forall_take, Forall_drop|].
    apply Forall_replicate. lia.
  - rewrite length_app, length_take, length_drop, length_replicate. fold a. lia.
  - intros i Hi. fold a. rewrite buf_bit_app_l.
    + rewrite buf_bit_take, (proj2 (Z.ltb_lt _ _)), buf_bit_drop by lia. done.
    + unfold buf_bits. rewrite length_take, length_drop. lia.
Qed.

(** A write access: the bits of one unit of the memory. *)
Lemma write_access_mem s (off : nat) d :
  (off + Z.to_nat (f_access_width_bytes a) <= length (mem s))%nat ->
  is_bytes d -> length d = 8%nat ->
  exists s', access_field_unit field (Z.of_nat off) UACPI_REGION_OP_WRITE (IO_INTEGER d) s
      = Some ((UACPI_STATUS_OK, IO_INTEGER d), s') /\
    length (mem s') = length (mem s) /\
    forall i, 0 <= i -> buf_bit (mem s') i =
      if (8 * Z.of_nat off <=? i) && (i <? 8 * Z.of_nat off + unit_bits a)
      then buf_bit d (i - 8 * Z.of_nat off) else buf_bit (mem s) i.
Proof.
  intros Hoff Hd Hl. destruct (width_cases a Hw) as [_ Hc].
  destruct (mb_write field mem Hmem s off d Hoff Hd Hl) as (s' & Hrun & Hs').
  fold a in Hs'. set (w := Z.to_nat (f_access_width_bytes a)) in *.
  assert (Ht : length (take w d) = w) by (rewrite length_take; lia).
  exists s'. split; [by rewrite access_plain|]. rewrite Hs'.
  split; [apply length_write_at; lia|]. intros i Hi.
  rewrite buf_bit_write_at, Ht by lia. unfold unit_bits.
  replace (8 * Z.of_nat (off + w)) with (8 * Z.of_nat off + 8 * f_access_width_bytes a) by lia.
  destruct (Z.leb_spec (8 * Z.of_nat off) i),
    (Z.ltb_spec i (8 * Z.of_nat off + 8 * f_access_width_bytes a)); cbn [andb]; try done.
  rewrite buf_bit_take, (proj2 (Z.ltb_lt _ _)) by lia. done.
Qed.

(** ** Writes *)

(** What the update rule makes of a bit beside the field. *)
Definition fill (a : field_attrs) (old : bool) : bool :=
  if f_update_rule a =? UACPI_UPDATE_RULE_PRESERVE then old
  else f_update_rule a =? UACPI_UPDATE_RULE_WRITE_AS_ONES.

Definition rule_ok (a : field_attrs) : Prop :=
  let r := f_update_rule a in
  r = UACPI_UPDATE_RULE_PRESERVE \/ r = UACPI_UPDATE_RULE_WRITE_AS_ONES \/
  r = UACPI_UPDATE_RULE_WRITE_AS_ZEROES.

Lemma const_unit_bit (b : bool) i :
  0 <= i < 64 -> buf_bit (to_le 8 (if b then u64 (Z.lnot 0) else 0)) i = b.
Proof.
  intros Hi. rewrite buf_bit_to_le by lia. destruct b; [|apply Z.bits_0].
  rewrite wrap_testbit, Z.lnot_spec, Z.bits_0 by lia. by rewrite (proj2 (Z.ltb_lt i 64)) by lia.
Qed.

Lemma initial_unit_spec s (off : nat) i n :
  rule_ok a -> (off + Z.to_nat (f_access_width_bytes a) <= length (mem s))%nat ->
  exists in_, initial_unit (access_field_unit field) a (Z.of_nat off) i n s
      = Some ((UACPI_STATUS_OK, in_), s) /\
    is_bytes in_ /\ length in_ = 8%nat /\
    (i <> 0 \/ n < unit_bits a -> forall j, 0 <= j < unit_bits a ->
       buf_bit in_ j = fill a (buf_bit (mem s) (8 * Z.of_nat off + j))).
Proof.
  intros Hr Hoff. destruct (width_cases a Hw) as [Hu Hc]. unfold initial_unit. rewrite Hu.
  unfold truthy. destruct (negb (i =? 0) || (n <? unit_bits a)) eqn:E.
  2: { exists (to_le 8 0). repeat split; auto with cint. intros Hi. exfalso. lia. }
  unfold fill. destruct Hr as [Er|[Er|Er]]; rewrite Er.
  - destruct (read_access_mem s off (to_le 8 0) Hoff) as (out & Hrun & Hb & Hl & H0).
    exists out. by repeat split.
  - exists (to_le 8 (u64 (Z.lnot 0))). repeat split; auto with cint.
    intros _ j Hj. apply (const_unit_bit true). unfold unit_bits in Hj. lia.
  - exists (to_le 8 0). repeat split; auto with cint.
    intros _ j Hj. apply (const_unit_bit false). unfold unit_bits in Hj. lia.
Qed.

(** The bits of the memory after a write of [n] bits from bit [i] of byte
    [bo] on. *)
Definition written (m src : list Z) (bo i n q sl : Z) (j : Z) : bool :=
  let k := j - (8 * bo + i) in
  if (0 <=? k) && (k <? n) then copied src q sl k
  else if (8 * bo <=? j) && (j <? 8 * bo + units a i n * unit_bits a)
       then fill a (buf_bit m j) else buf_bit m j.

(** The part of the first unit the field covers, and what is left after it. *)
Lemma units_step i n :
  0 <= i < unit_bits a -> 0 < n ->
  let m := Z.min (unit_bits a - i) n in
  0 < m /\ i + m <= unit_bits a /\ (n = m \/ i + m = unit_bits a) /\
  units a i n = 1 + units a 0 (n - m).
Proof.
  intros Hi Hn m. unfold units. repeat split; try lia.
  destruct (decide (unit_bits a - i <= n)).
  - replace m with (unit_bits a - i) by lia.
    replace (i + n + unit_bits a - 1)
      with (0 + (n - (unit_bits a - i)) + unit_bits a - 1 + 1 * unit_bits a) by lia.
    rewrite Z.div_add by lia. lia.
  - replace (n - m) with 0 by lia. rewrite (Z.div_small (0 + 0 + _ - 1)) by lia.
    replace (i + n + unit_bits a - 1) with (i + n - 1 + 1 * unit_bits a) by lia.
    rewrite Z.div_add by lia. rewrite Z.div_small by lia. lia.
Qed.

Lemma units_nonneg i n : 0 <= i -> 0 <= n -> 0 <= units a i n.
Proof.
  intros Hi Hn. unfold units. destruct (width_cases a Hw) as [_ Hc]. unfold unit_bits.
  apply Z.div_pos; lia.
Qed.

(** Splitting a write after its first unit. *)
Lemma written_step m m' src bo i n q sl :
  0 <= i < unit_bits a -> 0 < n ->
  let d := Z.min (unit_bits a - i) n in
  (forall j, 0 <= j -> buf_bit m' j =
     if (8 * bo <=? j) && (j <? 8 * bo + unit_bits a)
     then if (i <=? j - 8 * bo) && (j - 8 * bo <? i + d) then copied src q sl (j - 8 * bo - i)
          else fill a (buf_bit m j)
     else buf_bit m j) ->
  forall j, 0 <= bo -> 0 <= j ->
  written m' src (bo + f_access_width_bytes a) 0 (n - d) (q + Z.min sl d) (sl - Z.min sl d) j
  = written m src bo i n q sl j.
Proof.
  intros Hi Hn d Hm' j Hbo Hj. destruct (units_step i n Hi Hn) as (Hd & Hid & Hsplit & Hu).
  fold d in Hd, Hid, Hsplit, Hu. unfold written. rewrite Hu.
  assert (HU := units_nonneg 0 (n - d) ltac:(lia) ltac:(lia)).
  set (U := units a 0 (n - d)) in *.
  assert (HW : unit_bits a = 8 * f_access_width_bytes a) by done.
  assert (HUW : 0 <= U * unit_bits a) by nia.
  replace ((1 + U) * unit_bits a) with (unit_bits a + U * unit_bits a) by lia.
  replace (8 * (bo + f_access_width_bytes a)) with (8 * bo + unit_bits a) by lia.
  set (V := U * unit_bits a) in *. clearbody V.
  rewrite Hm' by done.
  assert (Hcopy : forall k, 0 <= k -> copied src (q + Z.min sl d) (sl - Z.min sl d) k
    = copied src q sl (k + d)).
  { intros k Hk. unfold copied.
    destruct (Z.ltb_spec k (sl - Z.min sl d)), (Z.ltb_spec (k + d) sl); try lia.
    cbn [andb]. f_equal. lia. }
  destruct (decide (j - (8 * bo + i) < d)) as [Hlt|Hge].
  - (* before the second unit's share *)
    destruct (Z.leb_spec 0 (j - (8 * bo + unit_bits a + 0))); [lia|]. cbn [andb].
    destruct (Z.leb_spec 0 (j - (8 * bo + i))), (Z.ltb_spec (j - (8 * bo + i)) n);
      cbn [andb]; try lia.
    + by cmp_cases; cbn [andb]; f_equal; lia.
    + by cmp_cases.
  - destruct (Z.leb_spec 0 (j - (8 * bo + i))); [|lia]. cbn [andb].
    destruct (Z.ltb_spec (j - (8 * bo + i)) n).
    + destruct Hsplit as [Hnd|Hsp]; [lia|].
      destruct (Z.leb_spec 0 (j - (8 * bo + unit_bits a + 0))); [|lia].
      destruct (Z.ltb_spec (j - (8 * bo + unit_bits a + 0)) (n - d)); [|lia]. cbn [andb].
      rewrite Hcopy by lia. f_equal. lia.
    + destruct (Z.leb_spec 0 (j - (8 * bo + unit_bits a + 0))),
        (Z.ltb_spec (j - (8 * bo + unit_bits a + 0)) (n - d)); try lia; cbn [andb];
      destruct (Z.leb_spec (8 * bo) j), (Z.ltb_spec j (8 * bo + unit_bits a)),
        (Z.ltb_spec j (8 * bo + unit_bits a + V)),
        (Z.ltb_spec j (8 * bo + (unit_bits a + V))),
        (Z.leb_spec (8 * bo + unit_bits a) j); try lia; cbn [andb]; try done; by cmp_cases.
Qed.

(** A caller's buffer, seen as a span. *)
Definition span_ok (sp : bit_span) : Prop :=
  is_bytes (span_data sp) /\ 0 <= index sp /\ 0 <= span_length sp /\
  index sp + span_length sp <= buf_bits (span_data sp) /\ buf_bits (span_data sp) < 2 ^ 64.

(** One turn's write: the first unit, with the field's bits replaced. *)
Lemma write_turn s (off : nat) i n sp :
  rule_ok a -> 0 <= i < unit_bits a -> 0 < n -> span_ok sp ->
  (off + Z.to_nat (f_access_width_bytes a) <= length (mem s))%nat ->
  let d := Z.min (unit_bits a - i) n in
  exists in_ in' s', initial_unit (access_field_unit field) a (Z.of_nat off) i d s
      = Some ((UACPI_STATUS_OK, in_), s) /\
    bit_copy (BitSpan in_ i d) sp = Some in' /\
    access_field_unit field (Z.of_nat off) UACPI_REGION_OP_WRITE (IO_INTEGER in') s
      = Some ((UACPI_STATUS_OK, IO_INTEGER in'), s') /\
    length (mem s') = length (mem s) /\
    forall j, 0 <= j -> buf_bit (mem s') j =
     if (8 * Z.of_nat off <=? j) && (j <? 8 * Z.of_nat off + unit_bits a)
     then if (i <=? j - 8 * Z.of_nat off) && (j - 8 * Z.of_nat off <? i + d)
          then copied (span_data sp) (index sp) (span_length sp) (j - 8 * Z.of_nat off - i)
          else fill a (buf_bit (mem s) j)
     else buf_bit (mem s) j.
Proof.
  intros Hr Hi Hn (Hsb & Hsi & Hsl & Hsf & _) Hoff d. destruct (width_cases a Hw) as [_ Hc].
  destruct (initial_unit_spec s off i d Hr Hoff) as (in_ & Hin & Hb & Hl & Hbits).
  destruct (bit_copy_spec (BitSpan in_ i d) sp) as (in' & Hcp & Hb' & Hl' & H');
    cbn [span_data index span_length] in *; try done; try lia.
  { unfold buf_bits, unit_bits in *. lia. }
  destruct (write_access_mem s off in') as (s' & Hwr & Hlm & Hm); try done.
  { congruence. }
  exists in_, in', s'. repeat split; try done. intros j Hj. rewrite Hm by done. fold a.
  destruct (Z.leb_spec (8 * Z.of_nat off) j), (Z.ltb_spec j (8 * Z.of_nat off + unit_bits a));
    cbn [andb]; try done.
  rewrite H' by lia.
  destruct (Z.leb_spec i (j - 8 * Z.of_nat off)), (Z.ltb_spec (j - 8 * Z.of_nat off) (i + d));
    cbn [andb]; try done; (rewrite Hbits by lia; do 2 f_equal; lia).
Qed.

Lemma units_zero : units a 0 0 = 0.
Proof. unfold units. destruct (width_cases a Hw) as [_ Hc]. apply Z.div_small. unfold unit_bits. lia. Qed.

Lemma write_loop_mem fuel s (off : nat) i n sp :
  rule_ok a -> 0 <= i < unit_bits a -> 0 <= n <= Z.of_nat fuel -> n < 2 ^ 32 ->
  0 < n \/ i = 0 -> span_ok sp -> in_memory a (mem s) (Z.of_nat off) i n ->
  exists s', write_loop fuel (access_field_unit field) a (Z.of_nat off) n i sp s
      = Some (UACPI_STATUS_OK, s') /\
    length (mem s') = length (mem s) /\
    forall j, 0 <= j -> buf_bit (mem s') j
      = written (mem s) (span_data sp) (Z.of_nat off) i n (index sp) (span_length sp) j.
Proof.
  intros Hr. revert s off i n sp. induction fuel as [|fuel IH];
    intros s off i n sp Hi Hn Hn32 Hni Hsp Hin; destruct (width_cases a Hw) as [Hu Hc];
    cbn [write_loop]; destruct (Z.eqb_spec n 0) as [->|Hn0]; try lia.
  1,2: exists s; repeat split; try done; intros j Hj; unfold written;
    assert (i = 0) as -> by lia; rewrite units_zero; by cmp_cases.
  destruct (units_step i n Hi ltac:(lia)) as (Hd & Hid & Hsplit & HU).
  assert (HU0 := units_nonneg 0 (n - Z.min (unit_bits a - i) n) ltac:(lia) ltac:(lia)).
  assert (HW : unit_bits a = 8 * f_access_width_bytes a) by done.
  destruct Hin as [Hbo [Hfit Hlen]]. rewrite HU in Hfit.
  destruct (write_turn s off i n sp Hr Hi ltac:(lia) Hsp) as
    (in_ & in' & s1 & Hinit & Hcp & Hwr & Hl1 & H1); [nia|].
  set (d := Z.min (unit_bits a - i) n) in *.
  assert (Ed : Z.min (u64 (unit_bits a - i)) n = d)
    by (unfold d; rewrite u64_small by lia; done).
  cbv zeta. rewrite Hu, Ed. mstep. rewrite Hinit. cbn [is_ok negb].
  rewrite Hcp. cbv beta iota. rewrite Hwr. cbn [is_ok negb].
  assert (Hoff' : u32 (Z.of_nat off + f_access_width_bytes a)
    = Z.of_nat (off + Z.to_nat (f_access_width_bytes a))) by (rewrite u32_small by nia; lia).
  rewrite Hoff', (u32_small (n - d)) by lia.
  destruct Hsp as (Hsb & Hsi & Hsl & Hsf & Hbig).
  unfold bit_span_offset. cbn [snd].
  rewrite (u64_small (index sp + _)) by lia.
  set (sp' := BitSpan _ _ _).
  destruct (IH s1 (off + Z.to_nat (f_access_width_bytes a))%nat 0 (n - d) sp')
    as (s' & Hrun & Hl' & H'); unfold sp' in *; clear sp';
    cbn [span_data index span_length] in *; try lia.
  { repeat split; cbn [span_data index span_length]; try done; lia. }
  { split; [lia|]. rewrite Hl1. split; [nia|done]. }
  exists s'. split; [exact Hrun|]. split; [congruence|]. intros j Hj. rewrite H' by done.
  replace (Z.of_nat (off + Z.to_nat (f_access_width_bytes a)))
    with (Z.of_nat off + f_access_width_bytes a) by lia.
  apply written_step; try done; lia.
Qed.

(** ** Reads *)

Lemma read_loop_mem reads s (off : nat) i n out sp :
  0 <= i < unit_bits a -> 0 < n < 2 ^ 32 -> Z.of_nat reads = units a i n -> span_ok sp ->
  in_memory a (mem s) (Z.of_nat off) i n ->
  exists dst, read_loop (access_field_unit field) a reads (Z.of_nat off) n i out sp s
      = Some ((UACPI_STATUS_OK, dst), s) /\
    is_bytes dst /\ length dst = length (span_data sp) /\
    forall j, 0 <= j -> buf_bit dst j =
      if (index sp <=? j) && (j <? index sp + span_length sp)
      then copied (mem s) (8 * Z.of_nat off + i) n (j - index sp)
      else buf_bit (span_data sp) j.
Proof.
  revert off i n out sp. induction reads as [|reads IH]; intros off i n out sp Hi Hn Hun Hsp Hin;
    destruct (width_cases a Hw) as [Hu Hc];
    destruct (units_step i n Hi ltac:(lia)) as (Hd & Hid & Hsplit & HU);
    assert (HU0 := units_nonneg 0 (n - Z.min (unit_bits a - i) n) ltac:(lia) ltac:(lia)); [lia|].
  assert (HW : unit_bits a = 8 * f_access_width_bytes a) by done.
  destruct Hin as [Hbo [Hfit Hlen]]. rewrite HU in Hfit.
  destruct (read_access_mem s off out) as (out1 & Hacc & Hob & Hol & Hobit); [nia|].
  set (d := Z.min (unit_bits a - i) n) in *.
  assert (Ed : Z.min n (u64 (unit_bits a - i)) = d)
    by (unfold d; rewrite u64_small by lia; lia).
  destruct Hsp as (Hsb & Hsi & Hsl & Hsf & Hbig).
  destruct (bit_copy_spec sp (BitSpan out1 i d)) as (dst1 & Hcp & Hb1 & Hl1 & H1);
    cbn [span_data index span_length] in *; try done; try lia.
  { unfold buf_bits. rewrite Hol. lia. }
  cbn [read_loop]. cbv zeta. rewrite Hu, Ed. mstep. rewrite Hacc. cbn [is_ok negb].
  rewrite Hcp. cbv beta iota. rewrite (u32_small (n - d)) by lia.
  assert (Hoff' : u32 (Z.of_nat off + f_access_width_bytes a)
    = Z.of_nat (off + Z.to_nat (f_access_width_bytes a))) by (rewrite u32_small by nia; lia).
  rewrite Hoff'.
  assert (Hmemd : forall k, 0 <= k < d ->
    copied out1 i d k = copied (mem s) (8 * Z.of_nat off + i) n k).
  { intros k Hk. unfold copied.
    rewrite !(proj2 (Z.ltb_lt _ _)), Hobit by lia. cbn [andb]. f_equal. lia. }
  destruct (decide (n = d)) as [Hnd|Hnd].
  - (* the last access *)
    assert (reads = 0%nat) as ->.
    { replace (n - d) with 0 in HU by lia. rewrite units_zero in HU. lia. }
    cbn [read_loop bit_span_offset snd span_data index span_length]. mstep.
    exists dst1. repeat split; try done. intros j Hj. rewrite H1 by done.
    destruct (Z.leb_spec (index sp) j), (Z.ltb_spec j (index sp + span_length sp));
      cbn [andb]; try done.
    destruct (decide (j - index sp < d)); [apply Hmemd; lia|].
    unfold copied. by rewrite !(proj2 (Z.ltb_ge _ _)) by lia.
  - unfold bit_span_offset. cbn [snd span_data index span_length].
    rewrite (u64_small (index sp + _)) by lia. set (sp' := BitSpan _ _ _).
    assert (Hspok : span_ok sp').
    { unfold sp', buf_bits in *.
      repeat split; cbn [span_data index span_length]; unfold buf_bits; rewrite ?Hl1; try done; lia. }
    destruct (IH (off + Z.to_nat (f_access_width_bytes a))%nat 0 (n - d) out1 sp')
      as (dst & Hrun & Hb & Hl & H'); try done; try lia.
    { split; [lia|]. split; [nia|done]. }
    unfold sp' in *. cbn [span_data index span_length] in *. clear sp'.
    exists dst. split; [exact Hrun|]. split; [done|]. split; [congruence|].
    intros j Hj. rewrite H', H1 by done.
    set (e := Z.min (span_length sp) d).
    destruct (decide (j - index sp < d)) as [Hlt|Hge].
    + destruct (Z.leb_spec (index sp) j), (Z.ltb_spec j (index sp + span_length sp)),
        (Z.leb_spec (index sp + e) j),
        (Z.ltb_spec j (index sp + e + (span_length sp - e))); cbn [andb]; try done; try lia.
      all: by apply Hmemd; lia.
    + destruct (Z.leb_spec (index sp) j), (Z.ltb_spec j (index sp + span_length sp)),
        (Z.leb_spec (index sp + e) j),
        (Z.ltb_spec j (index sp + e + (span_length sp - e))); cbn [andb]; try done; try lia.
      unfold copied. replace e with d by lia.
      replace (8 * Z.of_nat (off + Z.to_nat (f_access_width_bytes a)) + 0
               + (j - (index sp + d))) with (8 * Z.of_nat off + i + (j - index sp)) by lia.
      f_equal. by cmp_cases.
Qed.

(** ** Whole fields *)

(** The field has bits, starts in its first access unit, and lies in memory. *)
Definition field_fits_mem (m : list Z) : Prop :=
  0 <= f_bit_offset_within_first_byte a < unit_bits a /\
  0 < f_bit_length a < 2 ^ 31 /\
  in_memory a m (f_byte_offset a) (f_bit_offset_within_first_byte a) (f_bit_length a).

(** A caller's buffer of [size] bytes. *)
Definition buffer_ok (b : list Z) (size : Z) : Prop :=
  is_bytes b /\ 0 <= size <= Z.of_nat (length b) /\ buf_bits b < 2 ^ 64.

Lemma buffer_span b size :
  buffer_ok b size -> span_ok (BitSpan b 0 (u64 (size * 8))).
Proof.
  intros (Hb & Hs & Hl). unfold buf_bits in *.
  repeat split; cbn [span_data index span_length]; unfold buf_bits; rewrite ?u64_small by lia;
    try done; lia.
Qed.

Lemma not_special acc buf len op want s :
  handle_special_field acc field buf len op want s
  = Some ((false, UACPI_STATUS_OK, buf, None), s).
Proof.
  destruct Hmem as [(a0 & r & -> & _ & Hsp) _ _ _ _].
  destruct (Hsp s) as (space & Hr & Hg & Hbuf). cbn [handle_special_field]. mstep. rewrite Hr.
  cbv beta iota. unfold uacpi_is_buffer_access_address_space in Hbuf.
  repeat (apply orb_false_iff in Hbuf as [Hbuf ?]).
  rewrite (proj2 (Z.eqb_neq _ _) Hg), Hbuf. cbv iota.
  repeat match goal with E : (space =? _) = false |- _ => rewrite E; clear E end. done.
Qed.

Lemma align_up_width n :
  0 <= n < 2 ^ 31 + 64 ->
  UACPI_ALIGN_UP 32 n (unit_bits a) / unit_bits a = (n + unit_bits a - 1) / unit_bits a.
Proof.
  intros Hn. destruct (width_cases a Hw) as [_ Hc]. unfold UACPI_ALIGN_UP.
  assert (exists k, 0 <= k <= 6 /\ unit_bits a = 2 ^ k) as (k & Hk & ->).
  { unfold unit_bits. destruct Hc as [->|[->|[->| ->]]]; [exists 3|exists 4|exists 5|exists 6];
      (split; [lia|done]). }
  assert (0 < 2 ^ k <= 2 ^ 6) by (split; [apply pow2_pos; lia|apply Z.pow_le_mono_r; lia]).
  rewrite (u32_small (2 ^ k - 1)), u32_small by lia.
  replace (2 ^ k - 1) with (Z.ones k) by (rewrite Z.ones_equiv; lia).
  rewrite <- Z.ldiff_land, Z.ldiff_ones_r, Z.shiftl_mul_pow2, Z.shiftr_div_pow2 by lia.
  rewrite Z.div_mul by lia. f_equal. rewrite Z.ones_equiv. lia.
Qed.

Lemma field_write s src size want :
  rule_ok a -> field_fits_mem (mem s) -> buffer_ok src size ->
  exists s', uacpi_write_field_unit field src size want s
      = Some ((UACPI_STATUS_OK, None), s') /\
    length (mem s') = length (mem s) /\
    forall j, 0 <= j -> buf_bit (mem s') j
      = written (mem s) src (f_byte_offset a) (f_bit_offset_within_first_byte a)
          (f_bit_length a) 0 (8 * size) j.
Proof.
  intros Hr (Hi & Hn & Hin) Hb. unfold uacpi_write_field_unit, write_field_unit_with. mstep.
  rewrite not_special. cbv beta iota. fold a. unfold write_generic_field_unit.
  assert (Hbo : f_byte_offset a = Z.of_nat (Z.to_nat (f_byte_offset a)))
    by (destruct Hin; lia).
  destruct (write_loop_mem (Z.to_nat (f_bit_length a)) s (Z.to_nat (f_byte_offset a))
    (f_bit_offset_within_first_byte a) (f_bit_length a) (BitSpan src 0 (u64 (size * 8))))
    as (s' & Hrun & Hl & Hbits); try lia; try done.
  { by apply buffer_span. }
  { by rewrite <- Hbo. }
  rewrite <- Hbo in Hrun, Hbits. rewrite Hrun. exists s'. split; [done|]. split; [done|].
  intros j Hj. rewrite Hbits by done. cbn [span_data index span_length].
  destruct Hb as (_ & Hs & Hl64). unfold buf_bits in Hl64. rewrite u64_small by lia.
  by replace (size * 8) with (8 * size) by lia.
Qed.

Lemma field_read s dst size want :
  field_fits_mem (mem s) -> buffer_ok dst size -> size < 2 ^ 32 ->
  exists dst', uacpi_read_field_unit field dst size want s
      = Some ((UACPI_STATUS_OK, dst', None), s) /\
    is_bytes dst' /\ length dst' = length dst /\
    forall j, 0 <= j -> buf_bit dst' j =
      if j <? 8 * size
      then copied (mem s) (8 * f_byte_offset a + f_bit_offset_within_first_byte a)
             (f_bit_length a) j
      else buf_bit dst j.
Proof.
  intros (Hi & Hn & Hin) Hb Hs32. unfold uacpi_read_field_unit, read_field_unit_with. mstep.
  rewrite not_special. cbv beta iota zeta. fold a.
  rewrite round_up_bits by lia. rewrite u32_small by (Z.div_mod_to_equations; lia).
  set (fbl := (f_bit_length a + 7) / 8).
  assert (Hfbl : 0 < fbl /\ f_bit_length a <= 8 * fbl < f_bit_length a + 8)
    by (unfold fbl; Z.div_mod_to_equations; lia).
  assert (Hbo : f_byte_offset a = Z.of_nat (Z.to_nat (f_byte_offset a)))
    by (destruct Hin; lia).
  destruct (width_cases a Hw) as [Hu Hc].
  destruct (_ && _) eqn:E.
  - (* one access holds the field *)
    apply andb_true_iff in E as [E0%Z.eqb_eq E1%Z.leb_le].
    destruct Hin as [_ [Hfit Hlen]].
    destruct (units_step _ (f_bit_length a) Hi ltac:(lia)) as (_ & _ & _ & HU).
    assert (HU0 := units_nonneg 0 (f_bit_length a
      - Z.min (unit_bits a - f_bit_offset_within_first_byte a) (f_bit_length a))
      ltac:(lia) ltac:(lia)).
    destruct (read_access_mem s (Z.to_nat (f_byte_offset a)) uninit)
      as (out & Hacc & Hob & Hol & Hobit); [nia|].
    rewrite <- Hbo in Hacc, Hobit. rewrite Hacc. cbn [is_ok negb].
    destruct Hb as (Hdb & Hds & _).
    destruct (fast_copy dst out size (f_bit_length a)) as (d1 & d2 & Hd1 & Hd2 & Hb2 & Hl2 & H2);
      try done; try lia.
    fold fbl in Hd1, Hd2. rewrite Hd1. cbv beta iota. rewrite Hd2. exists d2.
    split; [done|]. split; [done|]. split; [done|]. intros j Hj. rewrite H2 by done.
    destruct (j <? 8 * size); [|done]. unfold copied.
    destruct (Z.ltb_spec j (f_bit_length a)); [|done]. cbn [andb].
    rewrite Z.add_0_l, Hobit by (unfold unit_bits in *; lia). f_equal. lia.
  - (* several accesses, or a misaligned one *)
    unfold do_read_misaligned_field_unit. rewrite Hu, align_up_width by (unfold unit_bits in *; lia).
    destruct (read_loop_mem
      (Z.to_nat ((f_bit_offset_within_first_byte a + f_bit_length a + unit_bits a - 1) / unit_bits a))
      s (Z.to_nat (f_byte_offset a)) (f_bit_offset_within_first_byte a) (f_bit_length a) uninit
      (BitSpan dst 0 (u64 (size * 8)))) as (dst' & Hrun & Hb' & Hl' & Hbits); try done; try lia.
    { apply Z2Nat.id, Z.div_pos; unfold unit_bits in *; lia. }
    { by apply buffer_span. }
    { by rewrite <- Hbo. }
    rewrite <- Hbo in Hrun, Hbits. rewrite Hrun. cbv beta iota. exists dst'.
    split; [done|]. split; [done|]. split; [done|]. intros j Hj. rewrite Hbits by done.
    cbn [span_data index span_length]. destruct Hb as (_ & Hs & Hl64). unfold buf_bits in Hl64.
    rewrite u64_small, (proj2 (Z.leb_le 0 j)), Z.sub_0_r, Z.add_0_l by lia. cbn [andb].
    by replace (size * 8) with (8 * size) by lia.
Qed.

(** The integer a field of the memory denotes. *)
Definition mem_value (m : list Z) : Z :=
  Z.shiftr (le m) (8 * f_byte_offset a + f_bit_offset_within_first_byte a)
  mod 2 ^ f_bit_length a.
End Memory.

(** C15: writing a field unit.  Over a region that behaves as memory the call
    succeeds and rewrites exactly the access units the field lies in: the
    field's bits become the source's, cut or zero-extended to the field, the
    other bits of those units follow the update rule, and all other memory is
    untouched. *)
Theorem field_unit_write_bits {St} `{RegionIo St} (field : uacpi_field_unit)
    (mem : St -> list Z) (s : St) (src : list Z) (size : Z) (want : bool) :
  mem_backed field mem -> width_ok (attrs field) -> rule_ok (attrs field) ->
  field_fits_mem field (mem s) -> buffer_ok src size ->
  exists s', uacpi_write_field_unit field src size want s
      = Some ((UACPI_STATUS_OK, None), s') /\
    length (mem s') = length (mem s) /\
    forall j, 0 <= j ->
      let a := attrs field in
      let first := 8 * f_byte_offset a in
      let k := j - (first + f_bit_offset_within_first_byte a) in
      let last := first + units a (f_bit_offset_within_first_byte a) (f_bit_length a)
                          * unit_bits a in
      buf_bit (mem s') j
      = if (0 <=? k) && (k <? f_bit_length a) then (k <? 8 * size) && buf_bit src k
        else if (first <=? j) && (j <? last) then fill a (buf_bit (mem s) j)
        else buf_bit (mem s) j.
Proof.
  intros Hm Hw Hr Hf Hb. destruct (field_write field mem Hm Hw s src size want Hr Hf Hb)
    as (s' & Hrun & Hl & Hbits).
  by exists s'.
Qed.

(** C16: write then read.  What is read back from a field unit is what was
    written, cut to the field and to the reader's buffer, whatever the
    alignment and the access width; the read changes nothing. *)
Theorem field_unit_roundtrip {St} `{RegionIo St} (field : uacpi_field_unit)
    (mem : St -> list Z) (s : St) (src dst : list Z) (size size' : Z) (want : bool) :
  mem_backed field mem -> width_ok (attrs field) -> rule_ok (attrs field) ->
  field_fits_mem field (mem s) -> buffer_ok src size -> buffer_ok dst size' -> size' < 2 ^ 32 ->
  exists s' dst', uacpi_write_field_unit field src size want s
      = Some ((UACPI_STATUS_OK, None), s') /\
    uacpi_read_field_unit field dst size' want s' = Some ((UACPI_STATUS_OK, dst', None), s') /\
    le (take (Z.to_nat size') dst')
    = le (take (Z.to_nat size) src) mod 2 ^ f_bit_length (attrs field) mod 2 ^ (8 * size') /\
    drop (Z.to_nat size') dst' = drop (Z.to_nat size') dst.
Proof.
  intros Hm Hw Hr Hf Hs Hd Hd32. destruct (field_write field mem Hm Hw s src size want Hr Hf Hs)
    as (s' & Hrun & Hl & Hbits).
  assert (Hf' : field_fits_mem field (mem s')).
  { destruct Hf as (Hi & Hn & Hin). split; [done|]. split; [done|].
    unfold in_memory in *. by rewrite Hl. }
  destruct (field_read field mem Hm Hw s' dst size' want Hf' Hd Hd32)
    as (dst' & Hread & Hb' & Hl' & Hrb).
  destruct Hf as (Hi & Hn & _). destruct Hs as (Hsb & Hss & _), Hd as (Hdb & Hds & _).
  exists s', dst'. split; [done|]. split; [done|]. split.
  - apply Z_bits_ext. intros i Hi'. rewrite <- !Z.land_ones by lia.
    rewrite !Z.land_spec, !ones_bit, !le_bit, !buf_bit_take, !Z2Nat.id by (auto with cint || lia).
    rewrite Hrb by done. destruct (Z.ltb_spec i (8 * size')); [|by rewrite andb_false_r].
    cbn [andb]. unfold copied. destruct (Z.ltb_spec i (f_bit_length (attrs field)));
      [|by rewrite !andb_false_r].
    cbn [andb]. destruct Hf' as (_ & _ & Hbo & _). rewrite Hbits by lia. unfold written.
    rewrite (proj2 (Z.leb_le _ _)), (proj2 (Z.ltb_lt _ (f_bit_length _))) by lia.
    cbn [andb]. unfold copied. rewrite !andb_true_r.
    by replace (8 * f_byte_offset (attrs field) + f_bit_offset_within_first_byte (attrs field) + i
             - (8 * f_byte_offset (attrs field) + f_bit_offset_within_first_byte (attrs field)))
      with i by lia.
  - apply list_eq. intros k. rewrite !lookup_drop. apply byte_ext; try done.
    intros j Hj. rewrite Hrb by lia. rewrite (proj2 (Z.ltb_ge _ _)) by lia. done.
Qed.

(** ** An array of bytes as a region *)

Definition array_dispatch (field : uacpi_field_unit) (offset : Z) (op : uacpi_region_op)
    (data : uacpi_opregion_io_data)
    : M (list Z) (uacpi_status * uacpi_opregion_io_data) := fun m =>
  let w := Z.to_nat (f_access_width_bytes (attrs field)) in
  let off := Z.to_nat offset in
  if (length m <? off + w)%nat then Some ((UACPI_STATUS_AML_OUT_OF_BOUNDS_INDEX, data), m) else
  match op, data with
  | UACPI_REGION_OP_READ, IO_INTEGER _ =>
      Some ((UACPI_STATUS_OK,
             IO_INTEGER (take w (drop off (map u8 m)) ++ replicate (8 - w) 0)), m)
  | UACPI_REGION_OP_WRITE, IO_INTEGER d =>
      Some ((UACPI_STATUS_OK, data), write_at (map u8 m) off (take w d))
  | _, _ => Some ((UACPI_STATUS_INVALID_ARGUMENT, data), m)
  end.

#[export] Instance array_region : RegionIo (list Z) := {
  uacpi_dispatch_opregion_io := array_dispatch;
  acquire_global_mutex := mret UACPI_STATUS_OK;
  release_global_mutex := mret tt;
  region_space _ := mret (Some UACPI_ADDRESS_SPACE_SYSTEM_MEMORY);
  kernel_alloc _ := mret true;
  uninit := [1; 2; 3; 4; 5; 6; 7; 8];
}.

Lemma map_u8_bytes m : is_bytes (map u8 m).
Proof. induction m; constructor; auto with cint. Qed.

Lemma map_u8_id m : is_bytes m -> map u8 m = m.
Proof. induction 1; simpl; [done|]. by rewrite u8_small, IHForall. Qed.

(** A plain field of the array is backed by it. *)
Lemma array_backed a r :
  f_lock_rule a = false -> width_ok a -> mem_backed (FIELD_UNIT_NORMAL a r) (map u8).
Proof.
  intros Hl Hw. destruct (width_cases a Hw) as [_ Hc]. constructor.
  - exists a, r. split; [done|]. split; [done|]. intros s.
    by exists UACPI_ADDRESS_SPACE_SYSTEM_MEMORY.
  - split; [repeat constructor; lia | done].
  - apply map_u8_bytes.
  - intros s off d w Hoff. cbn [uacpi_dispatch_opregion_io array_region]. unfold array_dispatch.
    rewrite length_map in Hoff. rewrite Nat2Z.id. by rewrite (proj2 (Nat.ltb_ge _ _)).
  - intros s off d w Hoff Hd Hd8. cbn [uacpi_dispatch_opregion_io array_region].
    unfold array_dispatch. rewrite Nat2Z.id. eexists. split.
    { rewrite (proj2 (Nat.ltb_ge _ _)); [done|]. by rewrite length_map in Hoff. }
    apply map_u8_id. apply is_bytes_write_at; [apply map_u8_bytes|by apply Forall_take|].
    rewrite length_take. unfold w in *. lia.
Qed.

(** A 13-bit field from bit 5 of byte 2 on, accessed by words, in 8 bytes. *)
Definition demo_field (rule : Z) : uacpi_field_unit :=
  FIELD_UNIT_NORMAL (FieldAttrs 2 13 5 2 0 0 rule false) 0.

Lemma demo_fits rule m : length m = 8%nat -> field_fits_mem (demo_field rule) (map u8 m).
Proof.
  intros Hl. split; [by cbn|]. split; [by cbn|]. split; [by cbn|].
  rewrite length_map, Hl. by vm_compute.
Qed.

Lemma field_unit_write_bits_witness :
  exists s', uacpi_write_field_unit (demo_field UACPI_UPDATE_RULE_WRITE_AS_ONES) [52; 18] 2 false
      [9; 9; 9; 9; 9; 9; 9; 9] = Some ((UACPI_STATUS_OK, None), s') /\
    length (map u8 s') = 8%nat /\
    forall j, 0 <= j ->
      buf_bit (map u8 s') j
      = if (0 <=? j - 21) && (j - 21 <? 13) then (j - 21 <? 16) && buf_bit [52; 18] (j - 21)
        else if (16 <=? j) && (j <? 48) then true
        else buf_bit (map u8 [9; 9; 9; 9; 9; 9; 9; 9]) j.
Proof.
  apply (field_unit_write_bits (demo_field UACPI_UPDATE_RULE_WRITE_AS_ONES) (map u8)).
  - apply array_backed; [done|]. right; left; reflexivity.
  - right; left; reflexivity.
  - right; left; reflexivity.
  - by apply demo_fits.
  - split; [repeat constructor; lia|]. split; [cbn; lia|by vm_compute].
Defined.

Lemma field_unit_roundtrip_witness :
  exists s' dst',
    uacpi_write_field_unit (demo_field UACPI_UPDATE_RULE_PRESERVE) [52; 18] 2 false
      [9; 9; 9; 9; 9; 9; 9; 9] = Some ((UACPI_STATUS_OK, None), s') /\
    uacpi_read_field_unit (demo_field UACPI_UPDATE_RULE_PRESERVE) [0; 0; 7] 2 false s'
      = Some ((UACPI_STATUS_OK, dst', None), s') /\
    le (take 2 dst') = 0x1234 mod 2 ^ 13 mod 2 ^ 16 /\ drop 2 dst' = [7].
Proof.
  apply (field_unit_roundtrip (demo_field UACPI_UPDATE_RULE_PRESERVE) (map u8)
           [9; 9; 9; 9; 9; 9; 9; 9] [52; 18] [0; 0; 7] 2 2).
  - apply array_backed; [done|]. right; left; reflexivity.
  - right; left; reflexivity.
  - left; reflexivity.
  - by apply demo_fits.
  - split; [repeat constructor; lia|]. split; [cbn; lia|by vm_compute].
  - split; [repeat constructor; lia|]. split; [cbn; lia|by vm_compute].
  - lia.
Defined.
