(* ===== verification/Gas.v ===== *)
(** * Generic Address Structures: [extra/uacpi/io.c], third part

    A GAS names a register in memory or in port space.  It is validated,
    mapped, and accessed in units of an access width computed from it.  The
    machine behind it (mappings, volatile accesses, ports, PCI configuration
    space) is the interface [GasIo].  A [None] of a definition is undefined
    behaviour or a loop that never ends. *)
From S2P Require Import Prelude Status UStd BitIo FieldIo.

Record acpi_gas := Gas {
  address_space_id : Z;
  register_bit_width : Z;
  register_bit_offset : Z;
  access_size : Z;
  address : Z;
}.

Class GasIo (St : Type) := {
  (** [uacpi_kernel_map]: the virtual address, or null *)
  uacpi_kernel_map : Z -> Z -> M St (option Z);
  uacpi_kernel_unmap : Z -> Z -> M St unit;
  (** a volatile access of 1, 2, 4 or 8 bytes *)
  volatile_read : Z -> Z -> M St Z;
  volatile_write : Z -> Z -> Z -> M St unit;
  uacpi_kernel_io_map : Z -> Z -> M St (uacpi_status * Z);
  uacpi_kernel_io_unmap : Z -> M St unit;
  (** [uacpi_kernel_io_read8/16/32(handle, offset)], by width in bytes *)
  uacpi_kernel_io_read : Z -> Z -> Z -> M St (uacpi_status * Z);
  uacpi_kernel_io_write : Z -> Z -> Z -> Z -> M St uacpi_status;
  uacpi_kernel_pci_read : Z -> Z -> Z -> M St (uacpi_status * Z);
  uacpi_kernel_pci_write : Z -> Z -> Z -> Z -> M St uacpi_status;
  uacpi_gas_alloc : M St bool;
}.

(** [UACPI_IS_ALIGNED] and [UACPI_IS_POWER_OF_TWO] on [w]-bit values. *)
Definition UACPI_IS_ALIGNED (w x val : Z) : bool := Z.land x (wrap w (val - 1)) =? 0.
Definition UACPI_IS_POWER_OF_TWO (w x : Z) : bool := UACPI_IS_ALIGNED w x x.

(** [while (!UACPI_IS_ALIGNED(..)) access_bit_width /= 2]; from at most 128,
    four halvings reach 8, which every address is aligned to. *)
Fixpoint back_off (fuel : nat) (addr access_bit_width : Z) : option Z :=
  if UACPI_IS_ALIGNED 64 addr (access_bit_width / 8) then Some access_bit_width
  else match fuel with O => None | S n => back_off n addr (access_bit_width / 2) end.

Definition gas_get_access_bit_width (gas : acpi_gas) : option Z :=
  abw ←
    (if (register_bit_offset gas =? 0) && UACPI_IS_POWER_OF_TWO 8 (register_bit_width gas)
        && UACPI_IS_ALIGNED 8 (register_bit_width gas) 8
     then Some (register_bit_width gas)
     else if truthy (access_size gas) then Some (u8 (access_size gas * 8))
     else
       let msb := uacpi_bit_scan_backward
                    (u64 (register_bit_offset gas + register_bit_width gas - 1)) in
       let abw := u8 (Z.shiftl 1 msb) in
       if abw <=? 8 then Some 8 else back_off 4 (address gas) abw);
  Some (Z.min abw (if address_space_id gas =? UACPI_ADDRESS_SPACE_SYSTEM_IO then 32 else 64)).

(** The status, and [*access_bit_width] and [*bit_width] when it is OK. *)
Definition gas_validate (gas : option acpi_gas) : option (uacpi_status * Z * Z) :=
  match gas with
  | None => Some (UACPI_STATUS_INVALID_ARGUMENT, 0, 0)
  | Some gas =>
      if address gas =? 0 then Some (UACPI_STATUS_NOT_FOUND, 0, 0)
      else if negb (address_space_id gas =? UACPI_ADDRESS_SPACE_SYSTEM_IO)
           && negb (address_space_id gas =? UACPI_ADDRESS_SPACE_SYSTEM_MEMORY)
      then Some (UACPI_STATUS_UNIMPLEMENTED, 0, 0)
      else if 4 <? access_size gas then Some (UACPI_STATUS_UNIMPLEMENTED, 0, 0)
      else
        abw ← gas_get_access_bit_width gas;
        let total_width := register_bit_offset gas + register_bit_width gas in
        let aligned_width := UACPI_ALIGN_UP 64 total_width abw in
        if 64 <? aligned_width then Some (UACPI_STATUS_UNIMPLEMENTED, 0, 0)
        else Some (UACPI_STATUS_OK, abw, u8 total_width)
  end.

(** The read, write and unmap pointers of a mapped GAS. *)
Inductive gas_backend := GAS_MEMORY | GAS_IO.

Record uacpi_mapped_gas := MappedGas {
  mapping : Z;
  access_bit_width : Z;
  total_bit_width : Z;
  bit_offset : Z;
  backend : gas_backend;
}.

Section Gas.
Context {St : Type} `{GasIo St}.

(** ** Accesses of one unit; the value is meaningful when the status is OK *)

Definition uacpi_system_memory_read (ptr offset width : Z) : M St (uacpi_status * Z) :=
  if (width =? 1) || (width =? 2) || (width =? 4) || (width =? 8)
  then v ← volatile_read (u64 (ptr + offset)) width; mret (UACPI_STATUS_OK, v)
  else mret (UACPI_STATUS_INVALID_ARGUMENT, 0).

Definition uacpi_system_memory_write (ptr offset width in_ : Z) : M St uacpi_status :=
  if (width =? 1) || (width =? 2) || (width =? 4) || (width =? 8)
  then _ ← volatile_write (u64 (ptr + offset)) width (wrap (8 * width) in_);
       mret UACPI_STATUS_OK
  else mret UACPI_STATUS_INVALID_ARGUMENT.

(** The port and PCI accesses share their shape: 1, 2 or 4 bytes. *)
Definition narrow_read (read : Z -> Z -> Z -> M St (uacpi_status * Z)) (handle offset width : Z)
    : M St (uacpi_status * Z) :=
  if (width =? 1) || (width =? 2) || (width =? 4) then read handle offset width
  else mret (UACPI_STATUS_INVALID_ARGUMENT, 0).
Definition narrow_write (write : Z -> Z -> Z -> Z -> M St uacpi_status)
    (handle offset width in_ : Z) : M St uacpi_status :=
  if (width =? 1) || (width =? 2) || (width =? 4)
  then write handle offset width (wrap (8 * width) in_)
  else mret UACPI_STATUS_INVALID_ARGUMENT.

Definition uacpi_system_io_read := narrow_read uacpi_kernel_io_read.
Definition uacpi_system_io_write := narrow_write uacpi_kernel_io_write.
Definition uacpi_pci_read := narrow_read uacpi_kernel_pci_read.
Definition uacpi_pci_write := narrow_write uacpi_kernel_pci_write.

Definition gas_read (gas : uacpi_mapped_gas) (offset width : Z) : M St (uacpi_status * Z) :=
  match backend gas with
  | GAS_MEMORY => uacpi_system_memory_read (mapping gas) offset width
  | GAS_IO => uacpi_system_io_read (mapping gas) offset width
  end.
Definition gas_write (gas : uacpi_mapped_gas) (offset width in_ : Z) : M St uacpi_status :=
  match backend gas with
  | GAS_MEMORY => uacpi_system_memory_write (mapping gas) offset width in_
  | GAS_IO => uacpi_system_io_write (mapping gas) offset width in_
  end.
Definition gas_unmap (gas : uacpi_mapped_gas) (size : Z) : M St unit :=
  match backend gas with
  | GAS_MEMORY => uacpi_kernel_unmap (mapping gas) size
  | GAS_IO => uacpi_kernel_io_unmap (mapping gas)
  end.

(** ** Registers of several units *)

Definition gas_mask (gas : uacpi_mapped_gas) : option Z :=
  let mask := 18446744073709551615 in
  if access_bit_width gas / 8 <? 8
  then Some (u64 (Z.lnot (Z.shiftl mask (access_bit_width gas)))) else Some mask.

(** C's [x << n] and [x >> n] on 64 bits: undefined from 64 on. *)
Definition shl64 (x n : Z) : option Z :=
  if n <? 64 then Some (u64 (Z.shiftl x n)) else None.
Definition shr64 (x n : Z) : option Z := if n <? 64 then Some (Z.shiftr x n) else None.

Fixpoint gas_read_loop (fuel : nat) (gas : uacpi_mapped_gas) (mask : Z)
    (bit_off bits_left idx offset out_value : Z) : M St (uacpi_status * Z) :=
  if bits_left =? 0 then mret (UACPI_STATUS_OK, out_value) else
  match fuel with
  | O => ub
  | S n =>
      let abw := access_bit_width gas in
      let bytes := abw / 8 in
      '(ret, data, bit_off) ←
        (if abw <=? bit_off then mret (UACPI_STATUS_OK, 0, u8 (bit_off - abw))
         else '(ret, data) ← gas_read gas offset bytes; mret (ret, data, bit_off));
      if negb (is_ok ret) then mret (ret, out_value) else
      part ← liftO (shl64 (Z.land data mask) (idx * abw));
      gas_read_loop n gas mask bit_off (u8 (bits_left - Z.min bits_left abw)) (u8 (idx + 1))
        (u64 (offset + bytes)) (Z.lor out_value part)
  end.

(** The status and [*out_value], which is cleared first. *)
Definition uacpi_gas_read_mapped (gas : uacpi_mapped_gas) : M St (uacpi_status * Z) :=
  mask ← liftO (gas_mask gas);
  gas_read_loop (Z.to_nat (total_bit_width gas)) gas mask (bit_offset gas)
    (total_bit_width gas) 0 0 0.

Fixpoint gas_write_loop (fuel : nat) (gas : uacpi_mapped_gas) (mask : Z)
    (bit_off bits_left idx offset in_value : Z) : M St uacpi_status :=
  if bits_left =? 0 then mret UACPI_STATUS_OK else
  match fuel with
  | O => ub
  | S n =>
      let abw := access_bit_width gas in
      let bytes := abw / 8 in
      part ← liftO (shr64 in_value (idx * abw));
      let data := Z.land part mask in
      '(ret, bit_off) ←
        (if abw <=? bit_off then mret (UACPI_STATUS_OK, u8 (bit_off - abw))
         else ret ← gas_write gas offset bytes data; mret (ret, bit_off));
      if negb (is_ok ret) then mret ret else
      gas_write_loop n gas mask bit_off (u8 (bits_left - Z.min bits_left abw)) (u8 (idx + 1))
        (u64 (offset + bytes)) in_value
  end.

Definition uacpi_gas_write_mapped (gas : uacpi_mapped_gas) (in_value : Z) : M St uacpi_status :=
  mask ← liftO (gas_mask gas);
  gas_write_loop (Z.to_nat (total_bit_width gas)) gas mask (bit_offset gas)
    (total_bit_width gas) 0 0 in_value.

(** ** Mapping *)

Definition uacpi_map_gas_noalloc (gas : option acpi_gas)
    : M St (uacpi_status * option uacpi_mapped_gas) :=
  '(ret, abw, total_width) ← liftO (gas_validate gas);
  match ret, gas with
  | UACPI_STATUS_OK, Some gas =>
      if address_space_id gas =? UACPI_ADDRESS_SPACE_SYSTEM_MEMORY then
        p ← uacpi_kernel_map (address gas) (total_width / 8);
        match p with
        | None => mret (UACPI_STATUS_MAPPING_FAILED, None)
        | Some p => mret (UACPI_STATUS_OK,
            Some (MappedGas p abw total_width (register_bit_offset gas) GAS_MEMORY))
        end
      else
        '(ret, h) ← uacpi_kernel_io_map (address gas) (total_width / 8);
        if negb (is_ok ret) then mret (ret, None)
        else mret (UACPI_STATUS_OK,
            Some (MappedGas h abw total_width (register_bit_offset gas) GAS_IO))
  | _, _ => mret (ret, None)
  end.

(** The heap block of the mapping is the model's value. *)
Definition uacpi_map_gas (gas : option acpi_gas)
    : M St (uacpi_status * option uacpi_mapped_gas) :=
  ok ← uacpi_gas_alloc;
  if negb ok then mret (UACPI_STATUS_OUT_OF_MEMORY, None) else uacpi_map_gas_noalloc gas.

Definition uacpi_unmap_gas_nofree (gas : uacpi_mapped_gas) : M St unit :=
  gas_unmap gas (access_bit_width gas / 8).
Definition uacpi_unmap_gas (gas : uacpi_mapped_gas) : M St unit := uacpi_unmap_gas_nofree gas.

Definition uacpi_gas_read (gas : option acpi_gas) : M St (uacpi_status * Z) :=
  '(ret, m) ← uacpi_map_gas_noalloc gas;
  match m with
  | None => mret (ret, 0)
  | Some m =>
      r ← uacpi_gas_read_mapped m;
      _ ← uacpi_unmap_gas_nofree m;
      mret r
  end.

Definition uacpi_gas_write (gas : option acpi_gas) (in_value : Z) : M St uacpi_status :=
  '(ret, m) ← uacpi_map_gas_noalloc gas;
  match m with
  | None => mret ret
  | Some m =>
      r ← uacpi_gas_write_mapped m in_value;
      _ ← uacpi_unmap_gas_nofree m;
      mret r
  end.
End Gas.
