(* ===== verification/GasSpec.v ===== *)
(** * Registers behind Generic Address Structures: theorems about [Gas]

    The widths the validation lets through, registers of several access
    units over a device that keeps what is written to it, and the access
    size that is decoded to an illegal width. *)
From S2P Require Import Prelude Status UStd BitIo FieldIo Gas.

(** ** Facts about all 8- and 9-bit values, by enumeration *)

(** A mapped register's access width: what the hardware has, or no bits. *)
Definition legal_width (w : Z) : Prop := w = 0 \/ w = 8 \/ w = 16 \/ w = 32 \/ w = 64.

Lemma fadt_width w :
  0 <= w < 256 -> UACPI_IS_POWER_OF_TWO 8 w && UACPI_IS_ALIGNED 8 w 8 = true ->
  legal_width w \/ w = 128.
Proof.
  intros Hw H.
  assert (Hc : check_below 256 (fun w =>
    implb (UACPI_IS_POWER_OF_TWO 8 w && UACPI_IS_ALIGNED 8 w 8)
          (existsb (Z.eqb w) [0; 8; 16; 32; 64; 128])) = true) by (vm_compute; reflexivity).
  apply (check_below_spec _ _ w) in Hc; [|lia]. cbv beta in Hc. rewrite H in Hc. cbn in Hc. unfold legal_width. lia.
Qed.

Lemma msb_width t :
  0 <= t < 511 -> let w := u8 (Z.shiftl 1 (uacpi_bit_scan_backward t)) in
  w <= 8 \/ w = 16 \/ w = 32 \/ w = 64 \/ w = 128.
Proof.
  intros Ht w.
  assert (Hc : check_below 511 (fun t =>
    let w := u8 (Z.shiftl 1 (uacpi_bit_scan_backward t)) in
    (w <=? 8) || existsb (Z.eqb w) [16; 32; 64; 128]) = true) by (vm_compute; reflexivity).
  apply (check_below_spec _ _ t) in Hc; [|lia]. cbv zeta in Hc. fold w in Hc. cbn in Hc. lia.
Qed.

(** The back-off ends, at the latest at 8 bits. *)
Lemma back_off_spec a w :
  w = 16 \/ w = 32 \/ w = 64 \/ w = 128 ->
  exists w', back_off 4 a w = Some w' /\ (w' = 8 \/ w' = 16 \/ w' = 32 \/ w' = 64 \/ w' = 128) /\
    Z.land a (w' / 8 - 1) = 0.
Proof.
  assert (H8 : UACPI_IS_ALIGNED 64 a (8 / 8) = true).
  { unfold UACPI_IS_ALIGNED. change (wrap 64 (8 / 8 - 1)) with 0. by rewrite Z.land_0_r. }
  assert (H : forall n (w : Z), w = 16 /\ (1 <= n)%nat \/ w = 32 /\ (2 <= n)%nat \/
      w = 64 /\ (3 <= n)%nat \/ w = 128 /\ (4 <= n)%nat ->
    exists w', back_off n a w = Some w' /\ (w' = 8 \/ w' = 16 \/ w' = 32 \/ w' = 64 \/ w' = 128) /\
      Z.land a (w' / 8 - 1) = 0).
  { induction n as [|n IH]; intros v Hv; [lia|]. cbn [back_off].
    destruct (UACPI_IS_ALIGNED 64 a (v / 8)) eqn:E.
    - exists v. split; [done|]. split; [lia|]. unfold UACPI_IS_ALIGNED in E. apply Z.eqb_eq in E.
      by destruct Hv as [[-> _]|[[-> _]|[[-> _]|[-> _]]]].
    - destruct Hv as [[-> ?]|[[-> ?]|[[-> ?]|[-> ?]]]].
      + exists 8. change (16 / 2) with 8. split; [destruct n; cbn [back_off]; by rewrite H8|].
        split; [lia|]. apply Z.land_0_r.
      + apply IH. change (32 / 2) with 16. lia.
      + apply IH. change (64 / 2) with 32. lia.
      + apply IH. change (128 / 2) with 64. lia. }
  intros Hw. apply H. lia.
Qed.

(** The fields of the structure have their widths. *)
Definition gas_ok (g : acpi_gas) : Prop :=
  0 <= register_bit_width g < 256 /\ 0 <= register_bit_offset g < 256 /\
  0 <= access_size g < 256 /\ 0 <= address g < 2 ^ 64.

(** The description asks for three-byte accesses. *)
Definition asks_24_bits (g : acpi_gas) : bool :=
  (access_size g =? 3) &&
  negb ((register_bit_offset g =? 0) && UACPI_IS_POWER_OF_TWO 8 (register_bit_width g)
        && UACPI_IS_ALIGNED 8 (register_bit_width g) 8).

Lemma access_width_spec g :
  gas_ok g -> access_size g <= 4 ->
  exists w, gas_get_access_bit_width g = Some w /\
    (if asks_24_bits g then w = 24 else legal_width w) /\
    (w = 0 -> register_bit_offset g + register_bit_width g = 0) /\
    (address_space_id g = UACPI_ADDRESS_SPACE_SYSTEM_IO -> w <= 32).
Proof.
  intros (Hw & Ho & Ha & Had) Hs. unfold gas_get_access_bit_width, asks_24_bits.
  set (cap := if address_space_id g =? _ then 32 else 64).
  assert (Hcap : (cap = 32 \/ cap = 64) /\
    (address_space_id g = UACPI_ADDRESS_SPACE_SYSTEM_IO -> cap = 32)).
  { unfold cap. destruct (Z.eqb_spec (address_space_id g) UACPI_ADDRESS_SPACE_SYSTEM_IO);
      (split; [tauto|congruence]). }
  clearbody cap. destruct Hcap as [Hc Hio].
  assert (Hfin : forall v (b : bool), (if b then v = 24 else legal_width v \/ v = 128) ->
    (v = 0 -> register_bit_offset g + register_bit_width g = 0) ->
    exists w, (Some v ≫= fun abw => Some (Z.min abw cap)) = Some w /\
      (if b then w = 24 else legal_width w) /\
      (w = 0 -> register_bit_offset g + register_bit_width g = 0) /\
      (address_space_id g = UACPI_ADDRESS_SPACE_SYSTEM_IO -> w <= 32)).
  { intros v b Hv Hv0. eexists. split; [done|]. split; [|split].
    - unfold legal_width in *. destruct b; lia.
    - intros E. apply Hv0. destruct b; lia.
    - intros E. specialize (Hio E). lia. }
  destruct ((_ =? 0) && _ && _) eqn:Hfadt.
  { cbn [negb]. rewrite andb_false_r. apply (Hfin _ false).
    rewrite <- andb_assoc in Hfadt. apply andb_true_iff in Hfadt as [E0 Hf].
    - by apply fadt_width.
    - lia. }
  cbn [negb]. rewrite andb_true_r. unfold truthy.
  destruct (Z.eqb_spec (access_size g) 0) as [E|E]; cbn [negb].
  - rewrite E. change (0 =? 3) with false.
    destruct (Z.eqb_spec (register_bit_offset g + register_bit_width g) 0) as [E0|E0].
    { exfalso. assert (register_bit_offset g = 0) as Eo by lia.
      assert (register_bit_width g = 0) as Ew by lia. rewrite Eo, Ew in Hfadt. by vm_compute in Hfadt. }
    rewrite u64_small by lia.
    destruct (msb_width (register_bit_offset g + register_bit_width g - 1)) as [H8|H8]; [lia| |].
    + rewrite (proj2 (Z.leb_le _ 8) H8). apply (Hfin 8 false); unfold legal_width; lia.
    + rewrite (proj2 (Z.leb_gt _ 8)) by lia.
      destruct (back_off_spec (address g) _ H8) as (w' & Hrun & Hw' & _).
      rewrite Hrun. apply (Hfin w' false); unfold legal_width; lia.
  - assert (access_size g = 1 \/ access_size g = 2 \/ access_size g = 3 \/ access_size g = 4)
      as [E'|[E'|[E'|E']]] by lia; rewrite E'; apply (Hfin _ _); vm_compute; try tauto; lia.
Qed.

(** What validation lets through.  Validation always ends.  A register
    it accepts has at most 64 bits, lies in memory or port space, and is
    accessed in units of 8, 16, 32 or 64 bits (none for a register without
    bits, at most 32 bits for ports), except when the description asks for
    units of size 3, which become 24 bits. *)
Theorem gas_validate_widths (g : acpi_gas) :
  gas_ok g ->
  exists st abw total, gas_validate (Some g) = Some (st, abw, total) /\
    (st = UACPI_STATUS_OK ->
       total = register_bit_offset g + register_bit_width g /\ total <= 64 /\
       (if asks_24_bits g then abw = 24 else legal_width abw) /\
       (abw = 0 -> total = 0) /\
       (address_space_id g = UACPI_ADDRESS_SPACE_SYSTEM_IO -> abw <= 32)).
Proof.
  intros Hok. unfold gas_validate.
  destruct (address g =? 0); [by eexists _, _, _|].
  destruct (negb _ && negb _); [by eexists _, _, _|].
  destruct (Z.ltb_spec 4 (access_size g)); [by eexists _, _, _|].
  destruct (access_width_spec g Hok) as (w & -> & Hw & Hw0 & Hio); [lia|]. cbn [mbind option_bind].
  set (t := register_bit_offset g + register_bit_width g).
  destruct (Z.ltb_spec 64 (UACPI_ALIGN_UP 64 t w)) as [|Hal]; [by eexists _, _, _|].
  eexists _, _, _. split; [done|]. intros _. destruct Hok as (Hbw & Hbo & _).
  fold t in Hw0. assert (Ht : t <= 64).
  { destruct (decide (w = 0)) as [E|E]; [lia|].
    assert (Hc : check_below 511 (fun t => forallb (fun w =>
      implb (UACPI_ALIGN_UP 64 t w <=? 64) (t <=? 64)) [8; 16; 32; 64; 24]) = true)
      by (vm_compute; reflexivity).
    apply (check_below_spec _ _ t) in Hc; [|lia]. cbv beta in Hc. rewrite forallb_forall in Hc.
    specialize (Hc w). rewrite (proj2 (Z.leb_le _ 64) Hal) in Hc. apply Z.leb_le, Hc.
    destruct (asks_24_bits g); [subst w|unfold legal_width in Hw]; cbn; lia. }
  rewrite u8_small by lia. by repeat split.
Qed.

Definition demo_gas (space width off size : Z) : acpi_gas := Gas space width off size 0x1008.

Lemma demo_gas_ok space width off size :
  0 <= width < 256 -> 0 <= off < 256 -> 0 <= size < 256 -> gas_ok (demo_gas space width off size).
Proof. intros. repeat split; cbn; lia. Qed.

Lemma gas_validate_widths_witness :
  exists st abw total, gas_validate (Some (demo_gas 0 24 3 0)) = Some (st, abw, total) /\
    (st = UACPI_STATUS_OK ->
       total = 3 + 24 /\ total <= 64 /\ legal_width abw /\ (abw = 0 -> total = 0) /\
       (0 = UACPI_ADDRESS_SPACE_SYSTEM_IO -> abw <= 32)).
Proof. apply (gas_validate_widths (demo_gas 0 24 3 0)). apply demo_gas_ok; lia. Defined.

(** ** Registers over a device that keeps what is written *)

Section Device.
Context {St : Type} `{GasIo St}.

(** Address of the unit at byte [off] of the register. *)
Definition unit_at (gas : uacpi_mapped_gas) (off : Z) : Z :=
  match backend gas with GAS_MEMORY => u64 (mapping gas + off) | GAS_IO => off end.

(** [cell] gives the contents of the units: an access of the register's
    width at an address reads the unit there, or replaces it and no unit that
    is a whole number of widths away. *)
Record device (gas : uacpi_mapped_gas) (cell : St -> Z -> Z) : Prop := {
  dev_range : forall s p, 0 <= cell s p < 2 ^ access_bit_width gas;
  dev_read : forall s p, let w := access_bit_width gas / 8 in
    match backend gas with
    | GAS_MEMORY => volatile_read p w s = Some (cell s p, s)
    | GAS_IO => uacpi_kernel_io_read (mapping gas) p w s = Some ((UACPI_STATUS_OK, cell s p), s)
    end;
  dev_write : forall s p v, let w := access_bit_width gas / 8 in
    0 <= v < 2 ^ access_bit_width gas ->
    exists s',
      match backend gas with
      | GAS_MEMORY => volatile_write p w v s = Some (tt, s')
      | GAS_IO => uacpi_kernel_io_write (mapping gas) p w v s = Some (UACPI_STATUS_OK, s')
      end /\ cell s' p = v /\ forall q, w <= Z.abs (q - p) -> cell s' q = cell s q;
}.

(** A register as [uacpi_map_gas_noalloc] leaves it, of whole units, whose
    bit offset lies in the first one, and that does not wrap around. *)
Record register_ok (gas : uacpi_mapped_gas) : Prop := {
  reg_width : match backend gas with
              | GAS_MEMORY => access_bit_width gas = 8 \/ access_bit_width gas = 16 \/
                  access_bit_width gas = 32 \/ access_bit_width gas = 64
              | GAS_IO => access_bit_width gas = 8 \/ access_bit_width gas = 16 \/
                  access_bit_width gas = 32
              end;
  reg_total : 0 < total_bit_width gas <= 64;
  reg_offset : 0 <= bit_offset gas < access_bit_width gas;
  reg_addr : 0 <= mapping gas /\ mapping gas + 8 <= 2 ^ 64;
}.

Context (gas : uacpi_mapped_gas) (cell : St -> Z -> Z).
Hypothesis Hdev : device gas cell.
Hypothesis Hreg : register_ok gas.
Let W := access_bit_width gas.
Let B := access_bit_width gas / 8.

Lemma widths : W = 8 * B /\ (B = 1 \/ B = 2 \/ B = 4 \/ B = 8).
Proof.
  unfold W, B. destruct Hreg as [Hw _ _ _].
  destruct (backend gas); repeat destruct Hw as [Hw|Hw]; rewrite Hw; vm_compute; tauto.
Qed.

Lemma gas_read_unit s off : gas_read gas off B s = Some ((UACPI_STATUS_OK, cell s (unit_at gas off)), s).
Proof.
  assert (Hr := dev_read gas cell Hdev s (unit_at gas off)). cbv zeta in Hr. fold B in Hr.
  unfold gas_read, uacpi_system_memory_read, uacpi_system_io_read, narrow_read, unit_at in *.
  destruct Hreg as [Hw _ _ _]. destruct (backend gas).
  - assert ((B =? 1) || (B =? 2) || (B =? 4) || (B =? 8) = true) as ->
      by (unfold B; repeat destruct Hw as [Hw|Hw]; rewrite Hw; done).
    mstep. by rewrite Hr.
  - assert ((B =? 1) || (B =? 2) || (B =? 4) = true) as ->
      by (unfold B; repeat destruct Hw as [Hw|Hw]; rewrite Hw; done).
    done.
Qed.

Lemma gas_write_unit s off v :
  0 <= v < 2 ^ W ->
  exists s', gas_write gas off B v s = Some (UACPI_STATUS_OK, s') /\
    cell s' (unit_at gas off) = v /\
    forall q, B <= Z.abs (q - unit_at gas off) -> cell s' q = cell s q.
Proof.
  intros Hv. destruct (dev_write gas cell Hdev s (unit_at gas off) v Hv) as (s' & Hrun & Hc & Ho).
  exists s'. split; [|done]. fold B in Hrun. destruct widths as [HW _].
  assert (Hwrap : wrap (8 * B) v = v) by (apply wrap_small; by rewrite <- HW).
  unfold gas_write, uacpi_system_memory_write, uacpi_system_io_write, narrow_write, unit_at in *.
  rewrite Hwrap. destruct Hreg as [Hw _ _ _]. destruct (backend gas).
  - assert ((B =? 1) || (B =? 2) || (B =? 4) || (B =? 8) = true) as ->
      by (unfold B; repeat destruct Hw as [Hw|Hw]; rewrite Hw; done).
    mstep. by rewrite Hrun.
  - assert ((B =? 1) || (B =? 2) || (B =? 4) = true) as ->
      by (unfold B; repeat destruct Hw as [Hw|Hw]; rewrite Hw; done).
    done.
Qed.

Lemma mask_ones : gas_mask gas = Some (Z.ones W).
Proof.
  unfold gas_mask. fold W. destruct Hreg as [Hw _ _ _]. unfold W in *.
  destruct (backend gas); repeat destruct Hw as [Hw|Hw]; rewrite Hw; by vm_compute.
Qed.

(** Units of the register: number, and the address of the [k]th. *)
Definition gas_units : Z := (total_bit_width gas + W - 1) / W.
Definition unit_addr (k : Z) : Z := unit_at gas (k * B).

(** The [k]th unit of a value. *)
Definition part (v k : Z) : Z := Z.shiftr v (k * W) mod 2 ^ W.

Lemma unit_addr_far j k :
  0 <= j < gas_units -> 0 <= k < gas_units -> j <> k -> B <= Z.abs (unit_addr j - unit_addr k).
Proof.
  intros Hj Hk Hne. destruct widths as [HW HB]. destruct Hreg as [_ Ht _ Ha].
  assert (Hu : gas_units * W < total_bit_width gas + W).
  { unfold gas_units. rewrite HW. destruct HB as [->|[->|[->| ->]]]; Z.div_mod_to_equations; lia. }
  assert (Hs : forall i, 0 <= i < gas_units -> unit_addr i
    = match backend gas with GAS_MEMORY => mapping gas | GAS_IO => 0 end + i * B).
  { intros i Hi. unfold unit_addr, unit_at. destruct (backend gas); [|lia].
    apply u64_small. nia. }
  rewrite !Hs by done. nia.
Qed.

Lemma units_iff k : 0 <= k -> (k < gas_units <-> k * W < total_bit_width gas).
Proof.
  intros Hk. destruct widths as [HW HB]. destruct Hreg as [_ Ht _ _]. unfold gas_units. rewrite HW.
  destruct HB as [->|[->|[->| ->]]]; Z.div_mod_to_equations; lia.
Qed.

(** The bits left before unit [k]. *)
Definition bits_before (k : Z) : Z := Z.max 0 (total_bit_width gas - k * W).

Lemma bits_before_step k :
  0 <= k -> u8 (bits_before k - Z.min (bits_before k) W) = bits_before (k + 1).
Proof.
  intros Hk. destruct widths as [HW HB]. destruct Hreg as [_ Ht _ _]. unfold bits_before.
  rewrite u8_small by lia. lia.
Qed.

Lemma part_mask v k : Z.land (Z.shiftr v (k * W)) (Z.ones W) = part v k.
Proof. unfold part. apply Z.land_ones. destruct widths. lia. Qed.

Lemma write_loop_units fuel k s v :
  0 <= k <= gas_units -> bits_before k <= Z.of_nat fuel ->
  exists s', gas_write_loop fuel gas (Z.ones W) (bit_offset gas) (bits_before k) k (k * B) v s
      = Some (UACPI_STATUS_OK, s') /\
    (forall j, k <= j < gas_units -> cell s' (unit_addr j) = part v j) /\
    (forall j, 0 <= j < k -> cell s' (unit_addr j) = cell s (unit_addr j)).
Proof.
  destruct widths as [HW HB]. assert (Hreg' := Hreg). destruct Hreg' as [_ Ht Ho Ha]. fold W in Ho.
  revert k s. induction fuel as [|fuel IH]; intros k s Hk Hf; cbn [gas_write_loop];
    destruct (Z.eqb_spec (bits_before k) 0) as [E|E]; try (unfold bits_before in *; lia).
  1, 2: exists s; repeat split; intros j Hj;
    assert (Hju := proj1 (units_iff j ltac:(lia)) (proj2 Hj)); unfold bits_before in E; nia.
  assert (Hkt : k * W < total_bit_width gas) by (unfold bits_before in E; lia).
  assert (Hku := proj2 (units_iff k ltac:(lia)) Hkt).
  unfold shr64. fold B. fold W. rewrite (proj2 (Z.ltb_lt _ 64)) by lia. mstep.
  rewrite part_mask, (proj2 (Z.leb_gt _ _)) by lia.
  assert (Hp : 0 <= part v k < 2 ^ W) by (apply Z.mod_pos_bound, pow2_pos; lia).
  destruct (gas_write_unit s (k * B) (part v k) Hp) as (s1 & Hw1 & Hc1 & Ho1).
  rewrite Hw1. cbn [is_ok negb]. rewrite bits_before_step by lia.
  rewrite (u8_small (k + 1)), (u64_small (k * B + B)) by nia.
  replace (k * B + B) with ((k + 1) * B) by lia.
  destruct (IH (k + 1) s1) as (s' & Hrun & Hnew & Hold).
  { split; [lia|]. lia. }
  { unfold bits_before in *. lia. }
  exists s'. split; [exact Hrun|]. split.
  - intros j Hj. destruct (decide (j = k)) as [->|Hne]; [|apply Hnew; lia].
    rewrite Hold by lia. exact Hc1.
  - intros j Hj. rewrite Hold by lia. apply Ho1. apply unit_addr_far; lia.
Qed.

(** Bit [i] of the register as its units hold it. *)
Definition register_bit (s : St) (i : Z) : bool :=
  Z.testbit (cell s (unit_addr (i / W))) (i mod W).

Lemma read_loop_units fuel k s out :
  0 <= k <= gas_units -> bits_before k <= Z.of_nat fuel ->
  exists r, gas_read_loop fuel gas (Z.ones W) (bit_offset gas) (bits_before k) k (k * B) out s
      = Some ((UACPI_STATUS_OK, r), s) /\
    forall i, 0 <= i -> Z.testbit r i
      = Z.testbit out i || ((k * W <=? i) && (i <? gas_units * W) && register_bit s i).
Proof.
  destruct widths as [HW HB]. assert (Hreg' := Hreg). destruct Hreg' as [_ Ht Ho Ha]. fold W in Ho.
  revert k out. induction fuel as [|fuel IH]; intros k out Hk Hf; cbn [gas_read_loop];
    destruct (Z.eqb_spec (bits_before k) 0) as [E|E]; try (unfold bits_before in *; lia).
  1, 2: exists out; split; [done|]; intros i Hi;
    assert (Hku : ~ k < gas_units) by (rewrite units_iff by lia; unfold bits_before in E; lia);
    destruct (Z.leb_spec (k * W) i), (Z.ltb_spec i (gas_units * W)); try nia;
    by rewrite orb_false_r.
  assert (Hkt : k * W < total_bit_width gas) by (unfold bits_before in E; lia).
  assert (Hku := proj2 (units_iff k ltac:(lia)) Hkt).
  fold B. fold W. rewrite (proj2 (Z.leb_gt _ _)) by lia. mstep.
  rewrite gas_read_unit. cbn [is_ok negb]. unfold shl64.
  rewrite (proj2 (Z.ltb_lt (k * W) 64)) by lia. rewrite bits_before_step by lia.
  rewrite (u8_small (k + 1)), (u64_small (k * B + B)) by nia.
  replace (k * B + B) with ((k + 1) * B) by lia.
  set (p := u64 _).
  destruct (IH (k + 1) (Z.lor out p)) as (r & Hrun & Hbits).
  { split; [lia|]. lia. }
  { unfold bits_before in *. lia. }
  exists r. split; [exact Hrun|]. intros i Hi. rewrite Hbits, Z.lor_spec, <- orb_assoc by done. f_equal.
  assert (Hpi : Z.testbit p i = (k * W <=? i) && (i <? (k + 1) * W) && register_bit s i).
  { unfold p. fold (unit_addr k).
    assert (H64 : (k + 1) * W <= 64)
      by (rewrite HW in *; destruct HB as [E'|[E'|[E'|E']]]; rewrite E' in *; lia).
    rewrite wrap_testbit, Z.shiftl_spec by lia.
    destruct (Z.ltb_spec i 64); cbn [andb]; [|by rewrite (proj2 (Z.ltb_ge i _)), andb_false_r by lia].
    destruct (Z.leb_spec (k * W) i); [|by rewrite Z.testbit_neg_r by lia]. cbn [andb].
    rewrite Z.land_spec, ones_bit by lia.
    destruct (Z.ltb_spec i ((k + 1) * W)).
    - rewrite (proj2 (Z.ltb_lt _ W)), andb_true_r by lia. cbn [andb]. unfold register_bit.
      replace (i / W) with k by (apply (Z.div_unique _ _ _ (i - k * W)); lia).
      by replace (i mod W) with (i - k * W) by (apply (Z.mod_unique _ _ k); lia).
    - rewrite (proj2 (Z.ltb_ge _ W)) by lia. apply andb_false_r. }
  rewrite Hpi. destruct (register_bit s i); [|by rewrite !andb_false_r]. rewrite !andb_true_r.
  assert ((k + 1) * W <= gas_units * W) by nia.
  destruct (Z.leb_spec (k * W) i), (Z.ltb_spec i ((k + 1) * W)), (Z.leb_spec ((k + 1) * W) i),
    (Z.ltb_spec i (gas_units * W)); try lia; done.
Qed.

End Device.

(** A register reads back what was written to it.  On a device that
    keeps its units, writing a register of any accepted width succeeds, and
    reading it gives the value cut to the units it occupies: all 64 bits when
    they fill 64, and never a shift out of range on the way. *)
Theorem gas_register_roundtrip {St} `{GasIo St} (gas : uacpi_mapped_gas) (cell : St -> Z -> Z)
    (v : Z) (s : St) :
  device gas cell -> register_ok gas -> 0 <= v < 2 ^ 64 ->
  exists s' r, uacpi_gas_write_mapped gas v s = Some (UACPI_STATUS_OK, s') /\
    uacpi_gas_read_mapped gas s' = Some ((UACPI_STATUS_OK, r), s') /\
    r = v mod 2 ^ (gas_units gas * access_bit_width gas).
Proof.
  intros Hd Hr Hv. assert (Hreg := Hr). destruct Hreg as [_ Ht _ _].
  destruct (widths gas Hr) as [HW HB].
  assert (Hu0 : 0 <= gas_units gas).
  { unfold gas_units. rewrite HW. apply Z.div_pos; lia. }
  assert (Hb0 : bits_before gas 0 = total_bit_width gas) by (unfold bits_before; lia).
  destruct (write_loop_units gas cell Hd Hr (Z.to_nat (total_bit_width gas)) 0 s v)
    as (s' & Hw & Hnew & _); try lia.
  destruct (read_loop_units gas cell Hd Hr (Z.to_nat (total_bit_width gas)) 0 s' 0)
    as (r & Hrd & Hbits); try lia.
  rewrite Hb0 in Hw, Hrd. rewrite Z.mul_0_l in Hw, Hrd.
  unfold uacpi_gas_write_mapped, uacpi_gas_read_mapped. exists s', r.
  rewrite (mask_ones gas Hr). mstep. split; [done|]. split; [done|].
  set (n := gas_units gas) in *. set (W := access_bit_width gas) in *.
  apply Z_bits_ext. intros i Hi. rewrite <- Z.land_ones by nia.
  rewrite Z.land_spec, ones_bit by nia.
  rewrite Hbits, Z.bits_0, Z.mul_0_l, (proj2 (Z.leb_le 0 i)) by lia. cbn [orb andb]. fold W.
  destruct (Z.ltb_spec i (n * W)); [|by rewrite andb_false_r]. rewrite andb_true_r. cbn [andb].
  unfold register_bit. fold W.
  assert (0 <= i / W < n) by (split; [apply Z.div_pos|apply Z.div_lt_upper_bound]; lia).
  rewrite Hnew by done. unfold part. fold W.
  rewrite Z.mod_pow2_bits_low by (apply Z.mod_pos_bound; lia).
  rewrite Z.shiftr_spec by (apply Z.mod_pos_bound; lia). f_equal.
  rewrite (Z.div_mod i W) at 3 by lia. lia.
Qed.

(** A device whose state is the last value written at each address. *)
#[export] Instance latch_io : GasIo (Z -> Z) := {
  uacpi_kernel_map p _ := mret (Some p);
  uacpi_kernel_unmap _ _ := mret tt;
  volatile_read p w := gets (fun s => wrap (8 * w) (s p));
  volatile_write p w v := modify (fun s q => if q =? p then v else s q);
  uacpi_kernel_io_map p _ := mret (UACPI_STATUS_OK, p);
  uacpi_kernel_io_unmap _ := mret tt;
  uacpi_kernel_io_read _ p w := fun s => Some ((UACPI_STATUS_OK, wrap (8 * w) (s p)), s);
  uacpi_kernel_io_write _ p w v :=
    fun s => Some (UACPI_STATUS_OK, fun q => if q =? p then v else s q);
  uacpi_kernel_pci_read _ _ _ := mret (UACPI_STATUS_NOT_FOUND, 0);
  uacpi_kernel_pci_write _ _ _ _ := mret UACPI_STATUS_NOT_FOUND;
  uacpi_gas_alloc := mret true;
}.

Lemma latch_device gas :
  register_ok gas -> device gas (fun s p => wrap (access_bit_width gas) (s p)).
Proof.
  intros Hr. destruct (widths gas Hr) as [HW HB]. constructor.
  - intros s p. apply wrap_range. lia.
  - intros s p w. fold w in HW. rewrite HW. by destruct (backend gas).
  - intros s p v w Hv. exists (fun q => if q =? p then v else s q). split; [by destruct (backend gas)|].
    split; [rewrite Z.eqb_refl; by apply wrap_small|]. intros q Hq.
    unfold w in Hq. by rewrite (proj2 (Z.eqb_neq q p)) by lia.
Qed.

(** A 48-bit register of three words in memory. *)
Definition demo_register : uacpi_mapped_gas := MappedGas 4096 16 48 3 GAS_MEMORY.

Lemma demo_register_ok : register_ok demo_register.
Proof. constructor; cbn; lia. Qed.

Lemma gas_register_roundtrip_witness :
  exists s' r, uacpi_gas_write_mapped demo_register 0xAABBCCDDEEFF0011 (fun _ => 0)
      = Some (UACPI_STATUS_OK, s') /\
    uacpi_gas_read_mapped demo_register s' = Some ((UACPI_STATUS_OK, r), s') /\
    r = 0xAABBCCDDEEFF0011 mod 2 ^ 48.
Proof.
  apply (gas_register_roundtrip demo_register (fun s p => wrap 16 (s p))).
  - apply latch_device, demo_register_ok.
  - apply demo_register_ok.
  - lia.
Defined.

(** ** Access size 3 *)

(** A register described with access size 3 (double words in the ACPI
    encoding) and a bit offset cannot be accessed: the size is decoded to 24
    bits, no 3-byte access exists, and both reading and writing map the
    register, fail with [INVALID_ARGUMENT] without touching it, and unmap. *)
Theorem gas_access_size_3_fails {St} `{GasIo St} (g : acpi_gas) (p v : Z) (s s1 s2 : St) :
  gas_ok g -> asks_24_bits g = true -> address g <> 0 ->
  address_space_id g = UACPI_ADDRESS_SPACE_SYSTEM_MEMORY ->
  let total := register_bit_offset g + register_bit_width g in
  0 < total <= 48 -> register_bit_offset g < 24 ->
  uacpi_kernel_map (address g) (total / 8) s = Some (Some p, s1) ->
  uacpi_kernel_unmap p 3 s1 = Some (tt, s2) ->
  uacpi_gas_read (Some g) s = Some ((UACPI_STATUS_INVALID_ARGUMENT, 0), s2) /\
  uacpi_gas_write (Some g) v s = Some (UACPI_STATUS_INVALID_ARGUMENT, s2).
Proof.
  intros Hok H24 Ha Hsp total Ht Hoff Hmap Hunmap.
  assert (Hsize : access_size g = 3)
    by (unfold asks_24_bits in H24; apply andb_true_iff in H24 as [?%Z.eqb_eq _]; done).
  destruct (access_width_spec g Hok) as (w & Hw & Hw24 & _ & _); [lia|]. rewrite H24 in Hw24. subst w.
  assert (Hal : UACPI_ALIGN_UP 64 total 24 <= 64).
  { assert (Hc : check_below 49 (fun t => UACPI_ALIGN_UP 64 t 24 <=? 64) = true)
      by (vm_compute; reflexivity).
    apply (check_below_spec _ _ total) in Hc; [|lia]. by apply Z.leb_le. }
  assert (Hval : gas_validate (Some g) = Some (UACPI_STATUS_OK, 24, total)).
  { unfold gas_validate. rewrite (proj2 (Z.eqb_neq _ _) Ha), Hsp, Hsize, Hw.
    change (4 <? 3) with false. cbn [mbind option_bind]. fold total.
    change (negb (UACPI_ADDRESS_SPACE_SYSTEM_MEMORY =? UACPI_ADDRESS_SPACE_SYSTEM_IO)
            && negb (UACPI_ADDRESS_SPACE_SYSTEM_MEMORY =? UACPI_ADDRESS_SPACE_SYSTEM_MEMORY))
      with false. cbv iota.
    rewrite (proj2 (Z.ltb_ge _ _) Hal). rewrite u8_small by lia. done. }
  assert (Hm : uacpi_map_gas_noalloc (Some g) s
    = Some ((UACPI_STATUS_OK,
             Some (MappedGas p 24 total (register_bit_offset g) GAS_MEMORY)), s1)).
  { unfold uacpi_map_gas_noalloc. mstep. rewrite Hval. cbv beta iota. rewrite Hsp, Z.eqb_refl.
    by rewrite Hmap. }
  destruct (Z.to_nat total) as [|n] eqn:En; [lia|].
  assert (Hbo : 24 <=? register_bit_offset g = false) by (apply Z.leb_gt; lia).
  assert (Ht0 : total =? 0 = false) by (apply Z.eqb_neq; lia).
  set (m := MappedGas p 24 total (register_bit_offset g) GAS_MEMORY) in *.
  assert (Hmask : gas_mask m = Some (Z.ones 24)) by reflexivity.
  assert (Hum : uacpi_unmap_gas_nofree m s1 = Some (tt, s2)) by exact Hunmap.
  assert (Hread : gas_read m 0 3 s1 = Some ((UACPI_STATUS_INVALID_ARGUMENT, 0), s1)) by done.
  assert (Hwrite : forall d, gas_write m 0 3 d s1 = Some (UACPI_STATUS_INVALID_ARGUMENT, s1)) by done.
  unfold uacpi_gas_read, uacpi_gas_write, uacpi_gas_read_mapped, uacpi_gas_write_mapped.
  split; mstep; rewrite Hm; cbv beta iota; rewrite Hmask; cbv beta iota;
    change (total_bit_width m) with total; change (bit_offset m) with (register_bit_offset g);
    rewrite En; cbn [gas_read_loop gas_write_loop]; rewrite Ht0; mstep;
    change (access_bit_width m) with 24; rewrite Hbo; change (24 / 8) with 3.
  - rewrite Hread. cbn [is_ok negb]. by rewrite Hum.
  - change (shr64 v (0 * 24)) with (Some (Z.shiftr v 0)). cbv beta iota.
    rewrite Hwrite. cbn [is_ok negb]. by rewrite Hum.
Qed.

Lemma gas_access_size_3_fails_witness :
  uacpi_gas_read (Some (demo_gas 0 24 3 3)) (fun _ => 0)
    = Some ((UACPI_STATUS_INVALID_ARGUMENT, 0), fun _ => 0) /\
  uacpi_gas_write (Some (demo_gas 0 24 3 3)) 5 (fun _ => 0)
    = Some (UACPI_STATUS_INVALID_ARGUMENT, fun _ => 0).
Proof.
  apply (gas_access_size_3_fails (demo_gas 0 24 3 3) 0x1008 5 _ (fun _ => 0));
    first [by apply demo_gas_ok | done | cbn; lia].
Defined.
