(* ===== verification/Registers.v ===== *)
(** * The fixed ACPI registers: [extra/uacpi/registers.c]

    The power-management registers of the FADT, their fields, and the lazy
    mapping of the one or two blocks of each.  The hardware behind a mapped
    block is reached through [Gas]; the kernel's spinlock is a mutex
    ([KernelSync]), so taking it twice never returns ([None]). *)
From S2P Require Import Prelude Status KernelSync UStd BitIo FieldIo Gas.

(** ** Descriptions *)

Inductive uacpi_register :=
  | UACPI_REGISTER_PM1_STS | UACPI_REGISTER_PM1_EN | UACPI_REGISTER_PM1_CNT
  | UACPI_REGISTER_PM_TMR | UACPI_REGISTER_PM2_CNT | UACPI_REGISTER_SLP_CNT
  | UACPI_REGISTER_SLP_STS | UACPI_REGISTER_RESET | UACPI_REGISTER_SMI_CMD.

#[global] Instance uacpi_register_eq_dec : EqDecision uacpi_register.
Proof. solve_decision. Defined.

Definition all_registers : list uacpi_register :=
  [UACPI_REGISTER_PM1_STS; UACPI_REGISTER_PM1_EN; UACPI_REGISTER_PM1_CNT;
   UACPI_REGISTER_PM_TMR; UACPI_REGISTER_PM2_CNT; UACPI_REGISTER_SLP_CNT;
   UACPI_REGISTER_SLP_STS; UACPI_REGISTER_RESET; UACPI_REGISTER_SMI_CMD].

Inductive register_kind := REGISTER_KIND_GAS | REGISTER_KIND_IO.
Inductive register_access_kind :=
  | REGISTER_ACCESS_KIND_PRESERVE | REGISTER_ACCESS_KIND_WRITE_TO_CLEAR
  | REGISTER_ACCESS_KIND_NORMAL.

(** The values of the enumerators, which the code compares across the two
    types. *)
Definition register_kind_num (k : register_kind) : Z :=
  match k with REGISTER_KIND_GAS => 0 | REGISTER_KIND_IO => 1 end.
Definition register_access_kind_num (k : register_access_kind) : Z :=
  match k with
  | REGISTER_ACCESS_KIND_PRESERVE => 0
  | REGISTER_ACCESS_KIND_WRITE_TO_CLEAR => 1
  | REGISTER_ACCESS_KIND_NORMAL => 2
  end.

(** The parts of [g_uacpi_rt_ctx] the registers are described by. *)
Record fixed_hw := FixedHw {
  pm1a_status_blk : acpi_gas;
  pm1b_status_blk : acpi_gas;
  pm1a_enable_blk : acpi_gas;
  pm1b_enable_blk : acpi_gas;
  x_pm1a_cnt_blk : acpi_gas;
  x_pm1b_cnt_blk : acpi_gas;
  x_pm_tmr_blk : acpi_gas;
  x_pm2_cnt_blk : acpi_gas;
  sleep_control_reg : acpi_gas;
  sleep_status_reg : acpi_gas;
  reset_reg : acpi_gas;
  smi_cmd : Z;
}.

(** What an accessor points to. *)
Inductive accessor := GasAt (f : fixed_hw -> acpi_gas) | U32At (f : fixed_hw -> Z).

Record register_spec := RegisterSpec {
  kind : register_kind;
  access_kind : register_access_kind;
  access_width : Z;
  accessors : option accessor * option accessor;
  write_only_mask : Z;
  preserve_mask : Z;
}.

Definition bit (i : Z) : Z := Z.shiftl 1 i.
Definition bits (l : list Z) : Z := foldr (fun i m => Z.lor (bit i) m) 0 l.

Definition ACPI_PM1_STS_IGN0_MASK : Z := bit 11.
Definition ACPI_PM1_CNT_GBL_RLS_MASK : Z := bit 2.
Definition ACPI_PM1_CNT_SLP_EN_MASK : Z := bit 13.
Definition ACPI_PM1_CNT_PRESERVE_MASK : Z := bits [3; 4; 5; 6; 7; 8; 9; 14; 15].
Definition ACPI_PM2_CNT_PRESERVE_MASK : Z := u64 (Z.lnot (bit 0)).
Definition ACPI_SLP_CNT_SLP_EN_MASK : Z := bit 5.
Definition ACPI_SLP_CNT_PRESERVE_MASK : Z := bits [0; 1; 6; 7].
Definition ACPI_SLP_STS_PRESERVE_MASK : Z := u64 (Z.lnot (bit 7)).
Definition ACPI_SLP_TYP_MAX : Z := 7.

Definition gas_spec (k : register_access_kind) (a : fixed_hw -> acpi_gas)
    (b : option (fixed_hw -> acpi_gas)) (wo pm : Z) : register_spec :=
  RegisterSpec REGISTER_KIND_GAS k 0 (Some (GasAt a), GasAt <$> b) wo pm.

Definition g_registers (r : uacpi_register) : register_spec :=
  match r with
  | UACPI_REGISTER_PM1_STS =>
      gas_spec REGISTER_ACCESS_KIND_WRITE_TO_CLEAR pm1a_status_blk (Some pm1b_status_blk)
        0 ACPI_PM1_STS_IGN0_MASK
  | UACPI_REGISTER_PM1_EN =>
      gas_spec REGISTER_ACCESS_KIND_PRESERVE pm1a_enable_blk (Some pm1b_enable_blk) 0 0
  | UACPI_REGISTER_PM1_CNT =>
      gas_spec REGISTER_ACCESS_KIND_PRESERVE x_pm1a_cnt_blk (Some x_pm1b_cnt_blk)
        (Z.lor ACPI_PM1_CNT_SLP_EN_MASK ACPI_PM1_CNT_GBL_RLS_MASK)
        ACPI_PM1_CNT_PRESERVE_MASK
  | UACPI_REGISTER_PM_TMR =>
      gas_spec REGISTER_ACCESS_KIND_PRESERVE x_pm_tmr_blk None 0 0
  | UACPI_REGISTER_PM2_CNT =>
      gas_spec REGISTER_ACCESS_KIND_PRESERVE x_pm2_cnt_blk None 0 ACPI_PM2_CNT_PRESERVE_MASK
  | UACPI_REGISTER_SLP_CNT =>
      gas_spec REGISTER_ACCESS_KIND_PRESERVE sleep_control_reg None
        ACPI_SLP_CNT_SLP_EN_MASK ACPI_SLP_CNT_PRESERVE_MASK
  | UACPI_REGISTER_SLP_STS =>
      gas_spec REGISTER_ACCESS_KIND_WRITE_TO_CLEAR sleep_status_reg None
        0 ACPI_SLP_STS_PRESERVE_MASK
  | UACPI_REGISTER_RESET => gas_spec REGISTER_ACCESS_KIND_NORMAL reset_reg None 0 0
  | UACPI_REGISTER_SMI_CMD =>
      RegisterSpec REGISTER_KIND_IO REGISTER_ACCESS_KIND_NORMAL 1 (Some (U32At smi_cmd), None)
        0 0
  end.

Inductive uacpi_register_field :=
  | UACPI_REGISTER_FIELD_TMR_STS | UACPI_REGISTER_FIELD_BM_STS
  | UACPI_REGISTER_FIELD_GBL_STS | UACPI_REGISTER_FIELD_PWRBTN_STS
  | UACPI_REGISTER_FIELD_SLPBTN_STS | UACPI_REGISTER_FIELD_RTC_STS
  | UACPI_REGISTER_FIELD_PCIEX_WAKE_STS | UACPI_REGISTER_FIELD_HWR_WAK_STS
  | UACPI_REGISTER_FIELD_WAK_STS | UACPI_REGISTER_FIELD_TMR_EN
  | UACPI_REGISTER_FIELD_GBL_EN | UACPI_REGISTER_FIELD_PWRBTN_EN
  | UACPI_REGISTER_FIELD_SLPBTN_EN | UACPI_REGISTER_FIELD_RTC_EN
  | UACPI_REGISTER_FIELD_PCIEXP_WAKE_DIS | UACPI_REGISTER_FIELD_SCI_EN
  | UACPI_REGISTER_FIELD_BM_RLD | UACPI_REGISTER_FIELD_GBL_RLS
  | UACPI_REGISTER_FIELD_SLP_TYP | UACPI_REGISTER_FIELD_HWR_SLP_TYP
  | UACPI_REGISTER_FIELD_SLP_EN | UACPI_REGISTER_FIELD_HWR_SLP_EN
  | UACPI_REGISTER_FIELD_ARB_DIS.

#[global] Instance uacpi_register_field_eq_dec : EqDecision uacpi_register_field.
Proof. solve_decision. Defined.

(** The enumerators in order: a field's number is its position. *)
Definition all_fields : list uacpi_register_field :=
  [UACPI_REGISTER_FIELD_TMR_STS; UACPI_REGISTER_FIELD_BM_STS; UACPI_REGISTER_FIELD_GBL_STS;
   UACPI_REGISTER_FIELD_PWRBTN_STS; UACPI_REGISTER_FIELD_SLPBTN_STS;
   UACPI_REGISTER_FIELD_RTC_STS; UACPI_REGISTER_FIELD_PCIEX_WAKE_STS;
   UACPI_REGISTER_FIELD_HWR_WAK_STS; UACPI_REGISTER_FIELD_WAK_STS;
   UACPI_REGISTER_FIELD_TMR_EN; UACPI_REGISTER_FIELD_GBL_EN; UACPI_REGISTER_FIELD_PWRBTN_EN;
   UACPI_REGISTER_FIELD_SLPBTN_EN; UACPI_REGISTER_FIELD_RTC_EN;
   UACPI_REGISTER_FIELD_PCIEXP_WAKE_DIS; UACPI_REGISTER_FIELD_SCI_EN;
   UACPI_REGISTER_FIELD_BM_RLD; UACPI_REGISTER_FIELD_GBL_RLS; UACPI_REGISTER_FIELD_SLP_TYP;
   UACPI_REGISTER_FIELD_HWR_SLP_TYP; UACPI_REGISTER_FIELD_SLP_EN;
   UACPI_REGISTER_FIELD_HWR_SLP_EN; UACPI_REGISTER_FIELD_ARB_DIS].

Record register_field := RegisterField {
  reg : uacpi_register;
  offset : Z;
  mask : Z;
}.

(** A field of one bit. *)
Definition flag_field (r : uacpi_register) (i : Z) : register_field := RegisterField r i (bit i).

Definition g_fields (f : uacpi_register_field) : register_field :=
  match f with
  | UACPI_REGISTER_FIELD_TMR_STS => flag_field UACPI_REGISTER_PM1_STS 0
  | UACPI_REGISTER_FIELD_BM_STS => flag_field UACPI_REGISTER_PM1_STS 4
  | UACPI_REGISTER_FIELD_GBL_STS => flag_field UACPI_REGISTER_PM1_STS 5
  | UACPI_REGISTER_FIELD_PWRBTN_STS => flag_field UACPI_REGISTER_PM1_STS 8
  | UACPI_REGISTER_FIELD_SLPBTN_STS => flag_field UACPI_REGISTER_PM1_STS 9
  | UACPI_REGISTER_FIELD_RTC_STS => flag_field UACPI_REGISTER_PM1_STS 10
  | UACPI_REGISTER_FIELD_HWR_WAK_STS => flag_field UACPI_REGISTER_SLP_STS 7
  | UACPI_REGISTER_FIELD_WAK_STS => flag_field UACPI_REGISTER_PM1_STS 15
  | UACPI_REGISTER_FIELD_PCIEX_WAKE_STS => flag_field UACPI_REGISTER_PM1_STS 14
  | UACPI_REGISTER_FIELD_TMR_EN => flag_field UACPI_REGISTER_PM1_EN 0
  | UACPI_REGISTER_FIELD_GBL_EN => flag_field UACPI_REGISTER_PM1_EN 5
  | UACPI_REGISTER_FIELD_PWRBTN_EN => flag_field UACPI_REGISTER_PM1_EN 8
  | UACPI_REGISTER_FIELD_SLPBTN_EN => flag_field UACPI_REGISTER_PM1_EN 9
  | UACPI_REGISTER_FIELD_RTC_EN => flag_field UACPI_REGISTER_PM1_EN 10
  | UACPI_REGISTER_FIELD_PCIEXP_WAKE_DIS => flag_field UACPI_REGISTER_PM1_EN 14
  | UACPI_REGISTER_FIELD_SCI_EN => flag_field UACPI_REGISTER_PM1_CNT 0
  | UACPI_REGISTER_FIELD_BM_RLD => flag_field UACPI_REGISTER_PM1_CNT 1
  | UACPI_REGISTER_FIELD_GBL_RLS => flag_field UACPI_REGISTER_PM1_CNT 2
  | UACPI_REGISTER_FIELD_SLP_TYP =>
      RegisterField UACPI_REGISTER_PM1_CNT 10 (Z.shiftl ACPI_SLP_TYP_MAX 10)
  | UACPI_REGISTER_FIELD_SLP_EN => flag_field UACPI_REGISTER_PM1_CNT 13
  | UACPI_REGISTER_FIELD_HWR_SLP_TYP =>
      RegisterField UACPI_REGISTER_SLP_CNT 2 (Z.shiftl ACPI_SLP_TYP_MAX 2)
  | UACPI_REGISTER_FIELD_HWR_SLP_EN => flag_field UACPI_REGISTER_SLP_CNT 5
  | UACPI_REGISTER_FIELD_ARB_DIS => flag_field UACPI_REGISTER_PM2_CNT 0
  end.

(** ** State *)

Inductive register_mapping_state :=
  | REGISTER_MAPPING_STATE_NONE
  | REGISTER_MAPPING_STATE_NOT_NEEDED
  | REGISTER_MAPPING_STATE_MAPPED.

#[global] Instance register_mapping_state_eq_dec : EqDecision register_mapping_state.
Proof. solve_decision. Defined.

(** One of the two blocks: its state and its mapping once there is one. *)
Record block_mapping := BlockMapping {
  block_state : register_mapping_state;
  block_gas : option uacpi_mapped_gas;
}.
Definition register_mapping : Type := block_mapping * block_mapping.
Definition block_at (m : register_mapping) (idx : bool) : block_mapping :=
  if idx then m.2 else m.1.
Definition set_block (m : register_mapping) (idx : bool) (b : block_mapping) : register_mapping :=
  if idx then (m.1, b) else (b, m.2).

Definition unmapped : register_mapping :=
  (BlockMapping REGISTER_MAPPING_STATE_NONE None, BlockMapping REGISTER_MAPPING_STATE_NONE None).

Record reg_state (St : Type) := RegState {
  reg_init_level : uacpi_init_level;
  g_reg_lock : mutex_handle;
  g_register_mappings : uacpi_register -> register_mapping;
  device : St;
}.
Arguments RegState {St} _ _ _ _.
Arguments reg_init_level {St} _.
Arguments g_reg_lock {St} _.
Arguments g_register_mappings {St} _ _.
Arguments device {St} _.

Section Registers.
Context {St : Type} `{GasIo St} (hw : fixed_hw).
Abbreviation MR := (M (reg_state St)).

(** An action of the hardware. *)
Definition on_device {A} (m : M St A) : MR A := fun s =>
  '(a, d) ← m (device s);
  Some (a, RegState (reg_init_level s) (g_reg_lock s) (g_register_mappings s) d).

Definition set_lock (l : mutex_handle) (s : reg_state St) : reg_state St :=
  RegState (reg_init_level s) l (g_register_mappings s) (device s).

Definition set_mapping (r : uacpi_register) (m : register_mapping) (s : reg_state St)
    : reg_state St :=
  RegState (reg_init_level s) (g_reg_lock s)
    (fun r' => if decide (r' = r) then m else g_register_mappings s r') (device s).

(** The kernel's spinlock calls dereference the handle. *)
Definition lock_registers : MR unit := fun s =>
  m ← g_reg_lock s; '(_, m) ← uacpi_kernel_acquire_mutex m 65535; Some (tt, set_lock (Some m) s).
Definition unlock_registers : MR unit := fun s =>
  m ← g_reg_lock s; Some (tt, set_lock (Some (uacpi_kernel_release_mutex m)) s).

(** ** Mapping *)

(** The GAS a block is mapped with; the inner [None] is a block that needs no
    mapping, the outer one an accessor of the wrong type. *)
Definition block_gas_of (spec : register_spec) (idx : bool) : option (option acpi_gas) :=
  match kind spec with
  | REGISTER_KIND_GAS =>
      match (if idx then (accessors spec).2 else (accessors spec).1) with
      | None => Some None
      | Some (GasAt f) => let gas := f hw in Some (if address gas =? 0 then None else Some gas)
      | Some (U32At _) => None
      end
  | REGISTER_KIND_IO =>
      if idx then Some None
      else match (accessors spec).1 with
           | Some (U32At f) =>
               Some (Some (Gas UACPI_ADDRESS_SPACE_SYSTEM_IO (u8 (access_width spec * 8)) 0 0
                             (f hw)))
           | _ => None
           end
  end.

Definition map_one (r : uacpi_register) (spec : register_spec) (idx : bool) : MR uacpi_status :=
  m ← gets (fun s => g_register_mappings s r);
  match block_state (block_at m idx) with
  | REGISTER_MAPPING_STATE_NONE =>
      og ← liftO (block_gas_of spec idx);
      match og with
      | None =>
          _ ← modify (set_mapping r (set_block m idx
                 (BlockMapping REGISTER_MAPPING_STATE_NOT_NEEDED (block_gas (block_at m idx)))));
          mret UACPI_STATUS_OK
      | Some gas =>
          '(ret, mg) ← on_device (uacpi_map_gas_noalloc (Some gas));
          if is_ok ret then
            _ ← modify (set_mapping r (set_block m idx
                   (BlockMapping REGISTER_MAPPING_STATE_MAPPED mg)));
            mret ret
          else mret ret
      end
  | _ => mret UACPI_STATUS_OK
  end.

Definition ensure_register_mapped (r : uacpi_register) (spec : register_spec)
    : MR uacpi_status :=
  m ← gets (fun s => g_register_mappings s r);
  if bool_decide (block_state m.1 = REGISTER_MAPPING_STATE_NONE)
     || bool_decide (block_state m.2 = REGISTER_MAPPING_STATE_NONE)
  then
    _ ← lock_registers;
    ret ← map_one r spec false;
    ret ← (if is_ok ret then map_one r spec true else mret ret);
    _ ← unlock_registers;
    mret ret
  else mret UACPI_STATUS_OK.

(** The index is cut to 8 bits; past the last register it is invalid. *)
Definition get_reg (idx : Z) : uacpi_status + uacpi_register :=
  match all_registers !! Z.to_nat (u8 idx) with
  | None => inl UACPI_STATUS_INVALID_ARGUMENT
  | Some r => inr r
  end.

(** ** Reading *)

(** The status and the value, 0 for a block that is not mapped. *)
Definition do_read_one (b : block_mapping) : MR (uacpi_status * Z) :=
  match block_state b with
  | REGISTER_MAPPING_STATE_MAPPED =>
      gas ← liftO (block_gas b); on_device (uacpi_gas_read_mapped gas)
  | _ => mret (UACPI_STATUS_OK, 0)
  end.

Definition do_read_register (spec : register_spec) (m : register_mapping)
    : MR (uacpi_status * Z) :=
  '(ret, value0) ← do_read_one m.1;
  if negb (is_ok ret) then mret (ret, 0) else
  '(ret, value1) ← do_read_one m.2;
  if negb (is_ok ret) then mret (ret, 0) else
  let value := Z.lor value0 value1 in
  mret (UACPI_STATUS_OK,
        if truthy (write_only_mask spec) then Z.ldiff value (write_only_mask spec) else value).

(** [UACPI_ENSURE_INIT_LEVEL_AT_LEAST(SUBSYSTEM_INITIALIZED)], then the
    register mapped. *)
Definition with_register {A} (r : uacpi_register) (fail : uacpi_status -> A)
    (body : register_spec -> register_mapping -> MR A) : MR A :=
  let spec := g_registers r in
  ret ← ensure_register_mapped r spec;
  if negb (is_ok ret) then mret (fail ret)
  else m ← gets (fun s => g_register_mappings s r); body spec m.

Definition with_register_index {A} (idx : Z) (fail : uacpi_status -> A)
    (body : register_spec -> register_mapping -> MR A) : MR A :=
  lvl ← gets reg_init_level;
  if negb (init_level_at_least lvl UACPI_INIT_LEVEL_SUBSYSTEM_INITIALIZED)
  then mret (fail UACPI_STATUS_INIT_LEVEL_MISMATCH)
  else match get_reg idx with
       | inl ret => mret (fail ret)
       | inr r => with_register r fail body
       end.

Definition uacpi_read_register (reg_enum : Z) : MR (uacpi_status * Z) :=
  with_register_index reg_enum (fun ret => (ret, 0)) do_read_register.

(** ** Writing *)

Definition do_write_one (b : block_mapping) (in_value : Z) : MR uacpi_status :=
  match block_state b with
  | REGISTER_MAPPING_STATE_MAPPED =>
      gas ← liftO (block_gas b); on_device (uacpi_gas_write_mapped gas in_value)
  | _ => mret UACPI_STATUS_OK
  end.

(** Both blocks, the second unless the first fails. *)
Definition write_blocks (m : register_mapping) (value0 value1 : Z) : MR uacpi_status :=
  ret ← do_write_one m.1 value0;
  if negb (is_ok ret) then mret ret else do_write_one m.2 value1.

Definition do_write_register (spec : register_spec) (m : register_mapping) (in_value : Z)
    : MR uacpi_status :=
  '(ret, in_value) ←
    (if truthy (preserve_mask spec) then
       let in_value := Z.ldiff in_value (preserve_mask spec) in
       match access_kind spec with
       | REGISTER_ACCESS_KIND_PRESERVE =>
           '(ret, data) ← do_read_register spec m;
           mret (ret, Z.lor in_value (Z.land data (preserve_mask spec)))
       | _ => mret (UACPI_STATUS_OK, in_value)
       end
     else mret (UACPI_STATUS_OK, in_value));
  if negb (is_ok ret) then mret ret else write_blocks m in_value in_value.

Definition uacpi_write_register (reg_enum in_value : Z) : MR uacpi_status :=
  with_register_index reg_enum id (fun spec m => do_write_register spec m in_value).

Definition uacpi_write_registers (reg_enum in_value0 in_value1 : Z) : MR uacpi_status :=
  with_register_index reg_enum id (fun spec m => write_blocks m in_value0 in_value1).

(** ** Fields *)

(** A field by its number, which is cut to 8 bits, after the level check. *)
Definition with_field {A} (field_enum : Z) (fail : uacpi_status -> A)
    (body : register_field -> register_spec -> register_mapping -> MR A) : MR A :=
  lvl ← gets reg_init_level;
  if negb (init_level_at_least lvl UACPI_INIT_LEVEL_SUBSYSTEM_INITIALIZED)
  then mret (fail UACPI_STATUS_INIT_LEVEL_MISMATCH)
  else match all_fields !! Z.to_nat (u8 field_enum) with
       | None => mret (fail UACPI_STATUS_INVALID_ARGUMENT)
       | Some f => with_register (reg (g_fields f)) fail (body (g_fields f))
       end.

Definition uacpi_read_register_field (field_enum : Z) : MR (uacpi_status * Z) :=
  with_field field_enum (fun ret => (ret, 0)) (fun field spec m =>
    '(ret, value) ← do_read_register spec m;
    if negb (is_ok ret) then mret (ret, 0)
    else mret (UACPI_STATUS_OK, Z.shiftr (Z.land value (mask field)) (offset field))).

(** The body between the lock and the unlock. *)
Definition write_field_locked (field : register_field) (spec : register_spec)
    (m : register_mapping) (in_value : Z) : MR uacpi_status :=
  (* the code compares [kind] with an enumerator of the access kinds *)
  if register_kind_num (kind spec)
     =? register_access_kind_num REGISTER_ACCESS_KIND_WRITE_TO_CLEAR then
    if in_value =? 0 then mret UACPI_STATUS_OK else do_write_register spec m in_value
  else
    '(ret, data) ← do_read_register spec m;
    if negb (is_ok ret) then mret ret
    else do_write_register spec m (Z.lor (Z.ldiff data (mask field)) in_value).

Definition uacpi_write_register_field (field_enum in_value : Z) : MR uacpi_status :=
  with_field field_enum id (fun field spec m =>
    let in_value := Z.land (u64 (Z.shiftl in_value (offset field))) (mask field) in
    _ ← lock_registers;
    ret ← write_field_locked field spec m in_value;
    _ ← unlock_registers;
    mret ret).

(** ** Start and end *)

Definition uacpi_initialize_registers (malloc_ok : bool) : MR uacpi_status := fun s =>
  mtx ← uacpi_kernel_create_mutex malloc_ok;
  let s := set_lock mtx s in
  Some (match mtx with None => UACPI_STATUS_OUT_OF_MEMORY | Some _ => UACPI_STATUS_OK end, s).

Definition unmap_block (b : block_mapping) : MR unit :=
  match block_state b with
  | REGISTER_MAPPING_STATE_MAPPED =>
      gas ← liftO (block_gas b); on_device (uacpi_unmap_gas_nofree gas)
  | _ => mret tt
  end.

Fixpoint unmap_registers (rs : list uacpi_register) : MR unit :=
  match rs with
  | [] => mret tt
  | r :: rs' =>
      m ← gets (fun s => g_register_mappings s r);
      _ ← unmap_block m.1; _ ← unmap_block m.2; unmap_registers rs'
  end.

Definition uacpi_deinitialize_registers : MR unit :=
  lock ← gets g_reg_lock;
  _ ← (match lock with
       | Some m => _ ← liftO (uacpi_kernel_free_mutex m); modify (set_lock None)
       | None => mret tt
       end);
  _ ← unmap_registers all_registers;
  modify (fun s => RegState (reg_init_level s) (g_reg_lock s) (fun _ => unmapped) (device s)).
End Registers.
