(* ===== verification/RegistersSpec.v ===== *)
(** * The fixed ACPI registers: theorems about [Registers]

    A mapped block is described by the value it reads as and by the effect of
    a write on that value: storage keeps what is written, a status block
    clears the bits written as one.  Over storage, writing a field and
    reading the fields back; over status blocks, what clearing one status
    does to the others. *)
From S2P Require Import Prelude Status KernelSync UStd BitIo FieldIo Gas GasSpec Registers.

(** ** Facts about the tables *)

Definition field_num (f : uacpi_register_field) : Z :=
  match list_find (fun g => g = f) all_fields with Some (i, _) => Z.of_nat i | None => 0 end.

Lemma field_num_lookup f : all_fields !! Z.to_nat (u8 (field_num f)) = Some f.
Proof. by destruct f. Qed.

(** Every field lies in 16 bits at its offset, apart from the preserved bits
    of its register and from the other fields of it. *)
Definition field_bits (f : uacpi_register_field) : Z := mask (g_fields f).

Definition fields_ok (f g : uacpi_register_field) : bool :=
  let pm := preserve_mask (g_registers (reg (g_fields f))) in
  (0 <=? offset (g_fields f)) && (0 <=? field_bits f) && (field_bits f <? 2 ^ 16) &&
  (Z.shiftl (Z.shiftr (field_bits f) (offset (g_fields f))) (offset (g_fields f)) =? field_bits f) &&
  (Z.land pm (field_bits f) =? 0) && (0 <=? pm) &&
  (Z.land pm (write_only_mask (g_registers (reg (g_fields f)))) =? 0) &&
  (negb (bool_decide (reg (g_fields f) = reg (g_fields g))) || bool_decide (f = g)
   || (Z.land (field_bits f) (field_bits g) =? 0)).

Lemma fields_table f g : fields_ok f g = true.
Proof. by destruct f, g; vm_compute. Qed.

Lemma land_0_testbit x y i : Z.land x y = 0 -> Z.testbit x i && Z.testbit y i = false.
Proof. intros H. by rewrite <- Z.land_spec, H, Z.bits_0. Qed.

Lemma field_facts f :
  let m := field_bits f in let r := g_registers (reg (g_fields f)) in
  0 <= offset (g_fields f) /\ 0 <= m < 2 ^ 16 /\
  (forall i, 0 <= i < offset (g_fields f) -> Z.testbit m i = false) /\
  (forall i, Z.testbit (preserve_mask r) i && Z.testbit m i = false) /\
  (forall i, Z.testbit (preserve_mask r) i && Z.testbit (write_only_mask r) i = false) /\
  forall g, reg (g_fields g) = reg (g_fields f) -> g <> f ->
    forall i, Z.testbit m i && Z.testbit (field_bits g) i = false.
Proof.
  cbv zeta.
  assert (Hg : forall g, reg (g_fields g) = reg (g_fields f) -> g <> f ->
    Z.land (field_bits f) (field_bits g) = 0).
  { intros g Hr Hne. pose proof (fields_table f g) as H. unfold fields_ok in H. cbv zeta in H.
    apply andb_true_iff in H as [_ H].
    rewrite bool_decide_true in H by done. rewrite bool_decide_false in H by done.
    cbn [negb orb] in H. by apply Z.eqb_eq. }
  pose proof (fields_table f f) as H. unfold fields_ok in H. cbv zeta in H.
  apply andb_true_iff in H as [H _]. zify_bool. split_and!; [done | done | done | | | |].
  - intros i Hi. match goal with E : Z.shiftl _ _ = _ |- _ => rewrite <- E end.
    rewrite Z.shiftl_spec by lia. apply Z.testbit_neg_r. lia.
  - intros i. by apply land_0_testbit.
  - intros i. by apply land_0_testbit.
  - intros g Hr Hne i. by apply land_0_testbit, Hg.
Qed.

(** ** Blocks *)

Definition mapped_block (b : block_mapping) : list uacpi_mapped_gas :=
  match block_state b with
  | REGISTER_MAPPING_STATE_MAPPED => option_list (block_gas b)
  | _ => []
  end.
Definition mapped_blocks (m : register_mapping) : list uacpi_mapped_gas :=
  mapped_block m.1 ++ mapped_block m.2.

(** Both blocks were looked at, and the mapped ones have their mapping. *)
Definition block_ready (b : block_mapping) : Prop :=
  match block_state b with
  | REGISTER_MAPPING_STATE_NONE => False
  | REGISTER_MAPPING_STATE_NOT_NEEDED => True
  | REGISTER_MAPPING_STATE_MAPPED => is_Some (block_gas b)
  end.
Definition mapping_ready (m : register_mapping) : Prop := block_ready m.1 /\ block_ready m.2.

Section Blocks.
Context {St : Type} `{GasIo St} (hw : fixed_hw).
Abbreviation rstate := (reg_state St).

(** [val g d] is what block [g] reads as, [eff old v] what it reads as after
    [v] is written to it; a write leaves the other blocks alone. *)
Record blocks_behave (val : uacpi_mapped_gas -> St -> Z) (eff : Z -> Z -> Z)
    (gs : list uacpi_mapped_gas) : Prop := {
  blocks_nodup : NoDup gs;
  blocks_read : forall g d, g ∈ gs -> uacpi_gas_read_mapped g d = Some ((UACPI_STATUS_OK, val g d), d);
  blocks_write : forall g d v, g ∈ gs -> exists d',
    uacpi_gas_write_mapped g v d = Some (UACPI_STATUS_OK, d') /\
    val g d' = eff (val g d) v /\
    forall h, h ∈ gs -> h <> g -> val h d' = val h d;
}.

Context (val : uacpi_mapped_gas -> St -> Z) (eff : Z -> Z -> Z).

(** The value of the register: all its blocks together. *)
Definition blocks_value (gs : list uacpi_mapped_gas) (d : St) : Z :=
  foldr (fun g v => Z.lor (val g d) v) 0 gs.

Lemma blocks_value_app gs hs d :
  blocks_value (gs ++ hs) d = Z.lor (blocks_value gs d) (blocks_value hs d).
Proof.
  induction gs as [|g gs IH]; cbn [app blocks_value foldr]; [done|].
  unfold blocks_value in IH. by rewrite IH, Z.lor_assoc.
Qed.

Definition with_device (s : rstate) (d : St) : rstate :=
  RegState (reg_init_level s) (g_reg_lock s) (g_register_mappings s) d.

Lemma with_device_same s : with_device s (device s) = s.
Proof. by destruct s. Qed.

Lemma read_one_value gs b s :
  blocks_behave val eff gs -> block_ready b -> (forall g, g ∈ mapped_block b -> g ∈ gs) ->
  do_read_one b s = Some ((UACPI_STATUS_OK, blocks_value (mapped_block b) (device s)), s).
Proof.
  intros Hb Hr Hin. unfold do_read_one, block_ready, mapped_block, on_device in *.
  destruct (block_state b); [done | done |]. destruct (block_gas b) as [g|]; [|by destruct Hr].
  change (option_list (Some g)) with [g] in *. mstep. rewrite (blocks_read _ _ _ Hb) by (apply Hin; left).
  cbn [option_bind blocks_value foldr]. rewrite Z.lor_0_r. by destruct s.
Qed.

Lemma read_register_value gs spec m s :
  blocks_behave val eff gs -> mapping_ready m -> mapped_blocks m = gs ->
  do_read_register spec m s
  = Some ((UACPI_STATUS_OK, Z.ldiff (blocks_value gs (device s)) (write_only_mask spec)), s).
Proof.
  intros Hb [H1 H2] <-. unfold do_read_register, mapped_blocks in *. mstep.
  rewrite (read_one_value _ m.1 s Hb H1) by (intros; apply elem_of_app; by left).
  cbn [is_ok negb].
  rewrite (read_one_value _ m.2 s Hb H2) by (intros; apply elem_of_app; by right).
  cbn [is_ok negb]. rewrite blocks_value_app. unfold truthy.
  destruct (Z.eqb_spec (write_only_mask spec) 0) as [->|]; cbn [negb]; [|done].
  by rewrite Z.ldiff_0_r.
Qed.

Lemma write_one_value gs b s v :
  blocks_behave val eff gs -> block_ready b -> (forall g, g ∈ mapped_block b -> g ∈ gs) ->
  exists d, do_write_one b v s = Some (UACPI_STATUS_OK, with_device s d) /\
    (forall g, g ∈ mapped_block b -> val g d = eff (val g (device s)) v) /\
    (forall g, g ∈ gs -> g ∉ mapped_block b -> val g d = val g (device s)).
Proof.
  intros Hb Hr Hin. unfold do_write_one, block_ready, mapped_block, on_device in *.
  destruct (block_state b).
  - done.
  - exists (device s). rewrite with_device_same. split; [done|]. split; [|done].
    by intros g ?%elem_of_nil.
  - destruct (block_gas b) as [g|]; [|by destruct Hr].
    change (option_list (Some g)) with [g] in *.
    destruct (blocks_write _ _ _ Hb g (device s) v) as (d & Hw & Hv & Ho); [apply Hin; left|].
    exists d. mstep. rewrite Hw. split; [done|]. split.
    + intros h ->%list_elem_of_singleton. done.
    + intros h Hh Hne. apply Ho; [done|]. intros ->. apply Hne. left.
Qed.

Lemma write_blocks_value gs m s v :
  blocks_behave val eff gs -> mapping_ready m -> mapped_blocks m = gs ->
  exists d, write_blocks m v v s = Some (UACPI_STATUS_OK, with_device s d) /\
    forall g, g ∈ gs -> val g d = eff (val g (device s)) v.
Proof.
  intros Hb [H1 H2] <-. unfold write_blocks, mapped_blocks in *.
  pose proof (blocks_nodup _ _ _ Hb) as Hnd. apply NoDup_app in Hnd as (_ & Hdis & _).
  destruct (write_one_value _ m.1 s v Hb H1) as (d1 & E1 & Hin1 & Hout1);
    [intros; apply elem_of_app; by left|].
  destruct (write_one_value _ m.2 (with_device s d1) v Hb H2) as (d2 & E2 & Hin2 & Hout2);
    [intros; apply elem_of_app; by right|].
  exists d2. mstep. rewrite E1. cbn [is_ok negb]. rewrite E2. split; [done|].
  cbn [device with_device] in *. intros g Hg. pose proof Hg as Hg'.
  apply elem_of_app in Hg as [Hg|Hg].
  - rewrite Hout2 by (try done; by apply Hdis). by apply Hin1.
  - rewrite Hin2 by done. f_equal. apply Hout1; [done|]. intros Hg1. by eapply Hdis.
Qed.

(** ** A register ready for use *)

Record register_ready (r : uacpi_register) (gs : list uacpi_mapped_gas) (s : rstate) : Prop := {
  ready_level : init_level_at_least (reg_init_level s) UACPI_INIT_LEVEL_SUBSYSTEM_INITIALIZED = true;
  ready_lock : free_handle (g_reg_lock s);
  ready_mapping : mapping_ready (g_register_mappings s r);
  ready_blocks : mapped_blocks (g_register_mappings s r) = gs;
}.

Lemma ready_with_device r gs s d : register_ready r gs s -> register_ready r gs (with_device s d).
Proof. by intros []. Qed.

Lemma with_register_ready {A} r gs (fail : uacpi_status -> A) body s :
  register_ready r gs s ->
  with_register hw r fail body s = body (g_registers r) (g_register_mappings s r) s.
Proof.
  intros [_ _ [H1 H2] _]. unfold with_register, ensure_register_mapped. cbv zeta. mstep.
  unfold block_ready in *.
  rewrite !bool_decide_false by (intros E; rewrite E in *; done). done.
Qed.

Lemma with_field_ready {A} f gs (fail : uacpi_status -> A) body s :
  register_ready (reg (g_fields f)) gs s ->
  with_field hw (field_num f) fail body s
  = body (g_fields f) (g_registers (reg (g_fields f)))
      (g_register_mappings s (reg (g_fields f))) s.
Proof.
  intros Hr. unfold with_field. mstep. rewrite (ready_level _ _ _ Hr). cbn [negb].
  rewrite field_num_lookup. by apply (with_register_ready _ gs).
Qed.

Lemma read_reg_field_value f gs s :
  blocks_behave val eff gs -> register_ready (reg (g_fields f)) gs s ->
  uacpi_read_register_field hw (field_num f) s
  = Some ((UACPI_STATUS_OK,
           Z.shiftr (Z.land (Z.ldiff (blocks_value gs (device s))
                        (write_only_mask (g_registers (reg (g_fields f))))) (field_bits f))
             (offset (g_fields f))), s).
Proof.
  intros Hb Hr. unfold uacpi_read_register_field. rewrite (with_field_ready f gs) by done.
  mstep. by rewrite (read_register_value gs) by (try done; by destruct Hr).
Qed.

(** What [do_write_register] writes. *)
Definition written (spec : register_spec) (old v : Z) : Z :=
  let w := Z.ldiff v (preserve_mask spec) in
  match access_kind spec with
  | REGISTER_ACCESS_KIND_PRESERVE =>
      Z.lor w (Z.land (Z.ldiff old (write_only_mask spec)) (preserve_mask spec))
  | _ => w
  end.

Lemma write_register_value gs spec m s v :
  blocks_behave val eff gs -> mapping_ready m -> mapped_blocks m = gs ->
  exists d, do_write_register spec m v s = Some (UACPI_STATUS_OK, with_device s d) /\
    forall g, g ∈ gs -> val g d = eff (val g (device s)) (written spec (blocks_value gs (device s)) v).
Proof.
  intros Hb Hm Hg. unfold do_write_register, written. cbv zeta. unfold truthy.
  destruct (Z.eqb_spec (preserve_mask spec) 0) as [E|E]; cbn [negb].
  - rewrite E, Z.ldiff_0_r, Z.land_0_r, Z.lor_0_r. mstep. cbn [is_ok negb].
    destruct (write_blocks_value gs m s v Hb Hm Hg) as (d & -> & Hv).
    exists d. split; [done|]. by destruct (access_kind spec).
  - destruct (access_kind spec); mstep;
      try (rewrite (read_register_value gs) by done); cbn [is_ok negb];
      by apply write_blocks_value.
Qed.

Definition field_input (f : uacpi_register_field) (v : Z) : Z :=
  Z.land (u64 (Z.shiftl v (offset (g_fields f)))) (field_bits f).

(** Writing a field of a register described by a GAS: read, replace the
    field, write. *)
Lemma write_reg_field_value f gs s v :
  kind (g_registers (reg (g_fields f))) = REGISTER_KIND_GAS ->
  blocks_behave val eff gs -> register_ready (reg (g_fields f)) gs s ->
  let spec := g_registers (reg (g_fields f)) in
  let old := blocks_value gs (device s) in
  exists d, uacpi_write_register_field hw (field_num f) v s
      = Some (UACPI_STATUS_OK, with_device s d) /\
    forall g, g ∈ gs -> val g d = eff (val g (device s))
      (written spec old (Z.lor (Z.ldiff (Z.ldiff old (write_only_mask spec)) (field_bits f))
                               (field_input f v))).
Proof.
  intros Hk Hb Hr. pose proof Hr as [_ Hl Hm Hg]. cbv zeta. unfold uacpi_write_register_field.
  rewrite (with_field_ready f gs) by done. cbv zeta.
  set (spec := g_registers _). set (m := g_register_mappings s _) in *.
  fold (field_bits f). fold (field_input f v). unfold free_handle in Hl.
  unfold lock_registers, write_field_locked. mstep. rewrite Hl. cbn.
  fold spec in Hk. rewrite Hk. cbn.
  set (s1 := set_lock (Some (InternalMutex true)) s).
  change (device s) with (device s1).
  rewrite (read_register_value gs) by done. cbn [is_ok negb].
  fold (field_bits f).
  destruct (write_register_value gs spec m s1 (Z.lor (Z.ldiff (Z.ldiff (blocks_value gs (device s1))
    (write_only_mask spec)) (field_bits f)) (field_input f v)) Hb Hm Hg) as (d & -> & Hv).
  exists d. split; [|exact Hv]. unfold unlock_registers. cbn.
  unfold with_device, set_lock. cbn. rewrite Hl. by destruct s.
Qed.
End Blocks.

(** ** Storage: a write keeps the value, cut to the block's width *)

Definition store_eff (w : Z) (old v : Z) : Z := v mod 2 ^ w.

(** A status block: a write clears the bits that are set in it. *)
Definition clear_eff (old v : Z) : Z := Z.ldiff old v.

Section Values.
Context {St : Type} (val : uacpi_mapped_gas -> St -> Z).

Lemma blocks_value_cons g gs d :
  blocks_value val (g :: gs) d = Z.lor (val g d) (blocks_value val gs d).
Proof. done. Qed.

Lemma blocks_value_store w gs d d' v :
  gs <> [] -> (forall g, g ∈ gs -> val g d' = store_eff w (val g d) v) ->
  blocks_value val gs d' = v mod 2 ^ w.
Proof.
  intros Hne Hv. destruct gs as [|g gs]; [done|]. clear Hne. revert g Hv.
  induction gs as [|h gs IH]; intros g Hv; rewrite blocks_value_cons, Hv by left.
  - apply Z.lor_0_r.
  - rewrite IH by (intros; apply Hv; by right). apply Z.lor_diag.
Qed.

Lemma blocks_value_clear gs d d' v :
  (forall g, g ∈ gs -> val g d' = clear_eff (val g d) v) ->
  blocks_value val gs d' = Z.ldiff (blocks_value val gs d) v.
Proof.
  induction gs as [|g gs IH]; intros Hv; [by rewrite Z.ldiff_0_l|].
  rewrite !blocks_value_cons, Hv, IH by (try (intros; apply Hv); by constructor).
  apply Z_bits_ext. intros i Hi. unfold clear_eff. rewrite Z.lor_spec, !Z.ldiff_spec, Z.lor_spec.
  by destruct (Z.testbit v i); rewrite ?andb_false_r, ?andb_true_r.
Qed.
End Values.

(** The input of a field, bit by bit. *)
Lemma field_input_testbit f v i :
  0 <= i -> Z.testbit (field_input f v) i
  = Z.testbit (field_bits f) i && Z.testbit v (i - offset (g_fields f)).
Proof.
  intros Hi. destruct (field_facts f) as (Ho & Hm & Hlow & _). cbv zeta in *.
  unfold field_input. rewrite Z.land_spec, wrap_testbit by lia.
  destruct (Z.testbit (field_bits f) i) eqn:Hb; rewrite ?andb_false_r; [|done].
  rewrite andb_true_r. cbn [andb]. rewrite Z.shiftl_spec by lia.
  destruct (Z.ltb_spec i 64); [done|].
  exfalso. rewrite Z.bits_above_log2 in Hb; [done | lia |].
  destruct (Z.eq_dec (field_bits f) 0) as [E|E]; [rewrite E; simpl; lia|].
  apply Z.log2_lt_pow2; [lia|]. pose proof (Z.pow_le_mono_r 2 16 i). lia.
Qed.

(** A field as it is read out of a register's value. *)
Definition field_of (f : uacpi_register_field) (v : Z) : Z :=
  Z.shiftr (Z.land v (field_bits f)) (offset (g_fields f)).

(** The values a field takes. *)
Definition field_max (f : uacpi_register_field) : Z :=
  Z.shiftr (field_bits f) (offset (g_fields f)).

Definition readable (f : uacpi_register_field) : Prop :=
  Z.land (write_only_mask (g_registers (reg (g_fields f)))) (field_bits f) = 0.

Section FieldWrites.
Context {St : Type} `{GasIo St} (hw : fixed_hw).
Context (val : uacpi_mapped_gas -> St -> Z) (w : Z) (gs : list uacpi_mapped_gas).

(** What a write of [f] leaves in the register, bit by bit, over storage. *)
Lemma written_testbit f v old i :
  0 <= i ->
  let spec := g_registers (reg (g_fields f)) in
  access_kind spec = REGISTER_ACCESS_KIND_PRESERVE ->
  Z.testbit (written spec old (Z.lor (Z.ldiff (Z.ldiff old (write_only_mask spec)) (field_bits f))
                                 (field_input f v))) i
  = if Z.testbit (field_bits f) i then Z.testbit v (i - offset (g_fields f))
    else Z.testbit old i && negb (Z.testbit (write_only_mask spec) i).
Proof.
  intros Hi spec Hk. destruct (field_facts f) as (_ & _ & _ & Hpm & _). cbv zeta in Hpm.
  fold spec in Hpm. specialize (Hpm i). unfold written. rewrite Hk.
  repeat rewrite ?Z.lor_spec, ?Z.ldiff_spec, ?Z.land_spec. rewrite field_input_testbit by done.
  destruct (Z.testbit (field_bits f) i), (Z.testbit (preserve_mask spec) i);
    try done; rewrite ?andb_true_r, ?andb_false_r, ?orb_false_r; cbn [negb andb orb];
    rewrite ?andb_true_r, ?andb_false_r, ?orb_false_r; done.
Qed.

Lemma testbit_small m i : 0 <= m < 2 ^ w -> 0 <= w -> w <= i -> Z.testbit m i = false.
Proof.
  intros Hm Hw Hi. destruct (Z.eq_dec m 0) as [->|]; [apply Z.bits_0|].
  apply Z.bits_above_log2; [lia|]. apply Z.lt_le_trans with w; [|done].
  apply Z.log2_lt_pow2; lia.
Qed.

Lemma store_write f v s :
  gs <> [] -> kind (g_registers (reg (g_fields f))) = REGISTER_KIND_GAS ->
  access_kind (g_registers (reg (g_fields f))) = REGISTER_ACCESS_KIND_PRESERVE ->
  blocks_behave val (store_eff w) gs -> register_ready (reg (g_fields f)) gs s -> 0 <= w ->
  exists d, uacpi_write_register_field hw (field_num f) v s
      = Some (UACPI_STATUS_OK, with_device s d) /\
    forall i, 0 <= i -> Z.testbit (blocks_value val gs d) i =
      (i <? w) && (if Z.testbit (field_bits f) i then Z.testbit v (i - offset (g_fields f))
        else Z.testbit (blocks_value val gs (device s)) i
             && negb (Z.testbit (write_only_mask (g_registers (reg (g_fields f)))) i)).
Proof.
  intros Hne Hk Ha Hb Hr Hw.
  destruct (write_reg_field_value hw val (store_eff w) f gs s v Hk Hb Hr) as (d & Hrun & Hv).
  exists d. split; [exact Hrun|]. intros i Hi.
  rewrite (blocks_value_store val w gs (device s) d _ Hne Hv).
  fold (wrap w). change (?x mod 2 ^ w) with (wrap w x).
  rewrite wrap_testbit by done. f_equal. by apply written_testbit.
Qed.
End FieldWrites.

(** ** A concrete register: two 16-bit blocks in memory *)

(** Status blocks: writing a bit clears it. *)
Definition status_io : GasIo (Z -> Z) := {|
  uacpi_kernel_map p _ := mret (Some p);
  uacpi_kernel_unmap _ _ := mret tt;
  volatile_read p w := gets (fun s => wrap (8 * w) (s p));
  volatile_write p w v := modify (fun s q => if q =? p then Z.ldiff (s q) v else s q);
  uacpi_kernel_io_map p _ := mret (UACPI_STATUS_OK, p);
  uacpi_kernel_io_unmap _ := mret tt;
  uacpi_kernel_io_read _ _ _ := mret (UACPI_STATUS_NOT_FOUND, 0);
  uacpi_kernel_io_write _ _ _ _ := mret UACPI_STATUS_NOT_FOUND;
  uacpi_kernel_pci_read _ _ _ := mret (UACPI_STATUS_NOT_FOUND, 0);
  uacpi_kernel_pci_write _ _ _ _ := mret UACPI_STATUS_NOT_FOUND;
  uacpi_gas_alloc := mret true;
|}.

Definition cell16 (g : uacpi_mapped_gas) (s : Z -> Z) : Z := wrap 16 (s (mapping g)).

(** One unit: the loops run once. *)
Definition one_unit (p : Z) : uacpi_mapped_gas := MappedGas p 16 16 0 GAS_MEMORY.

Lemma one_unit_mask p : gas_mask (one_unit p) = Some (Z.ones 16).
Proof. done. Qed.

Lemma one_unit_read {St} (IO : GasIo St) (p : Z) (s : St) v :
  0 <= v < 2 ^ 16 -> volatile_read (u64 (p + 0)) 2 s = Some (v, s) ->
  uacpi_gas_read_mapped (one_unit p) s = Some ((UACPI_STATUS_OK, v), s).
Proof.
  intros Hv Hr.
  assert (Hg : gas_read (one_unit p) 0 (16 / 8) s = Some ((UACPI_STATUS_OK, v), s)).
  { change (16 / 8) with 2. unfold gas_read. cbn [backend one_unit mapping].
    unfold uacpi_system_memory_read. mstep. cbn [Z.eqb Pos.eqb orb]. by rewrite Hr. }
  unfold uacpi_gas_read_mapped. rewrite one_unit_mask. mstep.
  change (Z.to_nat _) with 16%nat. cbn [gas_read_loop].
  change (total_bit_width (one_unit p)) with 16. change (access_bit_width (one_unit p)) with 16.
  change (bit_offset (one_unit p)) with 0. change (16 =? 0) with false. change (16 <=? 0) with false.
  cbv iota beta. mstep. rewrite Hg. cbn [is_ok negb].
  change (shl64 (Z.land v (Z.ones 16)) (0 * 16))
    with (Some (u64 (Z.shiftl (Z.land v (Z.ones 16)) 0))).
  cbv beta iota. change (u8 (16 - Z.min 16 16) =? 0) with true. cbv iota.
  by rewrite Z.shiftl_0_r, Z.land_ones, (Z.mod_small v), u64_small by lia.
Qed.

Lemma one_unit_write {St} (IO : GasIo St) (p : Z) (s s' : St) v :
  volatile_write (u64 (p + 0)) 2 (wrap 16 v) s = Some (tt, s') ->
  uacpi_gas_write_mapped (one_unit p) v s = Some (UACPI_STATUS_OK, s').
Proof.
  intros Hw.
  assert (Hg : gas_write (one_unit p) 0 (16 / 8) (wrap 16 v) s = Some (UACPI_STATUS_OK, s')).
  { change (16 / 8) with 2. unfold gas_write. cbn [backend one_unit mapping].
    unfold uacpi_system_memory_write. mstep. cbn [Z.eqb Pos.eqb orb].
    change (8 * 2) with 16. by rewrite wrap_wrap, Hw. }
  unfold uacpi_gas_write_mapped. rewrite one_unit_mask. mstep.
  change (Z.to_nat _) with 16%nat. cbn [gas_write_loop].
  change (total_bit_width (one_unit p)) with 16. change (access_bit_width (one_unit p)) with 16.
  change (bit_offset (one_unit p)) with 0. change (16 =? 0) with false. change (16 <=? 0) with false.
  change (shr64 v (0 * 16)) with (Some (Z.shiftr v 0)).
  cbv iota beta. mstep.
  rewrite Z.shiftr_0_r, Z.land_ones by lia. fold (wrap 16 v). rewrite Hg. cbn [is_ok negb].
  change (u8 (16 - Z.min 16 16) =? 0) with true. done.
Qed.

Definition blocks : list uacpi_mapped_gas := [one_unit 4096; one_unit 8192].

Lemma blocks_nodup_mapping g h : g ∈ blocks -> h ∈ blocks -> mapping g = mapping h -> g = h.
Proof.
  intros Hg Hh. repeat (apply elem_of_cons in Hg as [->|Hg] || apply elem_of_nil in Hg as []);
  repeat (apply elem_of_cons in Hh as [->|Hh] || apply elem_of_nil in Hh as []); done.
Qed.

Lemma block_is g : g ∈ blocks -> exists p, g = one_unit p /\ u64 (p + 0) = p.
Proof.
  intros Hg. repeat (apply elem_of_cons in Hg as [->|Hg] || apply elem_of_nil in Hg as []);
  eexists; (split; [done|]); by vm_compute.
Qed.

(** A machine whose cells read as they are and are written through [eff]. *)
Lemma blocks_of (IO : GasIo (Z -> Z)) (eff : Z -> Z -> Z) (upd : Z -> Z -> Z) :
  (forall p s, volatile_read p 2 s = Some (wrap 16 (s p), s)) ->
  (forall p s v, volatile_write p 2 v s = Some (tt, fun q => if q =? p then upd (s q) v else s q)) ->
  (forall x v, wrap 16 (upd x (wrap 16 v)) = eff (wrap 16 x) v) ->
  blocks_behave (H := IO) cell16 eff blocks.
Proof.
  intros Hr Hw He. constructor.
  - by apply (bool_decide_unpack (NoDup (mapping <$> blocks))) || 
    (repeat constructor; rewrite ?elem_of_cons, ?elem_of_nil; intros Hin; by repeat destruct Hin as [Hin|Hin]).
  - intros g d Hg. destruct (block_is g Hg) as (p & -> & Hp).
    apply one_unit_read; [apply wrap_range; lia|]. by rewrite Hp, Hr.
  - intros g d v Hg. destruct (block_is g Hg) as (p & Eg & Hp). eexists.
    split; [subst g; apply one_unit_write; by rewrite Hp, Hw|].
    unfold cell16. subst g. cbn [mapping one_unit]. rewrite Z.eqb_refl. split; [apply He|].
    intros h Hh Hne. destruct (Z.eqb_spec (mapping h) p) as [E|]; [|done].
    exfalso. apply Hne. apply blocks_nodup_mapping; done.
Qed.

Lemma storage_blocks : blocks_behave (H := latch_io) cell16 (store_eff 16) blocks.
Proof. apply (blocks_of _ _ (fun _ v => v)); intros; [done | done | apply wrap_wrap]. Qed.

Lemma status_blocks : blocks_behave (H := status_io) cell16 clear_eff blocks.
Proof.
  apply (blocks_of _ _ Z.ldiff); intros; [done | done |]. unfold clear_eff.
  apply Z_bits_ext. intros i Hi. rewrite wrap_testbit, !Z.ldiff_spec, !wrap_testbit by lia.
  by destruct (i <? 16); cbn [andb].
Qed.

(** Both blocks of every register mapped. *)
Definition ready_state (d : Z -> Z) : reg_state (Z -> Z) :=
  RegState UACPI_INIT_LEVEL_SUBSYSTEM_INITIALIZED (Some (InternalMutex false))
    (fun _ => (BlockMapping REGISTER_MAPPING_STATE_MAPPED (Some (one_unit 4096)),
               BlockMapping REGISTER_MAPPING_STATE_MAPPED (Some (one_unit 8192)))) d.

Lemma ready_state_ready r d : register_ready r blocks (ready_state d).
Proof. constructor; try done. by split; eexists. Qed.

Definition demo_hw : fixed_hw :=
  let g := Gas 0 16 0 0 in
  FixedHw (g 4096) (g 8192) (g 4096) (g 8192) (g 4096) (g 8192) (g 4096) (g 4096) (g 4096)
    (g 4096) (g 4096) 178.

(** C19: over blocks that keep what is written, writing a field of a
    read-modify-write register (PM1 enable and control, PM2 control, sleep
    control), of one block or two, succeeds; the field then reads back the
    value cut to its width, every other readable field of the register reads
    as it did, and the bits the register must preserve are preserved. *)
Theorem register_field_roundtrip {St} `{GasIo St} (hw : fixed_hw)
    (val : uacpi_mapped_gas -> St -> Z) (w : Z) (gs : list uacpi_mapped_gas)
    (f : uacpi_register_field) (v : Z) (s : reg_state St) :
  let spec := g_registers (reg (g_fields f)) in
  kind spec = REGISTER_KIND_GAS -> access_kind spec = REGISTER_ACCESS_KIND_PRESERVE ->
  gs <> [] -> blocks_behave val (store_eff w) gs -> register_ready (reg (g_fields f)) gs s ->
  0 <= w ->
  exists d, let s' := with_device s d in
    uacpi_write_register_field hw (field_num f) v s = Some (UACPI_STATUS_OK, s') /\
    (forall g, reg (g_fields g) = reg (g_fields f) -> readable g -> field_bits g < 2 ^ w ->
       exists old, uacpi_read_register_field hw (field_num g) s = Some ((UACPI_STATUS_OK, old), s) /\
         uacpi_read_register_field hw (field_num g) s'
         = Some ((UACPI_STATUS_OK, if decide (g = f) then Z.land v (field_max f) else old), s')) /\
    (preserve_mask spec < 2 ^ w ->
       Z.land (blocks_value val gs d) (preserve_mask spec)
       = Z.land (blocks_value val gs (device s)) (preserve_mask spec)).
Proof.
  intros spec Hk Ha Hne Hb Hr Hw.
  destruct (store_write hw val w gs f v s Hne Hk Ha Hb Hr Hw) as (d & Hrun & Hbits).
  exists d. cbv zeta. split; [exact Hrun|]. split.
  - intros g Hg Hread Hgw. eexists.
    assert (Hrg : register_ready (reg (g_fields g)) gs s) by by rewrite Hg.
    split; [by apply (read_reg_field_value hw val (store_eff w) g gs)|].
    rewrite (read_reg_field_value hw val (store_eff w) g gs) by (try done; by apply ready_with_device).
    cbn [device with_device]. rewrite Hg. fold spec. do 3 f_equal.
    destruct (field_facts g) as (Ho & Hm & Hlow & _ & _ & _). cbv zeta in *.
    unfold readable in Hread. rewrite Hg in Hread. fold spec in Hread.
    destruct (field_facts f) as (_ & _ & _ & _ & _ & Hdis). cbv zeta in Hdis.
    apply Z_bits_ext. intros i Hi. rewrite Z.shiftr_spec, Z.land_spec, Z.ldiff_spec by lia.
    rewrite Hbits by lia. fold spec.
    pose proof (land_0_testbit _ _ (i + offset (g_fields g)) Hread) as Hwo.
    destruct (Z.testbit (field_bits g) (i + offset (g_fields g))) eqn:Hgi.
    + rewrite andb_true_r in Hwo. rewrite Hwo. cbn [negb]. rewrite !andb_true_r.
      assert (Hlt : i + offset (g_fields g) < w).
      { destruct (Z.lt_ge_cases (i + offset (g_fields g)) w); [done|].
        rewrite (testbit_small w) in Hgi by lia. done. }
      rewrite (proj2 (Z.ltb_lt _ _) Hlt). cbn [andb].
      destruct (decide (g = f)) as [->|Hgf].
      * rewrite Hgi, Z.land_spec. unfold field_max. rewrite Z.shiftr_spec, Hgi, andb_true_r by lia.
        f_equal. lia.
      * specialize (Hdis g Hg Hgf (i + offset (g_fields g))). rewrite Hgi, andb_true_r in Hdis.
        rewrite Hdis. rewrite Z.shiftr_spec, Z.land_spec, Z.ldiff_spec, Hgi, Hwo by lia.
        by rewrite !andb_true_r.
    + rewrite andb_false_r. destruct (decide (g = f)) as [->|Hgf].
      * rewrite Z.land_spec. unfold field_max. rewrite Z.shiftr_spec, Hgi by lia.
        by rewrite andb_false_r.
      * rewrite Z.shiftr_spec, Z.land_spec, Hgi by lia. by rewrite andb_false_r.
  - intros Hpw. destruct (field_facts f) as (_ & _ & _ & Hpm & Hpwo & _). cbv zeta in *.
    fold spec in Hpm, Hpwo. apply Z_bits_ext. intros i Hi. rewrite !Z.land_spec, Hbits by done.
    specialize (Hpm i). specialize (Hpwo i). fold spec.
    destruct (Z.testbit (preserve_mask spec) i) eqn:Hp; [|by rewrite !andb_false_r].
    cbn [andb] in Hpm, Hpwo. rewrite Hpm, Hpwo. cbn [negb]. rewrite !andb_true_r.
    assert (Hlt : i < w).
    { destruct (Z.lt_ge_cases i w); [done|].
      assert (0 <= preserve_mask spec) by (unfold spec; by destruct f).
      rewrite (testbit_small w) in Hp by lia. done. }
    by rewrite (proj2 (Z.ltb_lt _ _) Hlt).
Qed.

Lemma register_field_roundtrip_witness :
  let f := UACPI_REGISTER_FIELD_SLP_TYP in let s := ready_state (fun _ => 0x1C01) in
  exists d, let s' := with_device s d in
    uacpi_write_register_field (H := latch_io) demo_hw (field_num f) 5 s = Some (UACPI_STATUS_OK, s') /\
    (forall g, reg (g_fields g) = reg (g_fields f) -> readable g -> field_bits g < 2 ^ 16 ->
       exists old, uacpi_read_register_field (H := latch_io) demo_hw (field_num g) s
           = Some ((UACPI_STATUS_OK, old), s) /\
         uacpi_read_register_field (H := latch_io) demo_hw (field_num g) s'
         = Some ((UACPI_STATUS_OK, if decide (g = f) then Z.land 5 (field_max f) else old), s')) /\
    (preserve_mask (g_registers (reg (g_fields f))) < 2 ^ 16 ->
       Z.land (blocks_value cell16 blocks d) (preserve_mask (g_registers (reg (g_fields f))))
       = Z.land (blocks_value cell16 blocks (device s))
           (preserve_mask (g_registers (reg (g_fields f))))).
Proof.
  apply (@register_field_roundtrip (Z -> Z) latch_io demo_hw cell16 16 blocks).
  - done.
  - done.
  - done.
  - apply storage_blocks.
  - apply ready_state_ready.
  - lia.
Defined.

(** Clearing one status clears them all.  Over status blocks (writing a
    one clears the bit), [uacpi_write_register_field] on a field of the PM1
    status register does not write the field's bit alone: it compares the
    register's [kind] with a constant of the access kinds, takes the
    read-modify-write path, and writes back every status that is set.
    Whatever the value written, every other status of the register then reads
    as 0: events that were pending are lost. *)
Theorem status_write_clears_others {St} `{GasIo St} (hw : fixed_hw)
    (val : uacpi_mapped_gas -> St -> Z) (gs : list uacpi_mapped_gas)
    (f : uacpi_register_field) (v : Z) (s : reg_state St) :
  reg (g_fields f) = UACPI_REGISTER_PM1_STS ->
  blocks_behave val clear_eff gs -> register_ready UACPI_REGISTER_PM1_STS gs s ->
  exists d, uacpi_write_register_field hw (field_num f) v s
      = Some (UACPI_STATUS_OK, with_device s d) /\
    forall g, reg (g_fields g) = UACPI_REGISTER_PM1_STS -> g <> f ->
      uacpi_read_register_field hw (field_num g) (with_device s d)
      = Some ((UACPI_STATUS_OK, 0), with_device s d).
Proof.
  intros Hf Hb Hr. rewrite <- Hf in Hr.
  assert (Hk : kind (g_registers (reg (g_fields f))) = REGISTER_KIND_GAS) by by rewrite Hf.
  destruct (write_reg_field_value hw val clear_eff f gs s v Hk Hb Hr) as (d & Hrun & Hv).
  exists d. split; [exact Hrun|]. intros g Hg Hne.
  assert (Hgf : reg (g_fields g) = reg (g_fields f)) by congruence.
  rewrite (read_reg_field_value hw val clear_eff g gs)
    by (try done; rewrite Hgf; by apply ready_with_device).
  cbn [device with_device]. rewrite (blocks_value_clear val gs (device s) d _ Hv).
  destruct (field_facts g) as (Ho & _ & _ & Hpm & _). cbv zeta in *.
  destruct (field_facts f) as (_ & _ & _ & _ & _ & Hdis). cbv zeta in Hdis.
  do 3 f_equal. apply Z_bits_ext. intros i Hi. rewrite Z.bits_0, Z.shiftr_spec by done.
  set (j := i + offset (g_fields g)). specialize (Hpm j). specialize (Hdis g Hgf Hne j).
  rewrite Hg in *. rewrite Hf. unfold written.
  change (access_kind (g_registers UACPI_REGISTER_PM1_STS)) with REGISTER_ACCESS_KIND_WRITE_TO_CLEAR.
  cbv iota. change (write_only_mask (g_registers UACPI_REGISTER_PM1_STS)) with 0.
  rewrite !Z.ldiff_0_r. rewrite Z.land_spec, !Z.ldiff_spec, Z.lor_spec, Z.ldiff_spec.
  destruct (Z.testbit (field_bits g) j); [|apply andb_false_r].
  rewrite andb_true_r in Hpm, Hdis. rewrite Hpm, Hdis.
  rewrite field_input_testbit, Hdis by (unfold j; lia). cbn [negb andb orb].
  rewrite !andb_true_r, orb_false_r. apply andb_negb_r.
Qed.

Lemma status_write_clears_others_witness :
  exists d, uacpi_write_register_field (H := status_io) demo_hw
      (field_num UACPI_REGISTER_FIELD_PWRBTN_STS) 1 (ready_state (fun _ => 0x531))
      = Some (UACPI_STATUS_OK, with_device (ready_state (fun _ => 0x531)) d) /\
    forall g, reg (g_fields g) = UACPI_REGISTER_PM1_STS -> g <> UACPI_REGISTER_FIELD_PWRBTN_STS ->
      uacpi_read_register_field (H := status_io) demo_hw (field_num g)
        (with_device (ready_state (fun _ => 0x531)) d)
      = Some ((UACPI_STATUS_OK, 0), with_device (ready_state (fun _ => 0x531)) d).
Proof.
  apply (@status_write_clears_others (Z -> Z) status_io demo_hw cell16 blocks).
  - done.
  - apply status_blocks.
  - apply ready_state_ready.
Defined.
