(* ===== verification/UFormat.v ===== *)
(** * uACPI's formatter: [uacpi_vsnprintf] and its callers in
    [extra/uacpi/stdlib.c]

    A C string is the list of the characters before its NUL.  The output
    buffer is the list of its bytes; a store outside it is undefined behaviour
    ([None]), as are a variadic argument of the wrong kind or missing and an
    index below the conversion buffer.  [bytes_written] wraps at 64 bits.
    The variadic arguments are those of [Printf]. *)
From S2P Require Import Prelude Status UStd StrToInt Printf.

Record fmt_buf_state := FmtBuf {
  buffer : list Z;
  capacity : Z;
  bytes_written : Z;
}.

Record fmt_spec := FmtSpec {
  is_signed : bool;
  prepend : bool;
  uppercase : bool;
  left_justify : bool;
  alternate_form : bool;
  has_precision : bool;
  pad_char : Z;
  prepend_char : Z;
  min_width : Z;
  precision : Z;
  base : Z;
}.

(** Assignments to single fields. *)
Definition set_signed (fm : fmt_spec) : fmt_spec :=
  FmtSpec true (prepend fm) (uppercase fm) (left_justify fm) (alternate_form fm)
    (has_precision fm) (pad_char fm) (prepend_char fm) (min_width fm) (precision fm) (base fm).
Definition set_prepend (c : Z) (fm : fmt_spec) : fmt_spec :=
  FmtSpec (is_signed fm) true (uppercase fm) (left_justify fm) (alternate_form fm)
    (has_precision fm) (pad_char fm) c (min_width fm) (precision fm) (base fm).
Definition set_left (fm : fmt_spec) : fmt_spec :=
  FmtSpec (is_signed fm) (prepend fm) (uppercase fm) true (alternate_form fm)
    (has_precision fm) (pad_char fm) (prepend_char fm) (min_width fm) (precision fm) (base fm).
Definition set_alternate (fm : fmt_spec) : fmt_spec :=
  FmtSpec (is_signed fm) (prepend fm) (uppercase fm) (left_justify fm) true
    (has_precision fm) (pad_char fm) (prepend_char fm) (min_width fm) (precision fm) (base fm).
Definition set_pad (c : Z) (fm : fmt_spec) : fmt_spec :=
  FmtSpec (is_signed fm) (prepend fm) (uppercase fm) (left_justify fm) (alternate_form fm)
    (has_precision fm) c (prepend_char fm) (min_width fm) (precision fm) (base fm).
Definition set_width (w : Z) (fm : fmt_spec) : fmt_spec :=
  FmtSpec (is_signed fm) (prepend fm) (uppercase fm) (left_justify fm) (alternate_form fm)
    (has_precision fm) (pad_char fm) (prepend_char fm) w (precision fm) (base fm).
Definition set_precision (p : Z) (fm : fmt_spec) : fmt_spec :=
  FmtSpec (is_signed fm) (prepend fm) (uppercase fm) (left_justify fm) (alternate_form fm)
    true (pad_char fm) (prepend_char fm) (min_width fm) p (base fm).
Definition set_base (b : Z) (up : bool) (fm : fmt_spec) : fmt_spec :=
  FmtSpec (is_signed fm) (prepend fm) up (left_justify fm) (alternate_form fm)
    (has_precision fm) (pad_char fm) (prepend_char fm) (min_width fm) (precision fm) b.

(** [{ .pad_char = ' ', .base = 10 }]. *)
Definition fmt_spec_init : fmt_spec :=
  FmtSpec false false false false false false (chr " ") 0 0 0 10.

(** ** Writing *)

Definition write_one (c : Z) : M fmt_buf_state unit := fun s =>
  buf ← (if bytes_written s <? capacity s
         then store (buffer s) (Z.to_nat (bytes_written s)) c else Some (buffer s));
  Some (tt, FmtBuf buf (capacity s) (u64 (bytes_written s + 1))).

Definition write_many (string : list Z) (count : Z) : M fmt_buf_state unit := fun s =>
  buf ← (if bytes_written s <? capacity s then
           let count_to_write := Z.min count (capacity s - bytes_written s) in
           memcpy (buffer s) (Z.to_nat (bytes_written s)) string 0 count_to_write
         else Some (buffer s));
  Some (tt, FmtBuf buf (capacity s) (u64 (bytes_written s + count))).

(** [n] times [write_one(c)]. *)
Fixpoint write_repeat (n : nat) (c : Z) : M fmt_buf_state unit :=
  match n with
  | O => mret tt
  | S n' => _ ← write_one c; write_repeat n' c
  end.

Definition write_padding (fm : fmt_spec) (repr_size : Z) : M fmt_buf_state unit :=
  if min_width fm <=? repr_size then mret tt
  else write_repeat (Z.to_nat (min_width fm - repr_size))
         (if left_justify fm then chr " " else pad_char fm).

(** ** Integers *)

Definition REPR_BUFFER_SIZE : nat := 32.

(** [value] is a remainder by 16. *)
Definition hex_char (upper : bool) (value : Z) : Z :=
  char_at (cstr (if upper then "0123456789ABCDEF" else "0123456789abcdef")) (Z.to_nat value).

(** [repr_buffer[--index] = c]; [repr] is the part of the buffer from
    [index] on. *)
Definition repr_push (c : Z) (repr : list Z) : option (list Z) :=
  if (length repr <? REPR_BUFFER_SIZE)%nat then Some (c :: repr) else None.

Definition repr_char (fm : fmt_spec) (remainder : Z) : Z :=
  if base fm =? 16 then hex_char (uppercase fm) remainder
  else if (base fm =? 8) || (base fm =? 10) then remainder + chr "0"
  else chr "?".

(** [while (value)]: every turn fills a byte of the buffer, so fuel for one
    more turn than its size is enough. *)
Fixpoint repr_digits (fuel : nat) (fm : fmt_spec) (value : Z) (repr : list Z)
    : option (list Z) :=
  match fuel with
  | O => None
  | S fuel' =>
      if truthy value then
        repr ← repr_push (repr_char fm (value mod base fm)) repr;
        repr_digits fuel' fm (value / base fm) repr
      else Some repr
  end.

(** The alternate form's prefix. *)
Definition repr_prefix (fm : fmt_spec) (repr : list Z) : option (list Z) :=
  if alternate_form fm then
    if base fm =? 16 then
      repr ← repr_push (if uppercase fm then chr "X" else chr "x") repr;
      repr_push (chr "0") repr
    else if base fm =? 8 then repr_push (chr "0") repr
    else Some repr
  else Some repr.

Definition write_integer (fm : fmt_spec) (value : Z) : M fmt_buf_state unit :=
  let as_ll := s64 value in
  let negative := is_signed fm && (as_ll <? 0) in
  let value := if negative then u64 (- as_ll) else value in
  _ ← (if prepend fm || negative
       then write_one (if negative then chr "-" else prepend_char fm) else mret tt);
  repr ← liftO (repr_digits (S REPR_BUFFER_SIZE) fm value []);
  repr ← liftO (if (length repr =? 0)%nat then repr_push (chr "0") repr else Some repr);
  repr ← liftO (repr_prefix fm repr);
  let repr_size := Z.of_nat (length repr) in
  if left_justify fm then
    _ ← write_many repr repr_size; write_padding fm repr_size
  else
    _ ← write_padding fm repr_size; write_many repr repr_size.

(** ** Reading the format *)

(** [while ( *string) if (--characters == 0) return TRUE]. *)
Fixpoint string_has_at_least (string : list Z) (characters : Z) : bool :=
  match string with
  | [] => false
  | _ :: string' =>
      let characters := u64 (characters - 1) in
      if characters =? 0 then true else string_has_at_least string' characters
  end.

Fixpoint digits_prefix (string : list Z) : Z * list Z :=
  match string with
  | [] => (0, [])
  | c :: string' =>
      if (c <? chr "0") || (chr "9" <? c) then (0, string)
      else let '(size, rest) := digits_prefix string' in (size + 1, rest)
  end.

(** [None] is [UACPI_FALSE]: no digit. *)
Definition consume_digits (string : list Z) : option (Z * list Z) :=
  let '(size, rest) := digits_prefix string in
  if size =? 0 then None else Some (size, rest).

Inductive parse_number_mode := PARSE_NUMBER_MODE_MAYBE | PARSE_NUMBER_MODE_MUST.

(** The result, the advanced format and [*out_value], [value] before. *)
Definition parse_number (fmt : list Z) (mode : parse_number_mode) (value : Z)
    : option (bool * list Z * Z) :=
  match consume_digits fmt with
  | None =>
      Some (match mode with PARSE_NUMBER_MODE_MUST => false | _ => true end, fmt, value)
  | Some (num_digits, rest) =>
      '(ret, value) ← uacpi_string_to_integer fmt num_digits UACPI_BASE_DEC;
      Some (is_ok ret, rest, value)
  end.

(** [klibc]'s [memcmp] compares until the first difference. *)
Fixpoint memcmp (n : nat) (s1 s2 : list Z) : Z :=
  match n with
  | O => 0
  | S n' =>
      let a := char_at s1 0 in let b := char_at s2 0 in
      if negb (a =? b) then (if a <? b then -1 else 1)
      else memcmp n' (tail s1) (tail s2)
  end.

(** The string after the token when it starts with it, [None] for
    [UACPI_FALSE]. *)
Definition consume (token string : list Z) : option (list Z) :=
  let token_size := uacpi_strlen token in
  if negb (string_has_at_least string token_size) then None
  else if memcmp (length token) string token =? 0
  then Some (drop (length token) string) else None.

Fixpoint is_one_of (c : Z) (set : list Z) : bool :=
  match set with
  | [] => false
  | l :: set' => if c =? l then true else is_one_of c set'
  end.

Definition consume_one_of (set string : list Z) : option (Z * list Z) :=
  match string with
  | [] => None
  | c :: string' => if is_one_of c set then Some (c, string') else None
  end.

Definition base_from_specifier (specifier : Z) : Z :=
  if (specifier =? chr "x") || (specifier =? chr "X") then 16
  else if specifier =? chr "o" then 8 else 10.

Definition is_uppercase_specifier (specifier : Z) : bool := specifier =? chr "X".

(** The offset of the next [%] and the format from it on, if any. *)
Fixpoint find_next_conversion (fmt : list Z) : Z * option (list Z) :=
  match fmt with
  | [] => (0, None)
  | c :: fmt' =>
      if c =? chr "%" then (0, Some fmt)
      else let '(offset, next) := find_next_conversion fmt' in (offset + 1, next)
  end.

(** ** Conversion specifications

    The outer [None] is undefined behaviour, the inner one [return -1]. *)

(** The switch on a flag. *)
Definition set_flag (flag : Z) (fm : fmt_spec) : option fmt_spec :=
  if (flag =? chr "+") || (flag =? chr " ") then Some (set_prepend flag fm)
  else if flag =? chr "-" then Some (set_left fm)
  else if flag =? chr "0" then Some (set_pad (chr "0") fm)
  else if flag =? chr "#" then Some (set_alternate fm)
  else None.

(** [while (consume_one_of(&fmt, "+- 0#", &flag))]; every turn consumes a
    character of the format. *)
Fixpoint spec_flags (fuel : nat) (fm : fmt_spec) (fmt : list Z)
    : option (option (fmt_spec * list Z)) :=
  match fuel with
  | O => None
  | S fuel' =>
      match consume_one_of (cstr "+- 0#") fmt with
      | None => Some (Some (fm, fmt))
      | Some (flag, fmt) =>
          match set_flag flag fm with
          | None => Some None
          | Some fm => spec_flags fuel' fm fmt
          end
      end
  end.

Definition spec_width (fm : fmt_spec) (fmt : list Z) (va : list va_item)
    : option (option (fmt_spec * list Z * list va_item)) :=
  match consume (cstr "*") fmt with
  | Some fmt => '(w, va) ← va_int va; Some (Some (set_width (u64 w) fm, fmt, va))
  | None =>
      '(ok, fmt, w) ← parse_number fmt PARSE_NUMBER_MODE_MAYBE (min_width fm);
      Some (if (ok : bool) then Some (set_width w fm, fmt, va) else None)
  end.

Definition spec_precision (fm : fmt_spec) (fmt : list Z) (va : list va_item)
    : option (option (fmt_spec * list Z * list va_item)) :=
  match consume (cstr ".") fmt with
  | None => Some (Some (fm, fmt, va))
  | Some fmt =>
      match consume (cstr "*") fmt with
      | Some fmt => '(p, va) ← va_int va; Some (Some (set_precision (u64 p) fm, fmt, va))
      | None =>
          '(ok, fmt, p) ← parse_number fmt PARSE_NUMBER_MODE_MUST (precision fm);
          Some (if (ok : bool) then Some (set_precision p fm, fmt, va) else None)
      end
  end.

(** The value an integer conversion prints, whether it is signed, and the
    specifier the base is taken from (0 for none). *)
Definition int_conv : Type := Z * bool * Z * list Z * list va_item.

(** [d] or [i] reads with [sget], one of [oxXu] with [uget]. *)
Definition typed_arg (sget uget : list va_item -> option (Z * list va_item))
    (fmt : list Z) (va : list va_item) : option (option int_conv) :=
  match consume (cstr "d") fmt, consume (cstr "i") fmt with
  | Some fmt, _ | None, Some fmt =>
      '(v, va) ← sget va; Some (Some (u64 v, true, 0, fmt, va))
  | None, None =>
      match consume_one_of (cstr "oxXu") fmt with
      | Some (flag, fmt) => '(v, va) ← uget va; Some (Some (u64 v, false, flag, fmt, va))
      | None => Some None
      end
  end.

(** An argument converted to a narrower type. *)
Definition cast_arg (cast : Z -> Z) (get : list va_item -> option (Z * list va_item))
    (va : list va_item) : option (Z * list va_item) :=
  '(v, va) ← get va; Some (cast v, va).

(** The length modifiers; [size_t], [long] and [long long] have 64 bits, so
    [z] is taken by the [ll] branch. *)
Definition int_argument (fmt : list Z) (va : list va_item) : option (option int_conv) :=
  match consume (cstr "hh") fmt with
  | Some fmt => typed_arg (cast_arg s8 va_int) (cast_arg u8 va_int) fmt va
  | None =>
  match consume (cstr "h") fmt with
  | Some fmt => typed_arg (cast_arg s16 va_int) (cast_arg u16 va_int) fmt va
  | None =>
  match consume (cstr "ll") fmt, consume (cstr "z") fmt with
  | Some fmt, _ | None, Some fmt => typed_arg va_long va_ulong fmt va
  | None, None =>
  match consume (cstr "l") fmt with
  | Some fmt => typed_arg va_long va_ulong fmt va
  | None => typed_arg va_int va_uint fmt va
  end end end end.

(** [uacpi_va_arg(vlist, uacpi_char* )], [None] for a null pointer. *)
Definition va_string (va : list va_item) : option (option (list Z) * list va_item) :=
  match va with
  | VaStr s :: va' => Some (Some s, va')
  | VaPtr z :: va' => if u64 z =? 0 then Some (None, va') else None
  | _ => None
  end.

(** The loop over the characters of [%s]; the result is [i]. *)
Fixpoint write_string (fm : fmt_spec) (i : Z) (string : list Z) : M fmt_buf_state Z :=
  match string with
  | [] => mret i
  | c :: string' =>
      if negb (has_precision fm) || (i <? precision fm) then
        _ ← write_one c; write_string fm (i + 1) string'
      else mret i
  end.

Definition conv_string (fm : fmt_spec) (va : list va_item)
    : M fmt_buf_state (list va_item) :=
  '(string, va) ← liftO (va_string va);
  let string := default (cstr "<null>") string in
  i ← write_string fm 0 string;
  _ ← write_repeat (iters i (min_width fm)) (chr " ");
  mret va.

Definition conv_pointer (fm : fmt_spec) (va : list va_item)
    : M fmt_buf_state (list va_item) :=
  '(value, va) ← liftO (va_ptr va);
  let fm := set_pad (chr "0") (set_width 16 (set_base 16 (uppercase fm) fm)) in
  _ ← write_integer fm value;
  mret va.

(** From [flag = 0] on: the result is the rest of the format and of the
    arguments, [None] for [return -1]. *)
Definition conversion (fm : fmt_spec) (fmt : list Z) (va : list va_item)
    : M fmt_buf_state (option (list Z * list va_item)) :=
  match consume (cstr "c") fmt with
  | Some fmt => '(v, va) ← liftO (va_int va); _ ← write_one (u8 v); mret (Some (fmt, va))
  | None =>
  match consume (cstr "s") fmt with
  | Some fmt => va ← conv_string fm va; mret (Some (fmt, va))
  | None =>
  match consume (cstr "p") fmt with
  | Some fmt => va ← conv_pointer fm va; mret (Some (fmt, va))
  | None =>
      arg ← liftO (int_argument fmt va);
      match arg with
      | None => mret None
      | Some (value, signed, flag, fmt, va) =>
          let fm := if (signed : bool) then set_signed fm else fm in
          let fm := if truthy flag
                    then set_base (base_from_specifier flag) (is_uppercase_specifier flag) fm
                    else fm in
          _ ← write_integer fm value;
          mret (Some (fmt, va))
      end
  end end end.

(** After the text: [fmt] starts with [%]. *)
Definition conversion_spec (fmt : list Z) (va : list va_item)
    : M fmt_buf_state (option (list Z * list va_item)) :=
  match consume (cstr "%%") fmt with
  | Some fmt => _ ← write_one (chr "%"); mret (Some (fmt, va))
  | None =>
      let fmt := tail fmt in
      r ← liftO (spec_flags (S (length fmt)) fmt_spec_init fmt);
      match r with
      | None => mret None
      | Some (fm, fmt) =>
          r ← liftO (spec_width fm fmt va);
          match r with
          | None => mret None
          | Some (fm, fmt, va) =>
              r ← liftO (spec_precision fm fmt va);
              match r with
              | None => mret None
              | Some (fm, fmt, va) => conversion fm fmt va
              end
          end
      end
  end.

(** [while ( *fmt)]; every turn consumes a character of the format.  The
    result is [None] for [return -1]. *)
Fixpoint vsnprintf_loop (fuel : nat) (fmt : list Z) (va : list va_item)
    : M fmt_buf_state (option unit) :=
  match fmt with
  | [] => mret (Some tt)
  | _ :: _ =>
      match fuel with
      | O => ub
      | S fuel' =>
          let '(next_offset, next_conversion) := find_next_conversion fmt in
          _ ← (if truthy next_offset then write_many fmt next_offset else mret tt);
          match next_conversion with
          | None => mret (Some tt)
          | Some fmt =>
              r ← conversion_spec fmt va;
              match r with
              | None => mret None
              | Some (fmt, va) => vsnprintf_loop fuel' fmt va
              end
          end
      end
  end.

(** [buffer[last_char] = '\0'] when there is room for it. *)
Definition terminate : M fmt_buf_state unit := fun s =>
  if truthy (capacity s) then
    let last_char := Z.min (bytes_written s) (capacity s - 1) in
    buf ← store (buffer s) (Z.to_nat last_char) 0;
    Some (tt, FmtBuf buf (capacity s) (bytes_written s))
  else Some (tt, s).

(** The value returned and the buffer afterwards. *)
Definition uacpi_vsnprintf (buf : list Z) (cap : Z) (fmt : list Z) (va : list va_item)
    : option (Z * list Z) :=
  '(r, s) ← vsnprintf_loop (length fmt) fmt va (FmtBuf buf cap 0);
  match r with
  | None => Some (-1, buffer s)
  | Some tt => '(_, s) ← terminate s; Some (s32 (bytes_written s), buffer s)
  end.

Definition uacpi_snprintf (buf : list Z) (cap : Z) (fmt : list Z) (va : list va_item)
    : option (Z * list Z) := uacpi_vsnprintf buf cap fmt va.

(** ** Logging *)

Definition UACPI_PLAIN_LOG_BUFFER_SIZE : Z := 128.

(** The C string in a buffer: what is before its first NUL. *)
Fixpoint string_in (buf : list Z) : option (list Z) :=
  match buf with
  | [] => None
  | c :: buf' => if c =? 0 then Some [] else s ← string_in buf'; Some (c :: s)
  end.

(** The kernel wrapper's [printf("%s\r", s)]. *)
Definition uacpi_kernel_log (s : list Z) : M sinks unit :=
  _ ← printf_ (cstr "%s" ++ [13]) [VaStr s]; mret tt.

(** [buf[at] = c] on the log buffer, which is [UACPI_PLAIN_LOG_BUFFER_SIZE]
    bytes. *)
Definition log_cut (buf : list Z) : list Z :=
  let at_end k c b := <[Z.to_nat (UACPI_PLAIN_LOG_BUFFER_SIZE - k) := c]> b in
  at_end 2 10 (at_end 3 (chr ".") (at_end 4 (chr ".") (at_end 5 (chr ".") buf))).

(** [junk] is what the automatic array holds before. *)
Definition uacpi_log (junk : list Z) (str : list Z) (va : list va_item) : M sinks unit :=
  '(ret, buf) ← liftO (uacpi_vsnprintf junk UACPI_PLAIN_LOG_BUFFER_SIZE str va);
  if ret <? 0 then mret tt
  else
    let buf := if UACPI_PLAIN_LOG_BUFFER_SIZE <=? ret then log_cut buf else buf in
    msg ← liftO (string_in buf);
    uacpi_kernel_log msg.

(** ** Runs *)

Definition run_format (cap : Z) (fmt : string) (va : list va_item) : option (Z * list Z) :=
  uacpi_snprintf (replicate (Z.to_nat cap) 170) cap (cstr fmt) va.

Example vsnprintf_ex1 :
  run_format 8 "a%03d!" [VaInt 7] = Some (5, cstr "a007!" ++ [0; 170; 170]).
Proof. reflexivity. Qed.

Example vsnprintf_ex2 :
  run_format 4 "%#llx" [VaLong (-1)] = Some (18, cstr "0xf" ++ [0]).
Proof. vm_compute. reflexivity. Qed.

Example vsnprintf_ex3 :
  run_format 9 "%5d|" [VaInt (-42)] = Some (7, cstr "-   42|" ++ [0; 170]).
Proof. vm_compute. reflexivity. Qed.

Example vsnprintf_ex4 : run_format 4 "ab%y" [] = Some (-1, cstr "ab" ++ [170; 170]).
Proof. vm_compute. reflexivity. Qed.

Example vsnprintf_ex5 :
  run_format 12 "[%-4s%.2s]%%" [VaStr (cstr "ab"); VaStr (cstr "xyz")]
  = Some (9, cstr "[ab  xy]%" ++ [0; 170; 170]).
Proof. vm_compute. reflexivity. Qed.
