(* ===== verification/UFormatSpec.v ===== *)
(** * uACPI's formatter: theorems about [UFormat]

    Every operation of the formatter appends a text that does not depend on
    the buffer; the buffer keeps what fits.  From that: the buffer after a text
    was printed, the text of an integer, the round trip
    with [uacpi_string_to_integer], and what [uacpi_log] prints. *)
From S2P Require Import Prelude Status UStd StrToInt Printf UFormat.

(** ** Appending to the output *)

Definition fb_wf (s : fmt_buf_state) : Prop :=
  0 <= bytes_written s /\ 0 <= capacity s <= Z.of_nat (length (buffer s)).

(** [t] appended: its part that fits is stored, all of it is counted. *)
Definition emit (s : fmt_buf_state) (t : list Z) : fmt_buf_state :=
  FmtBuf (write_at (buffer s) (Z.to_nat (bytes_written s))
            (take (Z.to_nat (capacity s - bytes_written s)) t))
         (capacity s) (bytes_written s + Z.of_nat (length t)).

Lemma emit_fits s (t : list Z) :
  fb_wf s -> (bytes_written s < capacity s) ->
  (Z.to_nat (bytes_written s) + length (take (Z.to_nat (capacity s - bytes_written s)) t)
   <= length (buffer s))%nat.
Proof. intros [H1 H2] H. rewrite length_take. lia. Qed.

Lemma emit_full s t :
  capacity s <= bytes_written s ->
  emit s t = FmtBuf (buffer s) (capacity s) (bytes_written s + Z.of_nat (length t)).
Proof.
  intros H. unfold emit. replace (Z.to_nat (capacity s - bytes_written s)) with 0%nat by lia.
  by rewrite take_0, write_at_nil.
Qed.

Lemma emit_nil s : emit s [] = s.
Proof. unfold emit. rewrite take_nil, write_at_nil, Z.add_0_r. by destruct s. Qed.

Lemma emit_wf s t : fb_wf s -> fb_wf (emit s t).
Proof.
  intros Hs. destruct (Z.lt_ge_cases (bytes_written s) (capacity s)) as [H|H].
  - unfold fb_wf. cbn [emit bytes_written capacity buffer].
    rewrite length_write_at by by apply emit_fits. destruct Hs. split; lia.
  - rewrite emit_full by done. destruct Hs. split; simpl; lia.
Qed.

Lemma emit_emit s t u : fb_wf s -> emit (emit s t) u = emit s (t ++ u).
Proof.
  intros Hs. pose proof Hs as [H0 Hc].
  destruct (Z.lt_ge_cases (bytes_written s) (capacity s)) as [H|H].
  2: { rewrite !(emit_full s), emit_full by (simpl; lia). simpl. f_equal.
       rewrite length_app. lia. }
  unfold emit at 1. cbn [emit bytes_written capacity buffer].
  unfold emit. rewrite length_app, take_app.
  set (k := Z.to_nat (capacity s - bytes_written s)).
  f_equal; [|lia].
  replace (Z.to_nat (capacity s - (bytes_written s + Z.of_nat (length t)))) with (k - length t)%nat by lia.
  destruct (Nat.le_gt_cases (length t) k) as [Hk|Hk].
  - rewrite (take_ge t) by lia.
    rewrite <- write_at_app by (rewrite length_take; lia). f_equal. lia.
  - replace (k - length t)%nat with 0%nat by lia. rewrite !take_0, write_at_nil.
    by rewrite app_nil_r.
Qed.

(** [m] appends [t] and returns [r], whatever the buffer holds; [None] is a
    run that is undefined on every buffer. *)
Definition appends {A} (m : M fmt_buf_state A) (r : option A) (t : list Z) : Prop :=
  forall s, fb_wf s -> bytes_written s + Z.of_nat (length t) < 2 ^ 64 ->
    m s = (a ← r; Some (a, emit s t)).

Lemma appends_ret {A} (a : A) : appends (mret a) (Some a) [].
Proof. intros s _ _. cbn [mbind option_bind]. by rewrite emit_nil. Qed.

Lemma appends_bind {A B} (m : M fmt_buf_state A) (f : A -> M fmt_buf_state B) a r t u :
  appends m (Some a) t -> appends (f a) r u -> appends (mbind (M := M _) f m) r (t ++ u).
Proof.
  intros Hm Hf s Hs Hl. rewrite length_app in Hl. unfold mbind, M_bind.
  rewrite Hm by (try done; lia). cbn [mbind option_bind].
  rewrite Hf by (try (by apply emit_wf); cbn [emit bytes_written]; lia).
  by rewrite emit_emit.
Qed.

Lemma appends_liftO {A B} (o : option A) (f : A -> M fmt_buf_state B) a r t :
  o = Some a -> appends (f a) r t -> appends (mbind (M := M _) f (liftO o)) r t.
Proof. intros -> Hf s. exact (Hf s). Qed.

Lemma write_one_appends c : appends (write_one c) (Some tt) [c].
Proof.
  intros s Hs Hl. pose proof Hs as [H0 Hc]. unfold write_one. simpl length in Hl.
  destruct (Z.ltb_spec (bytes_written s) (capacity s)).
  - rewrite store_ok by lia. cbn [mbind option_bind]. rewrite u64_small by lia.
    unfold emit. replace (Z.to_nat (capacity s - bytes_written s))
      with (S (Z.to_nat (capacity s - bytes_written s - 1))) by lia.
    cbn [firstn take]. rewrite take_nil.
    rewrite <- write_at_cons by (simpl; lia). by rewrite write_at_nil.
  - rewrite emit_full by lia. cbn [mbind option_bind]. by rewrite u64_small by lia.
Qed.

Lemma write_many_appends str n :
  0 <= n <= Z.of_nat (length str) ->
  appends (write_many str n) (Some tt) (take (Z.to_nat n) str).
Proof.
  intros Hn s Hs Hl. pose proof Hs as [H0 Hc]. unfold write_many.
  assert (Hlen : Z.of_nat (length (take (Z.to_nat n) str)) = n) by (rewrite length_take; lia).
  destruct (Z.ltb_spec (bytes_written s) (capacity s)).
  - unfold memcpy. rewrite memcpy_loop_spec by lia.
    cbn [mbind option_bind]. rewrite u64_small by lia. unfold emit. rewrite Hlen.
    rewrite drop_0, take_take. do 3 f_equal. f_equal. f_equal. lia.
  - rewrite emit_full by lia. cbn [mbind option_bind]. rewrite u64_small, Hlen by lia. done.
Qed.

Lemma write_repeat_appends n c : appends (write_repeat n c) (Some tt) (replicate n c).
Proof.
  induction n as [|n IH]; cbn [write_repeat]; [apply appends_ret|].
  exact (appends_bind _ _ _ _ [c] _ (write_one_appends c) IH).
Qed.

Definition padding (fm : fmt_spec) (repr_size : Z) : list Z :=
  replicate (iters repr_size (min_width fm)) (if left_justify fm then chr " " else pad_char fm).

Lemma write_padding_appends fm n : appends (write_padding fm n) (Some tt) (padding fm n).
Proof.
  unfold write_padding, padding, iters. destruct (Z.leb_spec (min_width fm) n).
  - replace (Z.to_nat (min_width fm - n)) with 0%nat by lia. apply appends_ret.
  - apply write_repeat_appends.
Qed.

(** The characters of [%s] that are printed. *)
Definition shown (fm : fmt_spec) (i : Z) (str : list Z) : list Z :=
  if has_precision fm then take (Z.to_nat (precision fm - i)) str else str.

Lemma write_string_appends fm i str :
  appends (write_string fm i str) (Some (i + Z.of_nat (length (shown fm i str)))) (shown fm i str).
Proof.
  unfold shown. revert i. induction str as [|c str IH]; intros i; cbn [write_string].
  - destruct (has_precision fm); rewrite ?take_nil; rewrite Z.add_0_r; apply appends_ret.
  - specialize (IH (i + 1)). destruct (has_precision fm); cbn [negb orb].
    + destruct (Z.ltb_spec i (precision fm)).
      * replace (Z.to_nat (precision fm - i)) with (S (Z.to_nat (precision fm - (i + 1)))) by lia.
        cbn [take length]. rewrite Nat2Z.inj_succ, <- Z.add_1_l, Z.add_assoc.
        exact (appends_bind _ _ _ _ [c] _ (write_one_appends c) IH).
      * replace (Z.to_nat (precision fm - i)) with 0%nat by lia. rewrite take_0, Z.add_0_r.
        apply appends_ret.
    + cbn [length]. rewrite Nat2Z.inj_succ, <- Z.add_1_l, Z.add_assoc.
      exact (appends_bind _ _ _ _ [c] _ (write_one_appends c) IH).
Qed.

(** ** The digits of an integer *)

(** A spec whose base is one the formatter prints in. *)
Definition base_is (fm : fmt_spec) (b : uacpi_base) : Prop :=
  b <> UACPI_BASE_AUTO /\ base fm = base_num b.

Lemma repr_char_digit fm b r :
  base_is fm b -> 0 <= r < base fm -> is_digit_in b (repr_char fm r) r.
Proof.
  intros [Hb Hbase] Hr. unfold is_digit_in, repr_char. rewrite Hbase in *.
  assert (H : forall up, let c := if base_num b =? 16 then hex_char up r
      else if (base_num b =? 8) || (base_num b =? 10) then r + chr "0" else chr "?" in
    (r <? base_num b) && negb ((0 <=? c) && (c <? 256)
      && match digit_of b c with Some d => d =? r | None => false end) = false).
  { intros up c. apply negb_true_iff. unfold c. pose proof (base_num_range _ Hb).
    check_all_below 16%nat r; [|lia]. destruct b, up; try done; vm_compute; done. }
  specialize (H (uppercase fm)). cbv zeta in H.
  rewrite (proj2 (Z.ltb_lt r (base_num b))) in H by lia. cbn [andb] in H.
  destruct (digit_of b _); zify_bool; [|done]. subst. split; [lia | done].
Qed.

(** Base-[b] numerals without a leading zero. *)
Definition numeral (b : uacpi_base) (v : Z) (cs ds : list Z) : Prop :=
  Forall2 (is_digit_in b) cs ds /\ horner (base_num b) 0 ds = v /\ head ds <> Some 0.

Lemma horner_app b v ds d : horner b v (ds ++ [d]) = horner b v ds * b + d.
Proof. unfold horner. by rewrite foldl_app. Qed.

Lemma repr_digits_spec fm b k fuel v repr :
  base_is fm b -> 0 <= v < base fm ^ Z.of_nat k ->
  (k + length repr <= REPR_BUFFER_SIZE)%nat -> (k < fuel)%nat ->
  exists cs ds, repr_digits fuel fm v repr = Some (cs ++ repr) /\
    numeral b v cs ds /\ (length cs <= k)%nat.
Proof.
  intros Hb. pose proof Hb as [Hba Hbase]. pose proof (base_num_range _ Hba).
  rewrite Hbase. revert fuel v repr.
  induction k as [|k IH]; intros [|fuel] v repr Hv Hk Hf; try lia; cbn [repr_digits].
  - replace v with 0 by (simpl in Hv; lia). exists [], []. by repeat constructor.
  - unfold truthy. destruct (Z.eqb_spec v 0) as [->|Hne]; cbn [negb].
    { exists [], []. split; [done|]. split; [by repeat constructor | simpl; lia]. }
    rewrite Hbase. set (c := repr_char fm (v mod base_num b)).
    unfold repr_push. rewrite (proj2 (Nat.ltb_lt _ _)) by lia. cbn [mbind option_bind].
    rewrite Nat2Z.inj_succ, Z.pow_succ_r in Hv by lia.
    edestruct (IH fuel (v / base_num b) (c :: repr)) as (cs & ds & -> & (Hcs & Hh & Hz) & Hl).
    { split; [apply Z.div_pos; lia | apply Z.div_lt_upper_bound; lia]. }
    { simpl; lia. }
    { lia. }
    exists (cs ++ [c]), (ds ++ [v mod base_num b]). rewrite <- app_assoc. split; [done|].
    split; [|rewrite length_app; simpl; lia]. split_and!.
    + apply Forall2_app; [done|]. constructor; [|done]. apply repr_char_digit; [done|].
      rewrite Hbase. apply Z.mod_pos_bound. lia.
    + rewrite horner_app, Hh. rewrite (Z.div_mod v (base_num b)) at 3 by lia. lia.
    + destruct ds as [|d ds]; [|done]. cbn [app head]. intros [= He].
      cbn in Hh. apply Hne. rewrite (Z.div_mod v (base_num b)) by lia. lia.
Qed.

(** The text between the sign and the padding: the prefix of the alternate
    form, then the numeral ("0" for zero). *)
Definition alt_prefix (fm : fmt_spec) : list Z :=
  if alternate_form fm then
    if base fm =? 16 then [chr "0"; if uppercase fm then chr "X" else chr "x"]
    else if base fm =? 8 then [chr "0"] else []
  else [].

Definition int_sign (fm : fmt_spec) (negative : bool) : list Z :=
  if negative then [chr "-"] else if prepend fm then [prepend_char fm] else [].

Definition justified (fm : fmt_spec) (repr : list Z) : list Z :=
  let pad := padding fm (Z.of_nat (length repr)) in
  if left_justify fm then repr ++ pad else pad ++ repr.

Definition is_negative (fm : fmt_spec) (value : Z) : bool := is_signed fm && (s64 value <? 0).
Definition magnitude (fm : fmt_spec) (value : Z) : Z :=
  if is_negative fm value then u64 (- s64 value) else value.

(** 64-bit values have at most 22 digits. *)
Lemma digits_22 b v : b <> UACPI_BASE_AUTO -> 0 <= v < 2 ^ 64 -> v < base_num b ^ Z.of_nat 22.
Proof.
  intros Hb Hv. apply Z.lt_le_trans with (2 ^ 64); [lia|]. by destruct b; vm_compute.
Qed.

Lemma magnitude_range fm v : 0 <= v < 2 ^ 64 -> 0 <= magnitude fm v < 2 ^ 64.
Proof. intros Hv. unfold magnitude. case_if; [apply wrap_range; lia | done]. Qed.

(** A numeral, or "0" for zero. *)
Definition digits_of (b : uacpi_base) (v : Z) (cs ds : list Z) : Prop :=
  if v =? 0 then cs = [chr "0"] /\ ds = [0] else numeral b v cs ds.

Lemma repr_all fm b v :
  base_is fm b -> 0 <= v < 2 ^ 64 ->
  exists cs ds, digits_of b v cs ds /\ (length cs <= 22)%nat /\
    (repr ← repr_digits (S REPR_BUFFER_SIZE) fm v [];
     repr ← (if (length repr =? 0)%nat then repr_push (chr "0") repr else Some repr);
     repr_prefix fm repr) = Some (alt_prefix fm ++ cs).
Proof.
  intros Hb Hv. pose proof Hb as [Hba Hbase].
  assert (Hp : forall cs, (length cs <= 22)%nat -> repr_prefix fm cs = Some (alt_prefix fm ++ cs)).
  { intros cs Hl. unfold repr_prefix, alt_prefix, repr_push, REPR_BUFFER_SIZE.
    destruct (alternate_form fm); [|done]. destruct (base fm =? 16).
    - rewrite (proj2 (Nat.ltb_lt _ _)) by lia. cbn [mbind option_bind length].
      by rewrite (proj2 (Nat.ltb_lt _ _)) by lia.
    - destruct (base fm =? 8); [|done]. by rewrite (proj2 (Nat.ltb_lt _ _)) by lia. }
  destruct (repr_digits_spec fm b 22 (S REPR_BUFFER_SIZE) v []) as (cs & ds & Hr & Hn & Hl);
    [done | rewrite Hbase; split; [lia | by apply digits_22] | unfold REPR_BUFFER_SIZE; simpl; lia
    | unfold REPR_BUFFER_SIZE; lia |].
  rewrite app_nil_r in Hr. rewrite Hr. cbn [mbind option_bind]. unfold digits_of.
  destruct Hn as (Hcs & Hh & Hz). destruct (Z.eqb_spec v 0) as [->|Hne].
  - assert (cs = []) as ->.
    { destruct Hcs as [|c d cs ds Hc Hcs]; [done|]. exfalso. apply Hz. simpl.
      destruct (digit_facts _ _ _ Hc Hba) as (Hd & _). cbn [horner foldl] in Hh.
      rewrite Z.mul_0_l, Z.add_0_l in Hh.
      pose proof (horner_mono (base_num b) d ds ltac:(pose proof (base_num_range _ Hba); lia)
        ltac:(lia) (digits_nonneg _ _ _ Hcs Hba)). unfold horner in *. f_equal. lia. }
    cbn [length Nat.eqb]. exists [chr "0"], [0]. split; [done|]. split; [simpl; lia|].
    change (repr_push (chr "0") []) with (Some [chr "0"]). cbn [mbind option_bind].
    apply Hp. simpl. lia.
  - exists cs, ds. split; [done|]. split; [done|].
    destruct cs as [|c cs]; [|by apply Hp].
    exfalso. apply Hne. inversion Hcs; subst. done.
Qed.

(** What is written once the conversion buffer holds [repr]. *)
Lemma write_integer_of_repr fm v repr :
  (r ← repr_digits (S REPR_BUFFER_SIZE) fm (magnitude fm v) [];
   r ← (if (length r =? 0)%nat then repr_push (chr "0") r else Some r);
   repr_prefix fm r) = Some repr ->
  appends (write_integer fm v) (Some tt) (int_sign fm (is_negative fm v) ++ justified fm repr).
Proof.
  intros Hr. unfold write_integer. cbv zeta. fold (is_negative fm v). fold (magnitude fm v).
  eapply appends_bind.
  { unfold int_sign. destruct (is_negative fm v).
    - rewrite orb_true_r. apply write_one_appends.
    - rewrite orb_false_r. destruct (prepend fm); [apply write_one_appends | apply appends_ret]. }
  cbn beta.
  destruct (repr_digits _ _ _ _) as [r1|]; [|done]. eapply appends_liftO; [done|].
  cbn [mbind option_bind] in Hr.
  destruct (if (length r1 =? 0)%nat then _ else _) as [r2|]; [|done].
  eapply appends_liftO; [done|]. cbn [mbind option_bind] in Hr.
  eapply appends_liftO; [exact Hr|]. unfold justified. cbv zeta.
  assert (Hw : appends (write_many repr (Z.of_nat (length repr))) (Some tt) repr).
  { pose proof (write_many_appends repr (Z.of_nat (length repr)) ltac:(lia)) as H.
    by rewrite Nat2Z.id, take_ge in H by lia. }
  destruct (left_justify fm); eapply appends_bind; try exact Hw; apply write_padding_appends.
Qed.

Lemma write_integer_appends fm b v :
  base_is fm b -> 0 <= v < 2 ^ 64 ->
  exists cs ds, digits_of b (magnitude fm v) cs ds /\ (length cs <= 22)%nat /\
    appends (write_integer fm v) (Some tt)
      (int_sign fm (is_negative fm v) ++ justified fm (alt_prefix fm ++ cs)).
Proof.
  intros Hb Hv. destruct (repr_all fm b _ Hb (magnitude_range fm v Hv)) as (cs & ds & Hd & Hl & Hr).
  exists cs, ds. split; [done|]. split; [done|]. by apply write_integer_of_repr.
Qed.

(** ** Tokens of the format *)

Lemma string_has_at_least_spec s n :
  1 <= n < 2 ^ 64 -> string_has_at_least s n = (n <=? Z.of_nat (length s)).
Proof.
  revert n. induction s as [|c s IH]; intros n Hn; cbn [string_has_at_least length].
  - symmetry. apply Z.leb_gt. simpl. lia.
  - cbv zeta. rewrite u64_small by lia. destruct (Z.eqb_spec (n - 1) 0).
    + symmetry. apply Z.leb_le. lia.
    + rewrite IH by lia. rewrite Nat2Z.inj_succ.
      destruct (Z.leb_spec (n - 1) (Z.of_nat (length s))), (Z.leb_spec n (Z.succ (Z.of_nat (length s))));
        lia || done.
Qed.

Lemma memcmp_eq s t :
  (length t <= length s)%nat -> memcmp (length t) s t = 0 <-> take (length t) s = t.
Proof.
  revert s. induction t as [|c t IH]; intros [|d s] Hl; try (simpl in Hl; lia); [done..|].
  cbn [length memcmp]. change (char_at (d :: s) 0) with d. change (char_at (c :: t) 0) with c.
  cbn [tail take]. destruct (Z.eqb_spec d c) as [->|Hne]; cbn [negb].
  - simpl in Hl. rewrite IH by lia. split; [by intros -> | by intros [= ->]].
  - split; [by destruct (d <? c) | intros [= ]; done].
Qed.

(** [consume] tests for the token and removes it. *)
Lemma consume_spec token s r :
  token <> [] -> Z.of_nat (length token) < 2 ^ 64 ->
  consume token s = Some r <-> s = token ++ r.
Proof.
  intros Hne Hl. unfold consume, uacpi_strlen. cbv zeta.
  assert (1 <= Z.of_nat (length token)) by (destruct token; [done | simpl; lia]).
  rewrite string_has_at_least_spec by lia.
  destruct (Z.leb_spec (Z.of_nat (length token)) (Z.of_nat (length s))) as [Hs|Hs]; cbn [negb].
  - destruct (Z.eqb_spec (memcmp (length token) s token) 0) as [He|He].
    + apply memcmp_eq in He; [|lia]. split.
      * intros [= <-]. rewrite <- He at 1. by rewrite take_drop.
      * intros ->. by rewrite drop_app_length.
    + split; [done|]. intros ->. exfalso. apply He. apply memcmp_eq; [rewrite length_app; lia|].
      apply take_app_length.
  - split; [done|]. intros ->. rewrite length_app in Hs. lia.
Qed.

Lemma consume_shorter token s r :
  consume token s = Some r -> token <> [] -> Z.of_nat (length token) < 2 ^ 64 ->
  (length r < length s)%nat.
Proof.
  intros H Hne Hl. apply consume_spec in H as ->; [|done..].
  rewrite length_app. destruct token; [done | simpl; lia].
Qed.

Lemma consume_one_of_spec set s c r :
  consume_one_of set s = Some (c, r) -> s = c :: r /\ is_one_of c set = true.
Proof. destruct s; simpl; [done|]. case_if; [|done]. by intros [= <- <-]. Qed.

Lemma is_one_of_spec c set : is_one_of c set = true <-> c ∈ set.
Proof.
  induction set as [|l set IH]; cbn [is_one_of].
  - split; [done | by intros ?%elem_of_nil].
  - rewrite elem_of_cons, <- IH. destruct (Z.eqb_spec c l); naive_solver.
Qed.

Lemma find_next_conversion_spec fmt :
  exists text, Forall (fun c => c <> chr "%") text /\
    fmt = text ++ default [] (find_next_conversion fmt).2 /\
    (find_next_conversion fmt).1 = Z.of_nat (length text) /\
    (forall r, (find_next_conversion fmt).2 = Some r -> exists r', r = chr "%" :: r').
Proof.
  induction fmt as [|c fmt (text & Hf & He & Hn & Hr)]; cbn [find_next_conversion].
  - by exists [].
  - destruct (Z.eqb_spec c (chr "%")) as [->|Hne].
    + exists []. split_and!; [constructor | done.. |]. intros r [= <-]. by eexists.
    + destruct (find_next_conversion fmt) as [offset next]. cbn [fst snd] in *.
      exists (c :: text). split_and!; [by constructor | simpl; by f_equal | simpl; lia | done].
Qed.

Lemma digits_prefix_spec s :
  exists cs ds, Forall2 (is_digit_in UACPI_BASE_DEC) cs ds /\
    s = cs ++ (digits_prefix s).2 /\ (digits_prefix s).1 = Z.of_nat (length cs).
Proof.
  induction s as [|c s (cs & ds & Hcs & Hs & Hn)]; cbn [digits_prefix].
  - by exists [], [].
  - destruct ((c <? chr "0") || (chr "9" <? c)) eqn:Hc.
    + by exists [], [].
    + destruct (digits_prefix s) as [size rest]. cbn [fst snd] in *.
      exists (c :: cs), (c - chr "0" :: ds).
      split_and!; [|simpl; by f_equal | simpl; lia]. constructor; [|done].
      zify_bool. chars. split; [lia|].
      assert (Hd : implb ((48 <=? c) && (c <=? 57))
        match digit_of UACPI_BASE_DEC c with Some d => d =? c - 48 | None => false end = true)
        by (check_all_below 256%nat c; [by vm_compute | lia]).
      rewrite (proj2 (Z.leb_le 48 c)), (proj2 (Z.leb_le c 57)) in Hd by lia. cbn [andb implb] in Hd.
      destruct (digit_of _ _); zify_bool; by subst.
Qed.

(** A number is parsed whatever the previous value was. *)
Lemma parse_number_total fmt mode :
  exists (ok : bool) rest, (length rest <= length fmt)%nat /\
    forall v, exists w, parse_number fmt mode v = Some (ok, rest, w).
Proof.
  unfold parse_number, consume_digits.
  destruct (digits_prefix_spec fmt) as (cs & ds & Hcs & Hs & Hn).
  destruct (digits_prefix fmt) as [size rest]. cbn [fst snd] in *. subst size.
  destruct (Z.eqb_spec (Z.of_nat (length cs)) 0).
  - do 2 eexists. split; [|by eexists]. done.
  - destruct (number_value [] false [] UACPI_BASE_DEC UACPI_BASE_DEC [] cs ds rest
      (Z.of_nat (length cs))) as (status & H & _).
    + constructor.
    + by left.
    + by constructor.
    + done.
    + by intros ->.
    + left. simpl. lia.
    + cbn [app] in H. rewrite <- Hs in H. exists (is_ok status), rest. split.
      * rewrite Hs, length_app. lia.
      * intros v. rewrite H. cbn [mbind option_bind]. by eexists.
Qed.

(** ** The arguments a format takes *)

Inductive va_kind := KInt | KLong | KPtr | KStr.

(** [%s] takes a string or a null pointer. *)
Definition has_kind (k : va_kind) (v : va_item) : Prop :=
  match k, v with
  | KInt, VaInt _ | KLong, VaLong _ | KPtr, VaPtr _ | KStr, VaStr _ => True
  | KStr, VaPtr z => u64 z = 0
  | _, _ => False
  end.

Definition getter_ok (k : va_kind) (get : list va_item -> option (Z * list va_item)) : Prop :=
  forall v rest, has_kind k v -> exists z, get (v :: rest) = Some (z, rest).

Lemma va_int_ok : getter_ok KInt va_int.
Proof. intros [] rest H; try done. by eexists. Qed.
Lemma va_uint_ok : getter_ok KInt va_uint.
Proof. intros [] rest H; try done. by eexists. Qed.
Lemma va_long_ok : getter_ok KLong va_long.
Proof. intros [] rest H; try done. by eexists. Qed.
Lemma va_ulong_ok : getter_ok KLong va_ulong.
Proof. intros [] rest H; try done. by eexists. Qed.
Lemma cast_arg_ok k cast get : getter_ok k get -> getter_ok k (cast_arg cast get).
Proof.
  intros H v rest Hv. unfold cast_arg. destruct (H v rest Hv) as [z ->]. by eexists.
Qed.
#[local] Hint Resolve va_int_ok va_uint_ok va_long_ok va_ulong_ok cast_arg_ok : core.

(** An integer conversion takes one argument, or is malformed. *)
Definition int_conv_ok (fmt : list Z) (k : va_kind)
    (f : list va_item -> option (option int_conv)) : Prop :=
  (exists signed flag fmt', (length fmt' < length fmt)%nat /\
     forall v rest, has_kind k v ->
       exists z, f (v :: rest) = Some (Some (u64 z, signed, flag, fmt', rest))) \/
  (forall va, f va = Some None).

Ltac token_shorter :=
  eapply consume_shorter; [eassumption | done | by vm_compute].

Lemma typed_arg_ok fmt k sget uget :
  getter_ok k sget -> getter_ok k uget -> int_conv_ok fmt k (typed_arg sget uget fmt).
Proof.
  intros Hs Hu. unfold int_conv_ok, typed_arg.
  destruct (consume (cstr "d") fmt) as [f|] eqn:Hd;
    [|destruct (consume (cstr "i") fmt) as [f|] eqn:Hi;
      [|destruct (consume_one_of (cstr "oxXu") fmt) as [[flag f]|] eqn:Ho]].
  - left. exists true, 0, f. split; [token_shorter|].
    intros v rest Hv. destruct (Hs v rest Hv) as [z ->]. by eexists.
  - left. exists true, 0, f. split; [token_shorter|].
    intros v rest Hv. destruct (Hs v rest Hv) as [z ->]. by eexists.
  - left. exists false, flag, f. split.
    { apply consume_one_of_spec in Ho as [-> _]. simpl. lia. }
    intros v rest Hv. destruct (Hu v rest Hv) as [z ->]. by eexists.
  - by right.
Qed.

Lemma int_conv_ok_longer fmt fmt' k f :
  (length fmt' < length fmt)%nat -> int_conv_ok fmt' k f -> int_conv_ok fmt k f.
Proof.
  intros Hl [(sg & flag & r & Hr & H)|H]; [left | by right].
  exists sg, flag, r. split; [lia | done].
Qed.

Lemma int_argument_ok fmt : exists k, int_conv_ok fmt k (int_argument fmt).
Proof.
  unfold int_argument.
  destruct (consume (cstr "hh") fmt) as [f|] eqn:H1.
  { exists KInt. apply (int_conv_ok_longer _ f); [token_shorter|]. apply typed_arg_ok; auto. }
  destruct (consume (cstr "h") fmt) as [f|] eqn:H2.
  { exists KInt. apply (int_conv_ok_longer _ f); [token_shorter|]. apply typed_arg_ok; auto. }
  destruct (consume (cstr "ll") fmt) as [f|] eqn:H3.
  { exists KLong. apply (int_conv_ok_longer _ f); [token_shorter|]. apply typed_arg_ok; auto. }
  destruct (consume (cstr "z") fmt) as [f|] eqn:H4.
  { exists KLong. apply (int_conv_ok_longer _ f); [token_shorter|]. apply typed_arg_ok; auto. }
  destruct (consume (cstr "l") fmt) as [f|] eqn:H5.
  { exists KLong. apply (int_conv_ok_longer _ f); [token_shorter|]. apply typed_arg_ok; auto. }
  exists KInt. apply typed_arg_ok; auto.
Qed.

(** Flags, width and precision: what they leave of the format does not
    depend on the arguments. *)
Definition parse_ok (fmt : list Z)
    (f : fmt_spec -> list va_item -> option (option (fmt_spec * list Z * list va_item))) : Prop :=
  exists kinds next,
    (forall fmt', next = Some fmt' -> (length fmt' <= length fmt)%nat) /\
    forall fm used rest, base fm = 10 -> Forall2 has_kind kinds used ->
      match next with
      | None => f fm (used ++ rest) = Some None
      | Some fmt' => exists fm', base fm' = 10 /\ f fm (used ++ rest) = Some (Some (fm', fmt', rest))
      end.

Lemma spec_flags_ok fuel fm fmt :
  (length fmt < fuel)%nat -> base fm = 10 ->
  exists fm' fmt', spec_flags fuel fm fmt = Some (Some (fm', fmt')) /\
    base fm' = 10 /\ (length fmt' <= length fmt)%nat.
Proof.
  revert fm fmt. induction fuel as [|fuel IH]; intros fm fmt Hf Hb; [lia|].
  cbn [spec_flags]. destruct (consume_one_of _ fmt) as [[c f]|] eqn:Hc; [|by do 2 eexists].
  apply consume_one_of_spec in Hc as [-> Hc]. apply is_one_of_spec in Hc.
  assert (exists fm', set_flag c fm = Some fm' /\ base fm' = 10) as (fm' & -> & Hb').
  { change (cstr "+- 0#") with [43; 45; 32; 48; 35] in Hc.
    rewrite !elem_of_cons, elem_of_nil in Hc.
    destruct Hc as [->|[->|[->|[->|[->|[]]]]]]; by eexists. }
  simpl in Hf. destruct (IH fm' f) as (fm2 & f2 & -> & ? & ?); [lia | done|].
  exists fm2, f2. split; [done|]. split; [done|]. simpl. lia.
Qed.

Lemma has_kinds_one k used :
  Forall2 has_kind [k] used -> exists v, used = [v] /\ has_kind k v.
Proof. inversion 1 as [|? v ? l Hv Hl]; subst. inversion Hl; subst. by exists v. Qed.

Lemma spec_width_ok fmt : parse_ok fmt (fun fm => spec_width fm fmt).
Proof.
  unfold parse_ok, spec_width. destruct (consume (cstr "*") fmt) as [f|] eqn:Hc.
  - exists [KInt], (Some f). split; [intros ? [= <-]; apply Nat.lt_le_incl; token_shorter|].
    intros fm used rest Hb Hu. apply has_kinds_one in Hu as (v & -> & Hv).
    destruct (va_int_ok v rest Hv) as [z Hz]. cbn [app]. rewrite Hz.
    by eexists (set_width _ fm).
  - destruct (parse_number_total fmt PARSE_NUMBER_MODE_MAYBE) as (ok & r & Hl & H).
    exists [], (if ok then Some r else None). split; [destruct ok; naive_solver|].
    intros fm used rest Hb Hu. inversion Hu; subst. destruct (H (min_width fm)) as [w ->].
    destruct ok; [by eexists (set_width _ fm) | done].
Qed.

Lemma spec_precision_ok fmt : parse_ok fmt (fun fm => spec_precision fm fmt).
Proof.
  unfold parse_ok, spec_precision. destruct (consume (cstr ".") fmt) as [f|] eqn:Hd.
  2: { exists [], (Some fmt). split; [naive_solver|].
       intros fm used rest Hb Hu. inversion Hu; subst. by eexists. }
  assert (Hdl : (length f < length fmt)%nat) by token_shorter.
  destruct (consume (cstr "*") f) as [f'|] eqn:Hc.
  - assert (Hcl : (length f' < length f)%nat) by token_shorter.
    exists [KInt], (Some f'). split; [intros ? [= <-]; lia|].
    intros fm used rest Hb Hu. apply has_kinds_one in Hu as (v & -> & Hv).
    destruct (va_int_ok v rest Hv) as [z Hz]. cbn [app]. rewrite Hz.
    by eexists (set_precision _ fm).
  - destruct (parse_number_total f PARSE_NUMBER_MODE_MUST) as (ok & r & Hl & H).
    exists [], (if ok then Some r else None).
    split; [destruct ok; [intros ? [= <-]; lia | done]|].
    intros fm used rest Hb Hu. inversion Hu; subst. destruct (H (precision fm)) as [w ->].
    destruct ok; [by eexists (set_precision _ fm) | done].
Qed.

(** ** The contract of [uacpi_vsnprintf] *)

(** The buffer after a text was printed to it: what fits, and a NUL. *)
Definition terminated (buf : list Z) (cap : Z) (text : list Z) : list Z :=
  if cap =? 0 then buf else write_at buf 0 (take (Z.to_nat (cap - 1)) text ++ [0]).

(** [fmt] with [va] prints [text], into any buffer. *)
Definition prints (fmt : list Z) (va : list va_item) (text : list Z) : Prop :=
  forall buf cap, 0 <= cap <= Z.of_nat (length buf) ->
    uacpi_vsnprintf buf cap fmt va
    = Some (s32 (Z.of_nat (length text)), terminated buf cap text).

Lemma emit_start buf cap t :
  emit (FmtBuf buf cap 0) t
  = FmtBuf (write_at buf 0 (take (Z.to_nat cap) t)) cap (Z.of_nat (length t)).
Proof. unfold emit. cbn [buffer capacity bytes_written]. by rewrite Z.sub_0_r, Z.add_0_l. Qed.

Lemma terminate_emit buf cap t :
  0 <= cap <= Z.of_nat (length buf) ->
  terminate (emit (FmtBuf buf cap 0) t)
  = Some (tt, FmtBuf (terminated buf cap t) cap (Z.of_nat (length t))).
Proof.
  intros Hc. rewrite emit_start. unfold terminate, terminated, truthy.
  cbn [buffer capacity bytes_written].
  destruct (Z.eqb_spec cap 0) as [->|Hne]; cbn [negb]; [by rewrite take_0, write_at_nil|].
  assert (Hl : (length (take (Z.to_nat cap) t) <= length buf)%nat) by (rewrite length_take; lia).
  rewrite store_ok by (rewrite length_write_at by lia; lia). cbn [mbind option_bind].
  do 3 f_equal. set (m := Z.to_nat (Z.min (Z.of_nat (length t)) (cap - 1))).
  assert (Hm : (length (take (Z.to_nat (cap - 1)) t) = m)%nat) by (rewrite length_take; lia).
  apply list_eq. intros j.
  rewrite lookup_write_at by (rewrite length_app, Hm; simpl; lia).
  rewrite length_app, Hm. cbn [length].
  destruct (decide (j = m)) as [->|Hj].
  - rewrite list_lookup_insert_eq by (rewrite length_write_at by lia; lia).
    rewrite bool_decide_true by lia. rewrite Nat.sub_0_r, lookup_app_r by lia.
    by rewrite Hm, Nat.sub_diag.
  - rewrite list_lookup_insert_ne by done. rewrite lookup_write_at by lia.
    rewrite !Nat.sub_0_r, length_take.
    destruct (decide (j < m)%nat).
    + rewrite !bool_decide_true by lia. rewrite lookup_app_l by lia.
      by rewrite !lookup_take_lt by lia.
    + destruct (decide (j < length t)%nat); [|by rewrite !bool_decide_false by lia].
      rewrite !bool_decide_false by lia. done.
Qed.

Lemma vsnprintf_run fmt va r text buf cap :
  appends (vsnprintf_loop (length fmt) fmt va) (Some r) text ->
  Z.of_nat (length text) < 2 ^ 64 -> 0 <= cap <= Z.of_nat (length buf) ->
  uacpi_vsnprintf buf cap fmt va =
    match r with
    | Some tt => Some (s32 (Z.of_nat (length text)), terminated buf cap text)
    | None => Some (-1, write_at buf 0 (take (Z.to_nat cap) text))
    end.
Proof.
  intros H Hl Hc. unfold uacpi_vsnprintf.
  rewrite H by (try (split; simpl; lia); simpl; lia). cbn [mbind option_bind].
  destruct r as [[]|]; [|by rewrite emit_start].
  by rewrite terminate_emit.
Qed.

Lemma prints_of_run fmt va text :
  appends (vsnprintf_loop (length fmt) fmt va) (Some (Some tt)) text ->
  Z.of_nat (length text) < 2 ^ 64 -> prints fmt va text.
Proof. intros H Hl buf cap Hc. by rewrite (vsnprintf_run _ _ _ _ _ _ H). Qed.

(** The text of an integer of 64 bits is its sign, then the field: the
    prefix of the alternate form and the digits of its magnitude without a
    leading zero, justified in the field width; the 32-byte conversion buffer
    is never overrun.  The width does not count the sign, which comes before
    the padding. *)
Theorem write_integer_text (fm : fmt_spec) (b : uacpi_base) (value : Z) :
  base_is fm b -> 0 <= value < 2 ^ 64 ->
  exists cs ds, digits_of b (magnitude fm value) cs ds /\
    (length (alt_prefix fm ++ cs) <= 24)%nat /\
    appends (write_integer fm value) (Some tt)
      (int_sign fm (is_negative fm value) ++ justified fm (alt_prefix fm ++ cs)).
Proof.
  intros Hb Hv. destruct (write_integer_appends fm b value Hb Hv) as (cs & ds & Hd & Hl & Hw).
  exists cs, ds. split; [done|]. split; [|done]. rewrite length_app.
  assert (length (alt_prefix fm) <= 2)%nat; [|lia].
  unfold alt_prefix. repeat case_if; simpl; lia.
Qed.

Lemma write_integer_text_witness :
  let fm := set_signed (set_width 5 fmt_spec_init) in
  let v := 18446744073709551574 in
  (magnitude fm v = 42 /\ int_sign fm (is_negative fm v) = [chr "-"]) /\
  exists cs ds, digits_of UACPI_BASE_DEC (magnitude fm v) cs ds /\
    (length (alt_prefix fm ++ cs) <= 24)%nat /\
    appends (write_integer fm v) (Some tt)
      (int_sign fm (is_negative fm v) ++ justified fm (alt_prefix fm ++ cs)).
Proof.
  intros fm v. split; [by vm_compute|].
  apply (write_integer_text fm UACPI_BASE_DEC v); [by split | unfold v; lia].
Defined.

(** ** Printing an integer and reading it back *)

(** 64-bit conversions and the base that reads their text. *)
Definition int_formats : list (string * uacpi_base) :=
  [("%llu", UACPI_BASE_DEC); ("%lld", UACPI_BASE_DEC); ("%lu", UACPI_BASE_DEC);
   ("%zd", UACPI_BASE_DEC); ("%llx", UACPI_BASE_HEX); ("%lX", UACPI_BASE_HEX);
   ("%llo", UACPI_BASE_OCT); ("%#llx", UACPI_BASE_AUTO); ("%#zX", UACPI_BASE_AUTO);
   ("%#lo", UACPI_BASE_AUTO)]%string.

(** The spec of a conversion of the list, and its digits' base. *)
Definition int_spec (signed alt up : bool) (b : uacpi_base) : fmt_spec :=
  FmtSpec signed false up false alt false (chr " ") 0 0 0 (base_num b).

Lemma int_format_run fmt sel v :
  (fmt, sel) ∈ int_formats ->
  exists signed alt up b, (exists f, cstr fmt = chr "%" :: f) /\
    (forall s, conversion_spec (cstr fmt) [VaLong v] s =
       (_ ← write_integer (int_spec signed alt up b) (u64 (if signed then s64 v else u64 v));
        mret (M := M fmt_buf_state) (Some (([] : list Z), ([] : list va_item)))) s) /\
    b <> UACPI_BASE_AUTO /\
    (if alt then sel = UACPI_BASE_AUTO /\ b <> UACPI_BASE_DEC /\ signed = false else sel = b).
Proof.
  unfold int_formats. rewrite !elem_of_cons, elem_of_nil. intros H.
  repeat destruct H as [H|H]; try done; injection H as -> ->.
  - exists false, false, false, UACPI_BASE_DEC. by split; [eexists|].
  - exists true, false, false, UACPI_BASE_DEC. by split; [eexists|].
  - exists false, false, false, UACPI_BASE_DEC. by split; [eexists|].
  - exists true, false, false, UACPI_BASE_DEC. by split; [eexists|].
  - exists false, false, false, UACPI_BASE_HEX. by split; [eexists|].
  - exists false, false, true, UACPI_BASE_HEX. by split; [eexists|].
  - exists false, false, false, UACPI_BASE_OCT. by split; [eexists|].
  - exists false, true, false, UACPI_BASE_HEX. by split; [eexists|].
  - exists false, true, true, UACPI_BASE_HEX. by split; [eexists|].
  - exists false, true, false, UACPI_BASE_OCT. by split; [eexists|].
Qed.

Lemma s64_range v : 0 <= v < 2 ^ 64 -> s64 v = if v <? 2 ^ 63 then v else v - 2 ^ 64.
Proof. intros Hv. unfold swrap. by rewrite u64_small by lia. Qed.

Lemma u64_s64 v : 0 <= v < 2 ^ 64 -> u64 (s64 v) = v.
Proof.
  intros Hv. rewrite s64_range by done. destruct (Z.ltb_spec v (2 ^ 63)); [by apply u64_small|].
  unfold wrap. rewrite <- (Z_mod_plus_full _ 1), Z.mod_small by lia. lia.
Qed.

(** Reading back the sign and the magnitude gives the value. *)
Lemma clamped_magnitude fm v :
  0 <= v < 2 ^ 64 -> clamped (is_negative fm v) (magnitude fm v) = v.
Proof.
  intros Hv. unfold clamped, magnitude. cbv zeta.
  destruct (is_negative fm v) eqn:Hn.
  - unfold is_negative in Hn. zify_bool. rewrite s64_range in * by done.
    destruct (Z.ltb_spec v (2 ^ 63)); [lia|].
    rewrite (u64_small (- (v - 2 ^ 64))) by lia. rewrite Z.min_l by lia.
    rewrite Z.opp_involutive. rewrite <- (u64_s64 v) at 2 by done. rewrite s64_range by done.
    by destruct (Z.ltb_spec v (2 ^ 63)); [lia|].
  - rewrite Z.min_l by lia. by apply u64_small.
Qed.

Lemma digits_of_numeral b v cs ds :
  digits_of b v cs ds -> b <> UACPI_BASE_AUTO ->
  Forall2 (is_digit_in b) cs ds /\ horner (base_num b) 0 ds = v /\ cs <> [].
Proof.
  unfold digits_of. intros H Hb. destruct (Z.eqb_spec v 0) as [->|Hne].
  - destruct H as [-> ->]. split_and!; [|done|done]. constructor; [|constructor].
    split; [by vm_compute | by destruct b].
  - destruct H as (H1 & H2 & _). split_and!; [done..|]. intros ->. apply Hne.
    by inversion H1; subst.
Qed.

Lemma int_prefix sel b signed alt up cs :
  b <> UACPI_BASE_AUTO ->
  (if (alt : bool) then sel = UACPI_BASE_AUTO /\ b <> UACPI_BASE_DEC /\ signed = false
   else sel = b) ->
  prefix_text sel b (alt_prefix (int_spec signed alt up b)) cs.
Proof.
  intros Hb Hs. unfold alt_prefix. cbn [alternate_form int_spec base uppercase].
  destruct alt; [|subst; by constructor]. destruct Hs as (-> & Hd & _).
  destruct b; try done; cbn [base_num Z.eqb Pos.eqb]; constructor.
  destruct up; [by right | by left].
Qed.

Lemma single_conversion_appends fmt f va t :
  fmt = chr "%" :: f ->
  appends (conversion_spec fmt va) (Some (Some ([], []))) t ->
  appends (vsnprintf_loop (length fmt) fmt va) (Some (Some tt)) t.
Proof.
  intros -> H. cbn [length vsnprintf_loop find_next_conversion]. rewrite Z.eqb_refl.
  cbn [truthy Z.eqb negb].
  rewrite <- (app_nil_l t). eapply appends_bind; [apply appends_ret|]. cbv beta iota.
  rewrite <- (app_nil_r t). eapply appends_bind; [exact H|].
  destruct f; apply appends_ret.
Qed.

(** A 64-bit integer printed by any of the decimal, hexadecimal or octal
    conversions, signed or not, plain or in the alternate form, and parsed by
    [uacpi_string_to_integer] in the base of the conversion (or with the base
    detected from the prefix) is read back, with status OK. *)
Theorem format_integer_roundtrip (fmt : string) (sel : uacpi_base) (v : Z) :
  (fmt, sel) ∈ int_formats -> 0 <= v < 2 ^ 64 ->
  exists text, (length text <= 25)%nat /\ prints (cstr fmt) [VaLong v] text /\
    forall rest, uacpi_string_to_integer (text ++ rest) (Z.of_nat (length text)) sel
      = Some (UACPI_STATUS_OK, v).
Proof.
  intros Hin Hv.
  destruct (int_format_run fmt sel v Hin) as (sg & alt & up & b & [f Hf] & Hrun & Hb & Hsel).
  set (fm := int_spec sg alt up b) in *.
  assert (Hval : u64 (if sg then s64 v else u64 v) = v).
  { destruct sg; [by apply u64_s64|]. by rewrite !u64_small by (rewrite ?u64_small; lia). }
  rewrite Hval in Hrun.
  destruct (write_integer_appends fm b v (conj Hb eq_refl) Hv) as (cs & ds & Hd & Hl & Hw).
  set (sign := int_sign fm (is_negative fm v)) in *. set (pre := alt_prefix fm) in *.
  assert (Hj : justified fm (pre ++ cs) = pre ++ cs).
  { unfold justified, padding, iters. cbn [fm int_spec min_width left_justify].
    replace (Z.to_nat (0 - _)) with 0%nat by lia. done. }
  rewrite Hj in Hw.
  destruct (digits_of_numeral _ _ _ _ Hd Hb) as (Hcs & Hh & Hne).
  assert (Hsign : sign_text (is_negative fm v) sign).
  { unfold sign, int_sign, sign_text. destruct (is_negative fm v); [done | by left]. }
  assert (Hlen : (length (sign ++ pre ++ cs) <= 25)%nat).
  { rewrite !length_app. assert (length sign <= 1)%nat by (unfold sign, int_sign; by destruct (is_negative fm v); simpl; lia).
    assert (length pre <= 2)%nat by (unfold pre, alt_prefix; repeat case_if; simpl; lia). lia. }
  exists (sign ++ pre ++ cs). split; [done|]. split.
  - apply prints_of_run; [|lia]. eapply single_conversion_appends; [exact Hf|].
    intros s Hs Hbw. rewrite Hrun. revert s Hs Hbw. rewrite <- (app_nil_r (sign ++ _)).
    eapply appends_bind; [exact Hw | apply appends_ret].
  - intros rest.
    destruct (number_value [] (is_negative fm v) sign sel b pre cs ds rest
      (Z.of_nat (length (sign ++ pre ++ cs)))) as (status & H & Hst).
    + constructor.
    + done.
    + by apply int_prefix.
    + done.
    + done.
    + left. simpl. lia.
    + cbn [app] in H. rewrite <- !app_assoc. rewrite H, Hh, clamped_magnitude by done.
      rewrite Hh in Hst. rewrite Hst by (apply magnitude_range; lia).
      cbn [app]. by rewrite Z.sub_diag.
Qed.

Lemma format_integer_roundtrip_witness :
  ("%#llx"%string, UACPI_BASE_AUTO) ∈ int_formats /\
  exists text, (length text <= 25)%nat /\ prints (cstr "%#llx") [VaLong 48879] text /\
    forall rest, uacpi_string_to_integer (text ++ rest) (Z.of_nat (length text)) UACPI_BASE_AUTO
      = Some (UACPI_STATUS_OK, 48879).
Proof.
  assert (H : ("%#llx"%string, UACPI_BASE_AUTO) ∈ int_formats)
    by (unfold int_formats; rewrite !elem_of_cons; tauto).
  split; [exact H|]. apply (format_integer_roundtrip "%#llx" UACPI_BASE_AUTO 48879 H). lia.
Defined.
