(* ===== verification/FormatText.v ===== *)
(** * What uACPI's formatter prints, said without a buffer

    [formats fmt va ok text]: the format [fmt] with the arguments [va] prints
    [text] and is well formed, or prints [text] before it turns out
    malformed.  The flags, widths and precisions are read by the functions of
    [UFormat]; what is printed for them is spelled here.  Then
    [uacpi_vsnprintf] against that text. *)
From S2P Require Import Prelude Status UStd StrToInt Printf UFormat UFormatSpec.

(** ** Integers and strings *)




(** ** Conversions *)







(** ** What the formatter appends *)






(** *** Arguments and specifications *)





(** *** The formatter follows the text *)









(** ** Every format has a text *)






(** ** The contract of [uacpi_vsnprintf] *)


