(* ===== verification/LogSpec.v ===== *)
(** * What uACPI's log prints on the terminal

    [uacpi_log] formats with uACPI's formatter, cuts what does not fit, and
    hands the message to the kernel's [printf]: the two formatters meet
    here. *)
From S2P Require Import Prelude Status UStd StrToInt Printf PrintfSpec UFormat UFormatSpec.

Lemma string_in_app t r :
  Forall (fun c => c <> 0) t -> string_in (t ++ 0 :: r) = Some t.
Proof.
  induction 1 as [|c t Hc Ht IH]; cbn [app string_in]; [done|].
  rewrite (proj2 (Z.eqb_neq c 0)) by done. by rewrite IH.
Qed.

Lemma string_in_nonzero buf t : string_in buf = Some t -> Forall (fun c => c <> 0) t.
Proof.
  revert t. induction buf as [|c buf IH]; intros t; cbn [string_in]; [done|].
  destruct (Z.eqb_spec c 0); [by intros [= <-]|].
  destruct (string_in buf) as [t'|]; [|done]. intros [= <-]. constructor; [done | by apply IH].
Qed.

Lemma filter_truthy t : Forall (fun c => c <> 0) t -> List.filter truthy t = t.
Proof.
  induction 1 as [|c t Hc Ht IH]; [done|]. cbn [List.filter]. unfold truthy at 1.
  rewrite (proj2 (Z.eqb_neq c 0)) by done. cbn [negb]. by rewrite IH.
Qed.

(** The kernel's [printf("%s\r", s)]. *)
Lemma kernel_log_prints msg s :
  Forall (fun c => c <> 0) msg ->
  uacpi_kernel_log msg s
  = Some (tt, Sinks (Printf.buffer s) (terminal s ++ msg ++ [13]) (callback s)).
Proof.
  intros Hm.
  assert (Hr : render (cstr "%s" ++ [13]) [VaStr msg] = Some (msg ++ [13])).
  { change (render (cstr "%s" ++ [13]) [VaStr msg])
      with (Some (pad_field false (str_columns msg 0 0) 0 (str_chars msg 0 0) ++ [13])).
    unfold pad_field, str_chars, iters, spaces.
    change (has_flag 0 FLAGS_PRECISION) with false. cbv iota.
    assert (0 <= str_columns msg 0 0).
    { unfold str_columns, _strnlen_s. change (has_flag 0 FLAGS_PRECISION) with false.
      apply wrap_range. lia. }
    by replace (Z.to_nat (0 - str_columns msg 0 0)) with 0%nat by lia. }
  unfold uacpi_kernel_log, printf_. mstep.
  rewrite (vsnprintf_emit _ _ _ _ _ _ Hr), char_emit. simpl. unfold _out_char. simpl.
  rewrite List.filter_app, filter_truthy by done. done.
Qed.

(** The message a text becomes: cut to the log buffer, the cut marked. *)
Definition log_message (text : list Z) : list Z :=
  if Z.of_nat (length text) <? UACPI_PLAIN_LOG_BUFFER_SIZE then text
  else take 123 text ++ cstr "..." ++ [10].

Lemma log_cut_message junk text :
  length junk = 128%nat -> (128 <= length text)%nat ->
  log_cut (terminated junk 128 text) = take 123 text ++ (cstr "..." ++ [10]) ++ [0].
Proof.
  intros Hj Hl. unfold terminated, write_at. cbn [Z.eqb].
  change (Z.to_nat (128 - 1)) with 127%nat.
  assert (Hlen : length (take 127 text ++ [0]) = 128%nat)
    by (rewrite length_app, length_take; change (length [0]) with 1%nat; lia).
  rewrite Hlen, take_0, drop_ge by lia. rewrite app_nil_r. cbn [app].
  assert (exists a b c d, take 127 text = take 123 text ++ [a; b; c; d]) as (a & b & c & d & ->).
  { rewrite <- (take_drop 123 (take 127 text)), take_take.
    change (123 `min` 127)%nat with 123%nat.
    assert (Hd : length (drop 123 (take 127 text)) = 4%nat)
      by (rewrite length_drop, length_take; lia).
    destruct (drop 123 (take 127 text)) as [|a [|b [|c [|d [|]]]]]; try done.
    by exists a, b, c, d. }
  assert (Ht : length (take 123 text) = 123%nat) by (rewrite length_take; lia).
  rewrite <- app_assoc. unfold log_cut, UACPI_PLAIN_LOG_BUFFER_SIZE. cbv zeta.
  change (Z.to_nat (128 - 5)) with 123%nat. change (Z.to_nat (128 - 4)) with 124%nat.
  change (Z.to_nat (128 - 3)) with 125%nat. change (Z.to_nat (128 - 2)) with 126%nat.
  do 4 (rewrite insert_app_r_alt by (rewrite Ht; lia); rewrite Ht).
  done.
Qed.

(** A log message whose text fits the 128-byte buffer is printed whole;
    a longer one is cut to 123 characters and ends in an ellipsis and a
    newline.  Either way the kernel prints it followed by a carriage return,
    whatever the buffer held, and nothing is written outside it. *)
Theorem uacpi_log_prints (junk str : list Z) (va : list va_item) (text : list Z) (s : sinks) :
  length junk = 128%nat -> prints str va text ->
  Z.of_nat (length text) < 2 ^ 31 -> Forall (fun c => c <> 0) text ->
  uacpi_log junk str va s
  = Some (tt, Sinks (Printf.buffer s) (terminal s ++ log_message text ++ [13]) (callback s)).
Proof.
  intros Hj Hp Hl Hnz. unfold uacpi_log.
  rewrite (Hp junk UACPI_PLAIN_LOG_BUFFER_SIZE) by (rewrite Hj; unfold UACPI_PLAIN_LOG_BUFFER_SIZE; lia).
  assert (Hs : s32 (Z.of_nat (length text)) = Z.of_nat (length text)).
  { unfold swrap. rewrite u32_small by lia. by rewrite (proj2 (Z.ltb_lt _ _)) by lia. }
  rewrite Hs. mstep. rewrite (proj2 (Z.ltb_ge (Z.of_nat (length text)) 0)) by lia.
  unfold log_message, UACPI_PLAIN_LOG_BUFFER_SIZE. cbv zeta.
  destruct (Z.ltb_spec (Z.of_nat (length text)) 128).
  - rewrite (proj2 (Z.leb_gt _ _)) by lia. cbv iota.
    assert (Hin : string_in (terminated junk 128 text) = Some text).
    { unfold terminated, write_at. cbn [Z.eqb]. rewrite take_0. cbn [app].
      rewrite take_ge by lia. rewrite <- app_assoc. cbn [app]. by apply string_in_app. }
    rewrite Hin. by apply kernel_log_prints.
  - rewrite (proj2 (Z.leb_le _ _)) by lia. cbv iota.
    rewrite log_cut_message by lia. rewrite app_assoc.
    assert (Hm : Forall (fun c => c <> 0) (take 123 text ++ cstr "..." ++ [10])).
    { apply Forall_app. split; [by apply Forall_take|]. by repeat constructor. }
    rewrite string_in_app by exact Hm. by apply kernel_log_prints.
Qed.

(** [%s] prints its string. *)
Lemma prints_string str :
  Z.of_nat (length str) < 2 ^ 64 -> prints (cstr "%s") [VaStr str] str.
Proof.
  intros Hl. apply prints_of_run; [|done].
  apply (single_conversion_appends _ (cstr "s")); [done|].
  change (conversion_spec (cstr "%s") [VaStr str]) with
    (mbind (M := M fmt_buf_state) (fun va => mret (M := M fmt_buf_state) (Some (([] : list Z), va)))
      (conv_string fmt_spec_init [VaStr str])).
  rewrite <- (app_nil_r str) at 2. eapply appends_bind; [|apply appends_ret].
  unfold conv_string. eapply appends_liftO; [reflexivity|]. cbv beta iota zeta.
  rewrite <- (app_nil_r str) at 2.
  eapply appends_bind; [exact (write_string_appends fmt_spec_init 0 str)|].
  apply (appends_bind _ _ tt _ [] []); [|apply appends_ret].
  change (min_width fmt_spec_init) with 0. unfold iters.
  replace (Z.to_nat (0 - _)) with 0%nat by lia. apply appends_ret.
Qed.

(** A message of 130 characters. *)
Lemma uacpi_log_prints_witness :
  let junk := replicate 128 170 in
  uacpi_log junk (cstr "%s") [VaStr (replicate 130 (chr "x"))] (fresh_sinks 0)
  = Some (tt, Sinks [] (replicate 123 (chr "x") ++ cstr "..." ++ [10] ++ [13]) []).
Proof.
  intros junk.
  apply (uacpi_log_prints junk (cstr "%s") [VaStr (replicate 130 (chr "x"))]
    (replicate 130 (chr "x")) (fresh_sinks 0)).
  - reflexivity.
  - apply prints_string. reflexivity.
  - reflexivity.
  - apply Forall_replicate. discriminate.
Defined.
