(* ===== verification/Pmm.v ===== *)
(** * The physical page allocator: [mm/pmm.cpp]

    A buddy allocator over the segments of the boot memory map.  A free list
    is the list of the addresses of its blocks: the [next] fields live in the
    free pages, which nobody else may write.  An access outside
    [free_list[16]] is undefined behaviour ([None]).  Addresses and sizes
    wrap at 64 bits; orders are small natural numbers. *)
From S2P Require Import Prelude.

(** An entry of the memory map, [gMemMap.get_entry(i)]. *)
Record memmap_entry := MemmapEntry {
  mme_base : Z;
  mme_length : Z;
  mme_type : Z;
}.

Record pmm_segment := Segment {
  base_ptr : Z;
  size : Z;
  pages_used : Z;
  free_list : list (list Z);
  max_order : nat;
}.

(** [segtab] is the used part of the table, [num_segtab] its length. *)
Record pmm_state := PmmState {
  segtab : list pmm_segment;
  total_mem : Z;
  num_used : Z;
  num_errors : Z;
}.

Definition max_segtab : nat := 128.
Definition FREE_LISTS : nat := 16.

(** ** Lists of blocks *)

Definition add_block (head : list Z) (b : Z) : list Z := b :: head.

Definition remove_block (head : list Z) : option Z * list Z :=
  match head with [] => (None, []) | b :: next => (Some b, next) end.

(** The walk that unlinks the buddy: [found] and the list afterwards. *)
Fixpoint unlink (buddy_addr : Z) (head : list Z) : bool * list Z :=
  match head with
  | [] => (false, [])
  | curr :: next =>
      if curr =? buddy_addr then (true, next)
      else let '(found, next) := unlink buddy_addr next in (found, curr :: next)
  end.

Definition set_free_list (j : nat) (l : list Z) (seg : pmm_segment) : option pmm_segment :=
  if (j <? length (free_list seg))%nat
  then Some (Segment (base_ptr seg) (size seg) (pages_used seg)
               (<[j := l]> (free_list seg)) (max_order seg))
  else None.

(** [add_block(seg->free_list[j], b)]. *)
Definition push_block (j : nat) (b : Z) (seg : pmm_segment) : option pmm_segment :=
  l ← free_list seg !! j; set_free_list j (add_block l b) seg.

Definition add_used (pages : Z) (seg : pmm_segment) : pmm_segment :=
  Segment (base_ptr seg) (size seg) (u64 (pages_used seg + pages)) (free_list seg)
    (max_order seg).

(** ** Initialisation *)

(** [while ((1ULL << (order + 1)) <= pages) order++]; [pages] is below
    [2^52], so 64 turns are enough. *)
Fixpoint floor_order_loop (fuel : nat) (order : nat) (pages : Z) : nat :=
  match fuel with
  | O => order
  | S fuel' =>
      if Z.shiftl 1 (Z.of_nat (order + 1)) <=? pages
      then floor_order_loop fuel' (order + 1) pages else order
  end.

Section Initialise.
(** [LIMINE_MEMMAP_USABLE], [LIMINE_MEMMAP_ACPI_RECLAIMABLE] and
    [LIMINE_MEMMAP_BOOTLOADER_RECLAIMABLE] of the boot protocol. *)
Context (USABLE ACPI_RECLAIMABLE BOOTLOADER_RECLAIMABLE : Z).

(** The body of the loop up to the table: what of the entry is managed. *)
Definition usable_range (mme : memmap_entry) : option (Z * Z) :=
  if negb (mme_type mme =? USABLE) && negb (mme_type mme =? ACPI_RECLAIMABLE)
     && negb (mme_type mme =? BOOTLOADER_RECLAIMABLE) then None
  else
    let base := mme_base mme in
    let length := mme_length mme in
    if u64 (base + length) <=? 1048576 then None
    else if base <? 1048576 then
      let delta := 1048576 - base in Some (u64 (base + delta), u64 (length - delta))
    else Some (base, length).

Definition new_segment (base length : Z) : option pmm_segment :=
  let pages := Z.shiftr length 12 in
  let order := floor_order_loop 64 0 pages in
  push_block order base (Segment base length 0 (replicate FREE_LISTS []) order).

Fixpoint initialise_loop (entries : list memmap_entry) (segs : list pmm_segment)
    : option (list pmm_segment) :=
  match entries with
  | [] => Some segs
  | mme :: entries' =>
      match usable_range mme with
      | None => initialise_loop entries' segs
      | Some (base, len) =>
          if (max_segtab <=? length segs)%nat then Some segs
          else seg ← new_segment base len; initialise_loop entries' (segs ++ [seg])
      end
  end.

Definition sum_sizes (segs : list pmm_segment) : Z :=
  foldl (fun total seg => u64 (total + size seg)) 0 segs.

Definition initialise (entries : list memmap_entry) : option pmm_state :=
  segs ← initialise_loop entries [];
  Some (PmmState segs (u64 (sum_sizes segs + 4095) / 4096) 0 0).
End Initialise.

(** ** Allocation *)

(** [(n + 0xFFF) >> 12]. *)
Definition pages_of (n : Z) : Z := Z.shiftr (u64 (n + 4095)) 12.

(** [while ((1ULL << order) < pages) order++]. *)
Fixpoint ceil_order_loop (fuel : nat) (order : nat) (pages : Z) : nat :=
  match fuel with
  | O => order
  | S fuel' =>
      if Z.shiftl 1 (Z.of_nat order) <? pages
      then ceil_order_loop fuel' (order + 1) pages else order
  end.
Definition order_of (n : Z) : nat := ceil_order_loop 64 0 (pages_of n).

(** [while (current > order)]: [n] is [current - order]. *)
Fixpoint split_loop (n current : nat) (b : Z) (seg : pmm_segment) : option pmm_segment :=
  match n with
  | O => Some seg
  | S n' =>
      let current := (current - 1)%nat in
      let buddy_addr := u64 (b + Z.shiftl 1 (Z.of_nat (current + 12))) in
      seg ← push_block current buddy_addr seg;
      split_loop n' current b seg
  end.

(** [for (current = order; current <= max_order; current++)]: [n] is the
    number of orders left.  The inner [None] is a segment without a block. *)
Fixpoint alloc_loop (n order current : nat) (seg : pmm_segment)
    : option (option (Z * pmm_segment)) :=
  match n with
  | O => Some None
  | S n' =>
      l ← free_list seg !! current;
      match remove_block l with
      | (None, _) => alloc_loop n' order (current + 1) seg
      | (Some b, next) =>
          seg ← set_free_list current next seg;
          seg ← split_loop (current - order) current b seg;
          Some (Some (b, add_used (Z.shiftl 1 (Z.of_nat order)) seg))
      end
  end.
Definition alloc_segment (order : nat) (seg : pmm_segment) : option (option (Z * pmm_segment)) :=
  alloc_loop (S (max_order seg) - order) order order seg.

Fixpoint alloc_segments (order : nat) (segs : list pmm_segment)
    : option (option (Z * list pmm_segment)) :=
  match segs with
  | [] => Some None
  | seg :: segs' =>
      r ← alloc_segment order seg;
      match r with
      | Some (b, seg) => Some (Some (b, seg :: segs'))
      | None =>
          r ← alloc_segments order segs';
          Some (match r with
                | Some (b, segs') => Some (b, seg :: segs')
                | None => None
                end)
      end
  end.

(** The address (0 for a null pointer) and the state. *)
Definition alloc (n : Z) (st : pmm_state) : option (Z * pmm_state) :=
  let order := order_of n in
  r ← alloc_segments order (segtab st);
  Some (match r with
        | Some (b, segs) =>
            (b, PmmState segs (total_mem st)
                  (u64 (num_used st + Z.shiftl 1 (Z.of_nat order))) (num_errors st))
        | None =>
            (0, PmmState (segtab st) (total_mem st) (num_used st) (u64 (num_errors st + 1)))
        end).

(** ** Freeing *)

(** [while (order < max_order)]: merge with the buddy as long as it is free;
    [n] is [max_order - order]. *)
Fixpoint merge_loop (n order : nat) (addr : Z) (seg : pmm_segment)
    : option (nat * Z * pmm_segment) :=
  match n with
  | O => Some (order, addr, seg)
  | S n' =>
      let rel := u64 (addr - base_ptr seg) in
      let buddy_rel := Z.lxor rel (Z.shiftl 1 (Z.of_nat (order + 12))) in
      let buddy_addr := u64 (base_ptr seg + buddy_rel) in
      l ← free_list seg !! order;
      match unlink buddy_addr l with
      | (false, _) => Some (order, addr, seg)
      | (true, l) =>
          seg ← set_free_list order l seg;
          merge_loop n' (order + 1) (if buddy_addr <? addr then buddy_addr else addr) seg
      end
  end.

(** The segment with the block back, and the order it was put back at. *)
Definition free_segment (order : nat) (addr : Z) (seg : pmm_segment)
    : option (nat * pmm_segment) :=
  '(order, addr, seg) ← merge_loop (max_order seg - order) order addr seg;
  seg ← push_block order addr seg;
  Some (order, add_used (- Z.shiftl 1 (Z.of_nat order)) seg).

(** The first segment that contains the address takes the block. *)
Fixpoint free_segments (order : nat) (addr : Z) (segs : list pmm_segment)
    : option (option (nat * list pmm_segment)) :=
  match segs with
  | [] => Some None
  | seg :: segs' =>
      if (addr <? base_ptr seg) || (u64 (base_ptr seg + size seg) <=? addr) then
        r ← free_segments order addr segs';
        Some (match r with
              | Some (order, segs') => Some (order, seg :: segs')
              | None => None
              end)
      else
        '(order, seg) ← free_segment order addr seg;
        Some (Some (order, seg :: segs'))
  end.

Definition free (p n : Z) (st : pmm_state) : option pmm_state :=
  r ← free_segments (order_of n) p (segtab st);
  Some (match r with
        | Some (order, segs) =>
            PmmState segs (total_mem st)
              (u64 (num_used st - Z.shiftl 1 (Z.of_nat order))) (num_errors st)
        | None => st
        end).

Definition total_memory (st : pmm_state) : Z := sum_sizes (segtab st).
Definition total_used (st : pmm_state) : Z := num_used st.
Definition errors_count (st : pmm_state) : Z := num_errors st.

(** ** Runs *)

Definition initialise_limine : list memmap_entry -> option pmm_state := initialise 0 2 5.

Definition free_orders (st : pmm_state) : list (list (list Z)) :=
  map (fun seg => take (S (max_order seg)) (free_list seg)) (segtab st).

Example pmm_ex1 :
  (st ← initialise_limine [MemmapEntry 0 2097152 0; MemmapEntry 16777216 20480 0];
   '(a, st) ← alloc 5000 st; '(b, st) ← alloc 1 st; Some (a, b, free_orders st))
  = Some (1048576, 1056768,
      [[[1060864]; []; [1064960]; [1081344]; [1114112]; [1179648]; [1310720]; [1572864]; []];
       [[]; []; [16777216]]]).
Proof. vm_compute. reflexivity. Qed.
