(* ===== verification/PmmSpec.v ===== *)
(** * The physical page allocator: theorems about [Pmm]

    Free memory is counted: for every address, the number of free blocks that
    cover it.  Splitting and merging preserve the count, allocation and
    freeing move a block between the free and the live ones, so the sum never
    changes over a run and no address is ever in two blocks. *)
From S2P Require Import Prelude Pmm.

(** ** Counting the blocks over an address *)

(** The size of a block of order [j]. *)
Definition blk (j : nat) : Z := 2 ^ (Z.of_nat j + 12).

Lemma blk_pos j : 0 < blk j.
Proof. apply pow2_pos. lia. Qed.

Lemma blk_S j : blk (S j) = 2 * blk j.
Proof. unfold blk. rewrite <- Z.pow_succ_r by lia. f_equal. lia. Qed.

Lemma blk_shiftl j : Z.shiftl 1 (Z.of_nat (j + 12)) = blk j.
Proof. rewrite Z.shiftl_1_l. unfold blk. f_equal. lia. Qed.

Lemma blk_mono i j : (i <= j)%nat -> blk i <= blk j.
Proof. intros H. apply Z.pow_le_mono_r; lia. Qed.

(** Whether [p] is in the [len] bytes from [a]. *)
Definition ind (a len p : Z) : Z := if (a <=? p) && (p <? a + len) then 1 else 0.

Lemma ind_range a len p : 0 <= ind a len p <= 1.
Proof. unfold ind. case_if; lia. Qed.

Lemma ind_in a len p : a <= p < a + len -> ind a len p = 1.
Proof. intros H. unfold ind. case_if; lia. Qed.

(** A block is its two halves. *)
Lemma ind_halves a j p : ind a (blk (S j)) p = ind a (blk j) p + ind (a + blk j) (blk j) p.
Proof.
  rewrite blk_S. pose proof (blk_pos j). unfold ind.
  repeat match goal with |- context [?x <=? ?y] => destruct (Z.leb_spec x y)
    | |- context [?x <? ?y] => destruct (Z.ltb_spec x y) end; cbn [andb]; lia.
Qed.

Definition sum (l : list Z) : Z := foldr Z.add 0 l.

Lemma sum_app l k : sum (l ++ k) = sum l + sum k.
Proof. induction l as [|x l IH]; simpl; [done|]. unfold sum in *. simpl. lia. Qed.

Lemma sum_nonneg l : Forall (fun x => 0 <= x) l -> 0 <= sum l.
Proof. induction 1; simpl; [done|]. unfold sum in *. lia. Qed.

Definition list_count (j : nat) (l : list Z) (p : Z) : Z := sum (map (fun a => ind a (blk j) p) l).
Definition lists_count (j : nat) (ls : list (list Z)) (p : Z) : Z :=
  sum (imap (fun i l => list_count (j + i) l p) ls).
Definition seg_count (seg : pmm_segment) (p : Z) : Z := lists_count 0 (free_list seg) p.
Definition free_count (segs : list pmm_segment) (p : Z) : Z :=
  sum (map (fun seg => seg_count seg p) segs).

Lemma list_count_nonneg j l p : 0 <= list_count j l p.
Proof.
  apply sum_nonneg, Forall_map, Forall_true. intros a. apply ind_range.
Qed.

Lemma lists_count_cons j l ls p :
  lists_count j (l :: ls) p = list_count j l p + lists_count (S j) ls p.
Proof.
  unfold lists_count. cbn [imap]. rewrite Nat.add_0_r.
  unfold sum at 1. cbn [foldr]. f_equal. fold (sum (imap ((fun i l => list_count (j + i) l p) ∘ S) ls)).
  f_equal. apply imap_ext. intros i x _. simpl. f_equal. lia.
Qed.

Lemma lists_count_nonneg j ls p : 0 <= lists_count j ls p.
Proof.
  revert j. induction ls as [|l ls IH]; intros j; [done|].
  rewrite lists_count_cons. pose proof (list_count_nonneg j l p). specialize (IH (S j)). lia.
Qed.

Lemma lists_count_insert j k l l' ls p :
  ls !! k = Some l ->
  lists_count j (<[k := l']> ls) p + list_count (j + k) l p
  = lists_count j ls p + list_count (j + k) l' p.
Proof.
  revert j k. induction ls as [|x ls IH]; intros j [|k] H; try done; simpl in H.
  - injection H as ->. change (<[0%nat:=l']> (l :: ls)) with (l' :: ls).
    rewrite !lists_count_cons, Nat.add_0_r. lia.
  - change (<[S k:=l']> (x :: ls)) with (x :: <[k:=l']> ls).
    rewrite !lists_count_cons. specialize (IH (S j) k H).
    replace (j + S k)%nat with (S j + k)%nat by lia. lia.
Qed.

Lemma lists_count_ge j k l ls p : ls !! k = Some l -> list_count (j + k) l p <= lists_count j ls p.
Proof.
  revert j k. induction ls as [|x ls IH]; intros j [|k] H; try done; simpl in H;
    rewrite lists_count_cons.
  - injection H as ->. rewrite Nat.add_0_r. pose proof (lists_count_nonneg (S j) ls p). lia.
  - specialize (IH (S j) k H). pose proof (list_count_nonneg j x p).
    replace (j + S k)%nat with (S j + k)%nat by lia. lia.
Qed.

Lemma list_count_cons j a l p : list_count j (a :: l) p = ind a (blk j) p + list_count j l p.
Proof. done. Qed.

Lemma list_count_in j a l p : a ∈ l -> a <= p < a + blk j -> 1 <= list_count j l p.
Proof.
  induction 1 as [a l|a b l Hin IH]; intros Hp; rewrite list_count_cons.
  - rewrite ind_in by done. pose proof (list_count_nonneg j l p). lia.
  - specialize (IH Hp). pose proof (ind_range b (blk j) p). lia.
Qed.

(** ** Segments *)

(** A block of order [j] of a segment: aligned to its size from the base,
    inside the segment's tree. *)
Definition block_ok (seg : pmm_segment) (j : nat) (a : Z) : Prop :=
  (j <= max_order seg)%nat /\ base_ptr seg <= a /\ (a - base_ptr seg) mod blk j = 0 /\
  a + blk j <= base_ptr seg + blk (max_order seg).

Record seg_wf (seg : pmm_segment) : Prop := {
  wf_lists : length (free_list seg) = FREE_LISTS;
  wf_order : (max_order seg < FREE_LISTS)%nat;
  wf_base : 0 < base_ptr seg;
  wf_size : blk (max_order seg) <= size seg;
  wf_end : base_ptr seg + size seg < 2 ^ 64;
  wf_blocks : forall j l, free_list seg !! j = Some l -> Forall (block_ok seg j) l;
}.

(** What no operation changes. *)
Definition same_shape (seg seg' : pmm_segment) : Prop :=
  base_ptr seg' = base_ptr seg /\ size seg' = size seg /\ max_order seg' = max_order seg.

Lemma same_shape_refl seg : same_shape seg seg.
Proof. done. Qed.

Lemma same_shape_trans s1 s2 s3 : same_shape s1 s2 -> same_shape s2 s3 -> same_shape s1 s3.
Proof. intros (H1 & H2 & H3) (H4 & H5 & H6). unfold same_shape. split_and!; congruence. Qed.

Lemma block_ok_shape seg seg' j a : same_shape seg seg' -> block_ok seg j a -> block_ok seg' j a.
Proof. intros (H1 & H2 & H3). unfold block_ok. by rewrite H1, H3. Qed.

Lemma set_free_list_spec seg j l l0 :
  seg_wf seg -> free_list seg !! j = Some l0 -> Forall (block_ok seg j) l ->
  exists seg', set_free_list j l seg = Some seg' /\ seg_wf seg' /\ same_shape seg seg' /\
    free_list seg' !! j = Some l /\
    (forall p, seg_count seg' p + list_count j l0 p = seg_count seg p + list_count j l p).
Proof.
  intros Hwf Hj Hl. unfold set_free_list. apply lookup_lt_Some in Hj as Hlt.
  rewrite (proj2 (Nat.ltb_lt _ _) Hlt). eexists. split; [done|]. split_and!.
  - destruct Hwf. constructor; cbn [free_list max_order base_ptr size]; try done.
    { by rewrite length_insert. }
    intros k l' H. destruct (decide (j = k)) as [->|Hne].
    + rewrite list_lookup_insert_eq in H by done. injection H as <-. done.
    + rewrite list_lookup_insert_ne in H by done. by apply wf_blocks0.
  - done.
  - cbn [free_list]. by rewrite list_lookup_insert_eq by done.
  - intros p. unfold seg_count. cbn [free_list]. exact (lists_count_insert 0 j l0 l _ p Hj).
Qed.

Lemma wf_lookup seg j : seg_wf seg -> (j <= max_order seg)%nat -> exists l, free_list seg !! j = Some l.
Proof.
  intros [Hl Ho _ _ _ _] Hj. apply lookup_lt_is_Some_2. rewrite Hl. lia.
Qed.

Lemma push_block_spec seg j a :
  seg_wf seg -> block_ok seg j a ->
  exists seg', push_block j a seg = Some seg' /\ seg_wf seg' /\ same_shape seg seg' /\
    (forall p, seg_count seg' p = seg_count seg p + ind a (blk j) p).
Proof.
  intros Hwf Ha. destruct (wf_lookup seg j Hwf) as [l Hl]; [apply Ha|].
  unfold push_block. rewrite Hl. cbn [mbind option_bind].
  destruct (set_free_list_spec seg j (add_block l a) l Hwf Hl) as (seg' & -> & Hwf' & Hs & _ & Hc).
  { constructor; [done|]. by apply (wf_blocks _ Hwf). }
  exists seg'. split; [done|]. split; [done|]. split; [done|]. intros p. specialize (Hc p).
  unfold add_block in Hc. rewrite list_count_cons in Hc. lia.
Qed.

Lemma add_used_spec n seg :
  seg_wf seg -> seg_wf (add_used n seg) /\ same_shape seg (add_used n seg) /\
  (forall p, seg_count (add_used n seg) p = seg_count seg p).
Proof. intros Hwf. split_and!; [by destruct Hwf | done | done]. Qed.

(** The blocks of a segment lie below [2^64]. *)
Lemma block_ok_range seg j a :
  seg_wf seg -> block_ok seg j a -> 0 < a /\ a + blk j < 2 ^ 64 /\ a + blk j <= base_ptr seg + size seg.
Proof. intros Hwf (Hj & Hb & _ & He). destruct Hwf. lia. Qed.

(** ** Splitting *)

Lemma block_ok_half seg j a :
  seg_wf seg -> block_ok seg (S j) a -> block_ok seg j a /\ block_ok seg j (a + blk j).
Proof.
  intros Hwf (Hj & Hb & Hm & He). pose proof (blk_pos j). rewrite blk_S in *.
  apply Z.mod_divide in Hm as [k Hk]; [|lia].
  split; (split_and!; [lia | lia | | lia]).
  - apply Z.mod_divide; [lia|]. exists (k * 2). lia.
  - apply Z.mod_divide; [lia|]. exists (k * 2 + 1). lia.
Qed.

(** Splitting keeps the lower part and frees the rest. *)
Lemma split_loop_spec n current b seg :
  seg_wf seg -> (n <= current)%nat -> block_ok seg current b ->
  exists seg', split_loop n current b seg = Some seg' /\ seg_wf seg' /\ same_shape seg seg' /\
    block_ok seg (current - n) b /\
    (forall p, seg_count seg' p + ind b (blk (current - n)) p
               = seg_count seg p + ind b (blk current) p).
Proof.
  revert current seg. induction n as [|n IH]; intros current seg Hwf Hn Hb.
  - exists seg. rewrite Nat.sub_0_r. done.
  - cbn [split_loop]. destruct current as [|c]; [lia|].
    replace (S c - 1)%nat with c by lia. rewrite blk_shiftl.
    destruct (block_ok_half seg c b Hwf Hb) as [Hl Hr].
    pose proof (block_ok_range _ _ _ Hwf Hr). pose proof (blk_pos c).
    rewrite u64_small by lia.
    destruct (push_block_spec seg c (b + blk c) Hwf Hr) as (s1 & -> & Hwf1 & Hs1 & Hc1).
    cbn [mbind option_bind].
    destruct (IH c s1 Hwf1) as (s2 & -> & Hwf2 & Hs2 & Hb2 & Hc2);
      [lia | by eapply block_ok_shape|].
    exists s2. replace (S c - S n)%nat with (c - n)%nat by lia.
    split_and!; [done | done | by eapply same_shape_trans | |].
    + eapply block_ok_shape; [|exact Hb2]. by destruct Hs1 as (? & ? & ?).
    + intros p. specialize (Hc1 p). specialize (Hc2 p). rewrite ind_halves. lia.
Qed.

(** No free block of an order from [lo] up to [hi]. *)
Definition none_free (seg : pmm_segment) (lo hi : nat) : Prop :=
  forall j, (lo <= j < hi)%nat -> free_list seg !! j = Some [].

Lemma alloc_loop_spec n order current seg :
  seg_wf seg -> (order <= current)%nat -> (current + n <= S (max_order seg))%nat ->
  (alloc_loop n order current seg = Some None /\ none_free seg current (current + n)) \/
  exists b seg', alloc_loop n order current seg = Some (Some (b, seg')) /\
    seg_wf seg' /\ same_shape seg seg' /\ block_ok seg order b /\
    (forall p, seg_count seg' p + ind b (blk order) p = seg_count seg p).
Proof.
  intros Hwf. revert current. induction n as [|n IH]; intros current Ho Hm.
  { left. split; [done|]. intros j Hj. lia. }
  cbn [alloc_loop]. destruct (wf_lookup seg current Hwf) as [l Hl]; [lia|].
  rewrite Hl. cbn [mbind option_bind]. destruct l as [|b l]; cbn [remove_block].
  - destruct (IH (current + 1)%nat) as [[-> Hn]|Hs]; [lia.. | |by right].
    left. split; [done|]. intros j Hj. destruct (decide (j = current)) as [->|]; [done|].
    apply Hn. lia.
  - right. pose proof (wf_blocks _ Hwf _ _ Hl) as Hf. apply Forall_cons in Hf as [Hb Hf].
    destruct (set_free_list_spec seg current l _ Hwf Hl Hf) as (s1 & -> & Hwf1 & Hs1 & _ & Hc1).
    cbn [mbind option_bind].
    destruct (split_loop_spec (current - order) current b s1 Hwf1) as (s2 & -> & Hwf2 & Hs2 & Hb2 & Hc2);
      [lia | by eapply block_ok_shape|].
    cbn [mbind option_bind]. replace (current - (current - order))%nat with order in * by lia.
    destruct (add_used_spec (Z.shiftl 1 (Z.of_nat order)) s2 Hwf2) as (Hwf3 & Hs3 & Hc3).
    do 2 eexists. split; [done|].
    split_and!; [done | by eapply same_shape_trans; [eapply same_shape_trans|] | |].
    + eapply block_ok_shape; [|exact Hb2]. by destruct Hs1 as (? & ? & ?).
    + intros p. rewrite Hc3. specialize (Hc1 p). specialize (Hc2 p).
      rewrite list_count_cons in Hc1. lia.
Qed.

(** ** Merging *)

Lemma lxor_pow2 rel k :
  0 <= rel -> 0 <= k ->
  Z.lxor rel (2 ^ k) = if Z.testbit rel k then rel - 2 ^ k else rel + 2 ^ k.
Proof.
  intros Hr Hk.
  assert (Hadd : forall r, 0 <= r -> Z.testbit r k = false -> Z.lxor r (2 ^ k) = r + 2 ^ k).
  { intros r Hr0 Hb. symmetry. apply Z.add_nocarry_lxor. apply Z_bits_ext. intros i Hi.
    rewrite Z.land_spec, Z.pow2_bits_eqb, Z.bits_0 by done.
    destruct (Z.eqb_spec k i) as [<-|]; [by rewrite Hb | by rewrite andb_false_r]. }
  destruct (Z.testbit rel k) eqn:Hb; [|by apply Hadd].
  assert (H := Hadd (Z.lxor rel (2 ^ k))).
  rewrite Z.lxor_assoc, Z.lxor_nilpotent, Z.lxor_0_r in H.
  apply Z.add_move_r. symmetry. apply H.
  - apply Z.lxor_nonneg. pose proof (pow2_pos k Hk). lia.
  - rewrite Z.lxor_spec, Hb, Z.pow2_bits_true by done. done.
Qed.

(** The buddy of an aligned block is the other half of an aligned block of
    twice the size. *)
Lemma buddy_spec rel j :
  0 <= rel -> rel mod blk j = 0 ->
  let m := Z.min rel (Z.lxor rel (blk j)) in
  m mod blk (S j) = 0 /\ 0 <= m /\
  (Z.lxor rel (blk j) = rel + blk j /\ m = rel \/ Z.lxor rel (blk j) = rel - blk j /\ m = rel - blk j).
Proof.
  intros Hr Hm. pose proof (blk_pos j) as Hp.
  assert (Hx : Z.lxor rel (blk j) = if Z.testbit rel (Z.of_nat j + 12) then rel - blk j else rel + blk j)
    by (apply lxor_pow2; lia).
  rewrite Hx. cbv zeta. apply Z.mod_divide in Hm as [q Hq]; [|lia].
  assert (Hbit : Z.testbit rel (Z.of_nat j + 12) = Z.odd q).
  { rewrite Hq, Z.testbit_odd, Z.shiftr_div_pow2 by lia. fold (blk j).
    by rewrite Z.div_mul by lia. }
  assert (Hq0 : 0 <= q) by nia.
  rewrite Hbit, blk_S. destruct (Z.odd q) eqn:Hodd.
  - apply Zodd_bool_iff, Zodd_ex in Hodd as [r Hr2].
    assert (0 <= r) by lia. assert (0 <= 2 * r * blk j) by nia.
    rewrite Z.min_r by lia. split_and!; [| nia | right; split; lia].
    apply Z.mod_divide; [lia|]. exists r. nia.
  - assert (Heven : Z.even q = true) by (rewrite <- Z.negb_odd, Hodd; done).
    apply Zeven_bool_iff, Zeven_ex in Heven as [r Hr2].
    rewrite Z.min_l by lia. split_and!; [| lia | left; split; lia].
    apply Z.mod_divide; [lia|]. exists r. nia.
Qed.

Lemma unlink_spec a l l' j :
  unlink a l = (true, l') ->
  a ∈ l /\ (forall x, x ∈ l' -> x ∈ l) /\
  (forall p, list_count j l p = list_count j l' p + ind a (blk j) p).
Proof.
  revert l'. induction l as [|c l IH]; intros l' H; cbn [unlink] in H; [done|].
  destruct (Z.eqb_spec c a) as [->|Hne].
  - injection H as <-. split_and!; [left | by intros; right |]. intros p.
    rewrite list_count_cons. lia.
  - destruct (unlink a l) as [found next]. injection H as -> <-.
    destruct (IH next eq_refl) as (Hin & Hsub & Hc). split_and!.
    + by right.
    + intros x Hx. apply elem_of_cons in Hx as [->|Hx]; [left | right; auto].
    + intros p. rewrite !list_count_cons, Hc. lia.
Qed.

Lemma merge_loop_spec n order addr seg :
  seg_wf seg -> (order + n = max_order seg)%nat -> block_ok seg order addr ->
  exists order' addr' seg', merge_loop n order addr seg = Some (order', addr', seg') /\
    seg_wf seg' /\ same_shape seg seg' /\ block_ok seg order' addr' /\
    (forall p, seg_count seg' p + ind addr' (blk order') p
               = seg_count seg p + ind addr (blk order) p).
Proof.
  revert order addr seg. induction n as [|n IH]; intros order addr seg Hwf Hn Ha.
  { do 3 eexists. split; [done|]. done. }
  cbn [merge_loop]. cbv zeta. pose proof (block_ok_range _ _ _ Hwf Ha) as (Ha0 & Ha1 & _).
  pose proof Ha as (Hao & Hab & Ham & Hae). pose proof (blk_pos order) as Hp.
  assert (Hbase : 0 < base_ptr seg) by apply Hwf.
  rewrite blk_shiftl. rewrite (u64_small (addr - base_ptr seg)) by lia.
  destruct (wf_lookup seg order Hwf) as [l Hl]; [lia|]. rewrite Hl. cbn [mbind option_bind].
  destruct (buddy_spec (addr - base_ptr seg) order) as (Hmin & Hmin0 & Hb); [lia | done|].
  set (br := Z.lxor (addr - base_ptr seg) (blk order)) in *. cbv zeta in *.
  destruct (unlink (u64 (base_ptr seg + br)) l) as [[] l'] eqn:Hu.
  2: { do 3 eexists. split; [done|]. done. }
  pose proof (wf_blocks _ Hwf _ _ Hl) as Hf. rewrite Forall_forall in Hf.
  destruct (unlink_spec _ _ _ order Hu) as (Hin & Hsub & Hc).
  pose proof (Hf _ Hin) as (_ & Hbb & _ & Hbe).
  assert (Hbr : u64 (base_ptr seg + br) = base_ptr seg + br).
  { apply u64_small. lia. }
  rewrite Hbr in *.
  destruct (set_free_list_spec seg order l' l Hwf Hl) as (s1 & -> & Hwf1 & Hs1 & _ & Hc1).
  { apply Forall_forall. auto. }
  cbn [mbind option_bind].
  set (addr' := if base_ptr seg + br <? addr then base_ptr seg + br else addr).
  assert (Haddr' : addr' = base_ptr seg + Z.min (addr - base_ptr seg) br).
  { unfold addr'. destruct (Z.ltb_spec (base_ptr seg + br) addr); lia. }
  assert (Hok : block_ok seg (S order) addr').
  { rewrite Haddr'. rewrite blk_S in Hmin. split_and!; [lia | lia | | ].
    - by rewrite Z.add_simpl_l, blk_S.
    - rewrite blk_S. lia. }
  destruct (IH (order + 1)%nat addr' s1 Hwf1) as (o2 & a2 & s2 & -> & Hwf2 & Hs2 & Hb2 & Hc2).
  { destruct Hs1 as (_ & _ & ->). lia. }
  { rewrite Nat.add_1_r. by eapply block_ok_shape. }
  do 3 eexists. split; [done|]. split_and!; [done | by eapply same_shape_trans | |].
  - eapply block_ok_shape; [|exact Hb2]. by destruct Hs1 as (? & ? & ?).
  - intros p. rewrite Hc2, Nat.add_1_r, ind_halves. specialize (Hc p). specialize (Hc1 p).
    assert (Hpair : addr' = addr /\ base_ptr seg + br = addr + blk order \/
                    addr' = addr - blk order /\ base_ptr seg + br = addr - blk order) by lia.
    destruct Hpair as [[E1 E2]|[E1 E2]]; rewrite E2 in Hc; rewrite E1; [lia|].
    rewrite Z.sub_add. lia.
Qed.

Lemma free_segment_spec order addr seg :
  seg_wf seg -> block_ok seg order addr ->
  exists order' seg', free_segment order addr seg = Some (order', seg') /\
    seg_wf seg' /\ same_shape seg seg' /\
    (forall p, seg_count seg' p = seg_count seg p + ind addr (blk order) p).
Proof.
  intros Hwf Ha. unfold free_segment.
  destruct (merge_loop_spec (max_order seg - order) order addr seg Hwf) as
    (o1 & a1 & s1 & -> & Hwf1 & Hs1 & Hb1 & Hc1); [destruct Ha; lia | done|].
  cbn [mbind option_bind].
  destruct (push_block_spec s1 o1 a1 Hwf1) as (s2 & -> & Hwf2 & Hs2 & Hc2);
    [by eapply block_ok_shape|].
  cbn [mbind option_bind].
  destruct (add_used_spec (- Z.shiftl 1 (Z.of_nat o1)) s2 Hwf2) as (Hwf3 & Hs3 & Hc3).
  do 2 eexists. split; [done|]. split_and!; [done | |].
  - by eapply same_shape_trans; [eapply same_shape_trans|].
  - intros p. rewrite Hc3, Hc2. specialize (Hc1 p). lia.
Qed.

(** ** All segments *)

Definition range := (Z * Z)%type.
Definition apart (r1 r2 : range) : Prop :=
  r1.1 + r1.2 <= r2.1 \/ r2.1 + r2.2 <= r1.1.
Definition within (a len : Z) (r : range) : Prop := r.1 <= a /\ a + len <= r.1 + r.2.

Fixpoint all_apart (rs : list range) : Prop :=
  match rs with [] => True | r :: rs' => Forall (apart r) rs' /\ all_apart rs' end.

Definition seg_range (seg : pmm_segment) : range := (base_ptr seg, size seg).

Lemma all_apart_prefix rs rs' : rs `prefix_of` rs' -> all_apart rs' -> all_apart rs.
Proof.
  intros [k ->]. induction rs as [|r rs IH]; [done|]. cbn [app all_apart].
  intros [H1 H2]. split; [by apply Forall_app in H1 as [? _] | by apply IH].
Qed.

Lemma same_shape_ranges segs segs' :
  Forall2 same_shape segs segs' -> map seg_range segs' = map seg_range segs.
Proof.
  induction 1 as [|s s' l l' (H1 & H2 & _) _ IH]; cbn [map]; [done|].
  unfold seg_range at 1 3. by rewrite H1, H2, IH.
Qed.

Lemma same_shapes_refl segs : Forall2 same_shape segs segs.
Proof. by induction segs; constructor. Qed.

Lemma free_count_cons seg segs p : free_count (seg :: segs) p = seg_count seg p + free_count segs p.
Proof. done. Qed.

(** A block of order [j] of one of the segments. *)
Definition owned (segs : list pmm_segment) (j : nat) (a : Z) : Prop :=
  Exists (fun seg => block_ok seg j a) segs.

Lemma owned_shapes segs segs' j a :
  Forall2 same_shape segs segs' -> owned segs j a -> owned segs' j a.
Proof.
  unfold owned. induction 1 as [|s s' l l' Hs Hl IH]; intros H; [by inversion H|].
  apply Exists_cons in H as [H|H]; [left; by eapply block_ok_shape | right; auto].
Qed.

(** An allocation of order [j] is refused only when every segment is out of
    blocks of that order and above. *)
Definition exhausted (j : nat) (segs : list pmm_segment) : Prop :=
  Forall (fun seg => none_free seg j (S (max_order seg))) segs.

Lemma alloc_segments_spec order segs :
  Forall seg_wf segs ->
  (alloc_segments order segs = Some None /\ exhausted order segs) \/
  exists b segs', alloc_segments order segs = Some (Some (b, segs')) /\
    Forall seg_wf segs' /\ Forall2 same_shape segs segs' /\ owned segs order b /\
    (forall p, free_count segs' p + ind b (blk order) p = free_count segs p).
Proof.
  induction 1 as [|seg segs Hwf Hall IH]; cbn [alloc_segments].
  { left. split; [done | constructor]. }
  assert (Hseg : (alloc_segment order seg = Some None /\ none_free seg order (S (max_order seg))) \/
    exists b seg', alloc_segment order seg = Some (Some (b, seg')) /\
    seg_wf seg' /\ same_shape seg seg' /\ block_ok seg order b /\
    (forall p, seg_count seg' p + ind b (blk order) p = seg_count seg p)).
  { unfold alloc_segment. destruct (Nat.le_gt_cases order (max_order seg)).
    - destruct (alloc_loop_spec (S (max_order seg) - order) order order seg Hwf) as [[-> Hn]|H1];
        [lia.. | |by right].
      left. split; [done|]. intros j Hj. apply Hn. lia.
    - left. replace (S (max_order seg) - order)%nat with 0%nat by lia.
      split; [done|]. intros j Hj. lia. }
  destruct Hseg as [[-> Hn]|(b & s' & -> & Hwf' & Hs & Hb & Hc)]; cbn [mbind option_bind].
  - destruct IH as [[-> Hx]|(b & segs' & -> & Hwf' & Hs & Ho & Hc)]; cbn [mbind option_bind].
    + left. split; [done | by constructor].
    + right. do 2 eexists. split; [done|]. split_and!.
      * by constructor.
      * constructor; [apply same_shape_refl | done].
      * by right.
      * intros p. rewrite !free_count_cons. specialize (Hc p). lia.
  - right. do 2 eexists. split; [done|]. split_and!.
    + by constructor.
    + constructor; [done | apply same_shapes_refl].
    + by left.
    + intros p. rewrite !free_count_cons. specialize (Hc p). lia.
Qed.

Lemma free_segments_spec order addr segs :
  Forall seg_wf segs -> all_apart (map seg_range segs) -> owned segs order addr ->
  exists order' segs', free_segments order addr segs = Some (Some (order', segs')) /\
    Forall seg_wf segs' /\ Forall2 same_shape segs segs' /\
    (forall p, free_count segs' p = free_count segs p + ind addr (blk order) p).
Proof.
  intros Hwf. induction Hwf as [|seg segs Hseg Hwf IH]; intros Hap Ho; [by inversion Ho|].
  cbn [free_segments]. cbn [map all_apart] in Hap. destruct Hap as [Hap1 Hap2].
  pose proof (blk_pos order) as Hp.
  rewrite u64_small by (destruct Hseg; pose proof (blk_pos (max_order seg)); lia).
  apply Exists_cons in Ho as [Ho|Ho].
  - destruct (block_ok_range _ _ _ Hseg Ho) as (H0 & H1 & H2).
    pose proof Ho as (_ & Hb & _ & _).
    replace ((addr <? base_ptr seg) || (base_ptr seg + size seg <=? addr)) with false
      by (symmetry; apply orb_false_iff; split; [apply Z.ltb_ge | apply Z.leb_gt]; lia).
    destruct (free_segment_spec order addr seg Hseg Ho) as (o & s' & -> & Hwf' & Hs & Hc).
    cbn [mbind option_bind]. do 2 eexists. split; [done|]. split_and!.
    + by constructor.
    + constructor; [done | apply same_shapes_refl].
    + intros p. rewrite !free_count_cons, Hc. lia.
  - assert (Hout : (addr <? base_ptr seg) || (base_ptr seg + size seg <=? addr) = true).
    { apply Exists_exists in Ho as (t & Ht & Hb). rewrite Forall_forall in Hwf.
      rewrite Forall_map, Forall_forall in Hap1. assert (Hat := Hap1 t Ht). cbn beta in Hat.
      destruct (block_ok_range t order addr) as (H0 & H1 & H2); [by apply Hwf | done|].
      destruct Hb as (_ & Hb & _ & _). destruct Hat as [Ha|Ha]; cbn in Ha;
        apply orb_true_iff; [right; apply Z.leb_le | left; apply Z.ltb_lt]; lia. }
    rewrite Hout. destruct (IH Hap2 Ho) as (o & segs' & -> & Hwf' & Hs & Hc).
    cbn [mbind option_bind]. do 2 eexists. split; [done|]. split_and!.
    + by constructor.
    + constructor; [apply same_shape_refl | done].
    + intros p. rewrite !free_count_cons, Hc. lia.
Qed.

(** ** The order of a request *)

Lemma ceil_order_loop_spec fuel o pages :
  pages <= 2 ^ Z.of_nat (o + fuel) ->
  let r := ceil_order_loop fuel o pages in
  pages <= 2 ^ Z.of_nat r /\ (r = o \/ 2 ^ (Z.of_nat r - 1) < pages).
Proof.
  revert o. induction fuel as [|fuel IH]; intros o H; cbn [ceil_order_loop].
  - rewrite Nat.add_0_r in H. auto.
  - rewrite Z.shiftl_1_l. destruct (Z.ltb_spec (2 ^ Z.of_nat o) pages); [|auto].
    destruct (IH (o + 1)%nat) as [H1 [H2|H2]]; [by rewrite <- Nat.add_assoc|..]; cbv zeta;
      (split; [done|]); right; [|done].
    rewrite H2. by replace (Z.of_nat (o + 1) - 1) with (Z.of_nat o) by lia.
Qed.

(** The block of a request holds it, and half of it would not. *)
Lemma order_of_spec n :
  0 <= n -> n + 4095 < 2 ^ 64 ->
  n <= blk (order_of n) /\ (order_of n = 0%nat \/ blk (order_of n) < 2 * n).
Proof.
  intros H0 H1. unfold order_of, pages_of. rewrite u64_small by lia.
  rewrite Z.shiftr_div_pow2 by lia. set (pages := (n + 4095) / 2 ^ 12).
  pose proof (Z.div_mod (n + 4095) (2 ^ 12) ltac:(lia)) as Hd. fold pages in Hd.
  pose proof (Z.mod_pos_bound (n + 4095) (2 ^ 12) ltac:(lia)) as Hm.
  destruct (ceil_order_loop_spec 64 0 pages) as [H2 H3]; [simpl; lia|]. cbv zeta in *.
  set (o := ceil_order_loop 64 0 pages) in *. unfold blk. rewrite Z.pow_add_r by lia.
  split; [nia|]. destruct H3 as [H3|H3]; [by left|].
  destruct o as [|o']; [by left|right].
  replace (Z.of_nat (S o') - 1) with (Z.of_nat o') in H3 by lia.
  rewrite Nat2Z.inj_succ, Z.pow_succ_r by lia. nia.
Qed.

(** ** The initial state *)

Lemma floor_order_loop_spec fuel o pages :
  2 ^ Z.of_nat o <= pages < 2 ^ Z.of_nat (o + fuel) ->
  let r := floor_order_loop fuel o pages in
  2 ^ Z.of_nat r <= pages < 2 ^ Z.of_nat (r + 1).
Proof.
  revert o. induction fuel as [|fuel IH]; intros o H; cbn [floor_order_loop].
  - rewrite Nat.add_0_r in H. lia.
  - rewrite Z.shiftl_1_l. cbv zeta.
    destruct (Z.leb_spec (2 ^ Z.of_nat (o + 1)) pages); [|lia].
    apply IH. replace (o + 1 + fuel)%nat with (o + S fuel)%nat by lia. lia.
Qed.

(** The order of a segment of [len] bytes. *)
Lemma segment_order len :
  4096 <= len < 2 ^ 64 ->
  let o := floor_order_loop 64 0 (Z.shiftr len 12) in blk o <= len < blk (o + 1).
Proof.
  intros Hl. rewrite Z.shiftr_div_pow2 by lia.
  pose proof (Z.div_mod len (2 ^ 12) ltac:(lia)) as Hd.
  pose proof (Z.mod_pos_bound len (2 ^ 12) ltac:(lia)) as Hm.
  destruct (floor_order_loop_spec 64 0 (len / 2 ^ 12)) as [H1 H2].
  { split; [change (2 ^ Z.of_nat 0) with 1; nia|]. apply Z.div_lt_upper_bound; simpl; lia. }
  cbv zeta in *. unfold blk. rewrite !Z.pow_add_r by lia. nia.
Qed.

(** A new segment has one free block, at its base. *)
Definition fresh (seg : pmm_segment) : Prop :=
  seg_wf seg /\ forall p, seg_count seg p = ind (base_ptr seg) (blk (max_order seg)) p.

Definition range_ok (r : range) : Prop :=
  0 < r.1 /\ 4096 <= r.2 < 2 ^ 28 /\ r.1 + r.2 < 2 ^ 64.

Lemma new_segment_spec r :
  range_ok r -> exists seg, new_segment r.1 r.2 = Some seg /\ fresh seg /\ seg_range seg = r.
Proof.
  destruct r as [base len]. intros (Hb & Hl & He). cbn [fst snd] in *.
  pose proof (segment_order len ltac:(lia)) as Ho. cbv zeta in Ho. unfold new_segment. cbv zeta.
  set (o := floor_order_loop 64 0 (Z.shiftr len 12)) in *.
  assert (Hlt : (o < FREE_LISTS)%nat).
  { destruct (Nat.lt_ge_cases o FREE_LISTS) as [H|H]; [done|].
    unfold FREE_LISTS in H. pose proof (blk_mono 16 o H) as Hm. change (blk 16) with (2 ^ 28) in Hm. lia. }
  set (seg := Segment base len 0 (replicate FREE_LISTS []) o).
  assert (Hwf : seg_wf seg).
  { constructor; cbn [seg free_list max_order base_ptr size]; try done; [lia|].
    intros j l H. apply lookup_replicate in H as [-> _]. constructor. }
  destruct (push_block_spec seg o base Hwf) as (seg' & -> & Hwf' & Hs & Hc).
  { unfold block_ok. cbn [seg base_ptr max_order]. rewrite Z.sub_diag, Zmod_0_l. lia. }
  exists seg'. split; [done|]. destruct Hs as (H1 & H2 & H3). split; [split; [done|]|].
  - intros p. rewrite Hc, H1, H3. cbn [seg base_ptr max_order].
    assert (seg_count seg p = 0) as ->; [|lia].
    unfold seg_count. cbn [seg free_list]. unfold lists_count.
    assert (Hz : forall k n, sum (imap (fun i l => list_count (k + i) l p) (replicate n [])) = 0).
    { intros k n. revert k. induction n as [|n IH]; intros k; [done|].
      fold (lists_count k (replicate (S n) []) p). cbn [replicate]. rewrite lists_count_cons.
      unfold lists_count. by rewrite IH. }
    apply Hz.
  - unfold seg_range. by rewrite H1, H2.
Qed.

Section Init.
Context (USABLE ACPI_RECLAIMABLE BOOTLOADER_RECLAIMABLE : Z).
Abbreviation usable := (usable_range USABLE ACPI_RECLAIMABLE BOOTLOADER_RECLAIMABLE).
Abbreviation init := (initialise USABLE ACPI_RECLAIMABLE BOOTLOADER_RECLAIMABLE).
Abbreviation init_loop := (initialise_loop USABLE ACPI_RECLAIMABLE BOOTLOADER_RECLAIMABLE).

(** The memory the map offers: what is usable of its entries. *)
Definition usable_ranges (entries : list memmap_entry) : list range := omap usable entries.

Lemma init_loop_spec entries segs :
  Forall range_ok (usable_ranges entries) -> Forall fresh segs ->
  exists segs', init_loop entries segs = Some segs' /\ Forall fresh segs' /\
    map seg_range segs' `prefix_of` map seg_range segs ++ usable_ranges entries.
Proof.
  unfold usable_ranges. revert segs.
  induction entries as [|e entries IH]; intros segs Hr Hf; cbn [initialise_loop].
  - exists segs. split_and!; [done..|]. by rewrite app_nil_r.
  - cbn [omap list_omap] in *. destruct (usable e) as [[base len]|]; [|by apply IH].
    apply Forall_cons in Hr as [Hr Hrs].
    destruct (max_segtab <=? length segs)%nat.
    { exists segs. split_and!; [done..|]. by eexists. }
    destruct (new_segment_spec (base, len) Hr) as (seg & Hn & Hfr & Hsr). cbn [fst snd] in Hn.
    rewrite Hn. cbn [mbind option_bind].
    destruct (IH (segs ++ [seg]) Hrs) as (segs' & -> & Hf' & Hp).
    { apply Forall_app. split; [done | by constructor]. }
    exists segs'. split_and!; [done..|]. rewrite map_app in Hp. cbn [map] in Hp.
    rewrite Hsr, <- app_assoc in Hp. exact Hp.
Qed.

Lemma fresh_count seg p : fresh seg -> 0 <= seg_count seg p <= ind (base_ptr seg) (size seg) p.
Proof.
  intros [Hwf Hc]. rewrite Hc. destruct Hwf. unfold ind.
  repeat match goal with |- context [?x <=? ?y] => destruct (Z.leb_spec x y)
    | |- context [?x <? ?y] => destruct (Z.ltb_spec x y) end; cbn [andb]; lia.
Qed.

Lemma fresh_free_count segs p :
  Forall fresh segs -> all_apart (map seg_range segs) ->
  0 <= free_count segs p <= 1 /\
  (Forall (fun r => ind r.1 r.2 p = 0) (map seg_range segs) -> free_count segs p = 0).
Proof.
  induction 1 as [|seg segs Hf Hfs IH]; cbn [map all_apart]; [done|]. intros [Ha Has].
  rewrite free_count_cons. destruct (IH Has) as [H1 H2]. pose proof (fresh_count seg p Hf) as Hs.
  split.
  - unfold ind in Hs. destruct ((base_ptr seg <=? p) && (p <? base_ptr seg + size seg)) eqn:Hin; [|lia].
    zify_bool. rewrite H2; [lia|]. eapply Forall_impl; [exact Ha|].
    intros r Hr. unfold apart in Hr. cbn in Hr. unfold ind. case_if; lia.
  - intros H. apply Forall_cons in H as [Hz Hzs]. cbn in Hz. rewrite H2 by done. lia.
Qed.

Lemma initialise_spec entries :
  Forall range_ok (usable_ranges entries) -> all_apart (usable_ranges entries) ->
  exists st, init entries = Some st /\ Forall seg_wf (segtab st) /\
    map seg_range (segtab st) `prefix_of` usable_ranges entries /\
    (forall p, 0 <= free_count (segtab st) p <= 1).
Proof.
  intros Hr Ha. unfold initialise.
  destruct (init_loop_spec entries [] Hr) as (segs & -> & Hf & Hp); [constructor|].
  cbn [mbind option_bind]. eexists. split; [done|]. cbn [segtab]. cbn [map app] in Hp.
  split_and!; [|done|].
  - eapply Forall_impl; [exact Hf|]. by intros ? [? _].
  - intros p. by apply fresh_free_count; [|eapply all_apart_prefix].
Qed.

(** ** Runs *)

(** The live blocks: address and requested size. *)
Abbreviation live_blocks := (list (Z * Z)).
Definition live_count (live : live_blocks) (p : Z) : Z :=
  sum (map (fun '(b, n) => ind b (blk (order_of n)) p) live).

(** The kernel allocates and frees, giving back the size it asked for. *)
Inductive pmm_step : pmm_state * live_blocks -> pmm_state * live_blocks -> Prop :=
  | step_alloc st live n b st' :
      alloc n st = Some (b, st') ->
      pmm_step (st, live) (st', if b =? 0 then live else (b, n) :: live)
  | step_free st live1 b n live2 st' :
      free b n st = Some st' ->
      pmm_step (st, live1 ++ (b, n) :: live2) (st', live1 ++ live2).

(** The invariant of runs that start with [total]. *)
Record run_ok (total : Z -> Z) (ranges : list range) (c : pmm_state * live_blocks) : Prop := {
  run_wf : Forall seg_wf (segtab c.1);
  run_ranges : map seg_range (segtab c.1) = ranges;
  run_live : Forall (fun '(b, n) => owned (segtab c.1) (order_of n) b) c.2;
  run_count : forall p, free_count (segtab c.1) p + live_count c.2 p = total p;
}.

Lemma live_shapes segs segs' (live : live_blocks) :
  Forall2 same_shape segs segs' ->
  Forall (fun '(b, n) => owned segs (order_of n) b) live ->
  Forall (fun '(b, n) => owned segs' (order_of n) b) live.
Proof.
  intros Hs Hl. eapply Forall_impl; [exact Hl|]. intros [b n]. by apply owned_shapes.
Qed.

Lemma live_count_app l1 l2 p : live_count (l1 ++ l2) p = live_count l1 p + live_count l2 p.
Proof. unfold live_count. by rewrite map_app, sum_app. Qed.

Lemma live_count_cons b n l p :
  live_count ((b, n) :: l) p = ind b (blk (order_of n)) p + live_count l p.
Proof. done. Qed.

Lemma owned_pos segs j a : Forall seg_wf segs -> owned segs j a -> 0 < a.
Proof.
  intros Hwf Ho. apply Exists_exists in Ho as (seg & Hin & Hb).
  rewrite Forall_forall in Hwf. by apply (block_ok_range seg j a (Hwf _ Hin)).
Qed.

Lemma alloc_run total ranges st live n :
  run_ok total ranges (st, live) ->
  exists b st', alloc n st = Some (b, st') /\
    run_ok total ranges (st', if b =? 0 then live else (b, n) :: live) /\
    (b = 0 -> exhausted (order_of n) (segtab st) /\ segtab st' = segtab st).
Proof.
  intros [Hwf Hr Hl Hc]. cbn [fst snd] in *. unfold alloc. cbv zeta.
  destruct (alloc_segments_spec (order_of n) (segtab st) Hwf) as
    [[-> Hx]|(b & segs' & -> & Hwf' & Hs & Ho & Hcs)]; cbn [mbind option_bind].
  - do 2 eexists. split; [done|]. cbn [Z.eqb]. split; [by constructor | by split].
  - pose proof (owned_pos _ _ _ Hwf Ho) as Hpos. do 2 eexists. split; [done|].
    rewrite (proj2 (Z.eqb_neq b 0)) by lia. split; [|lia]. constructor; cbn [fst snd segtab].
    + done.
    + by rewrite (same_shape_ranges _ _ Hs).
    + apply Forall_cons. split; [by eapply owned_shapes | by eapply live_shapes].
    + intros p. rewrite live_count_cons, <- Hc. specialize (Hcs p). lia.
Qed.

Lemma free_run total ranges st live1 b n live2 :
  all_apart ranges -> run_ok total ranges (st, live1 ++ (b, n) :: live2) ->
  exists st', free b n st = Some st' /\ run_ok total ranges (st', live1 ++ live2).
Proof.
  intros Ha [Hwf Hr Hl Hc]. cbn [fst snd] in *. unfold free.
  apply Forall_app in Hl as [Hl1 Hl2]. apply Forall_cons in Hl2 as [Hb Hl2].
  destruct (free_segments_spec (order_of n) b (segtab st) Hwf) as
    (o & segs' & -> & Hwf' & Hs & Hcs); [by rewrite Hr | done|].
  cbn [mbind option_bind]. eexists. split; [done|]. constructor; cbn [fst snd segtab].
  - done.
  - by rewrite (same_shape_ranges _ _ Hs).
  - eapply live_shapes; [exact Hs|]. by apply Forall_app.
  - intros p. rewrite <- Hc, Hcs, !live_count_app, live_count_cons. lia.
Qed.

Lemma run_invariant total ranges c c' :
  all_apart ranges -> run_ok total ranges c -> rtc pmm_step c c' -> run_ok total ranges c'.
Proof.
  intros Ha Hok. induction 1 as [c|c c1 c2 Hstep _ IH]; [done|]. apply IH.
  destruct Hstep as [st live n b st' He|st l1 b n l2 st' He].
  - destruct (alloc_run _ _ _ _ n Hok) as (b' & st1 & He' & Hok' & _).
    rewrite He in He'. by injection He' as -> ->.
  - destruct (free_run _ _ _ _ _ _ _ Ha Hok) as (st1 & He' & Hok').
    rewrite He in He'. by injection He' as ->.
Qed.

(** Two live blocks that are counted at most once do not meet. *)
Lemma live_apart live i j b1 n1 b2 n2 :
  (forall p, live_count live p <= 1) -> (i < j)%nat ->
  live !! i = Some (b1, n1) -> live !! j = Some (b2, n2) ->
  apart (b1, blk (order_of n1)) (b2, blk (order_of n2)).
Proof.
  intros Hc Hij Hi Hj.
  apply list_elem_of_split_length in Hi as (l1 & l2 & -> & ->).
  rewrite lookup_app_r in Hj by lia.
  destruct (j - length l1)%nat as [|k] eqn:Hk; [lia|]. cbn in Hj.
  apply list_elem_of_lookup_2 in Hj. apply list_elem_of_split in Hj as (l3 & l4 & ->).
  pose proof (blk_pos (order_of n1)). pose proof (blk_pos (order_of n2)).
  unfold apart. cbn [fst snd].
  destruct (Z.le_gt_cases (b1 + blk (order_of n1)) b2); [by left|].
  destruct (Z.le_gt_cases (b2 + blk (order_of n2)) b1); [by right|].
  exfalso. specialize (Hc (Z.max b1 b2)).
  rewrite live_count_app, live_count_cons, live_count_app, live_count_cons in Hc.
  rewrite !ind_in in Hc by lia.
  assert (Hnn : forall l, 0 <= live_count l (Z.max b1 b2)).
  { intros l. apply sum_nonneg, Forall_map, Forall_true. intros [b n]. apply ind_range. }
  pose proof (Hnn l1). pose proof (Hnn l3). pose proof (Hnn l4). lia.
Qed.

Lemma free_count_nonneg segs p : 0 <= free_count segs p.
Proof. apply sum_nonneg, Forall_map, Forall_true. intros seg. apply lists_count_nonneg. Qed.

Lemma owned_within segs j a rs :
  Forall seg_wf segs -> map seg_range segs `prefix_of` rs -> owned segs j a ->
  Exists (within a (blk j)) rs.
Proof.
  intros Hwf [k ->] Ho. apply Exists_exists in Ho as (seg & Hin & Hb).
  apply Exists_exists. exists (seg_range seg). split.
  - apply elem_of_app. left. by apply list_elem_of_fmap_2.
  - rewrite Forall_forall in Hwf. destruct (block_ok_range _ _ _ (Hwf _ Hin) Hb) as (_ & _ & He).
    destruct Hb as (_ & Hb & _ & _). split; cbn; lia.
Qed.

(** C18: over a memory map whose usable ranges are disjoint and below 256 MiB
    each, the allocator initialises, and after any sequence of allocations
    and frees (of live blocks, with the size they were asked with): every
    allocation and every such free returns; live blocks are pairwise disjoint
    and none overlaps memory the allocator still has free; each lies inside
    one usable range and holds the bytes asked for; and a request is refused
    only when no segment has a free block of its order or above. *)
Theorem pmm_blocks_disjoint (entries : list memmap_entry) :
  Forall range_ok (usable_ranges entries) -> all_apart (usable_ranges entries) ->
  exists st0, init entries = Some st0 /\
  forall st live, rtc pmm_step (st0, []) (st, live) ->
    (forall i j b1 n1 b2 n2, (i < j)%nat ->
       live !! i = Some (b1, n1) -> live !! j = Some (b2, n2) ->
       apart (b1, blk (order_of n1)) (b2, blk (order_of n2))) /\
    (forall p, free_count (segtab st) p + live_count live p <= 1) /\
    (forall b n, (b, n) ∈ live ->
       Exists (within b (blk (order_of n))) (usable_ranges entries) /\
       (0 <= n -> n + 4095 < 2 ^ 64 -> n <= blk (order_of n)) /\
       exists st', free b n st = Some st') /\
    (forall n, exists b st', alloc n st = Some (b, st') /\
       (b = 0 -> exhausted (order_of n) (segtab st))).
Proof.
  intros Hr Ha. destruct (initialise_spec entries Hr Ha) as (st0 & Hi & Hwf0 & Hp & Hc0).
  exists st0. split; [done|]. intros st live Hrun.
  assert (Hap : all_apart (map seg_range (segtab st0))) by by eapply all_apart_prefix.
  assert (Hok : run_ok (free_count (segtab st0)) (map seg_range (segtab st0)) (st, live)).
  { eapply run_invariant; [done| |exact Hrun]. constructor; cbn [fst snd]; [done..| |].
    - constructor.
    - intros p. unfold live_count. simpl. lia. }
  pose proof Hok as [Hwf Hsr Hl Hc]. cbn [fst snd] in *.
  assert (Hle : forall p, free_count (segtab st) p + live_count live p <= 1).
  { intros p. rewrite Hc. apply Hc0. }
  split_and!.
  - intros i j b1 n1 b2 n2 Hij Hli Hlj. eapply live_apart; try done. intros p.
    specialize (Hle p). pose proof (free_count_nonneg (segtab st) p). lia.
  - exact Hle.
  - intros b n Hin. rewrite Forall_forall in Hl. specialize (Hl _ Hin). cbn in Hl. split_and!.
    + eapply owned_within; [exact Hwf| |exact Hl]. by rewrite Hsr.
    + intros H0 H1. by apply order_of_spec.
    + apply list_elem_of_split in Hin as (l1 & l2 & ->).
      destruct (free_run _ _ _ _ _ _ _ Hap Hok) as (st' & He & _). by exists st'.
  - intros n. destruct (alloc_run _ _ _ _ n Hok) as (b & st' & He & _ & Hx).
    exists b, st'. split; [done|]. intros Hb. by apply Hx.
Qed.

(** A usable range of 256 MiB or more breaks the initialisation: its
    order is at least 16 and the block is put in a free list past the end of
    [free_list[16]]. *)
Theorem pmm_large_segment_overflows (entries : list memmap_entry) (base len : Z) :
  (base, len) ∈ usable_ranges entries -> 2 ^ 28 <= len < 2 ^ 64 ->
  (length entries <= max_segtab)%nat -> init entries = None.
Proof.
  intros Hin Hlen Hn. unfold initialise.
  assert (Hnone : forall segs, (length segs + length entries <= max_segtab)%nat ->
    init_loop entries segs = None); [|by rewrite Hnone].
  clear Hn. unfold usable_ranges in Hin. induction entries as [|e entries IH]; intros segs Hn; [by inversion Hin|].
  cbn [omap list_omap initialise_loop length] in *. destruct (usable e) as [[b l]|].
  - rewrite (proj2 (Nat.leb_gt _ _)) by lia.
    destruct (new_segment b l) as [seg|] eqn:Hseg; [|done]. cbn [mbind option_bind].
    apply elem_of_cons in Hin as [[= <- <-]|Hin].
    + exfalso. unfold new_segment in Hseg. cbv zeta in Hseg.
      pose proof (segment_order len ltac:(lia)) as Ho. cbv zeta in Ho.
      set (o := floor_order_loop 64 0 (Z.shiftr len 12)) in *.
      assert (Hge : (FREE_LISTS <= o)%nat).
      { destruct (Nat.le_gt_cases FREE_LISTS o) as [H|H]; [done|]. unfold FREE_LISTS in H.
        pose proof (blk_mono (o + 1) 16 ltac:(lia)) as Hm. change (blk 16) with (2 ^ 28) in Hm. lia. }
      unfold push_block in Hseg. cbn [free_list] in Hseg.
      by rewrite lookup_ge_None_2 in Hseg by (by rewrite length_replicate).
    + apply IH; [done|]. rewrite length_app. simpl. lia.
  - apply IH; [done | lia].
Qed.
End Init.

(** Two megabytes from the first, and a range of 20 KiB. *)
Definition example_map : list memmap_entry :=
  [MemmapEntry 0 2097152 0; MemmapEntry 3145728 65536 1; MemmapEntry 16777216 20480 0].

Lemma pmm_blocks_disjoint_witness :
  usable_ranges 0 2 5 example_map = [(1048576, 1048576); (16777216, 20480)] /\
  exists st0, initialise 0 2 5 example_map = Some st0 /\
    forall st live, rtc pmm_step (st0, []) (st, live) ->
      forall p, free_count (segtab st) p + live_count live p <= 1.
Proof.
  assert (Hu : usable_ranges 0 2 5 example_map = [(1048576, 1048576); (16777216, 20480)])
    by (vm_compute; reflexivity).
  split; [exact Hu|].
  destruct (pmm_blocks_disjoint 0 2 5 example_map) as (st0 & Hi & H).
  - rewrite Hu. repeat constructor; cbn; lia.
  - rewrite Hu. cbn [all_apart]. repeat constructor. cbn. lia.
  - exists st0. split; [exact Hi|]. intros st live Hr. apply (H st live Hr).
Defined.

Lemma pmm_large_segment_overflows_witness :
  initialise 0 2 5 [MemmapEntry 1048576 268435456 0] = None.
Proof.
  apply (pmm_large_segment_overflows 0 2 5 [MemmapEntry 1048576 268435456 0] 1048576 268435456).
  - vm_compute. left.
  - lia.
  - simpl. unfold max_segtab. lia.
Defined.

(** Freeing subtracts the size of the merged block: after one page is
    allocated and freed again, the count of used pages is 1 - 256. *)
Example pmm_usage_underflows :
  (st ← initialise_limine example_map; '(b, st) ← alloc 4096 st; st ← free b 4096 st;
   Some (total_used st)) = Some (u64 (1 - 256)).
Proof. vm_compute. reflexivity. Qed.

(** A request within 4 KiB of the address space's size wraps to no page and
    is given one. *)
Example pmm_huge_request_succeeds :
  (st ← initialise_limine example_map; '(b, st) ← alloc (2 ^ 64 - 1) st; Some b) = Some 1048576.
Proof. vm_compute. reflexivity. Qed.
