(* ===== verification/Vmm.v ===== *)
(** * Virtual memory: [mm/vmm.cpp], and the mappings uACPI asks for

    Page tables in physical memory.  [phys] is physical memory as 64-bit
    words at their addresses; the kernel reads and writes it through the boot
    loader's direct map, which starts at [DIRECT_MAP] and is taken as always
    present.  [tlb] is what the processor may have cached, the leaf entry of a
    page; [invlpg] drops one page.  An access outside memory is [None]. *)
From S2P Require Import Prelude Pmm.

Record vmm_state := VmmState {
  phys : gmap Z Z;
  pmm : pmm_state;
  kernel_cr3 : Z;
  current_cr3 : Z;
  tlb : gmap Z Z;
}.
#[export] Instance settable_vmm_state : Settable vmm_state := fun s =>
  VmmState (phys s) (pmm s) (kernel_cr3 s) (current_cr3 s) (tlb s).

Definition DIRECT_MAP : Z := 0xFFFF800000000000.
Definition USER_END : Z := 0x800000000000.

Definition PAGE_PRESENT : Z := Z.shiftl 1 0.
Definition PAGE_WRITE : Z := Z.shiftl 1 1.
Definition PAGE_USER : Z := Z.shiftl 1 2.
Definition PAGE_RW : Z := 0x002.
Definition PAGE_PS : Z := 0x080.
Definition PAGE_GLOBAL : Z := 0x100.
Definition PAGE_ADDR_MASK : Z := 0x000FFFFFFFFFF000.
Definition PAGE_SIZE : Z := 0x1000.

Definition PML4_IDX (va : Z) : Z := Z.land (Z.shiftr va 39) 0x1FF.
Definition PDPT_IDX (va : Z) : Z := Z.land (Z.shiftr va 30) 0x1FF.
Definition PD_IDX (va : Z) : Z := Z.land (Z.shiftr va 21) 0x1FF.
Definition PT_IDX (va : Z) : Z := Z.land (Z.shiftr va 12) 0x1FF.

(** ** Addresses *)

Definition va_to_pa (va : Z) : Z := if va <=? USER_END then va else u64 (va - DIRECT_MAP).
Definition pa_to_va (pa : Z) : Z := if DIRECT_MAP <=? pa then pa else u64 (pa + DIRECT_MAP).

(** A 64-bit word read or written through the direct map. *)
Definition load (va : Z) : M vmm_state Z := fun st =>
  if va <? DIRECT_MAP then None else w ← phys st !! (va - DIRECT_MAP); Some (w, st).
Definition store (va w : Z) : M vmm_state unit := fun st =>
  if va <? DIRECT_MAP then None
  else _ ← phys st !! (va - DIRECT_MAP);
       Some (tt, st <| phys := <[va - DIRECT_MAP := w]> (phys st) |>).

(** [invlpg] on an address drops the translation of its page. *)
Definition invlpg (va : Z) : M vmm_state unit :=
  modify (fun st => st <| tlb := delete (Z.shiftr va 12) (tlb st) |>).

(** [pmm::alloc] and [pmm::free]. *)
Definition pmm_alloc (n : Z) : M vmm_state Z := fun st =>
  '(p, pm) ← alloc n (pmm st); Some (p, st <| pmm := pm |>).
Definition pmm_free (p n : Z) : M vmm_state unit := fun st =>
  pm ← free p n (pmm st); Some (tt, st <| pmm := pm |>).

Definition vmm_alloc (n : Z) : M vmm_state Z := p ← pmm_alloc n; mret (pa_to_va p).
Definition vmm_free (p n : Z) : M vmm_state unit := pmm_free (va_to_pa p) n.

(** ** Mapping *)

(** [memset(vpage, 0, PAGE_SIZE)]. *)
Definition clear_page (vpage : Z) : M vmm_state unit :=
  for_range 0 (PAGE_SIZE / 8) (fun i => store (vpage + 8 * i) 0).

Definition table_entry (page flags : Z) : Z :=
  Z.lor (Z.lor (Z.lor page PAGE_PRESENT) PAGE_WRITE) (Z.land flags PAGE_USER).

(** The table below entry [idx] of [parent], 0 when no page is left. *)
Definition get_or_create_table (parent idx flags : Z) : M vmm_state Z :=
  e ← load (parent + 8 * idx);
  if has_flag e PAGE_PRESENT then mret (pa_to_va (Z.land e PAGE_ADDR_MASK))
  else
    page ← pmm_alloc 1;
    if page =? 0 then mret 0
    else
      _ ← clear_page (pa_to_va page);
      _ ← store (parent + 8 * idx) (table_entry page flags);
      e ← load (parent + 8 * idx);
      mret (pa_to_va (Z.land e PAGE_ADDR_MASK)).

(** The body of [mmap]'s loop; [false] is the return of a null pointer. *)
Definition map_page (pml4 va pa flags : Z) : M vmm_state bool :=
  pdpt ← get_or_create_table pml4 (PML4_IDX va) flags;
  if pdpt =? 0 then mret false else
  pd ← get_or_create_table pdpt (PDPT_IDX va) flags;
  if pd =? 0 then mret false else
  pt ← get_or_create_table pd (PD_IDX va) flags;
  if pt =? 0 then mret false else
  _ ← store (pt + 8 * PT_IDX va) (Z.lor (Z.lor pa flags) PAGE_PRESENT);
  _ ← invlpg va;
  mret true.

Fixpoint mmap_loop (n : nat) (pml4 va pa flags : Z) : M vmm_state bool :=
  match n with
  | O => mret true
  | S n' =>
      ok ← map_page pml4 va pa flags;
      if (ok : bool)
      then mmap_loop n' pml4 (u64 (va + PAGE_SIZE)) (u64 (pa + PAGE_SIZE)) flags
      else mret false
  end.

Definition mmap (paddr vaddr n flags : Z) : M vmm_state Z :=
  let flags := if vaddr <? USER_END then Z.lor flags PAGE_USER else flags in
  cr3 ← gets current_cr3;
  ok ← mmap_loop (Z.to_nat n) (pa_to_va cr3) vaddr paddr flags;
  mret (if (ok : bool) then vaddr else 0).

(** ** Unmapping *)

(** The table of an entry that is present. *)
Definition present_table (entry : Z) : M vmm_state (option Z) :=
  e ← load entry;
  mret (if has_flag e PAGE_PRESENT then Some (pa_to_va (Z.land e PAGE_ADDR_MASK)) else None).

Definition unmap_page (va : Z) : M vmm_state unit :=
  cr3 ← gets current_cr3;
  pdpt ← present_table (pa_to_va cr3 + 8 * PML4_IDX va);
  match pdpt with None => mret tt | Some pdpt =>
  pd ← present_table (pdpt + 8 * PDPT_IDX va);
  match pd with None => mret tt | Some pd =>
  pt ← present_table (pd + 8 * PD_IDX va);
  match pt with None => mret tt | Some pt =>
  _ ← store (pt + 8 * PT_IDX va) 0;
  invlpg va
  end end end.

(** [while (va < end)]; the loop makes [(n + 4095) / 4096] turns, unless
    [va] wraps past the top of the address space, and then it never ends. *)
Fixpoint munmap_loop (fuel : nat) (va endp : Z) : M vmm_state unit :=
  if va <? endp then
    match fuel with
    | O => ub
    | S fuel' => _ ← unmap_page va; munmap_loop fuel' (u64 (va + PAGE_SIZE)) endp
    end
  else mret tt.

Definition munmap (vaddr n : Z) : M vmm_state unit :=
  munmap_loop (Z.to_nat ((n + 4095) / 4096)) vaddr (u64 (vaddr + n)).

(** ** Address spaces *)

Definition vmm_initialise (cr3 : Z) : M vmm_state unit :=
  modify (fun st => st <| kernel_cr3 := cr3 |> <| current_cr3 := cr3 |>).

Definition get_cr3 : M vmm_state Z := gets kernel_cr3.

(** Loading cr3 keeps the cached translations of global pages only. *)
Definition switch_to_new_table (cr3 : Z) : M vmm_state unit :=
  modify (fun st =>
    let cr3 := if cr3 =? 0 then kernel_cr3 st else cr3 in
    st <| current_cr3 := cr3 |>
       <| tlb := filter (fun '(_, e) => has_flag e PAGE_GLOBAL = true) (tlb st) |>).

(** ** The mappings of uACPI, [uacpi_kernel_wrapper.cpp] *)

Definition kernel_pages (len : Z) : Z := u64 (len + 0xFFF) / 0x1000.

Definition uacpi_kernel_map (addr len : Z) : M vmm_state Z :=
  mmap addr (pa_to_va addr) (kernel_pages len) (Z.lor PAGE_PRESENT PAGE_RW).

Definition uacpi_kernel_unmap (addr len : Z) : M vmm_state unit :=
  munmap addr (kernel_pages len).

(** ** What the processor does with the tables *)

(** The entries a walk from table [t] reads, all present, ending at a page:
    the last level, or an entry of a higher level with the size bit. *)
Fixpoint walk (mem : gmap Z Z) (t : Z) (idxs : list Z) : option (list Z) :=
  match idxs with
  | [] => Some []
  | i :: idxs' =>
      e ← mem !! (t + 8 * i);
      if has_flag e PAGE_PRESENT then
        if has_flag e PAGE_PS && negb (length idxs' =? 0)%nat then Some [e]
        else es ← walk mem (Z.land e PAGE_ADDR_MASK) idxs'; Some (e :: es)
      else None
  end.

Definition va_idxs (va : Z) : list Z := [PML4_IDX va; PDPT_IDX va; PD_IDX va; PT_IDX va].

(** The walk of an address under [current_cr3]. *)
Definition walk_va (st : vmm_state) (va : Z) : option (list Z) :=
  walk (phys st) (current_cr3 st) (va_idxs va).

(** The bits of the offset in a page that a walk of [k] entries finds. *)
Definition page_bits (k : nat) : Z := 12 + 9 * (4 - Z.of_nat k).

Definition translate (st : vmm_state) (va : Z) : option Z :=
  es ← walk_va st va; e ← last es;
  let b := page_bits (length es) in
  Some (Z.lor (Z.shiftl (Z.shiftr (Z.land e PAGE_ADDR_MASK) b) b) (va mod 2 ^ b)).

(** What a walk permits: every entry on the way must. *)
Definition allows (right : Z) (es : list Z) : bool := forallb (fun e => has_flag e right) es.
