(* ===== verification/VmmSpec.v ===== *)
(** * Virtual memory: theorems about [Vmm]

    The tables below cr3 form a tree: [vmm_wf] says that distinct paths lead
    to distinct frames, that none of those frames is free in the page
    allocator, and that the processor caches nothing the tables do not say.
    Mapping and unmapping keep it, and change the walk of exactly the pages
    asked for. *)
From S2P Require Import Prelude Pmm PmmSpec Vmm.

(** ** Bits of entries *)

Lemma mask_testbit i : 0 <= i -> Z.testbit PAGE_ADDR_MASK i = (12 <=? i) && (i <? 52).
Proof.
  intros Hi. change PAGE_ADDR_MASK with (Z.ldiff (Z.ones 52) (Z.ones 12)).
  rewrite Z.ldiff_spec, !Z.testbit_ones_nonneg by lia.
  destruct (Z.leb_spec 12 i), (Z.ltb_spec i 52), (Z.ltb_spec i 12); cbn; lia.
Qed.

(** A page frame below [b]. *)
Definition aligned (a : Z) : Prop := a mod 4096 = 0.

Lemma aligned_testbit a i : aligned a -> 0 <= i < 12 -> Z.testbit a i = false.
Proof.
  intros Ha Hi. assert (H := wrap_testbit 12 a i). unfold wrap in H.
  change (2 ^ 12) with 4096 in H. rewrite Ha, Z.bits_0 in H. specialize (H ltac:(lia) ltac:(lia)).
  rewrite (proj2 (Z.ltb_lt i 12)) in H by lia. done.
Qed.

Lemma small_testbit w a i : 0 <= a < 2 ^ w -> 0 <= w <= i -> Z.testbit a i = false.
Proof.
  intros Ha Hi. assert (H := wrap_testbit w a i). rewrite wrap_small in H by lia.
  rewrite H by lia. by rewrite (proj2 (Z.ltb_ge i w)) by lia.
Qed.

Lemma mask_frame a : aligned a -> 0 <= a < 2 ^ 52 -> Z.land a PAGE_ADDR_MASK = a.
Proof.
  intros Ha Hr. apply Z_bits_ext. intros i Hi. rewrite Z.land_spec, mask_testbit by done.
  destruct (Z.leb_spec 12 i); cbn [andb]; [|by rewrite aligned_testbit by (done || lia)].
  destruct (Z.ltb_spec i 52); [by rewrite andb_true_r|]. by rewrite (small_testbit 52) by lia.
Qed.

(** The address and the flags of an entry do not mix. *)
Lemma mask_entry a f : aligned a -> 0 <= a < 2 ^ 52 -> Z.land f PAGE_ADDR_MASK = 0 ->
  Z.land (Z.lor a f) PAGE_ADDR_MASK = a.
Proof.
  intros Ha Hr Hf. by rewrite Z.land_lor_distr_l, mask_frame, Hf, Z.lor_0_r.
Qed.

Lemma has_flag_lor a b bit : has_flag (Z.lor a b) bit = has_flag a bit || has_flag b bit.
Proof.
  unfold has_flag, truthy. rewrite Z.land_lor_distr_l.
  destruct (Z.eqb_spec (Z.land a bit) 0) as [->|Ha]; [by rewrite Z.lor_0_l|].
  destruct (Z.eqb_spec (Z.lor (Z.land a bit) (Z.land b bit)) 0) as [H|H]; [|done].
  by apply Z.lor_eq_0_iff in H as [? _].
Qed.

Lemma has_flag_low a k : aligned a -> 0 <= k < 12 -> has_flag a (2 ^ k) = false.
Proof. intros Ha Hk. unfold has_flag. rewrite land_pow2 by lia. by apply aligned_testbit. Qed.

Definition user_bits (flags : Z) : Z := Z.land flags PAGE_USER.

Lemma user_bits_cases flags : user_bits flags = if has_flag flags PAGE_USER then 4 else 0.
Proof.
  unfold user_bits, has_flag. change PAGE_USER with (2 ^ 2). rewrite land_pow2 by lia.
  destruct (Z.testbit flags 2) eqn:Hb; apply Z_bits_ext; intros i Hi;
    rewrite Z.land_spec, Z.pow2_bits_eqb by lia;
    (destruct (Z.eqb_spec 2 i) as [<-|Hne]; [rewrite Hb | rewrite andb_false_r]).
  - done.
  - change 4 with (2 ^ 2). rewrite Z.pow2_bits_eqb by lia. by rewrite (proj2 (Z.eqb_neq 2 i)).
  - done.
  - by rewrite Z.bits_0.
Qed.

(** An entry that points to a table. *)
Lemma table_entry_spec a flags : aligned a -> 0 <= a < 2 ^ 52 ->
  Z.land (table_entry a flags) PAGE_ADDR_MASK = a /\
  has_flag (table_entry a flags) PAGE_PRESENT = true /\
  has_flag (table_entry a flags) PAGE_WRITE = true /\
  has_flag (table_entry a flags) PAGE_PS = false /\
  has_flag (table_entry a flags) PAGE_USER = has_flag flags PAGE_USER.
Proof.
  intros Ha Hr. unfold table_entry. fold (user_bits flags). rewrite user_bits_cases.
  rewrite <- !Z.lor_assoc, mask_entry by (destruct (has_flag flags PAGE_USER); done).
  rewrite !has_flag_lor. pose proof (has_flag_low a) as Hl.
  change PAGE_PRESENT with (2 ^ 0). change PAGE_WRITE with (2 ^ 1).
  change PAGE_PS with (2 ^ 7). change PAGE_USER with (2 ^ 2).
  rewrite !Hl by (done || lia). destruct (has_flag flags (2 ^ 2)); done.
Qed.

(** ** Indices *)

Definition idx_ok (i : Z) : Prop := 0 <= i < 512.

Lemma land_idx x : Z.land x 0x1FF = x mod 512.
Proof. change 0x1FF with (Z.ones 9). by rewrite Z.land_ones by lia. Qed.

(** Addresses the processor accepts. *)
Definition canonical (va : Z) : Prop := 0 <= va < USER_END \/ DIRECT_MAP <= va < 2 ^ 64.
Definition page_of (va : Z) : Z := Z.shiftr va 12.

Lemma va_idxs_eq va :
  va_idxs va = [page_of va / 2 ^ 27 mod 512; page_of va / 2 ^ 18 mod 512;
                page_of va / 2 ^ 9 mod 512; page_of va mod 512].
Proof.
  unfold va_idxs, PML4_IDX, PDPT_IDX, PD_IDX, PT_IDX, page_of.
  rewrite !land_idx, <- !Z.shiftr_div_pow2, !Z.shiftr_shiftr by lia. done.
Qed.

Lemma va_idxs_ok va : Forall idx_ok (va_idxs va).
Proof. rewrite va_idxs_eq. repeat constructor; apply Z.mod_pos_bound; lia. Qed.

Lemma page_of_range va : 0 <= va < 2 ^ 64 -> 4096 * page_of va <= va < 4096 * page_of va + 4096.
Proof.
  intros H. unfold page_of. rewrite Z.shiftr_div_pow2 by lia. change (2 ^ 12) with 4096.
  pose proof (Z.div_mod va 4096 ltac:(lia)). pose proof (Z.mod_pos_bound va 4096 ltac:(lia)). lia.
Qed.

(** The four indices are the page, for canonical addresses. *)
Lemma va_idxs_inj va va' :
  canonical va -> canonical va' -> va_idxs va = va_idxs va' -> page_of va = page_of va'.
Proof.
  intros Hc Hc'. rewrite !va_idxs_eq.
  pose proof (page_of_range va) as Hr. pose proof (page_of_range va') as Hr'.
  unfold canonical, DIRECT_MAP, USER_END in *.
  specialize (Hr ltac:(lia)). specialize (Hr' ltac:(lia)).
  generalize dependent (page_of va). generalize dependent (page_of va'). intros p Hp q Hq [= H1 H2 H3 H4].
  assert (Hd : forall x, x mod 2 ^ 36 =
    x / 2 ^ 27 mod 512 * 2 ^ 27 + x / 2 ^ 18 mod 512 * 2 ^ 18 + x / 2 ^ 9 mod 512 * 2 ^ 9 + x mod 512).
  { intros x. change (2 ^ 27) with (512 * (512 * 512)). change (2 ^ 18) with (512 * 512).
    change (2 ^ 9) with 512. change (2 ^ 36) with (512 * (512 * (512 * 512))).
    rewrite !Z.rem_mul_r, <- !Z.div_div by lia. lia. }
  assert (Hm : q mod 2 ^ 36 = p mod 2 ^ 36) by (rewrite !Hd; congruence).
  pose proof (Z.div_mod p (2 ^ 36) ltac:(lia)). pose proof (Z.div_mod q (2 ^ 36) ltac:(lia)).
  pose proof (Z.mod_pos_bound p (2 ^ 36) ltac:(lia)). pose proof (Z.mod_pos_bound q (2 ^ 36) ltac:(lia)).
  lia.
Qed.

Lemma va_idxs_page va va' : page_of va = page_of va' -> va_idxs va = va_idxs va'.
Proof. intros H. by rewrite !va_idxs_eq, H. Qed.

(** ** The tree of tables *)

(** The table at the end of a path of indices from table [t]. *)
Fixpoint table_at (mem : gmap Z Z) (t : Z) (path : list Z) : option Z :=
  match path with
  | [] => Some t
  | i :: path' =>
      e ← mem !! (t + 8 * i);
      if has_flag e PAGE_PRESENT then table_at mem (Z.land e PAGE_ADDR_MASK) path' else None
  end.

(** Entry [j] of the table at the end of a path. *)
Definition entry_at (mem : gmap Z Z) (t : Z) (path : list Z) (j : Z) : option Z :=
  a ← table_at mem t path; mem !! (a + 8 * j).

Lemma table_at_app mem t p q : table_at mem t (p ++ q) = a ← table_at mem t p; table_at mem a q.
Proof.
  revert t. induction p as [|i p IH]; intros t; [done|]. cbn [app table_at].
  destruct (mem !! (t + 8 * i)) as [e|]; [|done]. cbn [mbind option_bind].
  destruct (has_flag e PAGE_PRESENT); [apply IH | done].
Qed.

Lemma table_at_snoc mem t p j :
  table_at mem t (p ++ [j]) =
  e ← entry_at mem t p j;
  if has_flag e PAGE_PRESENT then Some (Z.land e PAGE_ADDR_MASK) else None.
Proof.
  rewrite table_at_app. unfold entry_at. destruct (table_at mem t p) as [a|]; [|done].
  cbn [mbind option_bind table_at]. by destruct (mem !! (a + 8 * j)).
Qed.

(** A walk of a path only reads the entries on it. *)
Lemma table_at_ext mem mem' t q :
  (forall p j r, q = p ++ j :: r -> entry_at mem' t p j = entry_at mem t p j) ->
  table_at mem' t q = table_at mem t q.
Proof.
  induction q as [|j q IH] using rev_ind; intros H; [done|].
  by rewrite !table_at_snoc, (H q j []) by done.
Qed.

(** What a walk from the end of [p] does, when no entry on [p] maps a large page. *)
Lemma walk_app mem t p q a :
  table_at mem t p = Some a -> q <> [] ->
  (forall p1 j p2 e, p = p1 ++ j :: p2 -> entry_at mem t p1 j = Some e ->
     has_flag e PAGE_PRESENT = true -> has_flag e PAGE_PS = false) ->
  exists es, walk mem t (p ++ q) = (es2 ← walk mem a q; Some (es ++ es2)) /\ length es = length p /\
    (forall k e, es !! k = Some e -> exists p1 j p2, p = p1 ++ j :: p2 /\ length p1 = k /\
       entry_at mem t p1 j = Some e /\ has_flag e PAGE_PRESENT = true).
Proof.
  revert t. induction p as [|i p IH]; intros t Ht Hq Hps.
  { injection Ht as <-. exists []. cbn [app]. split_and!; [by destruct (walk mem t q) | done | done]. }
  cbn [table_at app walk] in *. destruct (mem !! (t + 8 * i)) as [e|] eqn:He; [|done].
  cbn [mbind option_bind] in *. destruct (has_flag e PAGE_PRESENT) eqn:Hp; [|done].
  rewrite (Hps [] i p e) by done. cbn [andb].
  destruct (IH _ Ht Hq) as (es & -> & Hl & Hes).
  { intros p1 j p2 e' -> Hj. apply (Hps (i :: p1) j p2); [done|].
    unfold entry_at in *. cbn [table_at]. rewrite He. cbn [mbind option_bind]. by rewrite Hp. }
  exists (e :: es). split_and!.
  - by destruct (walk mem a q).
  - cbn. lia.
  - intros [|k] e' Hk; cbn in Hk.
    + injection Hk as <-. exists [], i, p. done.
    + destruct (Hes k e' Hk) as (p1 & j & p2 & -> & <- & He' & Hpr).
      exists (i :: p1), j, p2. split_and!; try done. unfold entry_at. cbn [table_at].
      rewrite He. cbn [mbind option_bind]. by rewrite Hp.
Qed.

(** Two memories with the same entries on a path are walked alike. *)
Lemma walk_ext mem mem' t q :
  (forall p j r, q = p ++ j :: r -> entry_at mem' t p j = entry_at mem t p j) ->
  walk mem' t q = walk mem t q.
Proof.
  revert t. induction q as [|i q IH]; intros t H; [done|]. cbn [walk].
  pose proof (H [] i q eq_refl) as H0. unfold entry_at in H0. cbn [table_at mbind option_bind] in H0.
  rewrite H0. destruct (mem !! (t + 8 * i)) as [e|] eqn:He; [|done]. cbn [mbind option_bind].
  destruct (has_flag e PAGE_PRESENT) eqn:Hp; [|done]. rewrite IH; [done|].
  intros p j r ->. specialize (H (i :: p) j r eq_refl). unfold entry_at in H. cbn [table_at] in H.
  rewrite H0, He in H. cbn [mbind option_bind] in H. by rewrite Hp in H.
Qed.

(** ** Well-formed tables *)

Definition frame (a : Z) : Prop := aligned a /\ 0 <= a < 2 ^ 47.
Definition backed (mem : gmap Z Z) (a : Z) : Prop := forall i, idx_ok i -> is_Some (mem !! (a + 8 * i)).
Definition path_ok (p : list Z) : Prop := Forall idx_ok p /\ (length p <= 3)%nat.

(** The lower half of the address space is the user's. *)
Definition lower (p : list Z) : Prop := match p with [] => False | i :: _ => i < 256 end.

Record tables_wf (mem : gmap Z Z) (cr3 : Z) (segs : list pmm_segment) : Prop := {
  tw_frame : forall p a, path_ok p -> table_at mem cr3 p = Some a -> frame a /\ backed mem a;
  tw_used : forall p a x, path_ok p -> table_at mem cr3 p = Some a ->
    a <= x < a + 4096 -> free_count segs x = 0;
  tw_inj : forall p q a, path_ok p -> path_ok q ->
    table_at mem cr3 p = Some a -> table_at mem cr3 q = Some a -> p = q;
  tw_inner : forall p j e, path_ok (p ++ [j]) -> entry_at mem cr3 p j = Some e ->
    has_flag e PAGE_PRESENT = true ->
    has_flag e PAGE_PS = false /\ has_flag e PAGE_WRITE = true /\
    (lower (p ++ [j]) -> has_flag e PAGE_USER = true);
}.

Lemma path_ok_prefix p q : path_ok (p ++ q) -> path_ok p.
Proof. intros [Hf Hl]. apply Forall_app in Hf as [Hf _]. rewrite length_app in Hl. split; [done|lia]. Qed.

Lemma idxs_step p j r : Forall idx_ok (p ++ j :: r) -> Forall idx_ok (p ++ [j]).
Proof. rewrite !Forall_app, !Forall_cons. by intros (? & ? & _). Qed.

Lemma idxs_last p j : Forall idx_ok (p ++ [j]) -> idx_ok j.
Proof. rewrite Forall_app, Forall_cons. by intros (_ & ? & _). Qed.

Lemma inner_no_ps mem cr3 segs :
  tables_wf mem cr3 segs -> forall p p1 j p2 e, path_ok p -> p = p1 ++ j :: p2 ->
  entry_at mem cr3 p1 j = Some e -> has_flag e PAGE_PRESENT = true -> has_flag e PAGE_PS = false.
Proof.
  intros Hwf p p1 j p2 e Hp -> He Hpr. apply (tw_inner _ _ _ Hwf p1 j e); [|done..].
  apply path_ok_prefix with p2. by rewrite <- app_assoc.
Qed.

(** Entries of frames are apart. *)
Lemma entry_addr_inj a b i j :
  frame a -> frame b -> idx_ok i -> idx_ok j -> a + 8 * i = b + 8 * j -> a = b /\ i = j.
Proof.
  intros [Ha _] [Hb _] Hi Hj H. unfold aligned, idx_ok in *.
  apply Z.mod_divide in Ha as [k ->]; [|lia]. apply Z.mod_divide in Hb as [l ->]; [|lia]. lia.
Qed.

(** Writing one entry of a table leaves all others. *)
Lemma entry_at_set mem cr3 segs p0 i a w :
  tables_wf mem cr3 segs -> path_ok p0 -> idx_ok i -> table_at mem cr3 p0 = Some a ->
  forall q j, Forall idx_ok (q ++ [j]) -> (length q <= 3)%nat -> ~ (p0 ++ [i]) `prefix_of` (q ++ [j]) ->
  entry_at (<[a + 8 * i := w]> mem) cr3 q j = entry_at mem cr3 q j.
Proof.
  intros Hwf Hp0 Hi Ha. induction q as [|k q IH] using rev_ind; intros j Hok Hlen Hpre.
  all: assert (Hj : idx_ok j) by (apply Forall_app in Hok as [_ Hok]; by inversion Hok).
  - unfold entry_at. cbn [table_at mbind option_bind]. rewrite lookup_insert_ne; [done|].
    intros He. assert (cr3 = a /\ i = j) as [<- <-].
    { destruct (entry_addr_inj a cr3 i j) as [-> ->]; try done.
      - by apply (tw_frame _ _ _ Hwf p0).
      - by apply (tw_frame _ _ _ Hwf [] cr3). }
    assert (p0 = []) as -> by (by apply (tw_inj _ _ _ Hwf p0 [] cr3)). by apply Hpre.
  - assert (Hq : path_ok (q ++ [k])) by (split; [by apply Forall_app in Hok as [? _] | done]).
    assert (Hk : entry_at (<[a + 8 * i := w]> mem) cr3 q k = entry_at mem cr3 q k).
    { apply IH; [apply Hq | rewrite length_app in Hlen; cbn in Hlen; lia |].
      intros Hpp. apply Hpre. by apply prefix_app_r. }
    unfold entry_at. rewrite !table_at_snoc, Hk.
    rewrite <- !(table_at_snoc mem). destruct (table_at mem cr3 (q ++ [k])) as [b|] eqn:Hb; [|done].
    cbn [mbind option_bind]. rewrite lookup_insert_ne; [done|]. intros He.
    destruct (entry_addr_inj a b i j) as [<- <-]; try done.
    + by apply (tw_frame _ _ _ Hwf p0).
    + by apply (tw_frame _ _ _ Hwf (q ++ [k])).
    + apply Hpre. by rewrite (tw_inj _ _ _ Hwf p0 (q ++ [k]) a).
Qed.

(** The entry itself. *)
Lemma entry_at_new mem cr3 segs p0 i a w :
  tables_wf mem cr3 segs -> path_ok p0 -> idx_ok i -> table_at mem cr3 p0 = Some a ->
  table_at (<[a + 8 * i := w]> mem) cr3 p0 = Some a /\
  entry_at (<[a + 8 * i := w]> mem) cr3 p0 i = Some w.
Proof.
  intros Hwf Hp0 Hi Ha.
  assert (Ht : table_at (<[a + 8 * i := w]> mem) cr3 p0 = Some a).
  { rewrite <- Ha. apply table_at_ext. intros p j r ->. eapply entry_at_set; try done.
    - by eapply idxs_step, Hp0.
    - destruct Hp0 as [_ Hl]. rewrite length_app in Hl. lia.
    - intros Hpre%prefix_length. rewrite !length_app in Hpre. cbn in Hpre. lia. }
  split; [done|]. unfold entry_at. rewrite Ht. cbn [mbind option_bind]. apply lookup_insert_eq.
Qed.

(** Memory outside the tables does not matter. *)
Lemma entry_at_outside mem mem' cr3 segs :
  tables_wf mem cr3 segs ->
  (forall p a i, path_ok p -> table_at mem cr3 p = Some a -> idx_ok i -> mem' !! (a + 8 * i) = mem !! (a + 8 * i)) ->
  forall q j, Forall idx_ok (q ++ [j]) -> (length q <= 3)%nat -> entry_at mem' cr3 q j = entry_at mem cr3 q j.
Proof.
  intros Hwf H. induction q as [|k q IH] using rev_ind; intros j Hok Hlen.
  all: assert (Hj : idx_ok j) by (apply Forall_app in Hok as [_ Hok]; by inversion Hok).
  - unfold entry_at. cbn [table_at mbind option_bind]. by apply (H []).
  - assert (Hq : path_ok (q ++ [k])) by (split; [by apply Forall_app in Hok as [? _] | done]).
    unfold entry_at. rewrite !table_at_snoc, IH by (try apply Hq; rewrite length_app in Hlen; cbn in Hlen; lia).
    rewrite <- (table_at_snoc mem). destruct (table_at mem cr3 (q ++ [k])) as [b|] eqn:Hb; [|done].
    cbn [mbind option_bind]. by apply (H (q ++ [k])).
Qed.

(** ** Changes of memory *)

Lemma prefix_snoc_case (l q : list Z) j : l `prefix_of` q ++ [j] -> l `prefix_of` q \/ l = q ++ [j].
Proof.
  intros [k Hk]. destruct k as [|x k _] using rev_ind; [right; by rewrite app_nil_r in Hk|].
  left. rewrite app_assoc in Hk. apply app_inj_tail in Hk as [-> _]. by exists k.
Qed.

(** Memory outside the tables, and pages the allocator gives away. *)
Lemma tables_wf_outside mem mem' cr3 segs segs' :
  tables_wf mem cr3 segs ->
  (forall p a i, path_ok p -> table_at mem cr3 p = Some a -> idx_ok i -> mem' !! (a + 8 * i) = mem !! (a + 8 * i)) ->
  (forall x, 0 <= free_count segs' x <= free_count segs x) ->
  tables_wf mem' cr3 segs' /\
  (forall q, path_ok q -> table_at mem' cr3 q = table_at mem cr3 q) /\
  (forall q, Forall idx_ok q -> (length q <= 4)%nat -> walk mem' cr3 q = walk mem cr3 q).
Proof.
  intros Hwf Hm Hf. pose proof (entry_at_outside _ _ _ _ Hwf Hm) as He.
  assert (Ht : forall q, path_ok q -> table_at mem' cr3 q = table_at mem cr3 q).
  { intros q [Hq Hl]. apply table_at_ext. intros p j r ->. apply He; [by eapply idxs_step|].
    rewrite length_app in Hl. lia. }
  split_and!; [|done|].
  - constructor.
    + intros p a Hp Ha. rewrite Ht in Ha by done. destruct (tw_frame _ _ _ Hwf p a Hp Ha) as [Hfr Hb].
      split; [done|]. intros i Hi. rewrite (Hm p) by done. by apply Hb.
    + intros p a x Hp Ha Hx. rewrite Ht in Ha by done. specialize (Hf x).
      rewrite (tw_used _ _ _ Hwf p a x) in Hf by done. lia.
    + intros p q a Hp Hq Ha Hb. rewrite Ht in Ha, Hb by done. by apply (tw_inj _ _ _ Hwf p q a).
    + intros p j e Hp Hj. rewrite He in Hj; [by apply (tw_inner _ _ _ Hwf)|apply Hp|].
      apply path_ok_prefix in Hp. apply Hp.
  - intros q Hq Hl. apply walk_ext. intros p j r ->. apply He; [by eapply idxs_step|].
    rewrite length_app in Hl. cbn in Hl. lia.
Qed.

(** A cleared frame becomes a table. *)
Section Install.
Context (mem : gmap Z Z) (cr3 : Z) (segs : list pmm_segment) (p0 : list Z) (i a b flags : Z).
Context (Hwf : tables_wf mem cr3 segs) (Hp0 : path_ok (p0 ++ [i])).
Context (Ha : table_at mem cr3 p0 = Some a).
Context (Habsent : forall e, entry_at mem cr3 p0 i = Some e -> has_flag e PAGE_PRESENT = false).
Context (Hb : frame b) (Hzero : forall j, idx_ok j -> mem !! (b + 8 * j) = Some 0).
Context (Hused : forall x, b <= x < b + 4096 -> free_count segs x = 0).
Context (Hnew : forall p, path_ok p -> table_at mem cr3 p <> Some b).
Context (Hflags : lower (p0 ++ [i]) -> has_flag flags PAGE_USER = true).

Let mem' := <[a + 8 * i := table_entry b flags]> mem.

Lemma install_at : table_at mem' cr3 p0 = Some a /\ entry_at mem' cr3 p0 i = Some (table_entry b flags) /\
  table_at mem' cr3 (p0 ++ [i]) = Some b.
Proof.
  assert (Hi : idx_ok i) by (apply idxs_last with p0, Hp0).
  destruct (entry_at_new mem cr3 segs p0 i a (table_entry b flags) Hwf (path_ok_prefix _ _ Hp0) Hi Ha)
    as [H1 H2]. split_and!; [done..|]. rewrite table_at_snoc. fold mem' in H2. rewrite H2.
  cbn [mbind option_bind]. destruct (table_entry_spec b flags) as (-> & -> & _); [apply Hb | | done].
  destruct Hb as [_ Hr]. lia.
Qed.

Lemma install_absent q : (p0 ++ [i]) `prefix_of` q -> table_at mem cr3 q = None.
Proof.
  intros [r ->]. rewrite table_at_app, table_at_snoc. destruct (entry_at mem cr3 p0 i) as [e|] eqn:He; [|done].
  cbn [mbind option_bind]. by rewrite Habsent.
Qed.

Lemma install_same q j :
  Forall idx_ok (q ++ [j]) -> (length q <= 3)%nat -> ~ (p0 ++ [i]) `prefix_of` (q ++ [j]) ->
  entry_at mem' cr3 q j = entry_at mem cr3 q j.
Proof.
  apply entry_at_set with (segs := segs); try done; [by eapply path_ok_prefix | apply idxs_last with p0, Hp0].
Qed.

(** The new table is empty. *)
Lemma install_zero j : idx_ok j -> entry_at mem' cr3 (p0 ++ [i]) j = Some 0.
Proof.
  intros Hj. unfold entry_at. destruct install_at as (_ & _ & ->). cbn [mbind option_bind].
  unfold mem'. rewrite lookup_insert_ne; [by apply Hzero|]. intros He.
  destruct (entry_addr_inj a b i j) as [Hab _]; try done.
  - by apply (tw_frame _ _ _ Hwf p0 a (path_ok_prefix _ _ Hp0)).
  - apply idxs_last with p0, Hp0.
  - subst b. by apply (Hnew p0 (path_ok_prefix _ _ Hp0)).
Qed.

Lemma install_table_at q c :
  path_ok q -> table_at mem' cr3 q = Some c -> table_at mem cr3 q = Some c \/ q = p0 ++ [i] /\ c = b.
Proof.
  revert c. induction q as [|j q IH] using rev_ind; intros c Hq Hc; [by left|].
  pose proof (path_ok_prefix _ _ Hq) as Hq'.
  destruct (decide ((p0 ++ [i]) `prefix_of` (q ++ [j]))) as [Hpre|Hpre].
  - apply prefix_snoc_case in Hpre as [Hpre|Heq].
    + rewrite table_at_snoc in Hc. unfold entry_at in Hc.
      destruct (table_at mem' cr3 q) as [d|] eqn:Hd; [|done].
      destruct (IH d Hq' eq_refl) as [Ht|[-> ->]]; [by rewrite install_absent in Ht|].
      pose proof (install_zero j (idxs_last _ _ (proj1 Hq))) as Hz. unfold entry_at in Hz.
      rewrite Hd in Hz. rewrite Hz in Hc. done.
    + right. rewrite <- Heq in *. destruct install_at as (_ & _ & H). rewrite H in Hc. by injection Hc.
  - left. rewrite table_at_snoc in *. rewrite install_same in Hc; [done | apply Hq | apply Hq' | done].
Qed.

Lemma install_keeps q c : path_ok q -> table_at mem cr3 q = Some c -> table_at mem' cr3 q = Some c.
Proof.
  intros [Hq Hl] Hc. rewrite <- Hc. apply table_at_ext. intros p j r ->. apply install_same.
  - by eapply idxs_step.
  - rewrite length_app in Hl. lia.
  - intros [s Hs]. rewrite (install_absent (p ++ j :: r)) in Hc; [done|]. exists (s ++ r).
    by rewrite app_assoc, <- Hs, <- app_assoc.
Qed.

Lemma install_wf : tables_wf mem' cr3 segs.
Proof.
  constructor.
  - intros p c Hp Hc. destruct (install_table_at p c Hp Hc) as [H|[_ ->]].
    + destruct (tw_frame _ _ _ Hwf p c Hp H) as [Hf Hbk]. split; [done|]. intros j Hj.
      apply lookup_insert_is_Some'. right. by apply Hbk.
    + split; [done|]. intros j Hj. apply lookup_insert_is_Some'. right. by rewrite Hzero.
  - intros p c x Hp Hc Hx. destruct (install_table_at p c Hp Hc) as [H|[_ ->]]; [|by apply Hused].
    by apply (tw_used _ _ _ Hwf p c).
  - intros p q c Hp Hq Hc Hd. destruct (install_table_at p c Hp Hc) as [H1|[-> ->]], (install_table_at q _ Hq Hd) as [H2|[-> E]].
    + by apply (tw_inj _ _ _ Hwf p q c).
    + subst c. by apply Hnew in H1.
    + by apply Hnew in H2.
    + done.
  - intros p j e Hp He Hpr. pose proof (path_ok_prefix _ _ Hp) as Hpp.
    destruct (decide ((p0 ++ [i]) `prefix_of` (p ++ [j]))) as [Hpre|Hpre].
    2: { rewrite install_same in He; [by apply (tw_inner _ _ _ Hwf) | apply Hp | apply Hpp | done]. }
    apply prefix_snoc_case in Hpre as [Hpre|Heq].
    + unfold entry_at in He. destruct (table_at mem' cr3 p) as [d|] eqn:Hd; [|done].
      destruct (install_table_at p d Hpp Hd) as [Ht|[-> ->]]; [by rewrite install_absent in Ht|].
      pose proof (install_zero j (idxs_last _ _ (proj1 Hp))) as Hz. unfold entry_at in Hz.
      rewrite Hd in Hz. rewrite Hz in He. by injection He as <-.
    + apply app_inj_tail in Heq as [<- <-]. destruct install_at as (_ & He' & _).
      rewrite He' in He. injection He as <-. destruct Hb as [Hal Hr].
      destruct (table_entry_spec b flags Hal ltac:(lia)) as (_ & _ & -> & -> & ->). auto.
Qed.

(** The entries of tables, old and new. *)
Lemma install_inner q j e : path_ok (q ++ [j]) -> has_flag e PAGE_PRESENT = true ->
  (entry_at mem cr3 q j = Some e -> entry_at mem' cr3 q j = Some e) /\
  (entry_at mem' cr3 q j = Some e -> entry_at mem cr3 q j = Some e \/ has_flag e PAGE_USER = has_flag flags PAGE_USER).
Proof.
  intros Hp Hpr. pose proof (path_ok_prefix _ _ Hp) as Hpp.
  destruct (decide ((p0 ++ [i]) `prefix_of` (q ++ [j]))) as [Hpre|Hpre].
  2: { rewrite install_same by (apply Hp || apply Hpp || done). split; [done | by left]. }
  apply prefix_snoc_case in Hpre as [Hpre|Heq].
  - split; [intros He; unfold entry_at in He; by rewrite install_absent in He|]. intros He. exfalso.
    unfold entry_at in He. destruct (table_at mem' cr3 q) as [d|] eqn:Hd; [|done].
    destruct (install_table_at q d Hpp Hd) as [Ht|[-> ->]]; [by rewrite install_absent in Ht|].
    pose proof (install_zero j (idxs_last _ _ (proj1 Hp))) as Hz. unfold entry_at in Hz.
    rewrite Hd in Hz. rewrite Hz in He. by injection He as <-.
  - apply app_inj_tail in Heq as [<- <-]. split; [intros He; by rewrite Habsent in Hpr|]. intros He. right.
    destruct install_at as (_ & He' & _). rewrite He' in He. injection He as <-. destruct Hb as [Hal Hr].
    by destruct (table_entry_spec b flags Hal ltac:(lia)) as (_ & _ & _ & _ & ->).
Qed.

(** A walk finds nothing new. *)
Lemma install_walk q : Forall idx_ok q -> length q = 4%nat -> walk mem' cr3 q = walk mem cr3 q.
Proof.
  intros Hq Hl. destruct (decide ((p0 ++ [i]) `prefix_of` q)) as [[r ->]|Hpre].
  2: { apply walk_ext. intros p j r ->. apply install_same; [by eapply idxs_step | | ].
       - rewrite length_app in Hl. cbn in Hl. lia.
       - intros [s Hs]. apply Hpre. exists (s ++ r). by rewrite app_assoc, <- Hs, <- app_assoc. }
  rewrite <- app_assoc in *. rewrite !length_app in Hl. cbn in Hl.
  destruct Hp0 as [_ Hl0]. rewrite length_app in Hl0. cbn in Hl0.
  transitivity (None : option (list Z)); [|symmetry].
  - destruct (walk_app mem' cr3 (p0 ++ [i]) r b) as (es & Hw & _); [apply install_at | intros ->; cbn in Hl; lia | |].
    { intros p1 j p2 e. by apply (inner_no_ps _ _ _ install_wf). }
    rewrite <- app_assoc in Hw. rewrite Hw. destruct r as [|j r]; [cbn in Hl; lia|]. cbn [walk].
    pose proof (install_zero j) as Hz. unfold entry_at in Hz. destruct install_at as (_ & _ & Hi).
    rewrite Hi in Hz. cbn [mbind option_bind] in Hz. rewrite Hz; [done|].
    rewrite !Forall_app in Hq. destruct Hq as (_ & _ & Hq). by inversion Hq.
  - destruct (walk_app mem cr3 p0 (i :: r) a Ha) as (es & Hw & _); [done| |].
    { intros p1 j p2 e. apply (inner_no_ps _ _ _ Hwf). by eapply path_ok_prefix. }
    cbn [app]. rewrite Hw. cbn [walk]. destruct (mem !! (a + 8 * i)) as [e|] eqn:He; [|done].
    cbn [mbind option_bind]. rewrite Habsent; [done|]. unfold entry_at. by rewrite Ha.
Qed.
End Install.

(** ** States *)

Definition segs_of (st : vmm_state) : list pmm_segment := segtab (pmm st).

Record vmm_wf (st : vmm_state) : Prop := {
  vw_tables : tables_wf (phys st) (current_cr3 st) (segs_of st);
  vw_segs : Forall seg_wf (segs_of st);
  vw_once : forall x, free_count (segs_of st) x <= 1;
  vw_ram : forall a, owned (segs_of st) 0 a -> frame a /\ backed (phys st) a;
  vw_tlb : forall va e, canonical va -> tlb st !! page_of va = Some e ->
    exists es, walk_va st va = Some (es ++ [e]);
}.

(** What mapping and unmapping never touch. *)
Definition same_space (st st' : vmm_state) : Prop :=
  current_cr3 st' = current_cr3 st /\ kernel_cr3 st' = kernel_cr3 st.

Lemma pa_to_va_frame a : 0 <= a < 2 ^ 47 -> pa_to_va a = a + DIRECT_MAP.
Proof.
  intros H. unfold pa_to_va, DIRECT_MAP. rewrite (proj2 (Z.leb_gt _ _)) by lia.
  apply u64_small. lia.
Qed.

Lemma load_entry st a i w :
  frame a -> 0 <= i -> phys st !! (a + 8 * i) = Some w -> load (pa_to_va a + 8 * i) st = Some (w, st).
Proof.
  intros [_ Ha] Hi H. unfold load. rewrite pa_to_va_frame by done. rewrite (proj2 (Z.ltb_ge _ _)) by lia.
  replace (a + DIRECT_MAP + 8 * i - DIRECT_MAP) with (a + 8 * i) by lia. by rewrite H.
Qed.

Definition set_word (st : vmm_state) (p w : Z) : vmm_state := st <| phys := <[p := w]> (phys st) |>.

Lemma store_entry st a i w :
  frame a -> 0 <= i -> is_Some (phys st !! (a + 8 * i)) ->
  store (pa_to_va a + 8 * i) w st = Some (tt, set_word st (a + 8 * i) w).
Proof.
  intros [_ Ha] Hi [v Hv]. unfold store. rewrite pa_to_va_frame by done. rewrite (proj2 (Z.ltb_ge _ _)) by lia.
  replace (a + DIRECT_MAP + 8 * i - DIRECT_MAP) with (a + 8 * i) by lia. by rewrite Hv.
Qed.

(** [s] is [st] with the first [k] words of page [b] cleared. *)
Definition cleared (st : vmm_state) (b k : Z) (s : vmm_state) : Prop := exists mem,
  s = st <| phys := mem |> /\
  (forall i, 0 <= i < k -> mem !! (b + 8 * i) = Some 0) /\
  (forall x, ~ (b <= x < b + 4096) -> mem !! x = phys st !! x) /\
  (forall x, is_Some (phys st !! x) -> is_Some (mem !! x)).

Lemma clear_page_spec st b :
  frame b -> backed (phys st) b ->
  exists s, clear_page (pa_to_va b) st = Some (tt, s) /\ cleared st b 512 s.
Proof.
  intros Hb Hbk.
  assert (H : triple (cleared st b 0) (clear_page (pa_to_va b)) (fun _ => cleared st b 512)).
  { apply (triple_for_range_at (cleared st b)); [done|]. intros k Hk s (mem & -> & H0 & Hout & Hin).
    change (PAGE_SIZE / 8) with 512 in Hk. rewrite store_entry; [|done|lia|by apply Hin, Hbk].
    eexists _, _. split; [done|]. exists (<[b + 8 * k := 0]> mem). split_and!; [done| | |].
    - intros i Hi. destruct (decide (i = k)) as [->|]; [apply lookup_insert_eq|].
      rewrite lookup_insert_ne by lia. apply H0. lia.
    - intros x Hx. rewrite lookup_insert_ne by lia. by apply Hout.
    - intros x Hx. apply lookup_insert_is_Some'. right. by apply Hin. }
  destruct (H st) as ([] & s & Hrun & Hc); [|by exists s].
  exists (phys st). split_and!; [by destruct st | lia | done..].
Qed.

(** One page from the allocator: a backed frame that was free and is not any
    more, or none is left. *)
Lemma pmm_page_spec st :
  vmm_wf st ->
  exists p pm, pmm_alloc 1 st = Some (p, st <| pmm := pm |>) /\
    Forall seg_wf (segtab pm) /\
    (forall x, 0 <= free_count (segtab pm) x <= free_count (segs_of st) x) /\
    (forall a, owned (segtab pm) 0 a -> owned (segs_of st) 0 a) /\
    (p = 0 /\ exhausted 0 (segtab pm) \/
     p <> 0 /\ owned (segs_of st) 0 p /\
     (forall x, p <= x < p + 4096 -> free_count (segtab pm) x = 0 /\ free_count (segs_of st) x = 1)).
Proof.
  intros Hwf. destruct Hwf as [_ Hseg Honce _ _]. unfold pmm_alloc, alloc. cbv zeta.
  change (order_of 1) with 0%nat. fold (segs_of st).
  destruct (alloc_segments_spec 0 (segs_of st) Hseg) as [[-> Hx]|(b & segs' & -> & Hwf' & Hs & Ho & Hc)];
    cbn [mbind option_bind].
  - do 2 eexists. split; [done|]. cbn [segtab]. split_and!; [done| |done|by left].
    intros x. pose proof (free_count_nonneg (segs_of st) x). unfold segs_of in *. lia.
  - do 2 eexists. split; [done|]. cbn [segtab]. split_and!.
    + done.
    + intros x. specialize (Hc x). pose proof (free_count_nonneg segs' x).
      pose proof (ind_range b (blk 0) x). lia.
    + intros a. apply owned_shapes. clear -Hs. induction Hs as [|s s' l l' (?&?&?) _ IH]; constructor; [|done].
      by split_and!.
    + right. split; [|split; [done|]].
      { pose proof (owned_pos _ _ _ Hseg Ho). lia. }
      intros x Hx. specialize (Hc x). rewrite ind_in in Hc by (change (blk 0) with 4096; lia).
      pose proof (free_count_nonneg segs' x). specialize (Honce x). lia.
Qed.

(** Entries of tables stay, and the new ones admit the user if the flags do. *)
Definition inner_kept (flags : Z) (mem mem' : gmap Z Z) (cr3 : Z) : Prop := forall q j e, path_ok (q ++ [j]) ->
  has_flag e PAGE_PRESENT = true ->
  (entry_at mem cr3 q j = Some e -> entry_at mem' cr3 q j = Some e) /\
  (entry_at mem' cr3 q j = Some e -> entry_at mem cr3 q j = Some e \/ has_flag e PAGE_USER = has_flag flags PAGE_USER).

(** What creating tables changes: nothing that a walk or a cached translation
    shows; tables stay. *)
Record grows (flags : Z) (st st' : vmm_state) : Prop := {
  gr_wf : vmm_wf st';
  gr_space : same_space st st';
  gr_tlb : tlb st' = tlb st;
  gr_inner : inner_kept flags (phys st) (phys st') (current_cr3 st);
  gr_walk : forall q, Forall idx_ok q -> length q = 4%nat ->
    walk (phys st') (current_cr3 st') q = walk (phys st) (current_cr3 st) q;
  gr_table : forall q c, path_ok q -> table_at (phys st) (current_cr3 st) q = Some c ->
    table_at (phys st') (current_cr3 st') q = Some c;
}.

Lemma grows_refl flags st : vmm_wf st -> grows flags st st.
Proof. constructor; try done. intros q j e _ _. split; [done | by left]. Qed.

Lemma grows_trans flags st1 st2 st3 : grows flags st1 st2 -> grows flags st2 st3 -> grows flags st1 st3.
Proof.
  intros [H1 [S1 S1'] T1 I1 W1 E1] [H2 [S2 S2'] T2 I2 W2 E2]. rewrite S1 in I2.
  constructor; [done|split; congruence|congruence| | |].
  - intros q j e Hq He. destruct (I1 q j e Hq He) as [A1 B1], (I2 q j e Hq He) as [A2 B2].
    split; [by intros H; apply A2, A1|]. intros [H|H]%B2; [by apply B1 | by right].
  - intros q Hq Hl. by rewrite W2, W1.
  - intros q c Hq Hc. by apply E2, E1.
Qed.

(** A step that keeps walks keeps the cached translations right. *)
Lemma tlb_kept st st' :
  (forall va e, canonical va -> tlb st !! page_of va = Some e -> exists es, walk_va st va = Some (es ++ [e])) ->
  tlb st' = tlb st ->
  (forall q, Forall idx_ok q -> length q = 4%nat ->
    walk (phys st') (current_cr3 st') q = walk (phys st) (current_cr3 st) q) ->
  forall va e, canonical va -> tlb st' !! page_of va = Some e -> exists es, walk_va st' va = Some (es ++ [e]).
Proof.
  intros H Ht Hw va e Hc He. rewrite Ht in He. destruct (H va e Hc He) as [es Hes]. exists es.
  unfold walk_va in *. rewrite Hw; [done | apply va_idxs_ok | done].
Qed.

(** The allocator's step alone. *)
Lemma grows_alloc flags st pm :
  vmm_wf st -> Forall seg_wf (segtab pm) ->
  (forall x, 0 <= free_count (segtab pm) x <= free_count (segs_of st) x) ->
  (forall a, owned (segtab pm) 0 a -> owned (segs_of st) 0 a) ->
  grows flags st (st <| pmm := pm |>).
Proof.
  intros Hwf Hs Hf Ho. destruct Hwf as [Ht _ Hone Hram Htlb].
  assert (Hst : tables_wf (phys st) (current_cr3 st) (segtab pm)).
  { by apply (tables_wf_outside _ (phys st) _ _ (segtab pm) Ht). }
  constructor; [|done|done| |done..]. 2: { intros q j e _ _. split; [done | by left]. } constructor; try done.
  - intros x. specialize (Hf x). specialize (Hone x). unfold segs_of in *. simpl. lia.
  - intros a Ha. by apply Hram, Ho.
Qed.

(** A cleared page, linked at an absent entry. *)
Lemma grows_install st s p i parent b flags :
  vmm_wf st ->
  (forall x, b <= x < b + 4096 -> free_count (segs_of st) x = 0) ->
  (forall q, path_ok q -> table_at (phys st) (current_cr3 st) q <> Some b) ->
  frame b -> cleared st b 512 s -> path_ok (p ++ [i]) ->
  table_at (phys st) (current_cr3 st) p = Some parent ->
  (forall e, entry_at (phys st) (current_cr3 st) p i = Some e -> has_flag e PAGE_PRESENT = false) ->
  (lower (p ++ [i]) -> has_flag flags PAGE_USER = true) ->
  grows flags st (set_word s (parent + 8 * i) (table_entry b flags)) /\
  table_at (<[parent + 8 * i := table_entry b flags]> (phys s)) (current_cr3 st) (p ++ [i]) = Some b.
Proof.
  intros Hwf Hfree Hnot Hb (mem & -> & Hz & Hout & Hin) Hp Hpar Habs Hfl.
  destruct Hwf as [Ht Hs Hone Hram Htlb].
  assert (Hfr : forall q a j, path_ok q -> table_at (phys st) (current_cr3 st) q = Some a ->
    idx_ok j -> mem !! (a + 8 * j) = phys st !! (a + 8 * j)).
  { intros q a j Hq Ha Hj. apply Hout. intros Hx. apply (Hnot q Hq). rewrite Ha. f_equal.
    destruct (tw_frame _ _ _ Ht q a Hq Ha) as [[Hal _] _]. destruct Hb as [Hbl _].
    unfold aligned, idx_ok in *. apply Z.mod_divide in Hal as [k ->]; [|lia].
    apply Z.mod_divide in Hbl as [l ->]; [|lia]. lia. }
  destruct (tables_wf_outside _ mem _ _ (segs_of st) Ht Hfr) as (Ht1 & Hta & Hwk).
  { intros x. pose proof (free_count_nonneg (segs_of st) x). lia. }
  pose proof (path_ok_prefix _ _ Hp) as Hpp.
  assert (Habs1 : forall e, entry_at mem (current_cr3 st) p i = Some e -> has_flag e PAGE_PRESENT = false).
  { intros e He. apply Habs. rewrite <- He. symmetry. eapply entry_at_outside; try done; [apply Hp|].
    apply Hpp. }
  assert (Hpar1 : table_at mem (current_cr3 st) p = Some parent) by by rewrite Hta.
  assert (Hnot1 : forall q, path_ok q -> table_at mem (current_cr3 st) q <> Some b).
  { intros q Hq. rewrite Hta by done. by apply Hnot. }
  cbn [phys set_field] in *. split.
  2: { by apply (install_at mem (current_cr3 st) (segs_of st) p i parent b flags). }
  assert (Hw2 : forall q, Forall idx_ok q -> length q = 4%nat ->
    walk (<[parent + 8 * i := table_entry b flags]> mem) (current_cr3 st) q = walk (phys st) (current_cr3 st) q).
  { intros q Hq Hl. rewrite (install_walk mem (current_cr3 st) (segs_of st) p i parent b flags) by done.
    apply Hwk; [done|lia]. }
  constructor; try done.
  - constructor; try done.
    + by apply (install_wf mem (current_cr3 st) (segs_of st) p i parent b flags).
    + intros a Ha. destruct (Hram a Ha) as [Hfa Hba]. split; [done|]. intros j Hj.
      apply lookup_insert_is_Some'. right. by apply Hin, Hba.
    + by apply (tlb_kept st).
  - intros q j e Hq He. cbn [phys set_field].
    rewrite <- (entry_at_outside (phys st) mem (current_cr3 st) (segs_of st)) by (done || apply Hq || apply (path_ok_prefix _ _ Hq)).
    by apply (install_inner mem (current_cr3 st) (segs_of st) p i parent b flags).
  - intros q c Hq Hc.
    apply (install_keeps mem (current_cr3 st) (segs_of st) p i parent b flags); try done. by rewrite Hta.
Qed.

Lemma get_or_create_spec st p i parent flags :
  vmm_wf st -> path_ok (p ++ [i]) -> table_at (phys st) (current_cr3 st) p = Some parent ->
  (lower (p ++ [i]) -> has_flag flags PAGE_USER = true) ->
  exists r st', get_or_create_table (pa_to_va parent) i flags st = Some (r, st') /\ grows flags st st' /\
    (r = 0 /\ exhausted 0 (segs_of st') \/
     exists t, r = pa_to_va t /\ r <> 0 /\ table_at (phys st') (current_cr3 st') (p ++ [i]) = Some t).
Proof.
  intros Hwf Hp Hpar Hfl. pose proof (path_ok_prefix _ _ Hp) as Hpp.
  assert (Hi : idx_ok i) by apply (idxs_last p i), Hp.
  pose proof (vw_tables _ Hwf) as Ht. destruct (tw_frame _ _ _ Ht p parent Hpp Hpar) as [Hfr Hbk].
  destruct (Hbk i Hi) as [e He]. unfold get_or_create_table.
  rewrite (bind_run _ _ _ _ _ (load_entry st parent i e Hfr ltac:(apply Hi) He)).
  assert (Hnz : forall t, frame t -> pa_to_va t <> 0).
  { intros t [_ Hr]. rewrite pa_to_va_frame by done. unfold DIRECT_MAP. lia. }
  destruct (has_flag e PAGE_PRESENT) eqn:Hpr.
  - eexists _, st. split; [done|]. split; [by apply grows_refl|]. right.
    assert (Hta : table_at (phys st) (current_cr3 st) (p ++ [i]) = Some (Z.land e PAGE_ADDR_MASK)).
    { rewrite table_at_snoc. unfold entry_at. rewrite Hpar. cbn [mbind option_bind]. rewrite He.
      cbn [mbind option_bind]. by rewrite Hpr. }
    eexists. split; [done|]. split; [|done]. apply Hnz, (tw_frame _ _ _ Ht _ _ Hp Hta).
  - destruct (pmm_page_spec st Hwf) as (b & pm & Ha & Hseg & Hcnt & Hown & Hcase).
    rewrite (bind_run _ _ _ _ _ Ha). pose proof (grows_alloc flags st pm Hwf Hseg Hcnt Hown) as Hg.
    destruct Hcase as [[-> Hx]|(Hb0 & Hbo & Hbf)].
    { cbn [Z.eqb]. eexists 0, _. split; [done|]. split; [done|]. by left. }
    rewrite (proj2 (Z.eqb_neq b 0)) by done. set (st1 := st <| pmm := pm |>) in *.
    destruct (vw_ram _ Hwf b Hbo) as [Hbfr Hbbk].
    destruct (clear_page_spec st1 b Hbfr Hbbk) as (s & Hrun & Hcl). rewrite (bind_run _ _ _ _ _ Hrun).
    assert (Hpar1 : table_at (phys st1) (current_cr3 st1) p = Some parent) by done.
    destruct (grows_install st1 s p i parent b flags (gr_wf _ _ _ Hg)) as [Hg2 Hnew]; try done.
    { intros x Hx. by apply Hbf. }
    { intros q Hq Hqb. cbn in Hqb. pose proof (tw_used _ _ _ Ht q b b Hq Hqb ltac:(lia)).
      destruct (Hbf b ltac:(lia)). lia. }
    { intros e' He'. unfold entry_at in He'. rewrite Hpar1 in He'. cbn [mbind option_bind] in He'.
      cbn in He'. by simplify_eq. }
    assert (Hs : is_Some (phys s !! (parent + 8 * i))).
    { destruct Hcl as (mem & -> & _ & _ & Hin). by apply Hin, Hbk. }
    assert (Hi0 : 0 <= i) by apply Hi.
    rewrite (bind_run _ _ _ _ _ (store_entry s parent i _ Hfr Hi0 Hs)).
    rewrite (bind_run _ _ _ _ _ (load_entry _ parent i (table_entry b flags) Hfr Hi0 (lookup_insert_eq _ _ _))).
    destruct Hbfr as [Hal Hrg]. destruct (table_entry_spec b flags Hal ltac:(lia)) as (-> & _).
    eexists _, _. split; [done|]. split; [by eapply grows_trans|]. right. exists b.
    split; [done|]. split; [by apply Hnz|].
    assert (Hcr : current_cr3 (set_word s (parent + 8 * i) (table_entry b flags)) = current_cr3 st1).
    { by destruct Hcl as (mem & -> & _). }
    rewrite Hcr. exact Hnew.
Qed.

(** ** Mapping one page *)

(** The tables there are on a path admit the user. *)
Definition admits (mem : gmap Z Z) (cr3 : Z) (p : list Z) : Prop := forall p1 j p2 e, p = p1 ++ j :: p2 ->
  entry_at mem cr3 p1 j = Some e -> has_flag e PAGE_PRESENT = true -> has_flag e PAGE_USER = true.
Definition tables_admit (st : vmm_state) (va : Z) : Prop := admits (phys st) (current_cr3 st) (take 3 (va_idxs va)).

Lemma tables_path_ok va : path_ok (take 3 (va_idxs va)).
Proof. split; [apply Forall_take, va_idxs_ok | done]. Qed.

Lemma grows_admit flags st st' va : grows flags st st' -> has_flag flags PAGE_USER = true ->
  tables_admit st' va <-> tables_admit st va.
Proof.
  intros Hg Hfl. unfold tables_admit, admits. rewrite (proj1 (gr_space _ _ _ Hg)).
  assert (Hok : forall p1 j p2, take 3 (va_idxs va) = p1 ++ j :: p2 -> path_ok (p1 ++ [j])).
  { intros p1 j p2 E. apply path_ok_prefix with p2. rewrite <- app_assoc. cbn [app]. rewrite <- E. apply tables_path_ok. }
  split; intros H p1 j p2 e E He Hpr; destruct (gr_inner _ _ _ Hg p1 j e (Hok _ _ _ E) Hpr) as [Hold Hnew].
  - by apply (H p1 j p2 e E); [apply Hold|].
  - destruct (Hnew He) as [He'| ->]; [by apply (H p1 j p2 e E) | done].
Qed.

(** The walk of a path whose table exists. *)
Lemma walk_leaf mem cr3 segs p l pt e :
  tables_wf mem cr3 segs -> Forall idx_ok (p ++ [l]) -> length p = 3%nat ->
  table_at mem cr3 p = Some pt -> mem !! (pt + 8 * l) = Some e ->
  if has_flag e PAGE_PRESENT then
    exists es, walk mem cr3 (p ++ [l]) = Some (es ++ [e]) /\ length es = 3%nat /\
      allows PAGE_WRITE es = true /\ (lower p -> allows PAGE_USER es = true) /\
      (allows PAGE_USER es = true <-> admits mem cr3 p)
  else walk mem cr3 (p ++ [l]) = None.
Proof.
  intros Hwf Hok Hl Hpt He.
  assert (Hp : path_ok p) by (split; [by apply Forall_app in Hok as [? _] | lia]).
  destruct (walk_app mem cr3 p [l] pt Hpt) as (es & Hw & Hlen & Hes); [done| |].
  { intros p1 j p2 e'. by apply (inner_no_ps _ _ _ Hwf). }
  rewrite Hw. cbn [walk]. rewrite He. cbn [mbind option_bind].
  destruct (has_flag e PAGE_PRESENT); [|done].
  rewrite andb_false_r. cbn [mbind option_bind]. exists es. split; [done|]. split; [lia|].
  assert (Hin : forall x, In x es -> has_flag x PAGE_WRITE = true /\ (lower p -> has_flag x PAGE_USER = true)).
  { intros x Hx. apply list_elem_of_In, list_elem_of_lookup in Hx as [k Hk].
    destruct (Hes k x Hk) as (p1 & j & p2 & -> & _ & Hj & Hpr).
    assert (Hp1 : path_ok (p1 ++ [j])).
    { apply path_ok_prefix with p2. by rewrite <- app_assoc. }
    destruct (tw_inner _ _ _ Hwf p1 j x Hp1 Hj Hpr) as (_ & H1 & H2). split; [done|].
    intros Hlow. apply H2. by destruct p1. }
  unfold allows. split; [apply forallb_forall; intros x Hx; by apply Hin|].
  split; [intros Hlow; apply forallb_forall; intros x Hx; by apply Hin|]. rewrite forallb_forall. split.
  - intros Hall p1 j p2 e' -> He' Hpr. destruct (lookup_lt_is_Some_2 es (length p1)) as [x Hx].
    { rewrite Hlen, length_app. cbn. lia. }
    destruct (Hes _ _ Hx) as (q1 & i & q2 & Eq & Hl1 & Hi & Hpi). apply app_inj_1 in Eq as [-> [= -> ->]]; [|done].
    rewrite Hi in He'. injection He' as <-. apply Hall, list_elem_of_In. by eapply list_elem_of_lookup_2.
  - intros Hadm x Hx. apply list_elem_of_In, list_elem_of_lookup in Hx as [k Hk].
    destruct (Hes k x Hk) as (p1 & j & p2 & E & _ & Hj & Hpr). by apply (Hadm p1 j p2 x).
Qed.

(** Other leaf entries, by path and by address. *)
Definition walks_kept (st st' : vmm_state) (touched : list Z -> Prop) : Prop :=
  forall q, Forall idx_ok q -> length q = 4%nat -> ~ touched q ->
    walk (phys st') (current_cr3 st') q = walk (phys st) (current_cr3 st) q.

(** The state after a leaf entry is written and its page dropped. *)
Definition set_leaf (st : vmm_state) (p w va : Z) : vmm_state :=
  (set_word st p w) <| tlb := delete (page_of va) (tlb st) |>.

Lemma set_leaf_spec st p l pt w va :
  vmm_wf st -> canonical va -> va_idxs va = p ++ [l] ->
  table_at (phys st) (current_cr3 st) p = Some pt ->
  vmm_wf (set_leaf st (pt + 8 * l) w va) /\
  table_at (phys (set_leaf st (pt + 8 * l) w va)) (current_cr3 st) p = Some pt /\
  walks_kept st (set_leaf st (pt + 8 * l) w va) (fun q => q = va_idxs va).
Proof.
  intros Hwf Hcan Hva Hpt. pose proof (va_idxs_ok va) as Hok. rewrite Hva in Hok.
  assert (Hlen : length p = 3%nat).
  { apply (f_equal length) in Hva. rewrite length_app in Hva. cbn in Hva. lia. }
  assert (Hp : path_ok p) by (split; [by apply Forall_app in Hok as [? _] | lia]).
  assert (Hl : idx_ok l) by by apply idxs_last in Hok.
  destruct Hwf as [Ht Hs Hone Hram Htlb].
  pose proof (entry_at_set _ _ _ p l pt w Ht Hp Hl Hpt) as Hset.
  set (mem' := <[pt + 8 * l := w]> (phys st)) in *.
  assert (Hshort : forall q j, path_ok (q ++ [j]) -> entry_at mem' (current_cr3 st) q j = entry_at (phys st) (current_cr3 st) q j).
  { intros q j [Hq Hql]. rewrite length_app in Hql. cbn in Hql. apply Hset; [done|lia|].
    intros Hpre%prefix_length. rewrite !length_app in Hpre. cbn in Hpre. lia. }
  assert (Hta : forall q, path_ok q -> table_at mem' (current_cr3 st) q = table_at (phys st) (current_cr3 st) q).
  { intros q Hq. apply table_at_ext. intros p1 j r ->. apply Hshort. apply path_ok_prefix with r.
    by rewrite <- app_assoc. }
  assert (Hbk : forall a, backed (phys st) a -> backed mem' a).
  { intros a Ha j Hj. apply lookup_insert_is_Some'. right. by apply Ha. }
  assert (Hw : walks_kept st (set_leaf st (pt + 8 * l) w va) (fun q => q = va_idxs va)).
  { intros q Hq Hql Hne. apply walk_ext. intros p1 j r ->. apply Hset; [by eapply idxs_step| |].
    - rewrite length_app in Hql. cbn in Hql. lia.
    - intros [s E]. apply Hne. rewrite Hva. apply (f_equal (fun x => x ++ r)) in E as E2.
      rewrite <- app_assoc in E2. cbn in E2. rewrite E2. apply (f_equal length) in E2.
      rewrite Hql, !length_app in E2. cbn in E2. destruct s; [|cbn in E2; lia].
      destruct r; [by rewrite !app_nil_r|cbn in E2; lia]. }
  split; [|split; [by rewrite <- Hpt; apply (Hta p Hp) | done]].
  constructor; try done.
  - constructor.
    + intros q a Hq Ha. cbn in Ha. fold mem' in Ha. rewrite Hta in Ha by done.
      destruct (tw_frame _ _ _ Ht q a Hq Ha). split; [done|]. by apply Hbk.
    + intros q a x Hq Ha. cbn in Ha. fold mem' in Ha. rewrite Hta in Ha by done. by apply (tw_used _ _ _ Ht q).
    + intros q r a Hq Hr Ha Hb. cbn in Ha, Hb. fold mem' in Ha, Hb. rewrite Hta in Ha, Hb by done.
      by apply (tw_inj _ _ _ Ht q r a).
    + intros q j e Hq He. cbn in He. fold mem' in He. rewrite Hshort in He by done. by apply (tw_inner _ _ _ Ht).
  - intros a Ha. destruct (Hram a Ha). split; [done|]. by apply Hbk.
  - intros va' e Hc' He. cbn in He. apply lookup_delete_Some in He as [Hne He].
    destruct (Htlb va' e Hc' He) as [es Hes]. exists es. unfold walk_va in *. rewrite <- Hes.
    apply Hw; [apply va_idxs_ok | done |]. intros E. apply Hne. by apply va_idxs_inj.
Qed.

Definition leaf_entry (pa flags : Z) : Z := Z.lor (Z.lor pa flags) PAGE_PRESENT.

Lemma leaf_entry_present pa flags : has_flag (leaf_entry pa flags) PAGE_PRESENT = true.
Proof. unfold leaf_entry. rewrite has_flag_lor. by rewrite orb_true_r. Qed.

(** The flags are those of a user mapping in the user's half. *)
Definition flags_fit (va flags : Z) : Prop := va < USER_END -> has_flag flags PAGE_USER = true.

Lemma lower_user va : canonical va -> lower (va_idxs va) <-> va < USER_END.
Proof.
  intros Hc. rewrite va_idxs_eq. cbn [lower]. pose proof (page_of_range va) as Hr.
  unfold canonical, DIRECT_MAP, USER_END in *. specialize (Hr ltac:(lia)).
  assert (Hx : 0 <= page_of va / 2 ^ 27 < 2 ^ 8 /\ va < 0x800000000000 \/
    2 ^ 25 - 2 ^ 8 <= page_of va / 2 ^ 27 < 2 ^ 25 /\ 0xFFFF800000000000 <= va).
  { destruct Hc as [Hc|Hc]; [left|right]; (split; [|lia]); split;
      first [apply Z.div_le_lower_bound; lia | apply Z.div_lt_upper_bound; lia]. }
  generalize dependent (page_of va / 2 ^ 27). intros x Hx.
  pose proof (Z.div_mod x 512 ltac:(lia)). pose proof (Z.mod_pos_bound x 512 ltac:(lia)).
  change (2 ^ 25) with 33554432 in Hx. change (2 ^ 8) with 256 in Hx. lia.
Qed.

(** A leaf entry is no table's. *)
Lemma set_leaf_admit st p l pt w va va' :
  vmm_wf st -> va_idxs va = p ++ [l] -> table_at (phys st) (current_cr3 st) p = Some pt ->
  tables_admit (set_leaf st (pt + 8 * l) w va) va' <-> tables_admit st va'.
Proof.
  intros Hwf Hva Hpt. pose proof (va_idxs_ok va) as Hok. rewrite Hva in Hok.
  assert (Hlen : length p = 3%nat) by (apply (f_equal length) in Hva; rewrite length_app in Hva; cbn in Hva; lia).
  unfold tables_admit, admits, set_leaf. cbn [current_cr3 phys set_word set_field].
  assert (E : forall p1 j p2, take 3 (va_idxs va') = p1 ++ j :: p2 ->
    entry_at (<[pt + 8 * l := w]> (phys st)) (current_cr3 st) p1 j = entry_at (phys st) (current_cr3 st) p1 j).
  { intros p1 j p2 E. pose proof (tables_path_ok va') as [Hf Hl]. rewrite E in Hf, Hl. rewrite length_app in Hl. cbn in Hl.
    apply (entry_at_set _ _ _ p l pt w (vw_tables _ Hwf)); [split; [by apply Forall_app in Hok as [? _] | lia] | by apply idxs_last in Hok | done | by apply idxs_step in Hf | lia |].
    intros Hpre%prefix_length. rewrite !length_app in Hpre. cbn in Hpre. lia. }
  split; intros H p1 j p2 e Hp He; apply (H p1 j p2 e Hp); by rewrite (E p1 j p2) in *.
Qed.

(** [va] is mapped to [pa], behind tables that permit what the flags ask for,
    as far as those of [st0] let them. *)
Definition mapped (st0 st : vmm_state) (va pa flags : Z) : Prop := exists es,
  walk_va st va = Some (es ++ [leaf_entry pa flags]) /\ length es = 3%nat /\
  allows PAGE_WRITE es = true /\ (va < USER_END -> allows PAGE_USER es = true) /\
  (has_flag flags PAGE_USER = true -> allows PAGE_USER es = true <-> tables_admit st0 va).

(** One turn of the loop of [mmap]: the page is mapped, or no memory is left;
    no other walk changes. *)
Lemma map_page_spec st va pa flags :
  vmm_wf st -> canonical va -> flags_fit va flags ->
  exists ok st', map_page (pa_to_va (current_cr3 st)) va pa flags st = Some (ok, st') /\
    vmm_wf st' /\ same_space st st' /\ walks_kept st st' (fun q => ok = true /\ q = va_idxs va) /\
    (has_flag flags PAGE_USER = true -> forall va', tables_admit st' va' <-> tables_admit st va') /\
    if (ok : bool) then mapped st st' va pa flags else exhausted 0 (segs_of st').
Proof.
  intros Hwf Hcan Hfit. pose proof (va_idxs_ok va) as Hok.
  assert (Hlow : forall p q, va_idxs va = p ++ q -> lower p -> has_flag flags PAGE_USER = true).
  { intros p q E Hp. apply Hfit, lower_user; [done|]. rewrite E. by destruct p. }
  set (i4 := PML4_IDX va) in *. set (i3 := PDPT_IDX va). set (i2 := PD_IDX va). set (i1 := PT_IDX va).
  assert (Hva : va_idxs va = [i4; i3; i2; i1]) by done. rewrite Hva in Hok.
  assert (Hpre : forall p q, [i4; i3; i2; i1] = p ++ q -> (length p <= 3)%nat -> path_ok p).
  { intros p q E Hp. split; [|done]. rewrite E in Hok. by apply Forall_app in Hok as [? _]. }
  assert (Hfail : forall s, grows flags st s -> exhausted 0 (segs_of s) ->
    exists ok st', Some (false, s) = Some (ok, st') /\
    vmm_wf st' /\ same_space st st' /\ walks_kept st st' (fun q => ok = true /\ q = va_idxs va) /\
    (has_flag flags PAGE_USER = true -> forall va', tables_admit st' va' <-> tables_admit st va') /\
    if (ok : bool) then mapped st st' va pa flags else exhausted 0 (segs_of st')).
  { intros s Hg Hx. exists false, s. split_and!; try done; [apply Hg..| |].
    - intros q Hq Hl _. by apply (gr_walk _ _ _ Hg).
    - intros Hfl va'. by apply (grows_admit flags). }
  unfold map_page. fold i4 i3 i2 i1.
  destruct (get_or_create_spec st [] i4 (current_cr3 st) flags Hwf) as (r1 & st1 & Hr1 & Hg1 & Hc1);
    [apply (Hpre [i4] [i3; i2; i1]); [done | cbn; lia] | done | by apply (Hlow [i4] [i3; i2; i1]) |].
  rewrite (bind_run _ _ _ _ _ Hr1). destruct Hc1 as [[-> Hx]|(t3 & -> & Hnz & Ht3)]; [by apply Hfail|].
  rewrite (proj2 (Z.eqb_neq _ 0)) by done.
  destruct (get_or_create_spec st1 [i4] i3 t3 flags (gr_wf _ _ _ Hg1)) as (r2 & st2 & Hr2 & Hg2 & Hc2);
    [apply (Hpre [i4; i3] [i2; i1]); [done | cbn; lia] | done | by apply (Hlow [i4; i3] [i2; i1]) |].
  rewrite (bind_run _ _ _ _ _ Hr2). pose proof (grows_trans _ _ _ _ Hg1 Hg2) as Hg12.
  destruct Hc2 as [[-> Hx]|(t2 & -> & Hnz2 & Ht2)]; [by apply Hfail|].
  rewrite (proj2 (Z.eqb_neq _ 0)) by done.
  destruct (get_or_create_spec st2 [i4; i3] i2 t2 flags (gr_wf _ _ _ Hg2)) as (r3 & st3 & Hr3 & Hg3 & Hc3);
    [apply (Hpre [i4; i3; i2] [i1]); [done | cbn; lia] | done | by apply (Hlow [i4; i3; i2] [i1]) |].
  rewrite (bind_run _ _ _ _ _ Hr3). pose proof (grows_trans _ _ _ _ Hg12 Hg3) as Hg.
  destruct Hc3 as [[-> Hx]|(t1 & -> & Hnz3 & Ht1)]; [by apply Hfail|].
  rewrite (proj2 (Z.eqb_neq _ 0)) by done.
  pose proof (gr_wf _ _ _ Hg) as Hwf3. cbn [app] in Ht1.
  assert (Hp : path_ok [i4; i3; i2]) by (apply (Hpre _ [i1]); [done | cbn; lia]).
  destruct (tw_frame _ _ _ (vw_tables _ Hwf3) _ _ Hp Ht1) as [Hfr Hbk].
  assert (Hi1 : idx_ok i1) by by apply (idxs_last [i4; i3; i2] i1).
  rewrite (bind_run _ _ _ _ _ (store_entry st3 t1 i1 _ Hfr (proj1 Hi1) (Hbk i1 Hi1))).
  destruct (set_leaf_spec st3 [i4; i3; i2] i1 t1 (leaf_entry pa flags) va Hwf3 Hcan Hva Ht1)
    as (Hwf4 & Ht4 & Hk). fold (leaf_entry pa flags).
  set (st4 := set_leaf st3 (t1 + 8 * i1) (leaf_entry pa flags) va) in *.
  exists true, st4. split; [done|]. split; [done|]. split; [apply Hg|]. split.
  { intros q Hq Hl Hne. rewrite (Hk q Hq Hl) by (intros ->; by apply Hne). by apply (gr_walk _ _ _ Hg). }
  assert (Hadm : has_flag flags PAGE_USER = true -> forall va', tables_admit st4 va' <-> tables_admit st va').
  { intros Hfl va'. etransitivity; [by apply set_leaf_admit with (p := [i4; i3; i2]) | by apply (grows_admit flags)]. }
  split; [done|].
  pose proof (walk_leaf _ _ _ [i4; i3; i2] i1 t1 (leaf_entry pa flags) (vw_tables _ Hwf4) Hok eq_refl Ht4
    (lookup_insert_eq _ _ _)) as Hlf. rewrite leaf_entry_present in Hlf.
  destruct Hlf as (es & Hw & Hl3 & Hwr & Hus & Had). exists es. split_and!; [exact Hw | done..| |].
  - intros Hu. apply Hus. by apply lower_user in Hu; [rewrite Hva in Hu|].
  - intros Hfl. rewrite <- (Hadm Hfl va). exact Had.
Qed.

(** ** Ranges *)

(** [n] pages from [va], in one half of the address space. *)
Definition va_range (va n : Z) : Prop :=
  0 <= va /\ va + 4096 * n <= USER_END \/ DIRECT_MAP <= va /\ va + 4096 * n <= 2 ^ 64.

Lemma va_range_canonical va n k : va_range va n -> 0 <= k < 4096 * n -> canonical (va + k).
Proof. unfold va_range, canonical. lia. Qed.

Lemma page_of_add va k : page_of (va + 4096 * k) = page_of va + k.
Proof.
  unfold page_of. rewrite !Z.shiftr_div_pow2 by lia. change (2 ^ 12) with 4096.
  rewrite (Z.mul_comm 4096 k). by rewrite Z.div_add by lia.
Qed.

Lemma va_idxs_distinct va n j k :
  va_range va n -> 0 <= j < n -> 0 <= k < n -> va_idxs (va + 4096 * j) = va_idxs (va + 4096 * k) -> j = k.
Proof.
  intros Hr Hj Hk H. apply va_idxs_inj in H; [|apply va_range_canonical with n; (done || lia)..].
  rewrite !page_of_add in H. lia.
Qed.

Definition range_idxs (va n : Z) (q : list Z) : Prop :=
  exists k, 0 <= k < n /\ q = va_idxs (va + 4096 * k).

Lemma mapped_kept st0 st st' va pa flags touched :
  walks_kept st st' touched -> ~ touched (va_idxs va) -> mapped st0 st va pa flags -> mapped st0 st' va pa flags.
Proof.
  intros Hk Hn (es & Hw & Hrest). exists es. split; [|done]. unfold walk_va in *.
  rewrite Hk; [done | apply va_idxs_ok | done | done].
Qed.

Lemma mapped_since st0 st1 st va pa flags :
  (has_flag flags PAGE_USER = true -> forall va', tables_admit st1 va' <-> tables_admit st0 va') ->
  mapped st1 st va pa flags -> mapped st0 st va pa flags.
Proof.
  intros H (es & Hw & Hl & Hwr & Hlo & Had). exists es. split_and!; try done. intros Hfl. by rewrite <- (H Hfl), (Had Hfl).
Qed.

Lemma walks_kept_trans st1 st2 st3 (t1 t2 t3 : list Z -> Prop) :
  walks_kept st1 st2 t1 -> walks_kept st2 st3 t2 -> (forall q, t1 q \/ t2 q -> t3 q) -> walks_kept st1 st3 t3.
Proof.
  intros H1 H2 Hsub q Hq Hl Hn. rewrite H2, H1; try done; intros Hx; apply Hn, Hsub; [by left|by right].
Qed.

Lemma same_space_trans st1 st2 st3 : same_space st1 st2 -> same_space st2 st3 -> same_space st1 st3.
Proof. intros [? ?] [? ?]. split; congruence. Qed.

Lemma mmap_loop_spec n st va pa flags :
  vmm_wf st -> va_range va (Z.of_nat n) -> 0 <= pa -> pa + 4096 * Z.of_nat n <= 2 ^ 64 ->
  (0 < Z.of_nat n -> flags_fit va flags) ->
  exists ok st', mmap_loop n (pa_to_va (current_cr3 st)) va pa flags st = Some (ok, st') /\
    vmm_wf st' /\ same_space st st' /\ walks_kept st st' (range_idxs va (Z.of_nat n)) /\
    if (ok : bool)
    then forall k, 0 <= k < Z.of_nat n -> mapped st st' (va + 4096 * k) (pa + 4096 * k) flags
    else exhausted 0 (segs_of st').
Proof.
  revert st va pa. induction n as [|n IH]; intros st va pa Hwf Hr Hpa0 Hpa Hfit.
  { exists true, st. split_and!; try done. intros k Hk. lia. }
  assert (Hcan : canonical va).
  { replace va with (va + 0) by lia. eapply va_range_canonical; [exact Hr|lia]. }
  cbn [mmap_loop]. destruct (map_page_spec st va pa flags Hwf Hcan ltac:(apply Hfit; lia))
    as (ok & st1 & Hrun & Hwf1 & Hs1 & Hk1 & Hadm & Hres). rewrite (bind_run _ _ _ _ _ Hrun).
  destruct ok.
  2: { exists false, st1. split_and!; try done. intros q Hq Hl _. apply Hk1; [done..|]. by intros [? _]. }
  assert (Hsmall : forall x, 0 <= x -> x + 4096 * Z.of_nat (S n) <= 2 ^ 64 -> (n = 0%nat \/ u64 (x + PAGE_SIZE) = x + 4096)).
  { intros x Hx0 Hx. destruct n; [by left|right]. apply u64_small. unfold PAGE_SIZE. lia. }
  assert (Hva0 : 0 <= va /\ va + 4096 * Z.of_nat (S n) <= 2 ^ 64).
  { unfold va_range, USER_END, DIRECT_MAP in Hr. lia. }
  destruct (decide (n = 0%nat)) as [->|Hn].
  { cbn [mmap_loop]. exists true, st1. split_and!; try done.
    - intros q Hq Hl Hne. apply Hk1; try done. intros [_ ->]. apply Hne. exists 0. split; [lia|].
      f_equal. lia.
    - intros k Hk. assert (k = 0) as -> by lia. by rewrite !Z.mul_0_r, !Z.add_0_r. }
  destruct (Hsmall va) as [?| ->]; [lia|lia|done|]. destruct (Hsmall pa) as [?| ->]; [lia|lia|done|].
  destruct Hs1 as [Hc1 Hk1']. rewrite <- Hc1.
  destruct (IH st1 (va + 4096) (pa + 4096) Hwf1) as (ok & st2 & Hrun2 & Hwf2 & Hs2 & Hk2 & Hres2).
  { unfold va_range in *. lia. } { lia. } { lia. }
  { intros _ Hu. apply Hfit; [lia|]. unfold USER_END in *. lia. }
  rewrite Hrun2. exists ok, st2. split_and!; try done.
  { by apply (same_space_trans st st1 st2). }
  { eapply walks_kept_trans; [exact Hk1|exact Hk2|]. intros q [[_ ->]|(k & Hk & ->)].
    - exists 0. split; [lia|]. f_equal. lia.
    - exists (k + 1). split; [lia|]. f_equal. lia. }
  destruct ok; [|done]. intros k Hk. destruct (decide (k = 0)) as [->|Hk0].
  - rewrite !Z.mul_0_r, !Z.add_0_r. eapply mapped_kept; [exact Hk2| |exact Hres].
    intros (j & Hj & E). replace (va + 4096 + 4096 * j) with (va + 4096 * (j + 1)) in E by lia.
    replace va with (va + 4096 * 0) in E at 1 by lia.
    eapply va_idxs_distinct in E; [|exact Hr|lia..]. lia.
  - specialize (Hres2 (k - 1) ltac:(lia)). apply (mapped_since st st1); [done|].
    by replace (va + 4096 * k) with (va + 4096 + 4096 * (k - 1)) by lia;
      replace (pa + 4096 * k) with (pa + 4096 + 4096 * (k - 1)) by lia.
Qed.

(** ** Translation *)

Lemma lor_page a b : aligned a -> 0 <= a -> 0 <= b < 4096 -> Z.lor a b = a + b.
Proof.
  intros Ha Ha0 Hb. assert (Z.land a b = 0) as Hd.
  { apply Z_bits_ext; intros i Hi; rewrite Z.land_spec, Z.bits_0.
    destruct (Z.ltb_spec i 12); [by rewrite aligned_testbit by (done || lia)|].
    rewrite (small_testbit 12 b) by lia. apply andb_false_r. }
  by rewrite Z.add_nocarry_lxor, Z.lxor_lor.
Qed.

Lemma aligned_shift a : aligned a -> Z.shiftl (Z.shiftr a 12) 12 = a.
Proof.
  intros Ha. rewrite Z.shiftl_mul_pow2, Z.shiftr_div_pow2 by lia. change (2 ^ 12) with 4096.
  pose proof (Z.div_mod a 4096 ltac:(lia)). unfold aligned in Ha. lia.
Qed.

(** A page mapped to [pa] is where its addresses lead. *)
Lemma mapped_translate st0 st va pa flags k :
  mapped st0 st va pa flags -> aligned va -> aligned pa -> 0 <= va -> 0 <= pa < 2 ^ 52 ->
  Z.land flags PAGE_ADDR_MASK = 0 -> 0 <= k < 4096 ->
  translate st (va + k) = Some (pa + k) /\
  exists es, walk_va st (va + k) = Some es /\
    allows PAGE_WRITE es = has_flag flags PAGE_WRITE /\
    (va < USER_END -> allows PAGE_USER es = has_flag flags PAGE_USER) /\
    (allows PAGE_USER es = true <-> has_flag flags PAGE_USER = true /\ tables_admit st0 (va + k)).
Proof.
  intros (es & Hw & Hl & Hwr & Hus & Had) Hva Hpa Hva0 Hpa0 Hfl Hk.
  assert (Hidx : va_idxs (va + k) = va_idxs va).
  { apply va_idxs_page. unfold page_of. rewrite !Z.shiftr_div_pow2 by lia. change (2 ^ 12) with 4096.
    apply Z.mod_divide in Hva as [q ->]; [|lia]. rewrite Z.div_mul by lia.
    rewrite Z.add_comm, Z.div_add by lia. by rewrite Z.div_small by lia. }
  assert (Hw' : walk_va st (va + k) = Some (es ++ [leaf_entry pa flags])).
  { unfold walk_va. by rewrite Hidx. }
  split.
  - unfold translate. rewrite Hw'. cbn [mbind option_bind]. rewrite last_snoc. cbn [mbind option_bind].
    rewrite length_app, Hl. change (page_bits (3 + length [leaf_entry pa flags])) with 12.
    unfold leaf_entry. rewrite <- Z.lor_assoc, mask_entry; [|done|lia|].
    2: { rewrite Z.land_lor_distr_l, Hfl. done. }
    rewrite aligned_shift by done. f_equal. change (2 ^ 12) with 4096.
    apply Z.mod_divide in Hva as [q ->]; [|lia].
    rewrite Z.add_comm, Z.mod_add by lia. rewrite Z.mod_small by lia. apply lor_page; [done|lia..].
  - eexists. split; [exact Hw'|]. unfold allows in *. rewrite !forallb_app. cbn [forallb].
    unfold leaf_entry. rewrite !has_flag_lor, !andb_true_r.
    assert (Hw0 : has_flag pa PAGE_WRITE = false) by (apply (has_flag_low pa 1); (done || lia)).
    assert (Hu0 : has_flag pa PAGE_USER = false) by (apply (has_flag_low pa 2); (done || lia)).
    rewrite Hw0, Hu0.
    change (has_flag PAGE_PRESENT PAGE_WRITE) with false. change (has_flag PAGE_PRESENT PAGE_USER) with false.
    rewrite !orb_false_r. cbn [orb]. split; [by rewrite Hwr|]. split; [intros Hu; by rewrite Hus|].
    unfold tables_admit in *. rewrite Hidx, andb_true_iff.
    destruct (has_flag flags PAGE_USER); [rewrite Had by done | ]; naive_solver.
Qed.

Lemma mmap_spec (st : vmm_state) (paddr vaddr n flags : Z) :
  vmm_wf st -> va_range vaddr n -> 0 < vaddr -> 0 < n -> aligned vaddr -> aligned paddr ->
  0 <= paddr -> paddr + 4096 * n <= 2 ^ 52 -> Z.land flags PAGE_ADDR_MASK = 0 ->
  exists r st', mmap paddr vaddr n flags st = Some (r, st') /\ vmm_wf st' /\ same_space st st' /\
    (r = vaddr /\ (forall k, 0 <= k < 4096 * n ->
       translate st' (vaddr + k) = Some (paddr + k) /\
       exists es, walk_va st' (vaddr + k) = Some es /\
         allows PAGE_WRITE es = has_flag flags PAGE_WRITE /\
         (allows PAGE_USER es = true <->
          vaddr < USER_END \/ has_flag flags PAGE_USER = true /\ tables_admit st (vaddr + k))) \/
     r = 0 /\ exhausted 0 (segs_of st')) /\
    (forall va, canonical va -> ~ (vaddr <= va < vaddr + 4096 * n) ->
       walk_va st' va = walk_va st va).
Proof.
  intros Hwf Hr Hv0 Hn Hva Hpa Hp0 Hp1 Hfl. unfold mmap.
  set (fl := if vaddr <? USER_END then Z.lor flags PAGE_USER else flags).
  assert (Hfit : flags_fit vaddr fl).
  { intros Hu. unfold fl. rewrite (proj2 (Z.ltb_lt _ _)) by done. rewrite has_flag_lor. apply orb_true_r. }
  assert (Hmask : Z.land fl PAGE_ADDR_MASK = 0 /\ has_flag fl PAGE_WRITE = has_flag flags PAGE_WRITE).
  { unfold fl. destruct (vaddr <? USER_END); [|done]. rewrite Z.land_lor_distr_l, Hfl, has_flag_lor.
    by rewrite orb_false_r. }
  destruct Hmask as [Hm Hw]. cbv zeta. fold fl.
  destruct (mmap_loop_spec (Z.to_nat n) st vaddr paddr fl Hwf) as (ok & st' & Hrun & Hwf' & Hs & Hk & Hres);
    [by rewrite Z2Nat.id by lia | done | rewrite Z2Nat.id by lia; lia | done |].
  rewrite Z2Nat.id in * by lia. mstep. rewrite Hrun. eexists _, st'. split; [done|].
  split; [done|]. split; [done|]. split.
  - destruct ok; [left|by right]. split; [done|]. intros k Hk4. 
    pose proof (Z.div_mod k 4096 ltac:(lia)) as Hd. pose proof (Z.mod_pos_bound k 4096 ltac:(lia)) as Hmd.
    assert (0 <= k / 4096 < n) as Hq by (split; [apply Z.div_pos | apply Z.div_lt_upper_bound]; lia).
    specialize (Hres _ Hq). set (q := k / 4096) in *.
    assert (Hal : forall x, aligned x -> aligned (x + 4096 * q)).
    { intros x Hx. unfold aligned. rewrite (Z.mul_comm 4096), Z.mod_add by lia. done. }
    apply (mapped_translate _ _ _ _ _ (k mod 4096)) in Hres; [|by apply Hal|by apply Hal|lia|lia|done|done].
    replace (vaddr + 4096 * q + k mod 4096) with (vaddr + k) in Hres by lia.
    replace (paddr + 4096 * q + k mod 4096) with (paddr + k) in Hres by lia.
    destruct Hres as (Ht & es & Hes & Hwr & Hus & Had). split; [done|]. exists es. split; [done|].
    split; [by rewrite Hwr|]. destruct (decide (vaddr < USER_END)) as [Hu|Hu].
    + rewrite Hus by (unfold va_range, USER_END, DIRECT_MAP in *; lia). split; [by left|]. intros _. by apply Hfit.
    + rewrite Had. unfold fl. rewrite (proj2 (Z.ltb_ge _ _)) by lia. naive_solver.
  - intros va Hc Hout. unfold walk_va. apply Hk; [apply va_idxs_ok | done |].
    intros (k & Hkn & E). apply va_idxs_inj in E; [|done|apply va_range_canonical with n; (done || lia)].
    rewrite page_of_add in E. pose proof (page_of_range va) as Hp. pose proof (page_of_range vaddr) as Hpv.
    assert (0 <= va < 2 ^ 64 /\ 0 <= vaddr < 2 ^ 64) as [H1 H2].
    { unfold canonical, va_range, USER_END, DIRECT_MAP in *. lia. }
    specialize (Hp H1). specialize (Hpv H2). apply Hout. unfold aligned in Hva.
    apply Z.mod_divide in Hva as [v ->]; [|lia]. lia.
Qed.

(** C1: over well-formed tables, [mmap] of [n] aligned pages in one half of
    the address space, to physical memory below 2^52 and with flags outside
    of the address bits, returns.  Either it returns the address, and every byte
    of the range then translates to its physical byte, writable exactly when
    that was asked for; the user may access it always in the lower half, and
    in the upper half exactly when that was asked for and the tables that
    were already on the way to the byte admit the user.  Or it returns a null
    pointer, and the page allocator has no page left.  In both cases the
    tables stay well formed (a tree of frames the allocator does
    not own, and no stale cached translation), and every address outside
    the range is translated as before. *)
Theorem mmap_maps (st : vmm_state) (paddr vaddr n flags : Z) :
  vmm_wf st -> va_range vaddr n -> 0 < vaddr -> 0 < n -> aligned vaddr -> aligned paddr ->
  0 <= paddr -> paddr + 4096 * n <= 2 ^ 52 -> Z.land flags PAGE_ADDR_MASK = 0 ->
  exists r st', mmap paddr vaddr n flags st = Some (r, st') /\ vmm_wf st' /\ same_space st st' /\
    (r = vaddr /\ (forall k, 0 <= k < 4096 * n ->
       translate st' (vaddr + k) = Some (paddr + k) /\
       exists es, walk_va st' (vaddr + k) = Some es /\
         allows PAGE_WRITE es = has_flag flags PAGE_WRITE /\
         (allows PAGE_USER es = true <->
          vaddr < USER_END \/ has_flag flags PAGE_USER = true /\ tables_admit st (vaddr + k))) \/
     r = 0 /\ exhausted 0 (segs_of st')) /\
    (forall va, canonical va -> ~ (vaddr <= va < vaddr + 4096 * n) ->
       walk_va st' va = walk_va st va).
Proof. exact (mmap_spec st paddr vaddr n flags). Qed.

(** ** Unmapping *)

Lemma present_table_spec st p i parent :
  vmm_wf st -> path_ok p -> idx_ok i -> table_at (phys st) (current_cr3 st) p = Some parent ->
  present_table (pa_to_va parent + 8 * i) st
  = Some (pa_to_va <$> table_at (phys st) (current_cr3 st) (p ++ [i]), st).
Proof.
  intros Hwf Hp Hi Hpar. destruct (tw_frame _ _ _ (vw_tables _ Hwf) p parent Hp Hpar) as [Hfr Hbk].
  destruct (Hbk i Hi) as [e He]. unfold present_table.
  rewrite (bind_run _ _ _ _ _ (load_entry st parent i e Hfr (proj1 Hi) He)).
  rewrite table_at_snoc. unfold entry_at. rewrite Hpar. cbn [mbind option_bind]. rewrite He.
  cbn [mbind option_bind]. by destruct (has_flag e PAGE_PRESENT).
Qed.

Lemma walk_none mem cr3 segs p q :
  tables_wf mem cr3 segs -> path_ok p -> table_at mem cr3 p = None -> q <> [] -> walk mem cr3 (p ++ q) = None.
Proof.
  intros Hwf. revert q. induction p as [|j p IH] using rev_ind; intros q Hp Hn Hq; [done|].
  pose proof (path_ok_prefix _ _ Hp) as Hpp. rewrite <- app_assoc.
  destruct (table_at mem cr3 p) as [a|] eqn:Ha; [|by apply IH].
  destruct (walk_app mem cr3 p ([j] ++ q) a Ha) as (es & Hw & _); [done| |].
  { intros p1 j' p2 e. by apply (inner_no_ps _ _ _ Hwf). }
  rewrite Hw. cbn [app walk]. rewrite table_at_snoc in Hn. unfold entry_at in Hn. rewrite Ha in Hn.
  cbn [mbind option_bind] in Hn. destruct (mem !! (a + 8 * j)) as [e|]; [|done]. cbn [mbind option_bind] in *.
  by destruct (has_flag e PAGE_PRESENT).
Qed.

Lemma unmap_page_spec st va :
  vmm_wf st -> canonical va ->
  exists st', unmap_page va st = Some (tt, st') /\ vmm_wf st' /\ same_space st st' /\ pmm st' = pmm st /\
    walks_kept st st' (fun q => q = va_idxs va) /\ walk_va st' va = None.
Proof.
  intros Hwf Hcan. pose proof (va_idxs_ok va) as Hok.
  set (i4 := PML4_IDX va) in *. set (i3 := PDPT_IDX va) in *. set (i2 := PD_IDX va) in *. set (i1 := PT_IDX va) in *.
  assert (Hva : va_idxs va = [i4; i3; i2; i1]) by done. rewrite Hva in Hok.
  assert (Hpre : forall p q, [i4; i3; i2; i1] = p ++ q -> (length p <= 3)%nat -> path_ok p).
  { intros p q E Hp. split; [|done]. rewrite E in Hok. by apply Forall_app in Hok as [? _]. }
  assert (Hstop : forall p q, [i4; i3; i2; i1] = p ++ q -> path_ok p -> q <> [] ->
    table_at (phys st) (current_cr3 st) p = None ->
    exists st', Some (tt, st) = Some (tt, st') /\ vmm_wf st' /\ same_space st st' /\ pmm st' = pmm st /\
    walks_kept st st' (fun q => q = va_idxs va) /\ walk_va st' va = None).
  { intros p q E Hp Hq Hn. exists st. split_and!; try done. unfold walk_va. rewrite Hva, E.
    by apply (walk_none _ _ _ _ _ (vw_tables _ Hwf)). }
  assert (Hidx : idx_ok i4 /\ idx_ok i3 /\ idx_ok i2 /\ idx_ok i1).
  { rewrite !Forall_cons in Hok. by destruct Hok as (? & ? & ? & ? & _). }
  destruct Hidx as (H4 & H3 & H2 & H1). unfold unmap_page. fold i4 i3 i2 i1.
  rewrite (bind_run (gets current_cr3) _ st st (current_cr3 st)) by done.
  assert (P0 : path_ok []) by (split; [constructor | cbn; lia]).
  assert (P1 : path_ok [i4]) by (apply (Hpre [i4] [i3; i2; i1]); [done | cbn; lia]).
  assert (P2 : path_ok [i4; i3]) by (apply (Hpre [i4; i3] [i2; i1]); [done | cbn; lia]).
  assert (P3 : path_ok [i4; i3; i2]) by (apply (Hpre [i4; i3; i2] [i1]); [done | cbn; lia]).
  rewrite (bind_run _ _ _ _ _ (present_table_spec st [] i4 (current_cr3 st) Hwf P0 H4 eq_refl)). cbn [app].
  destruct (table_at (phys st) (current_cr3 st) [i4]) as [t3|] eqn:Ht3; cbn [fmap option_fmap option_map];
    [|by apply (Hstop [i4] [i3; i2; i1])].
  rewrite (bind_run _ _ _ _ _ (present_table_spec st [i4] i3 t3 Hwf P1 H3 Ht3)). cbn [app].
  destruct (table_at (phys st) (current_cr3 st) [i4; i3]) as [t2|] eqn:Ht2; cbn [fmap option_fmap option_map];
    [|by apply (Hstop [i4; i3] [i2; i1])].
  rewrite (bind_run _ _ _ _ _ (present_table_spec st [i4; i3] i2 t2 Hwf P2 H2 Ht2)). cbn [app].
  destruct (table_at (phys st) (current_cr3 st) [i4; i3; i2]) as [t1|] eqn:Ht1; cbn [fmap option_fmap option_map];
    [|by apply (Hstop [i4; i3; i2] [i1])].
  destruct (tw_frame _ _ _ (vw_tables _ Hwf) _ _ P3 Ht1) as [Hfr Hbk].
  rewrite (bind_run _ _ _ _ _ (store_entry st t1 i1 0 Hfr (proj1 H1) (Hbk i1 H1))).
  destruct (set_leaf_spec st [i4; i3; i2] i1 t1 0 va Hwf Hcan Hva Ht1) as (Hwf' & Ht' & Hk).
  exists (set_leaf st (t1 + 8 * i1) 0 va). split_and!; try done.
  exact (walk_leaf _ _ _ [i4; i3; i2] i1 t1 0 (vw_tables _ Hwf') Hok eq_refl Ht' (lookup_insert_eq _ _ _)).
Qed.

(** Addresses whose pages the loop reaches without wrapping. *)
Definition va_span (va endp : Z) : Prop :=
  0 <= va /\ endp <= USER_END \/ DIRECT_MAP <= va /\ endp + 4095 < 2 ^ 64.

Lemma munmap_loop_spec fuel st va endp :
  vmm_wf st -> va_span va endp -> endp <= va + 4096 * Z.of_nat fuel ->
  exists st', munmap_loop fuel va endp st = Some (tt, st') /\ vmm_wf st' /\ same_space st st' /\
    pmm st' = pmm st /\
    walks_kept st st' (fun q => exists k, 0 <= k /\ va + 4096 * k < endp /\ q = va_idxs (va + 4096 * k)) /\
    (forall k, 0 <= k -> va + 4096 * k < endp -> walk_va st' (va + 4096 * k) = None).
Proof.
  revert st va. induction fuel as [|fuel IH]; intros st va Hwf Hsp Hend; cbn [munmap_loop].
  { rewrite (proj2 (Z.ltb_ge _ _)) by lia. exists st. split_and!; try done. intros k Hk0 Hk. lia. }
  destruct (Z.ltb_spec va endp).
  2: { exists st. split_and!; try done. intros k Hk0 Hk. lia. }
  assert (Hcan : canonical va) by (unfold va_span, canonical in *; lia).
  destruct (unmap_page_spec st va Hwf Hcan) as (st1 & Hrun & Hwf1 & Hs1 & Hp1 & Hk1 & Hn1).
  rewrite (bind_run _ _ _ _ _ Hrun).
  rewrite u64_small by (unfold PAGE_SIZE, va_span, USER_END, DIRECT_MAP in *; lia).
  destruct (IH st1 (va + PAGE_SIZE) Hwf1) as (st2 & Hrun2 & Hwf2 & Hs2 & Hp2 & Hk2 & Hn2).
  { unfold va_span, PAGE_SIZE in *. lia. } { unfold PAGE_SIZE. lia. }
  change PAGE_SIZE with 4096 in *.
  rewrite Hrun2. exists st2. split_and!; try done.
  - by apply (same_space_trans st st1 st2).
  - congruence.
  - eapply walks_kept_trans; [exact Hk1 | exact Hk2 |]. intros q [->|(k & Hk0 & Hk & ->)].
    + exists 0. split; [lia|]. split; [lia|]. f_equal. lia.
    + exists (k + 1). split; [lia|]. split; [lia|]. f_equal. lia.
  - intros k Hk0 Hk. destruct (decide (k = 0)) as [->|].
    2: { replace (va + 4096 * k) with (va + 4096 + 4096 * (k - 1)) by lia. apply Hn2; lia. }
    rewrite Z.mul_0_r, Z.add_0_r. rewrite <- Hn1. apply Hk2; [apply va_idxs_ok | done |].
    intros (j & Hj0 & Hj & E). apply va_idxs_inj in E; [|done|unfold va_span, canonical in *; lia].
    replace (va + 4096 + 4096 * j) with (va + 4096 * (j + 1)) in E by lia. rewrite page_of_add in E. lia.
Qed.

Lemma munmap_spec (st : vmm_state) (vaddr n : Z) :
  vmm_wf st -> aligned vaddr -> 0 < n -> va_span vaddr (vaddr + n) ->
  exists st', munmap vaddr n st = Some (tt, st') /\ vmm_wf st' /\ same_space st st' /\
    (forall va, canonical va -> page_of vaddr <= page_of va < page_of vaddr + (n + 4095) / 4096 ->
       walk_va st' va = None /\ tlb st' !! page_of va = None) /\
    (forall va, canonical va -> ~ (page_of vaddr <= page_of va < page_of vaddr + (n + 4095) / 4096) ->
       walk_va st' va = walk_va st va).
Proof.
  intros Hwf Hal Hn Hsp. unfold munmap.
  pose proof (Z.div_mod (n + 4095) 4096 ltac:(lia)) as Hd. pose proof (Z.mod_pos_bound (n + 4095) 4096 ltac:(lia)) as Hm.
  assert (0 <= (n + 4095) / 4096) by (apply Z.div_pos; lia).
  rewrite u64_small by (unfold va_span, USER_END, DIRECT_MAP in *; lia).
  destruct (munmap_loop_spec (Z.to_nat ((n + 4095) / 4096)) st vaddr (vaddr + n) Hwf Hsp)
    as (st' & Hrun & Hwf' & Hs & Hp & Hk & Hnone); [lia|].
  exists st'. split; [done|]. split; [done|]. split; [done|].
  assert (Hpg : forall va, page_of vaddr <= page_of va < page_of vaddr + (n + 4095) / 4096 ->
    exists k, 0 <= k /\ vaddr + 4096 * k < vaddr + n /\ page_of va = page_of (vaddr + 4096 * k)).
  { intros va Hva. exists (page_of va - page_of vaddr). rewrite page_of_add. lia. }
  split; intros va Hc Hva.
  - destruct (Hpg va Hva) as (k & Hk0 & Hkn & E). assert (Hw : walk_va st' va = None).
    { rewrite <- (Hnone k Hk0 Hkn). unfold walk_va. by rewrite (va_idxs_page _ _ E). }
    split; [done|]. destruct (tlb st' !! page_of va) as [e|] eqn:He; [|done].
    destruct (vw_tlb _ Hwf' va e Hc He) as [es Hes]. congruence.
  - apply Hk; [apply va_idxs_ok | done |]. intros (k & Hk0 & Hkn & E).
    apply va_idxs_inj in E; [|done|unfold va_span, canonical in *; lia].
    apply Hva. rewrite E, page_of_add. lia.
Qed.

(** C22: over well-formed tables, [munmap] of [n] bytes from an aligned
    address, in one half of the address space and short of its last page
    ([va_span]: from there on the loop's address wraps around to the start
    and the loop never ends), returns and takes exactly the pages that meet
    the range out of the address space: no byte of them is translated any
    more, no cached translation of them is left, and every other address is
    translated as before. *)
Theorem munmap_unmaps (st : vmm_state) (vaddr n : Z) :
  vmm_wf st -> aligned vaddr -> 0 < n -> va_span vaddr (vaddr + n) ->
  exists st', munmap vaddr n st = Some (tt, st') /\ vmm_wf st' /\ same_space st st' /\
    (forall va, canonical va -> page_of vaddr <= page_of va < page_of vaddr + (n + 4095) / 4096 ->
       walk_va st' va = None /\ tlb st' !! page_of va = None) /\
    (forall va, canonical va -> ~ (page_of vaddr <= page_of va < page_of vaddr + (n + 4095) / 4096) ->
       walk_va st' va = walk_va st va).
Proof. exact (munmap_spec st vaddr n). Qed.

(** ** The mappings of uACPI *)

Lemma direct_aligned addr : aligned addr -> aligned (addr + DIRECT_MAP).
Proof.
  intros H. unfold aligned in *. change DIRECT_MAP with (0xFFFF800000000 * 4096).
  by rewrite Z.mod_add by lia.
Qed.

(** UACPI's mapping of more than one page (and at most 4096) is not
    undone by its unmapping with the same length: [munmap] takes bytes and
    is given the number of pages, so only the first page goes, and every
    other byte of the range stays translated to the memory that was mapped. *)
Theorem uacpi_unmap_leaves_pages (st : vmm_state) (addr len : Z) :
  vmm_wf st -> aligned addr -> 0 <= addr -> 1 < kernel_pages len <= 4096 ->
  addr + 4096 * kernel_pages len <= 2 ^ 47 ->
  exists r st', uacpi_kernel_map addr len st = Some (r, st') /\
    (r = 0 /\ exhausted 0 (segs_of st') \/
     r = pa_to_va addr /\
     exists st'', uacpi_kernel_unmap r len st' = Some (tt, st'') /\
       translate st'' r = None /\
       forall k, 4096 <= k < 4096 * kernel_pages len -> translate st'' (r + k) = Some (addr + k)).
Proof.
  intros Hwf Hal Ha0 Hp Hend. unfold uacpi_kernel_map, uacpi_kernel_unmap in *.
  set (p := kernel_pages len) in *. rewrite (pa_to_va_frame addr) by lia.
  assert (Hrng : va_range (addr + DIRECT_MAP) p).
  { right. split; [lia|]. change (2 ^ 64) with (DIRECT_MAP + 2 ^ 47). lia. }
  pose proof (direct_aligned addr Hal) as Hal'.
  destruct (mmap_spec st addr (addr + DIRECT_MAP) p (Z.lor PAGE_PRESENT PAGE_RW) Hwf Hrng)
    as (r & st' & Hrun & Hwf1 & Hs & Hres & _); try done; try (unfold DIRECT_MAP; lia).
  exists r, st'. split; [done|]. destruct Hres as [[-> Htr]|Hx]; [right|by left]. split; [done|].
  assert (Hsp : va_span (addr + DIRECT_MAP) (addr + DIRECT_MAP + p)).
  { right. split; [lia|]. change (2 ^ 64) with (DIRECT_MAP + 2 ^ 47). lia. }
  destruct (munmap_spec st' (addr + DIRECT_MAP) p Hwf1 Hal' ltac:(lia) Hsp)
    as (st2 & Hrun2 & _ & _ & Hgone & Hkept).
  exists st2. split; [exact Hrun2|].
  assert (Hone : (p + 4095) / 4096 = 1).
  { symmetry. apply (Z.div_unique _ 4096 1 (p - 1)); lia. }
  rewrite Hone in Hgone, Hkept.
  assert (Hcan : forall k, 0 <= k < 4096 * p -> canonical (addr + DIRECT_MAP + k)).
  { intros k Hk. by apply va_range_canonical with p. }
  split.
  - unfold translate. destruct (Hgone (addr + DIRECT_MAP)) as [-> _]; [|lia|done].
    replace (addr + DIRECT_MAP) with (addr + DIRECT_MAP + 0) by lia. apply Hcan. lia.
  - intros k Hk. destruct (Htr k ltac:(lia)) as [<- _]. unfold translate.
    rewrite Hkept; [done | apply Hcan; lia |]. intros [_ Hlt].
    pose proof (page_of_range (addr + DIRECT_MAP + k)) as H1. pose proof (page_of_range (addr + DIRECT_MAP)) as H2.
    unfold va_range, DIRECT_MAP, USER_END in *. specialize (H1 ltac:(lia)). specialize (H2 ltac:(lia)).
    unfold aligned in Hal. apply Z.mod_divide in Hal as [q ->]; [|lia]. lia.
Qed.

(** An address that is not aligned leaks its low bits into the flags of its
    entry. *)
Lemma unaligned_leaf addr flags bit :
  has_flag addr bit = true -> has_flag (leaf_entry addr flags) bit = true.
Proof. intros H. unfold leaf_entry. by rewrite !has_flag_lor, H. Qed.

(** ** A machine to start from *)

(** The words below [8 * n], all zero. *)
Definition zero_words (n : Z) : gmap Z Z := gset_to_gmap 0 (list_to_set (map (Z.mul 8) (seqZ 0 n))).

Lemma zero_words_lookup n i : 0 <= i < n -> zero_words n !! (8 * i) = Some 0.
Proof.
  intros Hi. apply lookup_gset_to_gmap_Some. split; [|done].
  apply elem_of_list_to_set, list_elem_of_fmap. exists i. split; [done|]. apply elem_of_seqZ. lia.
Qed.

(** Sixteen free pages at the first megabyte, and an empty root table. *)
Definition small_pmm : pmm_state :=
  PmmState [Segment 1048576 65536 0 (<[4%nat := [1048576]]> (replicate FREE_LISTS [])) 4] 16 0 0.
Definition small_vmm : vmm_state := VmmState (zero_words 139264) small_pmm 8192 8192 ∅.

Lemma small_pmm_booted : initialise_limine [MemmapEntry 1048576 65536 0] = Some small_pmm.
Proof. vm_compute. reflexivity. Qed.

(** An empty root table is well formed. *)
Lemma empty_tables_wf mem cr3 segs :
  frame cr3 -> (forall i, idx_ok i -> mem !! (cr3 + 8 * i) = Some 0) ->
  (forall x, cr3 <= x < cr3 + 4096 -> free_count segs x = 0) -> tables_wf mem cr3 segs.
Proof.
  intros Hf Hz Hu.
  assert (Honly : forall p a, path_ok p -> table_at mem cr3 p = Some a -> p = [] /\ a = cr3).
  { intros [|i p] a [Hp _] Ha; [by injection Ha as <-|]. cbn [table_at] in Ha.
    rewrite Hz in Ha by by inversion Hp. done. }
  constructor.
  - intros p a Hp Ha. destruct (Honly p a Hp Ha) as [-> ->]. split; [done|]. intros i Hi. by rewrite Hz.
  - intros p a x Hp Ha Hx. destruct (Honly p a Hp Ha) as [-> ->]. by apply Hu.
  - intros p q a Hp Hq Ha Hb. destruct (Honly p a Hp Ha) as [-> _], (Honly q a Hq Hb) as [-> _]. done.
  - intros p j e Hp He Hpr. unfold entry_at in He. pose proof (path_ok_prefix _ _ Hp) as Hpp.
    destruct (table_at mem cr3 p) as [a|] eqn:Ha; [|done]. destruct (Honly p a Hpp Ha) as [-> ->].
    cbn [mbind option_bind] in He. rewrite Hz in He; [by injection He as <-|].
    by apply (idxs_last [] j), Hp.
Qed.

Lemma small_vmm_wf : vmm_wf small_vmm.
Proof.
  destruct (new_segment_spec (1048576, 65536)) as (seg & Hn & [Hseg Hcnt] & _).
  { unfold range_ok. cbn. lia. }
  assert (E : seg = Segment 1048576 65536 0 (<[4%nat := [1048576]]> (replicate FREE_LISTS [])) 4).
  { cbn [fst snd] in Hn. vm_compute in Hn. injection Hn as <-. vm_compute. reflexivity. }
  subst seg. cbn [base_ptr max_order] in Hcnt. change (blk 4) with 65536 in Hcnt.
  set (seg := Segment _ _ _ _ _) in *.
  assert (Hfree : forall x, free_count (segs_of small_vmm) x = ind 1048576 65536 x).
  { intros x. change (segs_of small_vmm) with [seg]. rewrite free_count_cons, Hcnt.
    unfold free_count, sum. cbn [map foldr]. lia. }
  constructor.
  - apply empty_tables_wf.
    + split; [done|]. cbn. lia.
    + intros i Hi. cbn [phys current_cr3 small_vmm]. unfold idx_ok in Hi.
      replace (8192 + 8 * i) with (8 * (1024 + i)) by lia. apply zero_words_lookup. lia.
    + intros x Hx. rewrite Hfree. cbn in Hx. unfold ind. case_if; lia.
  - by constructor.
  - intros x. rewrite Hfree. apply ind_range.
  - intros a Ho. apply Exists_cons in Ho as [(_ & Hb & Hm & He)|Ho]; [|by inversion Ho].
    assert (Hblk : 1048576 <= a /\ (a - 1048576) mod 4096 = 0 /\ a + 4096 <= 1048576 + 65536)
      by exact (conj Hb (conj Hm He)).
    clear Hb Hm He. destruct Hblk as (Hb & Hm & He). apply Z.mod_divide in Hm as [q Hq]; [|lia].
    assert (a = 4096 * (256 + q)) as -> by lia. split.
    + split; [|lia]. unfold aligned. rewrite Z.mul_comm. by rewrite Z.mod_mul by lia.
    + intros i Hi. unfold idx_ok in Hi. exists 0. cbn [phys small_vmm].
      replace (4096 * (256 + q) + 8 * i) with (8 * (512 * (256 + q) + i)) by lia.
      apply zero_words_lookup. lia.
  - intros va e _ He. done.
Qed.

(** Two pages at 4 MiB of the user's half. *)
Lemma mmap_maps_witness :
  exists r st', mmap 0x200000 0x400000 2 PAGE_WRITE small_vmm = Some (r, st') /\ vmm_wf st' /\
    (r = 0x400000 /\ translate st' 0x401234 = Some 0x201234 \/ r = 0).
Proof.
  pose proof small_vmm_wf as Hs. revert Hs. generalize small_vmm as s. intros s Hs.
  destruct (mmap_maps s 0x200000 0x400000 2 PAGE_WRITE Hs) as (r & st' & Hr & Hwf & _ & Hc & _);
    [left; split; done | done..|].
  exists r, st'. split; [exact Hr|]. split; [exact Hwf|]. destruct Hc as [[-> H]|[-> _]]; [left|by right].
  split; [done|]. by apply (H 0x1234).
Defined.

Lemma munmap_unmaps_witness :
  exists st', munmap 0x400000 8192 small_vmm = Some (tt, st') /\ vmm_wf st' /\
    walk_va st' 0x401000 = None.
Proof.
  pose proof small_vmm_wf as Hs. revert Hs. generalize small_vmm as s. intros s Hs.
  destruct (munmap_unmaps s 0x400000 8192 Hs) as (st' & Hr & Hwf & _ & Hn & _);
    [done | done | left; split; done |].
  exists st'. split; [exact Hr|]. split; [exact Hwf|]. apply Hn; [left; done | vm_compute; split; done].
Defined.

(** uACPI maps and unmaps two pages at 2 MiB: the second stays. *)
Lemma uacpi_unmap_leaves_pages_witness :
  kernel_pages 8192 = 2 /\
  exists r st', uacpi_kernel_map 0x200000 8192 small_vmm = Some (r, st') /\
    (r = 0 \/ exists st'', uacpi_kernel_unmap r 8192 st' = Some (tt, st'') /\
       translate st'' (r + 0x1234) = Some 0x201234).
Proof.
  split; [done|]. pose proof small_vmm_wf as Hs. revert Hs. generalize small_vmm as s. intros s Hs.
  destruct (uacpi_unmap_leaves_pages s 0x200000 8192 Hs) as (r & st' & Hm & Hc); [done..|].
  exists r, st'. split; [exact Hm|]. destruct Hc as [[-> _]|(-> & st2 & Hu & _ & Ht)]; [by left|right].
  exists st2. split; [exact Hu|]. by apply (Ht 0x1234).
Defined.

(** A large page on the way is taken for a table: physical memory at
    [0x200000 + 8] is overwritten and the translation does not change. *)
Definition large_page_vmm : vmm_state :=
  VmmState (list_to_map [(0x1800, 0x2003); (0x2000, 0x3003); (0x3008, 0x200083); (0x200008, 77)])
    small_pmm 0x1000 0x1000 ∅.

Example mmap_large_page :
  ('(_, st) ← uacpi_kernel_map 0x201000 4096 large_page_vmm;
   Some (phys st !! 0x200008, translate st (DIRECT_MAP + 0x201000)))
  = Some (Some 0x201003, Some 0x201000).
Proof. vm_compute. reflexivity. Qed.
