(* ===== verification/Liballoc.v ===== *)
(** * The kernel heap: [extra/liballoc/liballoc.c] and its wrapper

    A boundary tag precedes every chunk; the chunks of one region from the
    page source are linked by [split_left] and [split_right], the free ones of
    a size class by [next] and [prev].  Pointers are 64-bit addresses and the
    casts to [unsigned int] cut them to 32 bits, as compiled.  A pointer is
    followed to the physical word it is mapped to: an address of the direct
    map and the low address of the same memory are different pointers to one
    tag.  The loops over lists have as fuel the number of tags.

    [liballoc_lock] and [liballoc_unlock] disable and enable interrupts; the
    one thread of control makes the bodies atomic. *)
From S2P Require Import Prelude Klibc Pmm Vmm.

Definition LIBALLOC_MAGIC : Z := 0xc001c0de.
Definition MAXCOMPLETE : Z := 5.
Definition MAXEXP : Z := 32.
Definition MINEXP : Z := 8.
Definition MODE : Z := 0.
Definition l_pageSize : Z := 4096.
Definition l_pageCount : Z := 16.

(** [sizeof(struct boundary_tag)]. *)
Definition TAG : Z := 48.

Record boundary_tag := BoundaryTag {
  magic : Z;
  tsize : Z;
  real_size : Z;
  index : Z;
  split_left : Z;
  split_right : Z;
  next : Z;
  prev : Z;
}.
#[export] Instance settable_boundary_tag : Settable boundary_tag := fun t =>
  BoundaryTag (magic t) (tsize t) (real_size t) (index t) (split_left t) (split_right t) (next t) (prev t).

#[export] Instance boundary_tag_eq_dec : EqDecision boundary_tag.
Proof. solve_decision. Defined.

(** Where the heap gets its pages: [liballoc_alloc] and [liballoc_free]. *)
Class PageSource (P : Type) := {
  liballoc_alloc : Z -> P -> option (Z * P);
  liballoc_free : Z -> Z -> P -> option P;
}.

(** The tags are at the addresses of their memory. *)
Record heap (P : Type) := Heap {
  tags : gmap Z boundary_tag;
  l_freePages : list Z;
  l_completePages : list Z;
  l_initialized : Z;
  source : P;
}.
Arguments Heap {P}.
Arguments tags {P}.
Arguments l_freePages {P}.
Arguments l_completePages {P}.
Arguments l_initialized {P}.
Arguments source {P}.
#[export] Instance settable_heap P : Settable (heap P) := fun h =>
  Heap (tags h) (l_freePages h) (l_completePages h) (l_initialized h) (source h).

(** [getexp]: the exponent of the class of a size, -1 below the quantum. *)
Fixpoint getexp_loop (n : nat) (shift size : Z) : Z :=
  match n with
  | O => shift
  | S n' => if size <? u32 (Z.shiftl 1 shift) then shift else getexp_loop n' (shift + 1) size
  end.
Definition getexp (size : Z) : Z :=
  let size := u32 size in
  if size <? Z.shiftl 1 MINEXP then -1
  else getexp_loop (Z.to_nat (MAXEXP - MINEXP)) MINEXP size - 1.

Section Heap.
Context {P : Type} `{PS : PageSource P}.
(** What memory that was never written holds in the [size] of a tag. *)
Context (junk : Z -> Z).
Abbreviation HP := (M (heap P)).

(** ** Access *)

Definition tag_at (p : Z) : HP boundary_tag := fun h =>
  if p =? 0 then None else t ← tags h !! va_to_pa p; Some (t, h).
Definition set_tag (p : Z) (t : boundary_tag) : HP unit := fun h =>
  if p =? 0 then None else Some (tt, h <| tags := <[va_to_pa p := t]> (tags h) |>).
Definition update_tag (p : Z) (f : boundary_tag -> boundary_tag) : HP unit :=
  t ← tag_at p; set_tag p (f t).

(** An element of one of the two arrays. *)
Definition free_head (i : Z) : HP Z := fun h =>
  if (i <? 0) then None else x ← l_freePages h !! Z.to_nat i; Some (x, h).
Definition set_free_head (i p : Z) : HP unit := fun h =>
  if (i <? 0) then None
  else _ ← l_freePages h !! Z.to_nat i;
       Some (tt, h <| l_freePages := <[Z.to_nat i := p]> (l_freePages h) |>).
Definition complete_count (i : Z) : HP Z := fun h =>
  if (i <? 0) then None else x ← l_completePages h !! Z.to_nat i; Some (x, h).
Definition set_complete_count (i c : Z) : HP unit := fun h =>
  if (i <? 0) then None
  else _ ← l_completePages h !! Z.to_nat i;
       Some (tt, h <| l_completePages := <[Z.to_nat i := c]> (l_completePages h) |>).

Definition source_alloc (pages : Z) : HP Z := fun h =>
  '(p, s) ← liballoc_alloc pages (source h); Some (p, h <| source := s |>).
Definition source_free (p pages : Z) : HP unit := fun h =>
  s ← liballoc_free p pages (source h); Some (tt, h <| source := s |>).

(** ** Tags *)

Definition insert_tag (tag idx : Z) : HP unit :=
  realIndex ←
    (if idx <? 0 then
       t ← tag_at tag;
       let realIndex := getexp (u64 (real_size t - TAG)) in
       mret (if realIndex <? MINEXP then MINEXP else realIndex)
     else mret idx);
  _ ← update_tag tag (fun t => t <| index := realIndex |>);
  head ← free_head realIndex;
  _ ← (if truthy head then
         _ ← update_tag head (fun t => t <| prev := tag |>);
         update_tag tag (fun t => t <| next := head |>)
       else mret tt);
  set_free_head realIndex tag.

Definition remove_tag (tag : Z) : HP unit :=
  t ← tag_at tag;
  head ← free_head (index t);
  _ ← (if head =? tag then set_free_head (index t) (next t) else mret tt);
  t ← tag_at tag;
  _ ← (if truthy (prev t) then update_tag (prev t) (fun p => p <| next := next t |>) else mret tt);
  t ← tag_at tag;
  _ ← (if truthy (next t) then update_tag (next t) (fun n => n <| prev := prev t |>) else mret tt);
  update_tag tag (fun t => t <| next := 0 |> <| prev := 0 |> <| index := -1 |>).

Definition melt_left (tag : Z) : HP Z :=
  t ← tag_at tag;
  let left := split_left t in
  _ ← update_tag left (fun l => l <| real_size := u32 (real_size l + real_size t) |>
                                  <| split_right := split_right t |>);
  _ ← (if truthy (split_right t)
       then update_tag (split_right t) (fun r => r <| split_left := left |>) else mret tt);
  mret left.

Definition absorb_right (tag : Z) : HP Z :=
  t ← tag_at tag;
  let right := split_right t in
  _ ← remove_tag right;
  r ← tag_at right;
  _ ← update_tag tag (fun t => t <| real_size := u32 (real_size t + real_size r) |>
                                 <| split_right := split_right r |>);
  _ ← (if truthy (split_right r)
       then update_tag (split_right r) (fun x => x <| split_left := tag |>) else mret tt);
  mret tag.

Definition split_tag (tag : Z) : HP Z :=
  t ← tag_at tag;
  let remainder := u32 (real_size t - TAG - tsize t) in
  let new_tag := u32 tag + TAG + tsize t in
  _ ← set_tag new_tag (BoundaryTag LIBALLOC_MAGIC (junk new_tag) remainder (junk new_tag) tag (split_right t) 0 0);
  _ ← (if truthy (split_right t)
       then update_tag (split_right t) (fun r => r <| split_left := new_tag |>) else mret tt);
  _ ← update_tag tag (fun t => t <| split_right := new_tag |>
                                 <| real_size := u32 (real_size t - remainder) |>);
  _ ← insert_tag new_tag (-1);
  mret new_tag.

(** The tag of a new region, 0 when there is no memory. *)
Definition allocate_new_tag (size : Z) : HP Z :=
  let size := u32 size in
  let usage := u32 (size + TAG) in
  let pages := usage / l_pageSize + (if usage mod l_pageSize =? 0 then 0 else 1) in
  let pages := if pages <? l_pageCount then l_pageCount else pages in
  tag ← source_alloc pages;
  if tag =? 0 then mret 0
  else
    _ ← set_tag tag (BoundaryTag LIBALLOC_MAGIC size (u32 (pages * l_pageSize)) (-1) 0 0 0 0);
    mret tag.

(** ** Allocation *)

(** [l_initialized]: the arrays are cleared once. *)
Definition liballoc_init : HP unit :=
  modify (fun h =>
    if l_initialized h =? 0
    then h <| l_freePages := replicate (Z.to_nat MAXEXP) 0 |>
           <| l_completePages := replicate (Z.to_nat MAXEXP) 0 |> <| l_initialized := 1 |>
    else h).

Definition tag_fuel : HP nat := gets (fun h => S (S (base.size (tags h)))).

(** The first tag of the list that fits, 0 for none. *)
Definition find_tag (fuel : nat) (head size : Z) : HP Z :=
  loop fuel (fun tag =>
    if tag =? 0 then mret (inr 0)
    else
      t ← tag_at tag;
      mret (if u64 (size + TAG) <=? u64 (real_size t - TAG) then inr tag else inl (next t))) head.

Definition malloc (size : Z) : HP Z :=
  _ ← liballoc_init;
  let idx := getexp size + MODE in
  let idx := if idx <? MINEXP then MINEXP else idx in
  head ← free_head idx;
  fuel ← tag_fuel;
  tag ← find_tag fuel head size;
  tag ←
    (if tag =? 0 then allocate_new_tag size
     else
       _ ← remove_tag tag;
       t ← tag_at tag;
       _ ← (if (split_left t =? 0) && (split_right t =? 0)
            then c ← complete_count idx; set_complete_count idx (c - 1) else mret tt);
       mret tag);
  if tag =? 0 then mret 0
  else
    _ ← update_tag tag (fun t => t <| tsize := u32 size |>);
    t ← tag_at tag;
    let remainder := u32 (real_size t - size - TAG * 2) in
    _ ← (if 0 <? s32 remainder then
           if 0 <=? getexp remainder then _ ← split_tag tag; mret tt else mret tt
         else mret tt);
    mret (u32 tag + TAG).

(** ** Freeing *)

(** Whether the neighbour [p] is there and free. *)
Definition is_free_tag (p : Z) : HP bool :=
  if p =? 0 then mret false else t ← tag_at p; mret (0 <=? index t).

Definition melt_loop (fuel : nat) (tag : Z) : HP Z :=
  loop fuel (fun tag =>
    t ← tag_at tag;
    f ← is_free_tag (split_left t);
    if (f : bool) then tag ← melt_left tag; _ ← remove_tag tag; mret (inl tag)
    else mret (inr tag)) tag.

Definition absorb_loop (fuel : nat) (tag : Z) : HP Z :=
  loop fuel (fun tag =>
    t ← tag_at tag;
    f ← is_free_tag (split_right t);
    if (f : bool) then tag ← absorb_right tag; mret (inl tag)
    else mret (inr tag)) tag.

(** [heap_free] is [free]; this is its part for a tag that is found valid. *)
Definition free_tag (tag : Z) : HP unit :=
  fuel ← tag_fuel;
  tag ← melt_loop fuel tag;
  tag ← absorb_loop fuel tag;
  t ← tag_at tag;
  let idx := getexp (u64 (real_size t - TAG)) in
  let idx := if idx <? MINEXP then MINEXP else idx in
  if (split_left t =? 0) && (split_right t =? 0) then
    c ← complete_count idx;
    if c =? MAXCOMPLETE then
      let pages := real_size t / l_pageSize + (if real_size t mod l_pageSize =? 0 then 0 else 1) in
      let pages := if pages <? l_pageCount then l_pageCount else pages in
      source_free tag pages
    else
      _ ← set_complete_count idx (c + 1);
      insert_tag tag idx
  else insert_tag tag idx.

Definition heap_free (ptr : Z) : HP unit :=
  if ptr =? 0 then mret tt
  else
    let tag := u64 (u32 ptr - TAG) in
    t ← tag_at tag;
    if negb (magic t =? LIBALLOC_MAGIC) then mret tt else free_tag tag.

(** ** The other entry points

    [clear] and [copy] are [liballoc_memset] and [liballoc_memcpy] below on
    the bytes of the blocks, which the tags do not show; writing through a
    null pointer is undefined. *)
Section Bytes.
Context (clear : Z -> Z -> HP unit) (copy : Z -> Z -> Z -> HP unit).

Definition calloc (nobj size : Z) : HP Z :=
  let real_size := s32 (nobj * size) in
  p ← malloc (u64 real_size);
  _ ← clear p real_size;
  mret p.

Definition realloc (p size : Z) : HP Z :=
  if size =? 0 then _ ← heap_free p; mret 0
  else if p =? 0 then malloc size
  else
    t ← tag_at (u64 (u32 p - TAG));
    let real_size := s32 (tsize t) in
    let real_size := if size <? u64 real_size then s32 size else real_size in
    ptr ← malloc size;
    _ ← copy ptr p real_size;
    _ ← heap_free p;
    mret ptr.
End Bytes.
End Heap.

(** ** Bytes *)

Definition liballoc_memset (s c n : Z) : M memory Z :=
  _ ← for_range 0 n (fun i => poke (s + i) (u8 c)); mret s.

(** Four bytes at a time, then the rest. *)
Definition copy_word (s1 s2 : Z) : M memory unit :=
  a ← peek s2; b ← peek (s2 + 1); c ← peek (s2 + 2); d ← peek (s2 + 3);
  _ ← poke s1 a; _ ← poke (s1 + 1) b; _ ← poke (s1 + 2) c; poke (s1 + 3) d.
Definition liballoc_memcpy (s1 s2 n : Z) : M memory Z :=
  _ ← for_range 0 (n / 4) (fun i => copy_word (s1 + 4 * i) (s2 + 4 * i));
  _ ← for_range (n / 4 * 4) n (fun i => b ← peek (s2 + i); poke (s1 + i) b);
  mret s1.

(** ** The kernel's page source, [liballoc_wrapper.cpp] *)

#[export] Instance kernel_pages_source : PageSource vmm_state := {
  liballoc_alloc npages st := vmm_alloc npages st;
  liballoc_free p hint st := '(_, st) ← vmm_free p hint st; Some st;
}.
