(* ===== verification/LiballocInv.v ===== *)
(** * The kernel heap: its invariant and the steps that keep it

    Over a page source that keeps its contract the heap is a tiling: the
    chunks of a region follow each other without gaps, the free ones are
    exactly the members of the lists of their class, the others are the live
    blocks.  [malloc] and [free] keep this over any run, whatever is written
    into the live blocks.  The kernel's own page source does not keep the
    contract, and the heap's blocks overlap there. *)
From S2P Require Import Prelude Klibc Pmm PmmSpec Vmm VmmSpec Liballoc.

(** ** Linked lists in the store of tags *)

Definition first (q : Z) (xs : list Z) : Z := match xs with [] => q | a :: _ => a end.
Fixpoint final (p : Z) (xs : list Z) : Z := match xs with [] => p | a :: r => final a r end.

Abbreviation store := (gmap Z boundary_tag).

(** The chunks [xs] tile [a, e); [l] is left of them and [q] right. *)
Fixpoint seg (T : store) (l : Z) (xs : list Z) (a e q : Z) : Prop :=
  match xs with
  | [] => a = e
  | b :: r => b = a /\ exists t, T !! b = Some t /\ split_left t = l /\ split_right t = first q r /\
      TAG <= real_size t /\ seg T b r (a + real_size t) e q
  end.

(** The list [xs] of class [i], after [p] and before [q]. *)
Fixpoint dll (T : store) (i p : Z) (xs : list Z) (q : Z) : Prop :=
  match xs with
  | [] => True
  | b :: r => exists t, T !! b = Some t /\ index t = i /\ prev t = p /\ next t = first q r /\ dll T i b r q
  end.

Lemma first_app q xs ys : first q (xs ++ ys) = first (first q ys) xs.
Proof. by destruct xs. Qed.
Lemma final_app p xs ys : final p (xs ++ ys) = final (final p xs) ys.
Proof. revert p. by induction xs; cbn. Qed.

Lemma final_in p xs : xs <> [] -> final p xs ∈ xs.
Proof.
  revert p. induction xs as [|a xs IH]; intros p Hne; [done|]. cbn. destruct xs as [|b xs]; [left|].
  right. by apply IH.
Qed.
Lemma first_in q xs : xs <> [] -> first q xs ∈ xs.
Proof. destruct xs; [done|]. intros _. left. Qed.

Lemma seg_app T l xs ys a e q :
  seg T l (xs ++ ys) a e q <-> exists m, seg T l xs a m (first q ys) /\ seg T (final l xs) ys m e q.
Proof.
  revert l a. induction xs as [|b xs IH]; intros l a; cbn [app seg final].
  - split; [intros H; by exists a | by intros (m & -> & H)].
  - split.
    + intros (-> & t & Ht & Hl & Hr & Hs & H). apply IH in H as (m & H1 & H2). rewrite first_app in Hr.
      exists m. split; [|done]. split; [done|]. by exists t.
    + intros (m & (-> & t & Ht & Hl & Hr & Hs & H1) & H2). split; [done|]. exists t. rewrite first_app.
      split_and!; try done. apply IH. by exists m.
Qed.

Lemma dll_app T i p xs ys q :
  dll T i p (xs ++ ys) q <-> dll T i p xs (first q ys) /\ dll T i (final p xs) ys q.
Proof.
  revert p. induction xs as [|b xs IH]; intros p; cbn [app dll final]; [tauto|]. split.
  - intros (t & Ht & Hi & Hp & Hn & H). apply IH in H as [H1 H2]. rewrite first_app in Hn.
    split; [by exists t | done].
  - intros [(t & Ht & Hi & Hp & Hn & H1) H2]. exists t. rewrite first_app. split_and!; try done. by apply IH.
Qed.

(** What each structure reads of a tag. *)
Definition geom (t : boundary_tag) : Z * Z * Z := (split_left t, split_right t, real_size t).
Definition link (t : boundary_tag) : Z * Z * Z := (index t, next t, prev t).

Lemma seg_ext T T' l xs a e q :
  (forall b, b ∈ xs -> geom <$> T' !! b = geom <$> T !! b) -> seg T l xs a e q -> seg T' l xs a e q.
Proof.
  revert l a. induction xs as [|b xs IH]; intros l a He; [done|]. cbn [seg].
  intros (-> & t & Ht & Hl & Hr & Hs & H). split; [done|].
  specialize (He a ltac:(left)) as Ha. rewrite Ht in Ha. destruct (T' !! a) as [t'|]; [|done].
  cbn in Ha. injection Ha as E1 E2 E3. exists t'. rewrite E1, E2, E3. split_and!; try done.
  apply IH; [|done]. intros b Hb. apply He. by right.
Qed.

Lemma dll_ext T T' i p xs q :
  (forall b, b ∈ xs -> link <$> T' !! b = link <$> T !! b) -> dll T i p xs q -> dll T' i p xs q.
Proof.
  revert p. induction xs as [|b xs IH]; intros p He; [done|]. cbn [dll].
  intros (t & Ht & Hi & Hp & Hn & H). specialize (He b ltac:(left)) as Hb. rewrite Ht in Hb.
  destruct (T' !! b) as [t'|]; [|done]. cbn in Hb. injection Hb as E1 E2 E3. exists t'.
  rewrite E1, E2, E3. split_and!; try done. apply IH; [|done]. intros c Hc. apply He. by right.
Qed.

Lemma dll_lookup T i p xs q b : dll T i p xs q -> b ∈ xs -> exists t, T !! b = Some t /\ index t = i.
Proof.
  revert p. induction xs as [|c xs IH]; intros p H Hb; [by inversion Hb|].
  destruct H as (t & Ht & Hi & _ & _ & H). apply elem_of_cons in Hb as [->|Hb]; [by exists t|]. by eapply IH.
Qed.

Lemma seg_lookup T l xs a e q b : seg T l xs a e q -> b ∈ xs ->
  exists t, T !! b = Some t /\ TAG <= real_size t /\ a <= b /\ b + real_size t <= e.
Proof.
  revert l a. induction xs as [|c xs IH]; intros l a H Hb; [by inversion Hb|].
  destruct H as (-> & t & Ht & _ & _ & Hs & H).
  assert (Hle : a + real_size t <= e).
  { clear -H. revert H. generalize (a + real_size t) as b. generalize a as l. induction xs as [|c xs IH]; cbn; [lia|].
    intros l b (-> & t' & _ & _ & _ & Hs & H). apply IH in H. unfold TAG in Hs. lia. }
  apply elem_of_cons in Hb as [->|Hb].
  - exists t. split_and!; (done || lia).
  - destruct (IH _ _ H Hb) as (t' & Ht' & Hs' & Hab & Hbe). exists t'. unfold TAG in *. split_and!; (done || lia).
Qed.

(** Chunks of a segment do not meet. *)
Lemma seg_apart T l xs a e q b c tb : seg T l xs a e q -> b ∈ xs -> c ∈ xs -> b < c ->
  T !! b = Some tb -> b + real_size tb <= c.
Proof.
  revert l a. induction xs as [|x xs IH]; intros l a H Hb Hc Hlt Htb; [by inversion Hb|].
  destruct H as (-> & t & Ht & _ & _ & Hs & H).
  apply elem_of_cons in Hb as [->|Hb]; apply elem_of_cons in Hc as [->|Hc]; [lia| | |].
  - destruct (seg_lookup _ _ _ _ _ _ c H Hc) as (? & _ & _ & ? & _). simplify_eq. lia.
  - destruct (seg_lookup _ _ _ _ _ _ b H Hb) as (? & _ & _ & ? & _). unfold TAG in *. lia.
  - by eapply IH.
Qed.

Lemma seg_nodup T l xs a e q : seg T l xs a e q -> NoDup xs.
Proof.
  revert l a. induction xs as [|b xs IH]; intros l a H; [constructor|].
  destruct H as (-> & t & Ht & _ & _ & Hs & H). constructor; [|by eapply IH].
  intros Hb. destruct (seg_lookup _ _ _ _ _ _ a H Hb) as (? & _ & _ & ? & _). unfold TAG in *. lia.
Qed.

(** ** Updates *)

Definition upd (T : store) (p : Z) (f : boundary_tag -> boundary_tag) : store :=
  if p =? 0 then T else match T !! p with Some t => <[p := f t]> T | None => T end.

Lemma upd_ne T p f b : b <> p -> upd T p f !! b = T !! b.
Proof.
  intros H. unfold upd. destruct (p =? 0); [done|]. destruct (T !! p); [|done]. by rewrite lookup_insert_ne.
Qed.
Lemma upd_eq T p f t : p <> 0 -> T !! p = Some t -> upd T p f !! p = Some (f t).
Proof. intros H Ht. unfold upd. rewrite (proj2 (Z.eqb_neq p 0)), Ht by done. apply lookup_insert_eq. Qed.
Lemma upd_zero T f : upd T 0 f = T.
Proof. done. Qed.
Lemma upd_same {A} (g : boundary_tag -> A) T p f b :
  (forall t, g (f t) = g t) -> g <$> upd T p f !! b = g <$> T !! b.
Proof.
  intros Hg. unfold upd. destruct (p =? 0); [done|]. destruct (T !! p) as [t|] eqn:Ht; [|done].
  destruct (decide (b = p)) as [->|]; [|by rewrite lookup_insert_ne].
  rewrite lookup_insert_eq, Ht. cbn. by rewrite Hg.
Qed.

(** Changing the pointer at an end of a list. *)
Lemma dll_set_next T i p xs q q' : NoDup xs -> 0 ∉ xs -> dll T i p xs q ->
  dll (if decide (xs = []) then T else upd T (final p xs) (fun t => t <| next := q' |>)) i p xs q'.
Proof.
  intros Hnd Hz H. destruct (decide (xs = [])) as [->|Hne]; [done|].
  destruct xs as [|x xs _] using rev_ind; [done|]. rewrite final_app. cbn [final].
  apply dll_app in H as [H1 (t & Ht & Hi & Hp & Hn & _)]. apply dll_app.
  apply NoDup_app in Hnd as (_ & Hx & _). split.
  - eapply dll_ext; [|exact H1]. intros b Hb. rewrite upd_ne; [done|]. intros ->. apply (Hx x Hb). left.
  - exists (t <| next := q' |>). rewrite (upd_eq _ _ _ t); [done| |done].
    intros ->. apply Hz. apply elem_of_app. right. left.
Qed.

Lemma dll_set_prev T i p p' xs q : NoDup xs -> 0 ∉ xs -> dll T i p xs q ->
  dll (if decide (xs = []) then T else upd T (first q xs) (fun t => t <| prev := p' |>)) i p' xs q.
Proof.
  intros Hnd Hz H. destruct xs as [|x xs]; [done|]. cbn [first]. rewrite decide_False by done.
  destruct H as (t & Ht & Hi & Hp & Hn & H). exists (t <| prev := p' |>).
  rewrite (upd_eq _ _ _ t); [|intros ->; apply Hz; left|done]. split_and!; try done.
  apply NoDup_cons in Hnd as [Hx _]. eapply dll_ext; [|exact H]. intros b Hb.
  rewrite upd_ne; [done|]. by intros ->.
Qed.

Lemma seg_set_left T l l' xs a e q : 0 ∉ xs -> seg T l xs a e q ->
  seg (if decide (xs = []) then T else upd T (first q xs) (fun t => t <| split_left := l' |>)) l' xs a e q.
Proof.
  intros Hz H. pose proof (seg_nodup _ _ _ _ _ _ H) as Hnd. destruct xs as [|x xs]; [done|]. cbn [first].
  rewrite decide_False by done. destruct H as (-> & t & Ht & Hl & Hr & Hs & H). split; [done|].
  exists (t <| split_left := l' |>). rewrite (upd_eq _ _ _ t); [|intros ->; apply Hz; left|done].
  split_and!; try done. apply NoDup_cons in Hnd as [Hx _]. eapply seg_ext; [|exact H]. intros b Hb.
  rewrite upd_ne; [done|]. by intros ->.
Qed.

Lemma lookup_upd T p f c : upd T p f !! c = if decide (c = p /\ p <> 0) then f <$> T !! c else T !! c.
Proof.
  unfold upd. destruct (Z.eqb_spec p 0) as [->|Hp].
  - by destruct (decide (c = 0 /\ 0 <> 0)) as [[_ ?]|].
  - destruct (T !! p) as [t|] eqn:Ht.
    + destruct (decide (c = p /\ p <> 0)) as [[-> _]|Hc].
      * by rewrite lookup_insert_eq, Ht.
      * rewrite lookup_insert_ne; [done|]. intros ->. by apply Hc.
    + destruct (decide (c = p /\ p <> 0)) as [[-> _]|]; [by rewrite Ht | done].
Qed.

Lemma upd_cong T T' p f c : T' !! c = T !! c -> upd T' p f !! c = upd T p f !! c.
Proof. intros H. by rewrite !lookup_upd, H. Qed.

(** ** The contract of a page source

    It gives fresh memory of the pages asked for, below 4 GiB, and takes back
    what it gave. *)
Class LawfulSource (P : Type) `{PageSource P} := {
  given : P -> list (Z * Z);
  alloc_law : forall n s, 0 < n < 2 ^ 20 -> exists p s', liballoc_alloc n s = Some (p, s') /\
    (p = 0 /\ given s' = given s \/
     0 < p /\ p + 4096 * n < 2 ^ 32 /\ given s' = (p, 4096 * n) :: given s /\
     Forall (apart (p, 4096 * n)) (given s));
  free_law : forall p n s, (p, 4096 * n) ∈ given s ->
    exists s', liballoc_free p n s = Some s' /\ given s ≡ₚ (p, 4096 * n) :: given s';
}.

(** ** The heap as regions of chunks and lists of free chunks *)

(** A region: its start, its length and its chunks. *)
Abbreviation region := (Z * Z * list Z)%type.
Definition chunks (regs : list region) : list Z := concat (map snd regs).

Record tiles (T : store) (regs : list region) : Prop := {
  ti_regions : Forall (fun '(a, n, xs) => 0 < a /\ a + n < 2 ^ 32 /\ 65536 <= n /\ n mod 4096 = 0 /\
    xs <> [] /\ seg T 0 xs a (a + n) 0) regs;
  ti_apart : all_apart (map fst regs);
}.

Record lists_ok (T : store) (heads : list Z) (fl : list (list Z)) : Prop := {
  li_length : length fl = 32%nat;
  li_list : forall i xs, fl !! i = Some xs ->
    NoDup xs /\ dll T (Z.of_nat i) 0 xs 0 /\ heads !! i = Some (first 0 xs);
}.

(** A tag that no list and no live block holds. *)
Definition loose (t : boundary_tag) : Prop := next t = 0 /\ prev t = 0.

Inductive chunk_status (live : list (Z * Z)) (held : list Z) (fl : list (list Z)) (a : Z) (t : boundary_tag) : Prop :=
  | status_live : a ∉ held -> index t = -1 -> loose t -> (a + TAG, tsize t) ∈ live ->
      0 <= tsize t -> TAG + tsize t <= real_size t -> chunk_status live held fl a t
  | status_free i xs : a ∉ held -> fl !! i = Some xs -> a ∈ xs -> (8 <= i)%nat -> chunk_status live held fl a t
  | status_held : a ∈ held -> loose t -> chunk_status live held fl a t.

Record chunks_ok (T : store) (live : list (Z * Z)) (held : list Z) (regs : list region) (fl : list (list Z)) : Prop := {
  ck_status : forall a, a ∈ chunks regs -> exists t, T !! a = Some t /\ magic t = LIBALLOC_MAGIC /\
    chunk_status live held fl a t;
  ck_free : forall i xs a, fl !! i = Some xs -> a ∈ xs -> a ∈ chunks regs /\ (a ∉ held) /\ (8 <= i)%nat;
  ck_held : forall a, a ∈ held -> a ∈ chunks regs;
  ck_live : forall p s, (p, s) ∈ live -> p - TAG ∈ chunks regs /\ (p - TAG ∉ held) /\
    exists t, T !! (p - TAG) = Some t /\ index t = -1 /\ tsize t = s;
  ck_nodup : NoDup (map fst live);
}.

Section Spec.
Context {P : Type} {PS : PageSource P} {LP : LawfulSource P}.
Implicit Types h : heap P.

Record heap_inv (live : list (Z * Z)) (held : list Z) (h : heap P) (regs : list region) (fl : list (list Z)) : Prop := {
  hi_tiles : tiles (tags h) regs;
  hi_given : map fst regs ≡ₚ given (source h);
  hi_lists : lists_ok (tags h) (l_freePages h) fl;
  hi_heads : length (l_freePages h) = 32%nat;
  hi_complete : length (l_completePages h) = 32%nat;
  hi_chunks : chunks_ok (tags h) live held regs fl;
  hi_init : l_initialized h <> 0;
}.

Lemma chunks_app r1 r2 : chunks (r1 ++ r2) = chunks r1 ++ chunks r2.
Proof. unfold chunks. by rewrite map_app, concat_app. Qed.
Lemma chunks_cons a n xs r : chunks ((a, n, xs) :: r) = xs ++ chunks r.
Proof. done. Qed.

Lemma elem_of_chunks b regs : b ∈ chunks regs <-> exists a n xs, (a, n, xs) ∈ regs /\ b ∈ xs.
Proof.
  induction regs as [|[[a n] xs] regs IH].
  - split; [intros H; by inversion H | intros (a & n & xs & H & _); by inversion H].
  - rewrite chunks_cons, elem_of_app, IH. split.
    + intros [H|(a' & n' & xs' & H1 & H2)]; [by exists a, n, xs; split; [left|]|].
      exists a', n', xs'. split; [by right | done].
    + intros (a' & n' & xs' & [[= -> -> ->]|H1]%elem_of_cons & H2); [by left|]. right. by exists a', n', xs'.
Qed.

Lemma region_of T regs b : tiles T regs -> b ∈ chunks regs ->
  exists r1 a n xs r2, regs = r1 ++ (a, n, xs) :: r2 /\ b ∈ xs /\ 0 < a /\ a + n < 2 ^ 32 /\ 65536 <= n /\
    n mod 4096 = 0 /\ seg T 0 xs a (a + n) 0.
Proof.
  intros [Hr _] (a & n & xs & Hin & Hb)%elem_of_chunks. rewrite Forall_forall in Hr.
  specialize (Hr _ Hin). cbn in Hr. apply list_elem_of_split in Hin as (r1 & r2 & ->).
  destruct Hr as (? & ? & ? & ? & _ & ?). by exists r1, a, n, xs, r2.
Qed.

Lemma chunk_tag T regs b : tiles T regs -> b ∈ chunks regs ->
  exists t, T !! b = Some t /\ TAG <= real_size t /\ 0 < b /\ b + real_size t < 2 ^ 32.
Proof.
  intros Ht Hb. destruct (region_of T regs b Ht Hb) as (r1 & a & n & xs & r2 & -> & Hin & Ha & Hn & _ & _ & Hs).
  destruct (seg_lookup _ _ _ _ _ _ b Hs Hin) as (t & Htb & Hsz & Hab & Hbe). exists t. split_and!; (done || lia).
Qed.

(** A chunk of one region is not in the range of another. *)
Lemma other_region T r1 a n xs r2 b :
  tiles T (r1 ++ (a, n, xs) :: r2) -> b ∈ chunks (r1 ++ r2) -> ~ (a <= b < a + n).
Proof.
  intros [Hr Ha] (a' & n' & xs' & Hin & Hb)%elem_of_chunks Hrange. rewrite Forall_forall in Hr.
  assert (Hr' := Hr (a', n', xs')). cbn in Hr'. destruct Hr' as (_ & _ & _ & _ & _ & Hs).
  { apply elem_of_app in Hin as [?|?]; apply elem_of_app; [by left | right; by right]. }
  destruct (seg_lookup _ _ _ _ _ _ b Hs Hb) as (t & _ & Hsz & Hab & Hbe). unfold TAG in Hsz.
  assert (Hap : apart (a, n) (a', n')).
  { rewrite map_app in Ha. cbn in Ha. clear -Ha Hin. induction r1 as [|r r1 IH]; cbn [app map all_apart] in *.
    - destruct Ha as [Ha _]. rewrite Forall_map, Forall_forall in Ha. apply (Ha _ Hin).
    - destruct Ha as [Hf Ha]. apply elem_of_cons in Hin as [<-|Hin]; [|by apply IH].
      apply Forall_app in Hf as [_ Hf]. apply Forall_cons in Hf as [Hf _]. cbn in Hf.
      unfold apart in *. cbn in *. lia. }
  unfold apart in Hap. cbn in Hap. lia.
Qed.

Lemma in_region T r1 a n xs r2 b :
  tiles T (r1 ++ (a, n, xs) :: r2) -> b ∈ xs -> exists t, T !! b = Some t /\ TAG <= real_size t /\ a <= b /\
    b + real_size t <= a + n.
Proof.
  intros [Hr _] Hb. apply Forall_app in Hr as [_ Hr]. apply Forall_cons in Hr as [(_ & _ & _ & _ & _ & Hs) _].
  by eapply seg_lookup.
Qed.

(** Another tiling of one region. *)
Lemma tiles_replace T T' r1 a n xs xs' r2 :
  tiles T (r1 ++ (a, n, xs) :: r2) -> xs' <> [] -> seg T' 0 xs' a (a + n) 0 ->
  (forall b, ~ (a <= b < a + n) -> geom <$> T' !! b = geom <$> T !! b) ->
  tiles T' (r1 ++ (a, n, xs') :: r2).
Proof.
  intros Ht Hne Hs Ho. pose proof Ht as [Hr Ha]. constructor.
  2: { by rewrite map_app in *. }
  assert (Hkeep : forall r, (forall b, b ∈ chunks r -> b ∈ chunks (r1 ++ r2)) ->
    Forall (fun '(a, n, xs) => 0 < a /\ a + n < 2 ^ 32 /\ 65536 <= n /\ n mod 4096 = 0 /\
      xs <> [] /\ seg T 0 xs a (a + n) 0) r ->
    Forall (fun '(a, n, xs) => 0 < a /\ a + n < 2 ^ 32 /\ 65536 <= n /\ n mod 4096 = 0 /\
      xs <> [] /\ seg T' 0 xs a (a + n) 0) r).
  { intros r Hin Hf. rewrite Forall_forall in *. intros [[a' n'] ys] Hy. specialize (Hf _ Hy). cbn in Hf.
    destruct Hf as (? & ? & ? & ? & ? & ?). split_and!; try done. eapply seg_ext; [|done].
    intros b Hb. apply Ho. eapply other_region; [exact Ht|]. apply Hin, elem_of_chunks. by exists a', n', ys. }
  apply Forall_app in Hr as [Hr1 Hr2]. apply Forall_cons in Hr2 as [H0 Hr2].
  apply Forall_app. split; [|apply Forall_cons; split].
  - apply Hkeep; [|done]. intros b Hb. rewrite chunks_app. apply elem_of_app. by left.
  - destruct H0 as (? & ? & ? & ? & _ & _). done.
  - apply Hkeep; [|done]. intros b Hb. rewrite chunks_app. apply elem_of_app. by right.
Qed.

Lemma tiles_ext T T' regs :
  (forall b, b ∈ chunks regs -> geom <$> T' !! b = geom <$> T !! b) -> tiles T regs -> tiles T' regs.
Proof.
  intros He [Hr Ha]. constructor; [|done]. rewrite Forall_forall in *. intros [[a n] xs] Hin.
  specialize (Hr _ Hin). cbn in Hr. destruct Hr as (? & ? & ? & ? & ? & ?). split_and!; try done.
  eapply seg_ext; [|done]. intros b Hb. apply He, elem_of_chunks. by exists a, n, xs.
Qed.

Lemma lists_ext T T' heads fl :
  (forall i xs b, fl !! i = Some xs -> b ∈ xs -> link <$> T' !! b = link <$> T !! b) ->
  lists_ok T heads fl -> lists_ok T' heads fl.
Proof.
  intros He [Hl Hf]. constructor; [done|]. intros i xs Hi. destruct (Hf i xs Hi) as (Hn & Hd & Hh).
  split_and!; try done. eapply dll_ext; [|done]. intros b Hb. by eapply He.
Qed.

(** ** Running the accesses *)

Definition addr_ok (p : Z) : Prop := 0 < p < 2 ^ 32.

Lemma addr_pa p : addr_ok p -> va_to_pa p = p.
Proof. intros Hp. unfold addr_ok, va_to_pa, USER_END in *. by rewrite (proj2 (Z.leb_le p _)) by lia. Qed.

Lemma chunk_addr T regs b : tiles T regs -> b ∈ chunks regs -> addr_ok b.
Proof.
  intros Ht Hb. destruct (chunk_tag T regs b Ht Hb) as (t & _ & Hs & H0 & H1).
  unfold addr_ok, TAG in *. lia.
Qed.

Definition with_tags (h : heap P) (T : store) : heap P := h <| tags := T |>.

Lemma tag_at_run h p t : addr_ok p -> tags h !! p = Some t -> tag_at p h = Some (t, h).
Proof.
  intros Hp Ht. unfold tag_at. rewrite (proj2 (Z.eqb_neq p 0)), addr_pa by (done || unfold addr_ok in Hp; lia).
  by rewrite Ht.
Qed.

Lemma update_tag_run h p f t : addr_ok p -> tags h !! p = Some t ->
  update_tag p f h = Some (tt, with_tags h (upd (tags h) p f)).
Proof.
  intros Hp Ht. unfold update_tag. rewrite (bind_run _ _ _ _ _ (tag_at_run _ _ _ Hp Ht)).
  unfold set_tag, upd. rewrite (proj2 (Z.eqb_neq p 0)) by (unfold addr_ok in Hp; lia).
  by rewrite addr_pa, Ht.
Qed.

(** [if (p != NULL) p->field = ...]. *)
Lemma update_opt_run h p f : (p = 0 \/ addr_ok p /\ exists t, tags h !! p = Some t) ->
  (if truthy p then update_tag p f else mret tt) h = Some (tt, with_tags h (upd (tags h) p f)).
Proof.
  intros [->|[Hp (t & Ht)]].
  - change (truthy 0) with false. cbv iota. rewrite upd_zero. by destruct h.
  - unfold truthy. rewrite (proj2 (Z.eqb_neq p 0)) by (unfold addr_ok in Hp; lia). by apply update_tag_run with t.
Qed.

Lemma free_head_run h i x : l_freePages h !! i = Some x -> free_head (Z.of_nat i) h = Some (x, h).
Proof.
  intros Hx. unfold free_head. rewrite (proj2 (Z.ltb_ge _ 0)) by lia. by rewrite Nat2Z.id, Hx.
Qed.

Lemma set_free_head_run h i x p : l_freePages h !! i = Some x ->
  set_free_head (Z.of_nat i) p h = Some (tt, h <| l_freePages := <[i := p]> (l_freePages h) |>).
Proof.
  intros Hx. unfold set_free_head. rewrite (proj2 (Z.ltb_ge _ 0)) by lia. by rewrite Nat2Z.id, Hx.
Qed.

(** ** Taking a chunk from its list *)

(** The store after [a], between [pv] and [nx], leaves its list. *)
Definition unlinked (T : store) (a pv nx : Z) : store :=
  upd (upd (upd T pv (fun p => p <| next := nx |>)) nx (fun n => n <| prev := pv |>)) a
    (fun t => t <| next := 0 |> <| prev := 0 |> <| index := -1 |>).

Definition data (t : boundary_tag) : Z * Z * (Z * Z * Z) := (magic t, tsize t, geom t).

Lemma unlinked_data T a pv nx c : data <$> unlinked T a pv nx !! c = data <$> T !! c.
Proof. unfold unlinked. by rewrite !upd_same. Qed.

Lemma unlinked_dll T i l1 a l2 :
  NoDup (l1 ++ a :: l2) -> 0 ∉ l1 ++ a :: l2 -> dll T i 0 (l1 ++ a :: l2) 0 ->
  dll (unlinked T a (final 0 l1) (first 0 l2)) i 0 (l1 ++ l2) 0.
Proof.
  intros Hnd Hz Hd. apply dll_app in Hd as [H1 (t & Ht & Hi & Hp & Hn & H2)].
  apply NoDup_app in Hnd as (Hn1 & Hx & [Ha Hn2]%NoDup_cons).
  assert (Hz1 : 0 ∉ l1) by (intros ?; apply Hz, elem_of_app; by left).
  assert (Hz2 : 0 ∉ l2) by (intros ?; apply Hz, elem_of_app; right; by right).
  assert (Ha1 : a ∉ l1) by (intros ?; apply (Hx a); [done|left]).
  assert (Hx2 : forall b, b ∈ l1 -> b ∉ l2) by (intros b Hb ?; apply (Hx b Hb); by right).
  apply dll_app. split.
  - eapply dll_ext; [|apply (dll_set_next T i 0 l1 _ (first 0 l2) Hn1 Hz1 H1)]. intros b Hb.
    unfold unlinked. rewrite upd_ne by (by intros ->).
    destruct (decide (b = first 0 l2)) as [->|Hne].
    { exfalso. destruct l2 as [|c l2]; [done|]. apply (Hx2 _ Hb). left. }
    rewrite upd_ne by done. destruct (decide (l1 = [])) as [->|]; [by inversion Hb|done].
  - eapply dll_ext; [|apply (dll_set_prev T i a (final 0 l1) l2 0 Hn2 Hz2 H2)]. intros b Hb.
    unfold unlinked. rewrite upd_ne by (by intros ->). destruct (decide (l2 = [])) as [->|]; [by inversion Hb|].
    f_equal. apply upd_cong, upd_ne. intros ->. destruct (decide (l1 = [])) as [->|Hne1]; [done|].
    apply (Hx2 (final 0 l1)); [by apply final_in | done].
Qed.

(** What stays the same when tags are linked and unlinked. *)
Definition same_rest (h h' : heap P) : Prop :=
  source h' = source h /\ l_completePages h' = l_completePages h /\ l_initialized h' = l_initialized h /\
  forall c, data <$> tags h' !! c = data <$> tags h !! c.

Section Remove.
Context (live : list (Z * Z)) (held : list Z) (h : heap P) (regs : list region) (fl : list (list Z)).
Context (a : Z) (i : nat) (l1 l2 : list Z).
Hypothesis Hinv : heap_inv live held h regs fl.
Hypothesis Hi : fl !! i = Some (l1 ++ a :: l2).
Let pv := final 0 l1.
Let nx := first 0 l2.
Let heads' := if first 0 (l1 ++ a :: l2) =? a then <[i := nx]> (l_freePages h) else l_freePages h.
Let h' := (with_tags h (unlinked (tags h) a pv nx)) <| l_freePages := heads' |>.

Lemma rm_list : NoDup (l1 ++ a :: l2) /\ dll (tags h) (Z.of_nat i) 0 (l1 ++ a :: l2) 0 /\
  l_freePages h !! i = Some (first 0 (l1 ++ a :: l2)).
Proof. apply (li_list _ _ _ (hi_lists _ _ _ _ _ Hinv) i _ Hi). Qed.

Lemma rm_member b : b ∈ l1 ++ a :: l2 ->
  b ∈ chunks regs /\ (b ∉ held) /\ addr_ok b /\ exists tb, tags h !! b = Some tb /\ index tb = Z.of_nat i.
Proof.
  intros Hb. destruct (ck_free _ _ _ _ _ (hi_chunks _ _ _ _ _ Hinv) i _ b Hi Hb) as (Hc & Hh & _).
  split_and!; [done|done|by eapply chunk_addr, Hc; apply Hinv|]. destruct rm_list as (_ & Hd & _).
  by eapply dll_lookup.
Qed.

Lemma rm_a : a ∈ l1 ++ a :: l2.
Proof. apply elem_of_app. right. left. Qed.
Lemma rm_zero : 0 ∉ l1 ++ a :: l2.
Proof. intros H0. destruct (rm_member 0 H0) as (_ & _ & H & _). unfold addr_ok in H. lia. Qed.
Lemma rm_a_zero : a <> 0.
Proof. intros E. apply rm_zero. rewrite <- E at 1. apply rm_a. Qed.
Lemma rm_pv : pv = 0 \/ pv ∈ l1.
Proof. unfold pv. destruct (decide (l1 = [])) as [->|]; [by left | right; by apply final_in]. Qed.
Lemma rm_nx : nx = 0 \/ nx ∈ l2.
Proof. unfold nx. destruct (decide (l2 = [])) as [->|]; [by left | right; by apply first_in]. Qed.
Lemma rm_nodup : a ∉ l1 /\ (a ∉ l2) /\ (forall b, b ∈ l1 -> b ∉ l2) /\ NoDup l1 /\ NoDup l2.
Proof.
  destruct rm_list as (Hnd & _ & _). apply NoDup_app in Hnd as (Hn1 & Hx & [Ha2 Hn2]%NoDup_cons).
  split_and!; try done; [intros ?; apply (Hx a); [done|left] | intros b Hb ?; apply (Hx b Hb); by right].
Qed.
Lemma rm_ne : pv <> a /\ nx <> a /\ (nx = 0 \/ nx <> pv).
Proof.
  pose proof rm_a_zero as Ha. destruct rm_nodup as (H1 & H2 & Hx & _). split_and!.
  - intros E. destruct rm_pv as [E0|E0]; [congruence | by rewrite E in E0].
  - intros E. destruct rm_nx as [E0|E0]; [congruence | by rewrite E in E0].
  - destruct rm_nx as [E0|E0]; [by left|right]. intros E. destruct rm_pv as [E1|E1].
    + apply rm_zero, elem_of_app. right. right. by rewrite <- E1, <- E.
    + apply (Hx pv E1). by rewrite <- E.
Qed.

Lemma rm_tag : exists t, tags h !! a = Some t /\ index t = Z.of_nat i /\ prev t = pv /\ next t = nx.
Proof. destruct rm_list as (_ & Hd & _). apply dll_app in Hd as [_ (t & ? & ? & ? & ? & _)]. by exists t. Qed.

(** A neighbour in the list is there, or is null. *)
Lemma rm_neighbour b : b = 0 \/ b ∈ l1 ++ a :: l2 -> b = 0 \/ addr_ok b /\ exists t, tags h !! b = Some t.
Proof.
  intros [->|Hb]; [by left|right]. destruct (rm_member b Hb) as (_ & _ & ? & t & ? & _). split; [done|by exists t].
Qed.

Lemma rm_run : remove_tag a h = Some (tt, h').
Proof.
  destruct rm_tag as (t & Ht & Hidx & Hpv & Hnx). destruct rm_list as (_ & _ & Hh).
  destruct (rm_member a rm_a) as (_ & _ & Haa & _). destruct rm_ne as (Hpa & Hna & Hnp). unfold remove_tag.
  rewrite (bind_run _ _ _ _ _ (tag_at_run h a t Haa Ht)), Hidx, Hnx.
  rewrite (bind_run _ _ _ _ _ (free_head_run h i _ Hh)).
  set (hd := h <| l_freePages := heads' |>).
  rewrite (bind_run _ _ h hd tt).
  2: { unfold hd, heads'. destruct (_ =? _); [by erewrite set_free_head_run | by destruct h]. }
  rewrite (bind_run _ _ _ _ _ (tag_at_run hd a t Haa Ht)), Hpv, Hnx.
  rewrite (bind_run _ _ _ _ _ (update_opt_run hd pv _ ltac:(apply rm_neighbour; destruct rm_pv; [by left | right; apply elem_of_app; by left]))).
  set (h1 := with_tags hd _). assert (Ht1 : tags h1 !! a = Some t) by (cbn; by rewrite upd_ne).
  rewrite (bind_run _ _ _ _ _ (tag_at_run h1 a t Haa Ht1)), Hpv, Hnx.
  rewrite (bind_run _ _ h1 (with_tags h1 (upd (tags h1) nx (fun n => n <| prev := pv |>))) tt).
  2: { apply update_opt_run. destruct Hnp as [->|Hnp]; [by left|]. cbn. rewrite upd_ne by done.
       apply rm_neighbour. destruct rm_nx; [by left | right; apply elem_of_app; right; by right]. }
  by rewrite (update_tag_run _ a _ t); [|done|by cbn; rewrite !upd_ne by done].
Qed.

Lemma rm_same b : b ∉ l1 ++ a :: l2 -> addr_ok b -> tags h' !! b = tags h !! b.
Proof.
  intros Hb Hbo. cbn. unfold unlinked. rewrite !upd_ne; [done|..]; intros ->; apply Hb.
  - destruct rm_pv as [E|E]; [rewrite E in Hbo; unfold addr_ok in Hbo; lia | apply elem_of_app; by left].
  - destruct rm_nx as [E|E]; [rewrite E in Hbo; unfold addr_ok in Hbo; lia | apply elem_of_app; right; by right].
  - apply rm_a.
Qed.

Lemma rm_at : exists t, tags h' !! a = Some t /\ index t = -1 /\ loose t.
Proof.
  destruct rm_tag as (t & Ht & _). destruct rm_ne as (Hpa & Hna & _). exists (t <| next := 0 |> <| prev := 0 |> <| index := -1 |>).
  split; [|done]. cbn. unfold unlinked.
  by rewrite (upd_eq _ _ _ t); [|apply rm_a_zero|rewrite !upd_ne by done].
Qed.

(** The members of other lists are not in this one. *)
Lemma rm_other j ys b : fl !! j = Some ys -> b ∈ ys -> j <> i -> b ∉ l1 ++ a :: l2.
Proof.
  intros Hj Hb Hne Hbi. destruct (rm_member b Hbi) as (_ & _ & _ & tb & Htb & Eb).
  destruct (li_list _ _ _ (hi_lists _ _ _ _ _ Hinv) j ys Hj) as (_ & Hdj & _).
  destruct (dll_lookup _ _ _ _ _ b Hdj Hb) as (tb' & Htb' & Eb'). simplify_eq. lia.
Qed.

Lemma rm_lists : lists_ok (tags h') heads' (<[i := l1 ++ l2]> fl).
Proof.
  destruct rm_list as (Hnd & Hd & Hh). destruct rm_nodup as (Ha1 & Ha2 & Hx & Hn1 & Hn2).
  pose proof (hi_lists _ _ _ _ _ Hinv) as Hli. assert (Hil : (i < length fl)%nat) by by eapply lookup_lt_Some.
  constructor; [by rewrite length_insert, (li_length _ _ _ Hli)|]. intros j xs Hj. destruct (decide (j = i)) as [->|Hne].
  - rewrite list_lookup_insert_eq in Hj by done. injection Hj as <-. split_and!.
    + by apply NoDup_app.
    + apply (unlinked_dll _ _ _ _ _ Hnd rm_zero Hd).
    + unfold heads', nx. destruct l1 as [|b l]; cbn [app first] in *.
      * rewrite Z.eqb_refl. apply list_lookup_insert_eq. by eapply lookup_lt_Some.
      * rewrite (proj2 (Z.eqb_neq b a)); [done|]. intros ->. apply Ha1. left.
  - rewrite list_lookup_insert_ne in Hj by done. destruct (li_list _ _ _ Hli j xs Hj) as (Hnj & Hdj & Hhj).
    split_and!; [done| |unfold heads'; destruct (_ =? _); [by rewrite list_lookup_insert_ne|done]].
    eapply dll_ext; [|exact Hdj]. intros b Hb. rewrite rm_same; [done|by eapply rm_other|].
    eapply chunk_addr; [by apply Hinv|]. by eapply (ck_free _ _ _ _ _ (hi_chunks _ _ _ _ _ Hinv)).
Qed.

Lemma rm_status c t : c ∈ chunks regs -> c <> a -> tags h !! c = Some t -> chunk_status live held fl c t ->
  exists t', tags h' !! c = Some t' /\ chunk_status live (a :: held) (<[i := l1 ++ l2]> fl) c t'.
Proof.
  intros Hc Hca Ht Hst. assert (Hil : (i < length fl)%nat) by by eapply lookup_lt_Some.
  destruct (decide (c ∈ l1 ++ a :: l2)) as [Hci|Hci].
  - assert (Ed : data <$> tags h' !! c = data <$> tags h !! c) by apply unlinked_data. rewrite Ht in Ed.
    apply fmap_Some in Ed as (t' & Ht' & _). exists t'. split; [done|].
    destruct (ck_free _ _ _ _ _ (hi_chunks _ _ _ _ _ Hinv) i _ c Hi Hci) as (_ & Hn & H8).
    apply (status_free _ _ _ _ _ i (l1 ++ l2)); [by apply not_elem_of_cons|by apply list_lookup_insert_eq| |done].
    apply elem_of_app. apply elem_of_app in Hci as [?|[->|?]%elem_of_cons]; [by left|done|by right].
  - exists t. rewrite rm_same by (done || by eapply chunk_addr, Hc; apply Hinv). split; [done|].
    destruct Hst as [Hn Hidc Hlo Hlv Hs0 Hs1|j xs Hn Hj Hcj Hj8|Hh1 Hlo].
    + apply status_live; try done. by apply not_elem_of_cons.
    + apply (status_free _ _ _ _ _ j xs); try done; [by apply not_elem_of_cons|].
      rewrite list_lookup_insert_ne; [done|]. intros ->. rewrite Hi in Hj. by injection Hj as <-.
    + apply status_held; [by right | done].
Qed.

Lemma rm_free j xs c : <[i := l1 ++ l2]> fl !! j = Some xs -> c ∈ xs ->
  c ∈ chunks regs /\ (c ∉ a :: held) /\ (8 <= j)%nat.
Proof.
  intros Hj Hc. destruct rm_nodup as (Ha1 & Ha2 & _). destruct (decide (j = i)) as [->|Hne].
  - rewrite list_lookup_insert_eq in Hj by by eapply lookup_lt_Some. injection Hj as <-.
    destruct (ck_free _ _ _ _ _ (hi_chunks _ _ _ _ _ Hinv) i _ c Hi) as (? & ? & ?).
    { apply elem_of_app. apply elem_of_app in Hc as [?|?]; [by left | right; by right]. }
    split_and!; try done. apply not_elem_of_cons. split; [|done]. intros ->. by apply elem_of_app in Hc as [Hc|Hc].
  - rewrite list_lookup_insert_ne in Hj by done.
    destruct (ck_free _ _ _ _ _ (hi_chunks _ _ _ _ _ Hinv) j xs c Hj Hc) as (? & ? & ?).
    split_and!; try done. apply not_elem_of_cons. split; [|done]. intros ->.
    by apply (rm_other j xs a Hj Hc Hne rm_a).
Qed.

Lemma rm_chunks : chunks_ok (tags h') live (a :: held) regs (<[i := l1 ++ l2]> fl).
Proof.
  pose proof (hi_chunks _ _ _ _ _ Hinv) as Hck. destruct (rm_member a rm_a) as (Hac & _ & _ & _). constructor.
  - intros c Hc. destruct (ck_status _ _ _ _ _ Hck c Hc) as (t & Ht & Hm & Hst).
    assert (Hs : exists t', tags h' !! c = Some t' /\ chunk_status live (a :: held) (<[i := l1 ++ l2]> fl) c t').
    { destruct (decide (c = a)) as [->|Hca]; [|by eapply rm_status].
      destruct rm_at as (t' & Ht' & _ & Hl). exists t'. split; [done|]. apply status_held; [left|done]. }
    destruct Hs as (t' & Ht' & Hst'). exists t'. split; [done|]. split; [|done].
    assert (Ed : data <$> tags h' !! c = data <$> tags h !! c) by apply unlinked_data.
    rewrite Ht, Ht' in Ed. cbn in Ed. unfold data in Ed. congruence.
  - exact rm_free.
  - intros c [->|Hc]%elem_of_cons; [done | by eapply ck_held].
  - intros p s Hp. destruct (ck_live _ _ _ _ _ Hck p s Hp) as (Hc & Hnh & tp & Htp & Eidx & Esz).
    assert (Hpn : p - TAG ∉ l1 ++ a :: l2).
    { intros Hin'. destruct (rm_member _ Hin') as (_ & _ & _ & tp' & Htp' & E'). simplify_eq. lia. }
    split_and!; [done| |].
    + apply not_elem_of_cons. split; [|done]. intros E. apply Hpn. rewrite E. apply rm_a.
    + exists tp. rewrite rm_same; [done|done|by eapply chunk_addr, Hc; apply Hinv].
  - apply Hck.
Qed.

Lemma remove_tag_spec : exists h'', remove_tag a h = Some (tt, h'') /\ same_rest h h'' /\
  (exists t, tags h'' !! a = Some t /\ index t = -1) /\
  heap_inv live (a :: held) h'' regs (<[i := l1 ++ l2]> fl).
Proof.
  exists h'. split; [apply rm_run|].
  assert (Hdata : forall c, data <$> tags h' !! c = data <$> tags h !! c) by apply unlinked_data.
  split; [done|]. split; [destruct rm_at as (t & ? & ? & _); by exists t|]. pose proof Hinv as [Hti Hgv Hli Hhl Hcl Hck Hin].
  constructor; try done.
  - eapply tiles_ext; [|done]. intros b _. specialize (Hdata b). destruct (tags h' !! b), (tags h !! b); try done.
    cbn in *. unfold data in Hdata. congruence.
  - apply rm_lists.
  - cbn. unfold heads'. destruct (_ =? _); [by rewrite length_insert | done].
  - apply rm_chunks.
Qed.
End Remove.

(** ** Putting a chunk into a list *)

Definition linked (T : store) (a i head : Z) : store :=
  let T := upd T a (fun t => t <| index := i |>) in
  if head =? 0 then T
  else upd (upd T head (fun t => t <| prev := a |>)) a (fun t => t <| next := head |>).

Lemma linked_data T a i head c : data <$> linked T a i head !! c = data <$> T !! c.
Proof. unfold linked. destruct (head =? 0); by rewrite !upd_same. Qed.

Lemma linked_ne T a i head c : c <> a -> c <> head -> linked T a i head !! c = T !! c.
Proof. intros Ha Hh. unfold linked. destruct (head =? 0); by rewrite !upd_ne. Qed.

Lemma linked_dll T a i xs t :
  a <> 0 -> a ∉ xs -> NoDup xs -> 0 ∉ xs -> T !! a = Some t -> loose t -> dll T i 0 xs 0 ->
  dll (linked T a i (first 0 xs)) i 0 (a :: xs) 0.
Proof.
  intros Ha0 Ha Hnd Hz Ht [Hn Hp] Hd. cbn [dll]. unfold linked.
  assert (Hu : dll (upd T a (fun t => t <| index := i |>)) i 0 xs 0).
  { eapply dll_ext; [|exact Hd]. intros b Hb. rewrite upd_ne; [done|]. by intros ->. }
  assert (Hta : upd T a (fun t => t <| index := i |>) !! a = Some (t <| index := i |>)) by by apply upd_eq.
  destruct xs as [|x xs]; cbn [first].
  - rewrite Z.eqb_refl. eexists. split; [exact Hta|]. done.
  - assert (Hx0 : x <> 0) by (intros ->; apply Hz; left). rewrite (proj2 (Z.eqb_neq x 0)) by done.
    assert (Hxa : x <> a) by (intros ->; apply Ha; left).
    pose proof (dll_set_prev _ i 0 a _ _ Hnd Hz Hu) as Hs. cbn [first] in Hs. rewrite decide_False in Hs by done.
    eexists. split; [apply upd_eq; [done | by rewrite upd_ne]|]. split_and!; try done.
    eapply dll_ext; [|exact Hs]. intros b Hb. rewrite upd_ne; [done|]. by intros ->.
Qed.

Lemma insert_run h a i x t :
  addr_ok a -> tags h !! a = Some t -> l_freePages h !! i = Some x -> x <> a ->
  (x = 0 \/ addr_ok x /\ exists t, tags h !! x = Some t) ->
  insert_tag a (Z.of_nat i) h
  = Some (tt, (with_tags h (linked (tags h) a (Z.of_nat i) x)) <| l_freePages := <[i := a]> (l_freePages h) |>).
Proof.
  intros Ha Ht Hx Hne Hx0. unfold insert_tag. rewrite (proj2 (Z.ltb_ge _ 0)) by lia.
  rewrite (bind_run _ _ h h (Z.of_nat i)) by done.
  rewrite (bind_run _ _ _ _ _ (update_tag_run h a _ t Ha Ht)). set (h1 := with_tags h _).
  rewrite (bind_run _ _ _ _ _ (free_head_run h1 i x Hx)).
  rewrite (bind_run _ _ h1 (with_tags h (linked (tags h) a (Z.of_nat i) x)) tt).
  { unfold h1. by erewrite set_free_head_run. }
  unfold linked, truthy. destruct (Z.eqb_spec x 0) as [->|Hx1]; [done|]. cbn [negb].
  destruct Hx0 as [?|[Hxo (tx & Htx)]]; [done|].
  assert (Htx1 : tags h1 !! x = Some tx) by (cbn; by rewrite upd_ne).
  rewrite (bind_run _ _ _ _ _ (update_tag_run h1 x _ tx Hxo Htx1)).
  rewrite (update_tag_run _ a _ (t <| index := Z.of_nat i |>)); [done|done|].
  cbn. rewrite upd_ne by done. apply upd_eq; [unfold addr_ok in Ha; lia | done].
Qed.

Section Insert.
Context (live : list (Z * Z)) (held : list Z) (h : heap P) (regs : list region) (fl : list (list Z)).
Context (a : Z) (i : nat) (xs : list Z).
Hypothesis Hinv : heap_inv live (a :: held) h regs fl.
Hypothesis Ha : a ∉ held.
Hypothesis Hi : fl !! i = Some xs.
Hypothesis Hi8 : (8 <= i)%nat.
Let h' := (with_tags h (linked (tags h) a (Z.of_nat i) (first 0 xs))) <| l_freePages := <[i := a]> (l_freePages h) |>.

Lemma in_member j ys b : fl !! j = Some ys -> b ∈ ys ->
  addr_ok b /\ b <> a /\ (b ∉ held) /\ exists tb, tags h !! b = Some tb /\ index tb = Z.of_nat j.
Proof.
  intros Hj Hb. destruct (ck_free _ _ _ _ _ (hi_chunks _ _ _ _ _ Hinv) j ys b Hj Hb) as (Hbc & Hbh & _).
  split; [eapply chunk_addr, Hbc; apply Hinv|]. split; [intros ->; apply Hbh; left|].
  split; [intros ?; apply Hbh; by right|].
  destruct (li_list _ _ _ (hi_lists _ _ _ _ _ Hinv) j ys Hj) as (_ & Hdj & _). by eapply dll_lookup.
Qed.

Lemma in_a : a ∈ chunks regs /\ addr_ok a /\ exists t, tags h !! a = Some t /\ loose t.
Proof.
  pose proof (hi_chunks _ _ _ _ _ Hinv) as Hck.
  assert (Hac : a ∈ chunks regs) by (apply (ck_held _ _ _ _ _ Hck); left). split; [done|].
  split; [eapply chunk_addr, Hac; apply Hinv|]. destruct (ck_status _ _ _ _ _ Hck a Hac) as (t & Ht & _ & Hst).
  exists t. split; [done|]. destruct Hst as [Hn _ _ _ _ _|j ys Hn _ _ _|_ Hlo]; [exfalso; apply Hn; left..|done].
Qed.

Lemma in_head : (first 0 xs = 0 \/ first 0 xs ∈ xs) /\ first 0 xs <> a /\ (a ∉ xs) /\ (0 ∉ xs).
Proof.
  destruct in_a as (_ & Hao & _).
  assert (Hx0 : first 0 xs = 0 \/ first 0 xs ∈ xs) by (destruct xs; [by left | right; left]).
  assert (Hza : a ∉ xs) by (intros Hx; by destruct (in_member i xs a Hi Hx) as (_ & ? & _)).
  split_and!; [done| |done|].
  - intros E. destruct Hx0 as [E0|E0]; [unfold addr_ok in Hao; lia | by rewrite E in E0].
  - intros Hx. destruct (in_member i xs 0 Hi Hx) as [H0 _]. unfold addr_ok in H0. lia.
Qed.

Lemma in_same b : b <> a -> b ∉ xs -> addr_ok b -> tags h' !! b = tags h !! b.
Proof.
  intros Hb Hbx Hbo. apply linked_ne; [done|]. intros ->. destruct in_head as ([E|E] & _); [|done].
  rewrite E in Hbo. unfold addr_ok in Hbo. lia.
Qed.

(** The members of other lists are not in this one. *)
Lemma in_other j ys b : fl !! j = Some ys -> b ∈ ys -> j <> i -> b ∉ xs.
Proof.
  intros Hj Hb Hne Hbx. destruct (in_member j ys b Hj Hb) as (_ & _ & _ & tb & Htb & Eb).
  destruct (in_member i xs b Hi Hbx) as (_ & _ & _ & tb' & Htb' & Eb'). simplify_eq. lia.
Qed.

Lemma in_lists : lists_ok (tags h') (l_freePages h') (<[i := a :: xs]> fl).
Proof.
  pose proof (hi_lists _ _ _ _ _ Hinv) as Hli. destruct (li_list _ _ _ Hli i _ Hi) as (Hnd & Hd & Hh).
  destruct in_head as (_ & _ & Hza & Hz0). destruct in_a as (_ & Hao & t & Ht & Hlo).
  assert (Hil : (i < length fl)%nat) by by eapply lookup_lt_Some.
  constructor; [by rewrite length_insert, (li_length _ _ _ Hli)|]. intros j ys Hj. destruct (decide (j = i)) as [->|Hne].
  - rewrite list_lookup_insert_eq in Hj by done. injection Hj as <-. split_and!.
    + by constructor.
    + eapply linked_dll; try done. unfold addr_ok in Hao. lia.
    + apply list_lookup_insert_eq. by eapply lookup_lt_Some.
  - rewrite list_lookup_insert_ne in Hj by done. destruct (li_list _ _ _ Hli j ys Hj) as (Hnj & Hdj & Hhj).
    split_and!; [done| |by cbn; rewrite list_lookup_insert_ne]. eapply dll_ext; [|exact Hdj].
    intros b Hb. destruct (in_member j ys b Hj Hb) as (Hbo & Hba & _). rewrite in_same; [done..| |done].
    by eapply in_other.
Qed.

Lemma in_status c t : c ∈ chunks regs -> tags h !! c = Some t -> chunk_status live (a :: held) fl c t ->
  exists t', tags h' !! c = Some t' /\ chunk_status live held (<[i := a :: xs]> fl) c t'.
Proof.
  intros Hc Ht Hst. assert (Hil : (i < length fl)%nat) by by eapply lookup_lt_Some.
  destruct (decide (c ∈ a :: xs)) as [Hci|Hci].
  - assert (Ed : data <$> tags h' !! c = data <$> tags h !! c) by apply linked_data. rewrite Ht in Ed.
    apply fmap_Some in Ed as (t' & Ht' & _). exists t'. split; [done|].
    apply (status_free _ _ _ _ _ i (a :: xs)); try done; [|by apply list_lookup_insert_eq].
    apply elem_of_cons in Hci as [->|Hci]; [done|]. by apply (in_member i xs c Hi Hci).
  - apply not_elem_of_cons in Hci as [Hca Hcx]. exists t.
    rewrite in_same by (done || by eapply chunk_addr, Hc; apply Hinv). split; [done|].
    destruct Hst as [Hnh Hidc Hl Hlv Hs0 Hs1|j ys Hnh Hj Hcj Hj8|Hh1 Hl].
    + apply status_live; try done. intros ?. apply Hnh. by right.
    + apply (status_free _ _ _ _ _ j ys); try done; [intros ?; apply Hnh; by right|].
      rewrite list_lookup_insert_ne; [done|]. intros ->. rewrite Hi in Hj. by injection Hj as <-.
    + apply status_held; [by apply elem_of_cons in Hh1 as [?|?] | done].
Qed.

Lemma in_chunks : chunks_ok (tags h') live held regs (<[i := a :: xs]> fl).
Proof.
  pose proof (hi_chunks _ _ _ _ _ Hinv) as Hck. destruct in_a as (Hac & Hao & _).
  assert (Hil : (i < length fl)%nat) by by eapply lookup_lt_Some. constructor.
  - intros c Hc. destruct (ck_status _ _ _ _ _ Hck c Hc) as (t & Ht & Hm & Hst).
    destruct (in_status c t Hc Ht Hst) as (t' & Ht' & Hst'). exists t'. split; [done|]. split; [|done].
    assert (Ed : data <$> tags h' !! c = data <$> tags h !! c) by apply linked_data.
    rewrite Ht, Ht' in Ed. cbn in Ed. unfold data in Ed. congruence.
  - intros j ys c Hj Hc. destruct (decide (j = i)) as [->|Hne].
    + rewrite list_lookup_insert_eq in Hj by done. injection Hj as <-. apply elem_of_cons in Hc as [->|Hc]; [done|].
      destruct (ck_free _ _ _ _ _ Hck i xs c Hi Hc) as (? & Hn & ?). split_and!; try done. intros ?. apply Hn. by right.
    + rewrite list_lookup_insert_ne in Hj by done. destruct (ck_free _ _ _ _ _ Hck j ys c Hj Hc) as (? & Hn & ?).
      split_and!; try done. intros ?. apply Hn. by right.
  - intros c Hc. apply (ck_held _ _ _ _ _ Hck). by right.
  - intros p s Hp. destruct (ck_live _ _ _ _ _ Hck p s Hp) as (Hc & Hnh & tp & Htp & Eidx & Esz).
    split_and!; [done|intros ?; apply Hnh; by right|]. exists tp.
    rewrite in_same; [done|..|by eapply chunk_addr, Hc; apply Hinv].
    + intros E. apply Hnh. rewrite E. left.
    + intros Hx. destruct (in_member i xs _ Hi Hx) as (_ & _ & _ & tp' & Htp' & E'). simplify_eq. lia.
  - apply Hck.
Qed.

Lemma insert_tag_spec : exists h'', insert_tag a (Z.of_nat i) h = Some (tt, h'') /\ same_rest h h'' /\
  (forall c, c ∈ held -> tags h'' !! c = tags h !! c) /\ heap_inv live held h'' regs (<[i := a :: xs]> fl).
Proof.
  exists h'. pose proof Hinv as [Hti Hgv Hli Hhl Hcl Hck Hin]. destruct in_head as (Hx0 & Hxa & _).
  destruct in_a as (_ & Hao & t & Ht & _). split.
  { destruct (li_list _ _ _ Hli i _ Hi) as (_ & _ & Hh). apply (insert_run h a i (first 0 xs) t); try done.
    destruct Hx0 as [?|Hx]; [by left|right].
    destruct (in_member i xs _ Hi Hx) as (? & _ & _ & tb & ? & _). split; [done|by exists tb]. }
  assert (Hdata : forall c, data <$> tags h' !! c = data <$> tags h !! c) by (intros c; apply linked_data).
  split; [done|]. split.
  { intros c Hc. apply in_same; [by intros ->| |].
    - intros Hx. by apply (in_member i xs c Hi Hx).
    - eapply chunk_addr; [exact Hti|]. apply (ck_held _ _ _ _ _ Hck). by right. }
  constructor; try done.
  - eapply tiles_ext; [|done]. intros b _. specialize (Hdata b). destruct (tags h' !! b), (tags h !! b); try done.
    cbn in *. unfold data in Hdata. congruence.
  - apply in_lists.
  - cbn. by rewrite length_insert.
  - apply in_chunks.
Qed.
End Insert.

(** ** Changing the tiling *)

(** What the lists and the live blocks read of a tag. *)
Definition rest (t : boundary_tag) : Z * Z * (Z * Z * Z) := (magic t, tsize t, link t).

(** [T'] has the tags of [T], with other sizes and neighbours; the chunks of
    live blocks do not shrink. *)
Definition retiled (T T' : store) (held : list Z) (regs : list region) : Prop :=
  forall c t, c ∈ chunks regs -> T !! c = Some t -> exists t', T' !! c = Some t' /\ rest t' = rest t /\
    (c ∉ held -> real_size t <= real_size t').

Lemma status_retiled live held fl c t t' :
  rest t' = rest t -> (c ∉ held -> real_size t <= real_size t') ->
  chunk_status live held fl c t -> chunk_status live held fl c t'.
Proof.
  intros Er Hs. unfold rest, link in Er. injection Er as Em Es Ei En Ep.
  intros [Hn Hi [Hn0 Hp0] Hl H0 H1|i xs Hn Hi Hc H8|Hh [Hn0 Hp0]].
  - specialize (Hs Hn). apply status_live; rewrite ?Ei, ?Es; try done; [by split; rewrite ?En, ?Ep | lia].
  - by apply (status_free _ _ _ _ _ i xs).
  - apply status_held; [done|]. by split; rewrite ?En, ?Ep.
Qed.

Lemma lists_retiled T T' live held regs fl heads :
  chunks_ok T live held regs fl -> retiled T T' held regs -> lists_ok T heads fl -> lists_ok T' heads fl.
Proof.
  intros Hck Hr. apply lists_ext. intros i xs b Hi Hb. destruct (ck_free _ _ _ _ _ Hck i xs b Hi Hb) as (Hc & _ & _).
  destruct (ck_status _ _ _ _ _ Hck b Hc) as (t & Ht & _ & _).
  destruct (Hr b t Hc Ht) as (t' & Ht' & Er & _). rewrite Ht, Ht'. cbn. unfold rest in Er. congruence.
Qed.

(** A held chunk joins its neighbour. *)
Lemma chunks_ok_drop T T' live held regs regs' fl a :
  chunks_ok T live (a :: held) regs fl -> a ∉ held -> retiled T T' (a :: held) regs ->
  (forall c, c ∈ chunks regs' <-> c ∈ chunks regs /\ c <> a) -> chunks_ok T' live held regs' fl.
Proof.
  intros [Hst Hfr Hhe Hlv Hnd] Ha Hr Hc. constructor; [| | | |done].
  - intros c [Hin Hca]%Hc. destruct (Hst c Hin) as (t & Ht & Hm & Hs).
    destruct (Hr c t Hin Ht) as (t' & Ht' & Er & Hsz). exists t'. split; [done|].
    split; [unfold rest in Er; congruence|].
    pose proof (status_retiled _ _ _ _ _ _ Er Hsz Hs) as Hs'. destruct Hs' as [Hn|i xs Hn Hi Hx H8|Hh Hl].
    + apply status_live; try done. intros ?. apply Hn. by right.
    + apply (status_free _ _ _ _ _ i xs); try done. intros ?. apply Hn. by right.
    + apply status_held; [|done]. by apply elem_of_cons in Hh as [?|?].
  - intros i xs c Hi Hx. destruct (Hfr i xs c Hi Hx) as (H1 & H2 & H3). split_and!; [|intros ?; apply H2; by right|done].
    apply Hc. split; [done|]. intros ->. apply H2. left.
  - intros c Hh. apply Hc. split; [apply Hhe; by right|]. by intros ->.
  - intros p s Hp. destruct (Hlv p s Hp) as (H1 & H2 & t & Ht & Hi & Hs).
    destruct (Hr _ t H1 Ht) as (t' & Ht' & Er & _). unfold rest, link in Er.
    split_and!; [apply Hc; split; [done|intros E; apply H2; rewrite E; left]|intros ?; apply H2; by right|].
    exists t'. split; [done|]. split; congruence.
Qed.

(** A held chunk is cut: its second part is held too. *)
Lemma chunks_ok_add T T' live held regs regs' fl n tn :
  chunks_ok T live held regs fl -> retiled T T' held regs -> n ∉ chunks regs ->
  T' !! n = Some tn -> magic tn = LIBALLOC_MAGIC -> loose tn ->
  (forall c, c ∈ chunks regs' <-> c ∈ chunks regs \/ c = n) -> chunks_ok T' live (n :: held) regs' fl.
Proof.
  intros [Hst Hfr Hhe Hlv Hnd] Hr Hn Htn Hmn Hln Hc. constructor; [| | | |done].
  - intros c [Hin| ->]%Hc; [|exists tn; split_and!; [done..|apply status_held; [left|done]]].
    assert (Hcn : c <> n) by by intros ->.
    destruct (Hst c Hin) as (t & Ht & Hm & Hs). destruct (Hr c t Hin Ht) as (t' & Ht' & Er & Hsz).
    exists t'. split; [done|]. split; [unfold rest in Er; congruence|].
    pose proof (status_retiled _ _ _ _ _ _ Er Hsz Hs) as Hs'.
    destruct Hs' as [Hh|i xs Hh Hi Hx H8|Hh Hl].
    + apply status_live; try done. by apply not_elem_of_cons.
    + apply (status_free _ _ _ _ _ i xs); try done. by apply not_elem_of_cons.
    + apply status_held; [by right|done].
  - intros i xs c Hi Hx. destruct (Hfr i xs c Hi Hx) as (H1 & H2 & H3). split_and!; [apply Hc; by left| |done].
    apply not_elem_of_cons. split; [by intros ->|done].
  - intros c [->|Hh]%elem_of_cons; apply Hc; [by right|left; by apply Hhe].
  - intros p s Hp. destruct (Hlv p s Hp) as (H1 & H2 & t & Ht & Hi & Hs).
    destruct (Hr _ t H1 Ht) as (t' & Ht' & Er & _). unfold rest, link in Er.
    split_and!; [apply Hc; by left | apply not_elem_of_cons; split; [intros E; apply Hn; by rewrite <- E|done]|].
    exists t'. split; [done|]. split; congruence.
Qed.

(** ** Merging neighbours *)

(** [a] joins [b] on its left; [nx] follows. *)
Definition merged (T : store) (b ra sr : Z) : store :=
  upd (upd T b (fun l => l <| real_size := u32 (real_size l + ra) |> <| split_right := sr |>)) sr
    (fun r => r <| split_left := b |>).

Lemma merged_ne T b ra sr c : c <> b -> c <> sr -> merged T b ra sr !! c = T !! c.
Proof. intros. unfold merged. by rewrite !upd_ne. Qed.

Lemma merge_seg T l b a r s e ta :
  0 ∉ l ++ b :: a :: r -> e - s < 2 ^ 32 -> T !! a = Some ta ->
  seg T 0 (l ++ b :: a :: r) s e 0 ->
  split_right ta = first 0 r /\ split_left ta = b /\
  seg (merged T b (real_size ta) (first 0 r)) 0 (l ++ b :: r) s e 0.
Proof.
  intros Hz He Hta H. pose proof (seg_nodup _ _ _ _ _ _ H) as Hnd.
  assert (Hsz : forall c, c ∈ l ++ b :: a :: r -> exists t, T !! c = Some t /\ TAG <= real_size t /\ s <= c /\ c + real_size t <= e).
  { intros c Hc. by eapply seg_lookup. }
  apply seg_app in H as (m & H1 & (-> & tb & Htb & Hlb & Hrb & Hsb & (-> & ta' & Hta' & Hla & Hra & Hsa & H2))).
  rewrite Hta in Hta'. injection Hta' as <-. split; [done|]. split; [done|].
  apply NoDup_app in Hnd as (Hn1 & Hx & [Hb Hn2]%NoDup_cons). apply NoDup_cons in Hn2 as [Ha Hn2].
  assert (Hz2 : 0 ∉ r) by (intros ?; apply Hz, elem_of_app; right; right; by right).
  assert (Hm0 : m <> 0) by (intros ->; apply Hz, elem_of_app; right; left).
  assert (Hbr : m ∉ r) by (intros ?; apply Hb; by right).
  assert (Hfr : first 0 r = 0 \/ first 0 r ∈ r) by (destruct r; [by left | right; left]).
  assert (Hfm : first 0 r <> m) by (intros E; destruct Hfr as [E0|E0]; [congruence | by rewrite E in E0]).
  set (ra := real_size ta) in *.
  apply seg_app. exists m. split.
  - cbn [first] in *. eapply seg_ext; [|exact H1]. intros c Hc. rewrite merged_ne; [done|..].
    + intros ->. apply (Hx m Hc). left.
    + intros ->. destruct Hfr as [E|E]; [|apply (Hx _ Hc); right; by right].
      apply Hz, elem_of_app. left. by rewrite <- E.
  - split; [done|]. unfold merged at 1. rewrite upd_ne by done. rewrite (upd_eq _ _ _ tb) by done.
    eexists. split; [done|]. split; [done|]. split; [done|]. cbn.
    destruct (Hsz (m + real_size tb)) as (t1 & Ht1 & _ & _ & He1); [apply elem_of_app; right; right; left|].
    destruct (Hsz m) as (t2 & Ht2 & _ & Hm1 & _); [apply elem_of_app; right; left|].
    rewrite Hta in Ht1. injection Ht1 as <-. fold ra in He1. unfold TAG in *.
    rewrite u32_small by lia. split; [lia|]. rewrite Z.add_assoc.
    pose proof (seg_set_left T _ m r _ _ _ Hz2 H2) as H3. eapply seg_ext; [|exact H3].
    intros c Hc. unfold merged. destruct (decide (r = [])) as [->|]; [by inversion Hc|].
    f_equal. apply upd_cong, upd_ne. by intros ->.
Qed.

(** The chunk [b] grows over [a], which is held. *)
Lemma merge_spec live held h r1 s n l b a r r2 fl ta :
  heap_inv live (a :: held) h (r1 ++ (s, n, l ++ b :: a :: r) :: r2) fl -> a ∉ held -> tags h !! a = Some ta ->
  split_right ta = first 0 r /\ split_left ta = b /\
  heap_inv live held (with_tags h (merged (tags h) b (real_size ta) (first 0 r)))
    (r1 ++ (s, n, l ++ b :: r) :: r2) fl.
Proof.
  intros [Hti Hgv Hli Hhl Hcl Hck Hin] Hah Hta.
  pose proof Hti as [Hr _]. apply Forall_app in Hr as [_ Hr]. apply Forall_cons in Hr as [(Hs0 & Hs1 & _ & _ & _ & Hsg) _].
  assert (Hch : forall c, c ∈ l ++ b :: a :: r -> c ∈ chunks (r1 ++ (s, n, l ++ b :: a :: r) :: r2)).
  { intros c Hc. rewrite chunks_app, chunks_cons, !elem_of_app. rewrite elem_of_app in Hc. tauto. }
  assert (Hz : 0 ∉ l ++ b :: a :: r).
  { intros H0. apply Hch, (chunk_addr _ _ _ Hti) in H0. unfold addr_ok in H0. lia. }
  destruct (merge_seg (tags h) l b a r s (s + n) ta Hz ltac:(lia) Hta Hsg) as (Hsr & Hsl & Hsg').
  split; [done|]. split; [done|].
  pose proof (seg_nodup _ _ _ _ _ _ Hsg) as Hnd. apply NoDup_app in Hnd as (Hn1 & Hx & [Hb Hn2]%NoDup_cons).
  apply NoDup_cons in Hn2 as [Har Hn2].
  assert (Hfr : first 0 r = 0 \/ first 0 r ∈ r) by (destruct r; [by left | right; left]).
  assert (Hbf : b <> first 0 r).
  { intros E. destruct Hfr as [E0|E0]; [|apply Hb; right; by rewrite E].
    apply Hz, elem_of_app. right. rewrite E, E0. left. }
  destruct (in_region _ _ _ _ _ _ b Hti) as (tb & Htb & Hsb & Hb0 & Hb1); [apply elem_of_app; right; left|].
  assert (Hret : retiled (tags h) (merged (tags h) b (real_size ta) (first 0 r)) (a :: held) (r1 ++ (s, n, l ++ b :: a :: r) :: r2)).
  { intros c t Hc Ht. unfold merged. destruct (decide (c = first 0 r)) as [->|Hcf].
    - assert (first 0 r <> 0) by (intros E; rewrite E in Hc; apply (chunk_addr _ _ _ Hti) in Hc; unfold addr_ok in Hc; lia).
      eexists. split; [apply upd_eq; [done|by rewrite upd_ne]|]. done.
    - destruct (decide (c = b)) as [->|Hcb]; [|exists t; rewrite !upd_ne by done; done].
      assert (b <> 0) by (intros ->; apply (chunk_addr _ _ _ Hti) in Hc; unfold addr_ok in Hc; lia).
      rewrite upd_ne by done. eexists. split; [by apply upd_eq|]. split; [done|]. intros _. cbn.
      rewrite Htb in Ht. injection Ht as <-.
      destruct (in_region _ _ _ _ _ _ a Hti) as (ta' & Hta' & Hsa & Ha0 & Ha1); [apply elem_of_app; right; right; left|].
      rewrite Hta in Hta'. injection Hta' as <-.
      apply seg_app in Hsg as (m & _ & (-> & tb' & Htb' & _ & _ & _ & (-> & _))). rewrite Htb in Htb'. injection Htb' as <-.
      unfold TAG in *. rewrite u32_small by lia. lia. }
  assert (Hcc : forall c, c ∈ chunks (r1 ++ (s, n, l ++ b :: r) :: r2) <->
    c ∈ chunks (r1 ++ (s, n, l ++ b :: a :: r) :: r2) /\ c <> a).
  { intros c. split.
    - intros Hc. rewrite chunks_app, chunks_cons in Hc. rewrite chunks_app, chunks_cons.
      rewrite !elem_of_app, !elem_of_cons in Hc. rewrite !elem_of_app, !elem_of_cons. split; [tauto|].
      intros ->. destruct (in_region _ _ _ _ _ _ a Hti) as (ta' & Hta' & Hsa & Ha0 & Ha1); [apply elem_of_app; right; right; left|].
      assert (Hna : a ∉ chunks (r1 ++ r2)).
      { intros Hc2. apply (other_region _ _ _ _ _ _ _ Hti Hc2). unfold TAG in *. lia. }
      rewrite chunks_app, elem_of_app in Hna.
      destruct Hc as [Hc|[[Hc|[Hc|Hc]]|Hc]]; [tauto| | | |tauto].
      + apply (Hx a Hc). right. left.
      + apply Hb. rewrite Hc. left.
      + done.
    - intros [Hc Hca]. rewrite chunks_app, chunks_cons in Hc. rewrite chunks_app, chunks_cons.
      rewrite !elem_of_app, !elem_of_cons in Hc. rewrite !elem_of_app, !elem_of_cons. tauto. }
  constructor; try done.
  - cbn. eapply tiles_replace; [exact Hti | by destruct l | exact Hsg' |]. intros c Hc.
    assert (Hcb : c <> b) by (intros ->; unfold TAG in *; lia). unfold merged.
    destruct Hfr as [E|E]; [rewrite E, upd_zero; by rewrite upd_ne|].
    rewrite !upd_ne; [done|done|]. intros ->.
    destruct (in_region _ _ _ _ _ _ (first 0 r) Hti) as (tf & _ & Hsf & Hf0 & Hf1);
      [apply elem_of_app; right; right; by right|]. unfold TAG in *. lia.
  - by rewrite map_app in *.
  - cbn. by eapply lists_retiled.
  - cbn. by eapply chunks_ok_drop.
Qed.

(** ** Regions that come and go *)

Lemma new_region live held h regs fl p k t :
  heap_inv live held h regs fl -> 0 < p -> p + k < 2 ^ 32 -> 65536 <= k -> k mod 4096 = 0 ->
  Forall (apart (p, k)) (map fst regs) -> forall s', map fst ((p, k, [p]) :: regs) ≡ₚ given s' ->
  t = BoundaryTag LIBALLOC_MAGIC (tsize t) k (-1) 0 0 0 0 ->
  (p ∉ held) /\
  heap_inv live (p :: held) ((with_tags h (<[p := t]> (tags h))) <| source := s' |>) ((p, k, [p]) :: regs) fl.
Proof.
  intros [Hti Hgv Hli Hhl Hcl Hck Hin] Hp0 Hp1 Hk Hk4 Hap s' Hs' Et.
  assert (Hnr : forall c, c ∈ chunks regs -> ~ (p <= c < p + k)).
  { intros c Hc Hr. destruct (region_of _ _ _ Hti Hc) as (r1 & a & n & xs & r2 & -> & Hx & _ & _ & _ & _ & Hs).
    destruct (seg_lookup _ _ _ _ _ _ c Hs Hx) as (tc & _ & Htc & Hc0 & Hc1).
    rewrite map_app in Hap. apply Forall_app in Hap as [_ Hap]. apply Forall_cons in Hap as [Hap _].
    unfold apart in Hap. cbn in Hap. unfold TAG in *. lia. }
  assert (Hnp : forall c, c ∈ chunks regs -> c <> p) by (intros c Hc ->; apply (Hnr p Hc); lia).
  split; [intros Hh; apply (Hnp p); [by eapply ck_held|done]|].
  assert (Hsame : forall c, c ∈ chunks regs -> <[p := t]> (tags h) !! c = tags h !! c).
  { intros c Hc. apply lookup_insert_ne. intros ->. by apply (Hnp c). }
  constructor; try done.
  - cbn. destruct Hti as [Hr Ha]. constructor; [|by split]. apply Forall_cons. split.
    + split_and!; try done. cbn. split; [done|]. exists t. rewrite lookup_insert_eq. rewrite Et. cbn.
      split_and!; try done. unfold TAG. lia.
    + assert (Ht' : tiles (<[p := t]> (tags h)) regs) by (eapply tiles_ext; [|by constructor]; intros b Hb; by rewrite Hsame).
      apply Ht'.
  - cbn. eapply lists_ext; [|exact Hli]. intros i xs b Hi Hb. rewrite Hsame; [done|]. by eapply (ck_free _ _ _ _ _ Hck).
  - cbn. eapply chunks_ok_add with (T := tags h) (tn := t); try done.
    + intros c tc Hc Htc. exists tc. rewrite Hsame by done. done.
    + intros Hc. by apply (Hnp p).
    + apply lookup_insert_eq.
    + by rewrite Et.
    + by rewrite Et.
    + intros c. rewrite chunks_cons, elem_of_app, list_elem_of_singleton. tauto.
Qed.
(** ** Cutting a chunk *)

(** The new tag is not cleared. *)
Context (junk : Z -> Z).

Definition cut (T : store) (b size : Z) (tb : boundary_tag) : store :=
  let rem := real_size tb - TAG - size in
  let n := b + TAG + size in
  upd (upd (<[n := BoundaryTag LIBALLOC_MAGIC (junk n) rem (junk n) b (split_right tb) 0 0]> T)
         (split_right tb) (fun r => r <| split_left := n |>))
    b (fun t => t <| split_right := n |> <| real_size := u32 (real_size t - rem) |>).

Lemma cut_seg T l b r s e tb size :
  0 ∉ l ++ b :: r -> e - s < 2 ^ 32 -> T !! b = Some tb -> 0 <= size -> 2 * TAG + size <= real_size tb ->
  seg T 0 (l ++ b :: r) s e 0 ->
  seg (cut T b size tb) 0 (l ++ b :: (b + TAG + size) :: r) s e 0 /\ split_right tb = first 0 r.
Proof.
  intros Hz He Htb Hs0 Hs1 H. pose proof (seg_nodup _ _ _ _ _ _ H) as Hnd.
  assert (Hsz : forall c, c ∈ l ++ b :: r -> exists t, T !! c = Some t /\ TAG <= real_size t /\ s <= c /\ c + real_size t <= e).
  { intros c Hc. by eapply seg_lookup. }
  assert (Hap : forall c, c ∈ l ++ b :: r -> c <> b + TAG + size).
  { intros c Hc ->. assert (Hb : b ∈ l ++ b :: r) by (apply elem_of_app; right; left).
    pose proof (seg_apart _ _ _ _ _ _ b _ tb H Hb Hc) as Hx. unfold TAG in *. specialize (Hx ltac:(lia) Htb). lia. }
  apply seg_app in H as (m & H1 & (-> & tb' & Htb' & Hlb & Hrb & Hsb & H2)).
  rewrite Htb in Htb'. injection Htb' as <-. split; [|done].
  set (n := m + TAG + size) in *. set (rem := real_size tb - TAG - size).
  apply NoDup_app in Hnd as (Hn1 & Hx & [Hb Hn2]%NoDup_cons).
  assert (Hz2 : 0 ∉ r) by (intros ?; apply Hz, elem_of_app; right; by right).
  assert (Hm0 : m <> 0) by (intros ->; apply Hz, elem_of_app; right; left).
  assert (Hfr : first 0 r = 0 \/ first 0 r ∈ r) by (destruct r; [by left | right; left]).
  assert (Hfm : first 0 r <> m) by (intros E; destruct Hfr as [E0|E0]; [congruence | by rewrite E in E0]).
  assert (Hnm : n <> m) by (unfold n, TAG; lia).
  destruct (Hsz m) as (t2 & Ht2 & _ & Hm1 & Hm2); [apply elem_of_app; right; left|].
  rewrite Htb in Ht2. injection Ht2 as <-.
  assert (Hcut : forall c, c <> m -> c <> n -> c <> first 0 r -> cut T m size tb !! c = T !! c).
  { intros c Hc1 Hc2 Hc3. unfold cut. rewrite Hrb. fold n. rewrite !upd_ne, lookup_insert_ne by done. done. }
  assert (Hnf : n <> first 0 r \/ first 0 r = 0).
  { destruct Hfr as [E|E]; [by right|left]. intros E2. apply (Hap (first 0 r)); [apply elem_of_app; right; by right|done]. }
  apply seg_app. exists m. split.
  - cbn [first] in *. eapply seg_ext; [|exact H1]. intros c Hc. rewrite Hcut; [done|..].
    + intros ->. apply (Hx m Hc). left.
    + intros ->. eapply Hap; [apply elem_of_app; by left|]. done.
    + intros ->. destruct Hfr as [E|E]; [|apply (Hx _ Hc); by right].
      apply Hz, elem_of_app. left. by rewrite <- E.
  - split; [done|]. unfold cut at 1. rewrite Hrb. fold n rem.
    eexists. split; [apply upd_eq; [done|rewrite upd_ne, lookup_insert_ne by done; done]|].
    split; [done|]. split; [done|]. cbn.
    assert (Hrs : u32 (real_size tb - rem) = TAG + size).
    { unfold rem. rewrite u32_small by (unfold TAG in *; lia). lia. }
    rewrite Hrs. split; [unfold TAG in *; lia|]. split; [unfold n; lia|].
    unfold cut at 1. rewrite Hrb. fold n rem. rewrite upd_ne by done.
    exists (BoundaryTag LIBALLOC_MAGIC (junk n) rem (junk n) m (first 0 r) 0 0). split.
    { destruct Hnf as [Hnf|E]; [rewrite upd_ne by done; apply lookup_insert_eq|].
      rewrite E, upd_zero. apply lookup_insert_eq. }
    split; [done|]. split; [done|]. split; [cbn; unfold rem, TAG in *; lia|]. cbn.
    replace (m + (TAG + size) + rem) with (m + real_size tb) by (unfold rem; lia).
    pose proof (seg_set_left T _ n r _ _ _ Hz2 H2) as H3. eapply seg_ext; [|exact H3].
    intros c Hc. unfold cut. rewrite Hrb. fold n rem. destruct (decide (r = [])) as [->|]; [by inversion Hc|].
    rewrite upd_ne by (by intros ->). f_equal. apply upd_cong, lookup_insert_ne. intros E.
    apply (Hap c); [apply elem_of_app; right; by right | done].
Qed.

Lemma cut_spec live held h r1 s k l b r r2 fl tb size :
  heap_inv live held h (r1 ++ (s, k, l ++ b :: r) :: r2) fl -> b ∈ held -> tags h !! b = Some tb ->
  0 <= size -> 2 * TAG + size <= real_size tb ->
  (b + TAG + size ∉ held) /\
  heap_inv live ((b + TAG + size) :: held) (with_tags h (cut (tags h) b size tb))
    (r1 ++ (s, k, l ++ b :: (b + TAG + size) :: r) :: r2) fl.
Proof.
  intros [Hti Hgv Hli Hhl Hcl Hck Hin] Hbh Htb Hs0 Hs1. set (n := b + TAG + size).
  pose proof Hti as [Hr _]. apply Forall_app in Hr as [_ Hr]. apply Forall_cons in Hr as [(Ha0 & Ha1 & _ & _ & _ & Hsg) _].
  assert (Hch : forall c, c ∈ l ++ b :: r -> c ∈ chunks (r1 ++ (s, k, l ++ b :: r) :: r2)).
  { intros c Hc. rewrite chunks_app, chunks_cons, !elem_of_app. rewrite elem_of_app in Hc. tauto. }
  assert (Hz : 0 ∉ l ++ b :: r).
  { intros H0. apply Hch, (chunk_addr _ _ _ Hti) in H0. unfold addr_ok in H0. lia. }
  destruct (cut_seg (tags h) l b r s (s + k) tb size Hz ltac:(lia) Htb Hs0 Hs1 Hsg) as [Hsg' Hsr].
  assert (Hbin : b ∈ l ++ b :: r) by (apply elem_of_app; right; left).
  destruct (in_region _ _ _ _ _ _ b Hti Hbin) as (tb' & Htb' & _ & Hb0 & Hb1). rewrite Htb in Htb'. injection Htb' as <-.
  assert (Hnc : n ∉ chunks (r1 ++ (s, k, l ++ b :: r) :: r2)).
  { intros Hc. rewrite chunks_app, chunks_cons, !elem_of_app in Hc.
    assert (Hin2 : n ∈ chunks (r1 ++ r2) \/ n ∈ l ++ b :: r) by (rewrite chunks_app, !elem_of_app; tauto).
    destruct Hin2 as [Hc2|Hc2].
    - apply (other_region _ _ _ _ _ _ _ Hti Hc2). unfold n, TAG in *. lia.
    - pose proof (seg_apart _ _ _ _ _ _ b n tb Hsg Hbin Hc2) as Hx. unfold n, TAG in *. specialize (Hx ltac:(lia) Htb). lia. }
  split; [intros Hh; apply Hnc; by eapply ck_held|].
  assert (Hfr : first 0 r = 0 \/ first 0 r ∈ r) by (destruct r; [by left | right; left]).
  assert (Hfb : first 0 r <> b).
  { pose proof (seg_nodup _ _ _ _ _ _ Hsg) as Hnd. apply NoDup_app in Hnd as (_ & _ & [Hb _]%NoDup_cons).
    intros E. destruct Hfr as [E0|E0]; [|by rewrite E in E0]. apply Hz. by rewrite <- E0, E. }
  assert (Hb00 : b <> 0) by (intros ->; done).
  assert (Hnb : n <> b) by (unfold n, TAG; lia).
  assert (Hbase : forall c, c ∈ chunks (r1 ++ (s, k, l ++ b :: r) :: r2) -> c <> n) by by intros c Hc ->.
  assert (Hret : retiled (tags h) (cut (tags h) b size tb) held (r1 ++ (s, k, l ++ b :: r) :: r2)).
  { intros c t Hc Ht. pose proof (Hbase c Hc) as Hcn. unfold cut. rewrite Hsr. fold n.
    destruct (decide (c = b)) as [->|Hcb].
    - eexists. split; [apply upd_eq; [done|rewrite upd_ne, lookup_insert_ne by done; exact Ht]|]. by split.
    - rewrite upd_ne by done. destruct (decide (c = first 0 r)) as [->|Hcf].
      + assert (first 0 r <> 0) by (intros E; rewrite E in Hc; apply (chunk_addr _ _ _ Hti) in Hc; unfold addr_ok in Hc; lia).
        eexists. split; [apply upd_eq; [done|by rewrite lookup_insert_ne]|]. done.
      + exists t. by rewrite upd_ne, lookup_insert_ne. }
  assert (Hcn : cut (tags h) b size tb !! n = Some (BoundaryTag LIBALLOC_MAGIC (junk n) (real_size tb - TAG - size) (junk n) b (first 0 r) 0 0)).
  { unfold cut. rewrite Hsr. fold n. rewrite upd_ne by done.
    destruct Hfr as [E|E]; [rewrite E, upd_zero; apply lookup_insert_eq|]. rewrite upd_ne; [apply lookup_insert_eq|].
    intros E2. apply (Hbase (first 0 r)); [apply Hch, elem_of_app; right; by right|done]. }
  constructor; try done.
  - cbn. eapply tiles_replace; [exact Hti | by destruct l | exact Hsg' |]. intros c Hc. unfold cut. rewrite Hsr. fold n.
    rewrite upd_ne by (intros ->; unfold TAG in *; lia).
    assert (c <> n) by (intros ->; unfold n, TAG in *; lia).
    destruct Hfr as [E|E]; [rewrite E, upd_zero; by rewrite lookup_insert_ne|].
    rewrite upd_ne; [by rewrite lookup_insert_ne|]. intros ->.
    destruct (in_region _ _ _ _ _ _ (first 0 r) Hti) as (tf & _ & Hsf & Hf0 & Hf1);
      [apply elem_of_app; right; by right|]. unfold TAG in *. lia.
  - by rewrite map_app in *.
  - cbn. by eapply lists_retiled.
  - cbn. eapply chunks_ok_add; try done. intros c. rewrite !chunks_app, !chunks_cons, !elem_of_app, !elem_of_cons. tauto.
Qed.

End Spec.
