(* ===== verification/LiballocSpec.v ===== *)
(** * The kernel heap: theorems about [Liballoc]

    Over a page source that keeps its contract [malloc] and [free] keep the
    invariant of [LiballocInv] over any run, whatever is written into the
    live blocks.  The kernel's own page source does not keep the contract,
    and the heap's blocks overlap there. *)
From S2P Require Import Prelude Klibc Pmm PmmSpec Vmm VmmSpec Liballoc LiballocInv.

(** ** Size classes *)

Lemma getexp_small x : 0 <= x < 256 -> getexp x = -1.
Proof.
  intros H. unfold getexp. rewrite u32_small by lia. change (Z.shiftl 1 MINEXP) with 256.
  by rewrite (proj2 (Z.ltb_lt x 256)) by lia.
Qed.

(** The class of [x] is that of the sizes from 2^class on. *)
Lemma getexp_loop_spec n k x : 0 <= k -> k + Z.of_nat n = 32 -> 2 ^ (k - 1) <= x < 2 ^ 32 ->
  k <= getexp_loop n k x <= 32 /\ 2 ^ (getexp_loop n k x - 1) <= x < 2 ^ getexp_loop n k x.
Proof.
  revert k. induction n as [|n IH]; intros k Hk Hn Hx; cbn [getexp_loop].
  - replace k with 32 in * by lia. lia.
  - rewrite Z.shiftl_1_l. rewrite u32_small.
    2: { split; [apply Z.pow_nonneg; lia|]. change 4294967296 with (2 ^ 32). apply Z.pow_lt_mono_r; lia. }
    destruct (Z.ltb_spec x (2 ^ k)); [lia|].
    destruct (IH (k + 1)) as [H1 H2]; [lia|lia| |]; [|lia]. replace (k + 1 - 1) with k by lia. lia.
Qed.

Lemma getexp_spec x : 256 <= x < 2 ^ 32 -> 8 <= getexp x <= 31 /\ 2 ^ getexp x <= x < 2 ^ (getexp x + 1).
Proof.
  intros H. unfold getexp. rewrite u32_small by lia. change (Z.shiftl 1 MINEXP) with 256.
  rewrite (proj2 (Z.ltb_ge x 256)) by lia. change (Z.to_nat (MAXEXP - MINEXP)) with 24%nat.
  unfold MINEXP.
  destruct (getexp_loop_spec 24 8 x) as [H1 H2]; [lia|lia|lia|].
  set (e := getexp_loop 24 8 x) in *. replace (e - 1 + 1) with e by lia. split; [|lia].
  split; [|lia]. destruct (Z.eq_dec e 8) as [E|]; [|lia]. rewrite E in H2. lia.
Qed.

Lemma getexp_range x : 0 <= x < 2 ^ 32 -> getexp x = -1 /\ x < 256 \/ 256 <= x /\ 8 <= getexp x <= 31.
Proof.
  intros H. destruct (Z.lt_ge_cases x 256); [left; split; [apply getexp_small; lia|done]|].
  right. destruct (getexp_spec x); [lia|]. split; lia.
Qed.

(** The list of a size: at least the first class that is used. *)
Definition class (x : Z) : Z := let idx := getexp x in if idx <? MINEXP then MINEXP else idx.

Lemma class_range x : 0 <= x < 2 ^ 32 -> 8 <= class x <= 31.
Proof.
  intros H. unfold class, MINEXP. destruct (getexp_range x H) as [[-> _]|[_ He]]; [done|].
  destruct (Z.ltb_spec (getexp x) 8); lia.
Qed.

Section Steps.
Context {P : Type} {PS : PageSource P} {LP : LawfulSource P}.
Implicit Types h : heap P.

(** A state in which the chunk [a] is held, and no other. *)
Abbreviation inv := (heap_inv (P := P)).

Lemma held_tag live held h regs fl a :
  inv live held h regs fl -> a ∈ held -> a ∈ chunks regs /\ addr_ok a /\
  exists t, tags h !! a = Some t /\ magic t = LIBALLOC_MAGIC /\ loose t /\ TAG <= real_size t /\
    a + real_size t < 2 ^ 32.
Proof.
  intros Hinv Ha. pose proof (hi_chunks _ _ _ _ _ Hinv) as Hck. pose proof (ck_held _ _ _ _ _ Hck a Ha) as Hc.
  pose proof (hi_tiles _ _ _ _ _ Hinv) as Hti.
  split; [done|]. split; [by eapply chunk_addr|]. destruct (ck_status _ _ _ _ _ Hck a Hc) as (t & Ht & Hm & Hst).
  destruct (chunk_tag _ _ _ Hti Hc) as (t' & Ht' & Hs & _ & He). simplify_eq. exists t. split_and!; try done.
  by destruct Hst as [Hn _ _ _ _ _|j ys Hn _ _ _|_ Hlo].
Qed.

(** Only the tags of the chunks matter. *)
Lemma heap_inv_ext live held h regs fl T :
  (forall b, b ∈ chunks regs -> T !! b = tags h !! b) -> inv live held h regs fl ->
  inv live held (with_tags h T) regs fl.
Proof.
  intros He [Hti Hgv Hli Hhl Hcl Hck Hin]. constructor; try done; cbn.
  - eapply tiles_ext; [|exact Hti]. intros b Hb. by rewrite He.
  - eapply lists_ext; [|exact Hli]. intros i xs b Hi Hb. rewrite He; [done|]. by eapply (ck_free _ _ _ _ _ Hck).
  - destruct Hck as [Hst Hfr Hhe Hlv Hnd]. constructor; try done.
    + intros a Ha. rewrite He by done. by apply Hst.
    + intros p s Hp. destruct (Hlv p s Hp) as (H1 & H2 & t & Ht & H3). split_and!; try done. exists t. by rewrite He.
Qed.

Lemma with_tags_id h : with_tags h (tags h) = h.
Proof. by destruct h. Qed.

(** The chunk of a live block. *)
Lemma live_chunk live held h regs fl p s :
  inv live held h regs fl -> (p, s) ∈ live -> p - TAG ∈ chunks regs /\ addr_ok (p - TAG) /\ (p - TAG ∉ held) /\
  exists t, tags h !! (p - TAG) = Some t /\ magic t = LIBALLOC_MAGIC /\ index t = -1 /\ tsize t = s /\
    0 <= s /\ TAG + s <= real_size t /\ loose t /\ p - TAG + real_size t < 2 ^ 32.
Proof.
  intros Hinv Hp. pose proof (hi_chunks _ _ _ _ _ Hinv) as Hck.
  destruct (ck_live _ _ _ _ _ Hck p s Hp) as (Hc & Hn & t & Ht & Hi & Hs).
  pose proof (hi_tiles _ _ _ _ _ Hinv) as Hti. split_and!; [done|by eapply chunk_addr|done|].
  destruct (chunk_tag _ _ _ Hti Hc) as (t' & Ht' & _ & _ & He). rewrite Ht in Ht'. injection Ht' as <-.
  destruct (ck_status _ _ _ _ _ Hck _ Hc) as (t' & Ht' & Hm & Hst). rewrite Ht in Ht'. injection Ht' as <-.
  exists t. destruct Hst as [_ _ Hlo _ Hs0 Hs1|j ys _ Hj Hy _|Hh _]; [|exfalso|done].
  - subst s. split_and!; try done; by destruct Hlo.
  - destruct (li_list _ _ _ (hi_lists _ _ _ _ _ Hinv) j ys Hj) as (_ & Hd & _).
    destruct (dll_lookup _ _ _ _ _ _ Hd Hy) as (t' & Ht' & Ei). rewrite Ht in Ht'. injection Ht' as <-. lia.
Qed.

(** What the page source and the arrays see of a step inside the regions. *)
Definition quiet h h' : Prop :=
  source h' = source h /\ l_completePages h' = l_completePages h /\ l_initialized h' = l_initialized h.

Lemma quiet_trans h1 h2 h3 : quiet h1 h2 -> quiet h2 h3 -> quiet h1 h3.
Proof. unfold quiet. intuition congruence. Qed.
Lemma same_rest_quiet h h' : same_rest h h' -> quiet h h'.
Proof. intros (? & ? & ? & _). done. Qed.

(** ** Blocks become held chunks and back *)

Lemma release live h regs fl p s :
  inv ((p, s) :: live) [] h regs fl -> inv live [p - TAG] h regs fl.
Proof.
  intros Hinv. destruct (live_chunk _ _ _ _ _ p s Hinv ltac:(left)) as (Hc & _ & _ & tp & Htp & _ & Hi & _ & _ & _ & Hlo & _).
  destruct Hinv as [Hti Hgv Hli Hhl Hcl [Hst Hfr Hhe Hlv Hnd] Hin]. cbn in Hnd. apply NoDup_cons in Hnd as [Hp Hnd].
  constructor; try done. constructor; try done.
  - intros a Ha. destruct (Hst a Ha) as (t & Ht & Hm & Hs). exists t. split; [done|]. split; [done|].
    destruct (decide (a = p - TAG)) as [->|Hne]; [apply status_held; [left|by simplify_eq]|].
    destruct Hs as [_ Hi' Hlo' Hl Hs0 Hs1|j ys _ Hj Hy H8|Hh _]; [| |by inversion Hh].
    + apply status_live; try done; [by apply not_elem_of_cons; split; [|by apply not_elem_of_nil]|].
      apply elem_of_cons in Hl as [[= E _]|Hl]; [exfalso; apply Hne; lia|done].
    + apply (status_free _ _ _ _ _ j ys); try done. by apply not_elem_of_cons; split; [|by apply not_elem_of_nil].
  - intros i xs a Hi' Ha. destruct (Hfr i xs a Hi' Ha) as (H1 & _ & H3). split_and!; try done.
    apply not_elem_of_cons. split; [|by apply not_elem_of_nil]. intros ->.
    destruct (li_list _ _ _ Hli i xs Hi') as (_ & Hd & _).
    destruct (dll_lookup _ _ _ _ _ _ Hd Ha) as (t & Ht & Ei). simplify_eq. lia.
  - intros a [->|Ha]%elem_of_cons; [done|by inversion Ha].
  - intros q u Hq. destruct (Hlv q u ltac:(by right)) as (H1 & _ & H3). split_and!; try done.
    apply not_elem_of_cons. split; [|by apply not_elem_of_nil]. intros E. assert (q = p) as -> by lia.
    apply Hp. apply list_elem_of_fmap. by exists (p, u).
Qed.

Lemma claim live h regs fl a t :
  inv live [a] h regs fl -> tags h !! a = Some t -> index t = -1 -> 0 <= tsize t -> TAG + tsize t <= real_size t ->
  inv ((a + TAG, tsize t) :: live) [] h regs fl.
Proof.
  intros Hinv Ht Hi Hs0 Hs1. destruct (held_tag _ _ _ _ _ a Hinv ltac:(left)) as (Hc & _ & t' & Ht' & Hm & Hlo & _).
  rewrite Ht in Ht'. injection Ht' as <-.
  destruct Hinv as [Hti Hgv Hli Hhl Hcl [Hst Hfr Hhe Hlv Hnd] Hin]. constructor; try done. constructor.
  - intros c Hcc. destruct (Hst c Hcc) as (tc & Htc & Hmc & Hs). exists tc. split; [done|]. split; [done|].
    destruct (decide (c = a)) as [->|Hne].
    { rewrite Ht in Htc. injection Htc as <-. apply status_live; try done; [by apply not_elem_of_nil|left]. }
    destruct Hs as [_ Hi' Hlo' Hl Hs0' Hs1'|j ys _ Hj Hy H8|Hh _].
    + apply status_live; try done; [by apply not_elem_of_nil | by right].
    + apply (status_free _ _ _ _ _ j ys); try done. by apply not_elem_of_nil.
    + apply elem_of_cons in Hh as [?|Hh]; [done | by inversion Hh].
  - intros i xs c Hi' Hx. destruct (Hfr i xs c Hi' Hx) as (H1 & _ & H3). split_and!; try done. by apply not_elem_of_nil.
  - intros c Hh. by inversion Hh.
  - intros q u [[= -> ->]|Hq]%elem_of_cons.
    + replace (a + TAG - TAG) with a by lia. split_and!; [done|by apply not_elem_of_nil|by exists t].
    + destruct (Hlv q u Hq) as (H1 & _ & H3). split_and!; try done. by apply not_elem_of_nil.
  - cbn. apply NoDup_cons. split; [|done]. intros Hq. apply list_elem_of_fmap in Hq as ([q u] & E & Hq). cbn in E. subst q.
    destruct (Hlv _ _ Hq) as (_ & Hn & _). apply Hn. replace (a + TAG - TAG) with a by lia. left.
Qed.

(** The size of a block is written into its tag. *)
Lemma set_tsize live h regs fl a z t :
  inv live [a] h regs fl -> tags h !! a = Some t ->
  inv live [a] (with_tags h (upd (tags h) a (fun t => t <| tsize := z |>))) regs fl.
Proof.
  intros Hinv Ht. destruct Hinv as [Hti Hgv Hli Hhl Hcl [Hst Hfr Hhe Hlv Hnd] Hin]. constructor; try done; cbn.
  - eapply tiles_ext; [|exact Hti]. intros b _. by apply upd_same.
  - eapply lists_ext; [|exact Hli]. intros i xs b _ _. by apply upd_same.
  - constructor; try done.
    + intros c Hc. destruct (Hst c Hc) as (tc & Htc & Hm & Hs). destruct (decide (c = a)) as [->|Hne].
      * exists (tc <| tsize := z |>). rewrite (upd_eq _ _ _ tc); [|eapply chunk_addr in Hc; [|exact Hti]; unfold addr_ok in Hc; lia|done].
        split; [done|]. split; [done|]. destruct Hs as [Hn _ _ _ _ _|j ys Hn _ _ _|Hh Hlo]; [exfalso; apply Hn; left..|].
        by apply status_held.
      * exists tc. by rewrite upd_ne.
    + intros p s Hp. destruct (Hlv p s Hp) as (H1 & H2 & tp & Htp & H3). split_and!; try done. exists tp.
      rewrite upd_ne; [done|]. intros E. apply H2. rewrite E. left.
Qed.

(** ** Joining the neighbours *)

Lemma first_last_cons q (xs : list Z) : first q xs = q \/ first q xs ∈ xs.
Proof. destruct xs; [by left | right; left]. Qed.
Lemma final_last_cons p (xs : list Z) : final p xs = p \/ final p xs ∈ xs.
Proof. destruct (decide (xs = [])) as [->|]; [by left | right; by apply final_in]. Qed.

(** A chunk and its neighbours in its region. *)
Lemma chunk_at live held h r1 s n l a r r2 fl :
  inv live held h (r1 ++ (s, n, l ++ a :: r) :: r2) fl ->
  exists t, tags h !! a = Some t /\ addr_ok a /\ split_left t = final 0 l /\ split_right t = first 0 r.
Proof.
  intros [Hti _ _ _ _ _ _]. pose proof Hti as [Hr _]. apply Forall_app in Hr as [_ Hr].
  apply Forall_cons in Hr as [(_ & _ & _ & _ & _ & Hsg) _].
  apply seg_app in Hsg as (m & _ & (-> & t & Ht & Hl & Hri & _)). exists t. split_and!; try done.
  eapply chunk_addr; [exact Hti|]. rewrite chunks_app, chunks_cons, !elem_of_app. right. left. right. left.
Qed.

Lemma chunk_in r1 s n l a r r2 b : b ∈ l ++ a :: r -> b ∈ chunks (r1 ++ (s, n, l ++ a :: r) :: r2).
Proof. intros Hb. rewrite chunks_app, chunks_cons, !elem_of_app. rewrite elem_of_app in Hb. tauto. Qed.

(** A chunk that nobody holds is free exactly when its index says so. *)
Lemma is_free_spec live h regs fl a b t :
  inv live [a] h regs fl -> b ∈ chunks regs -> b <> a -> tags h !! b = Some t -> 0 <= index t ->
  exists i l1 l2, fl !! i = Some (l1 ++ b :: l2).
Proof.
  intros Hinv Hb Hba Ht Hi. destruct (ck_status _ _ _ _ _ (hi_chunks _ _ _ _ _ Hinv) b Hb) as (t' & Ht' & _ & Hs).
  rewrite Ht in Ht'. injection Ht' as <-. destruct Hs as [_ Hi' _ _ _ _|i xs _ Hx Hbx _|Hh _]; [lia| |].
  - apply list_elem_of_split in Hbx as (l1 & l2 & ->). by exists i, l1, l2.
  - by apply list_elem_of_singleton in Hh.
Qed.

Lemma is_free_tag_run h b : b = 0 \/ addr_ok b /\ (exists t, tags h !! b = Some t) ->
  exists f, is_free_tag b h = Some (f, h) /\ (f = true -> b <> 0 /\ exists t, tags h !! b = Some t /\ 0 <= index t).
Proof.
  intros [->|[Hb (t & Ht)]]; [by exists false|]. exists (0 <=? index t). unfold is_free_tag.
  rewrite (proj2 (Z.eqb_neq b 0)) by (unfold addr_ok in Hb; lia).
  rewrite (bind_run _ _ _ _ _ (tag_at_run h b t Hb Ht)). split; [done|].
  intros Hf. apply Z.leb_le in Hf. split; [unfold addr_ok in Hb; lia|]. by exists t.
Qed.

Lemma nodup_neighbours live held h r1 s n l a r r2 fl :
  inv live held h (r1 ++ (s, n, l ++ a :: r) :: r2) fl -> (a ∉ l) /\ (a ∉ r).
Proof.
  intros [Hti _ _ _ _ _ _]. pose proof Hti as [Hr _]. apply Forall_app in Hr as [_ Hr].
  apply Forall_cons in Hr as [(_ & _ & _ & _ & _ & Hsg) _]. pose proof (seg_nodup _ _ _ _ _ _ Hsg) as Hnd.
  apply NoDup_app in Hnd as (_ & Hx & [Ha _]%NoDup_cons). split; [|done]. intros Hl. apply (Hx a Hl). left.
Qed.

(** The right neighbour, if there is one, is there after an update of another chunk. *)
Lemma right_neighbour live held h r1 s n l a r r2 fl b f :
  inv live held h (r1 ++ (s, n, l ++ a :: r) :: r2) fl -> b ∉ r ->
  first 0 r = 0 \/ addr_ok (first 0 r) /\ exists t, upd (tags h) b f !! first 0 r = Some t.
Proof.
  intros Hinv Hb. destruct (first_last_cons 0 r) as [?|Hr]; [by left|right].
  assert (Hfc : first 0 r ∈ chunks (r1 ++ (s, n, l ++ a :: r) :: r2)) by (apply chunk_in, elem_of_app; right; by right).
  split; [eapply chunk_addr, Hfc; apply Hinv|].
  destruct (chunk_tag _ _ _ (hi_tiles _ _ _ _ _ Hinv) Hfc) as (tf & Htf & _). exists tf.
  rewrite upd_ne; [done|]. intros E. apply Hb. by rewrite <- E.
Qed.

Lemma melt_left_spec live h r1 s n l b a r r2 fl :
  inv live [a] h (r1 ++ (s, n, l ++ b :: a :: r) :: r2) fl ->
  exists h', melt_left a h = Some (b, h') /\ quiet h h' /\ inv live [] h' (r1 ++ (s, n, l ++ b :: r) :: r2) fl.
Proof.
  intros Hinv. destruct (chunk_at _ _ _ _ _ _ l b (a :: r) _ _ Hinv) as (tb & Htb & Hbo & _).
  pose proof Hinv as Hinv2. rewrite (cons_middle b l (a :: r)), app_assoc in Hinv2.
  destruct (chunk_at _ _ _ _ _ _ (l ++ [b]) a r _ _ Hinv2) as (ta & Hta & Hao & Hsl & Hsr).
  rewrite final_app in Hsl. cbn in Hsl. destruct (nodup_neighbours _ _ _ _ _ _ (l ++ [b]) a r _ _ Hinv2) as [Hnl Hnr].
  destruct (merge_spec _ _ _ _ _ _ l b a r _ _ ta Hinv ltac:(by apply not_elem_of_nil) Hta) as (_ & _ & Hinv').
  eexists. split; [|split; [|exact Hinv']]; [|done].
  unfold melt_left. rewrite (bind_run _ _ _ _ _ (tag_at_run h a ta Hao Hta)), Hsl, Hsr.
  rewrite (bind_run _ _ _ _ _ (update_tag_run h b _ tb Hbo Htb)).
  assert (Hbr : b ∉ r) by (destruct (nodup_neighbours _ _ _ _ _ _ l b (a :: r) _ _ Hinv) as [_ Hn]; intros ?; apply Hn; by right).
  by erewrite bind_run; [|apply update_opt_run; cbn; by eapply right_neighbour].
Qed.

Lemma melt_loop_spec fuel live h r1 s n l a r r2 fl :
  inv live [a] h (r1 ++ (s, n, l ++ a :: r) :: r2) fl -> (length l < fuel)%nat ->
  exists h' a' l' fl', melt_loop fuel a h = Some (a', h') /\ quiet h h' /\
    inv live [a'] h' (r1 ++ (s, n, l' ++ a' :: r) :: r2) fl'.
Proof.
  revert h l a fl. induction fuel as [|fuel IH]; intros h l a fl Hinv Hf; [lia|]. unfold melt_loop.
  destruct (chunk_at _ _ _ _ _ _ l a r _ _ Hinv) as (t & Ht & Hao & Hsl & _).
  assert (Hnb : final 0 l = 0 \/ addr_ok (final 0 l) /\ exists t, tags h !! final 0 l = Some t).
  { destruct (final_last_cons 0 l) as [?|Hl]; [by left|right].
    assert (Hc := chunk_in r1 s n l a r r2 (final 0 l) ltac:(apply elem_of_app; by left)).
    split; [eapply chunk_addr, Hc; apply Hinv|].
    destruct (chunk_tag _ _ _ (hi_tiles _ _ _ _ _ Hinv) Hc) as (tf & ? & _). by exists tf. }
  destruct (is_free_tag_run h _ Hnb) as (f & Hrun & Hfree). destruct f.
  - destruct (Hfree eq_refl) as (Hn0 & tb & Htb & Hib).
    destruct l as [|b l _] using rev_ind; [done|]. rewrite final_app in *. cbn [final] in *.
    destruct (nodup_neighbours _ _ _ _ _ _ _ _ _ _ _ Hinv) as [Hna _].
    destruct (is_free_spec _ _ _ _ a b tb Hinv) as (i & f1 & f2 & Hi); try done.
    { apply chunk_in, elem_of_app. left. apply elem_of_app. right. left. }
    { intros ->. apply Hna, elem_of_app. right. left. }
    rewrite <- app_assoc in Hinv. cbn [app] in Hinv.
    destruct (melt_left_spec _ _ _ _ _ _ _ _ _ _ _ Hinv) as (h1 & Hm & Hq1 & Hinv1).
    destruct (remove_tag_spec _ _ _ _ _ _ _ _ _ Hinv1 Hi) as (h2 & Hrm & Hsr & _ & Hinv2).
    destruct (IH h2 l b _ Hinv2) as (h' & a' & l' & fl' & Hl & Hq & Hinv').
    { rewrite length_app in Hf. cbn in Hf. lia. }
    exists h', a', l', fl'. split; [|split; [|done]].
    + rewrite (loop_inl _ _ _ b h h2); [exact Hl|]. rewrite (bind_run _ _ _ _ _ (tag_at_run h a t Hao Ht)), Hsl.
      rewrite (bind_run _ _ _ _ _ Hrun). cbv beta iota. rewrite (bind_run _ _ _ _ _ Hm). by rewrite (bind_run _ _ _ _ _ Hrm).
    + eapply quiet_trans; [exact Hq1|]. eapply quiet_trans; [by apply same_rest_quiet|done].
  - exists h, a, l, fl. split; [|done]. rewrite (loop_inr _ _ _ a h h); [done|].
    rewrite (bind_run _ _ _ _ _ (tag_at_run h a t Hao Ht)), Hsl. by rewrite (bind_run _ _ _ _ _ Hrun).
Qed.

Lemma absorb_right_spec live h r1 s n l a b r r2 fl i f1 f2 :
  inv live [a] h (r1 ++ (s, n, l ++ a :: b :: r) :: r2) fl -> fl !! i = Some (f1 ++ b :: f2) ->
  exists h' fl', absorb_right a h = Some (a, h') /\ quiet h h' /\ inv live [a] h' (r1 ++ (s, n, l ++ a :: r) :: r2) fl'.
Proof.
  intros Hinv Hi. destruct (chunk_at _ _ _ _ _ _ l a (b :: r) _ _ Hinv) as (ta & Hta & Hao & _ & Hsr). cbn in Hsr.
  destruct (remove_tag_spec _ _ _ _ _ _ _ _ _ Hinv Hi) as (h1 & Hrm & Hsame & _ & Hinv1).
  destruct (nodup_neighbours _ _ _ _ _ _ l a (b :: r) _ _ Hinv) as [_ Hna].
  assert (Hba : b ∉ [a]) by (intros E%list_elem_of_singleton; apply Hna; rewrite E; left).
  destruct (chunk_at _ _ _ _ _ _ l a (b :: r) _ _ Hinv1) as (ta1 & Hta1 & _).
  pose proof Hinv1 as Hinv2. rewrite (cons_middle a l (b :: r)), app_assoc in Hinv2.
  destruct (chunk_at _ _ _ _ _ _ (l ++ [a]) b r _ _ Hinv2) as (tb & Htb & Hbo & _ & Hsrb).
  destruct (merge_spec _ _ _ _ _ _ l a b r _ _ tb Hinv1 Hba Htb) as (_ & _ & Hinv').
  eexists _, _. split; [|split; [|exact Hinv']].
  - unfold absorb_right. rewrite (bind_run _ _ _ _ _ (tag_at_run h a ta Hao Hta)), Hsr.
    rewrite (bind_run _ _ _ _ _ Hrm), (bind_run _ _ _ _ _ (tag_at_run h1 b tb Hbo Htb)), Hsrb.
    rewrite (bind_run _ _ _ _ _ (update_tag_run h1 a _ ta1 Hao Hta1)).
    assert (Har : a ∉ r) by (intros ?; apply Hna; by right).
    by erewrite bind_run; [|apply update_opt_run; cbn; by eapply right_neighbour].
  - by apply same_rest_quiet in Hsame.
Qed.

Lemma absorb_loop_spec fuel live h r1 s n l a r r2 fl :
  inv live [a] h (r1 ++ (s, n, l ++ a :: r) :: r2) fl -> (length r < fuel)%nat ->
  exists h' r' fl', absorb_loop fuel a h = Some (a, h') /\ quiet h h' /\
    inv live [a] h' (r1 ++ (s, n, l ++ a :: r') :: r2) fl'.
Proof.
  revert h r fl. induction fuel as [|fuel IH]; intros h r fl Hinv Hf; [lia|]. unfold absorb_loop.
  destruct (chunk_at _ _ _ _ _ _ l a r _ _ Hinv) as (t & Ht & Hao & _ & Hsr).
  assert (Hnb : first 0 r = 0 \/ addr_ok (first 0 r) /\ exists t, tags h !! first 0 r = Some t).
  { destruct (first_last_cons 0 r) as [?|Hl]; [by left|right].
    assert (Hc := chunk_in r1 s n l a r r2 (first 0 r) ltac:(apply elem_of_app; right; by right)).
    split; [eapply chunk_addr, Hc; apply Hinv|].
    destruct (chunk_tag _ _ _ (hi_tiles _ _ _ _ _ Hinv) Hc) as (tf & ? & _). by exists tf. }
  destruct (is_free_tag_run h _ Hnb) as (f & Hrun & Hfree). destruct f.
  - destruct (Hfree eq_refl) as (Hn0 & tb & Htb & Hib). destruct r as [|b r]; [done|]. cbn [first] in *.
    destruct (nodup_neighbours _ _ _ _ _ _ _ _ _ _ _ Hinv) as [_ Hna].
    destruct (is_free_spec _ _ _ _ a b tb Hinv) as (i & f1 & f2 & Hi); try done.
    { apply chunk_in, elem_of_app. right. right. left. }
    { intros ->. apply Hna. left. }
    destruct (absorb_right_spec _ _ _ _ _ _ _ _ _ _ _ _ _ _ Hinv Hi) as (h1 & fl1 & Hm & Hq1 & Hinv1).
    destruct (IH h1 r _ Hinv1) as (h' & r' & fl' & Hl & Hq & Hinv'); [cbn in Hf; lia|].
    exists h', r', fl'. split; [|split; [by eapply quiet_trans|done]].
    rewrite (loop_inl _ _ _ a h h1); [exact Hl|]. rewrite (bind_run _ _ _ _ _ (tag_at_run h a t Hao Ht)), Hsr.
    rewrite (bind_run _ _ _ _ _ Hrun). cbv beta iota. by rewrite (bind_run _ _ _ _ _ Hm).
  - exists h, r, fl. split; [|done]. rewrite (loop_inr _ _ _ a h h); [done|].
    rewrite (bind_run _ _ _ _ _ (tag_at_run h a t Hao Ht)), Hsr. by rewrite (bind_run _ _ _ _ _ Hrun).
Qed.

(** ** Fuel *)

Lemma length_dom (xs : list Z) (T : store) :
  NoDup xs -> (forall x, x ∈ xs -> is_Some (T !! x)) -> (length xs <= base.size T)%nat.
Proof.
  intros Hnd Hx. rewrite <- size_dom, <- (size_list_to_set (C := gset Z)) by done.
  apply subseteq_size. intros x. rewrite elem_of_list_to_set. intros H. by apply elem_of_dom, Hx.
Qed.

Lemma region_fuel live held h r1 s n xs r2 fl :
  inv live held h (r1 ++ (s, n, xs) :: r2) fl -> (length xs <= base.size (tags h))%nat.
Proof.
  intros [Hti _ _ _ _ _ _]. pose proof Hti as [Hr _]. apply Forall_app in Hr as [_ Hr].
  apply Forall_cons in Hr as [(_ & _ & _ & _ & _ & Hsg) _]. apply length_dom; [by eapply seg_nodup|].
  intros x Hx. destruct (seg_lookup _ _ _ _ _ _ x Hsg Hx) as (t & Ht & _). by exists t.
Qed.

Lemma list_fuel live held h regs fl i xs :
  inv live held h regs fl -> fl !! i = Some xs -> (length xs <= base.size (tags h))%nat.
Proof.
  intros Hinv Hi. destruct (li_list _ _ _ (hi_lists _ _ _ _ _ Hinv) i xs Hi) as (Hnd & Hd & _).
  apply length_dom; [done|]. intros x Hx. destruct (dll_lookup _ _ _ _ _ x Hd Hx) as (t & Ht & _). by exists t.
Qed.

(** ** Freeing *)

Lemma list_of_class live held h regs fl idx :
  inv live held h regs fl -> 8 <= idx <= 31 -> exists xs, fl !! Z.to_nat idx = Some xs.
Proof.
  intros Hinv Hidx. apply lookup_lt_is_Some. rewrite (li_length _ _ _ (hi_lists _ _ _ _ _ Hinv)). lia.
Qed.

Lemma count_run h idx : length (l_completePages h) = 32%nat -> 8 <= idx <= 31 ->
  exists c, complete_count idx h = Some (c, h) /\ forall c', set_complete_count idx c' h =
    Some (tt, h <| l_completePages := <[Z.to_nat idx := c']> (l_completePages h) |>).
Proof.
  intros Hl Hidx. destruct (lookup_lt_is_Some_2 (l_completePages h) (Z.to_nat idx)) as [c Hc]; [lia|]. exists c.
  unfold complete_count, set_complete_count. rewrite (proj2 (Z.ltb_ge idx 0)) by lia. by rewrite Hc.
Qed.

(** The counts are not part of the invariant. *)
Lemma set_counts live held h regs fl cs :
  length cs = 32%nat -> inv live held h regs fl -> inv live held (h <| l_completePages := cs |>) regs fl.
Proof. intros Hl [? ? ? ? ? ? ?]. by constructor. Qed.

Lemma insert_class live h regs fl a idx :
  inv live [a] h regs fl -> 8 <= idx <= 31 ->
  exists h' fl', insert_tag a idx h = Some (tt, h') /\ inv live [] h' regs fl'.
Proof.
  intros Hinv Hidx. destruct (list_of_class _ _ _ _ _ idx Hinv Hidx) as [xs Hxs].
  destruct (insert_tag_spec _ _ _ _ _ _ _ _ Hinv ltac:(by apply not_elem_of_nil) Hxs ltac:(lia)) as (h' & Hrun & _ & _ & Hinv').
  rewrite Z2Nat.id in Hrun by lia. by exists h', (<[Z.to_nat idx := a :: xs]> fl).
Qed.

(** A region that is one held chunk leaves. *)
Lemma drop_region live h r1 s n a r2 fl s' :
  inv live [a] h (r1 ++ (s, n, [a]) :: r2) fl -> map fst (r1 ++ r2) ≡ₚ given s' ->
  inv live [] (h <| source := s' |>) (r1 ++ r2) fl.
Proof.
  intros Hinv Hs'. pose proof Hinv as [Hti Hgv Hli Hhl Hcl Hck Hin].
  destruct (in_region _ _ _ _ _ _ a Hti ltac:(left)) as (t & Ht & Hsz & Ha0 & Ha1).
  constructor; try done; cbn.
  - destruct Hti as [Hr Hap]. constructor.
    + apply Forall_app in Hr as [H1 H2]. apply Forall_cons in H2 as [_ H2]. by apply Forall_app.
    + rewrite map_app in *. clear -Hap. induction r1 as [|r r1 IH]; cbn in *; [by destruct Hap|].
      destruct Hap as [Hf Hap]. split; [|by apply IH]. apply Forall_app in Hf as [Hf1 Hf2].
      apply Forall_cons in Hf2 as [_ Hf2]. by apply Forall_app.
  - eapply chunks_ok_drop; [exact Hck|by apply not_elem_of_nil|intros c tc _ Hc; by exists tc|].
    intros c. split.
    + intros Hc. rewrite chunks_app, chunks_cons. rewrite chunks_app in Hc. rewrite !elem_of_app. rewrite elem_of_app in Hc.
      split; [tauto|]. intros ->. apply (other_region _ _ _ _ _ _ a Hti); [by rewrite chunks_app, elem_of_app|].
      unfold TAG in *. lia.
    + intros [Hc Hca]. rewrite chunks_app, chunks_cons in Hc. rewrite chunks_app.
      rewrite !elem_of_app, list_elem_of_singleton in Hc. rewrite elem_of_app. tauto.
Qed.

(** A chunk without neighbours is its region. *)
Lemma whole_region live held h r1 s n l a r r2 fl :
  inv live held h (r1 ++ (s, n, l ++ a :: r) :: r2) fl -> final 0 l = 0 -> first 0 r = 0 ->
  l = [] /\ r = [] /\ a = s /\ n mod 4096 = 0 /\ 65536 <= n /\ n < 2 ^ 32 /\
  exists t, tags h !! a = Some t /\ real_size t = n.
Proof.
  intros Hinv Hl Hr. pose proof (hi_tiles _ _ _ _ _ Hinv) as Hti.
  assert (Hz : 0 ∉ l ++ a :: r).
  { intros H0. apply (chunk_in r1 s n l a r r2), (chunk_addr _ _ _ Hti) in H0. unfold addr_ok in H0. lia. }
  assert (l = []) as ->.
  { destruct (decide (l = [])) as [?|Hne]; [done|]. exfalso. apply Hz, elem_of_app. left. rewrite <- Hl. by apply final_in. }
  assert (r = []) as ->.
  { destruct r as [|b r]; [done|]. exfalso. apply Hz. cbn in Hr. subst b. right. left. }
  destruct Hti as [Hf _]. apply Forall_app in Hf as [_ Hf]. apply Forall_cons in Hf as [(H1 & H2 & H3 & H4 & _ & Hsg) _].
  destruct Hsg as (-> & t & Ht & _ & _ & _ & He). cbn in He. split_and!; try done; [lia|]. exists t. split; [done|lia].
Qed.

Lemma region_pages n : n mod 4096 = 0 -> 65536 <= n -> n < 2 ^ 32 ->
  let pages := n / l_pageSize + (if n mod l_pageSize =? 0 then 0 else 1) in
  4096 * (if pages <? l_pageCount then l_pageCount else pages) = n.
Proof.
  intros Hm Hn _. unfold l_pageSize, l_pageCount. rewrite Hm. cbn [Z.eqb]. rewrite Z.add_0_r.
  assert (n = 4096 * (n / 4096)) by (pose proof (Z.div_mod n 4096); lia).
  rewrite (proj2 (Z.ltb_ge _ 16)) by lia. lia.
Qed.

(** A free region is kept, up to [MAXCOMPLETE] of them in a class, or given back. *)
Lemma free_region live h r1 n a r2 fl idx :
  inv live [a] h (r1 ++ (a, n, [a]) :: r2) fl -> n mod 4096 = 0 -> 65536 <= n -> n < 2 ^ 32 -> 8 <= idx <= 31 ->
  exists h' regs' fl', (c ← complete_count idx;
    if c =? MAXCOMPLETE then
      let pages := n / l_pageSize + (if n mod l_pageSize =? 0 then 0 else 1) in
      let pages := if pages <? l_pageCount then l_pageCount else pages in
      source_free a pages
    else _ ← set_complete_count idx (c + 1); insert_tag a idx) h = Some (tt, h') /\ inv live [] h' regs' fl'.
Proof.
  intros Hinv Hn4 Hn1 Hn2 Hidx. destruct (count_run h idx (hi_complete _ _ _ _ _ Hinv) Hidx) as (c & Hcc & Hsc).
  rewrite (bind_run _ _ _ _ _ Hcc). pose proof (region_pages n Hn4 Hn1 Hn2) as Hpg. cbv zeta in *. destruct (c =? MAXCOMPLETE).
  - set (pages := if _ <? _ then _ else _) in *.
    destruct (free_law a pages (source h)) as (s' & Hsf & Hg).
    { rewrite Hpg, <- (hi_given _ _ _ _ _ Hinv). apply list_elem_of_fmap.
      exists (a, n, [a]). split; [done|]. apply elem_of_app. right. left. }
    rewrite Hpg in Hg. exists (h <| source := s' |>), (r1 ++ r2), fl. split; [unfold source_free; by rewrite Hsf|].
    eapply drop_region; [exact Hinv|]. pose proof (hi_given _ _ _ _ _ Hinv) as Hg2. rewrite map_app in Hg2. cbn in Hg2.
    rewrite Hg, <- Permutation_middle in Hg2. apply Permutation_cons_inv in Hg2. by rewrite map_app.
  - rewrite (bind_run _ _ _ _ _ (Hsc _)).
    destruct (insert_class live (h <| l_completePages := <[Z.to_nat idx:=c + 1]> (l_completePages h) |>)
      (r1 ++ (a, n, [a]) :: r2) fl a idx) as (h3 & fl3 & Hi & Hinv3); [|done|by exists h3, (r1 ++ (a, n, [a]) :: r2), fl3].
    apply set_counts; [|exact Hinv]. rewrite length_insert. apply Hinv.
Qed.

Lemma free_tag_spec live h regs fl a :
  inv live [a] h regs fl -> exists h' regs' fl', free_tag a h = Some (tt, h') /\ inv live [] h' regs' fl'.
Proof.
  intros Hinv. pose proof (ck_held _ _ _ _ _ (hi_chunks _ _ _ _ _ Hinv) a ltac:(left)) as Hc.
  destruct (region_of _ _ _ (hi_tiles _ _ _ _ _ Hinv) Hc) as (r1 & s & n & xs & r2 & -> & Hin & _).
  apply list_elem_of_split in Hin as (l & r & ->). pose proof (region_fuel _ _ _ _ _ _ _ _ _ Hinv) as Hfu.
  rewrite length_app in Hfu. cbn [length] in Hfu.
  destruct (melt_loop_spec (S (S (base.size (tags h)))) _ _ _ _ _ _ _ _ _ _ Hinv ltac:(lia)) as (h1 & a1 & l1 & fl1 & Hm & _ & Hinv1).
  destruct (absorb_loop_spec (S (S (base.size (tags h)))) _ _ _ _ _ _ _ _ _ _ Hinv1 ltac:(lia)) as (h2 & r' & fl2 & Hab & _ & Hinv2).
  destruct (chunk_at _ _ _ _ _ _ _ _ _ _ _ Hinv2) as (t & Ht & Hao & Hsl & Hsr).
  destruct (held_tag _ _ _ _ _ a1 Hinv2 ltac:(left)) as (_ & _ & t' & Ht' & _ & _ & Hs0 & Hs1).
  rewrite Ht in Ht'. injection Ht' as <-. unfold addr_ok in *.
  assert (Hcl : 8 <= class (u64 (real_size t - TAG)) <= 31) by (unfold TAG in *; apply class_range; rewrite u64_small by lia; lia).
  unfold free_tag. rewrite (bind_run tag_fuel _ h h _ eq_refl), (bind_run _ _ _ _ _ Hm), (bind_run _ _ _ _ _ Hab).
  rewrite (bind_run _ _ _ _ _ (tag_at_run h2 a1 t ltac:(done) Ht)).
  cbv zeta. fold (class (u64 (real_size t - TAG))). set (idx := class (u64 (real_size t - TAG))) in *.
  destruct (insert_class _ _ _ _ _ idx Hinv2 Hcl) as (h3 & fl3 & Hi & Hinv3).
  destruct ((split_left t =? 0) && (split_right t =? 0)) eqn:Hw; zify_bool.
  2, 3: by exists h3, (r1 ++ (s, n, l1 ++ a1 :: r') :: r2), fl3.
  rewrite Hsl, Hsr in *.
  destruct (whole_region _ _ _ _ _ _ _ _ _ _ _ Hinv2) as (-> & -> & <- & Hn4 & Hn1 & Hn2 & tw & Htw & Hrs); [done..|].
  rewrite Ht in Htw. injection Htw as <-. rewrite Hrs. by apply (free_region live h2 r1 n a1 r2 fl2).
Qed.

Lemma heap_free_spec live h regs fl p s :
  inv ((p, s) :: live) [] h regs fl -> exists h' regs' fl', heap_free p h = Some (tt, h') /\ inv live [] h' regs' fl'.
Proof.
  intros Hinv. destruct (live_chunk _ _ _ _ _ p s Hinv ltac:(left)) as (_ & Hao & _ & t & Ht & Hm & _ & _ & Hs0 & Hs & _ & He).
  unfold addr_ok, TAG in *. unfold heap_free. rewrite (proj2 (Z.eqb_neq p 0)) by lia. cbv zeta. unfold TAG.
  rewrite (u32_small p) by lia. rewrite u64_small by lia.
  rewrite (bind_run _ _ _ _ _ (tag_at_run h (p - 48) t ltac:(done) Ht)), Hm. cbn [Z.eqb negb].
  rewrite Z.eqb_refl. apply release in Hinv. by eapply free_tag_spec.
Qed.
End Steps.

(** ** Allocating *)

Section Malloc.
Context {P : Type} {PS : PageSource P} {LP : LawfulSource P} (junk : Z -> Z).
Implicit Types h : heap P.
Abbreviation inv := (heap_inv (P := P)).

Lemma find_tag_spec fuel h i p xs size :
  dll (tags h) i p xs 0 -> (forall b, b ∈ xs -> addr_ok b) -> (length xs < fuel)%nat ->
  exists tag, find_tag fuel (first 0 xs) size h = Some (tag, h) /\
    (tag = 0 \/ tag ∈ xs /\ exists t, tags h !! tag = Some t /\ u64 (size + TAG) <= u64 (real_size t - TAG)).
Proof.
  revert p fuel. induction xs as [|b xs IH]; intros p fuel Hd Hao Hf; (destruct fuel as [|fuel]; [cbn in Hf; lia|]).
  - exists 0. split; [done|by left].
  - destruct Hd as (t & Ht & _ & _ & Hn & Hd). cbn [first]. unfold find_tag.
    assert (Hb : addr_ok b) by (apply Hao; left). pose proof (tag_at_run h b t Hb Ht) as Hrun.
    assert (Hbz : (b =? 0) = false) by (apply Z.eqb_neq; unfold addr_ok in Hb; lia).
    destruct (Z.leb_spec (u64 (size + TAG)) (u64 (real_size t - TAG))) as [Hle|Hgt].
    + exists b. split; [|right; split; [left | by exists t]].
      rewrite (loop_inr fuel _ _ b h h); [done|]. rewrite Hbz, (bind_run _ _ _ _ _ Hrun). by rewrite (proj2 (Z.leb_le _ _)).
    + destruct (IH b fuel Hd) as (tag & Hf' & Htag); [intros c Hc; apply Hao; by right|cbn in Hf; lia|].
      exists tag. split.
      * rewrite (loop_inl fuel _ _ (first 0 xs) h h); [exact Hf'|].
        rewrite Hbz, (bind_run _ _ _ _ _ Hrun). by rewrite (proj2 (Z.leb_gt _ _)), Hn.
      * destruct Htag as [?|[Hin Ht']]; [by left | right; split; [by right|done]].
Qed.

Lemma insert_tag_auto h a t : addr_ok a -> tags h !! a = Some t ->
  insert_tag a (-1) h = insert_tag a (class (u64 (real_size t - TAG))) h.
Proof.
  intros Ha Ht. unfold insert_tag. change (-1 <? 0) with true. cbv iota.
  erewrite bind_run; [|rewrite (bind_run _ _ _ _ _ (tag_at_run h a t Ha Ht)); reflexivity].
  cbv zeta. fold (class (u64 (real_size t - TAG))).
  assert (Hc : (class (u64 (real_size t - TAG)) <? 0) = false).
  { apply Z.ltb_ge. unfold class, MINEXP. destruct (Z.ltb_spec (getexp (u64 (real_size t - TAG))) 8); lia. }
  rewrite Hc. by rewrite (bind_run _ _ h h (class (u64 (real_size t - TAG)))).
Qed.

Lemma split_tag_spec live h regs fl b t :
  inv live [b] h regs fl -> tags h !! b = Some t -> 0 <= tsize t -> 2 * TAG + tsize t <= real_size t ->
  exists n h' regs' fl' t', split_tag junk b h = Some (n, h') /\ inv live [b] h' regs' fl' /\
    tags h' !! b = Some t' /\ tsize t' = tsize t /\ index t' = index t /\ real_size t' = TAG + tsize t.
Proof.
  intros Hinv Ht Hs0 Hs1. pose proof (ck_held _ _ _ _ _ (hi_chunks _ _ _ _ _ Hinv) b ltac:(left)) as Hc.
  destruct (held_tag _ _ _ _ _ b Hinv ltac:(left)) as (_ & Hbo & t2 & Ht2 & _ & _ & _ & Hbe).
  rewrite Ht in Ht2. injection Ht2 as <-.
  destruct (region_of _ _ _ (hi_tiles _ _ _ _ _ Hinv) Hc) as (r1 & s & k & xs & r2 & -> & Hin & _).
  apply list_elem_of_split in Hin as (l & r & ->).
  destruct (chunk_at _ _ _ _ _ _ l b r _ _ Hinv) as (t3 & Ht3 & _ & _ & Hsr). rewrite Ht in Ht3. injection Ht3 as <-.
  destruct (cut_spec junk _ _ _ _ _ _ l b r _ _ t (tsize t) Hinv ltac:(left) Ht Hs0 Hs1) as [Hnh Hinv1].
  set (n := b + TAG + tsize t) in *. set (h1 := with_tags h _) in *. unfold addr_ok in Hbo.
  destruct (held_tag _ _ _ _ _ n Hinv1 ltac:(left)) as (_ & Hno & tn & Htn & _ & _ & Hn0 & Hn1).
  assert (Hcl : 8 <= class (u64 (real_size tn - TAG)) <= 31).
  { unfold addr_ok, TAG in *. apply class_range. rewrite u64_small by lia. lia. }
  destruct (list_of_class _ _ _ _ _ _ Hinv1 Hcl) as [ys Hys].
  destruct (insert_tag_spec _ _ _ _ _ _ _ _ Hinv1 Hnh Hys ltac:(lia)) as (h2 & Hins & _ & Hkeep & Hinv2).
  rewrite Z2Nat.id in Hins by lia. rewrite <- (insert_tag_auto h1 n tn Hno Htn) in Hins.
  assert (Hnb : n <> b) by (unfold n, TAG in *; lia).
  assert (Hfb : b <> first 0 r).
  { intros E. destruct (nodup_neighbours _ _ _ _ _ _ l b r _ _ Hinv) as [_ Hn].
    destruct (first_last_cons 0 r) as [E0|E0]; [lia|]. by rewrite <- E in E0. }
  exists n, h2, (r1 ++ (s, k, l ++ b :: n :: r) :: r2), (<[Z.to_nat (class (u64 (real_size tn - TAG))) := n :: ys]> fl).
  exists (t <| split_right := n |> <| real_size := u32 (real_size t - (real_size t - TAG - tsize t)) |>). split; [|split; [done|]].
  - unfold split_tag. rewrite (bind_run _ _ _ _ _ (tag_at_run h b t Hbo Ht)). cbv zeta.
    rewrite (u32_small b) by lia. fold n. rewrite (u32_small (_ - _)) by (unfold TAG in *; lia).
    rewrite (bind_run _ _ h (with_tags h (<[n := BoundaryTag LIBALLOC_MAGIC (junk n) (real_size t - TAG - tsize t) (junk n) b (split_right t) 0 0]> (tags h))) tt).
    2: { unfold set_tag. rewrite (proj2 (Z.eqb_neq n 0)) by (unfold addr_ok in Hno; lia). by rewrite addr_pa. }
    erewrite bind_run.
    2: { apply update_opt_run. rewrite Hsr. destruct (first_last_cons 0 r) as [?|Hr]; [by left|right].
         assert (Hfc := chunk_in r1 s k l b r r2 (first 0 r) ltac:(apply elem_of_app; right; by right)).
         split; [eapply chunk_addr, Hfc; apply Hinv|].
         destruct (chunk_tag _ _ _ (hi_tiles _ _ _ _ _ Hinv) Hfc) as (tf & Htf & _). cbn.
         destruct (decide (first 0 r = n)) as [->|]; [rewrite lookup_insert_eq; eauto|rewrite lookup_insert_ne; eauto]. }
    erewrite bind_run.
    2: { apply (update_tag_run _ b _ t Hbo). cbn. rewrite Hsr, upd_ne by done. by rewrite lookup_insert_ne. }
    rewrite (bind_run _ _ h1 h2 tt Hins). done.
  - rewrite Hkeep by left. split_and!; try done.
    + unfold h1. cbn. unfold cut. fold n. rewrite (upd_eq _ _ _ t); [done|lia|]. rewrite Hsr, upd_ne by done. by rewrite lookup_insert_ne.
    + cbn. rewrite u32_small by (unfold TAG in *; lia). lia.
Qed.

(** From a held chunk to a block. *)
Lemma finish_spec live h regs fl a t size :
  inv live [a] h regs fl -> tags h !! a = Some t -> index t = -1 -> 0 <= size < 2 ^ 31 -> TAG + size <= real_size t ->
  exists h' regs' fl', (_ ← update_tag a (fun t => t <| tsize := u32 size |>);
    t ← tag_at a;
    let remainder := u32 (real_size t - size - TAG * 2) in
    _ ← (if 0 <? s32 remainder then
           if 0 <=? getexp remainder then _ ← split_tag junk a; mret tt else mret tt
         else mret tt);
    mret (u32 a + TAG)) h = Some (a + TAG, h') /\ inv ((a + TAG, size) :: live) [] h' regs' fl'.
Proof.
  intros Hinv Ht Hi Hs0 Hs1. destruct (held_tag _ _ _ _ _ a Hinv ltac:(left)) as (_ & Hao & t2 & Ht2 & _ & _ & _ & He).
  rewrite Ht in Ht2. injection Ht2 as <-. unfold addr_ok in Hao.
  rewrite (bind_run _ _ _ _ _ (update_tag_run h a _ t Hao Ht)). set (h1 := with_tags h _).
  set (t1 := t <| tsize := u32 size |>).
  assert (Ht1 : tags h1 !! a = Some t1) by (cbn; rewrite (upd_eq _ _ _ t); [done|lia|done]).
  rewrite (bind_run _ _ _ _ _ (tag_at_run h1 a t1 Hao Ht1)). cbv zeta.
  assert (Hinv1 : inv live [a] h1 regs fl) by by eapply set_tsize.
  assert (Hz : tsize t1 = size) by (cbn; by rewrite u32_small by lia). change (real_size t1) with (real_size t).
  rewrite (u32_small a) by lia. pose proof (wrap_range 32 (real_size t - size - TAG * 2) ltac:(lia)) as Hw.
  destruct ((0 <? s32 (u32 (real_size t - size - TAG * 2))) && (0 <=? getexp (u32 (real_size t - size - TAG * 2)))) eqn:Hsp; zify_bool.
  - rewrite (proj2 (Z.ltb_lt 0 _)), (proj2 (Z.leb_le 0 _)) by lia.
    assert (Hbig : 2 * TAG + size <= real_size t).
    { destruct (Z.le_gt_cases (2 * TAG + size) (real_size t)); [done|exfalso].
      assert (E : u32 (real_size t - size - TAG * 2) = real_size t - size - TAG * 2 + 2 ^ 32).
      { unfold wrap. symmetry. apply (Z.mod_unique _ _ (-1)); unfold TAG in *; lia. }
      rewrite E in *. revert H. unfold swrap. rewrite wrap_small by (unfold TAG in *; lia).
      rewrite (proj2 (Z.ltb_ge _ (2 ^ (32 - 1)))) by (unfold TAG in *; lia). unfold TAG in *. lia. }
    destruct (split_tag_spec _ _ _ _ a t1 Hinv1 Ht1) as (n & h2 & regs' & fl' & t' & Hrun & Hinv2 & Ht' & Ez & Ei & Er);
      [lia|cbn [real_size]; rewrite Hz; done|].
    assert (Hrun' : (if true then if true then _ ← split_tag junk a; mret tt else mret tt else mret tt) h1 = Some (tt, h2)).
    { cbv iota. by rewrite (bind_run _ _ _ _ _ Hrun). }
    rewrite (bind_run _ _ _ _ _ Hrun'). exists h2, regs', fl'. split; [done|].
    replace size with (tsize t') by congruence. apply (claim live h2 regs' fl' a t'); try done; [by rewrite Ei| |];
      rewrite ?Ez, ?Er, Hz; lia.
  - rewrite (proj2 (Z.ltb_ge 0 _)) by done. exists h1, regs, fl. split; [done|].
    rewrite <- Hz at 1. apply (claim live h1 regs fl a t1); try done; rewrite Hz; (lia || done).
  - rewrite (proj2 (Z.leb_gt 0 _)) by done. exists h1, regs, fl. split; [by destruct (0 <? _)|].
    rewrite <- Hz at 1. apply (claim live h1 regs fl a t1); try done; rewrite Hz; (lia || done).
Qed.

Definition new_pages (size : Z) : Z :=
  let usage := size + TAG in
  let pages := usage / l_pageSize + (if usage mod l_pageSize =? 0 then 0 else 1) in
  if pages <? l_pageCount then l_pageCount else pages.

Lemma new_pages_range size : 0 <= size < 2 ^ 31 ->
  16 <= new_pages size < 2 ^ 20 /\ size + TAG <= 4096 * new_pages size.
Proof.
  intros Hs. unfold new_pages, l_pageSize, l_pageCount. pose proof (Z.div_mod (size + TAG) 4096).
  pose proof (Z.mod_pos_bound (size + TAG) 4096). unfold TAG in *. cbv zeta.
  destruct (Z.eqb_spec ((size + 48) mod 4096) 0); case_if; lia.
Qed.

Lemma allocate_new_tag_spec live h regs fl size :
  inv live [] h regs fl -> 0 <= size < 2 ^ 31 ->
  exists a h', allocate_new_tag size h = Some (a, h') /\
    (a = 0 /\ liballoc_alloc (new_pages size) (source h) = Some (0, source h') /\ inv live [] h' regs fl \/
     a <> 0 /\ exists regs' t, inv live [a] h' regs' fl /\ tags h' !! a = Some t /\ index t = -1 /\ TAG + size <= real_size t).
Proof.
  intros Hinv Hs. destruct (new_pages_range size Hs) as [Hp Hu]. unfold allocate_new_tag. cbv zeta.
  rewrite (u32_small size) by lia. rewrite (u32_small (size + TAG)) by (unfold TAG; lia). fold (new_pages size).
  set (k := new_pages size) in *. destruct (alloc_law k (source h)) as (a & s' & Hal & Hcase); [lia|].
  unfold source_alloc. erewrite bind_run; [|rewrite Hal; reflexivity].
  destruct Hcase as [[-> Hg]|(Ha & Hae & Hg & Hap)].
  - exists 0, (h <| source := s' |>). split; [done|left]. split; [done|]. split; [done|].
    destruct Hinv as [? Hgv ? ? ? ? ?]. constructor; try done. cbn. by rewrite Hg.
  - rewrite (proj2 (Z.eqb_neq a 0)) by lia. rewrite (u32_small (k * l_pageSize)) by (unfold l_pageSize; lia).
    set (t := BoundaryTag LIBALLOC_MAGIC size (k * l_pageSize) (-1) 0 0 0 0).
    exists a. eexists. split.
    { erewrite bind_run; [reflexivity|]. unfold set_tag. rewrite (proj2 (Z.eqb_neq a 0)) by lia.
      by rewrite addr_pa by (unfold addr_ok; lia). }
    right. split; [lia|]. exists ((a, 4096 * k, [a]) :: regs), t. pose proof (hi_given _ _ _ _ _ Hinv) as Hgv.
    destruct (new_region live [] h regs fl a (4096 * k) t Hinv) with (s' := s') as [_ Hinv']; try lia.
    + rewrite Z.mul_comm. apply Z.mod_mul. lia.
    + by rewrite Hgv.
    + by rewrite map_cons, Hgv, Hg.
    + unfold t. cbn. f_equal. unfold l_pageSize. lia.
    + split; [exact Hinv'|]. split; [cbn; apply lookup_insert_eq|]. split; [done|]. cbn. unfold l_pageSize. lia.
Qed.

(** The free chunk that is taken, or the new region. *)
Lemma take_spec live h regs fl size tag idx i xs :
  inv live [] h regs fl -> 0 <= size < 2 ^ 31 -> 8 <= idx <= 31 -> fl !! i = Some xs ->
  tag = 0 \/ tag ∈ xs /\ (exists t, tags h !! tag = Some t /\ u64 (size + TAG) <= u64 (real_size t - TAG)) ->
  exists a h', (if tag =? 0 then allocate_new_tag size
     else
       _ ← remove_tag tag;
       t ← tag_at tag;
       _ ← (if (split_left t =? 0) && (split_right t =? 0)
            then c ← complete_count idx; set_complete_count idx (c - 1) else mret tt);
       mret tag) h = Some (a, h') /\
    (a = 0 /\ liballoc_alloc (new_pages size) (source h) = Some (0, source h') /\ inv live [] h' regs fl \/
     a <> 0 /\ exists regs' fl' t, inv live [a] h' regs' fl' /\ tags h' !! a = Some t /\ index t = -1 /\ TAG + size <= real_size t).
Proof.
  intros Hinv Hs Hidx Hi [->|[Hin (t & Ht & Hfit)]].
  { destruct (allocate_new_tag_spec live h regs fl size Hinv Hs) as (a & h' & Hrun & Hcase). exists a, h'.
    split; [done|]. destruct Hcase as [?|[? (regs' & t & ?)]]; [by left|right]. split; [done|]. by exists regs', fl, t. }
  destruct (ck_free _ _ _ _ _ (hi_chunks _ _ _ _ _ Hinv) i xs tag Hi Hin) as (Hc & _ & _).
  apply list_elem_of_split in Hin as (f1 & f2 & ->).
  destruct (remove_tag_spec _ _ _ _ _ _ _ _ _ Hinv Hi) as (h1 & Hrm & (_ & Hcnt & _ & Hdata) & (t1 & Ht1 & Hi1) & Hinv1).
  destruct (held_tag _ _ _ _ _ tag Hinv1 ltac:(left)) as (_ & Hao & t2 & Ht2 & _ & _ & Hs0 & Hs1).
  rewrite Ht1 in Ht2. injection Ht2 as <-.
  assert (Hrs : real_size t1 = real_size t).
  { specialize (Hdata tag). rewrite Ht, Ht1 in Hdata. cbn in Hdata. unfold data, geom in Hdata. congruence. }
  assert (Hbig : TAG + size <= real_size t1).
  { rewrite Hrs in *. unfold addr_ok, TAG in *. rewrite !u64_small in Hfit by lia. lia. }
  rewrite (proj2 (Z.eqb_neq tag 0)) by (unfold addr_ok in Hao; lia).
  rewrite (bind_run _ _ _ _ _ Hrm), (bind_run _ _ _ _ _ (tag_at_run h1 tag t1 Hao Ht1)).
  assert (Hne : tag <> 0) by (unfold addr_ok in Hao; lia).
  destruct ((split_left t1 =? 0) && (split_right t1 =? 0)).
  - destruct (count_run h1 idx (hi_complete _ _ _ _ _ Hinv1) Hidx) as (c & Hcc & Hsc).
    eexists tag, _. split; [erewrite bind_run; [reflexivity|]; by rewrite (bind_run _ _ _ _ _ Hcc), Hsc|].
    right. split; [done|]. eexists _, _, t1. split; [apply set_counts; [|exact Hinv1]; rewrite length_insert; apply Hinv1|done].
  - exists tag, h1. split; [done|]. right. split; [done|]. by eexists _, _, t1.
Qed.

Lemma malloc_spec live h regs fl size :
  inv live [] h regs fl -> 0 <= size < 2 ^ 31 ->
  exists p h' regs' fl', malloc junk size h = Some (p, h') /\
    (p = 0 /\ liballoc_alloc (new_pages size) (source h) = Some (0, source h') /\ inv live [] h' regs' fl' \/
     p <> 0 /\ inv ((p, size) :: live) [] h' regs' fl').
Proof.
  intros Hinv Hs. unfold malloc.
  rewrite (bind_run _ _ h h tt).
  2: { unfold liballoc_init, modify. rewrite (proj2 (Z.eqb_neq (l_initialized h) 0)); [done|]. apply Hinv. }
  cbv zeta. rewrite Z.add_0_r. fold (class size). pose proof (class_range size ltac:(lia)) as Hidx.
  set (idx := class size) in *. destruct (list_of_class _ _ _ _ _ idx Hinv Hidx) as [xs Hxs].
  destruct (li_list _ _ _ (hi_lists _ _ _ _ _ Hinv) _ xs Hxs) as (_ & Hd & Hh).
  pose proof (free_head_run h _ _ Hh) as Hfh. rewrite Z2Nat.id in Hfh by lia.
  rewrite (bind_run _ _ _ _ _ Hfh), (bind_run tag_fuel _ h h _ eq_refl).
  destruct (find_tag_spec (S (S (base.size (tags h)))) h _ 0 xs size Hd) as (tag & Hft & Htag).
  { intros b Hb. eapply chunk_addr; [apply Hinv|]. by eapply (ck_free _ _ _ _ _ (hi_chunks _ _ _ _ _ Hinv)). }
  { pose proof (list_fuel _ _ _ _ _ _ _ Hinv Hxs). lia. }
  rewrite (bind_run _ _ _ _ _ Hft).
  destruct (take_spec live h regs fl size tag idx _ xs Hinv Hs Hidx Hxs Htag) as (a & h1 & Hrun & Hcase).
  rewrite (bind_run _ _ _ _ _ Hrun). destruct Hcase as [(-> & Hg & Hinv1)|(Ha & regs1 & fl1 & t & Hinv1 & Ht & Hi & Hsz)].
  - exists 0, h1, regs, fl. split; [done|by left].
  - rewrite (proj2 (Z.eqb_neq a 0)) by done.
    destruct (finish_spec live h1 regs1 fl1 a t size Hinv1 Ht Hi Hs Hsz) as (h2 & regs2 & fl2 & Hrun2 & Hinv2).
    exists (a + TAG), h2, regs2, fl2. split; [exact Hrun2|]. right. split; [|done].
    destruct (held_tag _ _ _ _ _ a Hinv1 ltac:(left)) as (_ & Hao & _). unfold addr_ok, TAG in *. lia.
Qed.
End Malloc.

(** ** Runs of the heap *)

Definition writes (live : list range) (T T' : store) : Prop :=
  forall c, T' !! c <> T !! c -> exists p s, (p, s) ∈ live /\ p < c + TAG /\ c < p + s.

Section Run.
Context {P : Type} {PS : PageSource P} {LP : LawfulSource P} (junk : Z -> Z).

(** The blocks that are in use, and the heap, after calls of [malloc] and
    [free] and stores into the blocks. *)
Inductive heap_run : list range -> heap P -> Prop :=
  | run_start s : given s = [] -> heap_run [] (Heap ∅ (replicate 32 0) (replicate 32 0) 0 s)
  | run_malloc live h size p h' : heap_run live h -> 0 <= size < 2 ^ 31 -> malloc junk size h = Some (p, h') ->
      heap_run (if p =? 0 then live else (p, size) :: live) h'
  | run_free live1 p s live2 h h' : heap_run (live1 ++ (p, s) :: live2) h -> heap_free p h = Some (tt, h') ->
      heap_run (live1 ++ live2) h'
  | run_write live h T : heap_run live h -> writes live (tags h) T -> heap_run live (with_tags h T).

(** The invariant does not see the order of the blocks. *)
#[global] Instance heap_inv_proper : Proper ((≡ₚ) ==> (=) ==> (=) ==> (=) ==> (=) ==> impl) (heap_inv (P := P)).
Proof.
  intros l1 l2 Hl held _ <- h _ <- regs _ <- fl _ <- [Hti Hgv Hli Hhl Hcl [Hst Hfr Hhe Hlv Hnd] Hin].
  constructor; try done. constructor; try done.
  - intros a Ha. destruct (Hst a Ha) as (t & Ht & Hm & Hs). exists t. split; [done|]. split; [done|].
    destruct Hs as [Hn Hi Hlo Hx Hs0 Hs1|j ys Hn Hj Hy H8|Hh Hlo].
    + apply status_live; try done. by rewrite <- Hl.
    + by apply (status_free _ _ _ _ _ j ys).
    + by apply status_held.
  - intros p s Hp. apply Hlv. by rewrite Hl.
  - by rewrite <- Hl.
Qed.

Lemma chunks_apart T regs a c ta : tiles T regs -> a ∈ chunks regs -> c ∈ chunks regs -> a < c ->
  T !! a = Some ta -> a + real_size ta <= c.
Proof.
  intros Hti Ha Hc Hlt Hta.
  destruct (region_of _ _ _ Hti Ha) as (r1 & s & n & xs & r2 & -> & Hin & _ & _ & _ & _ & Hsg).
  destruct (seg_lookup _ _ _ _ _ _ a Hsg Hin) as (ta' & Hta' & Hsz & Hs0 & Hs1). simplify_eq.
  rewrite chunks_app, chunks_cons, !elem_of_app in Hc.
  assert (Hcase : c ∈ chunks (r1 ++ r2) \/ c ∈ xs) by (rewrite chunks_app, elem_of_app; tauto).
  destruct Hcase as [Hc2|Hc2]; [|by eapply seg_apart].
  pose proof (other_region _ _ _ _ _ _ _ Hti Hc2). lia.
Qed.

Lemma write_keeps live h regs fl T :
  heap_inv live [] h regs fl -> writes live (tags h) T -> heap_inv live [] (with_tags h T) regs fl.
Proof.
  intros Hinv Hw. apply heap_inv_ext; [|done]. intros c Hc.
  destruct (decide (T !! c = tags h !! c)) as [?|Hne]; [done|exfalso].
  destruct (Hw c Hne) as (p & s & Hp & H1 & H2). pose proof (hi_tiles _ _ _ _ _ Hinv) as Hti.
  destruct (live_chunk _ _ _ _ _ p s Hinv Hp) as (Ha & _ & _ & t & Ht & _ & _ & _ & Hs0 & Hs1 & _).
  destruct (chunk_tag _ _ _ Hti Hc) as (tc & Htc & Hsc & _). unfold TAG in *.
  destruct (Z.lt_trichotomy c (p - 48)) as [Hlt|[->|Hlt]]; [|lia|].
  - pose proof (chunks_apart _ _ _ _ _ Hti Hc Ha Hlt Htc). lia.
  - pose proof (chunks_apart _ _ _ _ _ Hti Ha Hc Hlt Ht). lia.
Qed.

Lemma started s : given s = [] ->
  heap_inv [] [] (Heap ∅ (replicate 32 0) (replicate 32 0) 1 s) [] (replicate 32 []).
Proof.
  intros Hg. constructor; cbn; try done.
  - by rewrite Hg.
  - constructor; [done|]. intros i xs Hi. apply (lookup_replicate 32 [] xs i) in Hi as [-> Hi].
    split_and!; [constructor|done|]. by apply (lookup_replicate 32).
  - constructor.
    + intros a Ha. by inversion Ha.
    + intros i xs a Hi Ha. apply (lookup_replicate 32 [] xs i) in Hi as [-> _]. by inversion Ha.
    + intros a Ha. by inversion Ha.
    + intros p s' Hp. by inversion Hp.
    + constructor.
Qed.

(** The first [malloc] starts the heap. *)
Lemma malloc_start s size :
  malloc junk size (Heap ∅ (replicate 32 0) (replicate 32 0) 0 s)
  = malloc junk size (Heap ∅ (replicate 32 0) (replicate 32 0) 1 s).
Proof. done. Qed.

Lemma run_inv live h : heap_run live h ->
  live = [] /\ (exists s, given s = [] /\ h = Heap (tags h) (replicate 32 0) (replicate 32 0) 0 s) \/
  exists regs fl, heap_inv live [] h regs fl.
Proof.
  induction 1 as [s Hg|live h size p h' Hr IH Hsz Hm|live1 p s live2 h h' Hr IH Hm|live h T Hr IH Hw].
  - left. split; [done|]. by exists s.
  - right. assert (Hgo : exists h0 regs fl, heap_inv live [] h0 regs fl /\ malloc junk size h0 = Some (p, h')).
    { destruct IH as [(-> & s & Hg & Hh)|(regs & fl & Hinv)]; [|by exists h, regs, fl].
      rewrite Hh in Hm. exists (Heap (tags h) (replicate 32 0) (replicate 32 0) 1 s), [], (replicate 32 []).
      split; [|exact Hm]. apply (heap_inv_ext [] [] (Heap ∅ (replicate 32 0) (replicate 32 0) 1 s)); [|by apply started].
      intros b Hb. by inversion Hb. }
    destruct Hgo as (h0 & regs & fl & Hinv & Hm0).
    destruct (malloc_spec junk _ _ _ _ size Hinv Hsz) as (p' & h2 & regs' & fl' & Hm' & Hcase).
    rewrite Hm0 in Hm'. injection Hm' as <- <-. exists regs', fl'. destruct Hcase as [(-> & _ & H)|[Hp H]]; [done|].
    by rewrite (proj2 (Z.eqb_neq p 0)).
  - right. destruct IH as [(Hl & _)|(regs & fl & Hinv)]; [by destruct live1|].
    assert (Hinv2 : heap_inv ((p, s) :: live1 ++ live2) [] h regs fl) by by rewrite Permutation_middle.
    destruct (heap_free_spec _ _ _ _ _ _ Hinv2) as (h2 & regs' & fl' & Hm' & Hinv'). rewrite Hm in Hm'.
    injection Hm' as <-. by exists regs', fl'.
  - destruct IH as [(-> & s & Hg & Hh)|(regs & fl & Hinv)].
    + left. split; [done|]. exists s. split; [done|]. rewrite Hh. done.
    + right. exists regs, fl. by apply write_keeps.
Qed.

(** Live blocks do not meet, and are in memory the source gave. *)
Lemma blocks_apart live h regs fl : heap_inv live [] h regs fl ->
  all_apart live /\ Forall (fun b => exists r, r ∈ given (source h) /\ within b.1 b.2 r) live.
Proof.
  intros Hinv. pose proof (hi_tiles _ _ _ _ _ Hinv) as Hti.
  assert (Hpair : forall p s q u, (p, s) ∈ live -> (q, u) ∈ live -> p < q -> p + s <= q).
  { intros p s q u Hp Hq Hlt.
    destruct (live_chunk _ _ _ _ _ p s Hinv Hp) as (Ha & _ & _ & t & Ht & _ & _ & _ & Hs0 & Hs1 & _).
    destruct (live_chunk _ _ _ _ _ q u Hinv Hq) as (Hc & _).
    pose proof (chunks_apart _ _ _ _ _ Hti Ha Hc ltac:(lia) Ht). unfold TAG in *. lia. }
  split.
  - pose proof (ck_nodup _ _ _ _ _ (hi_chunks _ _ _ _ _ Hinv)) as Hnd. clear Hinv Hti.
    induction live as [|[p s] live IH]; [done|]. cbn in Hnd. apply NoDup_cons in Hnd as [Hp Hnd]. split.
    + apply Forall_forall. intros [q u] Hq. unfold apart. cbn.
      destruct (Z.lt_trichotomy p q) as [Hlt|[->|Hlt]].
      * left. apply (Hpair p s q u); [left|by right|done].
      * exfalso. apply Hp, list_elem_of_fmap. by exists (q, u).
      * right. apply (Hpair q u p s); [by right|left|done].
    + apply IH; [|done]. intros p' s' q' u' Hp' Hq'. apply (Hpair p' s' q' u'); by right.
  - apply Forall_forall. intros [p s] Hp. cbn.
    destruct (live_chunk _ _ _ _ _ p s Hinv Hp) as (Ha & _ & _ & t & Ht & _ & _ & _ & Hs0 & Hs1 & _).
    destruct (region_of _ _ _ Hti Ha) as (r1 & a & n & xs & r2 & E & Hin & _ & _ & _ & _ & Hsg).
    destruct (seg_lookup _ _ _ _ _ _ _ Hsg Hin) as (t' & Ht' & _ & Hs2 & Hs3). rewrite Ht in Ht'. injection Ht' as <-.
    exists (a, n). split; [|unfold within, TAG in *; cbn; lia].
    rewrite <- (hi_given _ _ _ _ _ Hinv), E. apply list_elem_of_fmap. exists (a, n, xs). split; [done|].
    apply elem_of_app. right. left.
Qed.

(** C2: Over a page source that keeps its contract, after any run of malloc,
    free and stores into the live blocks, no two live blocks share a byte and
    each lies in memory that the source gave. *)
Theorem heap_blocks_disjoint (live : list range) (h : heap P) :
  heap_run live h ->
  all_apart live /\ Forall (fun b => exists r, r ∈ given (source h) /\ within b.1 b.2 r) live.
Proof.
  intros Hr. destruct (run_inv live h Hr) as [(-> & _)|(regs & fl & Hinv)]; [by split | by eapply blocks_apart].
Qed.

(** Over a page source that keeps the contract [LawfulSource] - fresh
    memory of all the pages asked for, below 4 GiB since liballoc casts its
    pointers to unsigned int, taken back when it is given back - after any
    such run malloc of any size below 2 GiB returns, with NULL only when
    liballoc_alloc gave no memory for the region that the size needs, and
    free of any live block returns.  The kernel's own liballoc_alloc does not
    keep the contract: [kernel_region_is_one_page] shows what it gives. *)
Theorem heap_calls_return (live : list range) (h : heap P) :
  heap_run live h ->
  (forall size, 0 <= size < 2 ^ 31 -> exists p h', malloc junk size h = Some (p, h') /\
     (p = 0 -> liballoc_alloc (new_pages size) (source h) = Some (0, source h'))) /\
  (forall p s, (p, s) ∈ live -> exists h', heap_free p h = Some (tt, h')).
Proof.
  intros Hr. destruct (run_inv live h Hr) as [(-> & s & Hg & ->)|(regs & fl & Hinv)].
  - split; [|intros p s' Hp; by inversion Hp]. intros size Hs.
    assert (Hinv : heap_inv [] [] (with_tags (Heap ∅ (replicate 32 0) (replicate 32 0) 1 s) (tags h)) [] (replicate 32 [])).
    { apply heap_inv_ext; [|by apply started]. intros b Hb. by inversion Hb. }
    destruct (malloc_spec junk _ _ _ _ size Hinv Hs) as (p & h' & regs' & fl' & Hm & Hcase). exists p, h'.
    split; [exact Hm|]. intros ->. by destruct Hcase as [(_ & Hn & _)|[? _]].
  - split.
    + intros size Hs. destruct (malloc_spec junk _ _ _ _ size Hinv Hs) as (p & h' & regs' & fl' & Hm & Hcase).
      exists p, h'. split; [done|]. intros ->. by destruct Hcase as [(_ & Hn & _)|[? _]].
    + intros p s Hp. apply list_elem_of_split in Hp as (l1 & l2 & ->). rewrite <- Permutation_middle in Hinv.
      destruct (heap_free_spec _ _ _ _ _ _ Hinv) as (h' & regs' & fl' & Hm & _). by exists h'.
Qed.
End Run.

(** ** A page source that keeps the contract

    It hands out memory upwards from 64 KiB. *)
Definition top (s : list range) : Z := foldr (fun r m => Z.max (r.1 + r.2) m) 65536 s.

Fixpoint give_back (r : range) (s : list range) : option (list range) :=
  match s with
  | [] => None
  | x :: s' => if decide (x = r) then Some s' else k ← give_back r s'; Some (x :: k)
  end.

Lemma give_back_spec r s : r ∈ s -> exists k, give_back r s = Some k /\ s ≡ₚ r :: k.
Proof.
  induction s as [|x s IH]; intros Hr; [by inversion Hr|]. cbn. destruct (decide (x = r)) as [->|Hne]; [by exists s|].
  apply elem_of_cons in Hr as [?|Hr]; [congruence|]. destruct (IH Hr) as (k & -> & Hk). exists (x :: k).
  split; [done|]. rewrite Hk. apply Permutation_swap.
Qed.

#[export] Instance bump_source : PageSource (list range) := {
  liballoc_alloc n s :=
    Some (if (top s + 4096 * n <? 2 ^ 32) then (top s, (top s, 4096 * n) :: s) else (0, s));
  liballoc_free p n s := give_back (p, 4096 * n) s;
}.

Lemma top_above s : 65536 <= top s /\ forall r, r ∈ s -> r.1 + r.2 <= top s.
Proof.
  induction s as [|r s [IH1 IH2]]; [split; [done|intros r Hr; by inversion Hr]|].
  change (top (r :: s)) with (Z.max (r.1 + r.2) (top s)). split; [lia|].
  intros r' [->|Hr]%elem_of_cons; [lia|]. specialize (IH2 r' Hr). lia.
Qed.

Lemma bump_alloc_law n (s : list range) : 0 < n < 2 ^ 20 -> exists p s', liballoc_alloc n s = Some (p, s') /\
  (p = 0 /\ s' = s \/ 0 < p /\ p + 4096 * n < 2 ^ 32 /\ s' = (p, 4096 * n) :: s /\ Forall (apart (p, 4096 * n)) s).
Proof.
  intros Hn. cbn [liballoc_alloc bump_source]. destruct (top_above s) as [H1 H2].
  destruct (Z.ltb_spec (top s + 4096 * n) (2 ^ 32)).
  - exists (top s), ((top s, 4096 * n) :: s). split; [done|right]. split_and!; [lia|done|done|].
    apply Forall_forall. intros r Hr. right. by apply H2.
  - exists 0, s. split; [done|by left].
Qed.

#[export] Instance bump_lawful : LawfulSource (list range) := {
  given s := s;
  alloc_law n s := bump_alloc_law n s;
  free_law p n s := give_back_spec (p, 4096 * n) s;
}.

(** Two blocks, the first freed and used again. *)
Definition no_junk : Z -> Z := fun _ => 0.
Definition after_malloc (size : Z) (h : heap (list range)) : heap (list range) :=
  match malloc no_junk size h with Some (_, h') => h' | None => h end.
Definition after_free (p : Z) (h : heap (list range)) : heap (list range) :=
  match heap_free p h with Some (_, h') => h' | None => h end.
Definition heap0 : heap (list range) := Heap ∅ (replicate 32 0) (replicate 32 0) 0 [].
Definition heap1 := Eval vm_compute in after_malloc 40000 heap0.
Definition heap2 := Eval vm_compute in after_malloc 500 heap1.
Definition heap3 := Eval vm_compute in after_free 65584 heap2.
Definition heap4 := Eval vm_compute in after_malloc 33000 heap3.

Lemma small_run : heap_run no_junk [(65584, 33000); (131120, 500)] heap4.
Proof.
  assert (R1 : heap_run no_junk [(65584, 40000)] heap1).
  { apply (run_malloc no_junk [] heap0 40000 65584); [by apply run_start|lia|vm_compute; reflexivity]. }
  assert (R2 : heap_run no_junk [(131120, 500); (65584, 40000)] heap2).
  { apply (run_malloc no_junk _ heap1 500 131120); [done|lia|vm_compute; reflexivity]. }
  assert (R3 : heap_run no_junk [(131120, 500)] heap3).
  { apply (run_free no_junk [(131120, 500)] 65584 40000 [] heap2); [done|vm_compute; reflexivity]. }
  apply (run_malloc no_junk _ heap3 33000 65584); [done|lia|vm_compute; reflexivity].
Qed.

Lemma heap_blocks_disjoint_witness : all_apart [(65584, 33000); (131120, 500)].
Proof. apply (heap_blocks_disjoint no_junk _ heap4 small_run). Defined.

Lemma heap_calls_return_witness : exists h', heap_free 131120 heap4 = Some (tt, h').
Proof.
  destruct (heap_calls_return no_junk _ heap4 small_run) as [_ H]. apply (H 131120 500). right. left.
Defined.

(** ** The kernel's page source *)

Lemma order_of_page n : 1 <= n <= 4096 -> order_of n = 0%nat.
Proof.
  intros Hn. unfold order_of, Pmm.pages_of. rewrite u64_small by lia. rewrite Z.shiftr_div_pow2 by lia.
  change (2 ^ 12) with 4096. assert ((n + 4095) / 4096 = 1) as ->; [|done].
  symmetry. apply (Z.div_unique _ _ _ (n - 1)); lia.
Qed.

(** The number of pages is taken for a number of bytes. *)
Lemma kernel_alloc_one_page n (st : vmm_state) : 1 <= n <= 4096 -> liballoc_alloc n st = liballoc_alloc 1 st.
Proof.
  intros Hn. cbn [liballoc_alloc kernel_pages_source]. unfold vmm_alloc, pmm_alloc, alloc.
  cbv [mbind M_bind]. by rewrite (order_of_page n Hn), (order_of_page 1).
Qed.

Lemma new_pages_below size : 0 <= size < 2 ^ 23 -> 16 <= new_pages size <= 4096.
Proof.
  intros Hs. destruct (new_pages_range size) as [H1 _]; [lia|]. split; [lia|]. unfold new_pages, l_pageSize, l_pageCount.
  pose proof (Z.div_mod (size + TAG) 4096). pose proof (Z.mod_pos_bound (size + TAG) 4096). unfold TAG in *. cbv zeta.
  destruct (Z.eqb_spec ((size + 48) mod 4096) 0); case_if; lia.
Qed.

Lemma kernel_region_spec (h h' : heap vmm_state) (size tag : Z) :
  0 <= size < 2 ^ 23 -> allocate_new_tag size h = Some (tag, h') -> tag <> 0 ->
  exists pa, alloc 1 (pmm (source h)) = Some (pa, pmm (source h')) /\ tag = pa_to_va pa /\
    exists t, tags h' !! va_to_pa tag = Some t /\ tsize t = size /\ real_size t = 4096 * new_pages size /\ 65536 <= real_size t.
Proof.
  intros Hs Hrun Ht0. pose proof (new_pages_below size Hs) as Hp. unfold allocate_new_tag in Hrun. cbv zeta in Hrun.
  rewrite (u32_small size) in Hrun by lia. rewrite (u32_small (size + TAG)) in Hrun by (unfold TAG; lia).
  fold (new_pages size) in Hrun. unfold source_alloc in Hrun. cbv [mbind M_bind] in Hrun.
  rewrite (kernel_alloc_one_page (new_pages size) (source h)) in Hrun by lia. cbn [liballoc_alloc kernel_pages_source] in Hrun.
  unfold vmm_alloc, pmm_alloc in Hrun. cbv [mbind M_bind mret M_ret option_bind] in Hrun.
  destruct (alloc 1 (pmm (source h))) as [[pa pm']|] eqn:Ha; [|done]. exists pa.
  destruct (Z.eqb_spec (pa_to_va pa) 0) as [E|E]; [injection Hrun as <- <-; done|].
  unfold set_tag in Hrun. rewrite (proj2 (Z.eqb_neq _ _) E) in Hrun. injection Hrun as <- <-.
  split; [done|]. split; [done|]. eexists. split; [apply lookup_insert_eq|]. cbn.
  rewrite u32_small by (unfold l_pageSize; lia). unfold l_pageSize. split_and!; lia.
Qed.

(** In the kernel a new region of the heap is a single page whatever its
    size: liballoc_alloc passes a number of pages to vmm::alloc, which takes
    bytes. The tag claims all the pages, at least 16. When no memory is left
    (pmm::alloc gives 0) the tag is the start of the direct map, not NULL. *)
Theorem kernel_region_is_one_page (h h' : heap vmm_state) (size tag : Z) :
  0 <= size < 2 ^ 23 -> allocate_new_tag size h = Some (tag, h') -> tag <> 0 ->
  exists pa, alloc 1 (pmm (source h)) = Some (pa, pmm (source h')) /\ tag = pa_to_va pa /\
    exists t, tags h' !! va_to_pa tag = Some t /\ tsize t = size /\ real_size t = 4096 * new_pages size /\ 65536 <= real_size t.
Proof. exact (kernel_region_spec h h' size tag). Qed.

(** Its second block is inside its first. *)
Definition kernel_heap0 : heap vmm_state := Heap ∅ (replicate 32 0) (replicate 32 0) 0 (VmmState ∅ small_pmm 8192 8192 ∅).
Definition kernel_blocks : option (Z * Z) :=
  '(p, h) ← malloc no_junk 60000 kernel_heap0; '(q, _) ← malloc no_junk 70000 h; Some (p, q).

Example kernel_blocks_overlap : kernel_blocks = Some (1048624, 1052720) /\ 1048624 < 1052720 < 1048624 + 60000.
Proof. split; [vm_compute; reflexivity|lia]. Qed.

Lemma kernel_region_is_one_page_witness : exists tag h', allocate_new_tag 60000 kernel_heap0 = Some (tag, h') /\
  exists pa, alloc 1 small_pmm = Some (pa, pmm (source h')).
Proof.
  destruct (allocate_new_tag 60000 kernel_heap0) as [[tag h']|] eqn:E; [|vm_compute in E; discriminate].
  exists tag, h'. split; [done|].
  destruct (kernel_region_is_one_page kernel_heap0 h' 60000 tag) as (pa & Ha & _); [done|done| |by exists pa].
  intros ->. vm_compute in E. discriminate.
Defined.

(** A size of 2^32 and more is cut to 32 bits. *)
Example malloc_truncates : (x ← malloc no_junk (2 ^ 32 + 100) heap0; Some (x.1, real_size <$> tags x.2 !! 65536))
  = Some (65584, Some 148).
Proof. vm_compute. reflexivity. Qed.

(** Without memory calloc writes through the null pointer. *)
Definition no_source : PageSource unit := {| liballoc_alloc n s := Some (0, s); liballoc_free p n s := Some s |}.
Example malloc_fails : fst <$> malloc (PS := no_source) no_junk 100 (Heap ∅ (replicate 32 0) (replicate 32 0) 0 tt) = Some 0.
Proof. vm_compute. reflexivity. Qed.
