(* ===== verification/FlantermTables.v ===== *)
(** * Tables of the terminal: [extra/flanterm/flanterm.c]

    The palette, the widths of characters and the code page, as data. *)
From S2P Require Import Prelude.

(** ** The 240 colours of the 256-colour palette above the first 16 *)

Definition col256 : list Z :=
  [0x000000; 0x00005f; 0x000087; 0x0000af; 0x0000d7; 0x0000ff; 0x005f00; 0x005f5f; 0x005f87;
   0x005faf; 0x005fd7; 0x005fff; 0x008700; 0x00875f; 0x008787; 0x0087af; 0x0087d7; 0x0087ff;
   0x00af00; 0x00af5f; 0x00af87; 0x00afaf; 0x00afd7; 0x00afff; 0x00d700; 0x00d75f; 0x00d787;
   0x00d7af; 0x00d7d7; 0x00d7ff; 0x00ff00; 0x00ff5f; 0x00ff87; 0x00ffaf; 0x00ffd7; 0x00ffff;
   0x5f0000; 0x5f005f; 0x5f0087; 0x5f00af; 0x5f00d7; 0x5f00ff; 0x5f5f00; 0x5f5f5f; 0x5f5f87;
   0x5f5faf; 0x5f5fd7; 0x5f5fff; 0x5f8700; 0x5f875f; 0x5f8787; 0x5f87af; 0x5f87d7; 0x5f87ff;
   0x5faf00; 0x5faf5f; 0x5faf87; 0x5fafaf; 0x5fafd7; 0x5fafff; 0x5fd700; 0x5fd75f; 0x5fd787;
   0x5fd7af; 0x5fd7d7; 0x5fd7ff; 0x5fff00; 0x5fff5f; 0x5fff87; 0x5fffaf; 0x5fffd7; 0x5fffff;
   0x870000; 0x87005f; 0x870087; 0x8700af; 0x8700d7; 0x8700ff; 0x875f00; 0x875f5f; 0x875f87;
   0x875faf; 0x875fd7; 0x875fff; 0x878700; 0x87875f; 0x878787; 0x8787af; 0x8787d7; 0x8787ff;
   0x87af00; 0x87af5f; 0x87af87; 0x87afaf; 0x87afd7; 0x87afff; 0x87d700; 0x87d75f; 0x87d787;
   0x87d7af; 0x87d7d7; 0x87d7ff; 0x87ff00; 0x87ff5f; 0x87ff87; 0x87ffaf; 0x87ffd7; 0x87ffff;
   0xaf0000; 0xaf005f; 0xaf0087; 0xaf00af; 0xaf00d7; 0xaf00ff; 0xaf5f00; 0xaf5f5f; 0xaf5f87;
   0xaf5faf; 0xaf5fd7; 0xaf5fff; 0xaf8700; 0xaf875f; 0xaf8787; 0xaf87af; 0xaf87d7; 0xaf87ff;
   0xafaf00; 0xafaf5f; 0xafaf87; 0xafafaf; 0xafafd7; 0xafafff; 0xafd700; 0xafd75f; 0xafd787;
   0xafd7af; 0xafd7d7; 0xafd7ff; 0xafff00; 0xafff5f; 0xafff87; 0xafffaf; 0xafffd7; 0xafffff;
   0xd70000; 0xd7005f; 0xd70087; 0xd700af; 0xd700d7; 0xd700ff; 0xd75f00; 0xd75f5f; 0xd75f87;
   0xd75faf; 0xd75fd7; 0xd75fff; 0xd78700; 0xd7875f; 0xd78787; 0xd787af; 0xd787d7; 0xd787ff;
   0xd7af00; 0xd7af5f; 0xd7af87; 0xd7afaf; 0xd7afd7; 0xd7afff; 0xd7d700; 0xd7d75f; 0xd7d787;
   0xd7d7af; 0xd7d7d7; 0xd7d7ff; 0xd7ff00; 0xd7ff5f; 0xd7ff87; 0xd7ffaf; 0xd7ffd7; 0xd7ffff;
   0xff0000; 0xff005f; 0xff0087; 0xff00af; 0xff00d7; 0xff00ff; 0xff5f00; 0xff5f5f; 0xff5f87;
   0xff5faf; 0xff5fd7; 0xff5fff; 0xff8700; 0xff875f; 0xff8787; 0xff87af; 0xff87d7; 0xff87ff;
   0xffaf00; 0xffaf5f; 0xffaf87; 0xffafaf; 0xffafd7; 0xffafff; 0xffd700; 0xffd75f; 0xffd787;
   0xffd7af; 0xffd7d7; 0xffd7ff; 0xffff00; 0xffff5f; 0xffff87; 0xffffaf; 0xffffd7; 0xffffff;
   0x080808; 0x121212; 0x1c1c1c; 0x262626; 0x303030; 0x3a3a3a; 0x444444; 0x4e4e4e; 0x585858;
   0x626262; 0x6c6c6c; 0x767676; 0x808080; 0x8a8a8a; 0x949494; 0x9e9e9e; 0xa8a8a8; 0xb2b2b2;
   0xbcbcbc; 0xc6c6c6; 0xd0d0d0; 0xdadada; 0xe4e4e4; 0xeeeeee].

(** The zero-width characters: intervals of code points, bounds included. *)
Definition combining : list (Z * Z) :=
  [(0x0300, 0x036f); (0x0483, 0x0489); (0x0591, 0x05bd); (0x05bf, 0x05bf); (0x05c1, 0x05c2);
   (0x05c4, 0x05c5); (0x05c7, 0x05c7); (0x0610, 0x061a); (0x061c, 0x061c); (0x064b, 0x065f);
   (0x0670, 0x0670); (0x06d6, 0x06dc); (0x06df, 0x06e4); (0x06e7, 0x06e8); (0x06ea, 0x06ed);
   (0x0711, 0x0711); (0x0730, 0x074a); (0x07a6, 0x07b0); (0x07eb, 0x07f3); (0x07fd, 0x07fd);
   (0x0816, 0x0819); (0x081b, 0x0823); (0x0825, 0x0827); (0x0829, 0x082d); (0x0859, 0x085b);
   (0x0897, 0x089f); (0x08ca, 0x08e1); (0x08e3, 0x0902); (0x093a, 0x093a); (0x093c, 0x093c);
   (0x0941, 0x0948); (0x094d, 0x094d); (0x0951, 0x0957); (0x0962, 0x0963); (0x0981, 0x0981);
   (0x09bc, 0x09bc); (0x09c1, 0x09c4); (0x09cd, 0x09cd); (0x09e2, 0x09e3); (0x09fe, 0x09fe);
   (0x0a01, 0x0a02); (0x0a3c, 0x0a3c); (0x0a41, 0x0a42); (0x0a47, 0x0a48); (0x0a4b, 0x0a4d);
   (0x0a51, 0x0a51); (0x0a70, 0x0a71); (0x0a75, 0x0a75); (0x0a81, 0x0a82); (0x0abc, 0x0abc);
   (0x0ac1, 0x0ac5); (0x0ac7, 0x0ac8); (0x0acd, 0x0acd); (0x0ae2, 0x0ae3); (0x0afa, 0x0aff);
   (0x0b01, 0x0b01); (0x0b3c, 0x0b3c); (0x0b3f, 0x0b3f); (0x0b41, 0x0b44); (0x0b4d, 0x0b4d);
   (0x0b55, 0x0b56); (0x0b62, 0x0b63); (0x0b82, 0x0b82); (0x0bc0, 0x0bc0); (0x0bcd, 0x0bcd);
   (0x0c00, 0x0c00); (0x0c04, 0x0c04); (0x0c3c, 0x0c3c); (0x0c3e, 0x0c40); (0x0c46, 0x0c48);
   (0x0c4a, 0x0c4d); (0x0c55, 0x0c56); (0x0c62, 0x0c63); (0x0c81, 0x0c81); (0x0cbc, 0x0cbc);
   (0x0cbf, 0x0cbf); (0x0cc6, 0x0cc6); (0x0ccc, 0x0ccd); (0x0ce2, 0x0ce3); (0x0d00, 0x0d01);
   (0x0d3b, 0x0d3c); (0x0d41, 0x0d44); (0x0d4d, 0x0d4d); (0x0d62, 0x0d63); (0x0d81, 0x0d81);
   (0x0dca, 0x0dca); (0x0dd2, 0x0dd4); (0x0dd6, 0x0dd6); (0x0e31, 0x0e31); (0x0e34, 0x0e3a);
   (0x0e47, 0x0e4e); (0x0eb1, 0x0eb1); (0x0eb4, 0x0ebc); (0x0ec8, 0x0ece); (0x0f18, 0x0f19);
   (0x0f35, 0x0f35); (0x0f37, 0x0f37); (0x0f39, 0x0f39); (0x0f71, 0x0f7e); (0x0f80, 0x0f84);
   (0x0f86, 0x0f87); (0x0f8d, 0x0f97); (0x0f99, 0x0fbc); (0x0fc6, 0x0fc6); (0x102d, 0x1030);
   (0x1032, 0x1037); (0x1039, 0x103a); (0x103d, 0x103e); (0x1058, 0x1059); (0x105e, 0x1060);
   (0x1071, 0x1074); (0x1082, 0x1082); (0x1085, 0x1086); (0x108d, 0x108d); (0x109d, 0x109d);
   (0x1160, 0x11ff); (0x135d, 0x135f); (0x1712, 0x1714); (0x1732, 0x1733); (0x1752, 0x1753);
   (0x1772, 0x1773); (0x17b4, 0x17b5); (0x17b7, 0x17bd); (0x17c6, 0x17c6); (0x17c9, 0x17d3);
   (0x17dd, 0x17dd); (0x180b, 0x180f); (0x1885, 0x1886); (0x18a9, 0x18a9); (0x1920, 0x1922);
   (0x1927, 0x1928); (0x1932, 0x1932); (0x1939, 0x193b); (0x1a17, 0x1a18); (0x1a1b, 0x1a1b);
   (0x1a56, 0x1a56); (0x1a58, 0x1a5e); (0x1a60, 0x1a60); (0x1a62, 0x1a62); (0x1a65, 0x1a6c);
   (0x1a73, 0x1a7c); (0x1a7f, 0x1a7f); (0x1ab0, 0x1add); (0x1ae0, 0x1aeb); (0x1b00, 0x1b03);
   (0x1b34, 0x1b34); (0x1b36, 0x1b3a); (0x1b3c, 0x1b3c); (0x1b42, 0x1b42); (0x1b6b, 0x1b73);
   (0x1b80, 0x1b81); (0x1ba2, 0x1ba5); (0x1ba8, 0x1ba9); (0x1bab, 0x1bad); (0x1be6, 0x1be6);
   (0x1be8, 0x1be9); (0x1bed, 0x1bed); (0x1bef, 0x1bf1); (0x1c2c, 0x1c33); (0x1c36, 0x1c37);
   (0x1cd0, 0x1cd2); (0x1cd4, 0x1ce0); (0x1ce2, 0x1ce8); (0x1ced, 0x1ced); (0x1cf4, 0x1cf4);
   (0x1cf8, 0x1cf9); (0x1dc0, 0x1dff); (0x200b, 0x200f); (0x2028, 0x202e); (0x2060, 0x206f);
   (0x20d0, 0x20f0); (0x2cef, 0x2cf1); (0x2d7f, 0x2d7f); (0x2de0, 0x2dff); (0x302a, 0x302d);
   (0x3099, 0x309a); (0x3164, 0x3164); (0xa66f, 0xa672); (0xa674, 0xa67d); (0xa69e, 0xa69f);
   (0xa6f0, 0xa6f1); (0xa802, 0xa802); (0xa806, 0xa806); (0xa80b, 0xa80b); (0xa825, 0xa826);
   (0xa82c, 0xa82c); (0xa8c4, 0xa8c5); (0xa8e0, 0xa8f1); (0xa8ff, 0xa8ff); (0xa926, 0xa92d);
   (0xa947, 0xa951); (0xa980, 0xa982); (0xa9b3, 0xa9b3); (0xa9b6, 0xa9b9); (0xa9bc, 0xa9bd);
   (0xa9e5, 0xa9e5); (0xaa29, 0xaa2e); (0xaa31, 0xaa32); (0xaa35, 0xaa36); (0xaa43, 0xaa43);
   (0xaa4c, 0xaa4c); (0xaa7c, 0xaa7c); (0xaab0, 0xaab0); (0xaab2, 0xaab4); (0xaab7, 0xaab8);
   (0xaabe, 0xaabf); (0xaac1, 0xaac1); (0xaaec, 0xaaed); (0xaaf6, 0xaaf6); (0xabe5, 0xabe5);
   (0xabe8, 0xabe8); (0xabed, 0xabed); (0xd7b0, 0xd7ff); (0xfb1e, 0xfb1e); (0xfe00, 0xfe0f);
   (0xfe20, 0xfe2f); (0xfeff, 0xfeff); (0xffa0, 0xffa0); (0xfff0, 0xfffb); (0x101fd, 0x101fd);
   (0x102e0, 0x102e0); (0x10376, 0x1037a); (0x10a01, 0x10a03); (0x10a05, 0x10a06); (0x10a0c, 0x10a0f);
   (0x10a38, 0x10a3a); (0x10a3f, 0x10a3f); (0x10ae5, 0x10ae6); (0x10d24, 0x10d27); (0x10d69, 0x10d6d);
   (0x10eab, 0x10eac); (0x10efa, 0x10eff); (0x10f46, 0x10f50); (0x10f82, 0x10f85); (0x11001, 0x11001);
   (0x11038, 0x11046); (0x11070, 0x11070); (0x11073, 0x11074); (0x1107f, 0x11081); (0x110b3, 0x110b6);
   (0x110b9, 0x110ba); (0x110c2, 0x110c2); (0x11100, 0x11102); (0x11127, 0x1112b); (0x1112d, 0x11134);
   (0x11173, 0x11173); (0x11180, 0x11181); (0x111b6, 0x111be); (0x111c9, 0x111cc); (0x111cf, 0x111cf);
   (0x1122f, 0x11231); (0x11234, 0x11234); (0x11236, 0x11237); (0x1123e, 0x1123e); (0x11241, 0x11241);
   (0x112df, 0x112df); (0x112e3, 0x112ea); (0x11300, 0x11301); (0x1133b, 0x1133c); (0x11340, 0x11340);
   (0x11366, 0x1136c); (0x11370, 0x11374); (0x113bb, 0x113c0); (0x113ce, 0x113ce); (0x113d0, 0x113d0);
   (0x113d2, 0x113d2); (0x113e1, 0x113e2); (0x11438, 0x1143f); (0x11442, 0x11444); (0x11446, 0x11446);
   (0x1145e, 0x1145e); (0x114b3, 0x114b8); (0x114ba, 0x114ba); (0x114bf, 0x114c0); (0x114c2, 0x114c3);
   (0x115b2, 0x115b5); (0x115bc, 0x115bd); (0x115bf, 0x115c0); (0x115dc, 0x115dd); (0x11633, 0x1163a);
   (0x1163d, 0x1163d); (0x1163f, 0x11640); (0x116ab, 0x116ab); (0x116ad, 0x116ad); (0x116b0, 0x116b5);
   (0x116b7, 0x116b7); (0x1171d, 0x1171d); (0x1171f, 0x1171f); (0x11722, 0x11725); (0x11727, 0x1172b);
   (0x1182f, 0x11837); (0x11839, 0x1183a); (0x1193b, 0x1193c); (0x1193e, 0x1193e); (0x11943, 0x11943);
   (0x119d4, 0x119d7); (0x119da, 0x119db); (0x119e0, 0x119e0); (0x11a01, 0x11a0a); (0x11a33, 0x11a38);
   (0x11a3b, 0x11a3e); (0x11a47, 0x11a47); (0x11a51, 0x11a56); (0x11a59, 0x11a5b); (0x11a8a, 0x11a96);
   (0x11a98, 0x11a99); (0x11b60, 0x11b60); (0x11b62, 0x11b64); (0x11b66, 0x11b66); (0x11c30, 0x11c36);
   (0x11c38, 0x11c3d); (0x11c3f, 0x11c3f); (0x11c92, 0x11ca7); (0x11caa, 0x11cb0); (0x11cb2, 0x11cb3);
   (0x11cb5, 0x11cb6); (0x11d31, 0x11d36); (0x11d3a, 0x11d3a); (0x11d3c, 0x11d3d); (0x11d3f, 0x11d45);
   (0x11d47, 0x11d47); (0x11d90, 0x11d91); (0x11d95, 0x11d95); (0x11d97, 0x11d97); (0x11ef3, 0x11ef4);
   (0x11f00, 0x11f01); (0x11f36, 0x11f3a); (0x11f40, 0x11f40); (0x11f42, 0x11f42); (0x11f5a, 0x11f5a);
   (0x13430, 0x13440); (0x13447, 0x13455); (0x1611e, 0x16129); (0x1612d, 0x1612f); (0x16af0, 0x16af4);
   (0x16b30, 0x16b36); (0x16f4f, 0x16f4f); (0x16f8f, 0x16f92); (0x16fe4, 0x16fe4); (0x1bc9d, 0x1bc9e);
   (0x1bca0, 0x1bca3); (0x1cf00, 0x1cf2d); (0x1cf30, 0x1cf46); (0x1d167, 0x1d169); (0x1d173, 0x1d182);
   (0x1d185, 0x1d18b); (0x1d1aa, 0x1d1ad); (0x1d242, 0x1d244); (0x1da00, 0x1da36); (0x1da3b, 0x1da6c);
   (0x1da75, 0x1da75); (0x1da84, 0x1da84); (0x1da9b, 0x1da9f); (0x1daa1, 0x1daaf); (0x1e000, 0x1e006);
   (0x1e008, 0x1e018); (0x1e01b, 0x1e021); (0x1e023, 0x1e024); (0x1e026, 0x1e02a); (0x1e08f, 0x1e08f);
   (0x1e130, 0x1e136); (0x1e2ae, 0x1e2ae); (0x1e2ec, 0x1e2ef); (0x1e4ec, 0x1e4ef); (0x1e5ee, 0x1e5ef);
   (0x1e6e3, 0x1e6e3); (0x1e6e6, 0x1e6e6); (0x1e6ee, 0x1e6ef); (0x1e6f5, 0x1e6f5); (0x1e8d0, 0x1e8d6);
   (0x1e944, 0x1e94a); (0xe0000, 0xe0fff)].

(** The wide and fullwidth characters: intervals of code points, bounds included. *)
Definition wide : list (Z * Z) :=
  [(0x1100, 0x115f); (0x231a, 0x231b); (0x2329, 0x232a); (0x23e9, 0x23ec); (0x23f0, 0x23f0);
   (0x23f3, 0x23f3); (0x25fd, 0x25fe); (0x2614, 0x2615); (0x2630, 0x2637); (0x2648, 0x2653);
   (0x267f, 0x267f); (0x268a, 0x268f); (0x2693, 0x2693); (0x26a1, 0x26a1); (0x26aa, 0x26ab);
   (0x26bd, 0x26be); (0x26c4, 0x26c5); (0x26ce, 0x26ce); (0x26d4, 0x26d4); (0x26ea, 0x26ea);
   (0x26f2, 0x26f3); (0x26f5, 0x26f5); (0x26fa, 0x26fa); (0x26fd, 0x26fd); (0x2705, 0x2705);
   (0x270a, 0x270b); (0x2728, 0x2728); (0x274c, 0x274c); (0x274e, 0x274e); (0x2753, 0x2755);
   (0x2757, 0x2757); (0x2795, 0x2797); (0x27b0, 0x27b0); (0x27bf, 0x27bf); (0x2b1b, 0x2b1c);
   (0x2b50, 0x2b50); (0x2b55, 0x2b55); (0x2e80, 0x2e99); (0x2e9b, 0x2ef3); (0x2f00, 0x2fd5);
   (0x2ff0, 0x303e); (0x3041, 0x3096); (0x3099, 0x30ff); (0x3105, 0x312f); (0x3131, 0x318e);
   (0x3190, 0x31e5); (0x31ef, 0x321e); (0x3220, 0x3247); (0x3250, 0xa48c); (0xa490, 0xa4c6);
   (0xa960, 0xa97c); (0xac00, 0xd7a3); (0xf900, 0xfaff); (0xfe10, 0xfe19); (0xfe30, 0xfe52);
   (0xfe54, 0xfe66); (0xfe68, 0xfe6b); (0xff01, 0xff60); (0xffe0, 0xffe6); (0x16fe0, 0x16fe4);
   (0x16ff0, 0x16ff6); (0x17000, 0x18cd5); (0x18cff, 0x18d1e); (0x18d80, 0x18df2); (0x1aff0, 0x1aff3);
   (0x1aff5, 0x1affb); (0x1affd, 0x1affe); (0x1b000, 0x1b122); (0x1b132, 0x1b132); (0x1b150, 0x1b152);
   (0x1b155, 0x1b155); (0x1b164, 0x1b167); (0x1b170, 0x1b2fb); (0x1d300, 0x1d356); (0x1d360, 0x1d376);
   (0x1f004, 0x1f004); (0x1f0cf, 0x1f0cf); (0x1f18e, 0x1f18e); (0x1f191, 0x1f19a); (0x1f200, 0x1f202);
   (0x1f210, 0x1f23b); (0x1f240, 0x1f248); (0x1f250, 0x1f251); (0x1f260, 0x1f265); (0x1f300, 0x1f320);
   (0x1f32d, 0x1f335); (0x1f337, 0x1f37c); (0x1f37e, 0x1f393); (0x1f3a0, 0x1f3ca); (0x1f3cf, 0x1f3d3);
   (0x1f3e0, 0x1f3f0); (0x1f3f4, 0x1f3f4); (0x1f3f8, 0x1f43e); (0x1f440, 0x1f440); (0x1f442, 0x1f4fc);
   (0x1f4ff, 0x1f53d); (0x1f54b, 0x1f54e); (0x1f550, 0x1f567); (0x1f57a, 0x1f57a); (0x1f595, 0x1f596);
   (0x1f5a4, 0x1f5a4); (0x1f5fb, 0x1f64f); (0x1f680, 0x1f6c5); (0x1f6cc, 0x1f6cc); (0x1f6d0, 0x1f6d2);
   (0x1f6d5, 0x1f6d8); (0x1f6dc, 0x1f6df); (0x1f6eb, 0x1f6ec); (0x1f6f4, 0x1f6fc); (0x1f7e0, 0x1f7eb);
   (0x1f7f0, 0x1f7f0); (0x1f90c, 0x1f93a); (0x1f93c, 0x1f945); (0x1f947, 0x1f9ff); (0x1fa70, 0x1fa7c);
   (0x1fa80, 0x1fa8a); (0x1fa8e, 0x1fac6); (0x1fac8, 0x1fac8); (0x1facd, 0x1fadc); (0x1fadf, 0x1faea);
   (0x1faef, 0x1faf8); (0x20000, 0x2fffd); (0x30000, 0x3fffd)].

Definition cp437_first : list (Z * Z) :=
  [(0x263a, 1); (0x263b, 2); (0x2665, 3); (0x2666, 4); (0x25c6, 4); (0x2663, 5);
   (0x2660, 6); (0x2022, 7); (0x25d8, 8); (0x25cb, 9); (0x25d9, 10); (0x2642, 11);
   (0x2640, 12); (0x266a, 13); (0x266b, 14); (0x263c, 15); (0x00a4, 15); (0x25ba, 16);
   (0x25b6, 16); (0x25c4, 17); (0x25c0, 17); (0x2195, 18); (0x203c, 19); (0x00b6, 20);
   (0x00a7, 21); (0x25ac, 22); (0x21a8, 23); (0x2191, 24); (0x2193, 25); (0x2192, 26);
   (0x2190, 27); (0x221f, 28); (0x2194, 29); (0x25b2, 30); (0x25bc, 31); (0x00a8, 0x22);
   (0x00b4, 0x27); (0x00b8, 0x2c); (0x00ad, 0x2d); (0x00c0, 0x41); (0x00c1, 0x41); (0x00c2, 0x41);
   (0x00c3, 0x41); (0x00a9, 0x43); (0x00d0, 0x44); (0x00c8, 0x45); (0x00ca, 0x45); (0x00cb, 0x45);
   (0x00cc, 0x49); (0x00cd, 0x49); (0x00ce, 0x49); (0x00cf, 0x49); (0x212a, 0x4b); (0x00d2, 0x4f);
   (0x00d3, 0x4f); (0x00d4, 0x4f); (0x00d5, 0x4f); (0x00ae, 0x52); (0x00d9, 0x55); (0x00da, 0x55);
   (0x00db, 0x55); (0x00dd, 0x59); (0x23bd, 0x5f); (0x00e3, 0x61); (0x00f5, 0x6f); (0x00d7, 0x78);
   (0x00fd, 0x79); (0x00a6, 0x7c); (0x2302, 127); (0x00c7, 128); (0x00fc, 129); (0x00e9, 130);
   (0x00e2, 131); (0x00e4, 132); (0x00e0, 133); (0x00e5, 134); (0x00e7, 135); (0x00ea, 136);
   (0x00eb, 137); (0x00e8, 138); (0x00ef, 139); (0x00ee, 140); (0x00ec, 141); (0x00c4, 142);
   (0x00c5, 143); (0x212b, 143); (0x00c9, 144); (0x00e6, 145); (0x00c6, 146); (0x00f4, 147);
   (0x00f6, 148); (0x00f2, 149); (0x00fb, 150); (0x00f9, 151); (0x00ff, 152); (0x00d6, 153);
   (0x00dc, 154); (0x00a2, 155); (0x00a3, 156); (0x00a5, 157); (0x20a7, 158); (0x0192, 159);
   (0x00e1, 160); (0x00ed, 161); (0x00f3, 162); (0x00fa, 163); (0x00f1, 164); (0x00d1, 165);
   (0x00aa, 166); (0x00ba, 167); (0x00bf, 168); (0x2310, 169); (0x00ac, 170); (0x00bd, 171);
   (0x00bc, 172); (0x00a1, 173); (0x00ab, 174); (0x00bb, 175); (0x2591, 176); (0x2592, 177);
   (0x2593, 178); (0x2502, 179); (0x2524, 180); (0x2561, 181); (0x2562, 182); (0x2556, 183);
   (0x2555, 184); (0x2563, 185); (0x2551, 186); (0x2557, 187); (0x255d, 188); (0x255c, 189);
   (0x255b, 190); (0x2510, 191); (0x2514, 192); (0x2534, 193); (0x252c, 194); (0x251c, 195)].

Definition cp437_second : list (Z * Z) :=
  [(0x2500, 196); (0x253c, 197); (0x255e, 198); (0x255f, 199); (0x255a, 200); (0x2554, 201);
   (0x2569, 202); (0x2566, 203); (0x2560, 204); (0x2550, 205); (0x256c, 206); (0x2567, 207);
   (0x2568, 208); (0x2564, 209); (0x2565, 210); (0x2559, 211); (0x2558, 212); (0x2552, 213);
   (0x2553, 214); (0x256b, 215); (0x256a, 216); (0x2518, 217); (0x250c, 218); (0x2588, 219);
   (0x2584, 220); (0x258c, 221); (0x2590, 222); (0x2580, 223); (0x03b1, 224); (0x00df, 225);
   (0x03b2, 225); (0x0393, 226); (0x03c0, 227); (0x03a3, 228); (0x03c3, 229); (0x00b5, 230);
   (0x03bc, 230); (0x03c4, 231); (0x03a6, 232); (0x00d8, 232); (0x0398, 233); (0x03a9, 234);
   (0x2126, 234); (0x03b4, 235); (0x00f0, 235); (0x221e, 236); (0x03c6, 237); (0x00f8, 237);
   (0x03b5, 238); (0x2208, 238); (0x2229, 239); (0x2261, 240); (0x00b1, 241); (0x2265, 242);
   (0x2264, 243); (0x2320, 244); (0x2321, 245); (0x00f7, 246); (0x2248, 247); (0x00b0, 248);
   (0x2219, 249); (0x00b7, 250); (0x221a, 251); (0x207f, 252); (0x00b2, 253); (0x25a0, 254);
   (0xfffd, 254); (0x00a0, 255); (0x256d, 0xda); (0x256e, 0xbf); (0x256f, 0xd9); (0x2570, 0xc0);
   (0x2571, 0x2f); (0x2572, 0x5c); (0x2573, 0x58); (0x2501, 0xc4); (0x2503, 0xb3); (0x250f, 0xda);
   (0x2513, 0xbf); (0x2517, 0xc0); (0x251b, 0xd9); (0x2523, 0xc3); (0x252b, 0xb4); (0x2533, 0xc2);
   (0x253b, 0xc1); (0x254b, 0xc5); (0x250d, 0xda); (0x250e, 0xda); (0x2511, 0xbf); (0x2512, 0xbf);
   (0x2515, 0xc0); (0x2516, 0xc0); (0x2519, 0xd9); (0x251a, 0xd9); (0x251d, 0xc3); (0x251e, 0xc3);
   (0x251f, 0xc3); (0x2520, 0xc3); (0x2521, 0xc3); (0x2522, 0xc3); (0x2525, 0xb4); (0x2526, 0xb4);
   (0x2527, 0xb4); (0x2528, 0xb4); (0x2529, 0xb4); (0x252a, 0xb4); (0x252d, 0xc2); (0x252e, 0xc2);
   (0x252f, 0xc2); (0x2530, 0xc2); (0x2531, 0xc2); (0x2532, 0xc2); (0x2535, 0xc1); (0x2536, 0xc1);
   (0x2537, 0xc1); (0x2538, 0xc1); (0x2539, 0xc1); (0x253a, 0xc1); (0x253d, 0xc5); (0x253e, 0xc5);
   (0x253f, 0xc5); (0x2540, 0xc5); (0x2541, 0xc5); (0x2542, 0xc5); (0x2543, 0xc5); (0x2544, 0xc5)].

Definition cp437_third : list (Z * Z) :=
  [(0x2545, 0xc5); (0x2546, 0xc5); (0x2547, 0xc5); (0x2548, 0xc5); (0x2549, 0xc5); (0x254a, 0xc5);
   (0x2504, 0xc4); (0x2505, 0xc4); (0x2506, 0xb3); (0x2507, 0xb3); (0x2508, 0xc4); (0x2509, 0xc4);
   (0x250a, 0xb3); (0x250b, 0xb3); (0x2574, 0xc4); (0x2575, 0xb3); (0x2576, 0xc4); (0x2577, 0xb3);
   (0x2578, 0xc4); (0x2579, 0xb3); (0x257a, 0xc4); (0x257b, 0xb3); (0x257c, 0xc4); (0x257d, 0xb3);
   (0x257e, 0xc4); (0x257f, 0xb3); (0x25b3, 30); (0x25b5, 30); (0x25b7, 16); (0x25b9, 16);
   (0x25bd, 31); (0x25bf, 31); (0x25c1, 17); (0x25c3, 17); (0x2581, 0xdc); (0x2582, 0xdc);
   (0x2583, 0xdc); (0x2585, 0xdc); (0x2586, 0xdb); (0x2587, 0xdb); (0x2589, 0xdb); (0x258a, 0xdb);
   (0x258b, 0xdd); (0x258d, 0xdd); (0x258e, 0xdd); (0x258f, 0xdd); (0x2594, 0xdf); (0x2595, 0xde);
   (0x2596, 0xdc); (0x2597, 0xdc); (0x2598, 0xdf); (0x2599, 0xdb); (0x259a, 0xb1); (0x259b, 0xdb);
   (0x259c, 0xdb); (0x259d, 0xdf); (0x259e, 0xb1); (0x259f, 0xdb); (0x25cf, 0x07); (0x25c9, 0x0a);
   (0x25ef, 0x09); (0x25e6, 0x09); (0x25aa, 0xfe); (0x25fc, 0xfe); (0x2013, 0x2d); (0x2014, 0x2d);
   (0x2018, 0x27); (0x2019, 0x27); (0x201c, 0x22); (0x201d, 0x22); (0x2026, 0xfa); (0x2212, 0x2d);
   (0x2713, 0xfb); (0x2714, 0xfb); (0x21d0, 27); (0x21d1, 24); (0x21d2, 26); (0x21d3, 25);
   (0x21d4, 29); (0x21d5, 18); (0x2211, 0xe4); (0x23af, 0xc4); (0x23f4, 17); (0x23f5, 16);
   (0x23f6, 30); (0x23f7, 31); (0x23f8, 0xba); (0x23f9, 0xfe); (0x23fa, 0x07); (0x23a1, 0xda);
   (0x23a2, 0xb3); (0x23a3, 0xc0); (0x23a4, 0xbf); (0x23a5, 0xb3); (0x23a6, 0xd9); (0x23a7, 0xda);
   (0x23a8, 0xc3); (0x23a9, 0xc0); (0x23aa, 0xb3); (0x23ab, 0xbf); (0x23ac, 0xb4); (0x23ad, 0xd9);
   (0x23ae, 0xb3); (0x23b8, 0xb3); (0x23b9, 0xb3); (0x23ba, 0xc4); (0x23bb, 0xc4); (0x23bc, 0xc4)].

Definition cp437_fourth : list (Z * Z) :=
  [(0x23be, 0xb3); (0x23bf, 0xc0); (0x231c, 0xda); (0x231d, 0xbf); (0x231e, 0xc0); (0x231f, 0xd9)].

(** The cases of the switch of [unicode_to_cp437], in order. *)
Definition cp437_cases : list (Z * Z) := cp437_first ++ cp437_second ++ cp437_third ++ cp437_fourth.

(** The DEC special graphics: a character and the glyph it prints. *)
Definition dec_special : list (Z * Z) :=
  [(96, 0x04); (48, 0xdb); (45, 0x18); (44, 0x1b); (46, 0x19); (97, 0xb1); (102, 0xf8); (103, 0xf1);
   (104, 0xb0); (106, 0xd9); (107, 0xbf); (108, 0xda); (109, 0xc0); (110, 0xc5); (113, 0xc4); (115, 0x5f);
   (116, 0xc3); (117, 0xb4); (118, 0xc1); (119, 0xc2); (120, 0xb3); (121, 0xf3); (122, 0xf2); (126, 0xfa);
   (95, 0xff); (43, 0x1a); (123, 0xe3); (125, 0x9c)].
