(* ===== verification/Flanterm.v ===== *)
(** * The terminal: [extra/flanterm/flanterm.c]

    A byte stream drives a terminal: text, UTF-8, control characters and
    escape sequences.  The screen behind it is the interface [TermBackend],
    the function pointers of the context; an operation of the backend reads
    the context and changes its own state.  [None] is an access outside an
    array, a division by zero or a loop that never ends. *)
From S2P Require Import Prelude FlantermTables.

Definition FLANTERM_MAX_ESC_VALUES : Z := 16.
Definition OSC_BUF_SIZE : Z := 256.
Definition CHARSET_DEFAULT : Z := 0.
Definition CHARSET_DEC_SPECIAL : Z := 1.

(** [(size_t)-1], a default colour, and [(size_t)-2], one given by value. *)
Definition COLOUR_DEFAULT : Z := 18446744073709551615.
Definition COLOUR_BY_VALUE : Z := 18446744073709551614.
Definition UINT32_MAX : Z := 4294967295.

Definition FLANTERM_CB_DEC : Z := 10.
Definition FLANTERM_CB_BELL : Z := 20.
Definition FLANTERM_CB_PRIVATE_ID : Z := 30.
Definition FLANTERM_CB_STATUS_REPORT : Z := 40.
Definition FLANTERM_CB_POS_REPORT : Z := 50.
Definition FLANTERM_CB_KBD_LEDS : Z := 60.
Definition FLANTERM_CB_MODE : Z := 70.
Definition FLANTERM_CB_LINUX : Z := 80.
Definition FLANTERM_CB_OSC : Z := 90.

(** ** State *)

Record flanterm_context := FlantermContext {
  tab_size : Z;
  autoflush : bool;
  cursor_enabled : bool;
  scroll_enabled : bool;
  wrap_enabled : bool;
  origin_mode : bool;
  control_sequence : bool;
  escape : bool;
  osc : bool;
  osc_escape : bool;
  osc_buf_i : Z;
  osc_buf : list Z;
  rrr : bool;
  discard_next : bool;
  bold : bool;
  bg_bold : bool;
  reverse_video : bool;
  dec_private : bool;
  insert_mode : bool;
  csi_unhandled : bool;
  code_point : Z;
  unicode_remaining : Z;
  g_select : Z;
  charsets : list Z;
  current_charset : Z;
  escape_offset : Z;
  esc_values_i : Z;
  saved_cursor_x : Z;
  saved_cursor_y : Z;
  current_primary : Z;
  current_bg : Z;
  scroll_top_margin : Z;
  scroll_bottom_margin : Z;
  esc_values : list Z;
  last_printed_char : Z;
  last_was_graphic : bool;
  saved_state_bold : bool;
  saved_state_bg_bold : bool;
  saved_state_reverse_video : bool;
  saved_state_origin_mode : bool;
  saved_state_wrap_enabled : bool;
  saved_state_current_charset : Z;
  saved_state_charsets : list Z;
  saved_state_current_primary : Z;
  saved_state_current_bg : Z;
  saved_state_scroll_top_margin : Z;
  saved_state_scroll_bottom_margin : Z;
  rows : Z;
  cols : Z;
  callback : bool;
}.

#[export] Instance eta_flanterm_context : Settable flanterm_context := fun c =>
  FlantermContext (tab_size c) (autoflush c) (cursor_enabled c) (scroll_enabled c)
    (wrap_enabled c) (origin_mode c) (control_sequence c) (escape c) (osc c) (osc_escape c)
    (osc_buf_i c) (osc_buf c) (rrr c) (discard_next c) (bold c) (bg_bold c) (reverse_video c)
    (dec_private c) (insert_mode c) (csi_unhandled c) (code_point c) (unicode_remaining c)
    (g_select c) (charsets c) (current_charset c) (escape_offset c) (esc_values_i c)
    (saved_cursor_x c) (saved_cursor_y c) (current_primary c) (current_bg c)
    (scroll_top_margin c) (scroll_bottom_margin c) (esc_values c) (last_printed_char c)
    (last_was_graphic c) (saved_state_bold c) (saved_state_bg_bold c)
    (saved_state_reverse_video c) (saved_state_origin_mode c) (saved_state_wrap_enabled c)
    (saved_state_current_charset c) (saved_state_charsets c) (saved_state_current_primary c)
    (saved_state_current_bg c) (saved_state_scroll_top_margin c)
    (saved_state_scroll_bottom_margin c) (rows c) (cols c) (callback c).

Definition flanterm_context_reinit (c : flanterm_context) : flanterm_context :=
  c <| tab_size := 8 |> <| autoflush := true |> <| cursor_enabled := true |>
    <| scroll_enabled := true |> <| wrap_enabled := true |> <| origin_mode := false |>
    <| control_sequence := false |> <| escape := false |> <| osc := false |>
    <| osc_escape := false |> <| rrr := false |> <| discard_next := false |> <| bold := false |>
    <| bg_bold := false |> <| reverse_video := false |> <| dec_private := false |>
    <| insert_mode := false |> <| csi_unhandled := false |> <| unicode_remaining := 0 |>
    <| g_select := 0 |> <| charsets := [CHARSET_DEFAULT; CHARSET_DEC_SPECIAL] |>
    <| current_charset := 0 |> <| escape_offset := 0 |> <| esc_values_i := 0 |>
    <| saved_cursor_x := 0 |> <| saved_cursor_y := 0 |> <| current_primary := COLOUR_DEFAULT |>
    <| current_bg := COLOUR_DEFAULT |>
    <| saved_state_charsets := [CHARSET_DEFAULT; CHARSET_DEC_SPECIAL] |>
    <| saved_state_wrap_enabled := true |> <| saved_state_current_primary := COLOUR_DEFAULT |>
    <| saved_state_current_bg := COLOUR_DEFAULT |> <| saved_state_scroll_top_margin := 0 |>
    <| saved_state_scroll_bottom_margin := rows c |> <| last_printed_char := 32 |>
    <| last_was_graphic := false |> <| scroll_top_margin := 0 |>
    <| scroll_bottom_margin := rows c |>.

(** What the client's callback is given: the kind, three words, and the data
    a pointer among them designates. *)
Record callback_args := CallbackArgs { cb_type : Z; cb_1 : Z; cb_2 : Z; cb_3 : Z; cb_data : list Z }.

Class TermBackend (B : Type) := {
  raw_putchar : flanterm_context -> Z -> M B unit;
  clear_screen : flanterm_context -> bool -> M B unit;
  set_cursor_pos : flanterm_context -> Z -> Z -> M B unit;
  get_cursor_pos : flanterm_context -> M B (Z * Z);
  set_text_fg : flanterm_context -> Z -> M B unit;
  set_text_bg : flanterm_context -> Z -> M B unit;
  set_text_fg_bright : flanterm_context -> Z -> M B unit;
  set_text_bg_bright : flanterm_context -> Z -> M B unit;
  set_text_fg_rgb : flanterm_context -> Z -> M B unit;
  set_text_bg_rgb : flanterm_context -> Z -> M B unit;
  set_text_fg_default : flanterm_context -> M B unit;
  set_text_bg_default : flanterm_context -> M B unit;
  set_text_fg_default_bright : flanterm_context -> M B unit;
  set_text_bg_default_bright : flanterm_context -> M B unit;
  (** new x, new y, old x, old y *)
  move_character : flanterm_context -> Z -> Z -> Z -> Z -> M B unit;
  scroll : flanterm_context -> M B unit;
  revscroll : flanterm_context -> M B unit;
  swap_palette : flanterm_context -> M B unit;
  backend_save_state : flanterm_context -> M B unit;
  backend_restore_state : flanterm_context -> M B unit;
  double_buffer_flush : flanterm_context -> M B unit;
  backend_full_refresh : flanterm_context -> M B unit;
  (** whether a [_free] is given *)
  backend_deinit : flanterm_context -> bool -> M B unit;
  client_callback : flanterm_context -> callback_args -> M B unit;
}.

Record terminal (B : Type) := Terminal { ctx : flanterm_context; screen : B }.
Arguments Terminal {B} _ _.
Arguments ctx {B} _.
Arguments screen {B} _.

(** ** Characters *)

Definition is_digit_char (c : Z) : bool := (chr "0" <=? c) && (c <=? chr "9").

Definition assoc (x : Z) (l : list (Z * Z)) : option Z :=
  snd <$> List.find (fun e => e.1 =? x) l.

(** [bisearch] on a table whose last index is [max]; halving ends in 32
    turns. *)
Fixpoint bisearch_loop (fuel : nat) (ucs : Z) (table : list (Z * Z)) (min max : Z) : option Z :=
  if max <? min then Some 0
  else match fuel with
       | O => None
       | S n =>
           let mid := (min + max) / 2 in
           e ← table !! Z.to_nat mid;
           if e.2 <? ucs then bisearch_loop n ucs table (mid + 1) max
           else if ucs <? e.1 then bisearch_loop n ucs table min (mid - 1)
           else Some 1
       end.

Definition bisearch (ucs : Z) (table : list (Z * Z)) (max : Z) : option Z :=
  first ← table !! 0%nat; last ← table !! Z.to_nat max;
  if (ucs <? first.1) || (last.2 <? ucs) then Some 0
  else bisearch_loop 32 ucs table 0 max.

Definition table_max (table : list (Z * Z)) : Z := Z.of_nat (length table) - 1.

Definition mk_wcwidth (ucs : Z) : option Z :=
  if ucs =? 0 then Some 0
  else if (ucs <? 32) || ((127 <=? ucs) && (ucs <? 160)) then Some (-1)
  else
    r ← bisearch ucs combining (table_max combining);
    if truthy r then Some 0
    else w ← bisearch ucs wide (table_max wide); Some (if truthy w then 2 else 1).

(** The shade of a Braille pattern, by its dots. *)
Definition braille_to_cp437 (dots : Z) : Z :=
  if dots =? 0 then 0x20 else if dots =? 0xff then 0xdb else
  let has_top := truthy (Z.land dots 0x1b) in
  let has_bottom := truthy (Z.land dots 0xe4) in
  let has_left := truthy (Z.land dots 0x47) in
  let has_right := truthy (Z.land dots 0xb8) in
  if has_top && negb has_bottom then 0xdf
  else if has_bottom && negb has_top then 0xdc
  else if has_left && negb has_right then 0xdd
  else if has_right && negb has_left then 0xde
  else
    let n := u32 (dots - Z.land (Z.shiftr dots 1) 0x55) in
    let n := u32 (Z.land n 0x33 + Z.land (Z.shiftr n 2) 0x33) in
    let n := Z.land (u32 (n + Z.shiftr n 4)) 0x0f in
    if n <=? 2 then 0xb0 else if n <=? 4 then 0xb1 else if n <=? 6 then 0xb2 else 0xdb.

Definition unicode_to_cp437 (cp : Z) : Z :=
  if (0x2800 <=? cp) && (cp <=? 0x28ff) then braille_to_cp437 (u32 (cp - 0x2800))
  else default (-1) (assoc cp cp437_cases).

Section Flanterm.
Context {B : Type} `{TermBackend B}.
Abbreviation MT := (M (terminal B)).

(** Reading and writing a field of the context, and calling the backend. *)
Definition rd {E} (f : flanterm_context -> E) : MT E := gets (fun t => f (ctx t)).
Definition modify_ctx (f : flanterm_context -> flanterm_context) : MT unit :=
  modify (fun t => Terminal (f (ctx t)) (screen t)).
Definition assign {E} (f : flanterm_context -> E) `{!Setter f} (v : E) : MT unit :=
  modify_ctx (fun c => c <| f := v |>).
Definition call {A} (op : flanterm_context -> M B A) : MT A := fun t =>
  '(a, b) ← op (ctx t) (screen t); Some (a, Terminal (ctx t) b).

Definition goto_pos (x y : Z) : MT unit := call (fun c => set_cursor_pos c x y).
Definition put (c : Z) : MT unit := call (fun x => raw_putchar x c).

Definition esc (i : Z) : MT Z := l ← rd esc_values; liftO (l !! Z.to_nat i).
Definition set_esc (i v : Z) : MT unit :=
  l ← rd esc_values;
  if i <? Z.of_nat (length l) then assign esc_values (<[Z.to_nat i := v]> l) else ub.

Definition notify (type a b c : Z) (data : list Z) : MT unit :=
  cb ← rd callback;
  if (cb : bool) then call (fun x => client_callback x (CallbackArgs type a b c data)) else mret tt.

(** ** Saved state *)

Definition restore_state : MT unit :=
  _ ← modify_ctx (fun c =>
    c <| bold := saved_state_bold c |> <| bg_bold := saved_state_bg_bold c |>
      <| reverse_video := saved_state_reverse_video c |>
      <| origin_mode := saved_state_origin_mode c |>
      <| wrap_enabled := saved_state_wrap_enabled c |>
      <| current_charset := saved_state_current_charset c |>
      <| charsets := saved_state_charsets c |>
      <| current_primary := saved_state_current_primary c |>
      <| current_bg := saved_state_current_bg c |>
      <| scroll_top_margin := saved_state_scroll_top_margin c |>
      <| scroll_bottom_margin := saved_state_scroll_bottom_margin c |>);
  call backend_restore_state.

Definition save_state : MT unit :=
  _ ← call backend_save_state;
  modify_ctx (fun c =>
    c <| saved_state_bold := bold c |> <| saved_state_bg_bold := bg_bold c |>
      <| saved_state_reverse_video := reverse_video c |>
      <| saved_state_origin_mode := origin_mode c |>
      <| saved_state_wrap_enabled := wrap_enabled c |>
      <| saved_state_current_charset := current_charset c |>
      <| saved_state_charsets := charsets c |>
      <| saved_state_current_primary := current_primary c |>
      <| saved_state_current_bg := current_bg c |>
      <| saved_state_scroll_top_margin := scroll_top_margin c |>
      <| saved_state_scroll_bottom_margin := scroll_bottom_margin c |>).

(** ** Colours: [sgr] *)

Definition fg_or_bg (fg : bool) (f g : flanterm_context -> M B unit) : MT unit :=
  call (if fg then f else g).

(** The colour of the text: default, by index or by value; the bold variants
    of 1 and the plain ones of 22. *)
Definition refresh_primary (bright : bool) : MT unit :=
  p ← rd current_primary; rev ← rd reverse_video;
  if p =? COLOUR_BY_VALUE then mret tt
  else if negb (p =? COLOUR_DEFAULT) then
    if bright then fg_or_bg (negb rev) (fun c => set_text_fg_bright c p) (fun c => set_text_bg_bright c p)
    else fg_or_bg (negb rev) (fun c => set_text_fg c p) (fun c => set_text_bg c p)
  else
    if bright then fg_or_bg (negb rev) set_text_fg_default_bright set_text_bg_default_bright
    else fg_or_bg (negb rev) set_text_fg_default set_text_bg_default.

Definition refresh_bg (bright : bool) : MT unit :=
  p ← rd current_bg; rev ← rd reverse_video;
  if p =? COLOUR_BY_VALUE then mret tt
  else if negb (p =? COLOUR_DEFAULT) then
    if bright then fg_or_bg rev (fun c => set_text_fg_bright c p) (fun c => set_text_bg_bright c p)
    else fg_or_bg rev (fun c => set_text_fg c p) (fun c => set_text_bg c p)
  else
    if bright then fg_or_bg rev set_text_fg_default_bright set_text_bg_default_bright
    else fg_or_bg rev set_text_fg_default set_text_bg_default.

Definition sgr_reset : MT unit :=
  rev ← rd reverse_video;
  _ ← (if (rev : bool) then _ ← assign reverse_video false; call swap_palette else mret tt);
  _ ← assign bold false; _ ← assign bg_bold false;
  _ ← assign current_primary COLOUR_DEFAULT; _ ← assign current_bg COLOUR_DEFAULT;
  _ ← call set_text_bg_default; call set_text_fg_default.

(** The labels [set_fg] and [set_bg]. *)
Definition sgr_set_fg (i : Z) : MT unit :=
  b ← rd bold; bb ← rd bg_bold; rev ← rd reverse_video;
  if (b && negb rev) || (bb && rev) then call (fun c => set_text_fg_bright c i)
  else call (fun c => set_text_fg c i).
Definition sgr_set_bg (i : Z) : MT unit :=
  b ← rd bold; bb ← rd bg_bold; rev ← rd reverse_video;
  if (b && rev) || (bb && negb rev) then call (fun c => set_text_bg_bright c i)
  else call (fun c => set_text_bg c i).

(** [39] and [49]: the default colour, through the palette when it is
    swapped. *)
Definition swapped (m : MT unit) : MT unit :=
  rev ← rd reverse_video;
  _ ← (if (rev : bool) then call swap_palette else mret tt);
  _ ← m;
  rev ← rd reverse_video;
  if (rev : bool) then call swap_palette else mret tt.

Definition sgr_default_fg : MT unit :=
  _ ← assign current_primary COLOUR_DEFAULT;
  swapped (b ← rd bold; call (if (b : bool) then set_text_fg_default_bright else set_text_fg_default)).
Definition sgr_default_bg : MT unit :=
  _ ← assign current_bg COLOUR_DEFAULT;
  swapped (b ← rd bg_bold; call (if (b : bool) then set_text_bg_default_bright else set_text_bg_default)).

Definition sgr_indexed (v : Z) : MT unit :=
  rev ← rd reverse_video;
  if (30 <=? v) && (v <=? 37) then
    _ ← assign current_primary (v - 30); if (rev : bool) then sgr_set_bg (v - 30) else sgr_set_fg (v - 30)
  else if (40 <=? v) && (v <=? 47) then
    _ ← assign current_bg (v - 40); if (rev : bool) then sgr_set_fg (v - 40) else sgr_set_bg (v - 40)
  else if (90 <=? v) && (v <=? 97) then
    _ ← assign current_primary (v - 90);
    fg_or_bg (negb rev) (fun c => set_text_fg_bright c (v - 90)) (fun c => set_text_bg_bright c (v - 90))
  else if (100 <=? v) && (v <=? 107) then
    _ ← assign current_bg (v - 100);
    fg_or_bg rev (fun c => set_text_fg_bright c (v - 100)) (fun c => set_text_bg_bright c (v - 100))
  else mret tt.

Definition sgr_reverse (on : bool) : MT unit :=
  rev ← rd reverse_video;
  if eqb rev on then mret tt else _ ← assign reverse_video on; call swap_palette.

Definition sgr_simple (v : Z) : MT unit :=
  if v =? 0 then sgr_reset
  else if v =? 1 then _ ← assign bold true; refresh_primary true
  else if v =? 5 then _ ← assign bg_bold true; refresh_bg true
  else if v =? 22 then _ ← assign bold false; refresh_primary false
  else if v =? 25 then _ ← assign bg_bold false; refresh_bg false
  else if v =? 39 then sgr_default_fg
  else if v =? 49 then sgr_default_bg
  else if v =? 7 then sgr_reverse true
  else if v =? 27 then sgr_reverse false
  else sgr_indexed v.

(** [current_primary] or [current_bg] marked as given by value. *)
Definition mark_by_value (fg : bool) : MT unit :=
  if fg then assign current_primary COLOUR_BY_VALUE else assign current_bg COLOUR_BY_VALUE.

Definition sgr_rgb (fg render_fg : bool) (i : Z) : MT unit :=
  r ← esc (i + 1); g ← esc (i + 2); b ← esc (i + 3);
  let rgb := Z.lor (Z.lor (Z.shiftl (Z.land r 0xff) 16) (Z.shiftl (Z.land g 0xff) 8)) (Z.land b 0xff) in
  _ ← mark_by_value fg;
  fg_or_bg render_fg (fun c => set_text_fg_rgb c rgb) (fun c => set_text_bg_rgb c rgb).

Definition sgr_256 (fg render_fg : bool) (col : Z) : MT unit :=
  if col <? 8 then
    _ ← mark_by_value fg; fg_or_bg render_fg (fun c => set_text_fg c col) (fun c => set_text_bg c col)
  else if col <? 16 then
    _ ← mark_by_value fg;
    fg_or_bg render_fg (fun c => set_text_fg_bright c (col - 8)) (fun c => set_text_bg_bright c (col - 8))
  else if col <? 256 then
    _ ← mark_by_value fg;
    rgb ← liftO (col256 !! Z.to_nat (col - 16));
    fg_or_bg render_fg (fun c => set_text_fg_rgb c rgb) (fun c => set_text_bg_rgb c rgb)
  else mret tt.

(** [38] and [48]; the index of the last value used, or [None] when there are
    too few values, which ends the loop. *)
Definition sgr_extended (fg : bool) (i : Z) : MT (option Z) :=
  rev ← rd reverse_video; n ← rd esc_values_i;
  let render_fg := if (rev : bool) then negb fg else fg in
  let i := i + 1 in
  if n <=? i then mret None else
  kind ← esc i;
  if kind =? 2 then
    if n <=? i + 3 then mret None else _ ← sgr_rgb fg render_fg i; mret (Some (i + 3))
  else if kind =? 5 then
    if n <=? i + 1 then mret None
    else col ← esc (i + 1); _ ← sgr_256 fg render_fg col; mret (Some (i + 1))
  else mret (Some i).

Fixpoint sgr_loop (fuel : nat) (i : Z) : MT unit :=
  n ← rd esc_values_i;
  if n <=? i then mret tt
  else match fuel with
       | O => ub
       | S fuel' =>
           v ← esc i;
           if (v =? 38) || (v =? 48) then
             r ← sgr_extended (v =? 38) i;
             match r with None => mret tt | Some i => sgr_loop fuel' (i + 1) end
           else _ ← sgr_simple v; sgr_loop fuel' (i + 1)
       end.

Definition sgr : MT unit :=
  n ← rd esc_values_i;
  if n =? 0 then sgr_reset else sgr_loop (Z.to_nat FLANTERM_MAX_ESC_VALUES) 0.

(** ** Modes *)

Definition set_or_reset (c : Z) : option bool :=
  if c =? chr "h" then Some true else if c =? chr "l" then Some false else None.

Definition dec_mode (set : bool) (v : Z) : MT unit :=
  if v =? 6 then
    _ ← assign origin_mode set; top ← rd scroll_top_margin;
    goto_pos 0 (if set then top else 0)
  else if v =? 7 then assign wrap_enabled set
  else if v =? 25 then assign cursor_enabled set
  else if v =? 1049 then
    if set then
      _ ← save_state;
      _ ← modify_ctx (fun c => c <| scroll_top_margin := 0 |> <| scroll_bottom_margin := rows c |>);
      call (fun c => clear_screen c true)
    else _ ← call (fun c => clear_screen c true); restore_state
  else mret tt.

Definition dec_private_parse (c : Z) : MT unit :=
  _ ← assign dec_private false;
  n ← rd esc_values_i;
  if n =? 0 then mret tt else
  match set_or_reset c with
  | None => mret tt
  | Some set =>
      _ ← for_range 0 n (fun i => v ← esc i; dec_mode set v);
      l ← rd esc_values;
      notify FLANTERM_CB_DEC n 0 c l
  end.

Definition linux_private_parse : MT unit :=
  n ← rd esc_values_i;
  if n =? 0 then mret tt else l ← rd esc_values; notify FLANTERM_CB_LINUX n 0 0 l.

Definition mode_toggle (c : Z) : MT unit :=
  n ← rd esc_values_i;
  if n =? 0 then mret tt else
  match set_or_reset c with
  | None => mret tt
  | Some set =>
      v ← esc 0;
      if v =? 4 then assign insert_mode set
      else l ← rd esc_values; notify FLANTERM_CB_MODE n 0 c l
  end.

(** ** Operating system commands *)

(** The leading number of [l]; the value wraps at 64 bits. *)
Fixpoint osc_number (l : list Z) (num i : Z) : Z * Z :=
  match l with
  | c :: l' => if is_digit_char c then osc_number l' (u64 (u64 (num * 10) + (c - chr "0"))) (i + 1)
               else (num, i)
  | [] => (num, i)
  end.

Definition osc_finalize : MT unit :=
  cb ← rd callback;
  if negb cb then mret tt else
  buf ← rd osc_buf; n ← rd osc_buf_i;
  let text := take (Z.to_nat n) buf in
  let '(num, i) := osc_number text 0 0 in
  let i := if (i <? n) && bool_decide (text !! Z.to_nat i = Some (chr ";")) then i + 1 else i in
  notify FLANTERM_CB_OSC num (n - i) i buf.

(** Whether the byte belongs to the command. *)
Definition osc_parse (c : Z) : MT bool :=
  e ← rd osc_escape;
  if (e : bool) then
    if c =? chr "\" then
      _ ← osc_finalize; _ ← assign osc false; _ ← assign osc_escape false; _ ← assign escape false;
      mret true
    else _ ← assign osc_escape false; _ ← assign osc false; mret false
  else if c =? 0x1b then _ ← assign osc_escape true; mret true
  else if c =? 7 then
    _ ← osc_finalize; _ ← assign osc_escape false; _ ← assign osc false; _ ← assign escape false;
    mret true
  else
    n ← rd osc_buf_i;
    _ ← (if n <? OSC_BUF_SIZE
         then modify_ctx (fun x => x <| osc_buf := <[Z.to_nat n := c]> (osc_buf x) |> <| osc_buf_i := n + 1 |>)
         else mret tt);
    mret true.

(** ** Control characters *)

(** A line feed: scroll at the bottom margin, else go down; [x'] is the
    column to go to. *)
Definition line_feed (x' y : Z) (at_end : MT unit) : MT unit :=
  bottom ← rd scroll_bottom_margin; r ← rd rows;
  if y =? u64 (bottom - 1) then _ ← call scroll; goto_pos x' y
  else if y <? u64 (r - 1) then goto_pos x' (y + 1)
  else at_end.

Definition tab : MT unit :=
  '(x, y) ← call get_cursor_pos; t ← rd tab_size; w ← rd cols;
  if t =? 0 then ub else
  let x := u64 ((x / t + 1) * t) in
  let x := if w <=? x then u64 (w - 1) else x in
  goto_pos x y.

Definition execute_c0 (c : Z) : MT bool :=
  if c =? 7 then _ ← notify FLANTERM_CB_BELL 0 0 0 []; mret true
  else if c =? 8 then
    '(x, y) ← call get_cursor_pos;
    _ ← (if 0 <? x then goto_pos (x - 1) y else mret tt); mret true
  else if c =? 9 then _ ← tab; mret true
  else if (c =? 0x0b) || (c =? 0x0c) || (c =? 10) then
    '(x, y) ← call get_cursor_pos; _ ← line_feed x y (mret tt); mret true
  else if c =? 13 then
    '(_, y) ← call get_cursor_pos; _ ← goto_pos 0 y; mret true
  else if c =? 14 then _ ← assign current_charset 1; mret true
  else if c =? 15 then _ ← assign current_charset 0; mret true
  else mret false.

(** ** Control sequences: the commands

    [x] and [y] are the cursor's position, in the screen. *)

Definition blanks (a b : Z) : MT unit := for_range a b (fun _ => put 32).

(** [F], [A] *)
Definition csi_up (x y : Z) : MT unit :=
  e ← esc 0; origin ← rd origin_mode; top ← rd scroll_top_margin;
  let e := if y <? e then u32 y else e in
  _ ← set_esc 0 e;
  let dest_y := u64 (y - e) in
  let min_y := if (origin : bool) then top else 0 in
  goto_pos x (if dest_y <? min_y then min_y else dest_y).

(** [E], [e], [B] *)
Definition csi_down (x y : Z) : MT unit :=
  e ← esc 0; origin ← rd origin_mode; bottom ← rd scroll_bottom_margin; r ← rd rows;
  let e := if u64 (r - 1) <? u64 (y + e) then u32 (u64 (u64 (r - 1) - y)) else e in
  _ ← set_esc 0 e;
  let dest_y := u64 (y + e) in
  let max_y := if (origin : bool) then bottom else r in
  goto_pos x (if max_y <=? dest_y then u64 (max_y - 1) else dest_y).

(** [a], [C] *)
Definition csi_right (x y : Z) : MT unit :=
  e ← esc 0; w ← rd cols;
  let e := if u64 (w - 1) <? u64 (x + e) then u32 (u64 (u64 (w - 1) - x)) else e in
  _ ← set_esc 0 e; goto_pos (u64 (x + e)) y.

(** [D] *)
Definition csi_left (x y : Z) : MT unit :=
  e ← esc 0; let e := if x <? e then u32 x else e in _ ← set_esc 0 e; goto_pos (u64 (x - e)) y.

(** The rows a position counts from: the screen's, or the scrolling region's. *)
Definition row_range : MT (Z * Z) :=
  origin ← rd origin_mode; top ← rd scroll_top_margin; bottom ← rd scroll_bottom_margin;
  r ← rd rows;
  mret (if (origin : bool) then (u64 (bottom - top), top) else (r, 0)).

Definition one_less (e : Z) : Z := if truthy e then e - 1 else e.

(** [d] *)
Definition csi_row (x : Z) : MT unit :=
  e ← esc 0;
  let e := one_less e in
  '(max_row, row_offset) ← row_range;
  let e := if max_row <=? e then u32 (u64 (max_row - 1)) else e in
  _ ← set_esc 0 e; goto_pos x (u64 (e + row_offset)).

(** [G], [`] *)
Definition csi_column (y : Z) : MT unit :=
  e ← esc 0; w ← rd cols;
  let e := one_less e in
  let e := if w <=? e then u32 (u64 (w - 1)) else e in
  _ ← set_esc 0 e; goto_pos e y.

(** [H], [f] *)
Definition csi_position : MT unit :=
  e0 ← esc 0; e1 ← esc 1; w ← rd cols;
  let e0 := one_less e0 in let e1 := one_less e1 in
  '(max_row, row_offset) ← row_range;
  let e1 := if w <=? e1 then u32 (u64 (w - 1)) else e1 in
  let e0 := if max_row <=? e0 then u32 (u64 (max_row - 1)) else e0 in
  _ ← set_esc 0 e0; _ ← set_esc 1 e1; goto_pos e1 (u64 (e0 + row_offset)).

(** [M] and [L]: scroll the region from the cursor's row down. *)
Definition csi_lines (op : flanterm_context -> M B unit) (y : Z) : MT unit :=
  top ← rd scroll_top_margin; bottom ← rd scroll_bottom_margin;
  if (y <? top) || (bottom <=? y) then mret tt else
  _ ← assign scroll_top_margin y;
  let max_count := u64 (bottom - y) in
  e ← esc 0;
  _ ← for_range 0 (Z.min e max_count) (fun _ => call op);
  assign scroll_top_margin top.

(** [n] *)
Definition csi_report (x y : Z) : MT unit :=
  e ← esc 0; origin ← rd origin_mode; top ← rd scroll_top_margin;
  if e =? 5 then notify FLANTERM_CB_STATUS_REPORT 0 0 0 []
  else if e =? 6 then
    let report_y := if (origin : bool) && (top <=? y) then y - top else y in
    notify FLANTERM_CB_POS_REPORT (u64 (x + 1)) (u64 (report_y + 1)) 0 []
  else mret tt.

(** [J] *)
Definition csi_erase_display (x y : Z) : MT unit :=
  e ← esc 0; w ← rd cols; r ← rd rows;
  if e =? 0 then
    _ ← goto_pos x y; _ ← blanks x w;
    _ ← for_range (y + 1) r (fun yc => _ ← goto_pos 0 yc; blanks 0 w);
    goto_pos x y
  else if e =? 1 then
    _ ← for_range 0 y (fun yc => _ ← goto_pos 0 yc; blanks 0 w);
    _ ← goto_pos 0 y; _ ← blanks 0 (x + 1); goto_pos x y
  else if (e =? 2) || (e =? 3) then call (fun c => clear_screen c false)
  else mret tt.

(** [\@]: make room for [n] characters. *)
Definition csi_insert_chars (x y : Z) : MT unit :=
  n ← esc 0; w ← rd cols;
  if n =? 0 then mret tt else
  let n := if u64 (w - x) <? n then u64 (w - x) else n in
  _ ← for_down (Z.to_nat w) (u64 (w - 1)) (u64 (x + n))
        (fun i => call (fun c => move_character c i y (u64 (i - n)) y));
  _ ← goto_pos x y; _ ← blanks 0 n; goto_pos x y.

(** [X] *)
Definition csi_erase_chars (x y : Z) : MT unit :=
  '(cx, cy) ← call get_cursor_pos;
  _ ← goto_pos cx cy;
  w ← rd cols; e ← esc 0;
  let remaining := u64 (w - cx) in
  _ ← blanks 0 (Z.min e remaining); goto_pos x y.

(** [P], which falls through to [X] *)
Definition csi_delete_chars (x y : Z) : MT unit :=
  e ← esc 0; w ← rd cols;
  let e := if u64 (w - x) <? e then u32 (u64 (w - x)) else e in
  _ ← set_esc 0 e;
  _ ← for_range (u64 (x + e)) w (fun i => call (fun c => move_character c (u64 (i - e)) y i y));
  _ ← goto_pos (u64 (w - e)) y;
  csi_erase_chars x y.

(** [K] *)
Definition csi_erase_line (x y : Z) : MT unit :=
  e ← esc 0; w ← rd cols;
  if e =? 0 then _ ← goto_pos x y; _ ← blanks x w; goto_pos x y
  else if e =? 1 then _ ← goto_pos 0 y; _ ← blanks 0 (x + 1); goto_pos x y
  else if e =? 2 then _ ← goto_pos 0 y; _ ← blanks 0 w; goto_pos x y
  else mret tt.

(** [r]: the region of rows [e0] to [e1] of a screen of [r] rows, when [n]
    values were given; the whole screen when it is not a region. *)
Definition new_margins (r n e0 e1 : Z) : Z * Z :=
  let top := if 0 <? n then u32 (e0 - 1) else 0 in
  let bottom := if 1 <? n then e1 else r in
  if (r <=? top) || (r <? bottom) || (u64 (bottom - 1) <=? top) then (0, r) else (top, bottom).

Definition csi_margins : MT unit :=
  e0 ← esc 0; e1 ← esc 1; n ← rd esc_values_i; r ← rd rows;
  let '(top, bottom) := new_margins r n e0 e1 in
  _ ← modify_ctx (fun c => c <| scroll_top_margin := top |> <| scroll_bottom_margin := bottom |>);
  origin ← rd origin_mode;
  goto_pos 0 (if (origin : bool) then top else 0).

(** [S], [T] *)
Definition csi_scroll (op : flanterm_context -> M B unit) : MT unit :=
  top ← rd scroll_top_margin; bottom ← rd scroll_bottom_margin; e ← esc 0;
  for_range 0 (Z.min e (u64 (bottom - top))) (fun _ => call op).

(** [b]: repeat the last character, with the modes as they were. *)
Definition csi_repeat (r saved_wrap : bool) : MT unit :=
  g ← rd last_was_graphic;
  if negb g then mret tt else
  _ ← assign scroll_enabled r; _ ← assign wrap_enabled saved_wrap;
  e ← esc 0;
  for_range 0 (Z.min e 65535) (fun _ =>
    ins ← rd insert_mode;
    _ ← (if (ins : bool) then
           '(ix, iy) ← call get_cursor_pos; w ← rd cols;
           for_down (Z.to_nat w) (u64 (w - 1)) (ix + 1)
             (fun j => call (fun c => move_character c j iy (u64 (j - 1)) iy))
         else mret tt);
    l ← rd last_printed_char; put l).

(** The switch; [false] is a byte that does not end the sequence. *)
Definition csi_dispatch (c : Z) (r saved_wrap : bool) (x y : Z) : MT bool :=
  let key s := c =? chr s in
  let ok (m : MT unit) : MT bool := _ ← m; mret true in
  if key "F"%char then ok (csi_up 0 y)
  else if key "A"%char then ok (csi_up x y)
  else if key "E"%char then ok (csi_down 0 y)
  else if key "e"%char || key "B"%char then ok (csi_down x y)
  else if key "a"%char || key "C"%char then ok (csi_right x y)
  else if key "D"%char then ok (csi_left x y)
  else if key "c"%char then ok (notify FLANTERM_CB_PRIVATE_ID 0 0 0 [])
  else if key "d"%char then ok (csi_row x)
  else if key "G"%char || key "`"%char then ok (csi_column y)
  else if key "H"%char || key "f"%char then ok csi_position
  else if key "M"%char then ok (csi_lines scroll y)
  else if key "L"%char then ok (csi_lines revscroll y)
  else if key "n"%char then ok (csi_report x y)
  else if key "q"%char then ok (e ← esc 0; notify FLANTERM_CB_KBD_LEDS e 0 0 [])
  else if key "J"%char then ok (csi_erase_display x y)
  else if key "@"%char then ok (csi_insert_chars x y)
  else if key "P"%char then ok (csi_delete_chars x y)
  else if key "X"%char then ok (csi_erase_chars x y)
  else if key "m"%char then ok sgr
  else if key "s"%char then
    ok ('(sx, sy) ← call get_cursor_pos;
        modify_ctx (fun c => c <| saved_cursor_x := sx |> <| saved_cursor_y := sy |>))
  else if key "u"%char then ok (sx ← rd saved_cursor_x; sy ← rd saved_cursor_y; goto_pos sx sy)
  else if key "K"%char then ok (csi_erase_line x y)
  else if key "r"%char then ok csi_margins
  else if key "l"%char || key "h"%char then ok (mode_toggle c)
  else if key "S"%char then ok (csi_scroll scroll)
  else if key "T"%char then ok (csi_scroll revscroll)
  else if key "b"%char then ok (csi_repeat r saved_wrap)
  else if key "]"%char then ok linux_private_parse
  else mret ((0x40 <=? c) && (c <=? 0x7E)).

(** ** Control sequences: the parser *)

Definition csi_cleanup : MT unit := _ ← assign control_sequence false; assign escape false.

(** A decimal digit of a value; a value too large is kept at the largest. *)
Definition csi_digit (c : Z) : MT unit :=
  i ← rd esc_values_i;
  if i =? FLANTERM_MAX_ESC_VALUES then mret tt else
  _ ← assign rrr true;
  v ← esc i;
  if UINT32_MAX / 10 <? v then mret tt else
  let v := u32 (v * 10) in
  _ ← set_esc i v;
  let digit := c - chr "0" in
  if UINT32_MAX - digit <? v then set_esc i UINT32_MAX else set_esc i (u32 (v + digit)).

(** The end of a value; whether the byte was only that. *)
Definition csi_separator (c : Z) : MT bool :=
  r ← rd rrr; i ← rd esc_values_i;
  if (r : bool) then
    _ ← modify_ctx (fun x => x <| esc_values_i := i + 1 |> <| rrr := false |>);
    mret (c =? chr ";")
  else if c =? chr ";" then
    if i =? FLANTERM_MAX_ESC_VALUES then mret true else
    _ ← set_esc i 0; _ ← assign esc_values_i (i + 1); mret true
  else mret false.

Definition csi_default (c : Z) : Z :=
  if existsb (Z.eqb c) (map chr ["J"; "K"; "q"; "m"; "c"; "]"]%char) then 0 else 1.

Definition csi_fill_defaults (c : Z) : MT unit :=
  let d := csi_default c in
  n ← rd esc_values_i;
  _ ← for_range n FLANTERM_MAX_ESC_VALUES (fun i => set_esc i d);
  if d =? 0 then mret tt
  else for_range 0 n (fun i => v ← esc i; if v =? 0 then set_esc i d else mret tt).

(** Bytes up to the end of a sequence that is not known. *)
Definition csi_skip (c : Z) : MT unit :=
  if c =? 0x1B then
    _ ← assign csi_unhandled false; _ ← assign control_sequence false; assign escape_offset 0
  else if (0x40 <=? c) && (c <=? 0x7E) then _ ← assign csi_unhandled false; csi_cleanup
  else mret tt.

Definition csi_execute (c : Z) : MT unit :=
  r ← rd scroll_enabled;
  _ ← assign scroll_enabled false;
  saved_wrap ← rd wrap_enabled;
  _ ← assign wrap_enabled true;
  '(x, y) ← call get_cursor_pos;
  let restore : MT unit := _ ← assign scroll_enabled r; assign wrap_enabled saved_wrap in
  if c =? 0x1B then
    _ ← restore; _ ← assign control_sequence false; assign escape_offset 0
  else
    ended ← csi_dispatch c r saved_wrap x y;
    _ ← restore;
    if (ended : bool) then csi_cleanup else assign csi_unhandled true.

Definition control_sequence_parse (c : Z) : MT unit :=
  off ← rd escape_offset;
  if (off =? 2) && (c =? chr "[") then _ ← assign discard_next true; csi_cleanup
  else if (off =? 2) && (c =? chr "?") then assign dec_private true
  else if (c <? 0x20) && negb (c =? 0x1b) then _ ← execute_c0 c; mret tt
  else if is_digit_char c then csi_digit c
  else
    consumed ← csi_separator c;
    if (consumed : bool) then mret tt else
    _ ← csi_fill_defaults c;
    dp ← rd dec_private; skip ← rd csi_unhandled;
    if (dp : bool) then _ ← dec_private_parse c; csi_cleanup
    else if (skip : bool) then csi_skip c
    else csi_execute c.

(** ** Escape sequences *)

Definition full_reset : MT unit :=
  rev ← rd reverse_video;
  _ ← (if (rev : bool) then call swap_palette else mret tt);
  _ ← modify_ctx flanterm_context_reinit;
  _ ← call set_text_bg_default; _ ← call set_text_fg_default;
  _ ← call (fun c => clear_screen c true);
  save_state.

Definition reverse_line_feed (x y : Z) : MT unit :=
  top ← rd scroll_top_margin;
  if y =? top then _ ← call revscroll; goto_pos x y
  else if 0 <? y then goto_pos x (y - 1) else mret tt.

Definition start_csi : MT unit :=
  _ ← for_range 0 FLANTERM_MAX_ESC_VALUES (fun i => set_esc i 0);
  modify_ctx (fun c => c <| esc_values_i := 0 |> <| rrr := false |> <| csi_unhandled := false |>
                         <| control_sequence := true |>).

(** The switch on the byte after the ESC; whether the sequence ends there. *)
Definition escape_dispatch (c x y : Z) : MT bool :=
  let key s := c =? chr s in
  let ok (m : MT unit) : MT bool := _ ← m; mret true in
  if c =? 0x1b then _ ← assign escape_offset 0; mret false
  else if key "]"%char then
    _ ← modify_ctx (fun x => x <| osc_escape := false |> <| osc := true |> <| osc_buf_i := 0 |>);
    mret false
  else if key "["%char then _ ← start_csi; mret false
  else if key "7"%char then ok save_state
  else if key "8"%char then ok restore_state
  else if key "c"%char then ok full_reset
  else if key "D"%char then ok (line_feed x y (mret tt))
  else if key "E"%char then ok (line_feed 0 y (goto_pos 0 y))
  else if key "M"%char then ok (reverse_line_feed x y)
  else if key "Z"%char then ok (notify FLANTERM_CB_PRIVATE_ID 0 0 0 [])
  else if key "("%char || key ")"%char then ok (assign g_select (u8 (c - 39)))
  else mret true.

Definition escape_parse (c : Z) : MT unit :=
  off ← rd escape_offset;
  _ ← assign escape_offset (u64 (off + 1));
  o ← rd osc;
  consumed ← (if (o : bool) then
                ok ← osc_parse c;
                if (ok : bool) then mret true else _ ← assign escape_offset 1; mret false
              else mret false);
  if (consumed : bool) then mret tt else
  cs ← rd control_sequence;
  if (cs : bool) then control_sequence_parse c
  else
    '(x, y) ← call get_cursor_pos;
    ended ← escape_dispatch c x y;
    if (ended : bool) then assign escape false else mret tt.

(** ** Printing *)

Definition insert_shift (count : Z) : MT unit :=
  ins ← rd insert_mode;
  if (ins : bool) && (0 <? count) then
    '(x, y) ← call get_cursor_pos; w ← rd cols;
    let count := if u64 (w - x) <? count then u64 (w - x) else count in
    for_down (Z.to_nat w) (u64 (w - 1)) (u64 (x + count))
      (fun i => call (fun c => move_character c i y (u64 (i - count)) y))
  else mret tt.

(** A glyph, remembered for [b]. *)
Definition print_glyph (c : Z) : MT unit :=
  _ ← modify_ctx (fun x => x <| last_printed_char := u8 c |> <| last_was_graphic := true |>);
  put (u8 c).

Definition print_code_point (cp : Z) : MT unit :=
  let cc := unicode_to_cp437 cp in
  if cc =? -1 then
    w ← liftO (mk_wcwidth (u32 cp));
    _ ← (if 0 <? w then _ ← insert_shift w; print_glyph 0xfe else mret tt);
    blanks 1 w
  else _ ← insert_shift 1; print_glyph cc.

(** A byte while continuation bytes are expected; whether the byte is to be
    treated on its own, at [unicode_error]. *)
Definition unicode_continue (c : Z) : MT bool :=
  if negb (Z.land c 0xc0 =? 0x80) then
    _ ← assign unicode_remaining 0; _ ← insert_shift 1; _ ← put 0xfe; mret true
  else
    n ← rd unicode_remaining; cp ← rd code_point;
    let n := n - 1 in
    let cp := Z.lor cp (u64 (Z.shiftl (Z.land c 0x3f) (6 * n))) in
    _ ← modify_ctx (fun x => x <| unicode_remaining := n |> <| code_point := cp |>);
    if ((n =? 1) && (cp <? 0x800)) || ((n =? 2) && (cp <? 0x10000)) || ((n =? 2) && (0x10ffff <? cp))
    then _ ← assign unicode_remaining 0; mret true
    else if negb (n =? 0) then mret false
    else if (0xd800 <=? cp) && (cp <=? 0xdfff) then mret true
    else _ ← print_code_point cp; mret false.

Definition unicode_start (c : Z) : MT unit :=
  let start n cp := modify_ctx (fun x => x <| g_select := 0 |> <| unicode_remaining := n |> <| code_point := cp |>) in
  if c <=? 0xdf then start 1 (Z.shiftl (Z.land c 0x1f) 6)
  else if c <=? 0xef then start 2 (Z.shiftl (Z.land c 0x0f) 12)
  else start 3 (Z.shiftl (Z.land c 0x07) 18).

Definition dec_special_print (c : Z) : MT bool :=
  match assoc c dec_special with Some g => _ ← print_glyph g; mret true | None => mret false end.

(** The byte after [ESC (] or [ESC )]; whether it was used up. *)
Definition select_charset (c : Z) : MT bool :=
  g ← rd g_select;
  if g =? 0 then mret false
  else if (c <=? 0x1f) || (c =? 0x7f) then _ ← assign g_select 0; mret false
  else
    let g := g - 1 in
    l ← rd charsets;
    let set cs : MT unit :=
      if g <? Z.of_nat (length l) then assign charsets (<[Z.to_nat g := cs]> l) else ub in
    _ ← (if c =? chr "B" then set CHARSET_DEFAULT
         else if c =? chr "0" then set CHARSET_DEC_SPECIAL else mret tt);
    _ ← assign g_select 0; mret true.

Definition print_char (c : Z) : MT unit :=
  _ ← insert_shift 1;
  l ← rd charsets; i ← rd current_charset;
  cs ← liftO (l !! Z.to_nat i);
  done ← (if cs =? CHARSET_DEC_SPECIAL then dec_special_print c else mret false);
  if (done : bool) then mret tt
  else if (0x20 <=? c) && (c <=? 0x7e) then print_glyph c
  else if 0x80 <=? c then print_glyph 0xfe
  else mret tt.

(** A byte outside a UTF-8 sequence. *)
Definition putchar_single (c : Z) : MT unit :=
  if (0xc2 <=? c) && (c <=? 0xf4) then unicode_start c else
  e ← rd escape;
  if (e : bool) then escape_parse c else
  used ← select_charset c;
  if (used : bool) then mret tt else
  _ ← (if ((c <=? 0x1f) && negb (c =? 0x1b)) || (c =? 0x7f) then assign last_was_graphic false
       else mret tt);
  if (c =? 0) || (c =? 0x7f) then mret tt
  else if c =? 0x1b then _ ← assign escape_offset 0; assign escape true
  else if c <? 0x20 then _ ← execute_c0 c; mret tt
  else print_char c.

(** CAN, SUB and a discarded byte abort whatever is going on. *)
Definition abort_sequence : MT unit :=
  modify_ctx (fun x =>
    x <| discard_next := false |> <| escape := false |> <| control_sequence := false |>
      <| unicode_remaining := 0 |> <| osc := false |> <| osc_escape := false |>
      <| g_select := 0 |> <| last_was_graphic := false |>).

Definition flanterm_putchar (c : Z) : MT unit :=
  discard ← rd discard_next;
  if (discard : bool) || (c =? 0x18) || (c =? 0x1a) then abort_sequence else
  n ← rd unicode_remaining;
  single ← (if negb (n =? 0) then unicode_continue c else mret true);
  if (single : bool) then putchar_single c else mret tt.

Fixpoint put_bytes (buf : list Z) : MT unit :=
  match buf with [] => mret tt | c :: buf' => _ ← flanterm_putchar (u8 c); put_bytes buf' end.

Definition flanterm_write (buf : list Z) : MT unit :=
  _ ← put_bytes buf;
  a ← rd autoflush;
  if (a : bool) then call double_buffer_flush else mret tt.

Definition flanterm_flush : MT unit := call double_buffer_flush.
Definition flanterm_full_refresh : MT unit := call backend_full_refresh.
Definition flanterm_deinit (free : bool) : MT unit := call (fun c => backend_deinit c free).
Definition flanterm_get_dimensions : MT (Z * Z) := c ← rd cols; r ← rd rows; mret (c, r).
Definition flanterm_set_autoflush (state : bool) : MT unit := assign autoflush state.
Definition flanterm_set_callback (set : bool) : MT unit := assign callback set.
End Flanterm.
