(* ===== verification/FlantermSpec.v ===== *)
(** * The terminal: safety on every byte stream

    [SafeBackend] states what the terminal promises its backend (positions
    on the screen, colours of the palette, margins in order) and what it
    relies on (an invariant of the backend each operation keeps).  Over any
    such backend every byte stream is handled: each access is inside its
    array, each loop ends, and the context stays well formed. *)
From S2P Require Import Prelude FlantermTables Flanterm.

(** ** Binary search *)

Definition in_interval (ucs : Z) (e : Z * Z) : bool := (e.1 <=? ucs) && (ucs <=? e.2).

(** Intervals in order and apart. *)
Fixpoint table_sorted (low : Z) (table : list (Z * Z)) : bool :=
  match table with
  | [] => true
  | e :: t => (low <? e.1) && (e.1 <=? e.2) && table_sorted e.2 t
  end.

Lemma table_sorted_lookup low table i e :
  table_sorted low table = true -> table !! i = Some e -> low < e.1 <= e.2.
Proof.
  revert low i. induction table as [|a t IH]; intros low i H Hi; [done|]. cbn in H. zify_bool.
  destruct i as [|i]; cbn in Hi; [injection Hi as <-; lia|].
  match goal with Hs : table_sorted _ _ = true |- _ => specialize (IH _ _ Hs Hi) end. lia.
Qed.

Lemma table_sorted_lt low table i j e f :
  table_sorted low table = true -> table !! i = Some e -> table !! j = Some f -> (i < j)%nat ->
  e.2 < f.1.
Proof.
  revert low i j. induction table as [|a t IH]; intros low i j H Hi Hj Hij; [done|].
  cbn in H. zify_bool. destruct j as [|j]; [lia|]. cbn in Hj. destruct i as [|i]; cbn in Hi.
  - injection Hi as <-.
    match goal with Hs : table_sorted _ _ = true |- _ => pose proof (table_sorted_lookup _ _ _ _ Hs Hj) end.
    lia.
  - eapply IH; eauto. lia.
Qed.

Section Bisearch.
Context (low ucs : Z) (table : list (Z * Z)).
Hypothesis Hsorted : table_sorted low table = true.

Lemma bisearch_loop_spec fuel min max :
  0 <= min -> max < Z.of_nat (length table) -> max - min + 1 < 2 ^ Z.of_nat fuel ->
  (forall i e, table !! i = Some e -> in_interval ucs e = true -> min <= Z.of_nat i <= max) ->
  bisearch_loop fuel ucs table min max = Some (if existsb (in_interval ucs) table then 1 else 0).
Proof.
  assert (Hnone : (forall i e, table !! i = Some e -> in_interval ucs e = false) ->
    existsb (in_interval ucs) table = false).
  { intros Hno. apply not_true_iff_false. rewrite existsb_exists. intros (e & He & Hin).
    apply list_elem_of_In, list_elem_of_lookup_1 in He as [i Hi]. by rewrite (Hno _ _ Hi) in Hin. }
  revert min max. induction fuel as [|fuel IH]; intros min max Hmin Hmax Hf Hin.
  { cbn [bisearch_loop]. change (2 ^ Z.of_nat 0) with 1 in Hf. rewrite (proj2 (Z.ltb_lt max min)) by lia.
    rewrite Hnone; [done|]. intros i e Hi. destruct (in_interval ucs e) eqn:E; [|done].
    specialize (Hin i e Hi E). lia. }
  cbn [bisearch_loop]. destruct (Z.ltb_spec max min).
  { rewrite Hnone; [done|]. intros i e Hi. destruct (in_interval ucs e) eqn:E; [|done].
    specialize (Hin i e Hi E). lia. }
  cbv zeta. set (mid := (min + max) / 2).
  assert (Hmid : min <= mid <= max /\ 2 * mid <= min + max < 2 * mid + 2).
  { unfold mid. pose proof (Z.div_mod (min + max) 2). pose proof (Z.mod_pos_bound (min + max) 2). lia. }
  rewrite Nat2Z.inj_succ, Z.pow_succ_r in Hf by lia.
  destruct (table !! Z.to_nat mid) as [e|] eqn:He.
  2: { apply lookup_ge_None_1 in He. lia. }
  cbn [mbind option_bind].
  assert (Hel := table_sorted_lookup _ _ _ _ Hsorted He).
  destruct (Z.ltb_spec e.2 ucs) as [H1|H1]; [|destruct (Z.ltb_spec ucs e.1) as [H2|H2]].
  - apply IH; try lia. intros i f Hf' Hi. specialize (Hin i f Hf' Hi).
    destruct (decide (i <= Z.to_nat mid)%nat) as [Hle|]; [|lia].
    exfalso. unfold in_interval in Hi. zify_bool. destruct (decide (i = Z.to_nat mid)) as [->|].
    + simplify_eq. lia.
    + pose proof (table_sorted_lt _ _ _ _ _ _ Hsorted Hf' He). 
      pose proof (table_sorted_lookup _ _ _ _ Hsorted Hf'). lia.
  - apply IH; try lia. intros i f Hf' Hi. specialize (Hin i f Hf' Hi).
    destruct (decide (Z.to_nat mid <= i)%nat) as [Hle|]; [|lia].
    exfalso. unfold in_interval in Hi. zify_bool. destruct (decide (i = Z.to_nat mid)) as [->|].
    + simplify_eq. lia.
    + pose proof (table_sorted_lt _ _ _ _ _ _ Hsorted He Hf'). lia.
  - assert (existsb (in_interval ucs) table = true) as ->; [|done].
    apply existsb_exists. exists e. split; [by apply list_elem_of_In, (list_elem_of_lookup_2 _ _ _ He)|].
    unfold in_interval. rewrite !(proj2 (Z.leb_le _ _)) by lia. done.
Qed.

Lemma bisearch_spec :
  table <> [] -> Z.of_nat (length table) < 2 ^ 31 ->
  bisearch ucs table (table_max table) = Some (if existsb (in_interval ucs) table then 1 else 0).
Proof.
  intros Hne Hlen. unfold bisearch, table_max.
  destruct (table !! 0%nat) as [first|] eqn:H0.
  2: { apply lookup_ge_None_1 in H0. destruct table; [done|cbn in H0; lia]. }
  cbn [mbind option_bind]. assert (0 < length table)%nat by (destruct table; [done|cbn; lia]).
  destruct (table !! Z.to_nat (Z.of_nat (length table) - 1)) as [last|] eqn:Hlast.
  2: { apply lookup_ge_None_1 in Hlast. lia. }
  cbn [mbind option_bind].
  assert (Hins : forall i e, table !! i = Some e -> in_interval ucs e = true -> first.1 <= ucs <= last.2).
  { intros i e Hi Hin. unfold in_interval in Hin. zify_bool. pose proof (lookup_lt_Some _ _ _ Hi).
    pose proof (table_sorted_lookup _ _ _ _ Hsorted H0). pose proof (table_sorted_lookup _ _ _ _ Hsorted Hlast).
    split.
    - destruct (decide (i = 0%nat)) as [->|]; [simplify_eq; lia|].
      pose proof (table_sorted_lt _ _ _ _ _ _ Hsorted H0 Hi). lia.
    - destruct (decide (i = Z.to_nat (Z.of_nat (length table) - 1))) as [->|]; [simplify_eq; lia|].
      pose proof (table_sorted_lt _ _ _ _ _ _ Hsorted Hi Hlast). lia. }
  destruct (Z.ltb_spec ucs first.1) as [H1|H1]; cbn [orb]; [|destruct (Z.ltb_spec last.2 ucs) as [H2|H2]].
  1, 2: assert (existsb (in_interval ucs) table = false) as ->; [|done];
    apply not_true_iff_false; rewrite existsb_exists; intros (e & He & Hin);
    apply list_elem_of_In, list_elem_of_lookup_1 in He as [i Hi]; specialize (Hins i e Hi Hin); lia.
  apply bisearch_loop_spec; try lia.
  intros i e Hi _. apply lookup_lt_Some in Hi. lia.
Qed.
End Bisearch.

(** The width of a character, by the tables. *)
Definition width_of (ucs : Z) : Z :=
  if ucs =? 0 then 0
  else if (ucs <? 32) || ((127 <=? ucs) && (ucs <? 160)) then -1
  else if existsb (in_interval ucs) combining then 0
  else if existsb (in_interval ucs) wide then 2 else 1.

Lemma mk_wcwidth_width ucs : mk_wcwidth ucs = Some (width_of ucs).
Proof.
  unfold mk_wcwidth, width_of. destruct (ucs =? 0); [done|].
  destruct ((ucs <? 32) || ((127 <=? ucs) && (ucs <? 160))); [done|].
  rewrite (bisearch_spec 0 ucs combining), (bisearch_spec 0 ucs wide) by (try done; by vm_compute).
  cbn [mbind option_bind]. by destruct (existsb _ combining), (existsb _ wide).
Qed.

Create HintDb safe.

(** ** Well-formed contexts *)

Definition colour_ok (p : Z) : Prop := p = COLOUR_DEFAULT \/ p = COLOUR_BY_VALUE \/ 0 <= p < 8.
Definition charsets_ok (l : list Z) : Prop := length l = 2%nat.
Definition margins_ok (r top bottom : Z) : Prop := 0 <= top < bottom /\ bottom <= r.
Definition u32_list (l : list Z) : Prop := Forall (fun v => 0 <= v < 2 ^ 32) l.

Record wf (r w : Z) (c : flanterm_context) : Prop := {
  wf_rows : rows c = r;
  wf_cols : cols c = w;
  wf_tab : tab_size c = 8;
  wf_esc_len : length (esc_values c) = 16%nat;
  wf_esc : u32_list (esc_values c);
  wf_esc_i : 0 <= esc_values_i c <= 16;
  wf_rrr : rrr c = true -> esc_values_i c < 16;
  wf_osc : length (osc_buf c) = 256%nat;
  wf_osc_i : 0 <= osc_buf_i c <= 256;
  wf_g : 0 <= g_select c <= 2;
  wf_charsets : charsets_ok (charsets c);
  wf_charset : 0 <= current_charset c < 2;
  wf_unicode : 0 <= unicode_remaining c <= 3;
  wf_glyph : 0 <= last_printed_char c < 256;
  wf_saved_x : 0 <= saved_cursor_x c < w;
  wf_saved_y : 0 <= saved_cursor_y c < r;
  wf_primary : colour_ok (current_primary c);
  wf_bg : colour_ok (current_bg c);
  wf_margins : margins_ok r (scroll_top_margin c) (scroll_bottom_margin c);
  wf_saved_charsets : charsets_ok (saved_state_charsets c);
  wf_saved_charset : 0 <= saved_state_current_charset c < 2;
  wf_saved_primary : colour_ok (saved_state_current_primary c);
  wf_saved_bg : colour_ok (saved_state_current_bg c);
  wf_saved_margins : margins_ok r (saved_state_scroll_top_margin c) (saved_state_scroll_bottom_margin c);
}.

(** ** The contract of a backend *)

(** What an operation may rely on. *)
Definition geometry (c : flanterm_context) : Prop :=
  1 <= rows c < 2 ^ 31 /\ 1 <= cols c < 2 ^ 31 /\
  margins_ok (rows c) (scroll_top_margin c) (scroll_bottom_margin c).

Class SafeBackend (B : Type) `{TermBackend B} := {
  (** the invariant, for a screen of so many rows and columns *)
  binv : Z -> Z -> B -> Prop;
  keeps (c : flanterm_context) (m : M B unit) : Prop :=
    triple (binv (rows c) (cols c)) m (fun _ => binv (rows c) (cols c));
  safe_raw_putchar : forall c ch, geometry c -> 0 <= ch < 256 -> keeps c (raw_putchar c ch);
  safe_clear : forall c move, geometry c -> keeps c (clear_screen c move);
  safe_set_cursor : forall c x y, geometry c -> 0 <= x < cols c -> 0 <= y < rows c ->
    keeps c (set_cursor_pos c x y);
  safe_get_cursor : forall c, geometry c ->
    triple (binv (rows c) (cols c)) (get_cursor_pos c)
      (fun p b => 0 <= p.1 < cols c /\ 0 <= p.2 < rows c /\ binv (rows c) (cols c) b);
  safe_fg : forall c i, 0 <= i < 8 -> keeps c (set_text_fg c i);
  safe_bg : forall c i, 0 <= i < 8 -> keeps c (set_text_bg c i);
  safe_fg_bright : forall c i, 0 <= i < 8 -> keeps c (set_text_fg_bright c i);
  safe_bg_bright : forall c i, 0 <= i < 8 -> keeps c (set_text_bg_bright c i);
  safe_fg_rgb : forall c v, 0 <= v < 2 ^ 24 -> keeps c (set_text_fg_rgb c v);
  safe_bg_rgb : forall c v, 0 <= v < 2 ^ 24 -> keeps c (set_text_bg_rgb c v);
  safe_fg_default : forall c, keeps c (set_text_fg_default c);
  safe_bg_default : forall c, keeps c (set_text_bg_default c);
  safe_fg_default_bright : forall c, keeps c (set_text_fg_default_bright c);
  safe_bg_default_bright : forall c, keeps c (set_text_bg_default_bright c);
  safe_move : forall c nx ny ox oy, geometry c -> 0 <= nx < cols c -> 0 <= ny < rows c ->
    0 <= ox < cols c -> 0 <= oy < rows c -> keeps c (move_character c nx ny ox oy);
  safe_scroll : forall c, geometry c -> keeps c (scroll c);
  safe_revscroll : forall c, geometry c -> keeps c (revscroll c);
  safe_swap : forall c, keeps c (swap_palette c);
  safe_save : forall c, keeps c (backend_save_state c);
  safe_restore : forall c, keeps c (backend_restore_state c);
  safe_flush : forall c, geometry c -> keeps c (double_buffer_flush c);
  safe_callback : forall c a, keeps c (client_callback c a);
}.

Section Safety.
Context {B : Type} `{SafeBackend B} (r w : Z).
Hypothesis Hr : 1 <= r < 2 ^ 31.
Hypothesis Hw : 1 <= w < 2 ^ 31.

Definition tinv (t : terminal B) : Prop := wf r w (ctx t) /\ binv r w (screen t).

(** [m] returns, with a value of [Q], and keeps the terminal well formed. *)
Definition safe {A} (m : M (terminal B) A) (Q : A -> Prop) : Prop :=
  triple tinv m (fun a t => Q a /\ tinv t).
Definition any {A} : A -> Prop := fun _ => True.

Lemma wf_geometry c : wf r w c -> geometry c.
Proof. intros Hc. unfold geometry. rewrite (wf_rows _ _ _ Hc), (wf_cols _ _ _ Hc). split_and!; try lia. apply Hc. Qed.

Lemma safe_ret {A} (a : A) (Q : A -> Prop) : Q a -> safe (mret a) Q.
Proof. intros Ha. by apply triple_ret. Qed.

Lemma safe_bind {A A'} (m : M (terminal B) A) (f : A -> M (terminal B) A') (Q : A -> Prop) R :
  safe m Q -> (forall a, Q a -> safe (f a) R) -> safe (m ≫= f) R.
Proof.
  intros Hm Hf. eapply triple_bind; [exact Hm|]. intros a t [Ha Ht]. by apply (Hf a Ha).
Qed.

Lemma safe_weaken {A} (m : M (terminal B) A) (Q Q' : A -> Prop) :
  safe m Q -> (forall a, Q a -> Q' a) -> safe m Q'.
Proof. intros Hm HQ. eapply triple_conseq; [exact Hm|done|]. intros a t [Ha Ht]. split; auto. Qed.

Lemma safe_any {A} (m : M (terminal B) A) (Q : A -> Prop) : safe m Q -> safe m any.
Proof. intros Hm. by eapply safe_weaken. Qed.

Lemma safe_rd {E} (f : flanterm_context -> E) (Q : E -> Prop) :
  (forall c, wf r w c -> Q (f c)) -> safe (rd f) Q.
Proof. intros Hq t Ht. exists (f (ctx t)), t. split; [done|]. split; [|done]. apply Hq, Ht. Qed.

Lemma safe_modify f : (forall c, wf r w c -> wf r w (f c)) -> safe (modify_ctx f) any.
Proof.
  intros Hf t [Ht Hb]. exists tt, (Terminal (f (ctx t)) (screen t)). split; [done|].
  split; [done|]. split; cbn; auto.
Qed.

Lemma safe_call (op : flanterm_context -> M B unit) :
  (forall c, wf r w c -> keeps c (op c)) -> safe (call op) any.
Proof.
  intros Hop [c b] [Hc Hb]. cbn in *. specialize (Hop c Hc). unfold keeps in Hop.
  rewrite (wf_rows _ _ _ Hc), (wf_cols _ _ _ Hc) in Hop. destruct (Hop b Hb) as ([] & b' & E & Hb').
  exists tt, (Terminal c b'). unfold call. cbn. rewrite E. done.
Qed.

Lemma safe_cursor : safe (call get_cursor_pos) (fun p => 0 <= p.1 < w /\ 0 <= p.2 < r).
Proof.
  intros [c b] [Hc Hb]. cbn in *. pose proof (safe_get_cursor c (wf_geometry c Hc)) as Hop.
  rewrite (wf_rows _ _ _ Hc), (wf_cols _ _ _ Hc) in Hop. destruct (Hop b Hb) as (p & b' & E & Hx & Hy & Hb').
  exists p, (Terminal c b'). unfold call. cbn. rewrite E. done.
Qed.

Lemma safe_for_range a b (body : Z -> M (terminal B) unit) :
  (forall j, a <= j < b -> safe (body j) any) -> safe (for_range a b body) any.
Proof.
  intros Hb. eapply triple_conseq.
  - apply triple_for_range with (P := tinv). intros j Hj. eapply triple_conseq; [by apply Hb|done|].
    by intros [] t [_ Ht].
  - done.
  - done.
Qed.

Lemma safe_for_down fuel i lo (body : Z -> M (terminal B) unit) :
  0 < lo -> i < 2 ^ 64 -> i - lo < Z.of_nat fuel ->
  (forall j, lo <= j <= i -> safe (body j) any) -> safe (for_down fuel i lo body) any.
Proof.
  intros H1 H2 H3 Hb. eapply triple_conseq.
  - apply triple_for_down with (P := tinv); [done..|]. intros j Hj. eapply triple_conseq; [by apply Hb|done|].
    by intros [] t [_ Ht].
  - done.
  - done.
Qed.

(** *** Fields and backend calls *)

Ltac wf_field := intros ? []; assumption || tauto || lia.
Ltac wf_update := apply safe_modify; intros ? []; constructor; cbn;
  try assumption; try lia; try done; try solve [unfold colour_ok; tauto || (right; right; lia)];
  try solve [unfold margins_ok in *; lia];
  try solve [rewrite length_insert; assumption | unfold OSC_BUF_SIZE in *; lia].

Lemma rd_cols : safe (rd cols) (fun v => v = w).
Proof. apply safe_rd. wf_field. Qed.
Lemma rd_rows : safe (rd rows) (fun v => v = r).
Proof. apply safe_rd. wf_field. Qed.
Lemma rd_tab : safe (rd tab_size) (fun v => v = 8).
Proof. apply safe_rd. wf_field. Qed.
Lemma rd_esc_i : safe (rd esc_values_i) (fun v => 0 <= v <= 16).
Proof. apply safe_rd. wf_field. Qed.
Lemma rd_osc_i : safe (rd osc_buf_i) (fun v => 0 <= v <= 256).
Proof. apply safe_rd. wf_field. Qed.
Lemma rd_top : safe (rd scroll_top_margin) (fun v => 0 <= v < r).
Proof. apply safe_rd. intros c Hc. destruct (wf_margins _ _ _ Hc). lia. Qed.
Lemma rd_bottom : safe (rd scroll_bottom_margin) (fun v => 0 < v <= r).
Proof. apply safe_rd. intros c Hc. destruct (wf_margins _ _ _ Hc). lia. Qed.
Lemma rd_primary : safe (rd current_primary) colour_ok.
Proof. apply safe_rd. wf_field. Qed.
Lemma rd_bg : safe (rd current_bg) colour_ok.
Proof. apply safe_rd. wf_field. Qed.
Lemma rd_glyph : safe (rd last_printed_char) (fun v => 0 <= v < 256).
Proof. apply safe_rd. wf_field. Qed.
Lemma rd_saved_x : safe (rd saved_cursor_x) (fun v => 0 <= v < w).
Proof. apply safe_rd. wf_field. Qed.
Lemma rd_saved_y : safe (rd saved_cursor_y) (fun v => 0 <= v < r).
Proof. apply safe_rd. wf_field. Qed.
Lemma rd_g : safe (rd g_select) (fun v => 0 <= v <= 2).
Proof. apply safe_rd. wf_field. Qed.
Lemma rd_charsets : safe (rd charsets) charsets_ok.
Proof. apply safe_rd. wf_field. Qed.
Lemma rd_charset : safe (rd current_charset) (fun v => 0 <= v < 2).
Proof. apply safe_rd. wf_field. Qed.
Lemma rd_esc : safe (rd esc_values) (fun l => length l = 16%nat /\ u32_list l).
Proof. apply safe_rd. intros ? []. done. Qed.
Lemma rd_other {E} (f : flanterm_context -> E) : safe (rd f) any.
Proof. by apply safe_rd. Qed.

Lemma safe_liftO {A} (o : option A) (Q : A -> Prop) :
  (exists a, o = Some a /\ Q a) -> safe (liftO o) Q.
Proof. intros (a & -> & Ha) t Ht. by exists a, t. Qed.

Lemma safe_esc i : 0 <= i < 16 -> safe (esc i) (fun v => 0 <= v < 2 ^ 32).
Proof.
  intros Hi. unfold esc. eapply safe_bind; [apply rd_esc|]. intros l [Hl Hu]. apply safe_liftO.
  destruct (lookup_lt_is_Some_2 l (Z.to_nat i)) as [v Hv]; [lia|]. exists v. split; [done|].
  by eapply Forall_lookup_1 in Hu.
Qed.

Lemma safe_set_esc i v : 0 <= i < 16 -> 0 <= v < 2 ^ 32 -> safe (set_esc i v) any.
Proof.
  intros Hi Hv. unfold set_esc. eapply safe_bind; [apply rd_esc|]. intros l [Hl Hu].
  rewrite (proj2 (Z.ltb_lt _ _)) by lia. wf_update.
  by apply Forall_insert.
Qed.

Lemma safe_goto x y : 0 <= x < w -> 0 <= y < r -> safe (goto_pos x y) any.
Proof.
  intros Hx Hy. apply safe_call. intros c Hc. apply safe_set_cursor; [by eapply wf_geometry| |];
    by rewrite ?(wf_rows _ _ _ Hc), ?(wf_cols _ _ _ Hc).
Qed.

Lemma safe_put c : 0 <= c < 256 -> safe (put c) any.
Proof. intros. apply safe_call. intros x Hx. apply safe_raw_putchar; [by eapply wf_geometry|done]. Qed.

Lemma safe_blanks a b : safe (blanks a b) any.
Proof. apply safe_for_range. intros. by apply safe_put. Qed.

Lemma safe_move_call nx ny ox oy :
  0 <= nx < w -> 0 <= ny < r -> 0 <= ox < w -> 0 <= oy < r ->
  safe (call (fun c => move_character c nx ny ox oy)) any.
Proof.
  intros. apply safe_call. intros c Hc. apply safe_move; [by eapply wf_geometry|..];
    by rewrite ?(wf_rows _ _ _ Hc), ?(wf_cols _ _ _ Hc).
Qed.

Lemma safe_notify ty a b c l : safe (notify ty a b c l) any.
Proof.
  unfold notify. eapply safe_bind; [apply rd_other|]. intros [] _.
  - apply safe_call. intros. apply safe_callback.
  - by apply safe_ret.
Qed.

(** A backend operation under its law. *)
Ltac by_law law := apply safe_call; intros; apply law; try eapply wf_geometry; eassumption || done || lia.

Lemma call_scroll : safe (call scroll) any. Proof. by_law safe_scroll. Qed.
Lemma call_revscroll : safe (call revscroll) any. Proof. by_law safe_revscroll. Qed.
Lemma call_clear m : safe (call (fun c => clear_screen c m)) any. Proof. by_law safe_clear. Qed.
Lemma call_swap : safe (call swap_palette) any. Proof. by_law safe_swap. Qed.
Lemma call_save : safe (call backend_save_state) any. Proof. by_law safe_save. Qed.
Lemma call_restore : safe (call backend_restore_state) any. Proof. by_law safe_restore. Qed.
Lemma call_flush : safe (call double_buffer_flush) any. Proof. by_law safe_flush. Qed.
Lemma call_fg i : 0 <= i < 8 -> safe (call (fun c => set_text_fg c i)) any. Proof. intros. by_law safe_fg. Qed.
Lemma call_bg i : 0 <= i < 8 -> safe (call (fun c => set_text_bg c i)) any. Proof. intros. by_law safe_bg. Qed.
Lemma call_fg_bright i : 0 <= i < 8 -> safe (call (fun c => set_text_fg_bright c i)) any.
Proof. intros. by_law safe_fg_bright. Qed.
Lemma call_bg_bright i : 0 <= i < 8 -> safe (call (fun c => set_text_bg_bright c i)) any.
Proof. intros. by_law safe_bg_bright. Qed.
Lemma call_fg_rgb v : 0 <= v < 2 ^ 24 -> safe (call (fun c => set_text_fg_rgb c v)) any.
Proof. intros. by_law safe_fg_rgb. Qed.
Lemma call_bg_rgb v : 0 <= v < 2 ^ 24 -> safe (call (fun c => set_text_bg_rgb c v)) any.
Proof. intros. by_law safe_bg_rgb. Qed.
Lemma call_fg_default : safe (call set_text_fg_default) any. Proof. by_law safe_fg_default. Qed.
Lemma call_bg_default : safe (call set_text_bg_default) any. Proof. by_law safe_bg_default. Qed.
Lemma call_fg_default_bright : safe (call set_text_fg_default_bright) any.
Proof. by_law safe_fg_default_bright. Qed.
Lemma call_bg_default_bright : safe (call set_text_bg_default_bright) any.
Proof. by_law safe_bg_default_bright. Qed.

Lemma safe_fg_or_bg b f g : safe (call f) any -> safe (call g) any -> safe (fg_or_bg b f g) any.
Proof. by destruct b. Qed.

(** Machine arithmetic that stays in range. *)
Ltac unwrap :=
  repeat match goal with
  | |- context [u64 ?x] => rewrite (u64_small x) by lia
  | |- context [u32 ?x] => rewrite (u32_small x) by lia
  | Hx : context [u64 ?x] |- _ => rewrite (u64_small x) in Hx by lia
  | Hx : context [u32 ?x] |- _ => rewrite (u32_small x) in Hx by lia
  end.
Ltac geo := solve [lia | subst; repeat case_match; zify_bool; unwrap; lia].

#[local] Hint Resolve rd_cols rd_rows rd_tab rd_esc_i rd_osc_i rd_top rd_bottom rd_primary rd_bg
  rd_glyph rd_saved_x rd_saved_y rd_g rd_charsets rd_charset rd_esc safe_cursor safe_notify
  call_scroll call_revscroll call_clear call_swap call_save call_restore call_flush call_fg call_bg
  call_fg_bright call_bg_bright call_fg_rgb call_bg_rgb call_fg_default call_bg_default
  call_fg_default_bright call_bg_default_bright safe_fg_or_bg safe_blanks : safe.
#[local] Hint Resolve rd_other | 90 : safe.
#[local] Hint Extern 1 (safe (esc _) _) => apply safe_esc; geo : safe.
#[local] Hint Extern 1 (safe (set_esc _ _) _) => apply safe_set_esc; geo : safe.
#[local] Hint Extern 1 (safe (put _) _) => apply safe_put; lia : safe.
#[local] Hint Extern 1 (safe (goto_pos _ _) _) => apply safe_goto; geo : safe.
#[local] Hint Extern 1 (safe (mret _) any) => by apply safe_ret : safe.
#[local] Hint Extern 2 (safe (assign _ _) _) => wf_update : safe.
#[local] Hint Extern 2 (safe (modify_ctx _) _) => wf_update : safe.
#[local] Hint Extern 1 (safe (call (fun c => move_character c _ _ _ _)) _) => apply safe_move_call; geo : safe.
#[local] Hint Extern 1 (_ <= _ < _) => lia : safe.

(** A colour that is neither default nor by value is in the palette. *)
Ltac palette :=
  match goal with
  | Hc : colour_ok ?p, H1 : ?p <> COLOUR_BY_VALUE, H2 : ?p <> COLOUR_DEFAULT |- _ =>
      assert (0 <= p < 8) by (destruct Hc as [?|[?|?]]; [done | done | done]); clear Hc
  end.

(** Walk through sequential code: reads give their facts, other steps keep
    the invariant. *)
Ltac safe_head :=
  first [ solve [eauto 4 with safe nocore] | eapply safe_any; solve [eauto 4 with safe nocore] ].
Ltac safe_step :=
  lazymatch goal with
  | |- safe (mbind _ _) _ =>
      first [ eapply safe_bind; [safe_head | cbv beta; intros ? ?]
            | apply safe_bind with (Q := any); [ | intros ? _] ]
  | |- safe (if ?b then _ else _) _ => destruct b eqn:?; zify_bool; try (exfalso; lia)
  | |- safe (match ?p with pair _ _ => _ end) _ => destruct p; cbn [fst snd] in *
  | |- safe (match ?o with Some _ => _ | None => _ end) _ => destruct o
  | |- safe (mret _) _ => apply safe_ret; try done
  | |- safe (for_range _ _ _) _ => apply safe_for_range; intros
  | |- safe _ _ => try palette; safe_head
  end.
Ltac safe_walk := repeat safe_step.


Lemma safe_refresh_primary b : safe (refresh_primary b) any.
Proof. unfold refresh_primary. safe_walk. Qed.
Lemma safe_refresh_bg b : safe (refresh_bg b) any.
Proof. unfold refresh_bg. safe_walk. Qed.
Lemma safe_sgr_reset : safe sgr_reset any.
Proof. unfold sgr_reset. safe_walk. Qed.
Lemma safe_sgr_set_fg i : 0 <= i < 8 -> safe (sgr_set_fg i) any.
Proof. intros. unfold sgr_set_fg. safe_walk. Qed.
Lemma safe_sgr_set_bg i : 0 <= i < 8 -> safe (sgr_set_bg i) any.
Proof. intros. unfold sgr_set_bg. safe_walk. Qed.
Lemma safe_sgr_default_fg : safe sgr_default_fg any.
Proof. unfold sgr_default_fg, swapped. safe_walk. Qed.
Lemma safe_sgr_default_bg : safe sgr_default_bg any.
Proof. unfold sgr_default_bg, swapped. safe_walk. Qed.
#[local] Hint Resolve safe_refresh_primary safe_refresh_bg safe_sgr_reset safe_sgr_set_fg
  safe_sgr_set_bg safe_sgr_default_fg safe_sgr_default_bg : safe.
Lemma safe_sgr_indexed v : safe (sgr_indexed v) any.
Proof. unfold sgr_indexed. safe_walk. Qed.
Lemma safe_sgr_reverse on : safe (sgr_reverse on) any.
Proof. unfold sgr_reverse. safe_walk. Qed.
#[local] Hint Resolve safe_sgr_indexed safe_sgr_reverse : safe.
Lemma safe_sgr_simple v : safe (sgr_simple v) any.
Proof. unfold sgr_simple. safe_walk. Qed.
Lemma safe_mark fg : safe (mark_by_value fg) any.
Proof. unfold mark_by_value. safe_walk. Qed.
#[local] Hint Resolve safe_sgr_simple safe_mark : safe.

Lemma byte_range v : 0 <= Z.land v 0xff < 256.
Proof. change 0xff with (Z.ones 8). rewrite Z.land_ones by lia. apply Z.mod_pos_bound. lia. Qed.

Lemma rgb_range x y z :
  0 <= Z.lor (Z.lor (Z.shiftl (Z.land x 0xff) 16) (Z.shiftl (Z.land y 0xff) 8)) (Z.land z 0xff) < 2 ^ 24.
Proof.
  pose proof (byte_range x); pose proof (byte_range y); pose proof (byte_range z).
  rewrite !Z.shiftl_mul_pow2 by lia. repeat apply lor_below; lia.
Qed.

Lemma col256_range i v : col256 !! i = Some v -> 0 <= v < 2 ^ 24.
Proof.
  intros Hi. assert (Hall : forallb (fun v => (0 <=? v) && (v <? 2 ^ 24)) col256 = true) by by vm_compute.
  rewrite forallb_forall in Hall. specialize (Hall v). 
  assert (In v col256) as Hin by (by apply list_elem_of_In, (list_elem_of_lookup_2 _ i)).
  specialize (Hall Hin). zify_bool. lia.
Qed.

Lemma safe_sgr_rgb fg rfg i : 0 <= i + 1 -> i + 3 < 16 -> safe (sgr_rgb fg rfg i) any.
Proof.
  intros. unfold sgr_rgb. safe_walk. pose proof (rgb_range a a0 a1). eauto with safe.
Qed.

Lemma safe_col256 col :
  16 <= col < 256 -> safe (liftO (col256 !! Z.to_nat (col - 16))) (fun v => 0 <= v < 2 ^ 24).
Proof.
  intros Hcol. apply safe_liftO. destruct (lookup_lt_is_Some_2 col256 (Z.to_nat (col - 16))) as [v Hv].
  { change (length col256) with 240%nat. lia. }
  exists v. split; [done|]. by eapply col256_range.
Qed.
#[local] Hint Extern 1 (safe (liftO (col256 !! _)) _) => apply safe_col256; lia : safe.

Lemma safe_sgr_256 fg rfg col : 0 <= col -> safe (sgr_256 fg rfg col) any.
Proof. intros. unfold sgr_256. safe_walk. Qed.

Lemma safe_sgr_extended fg i :
  0 <= i -> safe (sgr_extended fg i) (fun o => match o with Some j => i <= j | None => True end).
Proof.
  intros Hi. unfold sgr_extended. safe_walk; try lia.
  - apply safe_sgr_rgb; lia.
  - apply safe_sgr_256; lia.
Qed.

#[local] Hint Extern 1 (safe (sgr_extended _ _) _) => apply safe_sgr_extended; lia : safe.

Lemma safe_sgr_loop fuel i : 0 <= i -> 16 - i <= Z.of_nat fuel -> safe (sgr_loop fuel i) any.
Proof.
  revert i. induction fuel as [|fuel IH]; intros i Hi Hf; cbn [sgr_loop]; safe_walk; try lia;
    apply IH; lia.
Qed.

Lemma safe_sgr : safe sgr any.
Proof. unfold sgr. safe_walk. apply safe_sgr_loop; [lia|]. done. Qed.
#[local] Hint Resolve safe_sgr : safe.

(** *** Modes and commands *)

Lemma safe_save_state : safe save_state any.
Proof. unfold save_state. safe_walk. Qed.
Lemma safe_restore_state : safe restore_state any.
Proof. unfold restore_state. safe_walk. Qed.
#[local] Hint Resolve safe_save_state safe_restore_state : safe.
Lemma safe_dec_mode set v : safe (dec_mode set v) any.
Proof. unfold dec_mode. safe_walk. Qed.
#[local] Hint Resolve safe_dec_mode : safe.
Lemma safe_dec_private_parse c : safe (dec_private_parse c) any.
Proof. unfold dec_private_parse. safe_walk. Qed.
Lemma safe_linux_private_parse : safe linux_private_parse any.
Proof. unfold linux_private_parse. safe_walk. Qed.
Lemma safe_mode_toggle c : safe (mode_toggle c) any.
Proof. unfold mode_toggle. safe_walk. Qed.
Lemma safe_osc_finalize : safe osc_finalize any.
Proof. unfold osc_finalize. safe_walk. Qed.
#[local] Hint Resolve safe_dec_private_parse safe_linux_private_parse safe_mode_toggle
  safe_osc_finalize : safe.
Lemma safe_osc_parse c : safe (osc_parse c) any.
Proof. unfold osc_parse. safe_walk. Qed.
Lemma safe_line_feed x y m : 0 <= x < w -> 0 <= y < r -> safe m any -> safe (line_feed x y m) any.
Proof. intros. unfold line_feed. safe_walk. Qed.
Lemma safe_tab : safe tab any.
Proof.
  unfold tab. safe_walk. subst.
  assert (0 <= z / 8 <= z) by (split; [apply Z.div_pos; lia | apply Z.div_le_upper_bound; lia]).
  eauto with safe.
Qed.
#[local] Hint Resolve safe_osc_parse safe_tab : safe.
#[local] Hint Extern 1 (safe (line_feed _ _ _) _) => apply safe_line_feed; [geo | geo | eauto with safe] : safe.
Lemma safe_execute_c0 c : safe (execute_c0 c) any.
Proof. unfold execute_c0. safe_walk. Qed.
#[local] Hint Resolve safe_execute_c0 : safe.

(** *** Control sequences *)

Lemma safe_csi_up x y : 0 <= x < w -> 0 <= y < r -> safe (csi_up x y) any.
Proof. intros. unfold csi_up. safe_walk. Qed.
Lemma safe_csi_down x y : 0 <= x < w -> 0 <= y < r -> safe (csi_down x y) any.
Proof. intros. unfold csi_down. safe_walk. Qed.
Lemma safe_csi_right x y : 0 <= x < w -> 0 <= y < r -> safe (csi_right x y) any.
Proof. intros. unfold csi_right. safe_walk. Qed.
Lemma safe_csi_left x y : 0 <= x < w -> 0 <= y < r -> safe (csi_left x y) any.
Proof. intros. unfold csi_left. safe_walk. Qed.

Lemma safe_row_range : safe row_range (fun p => 1 <= p.1 <= r /\ 0 <= p.2 /\ p.1 + p.2 <= r).
Proof.
  intros t Ht. unfold row_range. mstep. eexists _, t. split; [reflexivity|]. split; [|done].
  destruct Ht as [Hc _]. destruct (wf_margins _ _ _ Hc). pose proof (wf_rows _ _ _ Hc).
  destruct (origin_mode (ctx t)); cbn [fst snd]; unwrap; lia.
Qed.
#[local] Hint Resolve safe_row_range : safe.

Lemma one_less_range e : 0 <= e < 2 ^ 32 -> 0 <= one_less e < 2 ^ 32.
Proof. intros. unfold one_less, truthy. case_if; lia. Qed.
#[local] Hint Extern 1 => match goal with He : 0 <= ?e < 2 ^ 32 |- context [one_less ?e] =>
  pose proof (one_less_range e He); generalize dependent (one_less e); intros end : safe.

Lemma safe_csi_row x : 0 <= x < w -> safe (csi_row x) any.
Proof. intros. unfold csi_row. safe_walk. Qed.
Lemma safe_csi_column y : 0 <= y < r -> safe (csi_column y) any.
Proof. intros. unfold csi_column. safe_walk. Qed.
Lemma safe_csi_position : safe csi_position any.
Proof. intros. unfold csi_position. safe_walk. Qed.
#[local] Hint Resolve safe_csi_row safe_csi_column safe_csi_position safe_csi_up safe_csi_down
  safe_csi_right safe_csi_left : safe.

(** Inside the margins the top margin may be moved down to the cursor. *)
Lemma safe_csi_lines op y :
  safe (call op) any -> 0 <= y < r -> safe (csi_lines op y) any.
Proof.
  intros Hop Hy t Ht. unfold csi_lines. unfold rd at 1 2. mstep.
  destruct ((y <? scroll_top_margin (ctx t)) || (scroll_bottom_margin (ctx t) <=? y)) eqn:E;
    [by eexists tt, t|]. zify_bool. pose proof (proj1 Ht) as Hc.
  destruct (wf_margins _ _ _ Hc) as [Hm Hm'].
  set (t1 := Terminal ((ctx t) <| scroll_top_margin := y |>) (screen t)).
  assert (Ht1 : tinv t1).
  { split; [|apply Ht]. destruct Hc; constructor; cbn; try assumption. split; lia. }
  change (assign scroll_top_margin y t) with (Some (tt, t1)). cbv beta iota.
  enough (Hrest : triple (fun t => tinv t /\ scroll_bottom_margin (ctx t) = scroll_bottom_margin (ctx t1))
    (e ← esc 0;
     _ ← for_range 0 (Z.min e (u64 (scroll_bottom_margin (ctx t) - y))) (fun _ => call op);
     assign scroll_top_margin (scroll_top_margin (ctx t))) (fun a t => any a /\ tinv t))
    by (apply (Hrest t1); done).
  assert (Hcall : triple (fun t => tinv t /\ scroll_bottom_margin (ctx t) = scroll_bottom_margin (ctx t1))
    (call op) (fun _ t => tinv t /\ scroll_bottom_margin (ctx t) = scroll_bottom_margin (ctx t1))).
  { intros t2 [Ht2 Hb]. destruct (Hop t2 Ht2) as (a & t3 & E & _ & Ht3). exists a, t3. split; [done|].
    split; [done|]. unfold call in E. destruct (op (ctx t2) (screen t2)) as [[]|]; [|done].
    cbn in E. simplify_eq. exact Hb. }
  eapply triple_bind with (Q := fun _ t => tinv t /\ scroll_bottom_margin (ctx t) = scroll_bottom_margin (ctx t1)).
  { intros t2 [Ht2 Hb]. destruct (safe_esc 0 ltac:(lia) t2 Ht2) as (e & t3 & E & _ & Ht3).
    exists e, t3. split; [done|]. split; [done|]. unfold esc, rd in E. cbv [mbind M_bind gets liftO] in E.
    destruct (esc_values (ctx t2) !! Z.to_nat 0); [|done]. simplify_eq. exact Hb. }
  intros e. eapply triple_bind; [apply triple_for_range; intros; exact Hcall|]. intros [] t2 [Ht2 Hb].
  eexists tt, _. split; [reflexivity|]. split; [done|]. split; [|apply Ht2].
  cbn in Hb. destruct Ht2 as [[] _]; constructor; cbn; try assumption. split; lia.
Qed.

Lemma safe_csi_report x y : safe (csi_report x y) any.
Proof. unfold csi_report. safe_walk. Qed.
Lemma safe_csi_erase_display x y : 0 <= x < w -> 0 <= y < r -> safe (csi_erase_display x y) any.
Proof. intros. unfold csi_erase_display. safe_walk. Qed.
Lemma safe_csi_erase_chars x y : 0 <= x < w -> 0 <= y < r -> safe (csi_erase_chars x y) any.
Proof. intros. unfold csi_erase_chars. safe_walk. Qed.
Lemma safe_csi_erase_line x y : 0 <= x < w -> 0 <= y < r -> safe (csi_erase_line x y) any.
Proof. intros. unfold csi_erase_line. safe_walk. Qed.
#[local] Hint Resolve safe_csi_report safe_csi_erase_display safe_csi_erase_chars
  safe_csi_erase_line : safe.

Lemma new_margins_ok n e0 e1 :
  1 <= e0 < 2 ^ 32 -> 1 <= e1 < 2 ^ 32 ->
  let '(top, bottom) := new_margins r n e0 e1 in margins_ok r top bottom.
Proof.
  intros H0' H1'. unfold new_margins, margins_ok. cbv zeta.
  destruct (0 <? n), (1 <? n); unwrap; case_if; lia.
Qed.

(** The defaults of most commands leave no value 0. *)
Definition positive (t : terminal B) : Prop := Forall (fun v => 1 <= v) (esc_values (ctx t)).
Definition safe_pos {A} (m : M (terminal B) A) (Q : A -> Prop) : Prop :=
  triple (fun t => tinv t /\ positive t) m (fun a t => Q a /\ tinv t).

Lemma safe_pos_esc i (A' : Type) (f : Z -> M (terminal B) A') Q :
  0 <= i < 16 -> (forall v, 1 <= v < 2 ^ 32 -> safe_pos (f v) Q) -> safe_pos (esc i ≫= f) Q.
Proof.
  intros Hi Hf t [Ht Hp]. destruct (safe_esc i Hi t Ht) as (v & t' & E & Hv & _).
  pose proof E as E'. unfold esc, rd in E'. cbv [mbind M_bind gets liftO] in E'.
  destruct (esc_values (ctx t) !! Z.to_nat i) as [v'|] eqn:Hl; [|done]. simplify_eq.
  assert (1 <= v) by (by eapply (Forall_lookup_1 _ _ _ _ Hp)).
  destruct (Hf v ltac:(lia) t' (conj Ht Hp)) as (a & t2 & E2 & Ha). exists a, t2.
  split; [|done]. cbv [mbind M_bind]. by rewrite E.
Qed.

Lemma safe_pos_safe {A} (m : M (terminal B) A) Q : safe m Q -> safe_pos m Q.
Proof. intros Hm. eapply triple_conseq; [exact Hm|tauto|done]. Qed.

Lemma safe_csi_margins : safe_pos csi_margins any.
Proof.
  unfold csi_margins. apply safe_pos_esc; [lia|]. intros e0 He0. apply safe_pos_esc; [lia|].
  intros e1 He1. apply safe_pos_safe. safe_step. safe_step. subst.
  pose proof (new_margins_ok a e0 e1 He0 He1) as Hm. destruct (new_margins r a e0 e1) as [top bottom].
  destruct (Hm) as [? ?]. safe_walk.
Qed.

Lemma safe_csi_scroll op : safe (call op) any -> safe (csi_scroll op) any.
Proof. intros. unfold csi_scroll. safe_walk. Qed.

(** Characters shifted right by [k]. *)
Lemma safe_shift x y k :
  0 <= x < w -> 0 <= y < r -> 1 <= k <= w - x ->
  safe (for_down (Z.to_nat w) (u64 (w - 1)) (u64 (x + k))
          (fun i => call (fun c => move_character c i y (u64 (i - k)) y))) any.
Proof.
  intros Hx Hy Hk. unwrap. apply safe_for_down; try lia. intros i Hi. unwrap.
  apply safe_move_call; lia.
Qed.

Lemma safe_csi_insert_chars x y : 0 <= x < w -> 0 <= y < r -> safe (csi_insert_chars x y) any.
Proof.
  intros. unfold csi_insert_chars. safe_walk. subst. apply safe_shift; try lia.
  unwrap. case_if; lia.
Qed.

Lemma safe_csi_delete_chars x y : 0 <= x < w -> 0 <= y < r -> safe_pos (csi_delete_chars x y) any.
Proof.
  intros. unfold csi_delete_chars. apply safe_pos_esc; [lia|]. intros e He. apply safe_pos_safe.
  safe_step. subst. unwrap.
  assert (Hk : 1 <= (if w - x <? e then w - x else e) <= w - x) by (case_if; lia).
  generalize dependent (if w - x <? e then w - x else e). clear He. intros k Hk. safe_walk.
Qed.

Lemma safe_csi_repeat b b' : safe (csi_repeat b b') any.
Proof.
  unfold csi_repeat. safe_walk. subst. unwrap. apply safe_for_down; try lia. intros i Hi.
  unwrap. apply safe_move_call; lia.
Qed.
#[local] Hint Resolve safe_csi_insert_chars safe_csi_repeat : safe.
#[local] Hint Extern 1 (safe (csi_lines _ _) _) => apply safe_csi_lines; [eauto with safe | geo] : safe.
#[local] Hint Extern 1 (safe (csi_scroll _) _) => apply safe_csi_scroll; eauto with safe : safe.

(** The defaults, and the commands that rely on them. *)
Lemma done_ok (m : M (terminal B) unit) t :
  safe m any -> tinv t -> exists a t', (_ ← m; mret true) t = Some (a, t') /\ tinv t'.
Proof. intros Hm Ht. destruct (Hm t Ht) as ([] & t' & E & _ & Ht'). exists true, t'. mstep. by rewrite E. Qed.

Lemma done_pos (m : M (terminal B) unit) t :
  safe_pos m any -> tinv t -> positive t -> exists a t', (_ ← m; mret true) t = Some (a, t') /\ tinv t'.
Proof.
  intros Hm Ht Hp. destruct (Hm t (conj Ht Hp)) as ([] & t' & E & _ & Ht'). exists true, t'. mstep. by rewrite E.
Qed.

Lemma safe_if {A} (e : bool) (m k : M (terminal B) A) Q :
  (e = true -> safe m Q) -> safe k Q -> safe (if e then m else k) Q.
Proof. destruct e; auto. Qed.

Definition returns {A} (m : M (terminal B) A) (t : terminal B) : Prop :=
  exists a t', m t = Some (a, t') /\ tinv t'.

Lemma returns_if {A} (e : bool) (m k : M (terminal B) A) t :
  (e = true -> returns m t) -> returns k t -> returns (if e then m else k) t.
Proof. destruct e; auto. Qed.

Lemma safe_csi_dispatch c b b' x y :
  0 <= x < w -> 0 <= y < r ->
  triple (fun t => tinv t /\ (csi_default c = 1 -> positive t)) (csi_dispatch c b b' x y)
    (fun _ => tinv).
Proof.
  intros Hx Hy t [Ht Hp]. fold (returns (csi_dispatch c b b' x y) t). unfold csi_dispatch. cbv zeta.
  assert (Hpos : forall k (m : M (terminal B) unit), csi_default k = 1 -> safe_pos m any -> (c =? k) = true ->
    returns (_ ← m; mret true) t).
  { intros k m Hk Hm E. zify_bool. subst c. apply done_pos; [done | done | by apply Hp]. }
  do 13 (apply returns_if; [intros _; apply done_ok; [solve [eauto with safe]|done]|]).
  apply returns_if; [intros _; apply done_ok; [safe_walk|done]|].
  do 2 (apply returns_if; [intros _; apply done_ok; [solve [eauto with safe]|done]|]).
  apply returns_if; [apply Hpos; [done | by apply safe_csi_delete_chars]|].
  do 2 (apply returns_if; [intros _; apply done_ok; [solve [eauto with safe]|done]|]).
  apply returns_if; [intros _; apply done_ok; [safe_walk|done]|].
  apply returns_if; [intros _; apply done_ok; [safe_walk|done]|].
  apply returns_if; [intros _; apply done_ok; [solve [eauto with safe]|done]|].
  apply returns_if; [apply Hpos; [done | apply safe_csi_margins]|].
  do 5 (apply returns_if; [intros _; apply done_ok; [solve [eauto with safe]|done]|]).
  by eexists _, t.
Qed.

Lemma safe_cleanup : safe csi_cleanup any.
Proof. unfold csi_cleanup. safe_walk. Qed.
Lemma safe_skip c : safe (csi_skip c) any.
Proof. pose proof safe_cleanup. unfold csi_skip. safe_walk. Qed.
#[local] Hint Resolve safe_cleanup safe_skip : safe.

Lemma safe_digit c : is_digit_char c = true -> safe (csi_digit c) any.
Proof.
  intros Hc t Ht. unfold csi_digit. unfold rd at 1. mstep.
  destruct (Z.eqb_spec (esc_values_i (ctx t)) FLANTERM_MAX_ESC_VALUES) as [|Hi]; [by eexists tt, t|].
  pose proof (wf_esc_i _ _ _ (proj1 Ht)) as Hr'. unfold FLANTERM_MAX_ESC_VALUES in Hi.
  set (i := esc_values_i (ctx t)) in *.
  set (t1 := Terminal ((ctx t) <| rrr := true |>) (screen t)).
  assert (Ht1 : tinv t1).
  { split; [|apply Ht]. destruct Ht as [[] _]; constructor; cbn; try assumption. fold i. lia. }
  change (assign rrr true t) with (Some (tt, t1)). cbv beta iota.
  unfold is_digit_char in Hc. zify_bool. chars.
  enough (Hrest : safe (v ← esc i;
     if UINT32_MAX / 10 <? v then mret tt else
     let v := u32 (v * 10) in
     _ ← set_esc i v;
     let digit := c - chr "0" in
     if UINT32_MAX - digit <? v then set_esc i UINT32_MAX else set_esc i (u32 (v + digit))) any)
    by (exact (Hrest t1 Ht1)).
  chars. change (UINT32_MAX / 10) with 429496729. unfold UINT32_MAX. safe_walk.
Qed.

(** The state [set_esc] leaves. *)
Definition esc_set (i v : Z) (t : terminal B) : terminal B :=
  Terminal ((ctx t) <| esc_values := <[Z.to_nat i := v]> (esc_values (ctx t)) |>) (screen t).

Lemma set_esc_run i v t :
  tinv t -> 0 <= i < 16 -> 0 <= v < 2 ^ 32 -> set_esc i v t = Some (tt, esc_set i v t) /\ tinv (esc_set i v t).
Proof.
  intros Ht Hi Hv. split.
  - unfold set_esc, rd. mstep. rewrite (wf_esc_len _ _ _ (proj1 Ht)).
    by rewrite (proj2 (Z.ltb_lt i _)) by lia.
  - split; [|apply Ht]. destruct Ht as [[] _]; constructor; cbn; try assumption.
    + by rewrite length_insert.
    + by apply Forall_insert.
Qed.

Lemma safe_separator c : safe (csi_separator c) any.
Proof.
  intros t Ht. unfold csi_separator. unfold rd at 1 2. mstep. pose proof (proj1 Ht) as Hc.
  pose proof (wf_esc_i _ _ _ Hc). pose proof (wf_rrr _ _ _ Hc) as Hrrr.
  destruct (rrr (ctx t)) eqn:Er.
  - eexists _, _. split; [reflexivity|]. split; [done|]. split; [|apply Ht].
    specialize (Hrrr eq_refl). destruct Hc; constructor; cbn; try assumption; try lia; done.
  - destruct (c =? chr ";"); [|by eexists _, t].
    destruct (Z.eqb_spec (esc_values_i (ctx t)) FLANTERM_MAX_ESC_VALUES) as [|Hi]; [by eexists _, t|].
    unfold FLANTERM_MAX_ESC_VALUES in Hi.
    destruct (set_esc_run (esc_values_i (ctx t)) 0 t Ht ltac:(lia) ltac:(lia)) as [-> Ht'].
    eexists _, _. split; [reflexivity|]. split; [done|]. split; [|apply Ht'].
    destruct Ht' as [Hc' _]. cbn in Hc'. destruct Hc'; constructor; cbn in *; try assumption; try lia.
    by rewrite Er.
Qed.

(** After the defaults are filled in. *)
Lemma csi_default_01 c : csi_default c = 0 \/ csi_default c = 1.
Proof. unfold csi_default. destruct (existsb _ _); auto. Qed.

Lemma esc_set_lookup i v t k :
  tinv t -> 0 <= i < 16 -> 0 <= k ->
  esc_values (ctx (esc_set i v t)) !! Z.to_nat k
  = if k =? i then Some v else esc_values (ctx t) !! Z.to_nat k.
Proof.
  intros Ht Hi Hk. cbn. pose proof (wf_esc_len _ _ _ (proj1 Ht)).
  destruct (Z.eqb_spec k i) as [->|]; [apply list_lookup_insert_eq; lia|].
  apply list_lookup_insert_ne. lia.
Qed.

Definition filled (from upto : Z) (t : terminal B) : Prop :=
  tinv t /\ forall k v, 0 <= k < 16 -> k < from \/ upto <= k ->
    esc_values (ctx t) !! Z.to_nat k = Some v -> 1 <= v.

Lemma safe_fill_defaults c :
  triple tinv (csi_fill_defaults c) (fun _ t => tinv t /\ (csi_default c = 1 -> positive t)).
Proof.
  intros t Ht. unfold csi_fill_defaults. cbv zeta. unfold rd at 1. mstep.
  pose proof (wf_esc_i _ _ _ (proj1 Ht)) as Hn. set (n := esc_values_i (ctx t)) in *.
  pose proof (csi_default_01 c) as Hd. set (d := csi_default c) in *.
  unfold FLANTERM_MAX_ESC_VALUES.
  destruct (triple_for_range_at (fun j t => tinv t /\ forall k v, n <= k < j ->
      esc_values (ctx t) !! Z.to_nat k = Some v -> v = d) n 16 (fun i => set_esc i d) ltac:(lia))
    with (s := t) as ([] & t1 & E1 & Ht1 & Hv1); [|split; [done|intros; lia]|].
  { intros j Hj t0 [Ht0 Hv0]. destruct (set_esc_run j d t0 Ht0 ltac:(lia) ltac:(lia)) as [E Ht0'].
    exists tt, (esc_set j d t0). split; [done|]. split; [done|]. intros k v Hk.
    rewrite esc_set_lookup by (try done; lia). destruct (Z.eqb_spec k j); [by intros [= <-]|].
    apply Hv0. lia. }
  rewrite E1. destruct (Z.eqb_spec d 0) as [Hd0|Hd0]; [eexists tt, t1; split; [done|]; split; [done|lia]|].
  destruct (triple_for_range_at (fun j => filled j n) 0 n
      (fun i => v ← esc i; if v =? 0 then set_esc i d else mret tt) ltac:(lia))
    with (s := t1) as ([] & t2 & E2 & Ht2 & Hv2).
  - intros j Hj t0 [Ht0 Hv0]. destruct (safe_esc j ltac:(lia) t0 Ht0) as (v & t0' & E & Hv & _).
    pose proof E as E'. unfold esc, rd in E'. cbv [mbind M_bind gets liftO] in E'.
    destruct (esc_values (ctx t0) !! Z.to_nat j) as [v'|] eqn:Hl; [|done]. simplify_eq.
    mstep. rewrite E. destruct (Z.eqb_spec v 0).
    + destruct (set_esc_run j d t0' Ht0 ltac:(lia) ltac:(lia)) as [E0 Ht0''].
      exists tt, (esc_set j d t0'). split; [done|]. split; [done|]. intros k u Hk Hk'.
      rewrite esc_set_lookup by (try done; lia). destruct (Z.eqb_spec k j); [intros [= <-]; lia|].
      apply Hv0; lia.
    + exists tt, t0'. split; [done|]. split; [done|]. intros k u Hk Hk' Hu.
      destruct (Z.eq_dec k j) as [->|]; [simplify_eq; lia|]. apply (Hv0 k); try done; lia.
  - split; [done|]. intros k v Hk Hk' Hv. specialize (Hv1 k v ltac:(lia) Hv). lia.
  - exists tt, t2. split; [exact E2|]. split; [done|]. intros _. apply Forall_lookup_2.
    intros k v Hk. apply (Hv2 (Z.of_nat k)); rewrite ?Nat2Z.id; try done; [|lia].
    apply lookup_lt_Some in Hk. rewrite (wf_esc_len _ _ _ (proj1 Ht2)) in Hk. lia.
Qed.

(** What is left to do after the modes of [t] are set aside. *)
Lemma restore_modes b b' (m : M (terminal B) unit) t :
  tinv t -> safe m any ->
  exists a t', ((_ ← (_ ← assign scroll_enabled b; assign wrap_enabled b'); m) : M (terminal B) unit) t
    = Some (a, t') /\ tinv t'.
Proof.
  intros Ht Hm. assert (Hs : safe (_ ← (_ ← assign scroll_enabled b; assign wrap_enabled b'); m) any)
    by safe_walk.
  destruct (Hs t Ht) as (a & t' & E & _ & Ht'). by exists a, t'.
Qed.

Lemma safe_execute c :
  triple (fun t => tinv t /\ (csi_default c = 1 -> positive t)) (csi_execute c) (fun _ => tinv).
Proof.
  intros t [Ht Hp]. unfold csi_execute, rd. mstep.
  set (t1 := Terminal ((ctx t) <| scroll_enabled := false |>) (screen t)).
  change (assign scroll_enabled false t) with (Some (tt, t1)). cbv beta iota.
  set (t2 := Terminal ((ctx t1) <| wrap_enabled := true |>) (screen t)).
  change (wrap_enabled (ctx t1)) with (wrap_enabled (ctx t)).
  change (assign wrap_enabled true t1) with (Some (tt, t2)). cbv beta iota.
  assert (Ht2 : tinv t2).
  { split; [|apply Ht]. destruct Ht as [[] _]; constructor; cbn; assumption. }
  destruct (safe_cursor t2 Ht2) as ([x y] & t3 & E & [Hx Hy] & Ht3). rewrite E. cbn [fst snd] in *.
  assert (Hp3 : csi_default c = 1 -> positive t3).
  { intros Hd. unfold call in E. destruct (get_cursor_pos (ctx t2) (screen t2)) as [[]|]; [|done].
    cbn in E. simplify_eq. exact (Hp Hd). }
  destruct (c =? 27).
  - assert (Hs : safe (_ ← assign control_sequence false; assign escape_offset 0) any) by safe_walk.
    exact (restore_modes (scroll_enabled (ctx t)) (wrap_enabled (ctx t)) _ t3 Ht3 Hs).
  - destruct (safe_csi_dispatch c (scroll_enabled (ctx t)) (wrap_enabled (ctx t)) x y Hx Hy t3 (conj Ht3 Hp3))
      as (ended & t4 & E4 & Ht4). rewrite E4.
    assert (Hs : safe (if ended : bool then csi_cleanup else assign csi_unhandled true) any) by safe_walk.
    exact (restore_modes (scroll_enabled (ctx t)) (wrap_enabled (ctx t)) _ t4 Ht4 Hs).
Qed.

Lemma safe_control_sequence_parse c : 0 <= c < 256 -> safe (control_sequence_parse c) any.
Proof.
  intros Hc. unfold control_sequence_parse. safe_step.
  do 3 (match goal with |- safe (if ?e then _ else _) _ => destruct e; [safe_walk|] end).
  destruct (is_digit_char c) eqn:Hd; [by apply safe_digit|].
  eapply safe_bind; [apply safe_separator|]. intros [] _; [safe_walk|].
  intros t Ht. destruct (safe_fill_defaults c t Ht) as (u & t1 & E1 & Ht1 & Hp1).
  cbv [mbind M_bind]. rewrite E1. unfold rd at 1 2. cbv [gets].
  destruct (dec_private (ctx t1)); [|destruct (csi_unhandled (ctx t1))].
  - assert (Hs : safe (_ ← dec_private_parse c; csi_cleanup) any) by safe_walk. exact (Hs t1 Ht1).
  - exact (safe_skip c t1 Ht1).
  - destruct (safe_execute c t1 (conj Ht1 Hp1)) as (u2 & t2 & E2 & Ht2). by exists u2, t2.
Qed.
#[local] Hint Resolve safe_control_sequence_parse : safe.

(** *** Escape sequences and printing *)

Lemma safe_reinit : safe (modify_ctx flanterm_context_reinit) any.
Proof.
  apply safe_modify. intros c []. unfold flanterm_context_reinit.
  constructor; cbn; try assumption; try lia; try done; try by left.
  all: split; lia.
Qed.
#[local] Hint Resolve safe_reinit : safe.

Lemma safe_full_reset : safe full_reset any.
Proof. unfold full_reset. safe_walk. Qed.
Lemma safe_reverse_line_feed x y : 0 <= x < w -> 0 <= y < r -> safe (reverse_line_feed x y) any.
Proof. intros. unfold reverse_line_feed. safe_walk. Qed.
Lemma safe_start_csi : safe start_csi any.
Proof. unfold start_csi, FLANTERM_MAX_ESC_VALUES. safe_walk. Qed.
#[local] Hint Resolve safe_full_reset safe_reverse_line_feed safe_start_csi : safe.
#[local] Hint Extern 1 (safe (line_feed _ _ (goto_pos _ _)) _) =>
  apply safe_line_feed; [geo | geo | apply safe_goto; geo] : safe.

Lemma safe_escape_dispatch c x y :
  0 <= c < 256 -> 0 <= x < w -> 0 <= y < r -> safe (escape_dispatch c x y) any.
Proof.
  intros. unfold escape_dispatch. cbv zeta.
  do 10 (apply safe_if; [intros _; safe_walk|]).
  apply safe_if; [|by apply safe_ret]. intros E.
  assert (0 <= u8 (c - 39) <= 2) by (chars; zify_bool; subst; vm_compute; split; discriminate).
  safe_walk.
Qed.

Lemma safe_escape_parse c : 0 <= c < 256 -> safe (escape_parse c) any.
Proof.
  intros. pose proof safe_escape_dispatch. unfold escape_parse. safe_walk.
Qed.
#[local] Hint Resolve safe_escape_parse : safe.

Lemma safe_insert_shift n : safe (insert_shift n) any.
Proof.
  unfold insert_shift. safe_walk. subst. apply safe_shift; try lia. unwrap. case_if; lia.
Qed.
Lemma safe_print_glyph c : safe (print_glyph c) any.
Proof. pose proof (wrap_range 8 c ltac:(lia)). unfold print_glyph. safe_walk. Qed.
#[local] Hint Resolve safe_insert_shift safe_print_glyph : safe.

Lemma safe_width cp : safe (liftO (mk_wcwidth cp)) any.
Proof. apply safe_liftO. rewrite mk_wcwidth_width. by eexists. Qed.
#[local] Hint Resolve safe_width : safe.

Lemma safe_print_code_point cp : safe (print_code_point cp) any.
Proof. unfold print_code_point. safe_walk. Qed.
#[local] Hint Resolve safe_print_code_point : safe.

Lemma safe_unicode_continue c :
  triple (fun t => tinv t /\ unicode_remaining (ctx t) <> 0) (unicode_continue c) (fun _ => tinv).
Proof.
  intros t [Ht Hn]. unfold unicode_continue. pose proof (wf_unicode _ _ _ (proj1 Ht)) as Hu.
  destruct (negb _).
  - assert (Hs : safe (_ ← assign unicode_remaining 0; _ ← insert_shift 1; _ ← put 0xfe; mret true) any)
      by safe_walk.
    destruct (Hs t Ht) as (a & t' & E & _ & Ht'). by exists a, t'.
  - unfold rd. mstep. set (n := unicode_remaining (ctx t) - 1).
    set (cp := Z.lor (code_point (ctx t)) (u64 (Z.shiftl (Z.land c 0x3f) (6 * n)))).
    enough (Hs : safe (_ ← modify_ctx (fun x => x <| unicode_remaining := n |> <| code_point := cp |>);
      if ((n =? 1) && (cp <? 0x800)) || ((n =? 2) && (cp <? 0x10000)) || ((n =? 2) && (0x10ffff <? cp))
      then _ ← assign unicode_remaining 0; mret true
      else if negb (n =? 0) then mret false
      else if (0xd800 <=? cp) && (cp <=? 0xdfff) then mret true
      else _ ← print_code_point cp; mret false) any)
      by (destruct (Hs t Ht) as (a & t' & E & _ & Ht'); by exists a, t').
    assert (0 <= n <= 3) by lia. clearbody n cp. safe_step.
    apply safe_if; [intros _; safe_walk|]. safe_walk.
Qed.

Lemma safe_unicode_start c : safe (unicode_start c) any.
Proof. unfold unicode_start. cbv zeta. safe_walk. Qed.
Lemma safe_dec_special c : safe (dec_special_print c) any.
Proof. unfold dec_special_print. safe_walk. Qed.
#[local] Hint Resolve safe_unicode_start safe_dec_special : safe.
Lemma safe_select_charset c : safe (select_charset c) any.
Proof.
  unfold select_charset. safe_step. safe_step; [safe_walk|]. apply safe_if; [intros _; safe_walk|].
  eapply safe_bind; [apply rd_charsets|]. cbv beta. intros l Hl.
  rewrite (proj2 (Z.ltb_lt _ _)) by (rewrite Hl; lia).
  apply safe_bind with (Q := any); [|intros _ _; safe_walk].
  assert (Hset : forall cs, safe (assign charsets (<[Z.to_nat (a - 1) := cs]> l)) any).
  { intros cs. wf_update. unfold charsets_ok. by rewrite length_insert. }
  repeat apply safe_if; [intros _; apply Hset | intros _; apply Hset | by apply safe_ret].
Qed.
#[local] Hint Resolve safe_select_charset : safe.

Lemma safe_print_char c : safe (print_char c) any.
Proof.
  unfold print_char. safe_step. eapply safe_bind; [apply rd_charsets|]. cbv beta. intros l Hl.
  eapply safe_bind; [apply rd_charset|]. cbv beta. intros i Hi.
  apply safe_bind with (Q := any); [|intros cs _; safe_walk].
  apply safe_liftO. destruct (lookup_lt_is_Some_2 l (Z.to_nat i)) as [v Hv]; [rewrite Hl; lia|].
  by exists v.
Qed.
#[local] Hint Resolve safe_print_char : safe.

Lemma safe_putchar_single c : 0 <= c < 256 -> safe (putchar_single c) any.
Proof.
  intros. unfold putchar_single. apply safe_if; [intros _; safe_walk|]. safe_step.
  apply safe_if; [intros _; safe_walk|]. safe_step. apply safe_if; [intros _; safe_walk|].
  apply safe_bind with (Q := any); [apply safe_if; [intros _; safe_walk | safe_walk]|].
  intros _ _. apply safe_if; [intros _; safe_walk|]. apply safe_if; [intros _; safe_walk|].
  apply safe_if; [intros _; safe_walk | safe_walk].
Qed.

Lemma safe_abort : safe abort_sequence any.
Proof. unfold abort_sequence. safe_walk. Qed.

Lemma safe_putchar c : 0 <= c < 256 -> safe (flanterm_putchar c) any.
Proof.
  intros Hc t Ht. unfold flanterm_putchar, rd. mstep.
  destruct (_ || _); [exact (safe_abort t Ht)|].
  destruct (Z.eqb_spec (unicode_remaining (ctx t)) 0) as [E|E]; cbn [negb].
  - exact (safe_putchar_single c Hc t Ht).
  - destruct (safe_unicode_continue c t (conj Ht E)) as ([] & t' & -> & Ht').
    + exact (safe_putchar_single c Hc t' Ht').
    + by exists tt, t'.
Qed.

Lemma safe_put_bytes buf : safe (put_bytes buf) any.
Proof.
  induction buf as [|c buf IH]; cbn [put_bytes]; [by apply safe_ret|].
  eapply safe_bind; [apply safe_putchar, wrap_range; lia|]. by intros _ _.
Qed.

Lemma safe_write buf : safe (flanterm_write buf) any.
Proof. pose proof (safe_put_bytes buf). unfold flanterm_write. safe_walk. Qed.
End Safety.


(** C6: the terminal is safe on every byte stream.  Over a backend that keeps
    its contract, writing any bytes to a well-formed terminal returns (no
    access outside an array, no wrong division, every loop ends), leaves it
    well formed, and calls the backend only as the contract allows: positions
    on the screen, colours of the palette, ordered margins, glyphs of one
    byte. *)
Theorem terminal_safe {B} `{SafeBackend B} (r w : Z) (buf : list Z) (t : terminal B) :
  1 <= r < 2 ^ 31 -> 1 <= w < 2 ^ 31 -> tinv r w t ->
  exists t', flanterm_write buf t = Some (tt, t') /\ tinv r w t'.
Proof.
  intros Hr Hw Ht. destruct (safe_write r w Hr Hw buf t Ht) as ([] & t' & E & _ & Ht').
  by exists t'.
Qed.

(** ** UTF-8 *)

(** The encoding of a code point from 0x80 on. *)
Definition utf8_encode (cp : Z) : list Z :=
  if cp <? 0x800 then [0xC0 + cp / 64; 0x80 + cp mod 64]
  else if cp <? 0x10000 then [0xE0 + cp / 4096; 0x80 + cp / 64 mod 64; 0x80 + cp mod 64]
  else [0xF0 + cp / 262144; 0x80 + cp / 4096 mod 64; 0x80 + cp / 64 mod 64; 0x80 + cp mod 64].

(** A Unicode scalar value outside ASCII. *)
Definition scalar (cp : Z) : Prop := 0x80 <= cp <= 0x10ffff /\ ~ (0xd800 <= cp <= 0xdfff).

Lemma lor_low x k b : 0 <= k -> 0 <= b < 2 ^ k -> Z.lor (x * 2 ^ k) b = x * 2 ^ k + b.
Proof.
  intros Hk Hb. rewrite <- (Z.add_lor_land (x * 2 ^ k) b). assert (Z.land (x * 2 ^ k) b = 0) as ->; [|lia].
  apply Z_bits_ext. intros i Hi. rewrite Z.land_spec, Z.bits_0.
  destruct (Z.lt_ge_cases i k).
  - by rewrite Z.mul_pow2_bits_low.
  - destruct (Z.eq_dec b 0) as [->|]; [by rewrite Z.bits_0, andb_false_r|].
    rewrite (Z.bits_above_log2 b), andb_false_r; [done|lia|].
    apply Z.lt_le_trans with k; [|done]. apply Z.log2_lt_pow2; lia.
Qed.

(** The bytes of an encoding, by their masks. *)
Lemma continuation_byte c :
  0x80 <= c < 0xC0 -> Z.land c 0xc0 = 0x80 /\ Z.land c 0x3f = c - 0x80.
Proof.
  intros Hc.
  assert (H : (c <? 0x80) || ((Z.land c 0xc0 =? 0x80) && (Z.land c 0x3f =? c - 0x80)) = true).
  { revert Hc. intros Hc. assert (0 <= c < Z.of_nat 192) by lia. generalize dependent c. intros c _ Hc.
    check_all_below 192%nat c; [by vm_compute|done]. }
  zify_bool; lia.
Qed.

Lemma lead_byte c :
  0 <= c < 256 ->
  (0xC0 <= c < 0xE0 -> Z.land c 0x1f = c - 0xC0) /\ (0xE0 <= c < 0xF0 -> Z.land c 0x0f = c - 0xE0) /\
  (0xF0 <= c < 0xF8 -> Z.land c 0x07 = c - 0xF0).
Proof.
  intros Hc.
  assert (H : ((c <? 0xC0) || (0xE0 <=? c) || (Z.land c 0x1f =? c - 0xC0)) &&
    ((c <? 0xE0) || (0xF0 <=? c) || (Z.land c 0x0f =? c - 0xE0)) &&
    ((c <? 0xF0) || (0xF8 <=? c) || (Z.land c 0x07 =? c - 0xF0)) = true).
  { check_all_below 256%nat c; [by vm_compute|done]. }
  apply andb_true_iff in H as [H H3]. apply andb_true_iff in H as [H1 H2].
  split_and!; intros Hr; zify_bool; lia.
Qed.

Section Utf8.
Context {B : Type} `{TermBackend B}.
Implicit Types t : terminal B.

(** Ready for a character: no sequence is being discarded or decoded. *)
Definition at_boundary t : Prop := discard_next (ctx t) = false /\ unicode_remaining (ctx t) = 0.

(** Decoding under way: [n] bytes to come, [cp] so far. *)
Definition decoding t (n cp : Z) : terminal B :=
  Terminal ((ctx t) <| g_select := 0 |> <| unicode_remaining := n |> <| code_point := cp |>) (screen t).

Lemma putchar_lead t c :
  at_boundary t -> 0xc2 <= c <= 0xf4 ->
  flanterm_putchar c t
  = Some (tt, if c <=? 0xdf then decoding t 1 ((c - 0xC0) * 64)
              else if c <=? 0xef then decoding t 2 ((c - 0xE0) * 4096)
              else decoding t 3 ((c - 0xF0) * 262144)).
Proof.
  intros [Hd Hn] Hc. unfold flanterm_putchar, rd. mstep. rewrite Hd.
  rewrite (proj2 (Z.eqb_neq c 0x18)), (proj2 (Z.eqb_neq c 0x1a)) by lia. cbn [orb].
  rewrite Hn. cbn [Z.eqb negb].
  unfold putchar_single. rewrite !(proj2 (Z.leb_le _ _)) by lia. cbn [andb].
  unfold unicode_start. destruct (lead_byte c ltac:(lia)) as (L1 & L2 & L3).
  destruct (Z.leb_spec c 0xdf); [|destruct (Z.leb_spec c 0xef)].
  - rewrite L1, Z.shiftl_mul_pow2 by lia. done.
  - rewrite L2, Z.shiftl_mul_pow2 by lia. done.
  - rewrite L3, Z.shiftl_mul_pow2 by lia. done.
Qed.

(** A continuation byte adds its six bits. *)
Lemma continue_run t n cp b :
  0 <= b < 64 -> 1 <= n <= 3 -> 0 <= cp < 2 ^ 21 ->
  unicode_continue (0x80 + b) (decoding t n (cp * 2 ^ (6 * n)))
  = (let cp' := (cp * 64 + b) * 2 ^ (6 * (n - 1)) in
     if ((n - 1 =? 1) && (cp' <? 0x800)) || ((n - 1 =? 2) && (cp' <? 0x10000))
        || ((n - 1 =? 2) && (0x10ffff <? cp'))
     then (_ ← assign unicode_remaining 0; mret true)
     else if negb (n - 1 =? 0) then mret false
     else if (0xd800 <=? cp') && (cp' <=? 0xdfff) then mret true
     else _ ← print_code_point cp'; mret false) (decoding t (n - 1) ((cp * 64 + b) * 2 ^ (6 * (n - 1)))).
Proof.
  intros Hb Hn Hcp. unfold unicode_continue.
  destruct (continuation_byte (0x80 + b) ltac:(lia)) as [-> ->]. rewrite Z.eqb_refl. cbn [negb].
  unfold rd. mstep. cbn [decoding ctx screen unicode_remaining code_point set_field].
  replace (0x80 + b - 0x80) with b by lia. set (n' := n - 1).
  assert (Hv : Z.lor (cp * 2 ^ (6 * n)) (u64 (Z.shiftl b (6 * n'))) = (cp * 64 + b) * 2 ^ (6 * n')).
  { rewrite Z.shiftl_mul_pow2 by lia.
    assert (E : 2 ^ (6 * n) = 64 * 2 ^ (6 * n')) by (unfold n'; replace (6 * n) with (6 + 6 * (n - 1)) by lia;
      rewrite Z.pow_add_r by lia; done).
    assert (0 < 2 ^ (6 * n') <= 2 ^ 12) by (split; [apply Z.pow_pos_nonneg; lia | apply Z.pow_le_mono_r; lia]).
    rewrite u64_small by nia. rewrite lor_low by nia. rewrite E. lia. }
  rewrite Hv. done.
Qed.

(** A byte while decoding. *)
Lemma putchar_continue t n cp b :
  at_boundary t -> 0 <= b < 64 -> 1 <= n <= 3 -> 0 <= cp < 2 ^ 21 ->
  let cp' := (cp * 64 + b) * 2 ^ (6 * (n - 1)) in
  (n = 2 -> 0x800 <= cp') -> (n = 3 -> 0x10000 <= cp' <= 0x10ffff) ->
  (n = 1 -> ~ (0xd800 <= cp' <= 0xdfff)) ->
  flanterm_putchar (0x80 + b) (decoding t n (cp * 2 ^ (6 * n)))
  = (if n =? 1 then print_code_point cp' else mret tt) (decoding t (n - 1) cp').
Proof.
  intros [Hd _] Hb Hn Hcp cp' H2 H3 H1. unfold flanterm_putchar, rd. mstep.
  change (discard_next (ctx (decoding t n (cp * 2 ^ (6 * n))))) with (discard_next (ctx t)).
  rewrite Hd, (proj2 (Z.eqb_neq (0x80 + b) 0x18)), (proj2 (Z.eqb_neq (0x80 + b) 0x1a)) by lia.
  cbn [orb]. change (unicode_remaining (ctx (decoding t n (cp * 2 ^ (6 * n))))) with n.
  rewrite (proj2 (Z.eqb_neq n 0)) by lia. cbn [negb]. rewrite continue_run by done. cbv zeta. fold cp'.
  assert (Hchk : ((n - 1 =? 1) && (cp' <? 0x800)) || ((n - 1 =? 2) && (cp' <? 0x10000))
        || ((n - 1 =? 2) && (0x10ffff <? cp')) = false).
  { destruct (Z.eqb_spec (n - 1) 1), (Z.eqb_spec (n - 1) 2); try lia; cbn [andb orb];
      rewrite ?(proj2 (Z.ltb_ge _ _)) by lia; done. }
  rewrite Hchk. destruct (Z.eqb_spec n 1) as [->|].
  - change (1 - 1 =? 0) with true. cbn [negb].
    assert (Hsur : (0xd800 <=? cp') && (cp' <=? 0xdfff) = false).
    { clear Hchk. apply not_true_iff_false. intros E. zify_bool. by apply (H1 eq_refl). }
    rewrite Hsur. mstep. by destruct (print_code_point _ _) as [[[] ?]|].
  - rewrite (proj2 (Z.eqb_neq (n - 1) 0)) by lia. done.
Qed.

Lemma utf8_bytes cp : scalar cp ->
  0 <= cp mod 64 < 64 /\ 0 <= cp / 64 mod 64 < 64 /\ 0 <= cp / 4096 mod 64 < 64 /\
  cp = cp / 64 * 64 + cp mod 64 /\ cp / 64 = cp / 4096 * 64 + cp / 64 mod 64 /\
  cp / 4096 = cp / 262144 * 64 + cp / 4096 mod 64 /\ 0 <= cp / 262144.
Proof.
  intros [Hc _].
  assert (E1 : cp / 4096 = cp / 64 / 64) by (rewrite Zdiv.Zdiv_Zdiv by lia; done).
  assert (E2 : cp / 262144 = cp / 4096 / 64) by (rewrite Zdiv.Zdiv_Zdiv by lia; done).
  pose proof (Z.div_mod cp 64). pose proof (Z.div_mod (cp / 64) 64).
  pose proof (Z.div_mod (cp / 4096) 64). rewrite <- E1, <- E2 in *.
  split_and!; try (apply Z.mod_pos_bound; lia); try lia. apply Z.div_pos; lia.
Qed.
(** The same, for a byte and those after it. *)
Lemma put_lead t c l :
  at_boundary t -> 0xc2 <= c <= 0xf4 ->
  put_bytes (c :: l) t
  = put_bytes l (if c <=? 0xdf then decoding t 1 ((c - 0xC0) * 64)
                 else if c <=? 0xef then decoding t 2 ((c - 0xE0) * 4096)
                 else decoding t 3 ((c - 0xF0) * 262144)).
Proof. intros Ht Hc. cbn [put_bytes]. cbv [mbind M_bind]. by rewrite u8_small, putchar_lead by (done || lia). Qed.

Lemma put_mid t n x y l :
  at_boundary t -> 0 <= y < 64 -> 0 <= x < 2 ^ 21 ->
  let cp' := (x * 64 + y) * 2 ^ (6 * (n - 1)) in
  n = 2 /\ 0x800 <= cp' \/ n = 3 /\ 0x10000 <= cp' <= 0x10ffff ->
  put_bytes (0x80 + y :: l) (decoding t n (x * 2 ^ (6 * n))) = put_bytes l (decoding t (n - 1) cp').
Proof.
  intros Ht Hy Hx cp' Hn. cbn [put_bytes]. cbv [mbind M_bind].
  rewrite u8_small, putchar_continue by (try done; lia). fold cp'.
  by rewrite (proj2 (Z.eqb_neq n 1)) by lia.
Qed.

Lemma put_last t x y :
  at_boundary t -> 0 <= y < 64 -> 0 <= x < 2 ^ 21 -> ~ (0xd800 <= x * 64 + y <= 0xdfff) ->
  put_bytes [0x80 + y] (decoding t 1 (x * 64)) = print_code_point (x * 64 + y) (decoding t 0 (x * 64 + y)).
Proof.
  intros Ht Hy Hx Hs. cbn [put_bytes]. cbv [mbind M_bind]. change 64 with (2 ^ (6 * 1)) at 1.
  rewrite u8_small, putchar_continue by (try done; lia). cbn [Z.eqb Pos.eqb].
  change (2 ^ (6 * (1 - 1))) with 1. rewrite Z.mul_1_r. change (1 - 1) with 0.
  by destruct (print_code_point _ _) as [[[] ?]|].
Qed.
End Utf8.

(** UTF-8 is decoded.  At a character boundary the bytes of a Unicode
    scalar value outside ASCII, whatever escape sequence is under way, have
    the effect of printing that code point: the decoder accumulates exactly
    its value, through the checks on overlong forms, surrogates and the
    range. *)
Theorem utf8_decoded {B} `{TermBackend B} (t : terminal B) (cp : Z) :
  at_boundary t -> scalar cp ->
  put_bytes (utf8_encode cp) t = print_code_point cp (decoding t 0 cp).
Proof.
  intros Ht Hs. destruct (utf8_bytes cp Hs) as (M0 & M1 & M2 & E0 & E1 & E2 & P).
  destruct Hs as [Hc Hsur]. unfold utf8_encode.
  set (a := cp mod 64) in *. set (b := cp / 64 mod 64) in *. set (c := cp / 4096 mod 64) in *.
  destruct (Z.ltb_spec cp 0x800); [|destruct (Z.ltb_spec cp 0x10000)].
  - rewrite put_lead by (done || lia). rewrite (proj2 (Z.leb_le _ 0xdf)) by lia.
    replace (0xC0 + cp / 64 - 0xC0) with (cp / 64) by lia.
    rewrite put_last by (done || lia). by rewrite <- E0.
  - rewrite put_lead by (done || lia). rewrite (proj2 (Z.leb_gt _ 0xdf)), (proj2 (Z.leb_le _ 0xef)) by lia.
    replace (0xE0 + cp / 4096 - 0xE0) with (cp / 4096) by lia. change (cp / 4096 * 4096) with (cp / 4096 * 2 ^ (6 * 2)).
    rewrite put_mid by (try done; change (2 ^ (6 * (2 - 1))) with 64; lia).
    change (2 ^ (6 * (2 - 1))) with 64. change (2 - 1) with 1. rewrite <- E1.
    rewrite put_last by (done || lia). by rewrite <- E0.
  - rewrite put_lead by (done || lia). rewrite (proj2 (Z.leb_gt _ 0xdf)), (proj2 (Z.leb_gt _ 0xef)) by lia.
    replace (0xF0 + cp / 262144 - 0xF0) with (cp / 262144) by lia. change (cp / 262144 * 262144) with (cp / 262144 * 2 ^ (6 * 3)).
    rewrite put_mid by (try done; change (2 ^ (6 * (3 - 1))) with 4096; lia).
    change (2 ^ (6 * (3 - 1))) with (2 ^ (6 * 2)). change (3 - 1) with 2. rewrite <- E2.
    rewrite put_mid by (try done; change (2 ^ (6 * (2 - 1))) with 64; lia).
    change (2 ^ (6 * (2 - 1))) with 64. change (2 - 1) with 1. rewrite <- E1.
    rewrite put_last by (done || lia). by rewrite <- E0.
Qed.
