(* ===== verification/FlantermFb.v ===== *)
(** * The terminal's screen: [extra/flanterm/flanterm_backends/fb.c]

    A grid of characters drawn on a framebuffer.  Changes are queued; a flush
    draws them.  The pixels are cells of 32 bits at addresses; an address
    that is not one of the framebuffer's is undefined behaviour ([None]), as
    is an index outside an array. *)
From S2P Require Import Prelude FlantermTables FlantermFont Flanterm.

Record flanterm_fb_char := FbChar { glyph : Z; fg : Z; bg : Z }.

#[global] Instance flanterm_fb_char_eq_dec : EqDecision flanterm_fb_char.
Proof. solve_decision. Defined.

Record flanterm_fb_queue_item := QueueItem { q_x : Z; q_y : Z; q_c : flanterm_fb_char }.

Inductive rotation_kind :=
  | FLANTERM_FB_ROTATE_0 | FLANTERM_FB_ROTATE_90 | FLANTERM_FB_ROTATE_180 | FLANTERM_FB_ROTATE_270.

(** What [plot_char] points to. *)
Inductive plot_kind :=
  | plot_char_scaled_canvas | plot_char_scaled_uncanvas
  | plot_char_unscaled_canvas | plot_char_unscaled_uncanvas.

(** The parts of the context that do not change after the initialisation. *)
Record fb_config := FbConfig {
  plot_char : plot_kind;
  flush_callback : bool;
  font_width : Z;
  font_height : Z;
  glyph_width : Z;
  glyph_height : Z;
  font_scale_x : Z;
  font_scale_y : Z;
  offset_x : Z;
  offset_y : Z;
  framebuffer : Z;
  pitch : Z;
  width : Z;
  height : Z;
  phys_height : Z;
  mask_sizes : Z * Z * Z;
  mask_shifts : Z * Z * Z;
  rotation : rotation_kind;
  font_bool : list bool;
  ansi_colours : list Z;
  ansi_bright_colours : list Z;
  default_fg : Z;
  default_bg : Z;
  default_fg_bright : Z;
  default_bg_bright : Z;
  canvas : option (list Z);
  (** sizes of the allocated blocks: font bits, font dots, grid, queue, map, canvas *)
  block_sizes : list Z;
}.

(** The static pool the terminal is allocated from when there is no heap. *)
Record bump_state := BumpState {
  bump_alloc_ptr : Z;
  bump_alloc_base_offset_added : bool;
  bump_allocated_instance : bool;
}.

Record flanterm_fb_context := FbContext {
  config : fb_config;
  grid : list flanterm_fb_char;
  queue : list flanterm_fb_queue_item;
  queue_i : Z;
  (** a pointer into the queue is the index there *)
  map : list (option Z);
  text_fg : Z;
  text_bg : Z;
  cursor_x : Z;
  cursor_y : Z;
  saved_state_text_fg : Z;
  saved_state_text_bg : Z;
  saved_state_cursor_x : Z;
  saved_state_cursor_y : Z;
  old_cursor_x : Z;
  old_cursor_y : Z;
  (** the pixels, by address *)
  vram : gmap Z Z;
  (** the calls of the flush callback: address and length *)
  flushes : list (Z * Z);
  bump : bump_state;
  (** the sizes given to [_free] *)
  frees : list Z;
}.

#[export] Instance eta_flanterm_fb_context : Settable flanterm_fb_context := fun c =>
  FbContext (config c) (grid c) (queue c) (queue_i c) (map c) (text_fg c) (text_bg c) (cursor_x c)
    (cursor_y c) (saved_state_text_fg c) (saved_state_text_bg c) (saved_state_cursor_x c)
    (saved_state_cursor_y c) (old_cursor_x c) (old_cursor_y c) (vram c) (flushes c)
    (bump c) (frees c).

Definition NO_COLOUR : Z := 0xffffffff.

Abbreviation MF := (M flanterm_fb_context).

(** ** Colours *)

(** C's shift of 32 bits, undefined outside 0..31. *)
Definition shl32 (x n : Z) : option Z :=
  if (0 <=? n) && (n <? 32) then Some (u32 (Z.shiftl x n)) else None.

(** The low bits of a channel of more than 8 bits. *)
Definition extend_channel (v size shift : Z) : option Z :=
  if 8 <? size then
    if 16 - size <? 0 then None else shl32 (Z.shiftr v (16 - size)) (shift - size + 8)
  else Some 0.

Definition convert_colour (cfg : fb_config) (colour : Z) : option Z :=
  let r := Z.land (Z.shiftr colour 16) 0xff in
  let g := Z.land (Z.shiftr colour 8) 0xff in
  let b := Z.land colour 0xff in
  let '(rsize, gsize, bsize) := mask_sizes cfg in
  let '(rshift, gshift, bshift) := mask_shifts cfg in
  r0 ← shl32 r rshift; g0 ← shl32 g gshift; b0 ← shl32 b bshift;
  r1 ← extend_channel r rsize rshift; g1 ← extend_channel g gsize gshift;
  b1 ← extend_channel b bsize bshift;
  Some (Z.lor (Z.lor (Z.lor (Z.lor (Z.lor r0 g0) b0) r1) g1) b1).

Definition flanterm_fb_save_state (_ : flanterm_context) : MF unit :=
  modify (fun c => c <| saved_state_text_fg := text_fg c |> <| saved_state_text_bg := text_bg c |>
    <| saved_state_cursor_x := cursor_x c |> <| saved_state_cursor_y := cursor_y c |>).
Definition flanterm_fb_restore_state (_ : flanterm_context) : MF unit :=
  modify (fun c => c <| text_fg := saved_state_text_fg c |> <| text_bg := saved_state_text_bg c |>
    <| cursor_x := saved_state_cursor_x c |> <| cursor_y := saved_state_cursor_y c |>).
Definition flanterm_fb_swap_palette (_ : flanterm_context) : MF unit :=
  modify (fun c => c <| text_bg := text_fg c |> <| text_fg := text_bg c |>).

Definition set_fg (v : Z) : MF unit := modify (fun c => c <| text_fg := v |>).
Definition set_bg (v : Z) : MF unit := modify (fun c => c <| text_bg := v |>).

Definition flanterm_fb_set_text_fg (_ : flanterm_context) (i : Z) : MF unit :=
  c ← gets config; v ← liftO (ansi_colours c !! Z.to_nat i); set_fg v.
Definition flanterm_fb_set_text_bg (_ : flanterm_context) (i : Z) : MF unit :=
  c ← gets config; v ← liftO (ansi_colours c !! Z.to_nat i); set_bg v.
Definition flanterm_fb_set_text_fg_bright (_ : flanterm_context) (i : Z) : MF unit :=
  c ← gets config; v ← liftO (ansi_bright_colours c !! Z.to_nat i); set_fg v.
Definition flanterm_fb_set_text_bg_bright (_ : flanterm_context) (i : Z) : MF unit :=
  c ← gets config; v ← liftO (ansi_bright_colours c !! Z.to_nat i); set_bg v.
Definition flanterm_fb_set_text_fg_rgb (_ : flanterm_context) (rgb : Z) : MF unit :=
  c ← gets config; v ← liftO (convert_colour c rgb); set_fg v.
Definition flanterm_fb_set_text_bg_rgb (_ : flanterm_context) (rgb : Z) : MF unit :=
  c ← gets config; v ← liftO (convert_colour c rgb); set_bg v.
Definition flanterm_fb_set_text_fg_default (_ : flanterm_context) : MF unit :=
  c ← gets config; set_fg (default_fg c).
Definition flanterm_fb_set_text_bg_default (_ : flanterm_context) : MF unit := set_bg NO_COLOUR.
Definition flanterm_fb_set_text_fg_default_bright (_ : flanterm_context) : MF unit :=
  c ← gets config; set_fg (default_fg_bright c).
Definition flanterm_fb_set_text_bg_default_bright (_ : flanterm_context) : MF unit :=
  c ← gets config; set_bg (default_bg_bright c).

(** ** Pixels *)

Definition store_pixel (addr v : Z) : MF unit :=
  m ← gets vram;
  match m !! addr with
  | Some _ => modify (fun c => c <| vram := <[addr := v]> (vram c) |>)
  | None => ub
  end.

(** The address of the first pixel, and the steps from line to line and from
    pixel to pixel, in pixels; the steps are [int]s. *)
Definition plot_start (cfg : fb_config) (x y : Z) : Z * Z * Z :=
  let p4 := pitch cfg / 4 in
  let at_ i := framebuffer cfg + 4 * i in
  match rotation cfg with
  | FLANTERM_FB_ROTATE_0 => (at_ (x + y * p4), s32 p4, 1)
  | FLANTERM_FB_ROTATE_90 => (at_ ((height cfg - 1 - y) + x * p4), -1, s32 p4)
  | FLANTERM_FB_ROTATE_180 =>
      (at_ ((width cfg - 1 - x) + (height cfg - 1 - y) * p4), s32 (- p4), -1)
  | FLANTERM_FB_ROTATE_270 => (at_ (y + (width cfg - 1 - x) * p4), 1, s32 (- p4))
  end.

(** The loops over the pixels of a character: [gx] and [gy] are coordinates
    in the drawn glyph, [colours gx gy] what to draw where the font has a
    dot and where it has none; [line gy] is the line of the font. *)
Definition plot_dots (cfg : fb_config) (ch x y scale_x : Z) (line : Z -> option Z)
    (colours : Z -> Z -> option (Z * Z)) : MF unit :=
  let '(dest, outer_stride, inner_stride) := plot_start cfg x y in
  let glyph := ch * font_height cfg * font_width cfg in
  for_range 0 (glyph_height cfg) (fun gy =>
    fy ← liftO (line gy);
    for_range 0 (font_width cfg) (fun fx =>
      dot ← liftO (font_bool cfg !! Z.to_nat (glyph + fy * font_width cfg + fx));
      for_range 0 scale_x (fun i =>
        let gx := scale_x * fx + i in
        '(fgc, bgc) ← liftO (colours gx gy);
        store_pixel (dest + 4 * (gy * outer_stride + gx * inner_stride)) (if (dot : bool) then fgc else bgc)))).

(** [uint8_t fy = gy / ctx->font_scale_y], where the font is scaled. *)
Definition scaled_line (scale_y gy : Z) : option Z :=
  if scale_y =? 0 then None else Some (u8 (gy / scale_y)).

(** A colour that is not set shows the canvas. *)
Definition canvas_colours (cfg : fb_config) (c : flanterm_fb_char) (x y gx gy : Z) : option (Z * Z) :=
  pixels ← canvas cfg;
  v ← pixels !! Z.to_nat (x + (y + gy) * width cfg + gx);
  Some (if fg c =? NO_COLOUR then v else fg c, if bg c =? NO_COLOUR then v else bg c).

Definition plain_colours (cfg : fb_config) (c : flanterm_fb_char) (_ _ : Z) : option (Z * Z) :=
  Some (if fg c =? NO_COLOUR then default_bg cfg else fg c,
        if bg c =? NO_COLOUR then default_bg cfg else bg c).

(** The four functions [plot_char] can point to. *)
Definition plot (ctx : flanterm_context) (c : flanterm_fb_char) (x y : Z) : MF unit :=
  cfg ← gets config;
  if (cols ctx <=? x) || (rows ctx <=? y) then mret tt else
  let x := u64 (offset_x cfg + x * glyph_width cfg) in
  let y := u64 (offset_y cfg + y * glyph_height cfg) in
  match plot_char cfg with
  | plot_char_scaled_canvas =>
      plot_dots cfg (glyph c) x y (font_scale_x cfg) (scaled_line (font_scale_y cfg)) (canvas_colours cfg c x y)
  | plot_char_scaled_uncanvas =>
      plot_dots cfg (glyph c) x y (font_scale_x cfg) (scaled_line (font_scale_y cfg)) (plain_colours cfg c)
  | plot_char_unscaled_canvas => plot_dots cfg (glyph c) x y 1 Some (canvas_colours cfg c x y)
  | plot_char_unscaled_uncanvas => plot_dots cfg (glyph c) x y 1 Some (plain_colours cfg c)
  end.

(** ** The queue *)

Definition compare_char (a b : flanterm_fb_char) : bool :=
  negb (negb (glyph a =? glyph b) || negb (bg a =? bg b) || negb (fg a =? fg b)).

Definition set_item (i : Z) (q : flanterm_fb_queue_item) : MF unit :=
  l ← gets queue;
  if i <? Z.of_nat (length l) then modify (fun c => c <| queue := <[Z.to_nat i := q]> l |>) else ub.

Definition push_to_queue (ctx : flanterm_context) (c : flanterm_fb_char) (x y : Z) : MF unit :=
  if (cols ctx <=? x) || (rows ctx <=? y) then mret tt else
  let i := u64 (y * cols ctx + x) in
  m ← gets map;
  q ← liftO (m !! Z.to_nat i);
  match q with
  | None =>
      g ← gets grid;
      old ← liftO (g !! Z.to_nat i);
      if compare_char old c then mret tt else
      n ← gets queue_i;
      if n =? u64 (rows ctx * cols ctx) then mret tt else
      _ ← set_item n (QueueItem x y c);
      modify (fun s => s <| queue_i := n + 1 |> <| map := <[Z.to_nat i := Some n]> m |>)
  | Some k =>
      l ← gets queue; it ← liftO (l !! Z.to_nat k);
      set_item k (QueueItem (q_x it) (q_y it) c)
  end.

(** The character of a cell: queued, or drawn. *)
Definition cell_at (i : Z) : MF flanterm_fb_char :=
  m ← gets map; g ← gets grid; l ← gets queue;
  q ← liftO (m !! Z.to_nat i);
  match q with
  | Some k => it ← liftO (l !! Z.to_nat k); mret (q_c it)
  | None => liftO (g !! Z.to_nat i)
  end.

Definition empty_char : MF flanterm_fb_char := f ← gets text_fg; b ← gets text_bg; mret (FbChar 32 f b).

(** [for (i = end; i > start; ) { i--; ... }] *)
Fixpoint revscroll_loop (n : nat) (ctx : flanterm_context) (i : Z) : MF unit :=
  match n with
  | O => mret tt
  | S n' =>
      let i := i - 1 in
      c ← cell_at i;
      if cols ctx =? 0 then ub else
      _ ← push_to_queue ctx c (u64 (i + cols ctx) mod cols ctx) (u64 (i + cols ctx) / cols ctx);
      revscroll_loop n' ctx i
  end.

Definition flanterm_fb_revscroll (ctx : flanterm_context) : MF unit :=
  let start := scroll_top_margin ctx * cols ctx in
  let end_ := u64 (scroll_bottom_margin ctx - 1) * cols ctx in
  _ ← revscroll_loop (iters start end_) ctx end_;
  empty ← empty_char;
  for_range 0 (cols ctx) (fun i => push_to_queue ctx empty i (scroll_top_margin ctx)).

Definition flanterm_fb_scroll (ctx : flanterm_context) : MF unit :=
  _ ← for_range ((scroll_top_margin ctx + 1) * cols ctx) (scroll_bottom_margin ctx * cols ctx) (fun i =>
        c ← cell_at i;
        if cols ctx =? 0 then ub else
        push_to_queue ctx c (u64 (i - cols ctx) mod cols ctx) (u64 (i - cols ctx) / cols ctx));
  empty ← empty_char;
  for_range 0 (cols ctx) (fun i => push_to_queue ctx empty i (u64 (scroll_bottom_margin ctx - 1))).

Definition flanterm_fb_clear (ctx : flanterm_context) (move : bool) : MF unit :=
  empty ← empty_char;
  _ ← for_range 0 (rows ctx * cols ctx) (fun i =>
        if cols ctx =? 0 then ub else push_to_queue ctx empty (i mod cols ctx) (i / cols ctx));
  if move then modify (fun c => c <| cursor_x := 0 |> <| cursor_y := 0 |>) else mret tt.

(** ** The cursor *)

Definition SIZE_MAX : Z := 18446744073709551615.

Definition clamp (v limit : Z) : Z :=
  if limit <=? v then (if SIZE_MAX / 2 <? v then 0 else u64 (limit - 1)) else v.

Definition flanterm_fb_set_cursor_pos (ctx : flanterm_context) (x y : Z) : MF unit :=
  modify (fun c => c <| cursor_x := clamp x (cols ctx) |> <| cursor_y := clamp y (rows ctx) |>).

Definition flanterm_fb_get_cursor_pos (ctx : flanterm_context) : MF (Z * Z) :=
  x ← gets cursor_x; y ← gets cursor_y;
  mret (if cols ctx <=? x then u64 (cols ctx - 1) else x, if rows ctx <=? y then u64 (rows ctx - 1) else y).

Definition flanterm_fb_move_character (ctx : flanterm_context) (new_x new_y old_x old_y : Z) : MF unit :=
  if (cols ctx <=? old_x) || (rows ctx <=? old_y) || (cols ctx <=? new_x) || (rows ctx <=? new_y)
  then mret tt
  else c ← cell_at (old_x + old_y * cols ctx); push_to_queue ctx c new_x new_y.

Definition flanterm_fb_raw_putchar (ctx : flanterm_context) (c : Z) : MF unit :=
  x ← gets cursor_x; y ← gets cursor_y;
  _ ← (if cols ctx <=? x then
         if wrap_enabled ctx && ((y <? u64 (scroll_bottom_margin ctx - 1)) || scroll_enabled ctx) then
           let y := u64 (y + 1) in
           let at_end := y =? scroll_bottom_margin ctx in
           let y := if at_end then u64 (y - 1) else y in
           _ ← modify (fun s => s <| cursor_x := 0 |> <| cursor_y := y |>);
           _ ← (if at_end then flanterm_fb_scroll ctx else mret tt);
           if rows ctx <=? y then modify (fun s => s <| cursor_y := u64 (rows ctx - 1) |>) else mret tt
         else modify (fun s => s <| cursor_x := u64 (cols ctx - 1) |>)
       else mret tt);
  f ← gets text_fg; b ← gets text_bg; x ← gets cursor_x; y ← gets cursor_y;
  _ ← modify (fun s => s <| cursor_x := u64 (x + 1) |>);
  push_to_queue ctx (FbChar c f b) x y.

(** ** Drawing *)

(** A cell drawn as [c], no longer queued. *)
Definition settle (i : Z) (c : flanterm_fb_char) : MF unit :=
  g ← gets grid; m ← gets map;
  if (i <? Z.of_nat (length g)) && (i <? Z.of_nat (length m))
  then modify (fun s => s <| grid := <[Z.to_nat i := c]> g |> <| map := <[Z.to_nat i := None]> m |>)
  else ub.

Definition draw_cursor (ctx : flanterm_context) : MF unit :=
  x ← gets cursor_x; y ← gets cursor_y;
  if (cols ctx <=? x) || (rows ctx <=? y) then mret tt else
  let i := x + y * cols ctx in
  m ← gets map;
  q ← liftO (m !! Z.to_nat i);
  c ← cell_at i;
  _ ← plot ctx (FbChar (glyph c) (bg c) (fg c)) x y;
  match (q : option Z) with Some _ => settle i c | None => mret tt end.

Definition flush_item (ctx : flanterm_context) (k : Z) : MF unit :=
  l ← gets queue; m ← gets map;
  q ← liftO (l !! Z.to_nat k);
  let offset := q_y q * cols ctx + q_x q in
  e ← liftO (m !! Z.to_nat offset);
  match (e : option Z) with
  | None => mret tt
  | Some _ => _ ← plot ctx (q_c q) (q_x q) (q_y q); settle offset (q_c q)
  end.

Definition call_flush : MF unit :=
  cfg ← gets config;
  if flush_callback cfg
  then modify (fun s => s <| flushes := flushes s ++ [(framebuffer cfg, u64 (pitch cfg * phys_height cfg))] |>)
  else mret tt.

(** The cursor's old cell drawn again. *)
Definition erase_cursor (ctx : flanterm_context) : MF unit :=
  x ← gets cursor_x; y ← gets cursor_y; ox ← gets old_cursor_x; oy ← gets old_cursor_y;
  if negb (ox =? x) || negb (oy =? y) || negb (cursor_enabled ctx) then
    if (ox <? cols ctx) && (oy <? rows ctx) then
      g ← gets grid;
      c ← liftO (g !! Z.to_nat (ox + oy * cols ctx));
      plot ctx c ox oy
    else mret tt
  else mret tt.

Definition flanterm_fb_double_buffer_flush (ctx : flanterm_context) : MF unit :=
  _ ← (if cursor_enabled ctx then draw_cursor ctx else mret tt);
  n ← gets queue_i;
  _ ← for_range 0 n (flush_item ctx);
  _ ← erase_cursor ctx;
  _ ← modify (fun s => s <| old_cursor_x := cursor_x s |> <| old_cursor_y := cursor_y s |> <| queue_i := 0 |>);
  call_flush.

(** A pixel of the background. *)
Definition refresh_pixel (cfg : fb_config) (x y : Z) : MF unit :=
  let '(px, py) :=
    match rotation cfg with
    | FLANTERM_FB_ROTATE_0 => (x, y)
    | FLANTERM_FB_ROTATE_90 => (height cfg - 1 - y, x)
    | FLANTERM_FB_ROTATE_180 => (width cfg - 1 - x, height cfg - 1 - y)
    | FLANTERM_FB_ROTATE_270 => (y, width cfg - 1 - x)
    end in
  v ← liftO (match canvas cfg with
             | Some pixels => pixels !! Z.to_nat (y * width cfg + x)
             | None => Some (default_bg cfg)
             end);
  store_pixel (framebuffer cfg + 4 * (py * (pitch cfg / 4) + px)) v.

Definition flanterm_fb_full_refresh (ctx : flanterm_context) : MF unit :=
  cfg ← gets config;
  _ ← for_range 0 (height cfg) (fun y => for_range 0 (width cfg) (fun x => refresh_pixel cfg x y));
  _ ← for_range 0 (rows ctx * cols ctx) (fun i =>
        if cols ctx =? 0 then ub else
        g ← gets grid; c ← liftO (g !! Z.to_nat i); plot ctx c (i mod cols ctx) (i / cols ctx));
  _ ← (if cursor_enabled ctx then draw_cursor ctx else mret tt);
  call_flush.

(** ** The end *)

Definition SIZEOF_FB_CONTEXT : Z := 1112.
Definition SIZEOF_FB_CHAR : Z := 12.
Definition SIZEOF_QUEUE_ITEM : Z := 32.
Definition SIZEOF_POINTER : Z := 8.

Definition bump_reset (b : bump_state) : bump_state :=
  if bump_allocated_instance b then BumpState 0 false false else b.

Definition flanterm_fb_deinit (_ : flanterm_context) (free : bool) : MF unit :=
  if negb free then modify (fun s => s <| bump := bump_reset (bump s) |>)
  else modify (fun s => s <| frees := frees s ++ block_sizes (config s) ++ [SIZEOF_FB_CONTEXT] |>).

(** The functions the context points to; the client's callback is not part of
    the backend. *)
#[export] Instance fb_backend : TermBackend flanterm_fb_context := {
  raw_putchar := flanterm_fb_raw_putchar;
  clear_screen := flanterm_fb_clear;
  set_cursor_pos := flanterm_fb_set_cursor_pos;
  get_cursor_pos := flanterm_fb_get_cursor_pos;
  set_text_fg := flanterm_fb_set_text_fg;
  set_text_bg := flanterm_fb_set_text_bg;
  set_text_fg_bright := flanterm_fb_set_text_fg_bright;
  set_text_bg_bright := flanterm_fb_set_text_bg_bright;
  set_text_fg_rgb := flanterm_fb_set_text_fg_rgb;
  set_text_bg_rgb := flanterm_fb_set_text_bg_rgb;
  set_text_fg_default := flanterm_fb_set_text_fg_default;
  set_text_bg_default := flanterm_fb_set_text_bg_default;
  set_text_fg_default_bright := flanterm_fb_set_text_fg_default_bright;
  set_text_bg_default_bright := flanterm_fb_set_text_bg_default_bright;
  move_character := flanterm_fb_move_character;
  scroll := flanterm_fb_scroll;
  revscroll := flanterm_fb_revscroll;
  swap_palette := flanterm_fb_swap_palette;
  backend_save_state := flanterm_fb_save_state;
  backend_restore_state := flanterm_fb_restore_state;
  double_buffer_flush := flanterm_fb_double_buffer_flush;
  backend_full_refresh := flanterm_fb_full_refresh;
  backend_deinit := flanterm_fb_deinit;
  client_callback _ _ := mret tt;
}.

(** ** Initialisation *)

Definition FLANTERM_FB_BUMP_ALLOC_POOL_SIZE : Z := 873000.
Definition FLANTERM_FB_WIDTH_LIMIT : Z := 1920.
Definition FLANTERM_FB_HEIGHT_LIMIT : Z := 1200.
Definition FLANTERM_FB_FONT_GLYPHS : Z := 256.

(** An allocation of [s] bytes from the pool, which lies at [pool]. *)
Definition bump_alloc (pool s : Z) (b : bump_state) : bool * bump_state :=
  let ptr := if negb (bump_alloc_base_offset_added b) && truthy (Z.land pool 0xf)
             then bump_alloc_ptr b + (0x10 - Z.land pool 0xf) else bump_alloc_ptr b in
  let s := if truthy (Z.land s 0xf) then Z.ldiff (u64 (s + 0x10)) 0xf else s in
  let next_ptr := u64 (ptr + s) in
  if FLANTERM_FB_BUMP_ALLOC_POOL_SIZE <? next_ptr
  then (false, BumpState ptr true (bump_allocated_instance b))
  else (true, BumpState next_ptr true (bump_allocated_instance b)).

(** The client's [_malloc], by the number of the call and the size, and
    whether there is a [_free]; or the pool. *)
Inductive allocator := POOL (pool : Z) | MALLOC (succeeds : nat -> Z -> bool) (free : bool).

Definition allocate (a : allocator) (n : nat) (s : Z) (b : bump_state) : bool * bump_state :=
  match a with POOL pool => bump_alloc pool s b | MALLOC ok _ => (ok n s, b) end.

(** The allocations in order, up to the first that fails; [got] are the
    sizes of the blocks allocated, the last one first. *)
Fixpoint allocate_all (a : allocator) (n : nat) (sizes : list Z) (got : list Z) (b : bump_state)
    : bool * list Z * bump_state :=
  match sizes with
  | [] => (true, got, b)
  | s :: sizes' =>
      let '(ok, b) := allocate a n s b in
      if ok then allocate_all a (S n) sizes' (s :: got) b else (false, got, b)
  end.

(** A dot of the font: 8 dots a line; further columns are empty, or repeat
    the last one for the line-drawing characters. *)
Definition font_dot (bits : list Z) (font_height i y x : Z) : option bool :=
  line ← bits !! Z.to_nat (i * font_height + y);
  Some (if x <? 8 then truthy (Z.land line (Z.shiftr 0x80 x))
        else if (0xc0 <=? i) && (i <=? 0xdf) then truthy (Z.land line 1) else false).

Definition zseq (n : Z) : list Z := Z.of_nat <$> seq 0 (Z.to_nat n).

Definition font_dots (bits : list Z) (font_height font_width : Z) : option (list bool) :=
  mapM (fun '(i, y, x) => font_dot bits font_height i y x)
    (i ← zseq FLANTERM_FB_FONT_GLYPHS; y ← zseq font_height; x ← zseq font_width; [(i, y, x)]).

Definition default_colours : list Z :=
  [0x000000; 0xaa0000; 0x00aa00; 0xaa5500; 0x0000aa; 0xaa00aa; 0x00aaaa; 0xaaaaaa].
Definition default_bright_colours : list Z :=
  [0x555555; 0xff5555; 0x55ff55; 0xffff55; 0x5555ff; 0xff55ff; 0x55ffff; 0xffffff].

(** The arguments of [flanterm_fb_init]. *)
Record init_args := InitArgs {
  arg_framebuffer : Z; arg_width : Z; arg_height : Z; arg_pitch : Z;
  arg_mask_sizes : Z * Z * Z; arg_mask_shifts : Z * Z * Z;
  arg_canvas : option (list Z);
  arg_ansi_colours : option (list Z); arg_ansi_bright_colours : option (list Z);
  arg_default_bg : option Z; arg_default_fg : option Z;
  arg_default_bg_bright : option Z; arg_default_fg_bright : option Z;
  arg_font : option (list Z); arg_font_width : Z; arg_font_height : Z; arg_font_spacing : Z;
  arg_font_scale_x : Z; arg_font_scale_y : Z; arg_margin : Z; arg_rotation : rotation_kind;
}.

Definition sideways (r : rotation_kind) : bool :=
  match r with FLANTERM_FB_ROTATE_90 | FLANTERM_FB_ROTATE_270 => true | _ => false end.

Definition default_scale (width height : Z) : Z :=
  if (5120 <=? width) && (2880 <=? height) then 4
  else if (2560 <=? width) && (1440 <=? height) then 2 else 1.

(** The framebuffer, width, height and physical height the terminal uses;
    the pool limits the size, and the terminal is then centred. *)
Definition fb_area (a : init_args) (pool : bool) : Z * Z * Z * Z :=
  let side := sideways (arg_rotation a) in
  let width := if side then arg_height a else arg_width a in
  let height := if side then arg_width a else arg_height a in
  if pool && ((FLANTERM_FB_WIDTH_LIMIT <? width) || (FLANTERM_FB_HEIGHT_LIMIT <? height)) then
    let wl := Z.min width FLANTERM_FB_WIDTH_LIMIT in
    let hl := Z.min height FLANTERM_FB_HEIGHT_LIMIT in
    let dx := u64 (width / 2 - wl / 2) in
    let dy := u64 (height / 2 - hl / 2) in
    let delta := if side then u64 (dy * 4 + dx * arg_pitch a) else u64 (dy * arg_pitch a + dx * 4) in
    (u64 (arg_framebuffer a + delta), wl, hl, if side then wl else hl)
  else (arg_framebuffer a, width, height, arg_height a).

Definition shift_up (sizes shifts : Z * Z * Z) : Z * Z * Z :=
  let '(a, b, c) := sizes in
  let '(x, y, z) := shifts in (u8 (x + (a - 8)), u8 (y + (b - 8)), u8 (z + (c - 8))).

(** [reinit] starts from memory set to 0. *)
Definition zero_context (rows cols : Z) : flanterm_context :=
  FlantermContext 0 false false false false false false false false false 0 (repeat 0 256) false false
    false false false false false false 0 0 0 [0; 0] 0 0 0 0 0 0 0 0 0 (repeat 0 16) 0 false false false
    false false false 0 [0; 0] 0 0 0 0 rows cols false.

(** The colours, converted; a pointer that is not given is the default. *)
Definition colour_table (cfg : fb_config) (given : option (list Z)) (dflt : list Z) : option (list Z) :=
  mapM (convert_colour cfg) (match given with Some l => take 8 l | None => dflt end).
Definition one_colour (cfg : fb_config) (given : option Z) (dflt : Z) : option Z :=
  convert_colour cfg (default dflt given).

(** The palette: the 8 colours, the 8 bright ones, background, foreground
    and their bright variants. *)
Record palette := Palette {
  p_ansi : list Z; p_bright : list Z; p_bg : Z; p_fg : Z;
  p_bg_bright : Z; p_fg_bright : Z;
}.

Definition init_palette (a : init_args) (cfg : fb_config) : option palette :=
  ansi ← colour_table cfg (arg_ansi_colours a) default_colours;
  bright ← colour_table cfg (arg_ansi_bright_colours a) default_bright_colours;
  bg ← match arg_default_bg a with Some v => convert_colour cfg v | None => Some 0 end;
  fg ← one_colour cfg (arg_default_fg a) 0xaaaaaa;
  bgb ← one_colour cfg (arg_default_bg_bright a) 0x555555;
  fgb ← one_colour cfg (arg_default_fg_bright a) 0xffffff;
  Some (Palette ansi bright bg fg bgb fgb).

(** The font: its width with the spacing, its height and its bits, copied
    from the client's or the built-in one. *)
Definition init_font (a : init_args) : option (Z * Z * list Z) :=
  match arg_font a with
  | Some bits =>
      let n := Z.to_nat (u64 (arg_font_height a * FLANTERM_FB_FONT_GLYPHS)) in
      if (length bits <? n)%nat then None
      else Some (u64 (arg_font_width a + arg_font_spacing a), arg_font_height a, take n bits)
  | None => Some (9, 16, builtin_font)
  end.

(** The colours of a configuration, before there is a palette. *)
Definition mask_config (a : init_args) : fb_config :=
  FbConfig plot_char_unscaled_uncanvas false 0 0 0 0 0 0 0 0 0 0 0 0 0 (arg_mask_sizes a)
    (shift_up (arg_mask_sizes a) (arg_mask_shifts a)) (arg_rotation a) [] [] [] 0 0 0 0 None [].

Definition plot_kind_of (scale_x scale_y : Z) (has_canvas : bool) : plot_kind :=
  if (scale_x =? 1) && (scale_y =? 1)
  then if has_canvas then plot_char_unscaled_canvas else plot_char_unscaled_uncanvas
  else if has_canvas then plot_char_scaled_canvas else plot_char_scaled_uncanvas.

Definition masks_ok (a : init_args) : bool :=
  let '(r, g, b) := arg_mask_sizes a in negb ((r <? 8) || negb (r =? g) || negb (r =? b)).

Definition is_pool (m : allocator) : bool := match m with POOL _ => true | _ => false end.

(** A failure after the context was allocated empties the pool, or gives the
    blocks back, the last one first. *)
Definition init_failed (m : allocator) (got : list Z) (b : bump_state) : bump_state * list Z :=
  match m with
  | POOL _ => (BumpState 0 false (bump_allocated_instance b), [])
  | MALLOC _ free => (b, if free then got else [])
  end.

(** The context of a screen of [rows] by [cols] cells, before it is drawn. *)
Definition new_context (cfg : fb_config) (rows cols : Z) (vram : gmap Z Z) (b : bump_state)
    : flanterm_fb_context :=
  let n := Z.to_nat (rows * cols) in
  let text_fg := default_fg cfg in
  FbContext cfg (repeat (FbChar 32 text_fg NO_COLOUR) n) (repeat (QueueItem 0 0 (FbChar 0 0 0)) n) 0
    (repeat None n) text_fg NO_COLOUR 0 0 text_fg NO_COLOUR 0 0 0 0 vram [] b [].

(** The terminal, or none; the pool, and the blocks given back. *)
Definition flanterm_fb_init (a : init_args) (m : allocator) (b : bump_state) (vram : gmap Z Z)
    : option (option (terminal flanterm_fb_context) * (bump_state * list Z)) :=
  let side := sideways (arg_rotation a) in
  let scale := default_scale (if side then arg_height a else arg_width a)
                             (if side then arg_width a else arg_height a) in
  let unset := (arg_font_scale_x a =? 0) || (arg_font_scale_y a =? 0) in
  let scale_x := if unset then scale else arg_font_scale_x a in
  let scale_y := if unset then scale else arg_font_scale_y a in
  if negb (masks_ok a) then Some (None, (b, []))
  else if is_pool m && bump_allocated_instance b then Some (None, (b, []))
  else
    let '(framebuffer, width, height, phys_height) := fb_area a (is_pool m) in
    let canvas := if is_pool m then None else arg_canvas a in
    let '(ok, b) := allocate m 0 SIZEOF_FB_CONTEXT b in
    if negb ok then Some (None, (b, [])) else
    p ← init_palette a (mask_config a);
    '(font_width, font_height, bits) ← init_font a;
    let font_bits_size := u64 (font_height * FLANTERM_FB_FONT_GLYPHS) in
    let font_bool_size := u64 (FLANTERM_FB_FONT_GLYPHS * font_height * font_width) in
    let '(ok, got, b) := allocate_all m 1 [font_bits_size; font_bool_size] [SIZEOF_FB_CONTEXT] b in
    if negb ok then Some (None, init_failed m got b) else
    dots ← font_dots bits font_height font_width;
    let glyph_width := u64 (font_width * scale_x) in
    let glyph_height := u64 (font_height * scale_y) in
    if (glyph_width =? 0) || (glyph_height =? 0) then None else
    let inner_w := u64 (width - arg_margin a * 2) in
    let inner_h := u64 (height - arg_margin a * 2) in
    let cols := inner_w / glyph_width in
    let rows := inner_h / glyph_height in
    let offset_x := u64 (arg_margin a + inner_w mod glyph_width / 2) in
    let offset_y := u64 (arg_margin a + inner_h mod glyph_height / 2) in
    let grid_size := u64 (rows * cols * SIZEOF_FB_CHAR) in
    let queue_size := u64 (rows * cols * SIZEOF_QUEUE_ITEM) in
    let map_size := u64 (rows * cols * SIZEOF_POINTER) in
    let canvas_sizes := match canvas with Some _ => [u64 (width * height * 4)] | None => [] end in
    let '(ok, got, b) := allocate_all m 3 ([grid_size; queue_size; map_size] ++ canvas_sizes) got b in
    if negb ok then Some (None, init_failed m got b) else
    pixels ← match canvas with
             | Some l => Some <$> mapM (convert_colour (mask_config a)) (take (Z.to_nat (width * height)) l)
             | None => Some None
             end;
    let cfg := FbConfig (plot_kind_of scale_x scale_y (match canvas with Some _ => true | None => false end))
      false font_width font_height glyph_width glyph_height scale_x scale_y offset_x offset_y
      framebuffer (arg_pitch a) width height phys_height (arg_mask_sizes a)
      (shift_up (arg_mask_sizes a) (arg_mask_shifts a)) (arg_rotation a) dots (p_ansi p) (p_bright p)
      (p_fg p) (p_bg p) (p_fg_bright p) (p_bg_bright p) pixels
      ([font_bits_size; font_bool_size; grid_size; queue_size; map_size] ++ canvas_sizes) in
    let b := if is_pool m
             then BumpState (bump_alloc_ptr b) (bump_alloc_base_offset_added b) true else b in
    let c := flanterm_context_reinit (zero_context rows cols) in
    '(_, s) ← flanterm_fb_full_refresh c (new_context cfg rows cols vram b);
    Some (Some (Terminal c s), (b, [])).

Definition flanterm_fb_set_flush_callback (set : bool) : MF unit :=
  modify (fun s => s <| config := let c := config s in
    FbConfig (plot_char c) set (font_width c) (font_height c) (glyph_width c) (glyph_height c)
      (font_scale_x c) (font_scale_y c) (offset_x c) (offset_y c) (framebuffer c) (pitch c) (width c)
      (height c) (phys_height c) (mask_sizes c) (mask_shifts c) (rotation c) (font_bool c)
      (ansi_colours c) (ansi_bright_colours c) (default_fg c) (default_bg c) (default_fg_bright c)
      (default_bg_bright c) (canvas c) (block_sizes c) |>).

(** ** The kernel's console: [klibc/cstdio.cpp] *)

(** The arguments [__cstdio_initialise_terminal] takes from the boot
    framebuffer; the mask sizes and shifts are bytes. *)
Definition console_args (address width height pitch : Z) (sizes shifts : Z * Z * Z) : init_args :=
  let '(rs, gs, bs) := sizes in
  let '(rh, gh, bh) := shifts in
  InitArgs address width height pitch (u8 rs, u8 gs, u8 bs) (u8 rh, u8 gh, u8 bh) None None None None
    None None None None 0 0 1 0 0 0 FLANTERM_FB_ROTATE_0.

Definition __cstdio_initialise_terminal (pool address width height pitch : Z)
    (sizes shifts : Z * Z * Z) (vram : gmap Z Z)
    : option (option (terminal flanterm_fb_context) * (bump_state * list Z)) :=
  flanterm_fb_init (console_args address width height pitch sizes shifts) (POOL pool)
    (BumpState 0 false false) vram.

(** [putchar]; a terminal that was not created is a null pointer. *)
Definition putchar (c : Z) (t : option (terminal flanterm_fb_context))
    : option (option (terminal flanterm_fb_context)) :=
  t ← t; '(_, t) ← flanterm_write [c] t; Some (Some t).
