(* ===== verification/FlantermFbSpec.v ===== *)
(** * The framebuffer terminal: theorems

    The queue, grid and map form one logical screen.  Each operation changes
    that screen as its name says and keeps the backend's contract, so the
    terminal is safe on it; a flush makes the pixels show it. *)
From S2P Require Import Prelude FlantermTables FlantermFont Flanterm FlantermSpec FlantermFb.

(** ** Pixels *)

(** The address of a pixel in the coordinates of the text. *)
Definition pixel_addr (cfg : fb_config) (X Y : Z) : Z :=
  let p4 := pitch cfg / 4 in
  let i := match rotation cfg with
           | FLANTERM_FB_ROTATE_0 => X + Y * p4
           | FLANTERM_FB_ROTATE_90 => (height cfg - 1 - Y) + X * p4
           | FLANTERM_FB_ROTATE_180 => (width cfg - 1 - X) + (height cfg - 1 - Y) * p4
           | FLANTERM_FB_ROTATE_270 => Y + (width cfg - 1 - X) * p4
           end in
  framebuffer cfg + 4 * i.

Definition scaled (cfg : fb_config) : bool :=
  match plot_char cfg with
  | plot_char_scaled_canvas | plot_char_scaled_uncanvas => true
  | _ => false
  end.
Definition on_canvas (cfg : fb_config) : bool :=
  match plot_char cfg with
  | plot_char_scaled_canvas | plot_char_unscaled_canvas => true
  | _ => false
  end.
Definition scale_x (cfg : fb_config) : Z := if scaled cfg then font_scale_x cfg else 1.
Definition scale_y (cfg : fb_config) : Z := if scaled cfg then font_scale_y cfg else 1.

(** A configuration that fits a screen of [r] rows and [w] columns on the
    framebuffer. *)
Record config_ok (r w : Z) (cfg : fb_config) : Prop := {
  ok_pitch : 0 <= pitch cfg / 4 < 2 ^ 31;
  ok_row : 0 <= (if sideways (rotation cfg) then height cfg else width cfg) <= pitch cfg / 4;
  ok_size : 0 <= width cfg < 2 ^ 31 /\ 0 <= height cfg < 2 ^ 31;
  ok_scales : 1 <= scale_x cfg /\ 1 <= scale_y cfg;
  ok_font : 1 <= font_width cfg /\ 1 <= font_height cfg <= 256;
  ok_dots : Z.of_nat (length (font_bool cfg)) = 256 * font_height cfg * font_width cfg;
  ok_glyph : glyph_width cfg = font_width cfg * scale_x cfg /\
             glyph_height cfg = font_height cfg * scale_y cfg;
  ok_offset : 0 <= offset_x cfg /\ 0 <= offset_y cfg;
  ok_fit : offset_x cfg + w * glyph_width cfg <= width cfg /\
           offset_y cfg + r * glyph_height cfg <= height cfg;
  ok_canvas : on_canvas cfg = true -> exists l, canvas cfg = Some l /\
                Z.of_nat (length l) = width cfg * height cfg;
  ok_ansi : length (ansi_colours cfg) = 8%nat /\ length (ansi_bright_colours cfg) = 8%nat;
  ok_convert : forall v, is_Some (convert_colour cfg v);
}.

(** The framebuffer has every pixel. *)
Definition vram_ok (cfg : fb_config) (m : gmap Z Z) : Prop :=
  forall X Y, 0 <= X < width cfg -> 0 <= Y < height cfg -> is_Some (m !! pixel_addr cfg X Y).

(** What a character shows at a pixel: the colour of its dot, or the canvas
    (else the default background) where the colour is not set. *)
Definition dot_at (cfg : fb_config) (ch gx gy : Z) : option bool :=
  font_bool cfg !! Z.to_nat (ch * font_height cfg * font_width cfg + gy / scale_y cfg * font_width cfg
                             + gx / scale_x cfg).

Definition pixel_of (cfg : fb_config) (c : flanterm_fb_char) (ox oy gx gy : Z) : option Z :=
  dot ← dot_at cfg (glyph c) gx gy;
  let v := if (dot : bool) then fg c else bg c in
  if v =? NO_COLOUR then
    if on_canvas cfg
    then pixels ← canvas cfg; pixels !! Z.to_nat ((ox + gx) + (oy + gy) * width cfg)
    else Some (default_bg cfg)
  else Some v.

(** The pixels of cell ([x], [y]) are those of character [c]. *)
Definition cell_x (cfg : fb_config) (x : Z) : Z := offset_x cfg + x * glyph_width cfg.
Definition cell_y (cfg : fb_config) (y : Z) : Z := offset_y cfg + y * glyph_height cfg.

Definition shows (cfg : fb_config) (m : gmap Z Z) (x y : Z) (c : flanterm_fb_char) : Prop :=
  forall gx gy, 0 <= gx < glyph_width cfg -> 0 <= gy < glyph_height cfg ->
    m !! pixel_addr cfg (cell_x cfg x + gx) (cell_y cfg y + gy)
    = pixel_of cfg c (cell_x cfg x) (cell_y cfg y) gx gy /\
    is_Some (pixel_of cfg c (cell_x cfg x) (cell_y cfg y) gx gy).

Section Geometry.
Context (r w : Z) (cfg : fb_config).
Hypothesis Hok : config_ok r w cfg.

Lemma pixel_addr_inj X Y X' Y' :
  0 <= X < width cfg -> 0 <= Y < height cfg -> 0 <= X' < width cfg -> 0 <= Y' < height cfg ->
  pixel_addr cfg X Y = pixel_addr cfg X' Y' -> X = X' /\ Y = Y'.
Proof.
  intros HX HY HX' HY' E. pose proof (ok_row _ _ _ Hok) as Hrow. unfold pixel_addr in E.
  cbv zeta in E. set (p4 := pitch cfg / 4) in *.
  assert (Hrc : forall a b a' b', 0 <= a < p4 -> 0 <= a' < p4 -> a + b * p4 = a' + b' * p4 -> a = a' /\ b = b').
  { intros a b a' b' Ha Ha' Heq. assert (b = b') by nia. subst b'. lia. }
  destruct (rotation cfg); cbn [sideways] in Hrow;
    apply Z.add_cancel_l, Z.mul_cancel_l in E; try lia; apply Hrc in E; lia.
Qed.

(** The running addresses of the loops are those of the pixels. *)
Lemma plot_start_addr x y gx gy :
  let '(dest, outer, inner) := plot_start cfg x y in
  dest + 4 * (gy * outer + gx * inner) = pixel_addr cfg (x + gx) (y + gy).
Proof.
  pose proof (ok_pitch _ _ _ Hok) as Hp. unfold plot_start, pixel_addr. cbv zeta.
  set (p4 := pitch cfg / 4) in *.
  assert (Hs : s32 p4 = p4).
  { unfold swrap. rewrite u32_small by lia. change (2 ^ (32 - 1)) with (2 ^ 31).
    by rewrite (proj2 (Z.ltb_lt _ _)) by lia. }
  assert (Hn : s32 (- p4) = - p4).
  { unfold swrap. change (2 ^ (32 - 1)) with (2 ^ 31). destruct (Z.eq_dec p4 0) as [->|]; [done|].
    assert (wrap 32 (- p4) = 2 ^ 32 - p4) as ->.
    { unfold wrap. rewrite Z.mod_opp_l_nz; rewrite ?Z.mod_small by lia; lia. }
    rewrite (proj2 (Z.ltb_ge _ _)) by lia. lia. }
  destruct (rotation cfg); rewrite ?Hs, ?Hn; nia.
Qed.

(** Cells lie apart on the screen. *)
Lemma cell_fits x y gx gy :
  0 <= x < w -> 0 <= y < r -> 0 <= gx < glyph_width cfg -> 0 <= gy < glyph_height cfg ->
  0 <= cell_x cfg x + gx < width cfg /\ 0 <= cell_y cfg y + gy < height cfg.
Proof.
  intros Hx Hy Hgx Hgy. destruct (ok_fit _ _ _ Hok). destruct (ok_offset _ _ _ Hok).
  unfold cell_x, cell_y. nia.
Qed.

Lemma cells_apart x y gx gy x' y' gx' gy' :
  0 <= x < w -> 0 <= y < r -> 0 <= gx < glyph_width cfg -> 0 <= gy < glyph_height cfg ->
  0 <= x' < w -> 0 <= y' < r -> 0 <= gx' < glyph_width cfg -> 0 <= gy' < glyph_height cfg ->
  pixel_addr cfg (cell_x cfg x + gx) (cell_y cfg y + gy)
  = pixel_addr cfg (cell_x cfg x' + gx') (cell_y cfg y' + gy') ->
  x = x' /\ y = y' /\ gx = gx' /\ gy = gy'.
Proof.
  intros Hx Hy Hgx Hgy Hx' Hy' Hgx' Hgy' E.
  destruct (cell_fits x y gx gy) as [F1 F2]; try done. destruct (cell_fits x' y' gx' gy') as [F3 F4]; try done.
  apply pixel_addr_inj in E as [E1 E2]; try done. unfold cell_x, cell_y in E1, E2.
  assert (x = x') by nia. subst x'. assert (y = y') by nia. subst y'. lia.
Qed.
End Geometry.

(** ** Painting

    [paints m D]: when the framebuffer has the pixels of [D], [m] returns
    with them drawn and nothing else changed. *)
Definition paints (m : MF unit) (D : gmap Z Z) : Prop :=
  forall s, (forall a, is_Some (D !! a) -> is_Some (vram s !! a)) ->
  m s = Some (tt, s <| vram := D ∪ vram s |>).

(** The pixels of a loop: later ones cover earlier ones. *)
Fixpoint pixels_n (n : nat) (i : Z) (f : Z -> gmap Z Z) : gmap Z Z :=
  match n with
  | O => ∅
  | S n' => pixels_n n' (i + 1) f ∪ f i
  end.
Definition pixels_range (a b : Z) (f : Z -> gmap Z Z) : gmap Z Z := pixels_n (iters a b) a f.

Lemma paints_store addr v : paints (store_pixel addr v) {[addr := v]}.
Proof.
  intros s Hs. unfold store_pixel. mstep. destruct (Hs addr) as [u ->]; [by rewrite lookup_singleton_eq|].
  by rewrite insert_union_singleton_l.
Qed.

Lemma paints_nothing : paints (mret tt) ∅.
Proof. intros s _. mstep. rewrite (left_id_L ∅ (∪)). by destruct s. Qed.

Lemma paints_then m1 m2 D1 D2 :
  paints m1 D1 -> paints m2 D2 -> paints (_ ← m1; m2) (D2 ∪ D1).
Proof.
  intros H1 H2 s Hs. mstep. rewrite H1.
  2: { intros a Ha. apply Hs. apply lookup_union_is_Some. by right. }
  rewrite H2.
  2: { intros a Ha. cbn. apply lookup_union_is_Some. right. apply Hs. apply lookup_union_is_Some. by left. }
  by rewrite <- (assoc_L (∪)).
Qed.

Lemma paints_range a b body f :
  (forall j, a <= j < b -> paints (body j) (f j)) -> paints (for_range a b body) (pixels_range a b f).
Proof.
  unfold for_range, pixels_range. intros H.
  assert (Hi : forall n i, (forall j, i <= j < i + Z.of_nat n -> paints (body j) (f j)) ->
    paints (for_n n i body) (pixels_n n i f)).
  { induction n as [|n IH]; intros i Hb; cbn [for_n pixels_n]; [apply paints_nothing|].
    apply paints_then; [apply Hb; lia|]. apply IH. intros j Hj. apply Hb. lia. }
  apply Hi. intros j Hj. apply H. unfold iters in Hj. lia.
Qed.

Lemma paints_ext m D D' : D = D' -> paints m D -> paints m D'.
Proof. by intros ->. Qed.

Lemma pixels_range_inv a b f p v :
  pixels_range a b f !! p = Some v -> exists j, a <= j < b /\ f j !! p = Some v.
Proof.
  unfold pixels_range. intros H.
  assert (Hi : forall n i, pixels_n n i f !! p = Some v -> exists j, i <= j < i + Z.of_nat n /\ f j !! p = Some v).
  { induction n as [|n IH]; intros i Hn; cbn [pixels_n] in Hn; [by rewrite lookup_empty in Hn|].
    apply lookup_union_Some_raw in Hn as [Hn|[_ Hn]].
    - destruct (IH _ Hn) as (j & Hj & E). exists j. split; [lia|done].
    - exists i. split; [lia|done]. }
  destruct (Hi _ _ H) as (j & Hj & E). exists j. split; [|done]. unfold iters in Hj. lia.
Qed.

Lemma pixels_range_some a b f p j :
  a <= j < b -> is_Some (f j !! p) -> is_Some (pixels_range a b f !! p).
Proof.
  unfold pixels_range. intros Hj Hs.
  assert (Hi : forall n i, i <= j < i + Z.of_nat n -> is_Some (pixels_n n i f !! p)).
  { induction n as [|n IH]; intros i Hn; [lia|]. cbn [pixels_n]. apply lookup_union_is_Some.
    destruct (decide (j = i)) as [->|]; [by right|left; apply IH; lia]. }
  apply Hi. unfold iters. lia.
Qed.

(** The pixels of a character. *)
Definition pixel_at (cfg : fb_config) (c : flanterm_fb_char) (ox oy gx gy : Z) : gmap Z Z :=
  match pixel_of cfg c ox oy gx gy with
  | Some v => {[pixel_addr cfg (ox + gx) (oy + gy) := v]}
  | None => ∅
  end.

Definition char_pixels (cfg : fb_config) (c : flanterm_fb_char) (ox oy : Z) : gmap Z Z :=
  pixels_range 0 (glyph_height cfg) (fun gy =>
    pixels_range 0 (font_width cfg) (fun fx =>
      pixels_range 0 (scale_x cfg) (fun i => pixel_at cfg c ox oy (scale_x cfg * fx + i) gy))).

(** The line of the font, of the scaled and the plain functions. *)
Definition line_of (cfg : fb_config) : Z -> option Z :=
  if scaled cfg then scaled_line (font_scale_y cfg) else Some.

Lemma line_of_spec r w cfg gy : config_ok r w cfg -> 0 <= gy < glyph_height cfg ->
  0 <= gy / scale_y cfg < font_height cfg /\ line_of cfg gy = Some (gy / scale_y cfg).
Proof.
  intros Hok Hgy. destruct (ok_scales _ _ _ Hok) as [Sx Sy]. destruct (ok_glyph _ _ _ Hok) as [Ew Eh].
  destruct (ok_font _ _ _ Hok) as [Fw Fh].
  assert (Hq : 0 <= gy / scale_y cfg < font_height cfg).
  { split; [apply Z.div_pos; lia|]. apply Z.div_lt_upper_bound; lia. }
  split; [done|]. unfold line_of, scaled_line. unfold scale_y in *. destruct (scaled cfg).
  - rewrite (proj2 (Z.eqb_neq _ 0)) by lia. by rewrite u8_small by lia.
  - by rewrite Z.div_1_r.
Qed.

Section Drawing.
Context (r w : Z) (cfg : fb_config).
Hypothesis Hok : config_ok r w cfg.

(** The font has every dot, and the canvas every pixel. *)
Lemma dot_some ch gx gy :
  0 <= ch < 256 -> 0 <= gx < glyph_width cfg -> 0 <= gy < glyph_height cfg -> is_Some (dot_at cfg ch gx gy).
Proof.
  intros Hch Hgx Hgy. unfold dot_at. apply lookup_lt_is_Some_2.
  destruct (ok_glyph _ _ _ Hok) as [Ew Eh]. destruct (ok_scales _ _ _ Hok) as [Sx Sy].
  destruct (ok_font _ _ _ Hok) as [Fw Fh]. pose proof (ok_dots _ _ _ Hok) as Hd.
  assert (0 <= gx / scale_x cfg < font_width cfg).
  { split; [apply Z.div_pos; lia|]. apply Z.div_lt_upper_bound; lia. }
  assert (0 <= gy / scale_y cfg < font_height cfg).
  { split; [apply Z.div_pos; lia|]. apply Z.div_lt_upper_bound; lia. }
  set (fx := gx / scale_x cfg) in *. set (fy := gy / scale_y cfg) in *.
  assert (fy * font_width cfg + fx < font_height cfg * font_width cfg) by nia.
  assert (ch * font_height cfg * font_width cfg <= 255 * (font_height cfg * font_width cfg)) by nia.
  assert (0 <= ch * font_height cfg * font_width cfg) by nia. nia.
Qed.

Lemma pixel_some c x y gx gy :
  0 <= glyph c < 256 -> 0 <= x < w -> 0 <= y < r ->
  0 <= gx < glyph_width cfg -> 0 <= gy < glyph_height cfg ->
  is_Some (pixel_of cfg c (cell_x cfg x) (cell_y cfg y) gx gy).
Proof.
  intros Hc Hx Hy Hgx Hgy. unfold pixel_of. destruct (dot_some (glyph c) gx gy) as [d ->]; try done.
  cbn [mbind option_bind]. destruct (_ =? NO_COLOUR); [|by eexists]. destruct (on_canvas cfg) eqn:Hcan; [|by eexists].
  destruct (ok_canvas _ _ _ Hok Hcan) as (l & -> & Hl). cbn [mbind option_bind].
  destruct (cell_fits r w cfg Hok x y gx gy) as [F1 F2]; try done. apply lookup_lt_is_Some_2.
  assert ((cell_y cfg y + gy) * width cfg + (cell_x cfg x + gx) < height cfg * width cfg) by nia.
  assert (0 <= (cell_y cfg y + gy) * width cfg) by nia. lia.
Qed.

(** One store of the loops. *)
Lemma paints_dot c x y fx i gy :
  0 <= glyph c < 256 -> 0 <= x < w -> 0 <= y < r ->
  0 <= gy < glyph_height cfg -> 0 <= fx < font_width cfg -> 0 <= i < scale_x cfg ->
  let gx := scale_x cfg * fx + i in
  let '(dest, outer, inner) := plot_start cfg (cell_x cfg x) (cell_y cfg y) in
  forall dot colours,
  font_bool cfg !! Z.to_nat (glyph c * font_height cfg * font_width cfg + gy / scale_y cfg * font_width cfg + fx)
    = Some dot ->
  (exists f b, colours gx gy = Some (f, b) /\
    pixel_of cfg c (cell_x cfg x) (cell_y cfg y) gx gy = Some (if (dot : bool) then f else b)) ->
  paints ('(fgc, bgc) ← liftO (colours gx gy);
          store_pixel (dest + 4 * (gy * outer + gx * inner)) (if dot then fgc else bgc))
         (pixel_at cfg c (cell_x cfg x) (cell_y cfg y) gx gy).
Proof.
  intros Hc Hx Hy Hgy Hfx Hi gx. pose proof (plot_start_addr r w cfg Hok (cell_x cfg x) (cell_y cfg y) gx gy) as Ha.
  destruct (plot_start cfg _ _) as [[dest outer] inner]. intros dot colours Hd (f & b & Hcol & Hp) s Hs.
  unfold pixel_at in Hs |- *. rewrite Hp in Hs |- *. mstep. rewrite Hcol, Ha.
  by apply paints_store.
Qed.

(** The colours the functions [plot_char_*] choose. *)
Definition colours_of (c : flanterm_fb_char) (ox oy : Z) : Z -> Z -> option (Z * Z) :=
  if on_canvas cfg then canvas_colours cfg c ox oy else plain_colours cfg c.

Lemma colours_of_pixel c ox oy gx gy dot :
  dot_at cfg (glyph c) gx gy = Some dot -> is_Some (pixel_of cfg c ox oy gx gy) ->
  (on_canvas cfg = true -> exists l v, canvas cfg = Some l /\
     l !! Z.to_nat ((ox + gx) + (oy + gy) * width cfg) = Some v) ->
  exists f b, colours_of c ox oy gx gy = Some (f, b) /\
    pixel_of cfg c ox oy gx gy = Some (if dot then f else b).
Proof.
  intros Hd _ Hcan. unfold colours_of, pixel_of. rewrite Hd. cbn [mbind option_bind].
  destruct (on_canvas cfg).
  - destruct (Hcan eq_refl) as (l & v & El & Ev). unfold canvas_colours. rewrite El. cbn [mbind option_bind].
    replace (ox + (oy + gy) * width cfg + gx) with (ox + gx + (oy + gy) * width cfg) by lia.
    rewrite Ev. cbn [mbind option_bind]. eexists _, _. split; [done|].
    destruct dot; by destruct (_ =? NO_COLOUR).
  - unfold plain_colours. eexists _, _. split; [done|]. destruct dot; by destruct (_ =? NO_COLOUR).
Qed.

Lemma canvas_some x y gx gy :
  0 <= x < w -> 0 <= y < r -> 0 <= gx < glyph_width cfg -> 0 <= gy < glyph_height cfg ->
  on_canvas cfg = true -> exists l v, canvas cfg = Some l /\
    l !! Z.to_nat ((cell_x cfg x + gx) + (cell_y cfg y + gy) * width cfg) = Some v.
Proof.
  intros Hx Hy Hgx Hgy Hcan. destruct (ok_canvas _ _ _ Hok Hcan) as (l & El & Hl).
  destruct (cell_fits r w cfg Hok x y gx gy) as [F1 F2]; try done.
  assert ((cell_y cfg y + gy) * width cfg + (cell_x cfg x + gx) < height cfg * width cfg) by nia.
  assert (0 <= (cell_y cfg y + gy) * width cfg) by nia.
  destruct (lookup_lt_is_Some_2 l (Z.to_nat (cell_x cfg x + gx + (cell_y cfg y + gy) * width cfg))) as [v Ev]; [lia|].
  by exists l, v.
Qed.

Lemma paints_plot_dots c x y :
  0 <= glyph c < 256 -> 0 <= x < w -> 0 <= y < r ->
  paints (plot_dots cfg (glyph c) (cell_x cfg x) (cell_y cfg y) (scale_x cfg) (line_of cfg)
            (colours_of c (cell_x cfg x) (cell_y cfg y)))
         (char_pixels cfg c (cell_x cfg x) (cell_y cfg y)).
Proof.
  intros Hc Hx Hy. destruct (ok_scales _ _ _ Hok) as [Sx Sy]. destruct (ok_glyph _ _ _ Hok) as [Ew Eh].
  destruct (ok_font _ _ _ Hok) as [Fw Fh]. unfold plot_dots, char_pixels.
  destruct (plot_start cfg _ _) as [[dest outer] inner] eqn:Est.
  apply paints_range. intros gy Hgy. destruct (line_of_spec r w cfg gy Hok Hgy) as [Hq ->].
  intros s Hs. mstep. revert s Hs. apply paints_range. intros fx Hfx.
  assert (Hgx : forall i, 0 <= i < scale_x cfg -> 0 <= scale_x cfg * fx + i < glyph_width cfg) by (intros; nia).
  assert (Hdiv : forall i, 0 <= i < scale_x cfg -> (scale_x cfg * fx + i) / scale_x cfg = fx).
  { intros i Hi. rewrite Z.mul_comm, Z.div_add_l, Z.div_small; lia. }
  destruct (dot_some (glyph c) (scale_x cfg * fx + 0) gy) as [dot Hd]; [done|apply Hgx; lia|done|].
  intros s Hs. pose proof Hd as Hd0. unfold dot_at in Hd0. rewrite Hdiv in Hd0 by lia.
  mstep. rewrite Hd0. revert s Hs. apply paints_range. intros i Hi.
  pose proof (paints_dot c x y fx i gy Hc Hx Hy Hgy Hfx Hi) as Hp. cbv zeta in Hp. rewrite Est in Hp.
  apply (Hp dot (colours_of c (cell_x cfg x) (cell_y cfg y)) Hd0). apply colours_of_pixel.
  - unfold dot_at. by rewrite Hdiv.
  - apply pixel_some; auto.
  - apply canvas_some; auto.
Qed.

(** [plot_char] draws the character's pixels in its cell. *)
Lemma plot_paints ctx c x y s :
  rows ctx = r -> cols ctx = w -> config s = cfg -> vram_ok cfg (vram s) ->
  0 <= glyph c < 256 -> 0 <= x < w -> 0 <= y < r ->
  plot ctx c x y s = Some (tt, s <| vram := char_pixels cfg c (cell_x cfg x) (cell_y cfg y) ∪ vram s |>).
Proof.
  intros Er Ew Ec Hv Hc Hx Hy. pose proof (paints_plot_dots c x y Hc Hx Hy s) as Hp.
  assert (Hin : forall a, is_Some (char_pixels cfg c (cell_x cfg x) (cell_y cfg y) !! a) -> is_Some (vram s !! a)).
  { intros a [v Ha]. apply pixels_range_inv in Ha as (gy & Hgy & Ha).
    apply pixels_range_inv in Ha as (fx & Hfx & Ha). apply pixels_range_inv in Ha as (i & Hi & Ha).
    unfold pixel_at in Ha. destruct (pixel_of _ _ _ _ _ _); [|by rewrite lookup_empty in Ha].
    apply lookup_singleton_Some in Ha as [<- _]. destruct (ok_glyph _ _ _ Hok) as [E1 E2].
    apply Hv; apply (cell_fits r w cfg Hok x y (scale_x cfg * fx + i) gy); try done; nia. }
  etrans; [|exact (Hp Hin)]. unfold plot. mstep. rewrite Er, Ew, Ec.
  rewrite (proj2 (Z.leb_gt w x)), (proj2 (Z.leb_gt r y)) by lia. cbn [orb].
  destruct (ok_fit _ _ _ Hok) as [F1 F2]. destruct (ok_offset _ _ _ Hok) as [O1 O2].
  destruct (ok_size _ _ _ Hok) as [S1 S2]. destruct (ok_glyph _ _ _ Hok) as [G1 G2].
  destruct (ok_scales _ _ _ Hok) as [Sx Sy]. destruct (ok_font _ _ _ Hok) as [Fw Fh].
  assert (0 <= cell_x cfg x < 2 ^ 31 /\ 0 <= cell_y cfg y < 2 ^ 31) as [Bx By] by (unfold cell_x, cell_y; nia).
  fold (cell_x cfg x). fold (cell_y cfg y).
  rewrite (u64_small (cell_x cfg x)), (u64_small (cell_y cfg y)) by lia.
  unfold colours_of, on_canvas, scale_x, line_of, scaled. by destruct (plot_char cfg).
Qed.

(** The drawn pixels are the character's, and no other cell's. *)
Lemma char_pixels_in c x y gx gy :
  0 <= glyph c < 256 -> 0 <= x < w -> 0 <= y < r ->
  0 <= gx < glyph_width cfg -> 0 <= gy < glyph_height cfg ->
  char_pixels cfg c (cell_x cfg x) (cell_y cfg y) !! pixel_addr cfg (cell_x cfg x + gx) (cell_y cfg y + gy)
  = pixel_of cfg c (cell_x cfg x) (cell_y cfg y) gx gy.
Proof.
  intros Hc Hx Hy Hgx Hgy. destruct (pixel_some c x y gx gy Hc Hx Hy Hgx Hgy) as [v Hv]. rewrite Hv.
  destruct (ok_scales _ _ _ Hok) as [Sx Sy]. destruct (ok_glyph _ _ _ Hok) as [Ew Eh].
  assert (Hs : is_Some (char_pixels cfg c (cell_x cfg x) (cell_y cfg y)
                        !! pixel_addr cfg (cell_x cfg x + gx) (cell_y cfg y + gy))).
  { pose proof (Z.div_mod gx (scale_x cfg)) as Dm. pose proof (Z.mod_pos_bound gx (scale_x cfg)) as Mb.
    apply pixels_range_some with gy; [done|]. apply pixels_range_some with (gx / scale_x cfg).
    { split; [apply Z.div_pos; lia|]. apply Z.div_lt_upper_bound; lia. }
    apply pixels_range_some with (gx mod scale_x cfg); [lia|].
    rewrite <- Dm by lia. unfold pixel_at. rewrite Hv. by rewrite lookup_singleton_eq. }
  destruct Hs as [v' Hv']. rewrite Hv'. unfold char_pixels in Hv'.
  apply pixels_range_inv in Hv' as (gy' & Hgy' & Ha).
  apply pixels_range_inv in Ha as (fx & Hfx & Ha). apply pixels_range_inv in Ha as (i & Hi & Ha).
  unfold pixel_at in Ha. destruct (pixel_of _ _ _ _ (scale_x cfg * fx + i) gy') as [v2|] eqn:E2; [|by rewrite lookup_empty in Ha].
  apply lookup_singleton_Some in Ha as [Ha ->]. symmetry in Ha.
  apply (cells_apart r w cfg Hok) in Ha as (_ & _ & -> & ->); try done; [congruence|nia].
Qed.

Lemma char_pixels_out c x y x' y' gx gy :
  0 <= x < w -> 0 <= y < r -> 0 <= x' < w -> 0 <= y' < r -> (x, y) <> (x', y') ->
  0 <= gx < glyph_width cfg -> 0 <= gy < glyph_height cfg ->
  char_pixels cfg c (cell_x cfg x) (cell_y cfg y) !! pixel_addr cfg (cell_x cfg x' + gx) (cell_y cfg y' + gy) = None.
Proof.
  intros Hx Hy Hx' Hy' Hne Hgx Hgy. destruct (_ !! _) as [v|] eqn:Hv; [|done]. exfalso. unfold char_pixels in Hv.
  apply pixels_range_inv in Hv as (gy' & Hgy' & Ha).
  apply pixels_range_inv in Ha as (fx & Hfx & Ha). apply pixels_range_inv in Ha as (i & Hi & Ha).
  destruct (ok_glyph _ _ _ Hok) as [Ew Eh]. destruct (ok_scales _ _ _ Hok) as [Sx Sy].
  unfold pixel_at in Ha. destruct (pixel_of _ _ _ _ _ _); [|by rewrite lookup_empty in Ha].
  apply lookup_singleton_Some in Ha as [Ha _].
  apply (cells_apart r w cfg Hok) in Ha as (-> & -> & _); try done. nia.
Qed.

(** Drawing a cell shows its character there, and leaves what the others show. *)
Lemma draw_shows c x y m :
  0 <= glyph c < 256 -> 0 <= x < w -> 0 <= y < r ->
  shows cfg (char_pixels cfg c (cell_x cfg x) (cell_y cfg y) ∪ m) x y c.
Proof.
  intros Hc Hx Hy gx gy Hgx Hgy. destruct (pixel_some c x y gx gy) as [v Hv]; try done.
  split; [|by rewrite Hv]. rewrite Hv. apply lookup_union_Some_l. rewrite <- Hv. by apply char_pixels_in.
Qed.

Lemma draw_leaves c x y x' y' c' m :
  0 <= x < w -> 0 <= y < r -> 0 <= x' < w -> 0 <= y' < r -> (x, y) <> (x', y') ->
  shows cfg m x' y' c' -> shows cfg (char_pixels cfg c (cell_x cfg x) (cell_y cfg y) ∪ m) x' y' c'.
Proof.
  intros Hx Hy Hx' Hy' Hne Hs gx gy Hgx Hgy. destruct (Hs gx gy Hgx Hgy) as [E1 E2]. split; [|done].
  rewrite lookup_union_r; [done|]. by apply char_pixels_out.
Qed.

Lemma draw_vram_ok D m : vram_ok cfg m -> vram_ok cfg (D ∪ m).
Proof. intros Hm X Y HX HY. apply lookup_union_is_Some. right. by apply Hm. Qed.
End Drawing.
