(* ===== verification/FlantermScreen.v ===== *)
(** * The framebuffer terminal: one logical screen

    The queue, the grid and the map form one logical screen.  Each operation
    of the backend changes that screen as its name says ([fb_refines]) and
    keeps the backend's contract, so the terminal is safe on it; a flush
    makes the pixels show the screen. *)
From S2P Require Import Prelude FlantermTables FlantermFont Flanterm FlantermSpec FlantermFb FlantermFbSpec.

Definition char_ok (c : flanterm_fb_char) : Prop := 0 <= glyph c < 256.

(** The character of a cell: the queued one, or the drawn one. *)
Definition content (s : flanterm_fb_context) (i : Z) : option flanterm_fb_char :=
  match map s !! Z.to_nat i with
  | Some (Some k) => q_c <$> queue s !! Z.to_nat k
  | Some None => grid s !! Z.to_nat i
  | None => None
  end.

Lemma cell_at_run s i c : content s i = Some c -> cell_at i s = Some (c, s).
Proof.
  unfold content, cell_at. mstep. destruct (map s !! Z.to_nat i) as [[k|]|]; intros E; [|by rewrite E|done].
  destruct (queue s !! Z.to_nat k); cbn in E; [|done]. by injection E as ->.
Qed.

(** What queueing leaves alone. *)
Definition rest (s : flanterm_fb_context) : flanterm_fb_context :=
  s <| queue := [] |> <| queue_i := 0 |> <| map := [] |>.

(** The cell of a queued item. *)
Definition item_cell (w : Z) (q : flanterm_fb_queue_item) : Z := q_y q * w + q_x q.

(** The first [n] items of the queue are pending, each for a cell of its
    own, and the map leads from the cell to the item. *)
Record queue_ok (r w : Z) (s : flanterm_fb_context) : Prop := {
  q_lengths : Z.of_nat (length (grid s)) = r * w /\ Z.of_nat (length (queue s)) = r * w /\
              Z.of_nat (length (map s)) = r * w;
  q_count : 0 <= queue_i s <= r * w;
  q_items : forall k, 0 <= k < queue_i s -> exists q, queue s !! Z.to_nat k = Some q /\
    0 <= q_x q < w /\ 0 <= q_y q < r /\ char_ok (q_c q) /\
    map s !! Z.to_nat (item_cell w q) = Some (Some k);
  q_map : forall i k, 0 <= i -> map s !! Z.to_nat i = Some (Some k) ->
    0 <= k < queue_i s /\ exists q, queue s !! Z.to_nat k = Some q /\ item_cell w q = i;
  q_grid : Forall char_ok (grid s);
}.

Record frame_ok (r w : Z) (s : flanterm_fb_context) : Prop := {
  f_config : config_ok r w (config s);
  f_vram : vram_ok (config s) (vram s);
  f_cursor : 0 <= cursor_x s <= w /\ 0 <= cursor_y s < r;
  f_saved : 0 <= saved_state_cursor_x s <= w /\ 0 <= saved_state_cursor_y s < r;
  f_old : 0 <= old_cursor_x s /\ 0 <= old_cursor_y s;
  (** the grid is what is drawn, but for the cell the cursor was drawn in *)
  f_drawn : forall x y c, 0 <= x < w -> 0 <= y < r -> (x, y) <> (old_cursor_x s, old_cursor_y s) ->
    grid s !! Z.to_nat (y * w + x) = Some c -> shows (config s) (vram s) x y c;
}.

Definition fb_ok (r w : Z) (s : flanterm_fb_context) : Prop := frame_ok r w s /\ queue_ok r w s.

Lemma frame_rest r w s s' : rest s' = rest s -> frame_ok r w s -> frame_ok r w s'.
Proof.
  intros E []. destruct s, s'. unfold rest in E. cbn in *. injection E as; subst.
  by constructor.
Qed.

(** Cells by index and by position. *)
Lemma cell_range r w x y : 0 <= x < w -> 0 <= y < r -> 0 <= y * w + x < r * w.
Proof. nia. Qed.

Lemma cell_inj w x y x' y' : 0 <= x < w -> 0 <= x' < w -> y * w + x = y' * w + x' -> x = x' /\ y = y'.
Proof. intros. assert (y = y') by nia. subst y'. lia. Qed.

(** Comparing the index of a cell with the start of a row. *)
Lemma row_ltb w x y b : 0 <= x < w -> (y * w + x <? b * w) = (y <? b).
Proof. intros Hx. destruct (Z.ltb_spec (y * w + x) (b * w)), (Z.ltb_spec y b); try done; nia. Qed.
Lemma row_leb w x y b : 0 <= x < w -> (b * w <=? y * w + x) = (b <=? y).
Proof. intros Hx. destruct (Z.leb_spec (b * w) (y * w + x)), (Z.leb_spec b y); try done; nia. Qed.

Lemma index_cell r w i : 0 < w -> 0 <= i < r * w ->
  0 <= i mod w < w /\ 0 <= i / w < r /\ i / w * w + i mod w = i.
Proof.
  intros Hw Hi. pose proof (Z.mod_pos_bound i w Hw). pose proof (Z.div_mod i w ltac:(lia)).
  split; [done|]. split; [|lia]. split; [apply Z.div_pos; lia|]. apply Z.div_lt_upper_bound; lia.
Qed.

Section Queue.
Context (r w : Z).
Hypothesis Hr : 1 <= r < 2 ^ 31.
Hypothesis Hw : 1 <= w < 2 ^ 31.

Lemma content_some s i : queue_ok r w s -> 0 <= i < r * w -> exists c, content s i = Some c /\ char_ok c.
Proof.
  intros Hs Hi. destruct (q_lengths _ _ _ Hs) as (Lg & Lq & Lm). unfold content.
  destruct (lookup_lt_is_Some_2 (map s) (Z.to_nat i)) as [[k|] E]; [lia| |]; rewrite E.
  - apply (q_map _ _ _ Hs) in E as [Hk _]; [|lia].
    destruct (q_items _ _ _ Hs k Hk) as (q & -> & _ & _ & Hq & _). by exists (q_c q).
  - destruct (lookup_lt_is_Some_2 (grid s) (Z.to_nat i)) as [c Ec]; [lia|]. exists c. split; [done|].
    by apply (Forall_lookup_1 _ _ _ _ (q_grid _ _ _ Hs) Ec).
Qed.

(** As long as a cell has no item of its own the queue has room. *)
Lemma queue_room s i : queue_ok r w s -> 0 <= i < r * w -> map s !! Z.to_nat i = Some None -> queue_i s < r * w.
Proof.
  intros Hs Hi Hm. pose proof (q_count _ _ _ Hs) as Hc. destruct (decide (queue_i s = r * w)) as [Hfull|]; [|lia].
  exfalso.
  set (cell k := default 0 (item_cell w <$> queue s !! Z.to_nat k)).
  assert (Hcell : forall k, 0 <= k < queue_i s -> 0 <= cell k < r * w /\ map s !! Z.to_nat (cell k) = Some (Some k)).
  { intros k Hk. destruct (q_items _ _ _ Hs k Hk) as (q & Eq & Hx & Hy & _ & Em). unfold cell. rewrite Eq.
    cbn. split; [|done]. unfold item_cell. by apply cell_range. }
  set (l := (fun k => Z.to_nat (cell (Z.of_nat k))) <$> seq 0 (Z.to_nat (queue_i s))).
  assert (Hnd : NoDup (Z.to_nat i :: l)).
  { apply NoDup_cons. split.
    - unfold l. intros Hin. apply list_elem_of_fmap in Hin as (k & Ek & Hk). apply elem_of_seq in Hk.
      destruct (Hcell (Z.of_nat k)) as [_ Em]; [lia|]. rewrite <- Ek in Em. congruence.
    - unfold l. apply NoDup_fmap_2_strong; [|apply NoDup_seq]. intros a b Ha Hb E.
      apply elem_of_seq in Ha, Hb. destruct (Hcell (Z.of_nat a)) as [_ Ea]; [lia|].
      destruct (Hcell (Z.of_nat b)) as [_ Eb]; [lia|]. rewrite E in Ea. rewrite Ea in Eb. injection Eb. lia. }
  assert (Hsub : Z.to_nat i :: l ⊆ seq 0 (Z.to_nat (r * w))).
  { intros a Ha. apply elem_of_seq. apply elem_of_cons in Ha as [->|Ha]; [lia|].
    apply list_elem_of_fmap in Ha as (k & -> & Hk). apply elem_of_seq in Hk.
    destruct (Hcell (Z.of_nat k)) as [Hr' _]; lia. }
  apply NoDup_submseteq in Hsub; [|done]. apply submseteq_length in Hsub. unfold l in Hsub.
  cbn [length] in Hsub. rewrite length_fmap, !length_seq in Hsub. lia.
Qed.

(** A cell's item gets another character. *)
Lemma requeue_ok s i k q c : queue_ok r w s -> 0 <= i < r * w -> char_ok c ->
  map s !! Z.to_nat i = Some (Some k) -> queue s !! Z.to_nat k = Some q ->
  let s' := s <| queue := <[Z.to_nat k := QueueItem (q_x q) (q_y q) c]> (queue s) |> in
  queue_ok r w s' /\ forall j, 0 <= j < r * w -> content s' j = if j =? i then Some c else content s j.
Proof.
  intros Hs Hi Hc Hm Hq s'. destruct (q_lengths _ _ _ Hs) as (Lg & Lq & Lm).
  destruct (q_map _ _ _ Hs i k) as (Hk & q' & Eq' & Ei); [lia|done|].
  rewrite Hq in Eq'. injection Eq' as <-.
  assert (Hlk : forall k', 0 <= k' -> queue s' !! Z.to_nat k' =
    if k' =? k then Some (QueueItem (q_x q) (q_y q) c) else queue s !! Z.to_nat k').
  { intros k' Hk'. cbn. destruct (Z.eqb_spec k' k) as [->|Hne].
    - apply list_lookup_insert_eq. pose proof (q_count _ _ _ Hs). lia.
    - apply list_lookup_insert_ne. lia. }
  split.
  - destruct Hs as [H1 H2 H3 H4 H5]. constructor; try done.
    + cbn. rewrite length_insert. done.
    + intros k' Hk'. rewrite Hlk by lia. destruct (H3 k' Hk') as (q1 & E1 & X1 & Y1 & C1 & M1).
      destruct (Z.eqb_spec k' k) as [->|]; [|by exists q1].
      rewrite Hq in E1. injection E1 as <-. eexists. split; [done|]. by cbn.
    + intros j k' Hj Hm'. destruct (H4 j k' Hj Hm') as (Hk' & q1 & E1 & I1). split; [done|].
      rewrite Hlk by lia. destruct (Z.eqb_spec k' k) as [->|]; [|by exists q1].
      rewrite Hq in E1. injection E1 as <-. eexists. split; [done|]. done.
  - intros j Hj. unfold content. change (map s') with (map s). change (grid s') with (grid s).
    destruct (Z.eqb_spec j i) as [->|Hne].
    + rewrite Hm, Hlk by lia. by rewrite Z.eqb_refl.
    + destruct (map s !! Z.to_nat j) as [[k'|]|] eqn:Hm'; [|done..].
      destruct (q_map _ _ _ Hs j k') as (Hk' & q1 & E1 & I1); [lia|done|]. rewrite Hlk by lia.
      destruct (Z.eqb_spec k' k) as [->|]; [|done]. rewrite Hq in E1. injection E1 as <-. lia.
Qed.

(** A cell without an item gets one. *)
Lemma enqueue_ok s x y c : queue_ok r w s -> 0 <= x < w -> 0 <= y < r -> char_ok c ->
  map s !! Z.to_nat (y * w + x) = Some None ->
  let n := queue_i s in
  let s' := s <| queue := <[Z.to_nat n := QueueItem x y c]> (queue s) |> <| queue_i := n + 1 |>
              <| map := <[Z.to_nat (y * w + x) := Some n]> (map s) |> in
  queue_ok r w s' /\
  forall j, 0 <= j < r * w -> content s' j = if j =? y * w + x then Some c else content s j.
Proof.
  intros Hs Hx Hy Hc Hm n s'. pose proof (cell_range r w x y Hx Hy) as Hi. set (i := y * w + x) in *.
  pose proof (queue_room s i Hs Hi Hm) as Hroom. destruct (q_lengths _ _ _ Hs) as (Lg & Lq & Lm).
  pose proof (q_count _ _ _ Hs) as Hcount. fold n in Hroom, Hcount.
  assert (Hlq : forall k, 0 <= k -> queue s' !! Z.to_nat k =
    if k =? n then Some (QueueItem x y c) else queue s !! Z.to_nat k).
  { intros k Hk. cbn. destruct (Z.eqb_spec k n) as [->|Hne];
      [apply list_lookup_insert_eq; lia | apply list_lookup_insert_ne; lia]. }
  assert (Hlm : forall j, 0 <= j -> map s' !! Z.to_nat j =
    if j =? i then Some (Some n) else map s !! Z.to_nat j).
  { intros j Hj. cbn. destruct (Z.eqb_spec j i) as [->|Hne];
      [apply list_lookup_insert_eq; lia | apply list_lookup_insert_ne; lia]. }
  split.
  - destruct Hs as [H1 H2 H3 H4 H5]. constructor; try done.
    + cbn. by rewrite !length_insert.
    + cbn. lia.
    + change (queue_i s') with (n + 1). intros k Hk. rewrite Hlq by lia. destruct (Z.eqb_spec k n) as [->|].
      * eexists. split; [done|]. cbn [q_x q_y q_c]. split_and!; try lia; try done.
        rewrite Hlm by (unfold item_cell; cbn; lia). unfold item_cell. cbn. fold i. by rewrite Z.eqb_refl.
      * destruct (H3 k) as (q1 & E1 & X1 & Y1 & C1 & M1); [fold n; lia|]. exists q1. split_and!; try done; try lia.
        rewrite Hlm by (unfold item_cell; nia).
        destruct (Z.eqb_spec (item_cell w q1) i) as [Ei|]; [|done]. rewrite Ei in M1. congruence.
    + intros j k Hj. rewrite Hlm by done. change (queue_i s') with (n + 1).
      destruct (Z.eqb_spec j i) as [->|].
      * intros [= <-]. split; [lia|]. rewrite Hlq, Z.eqb_refl by lia. eexists. split; [done|]. done.
      * intros E. destruct (H4 j k Hj E) as (Hk & q1 & E1 & I1). fold n in Hk. split; [lia|]. rewrite Hlq by lia.
        destruct (Z.eqb_spec k n); [lia|]. by exists q1.
  - intros j Hj. unfold content. rewrite Hlm by lia. change (grid s') with (grid s).
    destruct (Z.eqb_spec j i) as [->|Hne].
    + rewrite Hlq by lia. by rewrite Z.eqb_refl.
    + destruct (map s !! Z.to_nat j) as [[k|]|] eqn:Hm'; [|done..].
      destruct (q_map _ _ _ Hs j k) as (Hk & _); [lia|done|]. fold n in Hk. rewrite Hlq by lia.
      destruct (Z.eqb_spec k n); [lia|done].
Qed.

(** The logical screen is [f], and only the queue has changed since [s0]. *)
Definition at_screen (s0 : flanterm_fb_context) (f : Z -> flanterm_fb_char) (s : flanterm_fb_context) : Prop :=
  queue_ok r w s /\ rest s = rest s0 /\ forall i, 0 <= i < r * w -> content s i = Some (f i) /\ char_ok (f i).

Definition upd (i : Z) (c : flanterm_fb_char) (f : Z -> flanterm_fb_char) (j : Z) : flanterm_fb_char :=
  if j =? i then c else f j.

Lemma at_screen_ext s0 f f' s :
  (forall i, 0 <= i < r * w -> f' i = f i) -> at_screen s0 f s -> at_screen s0 f' s.
Proof. intros E (H1 & H2 & H3). split_and!; try done. intros i Hi. rewrite E by done. by apply H3. Qed.

Context (ctx : flanterm_context).
Hypothesis Hrows : rows ctx = r.
Hypothesis Hcols : cols ctx = w.

Lemma push_at s0 f c x y :
  0 <= x < w -> 0 <= y < r -> char_ok c ->
  triple (at_screen s0 f) (push_to_queue ctx c x y) (fun _ => at_screen s0 (upd (y * w + x) c f)).
Proof.
  intros Hx Hy Hc s (Hs & Hrest & Hf). pose proof (cell_range r w x y Hx Hy) as Hi.
  assert (r * w < 2 ^ 62) by nia.
  destruct (q_lengths _ _ _ Hs) as (Lg & Lq & Lm). unfold push_to_queue. rewrite Hrows, Hcols.
  rewrite (proj2 (Z.leb_gt w x)), (proj2 (Z.leb_gt r y)) by lia. cbn [orb]. cbv zeta.
  rewrite !u64_small by lia. mstep.
  assert (Hgoal : forall s', queue_ok r w s' -> rest s' = rest s ->
    (forall j, 0 <= j < r * w -> content s' j = if j =? y * w + x then Some c else content s j) ->
    at_screen s0 (upd (y * w + x) c f) s').
  { intros s' Hs' Er E. split_and!; [done|congruence|]. intros j Hj. rewrite (E j Hj). unfold upd.
    destruct (j =? y * w + x); [done|]. by apply Hf. }
  destruct (map s !! Z.to_nat (y * w + x)) as [[k|]|] eqn:Hm.
  - destruct (q_map _ _ _ Hs (y * w + x) k) as (Hk & q & Eq & _); [lia|done|]. pose proof (q_count _ _ _ Hs).
    rewrite Eq. unfold set_item. mstep. rewrite (proj2 (Z.ltb_lt _ _)) by lia.
    eexists _, _. split; [done|]. destruct (requeue_ok s _ k q c Hs Hi Hc Hm Eq) as [Q1 Q2].
    by apply Hgoal.
  - destruct (lookup_lt_is_Some_2 (grid s) (Z.to_nat (y * w + x))) as [g Eg]; [lia|]. rewrite Eg.
    destruct (compare_char g c) eqn:Ec.
    + exists tt, s. split; [done|]. apply Hgoal; [done..|]. intros j Hj.
      destruct (Z.eqb_spec j (y * w + x)) as [->|]; [|done]. unfold content. rewrite Hm, Eg. f_equal.
      unfold compare_char in Ec. zify_bool. destruct g, c; cbn in *; subst; done.
    + pose proof (queue_room s _ Hs Hi Hm) as Hroom. pose proof (q_count _ _ _ Hs).
      rewrite (proj2 (Z.eqb_neq (queue_i s) (r * w))) by lia. unfold set_item. mstep.
      rewrite (proj2 (Z.ltb_lt (queue_i s) _)) by lia.
      eexists _, _. split; [done|]. destruct (enqueue_ok s x y c Hs Hx Hy Hc Hm) as [Q1 Q2].
      by apply Hgoal.
  - apply lookup_ge_None_1 in Hm. lia.
Qed.

Lemma cell_at_at s0 f i :
  0 <= i < r * w -> triple (at_screen s0 f) (cell_at i) (fun c s => c = f i /\ at_screen s0 f s).
Proof.
  intros Hi s Hs. exists (f i), s. split; [|done]. apply cell_at_run. by apply Hs.
Qed.

Lemma empty_at s0 f :
  triple (at_screen s0 f) empty_char
    (fun c s => c = FbChar 32 (text_fg s0) (text_bg s0) /\ at_screen s0 f s).
Proof.
  intros s Hs. eexists _, s. split; [done|]. split; [|done]. destruct Hs as (_ & E & _).
  pose proof (f_equal text_fg E). pose proof (f_equal text_bg E). cbn in *. congruence.
Qed.

(** A row filled with a character. *)
Lemma fill_row_at s0 f c y :
  0 <= y < r -> char_ok c ->
  triple (at_screen s0 f) (for_range 0 (cols ctx) (fun i => push_to_queue ctx c i y))
    (fun _ => at_screen s0 (fun i => if (y * w <=? i) && (i <? y * w + w) then c else f i)).
Proof.
  intros Hy Hc. rewrite Hcols.
  set (P x := at_screen s0 (fun i => if (y * w <=? i) && (i <? y * w + x) then c else f i)).
  apply (triple_conseq (P 0) _ _ (fun _ => P w)).
  - apply triple_for_range_at; [lia|]. intros x Hx. unfold P.
    eapply triple_conseq; [by apply push_at|done|]. intros [] s. apply at_screen_ext.
    intros i Hi. unfold upd. destruct (Z.eqb_spec i (y * w + x)), (Z.leb_spec (y * w) i),
      (Z.ltb_spec i (y * w + x)), (Z.ltb_spec i (y * w + (x + 1))); cbn; try done; lia.
  - intros s. apply at_screen_ext. intros i Hi.
    destruct (Z.leb_spec (y * w) i), (Z.ltb_spec i (y * w + 0)); cbn; try done; lia.
  - intros [] s. done.
Qed.

Hypothesis Hgeo : geometry ctx.
Let top := scroll_top_margin ctx.
Let bottom := scroll_bottom_margin ctx.

Lemma margins_in : 0 <= top < bottom /\ bottom <= r.
Proof. destruct Hgeo as (_ & _ & Hm). unfold margins_ok in Hm. by rewrite Hrows in Hm. Qed.

(** A character copied to another cell. *)
Lemma copy_at s0 f i j :
  0 <= i < r * w -> 0 <= j < r * w ->
  triple (at_screen s0 f)
    (c ← cell_at i; if cols ctx =? 0 then ub else push_to_queue ctx c (j mod cols ctx) (j / cols ctx))
    (fun _ => at_screen s0 (upd j (f i) f)).
Proof.
  intros Hi Hj. eapply triple_bind; [by apply cell_at_at|]. intros c. rewrite Hcols, (proj2 (Z.eqb_neq w 0)) by lia.
  intros s [-> Hs]. pose proof Hs as (_ & _ & Hf). destruct (Hf i Hi) as [_ Hc].
  destruct (index_cell r w j) as (Hx & Hy & E); [lia|done|].
  pose proof (push_at s0 f (f i) (j mod w) (j / w) Hx Hy Hc) as Hp. rewrite E in Hp. by apply Hp.
Qed.

Lemma scroll_at s0 f :
  triple (at_screen s0 f) (flanterm_fb_scroll ctx) (fun _ => at_screen s0 (fun i =>
    if (top * w <=? i) && (i <? bottom * w - w) then f (i + w)
    else if (bottom * w - w <=? i) && (i <? bottom * w) then FbChar 32 (text_fg s0) (text_bg s0)
    else f i)).
Proof.
  pose proof margins_in as Hm. unfold flanterm_fb_scroll. fold top bottom. rewrite !Hcols.
  set (P j := at_screen s0 (fun i => if (top * w <=? i) && (i <? j - w) then f (i + w) else f i)).
  apply triple_bind with (Q := fun _ => P (bottom * w)).
  - eapply triple_conseq; [apply (triple_for_range_at P)| |intros []; done].
    + nia.
    + intros j Hj. unfold P. rewrite u64_small by nia.
      pose proof (copy_at s0 (fun i => if (top * w <=? i) && (i <? j - w) then f (i + w) else f i) j (j - w)) as Hcp.
      rewrite Hcols in Hcp. eapply triple_conseq; [apply Hcp; nia|done|].
      intros [] s. apply at_screen_ext. intros i Hi. unfold upd.
      destruct (Z.eqb_spec i (j - w)), (Z.leb_spec (top * w) i), (Z.ltb_spec i (j - w)), (Z.ltb_spec i (j + 1 - w)),
        (Z.leb_spec (top * w) j), (Z.ltb_spec j (j - w)); cbn; subst; try done; try lia; try nia.
      by replace (j - w + w) with j by lia.
    + intros s. apply at_screen_ext. intros i Hi.
      destruct (Z.leb_spec (top * w) i), (Z.ltb_spec i ((top + 1) * w - w)); cbn; try done; lia.
  - intros _. eapply triple_bind; [apply empty_at|]. intros c s [-> Hs].
    rewrite u64_small by lia.
    pose proof (fill_row_at s0 (fun i => if (top * w <=? i) && (i <? bottom * w - w) then f (i + w) else f i)
      (FbChar 32 (text_fg s0) (text_bg s0)) (bottom - 1)) as Hfill.
    rewrite Hcols in Hfill. eapply triple_conseq; [apply Hfill; [lia|unfold char_ok; cbn; lia]| |..|exact Hs].
    + done.
    + intros [] s'. apply at_screen_ext. intros i Hi.
      replace ((bottom - 1) * w) with (bottom * w - w) by lia.
      replace (bottom * w - w + w) with (bottom * w) by lia.
      destruct (Z.leb_spec (top * w) i), (Z.ltb_spec i (bottom * w - w)), (Z.leb_spec (bottom * w - w) i),
        (Z.ltb_spec i (bottom * w)); cbn; try done; lia.
Qed.

Lemma revscroll_loop_at s0 f n i e :
  i = top * w + Z.of_nat n -> i <= e -> e + w <= r * w ->
  triple (at_screen s0 (fun k => if (i + w <=? k) && (k <? e + w) then f (k - w) else f k))
    (revscroll_loop n ctx i)
    (fun _ => at_screen s0 (fun k => if (top * w + w <=? k) && (k <? e + w) then f (k - w) else f k)).
Proof.
  pose proof margins_in as Hm. revert i. induction n as [|n IH]; intros i Ei Hie He; cbn [revscroll_loop].
  - apply triple_ret. intros s. apply at_screen_ext. intros k Hk. by replace (top * w) with i by lia.
  - cbv zeta. assert (Hi : 0 <= i - 1 < r * w) by nia.
    apply triple_bind with (Q := fun c s => c = f (i - 1) /\
      at_screen s0 (fun k => if (i + w <=? k) && (k <? e + w) then f (k - w) else f k) s).
    { eapply triple_conseq; [by apply cell_at_at|done|]. intros c s [-> Hs]. split; [|done].
      by rewrite (proj2 (Z.leb_gt (i + w) (i - 1))) by lia. }
    intros c. rewrite Hcols, (proj2 (Z.eqb_neq w 0)) by lia. rewrite u64_small by nia.
    apply triple_bind with (Q := fun _ => at_screen s0 (fun k =>
      if (i - 1 + w <=? k) && (k <? e + w) then f (k - w) else f k)); [|intros _; apply IH; lia].
    intros s [-> Hs]. pose proof Hs as (_ & _ & Hf). destruct (Hf (i - 1) Hi) as [_ Hc].
    rewrite (proj2 (Z.leb_gt (i + w) (i - 1))) in Hc by lia. cbn [andb] in Hc.
    destruct (index_cell r w (i - 1 + w)) as (Hx & Hy & E); [lia|lia|].
    eapply triple_conseq; [apply push_at; [exact Hx|exact Hy|exact Hc]|exact (fun _ H => H)| |exact Hs].
    intros [] s'. rewrite E. apply at_screen_ext. intros k Hk. unfold upd.
    destruct (Z.eqb_spec k (i - 1 + w)), (Z.leb_spec (i - 1 + w) k), (Z.leb_spec (i + w) k),
      (Z.ltb_spec k (e + w)), (Z.leb_spec (i + w) (i - 1)); cbn; try done; try lia; f_equal; lia.
Qed.

Lemma revscroll_at s0 f :
  triple (at_screen s0 f) (flanterm_fb_revscroll ctx) (fun _ => at_screen s0 (fun i =>
    if (top * w + w <=? i) && (i <? bottom * w) then f (i - w)
    else if (top * w <=? i) && (i <? top * w + w) then FbChar 32 (text_fg s0) (text_bg s0)
    else f i)).
Proof.
  pose proof margins_in as Hm. unfold flanterm_fb_revscroll. cbv zeta. fold top bottom. rewrite !Hcols.
  rewrite u64_small by lia.
  apply triple_bind with (Q := fun _ => at_screen s0 (fun k =>
    if (top * w + w <=? k) && (k <? bottom * w) then f (k - w) else f k)).
  - eapply triple_conseq; [apply (revscroll_loop_at s0 f _ ((bottom - 1) * w) ((bottom - 1) * w))| |].
    + unfold iters. rewrite Z2Nat.id; nia.
    + lia.
    + nia.
    + intros s. apply at_screen_ext. intros k Hk.
      destruct (Z.leb_spec ((bottom - 1) * w + w) k), (Z.ltb_spec k ((bottom - 1) * w + w)); cbn; try done; lia.
    + intros [] s. by replace ((bottom - 1) * w + w) with (bottom * w) by lia.
  - intros _. eapply triple_bind; [apply empty_at|]. intros c s [-> Hs].
    pose proof (fill_row_at s0 (fun k => if (top * w + w <=? k) && (k <? bottom * w) then f (k - w) else f k)
      (FbChar 32 (text_fg s0) (text_bg s0)) top) as Hfill.
    rewrite Hcols in Hfill. eapply triple_conseq; [apply Hfill; [lia|unfold char_ok; cbn; lia]| |..|exact Hs].
    + done.
    + intros [] s'. apply at_screen_ext. intros i Hi.
      destruct (Z.leb_spec (top * w + w) i), (Z.ltb_spec i (bottom * w)), (Z.leb_spec (top * w) i),
        (Z.ltb_spec i (top * w + w)); cbn; try done; lia.
Qed.

Lemma clear_at s0 f :
  triple (at_screen s0 f)
    (empty ← empty_char;
     for_range 0 (rows ctx * cols ctx) (fun i =>
        if cols ctx =? 0 then ub else push_to_queue ctx empty (i mod cols ctx) (i / cols ctx)))
    (fun _ => at_screen s0 (fun _ => FbChar 32 (text_fg s0) (text_bg s0))).
Proof.
  set (e := FbChar 32 (text_fg s0) (text_bg s0)).
  eapply triple_bind; [apply empty_at|]. intros c s [-> Hs]. fold e.
  rewrite Hrows, Hcols, (proj2 (Z.eqb_neq w 0)) by lia.
  set (P j := at_screen s0 (fun i => if i <? j then e else f i)).
  assert (Ht : triple (P 0) (for_range 0 (r * w) (fun i => push_to_queue ctx e (i mod w) (i / w))) (fun _ => P (r * w))).
  { apply triple_for_range_at; [nia|]. intros j Hj. unfold P. destruct (index_cell r w j) as (Hx & Hy & E); [lia|done|].
    eapply triple_conseq; [apply push_at; [exact Hx|exact Hy|unfold char_ok; cbn; lia]|done|].
    rewrite E. intros [] s'. apply at_screen_ext. intros i Hi. unfold upd.
    destruct (Z.eqb_spec i j), (Z.ltb_spec i j), (Z.ltb_spec i (j + 1)); try done; lia. }
  eapply triple_conseq; [exact Ht| | |exact Hs].
  - intros s'. apply at_screen_ext. intros i Hi. by rewrite (proj2 (Z.ltb_ge i 0)) by lia.
  - intros [] s'. apply at_screen_ext. intros i Hi. by rewrite (proj2 (Z.ltb_lt i (r * w))) by lia.
Qed.

Lemma move_at s0 f nx ny ox oy :
  0 <= nx < w -> 0 <= ny < r -> 0 <= ox < w -> 0 <= oy < r ->
  triple (at_screen s0 f) (flanterm_fb_move_character ctx nx ny ox oy)
    (fun _ => at_screen s0 (upd (ny * w + nx) (f (oy * w + ox)) f)).
Proof.
  intros H1 H2 H3 H4. unfold flanterm_fb_move_character. rewrite Hrows, Hcols.
  rewrite !(proj2 (Z.leb_gt _ _)) by lia. cbn [orb].
  pose proof (cell_range r w ox oy H3 H4). replace (ox + oy * w) with (oy * w + ox) by lia.
  eapply triple_bind; [by apply cell_at_at|]. intros c s [-> Hs].
  pose proof Hs as (_ & _ & Hf). destruct (Hf (oy * w + ox)) as [_ Hc]; [done|]. by apply push_at.
Qed.
End Queue.

(** ** The screen as the terminal sees it *)

(** The characters by column and row, the colours, the cursor and what
    [save_state] keeps. *)
Record screen_model := Screen {
  sm_cell : Z -> Z -> flanterm_fb_char;
  sm_fg : Z;
  sm_bg : Z;
  sm_x : Z;
  sm_y : Z;
  sm_saved : Z * Z * Z * Z;
}.

#[export] Instance eta_screen_model : Settable screen_model := fun v =>
  Screen (sm_cell v) (sm_fg v) (sm_bg v) (sm_x v) (sm_y v) (sm_saved v).

Definition sm_blank (v : screen_model) : flanterm_fb_char := FbChar 32 (sm_fg v) (sm_bg v).

Definition models (r w : Z) (v : screen_model) (s : flanterm_fb_context) : Prop :=
  (forall x y, 0 <= x < w -> 0 <= y < r -> content s (y * w + x) = Some (sm_cell v x y)) /\
  text_fg s = sm_fg v /\ text_bg s = sm_bg v /\ cursor_x s = sm_x v /\ cursor_y s = sm_y v /\
  (saved_state_text_fg s, saved_state_text_bg s, saved_state_cursor_x s, saved_state_cursor_y s) = sm_saved v.

(** The scroll region moves up, or down, by a row; a blank row comes in. *)
Definition sm_scroll (top bottom : Z) (v : screen_model) : screen_model :=
  v <| sm_cell := fun x y =>
    if (top <=? y) && (y <? bottom - 1) then sm_cell v x (y + 1)
    else if y =? bottom - 1 then sm_blank v else sm_cell v x y |>.
Definition sm_revscroll (top bottom : Z) (v : screen_model) : screen_model :=
  v <| sm_cell := fun x y =>
    if (top <? y) && (y <? bottom) then sm_cell v x (y - 1)
    else if y =? top then sm_blank v else sm_cell v x y |>.
Definition sm_clear (move : bool) (v : screen_model) : screen_model :=
  let v := v <| sm_cell := fun _ _ => sm_blank v |> in
  if move then v <| sm_x := 0 |> <| sm_y := 0 |> else v.
Definition sm_set (x y : Z) (c : flanterm_fb_char) (v : screen_model) : screen_model :=
  v <| sm_cell := fun x' y' => if (x' =? x) && (y' =? y) then c else sm_cell v x' y' |>.
Definition sm_move (nx ny ox oy : Z) (v : screen_model) : screen_model := sm_set nx ny (sm_cell v ox oy) v.

(** A line that is full goes on in the next one, where wrapping is enabled;
    at the bottom of the scroll region that scrolls, where scrolling is. *)
Definition sm_wrap (ctx : flanterm_context) (v : screen_model) : screen_model :=
  let bottom := scroll_bottom_margin ctx in
  if sm_x v <? cols ctx then v
  else if wrap_enabled ctx && ((sm_y v <? bottom - 1) || scroll_enabled ctx) then
    let v := v <| sm_x := 0 |> in
    if sm_y v =? bottom - 1 then sm_scroll (scroll_top_margin ctx) bottom v
    else v <| sm_y := Z.min (sm_y v + 1) (rows ctx - 1) |>
  else v <| sm_x := cols ctx - 1 |>.
Definition sm_put (ctx : flanterm_context) (c : Z) (v : screen_model) : screen_model :=
  let v := sm_wrap ctx v in
  sm_set (sm_x v) (sm_y v) (FbChar c (sm_fg v) (sm_bg v)) v <| sm_x := sm_x v + 1 |>.

Definition sm_save (v : screen_model) : screen_model :=
  v <| sm_saved := (sm_fg v, sm_bg v, sm_x v, sm_y v) |>.
Definition sm_restore (v : screen_model) : screen_model :=
  let '(f, b, x, y) := sm_saved v in v <| sm_fg := f |> <| sm_bg := b |> <| sm_x := x |> <| sm_y := y |>.

(** The operations that act on the screen. *)
Inductive screen_op :=
  | Put (c : Z) | Clear (move : bool) | SetCursor (x y : Z) | Move (nx ny ox oy : Z)
  | Scroll | Revscroll | Swap | Save | RestoreState.

Definition op_valid (ctx : flanterm_context) (op : screen_op) : Prop :=
  match op with
  | Put c => 0 <= c < 256
  | SetCursor x y => 0 <= x < cols ctx /\ 0 <= y < rows ctx
  | Move nx ny ox oy =>
      0 <= nx < cols ctx /\ 0 <= ny < rows ctx /\ 0 <= ox < cols ctx /\ 0 <= oy < rows ctx
  | _ => True
  end.

Definition op_run (ctx : flanterm_context) (op : screen_op) : MF unit :=
  match op with
  | Put c => raw_putchar ctx c
  | Clear move => clear_screen ctx move
  | SetCursor x y => set_cursor_pos ctx x y
  | Move nx ny ox oy => move_character ctx nx ny ox oy
  | Scroll => scroll ctx
  | Revscroll => revscroll ctx
  | Swap => swap_palette ctx
  | Save => backend_save_state ctx
  | RestoreState => backend_restore_state ctx
  end.

Definition op_spec (ctx : flanterm_context) (op : screen_op) : screen_model -> screen_model :=
  match op with
  | Put c => sm_put ctx c
  | Clear move => sm_clear move
  | SetCursor x y => fun v => v <| sm_x := x |> <| sm_y := y |>
  | Move nx ny ox oy => sm_move nx ny ox oy
  | Scroll => sm_scroll (scroll_top_margin ctx) (scroll_bottom_margin ctx)
  | Revscroll => sm_revscroll (scroll_top_margin ctx) (scroll_bottom_margin ctx)
  | Swap => fun v => v <| sm_fg := sm_bg v |> <| sm_bg := sm_fg v |>
  | Save => sm_save
  | RestoreState => sm_restore
  end.

Section Refinement.
Context (ctx : flanterm_context).
Hypothesis Hgeo : geometry ctx.
Let r := rows ctx.
Let w := cols ctx.
Implicit Types v : screen_model.

Definition refined v (s : flanterm_fb_context) : Prop := fb_ok r w s /\ models r w v s.

(** [m] does to the context what [f] does to the screen. *)
Definition refines (m : MF unit) (f : screen_model -> screen_model) : Prop :=
  forall v, triple (refined v) m (fun _ => refined (f v)).

Lemma geometry_bounds : 1 <= r < 2 ^ 31 /\ 1 <= w < 2 ^ 31 /\
  0 <= scroll_top_margin ctx < scroll_bottom_margin ctx /\ scroll_bottom_margin ctx <= r.
Proof. destruct Hgeo as (H1 & H2 & H3 & H4). done. Qed.

Lemma fields_rest v s s' :
  rest s' = rest s ->
  text_fg s = sm_fg v /\ text_bg s = sm_bg v /\ cursor_x s = sm_x v /\ cursor_y s = sm_y v /\
  (saved_state_text_fg s, saved_state_text_bg s, saved_state_cursor_x s, saved_state_cursor_y s) = sm_saved v ->
  text_fg s' = sm_fg v /\ text_bg s' = sm_bg v /\ cursor_x s' = sm_x v /\ cursor_y s' = sm_y v /\
  (saved_state_text_fg s', saved_state_text_bg s', saved_state_cursor_x s', saved_state_cursor_y s') = sm_saved v.
Proof. intros E H. destruct s, s'. unfold rest in E. cbn in *. injection E as; subst. done. Qed.

(** The cells of a screen, by index. *)
Definition agrees (h : Z -> flanterm_fb_char) v : Prop :=
  forall x y, 0 <= x < w -> 0 <= y < r -> h (y * w + x) = sm_cell v x y.

Lemma at_model v s : refined v s ->
  exists h, agrees h v /\ at_screen r w s h s.
Proof.
  intros [[Hfr Hq] [Hc Hfields]]. destruct geometry_bounds as (Hr & Hw & _).
  exists (fun i => sm_cell v (i mod w) (i / w)).
  assert (Hh : agrees (fun i => sm_cell v (i mod w) (i / w)) v).
  { intros x y Hx Hy. cbn. rewrite Z.add_comm, Z.mod_add, Z.div_add by lia.
    by rewrite Z.mod_small, Z.div_small, Z.add_0_l by lia. }
  split; [done|]. split; [done|]. split; [done|]. intros i Hi.
  destruct (index_cell r w i) as (Hx & Hy & E); [lia|done|].
  assert (Ec : content s i = Some (sm_cell v (i mod w) (i / w))) by (rewrite <- E at 1; by apply Hc).
  split; [done|]. destruct (content_some r w Hr Hw s i Hq Hi) as (c & Ec' & Hok). congruence.
Qed.

(** Operations that only queue. *)
Lemma refines_queue (m : MF unit) (f : screen_model -> screen_model) :
  (forall v, f v = v <| sm_cell := sm_cell (f v) |>) ->
  (forall v s0 h, agrees h v -> text_fg s0 = sm_fg v -> text_bg s0 = sm_bg v ->
    exists h', triple (at_screen r w s0 h) m (fun _ => at_screen r w s0 h') /\ agrees h' (f v)) ->
  refines m f.
Proof.
  intros Hf Hm v s Hs. destruct (at_model v s Hs) as (h & Hh & Hat). destruct Hs as [[Hfr Hq] [Hc Hfields]].
  destruct geometry_bounds as (Hr & Hw & _). pose proof Hfields as (F1 & F2 & _).
  destruct (Hm v s h Hh F1 F2) as (h' & Ht & Hh').
  destruct (Ht s Hat) as ([] & s' & E & Hq' & Hrest & Hcont). exists tt, s'. split; [done|].
  split; [split; [by apply (frame_rest r w s)|done]|].
  pose proof (fields_rest v s s' Hrest Hfields) as Hfs. rewrite Hf. split; [|exact Hfs].
  intros x y Hx Hy. destruct (Hcont (y * w + x)) as [Ec _]; [by apply cell_range|]. rewrite Ec. f_equal.
  by apply Hh'.
Qed.

(** Operations on the fields only. *)
Lemma refines_fields (g : flanterm_fb_context -> flanterm_fb_context) (f : screen_model -> screen_model) :
  (forall s, (config (g s), grid (g s), queue (g s), queue_i (g s), map (g s), vram (g s))
             = (config s, grid s, queue s, queue_i s, map s, vram s)) ->
  (forall v s, fb_ok r w s -> models r w v s -> frame_ok r w (g s) /\ models r w (f v) (g s)) ->
  refines (modify g) f.
Proof.
  intros Hg Hf v s [Hs Hm]. exists tt, (g s). split; [done|]. destruct (Hf v s Hs Hm) as [Hfr Hm'].
  split; [|done]. split; [done|]. specialize (Hg s). injection Hg as G1 G2 G3 G4 G5 G6.
  destruct Hs as [_ [Q1 Q2 Q3 Q4 Q5]]. constructor; rewrite ?G2, ?G3, ?G4, ?G5; done.
Qed.

Lemma refines_then m1 m2 f1 f2 : refines m1 f1 -> refines m2 f2 -> refines (_ ← m1; m2) (fun v => f2 (f1 v)).
Proof. intros H1 H2 v. eapply triple_bind; [apply H1|]. intros []. apply H2. Qed.

Lemma refines_scroll : refines (flanterm_fb_scroll ctx) (op_spec ctx Scroll).
Proof.
  destruct geometry_bounds as (Hr & Hw & Hm & Hb).
  apply refines_queue; [done|]. intros v s0 h Hh F1 F2. eexists. split; [by apply scroll_at|].
  intros x y Hx Hy. cbn [op_spec sm_scroll sm_cell set_field]. rewrite F1, F2.
  replace (scroll_bottom_margin ctx * w - w) with ((scroll_bottom_margin ctx - 1) * w) by lia.
  rewrite !row_ltb, !row_leb by done.
  destruct (Z.leb_spec (scroll_top_margin ctx) y), (Z.ltb_spec y (scroll_bottom_margin ctx - 1)); cbn [andb].
  { rewrite <- Hh by lia. f_equal. lia. }
  all: destruct (Z.leb_spec (scroll_bottom_margin ctx - 1) y), (Z.ltb_spec y (scroll_bottom_margin ctx)),
    (Z.eqb_spec y (scroll_bottom_margin ctx - 1)); cbn; try done; try lia; by apply Hh.
Qed.

Lemma refines_revscroll : refines (flanterm_fb_revscroll ctx) (op_spec ctx Revscroll).
Proof.
  destruct geometry_bounds as (Hr & Hw & Hm & Hb).
  apply refines_queue; [done|]. intros v s0 h Hh F1 F2. eexists. split; [by apply revscroll_at|].
  intros x y Hx Hy. cbn [op_spec sm_revscroll sm_cell set_field]. rewrite F1, F2.
  replace (scroll_top_margin ctx * w + w) with ((scroll_top_margin ctx + 1) * w) by lia.
  rewrite !row_ltb, !row_leb by done.
  destruct (Z.ltb_spec (scroll_top_margin ctx) y), (Z.ltb_spec y (scroll_bottom_margin ctx));
    rewrite ?(proj2 (Z.leb_le _ _)), ?(proj2 (Z.leb_gt _ _)) by lia; cbn [andb].
  { rewrite <- Hh by lia. f_equal. lia. }
  all: destruct (Z.leb_spec (scroll_top_margin ctx) y), (Z.ltb_spec y (scroll_top_margin ctx + 1)),
    (Z.eqb_spec y (scroll_top_margin ctx)); cbn; try done; try lia; by apply Hh.
Qed.

Lemma refines_move nx ny ox oy : op_valid ctx (Move nx ny ox oy) ->
  refines (flanterm_fb_move_character ctx nx ny ox oy) (op_spec ctx (Move nx ny ox oy)).
Proof.
  intros (Hnx & Hny & Hox & Hoy). fold w in Hnx, Hox. fold r in Hny, Hoy. destruct geometry_bounds as (Hr & Hw & Hm & Hb).
  apply refines_queue; [done|]. intros v s0 h Hh F1 F2. eexists. split; [by apply move_at|].
  intros x y Hx Hy. cbn [op_spec sm_move sm_set sm_cell set_field]. unfold upd.
  destruct (Z.eqb_spec (y * w + x) (ny * w + nx)) as [E|E].
  - apply cell_inj in E as [-> ->]; try done. rewrite !Z.eqb_refl. by apply Hh.
  - destruct (Z.eqb_spec x nx) as [->|]; [|by apply Hh]. destruct (Z.eqb_spec y ny) as [->|]; [done|by apply Hh].
Qed.

Lemma refines_ret : refines (mret tt) (fun v => v).
Proof. intros v s Hs. by exists tt, s. Qed.

Lemma frame_cursor s x y : frame_ok r w s -> 0 <= x <= w -> 0 <= y < r ->
  frame_ok r w (s <| cursor_x := x |> <| cursor_y := y |>).
Proof. intros [] Hx Hy. by constructor. Qed.

(** The cursor at another place, with the screen left alone. *)
Lemma refines_cursor v s x y : refined v s -> 0 <= x <= w -> 0 <= y < r ->
  refined (v <| sm_x := x |> <| sm_y := y |>) (s <| cursor_x := x |> <| cursor_y := y |>).
Proof.
  intros [[Hfr Hq] [Hc (F1 & F2 & F3 & F4 & F5)]] Hx Hy. split; [|done].
  split; [by apply frame_cursor|]. destruct Hq. by constructor.
Qed.

Lemma refined_at v s : refined v s -> cursor_x s = sm_x v /\ cursor_y s = sm_y v /\
  text_fg s = sm_fg v /\ text_bg s = sm_bg v /\ 0 <= sm_x v <= w /\ 0 <= sm_y v < r.
Proof.
  intros [[Hfr _] [_ (F1 & F2 & F3 & F4 & _)]]. destruct (f_cursor _ _ _ Hfr). rewrite F3, F4 in *. done.
Qed.

Lemma with_cursor s : s <| cursor_x := cursor_x s |> <| cursor_y := cursor_y s |> = s.
Proof. by destruct s. Qed.
Lemma sm_with_cursor v : v <| sm_x := sm_x v |> <| sm_y := sm_y v |> = v.
Proof. by destruct v. Qed.

Lemma refines_clear move : refines (flanterm_fb_clear ctx move) (op_spec ctx (Clear move)).
Proof.
  destruct geometry_bounds as (Hr & Hw & Hm & Hb). intros v s Hs.
  assert (Hq : refines (empty ← empty_char;
     for_range 0 (rows ctx * cols ctx) (fun i =>
        if cols ctx =? 0 then ub else push_to_queue ctx empty (i mod cols ctx) (i / cols ctx)))
     (fun v => v <| sm_cell := fun _ _ => sm_blank v |>)).
  { apply refines_queue; [done|]. intros v' s0 h Hh F1 F2. eexists. split; [by apply clear_at|].
    intros x y Hx Hy. cbn. unfold sm_blank. by rewrite F1, F2. }
  destruct (Hq v s Hs) as ([] & s1 & E & Hs1). unfold flanterm_fb_clear. revert E. mstep. cbv zeta. intros E.
  change (empty_char s) with (Some (FbChar 32 (text_fg s) (text_bg s), s)) in E |- *.
  cbv beta iota in E |- *. rewrite E. destruct move.
  - eexists _, _. split; [done|]. apply (refines_cursor _ _ 0 0 Hs1); lia.
  - by eexists _, _.
Qed.

Lemma refines_set_cursor x y : op_valid ctx (SetCursor x y) ->
  refines (flanterm_fb_set_cursor_pos ctx x y) (op_spec ctx (SetCursor x y)).
Proof.
  intros [Hx Hy] v s Hs. fold w in Hx. fold r in Hy. unfold flanterm_fb_set_cursor_pos, clamp.
  rewrite (proj2 (Z.leb_gt (cols ctx) x)), (proj2 (Z.leb_gt (rows ctx) y)) by (fold w r; lia).
  eexists _, _. split; [done|]. apply refines_cursor; [done|lia..].
Qed.

Lemma refines_put_glyph c x y v s : refined v s -> 0 <= c < 256 -> 0 <= x < w -> 0 <= y < r ->
  sm_x v = x -> sm_y v = y ->
  exists s', (f ← gets text_fg; b ← gets text_bg; x ← gets cursor_x; y ← gets cursor_y;
    _ ← modify (fun s => s <| cursor_x := u64 (x + 1) |>);
    push_to_queue ctx (FbChar c f b) x y) s = Some (tt, s') /\
  refined (sm_set x y (FbChar c (sm_fg v) (sm_bg v)) v <| sm_x := x + 1 |>) s'.
Proof.
  intros Hs Hc Hx Hy Ex Ey. destruct geometry_bounds as (Hr & Hw & _).
  destruct (refined_at v s Hs) as (C1 & C2 & C3 & C4 & _). mstep.
  rewrite C1, C2, C3, C4, Ex, Ey, u64_small by lia.
  assert (Hp : refines (push_to_queue ctx (FbChar c (sm_fg v) (sm_bg v)) x y)
    (sm_set x y (FbChar c (sm_fg v) (sm_bg v)))).
  { apply refines_queue; [done|]. intros v' s0 h Hh F1 F2. eexists. split; [by apply push_at|].
    intros x' y' Hx' Hy'. cbn. unfold upd. destruct (Z.eqb_spec (y' * w + x') (y * w + x)) as [E|E].
    - apply cell_inj in E as [-> ->]; try done. by rewrite !Z.eqb_refl.
    - destruct (Z.eqb_spec x' x) as [->|]; [|by apply Hh]. destruct (Z.eqb_spec y' y) as [->|]; [done|by apply Hh]. }
  assert (Hs1 : refined (v <| sm_x := x + 1 |> <| sm_y := y |>) (s <| cursor_x := x + 1 |> <| cursor_y := y |>)) by (apply refines_cursor; [done|lia|done]).
  assert (E : s <| cursor_x := x + 1 |> <| cursor_y := y |> = s <| cursor_x := x + 1 |>).
  { rewrite <- Ey, <- C2. by destruct s. }
  rewrite E in Hs1. destruct (Hp _ _ Hs1) as ([] & s' & E' & Hs'). exists s'. split; [done|].
  destruct v. cbn in Ex, Ey. subst x y. exact Hs'.
Qed.

(** The wrap at the end of a line. *)
Definition wrap_line : MF unit :=
  x ← gets cursor_x; y ← gets cursor_y;
  if cols ctx <=? x then
    if wrap_enabled ctx && ((y <? u64 (scroll_bottom_margin ctx - 1)) || scroll_enabled ctx) then
      let y := u64 (y + 1) in
      let at_end := y =? scroll_bottom_margin ctx in
      let y := if at_end then u64 (y - 1) else y in
      _ ← modify (fun s => s <| cursor_x := 0 |> <| cursor_y := y |>);
      _ ← (if at_end then flanterm_fb_scroll ctx else mret tt);
      if rows ctx <=? y then modify (fun s => s <| cursor_y := u64 (rows ctx - 1) |>) else mret tt
    else modify (fun s => s <| cursor_x := u64 (cols ctx - 1) |>)
  else mret tt.

Lemma refines_wrap : refines wrap_line (sm_wrap ctx).
Proof.
  destruct geometry_bounds as (Hr & Hw & Hm & Hb). intros v s Hs.
  destruct (refined_at v s Hs) as (C1 & C2 & _ & _ & Bx & By). unfold wrap_line, sm_wrap. mstep. cbv zeta.
  rewrite C1, C2. fold w r. rewrite !(u64_small (scroll_bottom_margin ctx - 1)) by lia.
  destruct (Z.leb_spec w (sm_x v)) as [Hx|Hx]; destruct (Z.ltb_spec (sm_x v) w) as [Hx'|Hx']; try lia.
  2: by eexists _, _.
  change (sm_y (v <| sm_x := 0 |>)) with (sm_y v).
  destruct (wrap_enabled ctx && _).
  - rewrite (u64_small (sm_y v + 1)) by lia. rewrite u64_small by lia. rewrite (u64_small (r - 1)) by lia.
    destruct (Z.eqb_spec (sm_y v + 1) (scroll_bottom_margin ctx)) as [E|E].
    + rewrite (proj2 (Z.eqb_eq _ _)) by lia. replace (sm_y v + 1 - 1) with (sm_y v) by lia.
      destruct (refines_scroll (v <| sm_x := 0 |> <| sm_y := sm_y v |>)
        (s <| cursor_x := 0 |> <| cursor_y := sm_y v |>)) as ([] & s' & E' & Hs').
      { apply refines_cursor; [done|lia..]. }
      rewrite E'. rewrite (proj2 (Z.leb_gt _ _)) by lia. eexists _, _. split; [done|].
      destruct v. exact Hs'.
    + rewrite (proj2 (Z.eqb_neq (sm_y v) _)) by lia. destruct (Z.leb_spec r (sm_y v + 1)).
      * eexists _, _. split; [done|]. rewrite Z.min_r by lia.
        apply (refines_cursor v s 0 (r - 1) Hs); lia.
      * eexists _, _. split; [done|]. rewrite Z.min_l by lia. apply (refines_cursor v s 0 (sm_y v + 1) Hs); lia.
  - rewrite u64_small by lia. eexists _, _. split; [done|].
    assert (Hs1 : refined (v <| sm_x := w - 1 |> <| sm_y := sm_y v |>)
      (s <| cursor_x := w - 1 |> <| cursor_y := sm_y v |>)) by (apply refines_cursor; [done|lia..]).
    destruct s, v. cbn in C2. subst. exact Hs1.
Qed.

Lemma raw_putchar_wraps c : flanterm_fb_raw_putchar ctx c =
  (_ ← wrap_line; f ← gets text_fg; b ← gets text_bg; x ← gets cursor_x; y ← gets cursor_y;
    _ ← modify (fun s => s <| cursor_x := u64 (x + 1) |>);
    push_to_queue ctx (FbChar c f b) x y).
Proof. reflexivity. Qed.

Lemma wrap_on_screen v : 0 <= sm_x v <= w -> 0 <= sm_y v < r ->
  0 <= sm_x (sm_wrap ctx v) < w /\ 0 <= sm_y (sm_wrap ctx v) < r.
Proof.
  destruct geometry_bounds as (Hr & Hw & Hm & Hb). intros Hx Hy. unfold sm_wrap. fold w r.
  destruct (Z.ltb_spec (sm_x v) w); [lia|]. destruct (wrap_enabled ctx && _); cbn; [|lia].
  destruct (Z.eqb_spec (sm_y v) (scroll_bottom_margin ctx - 1)); cbn; lia.
Qed.

Lemma refines_put c : 0 <= c < 256 -> refines (flanterm_fb_raw_putchar ctx c) (sm_put ctx c).
Proof.
  intros Hc v s Hs. rewrite raw_putchar_wraps. destruct (refines_wrap v s Hs) as ([] & s1 & E & Hs1).
  destruct (refined_at v s Hs) as (_ & _ & _ & _ & Bx & By). destruct (wrap_on_screen v Bx By) as [Wx Wy].
  destruct (refines_put_glyph c _ _ _ _ Hs1 Hc Wx Wy eq_refl eq_refl) as (s2 & E2 & Hs2).
  exists tt, s2. split; [|exact Hs2]. unfold mbind at 1, M_bind at 1. rewrite E. exact E2.
Qed.

Lemma refines_swap : refines (flanterm_fb_swap_palette ctx) (op_spec ctx Swap).
Proof.
  apply refines_fields; [done|]. intros v s [Hf Hq] [Hc (F1 & F2 & F3 & F4 & F5)].
  split; [destruct Hf; by constructor|]. split; [done|]. cbn. by rewrite F1, F2.
Qed.

Lemma refines_save : refines (flanterm_fb_save_state ctx) (op_spec ctx Save).
Proof.
  apply refines_fields; [done|]. intros v s [Hf Hq] [Hc (F1 & F2 & F3 & F4 & F5)].
  split; [destruct Hf; by constructor|]. split; [done|]. cbn. by rewrite F1, F2, F3, F4.
Qed.

Lemma refines_restore : refines (flanterm_fb_restore_state ctx) (op_spec ctx RestoreState).
Proof.
  apply refines_fields; [done|]. intros v s [Hf Hq] [Hc (F1 & F2 & F3 & F4 & F5)].
  split; [destruct Hf; by constructor|]. cbn. unfold sm_restore. rewrite <- F5. done.
Qed.
End Refinement.

(** C7: the framebuffer terminal implements one logical screen.  On a
    well-formed context that shows the screen [v], each operation of the
    backend (putting a character with the wrap at the end of a line,
    clearing, moving the cursor or a character, scrolling a region up or
    down, the palette, saving and restoring) returns, keeps the context well
    formed and leaves the screen its specification says: no character is lost
    in the queue, whatever is pending in it. *)
Theorem fb_refines_screen (ctx : flanterm_context) (op : screen_op) (v : screen_model) (s : flanterm_fb_context) :
  geometry ctx -> op_valid ctx op ->
  fb_ok (rows ctx) (cols ctx) s -> models (rows ctx) (cols ctx) v s ->
  exists s', op_run ctx op s = Some (tt, s') /\ fb_ok (rows ctx) (cols ctx) s' /\
    models (rows ctx) (cols ctx) (op_spec ctx op v) s'.
Proof.
  intros Hgeo Hv Hok Hm.
  assert (Hr : refines ctx (op_run ctx op) (op_spec ctx op)).
  { destruct op; cbn [op_run]; [by apply refines_put|by apply refines_clear|by apply refines_set_cursor
      |by apply refines_move|by apply refines_scroll|by apply refines_revscroll|by apply refines_swap
      |by apply refines_save|by apply refines_restore]. }
  destruct (Hr v s (conj Hok Hm)) as ([] & s' & E & Hok' & Hm'). by exists s'.
Qed.
