(* ===== verification/FlantermFlush.v ===== *)
(** * The framebuffer terminal: what a flush draws

    A flush draws every pending character and the cursor, and erases the
    cursor where it was: the pixels of each cell then show the character of
    the logical screen, in exchanged colours at the cursor. *)
From S2P Require Import Prelude FlantermTables FlantermFont Flanterm FlantermSpec FlantermFb FlantermFbSpec FlantermScreen.

(** The cursor's cell has the colours exchanged. *)
Definition inverted (c : flanterm_fb_char) : flanterm_fb_char := FbChar (glyph c) (bg c) (fg c).

(** What a flush leaves alone. *)
Definition still (s : flanterm_fb_context) : flanterm_fb_context :=
  s <| grid := [] |> <| map := [] |> <| vram := ∅ |>.

Section Flush.
Context (ctx : flanterm_context).
Hypothesis Hgeo : geometry ctx.
Let r := rows ctx.
Let w := cols ctx.
Context (s0 : flanterm_fb_context) (f : Z -> flanterm_fb_char).
Hypothesis Hframe : frame_ok r w s0.
Hypothesis Hqueue : queue_ok r w s0.
Hypothesis Hf : forall i, 0 <= i < r * w -> content s0 i = Some (f i) /\ char_ok (f i).
Let cfg := config s0.
Let cx := cursor_x s0.
Let cy := cursor_y s0.

(** The cursor is drawn unless it is hidden or past the end of its line. *)
Definition cursor_shown : Prop := cursor_enabled ctx = true /\ cx < w.

(** After [j] items of the queue; the cells of [ex] may not be drawn yet. *)
Record flushing (ex : Z -> Z -> Prop) (j : Z) (s : flanterm_fb_context) : Prop := {
  fl_j : 0 <= j;
  fl_still : still s = still s0;
  fl_len : Z.of_nat (length (grid s)) = r * w /\ Z.of_nat (length (map s)) = r * w;
  fl_vram : vram_ok cfg (vram s);
  fl_content : forall i, 0 <= i < r * w -> content s i = Some (f i);
  fl_map : forall i k, 0 <= i -> map s !! Z.to_nat i = Some (Some k) ->
    j <= k < queue_i s0 /\ exists q, queue s0 !! Z.to_nat k = Some q /\ item_cell w q = i;
  fl_item : forall k q, j <= k < queue_i s0 -> queue s0 !! Z.to_nat k = Some q ->
    map s !! Z.to_nat (item_cell w q) = Some None \/ map s !! Z.to_nat (item_cell w q) = Some (Some k);
  fl_grid : Forall char_ok (grid s);
  fl_drawn : forall x y c, 0 <= x < w -> 0 <= y < r -> ~ ex x y ->
    grid s !! Z.to_nat (y * w + x) = Some c -> shows cfg (vram s) x y c;
}.

(** The cursor is drawn, and its cell is not pending. *)
Definition cursor_drawn (s : flanterm_fb_context) : Prop :=
  map s !! Z.to_nat (cy * w + cx) = Some None /\ shows cfg (vram s) cx cy (inverted (f (cy * w + cx))).

Definition is_old (x y : Z) : Prop := (x, y) = (old_cursor_x s0, old_cursor_y s0).
Definition is_cursor (x y : Z) : Prop := cursor_shown /\ (x, y) = (cx, cy).

Lemma bounds : 1 <= r < 2 ^ 31 /\ 1 <= w < 2 ^ 31 /\ 0 <= cx <= w /\ 0 <= cy < r.
Proof. destruct Hgeo as (H1 & H2 & _). destruct (f_cursor _ _ _ Hframe). done. Qed.

Lemma still_fields s : still s = still s0 ->
  config s = cfg /\ queue s = queue s0 /\ queue_i s = queue_i s0 /\ cursor_x s = cx /\ cursor_y s = cy /\
  old_cursor_x s = old_cursor_x s0 /\ old_cursor_y s = old_cursor_y s0.
Proof.
  intros E. unfold cfg, cx, cy. destruct s, s0. unfold still in E. cbn in *. injection E as; subst. done.
Qed.

Lemma flushing_start : flushing is_old 0 s0.
Proof.
  destruct (q_lengths _ _ _ Hqueue) as (Lg & Lq & Lm). constructor; try done.
  - apply Hframe.
  - intros i Hi. by apply Hf.
  - apply Hqueue.
  - intros k q Hk Eq. destruct (q_items _ _ _ Hqueue k Hk) as (q' & Eq' & _ & _ & _ & Em). right. congruence.
  - apply Hqueue.
  - intros x y c Hx Hy Hne Hg. by apply Hframe.
Qed.

(** A cell drawn as [c], which is what the screen has there. *)
Definition draw_cell (x y : Z) (c : flanterm_fb_char) (s : flanterm_fb_context) : flanterm_fb_context :=
  s <| vram := char_pixels cfg c (cell_x cfg x) (cell_y cfg y) ∪ vram s |>.
Definition settle_cell (i : Z) (c : flanterm_fb_char) (s : flanterm_fb_context) : flanterm_fb_context :=
  s <| grid := <[Z.to_nat i := c]> (grid s) |> <| map := <[Z.to_nat i := None]> (map s) |>.

Lemma plot_run ex j s x y c : flushing ex j s -> char_ok c -> 0 <= x < w -> 0 <= y < r ->
  plot ctx c x y s = Some (tt, draw_cell x y c s).
Proof.
  intros Hs Hc Hx Hy. destruct (still_fields s (fl_still _ _ _ Hs)) as (Ec & _).
  apply (plot_paints r w cfg (f_config _ _ _ Hframe) ctx c x y s); try done. apply Hs.
Qed.

Lemma settle_run ex j s i c : flushing ex j s -> 0 <= i < r * w ->
  settle i c s = Some (tt, settle_cell i c s).
Proof.
  intros Hs Hi. destruct (fl_len _ _ _ Hs) as [Lg Lm]. unfold settle. mstep.
  by rewrite !(proj2 (Z.ltb_lt _ _)) by lia.
Qed.

(** Pixels drawn in a cell: that cell may have to be drawn again. *)
Lemma draw_flushing ex j s x y c : flushing ex j s -> 0 <= x < w -> 0 <= y < r ->
  flushing (fun x' y' => ex x' y' \/ (x', y') = (x, y)) j (draw_cell x y c s).
Proof.
  intros [H0 H1 H2 H3 H4 H5 H6 H7 H8] Hx Hy. constructor; try done.
  - by apply draw_vram_ok.
  - intros x' y' c' Hx' Hy' Hne Hg. apply (draw_leaves r w cfg (f_config _ _ _ Hframe)); try done.
    + intros [= -> ->]. tauto.
    + apply H8; tauto.
Qed.

(** A cell that is not pending any more. *)
Lemma settle_flushing ex j s x y c : flushing ex j s -> 0 <= x < w -> 0 <= y < r ->
  c = f (y * w + x) -> (ex x y \/ shows cfg (vram s) x y c) ->
  flushing ex j (settle_cell (y * w + x) c s).
Proof.
  intros [H0 H1 H2 H3 H4 H5 H6 H7 H8] Hx Hy Hc Hs. pose proof (cell_range r w x y Hx Hy) as Hi.
  destruct H2 as [Lg Lm]. set (i := y * w + x) in *.
  assert (Hm : forall i', 0 <= i' -> map (settle_cell i c s) !! Z.to_nat i'
    = if i' =? i then Some None else map s !! Z.to_nat i').
  { intros i' Hi'. cbn. destruct (Z.eqb_spec i' i) as [->|];
      [apply list_lookup_insert_eq; lia|apply list_lookup_insert_ne; lia]. }
  assert (Hg : forall i', 0 <= i' -> grid (settle_cell i c s) !! Z.to_nat i'
    = if i' =? i then Some c else grid s !! Z.to_nat i').
  { intros i' Hi'. cbn. destruct (Z.eqb_spec i' i) as [->|];
      [apply list_lookup_insert_eq; lia|apply list_lookup_insert_ne; lia]. }
  constructor; try done.
  - cbn. by rewrite !length_insert.
  - intros i' Hi'. unfold content. rewrite Hm, Hg by lia. destruct (Z.eqb_spec i' i) as [->|]; [by rewrite Hc|].
    change (queue (settle_cell i c s)) with (queue s). by apply H4.
  - intros i' k Hi' E. rewrite Hm in E by done. destruct (i' =? i); [done|]. by apply H5.
  - intros k q Hk Eq. destruct (q_items _ _ _ Hqueue k) as (q' & Eq' & X & Y & _); [lia|].
    rewrite Eq in Eq'. injection Eq' as <-. rewrite Hm by (unfold item_cell; nia).
    destruct (_ =? i); [by left|]. by apply H6.
  - apply Forall_insert; [done|]. rewrite Hc. by apply Hf.
  - intros x' y' c' Hx' Hy' Hne E. rewrite Hg in E by nia. destruct (Z.eqb_spec (y' * w + x') i) as [Ei|].
    + apply cell_inj in Ei as [-> ->]; try done. injection E as <-. tauto.
    + by apply H8.
Qed.

(** Cells drawn that were not yet: the exceptions shrink. *)
Lemma flushing_shrink (ex ex' : Z -> Z -> Prop) j s :
  flushing ex j s ->
  (forall x y, 0 <= x < w -> 0 <= y < r -> ~ ex' x y ->
    ~ ex x y \/ exists c, grid s !! Z.to_nat (y * w + x) = Some c /\ shows cfg (vram s) x y c) ->
  flushing ex' j s.
Proof.
  intros [H0 H1 H2 H3 H4 H5 H6 H7 H8] Hex. constructor; try done.
  intros x y c Hx Hy Hne Hg. destruct (Hex x y Hx Hy Hne) as [He|(c' & Eg & Hs)]; [by apply H8|].
  rewrite Hg in Eg. by injection Eg as ->.
Qed.

Lemma fl_lengths ex j s i : flushing ex j s -> 0 <= i < r * w ->
  exists e g, map s !! Z.to_nat i = Some e /\ grid s !! Z.to_nat i = Some g /\ char_ok g.
Proof.
  intros Hs Hi. destruct (fl_len _ _ _ Hs) as [Lg Lm].
  destruct (lookup_lt_is_Some_2 (map s) (Z.to_nat i)) as [e Ee]; [lia|].
  destruct (lookup_lt_is_Some_2 (grid s) (Z.to_nat i)) as [g Eg]; [lia|].
  exists e, g. split_and!; try done. by apply (Forall_lookup_1 _ _ _ _ (fl_grid _ _ _ Hs) Eg).
Qed.

Lemma draw_cursor_run : cursor_enabled ctx = true ->
  exists s, draw_cursor ctx s0 = Some (tt, s) /\
    flushing (fun x y => is_old x y \/ is_cursor x y) 0 s /\ (cursor_shown -> cursor_drawn s).
Proof.
  intros Hen. destruct bounds as (Hr & Hw & Hx & Hy). unfold draw_cursor. mstep. fold cx cy r w.
  rewrite (proj2 (Z.leb_gt r cy)), orb_false_r by lia. destruct (Z.leb_spec w cx) as [Hoff|Hon].
  { exists s0. split; [done|]. split; [|unfold cursor_shown; lia].
    eapply flushing_shrink; [apply flushing_start|tauto]. }
  assert (Hcx : 0 <= cx < w) by lia. pose proof (cell_range r w cx cy Hcx Hy) as Hi.
  cbv zeta. replace (cx + cy * w) with (cy * w + cx) by lia. set (i := cy * w + cx) in *.
  destruct (fl_lengths _ _ _ i flushing_start Hi) as (e & g & Ee & Eg & Hg).
  destruct (Hf i Hi) as [Ec Hc]. rewrite Ee, (cell_at_run s0 i (f i) Ec).
  assert (Hinv : char_ok (inverted (f i))) by done. unfold inverted in Hinv.
  rewrite (plot_run _ _ _ _ _ _ flushing_start Hinv Hcx Hy). fold (inverted (f i)).
  pose proof (draw_flushing _ _ _ cx cy (inverted (f i)) flushing_start Hcx Hy) as H1.
  assert (H2 : flushing (fun x y => is_old x y \/ is_cursor x y) 0 (draw_cell cx cy (inverted (f i)) s0)).
  { eapply flushing_shrink; [exact H1|]. intros x y _ _ Hne. left. intros [He|He]; apply Hne; [by left|right].
    split; [by split|done]. }
  assert (Hshow : shows cfg (vram (draw_cell cx cy (inverted (f i)) s0)) cx cy (inverted (f i))).
  { by apply (draw_shows r w cfg (f_config _ _ _ Hframe)). }
  destruct e as [k|].
  - fold w. rewrite (settle_run _ _ _ i (f i) H2 Hi). eexists. split; [done|]. split.
    + apply settle_flushing; try done. left. right. split; [by split|done].
    + intros _. split; [|done]. cbn. apply list_lookup_insert_eq. destruct (fl_len _ _ _ H2). cbn in *. lia.
  - eexists. split; [done|]. split; [done|]. intros _. by split.
Qed.

Definition during (j : Z) (s : flanterm_fb_context) : Prop :=
  flushing (fun x y => is_old x y \/ is_cursor x y) j s /\ (cursor_shown -> cursor_drawn s).

(** An item that is not pending any more is done. *)
Lemma advance ex j s q : flushing ex j s -> j < queue_i s0 -> queue s0 !! Z.to_nat j = Some q ->
  map s !! Z.to_nat (item_cell w q) = Some None -> flushing ex (j + 1) s.
Proof.
  intros [H0 H1 H2 H3 H4 H5 H6 H7 H8] Hj Eq Em. constructor; try done; try lia.
  - intros i k Hi E. destruct (H5 i k Hi E) as (Hk & q' & Eq' & Ei). split; [|by exists q'].
    destruct (decide (k = j)) as [->|]; [|lia]. rewrite Eq in Eq'. injection Eq' as <-. subst i. congruence.
  - intros k q' Hk. apply H6. lia.
Qed.

Lemma flush_item_at j : 0 <= j < queue_i s0 -> triple (during j) (flush_item ctx j) (fun _ => during (j + 1)).
Proof.
  intros Hj s [Hs Hcur]. destruct (still_fields s (fl_still _ _ _ Hs)) as (_ & Eq & _).
  destruct (q_items _ _ _ Hqueue j Hj) as (q & Eqj & Hx & Hy & Hc & _).
  pose proof (cell_range r w _ _ Hx Hy) as Hi. fold (item_cell w q) in Hi.
  unfold flush_item. mstep. rewrite Eq, Eqj. cbv zeta. fold w. fold (item_cell w q).
  destruct (fl_item _ _ _ Hs j q ltac:(lia) Eqj) as [Em|Em]; rewrite Em.
  { exists tt, s. split; [done|]. split; [|done]. by apply (advance _ _ _ q); [|lia|..]. }
  assert (Ef : f (item_cell w q) = q_c q).
  { pose proof (fl_content _ _ _ Hs _ Hi) as Hct. unfold content in Hct. rewrite Em, Eq, Eqj in Hct. cbn in Hct. congruence. }
  rewrite (plot_run _ _ _ _ _ _ Hs Hc Hx Hy).
  pose proof (draw_flushing _ _ _ (q_x q) (q_y q) (q_c q) Hs Hx Hy) as H1.
  assert (Hshow : shows cfg (vram (draw_cell (q_x q) (q_y q) (q_c q) s)) (q_x q) (q_y q) (q_c q)).
  { by apply (draw_shows r w cfg (f_config _ _ _ Hframe)). }
  rewrite (settle_run _ _ _ (item_cell w q) (q_c q) H1 Hi).
  assert (H2 := settle_flushing _ _ _ _ _ _ H1 Hx Hy (eq_sym Ef) (or_intror Hshow)). fold (item_cell w q) in H2.
  destruct (fl_len _ _ _ Hs) as [Lg Lm].
  eexists _, _. split; [done|]. split.
  - apply (advance _ _ _ q); [|lia|done|cbn; apply list_lookup_insert_eq; lia].
    eapply flushing_shrink; [exact H2|]. intros x y Hx' Hy' Hne.
    destruct (decide ((x, y) = (q_x q, q_y q))) as [[= -> ->]|Hd]; [right|left; tauto].
    exists (q_c q). split; [|done]. cbn. apply list_lookup_insert_eq. lia.
  - intros Hshown. destruct (Hcur Hshown) as [Ecm Ecs].
    destruct bounds as (Hr & Hw & Bx & By). destruct Hshown as [_ Hxw].
    assert (Hne : (q_x q, q_y q) <> (cx, cy)).
    { intros [= E1 E2]. unfold item_cell in Em. rewrite E1, E2, Ecm in Em. done. }
    split.
    + cbn. rewrite list_lookup_insert_ne; [done|]. unfold item_cell. intros E. apply Z2Nat.inj in E; [|lia|nia].
      apply cell_inj in E as [E1 E2]; [congruence|lia..].
    + cbn. apply (draw_leaves r w cfg (f_config _ _ _ Hframe)); done || lia.
Qed.

(** The cursor's old cell is drawn again unless the cursor is still there. *)
Lemma erase_cursor_at : triple (during (queue_i s0)) (erase_cursor ctx)
  (fun _ s => flushing is_cursor (queue_i s0) s /\ (cursor_shown -> cursor_drawn s)).
Proof.
  intros s [Hs Hcur]. destruct (still_fields s (fl_still _ _ _ Hs)) as (_ & _ & _ & E3 & E4 & E5 & E6).
  destruct bounds as (Hr & Hw & Bx & By). destruct (f_old _ _ _ Hframe) as [Ox Oy].
  unfold erase_cursor. mstep. rewrite E3, E4, E5, E6. fold w r.
  set (ox := old_cursor_x s0) in *. set (oy := old_cursor_y s0) in *.
  destruct (negb (ox =? cx) || negb (oy =? cy) || negb (cursor_enabled ctx)) eqn:Eb.
  - destruct ((ox <? w) && (oy <? r)) eqn:Eo.
    + apply andb_true_iff in Eo as [Eo1 Eo2]. apply Z.ltb_lt in Eo1, Eo2.
      assert (Hox : 0 <= ox < w) by lia. assert (Hoy : 0 <= oy < r) by lia.
      replace (ox + oy * w) with (oy * w + ox) by lia.
      destruct (fl_lengths _ _ _ (oy * w + ox) Hs (cell_range r w ox oy Hox Hoy)) as (e & g & Ee & Eg & Hg).
      rewrite Eg. rewrite (plot_run _ _ _ _ _ _ Hs Hg Hox Hoy). eexists _, _. split; [done|]. split.
      * eapply flushing_shrink; [apply (draw_flushing _ _ _ _ _ _ Hs Hox Hoy)|].
        intros x y Hx Hy Hne. destruct (decide ((x, y) = (ox, oy))) as [[= -> ->]|Hd].
        -- right. exists g. split; [done|]. by apply (draw_shows r w cfg (f_config _ _ _ Hframe)).
        -- left. unfold is_old. fold ox oy. tauto.
      * intros Hsh. destruct (Hcur Hsh) as [C1 C2]. split; [done|].
        apply (draw_leaves r w cfg (f_config _ _ _ Hframe)); try done; [destruct Hsh; lia|].
        intros [= A1 A2]. rewrite A1, A2, !Z.eqb_refl in Eb. destruct Hsh as [Hen _]. by rewrite Hen in Eb.
    + exists tt, s. split; [done|]. split; [|done]. eapply flushing_shrink; [exact Hs|].
      intros x y Hx Hy Hne. left. unfold is_old. fold ox oy. intros [[= -> ->]|]; [|tauto].
      apply andb_false_iff in Eo as [Eo|Eo]; apply Z.ltb_ge in Eo; lia.
  - exists tt, s. split; [done|]. split; [|done]. eapply flushing_shrink; [exact Hs|].
    intros x y Hx Hy Hne. left. unfold is_old. fold ox oy. intros [[= -> ->]|]; [|tauto].
    apply Hne. apply orb_false_iff in Eb as [Eb E7]. apply orb_false_iff in Eb as [E8 E9].
    apply negb_false_iff in E7, E8, E9. apply Z.eqb_eq in E8, E9. split; [split; [done|lia]|congruence].
Qed.

Lemma flush_loop : exists s,
  (_ ← (if cursor_enabled ctx then draw_cursor ctx else mret tt);
   n ← gets queue_i; _ ← for_range 0 n (flush_item ctx); erase_cursor ctx) s0 = Some (tt, s) /\
  flushing is_cursor (queue_i s0) s /\ (cursor_shown -> cursor_drawn s).
Proof.
  assert (H1 : exists s1, (if cursor_enabled ctx then draw_cursor ctx else mret tt) s0 = Some (tt, s1) /\ during 0 s1).
  { destruct (cursor_enabled ctx) eqn:Hen.
    - destruct (draw_cursor_run Hen) as (s1 & E & H1 & H2). by exists s1.
    - exists s0. split; [done|]. split; [|intros [H _]; congruence].
      eapply flushing_shrink; [apply flushing_start|tauto]. }
  destruct H1 as (s1 & E1 & H1). destruct (still_fields s1 (fl_still _ _ _ (proj1 H1))) as (_ & _ & En & _).
  destruct (triple_for_range_at during 0 (queue_i s0) (flush_item ctx)) with (s := s1) as ([] & s2 & E2 & H2); try done.
  { apply (q_count _ _ _ Hqueue). }
  { apply flush_item_at. }
  destruct (erase_cursor_at s2 H2) as ([] & s3 & E3 & H3). exists s3. split; [|done].
  rewrite (bind_run _ _ _ _ _ E1), (bind_run _ _ _ _ _ (eq_refl : gets queue_i s1 = Some (queue_i s1, s1))), En.
  by rewrite (bind_run _ _ _ _ _ E2).
Qed.

(** What is left at the end: nothing is pending. *)
Definition flushed (s : flanterm_fb_context) : flanterm_fb_context :=
  s <| old_cursor_x := cursor_x s |> <| old_cursor_y := cursor_y s |> <| queue_i := 0 |>.

Lemma flushed_ok s : flushing is_cursor (queue_i s0) s -> (cursor_shown -> cursor_drawn s) ->
  fb_ok r w (flushed s) /\ (forall i, 0 <= i < r * w -> content (flushed s) i = Some (f i)) /\
  forall x y, 0 <= x < w -> 0 <= y < r -> shows cfg (vram s) x y
    (if cursor_enabled ctx && (x =? cx) && (y =? cy) then inverted (f (y * w + x)) else f (y * w + x)).
Proof.
  intros [H0 H1 H2 H3 H4 H5 H6 H7 H8] Hcur. destruct (still_fields s H1) as (E1 & E2 & E3 & E4 & E5 & _).
  destruct bounds as (Hr & Hw & Bx & By).
  assert (Hgrid : forall i, 0 <= i < r * w -> grid s !! Z.to_nat i = Some (f i)).
  { intros i Hi. pose proof (H4 i Hi) as Hc. unfold content in Hc.
    destruct (map s !! Z.to_nat i) as [[k|]|] eqn:Em; [|done..].
    destruct (H5 i k) as [Hk _]; [lia|done|lia]. }
  split_and!.
  - split; [|constructor].
    + destruct Hframe as [F1 F2 F3 F4 F5 F6]. constructor; cbn; rewrite ?E1, ?E4, ?E5; try done.
      * pose proof (f_equal saved_state_cursor_x H1) as G1. pose proof (f_equal saved_state_cursor_y H1) as G2.
        cbn in G1, G2. by rewrite G1, G2.
      * lia.
      * intros x y c Hx Hy Hne Hg. apply H8; try done. unfold is_cursor. tauto.
    + cbn. rewrite E2. destruct (q_lengths _ _ _ Hqueue) as (_ & Lq & _). tauto.
    + cbn. nia.
    + cbn. lia.
    + cbn. intros i k Hi Em. destruct (H5 i k Hi Em) as [Hk _]. lia.
    + done.
  - intros i Hi. pose proof (H4 i Hi) as Hc. unfold content in Hc |- *. exact Hc.
  - intros x y Hx Hy. pose proof (Hgrid _ (cell_range r w x y Hx Hy)) as Hg.
    destruct (cursor_enabled ctx && (x =? cx) && (y =? cy)) eqn:Eb.
    + apply andb_true_iff in Eb as [Eb Ey]. apply andb_true_iff in Eb as [Een Ex].
      apply Z.eqb_eq in Ex, Ey. subst x y. apply Hcur. split; [done|lia].
    + apply H8; try done. intros [[Hen _] [= -> ->]]. by rewrite Hen, !Z.eqb_refl in Eb.
Qed.
End Flush.

Lemma call_flush_run s : exists l, call_flush s = Some (tt, s <| flushes := l |>).
Proof.
  unfold call_flush. mstep. destruct (flush_callback (config s)); [by eexists|].
  exists (flushes s). by destruct s.
Qed.

Lemma flush_run (ctx : flanterm_context) (v : screen_model) (s : flanterm_fb_context) :
  geometry ctx -> fb_ok (rows ctx) (cols ctx) s -> models (rows ctx) (cols ctx) v s ->
  exists s', flanterm_fb_double_buffer_flush ctx s = Some (tt, s') /\
    fb_ok (rows ctx) (cols ctx) s' /\ models (rows ctx) (cols ctx) v s' /\ queue_i s' = 0 /\
    config s' = config s /\
    forall x y, 0 <= x < cols ctx -> 0 <= y < rows ctx -> shows (config s) (vram s') x y
      (if cursor_enabled ctx && (x =? sm_x v) && (y =? sm_y v)
       then inverted (sm_cell v x y) else sm_cell v x y).
Proof.
  intros Hgeo Hok Hm. destruct (at_model ctx Hgeo v s (conj Hok Hm)) as (f & Hfv & Hat).
  destruct Hok as [Hfr Hq]. destruct Hat as (_ & _ & Hf).
  destruct (flush_loop ctx Hgeo s f Hfr Hq Hf) as (s1 & E & H1 & H2).
  destruct (flushed_ok ctx Hgeo s f Hfr Hq Hf s1 H1 H2) as (Hok' & Hcont & Hshow).
  destruct (call_flush_run (flushed s1)) as [l El].
  pose proof (fl_still _ _ _ _ _ _ H1) as Hst. pose proof (f_equal config Hst) as C1. cbn in C1.
  exists ((flushed s1) <| flushes := l |>). split.
  { rewrite <- El. unfold flanterm_fb_double_buffer_flush. revert E. mstep. intros E.
    destruct ((if cursor_enabled ctx then draw_cursor ctx else _) s) as [[[] t]|]; [|done].
    destruct (for_range 0 (queue_i t) (flush_item ctx) t) as [[[] t2]|]; [|done]. by rewrite E. }
  split_and!.
  - destruct Hok' as [[] []]. split; by constructor.
  - destruct Hm as (_ & Hfields). split.
    + intros x y Hx Hy. rewrite <- Hfv by done. apply (Hcont (y * cols ctx + x)), cell_range; done.
    + revert Hst Hfields. clear. destruct s, s1. unfold still. cbn. intros Hst. by injection Hst as; subst.
  - done.
  - done.
  - intros x y Hx Hy. destruct Hm as (_ & _ & _ & Ex & Ey & _). rewrite <- Ex, <- Ey, <- (Hfv x y Hx Hy).
    exact (Hshow x y Hx Hy).
Qed.

(** C21: a flush draws the screen.  On a well-formed context that shows the
    screen [v], [flanterm_fb_double_buffer_flush] returns; afterwards nothing
    is pending, the logical screen is the same, and the pixels of every cell
    are those of its character (dots of the font in the foreground,
    the others in the background, unset colours showing the canvas), with the
    colours exchanged in the cell of an enabled cursor and nowhere else. *)
Theorem flush_draws_screen (ctx : flanterm_context) (v : screen_model) (s : flanterm_fb_context) :
  geometry ctx -> fb_ok (rows ctx) (cols ctx) s -> models (rows ctx) (cols ctx) v s ->
  exists s', flanterm_fb_double_buffer_flush ctx s = Some (tt, s') /\
    fb_ok (rows ctx) (cols ctx) s' /\ models (rows ctx) (cols ctx) v s' /\ queue_i s' = 0 /\
    config s' = config s /\
    forall x y, 0 <= x < cols ctx -> 0 <= y < rows ctx -> shows (config s) (vram s') x y
      (if cursor_enabled ctx && (x =? sm_x v) && (y =? sm_y v)
       then inverted (sm_cell v x y) else sm_cell v x y).
Proof. exact (flush_run ctx v s). Qed.

(** ** The framebuffer keeps the terminal's contract *)

Lemma model_of r w s : exists v, (forall x y c, content s (y * w + x) = Some c -> 0 <= x < w -> 0 <= y < r ->
  sm_cell v x y = c) /\ sm_fg v = text_fg s /\ sm_bg v = text_bg s /\ sm_x v = cursor_x s /\ sm_y v = cursor_y s /\
  sm_saved v = (saved_state_text_fg s, saved_state_text_bg s, saved_state_cursor_x s, saved_state_cursor_y s).
Proof.
  exists (Screen (fun x y => default (FbChar 0 0 0) (content s (y * w + x))) (text_fg s) (text_bg s) (cursor_x s)
    (cursor_y s) (saved_state_text_fg s, saved_state_text_bg s, saved_state_cursor_x s, saved_state_cursor_y s)).
  split_and!; try done. intros x y c E _ _. cbn. by rewrite E.
Qed.

(** Every well-formed context shows some screen. *)
Lemma shows_some_screen ctx s : geometry ctx -> fb_ok (rows ctx) (cols ctx) s ->
  exists v, models (rows ctx) (cols ctx) v s.
Proof.
  intros Hgeo [Hfr Hq]. destruct Hgeo as (Hr & Hw & _). destruct (model_of (rows ctx) (cols ctx) s) as (v & Hc & H1 & H2 & H3 & H4 & H5).
  exists v. split; [|done]. intros x y Hx Hy.
  destruct (content_some _ _ Hr Hw s (y * cols ctx + x) Hq) as (c & Ec & _); [by apply cell_range|].
  by rewrite (Hc x y c Ec Hx Hy).
Qed.

Section Contract.
Context (ctx : flanterm_context).

(** From the refinement of an operation to its safety. *)
Lemma keeps_refines (m : MF unit) (g : screen_model -> screen_model) :
  geometry ctx -> refines ctx m g ->
  triple (fb_ok (rows ctx) (cols ctx)) m (fun _ => fb_ok (rows ctx) (cols ctx)).
Proof.
  intros Hgeo Hm s Hs. destruct (shows_some_screen ctx s Hgeo Hs) as [v Hv].
  destruct (Hm v s (conj Hs Hv)) as ([] & s' & E & Hs' & _). by exists tt, s'.
Qed.

(** The colours are no part of what is well formed. *)
Lemma fb_ok_colours r w f b s : fb_ok r w s -> fb_ok r w (s <| text_fg := f |> <| text_bg := b |>).
Proof. intros [[] []]. split; by constructor. Qed.

Lemma keeps_fg r w v : triple (fb_ok r w) (set_fg v) (fun _ => fb_ok r w).
Proof.
  intros s Hs. eexists tt, _. split; [done|]. pose proof (fb_ok_colours r w v (text_bg s) s Hs) as H.
  by destruct s.
Qed.
Lemma keeps_bg r w v : triple (fb_ok r w) (set_bg v) (fun _ => fb_ok r w).
Proof.
  intros s Hs. eexists tt, _. split; [done|]. pose proof (fb_ok_colours r w (text_fg s) v s Hs) as H.
  by destruct s.
Qed.

(** A colour computed from the configuration. *)
Lemma keeps_config r w (pick : fb_config -> option Z) (m : Z -> MF unit) :
  (forall cfg, config_ok r w cfg -> is_Some (pick cfg)) ->
  (forall v, triple (fb_ok r w) (m v) (fun _ => fb_ok r w)) ->
  triple (fb_ok r w) (c ← gets config; v ← liftO (pick c); m v) (fun _ => fb_ok r w).
Proof.
  intros Hp Hm s Hs. destruct (Hp (config s)) as [v Ev]; [apply Hs|]. mstep. rewrite Ev. by apply Hm.
Qed.

Lemma ansi_some r w cfg i : config_ok r w cfg -> 0 <= i < 8 ->
  is_Some (ansi_colours cfg !! Z.to_nat i) /\ is_Some (ansi_bright_colours cfg !! Z.to_nat i).
Proof. intros Hc Hi. destruct (ok_ansi _ _ _ Hc) as [H1 H2]. split; apply lookup_lt_is_Some_2; lia. Qed.

Lemma fb_get_cursor : geometry ctx ->
  triple (fb_ok (rows ctx) (cols ctx)) (get_cursor_pos ctx)
    (fun p s => 0 <= p.1 < cols ctx /\ 0 <= p.2 < rows ctx /\ fb_ok (rows ctx) (cols ctx) s).
Proof.
  intros (Hr & Hw & _) s Hs. destruct (f_cursor _ _ _ (proj1 Hs)) as [Hx Hy]. cbn [get_cursor_pos fb_backend].
  unfold flanterm_fb_get_cursor_pos. mstep. eexists _, s. split; [done|]. cbn [fst snd].
  rewrite !u64_small by lia. split_and!; try done; case_if; lia.
Qed.

Lemma fb_flush : geometry ctx ->
  triple (fb_ok (rows ctx) (cols ctx)) (double_buffer_flush ctx) (fun _ => fb_ok (rows ctx) (cols ctx)).
Proof.
  intros Hgeo s Hs. destruct (shows_some_screen ctx s Hgeo Hs) as [v Hv].
  destruct (flush_run ctx v s Hgeo Hs Hv) as (s' & E & Hs' & _). by exists tt, s'.
Qed.
End Contract.

#[export] Instance fb_safe : SafeBackend flanterm_fb_context.
Proof.
  refine {| binv := fb_ok |}; intros c.
  - intros ch Hg Hc. eapply keeps_refines; [done|by apply refines_put].
  - intros move Hg. eapply keeps_refines; [done|by apply refines_clear].
  - intros x y Hg Hx Hy. eapply keeps_refines; [done|by apply refines_set_cursor].
  - apply fb_get_cursor.
  - intros i Hi. apply keeps_config; [|apply keeps_fg]. intros cfg Hc. by apply (ansi_some (rows c) (cols c) cfg i).
  - intros i Hi. apply keeps_config; [|apply keeps_bg]. intros cfg Hc. by apply (ansi_some (rows c) (cols c) cfg i).
  - intros i Hi. apply keeps_config; [|apply keeps_fg]. intros cfg Hc. by apply (ansi_some (rows c) (cols c) cfg i).
  - intros i Hi. apply keeps_config; [|apply keeps_bg]. intros cfg Hc. by apply (ansi_some (rows c) (cols c) cfg i).
  - intros v Hv. apply (keeps_config _ _ (fun cfg => convert_colour cfg v)); [|apply keeps_fg].
    intros cfg Hc. by apply (ok_convert _ _ _ Hc).
  - intros v Hv. apply (keeps_config _ _ (fun cfg => convert_colour cfg v)); [|apply keeps_bg].
    intros cfg Hc. by apply (ok_convert _ _ _ Hc).
  - intros s Hs. by apply keeps_fg.
  - intros s Hs. by apply keeps_bg.
  - intros s Hs. by apply keeps_fg.
  - intros s Hs. by apply keeps_bg.
  - intros nx ny ox oy Hg H1 H2 H3 H4. eapply keeps_refines; [done|by apply refines_move].
  - intros Hg. eapply keeps_refines; [done|by apply refines_scroll].
  - intros Hg. eapply keeps_refines; [done|by apply refines_revscroll].
  - intros s [[] []]. eexists tt, _. split; [done|]. split; by constructor.
  - intros s [[] []]. eexists tt, _. split; [done|]. split; by constructor.
  - intros s [[] []]. eexists tt, _. split; [done|]. split; by constructor.
  - apply fb_flush.
  - intros a s Hs. by exists tt, s.
Defined.

(** The pixels show the logical screen, and nothing is pending. *)
Definition screen_shown (c : flanterm_context) (s : flanterm_fb_context) : Prop :=
  queue_i s = 0 /\ exists v, models (rows c) (cols c) v s /\
  forall x y, 0 <= x < cols c -> 0 <= y < rows c -> shows (config s) (vram s) x y
    (if cursor_enabled c && (x =? sm_x v) && (y =? sm_y v) then inverted (sm_cell v x y) else sm_cell v x y).

(** C5: what is written is shown.  Writing any bytes to a well-formed
    terminal on a framebuffer returns and leaves it well formed; and unless
    automatic flushing is off the pixels of every cell then show the logical
    screen, with the cursor's cell inverted. *)
Theorem written_text_shown (r w : Z) (buf : list Z) (t : terminal flanterm_fb_context) :
  1 <= r < 2 ^ 31 -> 1 <= w < 2 ^ 31 -> tinv r w t ->
  exists t', flanterm_write buf t = Some (tt, t') /\ tinv r w t' /\
    (autoflush (ctx t') = true -> screen_shown (ctx t') (screen t')).
Proof.
  intros Hr Hw Ht. destruct (safe_put_bytes r w Hr Hw buf t Ht) as ([] & [c s] & E & _ & Hc & Hs).
  cbn [ctx screen] in Hc, Hs. unfold flanterm_write. rewrite (bind_run _ _ _ _ _ E). unfold rd. mstep. cbn [ctx].
  pose proof (wf_geometry r w Hr Hw c Hc) as Hgeo.
  destruct (autoflush c) eqn:Ea; [|exists (Terminal c s); split_and!; try done; cbn; congruence].
  assert (Hs' : fb_ok (rows c) (cols c) s) by (by rewrite (wf_rows _ _ _ Hc), (wf_cols _ _ _ Hc)).
  destruct (shows_some_screen c s Hgeo Hs') as [v Hv].
  destruct (flush_run c v s Hgeo Hs' Hv) as (s1 & E1 & Hok & Hm & Hq & Hcfg & Hshow).
  exists (Terminal c s1). split; [|split].
  - unfold call. cbn. by rewrite E1.
  - split; [done|]. cbn. by rewrite (wf_rows _ _ _ Hc), (wf_cols _ _ _ Hc) in Hok.
  - intros _. split; [done|]. exists v. cbn. rewrite Hcfg. done.
Qed.
