(* ===== verification/FlantermInit.v ===== *)
(** * The framebuffer terminal: initialisation

    A full refresh draws the whole screen; the context [flanterm_fb_init]
    makes for the kernel's console is well formed, and the static pool it is
    allocated from is always large enough. *)
From S2P Require Import Prelude FlantermTables FlantermFont Flanterm FlantermSpec FlantermFb FlantermFbSpec FlantermScreen FlantermFlush.

Section Refresh.
Context (ctx : flanterm_context) (s0 : flanterm_fb_context).
Hypothesis Hgeo : geometry ctx.
Let r := rows ctx.
Let w := cols ctx.
Let cfg := config s0.
Hypothesis Hok : config_ok r w cfg.
Hypothesis Hcanvas : forall l, canvas cfg = Some l -> Z.of_nat (length l) = width cfg * height cfg.
Hypothesis Hvram : vram_ok cfg (vram s0).
Hypothesis Hqueue : queue_ok r w s0.
Hypothesis Hempty : queue_i s0 = 0.
Hypothesis Hcursor : 0 <= cursor_x s0 <= w /\ 0 <= cursor_y s0 < r.

Lemma refresh_pixel_paints x y : 0 <= x < width cfg -> 0 <= y < height cfg ->
  exists v, paints (refresh_pixel cfg x y) {[pixel_addr cfg x y := v]}.
Proof.
  intros Hx Hy. assert (Hv : exists v, (match canvas cfg with
             | Some pixels => pixels !! Z.to_nat (y * width cfg + x)
             | None => Some (default_bg cfg)
             end) = Some v).
  { destruct (canvas cfg) as [l|] eqn:El; [|by eexists]. pose proof (Hcanvas l eq_refl).
    destruct (lookup_lt_is_Some_2 l (Z.to_nat (y * width cfg + x))) as [v Ev]; [nia|]. by exists v. }
  destruct Hv as [v Ev]. exists v. intros s Hs. rewrite <- (paints_store (pixel_addr cfg x y) v s Hs).
  unfold refresh_pixel, pixel_addr. destruct (rotation cfg); mstep; rewrite Ev; f_equal; lia.
Qed.

Lemma refresh_background : exists m, vram_ok cfg m /\
  for_range 0 (height cfg) (fun y => for_range 0 (width cfg) (fun x => refresh_pixel cfg x y)) s0
  = Some (tt, s0 <| vram := m |>).
Proof.
  set (P (s : flanterm_fb_context) := exists m, vram_ok cfg m /\ s = s0 <| vram := m |>).
  assert (Ht : triple P (for_range 0 (height cfg) (fun y => for_range 0 (width cfg) (fun x => refresh_pixel cfg x y)))
    (fun _ => P)).
  { apply triple_for_range. intros y Hy. apply triple_for_range. intros x Hx s (m & Hm & ->).
    destruct (refresh_pixel_paints x y Hx Hy) as [v Hv]. rewrite Hv.
    - eexists tt, _. split; [done|]. exists ({[pixel_addr cfg x y := v]} ∪ m). split; [by apply draw_vram_ok|done].
    - intros a Ha. destruct (decide (a = pixel_addr cfg x y)) as [->|Hne]; [by apply Hm|].
      by rewrite lookup_singleton_ne in Ha; [destruct Ha|]. }
  destruct (Ht s0) as ([] & s & E & m & Hm & ->).
  - exists (vram s0). split; [done|]. by destruct s0.
  - exists m. done.
Qed.

Lemma grid_some i : 0 <= i < r * w -> exists c, grid s0 !! Z.to_nat i = Some c /\ char_ok c.
Proof.
  intros Hi. destruct (q_lengths _ _ _ Hqueue) as (Lg & _).
  destruct (lookup_lt_is_Some_2 (grid s0) (Z.to_nat i)) as [c Ec]; [lia|]. exists c. split; [done|].
  by apply (Forall_lookup_1 _ _ _ _ (q_grid _ _ _ Hqueue) Ec).
Qed.

(** All the cells drawn, up to index [j]. *)
Definition drawn_below (j : Z) (s : flanterm_fb_context) : Prop :=
  exists m, vram_ok cfg m /\ s = s0 <| vram := m |> /\
  forall x y c, 0 <= x < w -> 0 <= y < r -> y * w + x < j -> grid s0 !! Z.to_nat (y * w + x) = Some c ->
    shows cfg m x y c.

Lemma refresh_cells m : vram_ok cfg m -> exists m', drawn_below (r * w) (s0 <| vram := m' |>) /\
  for_range 0 (r * w) (fun i =>
    if cols ctx =? 0 then ub else
    g ← gets grid; c ← liftO (g !! Z.to_nat i); plot ctx c (i mod cols ctx) (i / cols ctx)) (s0 <| vram := m |>)
  = Some (tt, s0 <| vram := m' |>).
Proof.
  intros Hm. pose proof Hgeo as (Hr & Hw & _). fold r in Hr. fold w in Hw.
  destruct (triple_for_range_at drawn_below 0 (r * w) (fun i =>
    if cols ctx =? 0 then ub else
    g ← gets grid; c ← liftO (g !! Z.to_nat i); plot ctx c (i mod cols ctx) (i / cols ctx)))
    with (s := s0 <| vram := m |>) as ([] & s & E & Hs).
  - nia.
  - intros j Hj s (m1 & Hm1 & -> & Hd). fold w. rewrite (proj2 (Z.eqb_neq w 0)) by lia.
    destruct (index_cell r w j) as (Hx & Hy & Ej); [lia|done|].
    destruct (grid_some j Hj) as (c & Ec & Hc). mstep. cbn [grid set_field]. rewrite Ec.
    rewrite (plot_paints r w cfg Hok ctx c (j mod w) (j / w)) by done. eexists tt, _. split; [done|].
    eexists. split; [by apply draw_vram_ok|]. split; [done|]. intros x y c' Hx' Hy' Hlt Eg.
    destruct (decide ((x, y) = (j mod w, j / w))) as [[= -> ->]|Hne].
    + rewrite Ej, Ec in Eg. injection Eg as <-. by apply (draw_shows r w cfg Hok).
    + apply (draw_leaves r w cfg Hok); try done. apply Hd; try done.
      assert (y * w + x <> j); [|lia]. intros Eq. apply Hne. rewrite <- Ej in Eq.
      apply cell_inj in Eq as [-> ->]; done.
  - exists m. split; [done|]. split; [done|]. intros x y c Hx Hy Hlt. nia.
  - destruct Hs as (m' & Hm' & -> & Hd). exists m'. split; [|done]. by exists m'.
Qed.

(** After a full refresh with nothing pending, the pixels show the grid. *)
Lemma full_refresh_draws : exists m l, vram_ok cfg m /\
  flanterm_fb_full_refresh ctx s0 = Some (tt, s0 <| vram := m |> <| flushes := l |>) /\
  forall x y c, 0 <= x < w -> 0 <= y < r -> grid s0 !! Z.to_nat (y * w + x) = Some c ->
    shows cfg m x y (if cursor_enabled ctx && (x =? cursor_x s0) && (y =? cursor_y s0) then inverted c else c).
Proof.
  pose proof Hgeo as (Hr & Hw & _). fold r in Hr. fold w in Hw.
  destruct refresh_background as (m0 & Hm0 & E0). destruct (refresh_cells m0 Hm0) as (m1 & Hd & E1).
  destruct Hd as (m1' & Hm1 & Em & Hd). apply (f_equal vram) in Em. cbn in Em. subst m1'.
  unfold flanterm_fb_full_refresh.
  rewrite (bind_run _ _ s0 s0 cfg) by done. rewrite (bind_run _ _ _ _ _ E0).
  fold r w. fold w in E1. rewrite (bind_run _ _ _ _ _ E1).
  assert (Hcur : exists m2, vram_ok cfg m2 /\
    (if cursor_enabled ctx then draw_cursor ctx else mret tt) (s0 <| vram := m1 |>) = Some (tt, s0 <| vram := m2 |>) /\
    forall x y c, 0 <= x < w -> 0 <= y < r -> grid s0 !! Z.to_nat (y * w + x) = Some c ->
      shows cfg m2 x y (if cursor_enabled ctx && (x =? cursor_x s0) && (y =? cursor_y s0) then inverted c else c)).
  { destruct (cursor_enabled ctx).
    2: { exists m1. split; [done|]. split; [done|]. intros x y c Hx Hy. apply Hd; try done. nia. }
    unfold draw_cursor. mstep. cbn [cursor_x cursor_y set_field]. fold r w.
    destruct (Z.leb_spec w (cursor_x s0)); cbn [orb].
    { exists m1. split; [done|]. split; [done|]. intros x y c Hx Hy. rewrite (proj2 (Z.eqb_neq x _)) by lia.
      apply Hd; try done. nia. }
    rewrite (proj2 (Z.leb_gt r (cursor_y s0))) by lia. cbv zeta.
    replace (cursor_x s0 + cursor_y s0 * w) with (cursor_y s0 * w + cursor_x s0) by lia.
    set (i := cursor_y s0 * w + cursor_x s0). assert (Hi : 0 <= i < r * w) by (apply cell_range; lia).
    destruct (grid_some i Hi) as (c & Ec & Hc).
    destruct (q_lengths _ _ _ Hqueue) as (_ & _ & Lm).
    destruct (lookup_lt_is_Some_2 (map s0) (Z.to_nat i)) as [e Ee]; [lia|]. cbn [map set_field]. rewrite Ee.
    destruct e as [k|]; [destruct (q_map _ _ _ Hqueue i k); lia || done|].
    assert (Ect : content (s0 <| vram := m1 |>) i = Some c) by (unfold content; cbn [map grid set_field]; by rewrite Ee).
    rewrite (cell_at_run _ _ _ Ect).
    rewrite (plot_paints r w cfg Hok ctx (FbChar (glyph c) (bg c) (fg c)) (cursor_x s0) (cursor_y s0)) by (done || lia).
    eexists. split; [by apply draw_vram_ok|]. split; [done|]. intros x y c' Hx Hy Eg.
    destruct (Z.eqb_spec x (cursor_x s0)) as [->|Hnx]; [destruct (Z.eqb_spec y (cursor_y s0)) as [->|Hny]|]; cbn [andb].
    - fold i in Eg. rewrite Ec in Eg. injection Eg as <-. by apply (draw_shows r w cfg Hok).
    - apply (draw_leaves r w cfg Hok); try done; try lia; [congruence|]. apply Hd; try done. nia.
    - apply (draw_leaves r w cfg Hok); try done; try lia; [congruence|]. apply Hd; try done. nia. }
  destruct Hcur as (m2 & Hm2 & E2 & Hshow). rewrite (bind_run _ _ _ _ _ E2).
  destruct (call_flush_run (s0 <| vram := m2 |>)) as [l El]. exists m2, l. done.
Qed.
End Refresh.

(** ** The static pool *)

Lemma bump_alloc_fits pool s b :
  0 <= s < 2 ^ 32 -> 0 <= bump_alloc_ptr b ->
  bump_alloc_ptr b + (if bump_alloc_base_offset_added b then 0 else 15) + s + 15 <= FLANTERM_FB_BUMP_ALLOC_POOL_SIZE ->
  exists p, bump_alloc pool s b = (true, BumpState p true (bump_allocated_instance b)) /\
    0 <= p <= bump_alloc_ptr b + (if bump_alloc_base_offset_added b then 0 else 15) + s + 15.
Proof.
  intros Hs Hp Hfit. unfold FLANTERM_FB_BUMP_ALLOC_POOL_SIZE in *. unfold bump_alloc.
  assert (Hland : forall z, Z.land z 0xf = z mod 16) by (intros; change 0xf with (Z.ones 4); by rewrite Z.land_ones).
  assert (Hldiff : forall z, Z.ldiff z 0xf = z - z mod 16).
  { intros z. change 0xf with (Z.ones 4). rewrite Z.ldiff_ones_r, Z.shiftl_mul_pow2, Z.shiftr_div_pow2 by lia.
    change (2 ^ 4) with 16. pose proof (Z.div_mod z 16). lia. }
  set (ptr := if _ && _ then _ else _).
  assert (Hptr : 0 <= ptr <= bump_alloc_ptr b + (if bump_alloc_base_offset_added b then 0 else 15)).
  { unfold ptr. rewrite Hland. pose proof (Z.mod_pos_bound pool 16).
    destruct (bump_alloc_base_offset_added b); cbn [negb andb]; [lia|].
    unfold truthy. destruct (Z.eqb_spec (pool mod 16) 0); cbn [negb]; lia. }
  cbv zeta. set (s' := if truthy _ then _ else s).
  assert (Hs' : 0 <= s' <= s + 15).
  { unfold s'. rewrite Hland. unfold truthy. pose proof (Z.mod_pos_bound s 16).
    destruct (Z.eqb_spec (s mod 16) 0); cbn [negb]; [lia|]. rewrite u64_small, Hldiff by lia.
    replace ((s + 0x10) mod 16) with (s mod 16); [lia|]. replace (s + 0x10) with (s + 1 * 16) by lia.
    by rewrite Z.mod_add. }
  assert (bump_alloc_ptr b <= 873000) by (destruct (bump_alloc_base_offset_added b); lia).
  assert (ptr + s' <= 873000) by (destruct (bump_alloc_base_offset_added b); lia).
  rewrite u64_small by lia. rewrite (proj2 (Z.ltb_ge 873000 _)) by lia.
  eexists. split; [done|]. destruct (bump_alloc_base_offset_added b); lia.
Qed.

(** Several allocations, each rounded up to 16 bytes. *)
Lemma allocate_all_fits pool n sizes got p inst :
  Forall (fun s => 0 <= s < 2 ^ 32) sizes -> 0 <= p ->
  p + foldr Z.add 0 sizes + 15 * Z.of_nat (length sizes) <= FLANTERM_FB_BUMP_ALLOC_POOL_SIZE ->
  exists p', allocate_all (POOL pool) n sizes got (BumpState p true inst)
      = (true, rev sizes ++ got, BumpState p' true inst) /\
    0 <= p' <= p + foldr Z.add 0 sizes + 15 * Z.of_nat (length sizes).
Proof.
  intros Hs. revert n p got. induction Hs as [|s sizes Hs1 Hs IH]; intros n p got Hp Hfit.
  { exists p. split; [done|]. cbn. lia. }
  cbn [allocate_all foldr length allocate] in *.
  assert (Hpos : 0 <= foldr Z.add 0 sizes).
  { clear -Hs. induction Hs; cbn; lia. }
  destruct (bump_alloc_fits pool s (BumpState p true inst)) as (q & -> & Hq); cbn [bump_alloc_ptr bump_alloc_base_offset_added] in *; [done|done|lia|].
  cbn [bump_allocated_instance]. destruct (IH (S n) q (s :: got)) as (q' & -> & Hq'); [lia|lia|].
  exists q'. cbn [rev]. rewrite <- app_assoc. split; [done|lia].
Qed.

(** ** The kernel's console *)

Lemma length_bind_const {A B} (f : A -> list B) (l : list A) (n : nat) :
  (forall x, x ∈ l -> length (f x) = n) -> length (l ≫= f) = (length l * n)%nat.
Proof.
  intros Hf. induction l as [|x l IH]; [done|]. cbn. rewrite length_app, (Hf x) by constructor.
  f_equal. apply IH. intros y Hy. apply Hf. by constructor.
Qed.

Lemma length_zseq n : length (zseq n) = Z.to_nat n.
Proof. unfold zseq. by rewrite length_fmap, length_seq. Qed.

Lemma elem_of_zseq n x : x ∈ zseq n -> 0 <= x < n.
Proof. unfold zseq. intros (k & -> & Hk)%list_elem_of_fmap. apply elem_of_seq in Hk. lia. Qed.

(** A font of 256 glyphs has a dot for each line and column of each. *)
Lemma font_dots_some bits fh fw :
  0 <= fh -> 0 <= fw -> Z.of_nat (length bits) = 256 * fh ->
  exists dots, font_dots bits fh fw = Some dots /\ Z.of_nat (length dots) = 256 * fh * fw.
Proof.
  intros Hh Hw Hl. unfold font_dots, FLANTERM_FB_FONT_GLYPHS.
  set (l := (i ← zseq 256; y ← zseq fh; x ← zseq fw; [(i, y, x)])).
  assert (Hin : forall p, p ∈ l -> 0 <= p.1.1 < 256 /\ 0 <= p.1.2 < fh).
  { intros p Hp. unfold l in Hp. apply list_elem_of_bind in Hp as (i & Hp & Hi).
    apply list_elem_of_bind in Hp as (y & Hp & Hy). apply list_elem_of_bind in Hp as (x & Hp & Hx).
    apply list_elem_of_singleton in Hp as ->. cbn. split; by apply elem_of_zseq. }
  assert (Hlen : Z.of_nat (length l) = 256 * fh * fw).
  { unfold l. rewrite (length_bind_const _ _ (Z.to_nat fh * Z.to_nat fw)).
    - rewrite length_zseq. nia.
    - intros i _. rewrite (length_bind_const _ _ (Z.to_nat fw)); [by rewrite length_zseq|].
      intros y _. rewrite (length_bind_const _ _ 1); [rewrite length_zseq; lia|done]. }
  rewrite <- Hlen. clearbody l. clear Hlen. induction l as [|p l IH]; [by exists []|].
  destruct IH as (dots & E & L); [intros q Hq; apply Hin; by constructor|].
  destruct (Hin p) as [H1 H2]; [constructor|]. destruct p as [[i y] x]. cbn in H1, H2. cbn [mapM].
  assert (Hd : is_Some (font_dot bits fh i y x)).
  { unfold font_dot. destruct (lookup_lt_is_Some_2 bits (Z.to_nat (i * fh + y))) as [line ->]; [nia|]. by eexists. }
  destruct Hd as [d ->]. cbn [mbind option_bind]. rewrite E. eexists. split; [done|]. cbn [length]. lia.
Qed.

Lemma builtin_dots : exists dots, font_dots builtin_font 16 9 = Some dots /\ Z.of_nat (length dots) = 36864.
Proof. by apply (font_dots_some builtin_font 16 9). Qed.

Lemma convert_some cfg v rs gs bs :
  mask_sizes cfg = (8, 8, 8) -> mask_shifts cfg = (rs, gs, bs) ->
  0 <= rs < 32 -> 0 <= gs < 32 -> 0 <= bs < 32 -> is_Some (convert_colour cfg v).
Proof.
  intros Hm Hs Hr Hg Hb. unfold convert_colour. rewrite Hm, Hs. unfold shl32, extend_channel.
  rewrite !(proj2 (Z.leb_le 0 _)), !(proj2 (Z.ltb_lt _ 32)) by lia. cbn. by eexists.
Qed.

Lemma colour_table_some cfg l :
  (forall v, is_Some (convert_colour cfg v)) -> exists t, mapM (convert_colour cfg) l = Some t /\ length t = length l.
Proof.
  intros Hc. induction l as [|v l (t & E & L)]; [by exists []|]. cbn. destruct (Hc v) as [u ->]. cbn. rewrite E.
  exists (u :: t). cbn. by rewrite L.
Qed.

(** A context reinitialised is well formed on any screen. *)
Lemma reinit_wf r w : 1 <= r -> 1 <= w -> wf r w (flanterm_context_reinit (zero_context r w)).
Proof.
  intros Hr Hw. constructor; cbn; try done; try lia; try (by left); try (unfold margins_ok; lia).
  by repeat constructor.
Qed.

(** A new context, its screen blank. *)
Lemma new_context_queue cfg r w m b : 1 <= r -> 1 <= w -> queue_ok r w (new_context cfg r w m b).
Proof.
  intros Hr Hw. constructor; cbn.
  - rewrite !repeat_length. nia.
  - nia.
  - intros k Hk. lia.
  - intros i k Hi E. apply list_elem_of_lookup_2, list_elem_of_In, repeat_spec in E. done.
  - apply Forall_forall. intros c Hc. apply list_elem_of_In, repeat_spec in Hc. subst c.
    unfold char_ok. cbn. lia.
Qed.

Lemma new_context_ok r w cfg m b :
  1 <= r < 2 ^ 31 -> 1 <= w < 2 ^ 31 -> config_ok r w cfg -> canvas cfg = None -> vram_ok cfg m ->
  exists s, flanterm_fb_full_refresh (flanterm_context_reinit (zero_context r w)) (new_context cfg r w m b)
    = Some (tt, s) /\ tinv r w (Terminal (flanterm_context_reinit (zero_context r w)) s) /\
    screen_shown (flanterm_context_reinit (zero_context r w)) s.
Proof.
  intros Hr Hw Hok Hcan Hm. set (c := flanterm_context_reinit (zero_context r w)).
  set (s0 := new_context cfg r w m b). pose proof (reinit_wf r w ltac:(lia) ltac:(lia)) as Hwf. fold c in Hwf.
  pose proof (wf_geometry r w Hr Hw c Hwf) as Hgeo.
  assert (Hq : queue_ok r w s0) by (apply new_context_queue; lia).
  destruct (full_refresh_draws c s0 Hgeo Hok) as (m' & l & Hm' & E & Hshow); try done.
  { intros l Hl. cbn in Hl. congruence. }
  { cbn. lia. }
  exists (s0 <| vram := m' |> <| flushes := l |>). split; [done|].
  assert (Hs : fb_ok r w (s0 <| vram := m' |> <| flushes := l |>)).
  { split; [|destruct Hq; by constructor]. constructor; cbn; try done; try lia.
    intros x y ch Hx Hy Hne Hg. specialize (Hshow x y ch Hx Hy Hg). cbn in Hshow.
    destruct (Z.eqb_spec x 0) as [->|]; [destruct (Z.eqb_spec y 0) as [->|]|]; done. }
  split; [by split|]. split; [done|].
  destruct (shows_some_screen c _ Hgeo Hs) as [v Hv]. exists v. split; [done|]. intros x y Hx Hy.
  destruct Hv as (Hc & _ & _ & Ex & Ey & _). cbn in Ex, Ey. rewrite <- Ex, <- Ey.
  apply (Hshow x y (sm_cell v x y)); try done. specialize (Hc x y Hx Hy). unfold content in Hc. cbn in Hc.
  destruct (repeat None _ !! _) as [[k|]|] eqn:Er; [|done..].
  apply list_elem_of_lookup_2, list_elem_of_In, repeat_spec in Er. done.
Qed.

Section Console.
Context (pool address width height pitch rs gs bs : Z) (mem : gmap Z Z).
Hypothesis Hwidth : 9 <= width < 2 ^ 31.
Hypothesis Hheight : 16 <= height < 2 ^ 31.
Hypothesis Hpitch : 4 * width <= pitch < 2 ^ 33.
Hypothesis Hpitch4 : pitch mod 4 = 0.
Hypothesis Haddress : 0 <= address /\ address + pitch * height <= 2 ^ 64.
Hypothesis Hshifts : 0 <= rs < 32 /\ 0 <= gs < 32 /\ 0 <= bs < 32.
Hypothesis Hmem : forall X Y, 0 <= X < width -> 0 <= Y < height -> is_Some (mem !! (address + Y * pitch + 4 * X)).

Definition console_scale : Z := default_scale width height.
Definition console_width : Z := Z.min width FLANTERM_FB_WIDTH_LIMIT.
Definition console_height : Z := Z.min height FLANTERM_FB_HEIGHT_LIMIT.
Definition console_cols : Z := console_width / (9 * console_scale).
Definition console_rows : Z := console_height / (16 * console_scale).

Lemma console_sizes : 1 <= console_scale <= 4 /\ 9 * console_scale <= console_width <= 1920 /\
  16 * console_scale <= console_height <= 1200 /\ 1 <= console_cols <= 213 /\ 1 <= console_rows <= 75.
Proof.
  unfold console_cols, console_rows.
  assert (H : 1 <= console_scale <= 4 /\ 9 * console_scale <= console_width <= 1920 /\
    16 * console_scale <= console_height <= 1200).
  { unfold console_width, console_height, console_scale, default_scale, FLANTERM_FB_WIDTH_LIMIT, FLANTERM_FB_HEIGHT_LIMIT.
    destruct (Z.leb_spec 5120 width), (Z.leb_spec 2880 height), (Z.leb_spec 2560 width), (Z.leb_spec 1440 height);
      cbn [andb]; lia. }
  destruct H as (Hs & Hw & Hh). split_and!; try lia.
  - apply Z.div_le_lower_bound; lia.
  - etrans; [apply Z.div_le_compat_l with (q := 9); lia|]. etrans; [apply Z.div_le_mono with (b := 1920); lia|]. done.
  - apply Z.div_le_lower_bound; lia.
  - etrans; [apply Z.div_le_compat_l with (q := 16); lia|]. etrans; [apply Z.div_le_mono with (b := 1200); lia|]. done.
Qed.

(** Where the terminal's area begins: it is centred. *)
Definition console_dx : Z := width / 2 - console_width / 2.
Definition console_dy : Z := height / 2 - console_height / 2.

Lemma console_fits : 0 <= console_dx /\ console_dx + console_width <= width /\
  0 <= console_dy /\ console_dy + console_height <= height.
Proof.
  unfold console_dx, console_dy. assert (Hc : console_width <= width /\ console_height <= height).
  { unfold console_width, console_height. lia. }
  pose proof (Z.div_mod width 2). pose proof (Z.div_mod console_width 2).
  pose proof (Z.div_mod height 2). pose proof (Z.div_mod console_height 2).
  pose proof (Z.mod_pos_bound width 2). pose proof (Z.mod_pos_bound console_width 2).
  pose proof (Z.mod_pos_bound height 2). pose proof (Z.mod_pos_bound console_height 2). lia.
Qed.

Let args := console_args address width height pitch (8, 8, 8) (rs, gs, bs).
Let base := address + (console_dy * pitch + console_dx * 4).

Lemma console_area : fb_area args true = (base, console_width, console_height, console_height).
Proof.
  pose proof console_fits as (F1 & F2 & F3 & F4). pose proof console_sizes as (S1 & S2 & S3 & _).
  unfold fb_area, args, console_args. cbn [arg_rotation sideways arg_width arg_height arg_framebuffer arg_pitch].
  assert (Hbase : 0 <= console_dy * pitch + console_dx * 4 /\ base < 2 ^ 64).
  { assert (0 <= console_dy * pitch) by (apply Z.mul_nonneg_nonneg; lia). split; [lia|]. unfold base.
    assert (console_dy * pitch <= (height - 1) * pitch) by (apply Z.mul_le_mono_nonneg_r; lia). lia. }
  assert (Hdx : u64 console_dx = console_dx) by (apply u64_small; lia).
  assert (Hdy : u64 console_dy = console_dy) by (apply u64_small; lia).
  cbn [andb]. cbv zeta. fold console_width console_height console_dx console_dy. rewrite Hdx, Hdy.
  destruct ((FLANTERM_FB_WIDTH_LIMIT <? width) || (FLANTERM_FB_HEIGHT_LIMIT <? height)) eqn:E.
  - rewrite (u64_small (console_dy * pitch + console_dx * 4)) by (unfold base in *; lia). fold base.
    by rewrite u64_small by (unfold base in *; lia).
  - apply orb_false_iff in E as [E1 E2]. apply Z.ltb_ge in E1, E2.
    assert (Ew : console_width = width) by (unfold console_width; lia).
    assert (Eh : console_height = height) by (unfold console_height; lia).
    unfold base, console_dx, console_dy. rewrite Ew, Eh. repeat f_equal. lia.
Qed.

(** The pool holds the context and the six blocks of any screen. *)
Lemma console_pool n : 0 <= n <= 213 * 75 -> exists p1 p2 p3,
  bump_alloc pool SIZEOF_FB_CONTEXT (BumpState 0 false false) = (true, BumpState p1 true false) /\
  allocate_all (POOL pool) 1 [4096; 36864] [SIZEOF_FB_CONTEXT] (BumpState p1 true false)
  = (true, [36864; 4096; SIZEOF_FB_CONTEXT], BumpState p2 true false) /\
  exists got, allocate_all (POOL pool) 3 [n * SIZEOF_FB_CHAR; n * SIZEOF_QUEUE_ITEM; n * SIZEOF_POINTER]
    [36864; 4096; SIZEOF_FB_CONTEXT] (BumpState p2 true false) = (true, got, BumpState p3 true false).
Proof.
  intros Hn. unfold SIZEOF_FB_CHAR, SIZEOF_QUEUE_ITEM, SIZEOF_POINTER, SIZEOF_FB_CONTEXT.
  destruct (bump_alloc_fits pool 1112 (BumpState 0 false false)) as (p1 & E1 & H1); try done; cbn in H1.
  exists p1. destruct (allocate_all_fits pool 1 [4096; 36864] [1112] p1 false) as (p2 & E2 & H2);
    [repeat constructor; lia|lia|cbn; unfold FLANTERM_FB_BUMP_ALLOC_POOL_SIZE; lia|cbn in H2]. exists p2.
  destruct (allocate_all_fits pool 3 [n * 12; n * 32; n * 8] [36864; 4096; 1112] p2 false) as (p3 & E3 & H3);
    [repeat constructor; lia|lia|cbn; unfold FLANTERM_FB_BUMP_ALLOC_POOL_SIZE; lia|]. exists p3.
  split_and!; [done|done|by eexists].
Qed.

Let shifts : Z * Z * Z := (rs, gs, bs).

Lemma console_shifts : shift_up (arg_mask_sizes args) (arg_mask_shifts args) = shifts.
Proof. unfold args, console_args, shifts. cbn [shift_up arg_mask_sizes arg_mask_shifts]. rewrite !u8_small by (rewrite ?u8_small; lia). by rewrite !Z.add_0_r. Qed.

Lemma console_palette : exists p, init_palette args (mask_config args) = Some p /\
  length (p_ansi p) = 8%nat /\ length (p_bright p) = 8%nat.
Proof.
  assert (Hc : forall v, is_Some (convert_colour (mask_config args) v)).
  { intros v. apply (convert_some _ v rs gs bs); [done| |tauto..]. exact console_shifts. }
  destruct (colour_table_some _ default_colours Hc) as (l1 & E1 & L1).
  destruct (colour_table_some _ default_bright_colours Hc) as (l2 & E2 & L2).
  destruct (Hc 0xaaaaaa) as [c1 E3]. destruct (Hc 0x555555) as [c2 E4]. destruct (Hc 0xffffff) as [c3 E5].
  exists (Palette l1 l2 0 c1 c2 c3). split; [|done]. unfold init_palette, colour_table, one_colour.
  change (arg_ansi_colours args) with (@None (list Z)). change (arg_ansi_bright_colours args) with (@None (list Z)).
  change (arg_default_bg args) with (@None Z). change (arg_default_fg args) with (@None Z).
  change (arg_default_bg_bright args) with (@None Z). change (arg_default_fg_bright args) with (@None Z).
  cbn [default]. rewrite E1. cbn [mbind option_bind]. rewrite E2. cbn [mbind option_bind].
  unfold default, id. by rewrite E3, E4, E5.
Qed.

(** The configuration of the console. *)
Definition console_config (p : palette) (dots : list bool) (blocks : list Z) : fb_config :=
  FbConfig (plot_kind_of console_scale console_scale false) false 9 16 (9 * console_scale) (16 * console_scale)
    console_scale console_scale (console_width mod (9 * console_scale) / 2)
    (console_height mod (16 * console_scale) / 2) base pitch console_width console_height console_height
    (8, 8, 8) shifts FLANTERM_FB_ROTATE_0 dots (p_ansi p) (p_bright p) (p_fg p) (p_bg p) (p_fg_bright p)
    (p_bg_bright p) None blocks.

(** Half of what a division leaves, and the part it covers. *)
Lemma margin_fits a b : 0 < b -> 0 <= a -> 0 <= a mod b / 2 /\ a mod b / 2 + a / b * b <= a.
Proof.
  intros Hb Ha. pose proof (Z.div_mod a b ltac:(lia)). pose proof (Z.mod_pos_bound a b Hb).
  pose proof (Z.div_mod (a mod b) 2 ltac:(lia)). pose proof (Z.mod_pos_bound (a mod b) 2 ltac:(lia)). lia.
Qed.

Lemma console_config_ok p dots blocks :
  length (p_ansi p) = 8%nat -> length (p_bright p) = 8%nat -> Z.of_nat (length dots) = 36864 ->
  config_ok console_rows console_cols (console_config p dots blocks).
Proof.
  intros H1 H2 Hd. pose proof console_sizes as (S1 & S2 & S3 & S4 & S5). pose proof console_fits as (F1 & F2 & F3 & F4).
  assert (Hp : 0 <= pitch / 4 < 2 ^ 31 /\ width <= pitch / 4).
  { split; [split; [apply Z.div_pos; lia|apply Z.div_lt_upper_bound; lia]|apply Z.div_le_lower_bound; lia]. }
  assert (Hscale : scaled (console_config p dots blocks) = negb (console_scale =? 1)).
  { unfold scaled, console_config, plot_kind_of. cbn [plot_char]. by destruct (console_scale =? 1). }
  assert (Hsx : scale_x (console_config p dots blocks) = console_scale).
  { unfold scale_x. rewrite Hscale. cbn [console_config font_scale_x]. destruct (Z.eqb_spec console_scale 1); done. }
  assert (Hsy : scale_y (console_config p dots blocks) = console_scale).
  { unfold scale_y. rewrite Hscale. cbn [console_config font_scale_y]. destruct (Z.eqb_spec console_scale 1); done. }
  assert (Hcan : on_canvas (console_config p dots blocks) = false).
  { unfold on_canvas, console_config, plot_kind_of. cbn [plot_char]. by destruct (_ && _). }
  pose proof (margin_fits console_width (9 * console_scale)). pose proof (margin_fits console_height (16 * console_scale)).
  constructor; rewrite ?Hsx, ?Hsy, ?Hcan; cbn [console_config rotation sideways font_width
    font_height font_bool glyph_width glyph_height offset_x offset_y ansi_colours ansi_bright_colours FlantermFb.pitch
    FlantermFb.width FlantermFb.height]; try done; try lia.
  - unfold console_cols, console_rows. lia.
  - intros v. apply (convert_some _ v rs gs bs); [done|done|tauto..].
Qed.

Lemma console_vram_ok p dots blocks : vram_ok (console_config p dots blocks) mem.
Proof.
  intros X Y HX HY. cbn in HX, HY. pose proof console_fits as (F1 & F2 & F3 & F4).
  unfold pixel_addr. cbn. pose proof (Z.div_mod pitch 4 ltac:(lia)).
  replace (base + 4 * (X + Y * (pitch / 4))) with (address + (console_dy + Y) * pitch + 4 * (console_dx + X)).
  - apply Hmem; lia.
  - unfold base. nia.
Qed.

Lemma console_run : exists t b,
  __cstdio_initialise_terminal pool address width height pitch (8, 8, 8) shifts mem = Some (Some t, b) /\
  tinv console_rows console_cols t /\ screen_shown (ctx t) (screen t).
Proof.
  pose proof console_sizes as (S1 & S2 & S3 & S4 & S5). pose proof console_fits as (F1 & F2 & F3 & F4).
  assert (Hn : 0 <= console_rows * console_cols <= 213 * 75) by nia.
  destruct (console_pool _ Hn) as (p1 & p2 & p3 & A1 & A2 & got & A3).
  destruct console_palette as (p & Ep & L1 & L2). destruct builtin_dots as (dots & Ed & Ld).
  unfold __cstdio_initialise_terminal, flanterm_fb_init. fold shifts. cbv zeta. change (console_args address width height pitch (8, 8, 8) shifts) with args.
  change (masks_ok args) with true. cbn [negb is_pool andb bump_allocated_instance].
  rewrite console_area. cbn [allocate]. rewrite A1. cbn [negb]. rewrite Ep. cbn [mbind option_bind].
  change (init_font args) with (Some (9, 16, builtin_font)). cbn [mbind option_bind].
  change (u64 (16 * FLANTERM_FB_FONT_GLYPHS)) with 4096. change (u64 (FLANTERM_FB_FONT_GLYPHS * 16 * 9)) with 36864.
  rewrite A2. cbn [negb]. rewrite Ed. cbn [mbind option_bind].
  change (arg_margin args) with 0.
  change (arg_font_scale_x args) with 0. change (arg_font_scale_y args) with 0.
  change (arg_rotation args) with FLANTERM_FB_ROTATE_0. cbn [sideways].
  change (arg_width args) with width. change (arg_height args) with height. change ((0 =? 0) || (0 =? 0)) with true.
  cbv iota. fold console_scale. change (0 * 2) with 0. rewrite !Z.sub_0_r, !Z.add_0_l.
  rewrite (u64_small (9 * console_scale)), (u64_small (16 * console_scale)), (u64_small console_width),
    (u64_small console_height) by lia.
  fold console_cols console_rows. rewrite !(proj2 (Z.eqb_neq _ 0)) by lia. cbn [orb app].
  unfold SIZEOF_FB_CHAR, SIZEOF_QUEUE_ITEM, SIZEOF_POINTER, SIZEOF_FB_CONTEXT in A3 |- *.
  rewrite !(u64_small (console_rows * console_cols * _)) by lia. rewrite A3. cbn [negb mbind option_bind].
  assert (Ho : forall a b, 0 < b -> 0 <= a < 2 ^ 31 -> u64 (a mod b / 2) = a mod b / 2).
  { intros a b Hb Ha. apply u64_small. pose proof (margin_fits a b Hb ltac:(lia)).
    pose proof (Z.div_pos a b ltac:(lia) Hb). nia. }
  rewrite !Ho by lia. rewrite console_shifts.
  set (blocks := [4096; _; _; _; _]). set (bump := BumpState _ _ _).
  destruct (new_context_ok console_rows console_cols (console_config p dots blocks) mem bump)
    as (s & E & Ht & Hs); [lia|lia|by apply console_config_ok|done|apply console_vram_ok|].
  unfold console_config in E. change (arg_pitch args) with pitch. change (arg_mask_sizes args) with (8, 8, 8).
  rewrite E. cbn [mbind option_bind]. eexists _, _. split; [done|]. by split.
Qed.
End Console.

(** C20: the kernel's console starts.  For a boot framebuffer of at least one
    cell (9 by 16 pixels), 32-bit pixels of 8-bit channels and a pitch that
    covers its lines, [__cstdio_initialise_terminal] returns a terminal: the
    static pool of 873000 bytes is large enough at every size, the terminal
    is well formed on the screen of whole cells that fit (a framebuffer larger
    than 1920 by 1200 is used in part, centred), and the pixels show it. *)
Theorem console_ready (pool address width height pitch rs gs bs : Z) (mem : gmap Z Z) :
  9 <= width < 2 ^ 31 -> 16 <= height < 2 ^ 31 -> 4 * width <= pitch < 2 ^ 33 -> pitch mod 4 = 0 ->
  0 <= address /\ address + pitch * height <= 2 ^ 64 ->
  0 <= rs < 32 /\ 0 <= gs < 32 /\ 0 <= bs < 32 ->
  (forall X Y, 0 <= X < width -> 0 <= Y < height -> is_Some (mem !! (address + Y * pitch + 4 * X))) ->
  exists t b,
    __cstdio_initialise_terminal pool address width height pitch (8, 8, 8) (rs, gs, bs) mem = Some (Some t, b) /\
    tinv (console_rows width height) (console_cols width height) t /\ screen_shown (ctx t) (screen t).
Proof. intros. by apply console_run. Qed.

(** ** A small console: 18 by 32 pixels, two rows of two cells *)

(** Memory from address 0 on, cleared. *)
Definition flat_memory (n : Z) : gmap Z Z := list_to_map ((fun a => (a, 0)) <$> zseq n).

Lemma flat_memory_some n a : 0 <= a < n -> is_Some (flat_memory n !! a).
Proof.
  intros Ha. unfold flat_memory. destruct (list_to_map _ !! a) eqn:E; [by eexists|]. exfalso.
  apply not_elem_of_list_to_map_2 in E. apply E. rewrite <- list_fmap_compose. apply list_elem_of_fmap.
  exists a. split; [done|]. unfold zseq. apply list_elem_of_fmap. exists (Z.to_nat a). split; [lia|].
  apply elem_of_seq. lia.
Qed.

Definition small_memory : gmap Z Z := flat_memory 2304.

Lemma small_memory_ok X Y : 0 <= X < 18 -> 0 <= Y < 32 -> is_Some (small_memory !! (0 + Y * 72 + 4 * X)).
Proof. intros HX HY. apply flat_memory_some. lia. Qed.

Lemma small_console : exists t, tinv 2 2 t.
Proof.
  destruct (console_run 0 0 18 32 72 16 8 0 small_memory) as (t & b & _ & Ht & _);
    [lia|lia|lia|reflexivity|lia|lia|exact small_memory_ok|by exists t].
Qed.

Lemma small_screen : exists ctx v s, geometry ctx /\ fb_ok (rows ctx) (cols ctx) s /\ models (rows ctx) (cols ctx) v s.
Proof.
  destruct small_console as ([c s] & Hc & Hs). pose proof (wf_geometry 2 2 ltac:(lia) ltac:(lia) c Hc) as Hg.
  cbn [ctx screen] in Hc, Hs.
  assert (Hs' : fb_ok (rows c) (cols c) s) by (by rewrite (wf_rows _ _ _ Hc), (wf_cols _ _ _ Hc)).
  destruct (shows_some_screen c s Hg Hs') as [v Hv]. by exists c, v, s.
Qed.

Lemma console_ready_witness : exists t b,
  __cstdio_initialise_terminal 8 0 18 32 72 (8, 8, 8) (16, 8, 0) small_memory = Some (Some t, b) /\
  tinv 2 2 t /\ screen_shown (ctx t) (screen t).
Proof.
  apply (console_ready 8 0 18 32 72 16 8 0 small_memory); try lia; try reflexivity.
  exact small_memory_ok.
Defined.

(** "Ü", an incomplete sequence and a line feed. *)
Definition some_text : list Z := [0xC3; 0x9C; 27; 91; 51; 49; 10].

Lemma terminal_safe_witness : exists t t', flanterm_write some_text t = Some (tt, t') /\ tinv 2 2 t'.
Proof.
  destruct small_console as [t Ht]. exists t. apply (terminal_safe 2 2 some_text t); [lia|lia|exact Ht].
Defined.

Lemma written_text_shown_witness : exists t t', flanterm_write some_text t = Some (tt, t') /\ tinv 2 2 t' /\
  (autoflush (ctx t') = true -> screen_shown (ctx t') (screen t')).
Proof.
  destruct small_console as [t Ht]. exists t. apply (written_text_shown 2 2 some_text t); [lia|lia|exact Ht].
Defined.

Lemma fb_refines_screen_witness : exists ctx v s s', op_run ctx Scroll s = Some (tt, s') /\
  fb_ok (rows ctx) (cols ctx) s' /\ models (rows ctx) (cols ctx) (op_spec ctx Scroll v) s'.
Proof.
  destruct small_screen as (c & v & s & Hg & Hs & Hv). exists c, v, s.
  apply (fb_refines_screen c Scroll v s); [exact Hg|exact I|exact Hs|exact Hv].
Defined.

Lemma flush_draws_screen_witness : exists ctx v s s', flanterm_fb_double_buffer_flush ctx s = Some (tt, s') /\
  fb_ok (rows ctx) (cols ctx) s' /\ models (rows ctx) (cols ctx) v s' /\ queue_i s' = 0.
Proof.
  destruct small_screen as (c & v & s & Hg & Hs & Hv). exists c, v, s.
  destruct (flush_draws_screen c v s Hg Hs Hv) as (s' & E & H1 & H2 & H3 & _).
  exists s'. split; [exact E|]. split; [exact H1|]. split; [exact H2|exact H3].
Defined.

(** The euro sign. *)
Lemma utf8_decoded_witness : exists t : terminal flanterm_fb_context,
  put_bytes [0xE2; 0x82; 0xAC] t = print_code_point 0x20AC (decoding t 0 0x20AC).
Proof.
  exists (Terminal (zero_context 2 2) (new_context (mask_config (console_args 0 18 32 72 (8, 8, 8) (16, 8, 0)))
    2 2 ∅ (BumpState 0 false false))).
  apply (utf8_decoded _ 0x20AC); [split; reflexivity|split; lia].
Defined.
