(* ===== verification/ResourceTables.v ===== *)
(** * The tables of resource descriptors, [uacpi/resources.c]

    The layouts of the descriptors in AML and in native form, computed from
    the fields of their structures as the compiler lays them out, and the
    conversion programs, instruction by instruction.  The tables are evaluated
    when they are defined: the offsets in them are numbers. *)
From S2P Require Import Prelude.

(** ** The layout of C structures *)

(** A type: its size, its alignment and the offsets of its members, the
    members of members under their dotted names. *)
Record ctype := CType { csize : Z; calign : Z; members : list (string * Z) }.

Definition uacpi_u8 : ctype := CType 1 1 [].
Definition uacpi_u16 : ctype := CType 2 2 [].
Definition uacpi_u32 : ctype := CType 4 4 [].
Definition uacpi_u64 : ctype := CType 8 8 [].
Definition uacpi_bool : ctype := CType 1 1 [].
Definition pointer : ctype := CType 8 8 [].
(** A flexible array takes no space. *)
Definition flexible (t : ctype) : ctype := CType 0 (calign t) [].
Definition array (n : Z) (t : ctype) : ctype := CType (n * csize t) (calign t) [].

Definition align_up (x a : Z) : Z := (x + a - 1) / a * a.

Definition member_offsets (name : string) (off : Z) (t : ctype) : list (string * Z) :=
  let sub := if String.eqb name "" then "" else String.append name "." in
  (if String.eqb name "" then [] else [(name, off)])
  ++ map (fun '(n, o) => (String.append sub n, off + o)) (members t).

(** The members in order; the name of an anonymous union is empty. *)
Fixpoint place (packed : bool) (fs : list (string * ctype)) (off : Z) : list (string * Z) * Z :=
  match fs with
  | [] => ([], off)
  | (n, t) :: fs =>
      let off := if packed then off else align_up off (calign t) in
      let '(ms, e) := place packed fs (off + csize t) in
      (member_offsets n off t ++ ms, e)
  end.
Definition max_align (fs : list (string * ctype)) : Z := foldr (fun '(_, t) m => Z.max (calign t) m) 1 fs.

Definition struct (fs : list (string * ctype)) : ctype :=
  let a := max_align fs in
  let '(ms, e) := place false fs 0 in CType (align_up e a) a ms.
Definition packed (fs : list (string * ctype)) : ctype :=
  let '(ms, e) := place true fs 0 in CType e 1 ms.
Definition union_ (fs : list (string * ctype)) : ctype :=
  let a := max_align fs in
  let e := foldr (fun '(_, t) m => Z.max (csize t) m) 0 fs in
  CType (align_up e a) a (concat (map (fun '(n, t) => member_offsets n 0 t) fs)).

Definition offset_of (t : ctype) (name : string) : Z :=
  default (-1) (snd <$> List.find (fun '(n, _) => String.eqb n name) (members t)).

(** ** Descriptors in AML, [uacpi/acpi.h] *)

Definition ACPI_LARGE_ITEM : Z := 128.
Definition ACPI_SMALL_ITEM_NAME_IDX : Z := 3.
Definition ACPI_SMALL_ITEM_NAME_MASK : Z := 0xF.
Definition ACPI_SMALL_ITEM_LENGTH_MASK : Z := 7.
Definition ACPI_LARGE_ITEM_NAME_MASK : Z := 0x7F.

Definition ACPI_SERIAL_TYPE_I2C : Z := 1.
Definition ACPI_SERIAL_TYPE_SPI : Z := 2.
Definition ACPI_SERIAL_TYPE_UART : Z := 3.
Definition ACPI_SERIAL_TYPE_CSI2 : Z := 4.

Definition acpi_small_item := packed [("type_and_length", uacpi_u8)].
Definition acpi_large_item := packed [("type", uacpi_u8); ("length", uacpi_u16)].
Abbreviation small fs := (packed (("common", acpi_small_item) :: fs)).
Abbreviation large fs := (packed (("common", acpi_large_item) :: fs)).

Definition acpi_resource_irq := Eval vm_compute in small [("irq_mask", uacpi_u16); ("flags", uacpi_u8)].
Definition acpi_resource_dma := Eval vm_compute in small [("channel_mask", uacpi_u8); ("flags", uacpi_u8)].
Definition acpi_resource_start_dependent := Eval vm_compute in small [("flags", uacpi_u8)].
Definition acpi_resource_end_dependent := Eval vm_compute in small [].
Definition acpi_resource_io := Eval vm_compute in
  small [("information", uacpi_u8); ("minimum", uacpi_u16); ("maximum", uacpi_u16); ("alignment", uacpi_u8); ("length", uacpi_u8)].
Definition acpi_resource_fixed_io := Eval vm_compute in small [("address", uacpi_u16); ("length", uacpi_u8)].
Definition acpi_resource_fixed_dma := Eval vm_compute in
  small [("request_line", uacpi_u16); ("channel", uacpi_u16); ("transfer_width", uacpi_u8)].
Definition acpi_resource_vendor_defined_type0 := Eval vm_compute in small [("byte_data", flexible uacpi_u8)].
Definition acpi_resource_end_tag := Eval vm_compute in small [("checksum", uacpi_u8)].

Definition acpi_resource_memory24 := Eval vm_compute in
  large [("information", uacpi_u8); ("minimum", uacpi_u16); ("maximum", uacpi_u16); ("alignment", uacpi_u16); ("length", uacpi_u16)].
Definition acpi_resource_vendor_defined_type1 := Eval vm_compute in large [("byte_data", flexible uacpi_u8)].
Definition acpi_resource_memory32 := Eval vm_compute in
  large [("information", uacpi_u8); ("minimum", uacpi_u32); ("maximum", uacpi_u32); ("alignment", uacpi_u32); ("length", uacpi_u32)].
Definition acpi_resource_fixed_memory32 := Eval vm_compute in
  large [("information", uacpi_u8); ("address", uacpi_u32); ("length", uacpi_u32)].
Definition acpi_resource_address := Eval vm_compute in
  large [("type", uacpi_u8); ("flags", uacpi_u8); ("type_flags", uacpi_u8)].
Abbreviation address_fields t :=
  [("granularity", t); ("minimum", t); ("maximum", t); ("translation_offset", t); ("length", t)].
Definition acpi_resource_address64 := Eval vm_compute in packed (("common", acpi_resource_address) :: address_fields uacpi_u64).
Definition acpi_resource_address32 := Eval vm_compute in packed (("common", acpi_resource_address) :: address_fields uacpi_u32).
Definition acpi_resource_address16 := Eval vm_compute in packed (("common", acpi_resource_address) :: address_fields uacpi_u16).
Definition acpi_resource_address64_extended := Eval vm_compute in
  packed (("common", acpi_resource_address) :: ("revision_id", uacpi_u8) :: ("rsvd", uacpi_u8)
          :: address_fields uacpi_u64 ++ [("attributes", uacpi_u64)]).
Definition acpi_resource_extended_irq := Eval vm_compute in
  large [("flags", uacpi_u8); ("num_irqs", uacpi_u8); ("irqs", flexible uacpi_u32)].
Definition acpi_resource_generic_register := Eval vm_compute in
  large [("address_space_id", uacpi_u8); ("bit_width", uacpi_u8); ("bit_offset", uacpi_u8); ("access_size", uacpi_u8);
         ("address", uacpi_u64)].
Definition acpi_resource_gpio_connection := Eval vm_compute in
  large [("revision_id", uacpi_u8); ("type", uacpi_u8); ("general_flags", uacpi_u16); ("connection_flags", uacpi_u16);
         ("pull_configuration", uacpi_u8); ("drive_strength", uacpi_u16); ("debounce_timeout", uacpi_u16);
         ("pin_table_offset", uacpi_u16); ("source_index", uacpi_u8); ("source_offset", uacpi_u16);
         ("vendor_data_offset", uacpi_u16); ("vendor_data_length", uacpi_u16)].
Definition acpi_resource_serial := Eval vm_compute in
  large [("revision_id", uacpi_u8); ("source_index", uacpi_u8); ("type", uacpi_u8); ("flags", uacpi_u8);
         ("type_specific_flags", uacpi_u16); ("type_specific_revision_id", uacpi_u8); ("type_data_length", uacpi_u16)].
Definition acpi_resource_serial_i2c := Eval vm_compute in
  packed [("common", acpi_resource_serial); ("connection_speed", uacpi_u32); ("slave_address", uacpi_u16)].
Definition acpi_resource_serial_spi := Eval vm_compute in
  packed [("common", acpi_resource_serial); ("connection_speed", uacpi_u32); ("data_bit_length", uacpi_u8); ("phase", uacpi_u8);
          ("polarity", uacpi_u8); ("device_selection", uacpi_u16)].
Definition acpi_resource_serial_uart := Eval vm_compute in
  packed [("common", acpi_resource_serial); ("baud_rate", uacpi_u32); ("rx_fifo", uacpi_u16); ("tx_fifo", uacpi_u16);
          ("parity", uacpi_u8); ("lines_enabled", uacpi_u8)].
Definition acpi_resource_serial_csi2 := Eval vm_compute in packed [("common", acpi_resource_serial)].
Definition acpi_resource_pin_function := Eval vm_compute in
  large [("revision_id", uacpi_u8); ("flags", uacpi_u16); ("pull_configuration", uacpi_u8); ("function_number", uacpi_u16);
         ("pin_table_offset", uacpi_u16); ("source_index", uacpi_u8); ("source_offset", uacpi_u16);
         ("vendor_data_offset", uacpi_u16); ("vendor_data_length", uacpi_u16)].
Definition acpi_resource_pin_configuration := Eval vm_compute in
  large [("revision_id", uacpi_u8); ("flags", uacpi_u16); ("type", uacpi_u8); ("value", uacpi_u32);
         ("pin_table_offset", uacpi_u16); ("source_index", uacpi_u8); ("source_offset", uacpi_u16);
         ("vendor_data_offset", uacpi_u16); ("vendor_data_length", uacpi_u16)].
Definition acpi_resource_pin_group := Eval vm_compute in
  large [("revision_id", uacpi_u8); ("flags", uacpi_u16); ("pin_table_offset", uacpi_u16); ("source_lable_offset", uacpi_u16);
         ("vendor_data_offset", uacpi_u16); ("vendor_data_length", uacpi_u16)].
Definition acpi_resource_pin_group_function := Eval vm_compute in
  large [("revision_id", uacpi_u8); ("flags", uacpi_u16); ("function", uacpi_u16); ("source_index", uacpi_u8);
         ("source_offset", uacpi_u16); ("source_lable_offset", uacpi_u16); ("vendor_data_offset", uacpi_u16);
         ("vendor_data_length", uacpi_u16)].
Definition acpi_resource_pin_group_configuration := Eval vm_compute in
  large [("revision_id", uacpi_u8); ("flags", uacpi_u16); ("type", uacpi_u8); ("value", uacpi_u32); ("source_index", uacpi_u8);
         ("source_offset", uacpi_u16); ("source_lable_offset", uacpi_u16); ("vendor_data_offset", uacpi_u16);
         ("vendor_data_length", uacpi_u16)].
Definition acpi_resource_clock_input := Eval vm_compute in
  large [("revision_id", uacpi_u8); ("flags", uacpi_u16); ("divisor", uacpi_u16); ("numerator", uacpi_u32);
         ("source_index", uacpi_u8)].

(** What [UACPI_EXPECT_SIZEOF] asserts. *)
Example acpi_sizes :
  map csize [acpi_small_item; acpi_resource_irq; acpi_resource_dma; acpi_resource_start_dependent; acpi_resource_end_dependent;
    acpi_resource_io; acpi_resource_fixed_io; acpi_resource_fixed_dma; acpi_resource_vendor_defined_type0; acpi_resource_end_tag;
    acpi_large_item; acpi_resource_memory24; acpi_resource_vendor_defined_type1; acpi_resource_memory32;
    acpi_resource_fixed_memory32; acpi_resource_address; acpi_resource_address64; acpi_resource_address32;
    acpi_resource_address16; acpi_resource_address64_extended; acpi_resource_extended_irq; acpi_resource_generic_register;
    acpi_resource_gpio_connection; acpi_resource_serial; acpi_resource_serial_i2c; acpi_resource_serial_spi;
    acpi_resource_serial_uart; acpi_resource_serial_csi2; acpi_resource_pin_function; acpi_resource_pin_configuration;
    acpi_resource_pin_group; acpi_resource_pin_group_function; acpi_resource_pin_group_configuration; acpi_resource_clock_input]
  = [1; 4; 3; 2; 1; 8; 4; 6; 1; 2; 3; 12; 3; 20; 12; 6; 46; 26; 16; 56; 5; 15; 23; 12; 18; 21; 22; 12; 18; 20; 14; 17; 20; 13].
Proof. vm_compute. reflexivity. Qed.

(** ** Descriptors in native form, [uacpi/resources.h] *)

Definition uacpi_resource_source := Eval vm_compute in
  struct [("index", uacpi_u8); ("index_present", uacpi_bool); ("length", uacpi_u16); ("string", pointer)].
Definition uacpi_resource_label := Eval vm_compute in struct [("length", uacpi_u16); ("string", pointer)].

Definition uacpi_resource_irq := Eval vm_compute in
  struct [("length_kind", uacpi_u8); ("triggering", uacpi_u8); ("polarity", uacpi_u8); ("sharing", uacpi_u8);
          ("wake_capability", uacpi_u8); ("num_irqs", uacpi_u8); ("irqs", flexible uacpi_u8)].
Definition uacpi_resource_extended_irq := Eval vm_compute in
  struct [("direction", uacpi_u8); ("triggering", uacpi_u8); ("polarity", uacpi_u8); ("sharing", uacpi_u8);
          ("wake_capability", uacpi_u8); ("num_irqs", uacpi_u8); ("source", uacpi_resource_source); ("irqs", flexible uacpi_u32)].
Definition uacpi_resource_dma := Eval vm_compute in
  struct [("transfer_type", uacpi_u8); ("bus_master_status", uacpi_u8); ("channel_speed", uacpi_u8); ("num_channels", uacpi_u8);
          ("channels", flexible uacpi_u8)].
Definition uacpi_resource_fixed_dma := Eval vm_compute in
  struct [("request_line", uacpi_u16); ("channel", uacpi_u16); ("transfer_width", uacpi_u8)].
Definition uacpi_resource_io := Eval vm_compute in
  struct [("decode_type", uacpi_u8); ("minimum", uacpi_u16); ("maximum", uacpi_u16); ("alignment", uacpi_u8); ("length", uacpi_u8)].
Definition uacpi_resource_fixed_io := Eval vm_compute in struct [("address", uacpi_u16); ("length", uacpi_u8)].

Definition uacpi_memory_attribute := Eval vm_compute in
  struct [("write_status", uacpi_u8); ("caching", uacpi_u8); ("range_type", uacpi_u8); ("translation", uacpi_u8)].
Definition uacpi_io_attribute := Eval vm_compute in
  struct [("range_type", uacpi_u8); ("translation", uacpi_u8); ("translation_type", uacpi_u8)].
Definition uacpi_address_attribute := Eval vm_compute in
  union_ [("memory", uacpi_memory_attribute); ("io", uacpi_io_attribute); ("type_specific", uacpi_u8)].
Definition uacpi_resource_address_common := Eval vm_compute in
  struct [("attribute", uacpi_address_attribute); ("type", uacpi_u8); ("direction", uacpi_u8); ("decode_type", uacpi_u8);
          ("fixed_min_address", uacpi_u8); ("fixed_max_address", uacpi_u8)].
Abbreviation native_address t :=
  [("granularity", t); ("minimum", t); ("maximum", t); ("translation_offset", t); ("address_length", t)].
Definition uacpi_resource_address16 := Eval vm_compute in
  struct (("common", uacpi_resource_address_common) :: native_address uacpi_u16 ++ [("source", uacpi_resource_source)]).
Definition uacpi_resource_address32 := Eval vm_compute in
  struct (("common", uacpi_resource_address_common) :: native_address uacpi_u32 ++ [("source", uacpi_resource_source)]).
Definition uacpi_resource_address64 := Eval vm_compute in
  struct (("common", uacpi_resource_address_common) :: native_address uacpi_u64 ++ [("source", uacpi_resource_source)]).
Definition uacpi_resource_address64_extended := Eval vm_compute in
  struct (("common", uacpi_resource_address_common) :: ("revision_id", uacpi_u8) :: native_address uacpi_u64
          ++ [("attributes", uacpi_u64)]).
Definition uacpi_resource_memory24 := Eval vm_compute in
  struct [("write_status", uacpi_u8); ("minimum", uacpi_u16); ("maximum", uacpi_u16); ("alignment", uacpi_u16); ("length", uacpi_u16)].
Definition uacpi_resource_memory32 := Eval vm_compute in
  struct [("write_status", uacpi_u8); ("minimum", uacpi_u32); ("maximum", uacpi_u32); ("alignment", uacpi_u32); ("length", uacpi_u32)].
Definition uacpi_resource_fixed_memory32 := Eval vm_compute in
  struct [("write_status", uacpi_u8); ("address", uacpi_u32); ("length", uacpi_u32)].
Definition uacpi_resource_start_dependent := Eval vm_compute in
  struct [("length_kind", uacpi_u8); ("compatibility", uacpi_u8); ("performance", uacpi_u8)].
Definition uacpi_resource_vendor := Eval vm_compute in struct [("length", uacpi_u8); ("data", flexible uacpi_u8)].
Definition uacpi_resource_generic_register := Eval vm_compute in
  struct [("address_space_id", uacpi_u8); ("bit_width", uacpi_u8); ("bit_offset", uacpi_u8); ("access_size", uacpi_u8);
          ("address", uacpi_u64)].
Definition uacpi_interrupt_connection_flags := Eval vm_compute in
  struct [("triggering", uacpi_u8); ("polarity", uacpi_u8); ("sharing", uacpi_u8); ("wake_capability", uacpi_u8)].
Definition uacpi_io_connection_flags := Eval vm_compute in struct [("restriction", uacpi_u8); ("sharing", uacpi_u8)].
Definition uacpi_resource_gpio_connection := Eval vm_compute in
  struct [("revision_id", uacpi_u8); ("type", uacpi_u8); ("direction", uacpi_u8);
          ("", union_ [("intr", uacpi_interrupt_connection_flags); ("io", uacpi_io_connection_flags); ("type_specific", uacpi_u16)]);
          ("pull_configuration", uacpi_u8); ("drive_strength", uacpi_u16); ("debounce_timeout", uacpi_u16);
          ("vendor_data_length", uacpi_u16); ("pin_table_length", uacpi_u16); ("source", uacpi_resource_source);
          ("pin_table", pointer); ("vendor_data", pointer)].
Definition uacpi_resource_serial_bus_common := Eval vm_compute in
  struct [("revision_id", uacpi_u8); ("type", uacpi_u8); ("mode", uacpi_u8); ("direction", uacpi_u8); ("sharing", uacpi_u8);
          ("type_revision_id", uacpi_u8); ("type_data_length", uacpi_u16); ("vendor_data_length", uacpi_u16);
          ("source", uacpi_resource_source); ("vendor_data", pointer)].
Definition uacpi_resource_i2c_connection := Eval vm_compute in
  struct [("common", uacpi_resource_serial_bus_common); ("addressing_mode", uacpi_u8); ("slave_address", uacpi_u16);
          ("connection_speed", uacpi_u32)].
Definition uacpi_resource_spi_connection := Eval vm_compute in
  struct [("common", uacpi_resource_serial_bus_common); ("wire_mode", uacpi_u8); ("device_polarity", uacpi_u8);
          ("data_bit_length", uacpi_u8); ("phase", uacpi_u8); ("polarity", uacpi_u8); ("device_selection", uacpi_u16);
          ("connection_speed", uacpi_u32)].
Definition uacpi_resource_uart_connection := Eval vm_compute in
  struct [("common", uacpi_resource_serial_bus_common); ("stop_bits", uacpi_u8); ("data_bits", uacpi_u8); ("endianness", uacpi_u8);
          ("parity", uacpi_u8); ("lines_enabled", uacpi_u8); ("flow_control", uacpi_u8); ("baud_rate", uacpi_u32);
          ("rx_fifo", uacpi_u16); ("tx_fifo", uacpi_u16)].
Definition uacpi_resource_csi2_connection := Eval vm_compute in
  struct [("common", uacpi_resource_serial_bus_common); ("phy_type", uacpi_u8); ("local_port", uacpi_u8)].
Definition uacpi_resource_pin_function := Eval vm_compute in
  struct [("revision_id", uacpi_u8); ("sharing", uacpi_u8); ("pull_configuration", uacpi_u8); ("function_number", uacpi_u16);
          ("pin_table_length", uacpi_u16); ("vendor_data_length", uacpi_u16); ("source", uacpi_resource_source);
          ("pin_table", pointer); ("vendor_data", pointer)].
Definition uacpi_resource_pin_configuration := Eval vm_compute in
  struct [("revision_id", uacpi_u8); ("sharing", uacpi_u8); ("direction", uacpi_u8); ("type", uacpi_u8); ("value", uacpi_u32);
          ("pin_table_length", uacpi_u16); ("vendor_data_length", uacpi_u16); ("source", uacpi_resource_source);
          ("pin_table", pointer); ("vendor_data", pointer)].
Definition uacpi_resource_pin_group := Eval vm_compute in
  struct [("revision_id", uacpi_u8); ("direction", uacpi_u8); ("pin_table_length", uacpi_u16); ("vendor_data_length", uacpi_u16);
          ("label", uacpi_resource_label); ("pin_table", pointer); ("vendor_data", pointer)].
Definition uacpi_resource_pin_group_function := Eval vm_compute in
  struct [("revision_id", uacpi_u8); ("sharing", uacpi_u8); ("direction", uacpi_u8); ("function", uacpi_u16);
          ("vendor_data_length", uacpi_u16); ("source", uacpi_resource_source); ("label", uacpi_resource_label);
          ("vendor_data", pointer)].
Definition uacpi_resource_pin_group_configuration := Eval vm_compute in
  struct [("revision_id", uacpi_u8); ("sharing", uacpi_u8); ("direction", uacpi_u8); ("type", uacpi_u8); ("value", uacpi_u32);
          ("vendor_data_length", uacpi_u16); ("source", uacpi_resource_source); ("label", uacpi_resource_label);
          ("vendor_data", pointer)].
Definition uacpi_resource_clock_input := Eval vm_compute in
  struct [("revision_id", uacpi_u8); ("frequency", uacpi_u8); ("scale", uacpi_u8); ("divisor", uacpi_u16); ("numerator", uacpi_u32);
          ("source", uacpi_resource_source)].

(** Values of the native fields that the conversion looks at. *)
Definition UACPI_RESOURCE_LENGTH_KIND_DONT_CARE : Z := 0.
Definition UACPI_RESOURCE_LENGTH_KIND_ONE_LESS : Z := 1.
Definition UACPI_RESOURCE_LENGTH_KIND_FULL : Z := 2.
Definition UACPI_TRIGGERING_EDGE : Z := 1.
Definition UACPI_POLARITY_ACTIVE_HIGH : Z := 0.
Definition UACPI_EXCLUSIVE : Z := 0.
Definition UACPI_ACCEPTABLE : Z := 1.
Definition UACPI_RANGE_MEMORY : Z := 0.
Definition UACPI_RANGE_IO : Z := 1.
Definition UACPI_GPIO_CONNECTION_INTERRUPT : Z := 0.
Definition UACPI_GPIO_CONNECTION_IO : Z := 1.

(** ** Conversion programs *)

(** [enum uacpi_resource_convert_opcode]. *)
Inductive convert_opcode : Type :=
  | END | PACKED_ARRAY_8 | PACKED_ARRAY_16
  | BIT_FIELD_1 | BIT_FIELD_2 | BIT_FIELD_3 | BIT_FIELD_6
  | FIELD_8 | FIELD_16 | FIELD_32 | FIELD_64
  | SKIP_IF_AML_SIZE_LESS_THAN | SKIP_IF_NOT_EQUALS | SET_TO_IMM | LOAD_AML_SIZE_32 | LOAD_8_STORE
  | LOAD_8_NATIVE | LOAD_16_NATIVE | LOAD_IMM
  | RESOURCE_SOURCE | RESOURCE_SOURCE_NO_INDEX | RESOURCE_LABEL
  | LOAD_PIN_TABLE_LENGTH | PIN_TABLE | VENDOR_DATA | SERIAL_TYPE_SPECIFIC | UNREACHABLE.
#[export] Instance convert_opcode_eq_dec : EqDecision convert_opcode.
Proof. solve_decision. Defined.

(** The three unions of an instruction: [f1] is [aml_offset] or [arg0],
    [f2] [native_offset] or [arg1], [f3] [imm], [bit_index] or [arg2]. *)
Record convert_instruction := OP { code : convert_opcode; f1 : Z; f2 : Z; f3 : Z }.

(** [OP(code, AML_F(a, f), NATIVE_F(n, g), IMM(imm))]. *)
Definition FIELD (c : convert_opcode) (a : ctype) (f : string) (n : ctype) (g : string) (imm : Z) : convert_instruction :=
  OP c (offset_of a f) (offset_of n g) imm.
Definition END_ : convert_instruction := OP END 0 0 0.

Definition convert_irq_to_native : list convert_instruction := Eval vm_compute in
  let A := acpi_resource_irq in let N := uacpi_resource_irq in
  [FIELD PACKED_ARRAY_16 A "irq_mask" N "irqs" (offset_of N "num_irqs");
   OP SKIP_IF_AML_SIZE_LESS_THAN 3 0 6;
     OP SET_TO_IMM 0 (offset_of N "length_kind") UACPI_RESOURCE_LENGTH_KIND_FULL;
     FIELD BIT_FIELD_1 A "flags" N "triggering" 0;
     FIELD BIT_FIELD_1 A "flags" N "polarity" 3;
     FIELD BIT_FIELD_1 A "flags" N "sharing" 4;
     FIELD BIT_FIELD_1 A "flags" N "wake_capability" 5;
     END_;
   OP SET_TO_IMM 0 (offset_of N "length_kind") UACPI_RESOURCE_LENGTH_KIND_ONE_LESS;
   OP SET_TO_IMM 0 (offset_of N "triggering") UACPI_TRIGGERING_EDGE;
   END_].
Definition convert_irq_to_aml : list convert_instruction := Eval vm_compute in
  let A := acpi_resource_irq in let N := uacpi_resource_irq in
  [FIELD PACKED_ARRAY_16 A "irq_mask" N "irqs" (offset_of N "num_irqs");
   OP SKIP_IF_AML_SIZE_LESS_THAN 3 0 4;
     FIELD BIT_FIELD_1 A "flags" N "triggering" 0;
     FIELD BIT_FIELD_1 A "flags" N "polarity" 3;
     FIELD BIT_FIELD_1 A "flags" N "sharing" 4;
     FIELD BIT_FIELD_1 A "flags" N "wake_capability" 5;
   END_].
Definition convert_dma : list convert_instruction := Eval vm_compute in
  let A := acpi_resource_dma in let N := uacpi_resource_dma in
  [FIELD PACKED_ARRAY_8 A "channel_mask" N "channels" (offset_of N "num_channels");
   FIELD BIT_FIELD_2 A "flags" N "transfer_type" 0;
   FIELD BIT_FIELD_1 A "flags" N "bus_master_status" 2;
   FIELD BIT_FIELD_2 A "flags" N "channel_speed" 5;
   END_].
Definition convert_start_dependent_to_native : list convert_instruction := Eval vm_compute in
  let A := acpi_resource_start_dependent in let N := uacpi_resource_start_dependent in
  [OP SKIP_IF_AML_SIZE_LESS_THAN 1 0 4;
     OP SET_TO_IMM 0 (offset_of N "length_kind") UACPI_RESOURCE_LENGTH_KIND_FULL;
     FIELD BIT_FIELD_2 A "flags" N "compatibility" 0;
     FIELD BIT_FIELD_2 A "flags" N "performance" 2;
     END_;
   OP SET_TO_IMM 0 (offset_of N "length_kind") UACPI_RESOURCE_LENGTH_KIND_ONE_LESS;
   OP SET_TO_IMM 0 (offset_of N "compatibility") UACPI_ACCEPTABLE;
   OP SET_TO_IMM 0 (offset_of N "performance") UACPI_ACCEPTABLE;
   END_].
Definition convert_start_dependent_to_aml : list convert_instruction := Eval vm_compute in
  let A := acpi_resource_start_dependent in let N := uacpi_resource_start_dependent in
  [OP SKIP_IF_AML_SIZE_LESS_THAN 1 0 1;
     FIELD BIT_FIELD_2 A "flags" N "compatibility" 0;
     FIELD BIT_FIELD_2 A "flags" N "performance" 2;
   END_].
Definition convert_io : list convert_instruction := Eval vm_compute in
  let A := acpi_resource_io in let N := uacpi_resource_io in
  [FIELD BIT_FIELD_1 A "information" N "decode_type" 0;
   FIELD FIELD_16 A "minimum" N "minimum" 0;
   FIELD FIELD_16 A "maximum" N "maximum" 0;
   FIELD FIELD_8 A "alignment" N "alignment" 0;
   FIELD FIELD_8 A "length" N "length" 0;
   END_].
Definition convert_fixed_io : list convert_instruction := Eval vm_compute in
  let A := acpi_resource_fixed_io in let N := uacpi_resource_fixed_io in
  [FIELD FIELD_16 A "address" N "address" 0; FIELD FIELD_8 A "length" N "length" 0; END_].
Definition convert_fixed_dma : list convert_instruction := Eval vm_compute in
  let A := acpi_resource_fixed_dma in let N := uacpi_resource_fixed_dma in
  [FIELD FIELD_16 A "request_line" N "request_line" 0;
   FIELD FIELD_16 A "channel" N "channel" 0;
   FIELD FIELD_8 A "transfer_width" N "transfer_width" 0;
   END_].
Definition convert_vendor_type0 : list convert_instruction := Eval vm_compute in
  let A := acpi_resource_vendor_defined_type0 in let N := uacpi_resource_vendor in
  [OP LOAD_AML_SIZE_32 0 (offset_of N "length") 0; FIELD FIELD_8 A "byte_data" N "data" 0; END_].
Definition convert_vendor_type1 : list convert_instruction := Eval vm_compute in
  let A := acpi_resource_vendor_defined_type1 in let N := uacpi_resource_vendor in
  [OP LOAD_AML_SIZE_32 0 (offset_of N "length") 0; FIELD FIELD_8 A "byte_data" N "data" 0; END_].
Definition convert_memory24 : list convert_instruction := Eval vm_compute in
  let A := acpi_resource_memory24 in let N := uacpi_resource_memory24 in
  [FIELD BIT_FIELD_1 A "information" N "write_status" 0; FIELD FIELD_16 A "minimum" N "minimum" 4; END_].
Definition convert_memory32 : list convert_instruction := Eval vm_compute in
  let A := acpi_resource_memory32 in let N := uacpi_resource_memory32 in
  [FIELD BIT_FIELD_1 A "information" N "write_status" 0; FIELD FIELD_32 A "minimum" N "minimum" 4; END_].
Definition convert_fixed_memory32 : list convert_instruction := Eval vm_compute in
  let A := acpi_resource_fixed_memory32 in let N := uacpi_resource_fixed_memory32 in
  [FIELD BIT_FIELD_1 A "information" N "write_status" 0; FIELD FIELD_32 A "address" N "address" 0;
   FIELD FIELD_32 A "length" N "length" 0; END_].
Definition convert_generic_register : list convert_instruction := Eval vm_compute in
  let A := acpi_resource_generic_register in let N := uacpi_resource_generic_register in
  [FIELD FIELD_8 A "address_space_id" N "address_space_id" 4; FIELD FIELD_64 A "address" N "address" 0; END_].

Definition CONVERT_TYPE_SPECIFIC_FLAGS (A N : ctype) : list convert_instruction :=
  [FIELD LOAD_8_STORE A "common.type" N "common.type" 0;
   OP SKIP_IF_NOT_EQUALS UACPI_RANGE_MEMORY 0 5;
     FIELD BIT_FIELD_1 A "common.type_flags" N "common.attribute.memory.write_status" 0;
     FIELD BIT_FIELD_2 A "common.type_flags" N "common.attribute.memory.caching" 1;
     FIELD BIT_FIELD_2 A "common.type_flags" N "common.attribute.memory.range_type" 3;
     FIELD BIT_FIELD_1 A "common.type_flags" N "common.attribute.memory.translation" 5;
     END_;
   OP SKIP_IF_NOT_EQUALS UACPI_RANGE_IO 0 4;
     FIELD BIT_FIELD_2 A "common.type_flags" N "common.attribute.io.range_type" 0;
     FIELD BIT_FIELD_1 A "common.type_flags" N "common.attribute.io.translation_type" 4;
     FIELD BIT_FIELD_1 A "common.type_flags" N "common.attribute.io.translation" 5;
     END_;
   FIELD FIELD_8 A "common.type_flags" N "common.attribute.type_specific" 0xFF;
   END_].
Definition CONVERT_GENERAL_ADDRESS_FLAGS (A N : ctype) : list convert_instruction :=
  [FIELD BIT_FIELD_1 A "common.flags" N "common.direction" 0;
   FIELD BIT_FIELD_1 A "common.flags" N "common.decode_type" 1;
   FIELD BIT_FIELD_1 A "common.flags" N "common.fixed_min_address" 2;
   FIELD BIT_FIELD_1 A "common.flags" N "common.fixed_max_address" 3].
Definition DEFINE_ADDRESS_CONVERSION (A N : ctype) (c : convert_opcode) : list convert_instruction :=
  CONVERT_GENERAL_ADDRESS_FLAGS A N
  ++ [FIELD c A "granularity" N "granularity" 5; OP RESOURCE_SOURCE 0 (offset_of N "source") 0]
  ++ CONVERT_TYPE_SPECIFIC_FLAGS A N.
Definition convert_address16 := Eval vm_compute in DEFINE_ADDRESS_CONVERSION acpi_resource_address16 uacpi_resource_address16 FIELD_16.
Definition convert_address32 := Eval vm_compute in DEFINE_ADDRESS_CONVERSION acpi_resource_address32 uacpi_resource_address32 FIELD_32.
Definition convert_address64 := Eval vm_compute in DEFINE_ADDRESS_CONVERSION acpi_resource_address64 uacpi_resource_address64 FIELD_64.
Definition convert_address64_extended : list convert_instruction := Eval vm_compute in
  let A := acpi_resource_address64_extended in let N := uacpi_resource_address64_extended in
  CONVERT_GENERAL_ADDRESS_FLAGS A N
  ++ [FIELD FIELD_8 A "revision_id" N "revision_id" 0; FIELD FIELD_64 A "granularity" N "granularity" 6]
  ++ CONVERT_TYPE_SPECIFIC_FLAGS A N.
Definition convert_extended_irq : list convert_instruction := Eval vm_compute in
  let A := acpi_resource_extended_irq in let N := uacpi_resource_extended_irq in
  [FIELD BIT_FIELD_1 A "flags" N "direction" 0;
   FIELD BIT_FIELD_1 A "flags" N "triggering" 1;
   FIELD BIT_FIELD_1 A "flags" N "polarity" 2;
   FIELD BIT_FIELD_1 A "flags" N "sharing" 3;
   FIELD BIT_FIELD_1 A "flags" N "wake_capability" 4;
   FIELD LOAD_8_STORE A "num_irqs" N "num_irqs" 4;
   OP RESOURCE_SOURCE 0 (offset_of N "source") 0;
   FIELD FIELD_8 A "irqs" N "irqs" 0;
   END_].
Definition convert_clock_input : list convert_instruction := Eval vm_compute in
  let A := acpi_resource_clock_input in let N := uacpi_resource_clock_input in
  [FIELD FIELD_8 A "revision_id" N "revision_id" 0;
   FIELD BIT_FIELD_1 A "flags" N "frequency" 0;
   FIELD BIT_FIELD_2 A "flags" N "scale" 1;
   FIELD FIELD_16 A "divisor" N "divisor" 0;
   FIELD FIELD_32 A "numerator" N "numerator" 0;
   FIELD FIELD_8 A "source_index" N "source.index" 0;
   OP RESOURCE_SOURCE_NO_INDEX 0 (offset_of N "source") 0;
   END_].

Definition DECODE_SOURCE_INDEX (A N : ctype) : convert_instruction := FIELD FIELD_8 A "source_index" N "source.index" 0.
Definition DECODE_RES_PIN_TBL_AND_VENDOR_DATA (A N : ctype) (c : convert_opcode) (offset_field res_field : string)
    : list convert_instruction :=
  [FIELD LOAD_PIN_TABLE_LENGTH A offset_field N "pin_table_length" 0;
   FIELD c A offset_field N res_field (offset_of A "vendor_data_offset");
   FIELD PIN_TABLE A "pin_table_offset" N "pin_table_length" (offset_of N "pin_table");
   FIELD VENDOR_DATA A "vendor_data_offset" N "vendor_data_length" (offset_of N "vendor_data")].

Definition convert_gpio_connection : list convert_instruction := Eval vm_compute in
  let A := acpi_resource_gpio_connection in let N := uacpi_resource_gpio_connection in
  [FIELD FIELD_8 A "revision_id" N "revision_id" 0;
   FIELD BIT_FIELD_1 A "general_flags" N "direction" 0;
   FIELD FIELD_8 A "pull_configuration" N "pull_configuration" 0;
   FIELD FIELD_16 A "drive_strength" N "drive_strength" 2;
   DECODE_SOURCE_INDEX A N]
  ++ DECODE_RES_PIN_TBL_AND_VENDOR_DATA A N RESOURCE_SOURCE_NO_INDEX "source_offset" "source"
  ++ [FIELD LOAD_8_STORE A "type" N "type" 0;
   OP SKIP_IF_NOT_EQUALS UACPI_GPIO_CONNECTION_INTERRUPT 0 5;
     FIELD BIT_FIELD_1 A "connection_flags" N "intr.triggering" 0;
     FIELD BIT_FIELD_2 A "connection_flags" N "intr.polarity" 1;
     FIELD BIT_FIELD_1 A "connection_flags" N "intr.sharing" 3;
     FIELD BIT_FIELD_1 A "connection_flags" N "intr.wake_capability" 4;
     END_;
   OP SKIP_IF_NOT_EQUALS UACPI_GPIO_CONNECTION_IO 0 3;
     FIELD BIT_FIELD_2 A "connection_flags" N "io.restriction" 0;
     FIELD BIT_FIELD_1 A "connection_flags" N "io.sharing" 3;
     END_;
   FIELD FIELD_16 A "connection_flags" N "type_specific" 0xFF;
   END_].
Definition convert_pin_function : list convert_instruction := Eval vm_compute in
  let A := acpi_resource_pin_function in let N := uacpi_resource_pin_function in
  [FIELD FIELD_8 A "revision_id" N "revision_id" 0;
   FIELD BIT_FIELD_1 A "flags" N "sharing" 0;
   FIELD FIELD_8 A "pull_configuration" N "pull_configuration" 0;
   FIELD FIELD_16 A "function_number" N "function_number" 0;
   DECODE_SOURCE_INDEX A N]
  ++ DECODE_RES_PIN_TBL_AND_VENDOR_DATA A N RESOURCE_SOURCE_NO_INDEX "source_offset" "source" ++ [END_].
Definition convert_pin_configuration : list convert_instruction := Eval vm_compute in
  let A := acpi_resource_pin_configuration in let N := uacpi_resource_pin_configuration in
  [FIELD FIELD_8 A "revision_id" N "revision_id" 0;
   FIELD BIT_FIELD_1 A "flags" N "sharing" 0;
   FIELD BIT_FIELD_1 A "flags" N "direction" 1;
   FIELD FIELD_8 A "type" N "type" 0;
   FIELD FIELD_32 A "value" N "value" 0;
   DECODE_SOURCE_INDEX A N]
  ++ DECODE_RES_PIN_TBL_AND_VENDOR_DATA A N RESOURCE_SOURCE_NO_INDEX "source_offset" "source" ++ [END_].
Definition convert_pin_group : list convert_instruction := Eval vm_compute in
  let A := acpi_resource_pin_group in let N := uacpi_resource_pin_group in
  [FIELD FIELD_8 A "revision_id" N "revision_id" 0; FIELD BIT_FIELD_1 A "flags" N "direction" 0]
  ++ DECODE_RES_PIN_TBL_AND_VENDOR_DATA A N RESOURCE_LABEL "source_lable_offset" "label" ++ [END_].

Definition DECODE_PIN_GROUP_RES_SOURCES (A N : ctype) : list convert_instruction :=
  [DECODE_SOURCE_INDEX A N;
   FIELD RESOURCE_SOURCE_NO_INDEX A "source_offset" N "source" (offset_of A "source_lable_offset");
   OP LOAD_16_NATIVE 0 (offset_of N "source.length") 0;
   FIELD RESOURCE_LABEL A "source_lable_offset" N "label" (offset_of A "vendor_data_offset");
   FIELD VENDOR_DATA A "vendor_data_offset" N "vendor_data_length" (offset_of N "vendor_data")].
Definition convert_pin_group_function : list convert_instruction := Eval vm_compute in
  let A := acpi_resource_pin_group_function in let N := uacpi_resource_pin_group_function in
  [FIELD FIELD_8 A "revision_id" N "revision_id" 0;
   FIELD BIT_FIELD_1 A "flags" N "sharing" 0;
   FIELD BIT_FIELD_1 A "flags" N "direction" 1;
   FIELD FIELD_16 A "function" N "function" 0]
  ++ DECODE_PIN_GROUP_RES_SOURCES A N ++ [END_].
Definition convert_pin_group_configuration : list convert_instruction := Eval vm_compute in
  let A := acpi_resource_pin_group_configuration in let N := uacpi_resource_pin_group_configuration in
  [FIELD FIELD_8 A "revision_id" N "revision_id" 0;
   FIELD BIT_FIELD_1 A "flags" N "sharing" 0;
   FIELD BIT_FIELD_1 A "flags" N "direction" 1;
   FIELD FIELD_8 A "type" N "type" 0;
   FIELD FIELD_32 A "value" N "value" 0]
  ++ DECODE_PIN_GROUP_RES_SOURCES A N ++ [END_].

Definition convert_generic_serial_bus : list convert_instruction := Eval vm_compute in
  let A := acpi_resource_serial in let N := uacpi_resource_serial_bus_common in
  [FIELD FIELD_8 A "revision_id" N "revision_id" 0;
   FIELD FIELD_8 A "type_specific_revision_id" N "type_revision_id" 0;
   FIELD FIELD_8 A "source_index" N "source.index" 0;
   FIELD FIELD_16 A "type_data_length" N "type_data_length" 0;
   FIELD BIT_FIELD_1 A "flags" N "mode" 0;
   FIELD BIT_FIELD_1 A "flags" N "direction" 1;
   FIELD BIT_FIELD_1 A "flags" N "sharing" 2;
   FIELD SERIAL_TYPE_SPECIFIC A "type" N "type" 0;
   OP RESOURCE_SOURCE_NO_INDEX 0 (offset_of N "source") 0;
   OP LOAD_8_NATIVE 0 (offset_of N "type") 0;
   OP SKIP_IF_NOT_EQUALS ACPI_SERIAL_TYPE_I2C 0 4;
     FIELD BIT_FIELD_1 A "type_specific_flags" uacpi_resource_i2c_connection "addressing_mode" 0;
     FIELD FIELD_32 acpi_resource_serial_i2c "connection_speed" uacpi_resource_i2c_connection "connection_speed" 0xFF;
     FIELD FIELD_16 acpi_resource_serial_i2c "slave_address" uacpi_resource_i2c_connection "slave_address" 0;
     END_;
   OP SKIP_IF_NOT_EQUALS ACPI_SERIAL_TYPE_SPI 0 5;
     FIELD BIT_FIELD_1 A "type_specific_flags" uacpi_resource_spi_connection "wire_mode" 0;
     FIELD BIT_FIELD_1 A "type_specific_flags" uacpi_resource_spi_connection "device_polarity" 1;
     FIELD FIELD_32 acpi_resource_serial_spi "connection_speed" uacpi_resource_spi_connection "connection_speed" 0xFF;
     FIELD FIELD_8 acpi_resource_serial_spi "data_bit_length" uacpi_resource_spi_connection "data_bit_length" 5;
     END_;
   OP SKIP_IF_NOT_EQUALS ACPI_SERIAL_TYPE_UART 0 8;
     FIELD BIT_FIELD_2 A "type_specific_flags" uacpi_resource_uart_connection "flow_control" 0;
     FIELD BIT_FIELD_2 A "type_specific_flags" uacpi_resource_uart_connection "stop_bits" 2;
     FIELD BIT_FIELD_3 A "type_specific_flags" uacpi_resource_uart_connection "data_bits" 4;
     FIELD BIT_FIELD_1 A "type_specific_flags" uacpi_resource_uart_connection "endianness" 7;
     FIELD FIELD_32 acpi_resource_serial_uart "baud_rate" uacpi_resource_uart_connection "baud_rate" 0xFF;
     FIELD FIELD_16 acpi_resource_serial_uart "rx_fifo" uacpi_resource_uart_connection "rx_fifo" 2;
     FIELD FIELD_8 acpi_resource_serial_uart "parity" uacpi_resource_uart_connection "parity" 2;
     END_;
   OP SKIP_IF_NOT_EQUALS ACPI_SERIAL_TYPE_CSI2 0 3;
     FIELD BIT_FIELD_2 A "type_specific_flags" uacpi_resource_csi2_connection "phy_type" 0;
     FIELD BIT_FIELD_6 A "type_specific_flags" uacpi_resource_csi2_connection "local_port" 2;
     END_;
   OP UNREACHABLE 0 0 0].

Definition all_programs : list (list convert_instruction) :=
  [convert_irq_to_native; convert_irq_to_aml; convert_dma; convert_start_dependent_to_native; convert_start_dependent_to_aml;
   convert_io; convert_fixed_io; convert_fixed_dma; convert_vendor_type0; convert_vendor_type1; convert_memory24;
   convert_memory32; convert_fixed_memory32; convert_generic_register; convert_address16; convert_address32;
   convert_address64; convert_address64_extended; convert_extended_irq; convert_clock_input; convert_gpio_connection;
   convert_pin_function; convert_pin_configuration; convert_pin_group; convert_pin_group_function;
   convert_pin_group_configuration; convert_generic_serial_bus].

(** The programs name members there are, and their operands fit a byte. *)
Definition byte_operand (z : Z) : bool := (0 <=? z) && (z <? 256).
Example operands_fit :
  forallb (forallb (fun i => byte_operand (f1 i) && byte_operand (f2 i) && byte_operand (f3 i))) all_programs = true.
Proof. vm_compute. reflexivity. Qed.
