(* ===== verification/Resources.v ===== *)
(** * Resource descriptors of uACPI: [uacpi/resources.c]

    Descriptors are bytes in memory, in AML form and in native form; each
    direction of the conversion interprets the programs of [ResourceTables]
    over both.  A store outside of mapped memory is undefined.

    The allocator and, for the entry points that evaluate methods, the
    interpreter are parameters. *)
From S2P Require Import Prelude Status Klibc ResourceTables.

(** ** Memory *)

(** The little-endian integer of [n] bytes. *)
Fixpoint load_le (n : nat) (p : Z) : M memory Z :=
  match n with
  | O => mret 0
  | S n => b ← peek p; r ← load_le n (p + 1); mret (b + 256 * r)
  end.
Fixpoint store_le (n : nat) (p v : Z) : M memory unit :=
  match n with
  | O => mret tt
  | S n => _ ← poke p (u8 v); store_le n (p + 1) (Z.shiftr v 8)
  end.

(** ** Types *)

Inductive uacpi_aml_resource : Type :=
  | UACPI_AML_RESOURCE_TYPE_INVALID
  | UACPI_AML_RESOURCE_IRQ | UACPI_AML_RESOURCE_DMA | UACPI_AML_RESOURCE_START_DEPENDENT
  | UACPI_AML_RESOURCE_END_DEPENDENT | UACPI_AML_RESOURCE_IO | UACPI_AML_RESOURCE_FIXED_IO
  | UACPI_AML_RESOURCE_FIXED_DMA | UACPI_AML_RESOURCE_VENDOR_TYPE0 | UACPI_AML_RESOURCE_END_TAG
  | UACPI_AML_RESOURCE_MEMORY24 | UACPI_AML_RESOURCE_GENERIC_REGISTER | UACPI_AML_RESOURCE_VENDOR_TYPE1
  | UACPI_AML_RESOURCE_MEMORY32 | UACPI_AML_RESOURCE_FIXED_MEMORY32 | UACPI_AML_RESOURCE_ADDRESS32
  | UACPI_AML_RESOURCE_ADDRESS16 | UACPI_AML_RESOURCE_EXTENDED_IRQ | UACPI_AML_RESOURCE_ADDRESS64
  | UACPI_AML_RESOURCE_ADDRESS64_EXTENDED | UACPI_AML_RESOURCE_GPIO_CONNECTION | UACPI_AML_RESOURCE_PIN_FUNCTION
  | UACPI_AML_RESOURCE_SERIAL_CONNECTION | UACPI_AML_RESOURCE_PIN_CONFIGURATION | UACPI_AML_RESOURCE_PIN_GROUP
  | UACPI_AML_RESOURCE_PIN_GROUP_FUNCTION | UACPI_AML_RESOURCE_PIN_GROUP_CONFIGURATION | UACPI_AML_RESOURCE_CLOCK_INPUT.
#[export] Instance uacpi_aml_resource_eq_dec : EqDecision uacpi_aml_resource.
Proof. solve_decision. Defined.

(** [type_to_aml_resource]: the item name of a descriptor, small or large. *)
Definition type_to_aml_resource (t : uacpi_aml_resource) : Z :=
  match t with
  | UACPI_AML_RESOURCE_TYPE_INVALID => 0
  | UACPI_AML_RESOURCE_IRQ => 0x04 | UACPI_AML_RESOURCE_DMA => 0x05
  | UACPI_AML_RESOURCE_START_DEPENDENT => 0x06 | UACPI_AML_RESOURCE_END_DEPENDENT => 0x07
  | UACPI_AML_RESOURCE_IO => 0x08 | UACPI_AML_RESOURCE_FIXED_IO => 0x09 | UACPI_AML_RESOURCE_FIXED_DMA => 0x0A
  | UACPI_AML_RESOURCE_VENDOR_TYPE0 => 0x0E | UACPI_AML_RESOURCE_END_TAG => 0x0F
  | UACPI_AML_RESOURCE_MEMORY24 => 0x01 | UACPI_AML_RESOURCE_GENERIC_REGISTER => 0x02
  | UACPI_AML_RESOURCE_VENDOR_TYPE1 => 0x04 | UACPI_AML_RESOURCE_MEMORY32 => 0x05
  | UACPI_AML_RESOURCE_FIXED_MEMORY32 => 0x06 | UACPI_AML_RESOURCE_ADDRESS32 => 0x07
  | UACPI_AML_RESOURCE_ADDRESS16 => 0x08 | UACPI_AML_RESOURCE_EXTENDED_IRQ => 0x09
  | UACPI_AML_RESOURCE_ADDRESS64 => 0x0A | UACPI_AML_RESOURCE_ADDRESS64_EXTENDED => 0x0B
  | UACPI_AML_RESOURCE_GPIO_CONNECTION => 0x0C | UACPI_AML_RESOURCE_PIN_FUNCTION => 0x0D
  | UACPI_AML_RESOURCE_SERIAL_CONNECTION => 0x0E | UACPI_AML_RESOURCE_PIN_CONFIGURATION => 0x0F
  | UACPI_AML_RESOURCE_PIN_GROUP => 0x10 | UACPI_AML_RESOURCE_PIN_GROUP_FUNCTION => 0x11
  | UACPI_AML_RESOURCE_PIN_GROUP_CONFIGURATION => 0x12 | UACPI_AML_RESOURCE_CLOCK_INPUT => 0x13
  end.

Definition LARGE_RESOURCE_BASE : Z := 0x0F + 1.
Definition aml_resource_table : list (Z * uacpi_aml_resource) :=
  let L x := x + LARGE_RESOURCE_BASE in
  [(0x04, UACPI_AML_RESOURCE_IRQ); (0x05, UACPI_AML_RESOURCE_DMA); (0x06, UACPI_AML_RESOURCE_START_DEPENDENT);
   (0x07, UACPI_AML_RESOURCE_END_DEPENDENT); (0x08, UACPI_AML_RESOURCE_IO); (0x09, UACPI_AML_RESOURCE_FIXED_IO);
   (0x0A, UACPI_AML_RESOURCE_FIXED_DMA); (0x0E, UACPI_AML_RESOURCE_VENDOR_TYPE0); (0x0F, UACPI_AML_RESOURCE_END_TAG);
   (L 0x01, UACPI_AML_RESOURCE_MEMORY24); (L 0x02, UACPI_AML_RESOURCE_GENERIC_REGISTER);
   (L 0x04, UACPI_AML_RESOURCE_VENDOR_TYPE1); (L 0x05, UACPI_AML_RESOURCE_MEMORY32);
   (L 0x06, UACPI_AML_RESOURCE_FIXED_MEMORY32); (L 0x07, UACPI_AML_RESOURCE_ADDRESS32);
   (L 0x08, UACPI_AML_RESOURCE_ADDRESS16); (L 0x09, UACPI_AML_RESOURCE_EXTENDED_IRQ);
   (L 0x0B, UACPI_AML_RESOURCE_ADDRESS64_EXTENDED); (L 0x0A, UACPI_AML_RESOURCE_ADDRESS64);
   (L 0x0C, UACPI_AML_RESOURCE_GPIO_CONNECTION); (L 0x0D, UACPI_AML_RESOURCE_PIN_FUNCTION);
   (L 0x0E, UACPI_AML_RESOURCE_SERIAL_CONNECTION); (L 0x0F, UACPI_AML_RESOURCE_PIN_CONFIGURATION);
   (L 0x10, UACPI_AML_RESOURCE_PIN_GROUP); (L 0x11, UACPI_AML_RESOURCE_PIN_GROUP_FUNCTION);
   (L 0x12, UACPI_AML_RESOURCE_PIN_GROUP_CONFIGURATION); (L 0x13, UACPI_AML_RESOURCE_CLOCK_INPUT)].
(** The elements of the array that are not initialised are 0, the invalid type. *)
Definition aml_resource_to_type (i : Z) : uacpi_aml_resource :=
  default UACPI_AML_RESOURCE_TYPE_INVALID (snd <$> List.find (fun '(j, _) => j =? i) aml_resource_table).

(** [uacpi_resource_type]: the native types, as they are stored. *)
Definition UACPI_RESOURCE_TYPE_IRQ : Z := 0.
Definition UACPI_RESOURCE_TYPE_EXTENDED_IRQ : Z := 1.
Definition UACPI_RESOURCE_TYPE_DMA : Z := 2.
Definition UACPI_RESOURCE_TYPE_FIXED_DMA : Z := 3.
Definition UACPI_RESOURCE_TYPE_IO : Z := 4.
Definition UACPI_RESOURCE_TYPE_FIXED_IO : Z := 5.
Definition UACPI_RESOURCE_TYPE_ADDRESS16 : Z := 6.
Definition UACPI_RESOURCE_TYPE_ADDRESS32 : Z := 7.
Definition UACPI_RESOURCE_TYPE_ADDRESS64 : Z := 8.
Definition UACPI_RESOURCE_TYPE_ADDRESS64_EXTENDED : Z := 9.
Definition UACPI_RESOURCE_TYPE_MEMORY24 : Z := 10.
Definition UACPI_RESOURCE_TYPE_MEMORY32 : Z := 11.
Definition UACPI_RESOURCE_TYPE_FIXED_MEMORY32 : Z := 12.
Definition UACPI_RESOURCE_TYPE_START_DEPENDENT : Z := 13.
Definition UACPI_RESOURCE_TYPE_END_DEPENDENT : Z := 14.
Definition UACPI_RESOURCE_TYPE_VENDOR_SMALL : Z := 15.
Definition UACPI_RESOURCE_TYPE_VENDOR_LARGE : Z := 16.
Definition UACPI_RESOURCE_TYPE_GENERIC_REGISTER : Z := 17.
Definition UACPI_RESOURCE_TYPE_GPIO_CONNECTION : Z := 18.
Definition UACPI_RESOURCE_TYPE_SERIAL_I2C_CONNECTION : Z := 19.
Definition UACPI_RESOURCE_TYPE_SERIAL_SPI_CONNECTION : Z := 20.
Definition UACPI_RESOURCE_TYPE_SERIAL_UART_CONNECTION : Z := 21.
Definition UACPI_RESOURCE_TYPE_SERIAL_CSI2_CONNECTION : Z := 22.
Definition UACPI_RESOURCE_TYPE_PIN_FUNCTION : Z := 23.
Definition UACPI_RESOURCE_TYPE_PIN_CONFIGURATION : Z := 24.
Definition UACPI_RESOURCE_TYPE_PIN_GROUP : Z := 25.
Definition UACPI_RESOURCE_TYPE_PIN_GROUP_FUNCTION : Z := 26.
Definition UACPI_RESOURCE_TYPE_PIN_GROUP_CONFIGURATION : Z := 27.
Definition UACPI_RESOURCE_TYPE_CLOCK_INPUT : Z := 28.
Definition UACPI_RESOURCE_TYPE_END_TAG : Z := 29.
Definition UACPI_RESOURCE_TYPE_MAX : Z := UACPI_RESOURCE_TYPE_END_TAG.

(** [native_resource_to_type], in the order of the types. *)
Definition native_resource_to_type : list uacpi_aml_resource :=
  [UACPI_AML_RESOURCE_IRQ; UACPI_AML_RESOURCE_EXTENDED_IRQ; UACPI_AML_RESOURCE_DMA; UACPI_AML_RESOURCE_FIXED_DMA;
   UACPI_AML_RESOURCE_IO; UACPI_AML_RESOURCE_FIXED_IO; UACPI_AML_RESOURCE_ADDRESS16; UACPI_AML_RESOURCE_ADDRESS32;
   UACPI_AML_RESOURCE_ADDRESS64; UACPI_AML_RESOURCE_ADDRESS64_EXTENDED; UACPI_AML_RESOURCE_MEMORY24;
   UACPI_AML_RESOURCE_MEMORY32; UACPI_AML_RESOURCE_FIXED_MEMORY32; UACPI_AML_RESOURCE_START_DEPENDENT;
   UACPI_AML_RESOURCE_END_DEPENDENT; UACPI_AML_RESOURCE_VENDOR_TYPE0; UACPI_AML_RESOURCE_VENDOR_TYPE1;
   UACPI_AML_RESOURCE_GENERIC_REGISTER; UACPI_AML_RESOURCE_GPIO_CONNECTION; UACPI_AML_RESOURCE_SERIAL_CONNECTION;
   UACPI_AML_RESOURCE_SERIAL_CONNECTION; UACPI_AML_RESOURCE_SERIAL_CONNECTION; UACPI_AML_RESOURCE_SERIAL_CONNECTION;
   UACPI_AML_RESOURCE_PIN_FUNCTION; UACPI_AML_RESOURCE_PIN_CONFIGURATION; UACPI_AML_RESOURCE_PIN_GROUP;
   UACPI_AML_RESOURCE_PIN_GROUP_FUNCTION; UACPI_AML_RESOURCE_PIN_GROUP_CONFIGURATION; UACPI_AML_RESOURCE_CLOCK_INPUT;
   UACPI_AML_RESOURCE_END_TAG].

Inductive uacpi_aml_resource_kind : Type := UACPI_AML_RESOURCE_KIND_SMALL | UACPI_AML_RESOURCE_KIND_LARGE.
Inductive uacpi_aml_resource_size_kind : Type :=
  | UACPI_AML_RESOURCE_SIZE_KIND_FIXED | UACPI_AML_RESOURCE_SIZE_KIND_FIXED_OR_ONE_LESS | UACPI_AML_RESOURCE_SIZE_KIND_VARIABLE.

Definition aml_resource_kind_to_header_size (k : uacpi_aml_resource_kind) : Z :=
  match k with UACPI_AML_RESOURCE_KIND_SMALL => 1 | UACPI_AML_RESOURCE_KIND_LARGE => 3 end.
Definition NATIVE_RESOURCE_HEADER_SIZE : Z := 8.

(** [struct uacpi_resource_spec]: its data, and with its functions and programs. *)
Record spec_data := SpecData {
  r_type : uacpi_aml_resource;
  native_type : Z;
  resource_kind : uacpi_aml_resource_kind;
  size_kind : uacpi_aml_resource_size_kind;
  aml_size : Z;
  native_size : Z;
}.
Record uacpi_resource_spec := Spec {
  spec_of :> spec_data;
  extra_size_for_native : option (spec_data -> Z -> Z -> M memory Z);
  size_for_aml : option (spec_data -> Z -> M memory Z);
  to_native : option (list convert_instruction);
  to_aml : option (list convert_instruction);
}.

Definition aml_size_with_header (spec : spec_data) : Z :=
  aml_size spec + aml_resource_kind_to_header_size (resource_kind spec).

(** [NATIVE_OFFSET(res, off)]: past the type and the length. *)
Definition NATIVE_OFFSET (res off : Z) : Z := res + off + 8.
Definition NATIVE_FIELD (res : Z) (t : ctype) (f : string) : Z := NATIVE_OFFSET res (offset_of t f).
Definition resource_type_at (res : Z) : Z := res.
Definition resource_length_at (res : Z) : Z := res + 4.

(** [UACPI_ALIGN_UP(x, sizeof(void* ), uacpi_size)]. *)
Definition ALIGN_UP_PTR (x : Z) : Z := Z.land (u64 (x + 7)) (2 ^ 64 - 8).

(** ** Sizes *)

(** [num_bits += !!(mask & (1 << i))] for each bit. *)
Fixpoint count_bits (n : nat) (mask : Z) : Z :=
  match n with O => 0 | S n' => count_bits n' mask + Z.b2z (Z.testbit mask (Z.of_nat n')) end.

Definition extra_size_for_native_irq_or_dma (spec : spec_data) (data size : Z) : M memory Z :=
  if decide (r_type spec = UACPI_AML_RESOURCE_IRQ) then
    mask ← load_le 2 (data + offset_of acpi_resource_irq "irq_mask"); mret (count_bits 16 mask)
  else
    mask ← load_le 1 (data + offset_of acpi_resource_dma "channel_mask"); mret (count_bits 8 mask).

Definition size_for_aml_irq (spec : spec_data) (resource : Z) : M memory Z :=
  let irq f := load_le 1 (NATIVE_FIELD resource uacpi_resource_irq f) in
  let size := aml_size_with_header spec in
  kind ← irq "length_kind";
  if (kind =? UACPI_RESOURCE_LENGTH_KIND_ONE_LESS) || (kind =? UACPI_RESOURCE_LENGTH_KIND_DONT_CARE) then
    triggering ← irq "triggering";
    if negb (triggering =? UACPI_TRIGGERING_EDGE) then mret size
    else polarity ← irq "polarity";
      if negb (polarity =? UACPI_POLARITY_ACTIVE_HIGH) then mret size
      else sharing ← irq "sharing";
        if negb (sharing =? UACPI_EXCLUSIVE) then mret size else mret (size - 1)
  else mret size.

Definition size_for_aml_start_dependent (spec : spec_data) (resource : Z) : M memory Z :=
  let start_dep f := load_le 1 (NATIVE_FIELD resource uacpi_resource_start_dependent f) in
  let size := aml_size_with_header spec in
  kind ← start_dep "length_kind";
  if (kind =? UACPI_RESOURCE_LENGTH_KIND_ONE_LESS) || (kind =? UACPI_RESOURCE_LENGTH_KIND_DONT_CARE) then
    compatibility ← start_dep "compatibility";
    if negb (compatibility =? UACPI_ACCEPTABLE) then mret size
    else performance ← start_dep "performance";
      if negb (performance =? UACPI_ACCEPTABLE) then mret size else mret (size - 1)
  else mret size.

Definition extra_size_for_native_vendor (spec : spec_data) (data size : Z) : M memory Z := mret size.

Definition size_for_aml_vendor (spec : spec_data) (resource : Z) : M memory Z :=
  size ← load_le 1 (NATIVE_FIELD resource uacpi_resource_vendor "length");
  type ← load_le 4 (resource_type_at resource);
  if (7 <? size) || (type =? UACPI_RESOURCE_TYPE_VENDOR_LARGE) then
    _ ← (if negb (type =? UACPI_RESOURCE_TYPE_VENDOR_LARGE)
         then store_le 4 (resource_type_at resource) UACPI_RESOURCE_TYPE_VENDOR_LARGE else mret tt);
    mret (size + aml_resource_kind_to_header_size UACPI_AML_RESOURCE_KIND_LARGE)
  else mret (size + aml_resource_kind_to_header_size UACPI_AML_RESOURCE_KIND_SMALL).

Definition extra_size_for_resource_source (base_size reported_size : Z) : Z :=
  if reported_size <=? base_size then 0 else ALIGN_UP_PTR (reported_size - base_size - 1).

Definition size_for_aml_resource_source (source : Z) (with_index : bool) : M memory Z :=
  length ← load_le 2 (source + offset_of uacpi_resource_source "length");
  present ← load_le 1 (source + offset_of uacpi_resource_source "index_present");
  present ← (if truthy length && negb (truthy present)
             then _ ← store_le 1 (source + offset_of uacpi_resource_source "index_present") 1; mret 1 else mret present);
  mret (if with_index then length + present else length).

Definition extra_size_for_native_address_or_clock_input (spec : spec_data) (data size : Z) : M memory Z :=
  mret (extra_size_for_resource_source (aml_size spec) size).

Definition size_for_aml_address_or_clock_input (spec : spec_data) (resource : Z) : M memory Z :=
  type ← load_le 4 (resource_type_at resource);
  let source_size t with_index :=
    n ← size_for_aml_resource_source (NATIVE_FIELD resource t "source") with_index; mret (aml_size_with_header spec + n) in
  if type =? UACPI_RESOURCE_TYPE_ADDRESS16 then source_size uacpi_resource_address16 true
  else if type =? UACPI_RESOURCE_TYPE_ADDRESS32 then source_size uacpi_resource_address32 true
  else if type =? UACPI_RESOURCE_TYPE_ADDRESS64 then source_size uacpi_resource_address64 true
  else if type =? UACPI_RESOURCE_TYPE_CLOCK_INPUT then source_size uacpi_resource_clock_input false
  else mret 0.

Definition extra_size_for_extended_irq (spec : spec_data) (data size : Z) : M memory Z :=
  num_irqs ← load_le 1 (data + offset_of acpi_resource_extended_irq "num_irqs");
  let extra_size := num_irqs * 4 in
  mret (u64 (extra_size + extra_size_for_resource_source (aml_size spec) (u64 (size - extra_size)))).

Definition size_for_aml_extended_irq (spec : spec_data) (resource : Z) : M memory Z :=
  num_irqs ← load_le 1 (NATIVE_FIELD resource uacpi_resource_extended_irq "num_irqs");
  n ← size_for_aml_resource_source (NATIVE_FIELD resource uacpi_resource_extended_irq "source") true;
  mret (aml_size_with_header spec + num_irqs * 4 + n).

Definition extra_size_for_native_gpio_or_pins (spec : spec_data) (data size : Z) : M memory Z :=
  let from t := off ← load_le 2 (data + offset_of t "pin_table_offset"); mret (u64 (size - (off - 3))) in
  match r_type spec with
  | UACPI_AML_RESOURCE_GPIO_CONNECTION => from acpi_resource_gpio_connection
  | UACPI_AML_RESOURCE_PIN_FUNCTION => from acpi_resource_pin_function
  | UACPI_AML_RESOURCE_PIN_CONFIGURATION => from acpi_resource_pin_configuration
  | UACPI_AML_RESOURCE_PIN_GROUP => from acpi_resource_pin_group
  | _ => mret 0
  end.

Definition size_for_aml_gpio_or_pins (spec : spec_data) (resource : Z) : M memory Z :=
  let with_ t source :=
    source_length ← load_le 2 (NATIVE_FIELD resource t source);
    pin_table_length ← load_le 2 (NATIVE_FIELD resource t "pin_table_length");
    vendor_length ← load_le 2 (NATIVE_FIELD resource t "vendor_data_length");
    mret (aml_size_with_header spec + source_length + pin_table_length * 2 + vendor_length) in
  match r_type spec with
  | UACPI_AML_RESOURCE_GPIO_CONNECTION => with_ uacpi_resource_gpio_connection "source.length"
  | UACPI_AML_RESOURCE_PIN_FUNCTION => with_ uacpi_resource_pin_function "source.length"
  | UACPI_AML_RESOURCE_PIN_CONFIGURATION => with_ uacpi_resource_pin_configuration "source.length"
  | UACPI_AML_RESOURCE_PIN_GROUP => with_ uacpi_resource_pin_group "label.length"
  | _ => mret 0
  end.

Definition extra_size_for_native_pin_group (spec : spec_data) (data size : Z) : M memory Z :=
  let from t := off ← load_le 2 (data + offset_of t "source_offset"); mret (u64 (size - (off - 3))) in
  match r_type spec with
  | UACPI_AML_RESOURCE_PIN_GROUP_FUNCTION => from acpi_resource_pin_group_function
  | UACPI_AML_RESOURCE_PIN_GROUP_CONFIGURATION => from acpi_resource_pin_group_configuration
  | _ => mret 0
  end.

Definition size_for_aml_pin_group (spec : spec_data) (resource : Z) : M memory Z :=
  let with_ t :=
    source_length ← load_le 2 (NATIVE_FIELD resource t "source.length");
    label_length ← load_le 2 (NATIVE_FIELD resource t "label.length");
    vendor_length ← load_le 2 (NATIVE_FIELD resource t "vendor_data_length");
    mret (aml_size_with_header spec + source_length + label_length + vendor_length) in
  match r_type spec with
  | UACPI_AML_RESOURCE_PIN_GROUP_FUNCTION => with_ uacpi_resource_pin_group_function
  | UACPI_AML_RESOURCE_PIN_GROUP_CONFIGURATION => with_ uacpi_resource_pin_group_configuration
  | _ => mret 0
  end.

(** Indexed by the serial type; the element 0 is not initialised. *)
Definition aml_serial_resource_to_extra_aml_size : list Z := Eval vm_compute in
  0 :: map (fun t => csize t - csize acpi_resource_serial)
    [acpi_resource_serial_i2c; acpi_resource_serial_spi; acpi_resource_serial_uart; acpi_resource_serial_csi2].
Definition aml_serial_resource_to_extra_native_size : list Z := Eval vm_compute in
  0 :: map (fun t => csize t - csize uacpi_resource_serial_bus_common)
    [uacpi_resource_i2c_connection; uacpi_resource_spi_connection; uacpi_resource_uart_connection; uacpi_resource_csi2_connection].
Definition serial_extra (table : list Z) (type : Z) : M memory Z := liftO (table !! Z.to_nat type).

Definition extra_size_for_serial_connection (spec : spec_data) (data size : Z) : M memory Z :=
  type ← load_le 1 (data + offset_of acpi_resource_serial "type");
  extra_aml ← serial_extra aml_serial_resource_to_extra_aml_size type;
  extra_native ← serial_extra aml_serial_resource_to_extra_native_size type;
  mret (u64 (size - aml_size spec - extra_aml + extra_native)).

Definition aml_size_for_serial_connection (spec : spec_data) (resource : Z) : M memory Z :=
  let bus n f := load_le n (NATIVE_FIELD resource uacpi_resource_serial_bus_common f) in
  type ← bus 1%nat "type";
  extra_aml ← serial_extra aml_serial_resource_to_extra_aml_size type;
  vendor ← bus 2%nat "vendor_data_length";
  source ← bus 2%nat "source.length";
  mret (aml_size_with_header spec + extra_aml + vendor + source).

(** ** [aml_resources] *)

Abbreviation small_resource t nt a nsize sk := (SpecData t nt UACPI_AML_RESOURCE_KIND_SMALL sk (csize a - 1) nsize).
Abbreviation large_resource t nt a n := (SpecData t nt UACPI_AML_RESOURCE_KIND_LARGE
  UACPI_AML_RESOURCE_SIZE_KIND_VARIABLE (csize a - 3) (csize n + NATIVE_RESOURCE_HEADER_SIZE)).
Abbreviation large_fixed t nt a n := (SpecData t nt UACPI_AML_RESOURCE_KIND_LARGE
  UACPI_AML_RESOURCE_SIZE_KIND_FIXED (csize a - 3) (csize n + NATIVE_RESOURCE_HEADER_SIZE)).
Abbreviation native n := (csize n + NATIVE_RESOURCE_HEADER_SIZE).

Definition aml_resources (t : uacpi_aml_resource) : uacpi_resource_spec :=
  match t with
  | UACPI_AML_RESOURCE_TYPE_INVALID =>
      Spec (SpecData t 0 UACPI_AML_RESOURCE_KIND_SMALL UACPI_AML_RESOURCE_SIZE_KIND_FIXED 0 0) None None None None
  | UACPI_AML_RESOURCE_IRQ =>
      Spec (small_resource t UACPI_RESOURCE_TYPE_IRQ acpi_resource_irq (native uacpi_resource_irq)
              UACPI_AML_RESOURCE_SIZE_KIND_FIXED_OR_ONE_LESS)
        (Some extra_size_for_native_irq_or_dma) (Some size_for_aml_irq) (Some convert_irq_to_native) (Some convert_irq_to_aml)
  | UACPI_AML_RESOURCE_DMA =>
      Spec (small_resource t UACPI_RESOURCE_TYPE_DMA acpi_resource_dma (native uacpi_resource_dma)
              UACPI_AML_RESOURCE_SIZE_KIND_FIXED)
        (Some extra_size_for_native_irq_or_dma) None (Some convert_dma) (Some convert_dma)
  | UACPI_AML_RESOURCE_START_DEPENDENT =>
      Spec (small_resource t UACPI_RESOURCE_TYPE_START_DEPENDENT acpi_resource_start_dependent
              (native uacpi_resource_start_dependent) UACPI_AML_RESOURCE_SIZE_KIND_FIXED_OR_ONE_LESS)
        None (Some size_for_aml_start_dependent) (Some convert_start_dependent_to_native) (Some convert_start_dependent_to_aml)
  | UACPI_AML_RESOURCE_END_DEPENDENT =>
      Spec (small_resource t UACPI_RESOURCE_TYPE_END_DEPENDENT acpi_resource_end_dependent NATIVE_RESOURCE_HEADER_SIZE
              UACPI_AML_RESOURCE_SIZE_KIND_FIXED) None None None None
  | UACPI_AML_RESOURCE_IO =>
      Spec (small_resource t UACPI_RESOURCE_TYPE_IO acpi_resource_io (native uacpi_resource_io)
              UACPI_AML_RESOURCE_SIZE_KIND_FIXED) None None (Some convert_io) (Some convert_io)
  | UACPI_AML_RESOURCE_FIXED_IO =>
      Spec (small_resource t UACPI_RESOURCE_TYPE_FIXED_IO acpi_resource_fixed_io (native uacpi_resource_fixed_io)
              UACPI_AML_RESOURCE_SIZE_KIND_FIXED) None None (Some convert_fixed_io) (Some convert_fixed_io)
  | UACPI_AML_RESOURCE_FIXED_DMA =>
      Spec (small_resource t UACPI_RESOURCE_TYPE_FIXED_DMA acpi_resource_fixed_dma (native uacpi_resource_fixed_dma)
              UACPI_AML_RESOURCE_SIZE_KIND_FIXED) None None (Some convert_fixed_dma) (Some convert_fixed_dma)
  | UACPI_AML_RESOURCE_VENDOR_TYPE0 =>
      Spec (small_resource t UACPI_RESOURCE_TYPE_VENDOR_SMALL acpi_resource_vendor_defined_type0 (native uacpi_resource_vendor)
              UACPI_AML_RESOURCE_SIZE_KIND_VARIABLE)
        (Some extra_size_for_native_vendor) (Some size_for_aml_vendor) (Some convert_vendor_type0) (Some convert_vendor_type0)
  | UACPI_AML_RESOURCE_END_TAG =>
      Spec (small_resource t UACPI_RESOURCE_TYPE_END_TAG acpi_resource_end_tag NATIVE_RESOURCE_HEADER_SIZE
              UACPI_AML_RESOURCE_SIZE_KIND_FIXED) None None None None
  | UACPI_AML_RESOURCE_MEMORY24 =>
      Spec (large_fixed t UACPI_RESOURCE_TYPE_MEMORY24 acpi_resource_memory24 uacpi_resource_memory24)
        None None (Some convert_memory24) (Some convert_memory24)
  | UACPI_AML_RESOURCE_GENERIC_REGISTER =>
      Spec (large_fixed t UACPI_RESOURCE_TYPE_GENERIC_REGISTER acpi_resource_generic_register uacpi_resource_generic_register)
        None None (Some convert_generic_register) (Some convert_generic_register)
  | UACPI_AML_RESOURCE_VENDOR_TYPE1 =>
      Spec (large_resource t UACPI_RESOURCE_TYPE_VENDOR_LARGE acpi_resource_vendor_defined_type1 uacpi_resource_vendor)
        (Some extra_size_for_native_vendor) (Some size_for_aml_vendor) (Some convert_vendor_type1) (Some convert_vendor_type1)
  | UACPI_AML_RESOURCE_MEMORY32 =>
      Spec (large_fixed t UACPI_RESOURCE_TYPE_MEMORY32 acpi_resource_memory32 uacpi_resource_memory32)
        None None (Some convert_memory32) (Some convert_memory32)
  | UACPI_AML_RESOURCE_FIXED_MEMORY32 =>
      Spec (large_fixed t UACPI_RESOURCE_TYPE_FIXED_MEMORY32 acpi_resource_fixed_memory32 uacpi_resource_fixed_memory32)
        None None (Some convert_fixed_memory32) (Some convert_fixed_memory32)
  | UACPI_AML_RESOURCE_ADDRESS32 =>
      Spec (large_resource t UACPI_RESOURCE_TYPE_ADDRESS32 acpi_resource_address32 uacpi_resource_address32)
        (Some extra_size_for_native_address_or_clock_input) (Some size_for_aml_address_or_clock_input)
        (Some convert_address32) (Some convert_address32)
  | UACPI_AML_RESOURCE_ADDRESS16 =>
      Spec (large_resource t UACPI_RESOURCE_TYPE_ADDRESS16 acpi_resource_address16 uacpi_resource_address16)
        (Some extra_size_for_native_address_or_clock_input) (Some size_for_aml_address_or_clock_input)
        (Some convert_address16) (Some convert_address16)
  | UACPI_AML_RESOURCE_EXTENDED_IRQ =>
      Spec (large_resource t UACPI_RESOURCE_TYPE_EXTENDED_IRQ acpi_resource_extended_irq uacpi_resource_extended_irq)
        (Some extra_size_for_extended_irq) (Some size_for_aml_extended_irq) (Some convert_extended_irq) (Some convert_extended_irq)
  | UACPI_AML_RESOURCE_ADDRESS64 =>
      Spec (large_resource t UACPI_RESOURCE_TYPE_ADDRESS64 acpi_resource_address64 uacpi_resource_address64)
        (Some extra_size_for_native_address_or_clock_input) (Some size_for_aml_address_or_clock_input)
        (Some convert_address64) (Some convert_address64)
  | UACPI_AML_RESOURCE_ADDRESS64_EXTENDED =>
      Spec (large_fixed t UACPI_RESOURCE_TYPE_ADDRESS64_EXTENDED acpi_resource_address64_extended
              uacpi_resource_address64_extended)
        None None (Some convert_address64_extended) (Some convert_address64_extended)
  | UACPI_AML_RESOURCE_GPIO_CONNECTION =>
      Spec (large_resource t UACPI_RESOURCE_TYPE_GPIO_CONNECTION acpi_resource_gpio_connection uacpi_resource_gpio_connection)
        (Some extra_size_for_native_gpio_or_pins) (Some size_for_aml_gpio_or_pins)
        (Some convert_gpio_connection) (Some convert_gpio_connection)
  | UACPI_AML_RESOURCE_PIN_FUNCTION =>
      Spec (large_resource t UACPI_RESOURCE_TYPE_PIN_FUNCTION acpi_resource_pin_function uacpi_resource_pin_function)
        (Some extra_size_for_native_gpio_or_pins) (Some size_for_aml_gpio_or_pins)
        (Some convert_pin_function) (Some convert_pin_function)
  | UACPI_AML_RESOURCE_SERIAL_CONNECTION =>
      Spec (large_resource t 0 acpi_resource_serial uacpi_resource_serial_bus_common)
        (Some extra_size_for_serial_connection) (Some aml_size_for_serial_connection)
        (Some convert_generic_serial_bus) (Some convert_generic_serial_bus)
  | UACPI_AML_RESOURCE_PIN_CONFIGURATION =>
      Spec (large_resource t UACPI_RESOURCE_TYPE_PIN_CONFIGURATION acpi_resource_pin_configuration uacpi_resource_pin_configuration)
        (Some extra_size_for_native_gpio_or_pins) (Some size_for_aml_gpio_or_pins)
        (Some convert_pin_configuration) (Some convert_pin_configuration)
  | UACPI_AML_RESOURCE_PIN_GROUP =>
      Spec (large_resource t UACPI_RESOURCE_TYPE_PIN_GROUP acpi_resource_pin_group uacpi_resource_pin_group)
        (Some extra_size_for_native_gpio_or_pins) (Some size_for_aml_gpio_or_pins) (Some convert_pin_group) (Some convert_pin_group)
  | UACPI_AML_RESOURCE_PIN_GROUP_FUNCTION =>
      Spec (large_resource t UACPI_RESOURCE_TYPE_PIN_GROUP_FUNCTION acpi_resource_pin_group_function
              uacpi_resource_pin_group_function)
        (Some extra_size_for_native_pin_group) (Some size_for_aml_pin_group)
        (Some convert_pin_group_function) (Some convert_pin_group_function)
  | UACPI_AML_RESOURCE_PIN_GROUP_CONFIGURATION =>
      Spec (large_resource t UACPI_RESOURCE_TYPE_PIN_GROUP_CONFIGURATION acpi_resource_pin_group_configuration
              uacpi_resource_pin_group_configuration)
        (Some extra_size_for_native_pin_group) (Some size_for_aml_pin_group)
        (Some convert_pin_group_configuration) (Some convert_pin_group_configuration)
  | UACPI_AML_RESOURCE_CLOCK_INPUT =>
      Spec (large_resource t UACPI_RESOURCE_TYPE_CLOCK_INPUT acpi_resource_clock_input uacpi_resource_clock_input)
        (Some extra_size_for_native_address_or_clock_input) (Some size_for_aml_address_or_clock_input)
        (Some convert_clock_input) (Some convert_clock_input)
  end.

(** ** The descriptors of an AML buffer *)

Definition get_aml_resource_type (raw_byte : Z) : uacpi_aml_resource :=
  if truthy (Z.land raw_byte ACPI_LARGE_ITEM)
  then aml_resource_to_type (LARGE_RESOURCE_BASE + Z.land raw_byte ACPI_LARGE_ITEM_NAME_MASK)
  else aml_resource_to_type (Z.land (Z.shiftr raw_byte ACPI_SMALL_ITEM_NAME_IDX) ACPI_SMALL_ITEM_NAME_MASK).

Inductive uacpi_iteration_decision : Type := UACPI_ITERATION_DECISION_CONTINUE | UACPI_ITERATION_DECISION_BREAK.

(** [struct resource_conversion_ctx] beside memory: the union of the buffer
    and the size is one word. *)
Record conv := Conv { mem : memory; c_buf : Z; c_st : uacpi_status; just_one : bool }.
#[export] Instance settable_conv : Settable conv := fun c => Conv (mem c) (c_buf c) (c_st c) (just_one c).

Definition on_mem {A} (m : M memory A) : M conv A := fun c =>
  '(a, m') ← m (mem c); Some (a, c <| mem := m' |>).

Definition conditional_continue : M conv uacpi_iteration_decision :=
  one ← gets just_one; mret (if one : bool then UACPI_ITERATION_DECISION_BREAK else UACPI_ITERATION_DECISION_CONTINUE).

(** The size in the header, checked against the bytes that are left. *)
Definition get_aml_resource_size (data bytes_left : Z) : M memory (uacpi_status * Z) :=
  raw ← peek data;
  if truthy (Z.land raw ACPI_LARGE_ITEM) then
    if bytes_left <? 3 then mret (UACPI_STATUS_AML_INVALID_RESOURCE, 0)
    else
      size ← load_le 2 (data + 1);
      mret (if bytes_left - 3 <? size then (UACPI_STATUS_AML_INVALID_RESOURCE, 0) else (UACPI_STATUS_OK, size))
  else
    let size := Z.land raw ACPI_SMALL_ITEM_LENGTH_MASK in
    mret (if bytes_left - 1 <? size then (UACPI_STATUS_AML_INVALID_RESOURCE, 0) else (UACPI_STATUS_OK, size)).

Definition validate_aml_serial_type (type : Z) : uacpi_status :=
  if (type <? ACPI_SERIAL_TYPE_I2C) || (ACPI_SERIAL_TYPE_CSI2 <? type)
  then UACPI_STATUS_AML_INVALID_RESOURCE else UACPI_STATUS_OK.

Definition size_allowed (spec : spec_data) (resource_size : Z) : bool :=
  match size_kind spec with
  | UACPI_AML_RESOURCE_SIZE_KIND_FIXED => resource_size =? aml_size spec
  | UACPI_AML_RESOURCE_SIZE_KIND_VARIABLE => aml_size spec <=? resource_size
  | UACPI_AML_RESOURCE_SIZE_KIND_FIXED_OR_ONE_LESS =>
      (resource_size =? aml_size spec) || (resource_size =? aml_size spec - 1)
  end.

Abbreviation callback := (Z -> Z -> uacpi_resource_spec -> M conv uacpi_iteration_decision).

(** One turn of the loop: the rest of the buffer, or the result. *)
Definition aml_resource_turn (cb : callback) (rest : Z * Z) : M conv (Z * Z + uacpi_status) :=
  let '(data, bytes_left) := rest in
  if bytes_left =? 0 then mret (inr UACPI_STATUS_NO_RESOURCE_END_TAG)
  else
    raw ← on_mem (peek data);
    let type := get_aml_resource_type raw in
    if decide (type = UACPI_AML_RESOURCE_TYPE_INVALID) then mret (inr UACPI_STATUS_AML_INVALID_RESOURCE)
    else
      '(ret, resource_size) ← on_mem (get_aml_resource_size data bytes_left);
      if negb (is_ok ret) then mret (inr ret)
      else
        let spec := aml_resources type in
        if negb (size_allowed spec resource_size) then mret (inr UACPI_STATUS_AML_INVALID_RESOURCE)
        else
          ret ← (if decide (r_type spec = UACPI_AML_RESOURCE_SERIAL_CONNECTION)
                 then t ← on_mem (load_le 1 (data + offset_of acpi_resource_serial "type")); mret (validate_aml_serial_type t)
                 else mret UACPI_STATUS_OK);
          if negb (is_ok ret) then mret (inr ret)
          else
            decision ← cb data resource_size spec;
            mret (match decision with
                  | UACPI_ITERATION_DECISION_BREAK => inr UACPI_STATUS_OK
                  | UACPI_ITERATION_DECISION_CONTINUE =>
                      let total_size := resource_size + aml_resource_kind_to_header_size (resource_kind spec) in
                      if decide (type = UACPI_AML_RESOURCE_END_TAG) then inr UACPI_STATUS_OK
                      else inl (data + total_size, bytes_left - total_size)
                  end).

(** The fuel is one more than the length: each turn uses a byte at least. *)
Definition uacpi_for_each_aml_resource (bytes length : Z) (cb : callback) : M conv uacpi_status :=
  loop (S (Z.to_nat length)) (aml_resource_turn cb) (bytes, length).

Definition find_end : callback := fun data _ spec =>
  if negb (bool_decide (r_type spec = UACPI_AML_RESOURCE_END_TAG)) then mret UACPI_ITERATION_DECISION_CONTINUE
  else _ ← modify (fun c => c <| c_buf := data |>); mret UACPI_ITERATION_DECISION_BREAK.

(** The offset of the end tag, beside the status. *)
Definition uacpi_find_aml_resource_end_tag (bytes length : Z) : M conv (uacpi_status * Z) :=
  if length =? 0 then mret (UACPI_STATUS_OK, 0)
  else
    ret ← uacpi_for_each_aml_resource bytes length find_end;
    end_tag_ptr ← gets c_buf;
    mret (if is_ok ret then (UACPI_STATUS_OK, end_tag_ptr - bytes) else (ret, 0)).

Definition native_size_for_aml_resource (data size : Z) (spec : uacpi_resource_spec) : M memory Z :=
  extra ← match extra_size_for_native spec with Some f => f spec data size | None => mret 0 end;
  mret (ALIGN_UP_PTR (u64 (native_size spec + extra))).

(** ** Instructions *)

(** The registers of a conversion. *)
Record regs := Regs { pc : Z; resource_end : Z; base_aml_size : Z; base_aml_size_with_header : Z; accumulator : Z }.
#[export] Instance settable_regs : Settable regs := fun r =>
  Regs (pc r) (resource_end r) (base_aml_size r) (base_aml_size_with_header r) (accumulator r).

Abbreviation step := (M conv (regs + uacpi_iteration_decision)).
Definition next (r : regs) : step := mret (inl r).
Definition fail (st : uacpi_status) : step :=
  _ ← modify (fun c => c <| c_st := st |>); mret (inr UACPI_ITERATION_DECISION_BREAK).

(** [1 << (insn->code - FIELD_8)] and the widths of the bit fields. *)
Definition field_bytes (c : convert_opcode) : Z :=
  match c with FIELD_8 | LOAD_8_NATIVE => 1 | FIELD_16 | LOAD_16_NATIVE => 2 | FIELD_32 => 4 | FIELD_64 => 8 | _ => 0 end.
Definition bit_field_width (c : convert_opcode) : Z :=
  match c with BIT_FIELD_1 => 1 | BIT_FIELD_2 => 2 | BIT_FIELD_3 => 3 | BIT_FIELD_6 => 6 | _ => 0 end.

(** [CONVERSION_OPCODES_COMMON]: the opcodes that are the same in both
    directions, from [src] to [dst]. *)
Definition CONVERSION_OPCODES_COMMON (native_buf src dst size : Z) (i : convert_instruction) (r : regs) : step :=
  match code i with
  | END => d ← conditional_continue; mret (inr d)
  | FIELD_8 | FIELD_16 | FIELD_32 | FIELD_64 =>
      let acc := if f3 i =? 0xFF then 0 else u32 (accumulator r + f3 i) in
      _ ← on_mem (memcpy dst src (u32 (field_bytes (code i) * Z.max 1 acc)));
      next (r <| accumulator := 0 |>)
  | SKIP_IF_AML_SIZE_LESS_THAN => next (if size <? f1 i then r <| pc := u8 (pc r + f3 i) |> else r)
  | SKIP_IF_NOT_EQUALS => next (if negb (f1 i =? accumulator r) then r <| pc := u8 (pc r + f3 i) |> else r)
  | SET_TO_IMM => _ ← on_mem (store_le 1 dst (f3 i)); next r
  | LOAD_IMM => next (r <| accumulator := f3 i |>)
  | LOAD_8_STORE =>
      acc ← on_mem (load_le 1 src);
      _ ← on_mem (store_le 1 dst acc);
      next (r <| accumulator := if truthy (f3 i) then u32 (acc * f3 i) else acc |>)
  | LOAD_8_NATIVE | LOAD_16_NATIVE =>
      acc ← on_mem (load_le (Z.to_nat (field_bytes (code i))) native_buf); next (r <| accumulator := acc |>)
  | _ => fail UACPI_STATUS_INTERNAL_ERROR
  end.

(** The bits that are set, as indices from [i] on, at [dst]: their number. *)
Fixpoint unpack_bits (n : nat) (i value dst j : Z) : M memory Z :=
  match n with
  | O => mret j
  | S n => if Z.testbit value i then _ ← poke (dst + j) i; unpack_bits n (i + 1) value dst (j + 1)
           else unpack_bits n (i + 1) value dst j
  end.

(** The length of a string with its terminator, or the whole range. *)
Fixpoint scan_string (n : nat) (s length : Z) : M memory Z :=
  match n with
  | O => mret length
  | S n => c ← peek (s + length); if c =? 0 then mret (length + 1) else scan_string n s (length + 1)
  end.

Definition aml_serial_to_native_type (type : Z) : Z :=
  type - ACPI_SERIAL_TYPE_I2C + UACPI_RESOURCE_TYPE_SERIAL_I2C_CONNECTION.

(** ** AML to native *)

Section ToNative.
Context (resource data size header_size : Z).

(** [CHECK_AML_OFFSET]. *)
Definition check_aml_offset (offset : Z) (r : regs) (k : step) : step :=
  if (size + header_size <? offset) || (offset <? base_aml_size_with_header r)
  then fail UACPI_STATUS_AML_INVALID_RESOURCE else k.

(** The string of a source or a label, from [offset] to [max_offset]. *)
Definition copy_source_string (c : convert_opcode) (dst offset max_offset : Z) (r : regs) : step :=
  let src_string := data + offset in
  src_string ←
    (if decide (c = RESOURCE_SOURCE)
     then b ← on_mem (peek src_string); _ ← on_mem (poke (dst + offset_of uacpi_resource_source "index") b); mret (src_string + 1)
     else mret src_string);
  let offset := if decide (c = RESOURCE_SOURCE) then offset + 1 else offset in
  if offset =? max_offset then next r
  else
    length ← on_mem (scan_string (Z.to_nat (max_offset - offset)) src_string 0);
    last ← on_mem (peek (src_string + (length - 1)));
    if negb (last =? 0) then fail UACPI_STATUS_AML_INVALID_RESOURCE
    else
      let dst_string := resource_end r + accumulator r in
      _ ← on_mem (memcpy dst_string src_string length);
      let t := if decide (c = RESOURCE_LABEL) then uacpi_resource_label else uacpi_resource_source in
      _ ← on_mem (store_le 2 (dst + offset_of t "length") length);
      _ ← on_mem (store_le 8 (dst + offset_of t "string") dst_string);
      next r.

Definition source_to_native (i : convert_instruction) (dst : Z) (r : regs) : step :=
  let c := code i in
  max_offset ← (if truthy (f3 i) then on_mem (load_le 2 (data + f3 i)) else mret (size + header_size));
  let body :=
    let offset := base_aml_size_with_header r + accumulator r in
    let index_present := dst + offset_of uacpi_resource_source "index_present" in
    _ ← (if decide (c = RESOURCE_LABEL) then mret tt else on_mem (store_le 1 index_present 1));
    if max_offset <=? offset then
      _ ← (if decide (c = RESOURCE_SOURCE) then on_mem (store_le 1 index_present 0) else mret tt); next r
    else copy_source_string c dst offset max_offset r in
  if truthy (f3 i) then check_aml_offset max_offset r body else body.

Definition vendor_to_native (i : convert_instruction) (src dst : Z) (r : regs) : step :=
  data_offset ← on_mem (load_le 2 src);
  check_aml_offset data_offset r (
    let vendor_data := data + data_offset in
    let data_offset := u16 (data_offset - header_size) in
    let length := size - data_offset in
    if length =? 0 then next r
    else
      _ ← on_mem (store_le 2 dst length);
      let offset_from_end := u16 (data_offset - base_aml_size r) in
      let native_dst := resource_end r + offset_from_end in
      _ ← on_mem (memcpy native_dst vendor_data length);
      _ ← on_mem (store_le 8 (NATIVE_OFFSET resource (f3 i)) native_dst);
      next r).

Definition serial_to_native (src : Z) (r : regs) : step :=
  let bus f := NATIVE_FIELD resource uacpi_resource_serial_bus_common f in
  serial_type ← on_mem (load_le 1 src);
  _ ← on_mem (store_le 1 (bus "type") serial_type);
  _ ← on_mem (store_le 4 (resource_type_at resource) (aml_serial_to_native_type serial_type));
  extra_native ← on_mem (serial_extra aml_serial_resource_to_extra_native_size serial_type);
  extra_size ← on_mem (serial_extra aml_serial_resource_to_extra_aml_size serial_type);
  let r := r <| resource_end := resource_end r + extra_native |>
             <| base_aml_size := u16 (base_aml_size r + extra_size) |>
             <| base_aml_size_with_header := u32 (base_aml_size_with_header r + extra_size) |> in
  type_length ← on_mem (load_le 2 (bus "type_data_length"));
  let type_length := u8 type_length in
  if type_length <? extra_size then fail UACPI_STATUS_AML_INVALID_RESOURCE
  else
    let acc := type_length - extra_size in
    let r := r <| accumulator := acc |> in
    if acc =? 0 then next r
    else
      _ ← on_mem (store_le 2 (bus "vendor_data_length") acc);
      _ ← on_mem (store_le 8 (bus "vendor_data") (resource_end r));
      _ ← on_mem (memcpy (resource_end r) (data + base_aml_size_with_header r) acc);
      next r.

Definition insn_to_native (i : convert_instruction) (r : regs) : step :=
  let src := data + f1 i in
  let dst := NATIVE_OFFSET resource (f2 i) in
  match code i with
  | PACKED_ARRAY_8 | PACKED_ARRAY_16 =>
      let bytes := if decide (code i = PACKED_ARRAY_16) then 2%nat else 1%nat in
      value ← on_mem (load_le bytes src);
      j ← on_mem (unpack_bits (8 * bytes) 0 value dst 0);
      _ ← on_mem (store_le 1 (NATIVE_OFFSET resource (f3 i)) j);
      next r
  | BIT_FIELD_1 | BIT_FIELD_2 | BIT_FIELD_3 | BIT_FIELD_6 =>
      b ← on_mem (peek src);
      _ ← on_mem (poke dst (Z.land (Z.shiftr b (f3 i)) (Z.ones (bit_field_width (code i)))));
      next r
  | LOAD_AML_SIZE_32 => _ ← on_mem (store_le 4 dst size); next (r <| accumulator := size |>)
  | RESOURCE_SOURCE | RESOURCE_SOURCE_NO_INDEX | RESOURCE_LABEL => source_to_native i dst r
  | LOAD_PIN_TABLE_LENGTH =>
      acc ← on_mem (load_le 2 src);
      check_aml_offset acc r (next (r <| accumulator := acc - base_aml_size_with_header r |>))
  | PIN_TABLE =>
      let entry_count := u16 (accumulator r / 2) in
      _ ← on_mem (memcpy (resource_end r) (data + base_aml_size_with_header r) (accumulator r));
      _ ← on_mem (store_le 2 dst entry_count);
      _ ← on_mem (store_le 8 (NATIVE_OFFSET resource (f3 i)) (resource_end r));
      next r
  | VENDOR_DATA => vendor_to_native i src dst r
  | SERIAL_TYPE_SPECIFIC => serial_to_native src r
  | _ => CONVERSION_OPCODES_COMMON dst src dst size i r
  end.
End ToNative.

(** [insn = &insns[pc++]]. *)
Definition run_insns (insns : list convert_instruction) (exec : convert_instruction -> regs -> step) (r : regs)
    : M conv uacpi_iteration_decision :=
  loop (S (length insns)) (fun r =>
    i ← liftO (insns !! Z.to_nat (pc r)); exec i (r <| pc := u8 (pc r + 1) |>)) r.

Definition do_aml_resource_to_native : callback := fun data size spec =>
  resource ← gets c_buf;
  let header_size := aml_resource_kind_to_header_size (resource_kind spec) in
  _ ← on_mem (store_le 4 (resource_type_at resource) (native_type spec));
  length ← on_mem (native_size_for_aml_resource data size spec);
  _ ← on_mem (store_le 4 (resource_length_at resource) length);
  let resource_end := resource + native_size spec in
  _ ← modify (fun c => c <| c_buf := resource + u32 length |>);
  match to_native spec with
  | None => conditional_continue
  | Some insns =>
      run_insns insns (insn_to_native resource data size header_size)
        (Regs 0 resource_end (aml_size spec) (aml_size spec + header_size) 0)
  end.

Definition accumulate_native_buffer_size : callback := fun data size spec =>
  size_for_this ← on_mem (native_size_for_aml_resource data size spec);
  total ← gets c_buf;
  if (size_for_this =? 0) || (u64 (total + size_for_this) <? total) then
    _ ← modify (fun c => c <| c_st := UACPI_STATUS_AML_INVALID_RESOURCE |>); mret UACPI_ITERATION_DECISION_BREAK
  else
    _ ← modify (fun c => c <| c_buf := u64 (total + size_for_this) |>); conditional_continue.

(** ** Native to AML *)

Section ToAml.
Context (resource dst_base size header_size : Z).

(** [mask |= 1 << src[i]]; a shift by more than an [int] is undefined. *)
Fixpoint pack_bits (n : nat) (src mask : Z) : M memory Z :=
  match n with
  | O => mret mask
  | S n => b ← peek src; if 31 <? b then ub else pack_bits n (src + 1) (u16 (Z.lor mask (Z.shiftl 1 b)))
  end.

Definition source_to_aml (i : convert_instruction) (src dst : Z) (r : regs) : step :=
  let c := code i in
  let source_offset := u32 (base_aml_size_with_header r + accumulator r) in
  let dst_string := dst_base + source_offset in
  _ ← (if truthy (f1 i) then on_mem (store_le 2 dst source_offset) else mret tt);
  present ← (if decide (c = RESOURCE_SOURCE)
             then on_mem (load_le 1 (src + offset_of uacpi_resource_source "index_present")) else mret 0);
  dst_string ←
    (if truthy present
     then b ← on_mem (peek (src + offset_of uacpi_resource_source "index")); _ ← on_mem (poke dst_string b); mret (dst_string + 1)
     else mret dst_string);
  let t := if decide (c = RESOURCE_LABEL) then uacpi_resource_label else uacpi_resource_source in
  length ← on_mem (load_le 2 (src + offset_of t "length"));
  src_string ← on_mem (load_le 8 (src + offset_of t "string"));
  if length =? 0 then next r
  else if src_string =? 0 then fail UACPI_STATUS_INVALID_ARGUMENT
  else _ ← on_mem (memcpy dst_string src_string length); next r.

Definition vendor_to_aml (i : convert_instruction) (src dst : Z) (r : regs) : step :=
  vendor_data ← on_mem (load_le 8 (NATIVE_OFFSET resource (f3 i)));
  vendor_data_length ← on_mem (load_le 2 src);
  if vendor_data =? 0 then
    if negb (vendor_data_length =? 0) then fail UACPI_STATUS_INVALID_ARGUMENT
    else _ ← on_mem (store_le 2 dst (size + header_size)); next r
  else
    let data_offset := u16 (vendor_data - resource_end r) in
    let vendor_data_offset := u16 (data_offset + base_aml_size_with_header r) in
    _ ← on_mem (store_le 2 dst vendor_data_offset);
    _ ← on_mem (store_le 2 (dst + 2) vendor_data_length);
    _ ← on_mem (memcpy (dst_base + vendor_data_offset) vendor_data vendor_data_length);
    next r.

Definition serial_to_aml (src dst : Z) (r : regs) : step :=
  serial_type ← on_mem (load_le 1 src);
  _ ← on_mem (store_le 1 dst serial_type);
  _ ← modify (fun c => c <| c_st := validate_aml_serial_type serial_type |>);
  if negb (is_ok (validate_aml_serial_type serial_type)) then mret (inr UACPI_ITERATION_DECISION_BREAK)
  else
    type ← on_mem (load_le 4 (resource_type_at resource));
    if negb (type =? aml_serial_to_native_type serial_type) then fail UACPI_STATUS_INVALID_ARGUMENT
    else
      extra_native ← on_mem (serial_extra aml_serial_resource_to_extra_native_size serial_type);
      extra_aml ← on_mem (serial_extra aml_serial_resource_to_extra_aml_size serial_type);
      acc ← on_mem (load_le 2 (NATIVE_FIELD resource uacpi_resource_serial_bus_common "vendor_data_length"));
      let r := r <| resource_end := resource_end r + extra_native |>
                 <| base_aml_size_with_header := u32 (base_aml_size_with_header r + extra_aml) |>
                 <| accumulator := acc |> in
      if acc =? 0 then next r
      else _ ← on_mem (memcpy (dst_base + base_aml_size_with_header r) (resource_end r) acc); next r.

Definition insn_to_aml (i : convert_instruction) (r : regs) : step :=
  let src := NATIVE_OFFSET resource (f2 i) in
  let dst := dst_base + f1 i in
  match code i with
  | PACKED_ARRAY_8 | PACKED_ARRAY_16 =>
      n ← on_mem (load_le 1 (NATIVE_OFFSET resource (f3 i)));
      mask ← on_mem (pack_bits (Z.to_nat n) src 0);
      _ ← on_mem (store_le (if decide (code i = PACKED_ARRAY_16) then 2 else 1) dst mask);
      next r
  | BIT_FIELD_1 | BIT_FIELD_2 | BIT_FIELD_3 | BIT_FIELD_6 =>
      d ← on_mem (peek dst); s ← on_mem (peek src);
      _ ← on_mem (poke dst (u8 (Z.lor d (Z.shiftl s (f3 i)))));
      next r
  | LOAD_AML_SIZE_32 => next (r <| accumulator := size |>)
  | RESOURCE_SOURCE | RESOURCE_SOURCE_NO_INDEX | RESOURCE_LABEL => source_to_aml i src dst r
  | LOAD_PIN_TABLE_LENGTH => acc ← on_mem (load_le 2 src); next (r <| accumulator := acc * 2 |>)
  | PIN_TABLE =>
      _ ← on_mem (store_le 2 dst (base_aml_size_with_header r));
      _ ← on_mem (memcpy (dst_base + base_aml_size_with_header r) (resource_end r) (accumulator r));
      next r
  | VENDOR_DATA => vendor_to_aml i src dst r
  | SERIAL_TYPE_SPECIFIC => serial_to_aml src dst r
  | _ => CONVERSION_OPCODES_COMMON src src dst size i r
  end.
End ToAml.

Definition resource_spec_from_native (type : Z) : M memory uacpi_resource_spec :=
  t ← liftO (native_resource_to_type !! Z.to_nat type); mret (aml_resources t).

Definition aml_size_for_native_resource (resource : Z) (spec : uacpi_resource_spec) : M memory Z :=
  match size_for_aml spec with Some f => f spec resource | None => mret (aml_size_with_header spec) end.

(** The first byte of a descriptor, with the size of a small one. *)
Definition aml_header (spec : spec_data) (size : Z) : Z :=
  match resource_kind spec with
  | UACPI_AML_RESOURCE_KIND_LARGE => Z.lor ACPI_LARGE_ITEM (type_to_aml_resource (r_type spec))
  | UACPI_AML_RESOURCE_KIND_SMALL =>
      u8 (Z.lor (u8 (Z.shiftl (type_to_aml_resource (r_type spec)) ACPI_SMALL_ITEM_NAME_IDX)) size)
  end.

(** [type] is the type of the resource: the end tag that is made up has no
    other field that is read. *)
Definition native_resource_to_aml (type resource : Z) : M conv uacpi_iteration_decision :=
  spec ← on_mem (resource_spec_from_native type);
  size ← on_mem (aml_size_for_native_resource resource spec);
  dst_base ← gets c_buf;
  let header_size := aml_resource_kind_to_header_size (resource_kind (spec_of spec)) in
  let size := u32 size in
  _ ← modify (fun c => c <| c_buf := dst_base + size |>);
  let size := u32 (size - header_size) in
  _ ← on_mem (poke dst_base (aml_header (spec_of spec) size));
  _ ← match resource_kind (spec_of spec) with
      | UACPI_AML_RESOURCE_KIND_LARGE => on_mem (store_le 2 (dst_base + 1) size)
      | UACPI_AML_RESOURCE_KIND_SMALL => mret tt
      end;
  match to_aml spec with
  | None => mret UACPI_ITERATION_DECISION_CONTINUE
  | Some insns =>
      run_insns insns (insn_to_aml resource dst_base size header_size)
        (Regs 0 (resource + native_size spec) (aml_size spec) (aml_size spec + header_size) 0)
  end.
Definition do_native_resource_to_aml (resource : Z) : M conv uacpi_iteration_decision :=
  type ← on_mem (load_le 4 (resource_type_at resource)); native_resource_to_aml type resource.

Definition add_aml_size (type resource : Z) : M conv uacpi_iteration_decision :=
  spec ← on_mem (resource_spec_from_native type);
  size_for_this ← on_mem (aml_size_for_native_resource resource spec);
  total ← gets c_buf;
  if (size_for_this =? 0) || (u64 (total + size_for_this) <? total) then
    _ ← modify (fun c => c <| c_st := UACPI_STATUS_INVALID_ARGUMENT |>); mret UACPI_ITERATION_DECISION_BREAK
  else
    _ ← modify (fun c => c <| c_buf := u64 (total + size_for_this) |>); mret UACPI_ITERATION_DECISION_CONTINUE.
Definition accumulate_aml_buffer_size (resource : Z) : M conv uacpi_iteration_decision :=
  type ← on_mem (load_le 4 (resource_type_at resource)); add_aml_size type resource.

(** The native resources of a buffer; the loop has no bound of its own. *)
Definition resource_turn (cb : Z -> M conv uacpi_iteration_decision) (rest : Z * Z) : M conv (Z * Z + uacpi_status) :=
  let '(current, bytes_left) := rest in
  if bytes_left =? 0 then mret (inr UACPI_STATUS_NO_RESOURCE_END_TAG)
  else if bytes_left <? 4 then mret (inr UACPI_STATUS_INVALID_ARGUMENT)
  else
    type ← on_mem (load_le 4 (resource_type_at current));
    if UACPI_RESOURCE_TYPE_MAX <? type then mret (inr UACPI_STATUS_INVALID_ARGUMENT)
    else
      length ← on_mem (load_le 4 (resource_length_at current));
      if bytes_left <? length then mret (inr UACPI_STATUS_INVALID_ARGUMENT)
      else
        decision ← cb current;
        type ← on_mem (load_le 4 (resource_type_at current));
        length ← on_mem (load_le 4 (resource_length_at current));
        mret (match decision with
              | UACPI_ITERATION_DECISION_BREAK => inr UACPI_STATUS_OK
              | UACPI_ITERATION_DECISION_CONTINUE =>
                  if type =? UACPI_RESOURCE_TYPE_END_TAG then inr UACPI_STATUS_OK
                  else inl (current + length, u64 (bytes_left - length))
              end).

(** [uacpi_resources]: the length in bytes and the entries. *)
Definition uacpi_resources := Eval vm_compute in struct [("length", uacpi_u64); ("entries", pointer)].
Definition MAX_RESOURCES : Z := 5 * 1024 * 1024.

Section EntryPoints.
Context (fuel : nat).
(** [uacpi_kernel_alloc_zeroed] and [uacpi_free]. *)
Context (alloc_zeroed : Z -> M memory Z) (free : Z -> Z -> M memory unit).

Definition uacpi_for_each_resource (resources : Z) (cb : Z -> M conv uacpi_iteration_decision) : M conv uacpi_status :=
  bytes_left ← on_mem (load_le 8 (resources + offset_of uacpi_resources "length"));
  current ← on_mem (load_le 8 (resources + offset_of uacpi_resources "entries"));
  loop fuel (resource_turn cb) (current, bytes_left).

(** A fresh context, [{ 0 }] but for the field given. *)
Definition reset_ctx (buf : Z) (one : bool) : M conv unit :=
  modify (fun c => Conv (mem c) buf UACPI_STATUS_OK one).

Definition uacpi_free_resources (resources : Z) : M conv unit :=
  if resources =? 0 then mret tt
  else length ← on_mem (load_le 8 (resources + offset_of uacpi_resources "length"));
       on_mem (free resources (csize uacpi_resources + length)).
Definition uacpi_free_resource (resource : Z) : M conv unit :=
  if resource =? 0 then mret tt
  else length ← on_mem (load_le 4 (resource_length_at resource)); on_mem (free resource length).

(** The status and the resources. *)
Definition uacpi_native_resources_from_aml (bytes length : Z) : M conv (uacpi_status * Z) :=
  _ ← reset_ctx 0 false;
  ret ← uacpi_for_each_aml_resource bytes length accumulate_native_buffer_size;
  st ← gets c_st;
  size ← gets c_buf;
  if negb (is_ok ret) then mret (ret, 0)
  else if negb (is_ok st) then mret (st, 0)
  else if MAX_RESOURCES <? size then mret (UACPI_STATUS_INTERNAL_ERROR, 0)
  else
    resources ← on_mem (alloc_zeroed (size + csize uacpi_resources));
    if resources =? 0 then mret (UACPI_STATUS_OUT_OF_MEMORY, 0)
    else
      _ ← on_mem (store_le 8 (resources + offset_of uacpi_resources "length") size);
      _ ← on_mem (store_le 8 (resources + offset_of uacpi_resources "entries") (resources + csize uacpi_resources));
      _ ← reset_ctx (resources + csize uacpi_resources) false;
      ret ← uacpi_for_each_aml_resource bytes length do_aml_resource_to_native;
      if negb (is_ok ret) then _ ← uacpi_free_resources resources; mret (ret, 0) else mret (ret, resources).

Definition uacpi_get_resource_from_buffer (bytes length : Z) : M conv (uacpi_status * Z) :=
  _ ← reset_ctx 0 true;
  ret ← uacpi_for_each_aml_resource bytes length accumulate_native_buffer_size;
  size ← gets c_buf;
  if negb (is_ok ret) then mret (ret, 0)
  else
    resource ← on_mem (alloc_zeroed size);
    if resource =? 0 then mret (UACPI_STATUS_OUT_OF_MEMORY, 0)
    else
      _ ← reset_ctx resource true;
      ret ← uacpi_for_each_aml_resource bytes length do_aml_resource_to_native;
      if negb (is_ok ret) then _ ← uacpi_free_resource resource; mret (ret, 0) else mret (ret, resource).

Definition native_resources_to_aml (native_resources aml_buffer : Z) : M conv uacpi_status :=
  _ ← reset_ctx aml_buffer false;
  ret ← uacpi_for_each_resource native_resources do_native_resource_to_aml;
  ret ← (if decide (ret = UACPI_STATUS_NO_RESOURCE_END_TAG)
         then _ ← native_resource_to_aml UACPI_RESOURCE_TYPE_END_TAG 0; mret UACPI_STATUS_OK else mret ret);
  if negb (is_ok ret) then mret ret else gets c_st.

(** [uacpi_create_object(UACPI_OBJECT_BUFFER)] with its data and size set,
    and [uacpi_object_unref]; 0 for an object that was not made. *)
Context (create_buffer : Z -> Z -> M memory Z) (object_unref : Z -> M memory unit).

Definition uacpi_native_resources_to_aml (resources : Z) : M conv (uacpi_status * Z) :=
  _ ← reset_ctx 0 false;
  ret ← uacpi_for_each_resource resources accumulate_aml_buffer_size;
  ret ← (if decide (ret = UACPI_STATUS_NO_RESOURCE_END_TAG)
         then _ ← add_aml_size UACPI_RESOURCE_TYPE_END_TAG 0; mret UACPI_STATUS_OK else mret ret);
  st ← gets c_st;
  size ← gets c_buf;
  if negb (is_ok ret) then mret (ret, 0)
  else if negb (is_ok st) then mret (st, 0)
  else if MAX_RESOURCES <? size then mret (UACPI_STATUS_INTERNAL_ERROR, 0)
  else
    buffer ← on_mem (alloc_zeroed size);
    if buffer =? 0 then mret (UACPI_STATUS_OUT_OF_MEMORY, 0)
    else
      obj ← on_mem (create_buffer buffer size);
      if obj =? 0 then _ ← on_mem (free buffer size); mret (UACPI_STATUS_OUT_OF_MEMORY, 0)
      else
        ret ← native_resources_to_aml resources buffer;
        if negb (is_ok ret) then _ ← on_mem (object_unref obj); mret (ret, 0) else mret (UACPI_STATUS_OK, obj).

(** *** Methods of devices *)

(** [uacpi_namespace_node_is], [uacpi_eval_simple_buffer], which gives the
    object with the view of its buffer, and [uacpi_eval] of a method with one
    argument. *)
Context (node_is_device : Z -> M memory (uacpi_status * bool)).
Context (eval_simple_buffer : Z -> string -> M memory (uacpi_status * (Z * Z * Z))).
Context (eval_with_object : Z -> string -> Z -> M memory uacpi_status).

Definition eval_resource_helper (node : Z) (method : string) : M conv (uacpi_status * (Z * Z * Z)) :=
  '(ret, is_device) ← on_mem (node_is_device node);
  if negb (is_ok ret) then mret (ret, (0, 0, 0))
  else if negb is_device then mret (UACPI_STATUS_INVALID_ARGUMENT, (0, 0, 0))
  else on_mem (eval_simple_buffer node method).

Definition extract_native_resources_from_method (device : Z) (method : string) : M conv (uacpi_status * Z) :=
  '(ret, (obj, bytes, length)) ← eval_resource_helper device method;
  if negb (is_ok ret) then mret (ret, 0)
  else
    r ← uacpi_native_resources_from_aml bytes length;
    _ ← on_mem (object_unref obj);
    mret r.

Definition uacpi_get_current_resources (device : Z) := extract_native_resources_from_method device "_CRS".
Definition uacpi_get_possible_resources (device : Z) := extract_native_resources_from_method device "_PRS".
Definition uacpi_get_device_resources (device : Z) (method : string) := extract_native_resources_from_method device method.

Definition uacpi_for_each_device_resource (device : Z) (method : string) (cb : Z -> M conv uacpi_iteration_decision)
    : M conv uacpi_status :=
  '(ret, resources) ← extract_native_resources_from_method device method;
  if negb (is_ok ret) then mret ret
  else
    ret ← uacpi_for_each_resource resources cb;
    _ ← uacpi_free_resources resources;
    mret ret.

Definition uacpi_set_resources (device resources : Z) : M conv uacpi_status :=
  '(ret, res_template) ← uacpi_native_resources_to_aml resources;
  if negb (is_ok ret) then mret ret
  else
    ret ← on_mem (eval_with_object device "_SRS" res_template);
    _ ← on_mem (object_unref res_template);
    mret ret.
End EntryPoints.
