(* ===== verification/ResourcesSpec.v ===== *)
(** * Resource descriptors: theorems about [Resources]

    The iteration over an AML buffer against a parser of the buffer, the
    headers, and the end tag. *)
From S2P Require Import Prelude Status Klibc KlibcSpec ResourceTables Resources.

(** ** Bytes and integers in memory *)

Definition bytes_at (m : memory) (p n : Z) : Prop := forall k, 0 <= k < n -> exists b, m !! (p + k) = Some b /\ 0 <= b < 256.
(** Two memories that agree on a block. *)
Definition same_bytes (m m' : memory) (p n : Z) : Prop := forall k, 0 <= k < n -> m' !! (p + k) = m !! (p + k).

Lemma bytes_at_sub m p n q l : p <= q -> q + l <= p + n -> bytes_at m p n -> bytes_at m q l.
Proof. intros Hp Hq H k Hk. destruct (H (q - p + k)) as (b & Hb & ?); [lia|]. exists b. by replace (p + (q - p + k)) with (q + k) in Hb by lia. Qed.

Lemma same_bytes_sub m m' p n q l : p <= q -> q + l <= p + n -> same_bytes m m' p n -> same_bytes m m' q l.
Proof. intros Hp Hq H k Hk. specialize (H (q - p + k) ltac:(lia)). by replace (p + (q - p + k)) with (q + k) in H by lia. Qed.

Lemma bytes_at_same m m' p n : same_bytes m m' p n -> bytes_at m p n -> bytes_at m' p n.
Proof. intros Hs H k Hk. destruct (H k Hk) as (b & Hb & ?). exists b. by rewrite Hs. Qed.

Lemma byte_at m p n q : bytes_at m p n -> p <= q < p + n -> exists b, m !! q = Some b /\ 0 <= b < 256.
Proof. intros H Hq. destruct (H (q - p)) as (b & Hb & ?); [lia|]. exists b. by replace (p + (q - p)) with q in Hb by lia. Qed.

(** The integer at an address, 0 where there is no memory. *)
Definition byte_of (m : memory) (p : Z) : Z := default 0 (m !! p).
Fixpoint le_at (m : memory) (p : Z) (n : nat) : Z :=
  match n with O => 0 | S n => byte_of m p + 256 * le_at m (p + 1) n end.

Lemma load_le_run n m p : bytes_at m p (Z.of_nat n) -> load_le n p m = Some (le_at m p n, m).
Proof.
  revert p. induction n as [|n IH]; intros p H; cbn [load_le le_at]; [done|].
  destruct (byte_at m p _ p H) as (b & Hb & _); [lia|].
  rewrite (bind_run _ _ _ _ _ (peek_run _ _ _ Hb)), (bind_run _ _ _ _ _ (IH (p + 1) ltac:(by eapply bytes_at_sub, H; lia))).
  unfold byte_of. by rewrite Hb.
Qed.

Lemma le_at_bound n m p : bytes_at m p (Z.of_nat n) -> 0 <= le_at m p n < 256 ^ Z.of_nat n.
Proof.
  revert p. induction n as [|n IH]; intros p H; cbn [le_at]; [lia|].
  destruct (byte_at m p _ p H) as (b & Hb & ?); [lia|].
  specialize (IH (p + 1) ltac:(by eapply bytes_at_sub, H; lia)).
  unfold byte_of. rewrite Hb. cbn [from_option id]. unfold id. rewrite Nat2Z.inj_succ, Z.pow_succ_r by lia. lia.
Qed.

Lemma le_at_same n m m' p : same_bytes m m' p (Z.of_nat n) -> le_at m' p n = le_at m p n.
Proof.
  revert p. induction n as [|n IH]; intros p H; cbn [le_at]; [done|].
  unfold byte_of. rewrite <-(Z.add_0_r p), (H 0 ltac:(lia)), Z.add_0_r. do 2 f_equal.
  apply IH. eapply same_bytes_sub, H; lia.
Qed.

Lemma on_mem_run {A} (m : M memory A) c a m' : m (mem c) = Some (a, m') -> on_mem m c = Some (a, c <| mem := m' |>).
Proof. intros E. unfold on_mem. mstep. by rewrite E. Qed.
Lemma on_mem_read {A} (m : M memory A) c a : m (mem c) = Some (a, mem c) -> on_mem m c = Some (a, c).
Proof. intros E. rewrite (on_mem_run _ _ _ _ E). by destruct c. Qed.

(** ** Headers *)

Definition header_size_of (t : uacpi_aml_resource) : Z := aml_resource_kind_to_header_size (resource_kind (aml_resources t)).

Definition all_types : list uacpi_aml_resource :=
  [UACPI_AML_RESOURCE_IRQ; UACPI_AML_RESOURCE_DMA; UACPI_AML_RESOURCE_START_DEPENDENT; UACPI_AML_RESOURCE_END_DEPENDENT;
   UACPI_AML_RESOURCE_IO; UACPI_AML_RESOURCE_FIXED_IO; UACPI_AML_RESOURCE_FIXED_DMA; UACPI_AML_RESOURCE_VENDOR_TYPE0;
   UACPI_AML_RESOURCE_END_TAG; UACPI_AML_RESOURCE_MEMORY24; UACPI_AML_RESOURCE_GENERIC_REGISTER;
   UACPI_AML_RESOURCE_VENDOR_TYPE1; UACPI_AML_RESOURCE_MEMORY32; UACPI_AML_RESOURCE_FIXED_MEMORY32;
   UACPI_AML_RESOURCE_ADDRESS32; UACPI_AML_RESOURCE_ADDRESS16; UACPI_AML_RESOURCE_EXTENDED_IRQ; UACPI_AML_RESOURCE_ADDRESS64;
   UACPI_AML_RESOURCE_ADDRESS64_EXTENDED; UACPI_AML_RESOURCE_GPIO_CONNECTION; UACPI_AML_RESOURCE_PIN_FUNCTION;
   UACPI_AML_RESOURCE_SERIAL_CONNECTION; UACPI_AML_RESOURCE_PIN_CONFIGURATION; UACPI_AML_RESOURCE_PIN_GROUP;
   UACPI_AML_RESOURCE_PIN_GROUP_FUNCTION; UACPI_AML_RESOURCE_PIN_GROUP_CONFIGURATION; UACPI_AML_RESOURCE_CLOCK_INPUT].
Lemma in_all_types t : t <> UACPI_AML_RESOURCE_TYPE_INVALID -> t ∈ all_types.
Proof. intros Ht. apply (bool_decide_unpack _). by destruct t. Qed.

(** A statement about every type, checked on each. *)
Lemma type_case (P : uacpi_aml_resource -> bool) t :
  forallb P all_types = true -> t <> UACPI_AML_RESOURCE_TYPE_INVALID -> P t = true.
Proof.
  intros H Ht. rewrite forallb_forall in H. apply H. apply list_elem_of_In. by apply in_all_types.
Qed.

(** The sizes a header of a type can hold. *)
Definition max_size (k : uacpi_aml_resource_kind) : Z :=
  match k with UACPI_AML_RESOURCE_KIND_SMALL => 8 | UACPI_AML_RESOURCE_KIND_LARGE => 2 ^ 16 end.

Lemma r_type_resources t : r_type (aml_resources t) = t.
Proof. by destruct t. Qed.

Lemma aml_size_nonneg t : 0 <= aml_size (aml_resources t).
Proof. destruct t; vm_compute; discriminate. Qed.

(** The first byte of a descriptor gives back its type and, for a small one, its size. *)
Definition header_roundtrip (t : uacpi_aml_resource) : bool :=
  match resource_kind (aml_resources t) with
  | UACPI_AML_RESOURCE_KIND_LARGE =>
      bool_decide (get_aml_resource_type (aml_header (aml_resources t) 0) = t)
      && (Z.land (aml_header (aml_resources t) 0) ACPI_LARGE_ITEM =? ACPI_LARGE_ITEM)
      && (aml_header (aml_resources t) 0 <? 256) && (0 <=? aml_header (aml_resources t) 0)
  | UACPI_AML_RESOURCE_KIND_SMALL =>
      forallb (fun s => bool_decide (get_aml_resource_type (aml_header (aml_resources t) s) = t)
        && (Z.land (aml_header (aml_resources t) s) ACPI_LARGE_ITEM =? 0)
        && (Z.land (aml_header (aml_resources t) s) ACPI_SMALL_ITEM_LENGTH_MASK =? s)) [0;1;2;3;4;5;6;7]
  end.
Lemma header_roundtrips : forallb header_roundtrip all_types = true.
Proof. vm_compute. reflexivity. Qed.

(** What a descriptor written by the conversion reads back as. *)
Lemma header_spec m p t size n :
  t <> UACPI_AML_RESOURCE_TYPE_INVALID -> 0 <= size < max_size (resource_kind (aml_resources t)) ->
  m !! p = Some (aml_header (aml_resources t) size) ->
  (resource_kind (aml_resources t) = UACPI_AML_RESOURCE_KIND_LARGE -> bytes_at m (p + 1) 2 /\ le_at m (p + 1) 2 = size) ->
  header_size_of t + size <= n ->
  get_aml_resource_type (aml_header (aml_resources t) size) = t /\
  get_aml_resource_size p n m = Some ((UACPI_STATUS_OK, size), m).
Proof.
  intros Ht Hs Hp Hl Hn. pose proof (type_case _ _ header_roundtrips Ht) as H.
  unfold header_roundtrip, header_size_of, max_size in *. unfold get_aml_resource_size.
  rewrite (bind_run _ _ _ _ _ (peek_run _ _ _ Hp)).
  destruct (resource_kind (aml_resources t)) eqn:Ek; cbn [aml_resource_kind_to_header_size] in Hn.
  - rewrite forallb_forall in H. specialize (H size). rewrite !andb_true_iff in H.
    destruct H as [[Hty Hla] Hsz]; [by assert (size = 0 \/ size = 1 \/ size = 2 \/ size = 3 \/ size = 4 \/ size = 5 \/
      size = 6 \/ size = 7) as Hc by lia; cbn; intuition|].
    apply bool_decide_eq_true in Hty. apply Z.eqb_eq in Hla, Hsz. split; [done|].
    rewrite Hla, Hsz. unfold truthy. cbn [Z.eqb negb].
    by destruct (Z.ltb_spec (n - 1) size); [lia|].
  - rewrite !andb_true_iff in H. destruct H as [[[Hty Hla] Hhi] Hlo].
    apply bool_decide_eq_true in Hty. apply Z.eqb_eq in Hla.
    assert (He : aml_header (aml_resources t) size = aml_header (aml_resources t) 0) by (unfold aml_header; by rewrite Ek).
    rewrite He, Hla. split; [done|]. destruct (Hl eq_refl) as [Hb Hv]. change (truthy ACPI_LARGE_ITEM) with true. cbn iota.
    destruct (Z.ltb_spec n 3); [lia|].
    rewrite (bind_run _ _ _ _ _ (load_le_run 2 _ _ Hb)), Hv. by destruct (Z.ltb_spec (n - 3) size); [lia|].
Qed.

(** ** A parser of the buffer *)

Definition is_large (raw : Z) : bool := truthy (Z.land raw ACPI_LARGE_ITEM).
Definition size_at (m : memory) (p : Z) : Z :=
  if is_large (byte_of m p) then le_at m (p + 1) 2 else Z.land (byte_of m p) ACPI_SMALL_ITEM_LENGTH_MASK.
Definition header_at (m : memory) (p : Z) : Z := if is_large (byte_of m p) then 3 else 1.
Definition type_at (m : memory) (p : Z) : uacpi_aml_resource := get_aml_resource_type (byte_of m p).

(** A descriptor at [p] whose [n] bytes hold it: a known type, a size of the
    type, and a serial bus there is. *)
Definition descriptor_ok (m : memory) (p n : Z) : bool :=
  let t := type_at m p in
  negb (bool_decide (t = UACPI_AML_RESOURCE_TYPE_INVALID)) && (header_at m p <=? n) && (size_at m p <=? n - header_at m p)
  && size_allowed (aml_resources t) (size_at m p)
  && (negb (bool_decide (t = UACPI_AML_RESOURCE_SERIAL_CONNECTION)) ||
      is_ok (validate_aml_serial_type (byte_of m (p + offset_of acpi_resource_serial "type")))).

Definition descriptor : Type := Z * Z * uacpi_aml_resource.
Fixpoint descriptors (fuel : nat) (m : memory) (p n : Z) : list descriptor * uacpi_status :=
  match fuel with
  | O => ([], UACPI_STATUS_NO_RESOURCE_END_TAG)
  | S fuel =>
      if n =? 0 then ([], UACPI_STATUS_NO_RESOURCE_END_TAG)
      else if negb (descriptor_ok m p n) then ([], UACPI_STATUS_AML_INVALID_RESOURCE)
      else if decide (type_at m p = UACPI_AML_RESOURCE_END_TAG) then ([(p, size_at m p, type_at m p)], UACPI_STATUS_OK)
      else let total := header_at m p + size_at m p in
           let '(ds, st) := descriptors fuel m (p + total) (n - total) in ((p, size_at m p, type_at m p) :: ds, st)
  end.

(** The callback on each descriptor, until it breaks. *)
Fixpoint visit (cb : callback) (ds : list descriptor) (st : uacpi_status) : M conv uacpi_status :=
  match ds with
  | [] => mret st
  | (p, size, t) :: ds =>
      decision ← cb p size (aml_resources t);
      match decision with UACPI_ITERATION_DECISION_BREAK => mret UACPI_STATUS_OK | UACPI_ITERATION_DECISION_CONTINUE => visit cb ds st end
  end.

Definition kind_of_byte (raw : Z) : bool :=
  bool_decide (get_aml_resource_type raw = UACPI_AML_RESOURCE_TYPE_INVALID)
  || (header_size_of (get_aml_resource_type raw) =? (if is_large raw then 3 else 1)).
Lemma kinds_of_bytes : forallb kind_of_byte (map Z.of_nat (seq 0 256)) = true.
Proof. vm_compute. reflexivity. Qed.

Lemma header_at_kind m p b :
  m !! p = Some b -> 0 <= b < 256 -> type_at m p <> UACPI_AML_RESOURCE_TYPE_INVALID ->
  header_size_of (type_at m p) = header_at m p.
Proof.
  intros Hb Hr Ht. pose proof kinds_of_bytes as H. rewrite forallb_forall in H.
  specialize (H b). unfold type_at, header_at, byte_of in *. rewrite Hb in *. cbn [from_option] in *. unfold id in *.
  assert (Hin : In b (map Z.of_nat (seq 0 256))) by (apply in_map_iff; exists (Z.to_nat b); rewrite in_seq; lia).
  apply H in Hin. clear H. rename Hin into H. unfold kind_of_byte in H. apply orb_true_iff in H as [H|H]; [by apply bool_decide_eq_true in H|by apply Z.eqb_eq in H].
Qed.

Lemma size_at_nonneg m p : bytes_at m p 1 -> (is_large (byte_of m p) = true -> bytes_at m p 3) -> 0 <= size_at m p < 2 ^ 16.
Proof.
  intros H1 H3. unfold size_at. destruct (is_large _) eqn:El.
  - apply (le_at_bound 2). eapply bytes_at_sub, (H3 eq_refl); lia.
  - change ACPI_SMALL_ITEM_LENGTH_MASK with (Z.ones 3). rewrite Z.land_ones by lia.
    pose proof (Z.mod_pos_bound (byte_of m p) (2 ^ 3)). lia.
Qed.

(** ** The turns of the loop *)

Lemma resource_size_run m p n :
  bytes_at m p n -> 0 < n ->
  exists st size, get_aml_resource_size p n m = Some ((st, size), m) /\
    is_ok st = (header_at m p <=? n) && (size_at m p <=? n - header_at m p) /\
    (is_ok st = true -> size = size_at m p /\ st = UACPI_STATUS_OK) /\ (is_ok st = false -> st = UACPI_STATUS_AML_INVALID_RESOURCE).
Proof.
  intros H Hn. destruct (byte_at m p n p H) as (b & Hb & _); [lia|].
  unfold get_aml_resource_size. rewrite (bind_run _ _ _ _ _ (peek_run _ _ _ Hb)).
  assert (E : byte_of m p = b) by (unfold byte_of; by rewrite Hb).
  unfold header_at, size_at. rewrite E. unfold is_large. destruct (truthy _).
  - destruct (Z.ltb_spec n 3); [by eexists _, _; rewrite (proj2 (Z.leb_gt 3 n)) by lia|].
    rewrite (bind_run _ _ _ _ _ (load_le_run 2 m (p + 1) ltac:(by eapply bytes_at_sub, H; lia))).
    rewrite (proj2 (Z.leb_le 3 n)) by lia. cbn [andb].
    destruct (Z.ltb_spec (n - 3) (le_at m (p + 1) 2)); eexists _, _; (split; [done|]);
      [by rewrite (proj2 (Z.leb_gt _ _)) by lia|by rewrite (proj2 (Z.leb_le _ _)) by lia].
  - rewrite (proj2 (Z.leb_le 1 n)) by lia. cbn [andb].
    destruct (Z.ltb_spec (n - 1) (Z.land b ACPI_SMALL_ITEM_LENGTH_MASK)); eexists _, _; (split; [done|]);
      [by rewrite (proj2 (Z.leb_gt _ _)) by lia|by rewrite (proj2 (Z.leb_le _ _)) by lia].
Qed.

Lemma bytes_large m p n : bytes_at m p n -> header_at m p <= n -> is_large (byte_of m p) = true -> bytes_at m p 3.
Proof. intros H Hh El. unfold header_at in Hh. rewrite El in Hh. eapply bytes_at_sub, H; lia. Qed.

Lemma descriptor_ok_spec m p n :
  bytes_at m p n -> 0 < n -> descriptor_ok m p n = true ->
  let t := type_at m p in let size := size_at m p in
  t <> UACPI_AML_RESOURCE_TYPE_INVALID /\ 0 <= size < 2 ^ 16 /\ header_size_of t = header_at m p /\
  header_at m p + size <= n /\ size_allowed (aml_resources t) size = true /\
  (t = UACPI_AML_RESOURCE_SERIAL_CONNECTION -> is_ok (validate_aml_serial_type (byte_of m (p + 5))) = true).
Proof.
  intros H Hn. cbv zeta. unfold descriptor_ok. rewrite !andb_true_iff. intros [[[[Ht Hh] Hs] Ha] Hser].
  rewrite negb_true_iff, bool_decide_eq_false in Ht. destruct (byte_at m p n p H) as (b & Hb & Hbr); [lia|].
  apply Z.leb_le in Hh, Hs. split_and!; try done; try lia.
  - apply size_at_nonneg; [eapply bytes_at_sub, H; lia|]. by apply bytes_large with n.
  - apply size_at_nonneg; [eapply bytes_at_sub, H; lia|]. by apply bytes_large with n.
  - by apply header_at_kind with b.
  - intros E. apply orb_true_iff in Hser as [Hser|Hser]; [|done].
    by rewrite negb_true_iff, bool_decide_eq_false in Hser.
Qed.

Lemma serial_size m p :
  size_allowed (aml_resources UACPI_AML_RESOURCE_SERIAL_CONNECTION) (size_at m p) = true -> 9 <= size_at m p.
Proof. unfold size_allowed. intros H. by apply Z.leb_le in H. Qed.

(** The same bytes hold the same descriptors. *)
Lemma byte_of_same m m' p n q : same_bytes m m' p n -> p <= q < p + n -> byte_of m' q = byte_of m q.
Proof. intros H Hq. unfold byte_of. f_equal. specialize (H (q - p) ltac:(lia)). by replace (p + (q - p)) with q in H by lia. Qed.

Lemma header_at_same m m' p n : same_bytes m m' p n -> 0 < n -> header_at m' p = header_at m p.
Proof. intros H Hn. unfold header_at. by rewrite (byte_of_same m m' p n) by (done || lia). Qed.
Lemma type_at_same m m' p n : same_bytes m m' p n -> 0 < n -> type_at m' p = type_at m p.
Proof. intros H Hn. unfold type_at. by rewrite (byte_of_same m m' p n) by (done || lia). Qed.

Lemma size_at_same m m' p n : same_bytes m m' p n -> 0 < n -> header_at m p <= n -> size_at m' p = size_at m p.
Proof.
  intros H Hn Hh. unfold size_at, header_at in *. rewrite (byte_of_same m m' p n) by (done || lia).
  destruct (is_large _); [|done]. apply le_at_same. eapply same_bytes_sub, H; lia.
Qed.

Lemma descriptor_ok_same m m' p n : same_bytes m m' p n -> 0 < n -> descriptor_ok m' p n = descriptor_ok m p n.
Proof.
  intros H Hn. unfold descriptor_ok. rewrite (type_at_same m m' p n), (header_at_same m m' p n) by done.
  destruct (Z.leb_spec (header_at m p) n); [|by rewrite !andb_false_r].
  rewrite (size_at_same m m' p n) by done.
  destruct (Z.leb_spec (size_at m p) (n - header_at m p)); [|by rewrite !andb_false_r].
  destruct (size_allowed _ _) eqn:Ea; [|by rewrite !andb_false_r].
  destruct (bool_decide_reflect (type_at m p = UACPI_AML_RESOURCE_SERIAL_CONNECTION)) as [E|]; [|done].
  rewrite E in Ea. apply serial_size in Ea. assert (1 <= header_at m p) by (unfold header_at; case_match; lia).
  change (offset_of acpi_resource_serial "type") with 5. by rewrite (byte_of_same m m' p n) by (done || lia).
Qed.

Lemma aml_resource_turn_run cb p n c :
  let m := mem c in
  bytes_at m p n -> 0 <= n ->
  aml_resource_turn cb (p, n) c =
    if n =? 0 then Some (inr UACPI_STATUS_NO_RESOURCE_END_TAG, c)
    else if negb (descriptor_ok m p n) then Some (inr UACPI_STATUS_AML_INVALID_RESOURCE, c)
    else (decision ← cb p (size_at m p) (aml_resources (type_at m p));
          mret (match decision with
                | UACPI_ITERATION_DECISION_BREAK => inr UACPI_STATUS_OK
                | UACPI_ITERATION_DECISION_CONTINUE =>
                    if decide (type_at m p = UACPI_AML_RESOURCE_END_TAG) then inr UACPI_STATUS_OK
                    else inl (p + (header_at m p + size_at m p), n - (header_at m p + size_at m p))
                end)) c.
Proof.
  cbv zeta. intros H Hn. unfold aml_resource_turn. destruct (Z.eqb_spec n 0); [done|].
  destruct (byte_at (mem c) p n p H) as (b & Hb & Hr); [lia|].
  rewrite (bind_run _ _ _ _ _ (on_mem_read _ _ _ (peek_run _ _ _ Hb))).
  destruct (resource_size_run (mem c) p n H ltac:(lia)) as (st & size & Hrun & Hok & Ht & Hf).
  assert (Et : get_aml_resource_type b = type_at (mem c) p) by (unfold type_at, byte_of; by rewrite Hb).
  rewrite Et. unfold descriptor_ok. destruct (decide (type_at (mem c) p = _)) as [->|Hinv]; [done|].
  rewrite bool_decide_eq_false_2 by done. cbn [negb andb].
  rewrite (bind_run _ _ _ _ _ (on_mem_read _ _ _ Hrun)). rewrite <-Hok. destruct (is_ok st) eqn:Est; cbn [negb andb].
  2: { by rewrite (Hf eq_refl). }
  destruct (Ht eq_refl) as [-> ->]. destruct (size_allowed _ _) eqn:Ea; cbn [negb andb]; [|done].
  assert (Ek : aml_resource_kind_to_header_size (resource_kind (aml_resources (type_at (mem c) p))) = header_at (mem c) p)
    by (by apply header_at_kind with b).
  rewrite r_type_resources, Ek. rewrite (Z.add_comm (size_at _ _)).
  destruct (decide (type_at (mem c) p = UACPI_AML_RESOURCE_SERIAL_CONNECTION)) as [E|Hne].
  - rewrite bool_decide_eq_true_2 by done. cbn [negb orb]. pose proof Ea as Ha. rewrite E in Ha. apply serial_size in Ha.
    symmetry in Hok. apply andb_true_iff in Hok as [Hh Hl]. apply Z.leb_le in Hh, Hl.
    assert (1 <= header_at (mem c) p) by (unfold header_at; case_match; lia).
    change (offset_of acpi_resource_serial "type") with 5.
    rewrite bind_assoc, (bind_run _ _ _ _ _ (on_mem_read _ _ _ (load_le_run 1 _ (p + 5) ltac:(eapply bytes_at_sub, H; lia)))).
    cbn [le_at]. rewrite bind_ret_l, Z.mul_0_r, Z.add_0_r. destruct (is_ok (validate_aml_serial_type _)) eqn:Ev; [done|].
    cbn [negb]. unfold validate_aml_serial_type in *. by case_match.
  - rewrite bool_decide_eq_false_2 by done. done.
Qed.

(** ** The iteration *)

(** Every descriptor of the parser lies in the buffer and is one it accepts. *)
Definition descriptor_in (m : memory) (p n : Z) (d : descriptor) : Prop :=
  let '(q, size, t) := d in
  p <= q /\ q + header_size_of t + size <= p + n /\ 0 <= size < 2 ^ 16 /\ t <> UACPI_AML_RESOURCE_TYPE_INVALID /\
  t = type_at m q /\ size_allowed (aml_resources t) size = true /\
  (t = UACPI_AML_RESOURCE_SERIAL_CONNECTION -> is_ok (validate_aml_serial_type (byte_of m (q + 5))) = true).

Lemma header_at_bound m p : 1 <= header_at m p <= 3.
Proof. unfold header_at. case_match; lia. Qed.

Lemma descriptor_in_le m p n q l d : p <= q -> q + l <= p + n -> descriptor_in m q l d -> descriptor_in m p n d.
Proof. intros Hp Hn. destruct d as [[a size] t]. unfold descriptor_in. intros (?&?&?). split_and!; try lia; tauto. Qed.

Lemma descriptors_in fuel m p n : bytes_at m p n -> 0 <= n -> Forall (descriptor_in m p n) (descriptors fuel m p n).1.
Proof.
  revert p n. induction fuel as [|fuel IH]; intros p n H Hn; cbn [descriptors]; [done|].
  destruct (Z.eqb_spec n 0); [done|]. destruct (descriptor_ok m p n) eqn:Eok; cbn [negb]; [|done].
  apply descriptor_ok_spec in Eok as (Ht & Hs & Hk & Hle & Ha & Hser); [|done|lia].
  assert (Hd : descriptor_in m p n (p, size_at m p, type_at m p)) by (unfold descriptor_in; rewrite Hk; split_and!; done || lia).
  destruct (decide _); [by constructor|]. pose proof (header_at_bound m p).
  specialize (IH (p + (header_at m p + size_at m p)) (n - (header_at m p + size_at m p))).
  destruct (descriptors _ _ _ _) as [ds st]. constructor; [done|].
  eapply Forall_impl; [apply IH; [eapply bytes_at_sub, H; lia|lia]|]. intros d. apply descriptor_in_le; lia.
Qed.

Lemma descriptors_same fuel m m' p n : same_bytes m m' p n -> bytes_at m p n -> 0 <= n -> descriptors fuel m' p n = descriptors fuel m p n.
Proof.
  revert p n. induction fuel as [|fuel IH]; intros p n H Hb Hn; cbn [descriptors]; [done|].
  destruct (Z.eqb_spec n 0); [done|]. rewrite (descriptor_ok_same m m' p n) by (done || lia).
  destruct (descriptor_ok m p n) eqn:Eok; cbn [negb]; [|done].
  apply descriptor_ok_spec in Eok as (Ht & Hs & Hk & Hle & _); [|done|lia]. pose proof (header_at_bound m p).
  rewrite (type_at_same m m' p n), (header_at_same m m' p n), (size_at_same m m' p n) by (done || lia).
  rewrite IH; [done|eapply same_bytes_sub, H; lia|eapply bytes_at_sub, Hb; lia|lia].
Qed.

(** The callback leaves the bytes of the buffer, on each of the descriptors
    that it is called with. *)
Fixpoint leaves_buffer (m : memory) (bytes length : Z) (cb : callback) (ds : list descriptor) (c : conv) : Prop :=
  match ds with
  | [] => True
  | (p, size, t) :: ds =>
      forall d c', cb p size (aml_resources t) c = Some (d, c') ->
        same_bytes m (mem c') bytes length /\ (d = UACPI_ITERATION_DECISION_CONTINUE -> leaves_buffer m bytes length cb ds c')
  end.

Lemma leaves_buffer_sub m p n q l cb ds c : p <= q -> q + l <= p + n -> leaves_buffer m p n cb ds c -> leaves_buffer m q l cb ds c.
Proof.
  intros Hp Hn. revert c. induction ds as [|[[a size] t] ds IH]; intros c; cbn; [done|]. intros H d c' E.
  destruct (H d c' E) as [Hs Hc]. split; [eapply same_bytes_sub, Hs; lia|]. intros Hd. by apply IH, Hc.
Qed.

(** A callback that never changes memory. *)
Lemma pure_leaves_buffer p n cb ds c :
  (forall q size t c d c', cb q size (aml_resources t) c = Some (d, c') -> mem c' = mem c) ->
  leaves_buffer (mem c) p n cb ds c.
Proof.
  intros H. remember (mem c) as m eqn:Em. revert c Em. induction ds as [|[[q size] t] ds IH]; intros c Em; cbn; [done|].
  intros d c' E. apply H in E. split; [intros k _; by rewrite E, Em|]. intros _. apply IH. by rewrite E.
Qed.

Lemma loop_visits fuel cb m0 p n c :
  bytes_at m0 p n -> 0 <= n < Z.of_nat fuel -> same_bytes m0 (mem c) p n ->
  leaves_buffer m0 p n cb (descriptors fuel m0 p n).1 c ->
  loop fuel (aml_resource_turn cb) (p, n) c = visit cb (descriptors fuel m0 p n).1 (descriptors fuel m0 p n).2 c.
Proof.
  revert p n c. induction fuel as [|fuel IH]; intros p n c Hb Hn Hs Hk; [lia|]. cbn [loop descriptors] in *.
  pose proof (aml_resource_turn_run cb p n c (bytes_at_same _ _ _ _ Hs Hb) ltac:(lia)) as Hturn. cbv zeta in Hturn.
  destruct (Z.eqb_spec n 0); [by rewrite (bind_run _ _ _ _ _ Hturn)|].
  rewrite (descriptor_ok_same m0 (mem c) p n) in Hturn by (done || lia).
  destruct (descriptor_ok m0 p n) eqn:Eok; cbn [negb] in *; [|by rewrite (bind_run _ _ _ _ _ Hturn)].
  apply descriptor_ok_spec in Eok as (Ht & Hsz & Hkd & Hle & _); [|done|lia]. pose proof (header_at_bound m0 p).
  rewrite (type_at_same m0 (mem c) p n), (header_at_same m0 (mem c) p n), (size_at_same m0 (mem c) p n) in Hturn by (done || lia).
  set (total := header_at m0 p + size_at m0 p) in *.
  destruct (cb p (size_at m0 p) (aml_resources (type_at m0 p)) c) as [[d c']|] eqn:Ecb.
  2: { rewrite (bind_none _ _ _ Ecb) in Hturn. rewrite (bind_none _ _ _ Hturn).
       destruct (decide _); [|destruct (descriptors _ _ _ _)]; symmetry; exact (bind_none _ _ _ Ecb). }
  rewrite (bind_run _ _ _ _ _ Ecb) in Hturn. rewrite (bind_run _ _ _ _ _ Hturn).
  destruct (decide _) as [E|]; [by destruct d; cbn [fst snd visit]; rewrite (bind_run _ _ _ _ _ Ecb)|].
  specialize (IH (p + total) (n - total) c'). destruct (descriptors fuel m0 (p + total) (n - total)) as [ds st].
  cbn [fst snd visit leaves_buffer] in *. rewrite (bind_run _ _ _ _ _ Ecb). destruct d; [|done].
  destruct (Hk _ _ Ecb) as [Hs' Hk']. apply IH; [eapply bytes_at_sub, Hb; lia|lia|eapply same_bytes_sub, Hs'; lia|].
  eapply leaves_buffer_sub, (Hk' eq_refl); lia.
Qed.

Lemma for_each_visits m0 bytes length cb c :
  bytes_at m0 bytes length -> 0 <= length -> same_bytes m0 (mem c) bytes length ->
  let ds := descriptors (S (Z.to_nat length)) m0 bytes length in
  leaves_buffer m0 bytes length cb ds.1 c -> uacpi_for_each_aml_resource bytes length cb c = visit cb ds.1 ds.2 c.
Proof. intros Hb Hn Hs. cbv zeta. intros Hk. apply loop_visits; try done. lia. Qed.

(** The parser ends with [OK] exactly at an end tag, its last descriptor. *)
Lemma descriptors_end fuel m p n :
  (descriptors fuel m p n).2 = UACPI_STATUS_OK ->
  exists q size ds, (descriptors fuel m p n).1 = ds ++ [(q, size, UACPI_AML_RESOURCE_END_TAG)] /\
    Forall (fun '(_, _, t) => t <> UACPI_AML_RESOURCE_END_TAG) ds.
Proof.
  revert p n. induction fuel as [|fuel IH]; intros p n H; cbn [descriptors] in *; [done|].
  destruct (Z.eqb_spec n 0); [done|]. destruct (negb _); [done|]. destruct (decide _) as [E|Hne].
  { eexists p, _, []. rewrite E. by split. }
  specialize (IH (p + (header_at m p + size_at m p)) (n - (header_at m p + size_at m p))).
  destruct (descriptors _ _ _ _) as [ds st]. cbn [fst snd] in *. destruct (IH H) as (q & size & ds' & -> & Hf).
  eexists q, size, (_ :: ds'). split; [done|]. by constructor.
Qed.
Lemma descriptors_no_end fuel m p n :
  (descriptors fuel m p n).2 <> UACPI_STATUS_OK ->
  Forall (fun '(_, _, t) => t <> UACPI_AML_RESOURCE_END_TAG) (descriptors fuel m p n).1 /\
  ((descriptors fuel m p n).2 = UACPI_STATUS_AML_INVALID_RESOURCE \/ (descriptors fuel m p n).2 = UACPI_STATUS_NO_RESOURCE_END_TAG).
Proof.
  revert p n. induction fuel as [|fuel IH]; intros p n H; cbn [descriptors] in *; [by auto|].
  destruct (Z.eqb_spec n 0); [by auto|]. destruct (negb _); [by auto|]. destruct (decide _) as [E|Hne]; [done|].
  specialize (IH (p + (header_at m p + size_at m p)) (n - (header_at m p + size_at m p))).
  destruct (descriptors _ _ _ _) as [ds st]. cbn [fst snd] in *. destruct (IH H) as [Hf Hst]. split; [by constructor|done].
Qed.

Lemma find_end_other p size t c : t <> UACPI_AML_RESOURCE_END_TAG ->
  find_end p size (aml_resources t) c = Some (UACPI_ITERATION_DECISION_CONTINUE, c).
Proof. intros Ht. unfold find_end. rewrite r_type_resources. by rewrite bool_decide_eq_false_2. Qed.

Lemma visit_find_end ds st c :
  Forall (fun '(_, _, t) => t <> UACPI_AML_RESOURCE_END_TAG) ds -> visit find_end ds st c = Some (st, c).
Proof.
  intros H. induction H as [|[[p size] t] ds Ht H IH]; cbn [visit]; [done|].
  by rewrite (bind_run _ _ _ _ _ (find_end_other p size t c Ht)).
Qed.

Lemma visit_find_end_tag ds q size st c :
  Forall (fun '(_, _, t) => t <> UACPI_AML_RESOURCE_END_TAG) ds ->
  visit find_end (ds ++ [(q, size, UACPI_AML_RESOURCE_END_TAG)]) st c = Some (UACPI_STATUS_OK, c <| c_buf := q |>).
Proof.
  intros H. induction H as [|[[p s] t] ds Ht H IH]; cbn [visit app]; [done|].
  by rewrite (bind_run _ _ _ _ _ (find_end_other p s t c Ht)).
Qed.

Lemma find_end_reads q size t c d c' : find_end q size (aml_resources t) c = Some (d, c') -> mem c' = mem c.
Proof. unfold find_end. case_match; cbv [mbind M_bind modify mret M_ret]; intros E; by simplify_eq. Qed.

Lemma find_aml_end_tag_spec c bytes length :
  bytes_at (mem c) bytes length -> 0 < length ->
  exists st off buf, uacpi_find_aml_resource_end_tag bytes length c = Some ((st, off), c <| c_buf := buf |>) /\
    (st = UACPI_STATUS_OK \/ st = UACPI_STATUS_AML_INVALID_RESOURCE \/ st = UACPI_STATUS_NO_RESOURCE_END_TAG) /\
    (st = UACPI_STATUS_OK -> 0 <= off /\ off + 2 <= length /\ type_at (mem c) (bytes + off) = UACPI_AML_RESOURCE_END_TAG).
Proof.
  intros Hb Hn. unfold uacpi_find_aml_resource_end_tag. rewrite (proj2 (Z.eqb_neq length 0)) by lia.
  assert (Hv := for_each_visits (mem c) bytes length find_end c Hb ltac:(lia) ltac:(done)). cbv zeta in Hv.
  specialize (Hv (pure_leaves_buffer _ _ _ _ _ find_end_reads)).
  pose proof (descriptors_in (S (Z.to_nat length)) (mem c) bytes length Hb ltac:(lia)) as Hin.
  pose proof (descriptors_end (S (Z.to_nat length)) (mem c) bytes length) as He.
  pose proof (descriptors_no_end (S (Z.to_nat length)) (mem c) bytes length) as Hne.
  destruct (descriptors _ _ _ _) as [ds st]. cbn [fst snd] in *.
  destruct (decide (st = UACPI_STATUS_OK)) as [->|Hst].
  - destruct (He eq_refl) as (q & size & ds' & -> & Hf). rewrite visit_find_end_tag in Hv by done.
    rewrite (bind_run _ _ _ _ _ Hv). eexists UACPI_STATUS_OK, (q - bytes), q. split_and!; [done|by left|].
    intros _. apply Forall_app in Hin as [_ Hin]. apply Forall_singleton in Hin as (?&?&?&_&Ht&Ha&_).
    apply Z.eqb_eq in Ha. change (header_size_of UACPI_AML_RESOURCE_END_TAG) with 1 in *. cbn in Ha.
    replace (bytes + (q - bytes)) with q by lia. split_and!; done || lia.
  - destruct (Hne Hst) as [Hf Hst']. rewrite visit_find_end in Hv by done. rewrite (bind_run _ _ _ _ _ Hv).
    exists st, 0, (c_buf c). split_and!; [|tauto|done]. destruct c. by destruct Hst' as [-> | ->].
Qed.

(** C25: [uacpi_for_each_aml_resource] is the callback on the descriptors of
    the buffer, one after the other: those a parser of the buffer gives, up to
    the end tag, an ill-formed descriptor or the end, with the status that
    says which.  The callback may do anything but change the buffer, and the
    loop then never reads outside of it. *)
Theorem aml_iteration_visits (m : memory) (bytes length : Z) (cb : callback) (c : conv) :
  bytes_at m bytes length -> 0 <= length -> same_bytes m (mem c) bytes length ->
  let ds := descriptors (S (Z.to_nat length)) m bytes length in
  leaves_buffer m bytes length cb ds.1 c ->
  uacpi_for_each_aml_resource bytes length cb c = visit cb ds.1 ds.2 c /\ Forall (descriptor_in m bytes length) ds.1.
Proof. intros Hb Hl Hs. cbv zeta. intros Hc. split; [by apply for_each_visits|by apply descriptors_in]. Qed.

(** [uacpi_find_aml_resource_end_tag], on a buffer that is not empty: it
    returns, changes no memory, and an [OK] comes with the offset of an end
    tag that lies in the buffer with its checksum. *)
Theorem end_tag_in_buffer (c : conv) (bytes length : Z) :
  bytes_at (mem c) bytes length -> 0 < length ->
  exists st off buf, uacpi_find_aml_resource_end_tag bytes length c = Some ((st, off), c <| c_buf := buf |>) /\
    (st = UACPI_STATUS_OK \/ st = UACPI_STATUS_AML_INVALID_RESOURCE \/ st = UACPI_STATUS_NO_RESOURCE_END_TAG) /\
    (st = UACPI_STATUS_OK -> 0 <= off /\ off + 2 <= length /\ type_at (mem c) (bytes + off) = UACPI_AML_RESOURCE_END_TAG).
Proof. exact (find_aml_end_tag_spec c bytes length). Qed.

(** ** Concrete buffers *)

Definition mem_of (p : Z) (l : list Z) : memory := list_to_map (imap (fun i b => (p + Z.of_nat i, b)) l).
Definition ctx_of (l : list Z) : conv := Conv (mem_of 0 l) 0 UACPI_STATUS_OK false.
Definition size_of (l : list Z) : Z := Z.of_nat (length l).

Definition bytes_atb (m : memory) (p : Z) (n : nat) : bool :=
  forallb (fun k => match m !! (p + Z.of_nat k) with Some b => (0 <=? b) && (b <? 256) | None => false end) (seq 0 n).
Lemma bytes_atb_spec m p n : bytes_atb m p n = true -> bytes_at m p (Z.of_nat n).
Proof.
  unfold bytes_atb. rewrite forallb_forall. intros H k Hk. specialize (H (Z.to_nat k) ltac:(apply in_seq; lia)).
  rewrite Z2Nat.id in H by lia. destruct (m !! (p + k)) as [b|]; [|done]. exists b. split; [done|]. zify_bool. lia.
Qed.

(** An IO port range and an end tag. *)
Definition com1 : list Z := [0x47; 0x01; 0xF8; 0x03; 0xF8; 0x03; 0x01; 0x08; 0x79; 0x00].

Lemma end_tag_in_buffer_witness :
  exists st off buf, uacpi_find_aml_resource_end_tag 0 10 (ctx_of com1) = Some ((st, off), (ctx_of com1) <| c_buf := buf |>) /\
    (st = UACPI_STATUS_OK \/ st = UACPI_STATUS_AML_INVALID_RESOURCE \/ st = UACPI_STATUS_NO_RESOURCE_END_TAG) /\
    (st = UACPI_STATUS_OK -> 0 <= off /\ off + 2 <= 10 /\ type_at (mem (ctx_of com1)) (0 + off) = UACPI_AML_RESOURCE_END_TAG).
Proof. apply (end_tag_in_buffer (ctx_of com1) 0 10); [by apply (bytes_atb_spec _ _ 10)|lia]. Defined.

Lemma aml_iteration_visits_witness :
  let ds := descriptors 11 (mem_of 0 com1) 0 10 in
  uacpi_for_each_aml_resource 0 10 find_end (ctx_of com1) = visit find_end ds.1 ds.2 (ctx_of com1) /\
  Forall (descriptor_in (mem_of 0 com1) 0 10) ds.1.
Proof.
  apply (aml_iteration_visits (mem_of 0 com1) 0 10 find_end (ctx_of com1)); [by apply (bytes_atb_spec _ _ 10)|lia|by intros k _|].
  exact (pure_leaves_buffer 0 10 find_end _ (ctx_of com1) find_end_reads).
Defined.

Example end_tag_of_com1 :
  (fst <$> uacpi_find_aml_resource_end_tag 0 10 (ctx_of com1)) = Some (UACPI_STATUS_OK, 8).
Proof. vm_compute. reflexivity. Qed.
