(* ===== verification/ResourcesSafe.v ===== *)
(** * Conversions to native form that stay in their buffer

    A checker of conversion programs and its soundness: a program it accepts
    reads inside the descriptor and writes inside the native resource, for
    every descriptor the iteration hands on. *)
From S2P Require Import Prelude Status Klibc KlibcSpec ResourceTables Resources ResourcesSpec.

(** ** The checker *)

(** What the space after the fixed part of the native resource is for. *)
Inductive extra_kind : Type :=
  | NoExtra
  (** one byte for each bit set in the mask of some bytes at an offset *)
  | BitsExtra (bytes : nat) (offset : Z)
  (** the string of a resource source, after its index *)
  | SourceExtra.
#[export] Instance extra_kind_eq_dec : EqDecision extra_kind.
Proof. solve_decision. Defined.

Section Checker.
Context (spec : spec_data) (kind : extra_kind) (insns : list convert_instruction).
Let header := aml_resource_kind_to_header_size (resource_kind spec).

(** [n] bytes at an offset, in a descriptor of at least [least] bytes and in
    the fixed part of the native resource. *)
Definition in_aml (least off n : Z) : bool := (0 <=? off) && (off + n <=? least + header).
Definition in_native (off n : Z) : bool := (0 <=? off) && (off + 8 + n <=? native_size spec).

(** The count of a field, when the accumulator is known. *)
Definition field_count (acc : option Z) (imm : Z) : option Z :=
  if imm =? 0xFF then Some 1
  else match acc with Some a => if (0 <=? a + imm) && (a + imm <? 256) then Some (Z.max 1 (a + imm)) else None | None => None end.

Fixpoint safe_program (fuel : nat) (pc : Z) (acc : option Z) (least : Z) : bool :=
  match fuel, insns !! Z.to_nat pc with
  | S fuel, Some i =>
      let next := safe_program fuel (pc + 1) in
      let skip := safe_program fuel (pc + 1 + f3 i) in
      (0 <=? pc) && (pc <? 255) &&
      match code i with
      | END => true
      | FIELD_8 | FIELD_16 | FIELD_32 | FIELD_64 =>
          match field_count acc (f3 i) with
          | Some n => in_aml least (f1 i) (field_bytes (code i) * n) && in_native (f2 i) (field_bytes (code i) * n) && next (Some 0) least
          | None => false
          end
      | BIT_FIELD_1 | BIT_FIELD_2 | BIT_FIELD_3 | BIT_FIELD_6 => in_aml least (f1 i) 1 && in_native (f2 i) 1 && next acc least
      | SKIP_IF_AML_SIZE_LESS_THAN =>
          (0 <=? f3 i) && (pc + 1 + f3 i <? 256) && next acc (Z.max least (f1 i)) && skip acc least
      | SKIP_IF_NOT_EQUALS => (0 <=? f3 i) && (pc + 1 + f3 i <? 256) && next acc least && skip acc least
      | SET_TO_IMM => in_native (f2 i) 1 && next acc least
      | LOAD_8_STORE => in_aml least (f1 i) 1 && in_native (f2 i) 1 && next None least
      | PACKED_ARRAY_8 => bool_decide (kind = BitsExtra 1 (f1 i)) && in_aml least (f1 i) 1 && in_native (f2 i) 0 && in_native (f3 i) 1 && next acc least
      | PACKED_ARRAY_16 => bool_decide (kind = BitsExtra 2 (f1 i)) && in_aml least (f1 i) 2 && in_native (f2 i) 0 && in_native (f3 i) 1 && next acc least
      | RESOURCE_SOURCE =>
          bool_decide (kind = SourceExtra) && bool_decide (acc = Some 0) && (f3 i =? 0) && in_native (f2 i) (csize uacpi_resource_source) && next acc least
      | _ => false
      end
  | _, _ => false
  end.
End Checker.

(** The extra space each size function of the table gives. *)
Definition extra_of (t : uacpi_aml_resource) : option extra_kind :=
  match t with
  | UACPI_AML_RESOURCE_IRQ => Some (BitsExtra 2 1)
  | UACPI_AML_RESOURCE_DMA => Some (BitsExtra 1 1)
  | UACPI_AML_RESOURCE_ADDRESS16 | UACPI_AML_RESOURCE_ADDRESS32 | UACPI_AML_RESOURCE_ADDRESS64 => Some SourceExtra
  | UACPI_AML_RESOURCE_START_DEPENDENT | UACPI_AML_RESOURCE_END_DEPENDENT | UACPI_AML_RESOURCE_IO | UACPI_AML_RESOURCE_FIXED_IO
  | UACPI_AML_RESOURCE_FIXED_DMA | UACPI_AML_RESOURCE_END_TAG | UACPI_AML_RESOURCE_MEMORY24 | UACPI_AML_RESOURCE_MEMORY32
  | UACPI_AML_RESOURCE_FIXED_MEMORY32 | UACPI_AML_RESOURCE_GENERIC_REGISTER | UACPI_AML_RESOURCE_ADDRESS64_EXTENDED => Some NoExtra
  | _ => None
  end.

(** The least size of a descriptor that the iteration hands on. *)
Definition least_size (spec : spec_data) : Z :=
  match size_kind spec with UACPI_AML_RESOURCE_SIZE_KIND_FIXED_OR_ONE_LESS => aml_size spec - 1 | _ => aml_size spec end.

Definition safe_type (t : uacpi_aml_resource) : bool :=
  match extra_of t with
  | None => false
  | Some k =>
      match to_native (aml_resources t) with
      | None => true
      | Some insns => safe_program (aml_resources t) k insns (S (length insns)) 0 (Some 0) (least_size (aml_resources t))
      end
  end.

(** The checker accepts these types. *)
Example safe_types :
  filter (fun t => safe_type t) all_types
  = [UACPI_AML_RESOURCE_IRQ; UACPI_AML_RESOURCE_DMA; UACPI_AML_RESOURCE_START_DEPENDENT; UACPI_AML_RESOURCE_END_DEPENDENT;
     UACPI_AML_RESOURCE_IO; UACPI_AML_RESOURCE_FIXED_IO; UACPI_AML_RESOURCE_FIXED_DMA; UACPI_AML_RESOURCE_END_TAG;
     UACPI_AML_RESOURCE_MEMORY24; UACPI_AML_RESOURCE_GENERIC_REGISTER; UACPI_AML_RESOURCE_MEMORY32;
     UACPI_AML_RESOURCE_FIXED_MEMORY32; UACPI_AML_RESOURCE_ADDRESS32; UACPI_AML_RESOURCE_ADDRESS16; UACPI_AML_RESOURCE_ADDRESS64;
     UACPI_AML_RESOURCE_ADDRESS64_EXTENDED].
Proof. vm_compute. reflexivity. Qed.

(** ** Memory around a conversion *)

(** A value that the rest depends on only through [F]. *)
Lemma triple_then {T A B} (P : T -> Prop) (m : M T A) (k : A -> M T B) (F : A -> Prop) (Q : B -> T -> Prop) :
  triple P m (fun a s => P s /\ F a) -> (forall a, F a -> triple P (k a) Q) -> triple P (m ≫= k) Q.
Proof. intros Hm Hk. eapply triple_bind; [exact Hm|]. intros a s [Hs Ha]. by apply (Hk a Ha). Qed.

Section Native.
(** The descriptor, [room] bytes of [m0] at [data], and the native resource,
    [len] bytes at [res], which do not meet. *)
Context (m0 : memory) (data room res len : Z).
Context (Haml : bytes_at m0 data room) (Hap : data + room <= res \/ res + len <= data).

Definition env (m : memory) : Prop :=
  bytes_at m res len /\ (forall p, ~ (res <= p < res + len) -> m !! p = m0 !! p).

(** [safe m F]: [m] runs, changes nothing outside the native resource, and
    returns a value of [F]. *)
Definition safe {A} (m : M memory A) (F : A -> Prop) : Prop := triple env m (fun a s => env s /\ F a).

Lemma inside_ret {A} (a : A) (F : A -> Prop) : F a -> safe (mret a) F.
Proof. intros H. by apply triple_ret. Qed.

Lemma inside_bind {A B} (m : M memory A) (f : A -> M memory B) F G :
  safe m F -> (forall a, F a -> safe (f a) G) -> safe (m ≫= f) G.
Proof. apply triple_then. Qed.

Lemma safe_conseq {A} (m : M memory A) (F G : A -> Prop) : safe m F -> (forall a, F a -> G a) -> safe m G.
Proof. intros Hm H. eapply triple_conseq; [exact Hm|done|]. intros a s []. auto. Qed.

Lemma env_aml m : env m -> same_bytes m0 m data room.
Proof. intros [_ He] k Hk. apply He. lia. Qed.

Lemma safe_load n q : data <= q -> q + Z.of_nat n <= data + room -> safe (load_le n q) (fun v => v = le_at m0 q n).
Proof.
  intros Hq Hn m Hm. pose proof (env_aml m Hm) as Hs. exists (le_at m q n), m.
  assert (Hs' : same_bytes m0 m q (Z.of_nat n)) by (eapply same_bytes_sub, Hs; lia).
  split; [|split; [done|by apply le_at_same]].
  apply load_le_run. eapply bytes_at_same, bytes_at_sub, Haml; [exact Hs'|lia|lia].
Qed.

Lemma safe_peek q : data <= q < data + room -> safe (peek q) (fun b => b = byte_of m0 q /\ 0 <= b < 256).
Proof.
  intros Hq m Hm. destruct (byte_at m0 data room q Haml Hq) as (b & Hb & Hr). exists b, m.
  assert (m !! q = Some b) by (rewrite <-Hb; apply Hm; lia).
  split; [by apply peek_run|]. split; [done|]. split; [|done]. unfold byte_of. by rewrite Hb.
Qed.

Lemma safe_poke q b : res <= q < res + len -> 0 <= b < 256 -> safe (poke q b) (fun _ => True).
Proof.
  intros Hq Hb m [Hn He]. destruct (byte_at m res len q Hn Hq) as (x & Hx & _).
  exists tt, (<[q := b]> m). split; [by apply poke_run|]. split; [|done]. split.
  - intros k Hk. destruct (decide (q = res + k)) as [->|]; [exists b; by rewrite lookup_insert_eq|].
    rewrite lookup_insert_ne by done. by apply Hn.
  - intros p Hp. rewrite lookup_insert_ne by (intros ->; lia). by apply He.
Qed.

Lemma safe_store n q v : res <= q -> q + Z.of_nat n <= res + len -> safe (store_le n q v) (fun _ => True).
Proof.
  revert q v. induction n as [|n IH]; intros q v Hq Hn; cbn [store_le]; [by apply inside_ret|].
  eapply inside_bind; [apply safe_poke; [lia|apply Z.mod_pos_bound; lia]|]. intros _ _. apply IH; lia.
Qed.

Lemma safe_memcpy dst src n :
  0 <= n -> data <= src -> src + n <= data + room -> res <= dst -> dst + n <= res + len ->
  safe (memcpy dst src n) (fun _ => True).
Proof.
  intros Hn Hs Hs' Hd Hd' m Hm. unfold memcpy, for_range, iters.
  assert (Hl : triple env (for_n (Z.to_nat (n - 0)) 0 (fun i => b ← peek (src + i); poke (dst + i) b)) (fun _ => env)).
  { apply triple_for_n. intros j Hj. eapply triple_conseq with (P := env) (Q := fun _ s => env s /\ True); [|done|by intros ?? []].
    apply inside_bind with (F := fun b => b = byte_of m0 (src + j) /\ 0 <= b < 256); [apply safe_peek; lia|].
    intros b [_ Hb]. apply safe_poke; [lia|done]. }
  destruct (Hl m Hm) as ([] & m' & E & Hm'). exists dst, m'. by rewrite (bind_run _ _ _ _ _ E).
Qed.

(** The bits of a mask, and how many of them there are from [i] on. *)
Fixpoint bits_from (n : nat) (i v : Z) : Z :=
  match n with O => 0 | S n => Z.b2z (Z.testbit v i) + bits_from n (i + 1) v end.
Lemma bits_from_bound n i v : 0 <= bits_from n i v <= Z.of_nat n.
Proof. revert i. induction n as [|n IH]; intros i; cbn [bits_from]; [lia|]. specialize (IH (i + 1)). destruct (Z.testbit v i); cbn [Z.b2z]; lia. Qed.

Lemma bits_from_snoc n i v : bits_from (S n) i v = bits_from n i v + Z.b2z (Z.testbit v (i + Z.of_nat n)).
Proof.
  revert i. induction n as [|n IH]; intros i; [cbn [bits_from]; replace (i + Z.of_nat 0) with i by lia; lia|].
  change (bits_from (S (S n)) i v) with (Z.b2z (Z.testbit v i) + bits_from (S n) (i + 1) v). rewrite IH.
  cbn [bits_from]. replace (i + 1 + Z.of_nat n) with (i + Z.of_nat (S n)) by lia. lia.
Qed.
Lemma count_bits_from n v : count_bits n v = bits_from n 0 v.
Proof. induction n as [|n IH]; [done|]. rewrite bits_from_snoc, <-IH. done. Qed.

Lemma safe_unpack n i v dst j :
  0 <= i -> i + Z.of_nat n <= 256 -> res <= dst + j -> dst + j + bits_from n i v <= res + len ->
  safe (unpack_bits n i v dst j) (fun k => k = j + bits_from n i v).
Proof.
  revert i j. induction n as [|n IH]; intros i j Hi Hn Hj Hl; cbn [unpack_bits bits_from] in *; [apply inside_ret; lia|].
  pose proof (bits_from_bound n (i + 1) v). destruct (Z.testbit v i); cbn [Z.b2z] in Hl |- *.
  - eapply inside_bind; [apply safe_poke; lia|]. intros _ _. eapply safe_conseq; [apply IH; lia|]. intros k ->. lia.
  - eapply safe_conseq; [apply IH; lia|]. intros k ->. lia.
Qed.

Lemma safe_scan n s k :
  0 <= k -> data <= s -> s + k + Z.of_nat n <= data + room -> safe (scan_string n s k) (fun l => k <= l <= k + Z.of_nat n /\ (n <> 0%nat -> k < l)).
Proof.
  revert k. induction n as [|n IH]; intros k Hk Hs Hr; cbn [scan_string]; [apply inside_ret; lia|].
  eapply inside_bind; [apply safe_peek; lia|]. intros c _. cbv beta. destruct (c =? 0); [apply inside_ret; lia|].
  eapply safe_conseq; [apply IH; lia|]. intros l [Hl _]. lia.
Qed.
End Native.

(** ** Soundness of the checker *)

Section Run.
Context (m0 : memory) (data size res len : Z) (spec : spec_data) (kind : extra_kind) (extra : Z).
Context (buf : Z) (st0 : uacpi_status) (one : bool).
Let header := aml_resource_kind_to_header_size (resource_kind spec).
Let room := header + size.
Context (Haml : bytes_at m0 data room) (Hap : data + room <= res \/ res + len <= data).
Context (Hsize : 0 <= size) (Hspec : 0 <= aml_size spec < 2 ^ 16) (Hnat : 8 <= native_size spec) (Hextra : 0 <= extra) (Hlen : native_size spec + extra <= len).

(** The extra space is as large as its kind needs it. *)
Definition extra_enough : Prop :=
  match kind with
  | NoExtra => True
  | BitsExtra bytes off => count_bits (8 * bytes) (le_at m0 (data + off) bytes) <= extra
  | SourceExtra => size - aml_size spec - 1 <= extra
  end.
Context (Henough : extra_enough).

Definition cenv (st : uacpi_status) (c : conv) : Prop :=
  env m0 res len (mem c) /\ c_buf c = buf /\ just_one c = one /\ c_st c = st.

(** The conversion ends: with the descriptor converted, or with the error
    recorded and the iteration stopped. *)
Definition finished (d : uacpi_iteration_decision) (c : conv) : Prop :=
  (cenv st0 c /\ d = (if one then UACPI_ITERATION_DECISION_BREAK else UACPI_ITERATION_DECISION_CONTINUE)) \/
  (cenv UACPI_STATUS_AML_INVALID_RESOURCE c /\ d = UACPI_ITERATION_DECISION_BREAK).

Definition step_ok (m : step) (G : regs -> Prop) : Prop :=
  triple (cenv st0) m (fun r c => match r with inl r => cenv st0 c /\ G r | inr d => finished d c end).

Lemma on_mem_safe {A} (m : M memory A) F st :
  safe m0 res len m F -> triple (cenv st) (on_mem m) (fun a c => cenv st c /\ F a).
Proof.
  intros Hm c (He & Hb & Ho & Hst). destruct (Hm _ He) as (a & m' & E & He' & Ha).
  exists a, (c <| mem := m' |>). split; [by apply on_mem_run|]. by split_and!.
Qed.

Lemma step_then {A} (m : M conv A) (k : A -> step) (F : A -> Prop) G :
  triple (cenv st0) m (fun a c => cenv st0 c /\ F a) -> (forall a, F a -> step_ok (k a) G) -> step_ok (m ≫= k) G.
Proof. apply triple_then. Qed.
Lemma step_bind {A} (m : M memory A) (k : A -> step) F G :
  safe m0 res len m F -> (forall a, F a -> step_ok (k a) G) -> step_ok (on_mem m ≫= k) G.
Proof. intros Hm. apply step_then. by apply on_mem_safe. Qed.
Lemma step_next r (G : regs -> Prop) : G r -> step_ok (next r) G.
Proof. intros H. by apply triple_ret. Qed.
Lemma step_fail G : step_ok (fail UACPI_STATUS_AML_INVALID_RESOURCE) G.
Proof.
  intros c (He & Hb & Ho & Hst). eexists _, _. split; [reflexivity|]. right. by split_and!.
Qed.

(** The registers at an instruction. *)
Definition at_regs (p : Z) (acc : option Z) (r : regs) : Prop :=
  pc r = p /\ resource_end r = res + native_size spec /\ base_aml_size_with_header r = aml_size spec + header /\
  (forall a, acc = Some a -> accumulator r = a).

Lemma in_aml_spec least off n : in_aml spec least off n = true -> least <= size -> data <= data + off /\ data + off + n <= data + room.
Proof. unfold in_aml, room, header. rewrite andb_true_iff, !Z.leb_le. lia. Qed.
Lemma in_native_spec off n :
  in_native spec off n = true -> res <= NATIVE_OFFSET res off /\ NATIVE_OFFSET res off + n <= res + native_size spec.
Proof. unfold in_native, NATIVE_OFFSET. rewrite andb_true_iff, !Z.leb_le. lia. Qed.

Lemma safe_field i acc r n least p (G : regs -> Prop) :
  field_count acc (f3 i) = Some n -> code i ∈ [FIELD_8; FIELD_16; FIELD_32; FIELD_64] ->
  in_aml spec least (f1 i) (field_bytes (code i) * n) = true -> in_native spec (f2 i) (field_bytes (code i) * n) = true ->
  least <= size -> at_regs p acc r -> G (r <| accumulator := 0 |>) ->
  step_ok (insn_to_native res data size header i r) G.
Proof.
  intros Hc Hcode Ha Hn Hl (_ & _ & _ & Hacc) HG. apply in_aml_spec in Ha as [Ha1 Ha2]; [|done]. apply in_native_spec in Hn as [Hn1 Hn2].
  assert (Hbody : step_ok (
      let acc := if f3 i =? 0xFF then 0 else u32 (accumulator r + f3 i) in
      _ ← on_mem (memcpy (NATIVE_OFFSET res (f2 i)) (data + f1 i) (u32 (field_bytes (code i) * Z.max 1 acc)));
      next (r <| accumulator := 0 |>)) G).
  { cbv zeta. assert (Hb : 1 <= field_bytes (code i) <= 8) by (repeat (apply elem_of_cons in Hcode as [->|Hcode]; [cbn; lia|]); by apply elem_of_nil in Hcode).
    assert (En : u32 (field_bytes (code i) * Z.max 1 (if f3 i =? 0xFF then 0 else u32 (accumulator r + f3 i))) = field_bytes (code i) * n /\ 1 <= n).
    { unfold field_count in Hc. destruct (f3 i =? 0xFF); [injection Hc as <-; rewrite u32_small by lia; lia|].
      destruct acc as [a|]; [|done]. rewrite (Hacc a eq_refl). destruct (_ && _) eqn:E; [|done]. apply andb_true_iff in E as [E1 E2].
      apply Z.leb_le in E1. apply Z.ltb_lt in E2. injection Hc as <-. rewrite (u32_small (a + _)) by lia. rewrite u32_small by nia. lia. }
    destruct En as [-> Hn0]. eapply step_bind; [apply safe_memcpy with (data := data) (room := room); try done; nia|]. intros _ _. by apply step_next. }
  repeat (apply elem_of_cons in Hcode as [Hcode|Hcode]); [..|by apply elem_of_nil in Hcode];
    unfold insn_to_native, CONVERSION_OPCODES_COMMON; rewrite Hcode in Hbody |- *; exact Hbody.
Qed.

Lemma safe_bit_field i r least p acc (G : regs -> Prop) :
  code i ∈ [BIT_FIELD_1; BIT_FIELD_2; BIT_FIELD_3; BIT_FIELD_6] ->
  in_aml spec least (f1 i) 1 = true -> in_native spec (f2 i) 1 = true ->
  least <= size -> at_regs p acc r -> G r -> step_ok (insn_to_native res data size header i r) G.
Proof.
  intros Hcode Ha Hn Hl Hr HG. apply in_aml_spec in Ha as [Ha1 Ha2]; [|done]. apply in_native_spec in Hn as [Hn1 Hn2].
  assert (Hbody : step_ok (b ← on_mem (peek (data + f1 i));
      _ ← on_mem (poke (NATIVE_OFFSET res (f2 i)) (Z.land (Z.shiftr b (f3 i)) (Z.ones (bit_field_width (code i))))); next r) G).
  { eapply step_bind; [eapply safe_peek; [done..|lia]|]. intros b [_ Hb].
    eapply step_bind; [|by intros _ _; apply step_next]. apply safe_poke; [lia|].
    assert (Hw : 0 <= bit_field_width (code i) <= 6)
      by (repeat (apply elem_of_cons in Hcode as [->|Hcode]; [cbn; lia|]); by apply elem_of_nil in Hcode).
    rewrite Z.land_ones by lia. pose proof (Z.mod_pos_bound (Z.shiftr b (f3 i)) (2 ^ bit_field_width (code i))).
    pose proof (Z.pow_le_mono_r 2 (bit_field_width (code i)) 6). lia. }
  repeat (apply elem_of_cons in Hcode as [Hcode|Hcode]); [..|by apply elem_of_nil in Hcode];
    unfold insn_to_native; rewrite Hcode in Hbody |- *; exact Hbody.
Qed.

Lemma safe_packed_array (bytes : nat) i r least p acc (G : regs -> Prop) :
  (bytes <= 2)%nat -> code i = (if decide (bytes = 2%nat) then PACKED_ARRAY_16 else PACKED_ARRAY_8) ->
  bytes <> 0%nat -> kind = BitsExtra bytes (f1 i) -> in_aml spec least (f1 i) (Z.of_nat bytes) = true ->
  in_native spec (f2 i) 0 = true -> in_native spec (f3 i) 1 = true ->
  least <= size -> at_regs p acc r -> G r -> step_ok (insn_to_native res data size header i r) G.
Proof.
  intros Hb Hcode Hb0 Hk Ha Hn Hn' Hl Hr HG. apply in_aml_spec in Ha as [Ha1 Ha2]; [|done].
  apply in_native_spec in Hn as [Hn1 Hn2], Hn' as [Hn3 Hn4]. pose proof Henough as He. unfold extra_enough in He. rewrite Hk in He.
  assert (Hbody : step_ok (value ← on_mem (load_le bytes (data + f1 i));
      j ← on_mem (unpack_bits (8 * bytes) 0 value (NATIVE_OFFSET res (f2 i)) 0);
      _ ← on_mem (store_le 1 (NATIVE_OFFSET res (f3 i)) j); next r) G).
  { eapply step_bind; [eapply safe_load; [done..|lia|lia]|]. intros v ->.
    rewrite count_bits_from in He. pose proof (bits_from_bound (8 * bytes) 0 (le_at m0 (data + f1 i) bytes)).
    eapply step_bind; [apply safe_unpack; lia|]. intros j _.
    eapply step_bind; [apply safe_store; lia|]. intros _ _. by apply step_next. }
  unfold insn_to_native. rewrite Hcode. destruct (decide (bytes = 2%nat)) as [->|];
    [exact Hbody|]. assert (bytes = 1%nat) as -> by lia. exact Hbody.
Qed.

Lemma safe_source_string dst r offset (G : regs -> Prop) :
  kind = SourceExtra -> offset = aml_size spec + header -> aml_size spec < size ->
  res <= dst -> dst + csize uacpi_resource_source <= res + native_size spec ->
  resource_end r = res + native_size spec -> accumulator r = 0 -> G r ->
  step_ok (copy_source_string data RESOURCE_SOURCE dst offset (size + header) r) G.
Proof.
  intros Hk -> Hlt Hd Hd' Hre Hacc HG. pose proof Henough as He. unfold extra_enough in He. rewrite Hk in He.
  assert (Hh : 1 <= header <= 3) by (unfold header; destruct (resource_kind spec); cbn; lia).
  unfold copy_source_string. destruct (decide (RESOURCE_SOURCE = RESOURCE_SOURCE)) as [_|n]; [|by destruct n].
  destruct (decide (RESOURCE_SOURCE = RESOURCE_LABEL)) as [|_]; [done|].
  change (csize uacpi_resource_source) with 16 in Hd'. change (offset_of uacpi_resource_source "index") with 0.
  change (offset_of uacpi_resource_source "length") with 2. change (offset_of uacpi_resource_source "string") with 8.
  eapply step_then with (F := fun s => s = data + (aml_size spec + header) + 1).
  { eapply triple_bind; [apply on_mem_safe; eapply safe_peek; [done..|unfold room; lia]|]. intros b c [Hc [_ Hb]].
    revert c Hc. eapply triple_bind; [apply on_mem_safe, safe_poke; [lia|exact Hb]|]. intros []. apply triple_ret. by intros c []. }
  intros s ->. case_if; [by apply step_next|].
  eapply step_bind; [eapply safe_scan; [done..|lia|lia|unfold room; lia]|]. intros l [Hl Hl'].
  eapply step_bind; [eapply safe_peek; [done..|unfold room; lia]|]. intros last _.
  destruct (negb _); [apply step_fail|]. rewrite Hre, Hacc, Z.add_0_r.
  eapply step_bind; [apply safe_memcpy with (data := data) (room := room); try done; unfold room; lia|]. intros _ _.
  eapply step_bind; [apply safe_store; lia|]. intros _ _. eapply step_bind; [apply safe_store; lia|]. intros _ _. by apply step_next.
Qed.

Lemma safe_source i r p (G : regs -> Prop) :
  code i = RESOURCE_SOURCE -> kind = SourceExtra -> f3 i = 0 -> in_native spec (f2 i) (csize uacpi_resource_source) = true ->
  at_regs p (Some 0) r -> G r -> step_ok (insn_to_native res data size header i r) G.
Proof.
  intros Hcode Hk Hf3 Hn Hr HG. apply in_native_spec in Hn as [Hn1 Hn2]. change (csize uacpi_resource_source) with 16 in Hn2.
  destruct Hr as (_ & Hre & Hba & Hacc). unfold insn_to_native. rewrite Hcode. unfold source_to_native. rewrite Hcode, Hf3.
  destruct (decide (RESOURCE_SOURCE = RESOURCE_LABEL)) as [|_]; [done|]. change (truthy 0) with false. cbn iota.
  destruct (decide (RESOURCE_SOURCE = RESOURCE_SOURCE)) as [_|n]; [|by destruct n].
  change (offset_of uacpi_resource_source "index_present") with 1. unfold step_ok. intros c Hc. rewrite bind_ret_l. revert c Hc.
  rewrite Hba, (Hacc 0 eq_refl), Z.add_0_r.
  eapply step_bind; [apply safe_store; lia|]. intros _ _. case_if.
  - eapply step_bind; [apply safe_store; lia|]. intros _ _. by apply step_next.
  - apply safe_source_string; try done; try lia. exact (Hacc 0 eq_refl).
Qed.

Lemma at_regs_acc p acc r (a : option Z) v : at_regs p acc r -> (forall x, a = Some x -> v = x) -> at_regs p a (r <| accumulator := v |>).
Proof. intros (H1 & H2 & H3 & _) H. by split_and!. Qed.

(** What the program goes on with. *)
Definition goes_on (insns : list convert_instruction) (fuel : nat) (r : regs) : Prop :=
  exists p acc least, safe_program spec kind insns fuel p acc least = true /\ least <= size /\ at_regs p acc r.

Lemma goes_on_at insns fuel p acc least r :
  at_regs p acc r -> safe_program spec kind insns fuel p acc least = true -> least <= size -> goes_on insns fuel r.
Proof. intros. by exists p, acc, least. Qed.

(** A skip, taken or not. *)
Lemma checked_skip (b : bool) i insns fuel p acc least least' r :
  at_regs (p + 1) acc r -> 0 <= p -> 0 <= f3 i -> p + 1 + f3 i < 256 -> least <= size -> (b = false -> least' <= size) ->
  safe_program spec kind insns fuel (p + 1) acc least' = true ->
  safe_program spec kind insns fuel (p + 1 + f3 i) acc least = true ->
  step_ok (next (if b then r <| pc := u8 (pc r + f3 i) |> else r)) (goes_on insns fuel).
Proof.
  intros Hr Hp Hf Hlt Hl Hl' Hn Hs. apply step_next. destruct b; [|eapply goes_on_at; eauto].
  eapply goes_on_at; [|exact Hs|done]. destruct Hr as (Hpc & H). split; [|exact H].
  change (u8 (pc r + f3 i) = p + 1 + f3 i). rewrite Hpc. apply u8_small. lia.
Qed.

Lemma safe_store_imm i r p acc insns fuel least :
  code i = SET_TO_IMM -> in_native spec (f2 i) 1 = true -> at_regs p acc r -> goes_on insns fuel r -> least <= size ->
  step_ok (insn_to_native res data size header i r) (goes_on insns fuel).
Proof.
  intros Hc Hn Hr HG Hl. apply in_native_spec in Hn as [Hn1 Hn2]. unfold insn_to_native, CONVERSION_OPCODES_COMMON. rewrite Hc.
  eapply step_bind; [apply safe_store; lia|]. intros _ _. by apply step_next.
Qed.

Lemma safe_load_store i r p acc insns fuel least :
  code i = LOAD_8_STORE -> in_aml spec least (f1 i) 1 = true -> in_native spec (f2 i) 1 = true -> at_regs p acc r ->
  safe_program spec kind insns fuel p None least = true -> least <= size ->
  step_ok (insn_to_native res data size header i r) (goes_on insns fuel).
Proof.
  intros Hc Ha Hn Hr HG Hl. apply in_aml_spec in Ha as [Ha1 Ha2]; [|done]. apply in_native_spec in Hn as [Hn1 Hn2].
  unfold insn_to_native, CONVERSION_OPCODES_COMMON. rewrite Hc. eapply step_bind; [eapply safe_load; [done..|lia|lia]|]. intros v _.
  eapply step_bind; [apply safe_store; lia|]. intros _ _. apply step_next. eapply goes_on_at; [|done..]. by apply (at_regs_acc p acc).
Qed.

(** An accepted instruction leads to instructions the checker accepted. *)
Lemma instruction_safe insns fuel p acc least r :
  safe_program spec kind insns (S fuel) p acc least = true -> least <= size -> at_regs p acc r ->
  exists i, insns !! Z.to_nat (pc r) = Some i /\
    step_ok (insn_to_native res data size header i (r <| pc := u8 (pc r + 1) |>)) (goes_on insns fuel).
Proof.
  intros Hs Hl Hr. cbn [safe_program] in Hs. pose proof Hr as (Hp & Hre & Hba & Hacc). rewrite Hp.
  destruct (insns !! Z.to_nat p) as [i|] eqn:Ei; [|done]. exists i. split; [done|].
  rewrite !andb_true_iff, Z.leb_le, Z.ltb_lt in Hs. destruct Hs as [[Hp0 Hp1] Hs].
  set (r1 := r <| pc := u8 (p + 1) |>).
  assert (Hr1 : at_regs (p + 1) acc r1) by (unfold at_regs, r1; cbn; rewrite u8_small by lia; by split_and!).
  assert (Hfield : forall n, code i ∈ [FIELD_8; FIELD_16; FIELD_32; FIELD_64] -> field_count acc (f3 i) = Some n ->
    in_aml spec least (f1 i) (field_bytes (code i) * n) && in_native spec (f2 i) (field_bytes (code i) * n)
      && safe_program spec kind insns fuel (p + 1) (Some 0) least = true ->
    step_ok (insn_to_native res data size header i r1) (goes_on insns fuel)).
  { intros n Hi Hc H. rewrite !andb_true_iff in H. destruct H as [[Ha Hn] H]. eapply safe_field; eauto.
    eapply goes_on_at; [|exact H|done]. apply (at_regs_acc _ acc); [done|]. by intros x [= <-]. }
  assert (Hbit : code i ∈ [BIT_FIELD_1; BIT_FIELD_2; BIT_FIELD_3; BIT_FIELD_6] ->
    in_aml spec least (f1 i) 1 && in_native spec (f2 i) 1 && safe_program spec kind insns fuel (p + 1) acc least = true ->
    step_ok (insn_to_native res data size header i r1) (goes_on insns fuel)).
  { intros Hi H. rewrite !andb_true_iff in H. destruct H as [[Ha Hn] H]. eapply safe_bit_field; eauto. by eapply goes_on_at. }
  destruct (code i) eqn:Ec; try discriminate Hs; rewrite ?andb_true_iff, ?bool_decide_eq_true, ?Z.leb_le, ?Z.ltb_lt, ?Z.eqb_eq in Hs;
    try (apply Hbit; [rewrite ?Ec; by apply (bool_decide_unpack _)|by rewrite ?andb_true_iff]);
    try (destruct (field_count acc (f3 i)) as [n|] eqn:Efc; [|discriminate Hs]; apply (Hfield n); [rewrite ?Ec; by apply (bool_decide_unpack _)|done|exact Hs]).
  - unfold insn_to_native, CONVERSION_OPCODES_COMMON. rewrite Ec. intros c Hc. eexists _, _. split; [reflexivity|].
    left. split; [exact Hc|]. destruct Hc as (_ & _ & <- & _). done.
  - destruct Hs as [[[[Hk Ha] Hn] Hn'] Hs]. eapply (safe_packed_array 1); eauto. by eapply goes_on_at.
  - destruct Hs as [[[[Hk Ha] Hn] Hn'] Hs]. eapply (safe_packed_array 2); eauto. by eapply goes_on_at.
  - destruct Hs as [[[Hf Hlt] Hn] Hs]. unfold insn_to_native, CONVERSION_OPCODES_COMMON. rewrite Ec.
    apply (checked_skip (size <? f1 i) i insns fuel p acc least (Z.max least (f1 i)) r1); try done. intros Hb. apply Z.ltb_ge in Hb. lia.
  - destruct Hs as [[[Hf Hlt] Hn] Hs]. unfold insn_to_native, CONVERSION_OPCODES_COMMON. rewrite Ec.
    by apply (checked_skip (negb (f1 i =? accumulator r1)) i insns fuel p acc least least r1).
  - destruct Hs as [Hn Hs]. eapply safe_store_imm; eauto. by eapply goes_on_at.
  - destruct Hs as [[Ha Hn] Hs]. eapply safe_load_store; eauto.
  - destruct Hs as [[[[Hk Hacc0] Hf] Hn] Hs]. subst acc. eapply safe_source; eauto. by eapply goes_on_at.
Qed.

Lemma program_safe insns fuel p acc least r :
  safe_program spec kind insns fuel p acc least = true -> least <= size -> at_regs p acc r ->
  triple (cenv st0) (loop fuel (fun r => i ← liftO (insns !! Z.to_nat (pc r));
    insn_to_native res data size header i (r <| pc := u8 (pc r + 1) |>)) r) finished.
Proof.
  revert p acc least r. induction fuel as [|fuel IH]; intros p acc least r Hs Hl Hr; [done|]. cbn [loop].
  destruct (instruction_safe insns fuel p acc least r Hs Hl Hr) as (i & Ei & Hi).
  eapply triple_bind with (Q := fun x c => match x with inl r => cenv st0 c /\ goes_on insns fuel r | inr d => finished d c end).
  { intros c Hc. destruct (Hi c Hc) as (x & c' & E & Hx). exists x, c'. split; [|exact Hx]. by rewrite Ei. }
  intros [r'|d]; [|by apply triple_ret]. intros c [Hc (p' & acc' & least' & Hs' & Hl' & Hr')]. by apply (IH p' acc' least').
Qed.
End Run.

(** ** Native sizes *)

Lemma align_up_ptr x : 0 <= x < 2 ^ 64 - 8 -> x <= ALIGN_UP_PTR x <= x + 7.
Proof.
  intros Hx. unfold ALIGN_UP_PTR. rewrite u64_small by lia.
  assert (E : Z.land (x + 7) (2 ^ 64 - 8) = Z.shiftl (Z.shiftr (x + 7) 3) 3).
  { apply Z.bits_inj'. intros n Hn. change (2 ^ 64 - 8) with (Z.shiftl (Z.ones 61) 3).
    rewrite Z.land_spec, !Z.shiftl_spec by lia. destruct (Z.ltb_spec n 3); [rewrite !(Z.testbit_neg_r _ (n - 3)) by lia; apply andb_false_r|].
    rewrite Z.shiftr_spec by lia. replace (n - 3 + 3) with n by lia. destruct (Z.ltb_spec (n - 3) 61).
    - rewrite Z.ones_spec_low by lia. apply andb_true_r.
    - rewrite Z.ones_spec_high by lia. rewrite andb_false_r. symmetry. apply Z.testbit_false; [lia|].
      rewrite Z.div_small; [done|]. split; [lia|]. apply Z.lt_le_trans with (2 ^ 64); [lia|]. apply Z.pow_le_mono_r; lia. }
  rewrite E, Z.shiftl_mul_pow2, Z.shiftr_div_pow2 by lia. pose proof (Z.mod_pos_bound (x + 7) 8). pose proof (Z.div_mod (x + 7) 8).
  change (2 ^ 3) with 8. lia.
Qed.

(** The extra space of a descriptor, and the length of its native resource. *)
Definition extra_bytes (m : memory) (p size : Z) (t : uacpi_aml_resource) : Z :=
  match extra_of t with
  | Some (BitsExtra bytes off) => count_bits (8 * bytes) (le_at m (p + off) bytes)
  | Some SourceExtra => extra_size_for_resource_source (aml_size (aml_resources t)) size
  | _ => 0
  end.
Definition native_length (m : memory) (d : descriptor) : Z :=
  let '(p, size, t) := d in ALIGN_UP_PTR (native_size (aml_resources t) + extra_bytes m p size t).

Lemma native_size_bounds t : t <> UACPI_AML_RESOURCE_TYPE_INVALID -> 8 <= native_size (aml_resources t) <= 128 /\ 0 <= aml_size (aml_resources t) <= 64.
Proof.
  intros Ht. assert (H := type_case (fun t => (8 <=? native_size (aml_resources t)) && (native_size (aml_resources t) <=? 128)
    && (0 <=? aml_size (aml_resources t)) && (aml_size (aml_resources t) <=? 64)) t ltac:(by vm_compute) Ht).
  cbv beta in H. rewrite !andb_true_iff, !Z.leb_le in H. lia.
Qed.

Lemma count_bits_bound n v : 0 <= count_bits n v <= Z.of_nat n.
Proof. rewrite count_bits_from. apply bits_from_bound. Qed.

Lemma extra_bytes_bound m p size t : t <> UACPI_AML_RESOURCE_TYPE_INVALID -> 0 <= size < 2 ^ 16 -> 0 <= extra_bytes m p size t <= 2 ^ 17.
Proof.
  intros Ht Hs. unfold extra_bytes. destruct (extra_of t) as [[|bytes off|]|] eqn:E; try lia.
  - assert (Hb : (bytes <= 2)%nat) by (destruct t; simplify_eq/=; lia).
    pose proof (count_bits_bound (8 * bytes) (le_at m (p + off) bytes)). lia.
  - unfold extra_size_for_resource_source. pose proof (native_size_bounds t Ht). case_if; [lia|].
    pose proof (align_up_ptr (size - aml_size (aml_resources t) - 1)). lia.
Qed.

Lemma native_length_bounds m p size t :
  t <> UACPI_AML_RESOURCE_TYPE_INVALID -> 0 <= size < 2 ^ 16 ->
  native_size (aml_resources t) + extra_bytes m p size t <= native_length m (p, size, t) < 2 ^ 18.
Proof.
  intros Ht Hs. pose proof (extra_bytes_bound m p size t Ht Hs). pose proof (native_size_bounds t Ht). unfold native_length.
  pose proof (align_up_ptr (native_size (aml_resources t) + extra_bytes m p size t)). lia.
Qed.

Lemma native_size_run m p size t :
  is_Some (extra_of t) -> 0 <= size < 2 ^ 16 -> size_allowed (aml_resources t) size = true ->
  bytes_at m p (header_size_of t + size) ->
  native_size_for_aml_resource p size (aml_resources t) m = Some (native_length m (p, size, t), m).
Proof.
  intros [k Hk] Hs Ha Hb. assert (Ht : t <> UACPI_AML_RESOURCE_TYPE_INVALID) by (by destruct t).
  pose proof (extra_bytes_bound m p size t Ht Hs). pose proof (native_size_bounds t Ht).
  assert (He : (match extra_size_for_native (aml_resources t) with Some f => f (aml_resources t) p size | None => mret 0 end) m
    = Some (extra_bytes m p size t, m)).
  { unfold extra_bytes. rewrite Hk. unfold size_allowed in Ha.
    destruct t; try discriminate Hk; injection Hk as <-; cbn in Ha; try reflexivity; cbn [aml_resources extra_size_for_native];
      unfold extra_size_for_native_irq_or_dma; cbn [r_type].
    - rewrite decide_True by done. rewrite (bind_run _ _ _ _ _ (load_le_run 2 m (p + 1)
        ltac:(eapply bytes_at_sub, Hb; [lia|]; change (header_size_of UACPI_AML_RESOURCE_IRQ) with 1;
          apply orb_true_iff in Ha as [Ha|Ha]; apply Z.eqb_eq in Ha; lia))). done.
    - rewrite decide_False by done. rewrite (bind_run _ _ _ _ _ (load_le_run 1 m (p + 1)
        ltac:(eapply bytes_at_sub, Hb; [lia|]; change (header_size_of UACPI_AML_RESOURCE_DMA) with 1; apply Z.eqb_eq in Ha; lia))). done. }
  unfold native_size_for_aml_resource. rewrite (bind_run _ _ _ _ _ He). rewrite u64_small by lia. done.
Qed.

(** ** One descriptor *)

Lemma safe_type_extra t : safe_type t = true -> is_Some (extra_of t).
Proof. unfold safe_type. destruct (extra_of t); [by eexists|done]. Qed.

Lemma extra_bytes_same m m' p size t :
  0 <= size -> size_allowed (aml_resources t) size = true -> same_bytes m m' p (header_size_of t + size) ->
  extra_bytes m' p size t = extra_bytes m p size t.
Proof.
  intros Hs Ha H. unfold extra_bytes. destruct (extra_of t) as [[|bytes off|]|] eqn:E; try done. f_equal. apply le_at_same.
  unfold size_allowed in Ha. destruct t; simplify_eq/=; eapply same_bytes_sub, H; try lia; unfold header_size_of; cbn.
  - apply orb_true_iff in Ha as [Ha|Ha]; apply Z.eqb_eq in Ha; lia.
  - apply Z.eqb_eq in Ha. lia.
Qed.

(** A descriptor of a safe type, with its native resource, out of its way. *)
Section Descriptor.
Context (m0 : memory) (data size : Z) (t : uacpi_aml_resource) (res : Z) (st : uacpi_status) (one : bool).
Let len := native_length m0 (data, size, t).
Let room := header_size_of t + size.
Context (Hsafe : safe_type t = true) (Hs : 0 <= size < 2 ^ 16) (Ha : size_allowed (aml_resources t) size = true).
Context (Hb : bytes_at m0 data room) (Hap : data + room <= res \/ res + len <= data).

Lemma safe_native_size : safe m0 res len (native_size_for_aml_resource data size (aml_resources t)) (fun v => v = len).
Proof.
  intros m Hm. pose proof (env_aml m0 data room res len Hap m Hm) as Hsame. exists len, m. split; [|done].
  rewrite (native_size_run m data size t (safe_type_extra t Hsafe) Hs Ha (bytes_at_same _ _ _ _ Hsame Hb)).
  unfold native_length. by rewrite (extra_bytes_same m0 m) by (done || lia).
Qed.

Lemma extra_suffices k : extra_of t = Some k -> extra_enough m0 data size (aml_resources t) k (extra_bytes m0 data size t).
Proof.
  intros E. unfold extra_enough, extra_bytes. rewrite E. destruct k as [|bytes off|]; [done|lia|].
  assert (Ht : t <> UACPI_AML_RESOURCE_TYPE_INVALID) by (intros ->; done). pose proof (native_size_bounds t Ht).
  unfold extra_size_for_resource_source. case_if; [lia|]. pose proof (align_up_ptr (size - aml_size (aml_resources t) - 1)). lia.
Qed.

Lemma conversion_spec :
  triple (cenv m0 res len res one st) (do_aml_resource_to_native data size (aml_resources t))
    (finished m0 res len (res + len) st one).
Proof.
  destruct (safe_type_extra t Hsafe) as [k Hk].
  assert (Ht : t <> UACPI_AML_RESOURCE_TYPE_INVALID) by (by intros ->).
  pose proof (native_length_bounds m0 data size t Ht Hs) as [Hl1 Hl2]. pose proof (native_size_bounds t Ht) as [Hn1 Hn2].
  pose proof (extra_bytes_bound m0 data size t Ht Hs) as Hxb. fold len in Hl1, Hl2.
  eapply triple_then with (F := fun b => b = res); [intros c Hc; exists (c_buf c), c; split; [done|]; split; [done|apply Hc]|].
  intros b ->. eapply triple_then; [apply on_mem_safe, safe_store; unfold resource_type_at; lia|]. intros _ _.
  eapply triple_then; [apply on_mem_safe, safe_native_size|]. intros v ->.
  eapply triple_then; [apply on_mem_safe, safe_store; unfold resource_length_at; lia|]. intros _ _.
  rewrite u32_small by lia.
  eapply triple_bind with (Q := fun _ => cenv m0 res len (res + len) one st).
  { intros c (He & Hbuf & Ho & Hst). eexists _, _. split; [reflexivity|]. by split_and!. }
  intros []. destruct (to_native (aml_resources t)) as [insns|] eqn:En.
  - apply (program_safe m0 data size res len (aml_resources t) k (extra_bytes m0 data size t) (res + len) st one)
      with (p := 0) (acc := Some 0) (least := least_size (aml_resources t)); try done; try lia.
    + by apply extra_suffices.
    + unfold safe_type in Hsafe. by rewrite Hk, En in Hsafe.
    + unfold size_allowed in Ha. unfold least_size. destruct (size_kind _); [|apply orb_true_iff in Ha as [Ha|Ha]|];
        first [apply Z.eqb_eq in Ha|apply Z.leb_le in Ha]; lia.
    + split_and!; try done. by intros a [= <-].
  - intros c Hc. eexists _, _. split; [reflexivity|]. left. split; [exact Hc|]. destruct Hc as (_ & _ & <- & _). done.
Qed.
End Descriptor.

(** ** The whole buffer *)

Definition total_length (m : memory) (ds : list descriptor) : Z := foldr (fun d n => native_length m d + n) 0 ds.

(** [m'] is [m] outside of [n] bytes at [p], which are there. *)
Definition same_outside (m m' : memory) (p n : Z) : Prop :=
  bytes_at m' p n /\ (forall q, ~ (p <= q < p + n) -> m' !! q = m !! q).

Section Buffer.
Context (m0 : memory) (bytes length : Z) (Hb : bytes_at m0 bytes length).

Definition safe_descriptor (d : descriptor) : Prop := safe_type d.2 = true /\ descriptor_in m0 bytes length d.

Lemma safe_descriptor_length p size t : safe_descriptor (p, size, t) -> 8 <= native_length m0 (p, size, t) < 2 ^ 18.
Proof.
  intros [_ (_ & _ & Hs & Ht & _)]. pose proof (native_length_bounds m0 p size t Ht Hs).
  pose proof (native_size_bounds t Ht). pose proof (extra_bytes_bound m0 p size t Ht Hs). lia.
Qed.
Lemma total_length_bounds ds : Forall safe_descriptor ds -> 0 <= total_length m0 ds <= 2 ^ 18 * Z.of_nat (List.length ds).
Proof.
  intros H. induction H as [|[[p size] t] ds Hd H IH]; cbn [total_length foldr List.length]; [lia|].
  pose proof (safe_descriptor_length p size t Hd). unfold total_length in IH. lia.
Qed.

(** The first pass adds up the lengths. *)
Lemma accumulate_run c p size t :
  mem c = m0 -> just_one c = false -> safe_descriptor (p, size, t) -> 0 <= c_buf c -> c_buf c + native_length m0 (p, size, t) < 2 ^ 64 ->
  accumulate_native_buffer_size p size (aml_resources t) c
  = Some (UACPI_ITERATION_DECISION_CONTINUE, c <| c_buf := c_buf c + native_length m0 (p, size, t) |>).
Proof.
  intros Hm Ho Hd Hc Hlt. pose proof (safe_descriptor_length p size t Hd). destruct Hd as [Hsafe (Hp & Hn & Hs & Ht & _ & Ha & _)].
  assert (Hroom : bytes_at (mem c) p (header_size_of t + size)) by (rewrite Hm; eapply bytes_at_sub, Hb; lia).
  pose proof (native_size_run (mem c) p size t (safe_type_extra t Hsafe) Hs Ha Hroom) as Hrun. rewrite Hm in Hrun at 2.
  unfold accumulate_native_buffer_size. rewrite (bind_run _ _ _ _ _ (on_mem_read _ c _ Hrun)).
  rewrite (bind_run (gets c_buf) _ c c (c_buf c)) by done. rewrite (proj2 (Z.eqb_neq _ 0)) by lia.
  rewrite u64_small by lia. rewrite (proj2 (Z.ltb_ge _ _)) by lia. cbn [orb].
  unfold conditional_continue, gets, modify. cbv [mbind M_bind mret M_ret]. cbn. by rewrite Ho.
Qed.

Lemma visit_accumulate ds st c :
  mem c = m0 -> just_one c = false -> Forall safe_descriptor ds -> 0 <= c_buf c -> c_buf c + total_length m0 ds < 2 ^ 64 ->
  visit accumulate_native_buffer_size ds st c = Some (st, c <| c_buf := c_buf c + total_length m0 ds |>) /\
  leaves_buffer m0 bytes length accumulate_native_buffer_size ds c.
Proof.
  intros Hm Ho H. revert c Hm Ho. induction H as [|[[p size] t] ds Hd H IH]; intros c Hm Ho Hc Hlt; cbn [visit leaves_buffer total_length foldr] in *.
  { rewrite Z.add_0_r. split; [by destruct c|done]. }
  pose proof (total_length_bounds ds H). pose proof (safe_descriptor_length p size t Hd). fold (total_length m0 ds) in *.
  assert (E := accumulate_run c p size t Hm Ho Hd Hc ltac:(lia)). rewrite (bind_run _ _ _ _ _ E).
  set (len := native_length m0 (p, size, t)) in *. set (rest := total_length m0 ds) in *.
  clearbody len rest. destruct (IH (c <| c_buf := c_buf c + len |>)) as [IH1 IH2]; [done|done|cbn; lia|cbn; lia|]. split.
  - rewrite IH1. cbn. by rewrite Z.add_assoc.
  - intros d c' E'. rewrite E in E'. injection E' as <- <-. split; [intros k _; cbn; by rewrite Hm|]. intros _. exact IH2.
Qed.

(** The second pass fills the resources one after the other. *)
Lemma convert_run m1 base total c p size t :
  same_outside m1 (mem c) base total -> same_bytes m0 m1 bytes length -> bytes + length <= base \/ base + total <= bytes ->
  base <= c_buf c -> c_buf c + native_length m0 (p, size, t) <= base + total ->
  safe_descriptor (p, size, t) -> just_one c = false -> c_st c = UACPI_STATUS_OK ->
  exists d c', do_aml_resource_to_native p size (aml_resources t) c = Some (d, c') /\ same_outside m1 (mem c') base total /\
    just_one c' = false /\ c_buf c' = c_buf c + native_length m0 (p, size, t) /\
    ((d = UACPI_ITERATION_DECISION_CONTINUE /\ c_st c' = UACPI_STATUS_OK) \/
     (d = UACPI_ITERATION_DECISION_BREAK /\ c_st c' = UACPI_STATUS_AML_INVALID_RESOURCE)).
Proof.
  intros [Hm Ho] Hsame Hap Hlo Hhi [Hsafe (Hp & Hn & Hs & Ht & Hty & Ha & _)] Hone Hst.
  assert (Hs01 : same_bytes m0 (mem c) p (header_size_of t + size)).
  { intros k Hk. rewrite Ho by lia. replace (p + k) with (bytes + (p - bytes + k)) by lia. apply Hsame. lia. }
  assert (El : native_length (mem c) (p, size, t) = native_length m0 (p, size, t))
    by (unfold native_length; by rewrite (extra_bytes_same m0 (mem c)) by (done || lia)).
  assert (Hb' : bytes_at (mem c) p (header_size_of t + size)) by (eapply bytes_at_same, bytes_at_sub, Hb; [exact Hs01|lia|lia]).
  pose proof (conversion_spec (mem c) p size t (c_buf c) (c_st c) false Hsafe Hs Ha Hb' ltac:(rewrite El; lia)) as H. rewrite El in H.
  destruct (H c) as (d & c' & E & Hf).
  { split_and!; [|done..]. split; [eapply bytes_at_sub, Hm; lia|done]. }
  assert (Henv : forall st', cenv (mem c) (c_buf c) (native_length m0 (p, size, t)) (c_buf c + native_length m0 (p, size, t)) false st' c' ->
    same_outside m1 (mem c') base total).
  { intros st' ((Hm' & Ho') & _). split.
    - intros k Hk. destruct (decide (c_buf c <= base + k < c_buf c + native_length m0 (p, size, t))) as [Hi|Hi];
        [by apply (byte_at (mem c') (c_buf c) (native_length m0 (p, size, t)))|]. rewrite Ho' by done. by apply Hm.
    - intros q Hq. rewrite Ho', Ho by lia. done. }
  exists d, c'. split; [done|]. destruct Hf as [[Hc ->]|[Hc ->]]; (split; [by eapply Henv|]); destruct Hc as (_ & Hbuf & Ho1 & Hst');
    split_and!; [done|done|left; by rewrite Hst'|done|done|by right].
Qed.

Lemma visit_convert m1 base total ds st c :
  same_bytes m0 m1 bytes length -> bytes + length <= base \/ base + total <= bytes ->
  Forall safe_descriptor ds -> same_outside m1 (mem c) base total -> base <= c_buf c -> c_buf c + total_length m0 ds <= base + total ->
  just_one c = false -> c_st c = UACPI_STATUS_OK ->
  leaves_buffer m0 bytes length do_aml_resource_to_native ds c /\
  exists ret c', visit do_aml_resource_to_native ds st c = Some (ret, c') /\ same_outside m1 (mem c') base total /\
    ((ret = st /\ c_st c' = UACPI_STATUS_OK) \/ (ret = UACPI_STATUS_OK /\ c_st c' = UACPI_STATUS_AML_INVALID_RESOURCE)).
Proof.
  intros Hsame Hap H. revert c. induction H as [|[[p size] t] ds Hd H IH]; intros c Hm Hlo Hhi Ho Hst;
    cbn [visit leaves_buffer total_length foldr] in *; [split; [done|]; by exists st, c; auto|].
  pose proof (total_length_bounds ds H). fold (total_length m0 ds) in *. pose proof (safe_descriptor_length p size t Hd).
  destruct (convert_run m1 base total c p size t Hm Hsame Hap Hlo ltac:(lia) Hd Ho Hst) as (d & c' & E & Hm' & Ho' & Hbuf & Hd').
  assert (Hbytes : same_bytes m0 (mem c') bytes length) by (intros k Hk; rewrite (proj2 Hm') by lia; by apply Hsame).
  rewrite (bind_run _ _ _ _ _ E). destruct Hd' as [[-> Hst']|[-> Hst']].
  - destruct (IH c') as [IH1 IH2]; try done; [lia|lia|]. split; [|done]. intros d c2 E2. rewrite E in E2. injection E2 as <- <-. by split.
  - split; [|exists UACPI_STATUS_OK, c'; by auto]. intros d c2 E2. rewrite E in E2. injection E2 as <- <-. by split.
Qed.
End Buffer.

(** What [uacpi_kernel_alloc_zeroed] promises: no block, or one that nothing
    has, of bytes that are 0. *)
Definition gives_zeroed_block (alloc_zeroed : Z -> M memory Z) : Prop :=
  forall n m, 0 <= n -> alloc_zeroed n m = Some (0, m) \/
    exists p m', alloc_zeroed n m = Some (p, m') /\ 0 < p /\ (forall k, 0 <= k < n -> m !! (p + k) = None /\ m' !! (p + k) = Some 0) /\
      (forall q, ~ (p <= q < p + n) -> m' !! q = m !! q).

Lemma store_inside m p n q k v :
  bytes_at m p n -> p <= q -> q + Z.of_nat k <= p + n ->
  exists m', store_le k q v m = Some (tt, m') /\ same_outside m m' p n.
Proof.
  intros Hm Hq Hk. destruct (safe_store m p n k q v Hq Hk m) as ([] & m' & E & [He Ho] & _); [by split|]. by exists m'.
Qed.

Lemma same_outside_trans m1 m2 m3 p n : same_outside m1 m2 p n -> same_outside m2 m3 p n -> same_outside m1 m3 p n.
Proof. intros [_ H1] [H2 H3]. split; [done|]. intros q Hq. by rewrite H3, H1. Qed.

Section Entry.
Context (alloc_zeroed : Z -> M memory Z) (free : Z -> Z -> M memory unit) (Halloc : gives_zeroed_block alloc_zeroed).

(** A buffer whose descriptors are all of safe types. *)
Definition safe_buffer (m : memory) (bytes length : Z) : Prop :=
  let ds := descriptors (S (Z.to_nat length)) m bytes length in
  bytes_at m bytes length /\ 0 <= length < 2 ^ 32 /\ ds.2 = UACPI_STATUS_OK /\ Forall (fun d => safe_type d.2 = true) ds.1.

Lemma descriptors_length fuel m p n : (List.length (descriptors fuel m p n).1 <= fuel)%nat.
Proof.
  revert p n. induction fuel as [|fuel IH]; intros p n; cbn [descriptors]; [done|].
  do 2 (case_match; [cbn; lia|]). case_match; [cbn; lia|].
  specialize (IH (p + (header_at m p + size_at m p)) (n - (header_at m p + size_at m p))).
  destruct (descriptors _ _ _ _). cbn in *. lia.
Qed.

Lemma safe_buffer_descriptors m bytes length :
  safe_buffer m bytes length ->
  let ds := (descriptors (S (Z.to_nat length)) m bytes length).1 in
  Forall (safe_descriptor m bytes length) ds /\ 0 <= total_length m ds < 2 ^ 52.
Proof.
  intros (Hb & Hl & _ & Hs). cbv zeta. pose proof (descriptors_in (S (Z.to_nat length)) m bytes length Hb ltac:(lia)) as Hin.
  assert (H : Forall (safe_descriptor m bytes length) (descriptors (S (Z.to_nat length)) m bytes length).1).
  { apply Forall_forall. intros d Hd. rewrite Forall_forall in Hs, Hin. split; auto. }
  split; [done|]. pose proof (total_length_bounds m bytes length _ H).
  pose proof (descriptors_length (S (Z.to_nat length)) m bytes length). lia.
Qed.

(** The second pass, from the block that was allocated. *)
Lemma fill_spec m0 bytes length m1 res total c :
  safe_buffer m0 bytes length -> total = total_length m0 (descriptors (S (Z.to_nat length)) m0 bytes length).1 ->
  same_bytes m0 m1 bytes length -> bytes + length <= res \/ res + total <= bytes -> same_outside m1 (mem c) res total ->
  c_buf c = res -> just_one c = false -> c_st c = UACPI_STATUS_OK ->
  exists c', uacpi_for_each_aml_resource bytes length do_aml_resource_to_native c = Some (UACPI_STATUS_OK, c') /\ same_outside m1 (mem c') res total.
Proof.
  intros Hs -> Hsame Hap Hm Hbuf Ho Hst. destruct (safe_buffer_descriptors _ _ _ Hs) as [Hds Hlen]. destruct Hs as (Hb & Hl & Hend & _).
  destruct (visit_convert m0 bytes length Hb m1 res _ _ UACPI_STATUS_OK c Hsame Hap Hds Hm ltac:(lia) ltac:(lia) Ho Hst)
    as (Hleave & ret & c' & E & Hm' & Hret).
  exists c'. split; [|done]. rewrite (for_each_visits m0) by (done || lia || (intros k Hk; rewrite (proj2 Hm) by lia; by apply Hsame)).
  rewrite Hend, E. by destruct Hret as [[-> _]|[-> _]].
Qed.

(** [n] bytes at [p] are new, and nothing else is different. *)
Definition only_adds (m m' : memory) (p n : Z) : Prop :=
  (forall k, 0 <= k < n -> m !! (p + k) = None /\ is_Some (m' !! (p + k))) /\ (forall q, ~ (p <= q < p + n) -> m' !! q = m !! q).

(** New memory is apart from the buffer. *)
Lemma new_apart m bytes length p n : bytes_at m bytes length -> 0 < length -> 0 < n ->
  (forall k, 0 <= k < n -> m !! (p + k) = None) -> bytes + length <= p \/ p + n <= bytes.
Proof.
  intros Hb Hl Hn Hnew. destruct (Z.le_gt_cases (bytes + length) p); [by left|]. destruct (Z.le_gt_cases (p + n) bytes); [by right|]. exfalso.
  destruct (byte_at m bytes length (Z.max bytes p) Hb) as (b & Hx & _); [lia|].
  specialize (Hnew (Z.max bytes p - p) ltac:(lia)). replace (p + (Z.max bytes p - p)) with (Z.max bytes p) in Hnew by lia. congruence.
Qed.

(** The block with its header, and the entries after it. *)
Lemma fill_block m bytes length p m1 total c :
  safe_buffer m bytes length -> total = total_length m (descriptors (S (Z.to_nat length)) m bytes length).1 ->
  (forall k, 0 <= k < total + 16 -> m !! (p + k) = None /\ m1 !! (p + k) = Some 0) ->
  (forall q, ~ (p <= q < p + (total + 16)) -> m1 !! q = m !! q) -> mem c = m1 ->
  exists c', (forall (k : uacpi_status -> M conv (uacpi_status * Z)),
      (_ ← on_mem (store_le 8 (p + 0) total); _ ← on_mem (store_le 8 (p + 8) (p + 16)); _ ← reset_ctx (p + 16) false;
       ret ← uacpi_for_each_aml_resource bytes length do_aml_resource_to_native; k ret) c = k UACPI_STATUS_OK c') /\
    only_adds m (mem c') p (total + 16).
Proof.
  intros Hs Htotal Hnew Hout <-. destruct (safe_buffer_descriptors _ _ _ Hs) as [_ Ht]. cbv zeta in Ht. rewrite <-Htotal in Ht.
  assert (Hz : bytes_at (mem c) p (total + 16)) by (intros k Hk; exists 0; split; [by apply Hnew|lia]).
  pose proof Hs as (Hb & Hl & Hend & _). assert (Hlen : 0 < length) by (destruct (Z.eqb_spec length 0) as [->|]; [done|lia]).
  pose proof (new_apart m bytes length p (total + 16) Hb Hlen ltac:(lia) ltac:(intros k Hk; by apply Hnew)) as Hap.
  destruct (store_inside (mem c) p (total + 16) (p + 0) 8 total Hz) as (m2 & E2 & H2); [lia|lia|].
  destruct (store_inside m2 p (total + 16) (p + 8) 8 (p + 16) (proj1 H2)) as (m3 & E3 & H3); [lia|lia|].
  pose proof (same_outside_trans _ _ _ _ _ H2 H3) as H13.
  set (c3 := Conv m3 (p + 16) UACPI_STATUS_OK false).
  destruct (fill_spec m bytes length m3 (p + 16) total c3 Hs Htotal) as (c' & E & Hc'); try done; [|lia| |].
  - intros k Hk. rewrite (proj2 H13), Hout by lia. done.
  - split; [|done]. eapply bytes_at_sub, (proj1 H13); cbn; lia.
  - exists c'. split.
    { intros k. pose proof (on_mem_run _ c _ _ E2) as E2'. pose proof (on_mem_run (store_le 8 (p + 8) (p + 16)) (c <| mem := m2 |>) tt m3 E3) as E3'.
      etransitivity; [exact (bind_run _ _ _ _ _ E2')|]. etransitivity; [exact (bind_run _ _ _ _ _ E3')|].
      etransitivity; [exact (bind_run (reset_ctx (p + 16) false) _ (c <| mem := m2 |> <| mem := m3 |>) c3 tt eq_refl)|]. exact (bind_run _ _ c3 _ _ E). }
    split.
    + intros k Hk. split; [by apply Hnew|]. destruct (Z.ltb_spec k 16).
      * rewrite (proj2 Hc') by lia. destruct (proj1 H13 k Hk) as (b & -> & _). by eexists.
      * destruct (proj1 Hc' (k - 16)) as (b & Hx & _); [lia|]. replace (p + 16 + (k - 16)) with (p + k) in Hx by lia. by eexists.
    + intros q Hq. rewrite (proj2 Hc'), (proj2 H13), Hout by lia. done.
Qed.

Lemma native_resources_spec c bytes length :
  safe_buffer (mem c) bytes length ->
  let total := total_length (mem c) (descriptors (S (Z.to_nat length)) (mem c) bytes length).1 in
  exists ret p c', uacpi_native_resources_from_aml alloc_zeroed free bytes length c = Some ((ret, p), c') /\
    ((ret = UACPI_STATUS_OK /\ 0 < p /\ only_adds (mem c) (mem c') p (total + csize uacpi_resources)) \/
     ((ret = UACPI_STATUS_OUT_OF_MEMORY \/ ret = UACPI_STATUS_INTERNAL_ERROR /\ MAX_RESOURCES < total) /\ p = 0 /\ mem c' = mem c)).
Proof.
  intros Hs. cbv zeta. destruct (safe_buffer_descriptors _ _ _ Hs) as [Hds Ht]. cbv zeta in Hds, Ht.
  set (total := total_length _ _) in *. set (c1 := Conv (mem c) 0 UACPI_STATUS_OK false).
  destruct (visit_accumulate (mem c) bytes length (proj1 Hs) _ UACPI_STATUS_OK c1 eq_refl eq_refl Hds ltac:(cbn; lia)) as [Hv Hl];
    [fold total; cbn -[total]; lia|]. fold total in Hv.
  set (c2 := Conv (mem c) total UACPI_STATUS_OK false).
  assert (E1 : uacpi_for_each_aml_resource bytes length accumulate_native_buffer_size c1 = Some (UACPI_STATUS_OK, c2)).
  { rewrite (for_each_visits (mem c)) by (done || apply Hs). destruct Hs as (_ & _ & -> & _). exact Hv. }
  unfold uacpi_native_resources_from_aml. rewrite (bind_run _ _ c c1 tt) by done. rewrite (bind_run _ _ _ _ _ E1).
  rewrite (bind_run (gets c_st) _ c2 c2 UACPI_STATUS_OK), (bind_run (gets c_buf) _ c2 c2 total) by done.
  change (is_ok UACPI_STATUS_OK) with true. cbn [negb].
  destruct (Z.ltb_spec MAX_RESOURCES total). { eexists _, _, _. split; [done|]. right. by split_and!; [right|..]. }
  change (csize uacpi_resources) with 16. destruct (Halloc (total + 16) (mem c) ltac:(lia)) as [E|(p & m1 & E & Hp & Hnew & Hout)];
    pose proof (on_mem_run (alloc_zeroed (total + 16)) c2 _ _ E) as Ea; rewrite (bind_run _ _ _ _ _ Ea).
  { eexists _, _, _. split; [done|]. right. by split_and!; [left|..]. }
  rewrite (proj2 (Z.eqb_neq p 0)) by lia.
  destruct (fill_block (mem c) bytes length p m1 total (Conv m1 total UACPI_STATUS_OK false) Hs eq_refl Hnew Hout eq_refl) as (c' & Ef & Hc').
  change (offset_of uacpi_resources "length") with 0. change (offset_of uacpi_resources "entries") with 8.
  exists UACPI_STATUS_OK, p, c'. split; [|by left]. exact (Ef _).
Qed.
End Entry.

(** C3: [uacpi_native_resources_from_aml] on any buffer of descriptors of
    the types the checker accepts, which is read from memory that nothing is
    known of: it returns, and either gives a new block, and the memory outside
    of that block is as it was, or reports that there is no memory, or that the
    resources are too large, and leaves memory alone.  So the size of the first
    pass is enough for all that the second writes. *)
Theorem native_resources_stay_in_block (alloc_zeroed : Z -> M memory Z) (free : Z -> Z -> M memory unit) (c : conv) (bytes length : Z) :
  gives_zeroed_block alloc_zeroed -> safe_buffer (mem c) bytes length ->
  let total := total_length (mem c) (descriptors (S (Z.to_nat length)) (mem c) bytes length).1 in
  exists ret p c', uacpi_native_resources_from_aml alloc_zeroed free bytes length c = Some ((ret, p), c') /\
    ((ret = UACPI_STATUS_OK /\ 0 < p /\ only_adds (mem c) (mem c') p (total + csize uacpi_resources)) \/
     ((ret = UACPI_STATUS_OUT_OF_MEMORY \/ ret = UACPI_STATUS_INTERNAL_ERROR /\ MAX_RESOURCES < total) /\ p = 0 /\ mem c' = mem c)).
Proof. intros Ha. exact (native_resources_spec alloc_zeroed free Ha c bytes length). Qed.

(** ** Concrete buffers *)

(** An allocator with one block, of the bytes from 4096 on. *)
Fixpoint zero_bytes (n : nat) (p : Z) (m : memory) : memory :=
  match n with O => m | S n => <[p := 0]> (zero_bytes n (p + 1) m) end.
Definition one_block (n : Z) : M memory Z := fun m =>
  if forallb (fun k => bool_decide (m !! (4096 + Z.of_nat k) = None)) (seq 0 (Z.to_nat n))
  then Some (4096, zero_bytes (Z.to_nat n) 4096 m) else Some (0, m).
Definition no_free (p n : Z) : M memory unit := mret tt.

Lemma zero_bytes_in n p m k : 0 <= k < Z.of_nat n -> zero_bytes n p m !! (p + k) = Some 0.
Proof.
  revert p k. induction n as [|n IH]; intros p k Hk; [lia|]. cbn [zero_bytes]. destruct (decide (k = 0)) as [->|].
  - rewrite Z.add_0_r. apply lookup_insert_eq.
  - rewrite lookup_insert_ne by lia. replace (p + k) with (p + 1 + (k - 1)) by lia. apply IH. lia.
Qed.
Lemma zero_bytes_out n p m q : ~ (p <= q < p + Z.of_nat n) -> zero_bytes n p m !! q = m !! q.
Proof.
  revert p. induction n as [|n IH]; intros p Hq; [done|]. cbn [zero_bytes]. rewrite lookup_insert_ne by lia. apply IH. lia.
Qed.

Lemma one_block_zeroed : gives_zeroed_block one_block.
Proof.
  intros n m Hn. unfold one_block. destruct (forallb _ _) eqn:E; [right|by left]. rewrite forallb_forall in E.
  exists 4096, (zero_bytes (Z.to_nat n) 4096 m). split_and!; [done|lia| |].
  - intros k Hk. split; [|apply zero_bytes_in; lia]. specialize (E (Z.to_nat k) ltac:(apply in_seq; lia)).
    rewrite Z2Nat.id in E by lia. by apply bool_decide_eq_true in E.
  - intros q Hq. apply zero_bytes_out. lia.
Qed.

Lemma native_resources_stay_in_block_witness :
  let total := total_length (mem (ctx_of com1)) (descriptors (S (Z.to_nat 10)) (mem (ctx_of com1)) 0 10).1 in
  exists ret p c', uacpi_native_resources_from_aml one_block no_free 0 10 (ctx_of com1) = Some ((ret, p), c') /\
    ((ret = UACPI_STATUS_OK /\ 0 < p /\ only_adds (mem (ctx_of com1)) (mem c') p (total + csize uacpi_resources)) \/
     ((ret = UACPI_STATUS_OUT_OF_MEMORY \/ ret = UACPI_STATUS_INTERNAL_ERROR /\ MAX_RESOURCES < total) /\ p = 0 /\ mem c' = mem (ctx_of com1))).
Proof.
  apply (native_resources_stay_in_block one_block no_free (ctx_of com1) 0 10 one_block_zeroed).
  split; [by apply (bytes_atb_spec _ _ 10)|]. split; [lia|]. split; [by vm_compute|].
  repeat constructor.
Defined.

Definition native_from (l : list Z) : option (uacpi_status * Z * conv) :=
  uacpi_native_resources_from_aml one_block no_free 0 (size_of l) (ctx_of l).
Definition bytes_of (p : Z) (n : nat) (r : option (uacpi_status * Z * conv)) : option (list (option Z)) :=
  '(_, c) ← r; Some (map (fun k => mem c !! (p + Z.of_nat k)) (seq 0 n)).

(** COM1 in native form: the type, the length, then the fields. *)
Example com1_native :
  bytes_of 4112 16 (native_from com1) = Some (map Some [4; 0; 0; 0; 16; 0; 0; 0; 1; 0; 0xF8; 3; 0xF8; 3; 1; 8]).
Proof. vm_compute. reflexivity. Qed.

(** ** What the checker rejects *)


(** ** What the checker rejects, and what the callers leave out *)

(** A clock input whose source is the empty string: the native size leaves
    out its terminator, as if an index came before the string.  The string is
    at 4152, where the end tag begins: it reads as the type of that, 29. *)
Definition clock_input : list Z := [0x93; 11; 0; 1; 1; 0; 2; 0; 4; 0; 0; 0; 0; 0; 0x79; 0].
Example clock_input_string_overwritten :
  (fst <$> native_from clock_input) = Some (UACPI_STATUS_OK, 4096) /\
  bytes_of 4138 14 (native_from clock_input) = Some (map Some [1; 0; 0; 0; 0; 0; 0x38; 0x10; 0; 0; 0; 0; 0; 0]) /\
  bytes_of 0x1038 4 (native_from clock_input) = Some (map Some [29; 0; 0; 0]).
Proof. vm_compute. auto. Qed.

(** An extended interrupt of one number, with 255 of them in its count: the
    sizes of the numbers are taken without a check against the descriptor,
    the extra size wraps around, the first pass is content with 48 bytes, and
    the second copies 1020 from past the descriptor. *)
Definition extended_irq : list Z := [0x89; 6; 0; 1; 255; 1; 0; 0; 0; 0x79; 0].
Example extended_irq_runs_out :
  ((fun '(st, c) => (st, c_buf c)) <$> uacpi_for_each_aml_resource 0 11 accumulate_native_buffer_size (ctx_of extended_irq))
    = Some (UACPI_STATUS_OK, 48) /\ native_from extended_irq = None.
Proof. vm_compute. auto. Qed.

(** A source without a terminator stops the second pass, which records an
    error; [uacpi_native_resources_from_aml] does not look at it. *)
Definition unterminated : list Z := [0x88; 16; 0; 0; 0; 0; 0; 0; 0; 0; 0; 0; 0; 0; 0; 0; 0; 65; 66; 0x79; 0].
Example unterminated_source_is_ok :
  (fst <$> native_from unterminated) = Some (UACPI_STATUS_OK, 4096) /\
  (c_st ∘ snd <$> native_from unterminated) = Some UACPI_STATUS_AML_INVALID_RESOURCE /\
  bytes_of 4112 8 (native_from unterminated) = Some (map Some [6; 0; 0; 0; 56; 0; 0; 0]) /\
  bytes_of 4168 8 (native_from unterminated) = Some (map Some [0; 0; 0; 0; 0; 0; 0; 0]).
Proof. vm_compute. auto. Qed.

(** A native resource of no length, such as the zeroes that such a pass
    leaves, keeps [uacpi_for_each_resource] where it is, for any number of
    turns. *)
Definition resource_is (m : memory) (p type length : Z) : Prop :=
  bytes_at m p 8 /\ le_at m p 4 = type /\ le_at m (p + 4) 4 = length.

Lemma passing_turn cb current left c type length :
  resource_is (mem c) current type length -> 4 <= left < 2 ^ 64 -> type < UACPI_RESOURCE_TYPE_END_TAG -> 0 <= length <= left ->
  cb current c = Some (UACPI_ITERATION_DECISION_CONTINUE, c) ->
  resource_turn cb (current, left) c = Some (inl (current + length, left - length), c).
Proof.
  intros (Hb & Ht & Hl) Hleft Hty Hlen Hcb. unfold resource_turn, resource_type_at, resource_length_at.
  assert (R1 : on_mem (load_le 4 current) c = Some (type, c)).
  { apply on_mem_read. rewrite (load_le_run 4) by (eapply bytes_at_sub, Hb; lia). by rewrite Ht. }
  assert (R2 : on_mem (load_le 4 (current + 4)) c = Some (length, c)).
  { apply on_mem_read. rewrite (load_le_run 4) by (eapply bytes_at_sub, Hb; lia). by rewrite Hl. }
  rewrite (proj2 (Z.eqb_neq left 0)), (proj2 (Z.ltb_ge left 4)) by lia. rewrite (bind_run _ _ _ _ _ R1).
  rewrite (proj2 (Z.ltb_ge UACPI_RESOURCE_TYPE_MAX type)) by (unfold UACPI_RESOURCE_TYPE_MAX; lia).
  rewrite (bind_run _ _ _ _ _ R2), (proj2 (Z.ltb_ge left length)) by lia.
  rewrite (bind_run _ _ _ _ _ Hcb), (bind_run _ _ _ _ _ R1), (bind_run _ _ _ _ _ R2), (proj2 (Z.eqb_neq type _)) by lia.
  by rewrite u64_small by lia.
Qed.

Lemma no_length_spins fuel cb current left c :
  resource_is (mem c) current 0 0 -> 4 <= left < 2 ^ 64 -> cb current c = Some (UACPI_ITERATION_DECISION_CONTINUE, c) ->
  loop fuel (resource_turn cb) (current, left) c = None.
Proof.
  intros Hr Hl Hcb. induction fuel as [|fuel IH]; [done|].
  rewrite (loop_inl _ _ _ _ _ _ (passing_turn cb current left c 0 0 Hr Hl ltac:(done) ltac:(lia) Hcb)).
  by rewrite Z.add_0_r, Z.sub_0_r.
Qed.

Definition resource_isb (m : memory) (p type length : Z) : bool :=
  bytes_atb m p 8 && (le_at m p 4 =? type) && (le_at m (p + 4) 4 =? length).
Lemma resource_isb_spec m p type length : resource_isb m p type length = true -> resource_is m p type length.
Proof. unfold resource_isb. rewrite !andb_true_iff, !Z.eqb_eq. intros [[H ?] ?]. split_and!; [by apply (bytes_atb_spec m p 8)|done..]. Qed.

Definition go_on (resource : Z) : M conv uacpi_iteration_decision := mret UACPI_ITERATION_DECISION_CONTINUE.

Lemma spins_after fuel c p entries first left :
  on_mem (load_le 8 (p + 0)) c = Some (first + left, c) -> on_mem (load_le 8 (p + 8)) c = Some (entries, c) ->
  resource_is (mem c) entries 6 first -> resource_is (mem c) (entries + first) 0 0 ->
  4 <= left -> 0 <= first -> first + left < 2 ^ 64 -> uacpi_for_each_resource fuel p go_on c = None.
Proof.
  intros R1 R2 H1 H2 Hl Hf Hlt. unfold uacpi_for_each_resource. change (offset_of uacpi_resources "length") with 0.
  change (offset_of uacpi_resources "entries") with 8. rewrite (bind_run _ _ _ _ _ R1), (bind_run _ _ _ _ _ R2).
  destruct fuel as [|fuel]; [done|].
  rewrite (loop_inl _ _ _ _ _ _ (passing_turn go_on entries (first + left) c 6 first H1 ltac:(lia) ltac:(done) ltac:(lia) eq_refl)).
  apply no_length_spins; [done|lia|done].
Qed.

(** A source string without its terminator, which is up to the firmware,
    makes [uacpi_native_resources_from_aml] report [OK] with resources of which
    the first is half converted and the rest are zeroes; on these,
    [uacpi_for_each_resource] with a callback that goes on never returns. *)
Theorem half_converted_resources_spin (fuel : nat) :
  exists p c, native_from unterminated = Some ((UACPI_STATUS_OK, p), c) /\ uacpi_for_each_resource fuel p go_on c = None.
Proof.
  set (facts := fun r : option (uacpi_status * Z * conv) => match r with
    | Some ((UACPI_STATUS_OK, p), c) => (p =? 4096) && bytes_atb (mem c) 4096 8 && (le_at (mem c) 4096 8 =? 64)
        && bytes_atb (mem c) 4104 8 && (le_at (mem c) 4104 8 =? 4112)
        && resource_isb (mem c) 4112 6 56 && resource_isb (mem c) 4168 0 0
    | _ => false end).
  assert (H : facts (native_from unterminated) = true) by (vm_compute; reflexivity).
  destruct (native_from unterminated) as [[[st p] c]|]; [|done]. destruct st; try done. unfold facts in H. clear facts.
  rewrite !andb_true_iff, !Z.eqb_eq in H. destruct H as [[[[[[-> B1] L1] B2] L2] F1] F2].
  exists 4096, c. split; [done|]. apply (spins_after fuel c 4096 4112 56 8); try lia.
  - apply on_mem_read. change (4096 + 0) with 4096. rewrite (load_le_run 8) by by apply (bytes_atb_spec _ _ 8). by rewrite L1.
  - apply on_mem_read. change (4096 + 8) with 4104. rewrite (load_le_run 8) by by apply (bytes_atb_spec _ _ 8). by rewrite L2.
  - by apply resource_isb_spec.
  - by apply resource_isb_spec.
Qed.
