(* ===== verification/ResourcesRoundtrip.v ===== *)
(** * Round trips of resource descriptors

    The programs that are a list of fields, as functions on the bytes of the
    descriptor and of the native resource, and what is left of a descriptor
    that goes to native form and back. *)
From S2P Require Import Prelude Status Klibc KlibcSpec ResourceTables Resources ResourcesSpec ResourcesSafe.

(** ** Fields *)

(** Bytes that are copied, or some bits of a byte. *)
Inductive field : Type :=
  | Copy (aml native len : Z)
  | Bits (aml native width index : Z).

Definition field_of (i : convert_instruction) : option field :=
  match code i with
  | FIELD_8 | FIELD_16 | FIELD_32 | FIELD_64 =>
      if (f3 i =? 0xFF) || (f3 i <? 0) then None else Some (Copy (f1 i) (f2 i) (field_bytes (code i) * Z.max 1 (f3 i)))
  | BIT_FIELD_1 | BIT_FIELD_2 | BIT_FIELD_3 | BIT_FIELD_6 => Some (Bits (f1 i) (f2 i) (bit_field_width (code i)) (f3 i))
  | _ => None
  end.
(** A program that is a list of fields. *)
Fixpoint fields_of (insns : list convert_instruction) : option (list field) :=
  match insns with
  | [] => None
  | [i] => if decide (code i = END) then Some [] else None
  | i :: insns => f ← field_of i; fs ← fields_of insns; Some (f :: fs)
  end.

Definition in_range (k lo n : Z) : bool := (lo <=? k) && (k <? lo + n).

(** The bytes of the native resource after a field is converted, from those
    of the descriptor, and the other way. *)
Definition native_with (a : Z -> Z) (f : field) (g : Z -> Z) : Z -> Z := fun k =>
  match f with
  | Copy x y n => if in_range k y n then a (x + (k - y)) else g k
  | Bits x y w i => if k =? y then Z.land (Z.shiftr (a x) i) (Z.ones w) else g k
  end.
Definition aml_with (g : Z -> Z) (f : field) (o : Z -> Z) : Z -> Z := fun k =>
  match f with
  | Copy x y n => if in_range k x n then g (y + (k - x)) else o k
  | Bits x y w i => if k =? x then u8 (Z.lor (o k) (Z.shiftl (g y) i)) else o k
  end.

Definition field_fits (aml native : Z) (f : field) : bool :=
  match f with
  | Copy x y n => (0 <=? x) && (x + n <=? aml) && (0 <=? y) && (y + n <=? native) && (0 <=? n) && (n <? 256)
  | Bits x y w i => (0 <=? x) && (x <? aml) && (0 <=? y) && (y <? native) && (0 <=? i) && (0 <=? w)
  end.

(** [n] bytes in memory that are those of a function. *)
Definition view (m : memory) (p n : Z) (f : Z -> Z) : Prop := forall k, 0 <= k < n -> m !! (p + k) = Some (f k).

Lemma view_mapped m p n f q l : view m p n f -> p <= q -> q + l <= p + n -> mapped_bytes m q l.
Proof. intros H Hq Hl k Hk. exists (f (q - p + k)). rewrite <-(H (q - p + k)) by lia. f_equal. lia. Qed.
Lemma view_at m p n f q : view m p n f -> p <= q < p + n -> m !! q = Some (f (q - p)).
Proof. intros H Hq. rewrite <-(H (q - p)) by lia. f_equal. lia. Qed.
Lemma view_same m m' p n f : view m p n f -> (forall q, p <= q < p + n -> m' !! q = m !! q) -> view m' p n f.
Proof. intros H He k Hk. rewrite He by lia. by apply H. Qed.
Lemma view_ext m p n f f' : (forall k, 0 <= k < n -> f' k = f k) -> view m p n f -> view m p n f'.
Proof. intros H Hv k Hk. rewrite H by done. by apply Hv. Qed.

(** [FIELD] copies between two views. *)
Lemma copy_view m src dst n x y a g (alen glen : Z) :
  view m src alen a -> view m dst glen g -> 0 <= n -> 0 <= x -> x + n <= alen -> 0 <= y -> y + n <= glen ->
  src + alen <= dst \/ dst + glen <= src ->
  exists m', memcpy (dst + y) (src + x) n m = Some (dst + y, m') /\ view m' src alen a /\
    view m' dst glen (fun k => if in_range k y n then a (x + (k - y)) else g k) /\
    (forall q, ~ (dst <= q < dst + glen) -> m' !! q = m !! q).
Proof.
  intros Ha Hg Hn Hx Hxa Hy Hyg Hd.
  destruct (memcpy_run m (dst + y) (src + x) n Hn) as (m' & E & Hin & Hout);
    [lia|by eapply view_mapped; [exact Ha|lia..]|by eapply view_mapped; [exact Hg|lia..]|].
  exists m'. split_and!; [done| | |].
  - eapply view_same; [exact Ha|]. intros q Hq. apply Hout. lia.
  - intros k Hk. destruct (in_range k y n) eqn:Er; unfold in_range in Er.
    + rewrite andb_true_iff, Z.leb_le, Z.ltb_lt in Er. replace (dst + k) with (dst + y + (k - y)) by lia.
      rewrite Hin, <-(Ha (x + (k - y))) by lia. f_equal. lia.
    + rewrite andb_false_iff, Z.leb_gt, Z.ltb_ge in Er. rewrite Hout by lia. by apply Hg.
  - intros q Hq. apply Hout. lia.
Qed.

Lemma poke_view m p n f k v : view m p n f -> 0 <= k < n ->
  exists m', poke (p + k) v m = Some (tt, m') /\ view m' p n (fun j => if j =? k then v else f j) /\
    (forall q, ~ (p <= q < p + n) -> m' !! q = m !! q).
Proof.
  intros Hf Hk. exists (<[p + k := v]> m). split; [apply poke_run; exists (f k); by apply Hf|]. split.
  - intros j Hj. case_if; [subst j; by rewrite lookup_insert_eq|]. rewrite lookup_insert_ne by lia. by apply Hf.
  - intros q Hq. rewrite lookup_insert_ne by lia. done.
Qed.

(** ** Running a list of fields *)

(** What is known of an instruction that is a field. *)
Lemma field_cases i f :
  field_of i = Some f ->
  (f = Copy (f1 i) (f2 i) (field_bytes (code i) * Z.max 1 (f3 i)) /\ f3 i <> 0xFF /\ 0 <= f3 i /\
     code i ∈ [FIELD_8; FIELD_16; FIELD_32; FIELD_64]) \/
  (f = Bits (f1 i) (f2 i) (bit_field_width (code i)) (f3 i) /\ code i ∈ [BIT_FIELD_1; BIT_FIELD_2; BIT_FIELD_3; BIT_FIELD_6]).
Proof.
  unfold field_of. intros H. destruct (code i) eqn:Ec; try discriminate H;
    first [destruct (Z.eqb_spec (f3 i) 0xFF); [done|]; destruct (Z.ltb_spec (f3 i) 0); [done|]; injection H as <-; left;
             split_and!; try done; by apply (bool_decide_unpack _)
          |injection H as <-; right; split; [done|]; by apply (bool_decide_unpack _)].
Qed.

Lemma field_count_u32 i n : 0 <= f3 i -> 0 <= n < 256 -> n = field_bytes (code i) * Z.max 1 (f3 i) -> 1 <= field_bytes (code i) ->
  u32 (field_bytes (code i) * Z.max 1 (u32 (0 + f3 i))) = n.
Proof. intros H3 Hn -> Hb. rewrite (u32_small (0 + f3 i)) by nia. rewrite Z.add_0_l. apply u32_small. lia. Qed.

Lemma field_bytes_pos c : c ∈ [FIELD_8; FIELD_16; FIELD_32; FIELD_64] -> 1 <= field_bytes c.
Proof. intros H. repeat (apply elem_of_cons in H as [->|H]; [cbn; lia|]). by apply elem_of_nil in H. Qed.

Lemma acc_0 r : accumulator r = 0 -> r <| accumulator := 0 |> = r.
Proof. destruct r. cbn. by intros ->. Qed.

(** *** From one block to the other *)

Section Block.
(** The source, [slen] bytes of [m0] at [src], and the destination. *)
Context (m0 : memory) (src slen dst dlen : Z) (a : Z -> Z) (buf : Z).
Context (Ha : view m0 src slen a) (Hap : src + slen <= dst \/ dst + dlen <= src) (Hslen : 0 <= slen) (Hdlen : 0 <= dlen).

(** Nothing but the destination has changed, and that is [g]. *)
Definition converting (g : Z -> Z) (c : conv) : Prop :=
  view (mem c) dst dlen g /\ (forall q, ~ (dst <= q < dst + dlen) -> mem c !! q = m0 !! q) /\
  c_buf c = buf /\ c_st c = UACPI_STATUS_OK /\ just_one c = false.

Lemma converting_src g c : converting g c -> view (mem c) src slen a.
Proof. intros (_ & Ho & _). eapply view_same; [exact Ha|]. intros q Hq. apply Ho. lia. Qed.

Lemma converting_copy g c x y n :
  converting g c -> 0 <= n -> 0 <= x -> x + n <= slen -> 0 <= y -> y + n <= dlen ->
  exists c', on_mem (memcpy (dst + y) (src + x) n) c = Some (dst + y, c') /\
    converting (fun k => if in_range k y n then a (x + (k - y)) else g k) c'.
Proof.
  intros Hc Hn Hx Hxs Hy Hyd. pose proof (converting_src g c Hc) as Hsrc. destruct Hc as (Hg & Ho & Hb & Hst & Hone).
  destruct (copy_view (mem c) src dst n x y a g slen dlen) as (m' & E & _ & Hg' & Hout); try done.
  exists (c <| mem := m' |>). split; [exact (on_mem_run _ _ _ _ E)|]. unfold converting. split_and!; try done.
  intros q Hq. rewrite <-Ho by done. by apply Hout.
Qed.

Lemma converting_poke g c y v :
  converting g c -> 0 <= y < dlen ->
  exists c', on_mem (poke (dst + y) v) c = Some (tt, c') /\ converting (fun k => if k =? y then v else g k) c'.
Proof.
  intros (Hg & Ho & Hb & Hst & Hone) Hy. destruct (poke_view (mem c) dst dlen g y v Hg Hy) as (m' & E & Hg' & Hout).
  exists (c <| mem := m' |>). split; [exact (on_mem_run _ _ _ _ E)|]. unfold converting. split_and!; try done.
  intros q Hq. rewrite <-Ho by done. by apply Hout.
Qed.

Lemma converting_peek_src g c x : converting g c -> 0 <= x < slen -> on_mem (peek (src + x)) c = Some (a x, c).
Proof. intros Hc Hx. apply on_mem_read, peek_run. by apply (converting_src g c Hc). Qed.
Lemma converting_peek_dst g c y : converting g c -> 0 <= y < dlen -> on_mem (peek (dst + y)) c = Some (g y, c).
Proof. intros (Hg & _) Hy. apply on_mem_read, peek_run. by apply Hg. Qed.

(** A program of fields, by an interpreter that runs each. *)
Section Program.
Context (exec : convert_instruction -> regs -> step) (fits : field -> bool) (upd : field -> (Z -> Z) -> Z -> Z).
Context (Hstep : forall i f g r c, field_of i = Some f -> fits f = true -> accumulator r = 0 -> converting g c ->
  exists c', exec i r c = Some (inl r, c') /\ converting (upd f g) c').
Context (Hend : forall i r c, code i = END -> just_one c = false -> exec i r c = Some (inr UACPI_ITERATION_DECISION_CONTINUE, c)).

Lemma run_fields insns fs rest g r c :
  fields_of rest = Some fs -> forallb fits fs = true -> (length insns < 255)%nat -> drop (Z.to_nat (pc r)) insns = rest -> 0 <= pc r ->
  accumulator r = 0 -> converting g c ->
  exists c', loop (S (length rest)) (fun r => i ← liftO (insns !! Z.to_nat (pc r)); exec i (r <| pc := u8 (pc r + 1) |>)) r c
    = Some (UACPI_ITERATION_DECISION_CONTINUE, c') /\ converting (foldl (fun g f => upd f g) g fs) c'.
Proof.
  intros Hfs Hfit Hlen. revert fs g r c Hfs Hfit. induction rest as [|i rest IH]; intros fs g r c Hfs Hfit Hd Hpc Hacc Hc; [done|].
  assert (Ei : insns !! Z.to_nat (pc r) = Some i) by (rewrite <-(Nat.add_0_r (Z.to_nat (pc r))), <-lookup_drop, Hd; done).
  assert (Hlt := lookup_lt_Some _ _ _ Ei). set (r1 := r <| pc := u8 (pc r + 1) |>).
  assert (Hpc1 : pc r1 = pc r + 1) by (unfold r1; cbn; apply u8_small; lia).
  assert (Hturn : forall x c', exec i r1 c = Some (x, c') ->
    (i ← liftO (insns !! Z.to_nat (pc r)); exec i (r <| pc := u8 (pc r + 1) |>)) c = Some (x, c')) by (intros x c' E; by rewrite Ei).
  destruct rest as [|j rest].
  - cbn [fields_of] in Hfs. destruct (decide (code i = END)) as [He|]; [|done]. injection Hfs as <-. exists c. split; [|exact Hc].
    apply loop_inr. apply Hturn, Hend; [done|apply Hc].
  - cbn [fields_of] in Hfs. destruct (field_of i) as [f|] eqn:Ef; [|done]. cbn in Hfs.
    destruct (fields_of (j :: rest)) as [fs'|] eqn:Er; [|by cbn [fields_of] in Er; rewrite Er in Hfs].
    assert (fs = f :: fs') as -> by (cbn [fields_of] in Er; rewrite Er in Hfs; by injection Hfs). cbn [forallb] in Hfit.
    apply andb_true_iff in Hfit as [Hf1 Hf2]. destruct (Hstep i f g r1 c Ef Hf1 Hacc Hc) as (c1 & E1 & Hc1).
    destruct (IH fs' (upd f g) r1 c1) as (c2 & E2 & Hc2); try done; [|lia|].
    { rewrite Hpc1. replace (Z.to_nat (pc r + 1)) with (S (Z.to_nat (pc r))) by lia.
      pose proof (drop_S _ _ _ Ei) as HS. rewrite Hd in HS. by injection HS. }
    exists c2. split; [|exact Hc2]. rewrite (loop_inl _ _ _ _ _ _ (Hturn _ _ E1)). exact E2.
Qed.
End Program.
End Block.

Lemma run_copy {A} (m : M conv A) (r : regs) c c' a : m c = Some (a, c') -> (_ ← m; next r) c = Some (inl r, c').
Proof. intros E. by rewrite (bind_run _ _ _ _ _ E). Qed.

Lemma run_field {A} (m : M conv A) (r : regs) c c' a :
  accumulator r = 0 -> m c = Some (a, c') -> (_ ← m; next (r <| accumulator := 0 |>)) c = Some (inl r, c').
Proof. intros Hr E. rewrite (acc_0 r Hr). by rewrite (bind_run _ _ _ _ _ E). Qed.

Ltac field_code Hc := repeat (apply elem_of_cons in Hc as [Hc|Hc]); [..|by apply elem_of_nil in Hc].

Lemma field_to_native m0 data room res len a buf size header i f g r c :
  view m0 data room a -> data + room <= res + 8 \/ res + 8 + len <= data -> 0 <= room -> 0 <= len ->
  field_of i = Some f -> field_fits room len f = true -> accumulator r = 0 -> converting m0 (res + 8) len buf g c ->
  exists c', insn_to_native res data size header i r c = Some (inl r, c') /\ converting m0 (res + 8) len buf (native_with a f g) c'.
Proof.
  intros Ha Hap Hroom Hlen Hf Hfit Hacc Hcv. assert (Hoff : NATIVE_OFFSET res (f2 i) = res + 8 + f2 i) by (unfold NATIVE_OFFSET; lia).
  destruct (field_cases i f Hf) as [(-> & H255 & H3 & Hc)|(-> & Hc)];
    cbn [field_fits] in Hfit; rewrite !andb_true_iff, ?Z.leb_le, ?Z.ltb_lt in Hfit.
  - set (n := field_bytes (code i) * Z.max 1 (f3 i)) in *.
    destruct (converting_copy m0 data room (res + 8) len a buf Ha Hap g c (f1 i) (f2 i) n Hcv) as (c' & E & Hc'); try lia.
    exists c'. split; [|exact Hc']. pose proof (field_count_u32 i n H3 ltac:(lia) eq_refl (field_bytes_pos _ Hc)) as Hn.
    rewrite <-Hacc in Hn at 1. apply (run_field _ r) in E; [|exact Hacc]. rewrite <-Hoff, <-Hn in E.
    field_code Hc; unfold insn_to_native, CONVERSION_OPCODES_COMMON; rewrite Hc in E |- *; rewrite (proj2 (Z.eqb_neq _ _) H255); exact E.
  - pose proof (converting_peek_src m0 data room (res + 8) len a buf Ha Hap g c (f1 i) Hcv ltac:(lia)) as Ep.
    destruct (converting_poke m0 (res + 8) len buf g c (f2 i) (Z.land (Z.shiftr (a (f1 i)) (f3 i)) (Z.ones (bit_field_width (code i)))) Hcv)
      as (c' & E & Hc'); [lia|].
    exists c'. split; [|exact Hc']. apply (run_copy _ r) in E. rewrite <-Hoff in E.
    field_code Hc; unfold insn_to_native; rewrite Hc in E |- *; rewrite (bind_run _ _ _ _ _ Ep); exact E.
Qed.

Lemma field_to_aml m0 res len out room g buf size header i f o r c :
  view m0 (res + 8) len g -> res + 8 + len <= out \/ out + room <= res + 8 -> 0 <= room -> 0 <= len ->
  field_of i = Some f -> field_fits room len f = true -> accumulator r = 0 -> converting m0 out room buf o c ->
  exists c', insn_to_aml res out size header i r c = Some (inl r, c') /\ converting m0 out room buf (aml_with g f o) c'.
Proof.
  intros Ha Hap Hroom Hlen Hf Hfit Hacc Hcv. assert (Hoff : NATIVE_OFFSET res (f2 i) = res + 8 + f2 i) by (unfold NATIVE_OFFSET; lia).
  destruct (field_cases i f Hf) as [(-> & H255 & H3 & Hc)|(-> & Hc)];
    cbn [field_fits] in Hfit; rewrite !andb_true_iff, ?Z.leb_le, ?Z.ltb_lt in Hfit.
  - set (n := field_bytes (code i) * Z.max 1 (f3 i)) in *.
    destruct (converting_copy m0 (res + 8) len out room g buf Ha Hap o c (f2 i) (f1 i) n Hcv) as (c' & E & Hc'); try lia.
    exists c'. split; [|exact Hc']. pose proof (field_count_u32 i n H3 ltac:(lia) eq_refl (field_bytes_pos _ Hc)) as Hn.
    rewrite <-Hacc in Hn at 1. apply (run_field _ r) in E; [|exact Hacc]. rewrite <-Hoff, <-Hn in E.
    field_code Hc; unfold insn_to_aml, CONVERSION_OPCODES_COMMON; rewrite Hc in E |- *; rewrite (proj2 (Z.eqb_neq _ _) H255); exact E.
  - pose proof (converting_peek_src m0 (res + 8) len out room g buf Ha Hap o c (f2 i) Hcv ltac:(lia)) as Ep.
    pose proof (converting_peek_dst m0 out room buf o c (f1 i) Hcv ltac:(lia)) as Eq. rewrite <-Hoff in Ep.
    destruct (converting_poke m0 out room buf o c (f1 i) (u8 (Z.lor (o (f1 i)) (Z.shiftl (g (f2 i)) (f3 i)))) Hcv) as (c' & E & Hc'); [lia|].
    exists c'. split.
    + apply (run_copy _ r) in E. field_code Hc; unfold insn_to_aml; rewrite Hc in |- *;
        rewrite (bind_run _ _ _ _ _ Eq), (bind_run _ _ _ _ _ Ep); exact E.
    + destruct Hc' as [Hv Hr]. split; [|exact Hr]. eapply view_ext; [|exact Hv]. intros k Hk. unfold aml_with. by case_if; [subst k|].
Qed.

(** ** The headers of both forms *)

Lemma store_le_at n m p v :
  mapped_bytes m p (Z.of_nat n) ->
  exists m', store_le n p v m = Some (tt, m') /\ le_at m' p n = v mod 256 ^ Z.of_nat n /\ bytes_at m' p (Z.of_nat n) /\
    (forall q, ~ (p <= q < p + Z.of_nat n) -> m' !! q = m !! q).
Proof.
  revert m p v. induction n as [|n IH]; intros m p v Hm; cbn [store_le le_at].
  - exists m. split_and!; [done|by rewrite Z.mod_1_r|intros k Hk; lia|done].
  - assert (Hp : is_Some (m !! p)) by (rewrite <-(Z.add_0_r p); apply Hm; lia). rewrite (bind_run _ _ _ _ _ (poke_run _ _ _ Hp)).
    destruct (IH (<[p := u8 v]> m) (p + 1) (Z.shiftr v 8)) as (m' & E & Hv & Hb & Ho).
    { intros k Hk. rewrite lookup_insert_ne by lia. replace (p + 1 + k) with (p + (k + 1)) by lia. apply Hm. lia. }
    assert (Hp' : m' !! p = Some (u8 v)) by (rewrite Ho by lia; apply lookup_insert_eq). exists m'. split_and!; [done| | |].
    + unfold byte_of. rewrite Hp', Hv. cbn [from_option]. unfold id, u8, wrap. rewrite Z.shiftr_div_pow2 by lia.
      change (2 ^ 8) with 256. rewrite Nat2Z.inj_succ, Z.pow_succ_r, Z.rem_mul_r by lia. lia.
    + intros k Hk. destruct (decide (k = 0)) as [->|]; [exists (u8 v); rewrite Z.add_0_r; split; [done|apply Z.mod_pos_bound; lia]|].
      replace (p + k) with (p + 1 + (k - 1)) by lia. apply Hb. lia.
    + intros q Hq. rewrite Ho, lookup_insert_ne by lia. done.
Qed.

(** The types whose programs are lists of fields that fit, past the header. *)
Definition plain_fields (t : uacpi_aml_resource) : list field := default [] (insns ← to_native (aml_resources t); fields_of insns).
Definition room_of (t : uacpi_aml_resource) : Z := header_size_of t + aml_size (aml_resources t).
Definition native_room (t : uacpi_aml_resource) : Z := native_size (aml_resources t) - 8.
Definition plain_types : list uacpi_aml_resource :=
  [UACPI_AML_RESOURCE_IO; UACPI_AML_RESOURCE_FIXED_IO; UACPI_AML_RESOURCE_FIXED_DMA; UACPI_AML_RESOURCE_MEMORY24;
   UACPI_AML_RESOURCE_GENERIC_REGISTER; UACPI_AML_RESOURCE_MEMORY32; UACPI_AML_RESOURCE_FIXED_MEMORY32].

Lemma plain_program t : t ∈ plain_types ->
  exists insns, to_native (aml_resources t) = Some insns /\ to_aml (aml_resources t) = Some insns /\
    fields_of insns = Some (plain_fields t) /\ (length insns < 255)%nat /\ forallb (field_fits (room_of t) (native_room t)) (plain_fields t) = true.
Proof.
  intros Ht. repeat (apply elem_of_cons in Ht as [->|Ht]; [eexists; split_and!; [reflexivity..|vm_compute; lia|vm_compute; reflexivity]|]).
  by apply elem_of_nil in Ht.
Qed.

Definition plain_spec (t : uacpi_aml_resource) : bool :=
  match extra_size_for_native (aml_resources t), size_for_aml (aml_resources t) with None, None => true | _, _ => false end
  && (0 <=? native_type (aml_resources t)) && (native_type (aml_resources t) <=? UACPI_RESOURCE_TYPE_MAX)
  && bool_decide (native_resource_to_type !! Z.to_nat (native_type (aml_resources t)) = Some t)
  && (room_of t <? 64) && (native_size (aml_resources t) <? 64) && (9 <=? native_size (aml_resources t)) && (2 <=? room_of t)
  && (ALIGN_UP_PTR (u64 (native_size (aml_resources t) + 0)) =? ALIGN_UP_PTR (native_size (aml_resources t))).
Lemma plain_specs : forallb plain_spec plain_types = true.
Proof. vm_compute. reflexivity. Qed.

(** ** Both conversions of a plain descriptor *)

Lemma view_of_mapped m p n : mapped_bytes m p n -> view m p n (fun k => byte_of m (p + k)).
Proof. intros H k Hk. destruct (H k Hk) as [b Hb]. unfold byte_of. by rewrite Hb. Qed.

Section Plain.
Context (t : uacpi_aml_resource) (Ht : t ∈ plain_types).
Let spec := aml_resources t.
Let room := room_of t.
Let len := native_room t.

Lemma plain_facts :
  extra_size_for_native spec = None /\ size_for_aml spec = None /\ 0 <= native_type spec <= UACPI_RESOURCE_TYPE_MAX /\
  native_resource_to_type !! Z.to_nat (native_type spec) = Some t /\ 2 <= room < 64 /\ 9 <= native_size spec < 64 /\
  1 <= header_size_of t <= room /\ room - header_size_of t = aml_size spec.
Proof.
  pose proof plain_specs as H. rewrite forallb_forall in H. specialize (H t (proj1 (list_elem_of_In _ _) Ht)).
  unfold plain_spec in H. fold spec room in H. rewrite !andb_true_iff, !Z.leb_le, !Z.ltb_lt, bool_decide_eq_true in H.
  pose proof (aml_size_nonneg t) as Hn. fold spec in Hn.
  assert (1 <= header_size_of t) by (unfold header_size_of; destruct (resource_kind _); cbn; lia).
  assert (room = header_size_of t + aml_size spec) by done.
  destruct (extra_size_for_native spec), (size_for_aml spec); try (by destruct H as [[[[[[[[? _] _] _] _] _] _] _] _]).
  split_and!; try done; try tauto; lia.
Qed.

(** A state of a conversion between the two forms. *)
Definition ready (m : memory) (buf : Z) (c : conv) : Prop := mem c = m /\ c_buf c = buf /\ c_st c = UACPI_STATUS_OK /\ just_one c = false.

Lemma on_mem_ready {A} (op : M memory A) m m' buf c v : ready m buf c -> op m = Some (v, m') -> on_mem op c = Some (v, c <| mem := m' |>) /\ ready m' buf (c <| mem := m' |>).
Proof. intros (<- & H) E. split; [by apply on_mem_run|]. by split. Qed.

Lemma plain_to_native m data res a c :
  view m data room a -> mapped_bytes m res (native_size spec) -> data + room <= res \/ res + native_size spec <= data -> ready m res c ->
  exists c' g0, do_aml_resource_to_native data (aml_size spec) spec c = Some (UACPI_ITERATION_DECISION_CONTINUE, c') /\
    bytes_at (mem c') res 4 /\ le_at (mem c') res 4 = native_type spec /\
    view (mem c') (res + 8) len (foldl (fun g f => native_with a f g) g0 (plain_fields t)) /\
    (forall q, ~ (res <= q < res + native_size spec) -> mem c' !! q = m !! q) /\
    c_st c' = UACPI_STATUS_OK /\ just_one c' = false.
Proof.
  intros Ha Hres Hap Hc. destruct plain_facts as (Hex & _ & Hnt & _ & Hroom & Hns & Hh & Hsz).
  assert (Hlen : len = native_size spec - 8) by done. destruct (plain_program t Ht) as (insns & Ein & _ & Hfs & Hil & Hfit). fold spec in Ein.
  unfold do_aml_resource_to_native, resource_type_at, resource_length_at.
  rewrite (bind_run (gets c_buf) _ c c res) by (unfold gets; by rewrite (proj1 (proj2 Hc))).
  (* type *)
  destruct (store_le_at 4 m res (native_type spec)) as (m1 & E1 & Hv1 & Hb1 & Ho1); [intros k Hk; apply Hres; lia|].
  destruct (on_mem_ready _ _ _ _ _ _ Hc E1) as [R1 Hc1]. rewrite (bind_run _ _ _ _ _ R1).
  set (L := ALIGN_UP_PTR (u64 (native_size spec + 0))). set (c1 := set_field mem _ _) in Hc1 |- *. clearbody c1.
  assert (R2 : on_mem (native_size_for_aml_resource data (aml_size spec) spec) c1 = Some (L, c1)).
  { apply on_mem_read. unfold native_size_for_aml_resource. by rewrite Hex. }
  rewrite (bind_run _ _ _ _ _ R2).
  (* length *)
  destruct (store_le_at 4 m1 (res + 4) L) as (m2 & E2 & _ & _ & Ho2).
  { intros k Hk. rewrite Ho1 by lia. replace (res + 4 + k) with (res + (4 + k)) by lia. apply Hres. lia. }
  destruct (on_mem_ready _ _ _ _ _ _ Hc1 E2) as [R3 Hc3]. rewrite (bind_run _ _ _ _ _ R3).
  set (c3 := set_field mem _ _) in Hc3 |- *. clearbody c3.
  set (c4 := c3 <| c_buf := res + u32 L |>). assert (Hc4 : ready m2 (res + u32 L) c4) by (destruct Hc3 as (?&?&?&?); by split_and!).
  rewrite (bind_run (modify (fun c => c <| c_buf := res + u32 L |>)) _ c3 c4 tt eq_refl). rewrite Ein.
  assert (Ho12 : forall q, ~ (res <= q < res + 8) -> m2 !! q = m !! q) by (intros q Hq; rewrite Ho2, Ho1 by lia; done).
  assert (Ha2 : view m2 data room a) by (eapply view_same; [exact Ha|]; intros q Hq; apply Ho12; lia).
  assert (Hm2 : mapped_bytes m2 (res + 8) len).
  { intros k Hk. rewrite Ho12 by lia. replace (res + 8 + k) with (res + (8 + k)) by lia. apply Hres. lia. }
  destruct (run_fields m2 (res + 8) len (res + u32 L) (insn_to_native res data (aml_size spec) (header_size_of t)) (field_fits room len)
    (fun f g => native_with a f g)) with (insns := insns) (fs := plain_fields t) (rest := insns) (c := c4)
    (g := fun k => byte_of m2 (res + 8 + k)) (r := Regs 0 (res + native_size spec) (aml_size spec) (aml_size spec + header_size_of t) 0)
    as (c' & E & Hc'); try done.
  - intros i f g r c0. apply field_to_native; [done|lia|lia|lia].
  - intros i r c0 Hi Ho. unfold insn_to_native, CONVERSION_OPCODES_COMMON. rewrite Hi. unfold conditional_continue, gets. mstep. by rewrite Ho.
  - destruct Hc4 as (Hm4 & Hb4 & Hs4 & H14). unfold converting. rewrite Hm4. split_and!; try done. by apply view_of_mapped.
  - exists c', (fun k => byte_of m2 (res + 8 + k)). destruct Hc' as (Hv & Ho & _ & Hst & Hone).
    assert (Hsame : forall q, res <= q < res + 4 -> mem c' !! q = m1 !! q) by (intros q Hq; rewrite Ho, Ho2 by lia; done).
    assert (Hs4 : same_bytes m1 (mem c') res 4) by (intros k Hk; apply Hsame; lia).
    split_and!; try done.
    + eapply bytes_at_same; [exact Hs4|exact Hb1].
    + rewrite (le_at_same 4 m1) by exact Hs4. rewrite Hv1. apply Z.mod_small. split; [lia|]. unfold UACPI_RESOURCE_TYPE_MAX, UACPI_RESOURCE_TYPE_END_TAG in *. lia.
    + intros q Hq. rewrite Ho, Ho12 by lia. done.
Qed.

(** The bytes of a header of the size of the type. *)
Definition header_byte (k : Z) : Z :=
  if k =? 0 then aml_header spec (aml_size spec) else if k =? 1 then u8 (aml_size spec) else u8 (Z.shiftr (aml_size spec) 8).

Lemma write_header m out c buf :
  view m out room (fun _ => 0) -> ready m buf c ->
  exists c' m', (_ ← on_mem (poke out (aml_header spec (aml_size spec)));
      match resource_kind spec with
      | UACPI_AML_RESOURCE_KIND_LARGE => on_mem (store_le 2 (out + 1) (aml_size spec))
      | UACPI_AML_RESOURCE_KIND_SMALL => mret tt
      end) c = Some (tt, c') /\ ready m' buf c' /\
    view m' out room (fun k => if k <? header_size_of t then header_byte k else 0) /\ (forall q, ~ (out <= q < out + room) -> m' !! q = m !! q).
Proof.
  intros Hz Hc. destruct plain_facts as (_ & _ & _ & _ & Hroom & _ & Hh & Hsz).
  assert (Hk : header_size_of t = match resource_kind spec with UACPI_AML_RESOURCE_KIND_LARGE => 3 | UACPI_AML_RESOURCE_KIND_SMALL => 1 end) by done.
  destruct (poke_view m out room (fun _ => 0) 0 (aml_header spec (aml_size spec)) Hz) as (m1 & E1 & Hv1 & Ho1); [lia|].
  rewrite Z.add_0_r in E1. destruct (on_mem_ready _ _ _ _ _ _ Hc E1) as [R1 Hc1].
  destruct (resource_kind spec) eqn:Ek; rewrite Hk.
  - eexists _, m1. split_and!; [rewrite (bind_run _ _ _ _ _ R1); reflexivity|exact Hc1| |exact Ho1].
    eapply view_ext; [|exact Hv1]. intros k Hk'. cbv beta. unfold header_byte.
    destruct (Z.ltb_spec k 1), (Z.eqb_spec k 0); done || lia.
  - destruct (poke_view m1 out room _ 1 (u8 (aml_size spec)) Hv1) as (m2 & E2 & Hv2 & Ho2); [lia|].
    destruct (poke_view m2 out room _ 2 (u8 (Z.shiftr (aml_size spec) 8)) Hv2) as (m3 & E3 & Hv3 & Ho3); [lia|].
    assert (E : store_le 2 (out + 1) (aml_size spec) m1 = Some (tt, m3)).
    { cbn [store_le]. rewrite (bind_run _ _ _ _ _ E2). replace (out + 1 + 1) with (out + 2) by lia. by rewrite (bind_run _ _ _ _ _ E3). }
    destruct (on_mem_ready _ _ _ _ _ _ Hc1 E) as [R3 Hc3]. eexists _, m3.
    split_and!; [rewrite (bind_run _ _ _ _ _ R1); exact R3|exact Hc3| |intros q Hq; rewrite Ho3, Ho2 by done; by apply Ho1].
    eapply view_ext; [|exact Hv3]. intros k Hk'. cbv beta. unfold header_byte.
    destruct (Z.ltb_spec k 3), (Z.eqb_spec k 2), (Z.eqb_spec k 1), (Z.eqb_spec k 0); done || lia.
Qed.

Lemma plain_to_aml m res out g c :
  bytes_at m res 4 -> le_at m res 4 = native_type spec -> view m (res + 8) len g -> view m out room (fun _ => 0) ->
  out + room <= res \/ res + native_size spec <= out -> ready m out c ->
  exists c', do_native_resource_to_aml res c = Some (UACPI_ITERATION_DECISION_CONTINUE, c') /\
    view (mem c') out room (foldl (fun o f => aml_with g f o) (fun k => if k <? header_size_of t then header_byte k else 0) (plain_fields t)).
Proof.
  intros Hb Hty Hg Hz Hap Hc. destruct plain_facts as (_ & Hsa & Hnt & Hnat & Hroom & Hns & Hh & Hsz).
  assert (Hlen : len = native_size spec - 8) by done. destruct (plain_program t Ht) as (insns & _ & Eia & Hfs & Hil & Hfit). fold spec in Eia.
  unfold do_native_resource_to_aml, resource_type_at.
  assert (R0 : on_mem (load_le 4 res) c = Some (native_type spec, c)).
  { apply on_mem_read. rewrite (proj1 Hc), <-Hty. exact (load_le_run 4 _ _ Hb). }
  assert (R1 : on_mem (resource_spec_from_native (native_type spec)) c = Some (spec, c)).
  { apply on_mem_read. unfold resource_spec_from_native. by rewrite Hnat. }
  assert (R2 : on_mem (aml_size_for_native_resource res spec) c = Some (room, c)).
  { apply on_mem_read. unfold aml_size_for_native_resource. rewrite Hsa. unfold aml_size_with_header.
    change (aml_resource_kind_to_header_size (resource_kind spec)) with (header_size_of t).
    by replace (aml_size spec + header_size_of t) with room by lia. }
  rewrite (bind_run _ _ _ _ _ R0). unfold native_resource_to_aml. rewrite (bind_run _ _ _ _ _ R1), (bind_run _ _ _ _ _ R2).
  rewrite (bind_run (gets c_buf) _ c c out) by (unfold gets; by rewrite (proj1 (proj2 Hc))). cbv zeta.
  change (aml_resource_kind_to_header_size (resource_kind spec)) with (header_size_of t).
  rewrite (u32_small room) by lia. rewrite (u32_small (room - _)) by lia. rewrite Hsz.
  set (c1 := c <| c_buf := out + room |>). assert (Hc1 : ready m (out + room) c1) by (destruct Hc as (?&?&?&?); by split_and!).
  rewrite (bind_run (modify (fun c => c <| c_buf := out + room |>)) _ c c1 tt eq_refl).
  destruct (write_header m out c1 (out + room) Hz Hc1) as (c2 & m2 & E2 & Hc2 & Hv2 & Ho2).
  rewrite <-bind_assoc. rewrite (bind_run _ _ _ _ _ E2). rewrite Eia.
  assert (Hg2 : view m2 (res + 8) len g) by (eapply view_same; [exact Hg|]; intros q Hq; apply Ho2; lia).
  destruct (run_fields m2 out room (out + room) (insn_to_aml res out (aml_size spec) (header_size_of t)) (field_fits room len)
    (fun f o => aml_with g f o)) with (insns := insns) (fs := plain_fields t) (rest := insns) (c := c2)
    (g := fun k => if k <? header_size_of t then header_byte k else 0)
    (r := Regs 0 (res + native_size spec) (aml_size spec) (aml_size spec + header_size_of t) 0) as (c' & E & Hc'); try done.
  - intros i f o r c0. apply field_to_aml; [done|lia|lia|lia].
  - intros i r c0 Hi Ho. unfold insn_to_aml, CONVERSION_OPCODES_COMMON. rewrite Hi. unfold conditional_continue, gets. mstep. by rewrite Ho.
  - destruct Hc2 as (Hm4 & Hb4 & Hs4 & H14). unfold converting. rewrite Hm4. by split_and!.
  - exists c'. split; [exact E|apply Hc'].
Qed.
End Plain.

(** ** What is left of the descriptor *)

(** The bits of a byte that some field covers. *)
Definition kept (fs : list field) (k : Z) : Z :=
  foldl (fun m f => match f with
    | Copy x _ n => if in_range k x n then 255 else m
    | Bits x _ w i => if k =? x then Z.lor m (Z.shiftl (Z.ones w) i) else m
    end) 0 fs.
Definition kept_byte (t : uacpi_aml_resource) (k : Z) : Z := if k <? header_size_of t then 255 else kept (plain_fields t) k.

Lemma land_255 b : 0 <= b < 256 -> Z.land b 255 = b.
Proof. intros H. change 255 with (Z.ones 8). rewrite Z.land_ones by lia. apply Z.mod_small. lia. Qed.

(** A field of bits that comes back to its place. *)
Lemma bits_back b w i : 0 <= b < 256 -> 0 <= w -> 0 <= i ->
  u8 (Z.lor 0 (Z.shiftl (Z.land (Z.shiftr b i) (Z.ones w)) i)) = Z.land b (Z.lor 0 (Z.shiftl (Z.ones w) i)).
Proof.
  intros Hb Hw Hi. rewrite !Z.lor_0_l.
  assert (E : Z.shiftl (Z.land (Z.shiftr b i) (Z.ones w)) i = Z.land b (Z.shiftl (Z.ones w) i)).
  { apply Z.bits_inj'. intros n Hn. rewrite Z.shiftl_spec, (Z.land_spec b), Z.shiftl_spec by lia.
    destruct (Z.ltb_spec n i); [rewrite !Z.testbit_neg_r with (n := n - i) by lia; by rewrite andb_false_r|].
    rewrite Z.land_spec, Z.shiftr_spec by lia. by replace (n - i + i) with n by lia. }
  rewrite E. apply u8_small. split; [apply Z.land_nonneg; lia|].
  assert (Z.land b (Z.shiftl (Z.ones w) i) <= b); [|lia]. apply Z.ldiff_le; [lia|]. apply Z.bits_inj'. intros n Hn.
  rewrite Z.ldiff_spec, Z.land_spec, Z.bits_0. by destruct (Z.testbit b n), (Z.testbit (Z.shiftl (Z.ones w) i) n).
Qed.

Lemma fields_back_all t a g0 o :
  t ∈ plain_types -> (forall j, 0 <= j < room_of t -> 0 <= a j < 256) -> (forall k, header_size_of t <= k < room_of t -> o k = 0) ->
  Forall (fun k => foldl (fun o f => aml_with (foldl (fun g f => native_with a f g) g0 (plain_fields t)) f o) o (plain_fields t) k
    = Z.land (a k) (kept (plain_fields t) k))
    (map (fun k => header_size_of t + Z.of_nat k) (seq 0 (Z.to_nat (aml_size (aml_resources t))))).
Proof.
  intros Ht Ha Ho. repeat (apply elem_of_cons in Ht as [->|Ht]; [|]); [..|by apply elem_of_nil in Ht].
  all: match goal with |- Forall _ ?l => let l' := eval vm_compute in l in change l with l' end.
  all: repeat first [apply Forall_nil; exact I|apply Forall_cons; split].
  all: cbv -[Z.land Z.lor Z.shiftl Z.shiftr Z.ones u8 Z.le Z.lt] in Ha, Ho |- *.
  all: match goal with
    | |- ?a ?j = Z.land (?a ?j) 255 => by rewrite land_255 by (apply Ha; lia)
    | |- u8 (Z.lor (?o ?j) _) = _ => rewrite (Ho j) by lia; apply bits_back; [apply Ha; lia|lia|lia]
    end.
Qed.

(** The first byte of a descriptor is the one that is written for its type and size. *)
Definition first_byte (raw : Z) : bool :=
  let t := get_aml_resource_type raw in
  bool_decide (t = UACPI_AML_RESOURCE_TYPE_INVALID)
  || (aml_header (aml_resources t) (if is_large raw then 0 else Z.land raw ACPI_SMALL_ITEM_LENGTH_MASK) =? raw).
Lemma first_bytes : forallb first_byte (map Z.of_nat (seq 0 256)) = true.
Proof. vm_compute. reflexivity. Qed.

Lemma header_bytes t m data k a :
  t ∈ plain_types -> view m data (room_of t) a -> (forall j, 0 <= j < room_of t -> 0 <= a j < 256) ->
  type_at m data = t -> size_at m data = aml_size (aml_resources t) -> 0 <= k < header_size_of t -> header_byte t k = a k.
Proof.
  intros Ht Hv Ha Hty Hsz Hk. destruct (plain_facts t Ht) as (_ & _ & _ & _ & Hroom & _ & Hh & _).
  assert (Hinv : t <> UACPI_AML_RESOURCE_TYPE_INVALID) by (intros ->; revert Ht; apply (bool_decide_unpack _); done).
  assert (Hb : forall j, 0 <= j < room_of t -> byte_of m (data + j) = a j) by (intros j Hj; unfold byte_of; by rewrite Hv).
  assert (Hb0 : byte_of m data = a 0) by (rewrite <-(Hb 0) by lia; by rewrite Z.add_0_r).
  pose proof (header_at_kind m data (a 0) ltac:(rewrite <-(Z.add_0_r data); apply Hv; lia) ltac:(apply Ha; lia) ltac:(by rewrite Hty)) as Hka.
  rewrite Hty in Hka. pose proof first_bytes as H. rewrite forallb_forall in H. specialize (H (a 0)).
  assert (Hin : In (a 0) (map Z.of_nat (seq 0 256))).
  { apply in_map_iff. exists (Z.to_nat (a 0)). rewrite in_seq. pose proof (Ha 0). lia. }
  specialize (H Hin). unfold first_byte in H. assert (Hg : get_aml_resource_type (a 0) = t) by (unfold type_at in Hty; by rewrite Hb0 in Hty).
  rewrite Hg, bool_decide_eq_false_2 in H by done. apply Z.eqb_eq in H.
  unfold header_at, size_at in *. rewrite Hb0 in *. unfold header_byte. destruct (is_large (a 0)) eqn:El.
  - assert (Hle : le_at m (data + 1) 2 = a 1 + 256 * a 2).
    { cbn [le_at]. replace (data + 1 + 1) with (data + 2) by lia. rewrite (Hb 1), (Hb 2) by lia. lia. }
    rewrite Hle in Hsz. rewrite <-Hsz. pose proof (Ha 1 ltac:(lia)). pose proof (Ha 2 ltac:(lia)).
    destruct (Z.eqb_spec k 0) as [->|]; [rewrite <-H; unfold aml_header; unfold header_size_of in Hka; by destruct (resource_kind _)|].
    destruct (Z.eqb_spec k 1) as [->|]; [unfold wrap; change (2 ^ 8) with 256; cbn [Z.eqb]; Z.to_euclidean_division_equations; lia|].
    assert (k = 2) as -> by lia. rewrite Z.shiftr_div_pow2 by lia. unfold wrap. change (2 ^ 8) with 256. Z.to_euclidean_division_equations. lia.
  - assert (k = 0) as -> by lia. cbn [Z.eqb]. rewrite Hsz in H. exact H.
Qed.

(** Fields past the header leave it. *)
Definition aml_offset (f : field) : Z := match f with Copy x _ _ => x | Bits x _ _ _ => x end.
Lemma fields_below g o fs h k :
  Forall (fun f => h <= aml_offset f) fs -> k < h -> foldl (fun o f => aml_with g f o) o fs k = o k.
Proof.
  intros H Hk. revert o. induction H as [|f fs Hf H IH]; intros o; cbn [foldl]; [done|]. rewrite IH. unfold aml_with, in_range.
  destruct f as [x y n|x y w i]; cbn in Hf; [by rewrite (proj2 (Z.leb_gt x k)) by lia|by rewrite (proj2 (Z.eqb_neq k x)) by lia].
Qed.
Lemma forallb_Forall_le h fs : forallb (fun f => h <=? aml_offset f) fs = true -> Forall (fun f => h <= aml_offset f) fs.
Proof. rewrite forallb_forall, Forall_forall. intros H f Hf. apply Z.leb_le, H. by apply list_elem_of_In. Qed.
Lemma plain_beyond t : t ∈ plain_types -> Forall (fun f => header_size_of t <= aml_offset f) (plain_fields t).
Proof.
  intros Ht. repeat (apply elem_of_cons in Ht as [->|Ht]; [apply forallb_Forall_le; vm_compute; reflexivity|]). by apply elem_of_nil in Ht.
Qed.

(** Descriptor to native and back: every byte that a field covers is as it
    was, the others are 0. *)
Lemma plain_roundtrip_spec t m data res out a c :
  t ∈ plain_types -> view m data (room_of t) a -> (forall j, 0 <= j < room_of t -> 0 <= a j < 256) ->
  type_at m data = t -> size_at m data = aml_size (aml_resources t) ->
  mapped_bytes m res (native_size (aml_resources t)) -> view m out (room_of t) (fun _ => 0) ->
  data + room_of t <= res \/ res + native_size (aml_resources t) <= data ->
  out + room_of t <= res \/ res + native_size (aml_resources t) <= out -> ready m res c ->
  exists c1 c2, do_aml_resource_to_native data (aml_size (aml_resources t)) (aml_resources t) c = Some (UACPI_ITERATION_DECISION_CONTINUE, c1) /\
    do_native_resource_to_aml res (c1 <| c_buf := out |>) = Some (UACPI_ITERATION_DECISION_CONTINUE, c2) /\
    view (mem c2) out (room_of t) (fun k => Z.land (a k) (kept_byte t k)).
Proof.
  intros Ht Hv Ha Hty Hsz Hres Hz Hap1 Hap2 Hc.
  destruct (plain_to_native t Ht m data res a c Hv Hres Hap1 Hc) as (c1 & g0 & E1 & Hb4 & Hle & Hg & Ho & Hst & Hone).
  assert (Hz1 : view (mem c1) out (room_of t) (fun _ => 0)) by (eapply view_same; [exact Hz|]; intros q Hq; apply Ho; lia).
  destruct (plain_to_aml t Ht (mem c1) res out _ (c1 <| c_buf := out |>) Hb4 Hle Hg Hz1 Hap2) as (c2 & E2 & Hv2); [by split_and!|].
  exists c1, c2. split_and!; [done|done|]. eapply view_ext; [|exact Hv2]. intros k Hk. cbv beta.
  destruct (plain_facts t Ht) as (_ & _ & _ & _ & Hroom & _ & Hh & Hs).
  unfold kept_byte. destruct (Z.ltb_spec k (header_size_of t)) as [Hlt|Hge].
  - rewrite land_255 by (apply Ha; lia). rewrite <-(header_bytes t m data k a) by (done || lia).
    rewrite (fields_below _ _ _ (header_size_of t)) by (lia || by apply plain_beyond). by rewrite (proj2 (Z.ltb_lt _ _)) by lia.
  - assert (Hall := fields_back_all t a g0 (fun k => if k <? header_size_of t then header_byte t k else 0) Ht Ha).
    rewrite Forall_forall in Hall. symmetry. apply Hall.
    + intros j Hj. by rewrite (proj2 (Z.ltb_ge _ _)) by lia.
    + apply list_elem_of_In, in_map_iff. exists (Z.to_nat (k - header_size_of t)). rewrite in_seq. lia.
Qed.

(** The bits the specification of the descriptors defines, byte by byte; of
    the information bytes of I/O and memory ranges it defines bit 0 only. *)
Definition defined_bits (t : uacpi_aml_resource) : list Z :=
  match t with
  | UACPI_AML_RESOURCE_IO => [255; 1; 255; 255; 255; 255; 255; 255]
  | UACPI_AML_RESOURCE_FIXED_IO => [255; 255; 255; 255]
  | UACPI_AML_RESOURCE_FIXED_DMA => [255; 255; 255; 255; 255; 255]
  | UACPI_AML_RESOURCE_MEMORY24 => [255; 255; 255; 1] ++ replicate 8 255
  | UACPI_AML_RESOURCE_GENERIC_REGISTER => replicate 15 255
  | UACPI_AML_RESOURCE_MEMORY32 => [255; 255; 255; 1] ++ replicate 16 255
  | UACPI_AML_RESOURCE_FIXED_MEMORY32 => [255; 255; 255; 1] ++ replicate 8 255
  | _ => []
  end.
Definition descriptor_size (t : uacpi_aml_resource) : Z := Z.of_nat (length (defined_bits t)).

Lemma room_is_size t : t ∈ plain_types -> room_of t = descriptor_size t.
Proof. intros Ht. repeat (apply elem_of_cons in Ht as [->|Ht]; [vm_compute; reflexivity|]). by apply elem_of_nil in Ht. Qed.

(** The fields of the programs cover them all. *)
Lemma kept_is_defined t : t ∈ plain_types -> map (fun k => kept_byte t (Z.of_nat k)) (seq 0 (Z.to_nat (room_of t))) = defined_bits t.
Proof. intros Ht. repeat (apply elem_of_cons in Ht as [->|Ht]; [vm_compute; reflexivity|]). by apply elem_of_nil in Ht. Qed.
Lemma kept_byte_defined t k : t ∈ plain_types -> 0 <= k < room_of t -> kept_byte t k = nth (Z.to_nat k) (defined_bits t) 0.
Proof.
  intros Ht Hk. rewrite <- (kept_is_defined t Ht). symmetry. apply nth_error_nth. rewrite nth_error_map, nth_error_seq.
  rewrite (proj2 (Nat.ltb_lt _ _)) by lia. cbn. f_equal. f_equal. lia.
Qed.

(** C4: A descriptor of an I/O range, a fixed one, a fixed DMA channel, a
    memory range of any of the three kinds or a generic register, of the size
    its type has, goes to native form and back, in memory where the two forms
    are apart and the second copy is zeroed: both conversions run, and the descriptor that comes out has
    every bit of the one that went in that its specification defines (see
    [defined_bits]); the reserved ones are 0. *)
Theorem plain_descriptor_roundtrip (t : uacpi_aml_resource) (m : memory) (data res out : Z) (a : Z -> Z) (c : conv) :
  t ∈ plain_types -> view m data (descriptor_size t) a -> (forall j, 0 <= j < descriptor_size t -> 0 <= a j < 256) ->
  type_at m data = t -> size_at m data = aml_size (aml_resources t) ->
  mapped_bytes m res (native_size (aml_resources t)) -> view m out (descriptor_size t) (fun _ => 0) ->
  data + descriptor_size t <= res \/ res + native_size (aml_resources t) <= data ->
  out + descriptor_size t <= res \/ res + native_size (aml_resources t) <= out -> ready m res c ->
  exists c1 c2, do_aml_resource_to_native data (aml_size (aml_resources t)) (aml_resources t) c = Some (UACPI_ITERATION_DECISION_CONTINUE, c1) /\
    do_native_resource_to_aml res (c1 <| c_buf := out |>) = Some (UACPI_ITERATION_DECISION_CONTINUE, c2) /\
    view (mem c2) out (descriptor_size t) (fun k => Z.land (a k) (nth (Z.to_nat k) (defined_bits t) 0)).
Proof.
  intros Ht. rewrite <- (room_is_size t Ht). intros Hv Ha Hty Hsz Hres Hz Hap1 Hap2 Hc.
  destruct (plain_roundtrip_spec t m data res out a c) as (c1 & c2 & E1 & E2 & Hv2); [done..|].
  exists c1, c2. split_and!; [done|done|]. eapply view_ext; [|exact Hv2]. intros k Hk. cbv beta. by rewrite kept_byte_defined.
Qed.

(** A fixed I/O range, at 0, with room for its native form at 16 and for the
    copy at 32. *)
Definition fixed_io : memory := mem_of 0 (([0x4B; 0x78; 0x03; 0x08] ++ replicate 36 0)).
Definition fixed_io_byte (k : Z) : Z := byte_of fixed_io k.

Lemma plain_descriptor_roundtrip_witness :
  exists c1 c2, do_aml_resource_to_native 0 3 (aml_resources UACPI_AML_RESOURCE_FIXED_IO) (Conv fixed_io 16 UACPI_STATUS_OK false)
      = Some (UACPI_ITERATION_DECISION_CONTINUE, c1) /\
    do_native_resource_to_aml 16 (c1 <| c_buf := 32 |>) = Some (UACPI_ITERATION_DECISION_CONTINUE, c2) /\
    view (mem c2) 32 4 (fun k => Z.land (fixed_io_byte k) (nth (Z.to_nat k) [255; 255; 255; 255] 0)).
Proof.
  assert (Hb : bytes_at fixed_io 0 40) by (apply (bytes_atb_spec _ _ 40); vm_compute; reflexivity).
  assert (Hv : forall p n, 0 <= p -> p + n <= 40 -> view fixed_io p n (fun k => byte_of fixed_io (p + k))).
  { intros p n Hp Hn k Hk. destruct (byte_at fixed_io 0 40 (p + k) Hb) as (b & E & _); [lia|]. unfold byte_of. by rewrite E. }
  apply (plain_descriptor_roundtrip UACPI_AML_RESOURCE_FIXED_IO fixed_io 0 16 32 fixed_io_byte (Conv fixed_io 16 UACPI_STATUS_OK false)).
  - by apply (bool_decide_unpack _).
  - apply (Hv 0); [lia|]. by vm_compute.
  - intros j Hj. change (descriptor_size UACPI_AML_RESOURCE_FIXED_IO) with 4 in Hj. destruct (byte_at fixed_io 0 40 j Hb) as (b & E & Hr); [lia|].
    unfold fixed_io_byte, byte_of. by rewrite E.
  - vm_compute. reflexivity.
  - vm_compute. reflexivity.
  - eapply view_mapped; [apply (Hv 0 40); lia|lia|]. by vm_compute.
  - change (descriptor_size UACPI_AML_RESOURCE_FIXED_IO) with 4. eapply view_ext; [|apply (Hv 32 4); lia]. intros k Hk.
    assert (k = 0 \/ k = 1 \/ k = 2 \/ k = 3) as [-> | [-> | [-> | ->]]] by lia; vm_compute; reflexivity.
  - left. by vm_compute.
  - right. by vm_compute.
  - by split_and!.
Defined.
