(* ===== verification/X86.v ===== *)
(** * Processor tables: [arch/x86_64/idt], [arch/x86_64/gdt]

    The interrupt descriptor table with the registration of interrupt lines,
    and the segment table with the task segment, as [main.cpp] sets them up.
    The [_bytes] functions lay
    the packed structures out as the processor reads them.  Addresses the
    linker chooses are parameters; [malloc] and [free] are those of
    [Alloc]. *)
From S2P Require Import Prelude FieldIo Alloc.

(** ** Segment descriptors, [gdt.hpp] and [gdt.cpp] *)

Definition SEL_KCODE : Z := 8.
Definition SEL_KDATA : Z := 16.
Definition SEL_UDATA : Z := Z.lor 24 3.
Definition SEL_UCODE : Z := Z.lor 32 3.
Definition SEL_TSS : Z := 40.

Record GDTEntry := {
  limit_low : Z;
  base_low : Z;
  base_mid : Z;
  access : Z;
  granularity : Z;
  base_high : Z;
}.

Record TSSEntry := {
  tss_limit_low : Z;
  tss_base_low : Z;
  tss_base_mid1 : Z;
  tss_access : Z;
  tss_granularity : Z;
  tss_base_mid2 : Z;
  tss_base_high : Z;
  tss_reserved : Z;
}.

Record GDT := MkGDT {
  null : GDTEntry;
  kcode : GDTEntry;
  kdata : GDTEntry;
  udata : GDTEntry;
  ucode : GDTEntry;
  tss : TSSEntry;
}.
#[export] Instance settable_GDT : Settable GDT := fun g =>
  MkGDT (null g) (kcode g) (kdata g) (udata g) (ucode g) (tss g).

Record GDTR := { gdtr_limit : Z; gdtr_base : Z }.

Record TSS := MkTSS {
  reserved0 : Z;
  tss_rsp : list Z;
  reserved1 : Z;
  tss_ist : list Z;
  reserved2 : Z;
  reserved3 : Z;
  iopb_offset : Z;
}.
#[export] Instance settable_TSS : Settable TSS := fun t =>
  MkTSS (reserved0 t) (tss_rsp t) (reserved1 t) (tss_ist t) (reserved2 t) (reserved3 t) (iopb_offset t).

(** The packed layouts. *)
Definition segment_bytes (e : GDTEntry) : list Z :=
  to_le 2 (limit_low e) ++ to_le 2 (base_low e) ++ to_le 1 (base_mid e) ++ to_le 1 (access e)
  ++ to_le 1 (granularity e) ++ to_le 1 (base_high e).
Definition tss_entry_bytes (e : TSSEntry) : list Z :=
  to_le 2 (tss_limit_low e) ++ to_le 2 (tss_base_low e) ++ to_le 1 (tss_base_mid1 e)
  ++ to_le 1 (tss_access e) ++ to_le 1 (tss_granularity e) ++ to_le 1 (tss_base_mid2 e)
  ++ to_le 4 (tss_base_high e) ++ to_le 4 (tss_reserved e).
Definition gdt_bytes (g : GDT) : list Z :=
  segment_bytes (null g) ++ segment_bytes (kcode g) ++ segment_bytes (kdata g)
  ++ segment_bytes (udata g) ++ segment_bytes (ucode g) ++ tss_entry_bytes (tss g).
Definition tss_bytes (t : TSS) : list Z :=
  to_le 4 (reserved0 t) ++ mjoin (to_le 8 <$> tss_rsp t) ++ to_le 8 (reserved1 t)
  ++ mjoin (to_le 8 <$> tss_ist t) ++ to_le 8 (reserved2 t) ++ to_le 2 (reserved3 t)
  ++ to_le 2 (iopb_offset t).
Definition sizeof_GDT : Z := 56.
Definition sizeof_TSS : Z := 104.

Definition default_gdt : GDT := {|
  null := Build_GDTEntry 0 0 0 0x00 0x00 0;
  kcode := Build_GDTEntry 0 0 0 0x9A 0xA0 0;
  kdata := Build_GDTEntry 0 0 0 0x92 0xA0 0;
  udata := Build_GDTEntry 0 0 0 0xF2 0xA0 0;
  ucode := Build_GDTEntry 0 0 0 0xFA 0xA0 0;
  tss := Build_TSSEntry 0 0 0 0x89 0x00 0 0 0;
|}.
Definition zero_tss : TSS := MkTSS 0 [0; 0; 0] 0 [0; 0; 0; 0; 0; 0; 0] 0 0 0.

(** Where the linker puts the tables and the stack. *)
Class TableLayout := {
  s_gdt_at : Z;
  s_tss_at : Z;
  idt_table_at : Z;
  kernel_stack_at : Z;
}.
Definition sizeof_kernel_stack : Z := 8192.

(** The tables, and what [lgdt] and [ltr] gave the processor. *)
Record gdt_state := GdtState {
  s_gdt : GDT;
  s_gdtr : GDTR;
  s_tss : TSS;
  gdtr : option GDTR;
  tr : option Z;
}.
#[export] Instance settable_gdt_state : Settable gdt_state := fun s =>
  GdtState (s_gdt s) (s_gdtr s) (s_tss s) (gdtr s) (tr s).

Definition gdt_load (s : gdt_state) : gdt_state := s <| gdtr := Some (s_gdtr s) |>.
Definition tss_load (s : gdt_state) : gdt_state := s <| tr := Some 40 |>.

Section Gdt.
Context `{TableLayout}.

Definition install_tss (s : gdt_state) : gdt_state :=
  let base := s_tss_at in
  let limit := u16 (sizeof_TSS - 1) in
  s <| s_gdt := (s_gdt s) <| tss := {|
    tss_limit_low := Z.land limit 0xFFFF;
    tss_base_low := Z.land base 0xFFFF;
    tss_base_mid1 := Z.land (Z.shiftr base 16) 0xFF;
    tss_access := 0x89;
    tss_granularity := 0x00;
    tss_base_mid2 := Z.land (Z.shiftr base 24) 0xFF;
    tss_base_high := Z.land (Z.shiftr base 32) 0xFFFFFFFF;
    tss_reserved := 0;
  |} |> |>.

Definition set_rsp (level rsp : Z) (s : gdt_state) : gdt_state :=
  if (0 <=? level) && (level <=? 2)
  then s <| s_tss := (s_tss s) <| tss_rsp := <[Z.to_nat level := rsp]> (tss_rsp (s_tss s)) |> |>
  else s.

Definition set_ist (index rsp : Z) (s : gdt_state) : gdt_state :=
  if (1 <=? index) && (index <=? 7)
  then s <| s_tss := (s_tss s) <| tss_ist := <[Z.to_nat (index - 1) := rsp]> (tss_ist (s_tss s)) |> |>
  else s.

Definition gdt_initialise (s : gdt_state) : gdt_state :=
  let s := s <| s_gdt := default_gdt |> in
  let top := kernel_stack_at + sizeof_kernel_stack in
  let s := s <| s_tss := zero_tss <| tss_rsp := [top; 0; 0] |> <| tss_ist := [top; 0; 0; 0; 0; 0; 0] |>
                                  <| iopb_offset := sizeof_TSS |> |> in
  let s := install_tss s in
  let s := s <| s_gdtr := {| gdtr_limit := sizeof_GDT - 1; gdtr_base := s_gdt_at |} |> in
  tss_load (gdt_load s).

Definition gdt_reload (s : gdt_state) : gdt_state := tss_load (gdt_load s).

(** The stack pointer of the caller is [current]. *)
Definition update_stack (current rsp : Z) (s : gdt_state) : gdt_state :=
  let rsp := if rsp =? 0 then current else rsp in
  s <| s_tss := (s_tss s) <| tss_rsp := <[0%nat := rsp]> (tss_rsp (s_tss s)) |>
                          <| tss_ist := <[0%nat := rsp]> (tss_ist (s_tss s)) |> |>.

Definition get_base : Z := s_gdt_at.
Definition get_tss_base : Z := s_tss_at.
End Gdt.

(** ** Interrupt descriptors and lines, [idt.hpp] and [idt.cpp] *)

Record idt_entry_t := {
  isr_offset_low : Z;
  gdt_selector : Z;
  ist : Z;
  flags : Z;
  isr_offset_middle : Z;
  isr_offset_high : Z;
  always_zero : Z;
}.
Definition zero_gate : idt_entry_t := Build_idt_entry_t 0 0 0 0 0 0 0.

Definition gate_bytes (e : idt_entry_t) : list Z :=
  to_le 2 (isr_offset_low e) ++ to_le 2 (gdt_selector e) ++ to_le 1 (ist e) ++ to_le 1 (flags e)
  ++ to_le 2 (isr_offset_middle e) ++ to_le 4 (isr_offset_high e) ++ to_le 4 (always_zero e).
Definition idt_bytes (t : list idt_entry_t) : list Z := mjoin (gate_bytes <$> t).
Definition sizeof_idt : Z := 4096.

Record idtr_t := { idtr_limit : Z; idtr_base : Z }.

Record irq_entry := IrqEntry {
  protection_key : Z;
  irq : Z;
  handler : Z;
  used : bool;
  masked : bool;
}.
#[export] Instance settable_irq_entry : Settable irq_entry := fun e =>
  IrqEntry (protection_key e) (irq e) (handler e) (used e) (masked e).

Record idt_state := IdtState {
  idt_table : list idt_entry_t;
  idtr : idtr_t;
  idt_set_vectors : list bool;
  irq_table : list irq_entry;
  loaded_idtr : option idtr_t;
  idt_heap : heap;
}.
#[export] Instance settable_idt_state : Settable idt_state := fun s =>
  IdtState (idt_table s) (idtr s) (idt_set_vectors s) (irq_table s) (loaded_idtr s) (idt_heap s).

(** The initialiser of [irq_table] gives its first element only; the others
    are zero, so not masked. *)
Definition initial_irq_table : list irq_entry :=
  IrqEntry 0 0 0 false true :: replicate 15 (IrqEntry 0 0 0 false false).
Definition initial_idt (h : heap) : idt_state :=
  IdtState (replicate 256 zero_gate) (Build_idtr_t 0 0) (replicate 256 false) initial_irq_table None h.

Section Idt.
Context `{TableLayout}.
(** The stubs of [idt.asm] and the addresses of [irq_stub_table]. *)
Context (exception_stub_table irq_stub_table : Z -> Z).

Definition register_isr (vector isr_handler : Z) (user_interrupt : bool) (s : idt_state) : idt_state :=
  let e := {|
    isr_offset_low := Z.land isr_handler 0xFFFF;
    gdt_selector := 0x08;
    ist := 1;
    flags := if user_interrupt then 0xEE else 0x8E;
    isr_offset_middle := Z.land (Z.shiftr isr_handler 16) 0xFFFF;
    isr_offset_high := Z.land (Z.shiftr isr_handler 32) 0xFFFFFFFF;
    always_zero := 0;
  |} in
  s <| idt_table := <[Z.to_nat vector := e]> (idt_table s) |>
    <| idt_set_vectors := <[Z.to_nat vector := true]> (idt_set_vectors s) |>.

Definition load_idt (s : idt_state) : idt_state := s <| loaded_idtr := Some (idtr s) |>.

Fixpoint register_stubs (n : nat) (i : Z) (stub : Z -> Z) (s : idt_state) : idt_state :=
  match n with
  | O => s
  | S n => register_stubs n (i + 1) stub (register_isr (u8 i) (stub i) false s)
  end.

Definition idt_initialise (s : idt_state) : idt_state :=
  let s := register_stubs (iters 0 0x20) 0 exception_stub_table s in
  let s := register_stubs (iters 0x20 0x30) 0x20 (fun i => irq_stub_table (i - 0x20)) s in
  let s := s <| idtr := {| idtr_limit := sizeof_idt - 1; idtr_base := idt_table_at |} |> in
  load_idt s.
End Idt.

Section Irqs.
Context `{Allocator}.

Definition line (n : Z) (s : idt_state) : irq_entry :=
  default (IrqEntry 0 0 0 false false) (irq_table s !! Z.to_nat n).
Definition set_line (n : Z) (e : irq_entry) (s : idt_state) : idt_state :=
  s <| irq_table := <[Z.to_nat n := e]> (irq_table s) |>.

Definition register_irq (n h : Z) : M idt_state Z := fun s =>
  if 16 <=? n then Some (0, s) else
  if h =? 0 then Some (0, s) else
  if used (line n s) then Some (0, s) else
  let '(key, hp) := malloc 1 (idt_heap s) in
  let s := set_line n (IrqEntry key n h true true) (s <| idt_heap := hp |>) in
  Some (protection_key (line n s), s).

Definition remove_irq (n key : Z) : M idt_state unit := fun s =>
  if 16 <=? n then Some (tt, s) else
  if key =? 0 then Some (tt, s) else
  if negb (used (line n s)) then Some (tt, s) else
  if protection_key (line n s) =? key then
    hp ← free (protection_key (line n s)) (idt_heap s);
    Some (tt, set_line n (IrqEntry 0 0 0 false true) (s <| idt_heap := hp |>))
  else Some (tt, s).

Definition unmask_irq (n key : Z) (s : idt_state) : idt_state :=
  if 16 <=? n then s else
  if negb (protection_key (line n s) =? key) then s else
  set_line n ((line n s) <| masked := false |>) s.

Definition mask_irq (n key : Z) (s : idt_state) : idt_state :=
  if 16 <=? n then s else
  if negb (protection_key (line n s) =? key) then s else
  set_line n ((line n s) <| masked := true |>) s.

(** [irq_stub_handler_n]: the call it makes, of a handler with the line and
    the context. *)
Definition irq_stub_handler (n ctx : Z) (s : idt_state) : option (Z * Z * Z) :=
  if negb (used (line n s)) then None else
  if masked (line n s) then None else
  Some (handler (line n s), n, ctx).
End Irqs.

(** ** Start-up, [main.cpp] *)

(** The stack for the interrupts, in the block that [main] allocates. *)
Definition ist1_top (ist1_alloc : Z) : Z := Z.ldiff (u64 (ist1_alloc + 65536)) 0xF.

(** The tables, as [main] sets them up. *)
Definition main_gdt `{TableLayout} (current ist1_alloc : Z) (g : gdt_state) : gdt_state :=
  let g := gdt_initialise g in
  let g := update_stack current 0 g in
  set_ist 1 (ist1_top ist1_alloc) g.
Definition main_idt `{TableLayout} (exc irqs : Z -> Z) (i : idt_state) : idt_state := idt_initialise exc irqs i.
