(* ===== verification/X86Spec.v ===== *)
(** * What the processor finds in the tables, and who owns a line

    [deliver] is the processor's side of an interrupt, from the manual: it
    reads the gate, the code segment and the stack through the registers
    that [lidt], [lgdt] and [ltr] set.  The tables of the two initialisers
    lead it to the stubs.  A registered line belongs to its key. *)
From S2P Require Import Prelude BitIo FieldIo FieldIoSpec Alloc X86.

Lemma le_to_le w v : le (to_le w v) = wrap (8 * Z.of_nat w) v.
Proof.
  revert v. induction w as [|w IH]; intros v; cbn [to_le le].
  - unfold wrap. by rewrite Z.mod_1_r.
  - rewrite IH. unfold wrap. rewrite Z.shiftr_div_pow2 by lia.
    replace (2 ^ (8 * Z.of_nat (S w))) with (2 ^ 8 * 2 ^ (8 * Z.of_nat w))
      by (rewrite <- Z.pow_add_r by lia; f_equal; lia).
    rewrite Z.rem_mul_r by (pose proof (pow2_pos (8 * Z.of_nat w)); lia). lia.
Qed.

(** ** Memory and the processor *)

(** Memory as the areas that hold something: an address and bytes. *)
Abbreviation area := (Z * list Z)%type.
Fixpoint load (a : Z) (n : nat) (mem : list area) : option (list Z) :=
  match mem with
  | [] => None
  | (b, bs) :: mem =>
      if (b <=? a) && (a + Z.of_nat n <=? b + Z.of_nat (length bs))
      then Some (take n (drop (Z.to_nat (a - b)) bs))
      else load a n mem
  end.
Definition field (bs : list Z) (i n : nat) : Z := le (take n (drop i bs)).

(** The base of a system descriptor. *)
Definition system_base (d : list Z) : Z :=
  field d 2 2 + 2 ^ 16 * field d 4 1 + 2 ^ 24 * field d 7 1 + 2 ^ 32 * field d 8 4.
Definition gate_target (g : list Z) : Z := field g 0 2 + 2 ^ 16 * field g 6 2 + 2 ^ 32 * field g 8 4.

(** The descriptor a selector names, within the limit of the table. *)
Definition descriptor (mem : list area) (r : GDTR) (sel : Z) (n : nat) : option (list Z) :=
  let i := 8 * (sel / 8) in
  if i + Z.of_nat n - 1 <=? gdtr_limit r then load (gdtr_base r + i) n mem else None.

(** Interrupt [v] with an interrupt gate and a stack of the task segment:
    the instruction, the code selector and the stack pointer it goes to;
    nothing where the processor raises a fault instead. *)
Definition deliver (mem : list area) (ir : option idtr_t) (gr : option GDTR) (t : option Z) (v : Z)
    : option (Z * Z * Z) :=
  ir ← ir; gr ← gr; t ← t;
  guard (16 * v + 15 <= idtr_limit ir);;
  g ← load (idtr_base ir + 16 * v) 16 mem;
  let attr := field g 5 1 in
  guard (Z.testbit attr 7 = true /\ Z.land attr 0x1F = 0x0E);;
  let sel := field g 2 2 in
  cs ← descriptor mem gr sel 8;
  guard (Z.land (field cs 5 1) 0x98 = 0x98 /\ Z.testbit (field cs 6 1) 5 = true);;
  td ← descriptor mem gr t 16;
  guard (Z.testbit (field td 5 1) 7 = true /\ Z.land (field td 5 1) 0x1D = 9);;
  let i := Z.land (field g 4 1) 7 in
  guard (i <> 0 /\ 28 + 8 * i + 7 <= field td 0 2 + 2 ^ 16 * Z.land (field td 6 1) 15);;
  rsp ← load (system_base td + 28 + 8 * i) 8 mem;
  Some (gate_target g, sel, le rsp).

Lemma load_hit a n mem b bs :
  b <= a -> a + Z.of_nat n <= b + Z.of_nat (length bs) ->
  load a n ((b, bs) :: mem) = Some (take n (drop (Z.to_nat (a - b)) bs)).
Proof.
  intros Hb He. cbn [load]. by rewrite (proj2 (Z.leb_le _ _) Hb), (proj2 (Z.leb_le _ _) He).
Qed.

Lemma load_miss a n mem b bs :
  a < b \/ b + Z.of_nat (length bs) < a + Z.of_nat n -> load a n ((b, bs) :: mem) = load a n mem.
Proof.
  intros H. cbn [load]. destruct (Z.leb_spec b a), (Z.leb_spec (a + Z.of_nat n) (b + Z.of_nat (length bs)));
    cbn [andb]; try done; lia.
Qed.

(** ** Gates *)

Lemma length_gate_bytes e : length (gate_bytes e) = 16%nat.
Proof. done. Qed.

Lemma length_idt_bytes t : length (idt_bytes t) = (16 * length t)%nat.
Proof.
  unfold idt_bytes. induction t as [|e t IH]; [done|].
  change (mjoin (gate_bytes <$> e :: t)) with (gate_bytes e ++ mjoin (gate_bytes <$> t)).
  rewrite length_app, IH, length_gate_bytes. cbn [length]. lia.
Qed.

Lemma idt_bytes_gate t v e :
  t !! v = Some e -> take 16 (drop (16 * v) (idt_bytes t)) = gate_bytes e.
Proof.
  unfold idt_bytes. revert v. induction t as [|x t IH]; intros [|v] Hv; try done.
  - injection Hv as ->. done.
  - change (mjoin (gate_bytes <$> x :: t)) with (gate_bytes x ++ mjoin (gate_bytes <$> t)).
    replace (16 * S v)%nat with (length (gate_bytes x) + 16 * v)%nat by (rewrite length_gate_bytes; lia).
    rewrite drop_app_add'; [by apply IH | done].
Qed.

(** The fields of the bytes are the fields of the structure. *)
Lemma gate_fields e :
  field (gate_bytes e) 0 2 = u16 (isr_offset_low e) /\ field (gate_bytes e) 2 2 = u16 (gdt_selector e) /\
  field (gate_bytes e) 4 1 = u8 (ist e) /\ field (gate_bytes e) 5 1 = u8 (flags e) /\
  field (gate_bytes e) 6 2 = u16 (isr_offset_middle e) /\ field (gate_bytes e) 8 4 = u32 (isr_offset_high e).
Proof.
  destruct e as [a b c d f g h]. unfold field. repeat split; cbn [isr_offset_low gdt_selector ist flags isr_offset_middle isr_offset_high];
    [exact (le_to_le 2 a) | exact (le_to_le 2 b) | exact (le_to_le 1 c) | exact (le_to_le 1 d) | exact (le_to_le 2 f) | exact (le_to_le 4 g)].
Qed.

Lemma tss_entry_fields e :
  field (tss_entry_bytes e) 0 2 = u16 (tss_limit_low e) /\ field (tss_entry_bytes e) 2 2 = u16 (tss_base_low e) /\
  field (tss_entry_bytes e) 4 1 = u8 (tss_base_mid1 e) /\ field (tss_entry_bytes e) 5 1 = u8 (tss_access e) /\
  field (tss_entry_bytes e) 6 1 = u8 (tss_granularity e) /\ field (tss_entry_bytes e) 7 1 = u8 (tss_base_mid2 e) /\
  field (tss_entry_bytes e) 8 4 = u32 (tss_base_high e).
Proof.
  destruct e as [a b c d f g h i]. unfold field.
  repeat split; cbn [tss_limit_low tss_base_low tss_base_mid1 tss_access tss_granularity tss_base_mid2 tss_base_high];
    [exact (le_to_le 2 a) | exact (le_to_le 2 b) | exact (le_to_le 1 c) | exact (le_to_le 1 d) | exact (le_to_le 1 f) | exact (le_to_le 1 g) | exact (le_to_le 4 h)].
Qed.

Lemma land_mask z k : 0 <= k -> Z.land z (Z.ones k) = wrap k z.
Proof. intros. by apply Z.land_ones. Qed.

(** An address is its four parts. *)
Lemma address_parts a : 0 <= a < 2 ^ 64 ->
  u16 (Z.land a 0xFFFF) + 2 ^ 16 * u16 (Z.land (Z.shiftr a 16) 0xFFFF)
  + 2 ^ 32 * u32 (Z.land (Z.shiftr a 32) 0xFFFFFFFF) = a.
Proof.
  intros Ha. change 0xFFFF with (Z.ones 16). change 0xFFFFFFFF with (Z.ones 32).
  rewrite !land_mask, !wrap_wrap, !Z.shiftr_div_pow2 by lia. unfold wrap.
  Z.to_euclidean_division_equations; lia.
Qed.

Lemma base_parts a : 0 <= a < 2 ^ 64 ->
  u16 (Z.land a 0xFFFF) + 2 ^ 16 * u8 (Z.land (Z.shiftr a 16) 0xFF) + 2 ^ 24 * u8 (Z.land (Z.shiftr a 24) 0xFF)
  + 2 ^ 32 * u32 (Z.land (Z.shiftr a 32) 0xFFFFFFFF) = a.
Proof.
  intros Ha. change 0xFFFF with (Z.ones 16). change 0xFFFFFFFF with (Z.ones 32). change 0xFF with (Z.ones 8).
  rewrite !land_mask, !wrap_wrap, !Z.shiftr_div_pow2 by lia. unfold wrap.
  Z.to_euclidean_division_equations; lia.
Qed.

(** ** The gates that [initialise] writes *)

Definition gate_of (h : Z) (user : bool) : idt_entry_t := {|
  isr_offset_low := Z.land h 0xFFFF; gdt_selector := 8; ist := 1; flags := if user then 0xEE else 0x8E;
  isr_offset_middle := Z.land (Z.shiftr h 16) 0xFFFF; isr_offset_high := Z.land (Z.shiftr h 32) 0xFFFFFFFF;
  always_zero := 0 |}.

Lemma gate_of_target h user : 0 <= h < 2 ^ 64 -> gate_target (gate_bytes (gate_of h user)) = h.
Proof.
  intros Hh. unfold gate_target. destruct (gate_fields (gate_of h user)) as (-> & _ & _ & _ & -> & ->).
  by apply address_parts.
Qed.

Lemma register_stubs_table n i stub s v :
  0 <= i -> i + Z.of_nat n <= 256 -> 0 <= v -> length (idt_table s) = 256%nat ->
  let s' := register_stubs n i stub s in
  length (idt_table s') = 256%nat /\
  idt_table s' !! Z.to_nat v =
    (if (i <=? v) && (v <? i + Z.of_nat n) then Some (gate_of (stub v) false) else idt_table s !! Z.to_nat v).
Proof.
  revert i s. induction n as [|n IH]; intros i s Hi Hn Hv0 Hl s'; subst s'; cbn [register_stubs].
  { split; [done|]. case_if; done || lia. }
  assert (Hu : u8 i = i) by (apply u8_small; lia).
  set (s1 := register_isr (u8 i) (stub i) false s).
  assert (Ht : idt_table s1 = <[Z.to_nat i := gate_of (stub i) false]> (idt_table s)).
  { subst s1. by rewrite Hu. }
  destruct (IH (i + 1) s1) as [Hl' Hv]; [lia.. | by rewrite Ht, length_insert |]. clearbody s1.
  split; [done|]. rewrite Hv, Ht. destruct (Z.eq_dec v i) as [->|Hne].
  - repeat case_if; try lia. apply list_lookup_insert_eq. lia.
  - rewrite list_lookup_insert_ne by lia. repeat case_if; try done; lia.
Qed.

Lemma initialise_gates `{TableLayout} exc irqs s v e :
  length (idt_table s) = 256%nat -> 0 <= v -> idt_table (idt_initialise exc irqs s) !! Z.to_nat v = Some e ->
  e = if v <? 0x20 then gate_of (exc v) false
      else if v <? 0x30 then gate_of (irqs (v - 0x20)) false
      else default zero_gate (idt_table s !! Z.to_nat v).
Proof.
  intros Hl Hv. unfold idt_initialise. cbn -[register_stubs iters].
  change (iters 0 32) with 32%nat. change (iters 32 48) with 16%nat.
  set (s1 := register_stubs 32 0 exc s).
  destruct (register_stubs_table 32 0 exc s v) as [Hl1 H1]; [lia..|done|].
  destruct (register_stubs_table 16 32 (fun i => irqs (i - 32)) s1 v) as [_ H2]; [lia..|done|].
  cbn beta in H2. change (Z.of_nat 32) with 32 in *. change (Z.of_nat 16) with 16 in *. rewrite H2. fold s1 in H1. rewrite H1. repeat case_if; try lia; try congruence; by intros ->.
Qed.

(** ** From the gate to the stub *)

Definition tables_apart `{TableLayout} : Prop :=
  0 <= s_tss_at < 2 ^ 64 /\ 0 <= s_gdt_at < 2 ^ 64 /\ 0 <= idt_table_at < 2 ^ 64 /\
  (idt_table_at + sizeof_idt <= s_gdt_at \/ s_gdt_at + sizeof_GDT <= idt_table_at) /\
  (idt_table_at + sizeof_idt <= s_tss_at \/ s_tss_at + sizeof_TSS <= idt_table_at) /\
  (s_gdt_at + sizeof_GDT <= s_tss_at \/ s_tss_at + sizeof_TSS <= s_gdt_at).

(** What the tables put in memory. *)
Definition table_memory `{TableLayout} (g : gdt_state) (i : idt_state) : list area :=
  [(idt_table_at, idt_bytes (idt_table i)); (s_gdt_at, gdt_bytes (s_gdt g)); (s_tss_at, tss_bytes (s_tss g))].

(** The interrupt stack is aligned and lies in its block. *)
Lemma ist1_top_in_block p : 0 <= p < 2 ^ 63 ->
  ist1_top p mod 16 = 0 /\ p + 65520 < ist1_top p <= p + 65536.
Proof.
  intros Hp. unfold ist1_top. rewrite u64_small by lia. change 0xF with (Z.ones 4).
  rewrite Z.ldiff_ones_r, Z.shiftl_mul_pow2, Z.shiftr_div_pow2 by lia. Z.to_euclidean_division_equations; lia.
Qed.

Section Delivery.
Context `{TableLayout} (exc irqs : Z -> Z) (current ist1_alloc : Z) (g : gdt_state) (hp : heap).
Hypothesis Happart : tables_apart.
Hypothesis Hexc : forall v, 0 <= exc v < 2 ^ 64.
Hypothesis Hirqs : forall v, 0 <= irqs v < 2 ^ 64.
Hypothesis Hist : 0 <= ist1_alloc < 2 ^ 63.

Let top := ist1_top ist1_alloc.
Let gd := main_gdt current ist1_alloc g.
Let it := main_idt exc irqs (initial_idt hp).
Let mem := table_memory gd it.

Lemma started_idt_length : length (idt_bytes (idt_table it)) = 4096%nat.
Proof.
  rewrite length_idt_bytes. unfold it, main_idt, idt_initialise. cbn -[register_stubs iters initial_idt Nat.mul].
  edestruct (register_stubs_table (iters 32 48) 32 (fun i => irqs (i - 32))) as [-> _]; done.
Qed.

Lemma load_idt a n : idt_table_at <= a -> a + Z.of_nat n <= idt_table_at + 4096 ->
  load a n mem = Some (take n (drop (Z.to_nat (a - idt_table_at)) (idt_bytes (idt_table it)))).
Proof. intros. apply load_hit; rewrite ?started_idt_length; lia. Qed.

Lemma load_gdt a n : (0 < n)%nat -> s_gdt_at <= a -> a + Z.of_nat n <= s_gdt_at + 56 ->
  load a n mem = Some (take n (drop (Z.to_nat (a - s_gdt_at)) (gdt_bytes (s_gdt gd)))).
Proof.
  intros Hn Ha He. destruct Happart as (_ & _ & _ & Hi & _). unfold sizeof_idt, sizeof_GDT in Hi.
  unfold mem, table_memory. rewrite load_miss by (rewrite started_idt_length; lia).
  apply load_hit; [lia|]. exact He.
Qed.

Lemma load_tss a n : (0 < n)%nat -> s_tss_at <= a -> a + Z.of_nat n <= s_tss_at + 104 ->
  load a n mem = Some (take n (drop (Z.to_nat (a - s_tss_at)) (tss_bytes (s_tss gd)))).
Proof.
  intros Hn Ha He. destruct Happart as (_ & _ & _ & _ & Hi & Hg). unfold sizeof_idt, sizeof_GDT, sizeof_TSS in Hi, Hg.
  unfold mem, table_memory. rewrite load_miss by (rewrite started_idt_length; lia).
  rewrite load_miss by (change (length (gdt_bytes _)) with 56%nat; lia).
  apply load_hit; [lia|]. exact He.
Qed.

Lemma load_code_segment : descriptor mem (Build_GDTR 55 s_gdt_at) SEL_KCODE 8
  = Some (segment_bytes (kcode default_gdt)).
Proof.
  unfold descriptor. cbn [gdtr_limit gdtr_base]. change (8 * (SEL_KCODE / 8)) with 8. cbv [Z.leb].
  rewrite load_gdt by lia. replace (s_gdt_at + 8 - s_gdt_at) with 8 by lia. done.
Qed.

Lemma load_task_segment : descriptor mem (Build_GDTR 55 s_gdt_at) SEL_TSS 16
  = Some (tss_entry_bytes (tss (s_gdt gd))).
Proof.
  unfold descriptor. cbn [gdtr_limit gdtr_base]. change (8 * (SEL_TSS / 8)) with 40.
  rewrite load_gdt by lia. replace (s_gdt_at + 40 - s_gdt_at) with 40 by lia. done.
Qed.

Lemma task_segment_base : system_base (tss_entry_bytes (tss (s_gdt gd))) = s_tss_at.
Proof.
  unfold system_base. destruct (tss_entry_fields (tss (s_gdt gd))) as (_ & -> & -> & _ & _ & -> & ->).
  apply base_parts. by destruct Happart.
Qed.

Lemma interrupt_stack : load (s_tss_at + 28 + 8 * 1) 8 mem = Some (to_le 8 top).
Proof.
  rewrite load_tss by lia. replace (s_tss_at + 28 + 8 * 1 - s_tss_at) with 36 by lia. done.
Qed.

Lemma gate_at v : 0 <= v < 256 ->
  load (idt_table_at + 16 * v) 16 mem
  = Some (gate_bytes (if v <? 0x20 then gate_of (exc v) false
                      else if v <? 0x30 then gate_of (irqs (v - 0x20)) false else zero_gate)).
Proof.
  intros Hv. rewrite load_idt by lia. f_equal.
  replace (Z.to_nat (idt_table_at + 16 * v - idt_table_at)) with (16 * Z.to_nat v)%nat by lia.
  destruct (idt_table it !! Z.to_nat v) as [e|] eqn:E.
  - rewrite (idt_bytes_gate _ _ _ E). f_equal. apply initialise_gates in E; [|done|lia]. rewrite E.
    repeat case_if; try done. cbn [idt_table initial_idt]. rewrite lookup_replicate_2 by lia. done.
  - apply lookup_ge_None in E. pose proof started_idt_length as Hl. rewrite length_idt_bytes in Hl. lia.
Qed.

Lemma deliver_started v : 0 <= v < 256 ->
  deliver mem (loaded_idtr it) (gdtr gd) (tr gd) v
  = if v <? 0x30 then Some (if v <? 0x20 then exc v else irqs (v - 0x20), SEL_KCODE, top) else None.
Proof.
  intros Hv. unfold deliver.
  change (loaded_idtr it) with (Some (Build_idtr_t 4095 idt_table_at)).
  change (gdtr gd) with (Some (Build_GDTR 55 s_gdt_at)). change (tr gd) with (Some SEL_TSS).
  cbn [mbind option_bind idtr_base idtr_limit]. rewrite option_guard_True by lia. rewrite gate_at by done.
  cbn [mbind option_bind]. destruct (Z.ltb_spec v 0x30) as [Hv2|Hv2].
  - set (e := if v <? 32 then _ else _).
    assert (He : e = gate_of (if v <? 0x20 then exc v else irqs (v - 0x20)) false) by (subst e; by repeat case_if).
    clearbody e. subst e. set (h := if v <? 32 then _ else _).
    assert (Hh : 0 <= h < 2 ^ 64) by (subst h; case_if; auto). clearbody h.
    destruct (gate_fields (gate_of h false)) as (_ & Hs & Hi & Ha & _). rewrite Hs, Hi, Ha.
    rewrite option_guard_True by done. change (u16 (gdt_selector (gate_of h false))) with SEL_KCODE.
    rewrite load_code_segment. cbn [mbind option_bind]. rewrite option_guard_True by done.
    rewrite load_task_segment. cbn [mbind option_bind].
    destruct (tss_entry_fields (tss (s_gdt gd))) as (Hl & _ & _ & Hc & Hg & _). rewrite Hl, Hc, Hg.
    do 2 rewrite option_guard_True by done. rewrite task_segment_base. change (Z.land _ 7) with 1.
    rewrite interrupt_stack. cbn [mbind option_bind]. rewrite gate_of_target, le_to_le by done.
    rewrite wrap_small; [done|]. pose proof (ist1_top_in_block ist1_alloc Hist). subst top. lia.
  - replace (v <? 32) with false by lia. rewrite option_guard_False; [done|]. vm_compute. by intros [[=] _].
Qed.
End Delivery.

(** C26: Once [main] has set up its tables, an interrupt whose vector is below
    48 goes to the stub of that vector, in the kernel's code segment, on a
    16-byte aligned stack inside the block that [main] allocated for it; any
    other vector has no present gate. *)
Theorem interrupt_delivered `{TableLayout} (exc irqs : Z -> Z) (current ist1_alloc : Z) (g : gdt_state) (hp : heap) (v : Z) :
  tables_apart -> (forall v, 0 <= exc v < 2 ^ 64) -> (forall v, 0 <= irqs v < 2 ^ 64) ->
  0 <= ist1_alloc < 2 ^ 63 -> 0 <= v < 256 ->
  let gd := main_gdt current ist1_alloc g in
  let it := main_idt exc irqs (initial_idt hp) in
  (deliver (table_memory gd it) (loaded_idtr it) (gdtr gd) (tr gd) v
   = if v <? 0x30 then Some (if v <? 0x20 then exc v else irqs (v - 0x20), SEL_KCODE, ist1_top ist1_alloc) else None) /\
  ist1_top ist1_alloc mod 16 = 0 /\ ist1_alloc < ist1_top ist1_alloc <= ist1_alloc + 65536.
Proof.
  intros. split; [by apply deliver_started|]. pose proof (ist1_top_in_block ist1_alloc). split; lia.
Qed.

(** ** Lines and their keys *)

(** What the callers do: the operations of the table, and steps of the rest
    of the kernel on its heap, which keep the blocks they do not own. *)
Inductive irq_op :=
  | Register (n h : Z)
  | Remove (n key : Z)
  | Unmask (n key : Z)
  | Mask (n key : Z)
  | Elsewhere (hp : heap).

Section Lines.
Context `{Allocator}.

Definition irq_step (o : irq_op) (s : idt_state) : option idt_state :=
  match o with
  | Register n h => snd <$> register_irq n h s
  | Remove n key => snd <$> remove_irq n key s
  | Unmask n key => Some (unmask_irq n key s)
  | Mask n key => Some (mask_irq n key s)
  | Elsewhere hp => Some (s <| idt_heap := hp |>)
  end.
Fixpoint irq_run (os : list irq_op) (s : idt_state) : option idt_state :=
  match os with [] => Some s | o :: os => s ← irq_step o s; irq_run os s end.

(** The arguments are bytes; the rest of the kernel keeps the keys. *)
Definition irq_op_ok (o : irq_op) (s : idt_state) : Prop :=
  match o with
  | Register n _ | Remove n _ | Unmask n _ | Mask n _ => 0 <= n < 256
  | Elsewhere hp => forall n, 0 <= n < 16 -> protection_key (line n s) <> 0 ->
                    protection_key (line n s) ∈ live hp
  end.

(** The operation that presents key [k] of line [n]. *)
Definition presents (n k : Z) (o : irq_op) : bool :=
  match o with
  | Remove n' k' | Unmask n' k' | Mask n' k' => (n' =? n) && (k' =? k)
  | _ => false
  end.

(** Sixteen lines; a key is a live block of one line; only used lines have
    keys, and their handlers are not null. *)
Record irq_inv (s : idt_state) : Prop := {
  inv_lines : length (irq_table s) = 16%nat;
  inv_live : forall n, 0 <= n < 16 -> protection_key (line n s) <> 0 ->
    protection_key (line n s) ∈ live (idt_heap s);
  inv_keys : forall n m, 0 <= n < 16 -> 0 <= m < 16 -> n <> m -> protection_key (line n s) <> 0 ->
    protection_key (line n s) <> protection_key (line m s);
  inv_used : forall n, 0 <= n < 16 -> protection_key (line n s) <> 0 -> used (line n s) = true;
  inv_handler : forall n, 0 <= n < 16 -> used (line n s) = true ->
    handler (line n s) <> 0 /\ irq (line n s) = n;
}.

Lemma line_set n m e s : length (irq_table s) = 16%nat -> 0 <= n < 16 -> 0 <= m < 16 ->
  line m (set_line n e s) = if m =? n then e else line m s.
Proof.
  intros Hl Hn Hm. unfold line, set_line. cbn. destruct (Z.eqb_spec m n) as [->|Hne].
  - rewrite list_lookup_insert_eq by lia. done.
  - rewrite list_lookup_insert_ne by lia. done.
Qed.

Lemma line_heap n hp s : line n (s <| idt_heap := hp |>) = line n s.
Proof. done. Qed.

Lemma initial_irq_inv hp : irq_inv (initial_idt hp).
Proof.
  assert (Hk : forall n, 0 <= n < 16 -> protection_key (line n (initial_idt hp)) = 0 /\
                          used (line n (initial_idt hp)) = false).
  { intros n Hn. replace n with (Z.of_nat (Z.to_nat n)) by lia.
    assert (Hlt : (Z.to_nat n < 16)%nat) by lia. revert Hlt. generalize (Z.to_nat n). intros k Hlt.
    do 16 (destruct k; [done|]). lia. }
  split; [done| | | |]; intros n; intros; destruct (Hk n); congruence.
Qed.

(** Writing a line keeps the invariant when the line written keeps its part. *)
Lemma set_line_inv n e hp s :
  irq_inv s -> 0 <= n < 16 ->
  (protection_key e <> 0 -> protection_key e ∈ live hp /\ used e = true /\
     forall m, 0 <= m < 16 -> m <> n -> protection_key (line m s) <> protection_key e) ->
  (used e = true -> handler e <> 0 /\ irq e = n) ->
  (forall m, 0 <= m < 16 -> m <> n -> protection_key (line m s) <> 0 ->
     protection_key (line m s) ∈ live hp) ->
  irq_inv (set_line n e (s <| idt_heap := hp |>)).
Proof.
  intros [Hl Hlive Hkeys Hused Hh] Hn Hk Hu Hhp.
  assert (E : forall m, 0 <= m < 16 -> line m (set_line n e (s <| idt_heap := hp |>))
              = if m =? n then e else line m s).
  { intros m Hm. by rewrite line_set. }
  split.
  - cbn. by rewrite length_insert.
  - intros m Hm. rewrite E by done. destruct (Z.eqb_spec m n); [intros; by apply Hk | by apply Hhp].
  - intros m m' Hm Hm' Hne. rewrite !E by done.
    destruct (Z.eqb_spec m n), (Z.eqb_spec m' n); subst; [done| | |by apply Hkeys].
    + intros Hk0 Heq. destruct (Hk Hk0) as (_ & _ & Hd). by apply (Hd m' Hm').
    + intros Hk0 Heq. rewrite Heq in Hk0. destruct (Hk Hk0) as (_ & _ & Hd). by apply (Hd m Hm).
  - intros m Hm. rewrite E by done. destruct (Z.eqb_spec m n); [intros; by apply Hk | by apply Hused].
  - intros m Hm. rewrite E by done. destruct (Z.eqb_spec m n) as [->|]; [apply Hu | by apply Hh].
Qed.

(** A step of which line [n] does not see its key. *)
Definition step_keeps (o : irq_op) (s s' : idt_state) : Prop :=
  forall n, 0 <= n < 16 -> used (line n s) = true -> protection_key (line n s) <> 0 ->
    presents n (protection_key (line n s)) o = false -> line n s' = line n s.

Lemma register_step `{!LawfulAllocator} n h s : irq_inv s -> 0 <= n < 256 ->
  exists s', irq_step (Register n h) s = Some s' /\ irq_inv s' /\ step_keeps (Register n h) s s'.
Proof.
  intros Hinv Hn. cbn [irq_step]. unfold register_irq.
  do 3 (case_if; [by exists s|]).
  destruct (malloc 1 (idt_heap s)) as [key hp] eqn:Em. cbn. eexists; split; [done|]. split.
  - assert (Hg : live (idt_heap s) ⊆ live hp) by (pose proof (malloc_grows (idt_heap s) 1); by rewrite Em in *).
    apply set_line_inv; try done; cbn; [lia| |].
    + intros Hk. rewrite (malloc_live _ _ _ _ Em Hk).
      split_and!; [by apply elem_of_union_l, elem_of_singleton | done |].
      intros m Hm Hne Heq. destruct (malloc_fresh _ _ _ _ Em Hk) as [_ Hf].
      apply Hf. rewrite <- Heq. apply Hinv; [done|]. by rewrite Heq.
    + intros m Hm _ Hk. apply Hg. by apply Hinv.
  - intros m Hm Hu Hk _. rewrite line_set; [|apply Hinv|lia|done]. case_if; [congruence | done].
Qed.

Lemma remove_step n key s : irq_inv s -> 0 <= n < 256 ->
  exists s', irq_step (Remove n key) s = Some s' /\ irq_inv s' /\ step_keeps (Remove n key) s s'.
Proof.
  intros Hinv Hn. cbn [irq_step]. unfold remove_irq.
  case_if; [by exists s|]. case_if; [by exists s|]. case_if; [by exists s|]. case_if; [|by exists s].
  rewrite free_live by (congruence || (apply Hinv; [lia | congruence])). cbn. eexists; split; [done|]. split.
  - apply set_line_inv; try done; cbn; [lia|].
    intros m Hm Hne Hk. apply elem_of_difference. split; [by apply Hinv|].
    rewrite elem_of_singleton. apply Hinv; [done | lia | done..].
  - intros m Hm Hu Hk Hp. rewrite line_set; [|apply Hinv|lia|done]. destruct (Z.eqb_spec m n) as [->|]; [|done].
    cbn in Hp. rewrite Z.eqb_refl in Hp. cbn in Hp. zify_bool. congruence.
Qed.

(** Masking and unmasking write a line's mask under its key. *)
Lemma mask_line_step (b : bool) n key s : irq_inv s -> 0 <= n < 16 -> protection_key (line n s) = key ->
  let s' := set_line n ((line n s) <| masked := b |>) s in
  irq_inv s' /\
  forall m, 0 <= m < 16 -> protection_key (line m s) <> 0 ->
    (n =? m) && (key =? protection_key (line m s)) = false -> line m s' = line m s.
Proof.
  intros Hinv Hn <- s'. split.
  - change s' with (set_line n ((line n s) <| masked := b |>) (s <| idt_heap := idt_heap s |>)).
    apply set_line_inv; try done; cbn.
    + intros Hk. split_and!; [by apply Hinv | by apply Hinv |]. intros m Hm Hne Heq.
      symmetry in Heq. revert Heq. apply Hinv; done || congruence.
    + intros Hu. by apply Hinv.
    + intros m Hm _ Hk. by apply Hinv.
  - intros m Hm Hk Hp. subst s'. rewrite line_set; [|apply Hinv|done..]. destruct (Z.eqb_spec m n) as [->|]; [|done].
    rewrite !Z.eqb_refl in Hp. done.
Qed.

Lemma irq_step_ok `{!LawfulAllocator} o s : irq_inv s -> irq_op_ok o s ->
  exists s', irq_step o s = Some s' /\ irq_inv s' /\ step_keeps o s s'.
Proof.
  intros Hinv Hok. destruct o as [n h|n key|n key|n key|hp].
  - by apply register_step.
  - by apply remove_step.
  - cbn [irq_step]. unfold unmask_irq. cbn in Hok. case_if; [by exists s|]. case_if; [by exists s|].
    eexists; split; [done|]. destruct (mask_line_step false n key s) as [Hi Hk]; [done|lia|done|].
    split; [done|]. intros m Hm _ Hk0 Hp. by apply Hk.
  - cbn [irq_step]. unfold mask_irq. cbn in Hok. case_if; [by exists s|]. case_if; [by exists s|].
    eexists; split; [done|]. destruct (mask_line_step true n key s) as [Hi Hk]; [done|lia|done|].
    split; [done|]. intros m Hm _ Hk0 Hp. by apply Hk.
  - cbn. eexists; split; [done|]. split; [|done].
    destruct Hinv as [Hl Hlive Hkeys Hused Hh]. by split.
Qed.

(** Any run of the others keeps a line and its registration. *)
Inductive irq_runs (n k : Z) : idt_state -> idt_state -> Prop :=
  | runs_nil s : irq_runs n k s s
  | runs_cons o s s1 s2 : irq_op_ok o s -> presents n k o = false -> irq_step o s = Some s1 ->
      irq_runs n k s1 s2 -> irq_runs n k s s2.

Lemma irq_runs_keep `{!LawfulAllocator} n k s s' : irq_runs n k s s' -> irq_inv s -> 0 <= n < 16 ->
  used (line n s) = true -> protection_key (line n s) = k -> k <> 0 ->
  irq_inv s' /\ line n s' = line n s.
Proof.
  induction 1 as [s|o s s1 s2 Hok Hp E Hr IH]; intros Hinv Hn Hu Hkey Hk; [done|].
  destruct (irq_step_ok o s Hinv Hok) as (s1' & E' & Hinv1 & Hkeep).
  rewrite E in E'. injection E' as <-.
  assert (El : line n s1 = line n s) by (apply Hkeep; congruence).
  rewrite <- El. apply IH; try done; by rewrite El.
Qed.

Lemma registered_line `{!LawfulAllocator} n h s k s1 : irq_inv s -> 0 <= n < 256 ->
  register_irq n h s = Some (k, s1) -> k <> 0 ->
  0 <= n < 16 /\ line n s1 = IrqEntry k n h true true /\ irq_inv s1.
Proof.
  intros Hinv Hn E Hk.
  destruct (register_step n h s Hinv Hn) as (s' & E' & Hi & _). cbn [irq_step] in E'. rewrite E in E'.
  injection E' as <-. revert E. unfold register_irq. case_if; [congruence|]. case_if; [congruence|].
  case_if; [congruence|]. destruct (malloc 1 (idt_heap s)) as [key hp] eqn:Em.
  rewrite !line_set by (lia || apply Hinv). rewrite Z.eqb_refl. cbn. intros [= <- <-].
  split_and!; [lia..| |done]. rewrite line_set by (lia || apply Hinv). by rewrite Z.eqb_refl.
Qed.
End Lines.

(** C27: A line that was registered belongs to its key: whatever others do in
    the meantime without presenting that key - registering and removing
    lines, masking and unmasking, allocating and freeing elsewhere - the
    owner's unmask still works and the stub calls the owner's handler with
    the line and the context. *)
Theorem irq_owner_keeps `{Alloc : Allocator} `{!LawfulAllocator} (n h k ctx : Z) (s s1 s2 : idt_state) :
  irq_inv s -> 0 <= n < 256 -> register_irq n h s = Some (k, s1) -> k <> 0 -> irq_runs n k s1 s2 ->
  irq_stub_handler n ctx s2 = None /\
  irq_stub_handler n ctx (unmask_irq n k s2) = Some (h, n, ctx) /\
  irq_inv (unmask_irq n k s2).
Proof.
  intros Hinv Hn E Hk Hr.
  destruct (registered_line n h s k s1 Hinv Hn E Hk) as (Hn' & El & Hi1).
  destruct (irq_runs_keep n k s1 s2 Hr Hi1 Hn') as [Hi2 El2]; [by rewrite El..|done|].
  rewrite El in El2. split; [by unfold irq_stub_handler; rewrite El2|].
  unfold unmask_irq. replace (16 <=? n) with false by lia. rewrite El2, Z.eqb_refl. cbn [negb protection_key].
  split.
  - unfold irq_stub_handler. rewrite line_set by (lia || apply Hi2). rewrite Z.eqb_refl. done.
  - destruct (mask_line_step false n k s2 Hi2 Hn') as [Hi _]; [by rewrite El2|]. by rewrite El2 in Hi.
Qed.

(** A registration that finds no memory answers null and leaves the line
    used: no later registration of the line can succeed, no key removes it,
    and null unmasks it. *)
Theorem failed_registration_takes_line `{Alloc : Allocator} (n h : Z) (s s1 : idt_state) :
  irq_inv s -> 0 <= n < 256 -> used (line n s) = false -> h <> 0 -> n < 16 ->
  register_irq n h s = Some (0, s1) ->
  (forall h', register_irq n h' s1 = Some (0, s1)) /\
  (forall k, remove_irq n k s1 = Some (tt, s1)) /\
  forall ctx, irq_stub_handler n ctx (unmask_irq n 0 s1) = Some (h, n, ctx).
Proof.
  intros Hinv Hn Hu Hh H16 E. unfold register_irq in E.
  replace (16 <=? n) with false in E by lia. replace (h =? 0) with false in E by lia. rewrite Hu in E.
  destruct (malloc 1 (idt_heap s)) as [key hp] eqn:Em. cbv zeta in E.
  rewrite !line_set in E by (lia || apply Hinv). rewrite Z.eqb_refl in E. cbn in E. injection E as -> <-.
  set (s1 := set_line n _ _).
  assert (El : line n s1 = IrqEntry 0 n h true true).
  { subst s1. rewrite line_set by (lia || apply Hinv). by rewrite Z.eqb_refl. }
  assert (Hl : length (irq_table s1) = 16%nat) by (subst s1; cbn; rewrite length_insert; apply Hinv).
  clearbody s1. split_and!.
  - intros h'. unfold register_irq. rewrite El. cbn [used]. by repeat case_if.
  - intros k. unfold remove_irq. rewrite El. cbn [used protection_key negb].
    by repeat case_if.
  - intros ctx. unfold unmask_irq. replace (16 <=? n) with false by lia. rewrite El. cbn [protection_key negb Z.eqb].
    unfold irq_stub_handler. rewrite line_set by lia. rewrite Z.eqb_refl. done.
Qed.

(** ** The theorems at work *)

Definition layout : TableLayout :=
  {| s_gdt_at := 0x1000; s_tss_at := 0x2000; idt_table_at := 0x4000; kernel_stack_at := 0x8000 |}.

Lemma interrupt_delivered_witness :
  let gd := @main_gdt layout 0x7F00 0x20008 (GdtState default_gdt (Build_GDTR 0 0) zero_tss None None) in
  let it := @main_idt layout (fun v => 0xFFFFFFFF80000000 + 16 * v mod 2 ^ 20) (fun v => 0x5000) (initial_idt (Heap ∅ 0)) in
  deliver (@table_memory layout gd it) (loaded_idtr it) (gdtr gd) (tr gd) 14
  = Some (0xFFFFFFFF800000E0, 8, 0x30000).
Proof.
  apply (@interrupt_delivered layout (fun v => 0xFFFFFFFF80000000 + 16 * v mod 2 ^ 20) (fun v => 0x5000) 0x7F00 0x20008 _ _ 14).
  - vm_compute. intuition discriminate.
  - intros v. pose proof (Z.mod_pos_bound (16 * v) (2 ^ 20)). lia.
  - lia.
  - lia.
  - lia.
Defined.

Lemma irq_owner_keeps_witness :
  let s := initial_idt (Heap ∅ 0) in
  exists k s1, @register_irq bump 4 77 s = Some (k, s1) /\
    irq_stub_handler 4 5 (unmask_irq 4 k s1) = Some (77, 4, 5).
Proof.
  eexists _, _. split; [reflexivity|].
  eapply (@irq_owner_keeps bump bump_lawful 4 77 0x1000 5 (initial_idt (Heap ∅ 0)));
    [apply initial_irq_inv | lia | reflexivity | lia | constructor].
Defined.

Lemma failed_registration_takes_line_witness :
  exists s1, @register_irq exhausted 4 77 (initial_idt (Heap ∅ 0)) = Some (0, s1) /\
    irq_stub_handler 4 5 (unmask_irq 4 0 s1) = Some (77, 4, 5).
Proof.
  eexists. split; [reflexivity|].
  apply (@failed_registration_takes_line exhausted 4 77 (initial_idt (Heap ∅ 0)) _ (initial_irq_inv _));
    [lia | reflexivity | lia | lia | reflexivity].
Defined.
