(* ===== verification/Ports.v ===== *)
(** * Ports: [arch/x86_64/port_io.hpp]

    The port instructions are a machine behind the interface [Ports]. *)
From S2P Require Import Prelude.

Class Ports (St : Type) := {
  outb : Z -> Z -> M St unit;
  outw : Z -> Z -> M St unit;
  outl : Z -> Z -> M St unit;
  inb : Z -> M St Z;
  inw : Z -> M St Z;
  inl_ : Z -> M St Z;
}.

(** A write to an unused port, for its delay. *)
Definition io_wait `{Ports St} : M St unit := outb 0x80 0.
