(* ===== verification/Pci.v ===== *)
(** * PCI configuration space: [pcie/pcie.cpp] and the PCI accesses of
    [extra/uacpi/uacpi_kernel_wrapper.cpp]

    Configuration mechanism #1: the address of a register is written to port
    0xCF8 and its data moved through port 0xCFC.  The ports are a machine
    behind [Ports]. *)
From S2P Require Import Prelude Status Alloc Ports.

Section Pci.
Context {St : Type} `{Ports St}.

Definition pci_address (b d f offset : Z) : Z :=
  Z.lor (Z.lor (Z.lor (Z.lor (u32 (Z.shiftl 1 31)) (u32 (Z.shiftl b 16))) (u32 (Z.shiftl d 11)))
           (u32 (Z.shiftl f 8)))
        (Z.land offset 0xFC).

Definition pci_read (b d f offset : Z) : M St Z :=
  _ ← outl 0xCF8 (pci_address b d f offset);
  v ← inl_ 0xCFC;
  mret (Z.land (Z.shiftr v (Z.land offset 2 * 8)) 0xFFFF).

Definition pci_write (b d f data bytes offset : Z) : M St unit :=
  _ ← outl 0xCF8 (pci_address b d f offset);
  if bytes =? 1 then outb (0xCFC + Z.land offset 3) (u8 data)
  else if bytes =? 2 then outw (0xCFC + Z.land offset 2) (u16 data)
  else if bytes =? 4 then outl 0xCFC data
  else mret tt.

(** ** uACPI's devices

    The handle is a heap block that holds the three numbers. *)
Record uacpi_pci_dev := PciDev { dev_b : Z; dev_d : Z; dev_f : Z }.
Record uacpi_pci_address := PciAddress { segment : Z; bus : Z; device : Z; function : Z }.
Record devices := Devices { dev_heap : heap; dev_at : gmap Z uacpi_pci_dev }.

(** [malloc] is not tested: through null the stores are undefined. *)
Definition uacpi_kernel_pci_device_open `{Allocator} (address : uacpi_pci_address)
    : M devices (uacpi_status * Z) := fun s =>
  let '(p, hp) := malloc 3 (dev_heap s) in
  if p =? 0 then None
  else Some ((UACPI_STATUS_OK, p),
             Devices hp (<[p := PciDev (bus address) (device address) (function address)]> (dev_at s))).

Definition uacpi_kernel_pci_device_close (handle : Z) : M devices unit := fun s =>
  hp ← free handle (dev_heap s);
  Some (tt, Devices hp (delete handle (dev_at s))).

(** An access through a device: what [pci_read] and [pci_write] are given. *)
Definition on_device (s : devices) (handle : Z) {A} (f : Z -> Z -> Z -> M St A) : M St A :=
  d ← liftO (dev_at s !! handle); f (dev_b d) (dev_d d) (dev_f d).

Definition uacpi_kernel_pci_read8 (s : devices) (handle offset : Z) : M St (uacpi_status * Z) :=
  val ← on_device s handle (fun b d f => pci_read b d f (u8 offset)); mret (UACPI_STATUS_OK, u8 val).
Definition uacpi_kernel_pci_read16 (s : devices) (handle offset : Z) : M St (uacpi_status * Z) :=
  val ← on_device s handle (fun b d f => pci_read b d f (u8 offset)); mret (UACPI_STATUS_OK, u16 val).
Definition uacpi_kernel_pci_read32 (s : devices) (handle offset : Z) : M St (uacpi_status * Z) :=
  val ← on_device s handle (fun b d f => pci_read b d f (u8 offset)); mret (UACPI_STATUS_OK, val).

(** The offset is passed where the data goes and the value where the offset
    goes. *)
Definition uacpi_kernel_pci_write8 (s : devices) (handle offset value : Z) : M St uacpi_status :=
  _ ← on_device s handle (fun b d f => pci_write b d f (u32 offset) 1 (u8 value)); mret UACPI_STATUS_OK.
Definition uacpi_kernel_pci_write16 (s : devices) (handle offset value : Z) : M St uacpi_status :=
  _ ← on_device s handle (fun b d f => pci_write b d f (u32 offset) 2 (u8 value)); mret UACPI_STATUS_OK.
Definition uacpi_kernel_pci_write32 (s : devices) (handle offset value : Z) : M St uacpi_status :=
  _ ← on_device s handle (fun b d f => pci_write b d f (u32 offset) 4 (u8 value)); mret UACPI_STATUS_OK.
End Pci.
