(* ===== verification/PciSpec.v ===== *)
(** * What the configuration accesses do to a device's registers

    The ports obey [ConfigMechanism]: the documented behaviour of the address
    and data ports, over the bytes of the configuration space.  The accesses
    of [pcie.cpp] then read and write the register they name and no other;
    those of the uACPI wrapper do not. *)
From S2P Require Import Prelude Status BitIo FieldIo FieldIoSpec Alloc Ports Pci.

(** Configuration mechanism #1.  [config s a] is the byte at configuration
    address [a], the bus, device, function and register in one number. *)
Class ConfigMechanism (St : Type) `{Ports St} := {
  selected : St -> Z;
  config : St -> Z -> Z;
  select_law : forall a s, exists s', outl 0xCF8 a s = Some (tt, s') /\ selected s' = a /\ config s' = config s;
  read_law : forall a s, selected s = 2 ^ 31 + 4 * a -> 0 <= a < 2 ^ 22 ->
    exists s', inl_ 0xCFC s = Some (le (map (fun i => config s (4 * a + i)) [0; 1; 2; 3]), s') /\
               config s' = config s;
  write8_law : forall a k v s, selected s = 2 ^ 31 + 4 * a -> 0 <= a < 2 ^ 22 -> 0 <= k < 4 -> 0 <= v < 2 ^ 8 ->
    exists s', outb (0xCFC + k) v s = Some (tt, s') /\
    forall x, config s' x = if x =? 4 * a + k then v else config s x;
  write16_law : forall a k v s, selected s = 2 ^ 31 + 4 * a -> 0 <= a < 2 ^ 22 -> k = 0 \/ k = 2 -> 0 <= v < 2 ^ 16 ->
    exists s', outw (0xCFC + k) v s = Some (tt, s') /\
    forall x, config s' x = if x =? 4 * a + k then u8 v else if x =? 4 * a + k + 1 then v / 256 else config s x;
  write32_law : forall a v s, selected s = 2 ^ 31 + 4 * a -> 0 <= a < 2 ^ 22 -> 0 <= v < 2 ^ 32 ->
    exists s', outl 0xCFC v s = Some (tt, s') /\
    forall x, config s' x = if (4 * a <=? x) && (x <? 4 * a + 4) then u8 (Z.shiftr v (8 * (x - 4 * a))) else config s x;
  config_bytes : forall s a, 0 <= config s a < 256;
}.

Lemma lor_parts k a b : 0 <= k -> 0 <= b < 2 ^ k -> Z.lor (a * 2 ^ k) b = a * 2 ^ k + b.
Proof.
  intros Hk Hb. assert (Z.land (a * 2 ^ k) b = 0).
  { apply Z_bits_ext. intros j Hj. rewrite Z.land_spec, Z.bits_0, <- Z.shiftl_mul_pow2, Z.shiftl_spec by lia.
    destruct (Z.ltb_spec j k).
    - rewrite (Z.testbit_neg_r _ (j - k)) by lia. done.
    - replace (Z.testbit b j) with false; [apply andb_false_r|].
      rewrite <- (Z.mod_small b (2 ^ k)) by done. by rewrite Z.mod_pow2_bits_high by lia. }
  rewrite <- Z.lxor_lor by done. by rewrite <- Z.add_nocarry_lxor.
Qed.

(** The register's word in the configuration space. *)
Definition word_of (b d f offset : Z) : Z := b * 2 ^ 14 + d * 2 ^ 9 + f * 2 ^ 6 + offset / 4.
Definition valid_function (b d f : Z) : Prop := 0 <= b < 256 /\ 0 <= d < 32 /\ 0 <= f < 8.

Lemma word_of_range b d f o : valid_function b d f -> 0 <= o < 256 -> 0 <= word_of b d f o < 2 ^ 22.
Proof. intros (? & ? & ?) ?. unfold word_of. Z.to_euclidean_division_equations. lia. Qed.

Lemma word_of_inj b d f o b' d' f' o' : valid_function b d f -> valid_function b' d' f' ->
  0 <= o < 256 -> 0 <= o' < 256 -> word_of b d f o = word_of b' d' f' o' ->
  b = b' /\ d = d' /\ f = f' /\ o / 4 = o' / 4.
Proof. intros (? & ? & ?) (? & ? & ?) ? ?. unfold word_of. Z.to_euclidean_division_equations. lia. Qed.

Lemma aligned o : 0 <= o < 256 -> Z.land o 0xFC = 4 * (o / 4).
Proof.
  intros Ho. apply Z.eqb_eq. check_all_below 256%nat o; [by vm_compute | lia].
Qed.

Lemma pci_address_word b d f o : valid_function b d f -> 0 <= o < 256 ->
  pci_address b d f o = 2 ^ 31 + 4 * word_of b d f o.
Proof.
  intros (Hb & Hd & Hf) Ho. unfold pci_address, word_of. rewrite aligned by done.
  rewrite !Z.shiftl_mul_pow2 by lia. rewrite !u32_small by lia.
  change (1 * 2 ^ 31) with (128 * 2 ^ 24). rewrite (lor_parts 24 128) by lia.
  replace (128 * 2 ^ 24 + b * 2 ^ 16) with ((2 ^ 15 + b) * 2 ^ 16) by lia. rewrite (lor_parts 16) by lia.
  replace ((2 ^ 15 + b) * 2 ^ 16 + d * 2 ^ 11) with (((2 ^ 15 + b) * 2 ^ 5 + d) * 2 ^ 11) by lia.
  rewrite (lor_parts 11) by lia.
  replace (((2 ^ 15 + b) * 2 ^ 5 + d) * 2 ^ 11 + f * 2 ^ 8) with ((((2 ^ 15 + b) * 2 ^ 5 + d) * 2 ^ 3 + f) * 2 ^ 8) by lia.
  rewrite (lor_parts 8) by (Z.to_euclidean_division_equations; lia). lia.
Qed.

Section Accesses.
Context {St : Type} `{ConfigMechanism St}.

(** The 16-bit register of a function, and what else there is. *)
Definition half (s : St) (b d f o : Z) : Z :=
  config s (4 * word_of b d f o + Z.land o 2) + 256 * config s (4 * word_of b d f o + Z.land o 2 + 1).

Lemma le_halves x0 x1 x2 x3 : Forall (fun x => 0 <= x < 256) [x0; x1; x2; x3] ->
  Z.land (le [x0; x1; x2; x3]) 0xFFFF = x0 + 256 * x1 /\
  Z.land (Z.shiftr (le [x0; x1; x2; x3]) 16) 0xFFFF = x2 + 256 * x3.
Proof.
  rewrite !Forall_cons. intros (H0' & H1 & H2 & H3 & _). change 0xFFFF with (Z.ones 16).
  rewrite !Z.land_ones, Z.shiftr_div_pow2 by lia. cbn [le]. split; Z.to_euclidean_division_equations; lia.
Qed.

Lemma land_2 o : 0 <= o < 256 -> Z.land o 2 = 0 \/ Z.land o 2 = 2.
Proof.
  intros Ho. assert (E : (Z.land o 2 =? 0) || (Z.land o 2 =? 2) = true)
    by (check_all_below 256%nat o; [by vm_compute | lia]).
  zify_bool; auto.
Qed.

Lemma pci_read_half b d f o s : valid_function b d f -> 0 <= o < 256 ->
  exists s', pci_read b d f o s = Some (half s b d f o, s') /\ config s' = config s.
Proof.
  intros Hv Ho. unfold pci_read.
  destruct (select_law (pci_address b d f o) s) as (s1 & E1 & Hs1 & Hc1). rewrite (bind_run _ _ _ _ _ E1).
  rewrite pci_address_word in Hs1 by done.
  destruct (read_law (word_of b d f o) s1 Hs1 (word_of_range _ _ _ _ Hv Ho)) as (s2 & E2 & Hc2).
  rewrite (bind_run _ _ _ _ _ E2). exists s2. split; [|congruence]. mstep. do 2 f_equal.
  unfold half. rewrite Hc1. cbn [map].
  destruct (le_halves (config s (4 * word_of b d f o + 0)) (config s (4 * word_of b d f o + 1))
              (config s (4 * word_of b d f o + 2)) (config s (4 * word_of b d f o + 3))) as [Hlo Hhi];
    [repeat constructor; apply config_bytes|].
  destruct (land_2 o Ho) as [-> | ->]; cbn [Z.mul].
  - rewrite Z.shiftr_0_r, Hlo. by rewrite Z.add_0_r.
  - change (2 * 8) with 16. rewrite Hhi.
    by replace (4 * word_of b d f o + 2 + 1) with (4 * word_of b d f o + 3) by lia.
Qed.

Lemma pci_write_half b d f data o s : valid_function b d f -> 0 <= o < 256 ->
  exists s', pci_write b d f data 2 o s = Some (tt, s') /\
    forall x, config s' x = if x =? 4 * word_of b d f o + Z.land o 2 then u8 (u16 data)
                            else if x =? 4 * word_of b d f o + Z.land o 2 + 1 then u16 data / 256 else config s x.
Proof.
  intros Hv Ho. unfold pci_write.
  destruct (select_law (pci_address b d f o) s) as (s1 & E1 & Hs1 & Hc1). rewrite (bind_run _ _ _ _ _ E1).
  rewrite pci_address_word in Hs1 by done. cbn [Z.eqb Pos.eqb].
  destruct (write16_law (word_of b d f o) (Z.land o 2) (u16 data) s1 Hs1 (word_of_range _ _ _ _ Hv Ho) (land_2 o Ho))
    as (s2 & E2 & Hc2); [apply wrap_range; lia|].
  exists s2. split; [done|]. intros x. by rewrite Hc2, Hc1.
Qed.

Lemma half_written b d f data o b' d' f' o' s s' :
  valid_function b d f -> valid_function b' d' f' -> 0 <= o < 256 -> 0 <= o' < 256 ->
  (forall x, config s' x = if x =? 4 * word_of b d f o + Z.land o 2 then u8 (u16 data)
                           else if x =? 4 * word_of b d f o + Z.land o 2 + 1 then u16 data / 256 else config s x) ->
  half s' b' d' f' o'
  = if decide ((b', d', f', o' / 2) = (b, d, f, o / 2)) then u16 data else half s b' d' f' o'.
Proof.
  intros Hv Hv' Ho Ho' Hc.
  assert (Hd : forall z, 0 <= z < 256 -> Z.land z 2 = 2 * (z / 2) - 4 * (z / 4)).
  { intros z Hz. apply Z.eqb_eq. check_all_below 256%nat z; [by vm_compute | lia]. }
  unfold half. rewrite !Hc, !Hd by done. destruct (decide _) as [E|E].
  - injection E as -> -> -> E.
    replace (word_of b d f o') with (word_of b d f o) by (unfold word_of; Z.to_euclidean_division_equations; lia).
    replace (2 * (o' / 2) - 4 * (o' / 4)) with (2 * (o / 2) - 4 * (o / 4)) by (Z.to_euclidean_division_equations; lia).
    rewrite Z.eqb_refl. repeat case_if; try lia. pose proof (wrap_range 16 data ltac:(lia)).
    unfold wrap at 1. Z.to_euclidean_division_equations; lia.
  - set (k := 2 * (o / 2) - 4 * (o / 4)). set (k' := 2 * (o' / 2) - 4 * (o' / 4)).
    assert (Hne : word_of b' d' f' o' <> word_of b d f o \/ k' <> k).
    { destruct (Z.eq_dec (word_of b' d' f' o') (word_of b d f o)) as [Hw|]; [right|by left]. intros Hk. apply E.
      destruct (word_of_inj _ _ _ _ _ _ _ _ Hv' Hv Ho' Ho Hw) as (-> & -> & -> & E4). subst k k'. f_equal. lia. }
    assert (Hk : (k = 0 \/ k = 2) /\ (k' = 0 \/ k' = 2)) by (subst k k'; Z.to_euclidean_division_equations; lia).
    clearbody k k'. by repeat case_if; try lia.
Qed.
End Accesses.

(** A 16-bit configuration write is seen by a read of the same register
    of the same function, and by no read of another register or of another
    function. *)
Theorem pci_write_read `{Mech : ConfigMechanism St} (b d f data o b' d' f' o' v : Z) (s s0 : St) :
  valid_function b d f -> valid_function b' d' f' -> 0 <= o < 256 -> 0 <= o' < 256 ->
  pci_read b' d' f' o' s = Some (v, s0) ->
  exists s1 s2, pci_write b d f data 2 o s = Some (tt, s1) /\
    pci_read b' d' f' o' s1
    = Some (if decide ((b', d', f', o' / 2) = (b, d, f, o / 2)) then u16 data else v, s2).
Proof.
  intros Hv Hv' Ho Ho' E.
  destruct (pci_read_half b' d' f' o' s Hv' Ho') as (s0' & E0 & _). rewrite E in E0. injection E0 as -> <-.
  destruct (pci_write_half b d f data o s Hv Ho) as (s1 & E1 & Hc).
  destruct (pci_read_half b' d' f' o' s1 Hv' Ho') as (s2 & E2 & _).
  exists s1, s2. split; [done|]. rewrite E2. by rewrite (half_written _ _ _ _ _ _ _ _ _ _ _ Hv Hv' Ho Ho' Hc).
Qed.

(** C28: A 16-bit write of [value] at [offset] through uACPI's interface writes
    the offset, as data, at the register that the low byte of the value
    names; the register at the offset keeps what it had, unless the value
    happens to name it.  A 32-bit read gives the 16 bits at the offset. *)
Theorem uacpi_pci_accesses_misdirected `{Mech : ConfigMechanism St} (devs : devices) (h : Z) (dev : uacpi_pci_dev)
    (offset value : Z) (s : St) :
  dev_at devs !! h = Some dev -> valid_function (dev_b dev) (dev_d dev) (dev_f dev) -> 0 <= offset < 256 ->
  exists s1, uacpi_kernel_pci_write16 devs h offset value s = Some (UACPI_STATUS_OK, s1) /\
    forall o, 0 <= o < 256 -> exists s2,
      uacpi_kernel_pci_read32 devs h o s1
      = Some ((UACPI_STATUS_OK,
               if o / 2 =? u8 value / 2 then offset else half s (dev_b dev) (dev_d dev) (dev_f dev) o), s2).
Proof.
  intros Hd Hv Ho. unfold uacpi_kernel_pci_write16, on_device. rewrite Hd.
  assert (Hu : 0 <= u8 value < 256) by (apply wrap_range; lia).
  destruct (pci_write_half (dev_b dev) (dev_d dev) (dev_f dev) (u32 offset) (u8 value) s Hv Hu) as (s1 & E1 & Hc).
  exists s1. split; [mstep; by rewrite E1|]. intros o Ho'.
  destruct (pci_read_half (dev_b dev) (dev_d dev) (dev_f dev) (u8 o) s1 Hv) as (s2 & E2 & _); [by apply wrap_range|].
  exists s2. unfold uacpi_kernel_pci_read32, on_device. rewrite Hd. mstep. rewrite E2. do 3 f_equal.
  rewrite u8_small by done. rewrite (half_written _ _ _ _ _ _ _ _ _ s s1 Hv Hv Hu Ho' Hc).
  rewrite (u32_small offset), u16_small by lia.
  destruct (decide _) as [E|E], (Z.eqb_spec (o / 2) (u8 value / 2)); congruence.
Qed.

(** ** A machine that obeys the mechanism *)

Record pci_machine := PciMachine { cf8 : Z; space : gmap Z Z }.
Definition space_byte (s : pci_machine) (a : Z) : Z := u8 (default 255 (space s !! a)).
Definition put (a v : Z) (s : pci_machine) : pci_machine := PciMachine (cf8 s) (<[a := v]> (space s)).
Definition data_word (s : pci_machine) : Z := cf8 s - 2 ^ 31.

#[export] Instance machine_ports : Ports pci_machine := {|
  outb p v s := Some (tt, put (data_word s + (p - 0xCFC)) v s);
  outw p v s := Some (tt, put (data_word s + (p - 0xCFC)) (u8 v) (put (data_word s + (p - 0xCFC) + 1) (v / 256) s));
  outl p v s :=
    if p =? 0xCF8 then Some (tt, PciMachine v (space s))
    else Some (tt, fold_right (fun i => put (data_word s + i) (u8 (Z.shiftr v (8 * i)))) s [0; 1; 2; 3]);
  inb p s := Some (space_byte s (data_word s + (p - 0xCFC)), s);
  inw p s := Some (le (map (fun i => space_byte s (data_word s + (p - 0xCFC) + i)) [0; 1]), s);
  inl_ p s := Some (le (map (fun i => space_byte s (data_word s + i)) [0; 1; 2; 3]), s);
|}.

Lemma space_byte_put a v s x : space_byte (put a v s) x = if x =? a then u8 v else space_byte s x.
Proof.
  unfold space_byte, put. cbn. destruct (Z.eqb_spec x a) as [->|Hne].
  - by rewrite lookup_insert_eq.
  - by rewrite lookup_insert_ne.
Qed.

#[export] Instance machine_mechanism : ConfigMechanism pci_machine.
Proof.
  refine {| selected := cf8; config := space_byte |}.
  - intros a s. by eexists.
  - intros a s E Ha. exists s. split; [|done]. cbn. unfold data_word. rewrite E.
    by replace (2 ^ 31 + 4 * a - 2 ^ 31) with (4 * a) by lia.
  - intros a k v s E Ha Hk Hv. eexists. split; [done|]. intros x. cbn -[Z.add Z.sub]. rewrite space_byte_put.
    unfold data_word. rewrite E, u8_small by lia.
    by replace (2 ^ 31 + 4 * a - 2 ^ 31 + (3324 + k - 3324)) with (4 * a + k) by lia.
  - intros a k v s E Ha Hk Hv. eexists. split; [done|]. intros x. cbn -[Z.add Z.sub]. rewrite !space_byte_put.
    unfold data_word. rewrite E, wrap_wrap, (u8_small (v / 256)) by (Z.to_euclidean_division_equations; lia).
    by replace (2 ^ 31 + 4 * a - 2 ^ 31 + (3324 + k - 3324)) with (4 * a + k) by lia.
  - intros a v s E Ha Hv. eexists. split; [cbn; done|]. intros x. cbn -[Z.add Z.sub Z.shiftr wrap].
    rewrite !space_byte_put, !wrap_wrap. unfold data_word. rewrite E.
    replace (2 ^ 31 + 4 * a - 2 ^ 31) with (4 * a) by lia.
    repeat case_if; subst; try lia; try done; do 2 f_equal; lia.
  - intros s a. apply wrap_range. lia.
Defined.

Lemma pci_write_read_witness :
  exists v s0, pci_read 1 2 3 0x40 (PciMachine 0 ∅) = Some (v, s0) /\
  exists s1 s2, pci_write 1 2 3 0x1234 2 0x40 (PciMachine 0 ∅) = Some (tt, s1) /\
    pci_read 1 2 3 0x40 s1 = Some (0x1234, s2).
Proof.
  exists 0xFFFF, (PciMachine (pci_address 1 2 3 0x40) ∅). split; [reflexivity|].
  apply (pci_write_read 1 2 3 0x1234 0x40 1 2 3 0x40 0xFFFF (PciMachine 0 ∅) (PciMachine (pci_address 1 2 3 0x40) ∅));
    unfold valid_function; lia || reflexivity.
Defined.

Lemma uacpi_pci_accesses_misdirected_witness :
  let devs := Devices (Heap {[4096]} 1) {[4096 := PciDev 0 31 0]} in
  exists s1, uacpi_kernel_pci_write16 devs 4096 0x40 0x1280 (PciMachine 0 ∅) = Some (UACPI_STATUS_OK, s1) /\
    exists s2, uacpi_kernel_pci_read32 devs 4096 0x80 s1 = Some ((UACPI_STATUS_OK, 0x40), s2).
Proof.
  destruct (uacpi_pci_accesses_misdirected (Devices (Heap {[4096]} 1) {[4096 := PciDev 0 31 0]}) 4096 (PciDev 0 31 0)
              0x40 0x1280 (PciMachine 0 ∅)) as (s1 & E & Hr); [reflexivity | unfold valid_function; cbn; lia | lia |].
  exists s1. split; [exact E|]. apply (Hr 0x80). lia.
Defined.
