(* ===== verification/Hlec.v ===== *)
(** * The kernel's events: [hlec/hlec.cpp]

    A linked list of events on the heap, found by identifier or by the
    address the client holds.  [events] and [names] are what the live blocks
    hold; to read or write a block that is not live is undefined. *)
From S2P Require Import Prelude Alloc.

Record event := Event {
  ev_id : Z;
  ev_name : Z;
  event_callback : Z;
  quiet : bool;
  ev_next : Z;
}.
#[export] Instance settable_event : Settable event := fun e =>
  Event (ev_id e) (ev_name e) (event_callback e) (quiet e) (ev_next e).

Record hlec := Hlec {
  hp : heap;
  events : gmap Z event;
  names : gmap Z (list Z);
  first_event : Z;
  last_event : Z;
  last_id : Z;
}.
#[export] Instance settable_hlec : Settable hlec := fun s =>
  Hlec (hp s) (events s) (names s) (first_event s) (last_event s) (last_id s).

Definition no_events (h : heap) : hlec := Hlec h ∅ ∅ 0 0 0.

Definition deref (p : Z) : M hlec event := fun s => e ← events s !! p; Some (e, s).
(** A store to a field of an event. *)
Definition update (p : Z) (f : event -> event) : M hlec unit := fun s =>
  e ← events s !! p; Some (tt, s <| events := <[p := f e]> (events s) |>).

Section Hlec.
Context `{Allocator}.

(** What the fields of a new block hold before they are set. *)
Context (junk : Z).

Definition event_malloc : M hlec Z := fun s =>
  let '(p, h) := malloc 40 (hp s) in
  if p =? 0 then Some (0, s <| hp := h |>)
  else Some (p, s <| hp := h |> <| events := <[p := Event junk junk junk false junk]> (events s) |>).

(** [free] of an event, and of a name: null is allowed. *)
Definition free_event (p : Z) : M hlec unit := fun s =>
  h ← free p (hp s); Some (tt, s <| hp := h |> <| events := delete p (events s) |>).
Definition free_name (p : Z) : M hlec unit := fun s =>
  h ← free p (hp s); Some (tt, s <| hp := h |> <| names := delete p (names s) |>).

(** [strdup], of [cstring.cpp]: it copies into what [malloc] gives, without a
    test.  [None] for the name is a null pointer. *)
Definition strdup (name : option (list Z)) : M hlec Z := fun s =>
  t ← name;
  let '(p, h) := malloc (Z.of_nat (length t) + 1) (hp s) in
  if p =? 0 then None
  else Some (p, s <| hp := h |> <| names := <[p := t]> (names s) |>).

Definition alloc_event : M hlec Z :=
  new_ev ← event_malloc;
  if new_ev =? 0 then mret 0
  else
    _ ← update new_ev (fun e => e <| ev_next := 0 |>);
    _ ← update new_ev (fun e => e <| ev_name := 0 |>);
    _ ← update new_ev (fun e => e <| event_callback := 0 |>);
    _ ← update new_ev (fun e => e <| quiet := true |>);
    s ← gets id;
    _ ← (if first_event s =? 0
         then modify (fun s => s <| first_event := new_ev |> <| last_event := new_ev |>)
         else _ ← update (last_event s) (fun e => e <| ev_next := new_ev |>);
              modify (fun s => s <| last_event := new_ev |>));
    mret new_ev.

(** The walks visit a block at most once, or never end. *)
Definition get_prev_event_for_id (event_id : Z) : M hlec Z :=
  s ← gets id;
  loop (S (size (events s))) (fun curr =>
    if curr =? 0 then mret (inr 0)
    else
      c ← deref curr;
      if ev_next c =? 0 then mret (inr 0)
      else n ← deref (ev_next c);
           if ev_id n =? event_id then mret (inr curr) else mret (inl (ev_next c)))
    (first_event s).

Definition get_event_for_id (event_id : Z) : M hlec Z :=
  s ← gets id;
  loop (S (size (events s))) (fun curr =>
    if curr =? 0 then mret (inr 0)
    else
      c ← deref curr;
      if ev_id c =? event_id then mret (inr curr) else mret (inl (ev_next c)))
    (first_event s).

Definition new_event (name : option (list Z)) : M hlec Z :=
  ev ← alloc_event;
  if ev =? 0 then mret 0
  else
    s ← gets id;
    _ ← modify (fun s => s <| last_id := swrap 64 (last_id s + 1) |>);
    _ ← update ev (fun e => e <| ev_id := last_id s |>);
    p ← strdup name;
    _ ← update ev (fun e => e <| ev_name := p |>);
    _ ← update ev (fun e => e <| quiet := true |>);
    mret ev.

(** [remove_event] of an identifier. *)
Definition remove_event_id (event_id : Z) : M hlec unit :=
  prev ← get_prev_event_for_id event_id;
  node ← get_event_for_id event_id;
  if node =? 0 then mret tt
  else
    n ← deref node;
    _ ← (if negb (prev =? 0) then update prev (fun e => e <| ev_next := ev_next n |>)
         else modify (fun s => s <| first_event := ev_next n |>));
    _ ← update node (fun e => e <| ev_next := 0 |>);
    _ ← free_name (ev_name n);
    free_event node.

(** [remove_event] of a context: by the identifier it holds. *)
Definition remove_event (evctx : Z) : M hlec unit :=
  if evctx =? 0 then mret tt
  else e ← deref evctx; remove_event_id (ev_id e).

Definition register_event_callback (evctx cb : Z) : M hlec bool :=
  if evctx =? 0 then mret false
  else _ ← update evctx (fun e => e <| event_callback := cb |>); mret true.
Definition register_event_callback_id (event_id cb : Z) : M hlec bool :=
  ev ← get_event_for_id event_id;
  if ev =? 0 then mret false
  else _ ← update ev (fun e => e <| event_callback := cb |>); mret true.

Definition obtain_event_id (evctx : Z) : M hlec Z :=
  if evctx =? 0 then mret (-1) else e ← deref evctx; mret (ev_id e).

Definition set_event_quiet (evctx : Z) : M hlec unit :=
  if evctx =? 0 then mret tt else update evctx (fun e => e <| quiet := true |>).
Definition set_event_quiet_id (event_id : Z) : M hlec unit :=
  ev ← get_event_for_id event_id;
  if ev =? 0 then mret tt else update ev (fun e => e <| quiet := true |>).
Definition unset_event_quiet (evctx : Z) : M hlec unit :=
  if evctx =? 0 then mret tt else update evctx (fun e => e <| quiet := false |>).
Definition unset_event_quiet_id (event_id : Z) : M hlec unit :=
  ev ← get_event_for_id event_id;
  if ev =? 0 then mret tt else update ev (fun e => e <| quiet := false |>).

(** A callback is code of the client: it may use the events. *)
Context (call : Z -> Z -> Z -> M hlec Z).

Definition raise_event (evctx argc args : Z) : M hlec Z :=
  if evctx =? 0 then mret (-1)
  else
    e ← deref evctx;
    if quiet e then mret (-1)
    else if event_callback e =? 0 then mret (-1)
    else call (event_callback e) argc args.
Definition raise_event_id (event_id argc args : Z) : M hlec Z :=
  ev ← get_event_for_id event_id;
  if ev =? 0 then mret (-1)
  else
    e ← deref ev;
    if quiet e then mret (-1)
    else if event_callback e =? 0 then mret (-1)
    else call (event_callback e) argc args.
End Hlec.
