(* ===== verification/HlecSpec.v ===== *)
(** * The event list refines a registry

    The registry is the list of events in the order they were made.  [rep]
    links it to the blocks on the heap; each operation of [Hlec] then does to
    the registry what its name says, except that the code forgets its last
    event when it removes it. *)
From S2P Require Import Prelude Alloc Hlec.

(** ** The registry *)

Record info := Info {
  i_ptr : Z;
  i_namep : Z;
  i_id : Z;
  i_name : list Z;
  i_cb : Z;
  i_quiet : bool;
}.
#[export] Instance settable_info : Settable info := fun i =>
  Info (i_ptr i) (i_namep i) (i_id i) (i_name i) (i_cb i) (i_quiet i).

Fixpoint find_ptr (id : Z) (l : list info) : Z :=
  match l with [] => 0 | i :: l => if i_id i =? id then i_ptr i else find_ptr id l end.
Fixpoint prev_ptr (id : Z) (l : list info) : Z :=
  match l with
  | i :: l => match l with
              | j :: _ => if i_id j =? id then i_ptr i else prev_ptr id l
              | [] => 0
              end
  | [] => 0
  end.

(** ** The list on the heap *)

Definition matches (e : event) (i : info) : Prop :=
  ev_id e = i_id i /\ ev_name e = i_namep i /\ event_callback e = i_cb i /\ quiet e = i_quiet i.

(** The events of [l], linked from [p] to [q]. *)
Fixpoint seg (m : gmap Z event) (p : Z) (l : list info) (q : Z) : Prop :=
  match l with
  | [] => p = q
  | i :: l => p = i_ptr i /\ p <> 0 /\ exists e, m !! p = Some e /\ matches e i /\ seg m (ev_next e) l q
  end.

Lemma hlec_seg_app m p l1 l2 q : seg m p (l1 ++ l2) q <-> exists r, seg m p l1 r /\ seg m r l2 q.
Proof.
  revert p. induction l1 as [|i l1 IH]; intros p; cbn [app seg].
  - split; [by exists p | by intros (r & -> & ?)].
  - split.
    + intros (Hp & H0 & e & He & Hm & Hs). apply IH in Hs as (r & H1 & H2). exists r. split; [|done]. eauto 6.
    + intros (r & (Hp & H0 & e & He & Hm & H1) & H2). split_and!; [done..|]. exists e. rewrite IH. eauto.
Qed.

Lemma seg_frame m m' p l q : (forall i, i ∈ l -> m' !! i_ptr i = m !! i_ptr i) -> seg m p l q -> seg m' p l q.
Proof.
  revert p. induction l as [|i l IH]; intros p Hm; cbn [seg]; [done|].
  intros (-> & H0 & e & He & Hi & Hs). split_and!; [done..|]. exists e. split_and!; [|done|].
  - rewrite Hm; [done | by left].
  - apply IH; [|done]. intros j Hj. apply Hm. by right.
Qed.

Lemma seg_insert_ne m p l q k e : k ∉ i_ptr <$> l -> seg m p l q -> seg (<[k := e]> m) p l q.
Proof.
  intros Hk. apply seg_frame. intros i Hi. apply lookup_insert_ne. intros ->.
  apply Hk. by apply list_elem_of_fmap_2.
Qed.

Lemma seg_delete_ne m p l q k : k ∉ i_ptr <$> l -> seg m p l q -> seg (delete k m) p l q.
Proof.
  intros Hk. apply seg_frame. intros i Hi. apply lookup_delete_ne. intros ->.
  apply Hk. by apply list_elem_of_fmap_2.
Qed.

(** The last event of a segment linked elsewhere. *)
Lemma seg_relink m p l j q r e :
  i_ptr j ∉ i_ptr <$> l -> seg m p (l ++ [j]) q -> m !! i_ptr j = Some e ->
  seg (<[i_ptr j := e <| ev_next := r |>]> m) p (l ++ [j]) r.
Proof.
  intros Hj Hs He. apply hlec_seg_app in Hs as (x & H1 & H2). apply hlec_seg_app. exists x.
  split; [by apply seg_insert_ne|]. cbn [seg] in *. destruct H2 as (-> & H0 & e' & He' & Hm & _).
  split_and!; [done..|]. eexists. split; [by rewrite lookup_insert_eq|]. split; [|done].
  by simplify_eq.
Qed.


Definition owned (l : list info) : list Z := (i_ptr <$> l) ++ (i_namep <$> l).

Record rep (s : hlec) (l : list info) : Prop := {
  rep_chain : seg (events s) (first_event s) l 0;
  rep_names : Forall (fun i => names s !! i_namep i = Some (i_name i)) l;
  rep_owned : NoDup (owned l);
  rep_live : Forall (fun p => p <> 0 /\ p ∈ live (hp s)) (owned l);
  rep_ids : NoDup (i_id <$> l);
  rep_next : Forall (fun i => 0 <= i_id i < last_id s) l;
  rep_last : 0 <= last_id s;
}.

(** The code's idea of its last event is right. *)
Definition tail_ok (s : hlec) (l : list info) : Prop :=
  match last l with Some i => last_event s = i_ptr i | None => True end.

(** ** The walks *)

Lemma deref_run p e s : events s !! p = Some e -> deref p s = Some (e, s).
Proof. intros E. unfold deref. by rewrite E. Qed.

Lemma seg_dom m p l q : seg m p l q -> list_to_set (i_ptr <$> l) ⊆ dom m.
Proof.
  revert p. induction l as [|i l IH]; intros p; cbn [seg fmap list_fmap list_to_set]; [set_solver|].
  intros (-> & _ & e & He & _ & Hs). apply IH in Hs.
  apply union_subseteq. split; [|done]. apply singleton_subseteq_l, elem_of_dom. by exists e.
Qed.

Lemma rep_size s l : rep s l -> (length l <= size (events s))%nat.
Proof.
  intros Hr. pose proof (seg_dom _ _ _ _ (rep_chain _ _ Hr)) as Hd. apply subseteq_size in Hd.
  rewrite size_dom, size_list_to_set, length_fmap in Hd; [done|].
  pose proof (rep_owned _ _ Hr) as Ho. by apply NoDup_app in Ho as [? _].
Qed.

Lemma get_event_for_id_walk s l id : seg (events s) (first_event s) l 0 -> (length l <= size (events s))%nat ->
  get_event_for_id id s = Some (find_ptr id l, s).
Proof.
  intros Hr Hsz. unfold get_event_for_id. rewrite (bind_run _ _ _ _ _ eq_refl).
  revert Hsz Hr. change (Datatypes.id s) with s.
  generalize (first_event s) (size (events s)). induction l as [|i l IH]; intros p n Hn; cbn [seg].
  - intros ->. done.
  - intros (-> & H0 & e & He & (Hid & _) & Hs). cbn [find_ptr]. destruct n as [|n]; [simpl in Hn; lia|].
    destruct (Z.eqb_spec (i_id i) id) as [E|E]; [apply loop_inr | erewrite loop_inl; [apply IH; [simpl in Hn; lia | done]|]];
      rewrite (proj2 (Z.eqb_neq _ 0) H0), (bind_run _ _ _ _ _ (deref_run _ _ _ He)), Hid.
    + by rewrite (proj2 (Z.eqb_eq _ _) E).
    + by rewrite (proj2 (Z.eqb_neq _ _) E).
Qed.

Lemma get_event_for_id_spec s l id : rep s l -> get_event_for_id id s = Some (find_ptr id l, s).
Proof. intros Hr. apply get_event_for_id_walk; [apply Hr | by apply rep_size]. Qed.

Lemma get_prev_event_for_id_spec s l id : rep s l -> get_prev_event_for_id id s = Some (prev_ptr id l, s).
Proof.
  intros Hr. unfold get_prev_event_for_id. rewrite (bind_run _ _ _ _ _ eq_refl).
  pose proof (rep_size _ _ Hr) as Hsz. apply rep_chain in Hr. revert Hsz Hr. change (Datatypes.id s) with s.
  generalize (first_event s) (size (events s)). induction l as [|i l IH]; intros p n Hn; cbn [seg].
  - intros ->. done.
  - intros (-> & H0 & e & He & _ & Hs). destruct n as [|n]; [simpl in Hn; lia|].
    destruct l as [|j l].
    + apply loop_inr. rewrite (proj2 (Z.eqb_neq _ 0) H0), (bind_run _ _ _ _ _ (deref_run _ _ _ He)).
      cbn [seg] in Hs. by rewrite Hs.
    + pose proof Hs as Hs'. cbn [seg] in Hs'. destruct Hs' as (Hj & Hj0 & e' & He' & (Hid & _) & _).
      change (prev_ptr id (i :: j :: l)) with (if i_id j =? id then i_ptr i else prev_ptr id (j :: l)).
      destruct (Z.eqb_spec (i_id j) id) as [E|E];
        [apply loop_inr | erewrite loop_inl; [apply IH; [simpl in *; lia | done]|]];
        rewrite (proj2 (Z.eqb_neq _ 0) H0), (bind_run _ _ _ _ _ (deref_run _ _ _ He)), (proj2 (Z.eqb_neq _ 0) Hj0),
          (bind_run _ _ _ _ _ (deref_run _ _ _ He')), Hid.
      * by rewrite (proj2 (Z.eqb_eq _ _) E).
      * by rewrite (proj2 (Z.eqb_neq _ _) E).
Qed.

(** ** Operations of the registry *)

Definition remove (id : Z) (l : list info) : list info := List.filter (fun i => negb (i_id i =? id)) l.

Definition last_ptr (l : list info) : Z := match last l with Some i => i_ptr i | None => 0 end.


Lemma remove_id_ne id l : id ∉ i_id <$> l -> remove id l = l.
Proof.
  induction l as [|i l IH]; cbn [remove List.filter fmap list_fmap]; [done|]. intros Hn.
  apply not_elem_of_cons in Hn as [Hi Hl]. rewrite (proj2 (Z.eqb_neq (i_id i) id)) by done. cbn [negb].
  f_equal. by apply IH.
Qed.

Lemma find_ptr_ne id l : id ∉ i_id <$> l -> find_ptr id l = 0 /\ prev_ptr id l = 0.
Proof.
  induction l as [|i l IH]; [done|]. intros Hn. apply not_elem_of_cons in Hn as [Hi Hl].
  destruct (IH Hl) as [Hf Hp]. cbn [find_ptr prev_ptr]. rewrite (proj2 (Z.eqb_neq (i_id i) id)) by done.
  split; [done|]. destruct l as [|j l]; [done|]. apply not_elem_of_cons in Hl as [Hj _].
  by rewrite (proj2 (Z.eqb_neq (i_id j) id)).
Qed.

(** Where an identifier is, everything else is elsewhere. *)
Lemma split_id l1 i l2 : NoDup (i_id <$> l1 ++ i :: l2) -> i_id i ∉ i_id <$> l1 /\ i_id i ∉ i_id <$> l2.
Proof.
  rewrite fmap_app. cbn [fmap list_fmap]. intros Hd. apply NoDup_app in Hd as (_ & Hn & Hd).
  apply NoDup_cons in Hd as [Hd _]. split; [|done]. intros Hi. apply (Hn _ Hi). by left.
Qed.


Lemma remove_split l1 i l2 : NoDup (i_id <$> l1 ++ i :: l2) -> remove (i_id i) (l1 ++ i :: l2) = l1 ++ l2.
Proof.
  intros Hd. destruct (split_id _ _ _ Hd) as [H1 H2]. unfold remove. rewrite List.filter_app. cbn [List.filter].
  rewrite Z.eqb_refl. cbn [negb]. f_equal; by apply remove_id_ne.
Qed.

Lemma find_split l1 i l2 : NoDup (i_id <$> l1 ++ i :: l2) ->
  find_ptr (i_id i) (l1 ++ i :: l2) = i_ptr i /\ prev_ptr (i_id i) (l1 ++ i :: l2) = last_ptr l1.
Proof.
  intros Hd. destruct (split_id _ _ _ Hd) as [H1 H2]. clear Hd. induction l1 as [|j l1 IH].
  - cbn [app find_ptr]. rewrite Z.eqb_refl. split; [done|]. cbn [prev_ptr]. destruct l2 as [|k l2]; [done|].
    apply not_elem_of_cons in H2 as [Hk H2]. rewrite (proj2 (Z.eqb_neq (i_id k) _)) by done.
    apply (find_ptr_ne _ (k :: l2)). by apply not_elem_of_cons.
  - apply not_elem_of_cons in H1 as [Hj H1]. destruct (IH H1) as [Hf Hp]. cbn [app find_ptr].
    rewrite (proj2 (Z.eqb_neq (i_id j) _)) by done. split; [done|].
    destruct l1 as [|k l1]; cbn [app prev_ptr].
    + by rewrite Z.eqb_refl.
    + apply not_elem_of_cons in H1 as [Hk H1]. rewrite (proj2 (Z.eqb_neq (i_id k) _)) by done. exact Hp.
Qed.

Lemma id_cases id l : id ∉ i_id <$> l \/ exists l1 i l2, l = l1 ++ i :: l2 /\ i_id i = id.
Proof.
  destruct (decide (id ∈ i_id <$> l)) as [Hi|]; [right | by left].
  apply list_elem_of_fmap in Hi as (i & -> & Hi). apply list_elem_of_split in Hi as (l1 & l2 & ->). eauto.
Qed.

(** The addresses of a split registry. *)
Lemma owned_split s l1 i l2 : rep s (l1 ++ i :: l2) ->
  (i_ptr i ∉ i_ptr <$> l1) /\ (i_ptr i ∉ i_ptr <$> l2) /\ (i_namep i ∉ i_namep <$> l1 ++ l2) /\
  i_ptr i <> 0 /\ i_namep i <> 0 /\ i_ptr i <> i_namep i /\
  i_ptr i ∈ live (hp s) /\ i_namep i ∈ live (hp s) /\ (exists e, events s !! i_ptr i = Some e /\ matches e i).
Proof.
  intros Hr. pose proof (rep_owned _ _ Hr) as Ho. pose proof (rep_live _ _ Hr) as Hl. unfold owned in *.
  apply NoDup_app in Ho as (Hp & Hpn & Hn). rewrite fmap_app in Hp. cbn [fmap list_fmap] in Hp.
  apply NoDup_app in Hp as (_ & Hp1 & Hp2). apply NoDup_cons in Hp2 as [Hp2 _].
  rewrite !Forall_forall in Hl.
  assert (Hmp : i_ptr i ∈ i_ptr <$> l1 ++ i :: l2) by (apply list_elem_of_fmap_2; set_solver).
  assert (Hmn : i_namep i ∈ i_namep <$> l1 ++ i :: l2) by (apply list_elem_of_fmap_2; set_solver).
  destruct (Hl (i_ptr i)) as [? ?]; [set_solver|]. destruct (Hl (i_namep i)) as [? ?]; [set_solver|].
  split_and!; try done.
  - intros Hi. apply (Hp1 _ Hi). by left.
  - rewrite fmap_app in Hn. cbn [fmap list_fmap] in Hn. apply NoDup_app in Hn as (_ & Hn1 & Hn2).
    apply NoDup_cons in Hn2 as [Hn2 _]. rewrite fmap_app, elem_of_app. intros [Hi|Hi]; [|done].
    apply (Hn1 _ Hi). by left.
  - intros E. apply (Hpn _ Hmp). by rewrite E.
  - pose proof (rep_chain _ _ Hr) as Hc. apply hlec_seg_app in Hc as (r & _ & Hc). cbn [seg] in Hc.
    destruct Hc as (-> & _ & e & He & Hm & _). by exists e.
Qed.

(** ** Changing an event in place *)




(** ** A new event *)

Lemma update_run p e f s : events s !! p = Some e ->
  update p f s = Some (tt, s <| events := <[p := f e]> (events s) |>).
Proof. intros E. unfold update. by rewrite E. Qed.

Lemma update_top h m nm fe le li p e f :
  update p f (Hlec h (<[p := e]> m) nm fe le li) = Some (tt, Hlec h (<[p := f e]> m) nm fe le li).
Proof.
  rewrite (update_run p e) by apply lookup_insert_eq. do 2 f_equal. unfold set_field. cbn. by rewrite insert_insert_eq.
Qed.

Lemma rep_nil s l : rep s l -> (first_event s = 0 <-> l = []).
Proof.
  intros Hr. pose proof (rep_chain _ _ Hr) as Hc. destruct l as [|i l]; cbn [seg] in Hc; [done|].
  destruct Hc as (_ & H0 & _). done.
Qed.

Section New.
Context `{Allocator} `{!LawfulAllocator} (junk : Z).

Lemma event_malloc_run s p h : malloc 40 (hp s) = (p, h) -> p <> 0 ->
  event_malloc junk s = Some (p, Hlec h (<[p := Event junk junk junk false junk]> (events s)) (names s)
                                   (first_event s) (last_event s) (last_id s)).
Proof. intros Em Hp. unfold event_malloc. by rewrite Em, (proj2 (Z.eqb_neq p 0) Hp). Qed.

(** A fresh event, linked behind the last one. *)
Lemma alloc_event_spec s l p h :
  rep s l -> tail_ok s l -> malloc 40 (hp s) = (p, h) -> p <> 0 ->
  exists s1, alloc_event junk s = Some (p, s1) /\ hp s1 = h /\ names s1 = names s /\ last_id s1 = last_id s /\
    last_event s1 = p /\ events s1 !! p = Some (Event junk 0 0 true 0) /\
    seg (events s1) (first_event s1) l p.
Proof.
  intros Hr Ht Em Hp. destruct (malloc_fresh _ _ _ _ Em Hp) as [_ Hf].
  assert (Hfresh : p ∉ i_ptr <$> l).
  { intros Hi. apply Hf. pose proof (rep_live _ _ Hr) as Hl. rewrite Forall_forall in Hl. apply Hl. unfold owned. set_solver. }
  unfold alloc_event. rewrite (bind_run _ _ _ _ _ (event_malloc_run _ _ _ Em Hp)).
  rewrite (proj2 (Z.eqb_neq p 0) Hp).
  do 4 rewrite (bind_run _ _ _ _ _ (update_top _ _ _ _ _ _ _ _ _)).
  set (s0 := Hlec _ _ _ _ _ _). rewrite (bind_run (gets id) _ _ _ _ eq_refl).
  change (first_event (id s0)) with (first_event s). change (last_event (id s0)) with (last_event s).
  destruct (decide (l = [])) as [->|Hne].
  - rewrite (proj2 (rep_nil _ _ Hr)) by done. cbn [Z.eqb]. rewrite (bind_run _ _ _ _ _ eq_refl).
    eexists; split; [done|]. split_and!; try done. by apply lookup_insert_eq.
  - rewrite (proj2 (Z.eqb_neq (first_event s) 0)) by (by rewrite (rep_nil _ _ Hr)).
    destruct (exists_last Hne) as (l1 & i & ->). unfold tail_ok in Ht. rewrite last_snoc in Ht. rewrite Ht.
    destruct (owned_split s l1 i [] Hr) as (Hi1 & _ & _ & _ & _ & _ & _ & _ & e & He & _).
    assert (Hpi : p <> i_ptr i) by (intros ->; apply Hfresh; rewrite fmap_app; set_solver).
    assert (He0 : events s0 !! i_ptr i = Some e) by (cbn; by rewrite lookup_insert_ne).
    rewrite (bind_run _ _ s0 _ tt (bind_run _ _ _ _ _ (update_run _ _ _ _ He0))).
    eexists; split; [done|]. split_and!; try done; cbn.
    + rewrite lookup_insert_ne by done. by apply lookup_insert_eq.
    + apply (seg_relink _ _ _ _ 0); [done | | exact He0].
      apply seg_insert_ne; [done|]. apply (rep_chain _ _ Hr).
Qed.

Lemma strdup_run s t q hq : malloc (Z.of_nat (length t) + 1) (hp s) = (q, hq) ->
  strdup (Some t) s = if q =? 0 then None else Some (q, s <| hp := hq |> <| names := <[q := t]> (names s) |>).
Proof. intros E. unfold strdup. mstep. unfold option_bind. by rewrite E. Qed.


Definition new_info (s : hlec) (t : list Z) (p q : Z) : info := Info p q (last_id s) t 0 true.

(** Adding the event to what [rep] says of the heap. *)
Lemma rep_snoc s l t p q h hq m fe :
  rep s l -> malloc 40 (hp s) = (p, h) -> p <> 0 -> malloc (Z.of_nat (length t) + 1) h = (q, hq) -> q <> 0 ->
  seg m fe (l ++ [new_info s t p q]) 0 ->
  rep (Hlec hq m (<[q := t]> (names s)) fe p (last_id s + 1)) (l ++ [new_info s t p q]).
Proof.
  intros [Hc Hns Ho Hl Hids Hnx Hlast] Ep Hp Eq Hq Hs.
  destruct (malloc_fresh _ _ _ _ Ep Hp) as [_ Hfp], (malloc_fresh _ _ _ _ Eq Hq) as [_ Hfq].
  pose proof (malloc_live _ _ _ _ Ep Hp) as Lp. pose proof (malloc_live _ _ _ _ Eq Hq) as Lq.
  assert (Hin : forall x, x ∈ owned l -> x <> 0 /\ x ∈ live (hp s)) by (by apply Forall_forall).
  assert (Eo : owned (l ++ [new_info s t p q]) ≡ₚ p :: q :: owned l).
  { unfold owned. rewrite !fmap_app. cbn. solve_Permutation. }
  split; cbn [hp events names first_event last_id]; try done.
  - apply Forall_app. split.
    + apply Forall_forall. intros i Hi. rewrite lookup_insert_ne; [by revert i Hi; apply Forall_forall|].
      intros E. destruct (Hin (i_namep i)) as [_ Hi2]; [unfold owned; apply elem_of_app; right; by apply list_elem_of_fmap_2|].
      rewrite <- E in Hi2. set_solver.
    + apply Forall_singleton. cbn. apply lookup_insert_eq.
  - rewrite Eo. rewrite !NoDup_cons. split_and!; [| |done].
    + intros Hi. apply elem_of_cons in Hi as [->|Hi]; [set_solver|]. by destruct (Hin p Hi).
    + intros Hi. destruct (Hin q Hi). set_solver.
  - rewrite Eo. rewrite !Forall_cons. split_and!; [done | set_solver | done | set_solver |].
    apply Forall_forall. intros x Hx. destruct (Hin x Hx). set_solver.
  - rewrite fmap_app. apply NoDup_app. split_and!; [done| |apply NoDup_singleton].
    intros x Hx [= ->]%list_elem_of_singleton. apply list_elem_of_fmap in Hx as (i & E & Hi).
    rewrite Forall_forall in Hnx. specialize (Hnx i Hi). cbn in E. lia.
  - apply Forall_app. split; [|apply Forall_singleton; cbn; lia].
    eapply Forall_impl; [exact Hnx|]. cbn. intros. lia.
  - lia.
Qed.

Lemma new_event_spec s l t p h :
  rep s l -> tail_ok s l -> last_id s < 2 ^ 63 - 1 -> malloc 40 (hp s) = (p, h) -> p <> 0 ->
  let '(q, hq) := malloc (Z.of_nat (length t) + 1) h in
  if decide (q = 0) then new_event junk (Some t) s = None
  else exists s', new_event junk (Some t) s = Some (p, s') /\ last_id s' = last_id s + 1 /\
    rep s' (l ++ [new_info s t p q]) /\ tail_ok s' (l ++ [new_info s t p q]).
Proof.
  intros Hr Ht Hlt Ep Hp. destruct (malloc _ h) as [q hq] eqn:Eq.
  destruct (alloc_event_spec s l p h Hr Ht Ep Hp) as (s1 & E1 & Hh & Hnm & Hli & Hle & Hev & Hs).
  pose proof (rep_last _ _ Hr) as Hl0.
  assert (Hpl : p ∉ i_ptr <$> l).
  { intros Hi. destruct (malloc_fresh _ _ _ _ Ep Hp) as [_ Hf]. apply Hf.
    pose proof (rep_live _ _ Hr) as Hl. rewrite Forall_forall in Hl. apply Hl. unfold owned. set_solver. }
  assert (Hw : swrap 64 (last_id s + 1) = last_id s + 1).
  { unfold swrap. rewrite wrap_small by lia. case_if; lia. }
  unfold new_event. rewrite (bind_run _ _ _ _ _ E1), (proj2 (Z.eqb_neq p 0) Hp).
  destruct s1 as [h1 m nm fe le li]. cbn [hp names last_id last_event events first_event] in *. subst h1 nm li le.
  rewrite <- (insert_id m p _ Hev).
  rewrite (bind_run (gets id) _ _ _ _ eq_refl). unfold modify. rewrite (bind_run _ _ _ _ _ eq_refl).
  unfold set_field. cbn [last_id hp events names first_event last_event id]. rewrite Hw.
  rewrite (bind_run _ _ _ _ _ (update_top _ _ _ _ _ _ _ _ _)).
  destruct (decide (q = 0)) as [->|Hq].
  - cbv [mbind M_bind]. erewrite strdup_run; [|exact Eq]. done.
  - erewrite (bind_run (strdup (Some t))); [|erewrite strdup_run by exact Eq; by rewrite (proj2 (Z.eqb_neq q 0) Hq)].
    unfold set_field. cbn [last_id hp events names first_event last_event].
    do 2 rewrite (bind_run _ _ _ _ _ (update_top _ _ _ _ _ _ _ _ _)).
    eexists; split; [done|]. split; [done|]. split.
    + apply (rep_snoc _ _ _ _ _ h); try done. apply hlec_seg_app. exists p. split; [by apply seg_insert_ne|].
      cbn [seg]. split_and!; [done..|]. eexists. split; [apply lookup_insert_eq|]. done.
    + unfold tail_ok. by rewrite last_snoc.
Qed.
End New.

(** ** Removing an event *)

Lemma seg_unlink m p l1 i l2 e :
  NoDup (i_ptr <$> l1 ++ i :: l2) -> seg m p (l1 ++ i :: l2) 0 -> m !! i_ptr i = Some e ->
  match last l1 with
  | Some j => exists ej, m !! i_ptr j = Some ej /\
      seg (delete (i_ptr i) (<[i_ptr j := ej <| ev_next := ev_next e |>]> m)) p (l1 ++ l2) 0
  | None => seg (delete (i_ptr i) m) (ev_next e) (l1 ++ l2) 0
  end.
Proof.
  intros Hd Hs He. rewrite fmap_app in Hd. cbn [fmap list_fmap] in Hd.
  apply NoDup_app in Hd as (Hd1 & Hn & Hd2). apply NoDup_cons in Hd2 as [Hi2 _].
  assert (Hi1 : i_ptr i ∉ i_ptr <$> l1) by (intros Hi; apply (Hn _ Hi); by left).
  apply hlec_seg_app in Hs as (r & H1 & H2). cbn [seg] in H2. destruct H2 as (-> & H0 & e' & He' & _ & H2).
  assert (e' = e) as -> by congruence.
  destruct (last l1) as [j|] eqn:El.
  - apply last_Some in El as (l & ->).
    assert (Hj : i_ptr j ∉ i_ptr <$> l2).
    { intros Hj. apply (Hn (i_ptr j)); [rewrite fmap_app; set_solver | by right]. }
    assert (Hij : i_ptr i ∉ i_ptr <$> l ++ [j]) by done.
    pose proof H1 as H1'. apply hlec_seg_app in H1' as (x & Hl & Hx). cbn [seg] in Hx.
    destruct Hx as (-> & _ & ej & Hej & _). exists ej. split; [done|].
    apply hlec_seg_app. exists (ev_next e). split.
    + apply seg_delete_ne; [done|]. apply (seg_relink _ _ _ _ (i_ptr i)); [|done..].
      intros Hj'. rewrite fmap_app in Hd1. apply NoDup_app in Hd1 as (_ & Hd1 & _). apply (Hd1 _ Hj'). by left.
    + apply seg_delete_ne; [done|]. by apply seg_insert_ne.
  - apply last_None in El as ->. cbn [app]. by apply seg_delete_ne.
Qed.

(** The rest of the registry without the two blocks of an event. *)
Lemma rep_without s l1 i l2 m fe h :
  rep s (l1 ++ i :: l2) -> live h = live (hp s) ∖ {[i_namep i]} ∖ {[i_ptr i]} -> seg m fe (l1 ++ l2) 0 ->
  rep (Hlec h m (delete (i_namep i) (names s)) fe (last_event s) (last_id s)) (l1 ++ l2).
Proof.
  intros Hr Hh Hs. destruct (owned_split _ _ _ _ Hr) as (Hi1 & Hi2 & Hn & _).
  destruct Hr as [Hc Hns Ho Hl Hids Hnx Hlast].
  assert (Eo : owned (l1 ++ i :: l2) ≡ₚ i_ptr i :: i_namep i :: owned (l1 ++ l2)).
  { unfold owned. rewrite !fmap_app. cbn. solve_Permutation. }
  rewrite Eo in Ho, Hl. apply NoDup_cons in Ho as [Hp Ho]. apply NoDup_cons in Ho as [Hnp Ho].
  apply Forall_cons in Hl as [_ Hl]. apply Forall_cons in Hl as [_ Hl].
  rewrite <- Permutation_middle in Hns, Hids, Hnx. apply Forall_cons in Hns as [_ Hns].
  apply Forall_cons in Hnx as [_ Hnx]. apply NoDup_cons in Hids as [_ Hids].
  split; cbn [hp events names first_event last_id]; try done.
  - apply Forall_forall. intros j Hj. rewrite lookup_delete_ne; [by revert j Hj; apply Forall_forall|].
    intros E. apply Hn. rewrite E. by apply list_elem_of_fmap_2.
  - apply Forall_forall. intros x Hx. rewrite Forall_forall in Hl. destruct (Hl x Hx) as [? ?].
    split; [done|]. rewrite Hh. set_solver.
Qed.

Lemma update_at h m nm fe le li p e f : m !! p = Some e ->
  update p f (Hlec h m nm fe le li) = Some (tt, Hlec h (<[p := f e]> m) nm fe le li).
Proof. intros E. by rewrite (update_run p e). Qed.

Lemma free_name_run q h m nm fe le li : q <> 0 -> q ∈ live h ->
  free_name q (Hlec h m nm fe le li)
  = Some (tt, Hlec (Heap (live h ∖ {[q]}) (calls h)) m (delete q nm) fe le li).
Proof. intros Hq Hl. unfold free_name. cbn [hp]. by rewrite free_live. Qed.

Lemma free_event_run q h m nm fe le li : q <> 0 -> q ∈ live h ->
  free_event q (Hlec h m nm fe le li)
  = Some (tt, Hlec (Heap (live h ∖ {[q]}) (calls h)) (delete q m) nm fe le li).
Proof. intros Hq Hl. unfold free_event. cbn [hp]. by rewrite free_live. Qed.

Lemma id_unique l1 i l2 j : NoDup (i_id <$> l1 ++ i :: l2) -> j ∈ l1 ++ i :: l2 -> i_id j = i_id i -> j = i.
Proof.
  intros Hd Hj E. destruct (split_id _ _ _ Hd) as [H1 H2].
  apply elem_of_app in Hj as [Hj|Hj]; [|apply elem_of_cons in Hj as [Hj|Hj]]; [|done|].
  - destruct H1. rewrite <- E. by apply list_elem_of_fmap_2.
  - destruct H2. rewrite <- E. by apply list_elem_of_fmap_2.
Qed.

(** The end of a removal, from the heap where the event is unlinked. *)
Lemma discard_spec s l1 i l2 e m fe :
  rep s (l1 ++ i :: l2) -> matches e i -> m !! i_ptr i = Some e -> seg (delete (i_ptr i) m) fe (l1 ++ l2) 0 ->
  exists s', (_ ← update (i_ptr i) (fun e => e <| ev_next := 0 |>);
              _ ← free_name (ev_name e); free_event (i_ptr i))
               (Hlec (hp s) m (names s) fe (last_event s) (last_id s)) = Some (tt, s') /\
    rep s' (l1 ++ l2) /\ last_event s' = last_event s /\ last_id s' = last_id s /\
    events s' !! i_ptr i = None /\ i_ptr i ∉ live (hp s').
Proof.
  intros Hr (_ & Hen & _) Hm Hs. destruct (owned_split _ _ _ _ Hr) as (_ & _ & _ & H0 & Hn0 & Hpn & Lp & Ln & _).
  rewrite (bind_run _ _ _ _ _ (update_at _ _ _ _ _ _ _ _ _ Hm)), Hen.
  rewrite (bind_run _ _ _ _ _ (free_name_run _ _ _ _ _ _ _ Hn0 Ln)).
  rewrite free_event_run by (done || (cbn; set_solver)). cbn [live calls].
  eexists; split; [done|]. split_and!; try done; cbn.
  - rewrite delete_insert_eq. by apply rep_without.
  - by apply lookup_delete_eq.
  - set_solver.
Qed.

Lemma remove_event_id_spec s l id : rep s l ->
  exists s', remove_event_id id s = Some (tt, s') /\ rep s' (remove id l) /\
    last_event s' = last_event s /\ last_id s' = last_id s /\
    forall i, i ∈ l -> i_id i = id -> events s' !! i_ptr i = None /\ i_ptr i ∉ live (hp s').
Proof.
  intros Hr. unfold remove_event_id.
  rewrite (bind_run _ _ _ _ _ (get_prev_event_for_id_spec _ _ id Hr)).
  rewrite (bind_run _ _ _ _ _ (get_event_for_id_spec _ _ id Hr)).
  destruct (id_cases id l) as [Hn | (l1 & i & l2 & -> & <-)].
  { destruct (find_ptr_ne _ _ Hn) as [-> _]. cbn [Z.eqb]. exists s. rewrite remove_id_ne by done.
    split_and!; try done. intros i Hi E. subst id. by apply (list_elem_of_fmap_2 i_id) in Hi. }
  pose proof (rep_ids _ _ Hr) as Hids. destruct (find_split _ _ _ Hids) as [-> ->]. rewrite remove_split by done.
  destruct (owned_split _ _ _ _ Hr) as (Hi1 & _ & _ & H0 & _ & _ & _ & _ & e & He & Hm).
  rewrite (proj2 (Z.eqb_neq _ 0) H0). rewrite (bind_run _ _ _ _ _ (deref_run _ _ _ He)).
  assert (Hd : NoDup (i_ptr <$> l1 ++ i :: l2)) by (pose proof (rep_owned _ _ Hr) as Ho; by apply NoDup_app in Ho as [Ho _]).
  pose proof (seg_unlink _ _ _ _ _ _ Hd (rep_chain _ _ Hr) He) as Hu.
  cut (exists s', (_ ← (if negb (last_ptr l1 =? 0) then update (last_ptr l1) (fun e0 => e0 <| ev_next := ev_next e |>)
                        else modify (fun s => s <| first_event := ev_next e |>));
                   _ ← update (i_ptr i) (fun e => e <| ev_next := 0 |>);
                   _ ← free_name (ev_name e); free_event (i_ptr i)) s = Some (tt, s') /\
      rep s' (l1 ++ l2) /\ last_event s' = last_event s /\ last_id s' = last_id s /\
      events s' !! i_ptr i = None /\ i_ptr i ∉ live (hp s')).
  { intros (s' & E & Hr' & Hle & Hli & Hev & Hlv). exists s'. split_and!; try done.
    intros j Hj Ej. by rewrite (id_unique _ _ _ _ Hids Hj Ej). }
  unfold last_ptr. destruct (last l1) as [j|] eqn:El.
  - destruct Hu as (ej & Hej & Hs). apply last_Some in El as (l & ->).
    assert (Hj0 : i_ptr j <> 0).
    { pose proof (rep_live _ _ Hr) as Hl. rewrite Forall_forall in Hl. apply Hl. unfold owned. set_solver. }
    rewrite (proj2 (Z.eqb_neq _ 0) Hj0). cbn [negb]. rewrite (bind_run _ _ _ _ _ (update_run _ _ _ _ Hej)).
    apply (discard_spec s _ _ _ _ _ (first_event s)); [done..| |done].
    rewrite lookup_insert_ne; [done|]. intros E. apply Hi1. rewrite <- E, fmap_app. set_solver.
  - cbn [Z.eqb negb]. unfold modify at 1. rewrite (bind_run _ _ _ _ _ eq_refl). by apply (discard_spec s).
Qed.

(** ** Every operation *)

Inductive target := ById (id : Z) | ByCtx (p : Z).


(** The event a call is about. *)
Definition resolve (l : list info) (t : target) : option Z :=
  match t with
  | ById id => if decide (id ∈ i_id <$> l) then Some id else None
  | ByCtx p => i_id ∘ snd <$> list_find (fun i => i_ptr i = p) l
  end.
(** A context is null or of an event that is registered. *)
Definition target_ok (l : list info) (t : target) : Prop :=
  match t with ById _ => True | ByCtx p => p = 0 \/ p ∈ i_ptr <$> l end.


Lemma resolve_ctx s l p : rep s l -> p = 0 \/ p ∈ i_ptr <$> l ->
  p = 0 /\ resolve l (ByCtx p) = None \/
  exists l1 i l2, l = l1 ++ i :: l2 /\ i_ptr i = p /\ resolve l (ByCtx p) = Some (i_id i).
Proof.
  intros Hr Hp. unfold resolve. destruct (list_find (fun i => i_ptr i = p) l) as [[k i]|] eqn:E.
  - right. apply list_find_Some in E as (Hi & Hip & _). exists (take k l), i, (drop (S k) l).
    split_and!; [|done..]. symmetry. by apply take_drop_middle.
  - left. split; [|done]. destruct Hp as [|Hp]; [done|]. apply list_elem_of_fmap in Hp as (i & -> & Hi).
    apply list_find_None in E. rewrite Forall_forall in E. by destruct (E i Hi).
Qed.







Section Refinement.
Context `{Allocator} `{!LawfulAllocator} (junk : Z).





(** ** The event after the last one is gone *)

Lemma new_event_at_stale_tail h m nm fe p li t h' :
  fe <> 0 -> malloc 40 h = (p, h') -> p <> 0 -> 0 <= li < 2 ^ 63 - 1 ->
  forall r s', new_event junk (Some t) (Hlec h m nm fe p li) = Some (r, s') ->
  first_event s' = fe /\ exists e, events s' = <[p := e]> m.
Proof.
  intros Hfe Em Hp Hli r s' E. unfold new_event in E. unfold alloc_event in E.
  assert (Ea : alloc_event junk (Hlec h m nm fe p li)
    = Some (p, Hlec h' (<[p := Event junk 0 0 true p]> m) nm fe p li)).
  { unfold alloc_event. rewrite (bind_run _ _ _ _ _ (event_malloc_run _ (Hlec h m nm fe p li) _ _ Em Hp)).
    rewrite (proj2 (Z.eqb_neq p 0) Hp). cbn [events names first_event last_event last_id].
    do 4 rewrite (bind_run _ _ _ _ _ (update_top _ _ _ _ _ _ _ _ _)).
    rewrite (bind_run (gets id) _ _ _ _ eq_refl). cbn [id first_event last_event].
    rewrite (proj2 (Z.eqb_neq fe 0) Hfe).
    erewrite (bind_run (update p _ ≫= _)); [done|].
    rewrite (bind_run _ _ _ _ _ (update_top _ _ _ _ _ _ _ _ _)). done. }
  fold (alloc_event junk) in E. rewrite (bind_run _ _ _ _ _ Ea), (proj2 (Z.eqb_neq p 0) Hp) in E.
  rewrite (bind_run (gets id) _ _ _ _ eq_refl) in E. unfold modify in E. rewrite (bind_run _ _ _ _ _ eq_refl) in E.
  unfold set_field in E. cbn [last_id hp events names first_event last_event id] in E.
  rewrite (bind_run _ _ _ _ _ (update_top _ _ _ _ _ _ _ _ _)) in E.
  destruct (malloc (Z.of_nat (length t) + 1) h') as [q hq] eqn:Eq.
  cbv [mbind M_bind] in E. erewrite strdup_run in E; [|exact Eq]. destruct (q =? 0); [done|].
  unfold set_field in E. cbn [last_id hp events names first_event last_event] in E.
  do 2 rewrite update_top in E. injection E as <- <-. split; [done|]. eexists. cbn [events]. done.
Qed.

Lemma new_event_stale s i t p h l1 :
  seg (events s) (first_event s) l1 0 -> l1 <> [] -> last_event s = i_ptr i -> events s !! i_ptr i = None ->
  malloc 40 (hp s) = (p, h) -> p <> 0 -> p <> i_ptr i -> new_event junk (Some t) s = None.
Proof.
  intros Hs Hne Hl Hev Em Hp Hpi. destruct s as [h0 m nm fe le li]. cbn [events first_event last_event hp] in *. subst le.
  assert (Hfe : fe <> 0).
  { destruct l1 as [|j l1]; [done|]. cbn [seg] in Hs. destruct Hs as (-> & ? & _). done. }
  unfold new_event, alloc_event. cbv [mbind M_bind]. erewrite event_malloc_run by done.
  rewrite (proj2 (Z.eqb_neq p 0) Hp). cbn [events names first_event last_event last_id].
  do 4 rewrite update_top. cbn [gets id first_event last_event].
  rewrite (proj2 (Z.eqb_neq fe 0) Hfe). unfold update. cbn [events]. by rewrite lookup_insert_ne, Hev.
Qed.
End Refinement.


(** After the last of several events is removed, the next [new_event]
    that gets memory stores through the freed block - unless it gets that
    very block, and then its event is in no list: its identifier finds
    nothing. *)
Theorem new_event_after_last_removed `{Alloc : Allocator} `{!LawfulAllocator} (junk : Z) (s : hlec) (l : list info) (i : info) :
  rep s (l ++ [i]) -> tail_ok s (l ++ [i]) -> l <> [] -> last_id s < 2 ^ 63 - 1 ->
  exists s1, remove_event_id (i_id i) s = Some (tt, s1) /\ forall t p h, malloc 40 (hp s1) = (p, h) -> p <> 0 ->
    (p <> i_ptr i -> new_event junk (Some t) s1 = None) /\
    (p = i_ptr i -> forall r s2, new_event junk (Some t) s1 = Some (r, s2) ->
       get_event_for_id (last_id s1) s2 = Some (0, s2)).
Proof.
  intros Hr Ht Hne Hlt. destruct (remove_event_id_spec s _ (i_id i) Hr) as (s1 & E & Hr1 & Hle & Hli & Hgone).
  rewrite remove_split, app_nil_r in Hr1 by apply (rep_ids _ _ Hr).
  destruct (Hgone i) as [Hev _]; [set_solver | done|]. unfold tail_ok in Ht. rewrite last_snoc in Ht.
  exists s1. split; [done|]. intros t p h Em Hp.
  assert (Hl1 : last_event s1 = i_ptr i) by congruence.
  split; [intros Hpi; by apply (new_event_stale junk s1 i t p h l (rep_chain _ _ Hr1))|].
  intros -> r s2 E2. pose proof (rep_last _ _ Hr1) as Hl0.
  pose proof (rep_nil _ _ Hr1) as Hnil. pose proof (rep_chain _ _ Hr1) as Hc. pose proof (rep_size _ _ Hr1) as Hsz.
  pose proof (rep_next _ _ Hr1) as Hnx.
  destruct s1 as [h0 m nm fe le li]. cbn [events first_event last_event hp last_id] in *. rewrite Hl1 in E2.
  apply (new_event_at_stale_tail junk _ _ _ _ _ _ _ h) in E2 as (Hf & e & Hm); [|by rewrite Hnil|done..|lia].
  rewrite (get_event_for_id_walk s2 l).
  - do 2 f_equal. apply find_ptr_ne. intros Hi. apply list_elem_of_fmap in Hi as (j & Ej & Hj).
    rewrite Forall_forall in Hnx. specialize (Hnx j Hj). lia.
  - rewrite Hf, Hm. apply seg_insert_ne; [|done]. intros Hi.
    destruct (owned_split _ _ _ _ Hr) as (Hi1 & _). done.
  - rewrite Hm. rewrite map_size_insert, Hev. lia.
Qed.

(** Raising an event runs its callback, with the arguments, exactly when
    there is such an event, it is not quiet and a callback is registered;
    otherwise it answers -1 and changes nothing. *)
Theorem raise_event_runs (call : Z -> Z -> Z -> M hlec Z) (s : hlec) (l : list info) (t : target)
    (argc args : Z) :
  rep s l -> target_ok l t ->
  match t with ById id => raise_event_id call id argc args s | ByCtx p => raise_event call p argc args s end
  = match resolve l t ≫= fun id => snd <$> list_find (fun i => i_id i = id) l with
    | Some i => if i_quiet i || (i_cb i =? 0) then Some (-1, s) else call (i_cb i) argc args s
    | None => Some (-1, s)
    end.
Proof.
  intros Hr Ht.
  assert (Hin : forall l1 i l2, l = l1 ++ i :: l2 ->
    snd <$> list_find (fun j => i_id j = i_id i) l = Some i /\
    (if i_ptr i =? 0 then mret (-1) else
       e ← deref (i_ptr i); if quiet e then mret (-1) else if event_callback e =? 0 then mret (-1)
                            else call (event_callback e) argc args) s
    = if i_quiet i || (i_cb i =? 0) then Some (-1, s) else call (i_cb i) argc args s).
  { intros l1 i l2 ->. destruct (split_id _ _ _ (rep_ids _ _ Hr)) as [H1 _]. split.
    - rewrite list_find_app_r; [cbn; by rewrite decide_True|]. apply list_find_None, Forall_forall.
      intros j Hj E. apply H1. rewrite <- E. by apply list_elem_of_fmap_2.
    - destruct (owned_split _ _ _ _ Hr) as (_ & _ & _ & H0 & _ & _ & _ & _ & e & He & _ & _ & Hcb & Hq).
      rewrite (proj2 (Z.eqb_neq _ 0) H0), (bind_run _ _ _ _ _ (deref_run _ _ _ He)), Hcb, Hq.
      destruct (i_quiet i); [done|]. cbn [orb]. by destruct (i_cb i =? 0). }
  destruct t as [id|p]; cbn [resolve].
  - unfold raise_event_id. rewrite (bind_run _ _ _ _ _ (get_event_for_id_spec _ _ id Hr)).
    destruct (id_cases id l) as [Hn | (l1 & i & l2 & El & <-)].
    + destruct (find_ptr_ne _ _ Hn) as [-> _]. by rewrite decide_False.
    + destruct (Hin _ _ _ El) as [Hf Hk]. rewrite decide_True by (rewrite El; apply list_elem_of_fmap_2; set_solver).
      cbn [mbind option_bind]. rewrite Hf. rewrite El in Hr |- *. destruct (find_split _ _ _ (rep_ids _ _ Hr)) as [-> _].
      exact Hk.
  - unfold raise_event. destruct (resolve_ctx _ _ _ Hr Ht) as [[-> E] | (l1 & i & l2 & El & <- & E)]; cbn [resolve] in E; rewrite E.
    + done.
    + destruct (Hin _ _ _ El) as [Hf Hk]. cbn [mbind option_bind]. rewrite Hf. exact Hk.
Qed.

(** ** The theorems at work *)

Lemma rep_no_events h : rep (no_events h) [].
Proof. split; cbn; try constructor; done. Qed.

Definition ping : info := Info 0x1000 0x2000 0 (cstr "ping") 0 true.
Definition pong : info := Info 0x3000 0x4000 1 (cstr "pong") 0 true.
Definition ping_only : hlec :=
  Hlec (Heap ({[0x2000]} ∪ ({[0x1000]} ∪ ∅)) 2) {[0x1000 := Event 0 0x2000 0 true 0]} {[0x2000 := cstr "ping"]} 0x1000 0x1000 1.

Lemma ping_rep : rep ping_only [ping] /\ tail_ok ping_only [ping].
Proof.
  pose proof (@new_event_spec bump bump_lawful 0 (no_events (Heap ∅ 0)) [] (cstr "ping") 0x1000
    (Heap ({[0x1000]} ∪ ∅) 1) (rep_no_events _) I ltac:(done) ltac:(done) ltac:(done)) as H.
  destruct H as (s' & E & _ & Hr & Ht). change (rep s' [ping]) in Hr. change (tail_ok s' [ping]) in Ht.
  assert (ping_only = s') as ->; [|done]. apply (f_equal (fmap snd)) in E. vm_compute in E. by injection E.
Qed.




Definition both : hlec := default ping_only (snd <$> @new_event bump 0 (Some (cstr "pong")) ping_only).

Lemma both_rep : rep both [ping; pong] /\ tail_ok both [ping; pong] /\ last_id both = 2.
Proof.
  destruct ping_rep as [Hr Ht].
  pose proof (@new_event_spec bump bump_lawful 0 ping_only [ping] (cstr "pong") 0x3000
    (Heap ({[0x3000]} ∪ live (hp ping_only)) 3) Hr Ht ltac:(done) ltac:(done) ltac:(done)) as H.
  destruct H as (s' & E & Hl & Hr' & Ht'). change (rep s' [ping; pong]) in Hr'. change (tail_ok s' [ping; pong]) in Ht'.
  unfold both. rewrite E. done.
Qed.

Lemma new_event_after_last_removed_witness :
  exists s1, remove_event_id 1 both = Some (tt, s1) /\ @new_event bump 0 (Some (cstr "again")) s1 = None.
Proof.
  destruct both_rep as (Hr & Ht & Hl).
  destruct (@new_event_after_last_removed bump bump_lawful 0 both [ping] pong Hr Ht) as (s1 & E & Hn);
    [done | rewrite Hl; lia |].
  exists s1. split; [exact E|]. vm_compute in E. injection E as <-.
  eapply (Hn (cstr "again") 0x5000); [reflexivity | done | done].
Defined.

Lemma raise_event_runs_witness :
  raise_event_id (fun _ _ _ => mret 7) 0 0 0 ping_only = Some (-1, ping_only) /\
  raise_event_id (fun _ _ _ => mret 7) 9 0 0 ping_only = Some (-1, ping_only).
Proof.
  destruct ping_rep as [Hr Ht].
  split; [exact (raise_event_runs (fun _ _ _ => mret 7) ping_only [ping] (ById 0) 0 0 Hr I)
         |exact (raise_event_runs (fun _ _ _ => mret 7) ping_only [ping] (ById 9) 0 0 Hr I)].
Defined.
