(* ===== verification/Vector.v ===== *)
(** * The kernel's [vector], [klibc/vector]

    A vector of a trivially copyable type owns a block of cells of the heap;
    a cell that was never written holds nothing.  To touch a cell outside of
    a live block is undefined.  The type has no destructor to run, as
    [io_mapping], the type the kernel uses it at.  A value argument is taken
    as the value it has at the call, so it is not a reference into the
    vector itself. *)
From S2P Require Import Prelude Alloc.

Record vec := Vec { data_ : Z; size_ : Z; capacity_ : Z }.

Section Vector.
Context {T : Type} (sizeof_T : Z) `{Allocator}.

(** The heap and the cells of the blocks vectors own. *)
Record vmem := VMem { vheap : heap; blocks : gmap Z (list (option T)) }.

(** [malloc], as cells. *)
Definition vmalloc (bytes : Z) : M vmem Z := fun m =>
  let '(p, h) := malloc bytes (vheap m) in
  Some (p, VMem h (if p =? 0 then blocks m
                   else <[p := replicate (Z.to_nat (bytes / sizeof_T)) None]> (blocks m))).
Definition vfree (p : Z) : M vmem unit := fun m =>
  h ← free p (vheap m); Some (tt, VMem h (delete p (blocks m))).

(** [n] cells of a block from cell [i]. *)
Definition cells (p i n : Z) : M vmem (list (option T)) := fun m =>
  b ← blocks m !! p;
  guard (0 <= i /\ i + n <= Z.of_nat (length b));;
  Some (take (Z.to_nat n) (drop (Z.to_nat i) b), m).
Definition set_cells (p i : Z) (cs : list (option T)) : M vmem unit := fun m =>
  b ← blocks m !! p;
  guard (0 <= i /\ i + Z.of_nat (length cs) <= Z.of_nat (length b));;
  Some (tt, VMem (vheap m)
    (<[p := take (Z.to_nat i) b ++ cs ++ drop (Z.to_nat i + length cs) b]> (blocks m))).

(** [memmove] of [n] cells; of none it touches nothing. *)
Definition move_cells (dst i src j n : Z) : M vmem unit :=
  if n <=? 0 then mret tt else cs ← cells src j n; set_cells dst i cs.

Definition load (p i : Z) : M vmem T := cs ← cells p i 1; liftO (mjoin (head cs)).
Definition store (p i : Z) (x : T) : M vmem unit := set_cells p i [Some x].

(** ** Private members *)

Definition grow (min_cap : Z) (v : vec) : M vmem vec :=
  let new_cap := if capacity_ v =? 0 then 4 else u64 (capacity_ v * 2) in
  let new_cap := if new_cap <? min_cap then min_cap else new_cap in
  new_data ← vmalloc (u64 (sizeof_T * new_cap));
  _ ← (if data_ v =? 0 then mret tt
       else _ ← move_cells new_data 0 (data_ v) 0 (size_ v); vfree (data_ v));
  mret (Vec new_data (size_ v) new_cap).

Definition shift_right (pos count : Z) (v : vec) : M vmem vec :=
  v ← (if capacity_ v <? u64 (size_ v + count) then grow (u64 (size_ v + count)) v else mret v);
  _ ← move_cells (data_ v) (pos + count) (data_ v) pos (size_ v - pos);
  mret v.

Definition shift_left (pos count : Z) (v : vec) : M vmem unit :=
  move_cells (data_ v) pos (data_ v) (pos + count) (size_ v - pos - count).

(** [new (data_ + i) T(value)] for [i] in [a, b). *)
Fixpoint construct (n : nat) (p i : Z) (x : Z -> T) : M vmem unit :=
  match n with O => mret tt | S n => _ ← store p i (x i); construct n p (i + 1) x end.

(** ** Public members *)

Definition empty_vector : vec := Vec 0 0 0.

Definition reserve (new_cap : Z) (v : vec) : M vmem vec :=
  if capacity_ v <? new_cap then grow new_cap v else mret v.

Definition push_back (value : T) (v : vec) : M vmem vec :=
  v ← (if capacity_ v <=? size_ v then grow (u64 (size_ v + 1)) v else mret v);
  _ ← store (data_ v) (size_ v) value;
  mret (Vec (data_ v) (u64 (size_ v + 1)) (capacity_ v)).

(** It gives the address of the new element, which is [data_[size_++]]. *)
Definition emplace_back (value : T) (v : vec) : M vmem (vec * (Z * Z)) :=
  v ← (if capacity_ v <=? size_ v then grow (u64 (size_ v + 1)) v else mret v);
  _ ← store (data_ v) (size_ v) value;
  mret (Vec (data_ v) (u64 (size_ v + 1)) (capacity_ v), (data_ v, size_ v)).

Definition pop_back (v : vec) : M vmem vec :=
  mret (if 0 <? size_ v then Vec (data_ v) (size_ v - 1) (capacity_ v) else v).

(** [resize], with the value constructed in the new cells. *)
Definition resize (count : Z) (value : T) (v : vec) : M vmem vec :=
  if count <? size_ v then mret (Vec (data_ v) count (capacity_ v))
  else if size_ v <? count then
    v ← reserve count v;
    _ ← construct (iters (size_ v) count) (data_ v) (size_ v) (fun _ => value);
    mret (Vec (data_ v) count (capacity_ v))
  else mret v.

Definition clear (v : vec) : M vmem vec := mret (Vec (data_ v) 0 (capacity_ v)).

Definition assign (count : Z) (value : T) (v : vec) : M vmem vec :=
  resize count value (Vec (data_ v) 0 (capacity_ v)).

Definition assign_range (l : list T) (v : vec) : M vmem vec :=
  foldl (fun m x => v ← m; push_back x v) (mret (Vec (data_ v) 0 (capacity_ v))) l.

(** The loop of the two copies: element [i] of the other vector. *)
Fixpoint copy_elements (n : nat) (src dst i : Z) : M vmem unit :=
  match n with
  | O => mret tt
  | S n => x ← load src i; _ ← store dst i x; copy_elements n src dst (i + 1)
  end.

Definition copy_vector (other : vec) : M vmem vec :=
  v ← reserve (size_ other) empty_vector;
  _ ← copy_elements (iters 0 (size_ other)) (data_ other) (data_ v) 0;
  mret (Vec (data_ v) (size_ other) (capacity_ v)).

(** Assignment from another vector than itself. *)
Definition assign_vector (other v : vec) : M vmem vec :=
  v ← reserve (size_ other) (Vec (data_ v) 0 (capacity_ v));
  _ ← copy_elements (iters 0 (size_ other)) (data_ other) (data_ v) 0;
  mret (Vec (data_ v) (size_ other) (capacity_ v)).

(** Moves: the new vector, and what is left of the other. *)
Definition move_vector (other : vec) : vec * vec := (other, empty_vector).
Definition move_assign (other v : vec) : M vmem (vec * vec) :=
  _ ← (if data_ v =? 0 then mret tt else vfree (data_ v)); mret (other, empty_vector).
Definition swap (a b : vec) : vec * vec := (b, a).
Definition destroy (v : vec) : M vmem unit := if data_ v =? 0 then mret tt else vfree (data_ v).

(** [at] spins outside of the vector. *)
Definition at_ (index : Z) (v : vec) : M vmem (Z * Z) :=
  if size_ v <=? index then ub else mret (data_ v, index).
Definition subscript (i : Z) (v : vec) : Z * Z := (data_ v, i).
Definition front (v : vec) : Z * Z := (data_ v, 0).
Definition back (v : vec) : Z * Z := (data_ v, u64 (size_ v - 1)).
Definition empty (v : vec) : bool := size_ v =? 0.

Definition shrink_to_fit (v : vec) : M vmem vec :=
  if capacity_ v <=? size_ v then mret v
  else if size_ v =? 0 then _ ← vfree (data_ v); mret (Vec 0 (size_ v) 0)
  else
    new_data ← vmalloc (u64 (sizeof_T * size_ v));
    _ ← move_cells new_data 0 (data_ v) 0 (size_ v);
    _ ← vfree (data_ v);
    mret (Vec new_data (size_ v) (size_ v)).

(** Positions are iterators: indices into [data_]. *)
Definition insert (idx : Z) (value : T) (v : vec) : M vmem vec :=
  v ← shift_right idx 1 v;
  _ ← store (data_ v) idx value;
  mret (Vec (data_ v) (u64 (size_ v + 1)) (capacity_ v)).

Definition insert_count (idx count : Z) (value : T) (v : vec) : M vmem vec :=
  if count =? 0 then mret v
  else
    v ← shift_right idx count v;
    _ ← construct (iters 0 count) (data_ v) idx (fun _ => value);
    mret (Vec (data_ v) (u64 (size_ v + count)) (capacity_ v)).

Definition insert_range (idx : Z) (l : list T) (d : T) (v : vec) : M vmem vec :=
  let count := Z.of_nat (length l) in
  if count =? 0 then mret v
  else
    v ← shift_right idx count v;
    _ ← construct (length l) (data_ v) idx (fun i => nth (Z.to_nat (i - idx)) l d);
    mret (Vec (data_ v) (u64 (size_ v + count)) (capacity_ v)).

Definition erase (idx : Z) (v : vec) : M vmem vec :=
  _ ← shift_left idx 1 v;
  mret (Vec (data_ v) (u64 (size_ v - 1)) (capacity_ v)).

Definition erase_range (first last : Z) (v : vec) : M vmem vec :=
  let count := last - first in
  if count =? 0 then mret v
  else
    _ ← shift_left first count v;
    mret (Vec (data_ v) (u64 (size_ v - count)) (capacity_ v)).
End Vector.
Arguments vmem : clear implicits.
Arguments VMem {T}.
Arguments vheap {T}.
Arguments blocks {T}.

(** ** Comparison *)

Section Compare.
Context {T : Type} (eqb ltb : T -> T -> bool).

Fixpoint equal_elements (n : nat) (a b i : Z) : M (vmem T) bool :=
  match n with
  | O => mret true
  | S n => x ← load a i; y ← load b i;
           if negb (eqb x y) then mret false else equal_elements n a b (i + 1)
  end.
Definition vector_eq (a b : vec) : M (vmem T) bool :=
  if negb (size_ a =? size_ b) then mret false
  else equal_elements (iters 0 (size_ a)) (data_ a) (data_ b) 0.

Fixpoint less_elements (n : nat) (a b i : Z) (rest : bool) : M (vmem T) bool :=
  match n with
  | O => mret rest
  | S n => x ← load a i; y ← load b i;
           if ltb x y then mret true
           else if ltb y x then mret false else less_elements n a b (i + 1) rest
  end.
Definition vector_lt (a b : vec) : M (vmem T) bool :=
  let n := if size_ a <? size_ b then size_ a else size_ b in
  less_elements (iters 0 n) (data_ a) (data_ b) 0 (size_ a <? size_ b).
End Compare.
