(* ===== verification/VectorSpec.v ===== *)
(** * The vector refines a list

    [vrep m v l]: in the heap [m] the vector [v] holds the list [l] at the
    start of the block it owns.  Each operation keeps [vrep] with the list
    operation it is named after, and leaves the other blocks alone. *)
From S2P Require Import Prelude Alloc Vector.

(** ** Overwriting part of a list *)

Section Splice.
Context {A : Type}.
Implicit Types b cs : list A.

Definition splice (i : nat) cs b : list A := take i b ++ cs ++ drop (i + length cs) b.

Lemma length_splice i cs b : (i + length cs <= length b)%nat -> length (splice i cs b) = length b.
Proof. intros H. unfold splice. rewrite !length_app, length_take, length_drop. lia. Qed.

Lemma splice_cons i c cs b : (i + S (length cs) <= length b)%nat ->
  splice (S i) cs (splice i [c] b) = splice i (c :: cs) b.
Proof.
  intros H. unfold splice. cbn [length app].
  assert (Ht : length (take i b) = i) by (rewrite length_take; lia).
  replace (S i) with (length (take i b) + 1)%nat at 1 by lia. rewrite take_app_add. cbn [take].
  rewrite <- app_assoc. do 2 f_equal. cbn [app]. f_equal.
  replace (S i + length cs)%nat with (length (take i b) + S (length cs))%nat by lia. rewrite drop_app_add.
  cbn [drop]. rewrite drop_drop. f_equal. lia.
Qed.

Lemma splice_nil i b : splice i [] b = b.
Proof. unfold splice. cbn [app length]. rewrite Nat.add_0_r. apply take_drop. Qed.

(** A second part behind the first. *)
Lemma splice_before i cs tail b : (i + length cs + length tail <= length b)%nat ->
  splice i cs (splice (i + length cs) tail b)
  = take i b ++ cs ++ tail ++ drop (i + length cs + length tail) b.
Proof.
  intros H. unfold splice.
  assert (Ht : length (take (i + length cs) b) = (i + length cs)%nat) by (rewrite length_take; lia).
  rewrite take_app_le by lia. rewrite take_take, Nat.min_l by lia. do 2 f_equal.
  rewrite <- Ht at 1. by rewrite drop_app_length.
Qed.
End Splice.

Section Spec.
Context {T : Type} (sizeof_T : Z) {Alloc : Allocator} {Lawful : LawfulAllocator}.
Hypothesis Hsize : 0 < sizeof_T.
Implicit Types (m : vmem T) (v : vec) (l : list T).

Record vrep m v l : Prop := {
  vrep_size : size_ v = Z.of_nat (length l);
  vrep_cap : size_ v <= capacity_ v < 2 ^ 63;
  vrep_block :
    if data_ v =? 0 then capacity_ v = 0
    else 0 < capacity_ v /\ data_ v ∈ live (vheap m) /\
         exists rest, blocks m !! data_ v = Some ((Some <$> l) ++ rest) /\
                      capacity_ v = Z.of_nat (length l + length rest);
}.

(** The other blocks stay, a new block of the vector was not live before, and
    the block it leaves is given back: nothing is kept but the other blocks
    and its own. *)
Record vframe m v m' v' : Prop := {
  vframe_blocks : forall q b, q <> data_ v -> q ∈ live (vheap m) -> blocks m !! q = Some b ->
    blocks m' !! q = Some b /\ q ∈ live (vheap m');
  vframe_data : data_ v' = data_ v \/ data_ v' = 0 \/ data_ v' ∉ live (vheap m);
  vframe_live : forall q, q <> data_ v' -> q ∈ live (vheap m') ->
    q ∈ live (vheap m) /\ (data_ v <> 0 -> q <> data_ v);
  vframe_held : forall q, q <> data_ v' -> q ∈ dom (blocks m') ->
    q ∈ dom (blocks m) /\ (data_ v <> 0 -> q <> data_ v);
}.

Lemma vframe_refl m v v' : data_ v' = data_ v -> vframe m v m v'.
Proof. intros E. split; [done | by left | by rewrite E | by rewrite E]. Qed.

(** A store to the vector's own block. *)
Lemma vframe_store m v m1 v1 b v2 :
  vframe m v m1 v1 -> data_ v1 <> 0 -> data_ v2 = data_ v1 ->
  vframe m v (VMem (vheap m1) (<[data_ v1 := b]> (blocks m1))) v2.
Proof.
  intros [Hb Hd Hlv Hh] H0 E. split; rewrite ?E; [|done|done|].
  - intros q c Hq Hl Hc. destruct (Hb q c Hq Hl Hc) as [Hc' Hl'].
    split; [|done]. cbn. rewrite lookup_insert_ne; [done|]. intros <-. by destruct Hd as [?|[?|?]].
  - intros q Hq. cbn [blocks]. rewrite dom_insert. intros [->%elem_of_singleton|Hin]%elem_of_union; [done | by apply Hh].
Qed.

(** ** Cells *)

Lemma cells_run p i n b m : blocks m !! p = Some b -> 0 <= i -> 0 <= n -> i + n <= Z.of_nat (length b) ->
  cells p i n m = Some (take (Z.to_nat n) (drop (Z.to_nat i) b), m).
Proof.
  intros Hb Hi Hn Hl. unfold cells. rewrite Hb. cbn [mbind option_bind]. by rewrite option_guard_True.
Qed.

Lemma set_cells_run p i cs b m : blocks m !! p = Some b -> 0 <= i -> i + Z.of_nat (length cs) <= Z.of_nat (length b) ->
  set_cells p i cs m = Some (tt, VMem (vheap m) (<[p := splice (Z.to_nat i) cs b]> (blocks m))).
Proof. intros Hb Hi Hl. unfold set_cells. rewrite Hb. cbn [mbind option_bind]. by rewrite option_guard_True. Qed.

Lemma vmem_eta p b m : blocks m !! p = Some b -> m = VMem (vheap m) (<[p := b]> (blocks m)).
Proof. intros E. destruct m as [h bl]. cbn in *. by rewrite insert_id. Qed.

Lemma move_cells_run dst i src j n b c m :
  blocks m !! src = Some b -> blocks m !! dst = Some c -> 0 <= j -> j + n <= Z.of_nat (length b) ->
  0 <= i -> i + n <= Z.of_nat (length c) -> 0 <= n ->
  move_cells dst i src j n m = Some (tt, VMem (vheap m)
    (<[dst := splice (Z.to_nat i) (take (Z.to_nat n) (drop (Z.to_nat j) b)) c]> (blocks m))).
Proof.
  intros Hb Hc Hj Hjn Hi Hin Hn. unfold move_cells. case_if.
  - replace (Z.to_nat n) with 0%nat by lia. rewrite take_0, splice_nil. by rewrite <- (vmem_eta dst c m Hc).
  - assert (Hlen : length (take (Z.to_nat n) (drop (Z.to_nat j) b)) = Z.to_nat n) by (rewrite length_take, length_drop; lia).
    rewrite (bind_run _ _ _ _ _ (cells_run src j n b m Hb ltac:(lia) ltac:(lia) ltac:(lia))).
    apply (set_cells_run dst i _ c m); [done|lia|rewrite Hlen; lia].
Qed.

Lemma store_run p i x b m : blocks m !! p = Some b -> 0 <= i < Z.of_nat (length b) ->
  store p i x m = Some (tt, VMem (vheap m) (<[p := splice (Z.to_nat i) [Some x] b]> (blocks m))).
Proof. intros Hb Hi. apply set_cells_run; [done|lia|cbn; lia]. Qed.

Lemma construct_run n p i x b m : blocks m !! p = Some b -> 0 <= i -> i + Z.of_nat n <= Z.of_nat (length b) ->
  construct n p i x m = Some (tt, VMem (vheap m)
    (<[p := splice (Z.to_nat i) ((fun k => Some (x (i + Z.of_nat k))) <$> seq 0 n) b]> (blocks m))).
Proof.
  revert i b m. induction n as [|n IH]; intros i b m Hb Hi Hl; cbn [construct].
  - cbn [seq fmap list_fmap]. rewrite splice_nil. by rewrite <- (vmem_eta p b m Hb).
  - rewrite (bind_run _ _ _ _ _ (store_run p i (x i) b m Hb ltac:(lia))).
    rewrite (IH (i + 1) (splice (Z.to_nat i) [Some (x i)] b)); cbn [blocks vheap].
    + rewrite insert_insert_eq. do 4 f_equal.
      replace (Z.to_nat (i + 1)) with (S (Z.to_nat i)) by lia.
      rewrite splice_cons by (rewrite length_fmap, length_seq; lia). f_equal.
      cbn [seq fmap list_fmap]. f_equal; [do 2 f_equal; lia|]. rewrite <- (fmap_S_seq 0 n), <- list_fmap_compose.
      apply list_fmap_ext. intros _ k _. cbn. do 2 f_equal. lia.
    + by apply lookup_insert_eq.
    + lia.
    + rewrite length_splice by (cbn; lia). lia.
Qed.

(** ** Growing *)

(** The allocator has memory for the next request. *)
Definition has_memory m : Prop := forall bytes, (malloc bytes (vheap m)).1 <> 0.
(** The bytes of a vector with [n] more elements fit the address space. *)
Definition room v (n : Z) : Prop := sizeof_T * (2 * capacity_ v + n + 4) < 2 ^ 62.

Lemma vmalloc_run m n : has_memory m -> 0 <= n -> sizeof_T * n < 2 ^ 62 ->
  exists p m', vmalloc sizeof_T (u64 (sizeof_T * n)) m = Some (p, m') /\ p <> 0 /\ p ∉ live (vheap m) /\
    live (vheap m') = {[p]} ∪ live (vheap m) /\ blocks m' = <[p := replicate (Z.to_nat n) None]> (blocks m).
Proof.
  intros Hm Hn Hf. rewrite u64_small by nia. unfold vmalloc. specialize (Hm (sizeof_T * n)).
  destruct (malloc (sizeof_T * n) (vheap m)) as [p h] eqn:E. cbn in Hm.
  exists p. eexists. split; [done|]. destruct (malloc_fresh _ _ _ _ E Hm) as [_ Hf']. split_and!; try done; cbn.
  - by apply malloc_live in E.
  - rewrite (proj2 (Z.eqb_neq p 0)) by done. rewrite Z.mul_comm, Z.div_mul by lia. done.
Qed.

(** The invariant of a vector in a new block. *)
Lemma vrep_moved m v l p m' n :
  vrep m v l -> p <> 0 -> p ∈ live (vheap m') -> size_ v <= n < 2 ^ 63 -> 0 < n ->
  blocks m' !! p = Some (splice 0 (Some <$> l) (replicate (Z.to_nat n) None)) ->
  vrep m' (Vec p (size_ v) n) l.
Proof.
  intros [Hs Hc Hb] Hp Hl Hn Hn0 Hbl. split; cbn [size_ capacity_ data_]; [done|lia|].
  rewrite (proj2 (Z.eqb_neq p 0)) by done. split_and!; [done..|].
  exists (drop (length l) (replicate (Z.to_nat n) None)). rewrite Hbl. unfold splice. cbn [take app].
  rewrite length_fmap, length_drop, length_replicate. split; [done|lia].
Qed.

(** Freeing the old block after the move. *)
Lemma vfree_run m p : p <> 0 -> p ∈ live (vheap m) ->
  vfree p m = Some (tt, VMem (Heap (live (vheap m) ∖ {[p]}) (calls (vheap m))) (delete p (blocks m))).
Proof. intros Hp Hl. unfold vfree. by rewrite free_live. Qed.

(** Moving a vector to a new block of [n] elements. *)
Lemma relocate_spec m v l n :
  vrep m v l -> has_memory m -> size_ v <= n -> 0 < n -> sizeof_T * n < 2 ^ 62 ->
  exists m' p, (new_data ← vmalloc sizeof_T (u64 (sizeof_T * n));
                _ ← (if data_ v =? 0 then mret tt
                     else _ ← move_cells new_data 0 (data_ v) 0 (size_ v); vfree (data_ v));
                mret (Vec new_data (size_ v) n)) m = Some (Vec p (size_ v) n, m') /\
    vrep m' (Vec p (size_ v) n) l /\ p <> 0 /\ vframe m v m' (Vec p (size_ v) n).
Proof.
  intros Hr Hm Hn Hn0 Hf. destruct (vmalloc_run m n Hm ltac:(lia) Hf) as (p & m1 & E1 & Hp & Hfr & Hl1 & Hb1).
  rewrite (bind_run _ _ _ _ _ E1). pose proof Hr as [Hs Hc Hb]. destruct (Z.eqb_spec (data_ v) 0) as [H0|H0].
  - rewrite (bind_run _ _ _ _ _ eq_refl). exists m1, p. split; [done|]. split; [|split; [done|]].
    + assert (l = []) as -> by (apply length_zero_iff_nil; lia).
      apply (vrep_moved m v); [done..| | nia | done |]; [rewrite Hl1; set_solver|]. rewrite Hb1. apply lookup_insert_eq.
    + split; [|by right; right|cbn [data_]; rewrite Hl1; set_solver|intros q Hq; rewrite Hb1, dom_insert; set_solver].
      intros q b Hq Hl Hbq. rewrite Hb1, Hl1. split; [|set_solver].
      rewrite lookup_insert_ne; [done|]. intros ->. done.
  - destruct Hb as (Hc0 & Hlive & rest & Hbl & Hcap).
    assert (Hpv : p <> data_ v) by (intros ->; done).
    assert (E2 : move_cells p 0 (data_ v) 0 (size_ v) m1 = Some (tt, VMem (vheap m1)
      (<[p := splice 0 (Some <$> l) (replicate (Z.to_nat n) None)]> (blocks m1)))).
    { erewrite move_cells_run; [|by rewrite Hb1, lookup_insert_ne | by rewrite Hb1, lookup_insert_eq | ..];
        [|rewrite ?length_app, ?length_fmap, ?length_replicate; lia..].
      rewrite Hs, Nat2Z.id. change (Z.to_nat 0) with 0%nat.
      by rewrite drop_0, take_app_length' by (by rewrite length_fmap). }
    assert (Hl2 : data_ v ∈ live (vheap m1)) by (rewrite Hl1; set_solver).
    erewrite (bind_run (move_cells _ _ _ _ _ ≫= _)); [|by rewrite (bind_run _ _ _ _ _ E2), vfree_run].
    eexists _, p. split; [done|]. split; [|split; [done|]].
    + apply (vrep_moved m v); [done..| | nia | done |]; cbn [vheap blocks live].
      * rewrite Hl1. set_solver.
      * by rewrite lookup_delete_ne, lookup_insert_eq by done.
    + split; cbn [vheap blocks live data_]; [|by right; right|rewrite Hl1; set_solver
        |intros q Hq; rewrite dom_delete, dom_insert, Hb1, dom_insert; set_solver].
      intros q b Hq Hl Hbq.
      assert (p <> q) by (intros ->; done).
      rewrite lookup_delete_ne, Hb1, lookup_insert_ne, lookup_insert_ne by done. split; [done|].
      rewrite Hl1. set_solver.
Qed.

Lemma grow_spec m v l n :
  vrep m v l -> has_memory m -> size_ v <= n -> room v n ->
  exists m' v', grow sizeof_T n v m = Some (v', m') /\ vrep m' v' l /\ data_ v' <> 0 /\ size_ v' = size_ v /\
    n <= capacity_ v' /\ capacity_ v' <= 2 * capacity_ v + n + 4 /\ vframe m v m' v'.
Proof.
  intros Hr Hm Hn Hroom. unfold room in Hroom. pose proof Hr as [Hs Hc _]. unfold grow. rewrite u64_small by lia.
  set (c0 := if capacity_ v =? 0 then 4 else _).
  assert (Hc0 : 0 < c0 <= 2 * capacity_ v + 4 /\ (capacity_ v = 0 \/ size_ v <= c0)) by (subst c0; case_if; lia).
  clearbody c0. set (c := if c0 <? n then n else c0).
  assert (Hcb : 0 < c /\ n <= c /\ c <= 2 * capacity_ v + n + 4 /\ size_ v <= c)
    by (subst c; repeat case_if; lia). clearbody c.
  destruct (relocate_spec m v l c Hr Hm) as (m' & p & E & Hr' & Hp & Hfr); [lia..|nia|].
  exists m', (Vec p (size_ v) c). cbn [data_ size_ capacity_]. split_and!; try done; lia.
Qed.

(** Making sure of [n] elements. *)
Lemma ensure_spec m v l n (b : bool) :
  vrep m v l -> has_memory m -> size_ v <= n -> 0 < n -> room v n -> (b = false -> n <= capacity_ v) ->
  exists m' v', (if b then grow sizeof_T n v else mret v) m = Some (v', m') /\ vrep m' v' l /\ data_ v' <> 0 /\
    size_ v' = size_ v /\ n <= capacity_ v' /\ vframe m v m' v'.
Proof.
  intros Hr Hm Hn Hn0 Hroom Hb. destruct b.
  - destruct (grow_spec m v l n Hr Hm Hn Hroom) as (m' & v' & ? & ? & ? & ? & ? & _ & ?). by exists m', v'.
  - exists m, v. specialize (Hb eq_refl). split_and!; try done; [|by apply vframe_refl].
    intros E. pose proof (vrep_block _ _ _ Hr) as Hv. rewrite E in Hv. cbn in Hv. lia.
Qed.

(** ** The operations *)

(** A block rewritten to hold another list. *)
Lemma vrep_write m v l l' rest' :
  vrep m v l -> data_ v <> 0 -> Z.of_nat (length l' + length rest') = capacity_ v ->
  vrep (VMem (vheap m) (<[data_ v := (Some <$> l') ++ rest']> (blocks m)))
       (Vec (data_ v) (Z.of_nat (length l')) (capacity_ v)) l'.
Proof.
  intros [Hs Hc Hb] H0 Hl. split; cbn [size_ capacity_ data_ vheap blocks]; [done|lia|].
  rewrite (proj2 (Z.eqb_neq _ 0)) in Hb |- * by done. destruct Hb as (? & ? & _). split_and!; [done..|].
  exists rest'. split; [by rewrite lookup_insert_eq | done].
Qed.

(** Fewer elements in the same block. *)
Lemma vrep_shrink m v l (n : nat) : (n <= length l)%nat -> vrep m v l ->
  vrep m (Vec (data_ v) (Z.of_nat n) (capacity_ v)) (take n l).
Proof.
  intros Hn [Hs Hc Hb]. split; cbn [size_ capacity_ data_]; [rewrite length_take; lia|lia|].
  case_if; [done|]. destruct Hb as (? & ? & rest & Hbl & Hcap). split_and!; [done..|].
  exists ((Some <$> drop n l) ++ rest). rewrite Hbl. split.
  - by rewrite app_assoc, <- fmap_app, take_drop.
  - rewrite length_app, length_fmap, length_take, length_drop. lia.
Qed.

Lemma vrep_rest m v l : vrep m v l -> data_ v <> 0 ->
  exists rest, blocks m !! data_ v = Some ((Some <$> l) ++ rest) /\ capacity_ v = Z.of_nat (length l + length rest).
Proof.
  intros [_ _ Hb] H0. rewrite (proj2 (Z.eqb_neq _ 0)) in Hb by done. destruct Hb as (_ & _ & rest & ? & ?). eauto.
Qed.

(** Storing behind the last element. *)
Lemma splice_push l (xs : list T) rest : (length xs <= length rest)%nat ->
  splice (length l) (Some <$> xs) ((Some <$> l) ++ rest) = (Some <$> (l ++ xs)) ++ drop (length xs) rest.
Proof.
  intros Hr. unfold splice. rewrite take_app_length' by (by rewrite length_fmap).
  replace (length l + length (Some <$> xs))%nat with (length (Some <$> l) + length xs)%nat by (rewrite !length_fmap; lia).
  rewrite drop_app_add. by rewrite fmap_app, <- app_assoc.
Qed.

Lemma push_back_spec m v l x : vrep m v l -> has_memory m -> room v (size_ v + 1) ->
  exists m' v', push_back sizeof_T x v m = Some (v', m') /\ vrep m' v' (l ++ [x]) /\ vframe m v m' v' /\
    emplace_back sizeof_T x v m = Some (v', (data_ v', size_ v), m').
Proof.
  intros Hr Hm Hroom. pose proof Hr as [Hs Hc _]. unfold push_back, emplace_back.
  assert (Hsz : size_ v + 1 < 2 ^ 62) by (unfold room in Hroom; nia). rewrite u64_small by lia.
  destruct (ensure_spec m v l (size_ v + 1) (capacity_ v <=? size_ v) Hr Hm) as (m1 & v1 & E & Hr1 & H0 & Es & Hcap & Hf);
    [lia | lia | done | intros; zify_bool; lia |].
  rewrite !(bind_run _ _ _ _ _ E). destruct (vrep_rest _ _ _ Hr1 H0) as (rest & Hb & Hcr).
  pose proof (vrep_size _ _ _ Hr1) as Hs1.
  rewrite !(bind_run _ _ _ _ _ (store_run (data_ v1) (size_ v1) x _ m1 Hb ltac:(rewrite length_app, length_fmap; lia))).
  eexists _, _. split; [done|]. rewrite u64_small by lia. rewrite Hs1, Nat2Z.id.
  change [Some x] with (Some <$> [x]). rewrite splice_push by (cbn; lia). cbn [length]. split; [|split].
  - replace (Z.of_nat (length l) + 1) with (Z.of_nat (length (l ++ [x]))) by (rewrite length_app; cbn; lia).
    apply (vrep_write m1 v1 l); [done..|]. rewrite length_app, length_drop. cbn. lia.
  - by apply vframe_store.
  - by rewrite Hs.
Qed.

(** Opening a gap of [n] cells. *)
Lemma shift_right_spec m v l i n : vrep m v l -> has_memory m -> 0 <= i <= size_ v -> 0 < n -> room v (size_ v + n) ->
  exists m1 v1 rest, shift_right sizeof_T i n v m
    = Some (v1, VMem (vheap m1) (<[data_ v1 := splice (Z.to_nat i + Z.to_nat n) (Some <$> drop (Z.to_nat i) l)
                                                 ((Some <$> l) ++ rest)]> (blocks m1))) /\
    vrep m1 v1 l /\ vframe m v m1 v1 /\ data_ v1 <> 0 /\ capacity_ v1 = Z.of_nat (length l + length rest) /\
    (Z.to_nat n <= length rest)%nat.
Proof.
  intros Hr Hm Hi Hn Hroom. pose proof Hr as [Hs Hc _]. unfold shift_right.
  assert (Hsz : size_ v + n < 2 ^ 62) by (unfold room in Hroom; nia). rewrite !u64_small by lia.
  destruct (ensure_spec m v l (size_ v + n) (capacity_ v <? size_ v + n) Hr Hm) as (m1 & v1 & E & Hr1 & H0 & Es & Hcap & Hf);
    [lia | lia | done | intros; zify_bool; lia |].
  rewrite (bind_run _ _ _ _ _ E). destruct (vrep_rest _ _ _ Hr1 H0) as (rest & Hb & Hcr).
  exists m1, v1, rest. split_and!; try done; [|lia].
  erewrite bind_run; [done|]. erewrite move_cells_run by (done || rewrite ?length_app, ?length_fmap; lia).
  do 5 f_equal; [lia|]. rewrite drop_app_le by (rewrite length_fmap; lia). rewrite <- fmap_drop.
  by rewrite take_app_length' by (rewrite length_fmap, length_drop; lia).
Qed.

Definition insert_at (i : Z) (vs l : list T) : list T := take (Z.to_nat i) l ++ vs ++ drop (Z.to_nat i) l.

Lemma constructed (vs : list T) (x : Z -> T) i :
  (forall k y, vs !! k = Some y -> x (i + Z.of_nat k) = y) ->
  (fun k => Some (x (i + Z.of_nat k))) <$> seq 0 (length vs) = Some <$> vs.
Proof.
  intros Hx. apply list_eq. intros k. rewrite !list_lookup_fmap.
  destruct (vs !! k) as [y|] eqn:Ek.
  - rewrite lookup_seq_lt by (by apply lookup_lt_Some in Ek). cbn. by rewrite (Hx k y Ek).
  - rewrite lookup_seq_ge by (by apply lookup_ge_None in Ek). done.
Qed.

Lemma fill_gap_spec m v l i vs x n : vrep m v l -> has_memory m -> 0 <= i <= size_ v -> vs <> [] ->
  n = Z.of_nat (length vs) -> room v (size_ v + n) ->
  (forall k y, vs !! k = Some y -> x (i + Z.of_nat k) = y) ->
  exists m' v', (v ← shift_right sizeof_T i n v;
                 _ ← construct (length vs) (data_ v) i x;
                 mret (Vec (data_ v) (u64 (size_ v + n)) (capacity_ v))) m = Some (v', m') /\
    vrep m' v' (insert_at i vs l) /\ vframe m v m' v'.
Proof.
  intros Hr Hm Hi Hne -> Hroom Hx. pose proof Hr as [Hs Hc _].
  assert (Hn : (0 < length vs)%nat) by (destruct vs; [done|cbn; lia]).
  assert (Hsz : size_ v + Z.of_nat (length vs) < 2 ^ 62) by (unfold room in Hroom; nia).
  destruct (shift_right_spec m v l i (Z.of_nat (length vs)) Hr Hm Hi ltac:(lia) Hroom)
    as (m1 & v1 & rest & E & Hr1 & Hf & H0 & Hcap & Hrest). pose proof (vrep_size _ _ _ Hr1) as Hs1.
  rewrite Nat2Z.id in *. rewrite (bind_run _ _ _ _ _ E).
  assert (Hlt : (length (Some <$> drop (Z.to_nat i) l) = length l - Z.to_nat i)%nat) by (rewrite length_fmap, length_drop; lia).
  assert (Hlb : length ((Some <$> l) ++ rest) = (length l + length rest)%nat) by (by rewrite length_app, length_fmap).
  erewrite bind_run.
  2: { apply construct_run; [by apply lookup_insert_eq | lia |]. rewrite length_splice; [lia | rewrite Hlt; lia]. }
  cbn [vheap blocks]. rewrite insert_insert_eq, (constructed vs x i Hx).
  assert (Hlv : length (Some <$> vs) = length vs) by apply length_fmap. rewrite <- Hlv, splice_before, !Hlv by (rewrite Hlt; lia).
  eexists _, _. split; [done|].
  assert (Hli : length (insert_at i vs l) = (length l + length vs)%nat).
  { unfold insert_at. rewrite !length_app, length_take, length_drop. lia. }
  rewrite take_app_le by (rewrite length_fmap; lia). rewrite <- fmap_take, !app_assoc, <- !fmap_app, <- !app_assoc.
  fold (insert_at i vs l). split; [|by apply vframe_store].
  rewrite u64_small by lia. replace (size_ v1 + Z.of_nat (length vs)) with (Z.of_nat (length (insert_at i vs l))) by lia.
  apply (vrep_write m1 v1 l); [done..|]. rewrite length_drop, Hlb, Hlt, Hli. lia.
Qed.

Lemma insert_spec m v l i x : vrep m v l -> has_memory m -> 0 <= i <= size_ v -> room v (size_ v + 1) ->
  exists m' v', insert sizeof_T i x v m = Some (v', m') /\ vrep m' v' (insert_at i [x] l) /\ vframe m v m' v'.
Proof.
  intros Hr Hm Hi Hroom.
  destruct (fill_gap_spec m v l i [x] (fun _ => x) 1 Hr Hm Hi) as (m' & v' & E & Hr' & Hf); try done.
  { intros k y Hk. by apply list_lookup_singleton_Some in Hk as [_ ->]. }
  exists m', v'. split; [|done]. rewrite <- E. unfold insert. mstep.
  destruct (shift_right _ _ _ _ _) as [[v1 m1]|]; [|done]. cbn [construct length].
  mstep. by destruct (store _ _ _ _) as [[[] m2]|].
Qed.

Lemma insert_count_spec m v l i n x : vrep m v l -> has_memory m -> 0 <= i <= size_ v -> 0 <= n ->
  room v (size_ v + n) ->
  exists m' v', insert_count sizeof_T i n x v m = Some (v', m') /\
    vrep m' v' (insert_at i (replicate (Z.to_nat n) x) l) /\ vframe m v m' v'.
Proof.
  intros Hr Hm Hi Hn Hroom. unfold insert_count. destruct (Z.eqb_spec n 0) as [->|Hne].
  - exists m, v. split_and!; [done| |by apply vframe_refl]. unfold insert_at. change (replicate (Z.to_nat 0) x) with (@nil T). by rewrite app_nil_l, take_drop.
  - destruct (fill_gap_spec m v l i (replicate (Z.to_nat n) x) (fun _ => x) n Hr Hm Hi) as (m' & v' & E & Hr' & Hf).
    + intros E. apply (f_equal length) in E. rewrite length_replicate in E. cbn in E. lia.
    + rewrite length_replicate. lia.
    + done.
    + intros k y Hk. by apply lookup_replicate in Hk as [-> _].
    + rewrite length_replicate in E. unfold iters. rewrite Z.sub_0_r. eauto.
Qed.

Lemma insert_range_spec m v l i vs d : vrep m v l -> has_memory m -> 0 <= i <= size_ v ->
  room v (size_ v + Z.of_nat (length vs)) ->
  exists m' v', insert_range sizeof_T i vs d v m = Some (v', m') /\ vrep m' v' (insert_at i vs l) /\ vframe m v m' v'.
Proof.
  intros Hr Hm Hi Hroom. unfold insert_range. destruct (Z.eqb_spec (Z.of_nat (length vs)) 0) as [E0|Hne].
  - assert (vs = []) as -> by (apply length_zero_iff_nil; lia).
    exists m, v. split_and!; [done| |by apply vframe_refl]. unfold insert_at. by rewrite app_nil_l, take_drop.
  - destruct (fill_gap_spec m v l i vs (fun k => nth (Z.to_nat (k - i)) vs d) (Z.of_nat (length vs)) Hr Hm Hi)
      as (m' & v' & E & Hr' & Hf); [by intros ->|done..| |eauto].
    intros k y Hk. replace (Z.to_nat (i + Z.of_nat k - i)) with k by lia.
    rewrite nth_lookup. by rewrite Hk.
Qed.

Lemma resize_spec m v l n x : vrep m v l -> has_memory m -> 0 <= n -> room v n ->
  exists m' v', resize sizeof_T n x v m = Some (v', m') /\
    vrep m' v' (take (Z.to_nat n) l ++ replicate (Z.to_nat n - length l) x) /\ vframe m v m' v'.
Proof.
  intros Hr Hm Hn Hroom. pose proof Hr as [Hs Hc _]. unfold resize.
  destruct (Z.ltb_spec n (size_ v)) as [Hlt|Hge]; [|destruct (Z.ltb_spec (size_ v) n) as [Hlt|Hge2]].
  - eexists m, _. split; [done|]. split; [|by apply vframe_refl].
    replace (Z.to_nat n - length l)%nat with 0%nat by lia. cbn [replicate]. rewrite app_nil_r.
    replace n with (Z.of_nat (Z.to_nat n)) at 1 by lia. apply vrep_shrink; [lia | done].
  - unfold reserve.
    destruct (ensure_spec m v l n (capacity_ v <? n) Hr Hm) as (m1 & v1 & E & Hr1 & H0 & Es & Hcap & Hf);
      [lia | lia | done | intros; zify_bool; lia |].
    rewrite (bind_run _ _ _ _ _ E). destruct (vrep_rest _ _ _ Hr1 H0) as (rest & Hb & Hcr).
    assert (Hk : iters (size_ v) n = length (replicate (Z.to_nat n - length l) x)) by (unfold iters; rewrite length_replicate; lia).
    assert (Hk1 : iters (size_ v1) n = iters (size_ v) n) by (by rewrite Es).
    erewrite bind_run.
    2: { apply construct_run; [exact Hb | lia | rewrite length_app, length_fmap; unfold iters in *; lia]. }
    rewrite Hk1, Hk, (constructed (replicate (Z.to_nat n - length l) x) (fun _ => x) (size_ v1)), Es, Hs, Nat2Z.id
      by (intros k y Hy; by apply lookup_replicate in Hy as [-> _]).
    rewrite splice_push by (rewrite length_replicate; lia).
    eexists _, _. split; [done|]. rewrite take_ge by lia. split; [|by apply vframe_store].
    set (l' := l ++ _). assert (Hl' : n = Z.of_nat (length l')) by (subst l'; rewrite length_app, length_replicate; lia).
    rewrite Hl'. apply (vrep_write m1 v1 l); [done..|]. rewrite length_drop, length_replicate. subst l'. lia.
  - exists m, v. replace (Z.to_nat n - length l)%nat with 0%nat by lia. cbn [replicate]. rewrite app_nil_r, take_ge by lia.
    split_and!; [done..|by apply vframe_refl].
Qed.

Lemma erase_range_spec m v l i j : vrep m v l -> 0 <= i <= j -> j <= size_ v ->
  exists m' v', erase_range i j v m = Some (v', m') /\
    vrep m' v' (take (Z.to_nat i) l ++ drop (Z.to_nat j) l) /\ vframe m v m' v'.
Proof.
  intros Hr Hij Hj. pose proof Hr as [Hs Hc Hvb]. unfold erase_range. destruct (Z.eqb_spec (j - i) 0) as [E|Hne].
  - exists m, v. split_and!; [done| |by apply vframe_refl]. replace j with i by lia. by rewrite take_drop.
  - assert (H0 : data_ v <> 0) by (intros E; rewrite E in Hvb; cbn in Hvb; lia).
    destruct (vrep_rest _ _ _ Hr H0) as (rest & Hb & Hcr). unfold shift_left.
    erewrite bind_run.
    2: { apply move_cells_run; [exact Hb | exact Hb | lia | rewrite ?length_app, ?length_fmap; lia..]. }
    replace (i + (j - i)) with j by lia. replace (Z.to_nat (size_ v - i - (j - i))) with (length l - Z.to_nat j)%nat by lia.
    rewrite drop_app_le by (rewrite length_fmap; lia).
    rewrite take_app_length' by (rewrite length_drop, length_fmap; lia). rewrite <- fmap_drop.
    set (l' := take (Z.to_nat i) l ++ drop (Z.to_nat j) l).
    assert (Hl' : length l' = (Z.to_nat i + (length l - Z.to_nat j))%nat) by (subst l'; rewrite length_app, length_take, length_drop; lia).
    unfold splice. rewrite take_app_le by (rewrite length_fmap; lia).
    rewrite <- fmap_take, app_assoc, <- fmap_app. fold l'.
    eexists _, _. split; [done|]. split; [|by apply vframe_store; [apply vframe_refl| |]].
    rewrite u64_small by lia. replace (size_ v - (j - i)) with (Z.of_nat (length l')) by lia.
    apply vrep_write with l; [done..|]. rewrite length_drop, length_app, !length_fmap, length_drop. lia.
Qed.

Lemma erase_range_one i v m : 0 <= size_ v -> erase i v m = erase_range (T := T) i (i + 1) v m.
Proof.
  intros Hs. unfold erase, erase_range. replace (i + 1 - i) with 1 by lia. done.
Qed.

Lemma shrink_to_fit_spec m v l : vrep m v l -> has_memory m -> room v 0 ->
  exists m' v', shrink_to_fit sizeof_T v m = Some (v', m') /\ vrep m' v' l /\ vframe m v m' v' /\ capacity_ v' = size_ v'.
Proof.
  intros Hr Hm Hroom. pose proof Hr as [Hs Hc Hb]. unfold shrink_to_fit.
  destruct (Z.leb_spec (capacity_ v) (size_ v)) as [Hle|Hlt].
  { exists m, v. split_and!; [done..|by apply vframe_refl|lia]. }
  assert (H0 : data_ v <> 0) by (intros E; rewrite E in Hb; cbn in Hb; lia).
  rewrite (proj2 (Z.eqb_neq _ 0)) in Hb by done. destruct Hb as (_ & Hl & _).
  destruct (Z.eqb_spec (size_ v) 0) as [E|Hne].
  - rewrite (bind_run _ _ _ _ _ (vfree_run m (data_ v) H0 Hl)). eexists _, (Vec 0 (size_ v) 0). split; [done|].
    split; [split; cbn; lia|]. split; [|cbn; lia].
    split; [|by right; left|cbn [data_ vheap live blocks]; set_solver|intros q Hq; cbn [blocks]; rewrite dom_delete; set_solver].
    intros q b Hq Hlq Hbq. cbn. rewrite lookup_delete_ne by congruence. split; [done|set_solver].
  - destruct (relocate_spec m v l (size_ v) Hr Hm) as (m' & p & E & Hr' & Hp & Hf); [lia|lia|unfold room in Hroom; nia|].
    exists m', (Vec p (size_ v) (size_ v)). split_and!; [|done..]. rewrite <- E.
    rewrite (proj2 (Z.eqb_neq _ 0)) by done. mstep.
    destruct (vmalloc _ _ m) as [[q m1]|]; [|done]. by destruct (move_cells _ _ _ _ _ _) as [[[] m2]|].
Qed.

(** ** Copies *)

Lemma load_run p i x b m : blocks m !! p = Some b -> 0 <= i -> b !! Z.to_nat i = Some (Some x) ->
  load p i m = Some (x, m).
Proof.
  intros Hb Hi Hx. pose proof (lookup_lt_Some _ _ _ Hx). unfold load.
  rewrite (bind_run _ _ _ _ _ (cells_run p i 1 b m Hb Hi ltac:(lia) ltac:(lia))).
  rewrite (drop_S _ _ _ Hx). change (Z.to_nat 1) with 1%nat. done.
Qed.

Lemma copy_elements_run n src dst i l rest b m :
  src <> dst -> blocks m !! src = Some ((Some <$> l) ++ rest) -> blocks m !! dst = Some b ->
  0 <= i -> i + Z.of_nat n = Z.of_nat (length l) -> Z.of_nat (length l) <= Z.of_nat (length b) ->
  copy_elements n src dst i m = Some (tt, VMem (vheap m) (<[dst := splice (Z.to_nat i) (Some <$> drop (Z.to_nat i) l) b]> (blocks m))).
Proof.
  revert i b m. induction n as [|n IH]; intros i b m Hne Hs Hd Hi Hn Hl; cbn [copy_elements].
  - rewrite drop_ge by lia. cbn [fmap list_fmap]. rewrite splice_nil. by rewrite <- (vmem_eta dst b m Hd).
  - destruct (lookup_lt_is_Some_2 l (Z.to_nat i)) as [x Hx]; [lia|].
    rewrite (bind_run _ _ _ _ _ (load_run src i x _ m Hs Hi ltac:(rewrite lookup_app_l by (rewrite length_fmap; lia); by rewrite list_lookup_fmap, Hx))).
    rewrite (bind_run _ _ _ _ _ (store_run dst i x b m Hd ltac:(lia))).
    rewrite (IH (i + 1) (splice (Z.to_nat i) [Some x] b)); cbn [vheap blocks].
    + rewrite insert_insert_eq. do 4 f_equal. replace (Z.to_nat (i + 1)) with (S (Z.to_nat i)) by lia.
      rewrite (drop_S _ _ _ Hx). cbn [fmap list_fmap].
      rewrite splice_cons by (rewrite length_fmap, length_drop; lia). done.
    + done.
    + by rewrite lookup_insert_ne.
    + by apply lookup_insert_eq.
    + lia.
    + lia.
    + rewrite length_splice by (cbn; lia). done.
Qed.

Lemma vrep_empty m : vrep m empty_vector [].
Proof. split; cbn; lia. Qed.

Lemma copy_vector_spec m other l : vrep m other l -> has_memory m -> room empty_vector (size_ other) ->
  exists m' v', copy_vector sizeof_T other m = Some (v', m') /\ vrep m' v' l /\ vrep m' other l /\
    (data_ v' = data_ other -> l = []).
Proof.
  intros Hr Hm Hroom. pose proof Hr as [Hs Hc Hvb]. unfold copy_vector, reserve. cbn [capacity_ empty_vector].
  destruct (Z.ltb_spec 0 (size_ other)) as [Hlt|Hge].
  - destruct (grow_spec m empty_vector [] (size_ other) (vrep_empty m) Hm ltac:(cbn; lia) Hroom)
      as (m1 & v1 & E & Hr1 & H0 & _ & Hcap & _ & Hf).
    rewrite (bind_run _ _ _ _ _ E).
    assert (Hd0 : data_ other <> 0) by (intros Ed; rewrite Ed in Hvb; cbn in Hvb; lia).
    rewrite (proj2 (Z.eqb_neq _ 0)) in Hvb by done. destruct Hvb as (Hc0 & Hlive & rest & Hb & Hcr).
    destruct (vframe_blocks _ _ _ _ Hf (data_ other) _ Hd0 Hlive Hb) as [Hb1 Hlive1].
    assert (Hne : data_ other <> data_ v1).
    { intros Ed. destruct (vframe_data _ _ _ _ Hf) as [?|[?|Hn]]; [done|done|]. by rewrite <- Ed in Hn. }
    destruct (vrep_rest _ _ _ Hr1 H0) as (rest1 & Hv1 & Hcr1). cbn in Hv1, Hcr1.
    erewrite bind_run.
    2: { apply (copy_elements_run _ _ _ _ l rest rest1); [done..|lia|unfold iters; lia|lia]. }
    change (Z.to_nat 0) with 0%nat. rewrite drop_0. eexists _, _. split; [done|].
    assert (Hsp : splice 0 (Some <$> l) rest1 = (Some <$> l) ++ drop (length l) rest1) by (unfold splice; by rewrite length_fmap).
    rewrite Hsp, Hs. split_and!.
    + apply (vrep_write m1 v1 []); [done..|]. rewrite length_drop. lia.
    + split; [done|done|]. cbn [vheap blocks]. rewrite (proj2 (Z.eqb_neq _ 0)) by done. split_and!; [done..|].
      exists rest. split; [by rewrite lookup_insert_ne|done].
    + cbn. congruence.
  - rewrite (bind_run _ _ _ _ _ eq_refl). assert (l = []) as -> by (apply length_zero_iff_nil; lia).
    replace (size_ other) with 0 by (cbn in *; lia). exists m, (Vec 0 0 0). split_and!; [done|apply vrep_empty|done..].
Qed.

(** ** One theorem for the operations *)

Inductive vec_op :=
  | PushBack (x : T) | EmplaceBack (x : T) | PopBack | Clear
  | Insert (i : Z) (x : T) | InsertCount (i n : Z) (x : T) | InsertRange (i : Z) (xs : list T)
  | Erase (i : Z) | EraseRange (i j : Z) | Resize (n : Z) (x : T) | Assign (n : Z) (x : T)
  | Reserve (n : Z) | ShrinkToFit.

Definition run_vec (d : T) (o : vec_op) (v : vec) : M (vmem T) vec :=
  match o with
  | PushBack x => push_back sizeof_T x v
  | EmplaceBack x => r ← emplace_back sizeof_T x v; mret r.1
  | PopBack => pop_back v
  | Clear => clear v
  | Insert i x => insert sizeof_T i x v
  | InsertCount i n x => insert_count sizeof_T i n x v
  | InsertRange i xs => insert_range sizeof_T i xs d v
  | Erase i => erase i v
  | EraseRange i j => erase_range i j v
  | Resize n x => resize sizeof_T n x v
  | Assign n x => assign sizeof_T n x v
  | Reserve n => reserve sizeof_T n v
  | ShrinkToFit => shrink_to_fit sizeof_T v
  end.

Definition spec_vec (o : vec_op) (l : list T) : list T :=
  match o with
  | PushBack x | EmplaceBack x => l ++ [x]
  | PopBack => take (length l - 1) l
  | Clear => []
  | Insert i x => insert_at i [x] l
  | InsertCount i n x => insert_at i (replicate (Z.to_nat n) x) l
  | InsertRange i xs => insert_at i xs l
  | Erase i => take (Z.to_nat i) l ++ drop (S (Z.to_nat i)) l
  | EraseRange i j => take (Z.to_nat i) l ++ drop (Z.to_nat j) l
  | Resize n x => take (Z.to_nat n) l ++ replicate (Z.to_nat n - length l) x
  | Assign n x => replicate (Z.to_nat n) x
  | Reserve _ | ShrinkToFit => l
  end.

(** The positions are in the vector, and the size asked for has room. *)
Definition vec_ok (o : vec_op) (v : vec) : Prop :=
  match o with
  | PushBack _ | EmplaceBack _ => room v (size_ v + 1)
  | PopBack | Clear => True
  | Insert i _ => 0 <= i <= size_ v /\ room v (size_ v + 1)
  | InsertCount i n _ => 0 <= i <= size_ v /\ 0 <= n /\ room v (size_ v + n)
  | InsertRange i xs => 0 <= i <= size_ v /\ room v (size_ v + Z.of_nat (length xs))
  | Erase i => 0 <= i < size_ v
  | EraseRange i j => 0 <= i <= j /\ j <= size_ v
  | Resize n _ | Assign n _ => 0 <= n /\ room v n
  | Reserve n => 0 <= n /\ room v n
  | ShrinkToFit => room v 0
  end.

Lemma shrunk_spec m v l (n : nat) : (n <= length l)%nat -> vrep m v l ->
  exists m' v', (mret (Vec (data_ v) (Z.of_nat n) (capacity_ v)) : M (vmem T) vec) m = Some (v', m') /\
    vrep m' v' (take n l) /\ vframe m v m' v'.
Proof.
  intros Hn Hr. eexists m, _. split; [done|]. split; [by apply vrep_shrink | by apply vframe_refl].
Qed.

Lemma vec_step d o m v l : vrep m v l -> has_memory m -> vec_ok o v ->
  exists m' v', run_vec d o v m = Some (v', m') /\ vrep m' v' (spec_vec o l) /\ vframe m v m' v'.
Proof.
  intros Hr Hm Hok. pose proof Hr as [Hs Hc Hvb].
  destruct o as [x|x| | |i x|i n x|i xs|i|i j|n x|n x|n| ]; cbn [run_vec spec_vec vec_ok] in *.
  - destruct (push_back_spec m v l x Hr Hm Hok) as (m' & v' & ? & ? & ? & _). eauto.
  - destruct (push_back_spec m v l x Hr Hm Hok) as (m' & v' & _ & ? & ? & E). exists m', v'.
    by rewrite (bind_run _ _ _ _ _ E).
  - unfold pop_back. case_if.
    + replace (size_ v - 1) with (Z.of_nat (length l - 1)) by lia. apply shrunk_spec; [lia|done].
    + exists m, v. rewrite take_ge by lia. split_and!; [done..|by apply vframe_refl].
  - apply (shrunk_spec m v l 0); [lia | done].
  - destruct Hok. by apply insert_spec.
  - destruct Hok as (? & ? & ?). by apply insert_count_spec.
  - destruct Hok. by apply insert_range_spec.
  - rewrite erase_range_one by lia. replace (S (Z.to_nat i)) with (Z.to_nat (i + 1)) by lia.
    apply erase_range_spec; [done|lia..].
  - destruct Hok. by apply erase_range_spec.
  - destruct Hok. by apply resize_spec.
  - destruct Hok as [Hn Hroom]. pose proof (vrep_shrink m v l 0 ltac:(lia) Hr) as Hr0.
    destruct (resize_spec m _ _ n x Hr0 Hm Hn Hroom) as (m' & v' & E & Hr' & Hf). exists m', v'.
    rewrite take_0 in Hr'. cbn [length] in Hr'. rewrite take_nil, Nat.sub_0_r in Hr'.
    split_and!; [exact E|exact Hr'|]. by destruct Hf.
  - destruct Hok as [Hn Hroom]. unfold reserve. case_if.
    + destruct (grow_spec m v l n Hr Hm ltac:(lia) Hroom) as (m' & v' & ? & ? & _ & _ & _ & _ & ?). eauto.
    + exists m, v. split_and!; [done..|by apply vframe_refl].
  - destruct (shrink_to_fit_spec m v l Hr Hm Hok) as (m' & v' & ? & ? & ? & _). eauto.
Qed.
End Spec.
Arguments vec_op : clear implicits.

(** ** Comparison *)

Section Comparison.
Context {T : Type} (eqb ltb : T -> T -> bool).
Implicit Types (m : vmem T) (l : list T).

Fixpoint list_eqb l1 l2 : bool :=
  match l1, l2 with
  | [], [] => true
  | x :: l1, y :: l2 => eqb x y && list_eqb l1 l2
  | _, _ => false
  end.
Fixpoint lexicographic l1 l2 : bool :=
  match l1, l2 with
  | [], [] => false
  | [], _ :: _ => true
  | _ :: _, [] => false
  | x :: l1, y :: l2 => if ltb x y then true else if ltb y x then false else lexicographic l1 l2
  end.

Lemma load_element m v l i x : vrep m v l -> 0 <= i -> l !! Z.to_nat i = Some x -> load (data_ v) i m = Some (x, m).
Proof.
  intros Hr Hi Hx. pose proof (lookup_lt_Some _ _ _ Hx) as Hlt. pose proof Hr as [Hs Hc Hb].
  assert (H0 : data_ v <> 0) by (intros E; rewrite E in Hb; cbn in Hb; lia).
  destruct (vrep_rest _ _ _ Hr H0) as (rest & Hbl & _). apply (load_run _ _ _ _ _ Hbl Hi).
  rewrite lookup_app_l by (rewrite length_fmap; lia). by rewrite list_lookup_fmap, Hx.
Qed.

Lemma equal_elements_run m a b la lb n i : vrep m a la -> vrep m b lb -> 0 <= i -> length la = length lb ->
  (Z.to_nat i + n = length la)%nat ->
  equal_elements eqb n (data_ a) (data_ b) i m = Some (list_eqb (drop (Z.to_nat i) la) (drop (Z.to_nat i) lb), m).
Proof.
  intros Ha Hb. revert i. induction n as [|n IH]; intros i Hi Hl Hn; cbn [equal_elements].
  - by rewrite !drop_ge by lia.
  - destruct (lookup_lt_is_Some_2 la (Z.to_nat i)) as [x Hx]; [lia|].
    destruct (lookup_lt_is_Some_2 lb (Z.to_nat i)) as [y Hy]; [lia|].
    rewrite (bind_run _ _ _ _ _ (load_element _ _ _ _ _ Ha Hi Hx)), (bind_run _ _ _ _ _ (load_element _ _ _ _ _ Hb Hi Hy)).
    rewrite (drop_S _ _ _ Hx), (drop_S _ _ _ Hy). cbn [list_eqb]. destruct (eqb x y); cbn [negb andb]; [|done].
    rewrite IH by lia. by replace (Z.to_nat (i + 1)) with (S (Z.to_nat i)) by lia.
Qed.

Lemma less_elements_run m a b la lb n i (r : bool) : vrep m a la -> vrep m b lb -> 0 <= i ->
  (Z.to_nat i + n = length la `min` length lb)%nat -> r = (length la <? length lb)%nat ->
  less_elements ltb n (data_ a) (data_ b) i r m = Some (lexicographic (drop (Z.to_nat i) la) (drop (Z.to_nat i) lb), m).
Proof.
  intros Ha Hb. revert i. induction n as [|n IH]; intros i Hi Hn ->; cbn [less_elements].
  - destruct (Nat.ltb_spec (length la) (length lb)).
    + rewrite (drop_ge la) by lia. destruct (drop (Z.to_nat i) lb) eqn:E; [|done].
      apply (f_equal length) in E. rewrite length_drop in E. cbn in E. lia.
    + rewrite (drop_ge lb) by lia. by destruct (drop (Z.to_nat i) la).
  - destruct (lookup_lt_is_Some_2 la (Z.to_nat i)) as [x Hx]; [lia|].
    destruct (lookup_lt_is_Some_2 lb (Z.to_nat i)) as [y Hy]; [lia|].
    rewrite (bind_run _ _ _ _ _ (load_element _ _ _ _ _ Ha Hi Hx)), (bind_run _ _ _ _ _ (load_element _ _ _ _ _ Hb Hi Hy)).
    rewrite (drop_S _ _ _ Hx), (drop_S _ _ _ Hy). cbn [lexicographic].
    destruct (ltb x y); [done|]. destruct (ltb y x); [done|].
    rewrite IH by (lia || done). by replace (Z.to_nat (i + 1)) with (S (Z.to_nat i)) by lia.
Qed.

Lemma vector_eq_spec m a b la lb : vrep m a la -> vrep m b lb -> vector_eq eqb a b m = Some (list_eqb la lb, m).
Proof.
  intros Ha Hb. unfold vector_eq. rewrite (vrep_size _ _ _ Ha), (vrep_size _ _ _ Hb).
  destruct (Z.eqb_spec (Z.of_nat (length la)) (Z.of_nat (length lb))) as [E|E]; cbn [negb].
  - rewrite (equal_elements_run m a b la lb) by (done || unfold iters; lia). by rewrite !drop_0.
  - clear Ha Hb. mstep. do 2 f_equal. revert lb E. induction la as [|x la IH]; intros [|y lb] E; try done.
    cbn [list_eqb length] in *. rewrite <- IH by lia. by rewrite andb_false_r.
Qed.

Lemma vector_lt_spec m a b la lb : vrep m a la -> vrep m b lb -> vector_lt ltb a b m = Some (lexicographic la lb, m).
Proof.
  intros Ha Hb. unfold vector_lt. rewrite (vrep_size _ _ _ Ha), (vrep_size _ _ _ Hb).
  rewrite (less_elements_run m a b la lb); [by rewrite !drop_0|done|done|lia| |].
  - unfold iters. case_if; lia.
  - destruct (Z.ltb_spec (Z.of_nat (length la)) (Z.of_nat (length lb))), (Nat.ltb_spec (length la) (length lb)); lia || done.
Qed.
End Comparison.

(** C30: A vector is a list: with its positions in range and memory for its next
    block, every operation - at the end, in the middle, one element, several
    or a range, sizes and capacities - returns, the vector then holds the
    list the operation names, no other block changes, and the heap keeps no
    block but those and the vector's own: one it moves out of is freed. *)
Theorem vector_refines_list {T : Type} (sizeof_T : Z) `{Alloc : Allocator} `{!LawfulAllocator} (d : T)
    (o : vec_op T) (m : vmem T) (v : vec) (l : list T) :
  0 < sizeof_T -> vrep m v l -> has_memory m -> vec_ok sizeof_T o v ->
  exists m' v', run_vec sizeof_T d o v m = Some (v', m') /\ vrep m' v' (spec_vec o l) /\ vframe m v m' v'.
Proof. intros Hsize Hr Hm Hok. by apply (vec_step sizeof_T Hsize d o m v l). Qed.

(** [==] and [<] of vectors are equality and the lexicographic order of
    their lists, and a copy has the same list in a block of its own. *)
Theorem vector_comparisons {T : Type} (eqb ltb : T -> T -> bool) (sizeof_T : Z) `{Alloc : Allocator} `{!LawfulAllocator}
    (m : vmem T) (a b : vec) (la lb : list T) :
  0 < sizeof_T -> vrep m a la -> vrep m b lb -> has_memory m -> room sizeof_T empty_vector (size_ a) ->
  vector_eq eqb a b m = Some (list_eqb eqb la lb, m) /\
  vector_lt ltb a b m = Some (lexicographic ltb la lb, m) /\
  exists m' c, copy_vector sizeof_T a m = Some (c, m') /\ vrep m' c la /\ vrep m' a la /\
    (data_ c = data_ a -> la = []).
Proof.
  intros Hsize Ha Hb Hm Hroom. split_and!; [by apply vector_eq_spec | by apply vector_lt_spec |].
  by apply copy_vector_spec.
Qed.

(** ** The theorems at work *)

Definition one_block : vmem Z := VMem (Heap {[0x1000]} 1) {[0x1000 := [Some 7; Some 9; None; None]]}.
Definition seven_nine : vec := Vec 0x1000 2 4.

Lemma seven_nine_rep : vrep one_block seven_nine [7; 9].
Proof.
  split; cbn; [done|lia|]. split_and!; [lia|set_solver|]. by exists [None; None].
Qed.

Lemma one_block_memory : @has_memory Z bump one_block.
Proof. intros bytes. vm_compute. discriminate. Qed.

Lemma vector_refines_list_witness :
  exists m' v', @run_vec Z 8 bump 0 (InsertRange 1 [1; 2; 3]) seven_nine one_block = Some (v', m') /\
    vrep m' v' [7; 1; 2; 3; 9].
Proof.
  destruct (@vector_refines_list Z 8 bump bump_lawful 0 (InsertRange 1 [1; 2; 3]) one_block seven_nine [7; 9])
    as (m' & v' & E & Hr & _); [lia | apply seven_nine_rep | apply one_block_memory | cbn; unfold room; cbn; lia |].
  exists m', v'. split; [exact E | exact Hr].
Defined.

Lemma vector_comparisons_witness :
  vector_eq Z.eqb seven_nine seven_nine one_block = Some (true, one_block).
Proof.
  refine (proj1 (@vector_comparisons Z Z.eqb Z.ltb 8 bump bump_lawful one_block seven_nine seven_nine [7; 9] [7; 9] _ _ _ _ _));
    [lia | apply seven_nine_rep | apply seven_nine_rep | apply one_block_memory | unfold room; cbn; lia].
Defined.
