(* ===== verification/IoMap.v ===== *)
(** * I/O port mappings: [resources/io.cpp], and the port accesses of
    [extra/uacpi/uacpi_kernel_wrapper.cpp]

    The mappings are a vector; a handle is the address of an element, and
    [deref] reads what is at that address now: an element of whatever block
    of the heap the address lies in, and nothing when it lies in none. *)
From S2P Require Import Prelude Status Printf Alloc Vector Ports.

Record io_mapping := IoMapping {
  base_port : Z;
  len_ports : Z;
  owner : list Z;
}.
Definition sizeof_io_mapping : Z := 16.

Record io_state := IoState { io_mappings : vec; io_mem : vmem io_mapping }.

Definition on_vector {A} (f : M (vmem io_mapping) A) : M io_state A := fun s =>
  '(a, m) ← f (io_mem s); Some (a, IoState (io_mappings s) m).
Definition set_vector (v : vec) : M io_state unit := fun s => Some (tt, IoState v (io_mem s)).

(** The address of an element. *)
Definition address (r : Z * Z) : Z := r.1 + sizeof_io_mapping * r.2.

Section IoMap.
Context `{Allocator}.

Definition map_io (base len : Z) (own : list Z) : M io_state Z :=
  let mapping := IoMapping (u16 base) (u16 len) own in
  s ← gets id;
  v ← on_vector (push_back sizeof_io_mapping mapping (io_mappings s));
  _ ← set_vector v;
  r ← on_vector (at_ (u64 (size_ v - 1)) v);
  mret (address r).

(** The search, and the removal of what it finds. *)
Definition unmap_io (mapping : Z) : M io_state unit :=
  s ← gets id;
  let v := io_mappings s in
  loop (S (Z.to_nat (size_ v))) (fun i =>
    if size_ v <=? i then mret (inr tt)
    else if address (subscript i v) =? mapping
    then v ← on_vector (erase i v); _ ← set_vector v; mret (inr tt)
    else mret (inl (i + 1))) 0.

Definition print_io_mappings (s : io_state) : M sinks unit :=
  let v := io_mappings s in
  for_range 0 (size_ v) (fun i =>
    m ← liftO (fst <$> (r ← at_ i v; load r.1 r.2) (io_mem s));
    _ ← printf_ (cstr "%s:" ++ [9] ++ cstr "0x%04X" ++ [9] ++ cstr "-" ++ [9] ++ cstr "0x%04X" ++ [13; 10])
          [VaStr (owner m); VaInt (base_port m); VaInt (base_port m + len_ports m)];
    mret tt).
End IoMap.

(** What an address holds: the cell of the block of the heap it lies in. *)
Definition in_block (a : Z) (pb : Z * list (option io_mapping)) : Prop :=
  pb.1 <= a < pb.1 + sizeof_io_mapping * Z.of_nat (length pb.2).
Definition block_of (m : vmem io_mapping) (a : Z) : option Z :=
  pb ← snd <$> list_find (in_block a) (map_to_list (blocks m)); Some pb.1.
Definition deref (s : io_state) (handle : Z) : option io_mapping :=
  p ← block_of (io_mem s) handle;
  guard ((handle - p) `mod` sizeof_io_mapping = 0);;
  fst <$> load p ((handle - p) `div` sizeof_io_mapping) (io_mem s).

(** ** uACPI's side *)

Definition uacpi_kernel_io_map `{Allocator} (base len : Z) : M io_state (uacpi_status * Z) :=
  h ← map_io base len (cstr "uACPI"); mret (UACPI_STATUS_OK, h).
Definition uacpi_kernel_io_unmap (handle : Z) : M io_state unit := unmap_io handle.

Section Access.
Context {St : Type} `{Ports St}.

(** The port of an access: [uint16_t] of the instruction. *)
Definition port_of (range : io_mapping) (offset : Z) : Z := u16 (base_port range + offset).

Definition io_read (inp : Z -> M St Z) (s : io_state) (handle offset : Z) : M St (uacpi_status * Z) :=
  range ← liftO (deref s handle); v ← inp (port_of range offset); mret (UACPI_STATUS_OK, v).
Definition io_write (out : Z -> Z -> M St unit) (s : io_state) (handle offset v : Z) : M St uacpi_status :=
  range ← liftO (deref s handle); _ ← out (port_of range offset) v; mret UACPI_STATUS_OK.

Definition uacpi_kernel_io_read8 := io_read inb.
Definition uacpi_kernel_io_read16 := io_read inw.
Definition uacpi_kernel_io_read32 := io_read inl_.
Definition uacpi_kernel_io_write8 := io_write outb.
Definition uacpi_kernel_io_write16 := io_write outw.
Definition uacpi_kernel_io_write32 := io_write outl.
End Access.
