(* ===== verification/IoMapSpec.v ===== *)
(** * What a port handle reaches

    The mappings are the list of what was mapped and not unmapped, but a
    handle is an address into it: it reaches its mapping as long as the
    vector neither grows nor loses an earlier element. *)
From S2P Require Import Prelude Status Printf PrintfSpec Alloc Vector VectorSpec Ports IoMap.

Section IoMapSpec.
Context {Alloc : Allocator} {Lawful : LawfulAllocator}.
Implicit Types (s : io_state) (l : list io_mapping).

(** The vector holds the mappings, and it is the only one of its type. *)
Record io_rep s l : Prop := {
  io_vrep : vrep (io_mem s) (io_mappings s) l;
  io_only : forall q, q ∈ dom (blocks (io_mem s)) -> q = data_ (io_mappings s) /\ q <> 0;
}.
(** Memory for one more mapping. *)
Definition io_room s : Prop := has_memory (io_mem s) /\ room sizeof_io_mapping (io_mappings s) (size_ (io_mappings s) + 1).

Definition handle_of s (i : nat) : Z := address (data_ (io_mappings s), Z.of_nat i).

Lemma sizeof_pos : 0 < sizeof_io_mapping.
Proof. done. Qed.

Lemma rep_data s l : io_rep s l -> l <> [] -> data_ (io_mappings s) <> 0.
Proof.
  intros [[Hs Hc Hb] _] Hl E. rewrite E in Hb. cbn in Hb. destruct l; [done|]. cbn in Hs. lia.
Qed.

Lemma vrep_live s l : io_rep s l -> l <> [] -> data_ (io_mappings s) ∈ live (vheap (io_mem s)).
Proof.
  intros Hr Hl. pose proof (rep_data s l Hr Hl) as H0. destruct Hr as [[_ _ Hb] _].
  rewrite (proj2 (Z.eqb_neq _ 0)) in Hb by done. by destruct Hb as (_ & ? & _).
Qed.

(** The block an address lies in is the vector's. *)
Lemma block_of_rep s l a : io_rep s l -> l <> [] ->
  block_of (io_mem s) a
  = if decide (data_ (io_mappings s) <= a < data_ (io_mappings s) + 16 * capacity_ (io_mappings s))
    then Some (data_ (io_mappings s)) else None.
Proof.
  intros Hr Hl. pose proof (rep_data s l Hr Hl) as H0. destruct Hr as [Hv Ho].
  destruct (vrep_rest _ _ _ Hv H0) as (rest & Hb & Hc).
  assert (Hm : blocks (io_mem s) = {[data_ (io_mappings s) := (Some <$> l) ++ rest]}).
  { apply map_eq. intros q. destruct (decide (q = data_ (io_mappings s))) as [->|Hne].
    - by rewrite Hb, lookup_singleton_eq.
    - rewrite lookup_singleton_ne by done. apply not_elem_of_dom. intros Hq. by destruct (Ho q Hq). }
  unfold block_of. rewrite Hm, map_to_list_singleton. cbn [list_find].
  unfold in_block. cbn [fst snd]. unfold sizeof_io_mapping. rewrite length_app, length_fmap, <- Hc.
  by repeat case_decide.
Qed.

(** A handle of an element reads it. *)
Lemma deref_handle s l i m : io_rep s l -> l !! i = Some m -> deref s (handle_of s i) = Some m.
Proof.
  intros Hr Hi. pose proof (lookup_lt_Some _ _ _ Hi) as Hlt. pose proof (io_vrep _ _ Hr) as Hv.
  pose proof Hv as [Hs Hc _]. unfold deref.
  rewrite (block_of_rep s l) by (done || (intros ->; cbn in Hlt; lia)).
  unfold handle_of, address, sizeof_io_mapping. cbn [fst snd].
  rewrite decide_True by lia. cbn [mbind option_bind].
  replace (data_ (io_mappings s) + 16 * Z.of_nat i - data_ (io_mappings s)) with (Z.of_nat i * 16) by lia.
  rewrite Z.mod_mul, Z.div_mul, option_guard_True by done.
  rewrite (load_element _ _ _ (Z.of_nat i) m Hv); [done|lia|by rewrite Nat2Z.id].
Qed.

Lemma io_rep_frame s s' l l' : io_rep s l -> vrep (io_mem s') (io_mappings s') l' ->
  vframe (io_mem s) (io_mappings s) (io_mem s') (io_mappings s') -> l' <> [] -> io_rep s' l'.
Proof.
  intros [Hv Ho] Hv' Hf Hl. assert (H0 : data_ (io_mappings s') <> 0).
  { pose proof Hv' as [Hs Hc Hb]. intros E. rewrite E in Hb. cbn in Hb. destruct l'; [done|]. cbn in Hs. lia. }
  split; [done|]. intros q Hq. destruct (decide (q = data_ (io_mappings s'))) as [->|Hne]; [done|].
  destruct (vframe_held _ _ _ _ Hf q Hne Hq) as [Hd Hn]. destruct (Ho q Hd) as [-> Hq0]. by destruct (Hn Hq0).
Qed.

(** The two steps of a sequence that ends. *)
Lemma bind_steps {S A B} (f : M S A) (g : A -> M S B) (s s' : S) (b : B) :
  (f ≫= g) s = Some (b, s') -> exists a st, f s = Some (a, st) /\ g a st = Some (b, s').
Proof. cbv [mbind M_bind]. destruct (f s) as [[a st]|]; [|done]. eauto. Qed.

(** A full vector gets a block that was not live. *)
Lemma push_back_full (m : vmem io_mapping) v x v' m' : capacity_ v <= size_ v ->
  push_back sizeof_io_mapping x v m = Some (v', m') -> data_ v' = 0 \/ data_ v' ∉ live (vheap m).
Proof.
  intros Hfull E. unfold push_back in E. rewrite (proj2 (Z.leb_le _ _)) in E by done.
  apply bind_steps in E as (v1 & m1 & E1 & E). apply bind_steps in E as (u & m2 & _ & [= <- _]).
  unfold grow in E1. apply bind_steps in E1 as (p & m3 & Ep & E1). apply bind_steps in E1 as (u' & m4 & _ & [= <- _]).
  cbn [data_]. unfold vmalloc in Ep. destruct (malloc _ (vheap m)) as [q h] eqn:Eq. injection Ep as <- _.
  destruct (decide (q = 0)) as [|Hq]; [by left|]. right. by destruct (malloc_fresh _ _ _ _ Eq Hq).
Qed.

Lemma map_io_spec s l base len own : io_rep s l -> io_room s ->
  exists s', map_io base len own s = Some (handle_of s' (length l), s') /\
    io_rep s' (l ++ [IoMapping (u16 base) (u16 len) own]) /\
    vframe (io_mem s) (io_mappings s) (io_mem s') (io_mappings s') /\
    (size_ (io_mappings s) = capacity_ (io_mappings s) ->
     data_ (io_mappings s') ∉ live (vheap (io_mem s))).
Proof.
  intros Hr [Hm Hroom]. pose proof (io_vrep _ _ Hr) as Hv. pose proof Hv as [Hs Hc _].
  destruct (push_back_spec sizeof_io_mapping sizeof_pos _ _ _ (IoMapping (u16 base) (u16 len) own) Hv Hm Hroom)
    as (m' & v' & E & Hr' & Hf & _).
  pose proof (vrep_size _ _ _ Hr') as Hs'. rewrite length_app in Hs'. cbn in Hs'.
  pose proof (vrep_cap _ _ _ Hr') as Hc'.
  assert (Hrep : io_rep (IoState v' m') (l ++ [IoMapping (u16 base) (u16 len) own])).
  { apply (io_rep_frame s _ l); [done..|]. by destruct l. }
  exists (IoState v' m'). split; [|split; [done|split; [done|]]].
  - unfold map_io. rewrite (bind_run (gets id) _ _ _ _ eq_refl). cbn [id].
    erewrite (bind_run (on_vector _)); [|unfold on_vector; by rewrite E].
    rewrite (bind_run (set_vector v') _ _ _ _ eq_refl). rewrite u64_small by lia. cbn [io_mem].
    unfold on_vector, at_. replace (size_ v' <=? size_ v' - 1) with false by lia. mstep. cbn.
    do 2 f_equal. unfold handle_of. cbn [io_mappings]. do 2 f_equal. lia.
  - intros Hfull. cbn [io_mappings]. destruct (push_back_full (io_mem s) (io_mappings s) _ v' m' ltac:(lia) E) as [H0|]; [|done].
    exfalso. apply (rep_data _ _ Hrep); [by destruct l | exact H0].
Qed.

Lemma handle_inj s i j : handle_of s i = handle_of s j -> i = j.
Proof. unfold handle_of, address, sizeof_io_mapping. cbn. lia. Qed.

(** The turn of the search in [unmap_io]. *)
Definition unmap_turn (v : vec) (h : Z) (i : Z) : M io_state (Z + unit) :=
  if size_ v <=? i then mret (inr tt)
  else if address (subscript i v) =? h
  then v ← on_vector (erase i v); _ ← set_vector v; mret (inr tt)
  else mret (inl (i + 1)).

Lemma erase_at_spec s l k : io_rep s l -> (k < length l)%nat ->
  exists s', (v ← on_vector (erase (Z.of_nat k) (io_mappings s)); _ ← set_vector v; mret (inr tt)) s
             = Some (@inr Z unit tt, s') /\
    io_rep s' (take k l ++ drop (S k) l) /\ data_ (io_mappings s') = data_ (io_mappings s) /\
    capacity_ (io_mappings s') = capacity_ (io_mappings s).
Proof.
  intros Hr Hk. pose proof (io_vrep _ _ Hr) as Hv. pose proof Hv as [Hs Hc _].
  destruct (erase_range_spec _ _ _ (Z.of_nat k) (Z.of_nat k + 1) Hv) as (m' & v' & E & Hr' & Hf);
    [lia..|].
  rewrite Nat2Z.id in Hr'. replace (Z.to_nat (Z.of_nat k + 1)) with (S k) in Hr' by lia.
  assert (Hd : data_ v' = data_ (io_mappings s) /\ capacity_ v' = capacity_ (io_mappings s)).
  { revert E. unfold erase_range. destruct (_ =? 0); [by intros [= <- _]|]. cbv [mbind M_bind].
    destruct (shift_left _ _ _ _) as [[u m1]|]; [|done]. by intros [= <- _]. }
  assert (Ho : io_rep (IoState v' m') (take k l ++ drop (S k) l)).
  { split; [exact Hr'|]. cbn [io_mem io_mappings]. destruct Hd as [Ed _]. rewrite Ed. intros q Hq.
    destruct (decide (q = data_ (io_mappings s))) as [->|Hne].
    - split; [done|]. apply (rep_data s l Hr). destruct l; [cbn in Hk; lia|done].
    - apply (io_only _ _ Hr). apply (vframe_held _ _ _ _ Hf q); [by rewrite Ed | done]. }
  exists (IoState v' m'). split; [|split; [exact Ho | exact Hd]].
  unfold on_vector. mstep. rewrite erase_range_one by lia. by rewrite E.
Qed.

Lemma unmap_hit s l k n i : io_rep s l -> (k < length l)%nat -> (i <= k)%nat -> (k - i < n)%nat ->
  exists s', loop n (unmap_turn (io_mappings s) (handle_of s k)) (Z.of_nat i) s = Some (tt, s') /\
    io_rep s' (take k l ++ drop (S k) l) /\ data_ (io_mappings s') = data_ (io_mappings s) /\
    capacity_ (io_mappings s') = capacity_ (io_mappings s).
Proof.
  intros Hr Hk. pose proof (vrep_size _ _ _ (io_vrep _ _ Hr)) as Hs. revert i. induction n as [|n IH]; intros i Hi Hn; [lia|].
  assert (Ht : unmap_turn (io_mappings s) (handle_of s k) (Z.of_nat i) s
    = if decide (i = k) then (v ← on_vector (erase (Z.of_nat k) (io_mappings s)); _ ← set_vector v; mret (inr tt)) s
      else Some (inl (Z.of_nat (S i)), s)).
  { unfold unmap_turn. rewrite (proj2 (Z.leb_gt _ _)) by lia. change (address (subscript _ _)) with (handle_of s i).
    destruct (decide (i = k)) as [->|Hne].
    - by rewrite Z.eqb_refl.
    - rewrite (proj2 (Z.eqb_neq _ _)) by (intros E; by apply handle_inj in E). mstep. do 3 f_equal. lia. }
  destruct (decide (i = k)) as [->|Hne].
  - destruct (erase_at_spec s l k Hr Hk) as (s' & E & H). exists s'. split; [|done].
    apply loop_inr. by rewrite Ht.
  - rewrite (loop_inl _ _ _ _ _ _ Ht). apply IH; lia.
Qed.

Lemma unmap_io_spec s l k : io_rep s l -> (k < length l)%nat ->
  exists s', unmap_io (handle_of s k) s = Some (tt, s') /\ io_rep s' (take k l ++ drop (S k) l) /\
    data_ (io_mappings s') = data_ (io_mappings s) /\ capacity_ (io_mappings s') = capacity_ (io_mappings s).
Proof.
  intros Hr Hk. pose proof (vrep_size _ _ _ (io_vrep _ _ Hr)) as Hs. unfold unmap_io. rewrite (bind_run (gets id) _ _ _ _ eq_refl).
  apply (unmap_hit s l k _ 0 Hr Hk); cbn [id]; lia.
Qed.

Lemma unmap_io_unknown s l h : io_rep s l -> (forall k, (k < length l)%nat -> handle_of s k <> h) ->
  unmap_io h s = Some (tt, s).
Proof.
  intros Hr Hh. pose proof (vrep_size _ _ _ (io_vrep _ _ Hr)) as Hs. unfold unmap_io. rewrite (bind_run (gets id) _ _ _ _ eq_refl).
  cbn [id]. fold (unmap_turn (io_mappings s) h). rewrite Hs, Nat2Z.id.
  assert (Hloop : forall n i, (i + n = S (length l))%nat -> (0 < n)%nat ->
            loop n (unmap_turn (io_mappings s) h) (Z.of_nat i) s = Some (tt, s)).
  { induction n as [|n IH]; intros i Hn Hp; [lia|]. destruct (decide (i = length l)) as [->|Hne].
    - apply loop_inr. unfold unmap_turn. by rewrite (proj2 (Z.leb_le _ _)) by lia.
    - erewrite loop_inl; [apply (IH (S i)); lia|]. unfold unmap_turn. rewrite (proj2 (Z.leb_gt _ _)) by lia.
      rewrite (proj2 (Z.eqb_neq _ _)) by (apply (Hh i); lia). mstep. do 3 f_equal. lia. }
  apply (Hloop _ 0%nat); lia.
Qed.

(** A block elsewhere than the vector's is in no block. *)
Lemma deref_moved s l d c i : io_rep s l -> l <> [] -> 0 <= i < c ->
  d + sizeof_io_mapping * c <= data_ (io_mappings s) \/
  data_ (io_mappings s) + sizeof_io_mapping * capacity_ (io_mappings s) <= d ->
  deref s (address (d, i)) = None.
Proof.
  intros Hr Hl Hi Hd. unfold deref. rewrite (block_of_rep s l) by done.
  unfold address, sizeof_io_mapping in *. cbn [fst snd]. by rewrite decide_False by lia.
Qed.
End IoMapSpec.

(** A port mapped for uACPI is reached through its handle: the mapping is
    the last of the list, and an access of any width at an offset goes to the
    base, as 16 bits, plus the offset; the ports of the earlier mappings stay
    in the list. *)
Theorem io_map_reaches_port `{Alloc : Allocator} `{!LawfulAllocator} `{Ports St} (s : io_state) (l : list io_mapping)
    (base len offset : Z) (dev : St) :
  io_rep s l -> io_room s ->
  exists h s', uacpi_kernel_io_map base len s = Some ((UACPI_STATUS_OK, h), s') /\
    io_rep s' (l ++ [IoMapping (u16 base) (u16 len) (cstr "uACPI")]) /\
    uacpi_kernel_io_read8 s' h offset dev = (v ← inb (u16 (u16 base + offset)); mret (UACPI_STATUS_OK, v)) dev /\
    forall v, uacpi_kernel_io_write32 s' h offset v dev
              = (_ ← outl (u16 (u16 base + offset)) v; mret UACPI_STATUS_OK) dev.
Proof.
  intros Hr Hroom. destruct (map_io_spec s l base len (cstr "uACPI") Hr Hroom) as (s' & E & Hr' & _).
  exists (handle_of s' (length l)), s'. split; [unfold uacpi_kernel_io_map; by rewrite (bind_run _ _ _ _ _ E)|].
  split; [done|].
  assert (Hd : deref s' (handle_of s' (length l)) = Some (IoMapping (u16 base) (u16 len) (cstr "uACPI"))).
  { apply (deref_handle s' _ _ _ Hr'). by apply list_lookup_middle. }
  unfold uacpi_kernel_io_read8, uacpi_kernel_io_write32, io_read, io_write. rewrite Hd. done.
Qed.

(** Handles do not last.  A handle reads its mapping; unmapping one
    makes every handle of a later mapping read the mapping after its own; and
    mapping one more when the vector is full frees the block every handle
    given so far points into: it is no longer live, nor holds anything, so a
    read through such a handle is of freed memory - of nothing, where the
    new block lies apart from the old one, as two blocks of an allocator do
    that were live at once. *)
Theorem io_handles_go_stale `{Alloc : Allocator} `{!LawfulAllocator} (s : io_state) (l : list io_mapping) :
  io_rep s l ->
  (forall i m, l !! i = Some m -> deref s (handle_of s i) = Some m) /\
  (forall i j m, (i < j)%nat -> l !! S j = Some m ->
     exists s', uacpi_kernel_io_unmap (handle_of s i) s = Some (tt, s') /\
       deref s' (handle_of s j) = Some m) /\
  (forall base len i, io_room s -> size_ (io_mappings s) = capacity_ (io_mappings s) -> (i < length l)%nat ->
     exists h s', uacpi_kernel_io_map base len s = Some ((UACPI_STATUS_OK, h), s') /\
       data_ (io_mappings s) <= handle_of s i < data_ (io_mappings s) + 16 * capacity_ (io_mappings s) /\
       data_ (io_mappings s) ∈ live (vheap (io_mem s)) /\
       data_ (io_mappings s) ∉ live (vheap (io_mem s')) /\
       blocks (io_mem s') !! data_ (io_mappings s) = None /\
       (data_ (io_mappings s) + 16 * capacity_ (io_mappings s) <= data_ (io_mappings s') \/
        data_ (io_mappings s') + 16 * capacity_ (io_mappings s') <= data_ (io_mappings s) ->
        deref s' (handle_of s i) = None)).
Proof.
  intros Hr. split; [intros i m; by apply deref_handle|]. split.
  - intros i j m Hij Hj. pose proof (lookup_lt_Some _ _ _ Hj) as Hlt.
    destruct (unmap_io_spec s l i Hr ltac:(lia)) as (s' & E & Hr' & Hd & _). exists s'. split; [exact E|].
    assert (Eh : handle_of s j = handle_of s' j) by (unfold handle_of; by rewrite Hd). rewrite Eh.
    apply (deref_handle s' _ _ _ Hr'). rewrite lookup_app_r; rewrite length_take; [|lia].
    rewrite lookup_drop. rewrite <- Hj. f_equal. lia.
  - intros base len i Hroom Hfull Hi. pose proof (vrep_size _ _ _ (io_vrep _ _ Hr)) as Hs.
    assert (Hl : l <> []) by (intros ->; cbn in Hi; lia). pose proof (rep_data s l Hr Hl) as H0.
    pose proof (vrep_live s l Hr Hl) as Hlive.
    destruct (map_io_spec s l base len (cstr "uACPI") Hr Hroom) as (s' & E & Hr' & Hf & Hnew).
    specialize (Hnew Hfull). assert (Hne : data_ (io_mappings s) <> data_ (io_mappings s')) by (intros Ed; by rewrite Ed in Hlive).
    exists (handle_of s' (length l)), s'. split; [unfold uacpi_kernel_io_map; by rewrite (bind_run _ _ _ _ _ E)|].
    split_and!; [unfold handle_of, address, sizeof_io_mapping; cbn [fst snd]; lia.. | done | | |].
    + intros Hin. by destruct (vframe_live _ _ _ _ Hf _ Hne Hin) as [_ []].
    + apply not_elem_of_dom. intros Hin. by destruct (vframe_held _ _ _ _ Hf _ Hne Hin) as [_ []].
    + intros Hd. apply (deref_moved s' _ _ (capacity_ (io_mappings s)) _ Hr'); [by destruct l | lia | exact Hd].
Qed.

(** ** The theorems at work *)

Definition four : list io_mapping := (fun b => IoMapping b 8 (cstr "uACPI")) <$> [0x60; 0x70; 0x3F8; 0xB2].
Definition four_mapped : io_state :=
  IoState (Vec 0x1000 4 4) (VMem (Heap {[0x1000]} 1) {[0x1000 := Some <$> four]}).

Lemma four_rep : io_rep four_mapped four.
Proof.
  split.
  - split; cbn; [done|lia|]. split_and!; [lia|set_solver|]. by exists [].
  - intros q Hq. cbn [four_mapped io_mem blocks] in Hq. rewrite dom_singleton in Hq. apply elem_of_singleton in Hq as ->. done.
Qed.

Lemma four_room : @io_room bump four_mapped.
Proof. split; [intros bytes; vm_compute; discriminate | reflexivity]. Qed.

(** A machine whose ports read as their numbers. *)
Definition echo_ports : Ports unit := {|
  outb _ _ := mret tt; outw _ _ := mret tt; outl _ _ := mret tt;
  inb p := mret (u8 p); inw p := mret (u16 p); inl_ p := mret (u32 p) |}.

Lemma io_map_reaches_port_witness :
  exists h s', @uacpi_kernel_io_map bump 0x20000CF8 4 four_mapped = Some ((UACPI_STATUS_OK, h), s') /\
    @uacpi_kernel_io_read8 unit echo_ports s' h 4 tt = Some ((UACPI_STATUS_OK, 0xFC), tt).
Proof.
  destruct (@io_map_reaches_port bump bump_lawful unit echo_ports four_mapped four 0x20000CF8 4 4 tt four_rep four_room)
    as (h & s' & E & _ & Hr & _).
  exists h, s'. split; [exact E | exact Hr].
Defined.

Lemma io_handles_go_stale_witness :
  (exists s', uacpi_kernel_io_unmap 0x1000 four_mapped = Some (tt, s') /\
    deref s' 0x1010 = Some (IoMapping 0x3F8 8 (cstr "uACPI"))) /\
  exists h s', @uacpi_kernel_io_map bump 0xCF8 8 four_mapped = Some ((UACPI_STATUS_OK, h), s') /\
    deref four_mapped 0x1010 = Some (IoMapping 0x70 8 (cstr "uACPI")) /\
    0x1000 ∉ live (vheap (io_mem s')) /\ deref s' 0x1010 = None.
Proof.
  destruct (@io_handles_go_stale bump bump_lawful four_mapped four four_rep) as (Hread & Hun & Hmap).
  split; [exact (Hun 0%nat 1%nat _ (le_n 1) eq_refl)|].
  destruct (Hmap 0xCF8 8 1%nat four_room eq_refl) as (h & s' & E & _ & _ & Hf & _ & Hd); [cbn; lia|].
  exists h, s'. split; [exact E|]. split; [exact (Hread 1%nat _ eq_refl)|]. split; [exact Hf|].
  apply Hd. vm_compute in E. injection E as _ <-. left. cbn. discriminate.
Defined.
