(* ===== verification/Boot.v ===== *)
(** * What the boot loader hands over: [entry.cpp], [protocols/]

    The command line is split in place into the arguments of [main].  The
    responses of the boot loader are parameters; a constructor that finds its
    response missing stops the machine, which is [None]. *)
From S2P Require Import Prelude.

(** ** The arguments, [kernel_entry] in [entry.cpp] *)

Record entry_state := EntryState {
  cmdline : list Z;
  argc : Z;
  j : Z;
  arg_ptrs : list (option Z);
}.
#[export] Instance settable_entry_state : Settable entry_state := fun s =>
  EntryState (cmdline s) (argc s) (j s) (arg_ptrs s).

Definition char_in (s : entry_state) (i : Z) : option Z := cmdline s !! Z.to_nat i.

(** [while (cmdline[cmdline_len] != '\0') cmdline_len++] *)
Fixpoint cmdline_len (line : list Z) (n : Z) : option Z :=
  match line with
  | [] => None
  | c :: line => if c =? 0 then Some n else cmdline_len line (n + 1)
  end.

(** The first pass ends every argument and counts them. *)
Definition end_argument (i : Z) : M entry_state unit := fun s =>
  c ← char_in s i;
  if c =? 32
  then Some (tt, s <| cmdline := <[Z.to_nat i := 0]> (cmdline s) |> <| argc := s32 (argc s + 1) |>)
  else Some (tt, s).

(** A store to the array of [argc] pointers. *)
Definition push_arg (p : Z) : M entry_state unit := fun s =>
  guard (0 <= j s < Z.of_nat (length (arg_ptrs s)));;
  Some (tt, s <| arg_ptrs := <[Z.to_nat (j s) := Some p]> (arg_ptrs s) |> <| j := j s + 1 |>).

(** The second pass takes the start behind every end. *)
Definition start_argument (line i : Z) : M entry_state unit := fun s =>
  c ← char_in s i;
  if c =? 0 then push_arg (line + i + 1) s else Some (tt, s).

(** Up to the call of [main]; the string is at [line]. *)
Definition kernel_arguments (line : Z) : M entry_state unit :=
  s ← gets id;
  len ← liftO (cmdline_len (cmdline s) 0);
  _ ← modify (fun s => s <| argc := 1 |>);
  _ ← for_range 0 len end_argument;
  _ ← modify (fun s => s <| arg_ptrs := replicate (Z.to_nat (argc s)) None |> <| j := 0 |>);
  _ ← push_arg line;
  for_range 0 len (start_argument line).

(** What [kernel_entry] does with the response: nothing to run [main] on
    when it is missing, and the halt it ends in otherwise. *)
Definition kernel_entry (response : option (option (list Z))) (line : Z)
    (main : Z -> list (option Z) -> list Z -> option Z) : option Z :=
  r ← response; text ← r;
  '(_, s) ← kernel_arguments line (EntryState text 0 0 []);
  main (argc s) (arg_ptrs s) (cmdline s).

(** ** The memory map, [protocols/memmap.cpp] *)

Section MemMap.
Context {limine_memmap_entry : Type}.

Record limine_memmap_response := MemmapResponse {
  response_entry_count : Z;
  response_entries : option (list (option limine_memmap_entry));
}.
(** [total_size_bytes] is never written. *)
Record MemMap := MkMemMap {
  entry_count : Z;
  entries : list (option limine_memmap_entry);
  total_size_bytes : Z;
}.

Definition MemMap_constructor (response : option limine_memmap_response) (junk : Z) : option MemMap :=
  r ← response;
  if response_entry_count r <? 1 then None
  else
    es ← response_entries r;
    _ ← mjoin (head es);
    Some (MkMemMap (response_entry_count r) es junk).

Definition get_num_entries (m : MemMap) : Z := entry_count m.
Definition get_entry (m : MemMap) (idx : Z) : option limine_memmap_entry :=
  mjoin (entries m !! Z.to_nat idx).
Definition get_total_memory (m : MemMap) : Z := total_size_bytes m.
End MemMap.

(** ** The framebuffer, [protocols/graphics.cpp] *)

(** The fields that are read. *)
Record limine_framebuffer := Framebuffer {
  fb_address : Z;
  fb_width : Z;
  fb_height : Z;
  fb_pitch : Z;
  fb_bpp : Z;
  red_mask_size : Z;
  red_mask_shift : Z;
  green_mask_size : Z;
  green_mask_shift : Z;
  blue_mask_size : Z;
  blue_mask_shift : Z;
}.
Record KernelGraphics := MkGraphics { main_framebuffer : limine_framebuffer }.

Definition KernelGraphics_constructor (response : option (list limine_framebuffer)) : option KernelGraphics :=
  fbs ← response; fb ← head fbs; Some (MkGraphics fb).

Definition get_width (g : KernelGraphics) : Z := fb_width (main_framebuffer g).
Definition get_height (g : KernelGraphics) : Z := fb_height (main_framebuffer g).
Definition get_pitch (g : KernelGraphics) : Z := fb_pitch (main_framebuffer g).
Definition get_bpp (g : KernelGraphics) : Z := fb_bpp (main_framebuffer g).
Definition get_stride (g : KernelGraphics) : Z := u64 (u64 (get_width g * get_bpp g) + 32) / 32.
Definition get_red_mask_size (g : KernelGraphics) : Z := red_mask_size (main_framebuffer g).
Definition get_green_mask_size (g : KernelGraphics) : Z := green_mask_size (main_framebuffer g).
Definition get_blue_mask_size (g : KernelGraphics) : Z := blue_mask_size (main_framebuffer g).
Definition get_red_mask_shift (g : KernelGraphics) : Z := red_mask_shift (main_framebuffer g).
Definition get_green_mask_shift (g : KernelGraphics) : Z := green_mask_shift (main_framebuffer g).
Definition get_blue_mask_shift (g : KernelGraphics) : Z := blue_mask_shift (main_framebuffer g).
Definition get_framebuffer_ptr (g : KernelGraphics) : Z := fb_address (main_framebuffer g).

(** [rsdp::get_rsdp] reads through the response without a test. *)
Definition get_rsdp (response : option Z) : option Z := response.
