(* ===== verification/BootSpec.v ===== *)
(** * The arguments of [main] are the words of the command line

    [fields] splits a text at every space; [kernel_arguments] leaves pointers
    to exactly those fields in the line it was given. *)
From S2P Require Import Prelude UStd StrToInt Printf PrintfSpec UFormat UFormatSpec LogSpec Boot.

(** ** Splitting at spaces *)

Fixpoint fields (t : list Z) : list (list Z) :=
  match t with
  | [] => [[]]
  | c :: t => if c =? 32 then [] :: fields t
              else match fields t with f :: fs => (c :: f) :: fs | [] => [[c]] end
  end.

(** The text that fields are the parts of. *)
Fixpoint join (fs : list (list Z)) : list Z :=
  match fs with [] => [] | [f] => f | f :: fs => f ++ 32 :: join fs end.

Lemma fields_cons t : exists f fs, fields t = f :: fs.
Proof. destruct t as [|c t]; cbn; [eauto|]. case_if; [eauto|]. destruct (fields t); eauto. Qed.

Lemma join_fields t : join (fields t) = t.
Proof.
  induction t as [|c t IH]; [done|]. cbn [fields]. destruct (fields_cons t) as (f & fs & E). rewrite E in *.
  case_if.
  - subst c. change (join ([] :: f :: fs)) with (32 :: join (f :: fs)). by rewrite IH.
  - destruct fs as [|g fs]; cbn [join] in *; by rewrite <- IH.
Qed.

Lemma fields_no_space t : Forall (fun f => 32 ∉ f) (fields t).
Proof.
  induction t as [|c t IH]; cbn [fields]; [repeat constructor; set_solver|].
  case_if; [constructor; [set_solver | done]|]. destruct (fields t) as [|f fs]; [repeat constructor; set_solver|].
  apply Forall_cons in IH as [Hf IH]. constructor; [set_solver | done].
Qed.

(** The line with its spaces ended, and where the parts behind them start. *)
Definition ended (t : list Z) : list Z := (fun c => if c =? 32 then 0 else c) <$> t.
Fixpoint starts (k : Z) (t : list Z) : list Z :=
  match t with
  | [] => []
  | c :: t => if c =? 32 then (k + 1) :: starts (k + 1) t else starts (k + 1) t
  end.

Lemma starts_app k t u : starts k (t ++ u) = starts k t ++ starts (k + Z.of_nat (length t)) u.
Proof.
  revert k. induction t as [|d t IH]; intros k; cbn [app starts length].
  - by rewrite Z.add_0_r.
  - rewrite IH. replace (k + 1 + Z.of_nat (length t)) with (k + Z.of_nat (S (length t))) by lia. by case_if.
Qed.

Lemma ended_snoc t c : ended (t ++ [c]) = ended t ++ [if c =? 32 then 0 else c].
Proof. unfold ended. by rewrite fmap_app. Qed.

Lemma length_starts k t : length (fields t) = S (length (starts k t)).
Proof.
  revert k. induction t as [|c t IH]; intros k; cbn [fields starts]; [done|].
  case_if; cbn [length]; [by rewrite (IH (k + 1))|]. rewrite <- (IH (k + 1)).
  by destruct (fields_cons t) as (f & fs & ->).
Qed.

Definition string_at (line : Z) (buf : list Z) (p : Z) : option (list Z) :=
  string_in (drop (Z.to_nat (p - line)) buf).

(** The strings of the parts. *)
Lemma starts_strings line pre t rest : Forall (fun c => c <> 0) t ->
  string_in (ended t ++ 0 :: rest) = head (fields t) /\
  string_at line (pre ++ ended t ++ 0 :: rest) <$> starts (line + Z.of_nat (length pre)) t = Some <$> tail (fields t).
Proof.
  intros Ht. revert pre. induction Ht as [|c t Hc Ht IH]; intros pre; [done|].
  assert (Hsnoc : pre ++ ended (c :: t) ++ 0 :: rest = (pre ++ [if c =? 32 then 0 else c]) ++ ended t ++ 0 :: rest)
    by (by rewrite <- app_assoc).
  destruct (IH (pre ++ [if c =? 32 then 0 else c])) as [Hh Htl]. rewrite <- Hsnoc in Htl.
  rewrite length_app in Htl. cbn [length] in Htl.
  replace (line + Z.of_nat (length pre + 1)) with (line + Z.of_nat (length pre) + 1) in Htl by lia.
  destruct (fields_cons t) as (f & fs & Ef). cbn [fields starts]. rewrite Ef in *. cbn [head tail] in *.
  assert (Es : string_in (ended (c :: t) ++ 0 :: rest) = if c =? 32 then Some [] else Some (c :: f)).
  { unfold ended. cbn [fmap list_fmap app]. fold (ended t). destruct (Z.eqb_spec c 32); cbn [string_in]; [done|].
    rewrite (proj2 (Z.eqb_neq c 0)) by done. by rewrite Hh. }
  rewrite Es. destruct (Z.eqb_spec c 32) as [->|Hne]; [|done].
  split; [done|]. cbn [tail]. rewrite fmap_cons, Htl. cbn [fmap list_fmap]. f_equal.
  unfold string_at. rewrite Hsnoc.
  replace (Z.to_nat (line + Z.of_nat (length pre) + 1 - line)) with (length (pre ++ [0])) by (rewrite length_app; cbn; lia).
  rewrite drop_app_length. exact Hh.
Qed.

(** ** The loops *)

Section Loops.
Context (line : Z) (text rest : list Z).
Hypothesis Htext : Forall (fun c => c <> 0) text.
Hypothesis Hlen : Z.of_nat (length text) < 2 ^ 31 - 1.

Lemma cmdline_len_text n : cmdline_len (text ++ 0 :: rest) n = Some (n + Z.of_nat (length text)).
Proof.
  clear Hlen. revert n. induction Htext as [|c t Hc Ht IH]; intros n; cbn [app cmdline_len length].
  - f_equal. lia.
  - rewrite (proj2 (Z.eqb_neq c 0)) by done. rewrite IH by done. f_equal. lia.
Qed.

(** Before character [i] of the first pass. *)
Definition first_pass (i : Z) (s : entry_state) : Prop :=
  cmdline s = ended (take (Z.to_nat i) text) ++ drop (Z.to_nat i) text ++ 0 :: rest /\
  argc s = 1 + Z.of_nat (length (starts line (take (Z.to_nat i) text))).

Lemma length_starts_le k t : (length (starts k t) <= length t)%nat.
Proof. revert k. induction t as [|c t IH]; intros k; cbn [starts length]; [lia|]. case_if; cbn [length]; specialize (IH (k + 1)); lia. Qed.

Lemma take_step i : 0 <= i < Z.of_nat (length text) -> exists c,
  text !! Z.to_nat i = Some c /\ take (Z.to_nat (i + 1)) text = take (Z.to_nat i) text ++ [c] /\
  drop (Z.to_nat i) text = c :: drop (Z.to_nat (i + 1)) text.
Proof.
  intros Hi. destruct (lookup_lt_is_Some_2 text (Z.to_nat i)) as [c Hc]; [lia|]. exists c.
  replace (Z.to_nat (i + 1)) with (S (Z.to_nat i)) by lia. split_and!; [done|by apply take_S_r|by apply drop_S].
Qed.

Lemma length_ended t : length (ended t) = length t.
Proof. apply length_fmap. Qed.

Lemma end_argument_step i : 0 <= i < Z.of_nat (length text) ->
  triple (first_pass i) (end_argument i) (fun _ => first_pass (i + 1)).
Proof.
  intros Hi s [Hl Ha]. destruct (take_step i Hi) as (c & Hc & Ht & Hd).
  assert (Hin : char_in s i = Some c).
  { unfold char_in. rewrite Hl, Hd. apply list_lookup_middle. rewrite length_ended, length_take. lia. }
  unfold end_argument. rewrite Hin. cbn [mbind option_bind].
  pose proof (length_starts_le line (take (Z.to_nat i) text)) as Hle. rewrite length_take in Hle.
  unfold first_pass. rewrite Ht, starts_app, ended_snoc. cbn [starts].
  destruct (Z.eqb_spec c 32) as [->|Hne]; eexists tt, _; (split; [done|]).
  - unfold set_field. cbn. split.
    + rewrite Hl, Hd. rewrite <- app_assoc. cbn.
      rewrite insert_app_r_alt by (rewrite length_ended, length_take; lia).
      rewrite length_ended, length_take. replace (Z.to_nat i - _)%nat with 0%nat by lia. done.
    + rewrite Ha, length_app. cbn [length]. unfold swrap. rewrite wrap_small by lia. case_if; lia.
  - split.
    + by rewrite Hl, Hd, <- app_assoc.
    + rewrite app_nil_r. exact Ha.
Qed.

(** Before character [i] of the second pass: the pointers so far. *)
Definition second_pass (i : Z) (s : entry_state) : Prop :=
  let done_ := starts line (take (Z.to_nat i) text) in
  cmdline s = ended text ++ 0 :: rest /\ argc s = 1 + Z.of_nat (length (starts line text)) /\
  j s = 1 + Z.of_nat (length done_) /\
  arg_ptrs s = (Some <$> (line :: done_)) ++ replicate (length (starts line text) - length done_) None.

Lemma push_arg_run (s : entry_state) ps n p :
  j s = Z.of_nat (length ps) -> arg_ptrs s = (Some <$> ps) ++ replicate (S n) None ->
  push_arg p s = Some (tt, s <| arg_ptrs := (Some <$> (ps ++ [p])) ++ replicate n None |> <| j := j s + 1 |>).
Proof.
  intros Hj Ha. unfold push_arg. rewrite option_guard_True by (rewrite Ha, Hj, length_app, length_fmap, length_replicate; lia).
  cbn [mbind option_bind]. do 4 f_equal. rewrite Ha, Hj, Nat2Z.id, fmap_app, <- app_assoc.
  rewrite insert_app_r_alt by (by rewrite length_fmap). rewrite length_fmap, Nat.sub_diag. done.
Qed.

Lemma start_argument_step i : 0 <= i < Z.of_nat (length text) ->
  triple (second_pass i) (start_argument line i) (fun _ => second_pass (i + 1)).
Proof.
  intros Hi s (Hl & Ha & Hj & Hp). destruct (take_step i Hi) as (c & Hc & Ht & Hd).
  assert (Hin : char_in s i = Some (if c =? 32 then 0 else c)).
  { unfold char_in. rewrite Hl, lookup_app_l by (rewrite length_ended; lia).
    unfold ended. by rewrite list_lookup_fmap, Hc. }
  assert (Hsplit : starts line text = starts line (take (Z.to_nat i) text)
            ++ starts (line + i) [c] ++ starts (line + i + 1) (drop (Z.to_nat (i + 1)) text)).
  { rewrite <- (take_drop (Z.to_nat i) text) at 1. rewrite Hd, starts_app, length_take.
    replace (Z.of_nat (Z.to_nat i `min` length text)) with i by lia. f_equal. cbn [starts]. by case_if. }
  assert (Hc0 : c <> 0) by (rewrite Forall_forall in Htext; apply Htext; by apply list_elem_of_lookup_2 with (Z.to_nat i)).
  unfold start_argument. rewrite Hin. cbn [mbind option_bind]. unfold second_pass. cbv zeta.
  rewrite Ht, starts_app, length_take. replace (Z.of_nat (Z.to_nat i `min` length text)) with i by lia.
  cbn [starts] in *. destruct (Z.eqb_spec c 32) as [->|Hne].
  - apply (f_equal length) in Hsplit. rewrite !length_app in Hsplit. cbn [length] in Hsplit.
    replace (length (starts line text) - length (starts line (take (Z.to_nat i) text)))%nat
      with (S (length (starts line text) - S (length (starts line (take (Z.to_nat i) text))))) in Hp by lia.
    cbn [Z.eqb].
    eexists tt, _. split; [apply (push_arg_run s (line :: starts line (take (Z.to_nat i) text))); [cbn [length]; lia | exact Hp]|].
    unfold set_field. cbn [cmdline argc j arg_ptrs]. split_and!; [done|done| |].
    + rewrite Hj, length_app. cbn [length]. lia.
    + rewrite length_app. cbn [length]. do 2 f_equal. lia.
  - rewrite (proj2 (Z.eqb_neq c 0)) by done. rewrite app_nil_r. exists tt, s. done.
Qed.

Lemma kernel_arguments_run s : cmdline s = text ++ 0 :: rest ->
  exists s', kernel_arguments line s = Some (tt, s') /\ cmdline s' = ended text ++ 0 :: rest /\
    argc s' = Z.of_nat (length (fields text)) /\ arg_ptrs s' = Some <$> (line :: starts line text).
Proof.
  intros Hs. unfold kernel_arguments. rewrite (bind_run (gets id) _ _ _ _ eq_refl). cbn [id].
  rewrite Hs, cmdline_len_text, Z.add_0_l.
  rewrite (bind_run (liftO (Some (Z.of_nat (length text)))) _ s s (Z.of_nat (length text)) eq_refl).
  unfold modify at 1. rewrite (bind_run _ _ _ _ _ eq_refl).
  destruct (triple_for_range_at first_pass 0 (Z.of_nat (length text)) end_argument ltac:(lia)
      end_argument_step (s <| argc := 1 |>)) as ([] & s1 & E1 & Hl1 & Ha1).
  { split; [done|]. done. }
  rewrite (bind_run _ _ _ _ _ E1). rewrite Nat2Z.id, take_ge, drop_ge in Hl1 by lia.
  rewrite Nat2Z.id, take_ge in Ha1 by lia.
  unfold modify. rewrite (bind_run _ _ _ _ _ eq_refl). erewrite bind_run.
  2: { apply (push_arg_run _ [] (length (starts line text))); [done|]. cbn.
       rewrite Ha1. by replace (Z.to_nat (1 + _)) with (S (length (starts line text))) by lia. }
  destruct (triple_for_range_at second_pass 0 (Z.of_nat (length text)) (start_argument line) ltac:(lia)
      start_argument_step (s1 <| arg_ptrs := (Some <$> [line]) ++ replicate (length (starts line text)) None |> <| j := 1 |>))
    as ([] & s2 & E2 & Hl2 & Ha2 & _ & Hp2).
  { split_and!; try done. cbn. by rewrite Nat.sub_0_r. }
  exists s2. split; [exact E2|]. rewrite Nat2Z.id, take_ge, Nat.sub_diag, app_nil_r in Hp2 by lia.
  rewrite (length_starts line). split_and!; [done|lia|done].
Qed.
End Loops.

(** C32: The arguments of [main] are the words of the command line: [argc] of
    them, each pointer to a terminated string in the line, no string with a
    space; put together again with a space between them they are the line
    the boot loader gave. *)
Theorem command_line_split (line : Z) (text rest : list Z) (main : Z -> list (option Z) -> list Z -> option Z) :
  Forall (fun c => c <> 0) text -> Z.of_nat (length text) < 2 ^ 31 - 1 ->
  exists ptrs buf words, kernel_entry (Some (Some (text ++ 0 :: rest))) line main
      = main (Z.of_nat (length words)) (Some <$> ptrs) buf /\
    string_at line buf <$> ptrs = Some <$> words /\ join words = text /\ Forall (fun w => 32 ∉ w) words.
Proof.
  intros Ht Hl.
  destruct (kernel_arguments_run line text rest Ht Hl (EntryState (text ++ 0 :: rest) 0 0 []) eq_refl)
    as (s & E & Hc & Ha & Hp).
  exists (line :: starts line text), (ended text ++ 0 :: rest), (fields text). split_and!.
  - unfold kernel_entry. cbn [mbind option_bind]. rewrite E. cbn [mbind option_bind]. by rewrite Hc, Ha, Hp.
  - destruct (starts_strings line [] text rest Ht) as [Hh Htl]. cbn [app length] in Htl. rewrite Z.add_0_r in Htl.
    destruct (fields_cons text) as (f & fs & Ef). rewrite Ef in *. cbn [head tail] in *.
    rewrite !fmap_cons, Htl. f_equal. unfold string_at. by rewrite Z.sub_diag, drop_0.
  - apply join_fields.
  - apply fields_no_space.
Qed.

Lemma command_line_split_witness :
  exists ptrs buf words, kernel_entry (Some (Some (cstr "root=a  quiet" ++ [0]))) 0x1000 (fun n _ _ => Some n)
      = Some (Z.of_nat (length words)) /\
    string_at 0x1000 buf <$> ptrs = Some <$> words /\ join words = cstr "root=a  quiet".
Proof.
  destruct (command_line_split 0x1000 (cstr "root=a  quiet") [] (fun n _ _ => Some n)) as (ptrs & buf & words & E & Hs & Hj & _).
  - vm_compute. repeat constructor; discriminate.
  - vm_compute. reflexivity.
  - exists ptrs, buf, words. split_and!; [exact E | exact Hs | exact Hj].
Defined.
