(* ===== verification/KernelApi.v ===== *)
(** * The rest of uACPI's kernel interface:
    [extra/uacpi/uacpi_kernel_wrapper.cpp], and [panic.cpp]

    Interrupts go through the lines of [X86]; an event is a flag on the heap.
    What the mutexes, the log, the mappings, the ports and the PCI functions
    need is in [KernelSync], [UFormat], [Vmm], [IoMap] and [Pci]. *)
From S2P Require Import Prelude Status Printf Alloc X86.

(** ** Events: one flag, [volatile bool signaled] *)

Record events := Events { ev_heap : heap; signaled : gmap Z bool }.

Section Events.
Context `{Allocator}.

(** [malloc] is not tested before the store. *)
Definition uacpi_kernel_create_event : M events Z := fun s =>
  let '(p, h) := malloc 1 (ev_heap s) in
  if p =? 0 then None else Some (p, Events h (<[p := false]> (signaled s))).
Definition uacpi_kernel_free_event (handle : Z) : M events unit := fun s =>
  h ← free handle (ev_heap s); Some (tt, Events h (delete handle (signaled s))).

(** With one thread of control nobody signals while it waits: a wait for a
    flag that is not set does not return. *)
Definition uacpi_kernel_wait_for_event (handle timeout : Z) : M events bool := fun s =>
  if handle =? 0 then Some (false, s)
  else
    b ← signaled s !! handle;
    if timeout =? 0 then Some (b, s)
    else if timeout =? 0xFFFF then (if negb b then None else Some (true, s))
    else if negb b then None else Some (true, s).

Definition set_signaled (b : bool) (handle : Z) : M events unit := fun s =>
  if handle =? 0 then Some (tt, s)
  else _ ← signaled s !! handle; Some (tt, Events (ev_heap s) (<[handle := b]> (signaled s))).
Definition uacpi_kernel_signal_event := set_signaled true.
Definition uacpi_kernel_reset_event := set_signaled false.
End Events.

(** ** Interrupt handlers *)

(** The wrapper's own [irq_entry]: uACPI's handler and its context. *)
Record acpi_irq_entry := AcpiIrq { acpi_handler : Z; acpi_ctx : Z }.
Record irqs := Irqs { acpi_irqs : list acpi_irq_entry; lines : idt_state }.
Definition no_handlers (s : idt_state) : irqs := Irqs (replicate 256 (AcpiIrq 0 0)) s.

Section Interrupts.
Context `{Allocator} (irq_trampoline_at : Z).

(** [irq_trampoline]: the call it makes. *)
Definition irq_trampoline (n : Z) (s : irqs) : option (Z * Z) :=
  e ← acpi_irqs s !! Z.to_nat n;
  if acpi_handler e =? 0 then None else Some (acpi_handler e, acpi_ctx e).

(** What the line of an interrupt runs: uACPI's handler with its context,
    when the stub calls the trampoline. *)
Definition interrupt (n : Z) (s : irqs) : option (Z * Z) :=
  '(h, m, _) ← irq_stub_handler n 0 (lines s);
  if h =? irq_trampoline_at then irq_trampoline m s else None.

Definition uacpi_kernel_install_interrupt_handler (n h ctx : Z) : M irqs (uacpi_status * Z) := fun s =>
  _ ← acpi_irqs s !! Z.to_nat n;
  let s := Irqs (<[Z.to_nat n := AcpiIrq h ctx]> (acpi_irqs s)) (lines s) in
  '(key, l) ← register_irq (u8 n) irq_trampoline_at (lines s);
  Some ((UACPI_STATUS_OK, key), Irqs (acpi_irqs s) l).

Definition uacpi_kernel_uninstall_interrupt_handler (h irq_handle : Z) : M irqs uacpi_status :=
  mret UACPI_STATUS_INTERNAL_ERROR.
End Interrupts.

(** ** Work, time and requests *)

Definition uacpi_kernel_schedule_work (kind handler ctx : Z) : uacpi_status := UACPI_STATUS_UNIMPLEMENTED.
Definition uacpi_kernel_wait_for_work_completion : uacpi_status := UACPI_STATUS_OK.
Definition uacpi_kernel_get_nanoseconds_since_boot : Z := 0.

(** The turns of the two empty loops. *)
Definition uacpi_kernel_stall (usec : Z) : Z := u8 usec * 100000.
Definition uacpi_kernel_sleep (msec : Z) : Z := u64 (msec * 1000).

(** [panic] prints and stops: the terminal it leaves. *)
Definition panic (reason : list Z) (s : sinks) : option sinks :=
  snd <$> printf_ (cstr "!!! KERNEL PANIC !!!" ++ [13; 10] ++ cstr "%s" ++ [13; 10]) [VaStr reason] s.
Definition fatal_no_panic (reason : list Z) : M sinks unit :=
  _ ← printf_ (cstr "!!! KERNEL FATAL ERROR !!!" ++ [13; 10] ++ cstr "%s" ++ [13; 10]) [VaStr reason]; mret tt.
Definition warning (reason : list Z) : M sinks unit :=
  _ ← printf_ (cstr "!!! WARNING !!!" ++ [13; 10] ++ cstr "%s" ++ [13; 10]) [VaStr reason]; mret tt.

Inductive uacpi_firmware_request_type := UACPI_FIRMWARE_REQUEST_TYPE_BREAKPOINT | UACPI_FIRMWARE_REQUEST_TYPE_FATAL.

(** It returns a status, or stops with what [panic] printed. *)
Definition uacpi_kernel_handle_firmware_request (type : uacpi_firmware_request_type) (s : sinks)
    : uacpi_status * sinks + option sinks :=
  match type with
  | UACPI_FIRMWARE_REQUEST_TYPE_BREAKPOINT => inl (UACPI_STATUS_OK, s)
  | UACPI_FIRMWARE_REQUEST_TYPE_FATAL => inr (panic (cstr "UACPI_FIRMWARE_REQUEST_TYPE_FATAL") s)
  end.
