(* ===== verification/KernelApiSpec.v ===== *)
(** * uACPI's interrupt handlers and events on this kernel *)
From S2P Require Import Prelude Status Alloc X86 KernelApi.

(** ** Handlers that are installed *)

Section Handlers.
Context `{Allocator} (tr : Z).

Record acpi_inv (s : irqs) : Prop := {
  acpi_len : length (acpi_irqs s) = 256%nat;
  acpi_masked : Forall (fun e => used e = true -> masked e = true) (irq_table (lines s));
}.

Lemma line_masked s n : acpi_inv s -> used (line n (lines s)) = true -> masked (line n (lines s)) = true.
Proof.
  intros [_ Hm]. unfold line. destruct (irq_table (lines s) !! Z.to_nat n) as [e|] eqn:E; [|done].
  cbn. rewrite Forall_lookup in Hm. by apply (Hm _ _ E).
Qed.

(** A masked line runs nothing. *)
Lemma masked_silent s n : acpi_inv s -> interrupt tr n s = None.
Proof.
  intros Hs. unfold interrupt, irq_stub_handler. pose proof (line_masked s n Hs) as Hm.
  destruct (used (line n (lines s))); cbn [negb]; [|done]. by rewrite Hm.
Qed.

Lemma register_irq_masked n h i : Forall (fun e => used e = true -> masked e = true) (irq_table i) ->
  exists k i', register_irq n h i = Some (k, i') /\
    Forall (fun e => used e = true -> masked e = true) (irq_table i').
Proof.
  intros Hm. unfold register_irq. do 3 (case_if; [by eexists _, _|]).
  destruct (malloc 1 (idt_heap i)) as [key hp]. eexists _, _. split; [done|]. cbn.
  by apply Forall_insert.
Qed.

Lemma install_inv n h ctx s : acpi_inv s -> 0 <= n < 256 ->
  exists k s', uacpi_kernel_install_interrupt_handler tr n h ctx s = Some ((UACPI_STATUS_OK, k), s') /\ acpi_inv s'.
Proof.
  intros [Hl Hm] Hn. unfold uacpi_kernel_install_interrupt_handler.
  destruct (lookup_lt_is_Some_2 (acpi_irqs s) (Z.to_nat n)) as [e ->]; [lia|].
  destruct (register_irq_masked (u8 n) tr (lines s) Hm) as (k & l & E & Hm'). cbn [mbind option_bind lines].
  rewrite E. eexists _, _. split; [done|]. split; [cbn; by rewrite length_insert | done].
Qed.

(** Installing a list of handlers, with the statuses. *)
Fixpoint install_all (l : list (Z * Z * Z)) : M irqs (list uacpi_status) :=
  match l with
  | [] => mret []
  | (n, h, ctx) :: l =>
      r ← uacpi_kernel_install_interrupt_handler tr n h ctx; rs ← install_all l; mret (r.1 :: rs)
  end.

Lemma install_all_inv l s : acpi_inv s -> Forall (fun x => 0 <= x.1.1 < 256) l ->
  exists s', install_all l s = Some (replicate (length l) UACPI_STATUS_OK, s') /\ acpi_inv s'.
Proof.
  intros Hs Hl. revert s Hs. induction Hl as [|[[n h] ctx] l Hn Hl IH]; intros s Hs; cbn [install_all length replicate].
  - by exists s.
  - destruct (install_inv n h ctx s Hs Hn) as (k & s1 & E1 & Hs1). destruct (IH s1 Hs1) as (s' & E & Hs').
    exists s'. by rewrite (bind_run _ _ _ _ _ E1), (bind_run _ _ _ _ _ E).
Qed.

Lemma no_handlers_inv hp : acpi_inv (no_handlers (initial_idt hp)).
Proof. split; [done|]. unfold initial_idt, initial_irq_table. cbn [irq_table lines no_handlers]. by repeat constructor. Qed.
End Handlers.

(** C33: Whatever handlers uACPI installs, every installation answers OK and no
    interrupt ever runs one: a registered line starts masked, and the
    interface has nothing that unmasks it. *)
Theorem acpi_handlers_never_run `{Alloc : Allocator} (tr : Z) (hp : heap) (l : list (Z * Z * Z)) :
  Forall (fun x => 0 <= x.1.1 < 256) l ->
  exists s, install_all tr l (no_handlers (initial_idt hp)) = Some (replicate (length l) UACPI_STATUS_OK, s) /\
    forall n, interrupt tr n s = None.
Proof.
  intros Hl. destruct (install_all_inv tr l _ (no_handlers_inv hp) Hl) as (s & E & Hs).
  exists s. split; [done|]. intros n. by apply masked_silent.
Qed.

(** ** The theorems at work *)

Lemma acpi_handlers_never_run_witness :
  exists s, @install_all bump 99 [(9, 7, 1); (9, 8, 2)] (no_handlers (initial_idt (Heap ∅ 0)))
            = Some ([UACPI_STATUS_OK; UACPI_STATUS_OK], s) /\ interrupt 99 9 s = None.
Proof.
  destruct (@acpi_handlers_never_run bump 99 (Heap ∅ 0) [(9, 7, 1); (9, 8, 2)]) as (s & E & Hn).
  - repeat constructor; cbn; lia.
  - exists s. split; [exact E | apply Hn].
Defined.

(** The second handler of an interrupt takes the place of the first, although
    its registration gets no key. *)
Example second_handler_replaces :
  (r ← @uacpi_kernel_install_interrupt_handler bump 99 9 7 1;
   r' ← @uacpi_kernel_install_interrupt_handler bump 99 9 8 2;
   s ← gets (fun s => Irqs (acpi_irqs s) (unmask_irq 9 r.2 (lines s)));
   mret (r.2, r'.2, interrupt 99 9 s)) (no_handlers (initial_idt (Heap ∅ 0))) 
  = (fun o => '(_, s) ← o; Some ((0x1000, 0, Some (8, 2)), s))
      ((_ ← @uacpi_kernel_install_interrupt_handler bump 99 9 7 1;
        @uacpi_kernel_install_interrupt_handler bump 99 9 8 2) (no_handlers (initial_idt (Heap ∅ 0)))).
Proof. vm_compute. reflexivity. Qed.

(** ** Events *)

(** A signal is seen by every later wait, until a reset; without one a wait
    with a timeout of 0 says so, and any other wait does not return. *)
Lemma event_wait_spec (s : events) (handle timeout : Z) (b : bool) :
  handle <> 0 -> signaled s !! handle = Some b ->
  uacpi_kernel_wait_for_event handle timeout s
  = (if b then Some (true, s) else if timeout =? 0 then Some (false, s) else None).
Proof.
  intros Hh Hb. unfold uacpi_kernel_wait_for_event. rewrite (proj2 (Z.eqb_neq _ 0) Hh), Hb. cbn [mbind option_bind].
  destruct b; cbn [negb]; repeat case_if; done.
Qed.
