(* ===== verification/Fadt.v ===== *)
(** * The fixed description table: [initialize_fadt] and its helpers in [extra/uacpi/tables.c]

    uACPI keeps a copy of the FADT, [struct acpi_fadt] of [uacpi/acpi.h], in
    its context and repairs it.  The code reaches the registers of the copy
    through byte offsets, so the copy is the list of its 276 bytes and a field
    an offset into it. *)
From S2P Require Import Prelude BitIo FieldIo Gas.

(** The integer of [n] bytes at [off], and storing one. *)
Definition fld (n : nat) (off : nat) (b : list Z) : Z := le (take n (drop off b)).
Definition put (n : nat) (off : nat) (v : Z) (b : list Z) : list Z := write_at b off (to_le n v).

Definition get_gas (off : nat) (b : list Z) : acpi_gas :=
  Gas (fld 1 off b) (fld 1 (off + 1) b) (fld 1 (off + 2) b) (fld 1 (off + 3) b) (fld 8 (off + 4) b).
Definition put_gas (off : nat) (g : acpi_gas) (b : list Z) : list Z :=
  write_at b off (to_le 1 (address_space_id g) ++ to_le 1 (register_bit_width g)
    ++ to_le 1 (register_bit_offset g) ++ to_le 1 (access_size g) ++ to_le 8 (address g)).

(** ** [struct acpi_fadt]: the offsets of the fields used *)

Definition SIZEOF_FADT : nat := 276.
Definition hdr_length_at : nat := 4.
Definition hdr_revision_at : nat := 8.
Definition firmware_ctrl_at : nat := 36.
Definition dsdt_at : nat := 40.
Definition preferred_pm_profile_at : nat := 45.
Definition smi_cmd_at : nat := 48.
Definition pstate_cnt_at : nat := 55.
Definition cst_cnt_at : nat := 95.
Definition iapc_boot_arch_at : nat := 109.
Definition flags_at : nat := 112.
Definition reset_reg_at : nat := 116.
Definition x_firmware_ctrl_at : nat := 132.
Definition x_dsdt_at : nat := 140.
Definition x_pm1a_evt_blk_at : nat := 148.
Definition x_pm1b_evt_blk_at : nat := 160.
Definition x_pm1a_cnt_blk_at : nat := 172.
Definition x_pm1b_cnt_blk_at : nat := 184.
Definition x_pm2_cnt_blk_at : nat := 196.
Definition x_pm_tmr_blk_at : nat := 208.
Definition x_gpe0_blk_at : nat := 220.
Definition x_gpe1_blk_at : nat := 232.
Definition sleep_control_reg_at : nat := 244.
Definition sleep_status_reg_at : nat := 256.

Definition ACPI_HW_REDUCED_ACPI : Z := Z.shiftl 1 20.

(** ** The revision *)

Definition fadt_version_sizes : list Z := [116; 132; 244; 244; 268; 276].

(** [for (rev = 0; rev < 6; ++rev) if (length <= fadt_version_sizes[rev]) break;] *)
Fixpoint find_rev (sizes : list Z) (length rev : Z) : Z :=
  match sizes with
  | [] => rev
  | size :: sizes' => if length <=? size then rev else find_rev sizes' length (rev + 1)
  end.

Definition fadt_ensure_correct_revision (fadt : list Z) : list Z :=
  let current_rev := fld 1 hdr_revision_at fadt in
  let rev := find_rev fadt_version_sizes (fld 4 hdr_length_at fadt) 0 in
  if rev =? Z.of_nat (length fadt_version_sizes) then put 1 hdr_revision_at rev fadt
  else
    let rev := rev + 1 in
    if negb (current_rev =? rev) && negb ((rev =? 3) && (current_rev =? 4))
    then put 1 hdr_revision_at rev fadt else fadt.

(** ** The registers *)

Definition gas_init_system_io (addr byte_size : Z) : acpi_gas :=
  Gas UACPI_ADDRESS_SPACE_SYSTEM_IO (Z.min 255 (byte_size * 8)) 0 0 addr.

Record register_description := RegisterDescription {
  offset : nat;
  xoffset : nat;
  length_offset : nat;
}.

Definition fadt_registers : list register_description :=
  [ RegisterDescription 56 x_pm1a_evt_blk_at 88; RegisterDescription 60 x_pm1b_evt_blk_at 88;
    RegisterDescription 64 x_pm1a_cnt_blk_at 89; RegisterDescription 68 x_pm1b_cnt_blk_at 89;
    RegisterDescription 72 x_pm2_cnt_blk_at 90; RegisterDescription 76 x_pm_tmr_blk_at 91;
    RegisterDescription 80 x_gpe0_blk_at 92; RegisterDescription 84 x_gpe1_blk_at 93 ].

Definition convert_register (desc : register_description) (fadt : list Z) : list Z :=
  let legacy_addr := fld 4 (offset desc) fadt in
  let length := fld 1 (length_offset desc) fadt in
  if truthy (address (get_gas (xoffset desc) fadt)) then fadt
  else put_gas (xoffset desc) (gas_init_system_io legacy_addr length) fadt.
Definition convert_registers_to_gas (fadt : list Z) : list Z :=
  fold_left (fun fadt desc => convert_register desc fadt) fadt_registers fadt.

(** The halves of a block; an absent one leaves the destinations alone. *)
Definition split_one_block (src dst0 dst1 : acpi_gas) : acpi_gas * acpi_gas :=
  if address src =? 0 then (dst0, dst1)
  else
    let byte_length := register_bit_width src / 8 / 2 in
    (gas_init_system_io (address src) (u8 byte_length),
     gas_init_system_io (u64 (address src + byte_length)) (u8 byte_length)).

(** ** The repairs of [initialize_fadt] *)

(** [uacpi_memcpy(fadt, hdr, UACPI_MIN(sizeof( *fadt), hdr->length))]. *)
Definition copy_fadt (table fadt : list Z) : list Z := write_at fadt 0 (take SIZEOF_FADT table).

Definition zero_reserved (fadt : list Z) : list Z :=
  if fld 1 hdr_revision_at fadt <=? 2 then
    put 2 iapc_boot_arch_at 0 (put 1 cst_cnt_at 0 (put 1 pstate_cnt_at 0
      (put 1 preferred_pm_profile_at 0 fadt)))
  else fadt.

Definition prefer_x_dsdt (fadt : list Z) : list Z :=
  if truthy (fld 8 x_dsdt_at fadt) then fadt else put 8 x_dsdt_at (fld 4 dsdt_at fadt) fadt.

Definition prefer_firmware_ctrl (fadt : list Z) : list Z :=
  if truthy (fld 4 firmware_ctrl_at fadt)
  then put 8 x_firmware_ctrl_at (fld 4 firmware_ctrl_at fadt) fadt else fadt.
