(* ===== verification/Tables.v ===== *)
(** * ACPI tables: [extra/uacpi/tables.c], with [internal/dynamic_array.h]

    The array of installed tables, their reference counts and mappings, the
    searches, the installation of tables from firmware and host, and the
    sanitised FADT.  The build has no [UACPI_BAREBONES_MODE].

    Memory is seen through two interfaces.  [Platform] is what the tables are
    read from: [ram] is physical memory, [virt] the kernel's own memory, and
    [refuses] tells which calls of [uacpi_kernel_map] give null; a mapping is
    at [pa_to_va], as [Vmm] maps.  [mappings] are the ranges mapped and not
    yet unmapped, by the contract of [kernel_api.h]: to unmap what is not
    mapped, or to read outside of mappings and kernel memory, is undefined.
    Output is left out.  [None] is also the second acquisition of a mutex,
    which never returns.  Where installing nests (the FADT installs the DSDT,
    a handler may override a table), [depth] bounds the nesting. *)
From S2P Require Import Prelude Status KernelSync Alloc Vmm Boot BitIo FieldIo Gas Fadt.

(** ** Data *)

Record acpi_sdt_hdr := SdtHdr {
  signature : list Z;
  hdr_length : Z;
  revision : Z;
  checksum : Z;
  oemid : list Z;
  oem_table_id : list Z;
  oem_revision : Z;
  creator_id : Z;
  creator_revision : Z;
}.
Definition SIZEOF_SDT_HDR : Z := 36.
Definition SIZEOF_RSDP : Z := 36.

(** The header in the first 36 bytes of a table. *)
Definition parse_hdr (b : list Z) : acpi_sdt_hdr :=
  SdtHdr (take 4 b) (fld 4 4 b) (fld 1 8 b) (fld 1 9 b) (take 6 (drop 10 b)) (take 8 (drop 16 b))
    (fld 4 24 b) (fld 4 28 b) (fld 4 32 b).

Inductive uacpi_table_origin :=
  | UACPI_TABLE_ORIGIN_FIRMWARE_VIRTUAL
  | UACPI_TABLE_ORIGIN_FIRMWARE_PHYSICAL
  | UACPI_TABLE_ORIGIN_HOST_VIRTUAL
  | UACPI_TABLE_ORIGIN_HOST_PHYSICAL.
#[export] Instance uacpi_table_origin_eq_dec : EqDecision uacpi_table_origin.
Proof. solve_decision. Defined.

Definition UACPI_TABLE_LOADED : Z := Z.shiftl 1 0.
Definition UACPI_TABLE_CSUM_VERIFIED : Z := Z.shiftl 1 1.
Definition UACPI_TABLE_INVALID : Z := Z.shiftl 1 2.

Record uacpi_installed_table := InstalledTable {
  phys_addr : Z;
  hdr : acpi_sdt_hdr;
  ptr : Z;
  reference_count : Z;
  flags : Z;
  origin : uacpi_table_origin;
}.
#[export] Instance settable_table : Settable uacpi_installed_table := fun t =>
  InstalledTable (phys_addr t) (hdr t) (ptr t) (reference_count t) (flags t) (origin t).
Definition SIZEOF_INSTALLED_TABLE : Z := 64.

(** A pointer and an index: what a caller holds. *)
Record uacpi_table := UacpiTable { table_ptr : Z; index : Z }.

(** The result of an installation: the status, and [*out_table] if it was
    written; [want] tells whether [out_table] is given. *)
Abbreviation installed := (uacpi_status * option uacpi_table)%type.

Record uacpi_table_identifiers := TableId {
  id_signature : list Z;
  id_oemid : list Z;
  id_oem_table_id : list Z;
}.

Inductive uacpi_iteration_decision :=
  | UACPI_ITERATION_DECISION_CONTINUE
  | UACPI_ITERATION_DECISION_BREAK
  | UACPI_ITERATION_DECISION_NEXT_PEER.

Definition UACPI_FLAG_BAD_CSUM_FATAL : Z := Z.shiftl 1 0.
Definition UACPI_FLAG_BAD_TBL_SIGNATURE_FATAL : Z := Z.shiftl 1 1.
Definition UACPI_FLAG_BAD_XSDT : Z := Z.shiftl 1 2.
Definition UACPI_FLAG_PROACTIVE_TBL_CSUM : Z := Z.shiftl 1 5.

Definition UACPI_TABLE_INSTALLATION_DISPOSITON_ALLOW : Z := 0.
Definition UACPI_TABLE_INSTALLATION_DISPOSITON_DENY : Z := 1.
Definition UACPI_TABLE_INSTALLATION_DISPOSITON_VIRTUAL_OVERRIDE : Z := 2.
Definition UACPI_TABLE_INSTALLATION_DISPOSITON_PHYSICAL_OVERRIDE : Z := 3.

(** [struct table_array].  A cell never written holds nothing; the cells of
    [dynamic_cells] are the block at [dynamic_storage]. *)
Record table_array := TableArray {
  inline_storage : list (option uacpi_installed_table);
  dynamic_storage : Z;
  dynamic_cells : list (option uacpi_installed_table);
  dynamic_capacity : Z;
  size_including_inline : Z;
}.
#[export] Instance settable_array : Settable table_array := fun a =>
  TableArray (inline_storage a) (dynamic_storage a) (dynamic_cells a) (dynamic_capacity a)
    (size_including_inline a).
Definition UACPI_STATIC_TABLE_ARRAY_LEN : Z := 16.
Definition empty_array : table_array :=
  TableArray (replicate (Z.to_nat UACPI_STATIC_TABLE_ARRAY_LEN) None) 0 [] 0 0.

(** The statics of the file, what it uses of [g_uacpi_rt_ctx], the heap and
    the live mappings.  The handler is given the table's address and answers
    a disposition and an address. *)
Record tables_state := TablesState {
  tables : table_array;
  early_table_access : bool;
  installation_handler : option (Z -> Z * Z);
  table_mutex : mutex_handle;
  rt_flags : Z;
  init_level : uacpi_init_level;
  is_rev1 : bool;
  is_hardware_reduced : bool;
  fadt : list Z;
  facs : Z;
  pm1a_status_blk : acpi_gas;
  pm1a_enable_blk : acpi_gas;
  pm1b_status_blk : acpi_gas;
  pm1b_enable_blk : acpi_gas;
  theap : heap;
  mappings : list (Z * Z);
  map_calls : nat;
}.
#[export] Instance settable_tables : Settable tables_state := fun s =>
  TablesState (tables s) (early_table_access s) (installation_handler s) (table_mutex s) (rt_flags s)
    (init_level s) (is_rev1 s) (is_hardware_reduced s) (fadt s) (facs s) (pm1a_status_blk s)
    (pm1a_enable_blk s) (pm1b_status_blk s) (pm1b_enable_blk s) (theap s) (mappings s) (map_calls s).

Class Platform := {
  refuses : nat -> Z -> Z -> bool;
  ram : Z -> Z;
  virt : Z -> option Z;
  rsdp_response : option Z;
}.
Class LawfulPlatform `{Platform} := ram_byte : forall a, 0 <= ram a < 256.

Section Tables.
Context {Plat : Platform} {Alloc : Allocator}.
Abbreviation op := (M tables_state).

(** The status of a call whose other result is not used. *)
Definition status_of {A} (m : op (uacpi_status * A)) : op uacpi_status := '(ret, _) ← m; mret ret.

(** ** Memory *)

(** [uacpi_kernel_map] and [uacpi_kernel_unmap]. *)
Definition kernel_map (addr len : Z) : op Z := fun s =>
  let va := if refuses (map_calls s) addr len then 0 else pa_to_va addr in
  Some (va, s <| map_calls := S (map_calls s) |>
              <| mappings := if va =? 0 then mappings s else (va, len) :: mappings s |>).

Fixpoint remove_mapping (m : Z * Z) (l : list (Z * Z)) : option (list (Z * Z)) :=
  match l with
  | [] => None
  | m' :: l' => if decide (m = m') then Some l' else cons m' <$> remove_mapping m l'
  end.
Definition kernel_unmap (va len : Z) : op unit := fun s =>
  l ← remove_mapping (va, len) (mappings s); Some (tt, s <| mappings := l |>).

Definition mapped (s : tables_state) (va : Z) : bool :=
  existsb (fun '(p, len) => (p <=? va) && (va <? p + len)) (mappings s).
Definition read8 (va : Z) : op Z := fun s =>
  b ← (if mapped s va then Some (ram (va_to_pa va)) else virt va); Some (b, s).
Fixpoint read_bytes (n : nat) (va : Z) : op (list Z) :=
  match n with
  | O => mret []
  | S n' => b ← read8 va; l ← read_bytes n' (va + 1); mret (b :: l)
  end.

Definition uacpi_kernel_alloc (bytes : Z) : op Z := fun s =>
  let '(p, h) := malloc bytes (theap s) in Some (p, s <| theap := h |>).
Definition uacpi_free (p : Z) : op unit := fun s =>
  h ← free p (theap s); Some (tt, s <| theap := h |>).

(** ** [DYNAMIC_ARRAY_WITH_INLINE_STORAGE] *)

(** A pointer to an element. *)
Inductive slot := Inline (i : Z) | Dynamic (i : Z).

Definition table_array_inline_capacity : Z := UACPI_STATIC_TABLE_ARRAY_LEN.
Definition table_array_size (a : table_array) : Z := size_including_inline a.
Definition table_array_capacity (a : table_array) : Z := table_array_inline_capacity + dynamic_capacity a.
Definition table_array_at (idx : Z) (a : table_array) : option slot :=
  if size_including_inline a <=? idx then None
  else if idx <? table_array_inline_capacity then Some (Inline idx)
  else Some (Dynamic (idx - table_array_inline_capacity)).

Definition get_cell (p : slot) (a : table_array) : option uacpi_installed_table :=
  match p with
  | Inline i => mjoin (inline_storage a !! Z.to_nat i)
  | Dynamic i => mjoin (dynamic_cells a !! Z.to_nat i)
  end.
Definition set_cell (p : slot) (t : uacpi_installed_table) (a : table_array) : table_array :=
  match p with
  | Inline i => a <| inline_storage := <[Z.to_nat i := Some t]> (inline_storage a) |>
  | Dynamic i => a <| dynamic_cells := <[Z.to_nat i := Some t]> (dynamic_cells a) |>
  end.
Definition slot_exists (p : slot) (a : table_array) : bool :=
  match p with
  | Inline i => Z.to_nat i <? length (inline_storage a)
  | Dynamic i => Z.to_nat i <? length (dynamic_cells a)
  end%nat.

(** A read of a cell never written, and a write outside, are undefined. *)
Definition load_table (p : slot) : op uacpi_installed_table := fun s =>
  t ← get_cell p (tables s); Some (t, s).
Definition store_table (p : slot) (t : uacpi_installed_table) : op unit := fun s =>
  if slot_exists p (tables s) then Some (tt, s <| tables := set_cell p t (tables s) |>) else None.
Definition update_table (p : slot) (f : uacpi_installed_table -> uacpi_installed_table) : op unit :=
  t ← load_table p; store_table p (f t).

Definition on_array (f : table_array -> table_array) : op unit :=
  modify (fun s => s <| tables := f (tables s) |>).

(** The bytes of the block that replaces a full one. *)
Definition grown_bytes (a : table_array) : Z :=
  if dynamic_capacity a =? 0 then SIZEOF_INSTALLED_TABLE * table_array_inline_capacity
  else
    let bytes := dynamic_capacity a / 2 * SIZEOF_INSTALLED_TABLE in
    let bytes := if bytes =? 0 then bytes + SIZEOF_INSTALLED_TABLE else bytes in
    bytes + dynamic_capacity a * SIZEOF_INSTALLED_TABLE.

(** [false] when the allocation fails. *)
Definition grow_array (dynamic_size : Z) : op bool :=
  a ← gets tables;
  let bytes := u64 (grown_bytes a) in
  new_buf ← uacpi_kernel_alloc bytes;
  if new_buf =? 0 then mret false
  else
    let cap := bytes / SIZEOF_INSTALLED_TABLE in
    let cells := replicate (Z.to_nat cap) None in
    let cells := if dynamic_storage a =? 0 then cells
                 else take (Z.to_nat dynamic_size) (dynamic_cells a) ++ drop (Z.to_nat dynamic_size) cells in
    _ ← uacpi_free (dynamic_storage a);
    _ ← on_array (fun a => a <| dynamic_capacity := cap |> <| dynamic_storage := new_buf |>
                             <| dynamic_cells := cells |>);
    mret true.

Definition bump_size : op unit :=
  on_array (fun a => a <| size_including_inline := u64 (size_including_inline a + 1) |>).

Definition table_array_alloc : op (option slot) :=
  a ← gets tables;
  if table_array_inline_capacity <=? size_including_inline a then
    let dynamic_size := size_including_inline a - table_array_inline_capacity in
    ok ← (if dynamic_size =? dynamic_capacity a then grow_array dynamic_size else mret true);
    if negb (ok : bool) then mret None
    else _ ← bump_size; mret (Some (Dynamic dynamic_size))
  else _ ← bump_size; mret (Some (Inline (size_including_inline a))).

(** The capacity is freed with the block; the inline cells stay as they are. *)
Definition table_array_clear : op unit :=
  a ← gets tables;
  _ ← uacpi_free (dynamic_storage a);
  on_array (fun a => TableArray (inline_storage a) 0 [] 0 0).

(** ** The mutex, and the guard of the public operations *)

Definition acquire_table_mutex : op uacpi_status := fun s =>
  match table_mutex s with
  | None => Some (UACPI_STATUS_OK, s)
  | Some m => '(st, m) ← uacpi_kernel_acquire_mutex m 0xFFFF; Some (st, s <| table_mutex := Some m |>)
  end.
Definition release_table_mutex : op uacpi_status := fun s =>
  match table_mutex s with
  | None => Some (UACPI_STATUS_OK, s)
  | Some m => Some (UACPI_STATUS_OK, s <| table_mutex := Some (uacpi_kernel_release_mutex m) |>)
  end.

Definition uacpi_table_subsystem_available (s : tables_state) : bool :=
  early_table_access s || init_level_at_least (init_level s) UACPI_INIT_LEVEL_SUBSYSTEM_INITIALIZED.
Definition ENSURE_TABLES_ONLINE {A} (mismatch : A) (body : op A) : op A := fun s =>
  if uacpi_table_subsystem_available s then body s else Some (mismatch, s).

Definition uacpi_check_flag (flag : Z) : op bool := gets (fun s => Z.land (rt_flags s) flag =? flag).

(** ** Checks of a table *)

Fixpoint table_checksum (size : nat) (table csum : Z) : op Z :=
  match size with
  | O => mret csum
  | S n => b ← read8 table; table_checksum n (table + 1) (u8 (csum + b))
  end.

Definition uacpi_verify_table_checksum (table size : Z) : op uacpi_status :=
  csum ← table_checksum (Z.to_nat size) table 0;
  if csum =? 0 then mret UACPI_STATUS_OK
  else
    fatal ← uacpi_check_flag UACPI_FLAG_BAD_CSUM_FATAL;
    mret (if (fatal : bool) then UACPI_STATUS_BAD_CHECKSUM else UACPI_STATUS_OK).

(** [uacpi_memcmp(lhs, rhs, 4) == 0]. *)
Definition uacpi_signatures_match (lhs rhs : list Z) : bool := bool_decide (take 4 lhs = take 4 rhs).

Definition uacpi_check_table_signature (table expect : list Z) : op uacpi_status :=
  if uacpi_signatures_match table expect then mret UACPI_STATUS_OK
  else
    fatal ← uacpi_check_flag UACPI_FLAG_BAD_TBL_SIGNATURE_FATAL;
    mret (if (fatal : bool) then UACPI_STATUS_INVALID_SIGNATURE else UACPI_STATUS_OK).

Definition ACPI_FADT_SIGNATURE : list Z := cstr "FACP".
Definition ACPI_FACS_SIGNATURE : list Z := cstr "FACS".
Definition ACPI_DSDT_SIGNATURE : list Z := cstr "DSDT".
Definition ACPI_RSDT_SIGNATURE : list Z := cstr "RSDT".
Definition ACPI_XSDT_SIGNATURE : list Z := cstr "XSDT".

(** ** References *)

Definition is_physical (o : uacpi_table_origin) : bool :=
  bool_decide (o = UACPI_TABLE_ORIGIN_HOST_PHYSICAL) || bool_decide (o = UACPI_TABLE_ORIGIN_FIRMWARE_PHYSICAL).

Definition count_up (t : uacpi_installed_table) : uacpi_installed_table :=
  if reference_count t =? 0xFFFF then t else t <| reference_count := u16 (reference_count t + 1) |>.

(** The case of [table_ref_unlocked] for the first reference. *)
Definition first_reference (tbl : slot) : op uacpi_status :=
  t ← load_table tbl;
  if has_flag (flags t) UACPI_TABLE_INVALID then mret UACPI_STATUS_INVALID_ARGUMENT
  else if negb (is_physical (origin t)) then mret UACPI_STATUS_OK
  else
    p ← kernel_map (phys_addr t) (hdr_length (hdr t));
    _ ← update_table tbl (fun t => t <| ptr := p |>);
    if p =? 0 then mret UACPI_STATUS_MAPPING_FAILED
    else if has_flag (flags t) UACPI_TABLE_CSUM_VERIFIED then mret UACPI_STATUS_OK
    else
      ret ← uacpi_verify_table_checksum p (hdr_length (hdr t));
      if negb (is_ok ret) then
        _ ← kernel_unmap p (hdr_length (hdr t));
        _ ← update_table tbl (fun t => t <| flags := Z.lor (flags t) UACPI_TABLE_INVALID |> <| ptr := 0 |>);
        mret ret
      else
        _ ← update_table tbl (fun t => t <| flags := Z.lor (flags t) UACPI_TABLE_CSUM_VERIFIED |>);
        mret UACPI_STATUS_OK.

Definition table_ref_unlocked (tbl : slot) : op uacpi_status :=
  t ← load_table tbl;
  ret ← (if reference_count t =? 0 then first_reference tbl else mret UACPI_STATUS_OK);
  if negb (is_ok ret) then mret ret
  else _ ← update_table tbl count_up; mret UACPI_STATUS_OK.

Definition table_unref_unlocked (tbl : slot) : op uacpi_status :=
  t ← load_table tbl;
  if reference_count t =? 0 then mret UACPI_STATUS_INVALID_ARGUMENT
  else if reference_count t =? 0xFFFF then mret UACPI_STATUS_OK
  else
    _ ← (if (reference_count t =? 1) && is_physical (origin t) then
           _ ← kernel_unmap (ptr t) (hdr_length (hdr t));
           update_table tbl (fun t => t <| ptr := 0 |>)
         else mret tt);
    _ ← update_table tbl (fun t => t <| reference_count := u16 (reference_count t - 1) |>);
    mret UACPI_STATUS_OK.

(** ** Installation *)

Definition table_alloc : op (uacpi_status * option (slot * Z)) :=
  s ← gets id;
  if early_table_access s && (table_array_size (tables s) =? table_array_capacity (tables s))
  then mret (UACPI_STATUS_OUT_OF_MEMORY, None)
  else
    tbl ← table_array_alloc;
    match tbl with
    | None => mret (UACPI_STATUS_OUT_OF_MEMORY, None)
    | Some p => n ← gets (fun s => table_array_size (tables s)); mret (UACPI_STATUS_OK, Some (p, u64 (n - 1)))
    end.

Definition get_external_table_header (phys : Z) : op (uacpi_status * list Z) :=
  virt ← kernel_map phys SIZEOF_SDT_HDR;
  if virt =? 0 then mret (UACPI_STATUS_MAPPING_FAILED, [])
  else
    b ← read_bytes (Z.to_nat SIZEOF_SDT_HDR) virt;
    _ ← kernel_unmap virt SIZEOF_SDT_HDR;
    mret (UACPI_STATUS_OK, b).

(** The recursive calls: [table_install_physical_with_origin_unlocked] and
    [table_install_with_origin_unlocked]. *)
Section Nested.
Context (install_physical : Z -> uacpi_table_origin -> option (list Z) -> bool -> op installed).
Context (install_virtual : Z -> uacpi_table_origin -> bool -> op installed).

(** [split_event_blocks], on the copy the registers were converted in. *)
Definition split_event_blocks : op unit :=
  modify (fun s =>
    let a := split_one_block (get_gas x_pm1a_evt_blk_at (fadt s)) (pm1a_status_blk s) (pm1a_enable_blk s) in
    let b := split_one_block (get_gas x_pm1b_evt_blk_at (fadt s)) (pm1b_status_blk s) (pm1b_enable_blk s) in
    s <| pm1a_status_blk := fst a |> <| pm1a_enable_blk := snd a |>
      <| pm1b_status_blk := fst b |> <| pm1b_enable_blk := snd b |>).

Definition update_fadt (f : list Z -> list Z) : op unit := modify (fun s => s <| fadt := f (fadt s) |>).

(** The first half of [initialize_fadt]: copy and repair; the address of the DSDT. *)
Definition load_fadt (virt : Z) : op Z :=
  len ← read_bytes 4 (virt + 4);
  b ← read_bytes (Z.to_nat (Z.min (Z.of_nat SIZEOF_FADT) (le len))) virt;
  _ ← update_fadt (copy_fadt b);
  _ ← modify (fun s => s <| is_hardware_reduced := has_flag (fld 4 flags_at (fadt s)) ACPI_HW_REDUCED_ACPI |>);
  _ ← update_fadt fadt_ensure_correct_revision;
  _ ← update_fadt zero_reserved;
  _ ← update_fadt prefer_x_dsdt;
  gets (fun s => fld 8 x_dsdt_at (fadt s)).

(** The second half: the FACS and the registers. *)
Definition complete_fadt : op unit :=
  _ ← update_fadt prefer_firmware_ctrl;
  reduced ← gets is_hardware_reduced;
  if (reduced : bool) then mret tt
  else _ ← update_fadt convert_registers_to_gas; split_event_blocks.

Definition initialize_fadt (virt : Z) : op uacpi_status :=
  x_dsdt ← load_fadt virt;
  ret ← (if truthy x_dsdt
         then status_of (install_physical x_dsdt UACPI_TABLE_ORIGIN_FIRMWARE_PHYSICAL (Some ACPI_DSDT_SIGNATURE) false)
         else mret UACPI_STATUS_OK);
  if negb (bool_decide (ret = UACPI_STATUS_OK) || bool_decide (ret = UACPI_STATUS_OVERRIDDEN)) then mret ret
  else _ ← complete_fadt; mret UACPI_STATUS_OK.

(** The validation by checksum, with a mapping of its own unless there is one. *)
Definition validate_table (b : list Z) (phys virt : Z) : op uacpi_status :=
  let h := parse_hdr b in
  mapping ← (if virt =? 0 then kernel_map phys (hdr_length h) else mret virt);
  if mapping =? 0 then mret UACPI_STATUS_MAPPING_FAILED
  else
    ret ← uacpi_verify_table_checksum mapping (hdr_length h);
    ret ← (if is_ok ret && uacpi_signatures_match b ACPI_FADT_SIGNATURE
           then initialize_fadt mapping else mret ret);
    _ ← (if virt =? 0 then kernel_unmap mapping (hdr_length h) else mret tt);
    mret ret.

(** [b] are the bytes of the header. *)
Definition verify_and_install_table (b : list Z) (phys virt : Z) (o : uacpi_table_origin) (want : bool)
    : op installed :=
  let h := parse_hdr b in
  proactive ← uacpi_check_flag UACPI_FLAG_PROACTIVE_TBL_CSUM;
  let facs := uacpi_signatures_match b ACPI_FACS_SIGNATURE in
  let validate := negb facs && (proactive || uacpi_signatures_match b ACPI_FADT_SIGNATURE || want) in
  ret ← (if validate then validate_table b phys virt else mret UACPI_STATUS_OK);
  if negb (is_ok ret) then mret (ret, None)
  else
    _ ← (if uacpi_signatures_match b ACPI_DSDT_SIGNATURE
         then modify (fun s => s <| is_rev1 := revision h <? 2 |>) else mret tt);
    '(ret, slot) ← table_alloc;
    match slot with
    | None => mret (ret, None)
    | Some (p, idx) =>
        let t := InstalledTable phys h virt 0 (if facs || validate then UACPI_TABLE_CSUM_VERIFIED else 0) o in
        _ ← store_table p t;
        if negb want then mret (UACPI_STATUS_OK, None)
        else
          _ ← update_table p (fun t => t <| reference_count := u16 (reference_count t + 1) |>);
          mret (UACPI_STATUS_OK, Some (UacpiTable virt idx))
    end.

Definition handle_table_override (disposition address : Z) (want : bool) : op installed :=
  if disposition =? UACPI_TABLE_INSTALLATION_DISPOSITON_VIRTUAL_OVERRIDE
  then install_virtual address UACPI_TABLE_ORIGIN_HOST_VIRTUAL want
  else if disposition =? UACPI_TABLE_INSTALLATION_DISPOSITON_PHYSICAL_OVERRIDE
  then install_physical address UACPI_TABLE_ORIGIN_HOST_PHYSICAL None want
  else mret (UACPI_STATUS_INTERNAL_ERROR, None).

(** What the handler makes of a firmware table: [None] to go on. *)
Definition ask_handler (virt : Z) (want : bool) : op (option installed) :=
  h ← gets installation_handler;
  match h with
  | None => mret None
  | Some handler =>
      let '(disposition, override) := handler virt in
      if disposition =? UACPI_TABLE_INSTALLATION_DISPOSITON_ALLOW then mret None
      else if disposition =? UACPI_TABLE_INSTALLATION_DISPOSITON_DENY
      then mret (Some (UACPI_STATUS_DENIED, None))
      else
        '(ret, out) ← handle_table_override disposition override want;
        mret (Some (if is_ok ret then UACPI_STATUS_OVERRIDDEN else ret, out))
  end.

(** The end of the function, label [out]: the mapping is kept for the caller
    of a table installed, and every result but that becomes OK. *)
Definition finish_physical (virt len : Z) (want : bool) (r : installed) : op installed :=
  let '(ret, out) := r in
  if is_ok ret && want then mret r
  else _ ← (if virt =? 0 then mret tt else kernel_unmap virt len); mret (UACPI_STATUS_OK, out).

Definition install_physical_body (phys : Z) (o : uacpi_table_origin) (expected : option (list Z))
    (want : bool) : op installed :=
  '(ret, b) ← get_external_table_header phys;
  if negb (is_ok ret) then mret (ret, None)
  else
    ret ← (match expected with
           | Some expect => uacpi_check_table_signature b expect
           | None => mret UACPI_STATUS_OK end);
    if negb (is_ok ret) then mret (ret, None)
    else
      let len := hdr_length (parse_hdr b) in
      handler ← gets installation_handler;
      let needs := bool_decide (is_Some handler) || want in
      virt ← (if needs then kernel_map phys len else mret 0);
      if needs && (virt =? 0) then mret (UACPI_STATUS_MAPPING_FAILED, None)
      else
        answer ← (if decide (o = UACPI_TABLE_ORIGIN_FIRMWARE_PHYSICAL)
                  then ask_handler virt want else mret None);
        r ← (match answer with
             | Some r => mret r
             | None => verify_and_install_table b phys virt o want end);
        finish_physical virt len want r.

Definition install_virtual_body (virt : Z) (o : uacpi_table_origin) (want : bool) : op installed :=
  b ← read_bytes (Z.to_nat SIZEOF_SDT_HDR) virt;
  if hdr_length (parse_hdr b) <? SIZEOF_SDT_HDR then mret (UACPI_STATUS_INVALID_TABLE_LENGTH, None)
  else
    answer ← (if decide (o = UACPI_TABLE_ORIGIN_FIRMWARE_VIRTUAL)
              then ask_handler virt want else mret None);
    match answer with
    | Some r => mret r
    | None => verify_and_install_table b 0 virt o want
    end.
End Nested.

Fixpoint install_physical_n (depth : nat) (phys : Z) (o : uacpi_table_origin)
    (expected : option (list Z)) (want : bool) : op installed :=
  match depth with
  | O => ub
  | S n => install_physical_body (install_physical_n n) (install_virtual_n n) phys o expected want
  end
with install_virtual_n (depth : nat) (virt : Z) (o : uacpi_table_origin) (want : bool) : op installed :=
  match depth with
  | O => ub
  | S n => install_virtual_body (install_physical_n n) (install_virtual_n n) virt o want
  end.

Section Depth.
Context (depth : nat).
Definition table_install_physical_with_origin_unlocked := install_physical_n depth.
Definition table_install_with_origin_unlocked := install_virtual_n depth.

Definition with_table_mutex {A} (failed : uacpi_status -> A) (body : op A) : op A :=
  ret ← acquire_table_mutex;
  if negb (is_ok ret) then mret (failed ret)
  else r ← body; _ ← release_table_mutex; mret r.

Definition uacpi_table_install_physical_with_origin (phys : Z) (o : uacpi_table_origin) (want : bool)
    : op installed :=
  with_table_mutex (fun ret => (ret, None))
    (table_install_physical_with_origin_unlocked phys o None want).
Definition uacpi_table_install_with_origin (virt : Z) (o : uacpi_table_origin) (want : bool)
    : op installed :=
  with_table_mutex (fun ret => (ret, None)) (table_install_with_origin_unlocked virt o want).

Definition offline : installed := (UACPI_STATUS_INIT_LEVEL_MISMATCH, None).
Definition uacpi_table_install (virt : Z) (want : bool) : op installed :=
  ENSURE_TABLES_ONLINE offline (uacpi_table_install_with_origin virt UACPI_TABLE_ORIGIN_HOST_VIRTUAL want).
Definition uacpi_table_install_physical (addr : Z) (want : bool) : op installed :=
  ENSURE_TABLES_ONLINE offline
    (uacpi_table_install_physical_with_origin addr UACPI_TABLE_ORIGIN_HOST_PHYSICAL want).

Definition uacpi_set_table_installation_handler (handler : option (Z -> Z * Z)) : op uacpi_status :=
  with_table_mutex id (
    old ← gets installation_handler;
    _ ← (if bool_decide (is_Some old) && bool_decide (is_Some handler) then mret tt
         else modify (fun s => s <| installation_handler := handler |>));
    mret UACPI_STATUS_OK).

(** ** Start and end *)

(** One entry of the root table. *)
Definition install_entry (rxsdt entry_size i : Z) : op uacpi_status :=
  b ← read_bytes (Z.to_nat entry_size) (rxsdt + SIZEOF_SDT_HDR + i);
  if le b =? 0 then mret UACPI_STATUS_OK
  else status_of (uacpi_table_install_physical_with_origin (le b) UACPI_TABLE_ORIGIN_FIRMWARE_PHYSICAL false).

Definition install_entries (rxsdt entry_size entry_bytes : Z) : op uacpi_status :=
  loop (S (Z.to_nat (entry_bytes / entry_size))) (fun i =>
    if entry_bytes <=? i then mret (inr UACPI_STATUS_OK)
    else
      ret ← install_entry rxsdt entry_size i;
      if bool_decide (ret = UACPI_STATUS_OK) || bool_decide (ret = UACPI_STATUS_OVERRIDDEN)
      then mret (inl (i + entry_size)) else mret (inr ret)) 0.

Definition initialize_from_rxsdt (rxsdt_addr entry_size : Z) : op uacpi_status :=
  rxsdt ← kernel_map rxsdt_addr SIZEOF_SDT_HDR;
  if rxsdt =? 0 then mret UACPI_STATUS_MAPPING_FAILED
  else
    b ← read_bytes (Z.to_nat SIZEOF_SDT_HDR) rxsdt;
    ret ← uacpi_check_table_signature b (if entry_size =? 8 then ACPI_XSDT_SIGNATURE else ACPI_RSDT_SIGNATURE);
    _ ← kernel_unmap rxsdt SIZEOF_SDT_HDR;
    if negb (is_ok ret) then mret ret
    else
      let map_len := hdr_length (parse_hdr b) in
      if map_len <? SIZEOF_SDT_HDR + entry_size then mret UACPI_STATUS_INVALID_TABLE_LENGTH
      else
        let entry_bytes := Z.ldiff (map_len - SIZEOF_SDT_HDR) (entry_size - 1) in
        rxsdt ← kernel_map rxsdt_addr map_len;
        if rxsdt =? 0 then mret UACPI_STATUS_MAPPING_FAILED
        else
          ret ← uacpi_verify_table_checksum rxsdt map_len;
          ret ← (if is_ok ret then install_entries rxsdt entry_size entry_bytes else mret ret);
          _ ← kernel_unmap rxsdt map_len;
          mret ret.

Definition initialize_from_rsdp : op uacpi_status :=
  _ ← modify (fun s => s <| is_rev1 := true |>);
  rsdp_phys ← liftO (get_rsdp rsdp_response);
  rsdp ← kernel_map rsdp_phys SIZEOF_RSDP;
  if rsdp =? 0 then mret UACPI_STATUS_MAPPING_FAILED
  else
    b ← read_bytes (Z.to_nat SIZEOF_RSDP) rsdp;
    bad ← uacpi_check_flag UACPI_FLAG_BAD_XSDT;
    let revision := fld 1 15 b in
    let xsdt := (1 <? revision) && truthy (fld 8 24 b) && negb bad in
    let rxsdt := if xsdt then fld 8 24 b else fld 4 16 b in
    let entry_size := if xsdt then 8 else 4 in
    _ ← kernel_unmap rsdp SIZEOF_RSDP;
    if rxsdt =? 0 then mret UACPI_STATUS_INVALID_ARGUMENT
    else initialize_from_rxsdt rxsdt entry_size.

(** One turn of the loop of [uacpi_deinitialize_tables]. *)
Definition release_table (i : Z) : op unit :=
  a ← gets tables;
  match table_array_at i a with
  | None => ub
  | Some p =>
      t ← load_table p;
      match origin t with
      | UACPI_TABLE_ORIGIN_FIRMWARE_VIRTUAL => uacpi_free (ptr t)
      | UACPI_TABLE_ORIGIN_FIRMWARE_PHYSICAL | UACPI_TABLE_ORIGIN_HOST_PHYSICAL =>
          if reference_count t =? 0 then mret tt else kernel_unmap (ptr t) (hdr_length (hdr t))
      | UACPI_TABLE_ORIGIN_HOST_VIRTUAL => mret tt
      end
  end.

Definition uacpi_deinitialize_tables : op unit :=
  n ← gets (fun s => table_array_size (tables s));
  _ ← for_range 0 n release_table;
  early ← gets early_table_access;
  _ ← (if (early : bool)
       then modify (fun s => s <| tables := empty_array |> <| early_table_access := false |>)
       else table_array_clear);
  _ ← modify (fun s => s <| installation_handler := None |>);
  m ← gets table_mutex;
  _ ← (match m with Some m => liftO (uacpi_kernel_free_mutex m) | None => mret tt end);
  modify (fun s => s <| table_mutex := None |>).

(** A buffer of the host's at [temporary_buffer], aligned to 8 bytes. *)
Definition uacpi_setup_early_table_access (temporary_buffer buffer_size : Z) : op uacpi_status :=
  s ← gets id;
  if negb (init_level_num (init_level s) =? init_level_num UACPI_INIT_LEVEL_EARLY)
  then mret UACPI_STATUS_INIT_LEVEL_MISMATCH
  else if early_table_access s then mret UACPI_STATUS_INIT_LEVEL_MISMATCH
  else
    let aligned := UACPI_ALIGN_UP 64 temporary_buffer 8 in
    let stripped := u64 (aligned - temporary_buffer) in
    let buffer_size := if temporary_buffer =? aligned then buffer_size
                       else buffer_size - Z.min stripped buffer_size in
    if buffer_size <? SIZEOF_INSTALLED_TABLE then mret UACPI_STATUS_INVALID_ARGUMENT
    else
      let cap := buffer_size / SIZEOF_INSTALLED_TABLE in
      _ ← on_array (fun a => a <| dynamic_storage := aligned |> <| dynamic_capacity := cap |>
                               <| dynamic_cells := replicate (Z.to_nat cap) None |>);
      _ ← modify (fun s => s <| early_table_access := true |>);
      ret ← initialize_from_rsdp;
      _ ← (if is_ok ret then mret tt else uacpi_deinitialize_tables);
      mret ret.

(** The end of early access: the tables beyond the inline ones move from the
    host's buffer to the heap.  [false] when the allocation fails. *)
Definition leave_early_access : op bool :=
  a ← gets tables;
  ok ← (if table_array_inline_capacity <? table_array_size a then
          let n := table_array_size a - table_array_inline_capacity in
          new_buf ← uacpi_kernel_alloc (SIZEOF_INSTALLED_TABLE * n);
          if new_buf =? 0 then mret false
          else
            _ ← on_array (fun a => a <| dynamic_storage := new_buf |> <| dynamic_capacity := n |>
                                     <| dynamic_cells := take (Z.to_nat n) (dynamic_cells a) |>);
            mret true
        else
          _ ← on_array (fun a => a <| dynamic_storage := 0 |> <| dynamic_capacity := 0 |>
                                   <| dynamic_cells := [] |>);
          mret true);
  if (ok : bool) then _ ← modify (fun s => s <| early_table_access := false |>); mret true
  else mret false.

(** [uninit] is the pointer the uninitialised [tbl] of the code holds. *)
Definition install_facs (uninit : Z) : op uacpi_status :=
  x ← gets (fun s => fld 8 x_firmware_ctrl_at (fadt s));
  if negb (truthy x) then mret UACPI_STATUS_OK
  else
    '(ret, tbl) ← table_install_physical_with_origin_unlocked x UACPI_TABLE_ORIGIN_FIRMWARE_PHYSICAL
                    (Some ACPI_FACS_SIGNATURE) true;
    if negb (bool_decide (ret = UACPI_STATUS_OK) || bool_decide (ret = UACPI_STATUS_OVERRIDDEN)) then mret ret
    else
      _ ← modify (fun s => s <| facs := match tbl with Some t => table_ptr t | None => uninit end |>);
      mret UACPI_STATUS_OK.

Definition uacpi_initialize_tables (uninit : Z) (malloc_ok : bool) : op uacpi_status :=
  early ← gets early_table_access;
  ret ← (if (early : bool) then
           ok ← leave_early_access;
           mret (if (ok : bool) then UACPI_STATUS_OK else UACPI_STATUS_OUT_OF_MEMORY)
         else initialize_from_rsdp);
  if negb (is_ok ret) then mret ret
  else
    reduced ← gets is_hardware_reduced;
    ret ← (if (reduced : bool) then mret UACPI_STATUS_OK else install_facs uninit);
    if negb (is_ok ret) then mret ret
    else
      m ← liftO (uacpi_kernel_create_mutex malloc_ok);
      _ ← modify (fun s => s <| table_mutex := m |>);
      mret (match m with None => UACPI_STATUS_OUT_OF_MEMORY | Some _ => UACPI_STATUS_OK end).
End Depth.

(** ** Iteration and search *)

(** The loop of [uacpi_for_each_table]; the callback carries its context. *)
Definition for_each_turn {X} (cb : X -> slot -> Z -> op (X * uacpi_iteration_decision)) (it : Z * X)
    : op (Z * X + X) :=
  let '(idx, user) := it in
  a ← gets tables;
  match table_array_at idx a with
  | None => mret (inr user)
  | Some tbl =>
      t ← load_table tbl;
      if has_flag (flags t) UACPI_TABLE_INVALID then mret (inl (u64 (idx + 1), user))
      else
        '(user, dec) ← cb user tbl idx;
        mret (match dec with
              | UACPI_ITERATION_DECISION_BREAK => inr user
              | _ => inl (u64 (idx + 1), user) end)
  end.

Definition for_each_table {X} (base_idx : Z) (cb : X -> slot -> Z -> op (X * uacpi_iteration_decision))
    (user : X) : op X :=
  n ← gets (fun s => table_array_size (tables s));
  loop (S (Z.to_nat (n - base_idx))) (for_each_turn cb) (base_idx, user).

Definition uacpi_for_each_table {X} (base_idx : Z) (cb : X -> slot -> Z -> op (X * uacpi_iteration_decision))
    (user : X) : op (uacpi_status * X) :=
  ENSURE_TABLES_ONLINE (UACPI_STATUS_INIT_LEVEL_MISMATCH, user)
    (with_table_mutex (fun ret => (ret, user))
       (user ← for_each_table base_idx cb user; mret (UACPI_STATUS_OK, user))).

(** What a search looks for: [search_type] with its part of the union. *)
Inductive table_search :=
  | SEARCH_TYPE_BY_ID (id : uacpi_table_identifiers)
  | SEARCH_TYPE_MATCH (match_cb : uacpi_installed_table -> bool).

(** The rest of [table_search_ctx]. *)
Record table_search_ctx := SearchCtx { out_table : option uacpi_table; status : uacpi_status }.

Definition first_nonzero (l : list Z) : bool := truthy (default 0 (head l)).
Definition table_matches (what : table_search) (t : uacpi_installed_table) : bool :=
  match what with
  | SEARCH_TYPE_BY_ID id =>
      uacpi_signatures_match (id_signature id) (signature (hdr t))
      && (negb (first_nonzero (id_oemid id)) || bool_decide (id_oemid id = oemid (hdr t)))
      && (negb (first_nonzero (id_oem_table_id id)) || bool_decide (id_oem_table_id id = oem_table_id (hdr t)))
  | SEARCH_TYPE_MATCH match_cb => match_cb t
  end.

Definition do_search_tables (what : table_search) (user : table_search_ctx) (tbl : slot) (idx : Z)
    : op (table_search_ctx * uacpi_iteration_decision) :=
  t ← load_table tbl;
  if negb (table_matches what t) then mret (user, UACPI_ITERATION_DECISION_CONTINUE)
  else
    ret ← table_ref_unlocked tbl;
    if is_ok ret then
      t ← load_table tbl;
      mret (SearchCtx (Some (UacpiTable (ptr t) idx)) ret, UACPI_ITERATION_DECISION_BREAK)
    else if bool_decide (ret = UACPI_STATUS_BAD_CHECKSUM)
    then mret (user, UACPI_ITERATION_DECISION_CONTINUE)
    else mret (SearchCtx (out_table user) ret, UACPI_ITERATION_DECISION_BREAK).

Definition search_tables (base_idx : Z) (what : table_search) : op installed :=
  '(ret, user) ← uacpi_for_each_table base_idx (do_search_tables what) (SearchCtx None UACPI_STATUS_NOT_FOUND);
  mret (if negb (is_ok ret) then (ret, None) else (status user, out_table user)).
Definition uacpi_table_match (base_idx : Z) (cb : uacpi_installed_table -> bool) : op installed :=
  search_tables base_idx (SEARCH_TYPE_MATCH cb).
Definition find_table (base_idx : Z) (id : uacpi_table_identifiers) : op installed :=
  search_tables base_idx (SEARCH_TYPE_BY_ID id).

Definition by_signature (sig : list Z) : uacpi_table_identifiers :=
  TableId sig (replicate 6 0) (replicate 8 0).
Definition uacpi_table_find_by_signature (signature_string : list Z) : op installed :=
  ENSURE_TABLES_ONLINE offline (find_table 0 (by_signature (take 4 signature_string))).
Definition uacpi_table_find (id : uacpi_table_identifiers) : op installed :=
  ENSURE_TABLES_ONLINE offline (find_table 0 id).

(** ** Requests on one table *)

Definition TABLE_CTL_SET_FLAGS : Z := Z.shiftl 1 0.
Definition TABLE_CTL_CLEAR_FLAGS : Z := Z.shiftl 1 1.
Definition TABLE_CTL_VALIDATE_SET_FLAGS : Z := Z.shiftl 1 2.
Definition TABLE_CTL_VALIDATE_CLEAR_FLAGS : Z := Z.shiftl 1 3.
Definition TABLE_CTL_GET : Z := Z.shiftl 1 4.
Definition TABLE_CTL_PUT : Z := Z.shiftl 1 5.

Record table_ctl_request := TableCtl {
  req_type : Z;
  expect_set : Z;
  expect_clear : Z;
  set_ : Z;
  clear_ : Z;
}.
Definition get_request : table_ctl_request := TableCtl TABLE_CTL_GET 0 0 0 0.
Definition put_request : table_ctl_request := TableCtl TABLE_CTL_PUT 0 0 0 0.
Definition loaded_request : table_ctl_request := TableCtl TABLE_CTL_SET_FLAGS 0 0 UACPI_TABLE_LOADED 0.
Definition load_request : table_ctl_request :=
  TableCtl (Z.lor (Z.lor TABLE_CTL_SET_FLAGS TABLE_CTL_VALIDATE_CLEAR_FLAGS) TABLE_CTL_GET)
    0 UACPI_TABLE_LOADED UACPI_TABLE_LOADED 0.

(** The status and [req->out_tbl]. *)
Definition table_ctl_found (tbl : slot) (req : table_ctl_request) : op (uacpi_status * Z) :=
  t ← load_table tbl;
  if has_flag (req_type req) TABLE_CTL_VALIDATE_SET_FLAGS
     && negb (Z.land (flags t) (expect_set req) =? expect_set req)
  then mret (UACPI_STATUS_INVALID_ARGUMENT, 0)
  else if has_flag (req_type req) TABLE_CTL_VALIDATE_CLEAR_FLAGS
          && negb (Z.land (flags t) (expect_clear req) =? 0)
  then mret (UACPI_STATUS_ALREADY_EXISTS, 0)
  else
    ret ← (if has_flag (req_type req) TABLE_CTL_GET then table_ref_unlocked tbl else mret UACPI_STATUS_OK);
    if negb (is_ok ret) then mret (ret, 0)
    else
      t ← load_table tbl;
      let out := if has_flag (req_type req) TABLE_CTL_GET then ptr t else 0 in
      ret ← (if has_flag (req_type req) TABLE_CTL_PUT then table_unref_unlocked tbl else mret UACPI_STATUS_OK);
      if negb (is_ok ret) then mret (ret, out)
      else
        _ ← (if has_flag (req_type req) TABLE_CTL_SET_FLAGS
             then update_table tbl (fun t => t <| flags := Z.lor (flags t) (set_ req) |>) else mret tt);
        _ ← (if has_flag (req_type req) TABLE_CTL_CLEAR_FLAGS
             then update_table tbl (fun t => t <| flags := clear_bits (flags t) (clear_ req) |>) else mret tt);
        mret (UACPI_STATUS_OK, out).

(** The return for an invalid table leaves the mutex taken. *)
Definition table_ctl (idx : Z) (req : table_ctl_request) : op (uacpi_status * Z) :=
  ENSURE_TABLES_ONLINE (UACPI_STATUS_INIT_LEVEL_MISMATCH, 0) (
    ret ← acquire_table_mutex;
    if negb (is_ok ret) then mret (ret, 0)
    else
      a ← gets tables;
      match table_array_at idx a with
      | None => _ ← release_table_mutex; mret (UACPI_STATUS_INVALID_ARGUMENT, 0)
      | Some tbl =>
          t ← load_table tbl;
          if has_flag (flags t) UACPI_TABLE_INVALID then mret (UACPI_STATUS_INVALID_ARGUMENT, 0)
          else r ← table_ctl_found tbl req; _ ← release_table_mutex; mret r
      end).

(** The interpreter runs the table at a pointer. *)
Definition uacpi_table_load_with_cause (uacpi_execute_table : Z -> op uacpi_status) (idx : Z)
    : op uacpi_status :=
  '(ret, out_tbl) ← table_ctl idx load_request;
  if negb (is_ok ret) then mret ret
  else
    ret ← uacpi_execute_table out_tbl;
    _ ← table_ctl idx put_request;
    mret ret.

Definition uacpi_table_load (uacpi_execute_table : Z -> op uacpi_status) (idx : Z) : op uacpi_status :=
  uacpi_table_load_with_cause uacpi_execute_table idx.

Definition uacpi_table_mark_as_loaded (idx : Z) : op unit := _ ← table_ctl idx loaded_request; mret tt.
Definition uacpi_table_ref (tbl : uacpi_table) : op uacpi_status := status_of (table_ctl (index tbl) get_request).
Definition uacpi_table_unref (tbl : uacpi_table) : op uacpi_status := status_of (table_ctl (index tbl) put_request).

(** [*in_out_table] is written when a table is found. *)
Definition uacpi_table_find_next_with_same_signature (in_out_table : uacpi_table) : op installed :=
  ENSURE_TABLES_ONLINE offline (
    if table_ptr in_out_table =? 0 then mret (UACPI_STATUS_INVALID_ARGUMENT, None)
    else
      sig ← read_bytes 4 (table_ptr in_out_table);
      _ ← uacpi_table_unref in_out_table;
      find_table (u64 (index in_out_table + 1)) (by_signature sig)).

Definition uacpi_table_fadt : op (uacpi_status * option (list Z)) := fun s =>
  ENSURE_TABLES_ONLINE (UACPI_STATUS_INIT_LEVEL_MISMATCH, None)
    (mret (UACPI_STATUS_OK, Some (fadt s))) s.

(** The loop of [uacpi_namespace_load] ([uacpi.c]) over the secondary tables:
    the number of tables it loaded, or the error it stops with. *)
Definition ACPI_SSDT_SIGNATURE : list Z := cstr "SSDT".
Definition ACPI_PSDT_SIGNATURE : list Z := cstr "PSDT".
Definition match_ssdt_or_psdt (t : uacpi_installed_table) : bool :=
  if has_flag (flags t) UACPI_TABLE_LOADED then false
  else uacpi_signatures_match (signature (hdr t)) ACPI_SSDT_SIGNATURE
       || uacpi_signatures_match (signature (hdr t)) ACPI_PSDT_SIGNATURE.

Definition load_tables_turn (uacpi_execute_table : Z -> op uacpi_status) (it : Z * Z)
    : op (Z * Z + (uacpi_status * Z)) :=
  let '(cur_index, load_counter) := it in
  '(ret, tbl) ← uacpi_table_match cur_index match_ssdt_or_psdt;
  match tbl with
  | Some tbl =>
      if negb (is_ok ret) then mret (inr (ret, load_counter))
      else
        _ ← uacpi_table_load_with_cause uacpi_execute_table (index tbl);
        _ ← uacpi_table_unref tbl;
        mret (inl (u64 (index tbl + 1), u32 (load_counter + 1)))
  | None =>
      mret (inr (if bool_decide (ret = UACPI_STATUS_NOT_FOUND) then UACPI_STATUS_OK else ret, load_counter))
  end.
Definition load_secondary_tables (uacpi_execute_table : Z -> op uacpi_status) : op (uacpi_status * Z) :=
  n ← gets (fun s => table_array_size (tables s));
  loop (S (Z.to_nat n)) (load_tables_turn uacpi_execute_table) (0, 0).
End Tables.

(** ** Subtables

    A table is its bytes; [cb] is given the position of an entry's header and
    carries its context.  The length of the loop is bounded by the bytes, as
    every entry has two at least. *)
Section Subtables.
Context {X : Type} (cb : X -> Z -> X * uacpi_iteration_decision).
Definition SIZEOF_ENTRY_HDR : Z := 2.

Fixpoint subtable_loop (fuel : nat) (table : list Z) (cursor bytes_left : Z) (user : X)
    : option (uacpi_status * X) :=
  if bytes_left <=? SIZEOF_ENTRY_HDR then Some (UACPI_STATUS_OK, user)
  else match fuel with
  | O => None
  | S n =>
      len ← table !! Z.to_nat (cursor + 1);
      if (bytes_left <? len) || (len <? SIZEOF_ENTRY_HDR) then Some (UACPI_STATUS_INVALID_TABLE_LENGTH, user)
      else
        let '(user, dec) := cb user cursor in
        match dec with
        | UACPI_ITERATION_DECISION_CONTINUE => subtable_loop n table (cursor + len) (bytes_left - len) user
        | UACPI_ITERATION_DECISION_BREAK => Some (UACPI_STATUS_OK, user)
        | _ => Some (UACPI_STATUS_INVALID_ARGUMENT, user)
        end
  end.

Definition uacpi_for_each_subtable (table : list Z) (hdr_size : Z) (user : X) : option (uacpi_status * X) :=
  let len := hdr_length (parse_hdr table) in
  let bytes_left := u64 (len - hdr_size) in
  if len <? bytes_left then Some (UACPI_STATUS_INVALID_TABLE_LENGTH, user)
  else subtable_loop (Z.to_nat bytes_left) table hdr_size bytes_left user.
End Subtables.
