(* ===== verification/TableSamples.v ===== *)
(** * A small machine for the examples of the table files

    Physical memory with a few tables in it, a kernel whose mappings never
    fail, and the state of the tables after initialisation. *)
From S2P Require Import Prelude Status KernelSync Alloc Vmm BitIo FieldIo Gas Fadt Tables.

(** Memory by chunks, zero elsewhere. *)
Fixpoint rom (chunks : list (Z * list Z)) (a : Z) : Z :=
  match chunks with
  | [] => 0
  | (p, b) :: chunks' => if p <=? a then default (rom chunks' a) (b !! Z.to_nat (a - p)) else rom chunks' a
  end.

Lemma rom_byte chunks : Forall (fun c => Forall (fun v => 0 <= v < 256) (snd c)) chunks ->
  forall a, 0 <= rom chunks a < 256.
Proof.
  induction 1 as [|[p b] chunks Hb Hc IH]; intros a; cbn [rom]; [lia|].
  destruct (p <=? a); [|apply IH]. destruct (b !! _) as [v|] eqn:E; [|apply IH]. exact (Forall_lookup_1 _ _ _ _ Hb E).
Qed.

(** A table with this signature and body, and the checksum that fits. *)
Definition sample_table (sig : list Z) (rev : Z) (body : list Z) : list Z :=
  let b := sig ++ to_le 4 (36 + Z.of_nat (length body)) ++ [rev; 0] ++ cstr "HELIX " ++ cstr "SAMPLES " ++ to_le 12 0 ++ body in
  <[9%nat := u8 (- fold_left Z.add b 0)]> b.

Definition sample_ssdt : list Z := sample_table (cstr "SSDT") 2 [].
Definition broken_ssdt : list Z := <[9%nat := 0]> sample_ssdt.
(** A FADT of revision 6 whose [x_dsdt] is [d]. *)
Definition sample_fadt (d : Z) : list Z :=
  sample_table (cstr "FACP") 6 (put 8 (x_dsdt_at - 36) d (replicate 240 0)).

Definition sample_rom : list (Z * list Z) := [(0x3000, sample_fadt 0x3000); (0x2000, broken_ssdt); (0x1000, sample_ssdt)].
Definition sample_machine : Platform := {|
  refuses _ _ _ := false;
  ram := rom sample_rom;
  virt _ := None;
  rsdp_response := None |}.

Lemma check_bytes b : forallb (fun v => (0 <=? v) && (v <? 256)) b = true -> Forall (fun v => 0 <= v < 256) b.
Proof. rewrite forallb_forall, Forall_forall. intros Hb v Hv%list_elem_of_In. specialize (Hb v Hv). zify_bool. lia. Qed.

Lemma sample_lawful : @LawfulPlatform sample_machine.
Proof.
  intros a. apply (rom_byte sample_rom).
  repeat (apply Forall_cons_2; [apply check_bytes; vm_compute; reflexivity|]). apply Forall_nil_2.
Qed.

(** After initialisation: no table yet, the mutex is free. *)
Definition no_gas : acpi_gas := Gas 0 0 0 0 0.
Definition sample_state (fl : Z) : tables_state :=
  TablesState empty_array false None (Some (InternalMutex false)) fl UACPI_INIT_LEVEL_SUBSYSTEM_INITIALIZED
    true false (replicate SIZEOF_FADT 0) 0 no_gas no_gas no_gas no_gas (Heap ∅ 0) [] 0.
