(* ===== verification/TablesSpec.v ===== *)
(** * The tables of [Tables]: who owns which mapping, and what a search finds

    [rep a l] relates the array to the list of the tables in it; [owns s l
    extra] adds that the live mappings are those of the referenced tables of
    [l] and [extra], no more and no less. *)
From S2P Require Import Prelude Status KernelSync Alloc Vmm BitIo FieldIo Gas Fadt Tables.

(** ** The array as a list *)

Definition all_cells (a : table_array) : list (option uacpi_installed_table) :=
  inline_storage a ++ dynamic_cells a.
Definition slot_of (i : nat) : slot :=
  if decide (i < 16)%nat then Inline (Z.of_nat i) else Dynamic (Z.of_nat i - 16).

Record rep (a : table_array) (l : list uacpi_installed_table) : Prop := {
  rep_inline : length (inline_storage a) = 16%nat;
  rep_dynamic : Z.of_nat (length (dynamic_cells a)) = dynamic_capacity a;
  rep_size : size_including_inline a = Z.of_nat (length l);
  rep_cells : take (length l) (all_cells a) = Some <$> l;
  rep_bound : Z.of_nat (length l) < 2 ^ 32;
  rep_capacity : dynamic_capacity a < 2 ^ 34;
}.

Section Array.
Implicit Types (a : table_array) (l : list uacpi_installed_table) (i : nat).

Lemma length_all_cells a l : rep a l -> (length l <= length (all_cells a))%nat.
Proof.
  intros [_ _ _ E _ _]. apply (f_equal length) in E. rewrite length_take, length_fmap in E. lia.
Qed.

Lemma get_cell_slot a i : length (inline_storage a) = 16%nat ->
  get_cell (slot_of i) a = mjoin (all_cells a !! i).
Proof.
  intros Hi. unfold slot_of, all_cells. case_decide; cbn [get_cell].
  - by rewrite lookup_app_l, Nat2Z.id by lia.
  - rewrite lookup_app_r by lia. do 2 f_equal. lia.
Qed.

Lemma get_cell_rep a l i t : rep a l -> l !! i = Some t -> get_cell (slot_of i) a = Some t.
Proof.
  intros R Ht. rewrite get_cell_slot by apply R.
  pose proof (lookup_lt_Some _ _ _ Ht).
  rewrite <- (lookup_take_lt _ (length l)) by done. by rewrite (rep_cells _ _ R), list_lookup_fmap, Ht.
Qed.

Lemma at_rep a l i : rep a l -> (i < length l)%nat -> table_array_at (Z.of_nat i) a = Some (slot_of i).
Proof.
  intros R Hi. unfold table_array_at, slot_of, table_array_inline_capacity, UACPI_STATIC_TABLE_ARRAY_LEN.
  rewrite (rep_size _ _ R). rewrite (proj2 (Z.leb_gt _ _)) by lia.
  case_decide; [rewrite (proj2 (Z.ltb_lt _ _)) by lia | rewrite (proj2 (Z.ltb_ge _ _)) by lia]; done.
Qed.

Lemma at_rep_end a l (z : Z) : rep a l -> Z.of_nat (length l) <= z -> table_array_at z a = None.
Proof.
  intros R Hz. unfold table_array_at. rewrite (rep_size _ _ R). by rewrite (proj2 (Z.leb_le _ _)) by lia.
Qed.

Lemma slot_exists_at a i : length (inline_storage a) = 16%nat -> (i < length (all_cells a))%nat ->
  slot_exists (slot_of i) a = true.
Proof.
  intros Hi Hl. unfold all_cells in Hl. rewrite length_app in Hl. unfold slot_of.
  case_decide; cbn [slot_exists]; apply Nat.ltb_lt; lia.
Qed.

Lemma all_cells_set a i t : length (inline_storage a) = 16%nat ->
  all_cells (set_cell (slot_of i) t a) = <[i := Some t]> (all_cells a).
Proof.
  intros Hi. unfold slot_of, all_cells. case_decide; cbn [set_cell inline_storage dynamic_cells].
  - by rewrite insert_app_l, Nat2Z.id by lia.
  - change (inline_storage a ++ <[Z.to_nat (Z.of_nat i - 16) := Some t]> (dynamic_cells a)
            = <[i := Some t]> (inline_storage a ++ dynamic_cells a)).
    rewrite insert_app_r_alt by lia. do 2 f_equal. lia.
Qed.

Lemma set_cell_rep a l i t : rep a l -> (i < length l)%nat -> rep (set_cell (slot_of i) t a) (<[i := t]> l).
Proof.
  intros R Hi. pose proof (rep_inline _ _ R) as Hin. split.
  - unfold slot_of. case_decide; cbn; by rewrite ?length_insert.
  - pose proof (rep_dynamic _ _ R). unfold slot_of. case_decide; cbn; by rewrite ?length_insert.
  - rewrite length_insert. pose proof (rep_size _ _ R). unfold slot_of. by case_decide.
  - rewrite all_cells_set, length_insert, list_fmap_insert, <- (rep_cells _ _ R) by done.
    by rewrite take_insert_lt.
  - rewrite length_insert. apply R.
  - pose proof (rep_capacity _ _ R). unfold slot_of. by case_decide.
Qed.

(** Appending a table in the cell after the last. *)
Lemma push_rep a l t : rep a l -> (length l < length (all_cells a))%nat -> Z.of_nat (length l) + 1 < 2 ^ 32 ->
  rep (set_cell (slot_of (length l)) t (a <| size_including_inline := u64 (size_including_inline a + 1) |>)) (l ++ [t]).
Proof.
  intros R Hl Hb. pose proof (rep_inline _ _ R) as Hin. pose proof (rep_size _ _ R) as Hs. split.
  - unfold slot_of. case_decide; cbn; by rewrite ?length_insert.
  - pose proof (rep_dynamic _ _ R). unfold slot_of. case_decide; cbn; by rewrite ?length_insert.
  - rewrite length_app. cbn [length]. unfold slot_of. case_decide; cbn; rewrite Hs; rewrite u64_small by lia; lia.
  - rewrite all_cells_set by done. rewrite length_app, Nat.add_1_r, fmap_app.
    erewrite take_S_r by (apply list_lookup_insert_eq; exact Hl).
    rewrite take_insert_ge by lia. f_equal. exact (rep_cells _ _ R).
  - rewrite length_app. cbn [length]. lia.
  - pose proof (rep_capacity _ _ R). unfold slot_of. by case_decide.
Qed.
End Array.

(** ** Ownership of the mappings *)

Definition owned_by (t : uacpi_installed_table) : list (Z * Z) :=
  if is_physical (origin t) && negb (reference_count t =? 0) then [(ptr t, hdr_length (hdr t))] else [].
Definition owned (l : list uacpi_installed_table) : list (Z * Z) := concat (map owned_by l).

(** The widths of the fields; and no table is one that AML made, which
    deinitialisation frees. *)
Definition table_ok (t : uacpi_installed_table) : Prop :=
  0 <= reference_count t <= 0xFFFF /\ 0 <= hdr_length (hdr t) < 2 ^ 32 /\ 0 <= flags t
  /\ origin t <> UACPI_TABLE_ORIGIN_FIRMWARE_VIRTUAL.

Record owns (s : tables_state) (l : list uacpi_installed_table) (extra : list (Z * Z)) : Prop := {
  owns_rep : rep (tables s) l;
  owns_tables : Forall table_ok l;
  owns_mappings : mappings s ≡ₚ extra ++ owned l;
}.

(** What the operations on single tables leave alone. *)
Record frame (s s' : tables_state) : Prop := {
  fr_early : early_table_access s' = early_table_access s;
  fr_handler : installation_handler s' = installation_handler s;
  fr_mutex : table_mutex s' = table_mutex s;
  fr_flags : rt_flags s' = rt_flags s;
  fr_level : init_level s' = init_level s;
  fr_heap : theap s' = theap s;
  fr_fadt : fadt s' = fadt s;
  fr_storage : dynamic_storage (tables s') = dynamic_storage (tables s);
  fr_capacity : dynamic_capacity (tables s') = dynamic_capacity (tables s);
}.
#[export] Instance frame_preorder : PreOrder frame.
Proof.
  split; [intros s; by split|]. intros s1 s2 s3 [] []. split; congruence.
Qed.

Section Lists.
Implicit Types (l : list uacpi_installed_table).

Lemma owned_insert l i t t' : l !! i = Some t ->
  owned_by t ++ owned (<[i := t']> l) ≡ₚ owned_by t' ++ owned l.
Proof.
  intros Ht. apply list_elem_of_split_length in Ht as (l1 & l2 & -> & ->).
  rewrite insert_app_r_alt, Nat.sub_diag by done. cbn [insert list_insert].
  unfold owned. rewrite !map_app, !concat_app. cbn [map concat]. solve_Permutation.
Qed.

Lemma remove_mapping_perm (m : Z * Z) (l l' : list (Z * Z)) : l ≡ₚ m :: l' -> exists r, remove_mapping m l = Some r /\ r ≡ₚ l'.
Proof.
  revert l'. induction l as [|x l IH]; intros l' E.
  { apply Permutation_nil_cons in E. done. }
  cbn [remove_mapping]. case_decide as D.
  - subst x. exists l. split; [done|]. by apply Permutation_cons_inv in E.
  - assert (In m l) as Hin.
    { apply Permutation_sym in E. pose proof (Permutation_in m E (or_introl eq_refl)) as [?|?]; [congruence|done]. }
    apply list_elem_of_In, list_elem_of_split in Hin as (l1 & l2 & Hl).
    assert (Hk : l ≡ₚ m :: (l1 ++ l2)) by (rewrite Hl; solve_Permutation).
    destruct (IH _ Hk) as (r & Er & Pr). rewrite Er. exists (x :: r). split; [done|].
    apply (Permutation_cons_inv (a := m)). rewrite <- E, Hk, Pr. solve_Permutation.
Qed.
End Lists.

Section Spec.
Context {Plat : Platform} {Alloc : Allocator}.
Implicit Types (s : tables_state) (l : list uacpi_installed_table) (extra : list (Z * Z)) (i : nat).

(** ** Memory and single tables *)

Definition put_table (i : nat) (t : uacpi_installed_table) (s : tables_state) : tables_state :=
  s <| tables := set_cell (slot_of i) t (tables s) |>.

Lemma put_frame i t s : frame s (put_table i t s).
Proof. split; try done; unfold put_table, slot_of; by case_decide. Qed.

Lemma load_rep s l i t : rep (tables s) l -> l !! i = Some t -> load_table (slot_of i) s = Some (t, s).
Proof. intros R Ht. unfold load_table. by rewrite (get_cell_rep _ _ _ _ R Ht). Qed.

Lemma store_rep s l i t : rep (tables s) l -> (i < length l)%nat ->
  store_table (slot_of i) t s = Some (tt, put_table i t s).
Proof.
  intros R Hi. unfold store_table. rewrite slot_exists_at; [done | apply R|].
  pose proof (length_all_cells _ _ R). lia.
Qed.

Lemma update_rep s l i t f : rep (tables s) l -> l !! i = Some t ->
  update_table (slot_of i) f s = Some (tt, put_table i (f t) s).
Proof.
  intros R Ht. unfold update_table. rewrite (bind_run _ _ _ _ _ (load_rep _ _ _ _ R Ht)).
  by eapply store_rep, lookup_lt_Some.
Qed.

Lemma load_table_run s l extra i t : owns s l extra -> l !! i = Some t -> load_table (slot_of i) s = Some (t, s).
Proof. intros O. apply load_rep, O. Qed.

Lemma update_table_run s l extra i t f : owns s l extra -> l !! i = Some t ->
  update_table (slot_of i) f s = Some (tt, put_table i (f t) s).
Proof. intros O. apply update_rep, O. Qed.

Lemma owns_put s l extra extra' i t t' : owns s l extra -> l !! i = Some t -> table_ok t' ->
  extra' ++ owned_by t' ≡ₚ extra ++ owned_by t -> owns (put_table i t' s) (<[i := t']> l) extra'.
Proof.
  intros O Ht Hok E. pose proof (lookup_lt_Some _ _ _ Ht). destruct O as [R F P]. split.
  - by apply set_cell_rep.
  - by apply Forall_insert.
  - change (mappings (put_table i t' s)) with (mappings s). rewrite P.
    apply (Permutation_app_inv_r (owned_by t')).
    rewrite <- !app_assoc, (Permutation_app_comm (owned l)), <- (owned_insert l i t t') by done.
    rewrite (Permutation_app_comm (owned (<[i:=t']> l))), !app_assoc. by rewrite E.
Qed.

Lemma owns_same s s' l extra : owns s l extra -> tables s' = tables s -> mappings s' = mappings s ->
  owns s' l extra.
Proof. intros [R F P] Et Em. split; [by rewrite Et | done | by rewrite Em]. Qed.

(** A call of [uacpi_kernel_map]. *)
Definition refused s (a n : Z) : Prop := refuses (map_calls s) a n = true \/ pa_to_va a = 0.

Lemma map_run s l extra a n : owns s l extra -> exists p s', kernel_map a n s = Some (p, s')
  /\ frame s s' /\ tables s' = tables s
  /\ (p = 0 /\ refused s a n /\ owns s' l extra \/ p <> 0 /\ p = pa_to_va a /\ owns s' l ((p, n) :: extra)).
Proof.
  intros [R F P]. unfold kernel_map. eexists _, _. split; [done|].
  set (va := if refuses _ _ _ then 0 else _). split; [by split|]. split; [done|].
  destruct (Z.eqb_spec va 0) as [E|E].
  - left. split; [done|]. split; [|split; cbn; rewrite ?E; done].
    unfold refused. subst va. destruct (refuses _ _ _); auto.
  - right. split; [done|]. split; [by subst va; destruct (refuses _ _ _)|].
    split; [done | done |]. cbn. by rewrite P.
Qed.

Lemma unmap_run s l extra p n : owns s l ((p, n) :: extra) -> exists s', kernel_unmap p n s = Some (tt, s')
  /\ frame s s' /\ tables s' = tables s /\ owns s' l extra.
Proof.
  intros [R F P]. destruct (remove_mapping_perm (p, n) (mappings s) (extra ++ owned l) P) as (r & E & Pr).
  unfold kernel_unmap. rewrite E. eexists. split; [done|]. split_and!; [by split | done |]. by split.
Qed.

(** What a mapping shows: the bytes of physical memory. *)
Definition bytes_at (va : Z) (n : nat) : list Z := map (fun i => ram (va_to_pa (va + Z.of_nat i))) (seq 0 n).
Definition sum8 (bs : list Z) : Z := fold_left (fun c b => u8 (c + b)) bs 0.

Lemma bytes_at_S va n : bytes_at va (S n) = ram (va_to_pa va) :: bytes_at (va + 1) n.
Proof.
  unfold bytes_at. cbn [seq map]. rewrite Z.add_0_r. f_equal. rewrite <- seq_shift, map_map.
  apply map_ext. intros k. do 2 f_equal. lia.
Qed.

Lemma read8_run s p n va : (p, n) ∈ mappings s -> p <= va < p + n -> read8 va s = Some (ram (va_to_pa va), s).
Proof.
  intros Hin Hva. unfold read8, mapped. replace (existsb _ _) with true; [done|].
  symmetry. apply existsb_exists. exists (p, n). split; [by apply list_elem_of_In|].
  apply andb_true_iff. split; [apply Z.leb_le | apply Z.ltb_lt]; lia.
Qed.

Lemma read_bytes_run s p n va k : (p, n) ∈ mappings s -> p <= va -> va + Z.of_nat k <= p + n ->
  read_bytes k va s = Some (bytes_at va k, s).
Proof.
  intros Hin. revert va. induction k as [|k IH]; intros va Hl Hu; [done|]. cbn [read_bytes].
  rewrite (bind_run _ _ _ _ _ (read8_run _ _ _ _ Hin (ltac:(lia) : p <= va < p + n))).
  rewrite (bind_run _ _ _ _ _ (IH (va + 1) (ltac:(lia)) (ltac:(lia)))). by rewrite bytes_at_S.
Qed.

Lemma checksum_run s p n va k c : (p, n) ∈ mappings s -> p <= va -> va + Z.of_nat k <= p + n ->
  table_checksum k va c s = Some (fold_left (fun c b => u8 (c + b)) (bytes_at va k) c, s).
Proof.
  intros Hin. revert va c. induction k as [|k IH]; intros va c Hl Hu; [done|]. cbn [table_checksum].
  rewrite (bind_run _ _ _ _ _ (read8_run _ _ _ _ Hin (ltac:(lia) : p <= va < p + n))).
  rewrite bytes_at_S. cbn [fold_left]. apply IH; lia.
Qed.

(** The verdict on the table mapped at [p]. *)
Definition fatal_csum s : bool := Z.land (rt_flags s) UACPI_FLAG_BAD_CSUM_FATAL =? UACPI_FLAG_BAD_CSUM_FATAL.
Definition csum_status s (p n : Z) : uacpi_status :=
  if (sum8 (bytes_at p (Z.to_nat n)) =? 0) || negb (fatal_csum s)
  then UACPI_STATUS_OK else UACPI_STATUS_BAD_CHECKSUM.

Lemma verify_run s p n : (p, n) ∈ mappings s -> 0 <= n ->
  uacpi_verify_table_checksum p n s = Some (csum_status s p n, s).
Proof.
  intros Hin Hn. unfold uacpi_verify_table_checksum.
  rewrite (bind_run _ _ _ _ _ (checksum_run _ _ _ _ (Z.to_nat n) 0 Hin (ltac:(lia) : p <= p) (ltac:(lia)))).
  fold (sum8 (bytes_at p (Z.to_nat n))). unfold csum_status. case_if; [done|].
  unfold uacpi_check_flag, fatal_csum. mstep. by destruct (_ =? _).
Qed.

Lemma frame_csum s s' p n : frame s s' -> csum_status s' p n = csum_status s p n.
Proof. intros F. unfold csum_status, fatal_csum. by rewrite (fr_flags _ _ F). Qed.

(** ** References *)

Definition invalid (t : uacpi_installed_table) : bool := has_flag (flags t) UACPI_TABLE_INVALID.
Definition verified (t : uacpi_installed_table) : bool := has_flag (flags t) UACPI_TABLE_CSUM_VERIFIED.
Definition home (t : uacpi_installed_table) : Z := pa_to_va (phys_addr t).

Lemma invalid_bit t : invalid t = Z.testbit (flags t) 2.
Proof. exact (land_pow2 (flags t) 2 ltac:(lia)). Qed.

(** No table has been marked invalid. *)
Definition calm l : Prop := Forall (fun t => invalid t = false) l.

(** What the first reference makes of a table. *)
Definition mark_verified (t : uacpi_installed_table) : uacpi_installed_table :=
  if verified t then t else t <| flags := Z.lor (flags t) UACPI_TABLE_CSUM_VERIFIED |>.
Definition mark_invalid (t : uacpi_installed_table) : uacpi_installed_table :=
  t <| flags := Z.lor (flags t) UACPI_TABLE_INVALID |> <| ptr := 0 |>.

Inductive ref_outcome s (t : uacpi_installed_table) : uacpi_status -> uacpi_installed_table -> Prop :=
  | ref_counted : reference_count t <> 0 -> ref_outcome s t UACPI_STATUS_OK (count_up t)
  | ref_invalid : reference_count t = 0 -> invalid t = true -> ref_outcome s t UACPI_STATUS_INVALID_ARGUMENT t
  | ref_virtual : reference_count t = 0 -> invalid t = false -> is_physical (origin t) = false ->
      ref_outcome s t UACPI_STATUS_OK (count_up t)
  | ref_unmapped : reference_count t = 0 -> invalid t = false -> is_physical (origin t) = true ->
      refused s (phys_addr t) (hdr_length (hdr t)) ->
      ref_outcome s t UACPI_STATUS_MAPPING_FAILED (t <| ptr := 0 |>)
  | ref_mapped : reference_count t = 0 -> invalid t = false -> is_physical (origin t) = true ->
      home t <> 0 -> verified t = true \/ csum_status s (home t) (hdr_length (hdr t)) = UACPI_STATUS_OK ->
      ref_outcome s t UACPI_STATUS_OK (count_up (mark_verified (t <| ptr := home t |>)))
  | ref_bad : reference_count t = 0 -> invalid t = false -> is_physical (origin t) = true ->
      verified t = false -> csum_status s (home t) (hdr_length (hdr t)) = UACPI_STATUS_BAD_CHECKSUM ->
      ref_outcome s t UACPI_STATUS_BAD_CHECKSUM (mark_invalid (t <| ptr := home t |>)).

Hint Constructors ref_outcome : core.

Lemma flag_ok (t : uacpi_installed_table) m p : table_ok t -> 0 <= m ->
  table_ok (t <| flags := Z.lor (flags t) m |> <| ptr := p |>).
Proof. intros (? & ? & ? & ?) ?. unfold table_ok. split_and!; cbn -[Z.pow]; try lia; [by apply Z.lor_nonneg | done]. Qed.

Lemma owned_zero t : reference_count t = 0 -> owned_by t = [].
Proof. unfold owned_by. intros ->. by rewrite andb_false_r. Qed.


Lemma owned_count_up t : table_ok t ->
  owned_by (count_up t) = if is_physical (origin t) then [(ptr t, hdr_length (hdr t))] else [].
Proof.
  intros (Hr & _). unfold owned_by, count_up. destruct (Z.eqb_spec (reference_count t) 0xFFFF) as [E|E].
  - rewrite E. by destruct (is_physical _).
  - change (origin (t <| reference_count := u16 (reference_count t + 1) |>)) with (origin t).
    change (reference_count (t <| reference_count := u16 (reference_count t + 1) |>)) with (u16 (reference_count t + 1)).
    rewrite u16_small by lia. rewrite (proj2 (Z.eqb_neq _ 0)) by lia. by destruct (is_physical _).
Qed.

Lemma count_up_ok t : table_ok t -> table_ok (count_up t).
Proof.
  intros (Hr & ? & ? & ?). unfold count_up. destruct (Z.eqb_spec (reference_count t) 0xFFFF); [done|].
  unfold table_ok. split_and!; cbn -[wrap Z.pow]; rewrite ?u16_small; done || lia.
Qed.

(** The mapping a first reference takes. *)
Definition claim (ret : uacpi_status) t : list (Z * Z) :=
  if is_ok ret && is_physical (origin t) then [(ptr t, hdr_length (hdr t))] else [].

Lemma csum_status_cases s p n : csum_status s p n = UACPI_STATUS_OK \/ csum_status s p n = UACPI_STATUS_BAD_CHECKSUM.
Proof. unfold csum_status. case_if; auto. Qed.

Lemma owns_mapped s l extra m : owns s l extra -> m ∈ extra -> m ∈ mappings s.
Proof. intros [_ _ P] Hm. rewrite P. by apply elem_of_app; left. Qed.

Lemma first_reference_run s l extra i t : owns s l extra -> l !! i = Some t -> reference_count t = 0 ->
  exists ret s' t', first_reference (slot_of i) s = Some (ret, s') /\ frame s s'
    /\ owns s' (<[i := t']> l) (claim ret t' ++ extra) /\ reference_count t' = 0
    /\ ref_outcome s t ret (if is_ok ret then count_up t' else t').
Proof.
  intros O Ht Hz. unfold first_reference. rewrite (bind_run _ _ _ _ _ (load_table_run _ _ _ _ _ O Ht)).
  pose proof (Forall_lookup_1 _ _ _ _ (owns_tables _ _ _ O) Ht) as Hok.
  destruct (has_flag (flags t) UACPI_TABLE_INVALID) eqn:Hinv.
  { exists UACPI_STATUS_INVALID_ARGUMENT, s, t. rewrite list_insert_id by done. by split_and!; try done; auto. }
  destruct (is_physical (origin t)) eqn:Hphys; cbn [negb]; cycle 1.
  { exists UACPI_STATUS_OK, s, t. rewrite list_insert_id by done. unfold claim. rewrite Hphys.
    by split_and!; try done; auto. }
  destruct (map_run s l extra (phys_addr t) (hdr_length (hdr t)) O) as (p & s1 & E & F & Et & Hp).
  rewrite (bind_run _ _ _ _ _ E).
  assert (O1 : exists e, owns s1 l e /\ e = (if p =? 0 then extra else (p, hdr_length (hdr t)) :: extra)).
  { destruct Hp as [(-> & _ & ?)|(Hn & _ & ?)]; [eauto|]. rewrite (proj2 (Z.eqb_neq p 0)) by done. eauto. }
  destruct O1 as (e & O1 & ->).
  rewrite (bind_run _ _ _ _ _ (update_table_run s1 l _ i t _ O1 Ht)). set (t1 := t <| ptr := p |>).
  assert (Hok1 : table_ok t1) by apply Hok.
  pose proof (owns_put _ _ _ _ i t t1 O1 Ht Hok1 (ltac:(by rewrite !owned_zero by done))) as O2.
  pose proof (put_frame i t1 s1) as F1. set (s2 := put_table i t1 s1) in *.
  assert (Hi2 : <[i := t1]> l !! i = Some t1) by (apply list_lookup_insert_eq; by eapply lookup_lt_Some).
  destruct Hp as [(-> & Href & _)|(Hn & -> & _)].
  { exists UACPI_STATUS_MAPPING_FAILED, s2, t1. split_and!; try done; [by etrans|]. by apply ref_unmapped. }
  rewrite (proj2 (Z.eqb_neq _ 0)) in * by done.
  assert (F2 : frame s s2) by (by etrans).
  destruct (has_flag (flags t) UACPI_TABLE_CSUM_VERIFIED) eqn:Hver.
  { exists UACPI_STATUS_OK, s2, t1. split_and!; try done.
    - unfold claim. cbn [is_ok andb]. change (origin t1) with (origin t). by rewrite Hphys.
    - pose proof (ref_mapped s t Hz Hinv Hphys Hn (or_introl Hver)) as HO. unfold mark_verified in HO.
      change (verified (t <| ptr := home t |>)) with (verified t) in HO. unfold verified in HO. by rewrite Hver in HO. }
  set (n := hdr_length (hdr t)) in *.
  rewrite (bind_run _ _ _ _ _ (verify_run s2 (pa_to_va (phys_addr t)) n
    (owns_mapped _ _ _ _ O2 (list_elem_of_here _ _)) (proj1 (proj1 (proj2 Hok))))).
  rewrite (frame_csum s s2) by done. destruct (csum_status_cases s (pa_to_va (phys_addr t)) n) as [Hc|Hc]; rewrite Hc; cbn [is_ok negb].
  - rewrite (bind_run _ _ _ _ _ (update_table_run s2 _ _ i t1 _ O2 Hi2)).
    set (t2 := t1 <| flags := _ |>). exists UACPI_STATUS_OK, (put_table i t2 s2), t2.
    split_and!; [done | etrans; [exact F2 | apply put_frame] | | done | ].
    + rewrite <- (list_insert_insert_eq l i t2 t1). apply (owns_put s2 _ _ _ i t1 t2 O2 Hi2).
      * by apply (flag_ok t1 UACPI_TABLE_CSUM_VERIFIED (ptr t1)).
      * unfold claim. cbn [is_ok andb]. change (origin t2) with (origin t). rewrite Hphys.
        by rewrite !owned_zero.
    + pose proof (ref_mapped s t Hz Hinv Hphys Hn (or_intror Hc)) as HO. unfold mark_verified in HO.
      change (verified (t <| ptr := home t |>)) with (verified t) in HO. unfold verified in HO. by rewrite Hver in HO.
  - destruct (unmap_run s2 _ _ _ _ O2) as (s3 & E3 & F3 & Et3 & O3).
    rewrite (bind_run _ _ _ _ _ E3), (bind_run _ _ _ _ _ (update_table_run s3 _ _ i t1 _ O3 Hi2)).
    set (t2 := t1 <| flags := _ |> <| ptr := 0 |>). exists UACPI_STATUS_BAD_CHECKSUM, (put_table i t2 s3), t2.
    split_and!; [done | etrans; [exact F2 | etrans; [exact F3 | apply put_frame]] | | done | ].
    + rewrite <- (list_insert_insert_eq l i t2 t1). apply (owns_put s3 _ _ _ i t1 t2 O3 Hi2).
      * by apply (flag_ok t1 UACPI_TABLE_INVALID 0).
      * by rewrite !owned_zero.
    + by apply (ref_bad s t).
Qed.

Lemma put_put i t t' s : length (inline_storage (tables s)) = 16%nat ->
  put_table i t' (put_table i t s) = put_table i t' s.
Proof.
  intros _. unfold put_table, slot_of. case_decide; cbn; by rewrite list_insert_insert_eq.
Qed.

Lemma ref_run s l extra i t : owns s l extra -> l !! i = Some t ->
  exists ret s' t', table_ref_unlocked (slot_of i) s = Some (ret, s') /\ frame s s'
    /\ owns s' (<[i := t']> l) extra /\ ref_outcome s t ret t'.
Proof.
  intros O Ht. unfold table_ref_unlocked. rewrite (bind_run _ _ _ _ _ (load_table_run _ _ _ _ _ O Ht)).
  pose proof (Forall_lookup_1 _ _ _ _ (owns_tables _ _ _ O) Ht) as Hok. pose proof (lookup_lt_Some _ _ _ Ht).
  destruct (Z.eqb_spec (reference_count t) 0) as [Hz|Hz].
  - destruct (first_reference_run s l extra i t O Ht Hz) as (ret & s1 & t1 & E & F & O1 & Hz1 & HO).
    rewrite (bind_run _ _ _ _ _ E). destruct (is_ok ret) eqn:Hr; cbn [negb].
    + assert (Hi : <[i := t1]> l !! i = Some t1) by by apply list_lookup_insert_eq.
      rewrite (bind_run _ _ _ _ _ (update_table_run s1 _ _ i t1 _ O1 Hi)).
      exists UACPI_STATUS_OK, (put_table i (count_up t1) s1), (count_up t1).
      apply is_ok_true in Hr. subst ret. split_and!; [done | etrans; [exact F | apply put_frame] | | done].
      rewrite <- (list_insert_insert_eq l i (count_up t1) t1).
      assert (table_ok t1) by (by apply (Forall_lookup_1 _ _ _ _ (owns_tables _ _ _ O1) Hi)).
      apply (owns_put s1 _ _ _ i t1 _ O1 Hi); [by apply count_up_ok|].
      rewrite owned_count_up by done. rewrite (owned_zero t1), app_nil_r by done.
      unfold claim. cbn [is_ok andb]. apply Permutation_app_comm.
    + exists ret, s1, t1. unfold claim in O1. rewrite Hr in O1. split_and!; done.
  - rewrite bind_ret_l. cbn [is_ok negb].
    rewrite (bind_run _ _ _ _ _ (update_table_run s _ _ i t _ O Ht)).
    exists UACPI_STATUS_OK, (put_table i (count_up t) s), (count_up t).
    split_and!; [done | apply put_frame | | by apply ref_counted].
    apply (owns_put s _ _ _ i t _ O Ht); [by apply count_up_ok|].
    rewrite owned_count_up by done. unfold owned_by. rewrite (proj2 (Z.eqb_neq _ 0)) by done.
    by destruct (is_physical _).
Qed.

(** The last reference is given back with the mapping. *)
Inductive unref_outcome (t : uacpi_installed_table) : uacpi_status -> uacpi_installed_table -> Prop :=
  | unref_none : reference_count t = 0 -> unref_outcome t UACPI_STATUS_INVALID_ARGUMENT t
  | unref_permanent : reference_count t = 0xFFFF -> unref_outcome t UACPI_STATUS_OK t
  | unref_last : reference_count t = 1 -> is_physical (origin t) = true ->
      unref_outcome t UACPI_STATUS_OK (t <| ptr := 0 |> <| reference_count := 0 |>)
  | unref_one : 1 <= reference_count t < 0xFFFF -> (reference_count t = 1 -> is_physical (origin t) = false) ->
      unref_outcome t UACPI_STATUS_OK (t <| reference_count := reference_count t - 1 |>).
Hint Constructors unref_outcome : core.

Lemma owned_counted t : reference_count t <> 0 ->
  owned_by t = if is_physical (origin t) then [(ptr t, hdr_length (hdr t))] else [].
Proof. intros Hz. unfold owned_by. rewrite (proj2 (Z.eqb_neq _ 0)) by done. by destruct (is_physical _). Qed.

(** Unmapping what a referenced table owns. *)
Lemma give_back s l extra i t t' : owns s l extra -> l !! i = Some t -> reference_count t <> 0 ->
  is_physical (origin t) = true -> owned_by t' = [] ->
  exists s1, kernel_unmap (ptr t) (hdr_length (hdr t)) s = Some (tt, s1) /\ frame s s1
    /\ tables s1 = tables s /\ mappings s1 ≡ₚ extra ++ owned (<[i := t']> l).
Proof.
  intros [R F P] Ht Hz Hp Ht'. pose proof (owned_insert l i t t' Ht) as E.
  rewrite Ht', owned_counted, Hp in E by done. cbn [app] in E.
  destruct (remove_mapping_perm (ptr t, hdr_length (hdr t)) (mappings s) (extra ++ owned (<[i := t']> l))) as (r & Er & Pr).
  { rewrite P, <- E. solve_Permutation. }
  unfold kernel_unmap. rewrite Er. eexists. split; [done|]. by split_and!; [split | |].
Qed.

Lemma unref_run s l extra i t : owns s l extra -> l !! i = Some t ->
  exists ret s' t', table_unref_unlocked (slot_of i) s = Some (ret, s') /\ frame s s'
    /\ owns s' (<[i := t']> l) extra /\ unref_outcome t ret t'.
Proof.
  intros O Ht. unfold table_unref_unlocked. rewrite (bind_run _ _ _ _ _ (load_table_run _ _ _ _ _ O Ht)).
  pose proof (Forall_lookup_1 _ _ _ _ (owns_tables _ _ _ O) Ht) as Hok. pose proof (lookup_lt_Some _ _ _ Ht) as Hlt.
  destruct (Z.eqb_spec (reference_count t) 0) as [Hz|Hz].
  { exists UACPI_STATUS_INVALID_ARGUMENT, s, t. rewrite list_insert_id by done. by split_and!; auto. }
  destruct (Z.eqb_spec (reference_count t) 0xFFFF) as [Hf|Hf].
  { exists UACPI_STATUS_OK, s, t. rewrite list_insert_id by done. by split_and!; auto. }
  destruct Hok as (Hr & Hl & Hfl & Hor). destruct (_ && _) eqn:Hc.
  - apply andb_true_iff in Hc as [H1 Hp]. apply Z.eqb_eq in H1. set (t1 := t <| ptr := 0 |>). set (t2 := t1 <| reference_count := 0 |>).
    destruct (give_back s l extra i t t2 O Ht Hz Hp (owned_zero t2 eq_refl)) as (s1 & E1 & F1 & Et & P1).
    pose proof (owns_rep _ _ _ O) as R. rewrite <- Et in R.
    rewrite bind_assoc, (bind_run _ _ _ _ _ E1), (bind_run _ _ _ _ _ (update_rep s1 l i t _ R Ht)).
    pose proof (set_cell_rep _ l i t1 R Hlt) as R1.
    assert (Hi : <[i := t1]> l !! i = Some t1) by by apply list_lookup_insert_eq.
    rewrite (bind_run _ _ _ _ _ (update_rep (put_table i t1 s1) _ i t1 _ R1 Hi)).
    change (u16 (reference_count t1 - 1)) with (u16 (reference_count t - 1)). rewrite H1.
    exists UACPI_STATUS_OK, (put_table i t2 (put_table i t1 s1)), t2.
    split_and!; [done | etrans; [exact F1 | etrans; apply put_frame] | | by apply unref_last].
    split; [| | done].
    + rewrite <- (list_insert_insert_eq l i t2 t1). apply set_cell_rep; [done | by rewrite length_insert].
    + by apply Forall_insert; [apply O|].
  - rewrite bind_ret_l, (bind_run _ _ _ _ _ (update_table_run s _ _ i t _ O Ht)), u16_small by lia.
    set (t2 := t <| reference_count := reference_count t - 1 |>).
    exists UACPI_STATUS_OK, (put_table i t2 s), t2.
    assert (Hone : reference_count t = 1 -> is_physical (origin t) = false).
    { intros E. zify_bool; [done | by destruct (is_physical _)]. }
    split_and!; [done | apply put_frame | | by apply unref_one; [lia|]].
    apply (owns_put s _ _ _ i t _ O Ht).
    + unfold table_ok. split_and!; cbn -[Z.pow]; done || lia.
    + rewrite (owned_counted t) by done. unfold owned_by. change (origin t2) with (origin t).
      change (reference_count t2) with (reference_count t - 1).
      destruct (is_physical (origin t)) eqn:Hp; [|done].
      rewrite (proj2 (Z.eqb_neq _ 0)); [done|]. intros E. specialize (Hone ltac:(lia)). done.
Qed.
End Spec.
