(* ===== verification/SearchSpec.v ===== *)
(** * Searching the tables and asking for one: [find_table], [uacpi_table_match], [table_ctl]

    Built on [TablesSpec]: a search is the first table that fits in the
    list, and every request keeps the mappings in step with the counts. *)
From S2P Require Import Prelude Status KernelSync Alloc Vmm BitIo FieldIo Gas Fadt Tables TableSamples TablesSpec.

Section Search.
Context {Plat : Platform} {Alloc : Allocator}.
Implicit Types (s : tables_state) (l : list uacpi_installed_table) (i : nat) (t : uacpi_installed_table).

(** ** The mutex *)

Definition free_mutex (m : mutex_handle) : Prop := m = None \/ free_handle m.
Definition set_locked (b : bool) s : tables_state :=
  s <| table_mutex := (fun _ => InternalMutex b) <$> table_mutex s |>.

Lemma acquire_run s : free_mutex (table_mutex s) ->
  acquire_table_mutex s = Some (UACPI_STATUS_OK, set_locked true s).
Proof.
  unfold acquire_table_mutex, set_locked. intros [E|E]; rewrite E; [|done]. by destruct s; cbn in *; subst.
Qed.

Lemma release_mutex_run s s1 : free_mutex (table_mutex s) -> table_mutex s1 = table_mutex (set_locked true s) ->
  release_table_mutex s1 = Some (UACPI_STATUS_OK, set_locked false s1).
Proof.
  unfold release_table_mutex, set_locked. intros [E|E] Hm; rewrite E in Hm; cbn in Hm; rewrite Hm; [|done].
  destruct s1; cbn in *; by subst.
Qed.

Lemma with_mutex_run {A} (failed : uacpi_status -> A) (body : M tables_state A) s r s1 :
  free_mutex (table_mutex s) -> body (set_locked true s) = Some (r, s1) ->
  table_mutex s1 = table_mutex (set_locked true s) ->
  with_table_mutex failed body s = Some (r, set_locked false s1).
Proof.
  intros Hf Hb Hm. unfold with_table_mutex. rewrite (bind_run _ _ _ _ _ (acquire_run s Hf)).
  cbn [is_ok negb]. by rewrite (bind_run _ _ _ _ _ Hb), (bind_run _ _ _ _ _ (release_mutex_run s s1 Hf Hm)).
Qed.

(** Between two operations. *)
Record ready s l : Prop := {
  ready_owns : owns s l [];
  ready_mutex : free_mutex (table_mutex s);
  ready_online : uacpi_table_subsystem_available s = true;
}.

Lemma online_run {A} (m : A) body s : uacpi_table_subsystem_available s = true ->
  ENSURE_TABLES_ONLINE m body s = body s.
Proof. intros E. unfold ENSURE_TABLES_ONLINE. by rewrite E. Qed.

Lemma owns_locked b s l extra : owns s l extra -> owns (set_locked b s) l extra.
Proof. intros O. by apply (owns_same s). Qed.

Lemma free_unlocked s : free_mutex (table_mutex (set_locked false s)).
Proof. unfold set_locked, free_mutex, free_handle. cbn. destruct (table_mutex s); cbn; auto. Qed.

Lemma ready_after s s1 l l' : ready s l -> frame (set_locked true s) s1 -> owns s1 l' [] ->
  ready (set_locked false s1) l'.
Proof.
  intros [O F U] Fr O1. split; [by apply owns_locked | apply free_unlocked|].
  unfold uacpi_table_subsystem_available in *. cbn.
  by rewrite (fr_early _ _ Fr), (fr_level _ _ Fr).
Qed.

(** ** The reference definition of a search *)

Context (what : table_search).

Definition usable s t : bool :=
  negb (reference_count t =? 0) || negb (is_physical (origin t)) || verified t
  || is_ok (csum_status s (home t) (hdr_length (hdr t))).
Definition eligible t : bool := negb (invalid t) && table_matches what t.
Definition hit s t : bool := eligible t && usable s t.
Definition spoilt s t : bool := eligible t && negb (usable s t).

(** A table found, and one whose checksum turns out bad. *)
Definition taken t : uacpi_installed_table :=
  if (reference_count t =? 0) && is_physical (origin t)
  then count_up (mark_verified (t <| ptr := home t |>)) else count_up t.
Definition seen s t : uacpi_installed_table := if spoilt s t then mark_invalid t else t.

Definition found s (base : nat) l : option (nat * uacpi_installed_table) :=
  '(k, t) ← list_find (fun t => hit s t = true) (drop base l); Some ((base + k)%nat, t).
Definition after s (base : nat) l : list uacpi_installed_table :=
  match list_find (fun t => hit s t = true) (drop base l) with
  | Some (k, t) => take base l ++ map (seen s) (take k (drop base l)) ++ taken t :: drop (S (base + k)) l
  | None => take base l ++ map (seen s) (drop base l)
  end.

Lemma frame_hit s s' : frame s s' -> (forall t, hit s' t = hit s t) /\ (forall t, spoilt s' t = spoilt s t).
Proof. intros F. unfold hit, spoilt, usable. split; intros t; by rewrite (frame_csum s s'). Qed.

Lemma frame_find s s' l : frame s s' ->
  list_find (fun t => hit s' t = true) l = list_find (fun t => hit s t = true) l.
Proof. intros F. apply list_find_ext. intros t. by rewrite (proj1 (frame_hit s s' F)). Qed.

Lemma frame_seen s s' : frame s s' -> forall t, seen s' t = seen s t.
Proof. intros F t. unfold seen. by rewrite (proj2 (frame_hit s s' F)). Qed.

(** No mapping is refused, as the direct map's never are. *)
Definition mappable l : Prop :=
  (forall n a len, refuses n a len = false) /\ Forall (fun t => is_physical (origin t) = true -> home t <> 0) l.

Lemma ref_outcome_hit s t ret t' : ref_outcome s t ret t' -> eligible t = true ->
  (forall n a len, refuses n a len = false) -> (is_physical (origin t) = true -> home t <> 0) ->
  usable s t = true /\ ret = UACPI_STATUS_OK /\ t' = taken t
  \/ usable s t = false /\ ret = UACPI_STATUS_BAD_CHECKSUM /\ t' = mark_invalid t.
Proof.
  intros HO He Hr Hh. unfold eligible in He. apply andb_true_iff in He as [Hinv _]. apply negb_true_iff in Hinv.
  unfold usable, taken. destruct HO as [Hz|Hz Hi|Hz _ Hp|Hz _ Hp Hf|Hz _ Hp _ Hv|Hz _ Hp Hv Hc].
  - left. by rewrite (proj2 (Z.eqb_neq _ 0)).
  - congruence.
  - left. rewrite Hz, Hp. by cbn.
  - destruct Hf as [Hf|Hf]; [congruence | by destruct Hh].
  - left. rewrite Hz, Hp. cbn [Z.eqb negb orb andb]. destruct Hv as [->| ->]; [done|]. by rewrite orb_true_r.
  - right. rewrite Hz, Hp, Hv, Hc. by cbn.
Qed.

(** One turn of the search. *)
Lemma search_turn s pre t suf user : owns s (pre ++ t :: suf) [] ->
  (forall n a len, refuses n a len = false) -> (is_physical (origin t) = true -> home t <> 0) ->
  exists r s', for_each_turn (do_search_tables what) (Z.of_nat (length pre), user) s = Some (r, s') /\ frame s s'
    /\ if hit s t then r = inr (SearchCtx (Some (UacpiTable (ptr (taken t)) (Z.of_nat (length pre)))) UACPI_STATUS_OK)
                       /\ owns s' (pre ++ taken t :: suf) []
       else r = inl (Z.of_nat (S (length pre)), user) /\ owns s' (pre ++ seen s t :: suf) [].
Proof.
  intros O Hr Hh. pose proof (rep_bound _ _ (owns_rep _ _ _ O)) as Hb. rewrite length_app in Hb. cbn [length] in Hb.
  assert (Ht : (pre ++ t :: suf) !! length pre = Some t) by by apply list_lookup_middle.
  assert (Hn : u64 (Z.of_nat (length pre) + 1) = Z.of_nat (S (length pre))) by (rewrite u64_small; lia).
  unfold for_each_turn. mstep. rewrite (at_rep _ _ _ (owns_rep _ _ _ O)) by (rewrite length_app; cbn; lia).
  rewrite (load_table_run _ _ _ _ _ O Ht). unfold hit, seen, spoilt, eligible. fold (invalid t).
  destruct (invalid t) eqn:Hinv; cbn [negb andb].
  { eexists _, s. rewrite Hn. by split_and!. }
  unfold do_search_tables. mstep. rewrite (load_table_run _ _ _ _ _ O Ht).
  destruct (table_matches what t) eqn:Hm; cbn [negb andb].
  2: { eexists _, s. rewrite Hn. by split_and!. }
  destruct (ref_run s _ _ _ t O Ht) as (ret & s1 & t1 & E & F & O1 & HO). rewrite E.
  rewrite insert_app_r_alt, Nat.sub_diag in O1 by done. cbn [insert list_insert] in O1.
  assert (Ht1 : (pre ++ t1 :: suf) !! length pre = Some t1) by by apply list_lookup_middle.
  destruct (ref_outcome_hit s t ret t1 HO) as [(Hu & -> & ->)|(Hu & -> & ->)]; try done.
  { unfold eligible. by rewrite Hinv, Hm. }
  - rewrite Hu. cbn [is_ok]. rewrite (load_table_run _ _ _ _ _ O1 Ht1). by eexists _, s1.
  - rewrite Hu. cbn [is_ok negb bool_decide]. rewrite bool_decide_true by done. eexists _, s1. rewrite Hn. by split_and!.
Qed.

Lemma search_loop suf : forall s pre, owns s (pre ++ suf) [] ->
  (forall n a len, refuses n a len = false) -> Forall (fun t => is_physical (origin t) = true -> home t <> 0) suf ->
  exists user s', loop (S (length suf)) (for_each_turn (do_search_tables what))
                    (Z.of_nat (length pre), SearchCtx None UACPI_STATUS_NOT_FOUND) s = Some (user, s') /\ frame s s'
    /\ match list_find (fun t => hit s t = true) suf with
       | Some (k, t) => user = SearchCtx (Some (UacpiTable (ptr (taken t)) (Z.of_nat (length pre + k)))) UACPI_STATUS_OK
           /\ owns s' (pre ++ map (seen s) (take k suf) ++ taken t :: drop (S k) suf) []
       | None => user = SearchCtx None UACPI_STATUS_NOT_FOUND /\ owns s' (pre ++ map (seen s) suf) []
       end.
Proof.
  induction suf as [|t suf IH]; intros s pre O Hr Hh.
  { eexists _, s. split; [|by split_and!]. erewrite loop_inr; [done|]. unfold for_each_turn. mstep.
    rewrite app_nil_r in O. by rewrite (at_rep_end _ _ _ (owns_rep _ _ _ O)) by lia. }
  inversion_clear Hh as [|? ? Hh1 Hh2].
  destruct (search_turn s pre t suf (SearchCtx None UACPI_STATUS_NOT_FOUND) O Hr Hh1) as (r & s1 & E & F & HT).
  cbn [list_find length]. destruct (hit s t) eqn:Hhit.
  - destruct HT as [-> O1]. rewrite decide_True by done. eexists _, s1. split; [by apply loop_inr|].
    rewrite Nat.add_0_r. by split_and!.
  - destruct HT as [-> O1]. rewrite decide_False by done.
    assert (O2 : owns s1 ((pre ++ [seen s t]) ++ suf) []) by by rewrite <- app_assoc.
    destruct (IH s1 (pre ++ [seen s t]) O2 Hr Hh2) as (user & s2 & E2 & F2 & HS).
    rewrite length_app, Nat.add_1_r in E2, HS.
    rewrite (loop_inl _ _ _ _ _ _ E), E2. eexists _, s2. split; [done|]. split; [by etrans|].
    rewrite (frame_find s s1 suf F) in HS. destruct (list_find _ suf) as [[k u]|]; cbn [fmap option_fmap option_map prod_map fst snd].
    + destruct HS as [-> O3]. cbn [take map drop].
      rewrite <- app_assoc, (map_ext _ _ (frame_seen s s1 F)) in O3. split; [do 3 f_equal; cbn; lia | exact O3].
    + destruct HS as [-> O3]. by rewrite <- app_assoc, (map_ext _ _ (frame_seen s s1 F)) in O3.
Qed.

Lemma search_from s l (base : nat) : owns s l [] -> mappable l ->
  exists user s', for_each_table (Z.of_nat base) (do_search_tables what) (SearchCtx None UACPI_STATUS_NOT_FOUND) s
      = Some (user, s') /\ frame s s' /\ owns s' (after s base l) []
    /\ user = match found s base l with
              | Some (i, t) => SearchCtx (Some (UacpiTable (ptr (taken t)) (Z.of_nat i))) UACPI_STATUS_OK
              | None => SearchCtx None UACPI_STATUS_NOT_FOUND end.
Proof.
  intros O [Hr Hh]. unfold for_each_table, found, after.
  rewrite (bind_run _ _ s s (Z.of_nat (length l))).
  2: { mstep. unfold table_array_size. by rewrite (rep_size _ _ (owns_rep _ _ _ O)). }
  destruct (decide (base <= length l)%nat) as [Hb|Hb].
  - replace (Z.to_nat (Z.of_nat (length l) - Z.of_nat base)) with (length (drop base l)) by (rewrite length_drop; lia).
    assert (Hlen : length (take base l) = base) by (rewrite length_take; lia).
    pose proof (search_loop (drop base l) s (take base l)) as HL. rewrite take_drop, Hlen in HL.
    destruct (HL O Hr) as (user & s1 & E & F & HS); [by apply Forall_drop|].
    exists user, s1. split; [exact E|]. split; [done|].
    destruct (list_find _ _) as [[k t]|]; cbn [mbind option_bind]; destruct HS as [-> O2]; [|done].
    rewrite drop_drop in O2. by replace (base + S k)%nat with (S (base + k)) in O2 by lia.
  - rewrite drop_ge by lia. cbn [list_find mbind option_bind map]. rewrite app_nil_r, take_ge by lia.
    eexists _, s. split; [|by split_and!]. apply loop_inr. unfold for_each_turn. mstep.
    by rewrite (at_rep_end _ _ _ (owns_rep _ _ _ O)) by lia.
Qed.

(** [uacpi_table_find], [uacpi_table_match] and their relatives. *)
Lemma search_tables_run s l (base : nat) : ready s l -> mappable l ->
  exists s', search_tables (Z.of_nat base) what s
    = Some (match found s base l with
            | Some (i, t) => (UACPI_STATUS_OK, Some (UacpiTable (ptr (taken t)) (Z.of_nat i)))
            | None => (UACPI_STATUS_NOT_FOUND, None) end, s')
    /\ ready s' (after s base l) /\ table_mutex s' = table_mutex s /\ rt_flags s' = rt_flags s.
Proof.
  intros R Hm. pose proof (owns_locked true _ _ _ (ready_owns _ _ R)) as O.
  destruct (search_from _ _ base O Hm) as (user & s1 & E & F & O1 & Hu).
  exists (set_locked false s1). split_and!; [ | by apply (ready_after s s1 l) | | exact (fr_flags _ _ F)].
  - unfold search_tables, uacpi_for_each_table.
    erewrite bind_run; [|rewrite online_run by apply R; apply (with_mutex_run _ _ s); [apply R| |exact (fr_mutex _ _ F)]].
    2: { rewrite (bind_run _ _ _ _ _ E). done. }
    cbn [is_ok negb]. rewrite Hu. change (found (set_locked true s) base l) with (found s base l).
    by destruct (found s base l) as [[i t]|].
  - unfold set_locked. cbn. rewrite (fr_mutex _ _ F). cbn.
    by destruct (ready_mutex _ _ R) as [->| ->].
Qed.

(** ** The reference definition, spelled out *)

Lemma found_Some s base l i t : found s base l = Some (i, t) ->
  (base <= i)%nat /\ l !! i = Some t /\ hit s t = true
  /\ forall j t', (base <= j < i)%nat -> l !! j = Some t' -> hit s t' = false.
Proof.
  unfold found. destruct (list_find _ _) as [[k u]|] eqn:E; [|done]. cbn [mbind option_bind]. intros [= <- <-].
  apply list_find_Some in E as (Hk & Hh & Hf). rewrite lookup_drop in Hk. split_and!; [lia | done | done|].
  intros j t' Hj Ht'. apply not_true_is_false. intros Hh'. apply (Hf (j - base)%nat t'); [|lia | done].
  rewrite lookup_drop. by replace (base + (j - base))%nat with j by lia.
Qed.

(** A table whose checksum is bad, before the one found, ends up invalid. *)
Lemma after_spoilt s base l i t : (base <= i)%nat -> l !! i = Some t -> spoilt s t = true ->
  (forall j t', (base <= j < i)%nat -> l !! j = Some t' -> hit s t' = false) ->
  after s base l !! i = Some (mark_invalid t).
Proof.
  intros Hi Ht Hs Hno. pose proof (lookup_lt_Some _ _ _ Ht) as Hlt. unfold after.
  assert (Hd : drop base l !! (i - base)%nat = Some t) by (rewrite lookup_drop; by replace (base + (i - base))%nat with i by lia).
  assert (Hseen : seen s t = mark_invalid t) by (unfold seen; by rewrite Hs).
  assert (Hlen : length (take base l) = base) by (rewrite length_take; lia).
  destruct (list_find _ _) as [[k u]|] eqn:E.
  - apply list_find_Some in E as (Hk & Hh & _). assert (Hki : (i - base < k)%nat).
    { destruct (decide (i - base < k)%nat) as [|Hge]; [done|]. exfalso.
      destruct (decide (k = i - base)%nat) as [->|Hne].
      - rewrite Hd in Hk. injection Hk as <-. unfold hit, spoilt in *.
        apply andb_true_iff in Hs as [_ Hs]. apply andb_true_iff in Hh as [_ Hh]. by rewrite Hh in Hs.
      - rewrite lookup_drop in Hk. rewrite (Hno (base + k)%nat u) in Hh; [done | lia | done]. }
    rewrite lookup_app_r by lia. rewrite Hlen. pose proof (lookup_lt_Some _ _ _ Hd) as Hl2.
    rewrite lookup_app_l by (rewrite length_map, length_take; lia).
    rewrite list_lookup_fmap, lookup_take_lt, Hd by lia. cbn. by rewrite Hseen.
  - rewrite lookup_app_r by lia. rewrite list_lookup_fmap, Hlen, Hd. cbn. by rewrite Hseen.
Qed.

(** ** A mutex left taken *)

Definition stuck s : Prop :=
  uacpi_table_subsystem_available s = true /\ table_mutex s = Some (InternalMutex true).

Lemma stuck_acquire s : stuck s -> acquire_table_mutex s = None.
Proof. intros [_ E]. unfold acquire_table_mutex. by rewrite E. Qed.

Lemma stuck_mutex {A} (failed : uacpi_status -> A) (body : M tables_state A) s : stuck s -> with_table_mutex failed body s = None.
Proof. intros Hs. unfold with_table_mutex. by apply bind_none, stuck_acquire. Qed.

Lemma invalid_ctl s l i t req : ready s l -> free_handle (table_mutex s) -> l !! i = Some t -> invalid t = true ->
  exists s1, table_ctl (Z.of_nat i) req s = Some ((UACPI_STATUS_INVALID_ARGUMENT, 0), s1) /\ stuck s1.
Proof.
  intros R Hm Ht Hi. pose proof (owns_locked true _ _ _ (ready_owns _ _ R)) as O. exists (set_locked true s).
  unfold table_ctl. rewrite online_run by apply R.
  rewrite (bind_run _ _ _ _ _ (acquire_run s (or_intror Hm))). cbn [is_ok negb].
  rewrite (bind_run (gets tables) _ _ (set_locked true s) (tables (set_locked true s))) by done.
  rewrite (at_rep _ _ _ (owns_rep _ _ _ O)) by (by eapply lookup_lt_Some).
  rewrite (bind_run _ _ _ _ _ (load_table_run _ _ _ _ _ O Ht)). fold (invalid t). rewrite Hi.
  split; [done|]. split; [apply R|]. unfold set_locked. cbn. by rewrite Hm.
Qed.
End Search.

(** C35: a search returns the first table that fits.  From the index [base] on,
    tables marked invalid and tables with another signature, OEM ID or OEM
    table ID are passed over; a table without references is mapped and its
    checksum verified, once; one with a fatally bad checksum is marked invalid
    and passed over.  The table found gains a reference, and the caller the
    address it is mapped at; no other table changes. *)
Theorem search_returns_first {Plat : Platform} (what : table_search) (s : tables_state)
    (l : list uacpi_installed_table) (base : nat) (R : ready s l) (Hm : mappable l) :
  exists s', search_tables (Z.of_nat base) what s
    = Some (match found what s base l with
            | Some (i, t) => (UACPI_STATUS_OK, Some (UacpiTable (ptr (taken t)) (Z.of_nat i)))
            | None => (UACPI_STATUS_NOT_FOUND, None) end, s')
  /\ ready s' (after what s base l)
  /\ forall i t, found what s base l = Some (i, t) ->
       (base <= i)%nat /\ l !! i = Some t /\ hit what s t = true
       /\ forall j t', (base <= j < i)%nat -> l !! j = Some t' -> hit what s t' = false.
Proof.
  destruct (search_tables_run what s l base R Hm) as (s' & E & R' & _).
  exists s'. split_and!; [done | done|]. intros i t. apply found_Some.
Qed.

(** Two tables: the first is broken, the second is not. *)
Definition host_table (b : list Z) (phys : Z) : uacpi_installed_table :=
  InstalledTable phys (parse_hdr b) 0 0 0 UACPI_TABLE_ORIGIN_HOST_PHYSICAL.
Definition two_tables : list uacpi_installed_table := [host_table broken_ssdt 0x2000; host_table sample_ssdt 0x1000].
Definition two_state (fl : Z) : tables_state :=
  (sample_state fl) <| tables := TableArray (map Some two_tables ++ replicate 14 None) 0 [] 0 2 |>.

Lemma two_ready fl : ready (two_state fl) two_tables.
Proof.
  split; [split|by right|done].
  - by split.
  - repeat (apply Forall_cons_2; [unfold table_ok; by split_and!|]). apply Forall_nil_2.
  - done.
Qed.

Lemma two_mappable : mappable (Plat := sample_machine) two_tables.
Proof. split; [done|]. by repeat (apply Forall_cons_2; [done|]); apply Forall_nil_2. Qed.

Lemma search_returns_first_witness :
  let what := SEARCH_TYPE_BY_ID (by_signature (cstr "SSDT")) in
  found (Plat := sample_machine) what (two_state UACPI_FLAG_BAD_CSUM_FATAL) 0 two_tables = Some (1%nat, host_table sample_ssdt 0x1000)
  /\ exists s', search_tables (Plat := sample_machine) (Z.of_nat 0) what (two_state UACPI_FLAG_BAD_CSUM_FATAL)
     = Some ((UACPI_STATUS_OK, Some (UacpiTable (pa_to_va 0x1000) 1)), s').
Proof.
  intros what.
  assert (E : found (Plat := sample_machine) what (two_state UACPI_FLAG_BAD_CSUM_FATAL) 0 two_tables
    = Some (1%nat, host_table sample_ssdt 0x1000)) by (vm_compute; reflexivity).
  split; [done|].
  destruct (search_returns_first (Plat := sample_machine) what (two_state UACPI_FLAG_BAD_CSUM_FATAL) two_tables 0
    (two_ready _) two_mappable) as (s' & Hs & _).
  rewrite E in Hs. exists s'. exact Hs.
Defined.

(** C38: once a search has found a table's checksum fatally bad, to ask for
    that table by its index takes the mutex of the tables for good:
    [table_ctl] returns an error without releasing it, and every later
    request, search and installation waits for ever. *)
Theorem bad_checksum_blocks_tables {Plat : Platform} {Alloc : Allocator} (what : table_search) (s : tables_state)
    (l : list uacpi_installed_table) (base i : nat) (t : uacpi_installed_table)
    (R : ready s l) (Hf : free_handle (table_mutex s)) (Hm : mappable l)
    (Hi : (base <= i)%nat) (Ht : l !! i = Some t) (Hs : spoilt what s t = true)
    (Hno : forall j t', (base <= j < i)%nat -> l !! j = Some t' -> hit what s t' = false) :
  exists r s1 s2, search_tables (Z.of_nat base) what s = Some (r, s1)
  /\ uacpi_table_ref (UacpiTable 0 (Z.of_nat i)) s1 = Some (UACPI_STATUS_INVALID_ARGUMENT, s2)
  /\ (forall idx req, table_ctl idx req s2 = None)
  /\ (forall b w, search_tables b w s2 = None)
  /\ (forall depth phys want, uacpi_table_install_physical depth phys want s2 = None).
Proof.
  destruct (search_tables_run what s l base R Hm) as (s1 & E & R1 & Em & _).
  assert (Hi1 : invalid (mark_invalid t) = true).
  { rewrite invalid_bit. change (flags (mark_invalid t)) with (Z.lor (flags t) UACPI_TABLE_INVALID).
    rewrite Z.lor_spec. by rewrite orb_true_r. }
  destruct (invalid_ctl s1 _ i _ get_request R1 (eq_trans Em Hf) (after_spoilt what s base l i t Hi Ht Hs Hno) Hi1) as (s2 & E2 & Hst).
  eexists _, s1, s2. split; [exact E|]. split; [unfold uacpi_table_ref, status_of; cbn [index]; by rewrite (bind_run _ _ _ _ _ E2)|].
  assert (Honline : forall A (m : A) (body : M tables_state A), body s2 = None -> ENSURE_TABLES_ONLINE m body s2 = None)
    by (intros A m body Hb; by rewrite online_run by apply Hst).
  split_and!; intros; apply Honline || apply bind_none, Honline;
    first [by apply bind_none, stuck_acquire | by apply stuck_mutex].
Qed.

Lemma bad_checksum_blocks_tables_witness :
  let what := SEARCH_TYPE_BY_ID (by_signature (cstr "SSDT")) in
  exists r s1 s2, search_tables (Plat := sample_machine) (Z.of_nat 0) what (two_state UACPI_FLAG_BAD_CSUM_FATAL) = Some (r, s1)
  /\ uacpi_table_ref (Plat := sample_machine) (UacpiTable 0 (Z.of_nat 0)) s1 = Some (UACPI_STATUS_INVALID_ARGUMENT, s2)
  /\ (forall b w, search_tables (Plat := sample_machine) b w s2 = None).
Proof.
  intros what. destruct (bad_checksum_blocks_tables (Plat := sample_machine) (Alloc := bump) what
    (two_state UACPI_FLAG_BAD_CSUM_FATAL) two_tables 0 0 (host_table broken_ssdt 0x2000) (two_ready _) eq_refl two_mappable
    (le_n 0) eq_refl ltac:(vm_compute; reflexivity) ltac:(intros; lia)) as (r & s1 & s2 & E1 & E2 & _ & E3 & _).
  exists r, s1, s2. split; [exact E1 | split; [exact E2 | exact E3]].
Defined.
