(* ===== verification/InstallSpec.v ===== *)
(** * Installing tables: [table_array_alloc], [verify_and_install_table] and what is built on them *)
From S2P Require Import Prelude Status KernelSync Alloc Vmm BitIo FieldIo Gas Fadt Tables TablesSpec.

Section Install.
Context {Plat : Platform} {Bytes : LawfulPlatform} {Alloc : Allocator} {Lawful : LawfulAllocator}.
Implicit Types (s : tables_state) (l : list uacpi_installed_table) (extra : list (Z * Z)).

(** ** Room for a table *)

(** The block of the array is on the heap, once early access is over. *)
Definition heap_ok s : Prop :=
  early_table_access s = true \/ dynamic_storage (tables s) = 0 /\ dynamic_capacity (tables s) = 0
  \/ dynamic_storage (tables s) <> 0 /\ dynamic_storage (tables s) ∈ live (theap s).

Lemma frame_heap_ok s s' : frame s s' -> heap_ok s -> heap_ok s'.
Proof. intros F. unfold heap_ok. by rewrite (fr_early _ _ F), (fr_storage _ _ F), (fr_capacity _ _ F), (fr_heap _ _ F). Qed.

(** What an installation leaves alone. *)
Record kept s s' : Prop := {
  kept_early : early_table_access s' = early_table_access s;
  kept_handler : installation_handler s' = installation_handler s;
  kept_mutex : table_mutex s' = table_mutex s;
  kept_flags : rt_flags s' = rt_flags s;
  kept_level : init_level s' = init_level s;
}.
#[export] Instance kept_preorder : PreOrder kept.
Proof. split; [intros s; by split|]. intros s1 s2 s3 [] []. split; congruence. Qed.
Lemma frame_kept s s' : frame s s' -> kept s s'.
Proof. intros []. by split. Qed.

(** A full array grows by half, and by one cell at least. *)
Lemma grown_capacity a cap : cap = dynamic_capacity a -> 0 <= cap < 2 ^ 32 ->
  u64 (grown_bytes a) = grown_bytes a /\ cap < grown_bytes a / SIZEOF_INSTALLED_TABLE < 2 ^ 34.
Proof.
  intros -> Hc. unfold grown_bytes, SIZEOF_INSTALLED_TABLE, table_array_inline_capacity, UACPI_STATIC_TABLE_ARRAY_LEN.
  revert Hc. generalize (dynamic_capacity a). intros c Hc.
  destruct (Z.eqb_spec c 0) as [->|Hz]; [done|].
  destruct (Z.eqb_spec (c / 2 * 64) 0); (split; [apply u64_small|]); Z.to_euclidean_division_equations; lia.
Qed.

Lemma all_cells_grown a l n : rep a l -> dynamic_capacity a <= n -> n < 2 ^ 34 ->
  Z.of_nat (length l) = 16 + dynamic_capacity a ->
  let cells := replicate (Z.to_nat n) None in
  forall p, rep (TableArray (inline_storage a) p
    (take (Z.to_nat (dynamic_capacity a)) (dynamic_cells a) ++ drop (Z.to_nat (dynamic_capacity a)) cells) n
    (size_including_inline a)) l.
Proof.
  intros R Hn Hb Hl cells p. pose proof (rep_dynamic _ _ R) as Hd. pose proof (rep_inline _ _ R) as Hi.
  rewrite take_ge by lia. split; cbn; try apply R.
  - rewrite length_app, length_drop. subst cells. rewrite length_replicate. lia.
  - pose proof (rep_cells _ _ R) as E. unfold all_cells in *. cbn. rewrite app_assoc.
    rewrite take_app_le by (rewrite length_app; lia). exact E.
  - done.
Qed.

(** The array after growing: the same tables, one cell more at least. *)
Lemma grow_run s l extra : owns s l extra -> early_table_access s = false -> heap_ok s ->
  Z.of_nat (length l) = 16 + dynamic_capacity (tables s) ->
  exists (ok : bool) s', grow_array (dynamic_capacity (tables s)) s = Some (ok, s')
    /\ owns s' l extra /\ kept s s' /\ heap_ok s' /\ fadt s' = fadt s
    /\ (ok = true -> (length l < length (all_cells (tables s')))%nat).
Proof.
  intros O He Hh Hfull. pose proof (owns_rep _ _ _ O) as R. pose proof (rep_bound _ _ R). pose proof (rep_dynamic _ _ R) as Hd.
  destruct (grown_capacity (tables s) _ eq_refl) as [E64 Hcap]; [lia|].
  unfold grow_array, uacpi_kernel_alloc. mstep. rewrite E64.
  destruct (malloc (grown_bytes (tables s)) (theap s)) as [p h] eqn:Em.
  destruct (Z.eqb_spec p 0) as [->|Hp].
  { eexists false, _. split; [done|]. split; [by apply (owns_same s)|]. split; [by split|]. split; [|done].
    destruct Hh as [?|[?|[? Hin]]]; [by left | by right; left | right; right].
    cbn. rewrite (malloc_null _ _ _ Em). by split. }
  pose proof (malloc_live _ _ _ _ Em Hp) as Hlive. destruct (malloc_fresh _ _ _ _ Em Hp) as [_ Hfresh].
  set (h' := Heap (live h ∖ {[dynamic_storage (tables s)]}) (calls h)).
  assert (Hfree : exists h2, free (dynamic_storage (tables s)) h = Some h2 /\ p ∈ live h2).
  { destruct (Z.eqb_spec (dynamic_storage (tables s)) 0) as [E0|E0].
    - exists h. rewrite E0. split; [done | set_solver].
    - destruct Hh as [?|[[? _]|[_ Hin]]]; [congruence | done|]. eexists. split; [apply free_live; [done | set_solver]|].
      cbn. set_solver. }
  destruct Hfree as (h2 & Ef & Hin). unfold uacpi_free. mstep. cbn. rewrite Ef.
  set (n := grown_bytes (tables s) / SIZEOF_INSTALLED_TABLE) in *.
  assert (Ecells : (if dynamic_storage (tables s) =? 0 then replicate (Z.to_nat n) None
      else take (Z.to_nat (dynamic_capacity (tables s))) (dynamic_cells (tables s))
           ++ drop (Z.to_nat (dynamic_capacity (tables s))) (replicate (Z.to_nat n) None))
    = take (Z.to_nat (dynamic_capacity (tables s))) (dynamic_cells (tables s))
           ++ drop (Z.to_nat (dynamic_capacity (tables s))) (replicate (Z.to_nat n) None)).
  { destruct (Z.eqb_spec (dynamic_storage (tables s)) 0) as [E0|]; [|done].
    by destruct Hh as [?|[[_ Ec]|[? _]]]; [congruence | rewrite Ec | done]. }
  rewrite Ecells. eexists true, _. split; [done|].
  pose proof (all_cells_grown (tables s) l n R ltac:(lia) ltac:(lia) Hfull p) as R'.
  split; [split; [exact R' | apply O | apply O]|]. split; [by split|]. split; [by right; right; split|]. split; [done|].
  intros _. pose proof (rep_inline _ _ R). unfold all_cells. cbn.
  rewrite !length_app, length_take, length_drop, length_replicate. lia.
Qed.

(** ** A new table *)

Definition bumped s : tables_state :=
  s <| tables := (tables s) <| size_including_inline := u64 (size_including_inline (tables s) + 1) |> |>.

Lemma store_new s l extra t : owns s l extra -> (length l < length (all_cells (tables s)))%nat ->
  Z.of_nat (length l) + 1 < 2 ^ 32 -> table_ok t -> reference_count t = 0 ->
  store_table (slot_of (length l)) t (bumped s) = Some (tt, put_table (length l) t (bumped s))
  /\ owns (put_table (length l) t (bumped s)) (l ++ [t]) extra.
Proof.
  intros [R F P] Hl Hb Hok Hz. split.
  - unfold store_table. rewrite slot_exists_at; [done | exact (rep_inline _ _ R) | exact Hl].
  - split.
    + exact (push_rep _ _ t R Hl Hb).
    + apply Forall_app. by split; [|constructor].
    + change (mappings (put_table (length l) t (bumped s))) with (mappings s). rewrite P. unfold owned.
      rewrite map_app, concat_app. cbn [map concat]. by rewrite owned_zero, !app_nil_r.
Qed.

Lemma kept_bumped s : kept s (bumped s).
Proof. by split. Qed.

Lemma array_alloc_run s l extra : owns s l extra -> heap_ok s ->
  (early_table_access s = true -> Z.of_nat (length l) < 16 + dynamic_capacity (tables s)) ->
  Z.of_nat (length l) + 1 < 2 ^ 32 ->
  exists r s1 s', table_array_alloc s = Some (r, s') /\ owns s1 l extra /\ kept s s1 /\ heap_ok s1 /\ fadt s1 = fadt s
    /\ (r = None /\ s' = s1 \/ r = Some (slot_of (length l)) /\ s' = bumped s1
        /\ (length l < length (all_cells (tables s1)))%nat).
Proof.
  intros O Hh Hearly Hb. pose proof (owns_rep _ _ _ O) as R. pose proof (rep_inline _ _ R) as Hi.
  pose proof (rep_dynamic _ _ R) as Hd. pose proof (length_all_cells _ _ R) as Hc.
  unfold all_cells in Hc. rewrite length_app in Hc.
  unfold table_array_alloc. rewrite (bind_run (gets tables) _ s s (tables s)) by done.
  rewrite (rep_size _ _ R). unfold table_array_inline_capacity, UACPI_STATIC_TABLE_ARRAY_LEN.
  destruct (Z.leb_spec 16 (Z.of_nat (length l))) as [H16|H16].
  - assert (Hslot : slot_of (length l) = Dynamic (Z.of_nat (length l) - 16)) by (unfold slot_of; case_decide; [lia | done]).
    destruct (Z.eqb_spec (Z.of_nat (length l) - 16) (dynamic_capacity (tables s))) as [E|E].
    + destruct (early_table_access s) eqn:He; [specialize (Hearly eq_refl); lia|].
      destruct (grow_run s l extra O He Hh) as (ok & s1 & Eg & O1 & K1 & H1 & Ef & Hroom); [lia|]. rewrite E.
      rewrite (bind_run _ _ _ _ _ Eg). destruct ok; cbn [negb].
      * exists (Some (slot_of (length l))), s1, (bumped s1). rewrite Hslot, E. split; [done|].
        split_and!; try done. right. split_and!; try done. by apply Hroom.
      * exists None, s1, s1. split_and!; try done. by left.
    + rewrite bind_ret_l. cbn [negb]. exists (Some (slot_of (length l))), s, (bumped s). rewrite Hslot. split; [done|].
      split_and!; try done. right. split_and!; try done. unfold all_cells. rewrite length_app. lia.
  - assert (Hslot : slot_of (length l) = Inline (Z.of_nat (length l))) by (unfold slot_of; case_decide; [done | lia]).
    exists (Some (slot_of (length l))), s, (bumped s). rewrite Hslot. split; [done|].
    split_and!; try done. right. split_and!; try done. unfold all_cells. rewrite length_app. lia.
Qed.

(** [table_alloc], then the store of the new table. *)
Lemma table_alloc_run s l extra : owns s l extra -> heap_ok s -> Z.of_nat (length l) + 1 < 2 ^ 32 ->
  exists r s', table_alloc s = Some (r, s') /\ kept s s' /\ heap_ok s' /\ fadt s' = fadt s
    /\ (r = (UACPI_STATUS_OUT_OF_MEMORY, None) /\ owns s' l extra
        \/ r = (UACPI_STATUS_OK, Some (slot_of (length l), Z.of_nat (length l)))
           /\ forall t, table_ok t -> reference_count t = 0 ->
                store_table (slot_of (length l)) t s' = Some (tt, put_table (length l) t s')
                /\ owns (put_table (length l) t s') (l ++ [t]) extra).
Proof.
  intros O Hh Hb. pose proof (owns_rep _ _ _ O) as R. unfold table_alloc.
  rewrite (bind_run (gets id) _ s s s) by done. unfold table_array_size, table_array_capacity.
  rewrite (rep_size _ _ R). unfold table_array_inline_capacity, UACPI_STATIC_TABLE_ARRAY_LEN.
  destruct (early_table_access s && _) eqn:Hfull.
  { exists (UACPI_STATUS_OUT_OF_MEMORY, None), s. split_and!; try done. by left. }
  destruct (array_alloc_run s l extra O Hh) as (r & s1 & s' & E & O1 & K1 & H1 & Ef & HR); [|done|].
  { intros He. rewrite He in Hfull. cbn [andb] in Hfull. zify_bool.
    pose proof (length_all_cells _ _ R) as Hc. unfold all_cells in Hc. rewrite length_app in Hc.
    pose proof (rep_inline _ _ R). pose proof (rep_dynamic _ _ R). lia. }
  rewrite (bind_run _ _ _ _ _ E). destruct HR as [[-> ->]|(-> & -> & Hroom)].
  { exists (UACPI_STATUS_OUT_OF_MEMORY, None), s1. split_and!; try done. by left. }
  pose proof (rep_size _ _ (owns_rep _ _ _ O1)) as Hs1.
  exists (UACPI_STATUS_OK, Some (slot_of (length l), Z.of_nat (length l))), (bumped s1).
  split.
  { mstep. unfold bumped, table_array_size. cbn. rewrite Hs1.
    rewrite (u64_small (_ + 1)) by lia. rewrite u64_small by lia.
    by rewrite Z.add_simpl_r. }
  split_and!; [by etrans; [exact K1 | apply kept_bumped] | done | done|]. right. split; [done|].
  intros t Ht Hz. by apply store_new.
Qed.

(** ** Safe operations

    [safe P need k m]: where the copy of the FADT satisfies [P] and the
    mappings [need] are live, [m] returns; it appends at most [k] tables,
    gives back every mapping it took but those of the references it counted,
    and keeps the statics.  [quiet] operations append nothing and leave the
    copy alone too. *)

(** The handler lets tables pass or turns them away. *)
Definition benign s : Prop :=
  forall h va, installation_handler s = Some h ->
    fst (h va) = UACPI_TABLE_INSTALLATION_DISPOSITON_ALLOW \/ fst (h va) = UACPI_TABLE_INSTALLATION_DISPOSITON_DENY.

Context (fl : Z).

(** A bad checksum is not fatal. *)
Definition lenient : Prop := Z.land fl UACPI_FLAG_BAD_CSUM_FATAL <> UACPI_FLAG_BAD_CSUM_FATAL.

Record inv s l extra : Prop := {
  inv_owns : owns s l extra;
  inv_heap : heap_ok s;
  inv_benign : benign s;
  inv_flags : rt_flags s = fl;
  inv_calm : lenient -> calm l;
}.

Lemma inv_grow s s' l extra l' extra' : inv s l extra -> kept s s' -> owns s' l' extra' -> heap_ok s' ->
  (calm l -> calm l') -> inv s' l' extra'.
Proof.
  intros [O Hh B F C] K O' Hh' C'. split; try done; [|by rewrite (kept_flags _ _ K) | auto].
  unfold benign. by rewrite (kept_handler _ _ K).
Qed.

Lemma inv_kept s s' l extra extra' : inv s l extra -> kept s s' -> owns s' l extra' -> heap_ok s' ->
  inv s' l extra'.
Proof. intros. by eapply inv_grow. Qed.

Lemma inv_frame s s' l extra extra' : inv s l extra -> frame s s' -> owns s' l extra' -> inv s' l extra'.
Proof.
  intros I F O'. eapply inv_kept; [done | by apply frame_kept | done | eapply frame_heap_ok; [done | apply I]].
Qed.

Definition any : list Z -> Prop := fun _ => True.

Definition safe {A} (P : list Z -> Prop) (need : list (Z * Z)) (k : nat) (m : M tables_state A) : Prop :=
  forall s l extra, inv s l (need ++ extra) -> P (fadt s) -> Z.of_nat (length l) + Z.of_nat k < 2 ^ 32 ->
  exists a s' l', m s = Some (a, s') /\ inv s' l' (need ++ extra) /\ kept s s'
    /\ l `prefix_of` l' /\ (length l' <= length l + k)%nat.

Definition quiet {A} (need : list (Z * Z)) (m : M tables_state A) (Q : A -> Prop) : Prop :=
  forall s l extra, inv s l (need ++ extra) ->
  exists a s', m s = Some (a, s') /\ Q a /\ frame s s' /\ inv s' l (need ++ extra).

Lemma quiet_ret {A} need (a : A) (Q : A -> Prop) : Q a -> quiet need (mret a) Q.
Proof. intros HQ s l extra I. by exists a, s. Qed.

Lemma quiet_bind {A B} need (m : M tables_state A) (f : A -> M tables_state B) Q R :
  quiet need m Q -> (forall a, Q a -> quiet need (f a) R) -> quiet need (m ≫= f) R.
Proof.
  intros Hm Hf s l extra I. destruct (Hm s l extra I) as (a & s1 & E1 & HQ & F1 & I1).
  destruct (Hf a HQ s1 l extra I1) as (b & s2 & E2 & HR & F2 & I2).
  exists b, s2. rewrite (bind_run _ _ _ _ _ E1). split_and!; try done. by etrans.
Qed.

Lemma safe_quiet {A B} P need k (m : M tables_state A) (f : A -> M tables_state B) Q :
  quiet need m Q -> (forall a, Q a -> safe P need k (f a)) -> safe P need k (m ≫= f).
Proof.
  intros Hm Hf s l extra I HP Hb. destruct (Hm s l extra I) as (a & s1 & E1 & HQ & F1 & I1).
  destruct (Hf a HQ s1 l extra I1) as (b & s2 & l2 & E2 & I2 & K2 & P2 & L2); [by rewrite (fr_fadt _ _ F1) | done|].
  exists b, s2, l2. rewrite (bind_run _ _ _ _ _ E1). split_and!; try done.
  etrans; [by apply frame_kept | done].
Qed.

Lemma install_bind {A B} P need k1 k2 (m : M tables_state A) (f : A -> M tables_state B) :
  safe P need k1 m -> (forall a, safe any need k2 (f a)) -> safe P need (k1 + k2) (m ≫= f).
Proof.
  intros Hm Hf s l extra I HP Hb. destruct (Hm s l extra I HP) as (a & s1 & l1 & E1 & I1 & K1 & P1 & L1); [lia|].
  destruct (Hf a s1 l1 extra I1) as (b & s2 & l2 & E2 & I2 & K2 & P2 & L2); [done | lia|].
  exists b, s2, l2. rewrite (bind_run _ _ _ _ _ E1). split_and!; try done; [by etrans | by etrans | lia].
Qed.

Lemma install_ret {A} P need k (a : A) : safe P need k (mret a).
Proof. intros s l extra I HP Hb. exists a, s, l. split_and!; try done. lia. Qed.

Lemma install_weaken {A} (P P' : list Z -> Prop) need k k' (m : M tables_state A) :
  safe P need k m -> (forall b, P' b -> P b) -> (k <= k')%nat -> safe P' need k' m.
Proof.
  intros Hm HP Hk s l extra I HP' Hb. destruct (Hm s l extra I) as (a & s1 & l1 & E1 & I1 & K1 & P1 & L1); [auto | lia|].
  exists a, s1, l1. split_and!; try done. lia.
Qed.

(** An operation on other parts of the state. *)
Definition elsewhere (f : tables_state -> tables_state) : Prop :=
  forall s, tables (f s) = tables s /\ mappings (f s) = mappings s /\ theap (f s) = theap s /\ kept s (f s).

Lemma install_modify P need f : elsewhere f -> safe P need 0 (modify f).
Proof.
  intros Hf s l extra I HP Hb. destruct (Hf s) as (Et & Em & Eh & K). exists tt, (f s), l.
  split_and!; try done; [|lia]. eapply inv_kept; [exact I | done | by apply (owns_same s); [apply I|..]|].
  destruct I as [_ Hh _ _ _]. unfold heap_ok in *. by rewrite Et, Eh, (kept_early _ _ K).
Qed.

(** In a larger scope of mappings. *)
Lemma safe_scope {A} P need m k (op : M tables_state A) : safe P need k op -> safe P (m :: need) k op.
Proof.
  intros Hm s l extra I HP Hb. destruct (Hm s l (m :: extra)) as (a & s1 & l1 & ? & I1 & ?); [|done..|].
  - eapply inv_frame; [exact I | done|]. destruct (inv_owns _ _ _ I) as [R F Hp].
    split; try done. rewrite Hp. cbn [app]. by rewrite <- Permutation_middle.
  - exists a, s1, l1. split; [done|]. split; [|done]. eapply inv_frame; [exact I1 | done|].
    destruct (inv_owns _ _ _ I1) as [R F Hp]. split; try done. rewrite Hp. cbn [app]. by rewrite <- Permutation_middle.
Qed.

(** Using a mapping of one's own, for as long as it lasts. *)
Lemma safe_mapping {A} P need k a n (failed : M tables_state A) (f : Z -> M tables_state A) :
  safe P need k failed ->
  (pa_to_va a <> 0 -> safe P ((pa_to_va a, n) :: need) k (f (pa_to_va a))) ->
  safe P need k (p ← kernel_map a n; if p =? 0 then failed else r ← f p; _ ← kernel_unmap p n; mret r).
Proof.
  intros Hfail Hf s l extra I HP Hb. destruct (map_run s l _ a n (inv_owns _ _ _ I)) as (p & s1 & E & F & Et & Hp).
  rewrite (bind_run _ _ _ _ _ E). pose proof (fr_fadt _ _ F) as Hfadt.
  destruct Hp as [(-> & _ & O1)|(Hn & -> & O1)]; pose proof (inv_frame _ _ _ _ _ I F O1) as I1.
  - destruct (Hfail s1 l extra I1) as (r & s2 & l2 & E2 & I2 & K2 & P2 & L2); [by rewrite Hfadt | done|].
    exists r, s2, l2. split_and!; try done. etrans; [by apply frame_kept | done].
  - rewrite (proj2 (Z.eqb_neq _ 0)) by done.
    destruct (Hf Hn s1 l extra I1) as (r & s2 & l2 & E2 & I2 & K2 & P2 & L2); [by rewrite Hfadt | done|].
    destruct (unmap_run s2 l2 _ _ _ (inv_owns _ _ _ I2)) as (s3 & E3 & F3 & _ & O3).
    pose proof (inv_frame _ _ _ _ _ I2 F3 O3) as I3.
    exists r, s3, l2. rewrite (bind_run _ _ _ _ _ E2), (bind_run _ _ _ _ _ E3). split_and!; try done.
    etrans; [by apply frame_kept | etrans; [done | by apply frame_kept]].
Qed.

(** ** Reading *)

Lemma quiet_read need p n va k : (p, n) ∈ need -> p <= va -> va + Z.of_nat k <= p + n ->
  quiet need (read_bytes k va) (fun b => b = bytes_at va k).
Proof.
  intros Hin Hl Hu s l extra I. exists (bytes_at va k), s. split; [|done].
  eapply read_bytes_run; [|done..]. eapply owns_mapped; [apply I|]. by apply elem_of_app; left.
Qed.

Lemma quiet_verify need p n : (p, n) ∈ need -> 0 <= n -> quiet need (uacpi_verify_table_checksum p n) (fun _ => True).
Proof.
  intros Hin Hn s l extra I. eexists _, s. split; [|done].
  apply verify_run; [|done]. eapply owns_mapped; [apply I|]. by apply elem_of_app; left.
Qed.

(** ** The FADT *)

(** Where the DSDT is, by the FADT at [va] over the copy [fb]. *)
Definition fadt_bytes (va : Z) : list Z :=
  bytes_at va (Z.to_nat (Z.min (Z.of_nat SIZEOF_FADT) (le (bytes_at (va + 4) 4)))).
Definition dsdt_of (va : Z) (fb : list Z) : Z :=
  fld 8 x_dsdt_at (prefer_x_dsdt (zero_reserved (fadt_ensure_correct_revision (copy_fadt (fadt_bytes va) fb)))).

Lemma load_fadt_run s p n : (p, n) ∈ mappings s -> 8 <= n -> le (bytes_at (p + 4) 4) <= n ->
  exists f, elsewhere f /\ load_fadt p s = Some (dsdt_of p (fadt s), f s).
Proof.
  intros Hin Hn Hle. unfold load_fadt.
  rewrite (bind_run _ _ _ _ _ (read_bytes_run s p n (p + 4) 4 Hin ltac:(lia) ltac:(lia))).
  rewrite (bind_run _ _ s s (fadt_bytes p)) by (apply (read_bytes_run s p n); [done | lia | lia]).
  set (upd := fun (g : list Z -> list Z) (s : tables_state) => s <| fadt := g (fadt s) |>).
  exists (fun s => upd prefer_x_dsdt (upd zero_reserved (upd fadt_ensure_correct_revision
    ((fun s => s <| is_hardware_reduced := has_flag (fld 4 flags_at (fadt s)) ACPI_HW_REDUCED_ACPI |>)
       (upd (copy_fadt (fadt_bytes p)) s))))).
  split; [intros s0; by split_and! | reflexivity].
Qed.

Section Nested.
Context (ip : Z -> uacpi_table_origin -> option (list Z) -> bool -> M tables_state installed).
Context (iv : Z -> uacpi_table_origin -> bool -> M tables_state installed).
Context (fine : Z -> Prop).
Context (ip_safe : forall need d, fine d ->
  safe any need 1 (ip d UACPI_TABLE_ORIGIN_FIRMWARE_PHYSICAL (Some ACPI_DSDT_SIGNATURE) false)).

Lemma complete_fadt_safe need : safe any need 0 complete_fadt.
Proof.
  apply (install_bind any need 0 0); [by apply install_modify; intros s; by split_and!|]. intros _.
  apply (safe_quiet any need 0 _ _ (fun _ => True)); [intros s l extra I; by exists (is_hardware_reduced s), s|].
  intros [] _; [apply install_ret|]. apply (install_bind any need 0 0); [apply install_modify; intros s; by split_and!|].
  intros _. apply install_modify. intros s. by split_and!.
Qed.

Lemma initialize_fadt_safe need p n : (p, n) ∈ need -> 8 <= n -> le (bytes_at (p + 4) 4) <= n ->
  safe (fun fb => truthy (dsdt_of p fb) = true -> fine (dsdt_of p fb)) need 1 (initialize_fadt ip p).
Proof.
  intros Hin Hn Hle s l extra I HP Hb.
  assert (Hm : (p, n) ∈ mappings s) by (eapply owns_mapped; [apply I | by apply elem_of_app; left]).
  destruct (load_fadt_run s p n Hm Hn Hle) as (f & Hf & E). unfold initialize_fadt.
  rewrite (bind_run _ _ _ _ _ E). set (d := dsdt_of p (fadt s)) in *.
  destruct (install_modify any need f Hf s l extra I) as (u & s1 & l1 & E1 & I1 & K1 & P1 & L1); [done | lia|].
  injection E1 as <- <-.
  set (rest := fun ret : uacpi_status => _ : M tables_state uacpi_status).
  assert (Hrest : forall ret, safe any need 0 (rest ret)).
  { intros ret. subst rest. cbn beta. destruct (negb _); [apply install_ret|].
    apply (install_bind any need 0 0); [apply complete_fadt_safe|]. intros _. apply install_ret. }
  assert (Hcall : safe any need 1 (if truthy d
      then status_of (ip d UACPI_TABLE_ORIGIN_FIRMWARE_PHYSICAL (Some ACPI_DSDT_SIGNATURE) false)
      else mret UACPI_STATUS_OK)).
  { destruct (truthy d) eqn:Hd; [|apply install_ret]. apply (install_bind any need 1 0); [by apply ip_safe; auto|].
    intros [ret out]. apply install_ret. }
  destruct (install_bind any need 1 0 _ rest Hcall Hrest (f s) l1 extra I1) as (r & s2 & l2 & E2 & I2 & K2 & P2 & L2); [done | lia|].
  exists r, s2, l2. split_and!; try done; [by etrans | by etrans | lia].
Qed.

(** ** Validation *)

Definition is_fadt (b : list Z) : bool := uacpi_signatures_match b ACPI_FADT_SIGNATURE.
Definition nested_tables (b : list Z) : nat := if is_fadt b then 1 else 0.
Definition dsdt_fine (b : list Z) (va : Z) (fb : list Z) : Prop :=
  is_fadt b = true -> truthy (dsdt_of va fb) = true -> fine (dsdt_of va fb).

(** The header and the length field in memory agree, on a table that can
    hold them. *)
Definition sound_length (b : list Z) (va : Z) : Prop :=
  is_fadt b = true -> 8 <= hdr_length (parse_hdr b) /\ le (bytes_at (va + 4) 4) <= hdr_length (parse_hdr b).

Lemma check_mapped need b p : (p, hdr_length (parse_hdr b)) ∈ need -> 0 <= hdr_length (parse_hdr b) ->
  sound_length b p ->
  safe (dsdt_fine b p) need (nested_tables b) (ret ← uacpi_verify_table_checksum p (hdr_length (parse_hdr b));
    if is_ok ret && uacpi_signatures_match b ACPI_FADT_SIGNATURE then initialize_fadt ip p else mret ret).
Proof.
  intros Hin Hn Hs. apply (safe_quiet _ need _ _ _ (fun _ => True)); [by apply quiet_verify|].
  intros ret _. fold (is_fadt b). destruct (is_ok ret && is_fadt b) eqn:Hc; [|apply install_ret].
  apply andb_true_iff in Hc as [_ Hf]. destruct (Hs Hf) as [H8 Hle].
  eapply install_weaken; [by apply (initialize_fadt_safe need p _ Hin) | | unfold nested_tables; by rewrite Hf].
  intros fb HP. exact (HP Hf).
Qed.

Lemma safe_eq {A} P need k (m m' : M tables_state A) : (forall s, m s = m' s) -> safe P need k m -> safe P need k m'.
Proof. intros E Hm s l extra I HP Hb. rewrite <- E. by apply Hm. Qed.

Lemma validate_safe need b phys virt : 0 <= hdr_length (parse_hdr b) ->
  (virt <> 0 -> (virt, hdr_length (parse_hdr b)) ∈ need) ->
  let va := if virt =? 0 then pa_to_va phys else virt in
  sound_length b va -> safe (dsdt_fine b va) need (nested_tables b) (validate_table ip b phys virt).
Proof.
  intros Hn Hv va Hs. unfold validate_table. subst va. destruct (Z.eqb_spec virt 0) as [->|Hz].
  - eapply safe_eq; [|apply (safe_mapping _ need _ phys (hdr_length (parse_hdr b)) (mret UACPI_STATUS_MAPPING_FAILED)
      (fun p => ret ← uacpi_verify_table_checksum p (hdr_length (parse_hdr b));
         if is_ok ret && uacpi_signatures_match b ACPI_FADT_SIGNATURE then initialize_fadt ip p else mret ret));
      [apply install_ret | intros _; apply check_mapped; [apply list_elem_of_here | done | done]]].
    intros s. mstep. destruct (kernel_map _ _ s) as [[p s1]|]; [|done]. destruct (p =? 0); [done|].
    by destruct (uacpi_verify_table_checksum _ _ _) as [[r s2]|].
  - eapply safe_eq; [|by apply (check_mapped need b virt); auto].
    intros s. mstep. rewrite (proj2 (Z.eqb_neq _ 0)) by done.
    destruct (uacpi_verify_table_checksum _ _ _) as [[r s2]|]; [|done].
    destruct (is_ok r && _); [|done]. by destruct (initialize_fadt _ _ _) as [[r2 s3]|].
Qed.

(** ** Placing a validated table *)

Definition mine (b : list Z) (virt : Z) : list (Z * Z) :=
  if virt =? 0 then [] else [(virt, hdr_length (parse_hdr b))].

Definition new_table (b : list Z) (phys virt f : Z) (o : uacpi_table_origin) (n : Z) : uacpi_installed_table :=
  InstalledTable phys (parse_hdr b) virt n f o.

Lemma new_table_ok b phys virt f o n : 0 <= hdr_length (parse_hdr b) < 2 ^ 32 -> 0 <= f -> 0 <= n <= 1 ->
  is_physical o = true -> table_ok (new_table b phys virt f o n).
Proof.
  intros Hn Hf H1 Ho. unfold table_ok.
  change (0 <= n <= 0xFFFF /\ 0 <= hdr_length (parse_hdr b) < 2 ^ 32 /\ 0 <= f
    /\ o <> UACPI_TABLE_ORIGIN_FIRMWARE_VIRTUAL). split_and!; try lia. by intros ->.
Qed.

Definition place (b : list Z) (phys virt f : Z) (o : uacpi_table_origin) (want : bool) : M tables_state installed :=
  '(ret, slot) ← table_alloc;
  match slot with
  | None => mret (ret, None)
  | Some (p, idx) =>
      _ ← store_table p (new_table b phys virt f o 0);
      if negb want then mret (UACPI_STATUS_OK, None)
      else
        _ ← update_table p (fun t => t <| reference_count := u16 (reference_count t + 1) |>);
        mret (UACPI_STATUS_OK, Some (UacpiTable virt idx))
  end.

Lemma place_run b phys virt f o want s l extra : 0 <= hdr_length (parse_hdr b) < 2 ^ 32 ->
  0 <= f -> has_flag f UACPI_TABLE_INVALID = false ->
  is_physical o = true -> (want = true -> virt <> 0) ->
  inv s l (mine b virt ++ extra) -> Z.of_nat (length l) + 1 < 2 ^ 32 ->
  exists r s' l', place b phys virt f o want s = Some (r, s') /\ kept s s'
    /\ inv s' l' ((if is_ok (fst r) && want then [] else mine b virt) ++ extra)
    /\ (is_ok (fst r) = false /\ l' = l /\ snd r = None
        \/ is_ok (fst r) = true
           /\ l' = l ++ [new_table b phys virt f o (if want then 1 else 0)]
           /\ snd r = if want then Some (UacpiTable virt (Z.of_nat (length l))) else None).
Proof.
  intros Hn Hf Hv Ho Hw I Hb. unfold place.
  destruct (table_alloc_run s l _ (inv_owns _ _ _ I) (inv_heap _ _ _ I) Hb) as (r & s1 & E & K & Hh & Ef & HR).
  rewrite (bind_run _ _ _ _ _ E). destruct HR as [[-> O1]|[-> HR]].
  { eexists _, s1, l. split; [done|]. cbn [fst snd is_ok andb]. split_and!; try done; [by eapply inv_kept | by left]. }
  set (t := new_table b phys virt f o 0).
  assert (Ht : table_ok t) by (by apply new_table_ok).
  destruct (HR t Ht eq_refl) as [E2 O2]. rewrite (bind_run _ _ _ _ _ E2).
  assert (I2 : inv (put_table (length l) t s1) (l ++ [t]) (mine b virt ++ extra)).
  { eapply inv_grow; [exact I | etrans; [exact K | apply frame_kept, put_frame] | done| |].
    - by eapply frame_heap_ok; [apply put_frame|].
    - intros C. apply Forall_app. split; [done | by apply Forall_singleton]. }
  destruct want; cbn [negb].
  - specialize (Hw eq_refl). assert (Hi : (l ++ [t]) !! length l = Some t) by by apply list_lookup_middle.
    rewrite (bind_run _ _ _ _ _ (update_table_run _ _ _ _ t _ O2 Hi)). set (t1 := new_table b phys virt f o 1).
    exists (UACPI_STATUS_OK, Some (UacpiTable virt (Z.of_nat (length l)))), (put_table (length l) t1 (put_table (length l) t s1)), (l ++ [t1]).
    split; [done|]. split; [etrans; [exact K | etrans; apply frame_kept, put_frame]|].
    split; [|right; by split_and!].
    eapply inv_grow; [exact I2 | apply frame_kept, put_frame | | by eapply frame_heap_ok; [apply put_frame | apply I2] |].
    2: { intros C. apply Forall_app in C as [C _]. apply Forall_app. split; [done | by apply Forall_singleton]. }
    cbn [fst is_ok andb app].
    replace (l ++ [t1]) with (<[length l := t1]> (l ++ [t])) by (by rewrite insert_app_r_alt, Nat.sub_diag).
    apply (owns_put _ _ _ _ _ t t1 O2 Hi); [by apply new_table_ok|].
    rewrite (owned_zero t), app_nil_r by done. unfold owned_by. cbn [origin reference_count t1 new_table ptr hdr].
    rewrite Ho. cbn [Z.eqb negb andb]. unfold mine. rewrite (proj2 (Z.eqb_neq _ 0)) by done. apply Permutation_app_comm.
  - exists (UACPI_STATUS_OK, None), (put_table (length l) t s1), (l ++ [t]). split; [done|].
    split; [etrans; [exact K | apply frame_kept, put_frame]|]. split; [done | right; by split_and!].
Qed.

Definition validated (b : list Z) (want : bool) : bool :=
  let proactive := Z.land fl UACPI_FLAG_PROACTIVE_TBL_CSUM =? UACPI_FLAG_PROACTIVE_TBL_CSUM in
  negb (uacpi_signatures_match b ACPI_FACS_SIGNATURE) && (proactive || is_fadt b || want).
Definition new_flags (b : list Z) (want : bool) : Z :=
  if uacpi_signatures_match b ACPI_FACS_SIGNATURE || validated b want then UACPI_TABLE_CSUM_VERIFIED else 0.
Definition set_revision (b : list Z) : M tables_state unit :=
  if uacpi_signatures_match b ACPI_DSDT_SIGNATURE
  then modify (fun s => s <| is_rev1 := revision (parse_hdr b) <? 2 |>) else mret tt.

Lemma verify_and_install_steps b phys virt o want s : rt_flags s = fl ->
  verify_and_install_table ip b phys virt o want s
  = (ret ← (if validated b want then validate_table ip b phys virt else mret UACPI_STATUS_OK);
     if negb (is_ok ret) then mret (ret, None)
     else _ ← set_revision b; place b phys virt (new_flags b want) o want) s.
Proof.
  intros Hf. unfold verify_and_install_table, validated, uacpi_check_flag.
  rewrite (bind_run (gets _) _ s s (Z.land fl UACPI_FLAG_PROACTIVE_TBL_CSUM =? UACPI_FLAG_PROACTIVE_TBL_CSUM)) by (by rewrite <- Hf).
  reflexivity.
Qed.

Lemma verify_install_run b phys virt o want s l extra : 0 <= hdr_length (parse_hdr b) < 2 ^ 32 ->
  is_physical o = true -> (want = true -> virt <> 0) ->
  let va := if virt =? 0 then pa_to_va phys else virt in
  sound_length b va -> dsdt_fine b va (fadt s) ->
  inv s l (mine b virt ++ extra) -> Z.of_nat (length l) + 1 + Z.of_nat (nested_tables b) < 2 ^ 32 ->
  exists r s' l', verify_and_install_table ip b phys virt o want s = Some (r, s') /\ kept s s'
    /\ inv s' l' ((if is_ok (fst r) && want then [] else mine b virt) ++ extra)
    /\ l `prefix_of` l' /\ (length l' <= length l + 1 + nested_tables b)%nat
    /\ (is_fadt b = false ->
        is_ok (fst r) = false /\ l' = l /\ snd r = None
        \/ is_ok (fst r) = true
           /\ l' = l ++ [new_table b phys virt (new_flags b want) o (if want then 1 else 0)]
           /\ snd r = if want then Some (UacpiTable virt (Z.of_nat (length l))) else None).
Proof.
  intros Hn Ho Hw va Hs HP I Hb. rewrite (verify_and_install_steps _ _ _ _ _ _ (inv_flags _ _ _ I)).
  assert (Hv : safe (dsdt_fine b va) (mine b virt) (nested_tables b)
      (if validated b want then validate_table ip b phys virt else mret UACPI_STATUS_OK)).
  { destruct (validated b want); [|apply install_ret]. apply validate_safe; [lia | | done].
    intros Hz. unfold mine. rewrite (proj2 (Z.eqb_neq _ 0)) by done. apply list_elem_of_here. }
  assert (Hk : (nested_tables b <= 1)%nat) by (unfold nested_tables; destruct (is_fadt b); lia).
  destruct (Hv s l extra I HP) as (ret & s1 & l1 & E1 & I1 & K1 & P1 & L1); [lia|].
  rewrite (bind_run _ _ _ _ _ E1).
  assert (Hl1 : is_fadt b = false -> l1 = l).
  { intros Hf. unfold nested_tables in L1. rewrite Hf in L1. destruct P1 as [k ->]. rewrite length_app in L1.
    destruct k; [by rewrite app_nil_r | cbn in L1; lia]. }
  destruct (is_ok ret) eqn:Hr; cbn [negb].
  2: { exists (ret, None), s1, l1. cbn [fst snd]. rewrite Hr. cbn [andb]. split_and!; try done; [lia|].
       intros Hf. left. by split_and!; [|apply Hl1|]. }
  assert (Hrev : safe any (mine b virt) 0 (set_revision b)).
  { unfold set_revision. destruct (uacpi_signatures_match _ _); [|apply install_ret].
    apply install_modify. intros s0. by split_and!. }
  destruct (Hrev s1 l1 extra I1) as (u & s2 & l2 & E2 & I2 & K2 & P2 & L2); [done | lia|].
  rewrite (bind_run _ _ _ _ _ E2).
  assert (l2 = l1) as ->.
  { destruct P2 as [k ->]. rewrite length_app in L2. destruct k; [by rewrite app_nil_r | cbn in L2; lia]. }
  destruct (place_run b phys virt (new_flags b want) o want s2 l1 extra) as (r & s3 & l3 & E3 & K3 & I3 & HR);
    [done | unfold new_flags; by destruct (_ || _) | unfold new_flags; by destruct (_ || _) | done | done | done | lia|].
  exists r, s3, l3. split; [done|]. split; [by etrans; [etrans|]|]. split; [done|].
  split; [|split]; [ | | intros Hf; by rewrite (Hl1 Hf) in HR].
  - destruct HR as [(_ & -> & _)|(_ & -> & _)]; [done|]. by apply prefix_app_r.
  - destruct HR as [(_ & -> & _)|(_ & -> & _)]; rewrite ?length_app; cbn; lia.
Qed.

(** ** A table in physical memory *)

Definition header (phys : Z) : list Z := bytes_at (pa_to_va phys) 36.
Definition table_length (phys : Z) : Z := hdr_length (parse_hdr (header phys)).

Lemma bytes_at_bytes va n : is_bytes (bytes_at va n).
Proof. unfold bytes_at. apply Forall_map, Forall_true. intros i. apply ram_byte. Qed.

Lemma le_range b : is_bytes b -> 0 <= le b < 2 ^ (8 * Z.of_nat (length b)).
Proof.
  induction 1 as [|v b Hv Hb IH]; [done|]. cbn [le length].
  replace (8 * Z.of_nat (S (length b))) with (8 + 8 * Z.of_nat (length b)) by lia.
  rewrite Z.pow_add_r by lia. lia.
Qed.

Lemma drop_bytes_at va n k : drop k (bytes_at va n) = bytes_at (va + Z.of_nat k) (n - k).
Proof.
  revert va n. induction k as [|k IH]; intros va n.
  - by rewrite Z.add_0_r, Nat.sub_0_r.
  - destruct n as [|n]; [done|]. rewrite bytes_at_S. cbn [drop]. rewrite IH. f_equal. lia.
Qed.

Lemma take_bytes_at va n k : (k <= n)%nat -> take k (bytes_at va n) = bytes_at va k.
Proof. intros Hk. unfold bytes_at. rewrite firstn_map, take_seq. do 2 f_equal. lia. Qed.

Lemma table_length_in_memory phys : table_length phys = le (bytes_at (pa_to_va phys + 4) 4).
Proof.
  unfold table_length, parse_hdr, fld, header. cbn [hdr_length]. rewrite drop_bytes_at, take_bytes_at by lia. done.
Qed.

Lemma table_length_range phys : 0 <= table_length phys < 2 ^ 32.
Proof. rewrite table_length_in_memory. exact (le_range _ (bytes_at_bytes (pa_to_va phys + 4) 4)). Qed.

Lemma quiet_header need phys : quiet need (get_external_table_header phys)
  (fun r => r = (UACPI_STATUS_MAPPING_FAILED, []) \/ r = (UACPI_STATUS_OK, header phys)).
Proof.
  intros s l extra I. unfold get_external_table_header.
  destruct (map_run s l _ phys SIZEOF_SDT_HDR (inv_owns _ _ _ I)) as (p & s1 & E & F & _ & Hp).
  rewrite (bind_run _ _ _ _ _ E). destruct Hp as [(-> & _ & O1)|(Hn & -> & O1)].
  - exists (UACPI_STATUS_MAPPING_FAILED, []), s1. split_and!; try done; [by left | by eapply inv_frame].
  - rewrite (proj2 (Z.eqb_neq _ 0)) by done.
    rewrite (bind_run _ _ _ _ _ (read_bytes_run s1 (pa_to_va phys) SIZEOF_SDT_HDR (pa_to_va phys) (Z.to_nat SIZEOF_SDT_HDR)
      (owns_mapped _ _ _ _ O1 (list_elem_of_here _ _)) ltac:(lia) ltac:(unfold SIZEOF_SDT_HDR; lia))).
    destruct (unmap_run s1 _ _ _ _ O1) as (s2 & E2 & F2 & _ & O2). rewrite (bind_run _ _ _ _ _ E2).
    exists (UACPI_STATUS_OK, header phys), s2. split_and!; [done | by right | by etrans | by eapply inv_frame; [|etrans|]].
Qed.

Lemma quiet_signature need b expect : quiet need (uacpi_check_table_signature b expect) (fun ret =>
  is_ok ret = true -> uacpi_signatures_match b expect = true \/ Z.land fl UACPI_FLAG_BAD_TBL_SIGNATURE_FATAL <> UACPI_FLAG_BAD_TBL_SIGNATURE_FATAL).
Proof.
  intros s l extra I. unfold uacpi_check_table_signature. destruct (uacpi_signatures_match b expect).
  { exists UACPI_STATUS_OK, s. by split_and!; [|intros _; left|..]. }
  unfold uacpi_check_flag. mstep. eexists _, s. split; [done|]. rewrite (inv_flags _ _ _ I).
  split; [|done]. destruct (Z.eqb_spec (Z.land fl UACPI_FLAG_BAD_TBL_SIGNATURE_FATAL) UACPI_FLAG_BAD_TBL_SIGNATURE_FATAL); [done | by right].
Qed.

(** A benign handler only decides. *)
Lemma quiet_handler need virt want : quiet need (ask_handler ip iv virt want)
  (fun r => r = None \/ r = Some (UACPI_STATUS_DENIED, None)).
Proof.
  intros s l extra I. unfold ask_handler. mstep. destruct (installation_handler s) as [h|] eqn:Eh.
  - pose proof (inv_benign _ _ _ I h virt Eh) as Hb. destruct (h virt) as [d a]. cbn [fst] in Hb.
    destruct Hb as [-> | ->]; cbn; [exists None, s | exists (Some (UACPI_STATUS_DENIED, None)), s]; by split_and!; auto.
  - exists None, s. by split_and!; auto.
Qed.

(** What an installation may come to: no table, or the new one at the end. *)
Definition plain_outcome (phys : Z) (o : uacpi_table_origin) (want : bool) l (r : installed) l' : Prop :=
  l' = l /\ snd r = None
  \/ (exists virt, l' = l ++ [new_table (header phys) phys virt (new_flags (header phys) want) o (if want then 1 else 0)]
       /\ (want = true -> virt = pa_to_va phys)
       /\ r = (UACPI_STATUS_OK, if want then Some (UacpiTable virt (Z.of_nat (length l))) else None)).

(** The part of [table_install_physical_with_origin_unlocked] after the mapping. *)
Definition install_mapped (b : list Z) (phys virt : Z) (o : uacpi_table_origin) (want : bool) : M tables_state installed :=
  answer ← (if decide (o = UACPI_TABLE_ORIGIN_FIRMWARE_PHYSICAL)
            then ask_handler ip iv virt want else mret None);
  r ← (match answer with
       | Some r => mret r
       | None => verify_and_install_table ip b phys virt o want end);
  finish_physical virt (hdr_length (parse_hdr b)) want r.

(** The mapping ends with the function, unless the table took it over. *)
Lemma finish_run phys virt want r s l extra :
  inv s l ((if is_ok (fst r) && want then [] else mine (header phys) virt) ++ extra) ->
  exists s' r', finish_physical virt (table_length phys) want r s = Some (r', s') /\ kept s s' /\ inv s' l extra
    /\ snd r' = snd r /\ (is_ok (fst r) = true -> r' = r).
Proof.
  intros I. unfold finish_physical. destruct r as [ret out]. cbn [fst snd] in *.
  destruct (is_ok ret && want) eqn:Hc.
  - exists s, (ret, out). by split_and!.
  - destruct (Z.eqb_spec virt 0) as [->|Hz].
    + rewrite bind_ret_l. exists s, (UACPI_STATUS_OK, out). split_and!; try done.
      intros Hr. apply is_ok_true in Hr. by subst ret.
    + unfold mine in I. rewrite (proj2 (Z.eqb_neq _ 0)) in I by done.
      destruct (unmap_run s l extra _ _ (inv_owns _ _ _ I)) as (s1 & E & F & _ & O1).
      unfold table_length. rewrite (bind_run _ _ _ _ _ E). exists s1, (UACPI_STATUS_OK, out).
      split_and!; try done; [by apply frame_kept | by eapply inv_frame|].
      intros Hr. apply is_ok_true in Hr. by subst ret.
Qed.

Definition installable (phys : Z) (fb : list Z) : Prop :=
  (is_fadt (header phys) = true -> 8 <= table_length phys) /\ dsdt_fine (header phys) (pa_to_va phys) fb.

Lemma installable_sound phys fb : installable phys fb -> sound_length (header phys) (pa_to_va phys).
Proof.
  intros [H8 _] Hf. split; [by apply H8|]. fold (table_length phys). rewrite <- table_length_in_memory. lia.
Qed.

Lemma install_mapped_run phys virt o want s l extra : is_physical o = true -> (want = true -> virt <> 0) ->
  virt = 0 \/ virt = pa_to_va phys -> installable phys (fadt s) ->
  inv s l (mine (header phys) virt ++ extra) -> Z.of_nat (length l) + 1 + Z.of_nat (nested_tables (header phys)) < 2 ^ 32 ->
  exists r s' l', install_mapped (header phys) phys virt o want s = Some (r, s') /\ kept s s' /\ inv s' l' extra
    /\ l `prefix_of` l' /\ (length l' <= length l + 1 + nested_tables (header phys))%nat
    /\ (is_fadt (header phys) = false -> plain_outcome phys o want l r l').
Proof.
  intros Ho Hw Hv HP I Hb. unfold install_mapped.
  assert (Hq : quiet (mine (header phys) virt) (if decide (o = UACPI_TABLE_ORIGIN_FIRMWARE_PHYSICAL)
      then ask_handler ip iv virt want else mret None) (fun r => r = None \/ r = Some (UACPI_STATUS_DENIED, None))).
  { case_decide; [apply quiet_handler | by apply quiet_ret; left]. }
  destruct (Hq s l extra I) as (answer & s1 & E1 & Ha & F1 & I1). rewrite (bind_run _ _ _ _ _ E1).
  destruct Ha as [-> | ->].
  - assert (Hva : (if virt =? 0 then pa_to_va phys else virt) = pa_to_va phys).
    { destruct Hv as [->|E]; [done|]. destruct (Z.eqb_spec virt 0); [done | by subst]. }
    pose proof (verify_install_run (header phys) phys virt o want s1 l extra (table_length_range phys) Ho Hw) as HV.
    rewrite Hva in HV. destruct HV as (r & s2 & l2 & E2 & K2 & I2 & P2 & L2 & HF);
      [by eapply installable_sound | rewrite (fr_fadt _ _ F1); apply HP | done | done|].
    rewrite (bind_run _ _ _ _ _ E2). destruct (finish_run phys virt want r s2 l2 extra I2) as (s3 & r3 & E3 & K3 & I3 & Hs & Hk).
    exists r3, s3, l2. split; [exact E3|]. split; [etrans; [by apply frame_kept | by etrans]|]. split_and!; try done.
    intros Hf. destruct (HF Hf) as [(_ & -> & Hn)|(Hr & -> & Ht)]; [left; by rewrite Hs|].
    right. exists virt. split_and!; [done | by intros Hwant; destruct Hv; [destruct (Hw Hwant)|] |].
    rewrite (Hk Hr). destruct r as [ret out]. cbn [fst snd] in *. apply is_ok_true in Hr. by rewrite Hr, Ht.
  - rewrite bind_ret_l. destruct (finish_run phys virt want (UACPI_STATUS_DENIED, None) s1 l extra I1) as (s3 & r3 & E3 & K3 & I3 & Hs & _).
    exists r3, s3, l. split; [exact E3|]. split; [etrans; [by apply frame_kept | done]|]. split_and!; try done; [lia|].
    intros _. left. done.
Qed.

Definition fatal_sig : bool := Z.land fl UACPI_FLAG_BAD_TBL_SIGNATURE_FATAL =? UACPI_FLAG_BAD_TBL_SIGNATURE_FATAL.
Definition passes (phys : Z) (expected : option (list Z)) : Prop :=
  match expected with
  | Some e => uacpi_signatures_match (header phys) e = true \/ fatal_sig = false
  | None => True
  end.

Lemma install_body_run k phys o expected want s l extra : is_physical o = true ->
  (passes phys expected -> installable phys (fadt s) /\ (nested_tables (header phys) <= k)%nat) ->
  inv s l extra -> Z.of_nat (length l) + 1 + Z.of_nat k < 2 ^ 32 ->
  exists r s' l', install_physical_body ip iv phys o expected want s = Some (r, s') /\ kept s s' /\ inv s' l' extra
    /\ l `prefix_of` l' /\ (length l' <= length l + 1 + k)%nat
    /\ (is_fadt (header phys) = false -> plain_outcome phys o want l r l').
Proof.
  intros Ho HP I Hb. unfold install_physical_body.
  assert (Hstop : forall ret s', frame s s' -> inv s' l extra -> exists (r : installed) s2 l', Some ((ret, None), s') = Some (r, s2)
    /\ kept s s2 /\ inv s2 l' extra /\ l `prefix_of` l' /\ (length l' <= length l + 1 + k)%nat
    /\ (is_fadt (header phys) = false -> plain_outcome phys o want l r l')).
  { intros ret s' F I'. eexists _, s', l. split_and!; [done | by apply frame_kept | done | done | lia | by left]. }
  destruct (quiet_header [] phys s l extra I) as ([ret b] & s1 & E1 & Hh & F1 & I1).
  rewrite (bind_run _ _ _ _ _ E1). destruct Hh as [[= -> ->]|[= -> ->]]; [by apply Hstop|]. cbn [is_ok negb].
  assert (Hsig : quiet [] (match expected with Some e => uacpi_check_table_signature (header phys) e | None => mret UACPI_STATUS_OK end)
      (fun ret => is_ok ret = true -> passes phys expected)).
  { destruct expected as [e|]; [|by apply quiet_ret]. intros s0 l0 e0 I0.
    destruct (quiet_signature [] (header phys) e s0 l0 e0 I0) as (r & s0' & ? & Hr & ?). exists r, s0'. split; [done|].
    split; [|done]. intros Hk. destruct (Hr Hk) as [?|?]; [by left | right]. by apply Z.eqb_neq. }
  destruct (Hsig s1 l extra I1) as (ret & s2 & E2 & Hpass & F2 & I2). rewrite (bind_run _ _ _ _ _ E2).
  assert (F12 : frame s s2) by by etrans.
  destruct (is_ok ret) eqn:Hr; cbn [negb]; [|by apply Hstop]. destruct (HP (Hpass eq_refl)) as [HI Hk].
  fold (table_length phys). rewrite (bind_run (gets _) _ s2 s2 (installation_handler s2)) by done.
  set (needs := _ || want).
  assert (Hrun : forall virt s3, frame s s3 -> inv s3 l (mine (header phys) virt ++ extra) -> (want = true -> virt <> 0) ->
      virt = 0 \/ virt = pa_to_va phys ->
      exists r s' l', install_mapped (header phys) phys virt o want s3 = Some (r, s') /\ kept s s' /\ inv s' l' extra
        /\ l `prefix_of` l' /\ (length l' <= length l + 1 + k)%nat
        /\ (is_fadt (header phys) = false -> plain_outcome phys o want l r l')).
  { intros virt s3 F3 I3 Hw Hv. destruct (install_mapped_run phys virt o want s3 l extra) as (r & s4 & l4 & E4 & K4 & I4 & P4 & L4 & HO); try done; [by rewrite (fr_fadt _ _ F3) | lia|].
    exists r, s4, l4. split_and!; try done; [etrans; [by apply frame_kept | done] | lia]. }
  destruct needs eqn:Hneeds; cbn [andb].
  - destruct (map_run s2 l extra phys (table_length phys) (inv_owns _ _ _ I2)) as (p & s3 & E3 & F3 & _ & Hp).
    rewrite (bind_run _ _ _ _ _ E3). assert (F13 : frame s s3) by by etrans.
    destruct Hp as [(-> & _ & O3)|(Hn & -> & O3)]; pose proof (inv_frame _ _ _ _ _ I2 F3 O3) as I3.
    + rewrite Z.eqb_refl. by apply Hstop.
    + rewrite (proj2 (Z.eqb_neq _ 0)) by done. apply Hrun; try done; [|by right].
      unfold mine. by rewrite (proj2 (Z.eqb_neq _ 0)) by done.
  - rewrite bind_ret_l. apply Hrun; try done; [|by left]. intros ->. subst needs. by rewrite orb_true_r in Hneeds.
Qed.
End Nested.

(** ** The recursion closes *)

Lemma dsdt_not_fadt b : uacpi_signatures_match b ACPI_DSDT_SIGNATURE = true -> is_fadt b = false.
Proof.
  unfold is_fadt, uacpi_signatures_match. intros E. apply bool_decide_eq_true in E.
  apply bool_decide_eq_false. rewrite E. done.
Qed.

(** The address of a DSDT is fine when what is there is no FADT, or would be refused. *)
Definition fine_dsdt (d : Z) : Prop := is_fadt (header d) = false \/ fatal_sig = true.

Lemma nested_install_safe n need d : fine_dsdt d ->
  safe any need 1 (install_physical_n (S n) d UACPI_TABLE_ORIGIN_FIRMWARE_PHYSICAL (Some ACPI_DSDT_SIGNATURE) false).
Proof.
  intros Hd s l extra I _ Hb. cbn [install_physical_n].
  assert (Hf : passes d (Some ACPI_DSDT_SIGNATURE) -> is_fadt (header d) = false).
  { intros [Hm|Hm]; [by apply dsdt_not_fadt|]. destruct Hd as [Hd|Hd]; [done | congruence]. }
  destruct (install_body_run (install_physical_n n) (install_virtual_n n) (fun _ => False) (fun _ _ HF => False_ind _ HF)
    0 d UACPI_TABLE_ORIGIN_FIRMWARE_PHYSICAL (Some ACPI_DSDT_SIGNATURE) false s l (need ++ extra))
    as (r & s' & l' & E & K & I' & P & L & _); [done | | exact I | lia |].
  - intros Hp. specialize (Hf Hp). unfold installable, dsdt_fine, nested_tables. rewrite Hf. by split.
  - exists r, s', l'. split_and!; try done. lia.
Qed.

(** Installing a table of physical memory returns: two levels of nesting are
    enough, and the mappings are balanced. *)
Definition firmware_sound (phys : Z) (fb : list Z) : Prop :=
  is_fadt (header phys) = true ->
  8 <= table_length phys
  /\ (truthy (dsdt_of (pa_to_va phys) fb) = true -> fine_dsdt (dsdt_of (pa_to_va phys) fb)).

Lemma install_physical_run n phys o expected want s l extra : is_physical o = true ->
  firmware_sound phys (fadt s) -> inv s l extra -> Z.of_nat (length l) + 2 < 2 ^ 32 ->
  exists r s' l', install_physical_n (S (S n)) phys o expected want s = Some (r, s') /\ kept s s' /\ inv s' l' extra
    /\ l `prefix_of` l' /\ (length l' <= length l + 2)%nat
    /\ (is_fadt (header phys) = false -> plain_outcome phys o want l r l').
Proof.
  intros Ho HP I Hb. change (install_physical_n (S (S n))) with
    (install_physical_body (install_physical_n (S n)) (install_virtual_n (S n))).
  destruct (install_body_run _ (install_virtual_n (S n)) fine_dsdt (nested_install_safe n)
    1 phys o expected want s l extra) as (r & s' & l' & E & K & I' & P & L & HO); [done | | done | lia |].
  - intros _. split; [split; intros Hf; by apply HP | unfold nested_tables; destruct (is_fadt _); lia].
  - exists r, s', l'. split_and!; try done. lia.
Qed.
End Install.
