(* ===== verification/RequestSpec.v ===== *)
(** * Sequences of requests to the tables: the mappings stay balanced

    The public operations of [Tables] between initialisation and
    deinitialisation, as commands.  Where no table has been marked invalid,
    every command returns, and the live mappings are at all times those of
    the tables with references; deinitialisation gives back the rest. *)
From S2P Require Import Prelude Status KernelSync Alloc Vmm BitIo FieldIo Gas Fadt Tables TableSamples TablesSpec SearchSpec InstallSpec.

Section Requests.
Context {Plat : Platform} {Bytes : LawfulPlatform} {Alloc : Allocator} {Lawful : LawfulAllocator}.
Implicit Types (s : tables_state) (l : list uacpi_installed_table) (t : uacpi_installed_table).
Context (fl : Z).

(** ** Flags *)

Lemma count_up_invalid t : invalid (count_up t) = invalid t.
Proof. unfold count_up. by case_if. Qed.
Lemma mark_verified_invalid t : invalid (mark_verified t) = invalid t.
Proof.
  unfold mark_verified. case_if; [done|]. rewrite !invalid_bit. cbn [flags set_field].
  change (Z.testbit (Z.lor (flags t) UACPI_TABLE_CSUM_VERIFIED) 2 = Z.testbit (flags t) 2).
  rewrite Z.lor_spec. by rewrite orb_false_r.
Qed.

(** Without the flag that makes a bad checksum fatal, no table turns invalid. *)
Lemma ref_calm s t ret t' : ref_outcome s t ret t' -> fatal_csum s = false -> invalid t = false -> invalid t' = false.
Proof.
  intros HO Hc Hi. destruct HO as [|? Hi'| | |? _ _ _ _|? _ _ _ Hbad]; try done.
  - by rewrite count_up_invalid.
  - by rewrite count_up_invalid.
  - rewrite count_up_invalid, mark_verified_invalid. exact Hi.
  - unfold csum_status in Hbad. rewrite Hc, orb_true_r in Hbad. done.
Qed.

Lemma unref_calm t ret t' : unref_outcome t ret t' -> invalid t' = invalid t.
Proof. by intros []. Qed.

(** ** Requests on one table

    A [tame] operation works on the table at [i] alone, and does not make it
    invalid. *)
Definition tame {A} (i : nat) (m : M tables_state A) : Prop :=
  forall s l extra t, owns s l extra -> l !! i = Some t -> fatal_csum s = false -> invalid t = false ->
  exists a s' t', m s = Some (a, s') /\ frame s s' /\ owns s' (<[i := t']> l) extra /\ invalid t' = false.

Lemma tame_bind {A B} i (m : M tables_state A) (f : A -> M tables_state B) :
  tame i m -> (forall a, tame i (f a)) -> tame i (m ≫= f).
Proof.
  intros Hm Hf s l extra t O Ht Hc Hi. destruct (Hm s l extra t O Ht Hc Hi) as (a & s1 & t1 & E1 & F1 & O1 & I1).
  assert (Ht1 : <[i := t1]> l !! i = Some t1) by (by eapply list_lookup_insert_eq, lookup_lt_Some).
  destruct (Hf a s1 _ extra t1 O1 Ht1) as (b & s2 & t2 & E2 & F2 & O2 & I2);
    [unfold fatal_csum; by rewrite (fr_flags _ _ F1) | done|].
  rewrite list_insert_insert_eq in O2. exists b, s2, t2. rewrite (bind_run _ _ _ _ _ E1). split_and!; try done. by etrans.
Qed.

Lemma tame_ret {A} i (a : A) : tame i (mret a).
Proof. intros s l extra t O Ht Hc Hi. exists a, s, t. by rewrite list_insert_id. Qed.

Lemma tame_load i : tame i (load_table (slot_of i)).
Proof.
  intros s l extra t O Ht Hc Hi. exists t, s, t. rewrite list_insert_id by done. by rewrite (load_table_run _ _ _ _ _ O Ht).
Qed.

Lemma tame_ref i : tame i (table_ref_unlocked (slot_of i)).
Proof.
  intros s l extra t O Ht Hc Hi. destruct (ref_run s l extra i t O Ht) as (r & s1 & t1 & E & F & O1 & HO).
  exists r, s1, t1. split_and!; try done. by eapply ref_calm.
Qed.

Lemma tame_unref i : tame i (table_unref_unlocked (slot_of i)).
Proof.
  intros s l extra t O Ht Hc Hi. destruct (unref_run s l extra i t O Ht) as (r & s1 & t1 & E & F & O1 & HO).
  exists r, s1, t1. split_and!; try done. by rewrite (unref_calm _ _ _ HO).
Qed.

Lemma tame_flags i (f : Z -> Z) : (forall z, 0 <= z -> 0 <= f z) ->
  (forall z, Z.testbit z 2 = false -> Z.testbit (f z) 2 = false) ->
  tame i (update_table (slot_of i) (fun t => t <| flags := f (flags t) |>)).
Proof.
  intros Hpos Hbit s l extra t O Ht Hc Hi. rewrite (update_table_run _ _ _ _ _ _ O Ht).
  set (t1 := t <| flags := f (flags t) |>). exists tt, (put_table i t1 s), t1.
  pose proof (Forall_lookup_1 _ _ _ _ (owns_tables _ _ _ O) Ht) as (Hr & Hl & Hf & Ho).
  split; [done|]. split; [apply put_frame|]. split.
  - apply (owns_put s l extra extra i t _ O Ht); [|done].
    change (0 <= reference_count t <= 0xFFFF /\ 0 <= hdr_length (hdr t) < 2 ^ 32 /\ 0 <= f (flags t)
      /\ origin t <> UACPI_TABLE_ORIGIN_FIRMWARE_VIRTUAL).
    split_and!; try lia; [by apply Hpos | done].
  - rewrite invalid_bit in *. change (flags t1) with (f (flags t)). by apply Hbit.
Qed.

(** A request that does not mark the table invalid. *)
Definition mild (req : table_ctl_request) : Prop := 0 <= set_ req /\ Z.testbit (set_ req) 2 = false.

Lemma tame_ctl i req : mild req -> tame i (table_ctl_found (slot_of i) req).
Proof.
  intros [Hs Hb]. unfold table_ctl_found. apply tame_bind; [apply tame_load|]. intros t.
  destruct (has_flag _ TABLE_CTL_VALIDATE_SET_FLAGS && _); [apply tame_ret|].
  destruct (has_flag _ TABLE_CTL_VALIDATE_CLEAR_FLAGS && _); [apply tame_ret|].
  apply tame_bind; [destruct (has_flag _ TABLE_CTL_GET); [apply tame_ref | apply tame_ret]|]. intros ret.
  destruct (is_ok ret); cbn [negb]; [|apply tame_ret].
  apply tame_bind; [apply tame_load|]. intros t2.
  apply tame_bind; [destruct (has_flag _ TABLE_CTL_PUT); [apply tame_unref | apply tame_ret]|]. intros ret2.
  destruct (is_ok ret2); cbn [negb]; [|apply tame_ret].
  apply tame_bind; [destruct (has_flag _ TABLE_CTL_SET_FLAGS); [|apply tame_ret]|].
  { apply (tame_flags i (fun z => Z.lor z (set_ req))); intros z Hz; [by apply Z.lor_nonneg | by rewrite Z.lor_spec, Hz]. }
  intros []. apply tame_bind; [destruct (has_flag _ TABLE_CTL_CLEAR_FLAGS); [|apply tame_ret] | intros []; apply tame_ret].
  apply (tame_flags i (fun z => clear_bits z (clear_ req))); unfold clear_bits; intros z Hz;
    [apply Z.ldiff_nonneg; by left | by rewrite Z.ldiff_spec, Hz].
Qed.

(** ** Public operations *)

Record settled s l : Prop := {
  settled_inv : inv fl s l [];
  settled_mutex : free_mutex (table_mutex s);
  settled_online : uacpi_table_subsystem_available s = true;
}.
Context (no_fatal : lenient fl).

Lemma settled_calm s l : settled s l -> calm l.
Proof. intros S. by apply (inv_calm _ _ _ _ (settled_inv _ _ S)). Qed.

Lemma inv_fatal s l extra : inv fl s l extra -> fatal_csum s = false.
Proof. intros I. unfold fatal_csum. rewrite (inv_flags _ _ _ _ I). by apply Z.eqb_neq. Qed.

Lemma inv_locked b s l extra : inv fl s l extra -> inv fl (set_locked b s) l extra.
Proof. intros [O Hh Hb Hf C]. by split; [apply owns_locked|..]. Qed.

Lemma settled_after s s1 l l' : settled s l -> kept (set_locked true s) s1 -> inv fl s1 l' [] ->
  settled (set_locked false s1) l'.
Proof.
  intros [I F U] K I1. split; [by apply inv_locked | apply free_unlocked|].
  unfold uacpi_table_subsystem_available in *. cbn. by rewrite (kept_early _ _ K), (kept_level _ _ K).
Qed.

(** What a command of the interface does, in all cases. *)
Definition serves {A} (k : nat) (m : M tables_state A) : Prop :=
  forall s l, settled s l -> Z.of_nat (length l) + Z.of_nat k < 2 ^ 32 ->
  exists a s' l', m s = Some (a, s') /\ settled s' l' /\ (length l' <= length l + k)%nat.

Lemma locked_serves {A} k (failed : uacpi_status -> A) (body : M tables_state A) :
  (forall s l, inv fl s l [] -> Z.of_nat (length l) + Z.of_nat k < 2 ^ 32 ->
    exists a s' l', body s = Some (a, s') /\ kept s s' /\ inv fl s' l' [] /\ (length l' <= length l + k)%nat) ->
  serves k (with_table_mutex failed body).
Proof.
  intros Hb s l S Hk. destruct (Hb (set_locked true s) l) as (a & s1 & l1 & E & K & I1 & L1);
    [apply inv_locked, S | done|].
  exists a, (set_locked false s1), l1. split_and!; [| by eapply settled_after | done].
  apply with_mutex_run; [apply S | done | exact (kept_mutex _ _ K)].
Qed.

Lemma online_serves {A} k (mismatch : A) (m : M tables_state A) : serves k m -> serves k (ENSURE_TABLES_ONLINE mismatch m).
Proof. intros Hm s l S. unfold ENSURE_TABLES_ONLINE. rewrite (settled_online _ _ S). by apply Hm. Qed.

Lemma serves_then {A B} k (m : M tables_state A) (f : A -> M tables_state B) :
  (forall a, exists b, forall s, f a s = Some (b, s)) -> serves k m -> serves k (m ≫= f).
Proof.
  intros Hf Hm s l S Hk. destruct (Hm s l S Hk) as (a & s1 & l1 & E & ?). destruct (Hf a) as [b Eb].
  exists b, s1, l1. by rewrite (bind_run _ _ _ _ _ E), Eb.
Qed.

Lemma tame_inv {A} i (m : M tables_state A) s l t : tame i m -> inv fl s l [] -> l !! i = Some t ->
  exists a s' l', m s = Some (a, s') /\ frame s s' /\ inv fl s' l' [] /\ length l' = length l.
Proof.
  intros Hm I Ht. pose proof (inv_calm _ _ _ _ I no_fatal) as C. pose proof (Forall_lookup_1 _ _ _ _ C Ht) as Hi.
  destruct (Hm s l [] t (inv_owns _ _ _ _ I) Ht (inv_fatal _ _ _ I) Hi) as (a & s1 & t1 & E & F & O1 & I1).
  exists a, s1, (<[i := t1]> l). split_and!; [done | done | | apply length_insert].
  eapply inv_grow; [exact I | by apply frame_kept | done | eapply frame_heap_ok; [done | apply I]|].
  intros _. by apply Forall_insert.
Qed.

Lemma ctl_serves idx req : 0 <= idx -> mild req -> serves 0 (table_ctl idx req).
Proof.
  intros Hidx Hreq. apply online_serves. intros s l S _. pose proof (settled_inv _ _ S) as I.
  pose proof (inv_locked true _ _ _ I) as I0. pose proof (owns_rep _ _ _ (inv_owns _ _ _ _ I0)) as R.
  rewrite (bind_run _ _ _ _ _ (acquire_run s (settled_mutex _ _ S))). cbn [is_ok negb].
  rewrite (bind_run (gets tables) _ _ (set_locked true s) (tables (set_locked true s))) by done.
  destruct (decide (Z.to_nat idx < length l)%nat) as [Hlt|Hge].
  - destruct (lookup_lt_is_Some_2 l (Z.to_nat idx) Hlt) as [t Ht].
    replace idx with (Z.of_nat (Z.to_nat idx)) by lia. rewrite (at_rep _ _ _ R Hlt).
    rewrite (bind_run _ _ _ _ _ (load_rep _ _ _ _ R Ht)). fold (invalid t).
    rewrite (Forall_lookup_1 _ _ _ _ (settled_calm _ _ S) Ht).
    destruct (tame_inv _ _ _ l t (tame_ctl (Z.to_nat idx) req Hreq) I0 Ht)
      as (a & s1 & l1 & E & F & I1 & L1).
    rewrite (bind_run _ _ _ _ _ E), (bind_run _ _ _ _ _ (release_mutex_run s s1 (settled_mutex _ _ S) (fr_mutex _ _ F))).
    exists a, (set_locked false s1), l1. split_and!; [done | | lia].
    eapply settled_after; [done | by apply frame_kept | done].
  - rewrite (at_rep_end _ _ _ R) by lia.
    rewrite (bind_run _ _ _ _ _ (release_mutex_run s (set_locked true s) (settled_mutex _ _ S) eq_refl)).
    eexists _, _, l. split_and!; [done | by eapply settled_after; [|by split|] | lia].
Qed.

(** A search of any kind. *)
Lemma tame_search what user i idx : tame i (do_search_tables what user (slot_of i) idx).
Proof.
  unfold do_search_tables. apply tame_bind; [apply tame_load|]. intros t.
  destruct (negb _); [apply tame_ret|]. apply tame_bind; [apply tame_ref|]. intros ret.
  destruct (is_ok ret); [apply tame_bind; [apply tame_load | intros; apply tame_ret]|].
  destruct (bool_decide _); apply tame_ret.
Qed.

Lemma search_safe what n : forall i user s l, inv fl s l [] -> (length l - i <= n)%nat ->
  exists u s' l', loop (S n) (for_each_turn (do_search_tables what)) (Z.of_nat i, user) s = Some (u, s')
    /\ frame s s' /\ inv fl s' l' [] /\ length l' = length l.
Proof.
  induction n as [|n IH]; intros i user s l I Hn; pose proof (inv_calm _ _ _ _ I no_fatal) as C; pose proof (owns_rep _ _ _ (inv_owns _ _ _ _ I)) as R.
  { exists user, s, l. split; [|by split_and!]. apply loop_inr. unfold for_each_turn. mstep.
    by rewrite (at_rep_end _ _ _ R) by lia. }
  destruct (decide (i < length l)%nat) as [Hlt|Hge].
  2: { exists user, s, l. split; [|by split_and!]. apply loop_inr. unfold for_each_turn. mstep.
       by rewrite (at_rep_end _ _ _ R) by lia. }
  destruct (lookup_lt_is_Some_2 l i Hlt) as [t Ht]. pose proof (rep_bound _ _ R).
  destruct (tame_inv _ _ _ l t (tame_search what user i (Z.of_nat i)) I Ht) as ([u d] & s1 & l1 & E & F & I1 & L1).
  assert (Et : for_each_turn (do_search_tables what) (Z.of_nat i, user) s
    = Some (match d with UACPI_ITERATION_DECISION_BREAK => inr u | _ => inl (Z.of_nat (S i), u) end, s1)).
  { unfold for_each_turn. mstep. rewrite (at_rep _ _ _ R Hlt), (load_rep _ _ _ _ R Ht). fold (invalid t).
    rewrite (Forall_lookup_1 _ _ _ _ C Ht), E. rewrite u64_small by lia. destruct d; do 3 f_equal; do 2 f_equal; lia. }
  destruct (IH (S i) u s1 l1 I1) as (u2 & s2 & l2 & E2 & F2 & I2 & L2); [lia|].
  destruct d; [|by exists u, s1, l1; rewrite (loop_inr _ _ _ _ _ _ Et)|];
    exists u2, s2, l2; rewrite (loop_inl _ _ _ _ _ _ Et), E2; split_and!; try done; [by etrans | lia | by etrans | lia].
Qed.

Lemma search_serves base what : 0 <= base -> serves 0 (search_tables base what).
Proof.
  intros Hb. apply serves_then; [intros [ret u]; by eexists|].
  apply online_serves, locked_serves. intros s l I _.
  pose proof (owns_rep _ _ _ (inv_owns _ _ _ _ I)) as R. unfold for_each_table, table_array_size.
  rewrite bind_assoc, (bind_run (gets _) _ s s (Z.of_nat (length l))) by (mstep; by rewrite (rep_size _ _ R)).
  replace base with (Z.of_nat (Z.to_nat base)) by lia.
  destruct (search_safe what (Z.to_nat (Z.of_nat (length l) - Z.of_nat (Z.to_nat base))) (Z.to_nat base)
    (SearchCtx None UACPI_STATUS_NOT_FOUND) s l I) as (u & s1 & l1 & E & F & I1 & L1); [lia|].
  rewrite (bind_run _ _ _ _ _ E). eexists _, s1, l1. split_and!; [done | by apply frame_kept | done | lia].
Qed.

Lemma install_serves n phys o want : is_physical o = true -> (forall fb, firmware_sound fl phys fb) ->
  serves 2 (uacpi_table_install_physical_with_origin (S (S n)) phys o want).
Proof.
  intros Ho Hs. apply locked_serves. intros s l I Hb.
  destruct (install_physical_run fl n phys o None want s l [] Ho (Hs _) I) as (r & s1 & l1 & E & K & I1 & _ & L1 & _); [lia|].
  by exists r, s1, l1.
Qed.

(** ** Deinitialisation *)

Lemma owned_cons t l : owned (t :: l) = owned_by t ++ owned l.
Proof. done. Qed.

Lemma release_table_run s l i t s0 : owns s l [] -> l !! i = Some t ->
  frame s s0 -> tables s0 = tables s -> mappings s0 ≡ₚ owned (drop i l) ->
  exists s1, release_table (Z.of_nat i) s0 = Some (tt, s1) /\ frame s s1 /\ tables s1 = tables s
    /\ mappings s1 ≡ₚ owned (drop (S i) l).
Proof.
  intros O Ht F Et P. pose proof (owns_rep _ _ _ O) as R. rewrite <- Et in R.
  pose proof (Forall_lookup_1 _ _ _ _ (owns_tables _ _ _ O) Ht) as (_ & _ & _ & Ho).
  unfold release_table. rewrite (bind_run (gets tables) _ s0 s0 (tables s0)) by done.
  rewrite (at_rep _ _ _ R) by (by eapply lookup_lt_Some). rewrite (bind_run _ _ _ _ _ (load_rep _ _ _ _ R Ht)).
  rewrite (drop_S _ _ _ Ht), owned_cons in P.
  assert (Hkeep : owned_by t = [] -> exists s1, Some (tt, s0) = Some (tt, s1) /\ frame s s1 /\ tables s1 = tables s
    /\ mappings s1 ≡ₚ owned (drop (S i) l)) by (intros E; rewrite E in P; by exists s0).
  assert (Hphys : is_physical (origin t) = true -> exists s1,
    (if reference_count t =? 0 then mret tt else kernel_unmap (ptr t) (hdr_length (hdr t))) s0 = Some (tt, s1)
    /\ frame s s1 /\ tables s1 = tables s /\ mappings s1 ≡ₚ owned (drop (S i) l)).
  { intros Hp. destruct (Z.eqb_spec (reference_count t) 0) as [Hz|Hz]; [by apply Hkeep, owned_zero|].
    rewrite owned_counted, Hp in P by done. cbn [app] in P.
    destruct (remove_mapping_perm _ _ _ P) as (m & Em & Pm). unfold kernel_unmap. rewrite Em.
    eexists. split; [done|]. split; [etrans; [exact F | by split]|]. by split. }
  destruct (origin t) eqn:E; [done | by apply Hphys | | by apply Hphys].
  apply Hkeep. unfold owned_by. by rewrite E.
Qed.

Lemma deinitialize_run s l : settled s l ->
  exists s', uacpi_deinitialize_tables s = Some (tt, s') /\ mappings s' = [] /\ table_mutex s' = None
    /\ table_array_size (tables s') = 0 /\ installation_handler s' = None.
Proof.
  intros [I Hm _]. pose proof (inv_owns _ _ _ _ I) as O. pose proof (owns_rep _ _ _ O) as R.
  unfold uacpi_deinitialize_tables.
  rewrite (bind_run (gets _) _ s s (Z.of_nat (length l))) by (mstep; unfold table_array_size; by rewrite (rep_size _ _ R)).
  destruct (triple_for_range_at (fun i s1 => frame s s1 /\ tables s1 = tables s /\ mappings s1 ≡ₚ owned (drop (Z.to_nat i) l))
    0 (Z.of_nat (length l)) release_table) with (s := s) as (u & s1 & E & F & Et & P).
  { lia. }
  { intros j Hj s0 (F0 & E0 & P0). destruct (lookup_lt_is_Some_2 l (Z.to_nat j)) as [t Ht]; [lia|].
    destruct (release_table_run s l (Z.to_nat j) t s0 O Ht F0 E0 P0) as (s1 & E1 & F1 & Et1 & P1).
    rewrite Z2Nat.id in E1 by lia. exists tt, s1. replace (Z.to_nat (j + 1)) with (S (Z.to_nat j)) by lia. done. }
  { split_and!; [done | done | apply O]. }
  destruct u. rewrite (bind_run _ _ _ _ _ E). rewrite Nat2Z.id, drop_all in P.
  apply Permutation_sym, Permutation_nil in P.
  rewrite (bind_run (gets _) _ s1 s1 (early_table_access s)) by (mstep; by rewrite (fr_early _ _ F)).
  assert (Hend : forall s2, mappings s2 = [] -> table_mutex s2 = table_mutex s -> table_array_size (tables s2) = 0 ->
    exists s', (_ ← modify (fun s => s <| installation_handler := None |>); m ← gets table_mutex;
        _ ← (match m with Some m => liftO (uacpi_kernel_free_mutex m) | None => mret tt end);
        modify (fun s => s <| table_mutex := None |>)) s2 = Some (tt, s')
      /\ mappings s' = [] /\ table_mutex s' = None /\ table_array_size (tables s') = 0 /\ installation_handler s' = None).
  { intros s2 Hm2 Ht2 Hs2. mstep. cbn. rewrite Ht2. destruct Hm as [->| ->]; (eexists; split; [done|]; by split_and!). }
  destruct (early_table_access s) eqn:He; [by apply Hend; [|apply (fr_mutex _ _ F)|]|].
  assert (Hfree : exists h, free (dynamic_storage (tables s1)) (theap s1) = Some h).
  { rewrite (fr_storage _ _ F), (fr_heap _ _ F). destruct (inv_heap _ _ _ _ I) as [?|[[-> _]|[Hn Hl]]]; [congruence | by eexists|].
    eexists. by apply free_live. }
  destruct Hfree as [h Eh]. unfold table_array_clear, uacpi_free, on_array. mstep. rewrite Eh.
  by apply Hend; [|apply (fr_mutex _ _ F)|].
Qed.

(** ** Commands *)

Inductive table_cmd :=
  | CInstall (n : nat) (phys : Z) (o : uacpi_table_origin) (want : bool)
  | CSearch (base : Z) (what : table_search)
  | CRef (idx : Z)
  | CUnref (idx : Z)
  | CMarkLoaded (idx : Z).

Definition run_cmd (c : table_cmd) : M tables_state unit :=
  match c with
  | CInstall n phys o want => _ ← uacpi_table_install_physical_with_origin (S (S n)) phys o want; mret tt
  | CSearch base what => _ ← search_tables base what; mret tt
  | CRef idx => _ ← uacpi_table_ref (UacpiTable 0 idx); mret tt
  | CUnref idx => _ ← uacpi_table_unref (UacpiTable 0 idx); mret tt
  | CMarkLoaded idx => uacpi_table_mark_as_loaded idx
  end.
Fixpoint run_cmds (cs : list table_cmd) : M tables_state unit :=
  match cs with [] => mret tt | c :: cs' => _ ← run_cmd c; run_cmds cs' end.

Definition valid_cmd (c : table_cmd) : Prop :=
  match c with
  | CInstall _ phys o _ => is_physical o = true /\ forall fb, firmware_sound fl phys fb
  | CSearch base _ => 0 <= base
  | CRef idx | CUnref idx | CMarkLoaded idx => 0 <= idx
  end.

Lemma cmd_serves c : valid_cmd c -> serves 2 (run_cmd c).
Proof.
  assert (Hw : forall A (m : M tables_state A), serves 0 m -> serves 2 m).
  { intros A m Hm s l S Hb. destruct (Hm s l S) as (a & s1 & l1 & ? & ? & ?); [lia|]. exists a, s1, l1. split_and!; try done. lia. }
  destruct c; cbn [valid_cmd run_cmd]; intros Hv.
  - destruct Hv. apply serves_then; [by eexists | by apply install_serves].
  - apply serves_then; [by eexists | by apply Hw, search_serves].
  - apply serves_then; [by eexists|]. apply Hw, serves_then; [intros []; by eexists | by apply ctl_serves].
  - apply serves_then; [by eexists|]. apply Hw, serves_then; [intros []; by eexists | by apply ctl_serves].
  - apply Hw, serves_then; [by eexists | by apply ctl_serves].
Qed.

Lemma cmds_run cs : forall s l, settled s l -> Forall valid_cmd cs ->
  Z.of_nat (length l) + 2 * Z.of_nat (length cs) < 2 ^ 32 ->
  exists s' l', run_cmds cs s = Some (tt, s') /\ settled s' l'.
Proof.
  induction cs as [|c cs IH]; intros s l S Hv Hb; [by exists s, l|]. inversion_clear Hv as [|? ? Hc Hcs].
  cbn [length] in Hb. destruct (cmd_serves c Hc s l S) as (u & s1 & l1 & E & S1 & L1); [lia|].
  destruct (IH s1 l1 S1 Hcs) as (s2 & l2 & E2 & S2); [lia|]. exists s2, l2.
  destruct u. cbn [run_cmds]. by rewrite (bind_run _ _ _ _ _ E).
Qed.
End Requests.

(** C34: the table subsystem never leaks or loses a mapping.  Where a bad
    checksum is not fatal and no handler overrides tables, any sequence of
    installations from physical memory, searches, references, unreferences and
    marks returns, whatever the tables hold - except an FADT shorter than 8
    bytes or with an FADT as its DSDT ([firmware_sound]); after it the live mappings are exactly one for each physical table
    with references; and deinitialisation unmaps them all. *)
Theorem tables_keep_mappings {Plat : Platform} {Bytes : LawfulPlatform} {Alloc : Allocator} {Lawful : LawfulAllocator}
    (fl : Z) (no_fatal : lenient fl) (s : tables_state) (l : list uacpi_installed_table) (cs : list table_cmd)
    (S : settled fl s l) (Hcs : Forall (valid_cmd fl) cs)
    (Hb : Z.of_nat (length l) + 2 * Z.of_nat (length cs) < 2 ^ 32) :
  exists s1 l1, run_cmds cs s = Some (tt, s1) /\ rep (tables s1) l1 /\ mappings s1 ≡ₚ owned l1
  /\ exists s2, uacpi_deinitialize_tables s1 = Some (tt, s2) /\ mappings s2 = [] /\ table_array_size (tables s2) = 0.
Proof.
  destruct (cmds_run fl no_fatal cs s l S Hcs Hb) as (s1 & l1 & E & S1).
  destruct (deinitialize_run fl s1 l1 S1) as (s2 & E2 & Hm & _ & Hz & _).
  pose proof (inv_owns _ _ _ _ (settled_inv _ _ _ S1)) as O1.
  exists s1, l1. split_and!; [done | apply O1 | apply O1 | by exists s2].
Qed.

Lemma sample_settled fl : settled fl (sample_state fl) [].
Proof.
  assert (O : owns (sample_state fl) [] []) by (by split; [split|..]).
  split; [split | by right | done]; [done | by right; left | done | done | by constructor].
Qed.

Lemma tables_keep_mappings_witness :
  let cs := [CInstall 0 0x1000 UACPI_TABLE_ORIGIN_HOST_PHYSICAL false;
             CSearch 0 (SEARCH_TYPE_BY_ID (by_signature (cstr "SSDT"))); CRef 0; CUnref 0; CRef 7] in
  exists s1 l1, run_cmds (Plat := sample_machine) (Alloc := bump) cs (sample_state 0) = Some (tt, s1)
  /\ rep (tables s1) l1 /\ mappings s1 ≡ₚ owned l1
  /\ exists s2, uacpi_deinitialize_tables s1 = Some (tt, s2)
     /\ mappings s2 = [] /\ table_array_size (tables s2) = 0.
Proof.
  apply (tables_keep_mappings (Plat := sample_machine) (Bytes := sample_lawful) (Alloc := bump) (Lawful := bump_lawful)
    0 ltac:(done) (sample_state 0) [] _ (sample_settled 0)); [|done].
  apply Forall_cons_2; [split; [done|] | by repeat (apply Forall_cons_2; [done|]); apply Forall_nil_2].
  intros fb Hf. exfalso. assert (Hn : is_fadt (header (Plat := sample_machine) 0x1000) = false) by (vm_compute; reflexivity).
  congruence.
Defined.
