(* ===== verification/FadtSpec.v ===== *)
(** * What uACPI makes of the FADT, and the walk over subtables *)
From S2P Require Import Prelude Status Alloc BitIo FieldIo FieldIoSpec Gas Registers Fadt Tables TableSamples.

(** ** Fields of the copy *)

Lemma le_of_to_le w v : 0 <= v < 2 ^ (8 * Z.of_nat w) -> le (to_le w v) = v.
Proof.
  revert v. induction w as [|w IH]; intros v Hv; cbn [to_le le].
  - cbn in Hv. lia.
  - replace (8 * Z.of_nat (S w)) with (8 + 8 * Z.of_nat w) in Hv by lia. rewrite Z.pow_add_r in Hv by lia.
    rewrite IH by (rewrite Z.shiftr_div_pow2 by lia; split; [apply Z.div_pos | apply Z.div_lt_upper_bound]; lia).
    rewrite Z.shiftr_div_pow2 by lia. unfold wrap. Z.to_euclidean_division_equations; lia.
Qed.

Lemma fld_outside n off b i t : (i + length t <= length b)%nat -> (off + n <= i \/ i + length t <= off)%nat ->
  fld n off (write_at b i t) = fld n off b.
Proof.
  intros Hb Ho. unfold fld. f_equal. apply list_eq. intros k.
  destruct (decide (k < n)%nat) as [Hk|Hk].
  - rewrite !lookup_take_lt, !lookup_drop, lookup_write_at by done. rewrite bool_decide_false; [done | lia].
  - rewrite !lookup_take_ge; [done | lia..].
Qed.

Lemma fld_inside n off b i t : (i <= off)%nat -> (off + n <= i + length t)%nat -> (i + length t <= length b)%nat ->
  fld n off (write_at b i t) = fld n (off - i) t.
Proof.
  intros Hi Ho Hb. unfold fld. f_equal. apply list_eq. intros k.
  destruct (decide (k < n)%nat) as [Hk|Hk].
  - rewrite !lookup_take_lt, !lookup_drop, lookup_write_at by done. rewrite bool_decide_true by lia. f_equal. lia.
  - rewrite !lookup_take_ge; [done | lia..].
Qed.

Definition gas_ok (g : acpi_gas) : Prop :=
  0 <= address_space_id g < 256 /\ 0 <= register_bit_width g < 256 /\ 0 <= register_bit_offset g < 256
  /\ 0 <= access_size g < 256 /\ 0 <= address g < 2 ^ 64.

Lemma get_put_gas off g b : (off + 12 <= length b)%nat -> gas_ok g -> get_gas off (put_gas off g b) = g.
Proof.
  intros Hb (H1 & H2 & H3 & H4 & H5). unfold get_gas, put_gas. set (t := _ ++ _).
  assert (Ht : length t = 12%nat) by (subst t; by rewrite !length_app, !length_to_le).
  rewrite !fld_inside by lia. rewrite Nat.sub_diag, !Nat.add_sub'. 
  assert (Hb1 : forall v, 0 <= v < 256 -> u8 v + 256 * 0 = v) by (intros v Hv; rewrite u8_small by done; lia).
  subst t. unfold fld. cbn [to_le app take drop Nat.add le]. rewrite !Hb1 by done.
  destruct g as [a w o z ad]. cbn [address_space_id register_bit_width register_bit_offset access_size address] in *. f_equal.
  exact (le_of_to_le 8 ad H5).
Qed.

Lemma get_gas_outside off i t b : (i + length t <= length b)%nat -> (off + 12 <= i \/ i + length t <= off)%nat ->
  get_gas off (write_at b i t) = get_gas off b.
Proof. intros Hb Ho. unfold get_gas. by rewrite !fld_outside by lia. Qed.

Lemma length_put_gas off g b : (off + 12 <= length b)%nat -> length (put_gas off g b) = length b.
Proof. intros Hb. unfold put_gas. apply length_write_at. by rewrite !length_app, !length_to_le. Qed.

Lemma length_put n off v b : (off + n <= length b)%nat -> length (put n off v b) = length b.
Proof. intros Hb. unfold put. apply length_write_at. by rewrite length_to_le. Qed.

(** ** The registers *)

#[export] Instance register_description_eq_dec : EqDecision register_description.
Proof. solve_decision. Defined.

(** A description of a block in the second half of the table. *)
Definition desc_ok (d : register_description) : Prop :=
  (exists k, xoffset d = 148 + 12 * k)%nat /\ (xoffset d + 12 <= SIZEOF_FADT)%nat
  /\ (offset d + 4 <= x_firmware_ctrl_at)%nat /\ (length_offset d + 1 <= x_firmware_ctrl_at)%nat.

Lemma fadt_registers_ok : Forall desc_ok fadt_registers.
Proof.
  set (check := fun d => Nat.eqb (xoffset d) (148 + 12 * ((xoffset d - 148) / 12)) && Nat.leb (xoffset d + 12) SIZEOF_FADT
    && Nat.leb (offset d + 4) x_firmware_ctrl_at && Nat.leb (length_offset d + 1) x_firmware_ctrl_at).
  assert (E : forallb check fadt_registers = true) by reflexivity.
  apply Forall_forall. intros d Hd%list_elem_of_In. rewrite forallb_forall in E. specialize (E d Hd).
  subst check. cbn beta in E. rewrite !andb_true_iff, Nat.eqb_eq, !Nat.leb_le in E.
  destruct E as (((E1 & E2) & E3) & E4). split_and!; [by eexists | done..].
Qed.

(** The generic address of a block: what the table gives, or else the legacy
    port and length. *)
Definition normalised (d : register_description) (fb : list Z) : acpi_gas :=
  let g := get_gas (xoffset d) fb in
  if truthy (address g) then g
  else gas_init_system_io (fld 4 (offset d) fb) (fld 1 (length_offset d) fb).

Lemma fld_bound n off fb : is_bytes fb -> 0 <= fld n off fb < 2 ^ (8 * Z.of_nat n).
Proof.
  intros Hb. unfold fld. assert (Ht : is_bytes (take n (drop off fb))) by (by apply Forall_take, Forall_drop).
  assert (Hl : (length (take n (drop off fb)) <= n)%nat) by (rewrite length_take; lia).
  revert Ht Hl. generalize (take n (drop off fb)). intros b Ht Hl.
  assert (Hr : 0 <= le b < 2 ^ (8 * Z.of_nat (length b))).
  { clear Hl. induction Ht as [|v b Hv Ht IH]; [done|]. cbn [le length].
    replace (8 * Z.of_nat (S (length b))) with (8 + 8 * Z.of_nat (length b)) by lia. rewrite Z.pow_add_r by lia. lia. }
  split; [lia|]. eapply Z.lt_le_trans; [apply Hr|]. apply Z.pow_le_mono_r; lia.
Qed.

Lemma init_io_ok a n : 0 <= a < 2 ^ 64 -> 0 <= n -> gas_ok (gas_init_system_io a n).
Proof.
  intros Ha Hn. unfold gas_ok, gas_init_system_io.
  cbn [address_space_id register_bit_width register_bit_offset access_size address].
  unfold UACPI_ADDRESS_SPACE_SYSTEM_IO. lia.
Qed.

Section Convert.
Implicit Types (fb : list Z) (d e : register_description).

Lemma convert_keeps_bytes d fb : is_bytes fb -> length fb = SIZEOF_FADT -> desc_ok d ->
  is_bytes (convert_register d fb) /\ length (convert_register d fb) = SIZEOF_FADT.
Proof.
  intros Hb Hl (_ & Hx & _). unfold convert_register. destruct (truthy _); [done|].
  split; [|by rewrite length_put_gas by lia]. unfold put_gas, write_at.
  repeat apply Forall_app_2; first [exact (to_le_bytes _ _) | by apply Forall_take | by apply Forall_drop].
Qed.

Lemma convert_self d fb : is_bytes fb -> length fb = SIZEOF_FADT -> desc_ok d ->
  get_gas (xoffset d) (convert_register d fb) = normalised d fb.
Proof.
  intros Hb Hl (_ & Hx & _). unfold convert_register, normalised. cbv zeta. destruct (truthy _); [done|].
  apply get_put_gas; [lia|]. apply init_io_ok; [|apply (fld_bound 1 _ fb Hb)].
  pose proof (fld_bound 4 (offset d) fb Hb). lia.
Qed.

Lemma convert_legacy d fb n off : length fb = SIZEOF_FADT -> desc_ok d -> (off + n <= x_firmware_ctrl_at)%nat ->
  fld n off (convert_register d fb) = fld n off fb.
Proof.
  intros Hl ((k & Hk) & Hx & _) Ho. unfold convert_register. destruct (truthy _); [done|].
  unfold put_gas. apply fld_outside; rewrite !length_app, !length_to_le; unfold x_firmware_ctrl_at in *; lia.
Qed.

Lemma convert_other d e fb : length fb = SIZEOF_FADT -> desc_ok d -> desc_ok e -> xoffset d <> xoffset e ->
  get_gas (xoffset e) (convert_register d fb) = get_gas (xoffset e) fb.
Proof.
  intros Hl ((k & Hk) & Hx & _) ((j & Hj) & _ & _) Hne. unfold convert_register. destruct (truthy _); [done|].
  unfold put_gas. apply get_gas_outside; rewrite !length_app, !length_to_le; lia.
Qed.

Lemma normalised_after d e fb : length fb = SIZEOF_FADT -> desc_ok d -> desc_ok e -> xoffset d <> xoffset e ->
  normalised e (convert_register d fb) = normalised e fb.
Proof.
  intros Hl Hd He Hne. unfold normalised. rewrite convert_other by done.
  destruct He as (_ & _ & H4 & H1). by rewrite !convert_legacy.
Qed.

(** Blocks that are not converted any more keep what they have. *)
Lemma fold_keeps ds : forall e fb, length fb = SIZEOF_FADT -> is_bytes fb -> Forall desc_ok ds -> desc_ok e ->
  xoffset e ∉ map xoffset ds ->
  get_gas (xoffset e) (fold_left (fun fb d => convert_register d fb) ds fb) = get_gas (xoffset e) fb.
Proof.
  induction ds as [|d ds IH]; intros e fb Hl Hb Hds He Hn; [done|]. cbn [fold_left map] in *.
  inversion_clear Hds as [|? ? Hd Hds']. apply not_elem_of_cons in Hn as [Hne Hn].
  destruct (convert_keeps_bytes d fb Hb Hl Hd). rewrite IH by done. by apply convert_other.
Qed.

Lemma fold_convert ds : forall fb, length fb = SIZEOF_FADT -> is_bytes fb -> Forall desc_ok ds -> NoDup (map xoffset ds) ->
  forall e, e ∈ ds -> get_gas (xoffset e) (fold_left (fun fb d => convert_register d fb) ds fb) = normalised e fb.
Proof.
  induction ds as [|d ds IH]; intros fb Hl Hb Hds Hn e He; [by apply not_elem_of_nil in He|]. cbn [fold_left map] in *.
  inversion_clear Hds as [|? ? Hd Hds']. apply NoDup_cons in Hn as [Hnd Hn].
  destruct (convert_keeps_bytes d fb Hb Hl Hd) as [Hb' Hl']. apply elem_of_cons in He as [->|He].
  - rewrite fold_keeps by done. by apply convert_self.
  - rewrite IH by done. assert (He2 : desc_ok e) by (by eapply Forall_forall).
    apply normalised_after; try done. intros E. apply Hnd. rewrite E. by apply list_elem_of_fmap_2.
Qed.

Lemma fold_length ds : forall fb, length fb = SIZEOF_FADT -> is_bytes fb -> Forall desc_ok ds ->
  length (fold_left (fun fb d => convert_register d fb) ds fb) = SIZEOF_FADT.
Proof.
  induction ds as [|d ds IH]; intros fb Hl Hb Hds; [done|]. cbn [fold_left]. inversion_clear Hds as [|? ? Hd Hds'].
  destruct (convert_keeps_bytes d fb Hb Hl Hd). by apply IH.
Qed.
End Convert.

(** ** The registers the rest of uACPI uses *)

Lemma firmware_ctrl_elsewhere d fb : length fb = SIZEOF_FADT -> desc_ok d ->
  normalised d (prefer_firmware_ctrl fb) = normalised d fb.
Proof.
  intros Hl ((k & Hk) & Hx & H4 & H1). unfold prefer_firmware_ctrl. destruct (truthy _); [|done].
  unfold normalised, put, x_firmware_ctrl_at, SIZEOF_FADT in *.
  rewrite get_gas_outside, !fld_outside by (rewrite ?length_to_le; lia). done.
Qed.

Lemma firmware_ctrl_bytes fb : is_bytes fb -> length fb = SIZEOF_FADT ->
  is_bytes (prefer_firmware_ctrl fb) /\ length (prefer_firmware_ctrl fb) = SIZEOF_FADT.
Proof.
  intros Hb Hl. unfold prefer_firmware_ctrl. destruct (truthy _); [|done].
  split; [|by rewrite length_put by (rewrite Hl; unfold SIZEOF_FADT, x_firmware_ctrl_at; lia)].
  unfold put, write_at. repeat apply Forall_app_2; first [exact (to_le_bytes _ _) | by apply Forall_take | by apply Forall_drop].
Qed.

(** What [Registers] is built on. *)
Definition hw_of_tables (s : tables_state) : fixed_hw :=
  FixedHw (pm1a_status_blk s) (pm1b_status_blk s) (pm1a_enable_blk s) (pm1b_enable_blk s)
    (get_gas x_pm1a_cnt_blk_at (fadt s)) (get_gas x_pm1b_cnt_blk_at (fadt s)) (get_gas x_pm_tmr_blk_at (fadt s))
    (get_gas x_pm2_cnt_blk_at (fadt s)) (get_gas sleep_control_reg_at (fadt s)) (get_gas sleep_status_reg_at (fadt s))
    (get_gas reset_reg_at (fadt s)) (fld 4 smi_cmd_at (fadt s)).

Definition PM1A_EVT := RegisterDescription 56 x_pm1a_evt_blk_at 88.
Definition PM1B_EVT := RegisterDescription 60 x_pm1b_evt_blk_at 88.
Definition PM1A_CNT := RegisterDescription 64 x_pm1a_cnt_blk_at 89.
Definition PM1B_CNT := RegisterDescription 68 x_pm1b_cnt_blk_at 89.
Definition PM2_CNT := RegisterDescription 72 x_pm2_cnt_blk_at 90.
Definition PM_TMR := RegisterDescription 76 x_pm_tmr_blk_at 91.

(** A register of [n] bytes in port space. *)
Definition io_register (port n : Z) : acpi_gas := Gas UACPI_ADDRESS_SPACE_SYSTEM_IO (8 * n) 0 0 port.

(** The two halves of an event block, in bytes. *)
Definition halves (g st en : acpi_gas) : Prop :=
  let n := register_bit_width g / 16 in
  address g <> 0 -> st = io_register (address g) n /\ en = io_register (u64 (address g + n)) n.

Lemma split_halves g d0 d1 : 0 <= register_bit_width g < 256 ->
  halves g (fst (split_one_block g d0 d1)) (snd (split_one_block g d0 d1)).
Proof.
  intros Hw Hz. unfold split_one_block. rewrite (proj2 (Z.eqb_neq _ 0)) by done. cbn [fst snd].
  rewrite Z.div_div by lia. change (8 * 2) with 16. unfold gas_init_system_io, io_register.
  set (n := register_bit_width g / 16). assert (Hn : 0 <= n < 16) by (subst n; Z.to_euclidean_division_equations; lia).
  rewrite u8_small by lia. rewrite Z.min_r by lia. by rewrite Z.mul_comm.
Qed.

Lemma normalised_width d fb : is_bytes fb -> 0 <= register_bit_width (normalised d fb) < 256.
Proof.
  intros Hb. unfold normalised. cbv zeta. destruct (truthy _); [exact (fld_bound 1 _ fb Hb)|].
  unfold gas_init_system_io. cbn [register_bit_width]. pose proof (fld_bound 1 (length_offset d) fb Hb). lia.
Qed.

(** C36: the fixed registers come out of the FADT.  On a
    machine that is not hardware-reduced, whatever the table holds, each
    control block is the extended address the table gives or, where that is
    absent, the legacy port with its length; and each PM1 event block present
    is cut into a status and an enable register of half its bytes each, one
    after the other: what [Registers] reads and writes.  The halves are in
    I/O space whatever space the table names for the block, as in the code. *)
Theorem fixed_hardware_from_fadt (s : tables_state) (Hb : is_bytes (fadt s)) (Hl : length (fadt s) = SIZEOF_FADT)
    (Hr : is_hardware_reduced s = false) :
  exists s', complete_fadt s = Some (tt, s')
  /\ let hw := hw_of_tables s' in
     x_pm1a_cnt_blk hw = normalised PM1A_CNT (fadt s) /\ x_pm1b_cnt_blk hw = normalised PM1B_CNT (fadt s)
     /\ x_pm2_cnt_blk hw = normalised PM2_CNT (fadt s) /\ x_pm_tmr_blk hw = normalised PM_TMR (fadt s)
     /\ halves (normalised PM1A_EVT (fadt s)) (Registers.pm1a_status_blk hw) (Registers.pm1a_enable_blk hw)
     /\ halves (normalised PM1B_EVT (fadt s)) (Registers.pm1b_status_blk hw) (Registers.pm1b_enable_blk hw).
Proof.
  destruct (firmware_ctrl_bytes (fadt s) Hb Hl) as [Hb1 Hl1].
  assert (Hall : forall d, d ∈ fadt_registers ->
    get_gas (xoffset d) (convert_registers_to_gas (prefer_firmware_ctrl (fadt s))) = normalised d (fadt s)).
  { intros d Hd. pose proof fadt_registers_ok as Hok. rewrite <- firmware_ctrl_elsewhere by (done || by eapply Forall_forall).
    apply fold_convert; [done | done | done | | done]. by apply (bool_decide_unpack _). }
  set (fb := convert_registers_to_gas (prefer_firmware_ctrl (fadt s))) in *.
  exists (let s1 := s <| fadt := fb |> in
    let a := split_one_block (get_gas x_pm1a_evt_blk_at fb) (pm1a_status_blk s) (pm1a_enable_blk s) in
    let b := split_one_block (get_gas x_pm1b_evt_blk_at fb) (pm1b_status_blk s) (pm1b_enable_blk s) in
    s1 <| pm1a_status_blk := fst a |> <| pm1a_enable_blk := snd a |>
       <| pm1b_status_blk := fst b |> <| pm1b_enable_blk := snd b |>).
  split.
  { unfold complete_fadt, update_fadt, split_event_blocks. mstep.
    change (is_hardware_reduced (s <| fadt := prefer_firmware_ctrl (fadt s) |>)) with (is_hardware_reduced s). by rewrite Hr. }
  assert (Hm : forall d, bool_decide (d ∈ fadt_registers) = true -> get_gas (xoffset d) fb = normalised d (fadt s))
    by (intros d Hd; apply Hall; exact (bool_decide_eq_true_1 _ Hd)).
  assert (Hs : forall d st en, bool_decide (d ∈ fadt_registers) = true ->
    halves (normalised d (fadt s)) (fst (split_one_block (get_gas (xoffset d) fb) st en)) (snd (split_one_block (get_gas (xoffset d) fb) st en))).
  { intros d st en Hd. rewrite Hm by done. apply split_halves. by apply normalised_width. }
  split_and!; [by apply (Hm PM1A_CNT) | by apply (Hm PM1B_CNT) | by apply (Hm PM2_CNT) | by apply (Hm PM_TMR)
    | by apply (Hs PM1A_EVT) | by apply (Hs PM1B_EVT)].
Qed.

(** Port 0x600 for the PM1a events, 4 bytes; port 0x604 for PM1a control, 2
    bytes, in the legacy fields only. *)
Definition legacy_fadt : list Z :=
  put 1 89 2 (put 1 88 4 (put 4 64 0x604 (put 4 56 0x600 (replicate SIZEOF_FADT 0)))).

Lemma fixed_hardware_from_fadt_witness :
  let s := (sample_state 0) <| fadt := legacy_fadt |> in
  exists s', complete_fadt s = Some (tt, s')
  /\ x_pm1a_cnt_blk (hw_of_tables s') = io_register 0x604 2
  /\ Registers.pm1a_status_blk (hw_of_tables s') = io_register 0x600 2
  /\ Registers.pm1a_enable_blk (hw_of_tables s') = io_register 0x602 2.
Proof.
  intros s.
  assert (Hb : is_bytes (fadt s)) by (apply check_bytes; vm_compute; reflexivity).
  assert (Hl : length (fadt s) = SIZEOF_FADT) by (vm_compute; reflexivity).
  destruct (fixed_hardware_from_fadt s Hb Hl eq_refl) as (s' & E & H1 & _ & _ & _ & H2 & _).
  exists s'. split; [exact E|]. split; [rewrite H1; vm_compute; reflexivity|].
  assert (Hz : address (normalised PM1A_EVT (fadt s)) <> 0) by (vm_compute; discriminate).
  destruct (H2 Hz) as [-> ->]. split; vm_compute; reflexivity.
Defined.

(** ** Subtables *)

(** Where the walk goes from [pos] with [left] bytes left: the entries it
    hands out, in order, until a decision or the end. *)
Inductive walk (table : list Z) (dec : Z -> uacpi_iteration_decision) : Z -> Z -> list Z -> uacpi_status -> Prop :=
  | walk_end pos left : left <= SIZEOF_ENTRY_HDR -> walk table dec pos left [] UACPI_STATUS_OK
  | walk_corrupt pos left len : SIZEOF_ENTRY_HDR < left -> table !! Z.to_nat (pos + 1) = Some len ->
      left < len \/ len < SIZEOF_ENTRY_HDR -> walk table dec pos left [] UACPI_STATUS_INVALID_TABLE_LENGTH
  | walk_stop pos left len : SIZEOF_ENTRY_HDR < left -> table !! Z.to_nat (pos + 1) = Some len ->
      SIZEOF_ENTRY_HDR <= len <= left -> dec pos = UACPI_ITERATION_DECISION_BREAK ->
      walk table dec pos left [pos] UACPI_STATUS_OK
  | walk_bad pos left len : SIZEOF_ENTRY_HDR < left -> table !! Z.to_nat (pos + 1) = Some len ->
      SIZEOF_ENTRY_HDR <= len <= left -> dec pos = UACPI_ITERATION_DECISION_NEXT_PEER ->
      walk table dec pos left [pos] UACPI_STATUS_INVALID_ARGUMENT
  | walk_next pos left len visited ret : SIZEOF_ENTRY_HDR < left -> table !! Z.to_nat (pos + 1) = Some len ->
      SIZEOF_ENTRY_HDR <= len <= left -> dec pos = UACPI_ITERATION_DECISION_CONTINUE ->
      walk table dec (pos + len) (left - len) visited ret -> walk table dec pos left (pos :: visited) ret.

Definition trace (dec : Z -> uacpi_iteration_decision) (seen : list Z) (pos : Z) : list Z * uacpi_iteration_decision :=
  (seen ++ [pos], dec pos).

Lemma subtable_loop_walk fuel table dec : forall pos left seen, 0 <= pos -> pos + left <= Z.of_nat (length table) ->
  left <= Z.of_nat fuel ->
  exists ret visited, subtable_loop (trace dec) fuel table pos left seen = Some (ret, seen ++ visited)
    /\ walk table dec pos left visited ret.
Proof.
  induction fuel as [|n IH]; intros pos left seen Hp Hl Hf; cbn [subtable_loop]; destruct (Z.leb_spec left SIZEOF_ENTRY_HDR) as [He|He].
  1, 3: exists UACPI_STATUS_OK, []; rewrite app_nil_r; split; [done | by apply walk_end].
  { unfold SIZEOF_ENTRY_HDR in *. lia. }
  destruct (lookup_lt_is_Some_2 table (Z.to_nat (pos + 1))) as [len Hlen]; [unfold SIZEOF_ENTRY_HDR in *; lia|].
  rewrite Hlen. cbn [mbind option_bind]. destruct ((left <? len) || (len <? SIZEOF_ENTRY_HDR)) eqn:Hc.
  { exists UACPI_STATUS_INVALID_TABLE_LENGTH, []. rewrite app_nil_r. split; [done|].
    eapply walk_corrupt; [done | done|]. by zify_bool; auto. }
  zify_bool. unfold trace at 1. destruct (dec pos) eqn:Hd.
  - destruct (IH (pos + len) (left - len) (seen ++ [pos])) as (ret & visited & E & W); [unfold SIZEOF_ENTRY_HDR in *; lia..|].
    exists ret, (pos :: visited). rewrite E, <- app_assoc. split; [done|]. eapply (walk_next _ _ pos left len); first [assumption | split; assumption].
  - exists UACPI_STATUS_OK, [pos]. split; [done|]. eapply (walk_stop _ _ pos left len); first [assumption | split; assumption].
  - exists UACPI_STATUS_INVALID_ARGUMENT, [pos]. split; [done|]. eapply (walk_bad _ _ pos left len); first [assumption | split; assumption].
Qed.

(** Every entry visited lies in the table. *)
Lemma walk_inside table dec pos left visited ret : walk table dec pos left visited ret -> 0 <= pos ->
  Forall (fun p => pos <= p /\ exists len, table !! Z.to_nat (p + 1) = Some len
    /\ SIZEOF_ENTRY_HDR <= len /\ p + len <= pos + left) visited.
Proof.
  induction 1 as [| |pos left len H1 H2 H3 H4|pos left len H1 H2 H3 H4|pos left len visited ret H1 H2 H3 H4 W IH]; intros Hp;
    [done | done | | |].
  1, 2: apply Forall_singleton; split; [lia|]; exists len; split; [done | lia].
  apply Forall_cons_2; [split; [lia|]; exists len; split; [done | lia]|].
  eapply Forall_impl; [apply IH; unfold SIZEOF_ENTRY_HDR in *; lia|].
  intros p (Hpp & k & Hk & Hk2 & Hk3). split; [unfold SIZEOF_ENTRY_HDR in *; lia|]. exists k. split; [done | lia].
Qed.

(** C37: the walk over the entries of a table such as the MADT ends, whatever
    the bytes of the table and whatever the callback decides; the entries it
    hands to the callback follow one another from the end of the table's
    header, and each lies inside the table with the length it claims.  A
    header that is longer than the table is an error. *)
Theorem subtables_stay_inside (table : list Z) (hdr_size : Z) (dec : Z -> uacpi_iteration_decision)
    (Hh : 0 <= hdr_size < 2 ^ 32) (Hlen : hdr_length (parse_hdr table) = Z.of_nat (length table))
    (Hb : Z.of_nat (length table) < 2 ^ 32) :
  exists ret visited, uacpi_for_each_subtable (trace dec) table hdr_size [] = Some (ret, visited)
  /\ (if hdr_size <=? Z.of_nat (length table)
      then walk table dec hdr_size (Z.of_nat (length table) - hdr_size) visited ret
      else ret = UACPI_STATUS_INVALID_TABLE_LENGTH /\ visited = [])
  /\ Forall (fun p => hdr_size <= p /\ exists len, table !! Z.to_nat (p + 1) = Some len
       /\ SIZEOF_ENTRY_HDR <= len /\ p + len <= Z.of_nat (length table)) visited.
Proof.
  unfold uacpi_for_each_subtable. rewrite Hlen. set (n := Z.of_nat (length table)) in *.
  destruct (Z.leb_spec hdr_size n) as [Hs|Hs].
  - rewrite u64_small by lia. rewrite (proj2 (Z.ltb_ge _ _)) by lia.
    destruct (subtable_loop_walk (Z.to_nat (n - hdr_size)) table dec hdr_size (n - hdr_size) []) as (ret & visited & E & W); [lia..|].
    exists ret, visited. split_and!; [exact E | done|]. eapply Forall_impl; [exact (walk_inside _ _ _ _ _ _ W (proj1 Hh))|].
    intros p (Hp & k & Hk & Hk2 & Hk3). split; [done|]. exists k. split_and!; [done | done | lia].
  - rewrite (proj2 (Z.ltb_lt _ _)). 2: { unfold wrap. rewrite <- (Z_mod_plus_full _ 1), Z.mod_small by lia. lia. }
    exists UACPI_STATUS_INVALID_TABLE_LENGTH, []. by split_and!.
Qed.

(** A MADT with a local APIC and an entry that claims no bytes. *)
Definition sample_madt : list Z := sample_table (cstr "APIC") 3 (replicate 8 0 ++ [0; 8; 0; 0; 1; 0; 0; 0] ++ [1; 0; 0; 0]).

Lemma subtables_stay_inside_witness :
  exists ret visited, uacpi_for_each_subtable (trace (fun _ => UACPI_ITERATION_DECISION_CONTINUE)) sample_madt 44 [] = Some (ret, visited)
  /\ walk sample_madt (fun _ => UACPI_ITERATION_DECISION_CONTINUE) 44 12 visited ret.
Proof.
  destruct (subtables_stay_inside sample_madt 44 (fun _ => UACPI_ITERATION_DECISION_CONTINUE) ltac:(lia)
    ltac:(vm_compute; reflexivity) ltac:(vm_compute; reflexivity)) as (ret & visited & E & W & _).
  exists ret, visited. split; [exact E | exact W].
Defined.
