(* ===== verification/FirmwareSpec.v ===== *)
(** * Firmware and handlers that installation cannot cope with, and a table's way from memory to its user *)
From S2P Require Import Prelude Status KernelSync Alloc Vmm BitIo FieldIo Gas Fadt Tables TableSamples TablesSpec SearchSpec InstallSpec RequestSpec.

Section Firmware.
Context {Plat : Platform} {Bytes : LawfulPlatform} {Alloc : Allocator} {Lawful : LawfulAllocator}.
Implicit Types (s : tables_state) (l : list uacpi_installed_table) (extra : list (Z * Z)).
Context (fl : Z) (maps : forall n a len, refuses n a len = false).

(** ** Where mappings do not fail *)

Lemma map_ok s l extra a n : inv fl s l extra -> pa_to_va a <> 0 ->
  exists s', kernel_map a n s = Some (pa_to_va a, s') /\ frame s s' /\ inv fl s' l ((pa_to_va a, n) :: extra).
Proof.
  intros I Ha. destruct (map_run s l extra a n (inv_owns _ _ _ _ I)) as (p & s1 & E & F & _ & Hp).
  destruct Hp as [(_ & [Hr|Hr] & _)|(_ & -> & O1)]; [by rewrite maps in Hr | done|].
  exists s1. split_and!; [done | done | by eapply inv_frame].
Qed.

Lemma header_ok s l extra phys : inv fl s l extra -> pa_to_va phys <> 0 ->
  exists s', get_external_table_header phys s = Some ((UACPI_STATUS_OK, header phys), s') /\ frame s s' /\ inv fl s' l extra.
Proof.
  intros I Ha. destruct (map_ok s l extra phys SIZEOF_SDT_HDR I Ha) as (s1 & E & F & I1).
  unfold get_external_table_header. rewrite (bind_run _ _ _ _ _ E), (proj2 (Z.eqb_neq _ 0)) by done.
  rewrite (bind_run _ _ _ _ _ (read_bytes_run s1 (pa_to_va phys) SIZEOF_SDT_HDR (pa_to_va phys) (Z.to_nat SIZEOF_SDT_HDR)
    (owns_mapped _ _ _ _ (inv_owns _ _ _ _ I1) (list_elem_of_here _ _)) ltac:(lia) ltac:(unfold SIZEOF_SDT_HDR; lia))).
  destruct (unmap_run s1 _ _ _ _ (inv_owns _ _ _ _ I1)) as (s2 & E2 & F2 & _ & O2). rewrite (bind_run _ _ _ _ _ E2).
  exists s2. split_and!; [done | by etrans | by eapply inv_frame].
Qed.

Lemma signature_ok s l extra b e : inv fl s l extra -> fatal_sig fl = false ->
  uacpi_check_table_signature b e s = Some (UACPI_STATUS_OK, s).
Proof.
  intros I Hs. unfold uacpi_check_table_signature. destruct (uacpi_signatures_match b e); [done|].
  unfold uacpi_check_flag. mstep. rewrite (inv_flags _ _ _ _ I). unfold fatal_sig in Hs. by rewrite Hs.
Qed.

Lemma verify_ok s l extra p n : inv fl s l extra -> lenient fl -> (p, n) ∈ extra -> 0 <= n ->
  uacpi_verify_table_checksum p n s = Some (UACPI_STATUS_OK, s).
Proof.
  intros I Hc Hin Hn. rewrite (verify_run s p n) by (done || by eapply owns_mapped; [apply I|]).
  unfold csum_status, fatal_csum. rewrite (inv_flags _ _ _ _ I), (proj2 (Z.eqb_neq _ _) Hc). by rewrite orb_true_r.
Qed.

Lemma fadt_validated b want : is_fadt b = true -> validated fl b want = true.
Proof.
  intros Hf. unfold validated. rewrite Hf, orb_true_r. rewrite andb_true_r. apply negb_true_iff.
  unfold is_fadt, uacpi_signatures_match in *. apply bool_decide_eq_true in Hf. apply bool_decide_eq_false. rewrite Hf. done.
Qed.

(** ** A FADT that names itself as the DSDT *)

Lemma self_fadt_none phys : pa_to_va phys <> 0 -> is_fadt (header phys) = true -> 8 <= table_length phys ->
  fatal_sig fl = false -> lenient fl -> truthy phys = true -> (forall fb, dsdt_of (pa_to_va phys) fb = phys) ->
  forall depth s l extra expected, inv fl s l extra -> installation_handler s = None ->
  install_physical_n depth phys UACPI_TABLE_ORIGIN_FIRMWARE_PHYSICAL expected false s = None.
Proof.
  intros Hp Hf H8 Hsig Hcs Ht Hd depth. induction depth as [|n IH]; intros s l extra expected I Hh; [done|].
  cbn [install_physical_n]. unfold install_physical_body.
  destruct (header_ok s l extra phys I Hp) as (s1 & E1 & F1 & I1). rewrite (bind_run _ _ _ _ _ E1). cbn [is_ok negb].
  rewrite (bind_run _ _ s1 s1 UACPI_STATUS_OK) by (destruct expected; [by eapply signature_ok | done]). cbn [is_ok negb].
  rewrite (bind_run (gets _) _ s1 s1 None) by (mstep; by rewrite (fr_handler _ _ F1), Hh).
  rewrite (bool_decide_false (is_Some None)) by (intros [? ?]; done). cbn [orb andb]. rewrite bind_ret_l.
  rewrite decide_True by done.
  rewrite (bind_run _ _ s1 s1 None) by (unfold ask_handler; mstep; by rewrite (fr_handler _ _ F1), Hh).
  apply bind_none. rewrite (verify_and_install_steps fl) by apply I1. rewrite fadt_validated by done. apply bind_none.
  unfold validate_table. rewrite Z.eqb_refl. fold (table_length phys).
  destruct (map_ok s1 l extra phys (table_length phys) I1 Hp) as (s2 & E2 & F2 & I2).
  rewrite (bind_run _ _ _ _ _ E2), (proj2 (Z.eqb_neq _ 0)) by done.
  rewrite (bind_run _ _ _ _ _ (verify_ok s2 _ _ _ _ I2 Hcs (list_elem_of_here _ _) (proj1 (table_length_range phys)))).
  fold (is_fadt (header phys)). rewrite Hf. cbn [is_ok andb]. apply bind_none. unfold initialize_fadt.
  destruct (load_fadt_run s2 (pa_to_va phys) (table_length phys)) as (f & Hel & E3);
    [eapply owns_mapped; [apply I2 | apply list_elem_of_here] | done | rewrite <- table_length_in_memory; lia|].
  rewrite (bind_run _ _ _ _ _ E3), Hd, Ht. apply bind_none. unfold status_of. apply bind_none.
  destruct (Hel s2) as (Et & Em & Eh & K).
  apply (IH _ l ((pa_to_va phys, table_length phys) :: extra)).
  - eapply inv_kept; [exact I2 | done | by apply (owns_same s2); [apply I2|..]|].
    pose proof (inv_heap _ _ _ _ I2) as Hheap. unfold heap_ok in *. by rewrite Et, Eh, (kept_early _ _ K).
  - by rewrite (kept_handler _ _ K), (fr_handler _ _ F2), (fr_handler _ _ F1).
Qed.

(** ** A FACS the host denies *)

Lemma denied_run depth s l phys expected h : inv fl s l [] -> pa_to_va phys <> 0 -> fatal_sig fl = false ->
  installation_handler s = Some h -> fst (h (pa_to_va phys)) = UACPI_TABLE_INSTALLATION_DISPOSITON_DENY ->
  exists s', install_physical_n (S depth) phys UACPI_TABLE_ORIGIN_FIRMWARE_PHYSICAL (Some expected) true s
    = Some ((UACPI_STATUS_OK, None), s') /\ frame s s' /\ inv fl s' l [].
Proof.
  intros I Hp Hsig Hh Hdeny. cbn [install_physical_n]. unfold install_physical_body.
  destruct (header_ok s l [] phys I Hp) as (s1 & E1 & F1 & I1). rewrite (bind_run _ _ _ _ _ E1). cbn [is_ok negb].
  rewrite (bind_run _ _ _ _ _ (signature_ok s1 l [] _ expected I1 Hsig)). cbn [is_ok negb].
  rewrite (bind_run (gets _) _ s1 s1 (Some h)) by (mstep; by rewrite (fr_handler _ _ F1), Hh).
  rewrite orb_true_r. cbn [andb]. fold (table_length phys).
  destruct (map_ok s1 l [] phys (table_length phys) I1 Hp) as (s2 & E2 & F2 & I2).
  rewrite (bind_run _ _ _ _ _ E2), (proj2 (Z.eqb_neq _ 0)) by done. rewrite decide_True by done.
  rewrite (bind_run _ _ s2 s2 (Some (UACPI_STATUS_DENIED, None))).
  2: { unfold ask_handler. mstep. rewrite (fr_handler _ _ F2), (fr_handler _ _ F1), Hh.
       destruct (h (pa_to_va phys)) as [d a]. cbn [fst] in Hdeny. by rewrite Hdeny. }
  rewrite bind_ret_l. unfold finish_physical. cbn [is_ok andb]. rewrite (proj2 (Z.eqb_neq _ 0)) by done.
  destruct (unmap_run s2 _ _ _ _ (inv_owns _ _ _ _ I2)) as (s3 & E3 & F3 & _ & O3). rewrite (bind_run _ _ _ _ _ E3).
  exists s3. split; [done|]. split; [etrans; [exact F1 | by etrans] | by eapply inv_frame].
Qed.
End Firmware.

(** C39: a FADT whose pointer to the DSDT leads back to the FADT is never
    installed: unless a wrong signature is fatal, which it is not by default,
    installing the DSDT it names installs the FADT again, and so on; no depth
    of nesting is enough, and the stack of the kernel overflows. *)
Theorem self_pointing_fadt_recurses {Plat : Platform} {Bytes : LawfulPlatform} {Alloc : Allocator} {Lawful : LawfulAllocator}
    (fl : Z) (s : tables_state) (l : list uacpi_installed_table) (phys : Z) (depth : nat)
    (maps : forall n a len, refuses n a len = false) (Hp : pa_to_va phys <> 0)
    (Hf : is_fadt (header phys) = true) (H8 : 8 <= table_length phys) (Hsig : fatal_sig fl = false) (Hcs : lenient fl)
    (Ht : truthy phys = true) (Hd : forall fb, dsdt_of (pa_to_va phys) fb = phys)
    (S : settled fl s l) (Hh : installation_handler s = None) :
  uacpi_table_install_physical_with_origin depth phys UACPI_TABLE_ORIGIN_FIRMWARE_PHYSICAL false s = None.
Proof.
  unfold uacpi_table_install_physical_with_origin, with_table_mutex.
  rewrite (bind_run _ _ _ _ _ (acquire_run s (settled_mutex _ _ _ S))). cbn [is_ok negb]. apply bind_none.
  apply (self_fadt_none fl maps phys Hp Hf H8 Hsig Hcs Ht Hd depth (set_locked true s) l []); [|done].
  apply inv_locked, S.
Qed.

Lemma self_pointing_fadt_recurses_witness :
  uacpi_table_install_physical_with_origin (Plat := sample_machine) (Alloc := bump) 1000 0x3000
    UACPI_TABLE_ORIGIN_FIRMWARE_PHYSICAL false (sample_state 0) = None.
Proof.
  apply (self_pointing_fadt_recurses (Plat := sample_machine) (Bytes := sample_lawful) (Alloc := bump) (Lawful := bump_lawful)
    0 (sample_state 0) [] 0x3000 1000).
  - reflexivity.
  - vm_compute. discriminate.
  - vm_compute. reflexivity.
  - vm_compute. discriminate.
  - reflexivity.
  - vm_compute. discriminate.
  - reflexivity.
  - intros fb. vm_compute. reflexivity.
  - exact (sample_settled 0).
  - reflexivity.
Defined.

(** When the host denies the FACS, initialisation takes a pointer nobody
    wrote for the FACS: the installation reports success all the same, its
    caller's [uacpi_table] is left as it was, and the runtime context keeps
    what happened to be on the stack. *)
Theorem denied_facs_dangles {Plat : Platform} {Bytes : LawfulPlatform} {Alloc : Allocator} {Lawful : LawfulAllocator}
    (fl : Z) (s : tables_state) (l : list uacpi_installed_table) (depth : nat) (h : Z -> Z * Z) (uninit : Z)
    (maps : forall n a len, refuses n a len = false) (I : inv fl s l [])
    (Hx : fld 8 x_firmware_ctrl_at (fadt s) <> 0) (Hp : pa_to_va (fld 8 x_firmware_ctrl_at (fadt s)) <> 0)
    (Hsig : fatal_sig fl = false) (Hh : installation_handler s = Some h)
    (Hdeny : fst (h (pa_to_va (fld 8 x_firmware_ctrl_at (fadt s)))) = UACPI_TABLE_INSTALLATION_DISPOSITON_DENY) :
  exists s', install_facs (S depth) uninit s = Some (UACPI_STATUS_OK, s') /\ facs s' = uninit.
Proof.
  unfold install_facs. rewrite (bind_run (gets _) _ s s (fld 8 x_firmware_ctrl_at (fadt s))) by done.
  set (x := fld 8 x_firmware_ctrl_at (fadt s)) in *.
  replace (truthy x) with true by (unfold truthy; by rewrite (proj2 (Z.eqb_neq x 0) Hx)). cbn [negb].
  destruct (denied_run fl maps depth s l x ACPI_FACS_SIGNATURE h I Hp Hsig Hh Hdeny) as (s1 & E & _ & _).
  unfold table_install_physical_with_origin_unlocked. rewrite (bind_run _ _ _ _ _ E). by eexists.
Qed.

Definition facs_state : tables_state :=
  (sample_state 0) <| fadt := put 8 x_firmware_ctrl_at 0x1000 (replicate SIZEOF_FADT 0) |>
    <| installation_handler := Some (fun _ => (UACPI_TABLE_INSTALLATION_DISPOSITON_DENY, 0)) |>.

Lemma denied_facs_dangles_witness :
  exists s', install_facs (Plat := sample_machine) (Alloc := bump) 1 0xDEAD facs_state = Some (UACPI_STATUS_OK, s') /\ facs s' = 0xDEAD.
Proof.
  assert (I : inv 0 facs_state [] []).
  { assert (O : owns facs_state [] []) by (by split; [split|..]).
    split; [done | by right; left | | done | by constructor].
    intros h va [= <-]. by right. }
  apply (denied_facs_dangles (Plat := sample_machine) (Bytes := sample_lawful) (Alloc := bump) (Lawful := bump_lawful)
    0 facs_state [] 0 (fun _ => (UACPI_TABLE_INSTALLATION_DISPOSITON_DENY, 0)) 0xDEAD).
  - reflexivity.
  - exact I.
  - vm_compute. discriminate.
  - vm_compute. discriminate.
  - reflexivity.
  - reflexivity.
  - reflexivity.
Defined.
