(* ===== verification/Objects.v ===== *)
(** * uACPI objects: [extra/uacpi/types.c]

    The values AML computes with: integers, strings, buffers, packages,
    references and the named things, each a counted object over counted
    storage.  The store holds every kind of block by address; [counts] are
    the reference counts of all of them ([Shareable]) and the heap says which
    addresses are live.  To follow a pointer to no block, or to a block of
    another kind, is undefined.

    The members of [uacpi_object]'s union share three words, as in C: the
    integer and every pointer are [word0].  An object on the stack is at
    [local_object].  [fuel] bounds the nesting of the destructors and every
    walk along pointers; running out stands for a walk that never ends. *)
From S2P Require Import Prelude Status Shareable Alloc Mutex Tables.

(** ** Data *)

Inductive uacpi_object_type :=
  | UACPI_OBJECT_UNINITIALIZED | UACPI_OBJECT_INTEGER | UACPI_OBJECT_STRING | UACPI_OBJECT_BUFFER
  | UACPI_OBJECT_PACKAGE | UACPI_OBJECT_FIELD_UNIT | UACPI_OBJECT_DEVICE | UACPI_OBJECT_EVENT
  | UACPI_OBJECT_METHOD | UACPI_OBJECT_MUTEX | UACPI_OBJECT_OPERATION_REGION
  | UACPI_OBJECT_POWER_RESOURCE | UACPI_OBJECT_PROCESSOR | UACPI_OBJECT_THERMAL_ZONE
  | UACPI_OBJECT_BUFFER_FIELD | UACPI_OBJECT_DEBUG | UACPI_OBJECT_REFERENCE
  | UACPI_OBJECT_BUFFER_INDEX.
#[export] Instance uacpi_object_type_eq_dec : EqDecision uacpi_object_type.
Proof. solve_decision. Defined.

Definition object_type_num (t : uacpi_object_type) : Z :=
  match t with
  | UACPI_OBJECT_UNINITIALIZED => 0 | UACPI_OBJECT_INTEGER => 1 | UACPI_OBJECT_STRING => 2
  | UACPI_OBJECT_BUFFER => 3 | UACPI_OBJECT_PACKAGE => 4 | UACPI_OBJECT_FIELD_UNIT => 5
  | UACPI_OBJECT_DEVICE => 6 | UACPI_OBJECT_EVENT => 7 | UACPI_OBJECT_METHOD => 8
  | UACPI_OBJECT_MUTEX => 9 | UACPI_OBJECT_OPERATION_REGION => 10
  | UACPI_OBJECT_POWER_RESOURCE => 11 | UACPI_OBJECT_PROCESSOR => 12
  | UACPI_OBJECT_THERMAL_ZONE => 13 | UACPI_OBJECT_BUFFER_FIELD => 14 | UACPI_OBJECT_DEBUG => 16
  | UACPI_OBJECT_REFERENCE => 20 | UACPI_OBJECT_BUFFER_INDEX => 21
  end.
Definition type_bit (t : uacpi_object_type) : Z := Z.shiftl 1 (object_type_num t).
Definition UACPI_OBJECT_ANY_BIT : Z := 0xFFFFFFFF.

Definition UACPI_REFERENCE_KIND_REFOF : Z := 0.
Definition UACPI_REFERENCE_KIND_LOCAL : Z := 1.
Definition UACPI_REFERENCE_KIND_ARG : Z := 2.
Definition UACPI_REFERENCE_KIND_NAMED : Z := 3.
Definition UACPI_REFERENCE_KIND_PKG_INDEX : Z := 4.
Definition UACPI_STRING_KIND_NORMAL : Z := 0.
Definition UACPI_STRING_KIND_PATH : Z := 1.

Inductive uacpi_assign_behavior :=
  | UACPI_ASSIGN_BEHAVIOR_DEEP_COPY | UACPI_ASSIGN_BEHAVIOR_SHALLOW_COPY.
Inductive uacpi_overflow_behavior :=
  | UACPI_OVERFLOW_ALLOW | UACPI_OVERFLOW_TRUNCATE | UACPI_OVERFLOW_DISALLOW.

(** [word1] is [bit_index] of a buffer field and [buffer] of a buffer index;
    [word2] is [bit_length] with [force_buffer] above it. *)
Record uacpi_object := Object {
  type : uacpi_object_type;
  oflags : Z;
  word0 : Z;
  word1 : Z;
  word2 : Z;
}.
Abbreviation integer := word0.
Abbreviation package := word0.
Abbreviation inner_object := word0.
Abbreviation method := word0.
Abbreviation buffer := word0.
Abbreviation mutex := word0.
Abbreviation event := word0.
Abbreviation op_region := word0.
Abbreviation handlers := word0.
Abbreviation field_unit := word0.
Abbreviation backing := word0.
Abbreviation index_buffer := word1.

Record uacpi_buffer := Buffer { data : Z; bsize : Z }.
Record uacpi_package := Package { elements : Z; count : Z }.
Record mutex_block := MutexBlock { mutex_handle : Z; mutex_owner : Z; mutex_depth : Z; sync_level : Z }.
Record uacpi_event := Event { event_handle : Z }.
Record uacpi_control_method := Method {
  code : Z;
  method_mutex : Z;
  method_size : Z;
  method_sync_level : Z;
  args : Z;
  is_serialized : bool;
  named_objects_persist : bool;
  native_call : bool;
  owns_code : bool;
}.
Record uacpi_operation_region := Region {
  region_handler : Z;
  region_context : Z;
  space : Z;
  state_flags : Z;
  region_offset : Z;
  region_length : Z;
  region_word : Z;
  region_next : Z;
}.
(** Devices, processors and thermal zones; a processor has the last three. *)
Record uacpi_handlers := Handlers {
  address_space_head : Z;
  notify_head : Z;
  processor_id : Z;
  block_address : Z;
  block_length : Z;
}.
Record uacpi_address_space_handler := SpaceHandler {
  handler_callback : Z;
  handler_context : Z;
  handler_next : Z;
  handler_regions : Z;
  handler_space : Z;
  handler_flags : Z;
}.
Record uacpi_device_notify_handler := NotifyHandler {
  notify_callback : Z;
  notify_context : Z;
  notify_next : Z;
}.
(** The words are [region]; [index], [data]; or [bank_region],
    [bank_selection], [bank_value], by the kind. *)
Record field_block := FieldBlock {
  field_kind : Z;
  fword0 : Z;
  fword1 : Z;
  fword2 : Z;
  connection : Z;
}.
Record uacpi_namespace_node := Node {
  name : list Z;
  nflags : Z;
  object : Z;
  parent : Z;
  child : Z;
  next : Z;
}.
#[export] Instance settable_object : Settable uacpi_object := fun o =>
  Object (type o) (oflags o) (word0 o) (word1 o) (word2 o).
#[export] Instance settable_region : Settable uacpi_operation_region := fun r =>
  Region (region_handler r) (region_context r) (space r) (state_flags r) (region_offset r)
    (region_length r) (region_word r) (region_next r).
#[export] Instance settable_handlers : Settable uacpi_handlers := fun h =>
  Handlers (address_space_head h) (notify_head h) (processor_id h) (block_address h) (block_length h).
#[export] Instance settable_space_handler : Settable uacpi_address_space_handler := fun h =>
  SpaceHandler (handler_callback h) (handler_context h) (handler_next h) (handler_regions h)
    (handler_space h) (handler_flags h).
#[export] Instance settable_notify : Settable uacpi_device_notify_handler := fun h =>
  NotifyHandler (notify_callback h) (notify_context h) (notify_next h).
#[export] Instance settable_node : Settable uacpi_namespace_node := fun n =>
  Node (name n) (nflags n) (object n) (parent n) (child n) (next n).
#[export] Instance settable_method : Settable uacpi_control_method := fun m =>
  Method (code m) (method_mutex m) (method_size m) (method_sync_level m) (args m)
    (is_serialized m) (named_objects_persist m) (native_call m) (owns_code m).

Definition UACPI_FIELD_UNIT_KIND_NORMAL : Z := 0.
Definition UACPI_FIELD_UNIT_KIND_INDEX : Z := 1.
Definition UACPI_FIELD_UNIT_KIND_BANK : Z := 2.
Definition UACPI_ADDRESS_SPACE_PCC : Z := 10.
Definition UACPI_ADDRESS_SPACE_TABLE_DATA : Z := 0xDA1A.
Definition UACPI_NAMESPACE_NODE_FLAG_ALIAS : Z := Z.shiftl 1 0.
Definition UACPI_NAMESPACE_NODE_FLAG_DANGLING : Z := Z.shiftl 1 1.
Definition UACPI_NAMESPACE_NODE_FLAG_TEMPORARY : Z := Z.shiftl 1 2.
Definition UACPI_NAMESPACE_NODE_PREDEFINED : Z := Z.shiftl 1 31.

(** A byte of raw memory that was never written is [None]. *)
Record store := Store {
  counts : shareables;
  objects : gmap Z uacpi_object;
  buffers : gmap Z uacpi_buffer;
  datas : gmap Z (list (option Z));
  packages : gmap Z uacpi_package;
  arrays : gmap Z (list Z);
  mutexes_ : gmap Z mutex_block;
  events : gmap Z uacpi_event;
  methods : gmap Z uacpi_control_method;
  regions : gmap Z uacpi_operation_region;
  handler_sets : gmap Z uacpi_handlers;
  space_handlers : gmap Z uacpi_address_space_handler;
  notify_handlers : gmap Z uacpi_device_notify_handler;
  fields : gmap Z field_block;
  nodes : gmap Z uacpi_namespace_node;
  oheap : heap;
  locks : rt;
  tabs : tables_state;
  root_object : Z;
  global_lock : Z;
}.
#[export] Instance settable_store : Settable store := fun s =>
  Store (counts s) (objects s) (buffers s) (datas s) (packages s) (arrays s) (mutexes_ s) (events s)
    (methods s) (regions s) (handler_sets s) (space_handlers s) (notify_handlers s) (fields s) (nodes s)
    (oheap s) (locks s) (tabs s) (root_object s) (global_lock s).

(** Where blocks of a kind are, and a zeroed one. *)
Class Block (A : Type) := {
  blocks : store -> gmap Z A;
  with_blocks : gmap Z A -> store -> store;
  sizeof : Z;
  zeroed : A;
}.
#[export] Instance object_block : Block uacpi_object := {
  blocks := objects; with_blocks m s := s <| objects := m |>; sizeof := 32;
  zeroed := Object UACPI_OBJECT_UNINITIALIZED 0 0 0 0 }.
#[export] Instance buffer_block : Block uacpi_buffer := {
  blocks := buffers; with_blocks m s := s <| buffers := m |>; sizeof := 24; zeroed := Buffer 0 0 }.
#[export] Instance package_block : Block uacpi_package := {
  blocks := packages; with_blocks m s := s <| packages := m |>; sizeof := 24; zeroed := Package 0 0 }.
#[export] Instance mutex_block_ : Block mutex_block := {
  blocks := mutexes_; with_blocks m s := s <| mutexes_ := m |>; sizeof := 32; zeroed := MutexBlock 0 0 0 0 }.
#[export] Instance event_block : Block uacpi_event := {
  blocks := events; with_blocks m s := s <| events := m |>; sizeof := 16; zeroed := Event 0 }.
#[export] Instance method_block : Block uacpi_control_method := {
  blocks := methods; with_blocks m s := s <| methods := m |>; sizeof := 40;
  zeroed := Method 0 0 0 0 0 false false false false }.
#[export] Instance region_block : Block uacpi_operation_region := {
  blocks := regions; with_blocks m s := s <| regions := m |>; sizeof := 64;
  zeroed := Region 0 0 0 0 0 0 0 0 }.
#[export] Instance handlers_block : Block uacpi_handlers := {
  blocks := handler_sets; with_blocks m s := s <| handler_sets := m |>; sizeof := 24;
  zeroed := Handlers 0 0 0 0 0 }.
#[export] Instance space_handler_block : Block uacpi_address_space_handler := {
  blocks := space_handlers; with_blocks m s := s <| space_handlers := m |>; sizeof := 48;
  zeroed := SpaceHandler 0 0 0 0 0 0 }.
#[export] Instance notify_block : Block uacpi_device_notify_handler := {
  blocks := notify_handlers; with_blocks m s := s <| notify_handlers := m |>; sizeof := 24;
  zeroed := NotifyHandler 0 0 0 }.
#[export] Instance field_block_ : Block field_block := {
  blocks := fields; with_blocks m s := s <| fields := m |>; sizeof := 64; zeroed := FieldBlock 0 0 0 0 0 }.
#[export] Instance node_block : Block uacpi_namespace_node := {
  blocks := nodes; with_blocks m s := s <| nodes := m |>; sizeof := 48; zeroed := Node [0; 0; 0; 0] 0 0 0 0 0 }.

Definition SIZEOF_PROCESSOR : Z := 40.
Definition SIZEOF_HANDLE : Z := 8.
Definition local_object : Z := -1.

(** The bits of [power_resource] in the word. *)
Definition system_level (o : uacpi_object) : Z := u8 (word0 o).
Definition resource_order (o : uacpi_object) : Z := u16 (Z.shiftr (word0 o) 16).

Section Objects.
Context {Plat : Platform} {Alloc : Allocator}.
Abbreviation op := (M store).

(** ** Memory *)

Definition load {A} `{Block A} (p : Z) : op A := fun s => a ← blocks s !! p; Some (a, s).
Definition put {A} `{Block A} (p : Z) (a : A) : op unit := fun s =>
  _ ← blocks s !! p; Some (tt, with_blocks (<[p := a]> (blocks s)) s).
Definition update {A} `{Block A} (p : Z) (f : A -> A) : op unit := a ← load p; put p (f a).

Definition kernel_alloc (bytes : Z) : op Z := fun s =>
  let '(p, h) := malloc bytes (oheap s) in Some (p, s <| oheap := h |>).
Definition kernel_free (p : Z) : op unit := fun s =>
  h ← free p (oheap s); Some (tt, s <| oheap := h |>).

(** [uacpi_kernel_alloc_zeroed(sizeof(A))], and [uacpi_free] of such a block
    with the count in its header. *)
Definition alloc_zeroed_of {A} `{Block A} (bytes : Z) : op Z :=
  p ← kernel_alloc bytes;
  _ ← (if p =? 0 then mret tt else modify (fun s => with_blocks (<[p := zeroed]> (blocks s)) s));
  mret p.
Definition alloc_zeroed (A : Type) `{Block A} : op Z := alloc_zeroed_of (A := A) sizeof.
Definition free_block (A : Type) `{Block A} (p : Z) : op unit :=
  _ ← load (A := A) p;
  _ ← kernel_free p;
  modify (fun s => with_blocks (delete p (blocks s)) s <| counts := delete p (counts s) |>).

(** Arrays of pointers, and raw bytes; null is free to free. *)
Definition alloc_array (n : Z) : op Z :=
  p ← kernel_alloc (u64 (n * SIZEOF_HANDLE));
  _ ← (if p =? 0 then mret tt
       else modify (fun s => s <| arrays := <[p := replicate (Z.to_nat n) 0]> (arrays s) |>));
  mret p.
Definition free_array (p : Z) : op unit :=
  _ ← kernel_free p; modify (fun s => s <| arrays := delete p (arrays s) |>).
Definition get_elem (a i : Z) : op Z := fun s =>
  l ← arrays s !! a; x ← l !! Z.to_nat i; Some (x, s).
Definition set_elem (a i x : Z) : op unit := fun s =>
  l ← arrays s !! a; _ ← l !! Z.to_nat i;
  Some (tt, s <| arrays := <[a := <[Z.to_nat i := x]> l]> (arrays s) |>).

Definition alloc_data (n : Z) : op Z :=
  p ← kernel_alloc n;
  _ ← (if p =? 0 then mret tt
       else modify (fun s => s <| datas := <[p := replicate (Z.to_nat n) None]> (datas s) |>));
  mret p.
Definition free_data (p : Z) : op unit :=
  _ ← kernel_free p; modify (fun s => s <| datas := delete p (datas s) |>).
(** The first [n] bytes at [p]. *)
Definition read_data (p n : Z) : op (list (option Z)) := fun s =>
  if n =? 0 then Some ([], s)
  else l ← datas s !! p; if n <=? Z.of_nat (length l) then Some (take (Z.to_nat n) l, s) else None.
Definition write_data (p : Z) (b : list (option Z)) : op unit := fun s =>
  if bool_decide (b = []) then Some (tt, s)
  else l ← datas s !! p;
    if (length b <=? length l)%nat
    then Some (tt, s <| datas := <[p := b ++ drop (length b) l]> (datas s) |>) else None.

(** ** Reference counts, [Shareable] on the counts of the store *)

Definition share {A} (m : M shareables A) : op A := fun s =>
  '(a, c) ← m (counts s); Some (a, s <| counts := c |>).
Definition shareable_ref (p : Z) : op unit := _ ← share (uacpi_shareable_ref p); mret tt.

Definition unref_and_delete_if_last (p : Z) (do_free : Z -> op unit) : op unit :=
  if p =? 0 then mret tt
  else
    bugged ← share (uacpi_bugged_shareable p);
    if (bugged : bool) then mret tt
    else n ← share (uacpi_shareable_unref p); if n =? 1 then do_free p else mret tt.

(** ** Construction *)

Definition buffer_alloc (obj initial_size : Z) : op bool :=
  buf ← alloc_zeroed uacpi_buffer;
  if buf =? 0 then mret false
  else
    _ ← share (uacpi_shareable_init buf);
    if initial_size =? 0 then _ ← update obj (fun o => o <| buffer := buf |>); mret true
    else
      d ← alloc_data initial_size;
      if d =? 0 then _ ← free_block uacpi_buffer buf; mret false
      else
        _ ← put buf (Buffer d initial_size);
        _ ← update obj (fun o => o <| buffer := buf |>);
        mret true.
Definition empty_buffer_or_string_alloc (obj : Z) : op bool := buffer_alloc obj 0.

(** [fill] makes the elements; [uacpi_create_object] is below. *)
Section Packages.
Context (create_uninitialized : op Z).

(** The elements from [i] on, [n] of them. *)
Fixpoint prealloc (n : nat) (a i : Z) : op bool :=
  match n with
  | O => mret true
  | S n' =>
      o ← create_uninitialized;
      _ ← set_elem a i o;
      if o =? 0 then mret false else prealloc n' a (i + 1)
  end.

Definition uacpi_package_fill (pkg num_elements : Z) (prealloc_objects : bool) : op bool :=
  if num_elements =? 0 then mret true
  else
    a ← alloc_array num_elements;
    p ← load pkg;
    _ ← put pkg (Package a (count p));
    if a =? 0 then mret false
    else
      _ ← put pkg (Package a num_elements);
      if (prealloc_objects : bool) then prealloc (Z.to_nat num_elements) a 0 else mret true.

Definition package_alloc (obj initial_size : Z) (prealloc_objects : bool) : op bool :=
  pkg ← alloc_zeroed uacpi_package;
  if pkg =? 0 then mret false
  else
    _ ← share (uacpi_shareable_init pkg);
    ok ← uacpi_package_fill pkg initial_size prealloc_objects;
    if negb ok then _ ← free_block uacpi_package pkg; mret false
    else _ ← update obj (fun o => o <| package := pkg |>); mret true.
End Packages.

(** Native mutexes and events of the kernel, seen as blocks. *)
Definition uacpi_kernel_create_mutex : op Z := kernel_alloc 1.
Definition uacpi_kernel_create_event : op Z := kernel_alloc 1.

Definition uacpi_create_mutex : op Z :=
  m ← alloc_zeroed mutex_block;
  if m =? 0 then mret 0
  else
    _ ← update m (fun b => MutexBlock (mutex_handle b) UACPI_THREAD_ID_NONE (mutex_depth b) (sync_level b));
    h ← uacpi_kernel_create_mutex;
    if h =? 0 then _ ← free_block mutex_block m; mret 0
    else
      _ ← update m (fun b => MutexBlock h (mutex_owner b) (mutex_depth b) (sync_level b));
      _ ← share (uacpi_shareable_init m);
      mret m.
Definition mutex_alloc (obj : Z) : op bool :=
  m ← uacpi_create_mutex; _ ← update obj (fun o => o <| mutex := m |>); mret (truthy m).

Definition event_alloc (obj : Z) : op bool :=
  e ← alloc_zeroed uacpi_event;
  if e =? 0 then mret false
  else
    h ← uacpi_kernel_create_event;
    if h =? 0 then _ ← free_block uacpi_event e; mret false
    else
      _ ← put e (Event h);
      _ ← share (uacpi_shareable_init e);
      _ ← update obj (fun o => o <| event := e |>);
      mret true.

(** [method_alloc], [op_region_alloc], [field_unit_alloc], [processor_alloc],
    [device_alloc] and [thermal_zone_alloc] differ in the type only. *)
Definition storage_alloc (A : Type) `{Block A} (bytes obj : Z) : op bool :=
  p ← alloc_zeroed_of (A := A) bytes;
  if p =? 0 then mret false
  else
    _ ← share (uacpi_shareable_init p);
    _ ← update obj (fun o => o <| word0 := p |>);
    mret true.
Definition method_alloc : Z -> op bool := storage_alloc uacpi_control_method sizeof.
Definition op_region_alloc : Z -> op bool := storage_alloc uacpi_operation_region sizeof.
Definition field_unit_alloc : Z -> op bool := storage_alloc field_block sizeof.
Definition processor_alloc : Z -> op bool := storage_alloc uacpi_handlers SIZEOF_PROCESSOR.
Definition device_alloc : Z -> op bool := storage_alloc uacpi_handlers sizeof.
Definition thermal_zone_alloc : Z -> op bool := storage_alloc uacpi_handlers sizeof.

(** The constructor of an empty package makes no object. *)
Definition empty_package_alloc (obj : Z) : op bool := package_alloc ub obj 0 false.

Definition object_constructor_table (t : uacpi_object_type) : option (Z -> op bool) :=
  match t with
  | UACPI_OBJECT_STRING | UACPI_OBJECT_BUFFER => Some empty_buffer_or_string_alloc
  | UACPI_OBJECT_PACKAGE => Some empty_package_alloc
  | UACPI_OBJECT_FIELD_UNIT => Some field_unit_alloc
  | UACPI_OBJECT_MUTEX => Some mutex_alloc
  | UACPI_OBJECT_EVENT => Some event_alloc
  | UACPI_OBJECT_OPERATION_REGION => Some op_region_alloc
  | UACPI_OBJECT_METHOD => Some method_alloc
  | UACPI_OBJECT_PROCESSOR => Some processor_alloc
  | UACPI_OBJECT_DEVICE => Some device_alloc
  | UACPI_OBJECT_THERMAL_ZONE => Some thermal_zone_alloc
  | _ => None
  end.

Definition uacpi_create_object (t : uacpi_object_type) : op Z :=
  ret ← alloc_zeroed uacpi_object;
  if ret =? 0 then mret 0
  else
    _ ← share (uacpi_shareable_init ret);
    _ ← update ret (fun o => o <| type := t |>);
    match object_constructor_table t with
    | None => mret ret
    | Some ctor =>
        ok ← ctor ret;
        if negb ok then _ ← free_block uacpi_object ret; mret 0 else mret ret
    end.

Definition package_alloc_objects : Z -> Z -> bool -> op bool :=
  package_alloc (uacpi_create_object UACPI_OBJECT_UNINITIALIZED).

(** ** Destruction *)

Definition free_buffer (buf : Z) : op unit :=
  b ← load buf;
  _ ← (if data b =? 0 then mret tt else free_data (data b));
  free_block uacpi_buffer buf.

Definition free_mutex (m : Z) : op unit :=
  b ← load m; _ ← kernel_free (mutex_handle b); free_block mutex_block m.
Definition uacpi_mutex_unref (m : Z) : op unit := unref_and_delete_if_last m free_mutex.

Definition free_event (e : Z) : op unit :=
  b ← load e; _ ← kernel_free (event_handle b); free_block uacpi_event e.

Definition free_address_space_handler (h : Z) : op unit := free_block uacpi_address_space_handler h.
Definition uacpi_address_space_handler_unref (h : Z) : op unit :=
  unref_and_delete_if_last h free_address_space_handler.

Definition free_namespace_node (p : Z) : op unit :=
  n ← load p;
  if has_flag (nflags n) UACPI_NAMESPACE_NODE_PREDEFINED
  then put p (Node (name n) UACPI_NAMESPACE_NODE_PREDEFINED 0 0 0 0)
  else free_block uacpi_namespace_node p.
Definition uacpi_namespace_node_unref (p : Z) : op unit := unref_and_delete_if_last p free_namespace_node.

(** [uacpi_table_unref] on the tables' own state; the heap is one. *)
Definition on_tables {A} (m : M tables_state A) : op A := fun s =>
  '(a, t) ← m ((tabs s) <| theap := oheap s |>); Some (a, s <| tabs := t |> <| oheap := theap t |>).

(** [struct free_queue], and [struct pkg_copy_reqs] below: arrays with inline
    storage of which the code uses the end. *)
Record dyn_array (A : Type) := DynArray { items : list A; storage : Z; capacity : Z }.
#[local] Arguments DynArray {A}.
#[local] Arguments items {A}.
#[local] Arguments storage {A}.
#[local] Arguments capacity {A}.

(** The bytes of the block that replaces a full one. *)
Definition new_bytes (type_size inline_cap cap : Z) : Z :=
  if cap =? 0 then type_size * inline_cap
  else
    let bytes := cap / 2 * type_size in
    let bytes := if bytes =? 0 then bytes + type_size else bytes in
    bytes + cap * type_size.

Section DynArray.
Context {A : Type} (type_size inline_cap : Z).

Definition array_push (q : dyn_array A) (x : A) : op (bool * dyn_array A) :=
  let size := Z.of_nat (length (items q)) in
  let pushed := fun q => DynArray (items q ++ [x]) (storage q) (capacity q) in
  if (inline_cap <=? size) && (size - inline_cap =? capacity q) then
    let bytes := u64 (new_bytes type_size inline_cap (capacity q)) in
    new_buf ← kernel_alloc bytes;
    if new_buf =? 0 then mret (false, q)
    else
      _ ← kernel_free (storage q);
      mret (true, pushed (DynArray (items q) new_buf (bytes / type_size)))
  else mret (true, pushed q).

Definition array_pop (q : dyn_array A) : dyn_array A :=
  DynArray (removelast (items q)) (storage q) (capacity q).
Definition array_clear (q : dyn_array A) : op unit := kernel_free (storage q).
End DynArray.

Abbreviation free_queue := (dyn_array Z).
Definition empty_queue {A} : dyn_array A := DynArray [] 0 0.
Definition free_queue_push : free_queue -> Z -> op (bool * free_queue) := array_push SIZEOF_HANDLE 4.

Section Fuel.
Context (fuel : nat).

(** A walk of [obj] along the references it starts. *)
Definition next_in_chain (o : uacpi_object) : Z :=
  if decide (type o = UACPI_OBJECT_REFERENCE) then inner_object o else 0.

Definition free_address_space_handlers (h : Z) : op unit :=
  loop fuel (fun h =>
    if h =? 0 then mret (inr tt)
    else
      b ← load h;
      _ ← unref_and_delete_if_last h free_address_space_handler;
      mret (inl (handler_next b))) h.
Definition free_device_notify_handlers (h : Z) : op unit :=
  loop fuel (fun h =>
    if h =? 0 then mret (inr tt)
    else
      b ← load h;
      _ ← free_block uacpi_device_notify_handler h;
      mret (inl (notify_next b))) h.
Definition free_handlers (p : Z) : op unit :=
  h ← load p;
  _ ← free_address_space_handlers (address_space_head h);
  free_device_notify_handlers (notify_head h).

(** [free_device], [free_processor] and [free_thermal_zone]. *)
Definition free_device (p : Z) : op unit := _ ← free_handlers p; free_block uacpi_handlers p.
Definition free_processor : Z -> op unit := free_device.
Definition free_thermal_zone : Z -> op unit := free_device.

Definition free_op_region (p : Z) : op unit :=
  r ← load p;
  _ ← (if space r =? UACPI_ADDRESS_SPACE_PCC then free_data (region_word r)
       else if space r =? UACPI_ADDRESS_SPACE_TABLE_DATA then
         _ ← on_tables (uacpi_table_unref (UacpiTable 0 (region_word r))); mret tt
       else mret tt);
  free_block uacpi_operation_region p.

Definition free_method (p : Z) : op unit :=
  m ← load p;
  _ ← unref_and_delete_if_last (method_mutex m) free_mutex;
  _ ← (if negb (native_call m) && owns_code m then free_data (code m) else mret tt);
  free_block uacpi_control_method p.
Definition uacpi_method_unref (p : Z) : op unit := unref_and_delete_if_last p free_method.

Definition uacpi_object_ref (obj : Z) : op unit :=
  loop fuel (fun obj =>
    if obj =? 0 then mret (inr tt)
    else _ ← shareable_ref obj; o ← load obj; mret (inl (next_in_chain o))) obj.

Definition make_chain_bugged (obj : Z) : op unit :=
  loop fuel (fun obj =>
    if obj =? 0 then mret (inr tt)
    else
      _ ← share (uacpi_make_shareable_bugged obj);
      o ← load obj; mret (inl (next_in_chain o))) obj.

(** The destructors call each other: [free_object] and [free_field_unit]
    through the objects and fields they hold. *)
Section Nested.
Context (free_object_rec : Z -> op unit) (free_field_unit_rec : Z -> op unit).

(** *** Dropping a reference to an object and the chain it starts *)

Definition free_chain (obj : Z) : op unit :=
  loop fuel (fun obj =>
    if obj =? 0 then mret (inr tt)
    else
      o ← load obj;
      c ← share (uacpi_shareable_refcount obj);
      _ ← (if c =? 0 then free_object_rec obj else mret tt);
      mret (inl (next_in_chain o))) obj.

(** [false] when a bugged object ends the walk, and the function with it. *)
Definition unref_chain (obj : Z) : op bool :=
  loop fuel (fun obj =>
    if obj =? 0 then mret (inr true)
    else
      bugged ← share (uacpi_bugged_shareable obj);
      if (bugged : bool) then mret (inr false)
      else
        _ ← share (uacpi_shareable_unref obj);
        o ← load obj; mret (inl (next_in_chain o))) obj.

Definition object_unref (this_obj : Z) : op unit :=
  if this_obj =? 0 then mret tt
  else
    walked ← unref_chain this_obj;
    if negb walked then mret tt
    else
      c ← share (uacpi_shareable_refcount this_obj);
      if c =? 0 then free_chain this_obj else mret tt.

(** *** Packages, with a queue in place of recursion *)

Definition free_plain_no_recurse (obj : Z) (queue : free_queue) : op free_queue :=
  o ← load obj;
  if decide (type o = UACPI_OBJECT_PACKAGE) then
    n ← share (uacpi_shareable_unref (package o));
    if 1 <? n then mret queue
    else
      '(_, queue) ← free_queue_push queue (package o);
      _ ← free_block uacpi_object obj;
      mret queue
  else _ ← free_object_rec obj; mret queue.

Definition unref_plain_no_recurse (obj : Z) (queue : free_queue) : op free_queue :=
  n ← share (uacpi_shareable_unref obj);
  if 1 <? n then mret queue else free_plain_no_recurse obj queue.

Definition unref_chain_no_recurse (obj : Z) (queue : free_queue) : op free_queue :=
  loop fuel (fun '(obj, queue) =>
    if obj =? 0 then mret (inr queue)
    else
      o ← load obj;
      n ← share (uacpi_shareable_unref obj);
      queue ← (if 1 <? n then mret queue
               else if decide (type o = UACPI_OBJECT_REFERENCE)
               then _ ← free_block uacpi_object obj; mret queue
               else free_plain_no_recurse obj queue);
      mret (inl (next_in_chain o, queue))) (obj, queue).

Definition unref_object_no_recurse (obj : Z) (queue : free_queue) : op free_queue :=
  o ← load obj;
  if decide (type o = UACPI_OBJECT_REFERENCE) then unref_chain_no_recurse obj queue
  else unref_plain_no_recurse obj queue.

(** The elements of an array from [i] on. *)
Fixpoint unref_elements (n : nat) (a i : Z) (queue : free_queue) : op free_queue :=
  match n with
  | O => mret queue
  | S n' =>
      obj ← get_elem a i;
      queue ← unref_object_no_recurse obj queue;
      unref_elements n' a (i + 1) queue
  end.

Definition release_package (pkg : Z) (queue : free_queue) : op free_queue :=
  p ← load pkg;
  queue ← unref_elements (Z.to_nat (count p)) (elements p) 0 queue;
  _ ← free_array (elements p);
  _ ← free_block uacpi_package pkg;
  mret queue.

Definition free_package (pkg : Z) : op unit :=
  '(_, queue) ← free_queue_push empty_queue pkg;
  queue ← loop fuel (fun queue : free_queue =>
    match last (items queue) with
    | None => mret (inr queue)
    | Some pkg => queue ← release_package pkg (array_pop queue); mret (inl queue)
    end) queue;
  array_clear queue.

(** *** Storage *)

Definition free_field_unit_body (p : Z) : op unit :=
  f ← load p;
  _ ← (if connection f =? 0 then mret tt else object_unref (connection f));
  _ ← (if field_kind f =? UACPI_FIELD_UNIT_KIND_NORMAL then uacpi_namespace_node_unref (fword0 f)
       else if field_kind f =? UACPI_FIELD_UNIT_KIND_BANK then
         _ ← uacpi_namespace_node_unref (fword0 f);
         unref_and_delete_if_last (fword1 f) free_field_unit_rec
       else if field_kind f =? UACPI_FIELD_UNIT_KIND_INDEX then
         _ ← unref_and_delete_if_last (fword0 f) free_field_unit_rec;
         unref_and_delete_if_last (fword1 f) free_field_unit_rec
       else mret tt);
  free_block field_block p.

Definition object_storage_free (obj : Z) : op unit :=
  o ← load obj;
  match type o with
  | UACPI_OBJECT_STRING | UACPI_OBJECT_BUFFER => unref_and_delete_if_last (buffer o) free_buffer
  | UACPI_OBJECT_BUFFER_FIELD => unref_and_delete_if_last (backing o) free_buffer
  | UACPI_OBJECT_BUFFER_INDEX => unref_and_delete_if_last (index_buffer o) free_buffer
  | UACPI_OBJECT_METHOD => uacpi_method_unref (method o)
  | UACPI_OBJECT_PACKAGE => unref_and_delete_if_last (package o) free_package
  | UACPI_OBJECT_FIELD_UNIT => unref_and_delete_if_last (field_unit o) free_field_unit_rec
  | UACPI_OBJECT_MUTEX => uacpi_mutex_unref (mutex o)
  | UACPI_OBJECT_EVENT => unref_and_delete_if_last (event o) free_event
  | UACPI_OBJECT_OPERATION_REGION => unref_and_delete_if_last (op_region o) free_op_region
  | UACPI_OBJECT_PROCESSOR => unref_and_delete_if_last (handlers o) free_processor
  | UACPI_OBJECT_DEVICE => unref_and_delete_if_last (handlers o) free_device
  | UACPI_OBJECT_THERMAL_ZONE => unref_and_delete_if_last (handlers o) free_thermal_zone
  | _ => mret tt
  end.

Definition free_object_body (obj : Z) : op unit :=
  _ ← object_storage_free obj; free_block uacpi_object obj.
End Nested.

Fixpoint free_object_n (n : nat) (obj : Z) : op unit :=
  match n with
  | O => ub
  | S n' => free_object_body (free_object_n n') (free_field_unit_n n') obj
  end
with free_field_unit_n (n : nat) (p : Z) : op unit :=
  match n with
  | O => ub
  | S n' => free_field_unit_body (free_object_n n') (free_field_unit_n n') p
  end.
Definition free_object : Z -> op unit := free_object_n fuel.
Definition free_field_unit : Z -> op unit := free_field_unit_n fuel.
Definition free_object_storage : Z -> op unit := object_storage_free free_object free_field_unit.
Definition uacpi_object_unref : Z -> op unit := object_unref free_object.

(** ** Assignment *)

Definition buffer_alloc_and_store (obj buf_size : Z) (src : op (list (option Z))) : op uacpi_status :=
  ok ← buffer_alloc obj buf_size;
  if negb ok then mret UACPI_STATUS_OUT_OF_MEMORY
  else
    o ← load obj; b ← load (buffer o);
    bytes ← src;
    let copied := take (Z.to_nat buf_size) bytes in
    _ ← write_data (data b) (copied ++ replicate (Z.to_nat buf_size - length copied) (Some 0));
    mret UACPI_STATUS_OK.

Definition assign_buffer (dst src : Z) (behavior : uacpi_assign_behavior) : op uacpi_status :=
  o ← load src;
  match behavior with
  | UACPI_ASSIGN_BEHAVIOR_SHALLOW_COPY =>
      _ ← update dst (fun d => d <| buffer := buffer o |>);
      _ ← shareable_ref (buffer o);
      mret UACPI_STATUS_OK
  | UACPI_ASSIGN_BEHAVIOR_DEEP_COPY =>
      b ← load (buffer o);
      buffer_alloc_and_store dst (bsize b) (read_data (data b) (bsize b))
  end.

Definition assign_mutex (dst src : Z) (behavior : uacpi_assign_behavior) : op uacpi_status :=
  o ← load src;
  match behavior with
  | UACPI_ASSIGN_BEHAVIOR_DEEP_COPY =>
      ok ← mutex_alloc dst;
      if (ok : bool) then
        d ← load dst; m ← load (mutex o);
        _ ← update (mutex d) (fun b => MutexBlock (mutex_handle b) (mutex_owner b) (mutex_depth b) (sync_level m));
        mret UACPI_STATUS_OK
      else mret UACPI_STATUS_OUT_OF_MEMORY
  | UACPI_ASSIGN_BEHAVIOR_SHALLOW_COPY =>
      _ ← update dst (fun d => d <| mutex := mutex o |>);
      _ ← shareable_ref (mutex o);
      mret UACPI_STATUS_OK
  end.

Definition assign_event (dst src : Z) (behavior : uacpi_assign_behavior) : op uacpi_status :=
  o ← load src;
  match behavior with
  | UACPI_ASSIGN_BEHAVIOR_DEEP_COPY =>
      ok ← event_alloc dst;
      mret (if (ok : bool) then UACPI_STATUS_OK else UACPI_STATUS_OUT_OF_MEMORY)
  | UACPI_ASSIGN_BEHAVIOR_SHALLOW_COPY =>
      _ ← update dst (fun d => d <| event := event o |>);
      _ ← shareable_ref (event o);
      mret UACPI_STATUS_OK
  end.

Fixpoint times (n : nat) (m : op unit) : op unit :=
  match n with O => mret tt | S n' => _ ← m; times n' m end.

Definition uacpi_object_attach_child (parent child : Z) : op unit :=
  _ ← update parent (fun o => o <| inner_object := child |>);
  bugged ← share (uacpi_bugged_shareable parent);
  if (bugged : bool) then make_chain_bugged child
  else
    refs_to_add ← share (uacpi_shareable_refcount parent);
    times (Z.to_nat refs_to_add) (uacpi_object_ref child).

Definition uacpi_object_detach_child (parent : Z) : op unit :=
  o ← load parent;
  let child := inner_object o in
  _ ← update parent (fun o => o <| inner_object := 0 |>);
  bugged ← share (uacpi_bugged_shareable parent);
  if (bugged : bool) then mret tt
  else
    refs_to_remove ← share (uacpi_shareable_refcount parent);
    times (Z.to_nat refs_to_remove) (uacpi_object_unref child).

(** [dst->word = src->word; uacpi_shareable_ref(dst->word)]. *)
Definition assign_shared (dst p : Z) : op uacpi_status :=
  _ ← update dst (fun d => d <| word0 := p |>); _ ← shareable_ref p; mret UACPI_STATUS_OK.

Definition pkg_copy_reqs := dyn_array (Z * Z).
Definition pkg_copy_reqs_push : pkg_copy_reqs -> Z * Z -> op (bool * pkg_copy_reqs) := array_push 16 2.

Section DeepCopy.
Context (assign : Z -> Z -> uacpi_assign_behavior -> op uacpi_status).

(** The object an element stands for: a reference made by indexing the
    package is not copied, what it refers to is. *)
Definition skip_package_index (src_obj : Z) : op Z :=
  o ← load src_obj;
  mret (if bool_decide (type o = UACPI_OBJECT_REFERENCE) && (oflags o =? UACPI_REFERENCE_KIND_PKG_INDEX)
        then inner_object o else src_obj).

(** The elements from [i] on of the two arrays. *)
Fixpoint copy_elements (n : nat) (src dst i : Z) (reqs : pkg_copy_reqs) : op (uacpi_status * pkg_copy_reqs) :=
  match n with
  | O => mret (UACPI_STATUS_OK, reqs)
  | S n' =>
      src_obj ← get_elem src i;
      dst_obj ← get_elem dst i;
      src_obj ← skip_package_index src_obj;
      o ← load src_obj;
      if decide (type o = UACPI_OBJECT_PACKAGE) then
        '(ok, reqs) ← pkg_copy_reqs_push reqs (dst_obj, package o);
        if negb (ok : bool) then mret (UACPI_STATUS_OUT_OF_MEMORY, reqs)
        else copy_elements n' src dst (i + 1) reqs
      else
        st ← assign dst_obj src_obj UACPI_ASSIGN_BEHAVIOR_DEEP_COPY;
        if negb (is_ok st) then mret (st, reqs) else copy_elements n' src dst (i + 1) reqs
  end.

Definition deep_copy_package_no_recurse (dst src : Z) (reqs : pkg_copy_reqs)
    : op (uacpi_status * pkg_copy_reqs) :=
  p ← load src;
  ok ← package_alloc_objects dst (count p) true;
  if negb ok then mret (UACPI_STATUS_OUT_OF_MEMORY, reqs)
  else
    _ ← update dst (fun o => o <| type := UACPI_OBJECT_PACKAGE |>);
    o ← load dst; d ← load (package o);
    copy_elements (Z.to_nat (count p)) (elements p) (elements d) 0 reqs.

Definition deep_copy_package (dst src : Z) : op uacpi_status :=
  o ← load src;
  '(_, reqs) ← pkg_copy_reqs_push empty_queue (dst, package o);
  '(ret, reqs) ← loop fuel (fun reqs : pkg_copy_reqs =>
    match last (items reqs) with
    | None => mret (inr (UACPI_STATUS_OK, reqs))
    | Some (dst, src) =>
        '(ret, reqs) ← deep_copy_package_no_recurse dst src (array_pop reqs);
        mret (if is_ok ret then inl reqs else inr (ret, reqs))
    end) reqs;
  _ ← array_clear reqs;
  mret ret.

Definition assign_package (dst src : Z) (behavior : uacpi_assign_behavior) : op uacpi_status :=
  match behavior with
  | UACPI_ASSIGN_BEHAVIOR_SHALLOW_COPY => o ← load src; assign_shared dst (package o)
  | UACPI_ASSIGN_BEHAVIOR_DEEP_COPY => deep_copy_package dst src
  end.

(** What the destination held is dropped first. *)
Definition drop_contents (dst : Z) : op unit :=
  d ← load dst;
  match type d with
  | UACPI_OBJECT_REFERENCE => uacpi_object_detach_child dst
  | UACPI_OBJECT_STRING | UACPI_OBJECT_BUFFER | UACPI_OBJECT_METHOD | UACPI_OBJECT_PACKAGE
  | UACPI_OBJECT_MUTEX | UACPI_OBJECT_EVENT | UACPI_OBJECT_PROCESSOR | UACPI_OBJECT_DEVICE
  | UACPI_OBJECT_THERMAL_ZONE => free_object_storage dst
  | _ => mret tt
  end.

Definition copy_contents (dst src : Z) (behavior : uacpi_assign_behavior) : op uacpi_status :=
  o ← load src;
  match type o with
  | UACPI_OBJECT_UNINITIALIZED | UACPI_OBJECT_DEBUG => mret UACPI_STATUS_OK
  | UACPI_OBJECT_BUFFER | UACPI_OBJECT_STRING =>
      _ ← update dst (fun d => d <| oflags := oflags o |>); assign_buffer dst src behavior
  | UACPI_OBJECT_BUFFER_FIELD =>
      _ ← update dst (fun d => d <| backing := backing o |> <| word1 := word1 o |> <| word2 := word2 o |>);
      _ ← shareable_ref (backing o); mret UACPI_STATUS_OK
  | UACPI_OBJECT_BUFFER_INDEX =>
      _ ← update dst (fun d => d <| word0 := word0 o |> <| index_buffer := index_buffer o |>);
      _ ← shareable_ref (index_buffer o); mret UACPI_STATUS_OK
  | UACPI_OBJECT_INTEGER =>
      _ ← update dst (fun d => d <| integer := integer o |>); mret UACPI_STATUS_OK
  | UACPI_OBJECT_METHOD => assign_shared dst (method o)
  | UACPI_OBJECT_MUTEX => assign_mutex dst src behavior
  | UACPI_OBJECT_EVENT => assign_event dst src behavior
  | UACPI_OBJECT_OPERATION_REGION => assign_shared dst (op_region o)
  | UACPI_OBJECT_PACKAGE => assign_package dst src behavior
  | UACPI_OBJECT_FIELD_UNIT => assign_shared dst (field_unit o)
  | UACPI_OBJECT_REFERENCE => _ ← uacpi_object_attach_child dst (inner_object o); mret UACPI_STATUS_OK
  | UACPI_OBJECT_PROCESSOR | UACPI_OBJECT_DEVICE | UACPI_OBJECT_THERMAL_ZONE => assign_shared dst (handlers o)
  | UACPI_OBJECT_POWER_RESOURCE => mret UACPI_STATUS_UNIMPLEMENTED
  end.

Definition assign_body (dst src : Z) (behavior : uacpi_assign_behavior) : op uacpi_status :=
  if src =? dst then mret UACPI_STATUS_OK
  else
    _ ← drop_contents dst;
    ret ← copy_contents dst src behavior;
    if bool_decide (ret = UACPI_STATUS_OK) then
      o ← load src; _ ← update dst (fun d => d <| type := type o |>); mret ret
    else mret ret.
End DeepCopy.

(** Only packages copy objects, and their elements are none. *)
Fixpoint assign_n (n : nat) (dst src : Z) (behavior : uacpi_assign_behavior) : op uacpi_status :=
  match n with
  | O => ub
  | S n' => assign_body (assign_n n') dst src behavior
  end.
Definition uacpi_object_assign : Z -> Z -> uacpi_assign_behavior -> op uacpi_status := assign_n 2.

(** ** The interface of the host *)

Definition uacpi_object_get_type (obj : Z) : op uacpi_object_type := o ← load obj; mret (type o).
Definition uacpi_object_get_type_bit (obj : Z) : op Z := o ← load obj; mret (type_bit (type o)).
Definition uacpi_object_is (obj : Z) (t : uacpi_object_type) : op bool :=
  o ← load obj; mret (bool_decide (type o = t)).
Definition uacpi_object_is_one_of (obj type_mask : Z) : op bool :=
  b ← uacpi_object_get_type_bit obj; mret (has_flag b type_mask).

(** [TYPE_CHECK_USER_OBJ_RET] and [ENSURE_VALID_USER_OBJ_RET]. *)
Definition TYPE_CHECK_USER_OBJ {A} (obj type_bits : Z) (ret : A) (body : op A) : op A :=
  if obj =? 0 then mret ret
  else ok ← uacpi_object_is_one_of obj type_bits; if (ok : bool) then body else mret ret.
Definition ENSURE_VALID_USER_OBJ {A} (obj : Z) (ret : A) (body : op A) : op A :=
  if obj =? 0 then mret ret else body.

(** An object on the stack, while the body runs. *)
Definition with_local {A} (o : uacpi_object) (body : Z -> op A) : op A :=
  _ ← modify (fun s => s <| objects := <[local_object := o]> (objects s) |>);
  r ← body local_object;
  _ ← modify (fun s => s <| objects := delete local_object (objects s) |>);
  mret r.

Definition uacpi_object_get_integer (obj : Z) : op (uacpi_status * Z) :=
  TYPE_CHECK_USER_OBJ obj (type_bit UACPI_OBJECT_INTEGER) (UACPI_STATUS_INVALID_ARGUMENT, 0)
    (o ← load obj; mret (UACPI_STATUS_OK, integer o)).

Definition uacpi_object_assign_integer (obj value : Z) : op uacpi_status :=
  ENSURE_VALID_USER_OBJ obj UACPI_STATUS_INVALID_ARGUMENT
    (with_local (Object UACPI_OBJECT_INTEGER 0 value 0 0) (fun l =>
       uacpi_object_assign obj l UACPI_ASSIGN_BEHAVIOR_DEEP_COPY)).

(** A view is an address with a length. *)
Definition uacpi_buffer_to_view (buf : Z) : op (Z * Z) := b ← load buf; mret (data b, bsize b).
Definition uacpi_object_do_get_string_or_buffer (obj mask : Z) : op (uacpi_status * (Z * Z)) :=
  TYPE_CHECK_USER_OBJ obj mask (UACPI_STATUS_INVALID_ARGUMENT, (0, 0))
    (o ← load obj; v ← uacpi_buffer_to_view (buffer o); mret (UACPI_STATUS_OK, v)).
Definition uacpi_object_get_string_or_buffer (obj : Z) : op (uacpi_status * (Z * Z)) :=
  uacpi_object_do_get_string_or_buffer obj
    (Z.lor (type_bit UACPI_OBJECT_STRING) (type_bit UACPI_OBJECT_BUFFER)).
Definition uacpi_object_get_string (obj : Z) : op (uacpi_status * (Z * Z)) :=
  uacpi_object_do_get_string_or_buffer obj (type_bit UACPI_OBJECT_STRING).
Definition uacpi_object_get_buffer (obj : Z) : op (uacpi_status * (Z * Z)) :=
  uacpi_object_do_get_string_or_buffer obj (type_bit UACPI_OBJECT_BUFFER).

Definition uacpi_object_is_aml_namepath (obj : Z) : op bool :=
  TYPE_CHECK_USER_OBJ obj (type_bit UACPI_OBJECT_STRING) false
    (o ← load obj; mret (oflags o =? UACPI_STRING_KIND_PATH)).

Definition uacpi_object_do_assign_buffer (obj : Z) (view : list Z) (t : uacpi_object_type) : op uacpi_status :=
  ENSURE_VALID_USER_OBJ obj UACPI_STATUS_INVALID_ARGUMENT
    (with_local (Object t 0 0 0 0) (fun tmp_obj =>
       let len := Z.of_nat (length view) in
       let grow := bool_decide (t = UACPI_OBJECT_STRING) && negb (default 1 (last view) =? 0) in
       ret ← buffer_alloc_and_store tmp_obj (if grow then len + 1 else len) (mret (Some <$> view));
       if negb (is_ok ret) then mret ret
       else
         ret ← uacpi_object_assign obj tmp_obj UACPI_ASSIGN_BEHAVIOR_SHALLOW_COPY;
         o ← load tmp_obj;
         _ ← unref_and_delete_if_last (buffer o) free_buffer;
         mret ret)).
Definition uacpi_object_assign_string (obj : Z) (view : list Z) : op uacpi_status :=
  uacpi_object_do_assign_buffer obj view UACPI_OBJECT_STRING.
Definition uacpi_object_assign_buffer (obj : Z) (view : list Z) : op uacpi_status :=
  uacpi_object_do_assign_buffer obj view UACPI_OBJECT_BUFFER.

Definition uacpi_object_create_uninitialized : op Z := uacpi_create_object UACPI_OBJECT_UNINITIALIZED.
Definition uacpi_object_create_integer (value : Z) : op Z :=
  obj ← uacpi_create_object UACPI_OBJECT_INTEGER;
  if obj =? 0 then mret 0 else _ ← update obj (fun o => o <| integer := value |>); mret obj.

Definition uacpi_get_aml_bitness : op (uacpi_status * Z) := fun s =>
  Some (if init_level_at_least (rt_level (locks s)) UACPI_INIT_LEVEL_SUBSYSTEM_INITIALIZED
        then (UACPI_STATUS_OK, if is_rev1 (tabs s) then 32 else 64)
        else (UACPI_STATUS_INIT_LEVEL_MISMATCH, 0), s).

Definition uacpi_object_create_integer_safe (value : Z) (behavior : uacpi_overflow_behavior)
    : op (uacpi_status * Z) :=
  '(ret, bitness) ← uacpi_get_aml_bitness;
  if negb (is_ok ret) then mret (ret, 0)
  else
    let too_large := (bitness =? 32) && (0xFFFFFFFF <? value) in
    let create := fun value =>
      obj ← uacpi_object_create_integer value;
      mret (if obj =? 0 then (UACPI_STATUS_OUT_OF_MEMORY, 0) else (ret, obj)) in
    match behavior with
    | UACPI_OVERFLOW_ALLOW => create value
    | UACPI_OVERFLOW_TRUNCATE => create (if too_large then Z.land value 0xFFFFFFFF else value)
    | UACPI_OVERFLOW_DISALLOW =>
        if too_large then mret (UACPI_STATUS_INVALID_ARGUMENT, 0) else create value
    end.

Definition uacpi_object_do_create_string_or_buffer (view : list Z) (t : uacpi_object_type) : op Z :=
  obj ← uacpi_create_object UACPI_OBJECT_UNINITIALIZED;
  if obj =? 0 then mret 0
  else
    ret ← uacpi_object_do_assign_buffer obj view t;
    if negb (is_ok ret) then _ ← uacpi_object_unref obj; mret 0 else mret obj.
Definition uacpi_object_create_string (view : list Z) : op Z :=
  uacpi_object_do_create_string_or_buffer view UACPI_OBJECT_STRING.
Definition uacpi_object_create_buffer (view : list Z) : op Z :=
  uacpi_object_do_create_string_or_buffer view UACPI_OBJECT_BUFFER.
Definition uacpi_object_create_cstring (str : list Z) : op Z := uacpi_object_create_string (str ++ [0]).

(** The array and its length. *)
Definition uacpi_object_get_package (obj : Z) : op (uacpi_status * (Z * Z)) :=
  TYPE_CHECK_USER_OBJ obj (type_bit UACPI_OBJECT_PACKAGE) (UACPI_STATUS_INVALID_ARGUMENT, (0, 0))
    (o ← load obj; p ← load (package o); mret (UACPI_STATUS_OK, (elements p, count p))).

Definition uacpi_object_create_reference (child : Z) : op Z :=
  ENSURE_VALID_USER_OBJ child 0 (
    obj ← uacpi_create_object UACPI_OBJECT_REFERENCE;
    if obj =? 0 then mret 0
    else
      _ ← uacpi_object_attach_child obj child;
      _ ← update obj (fun o => o <| oflags := UACPI_REFERENCE_KIND_ARG |>);
      mret obj).

Definition uacpi_object_assign_reference (obj child : Z) : op uacpi_status :=
  ENSURE_VALID_USER_OBJ obj UACPI_STATUS_INVALID_ARGUMENT
    (ENSURE_VALID_USER_OBJ child UACPI_STATUS_INVALID_ARGUMENT (
       ret ← with_local (Object UACPI_OBJECT_UNINITIALIZED 0 0 0 0) (fun l =>
               uacpi_object_assign obj l UACPI_ASSIGN_BEHAVIOR_DEEP_COPY);
       if negb (is_ok ret) then mret ret
       else
         _ ← update obj (fun o => o <| type := UACPI_OBJECT_REFERENCE |>);
         _ ← uacpi_object_attach_child obj child;
         _ ← update obj (fun o => o <| oflags := UACPI_REFERENCE_KIND_ARG |>);
         mret UACPI_STATUS_OK)).

Definition uacpi_object_get_dereferenced (obj : Z) : op (uacpi_status * Z) :=
  TYPE_CHECK_USER_OBJ obj (type_bit UACPI_OBJECT_REFERENCE) (UACPI_STATUS_INVALID_ARGUMENT, 0)
    (o ← load obj; _ ← shareable_ref (inner_object o); mret (UACPI_STATUS_OK, inner_object o)).

Definition uacpi_object_get_processor_info (obj : Z) : op (uacpi_status * (Z * Z * Z)) :=
  TYPE_CHECK_USER_OBJ obj (type_bit UACPI_OBJECT_PROCESSOR) (UACPI_STATUS_INVALID_ARGUMENT, (0, 0, 0))
    (o ← load obj; p ← load (handlers o);
     mret (UACPI_STATUS_OK, (processor_id p, block_address p, block_length p))).
Definition uacpi_object_get_power_resource_info (obj : Z) : op (uacpi_status * (Z * Z)) :=
  TYPE_CHECK_USER_OBJ obj (type_bit UACPI_OBJECT_POWER_RESOURCE) (UACPI_STATUS_INVALID_ARGUMENT, (0, 0))
    (o ← load obj; mret (UACPI_STATUS_OK, (system_level o, resource_order o))).

(** [in] is the array of the host's. *)
Fixpoint share_elements (l : list Z) (a i : Z) : op unit :=
  match l with
  | [] => mret tt
  | x :: l' => _ ← set_elem a i x; _ ← uacpi_object_ref x; share_elements l' a (i + 1)
  end.

Definition uacpi_object_assign_package (obj : Z) (l : list Z) : op uacpi_status :=
  ENSURE_VALID_USER_OBJ obj UACPI_STATUS_INVALID_ARGUMENT
    (with_local (Object UACPI_OBJECT_PACKAGE 0 0 0 0) (fun tmp_obj =>
       ok ← package_alloc_objects tmp_obj (Z.of_nat (length l)) false;
       if negb ok then mret UACPI_STATUS_OUT_OF_MEMORY
       else
         _ ← update obj (fun o => o <| type := UACPI_OBJECT_PACKAGE |>);
         t ← load tmp_obj; p ← load (package t);
         _ ← share_elements l (elements p) 0;
         ret ← uacpi_object_assign obj tmp_obj UACPI_ASSIGN_BEHAVIOR_SHALLOW_COPY;
         t ← load tmp_obj;
         _ ← unref_and_delete_if_last (package t) (free_package free_object);
         mret ret)).
Definition uacpi_object_create_package (l : list Z) : op Z :=
  obj ← uacpi_object_create_uninitialized;
  if obj =? 0 then mret 0
  else
    ret ← uacpi_object_assign_package obj l;
    if negb (is_ok ret) then _ ← uacpi_object_unref obj; mret 0 else mret obj.

Definition uacpi_create_internal_reference (kind child : Z) : op Z :=
  ret ← uacpi_create_object UACPI_OBJECT_REFERENCE;
  if ret =? 0 then mret 0
  else
    _ ← update ret (fun o => o <| oflags := kind |>);
    _ ← uacpi_object_attach_child ret child;
    mret ret.

Definition uacpi_unwrap_internal_reference (obj : Z) : op Z :=
  loop fuel (fun obj =>
    o ← load obj;
    if negb (bool_decide (type o = UACPI_OBJECT_REFERENCE)) || (oflags o =? UACPI_REFERENCE_KIND_REFOF)
       || (oflags o =? UACPI_REFERENCE_KIND_PKG_INDEX)
    then mret (inr obj) else mret (inl (inner_object o))) obj.
End Fuel.
End Objects.
