(* ===== verification/Namespace.v ===== *)
(** * The namespace: [extra/uacpi/namespace.c]

    The tree of named nodes: [child] is a node's first child, [next] its next
    sibling, [parent] the node above.  Nodes are blocks of the object store;
    the predefined ones are static, at [predefined_namespaces].  The
    namespace lock is the read-write lock of [Mutex].  A callback carries its
    context and may use the whole store; what [opregion.c] does when an
    operation region goes away is a parameter of the functions that detach
    objects.  [fuel] bounds every walk, as in [Objects]. *)
From S2P Require Import Prelude Status Shareable Alloc Mutex Tables Objects.

(** The predefined nodes, in the order of [uacpi_predefined_namespace]. *)
Definition UACPI_PREDEFINED_NAMESPACE_ROOT : Z := 0.
Definition UACPI_PREDEFINED_NAMESPACE_GPE : Z := 1.
Definition UACPI_PREDEFINED_NAMESPACE_PR : Z := 2.
Definition UACPI_PREDEFINED_NAMESPACE_SB : Z := 3.
Definition UACPI_PREDEFINED_NAMESPACE_SI : Z := 4.
Definition UACPI_PREDEFINED_NAMESPACE_TZ : Z := 5.
Definition UACPI_PREDEFINED_NAMESPACE_GL : Z := 6.
Definition UACPI_PREDEFINED_NAMESPACE_OS : Z := 7.
Definition UACPI_PREDEFINED_NAMESPACE_OSI : Z := 8.
Definition UACPI_PREDEFINED_NAMESPACE_REV : Z := 9.
Definition UACPI_PREDEFINED_NAMESPACE_MAX : Z := UACPI_PREDEFINED_NAMESPACE_REV.

Definition predefined_namespaces (ns : Z) : Z := - 2 - ns.
Definition uacpi_namespace_root : Z := predefined_namespaces UACPI_PREDEFINED_NAMESPACE_ROOT.

Definition MAKE_PREDEFINED (name : list Z) : uacpi_namespace_node :=
  Node name UACPI_NAMESPACE_NODE_PREDEFINED 0 0 0 0.
Definition predefined_names : list (list Z) :=
  [[chr "\"; 0; 0; 0]; cstr "_GPE"; cstr "_PR_"; cstr "_SB_"; cstr "_SI_"; cstr "_TZ_"; cstr "_GL_";
   cstr "_OS_"; cstr "_OSI"; cstr "_REV"].

Definition UACPI_REV_VALUE : Z := 2.
Definition UACPI_OS_VALUE : list Z := cstr "Microsoft Windows NT" ++ [0].
Definition UACPI_FLAG_NO_OSI : Z := Z.shiftl 1 4.

Inductive uacpi_may_search_above_parent := UACPI_MAY_SEARCH_ABOVE_PARENT_NO | UACPI_MAY_SEARCH_ABOVE_PARENT_YES.
Inductive uacpi_permanent_only := UACPI_PERMANENT_ONLY_NO | UACPI_PERMANENT_ONLY_YES.
Inductive uacpi_should_lock := UACPI_SHOULD_LOCK_NO | UACPI_SHOULD_LOCK_YES.
#[export] Instance permanent_only_eq_dec : EqDecision uacpi_permanent_only.
Proof. solve_decision. Defined.
#[export] Instance should_lock_eq_dec : EqDecision uacpi_should_lock.
Proof. solve_decision. Defined.
#[export] Instance search_above_eq_dec : EqDecision uacpi_may_search_above_parent.
Proof. solve_decision. Defined.

Definition UACPI_MAX_DEPTH_ANY : Z := 0xFFFFFFFF.

#[export] Instance settable_rt : Settable rt := fun s =>
  Rt (rt_level s) (natives s) (mutexes s) (Mutex.namespace_lock s) (firmware s) (facs_global_lock s)
    (has_global_lock s) (global_lock_pending s) (global_lock_acquired s) (global_lock_seq_num s)
    (global_lock_mutex s) (global_lock_spinlock s) (global_lock_event s) (gbl_rls_writes s).

Section Namespace.
Context {Plat : Platform} {Alloc : Allocator}.
Abbreviation op := (M store).

(** ** The lock *)

Definition on_locks {A} (m : M rt A) : op A := fun s =>
  '(a, l) ← m (locks s); Some (a, s <| locks := l |>).
Definition set_namespace_lock (l : uacpi_rw_lock) : op unit :=
  modify (fun s => s <| locks := (locks s) <| Mutex.namespace_lock := l |> |>).
Definition the_namespace_lock : op uacpi_rw_lock := gets (fun s => Mutex.namespace_lock (locks s)).

Definition uacpi_namespace_read_lock : op uacpi_status :=
  l ← the_namespace_lock;
  '(ret, l) ← on_locks (uacpi_rw_lock_read l);
  _ ← set_namespace_lock l; mret ret.
Definition uacpi_namespace_read_unlock : op uacpi_status :=
  l ← the_namespace_lock;
  '(ret, l) ← on_locks (uacpi_rw_unlock_read l);
  _ ← set_namespace_lock l; mret ret.
Definition uacpi_namespace_write_lock : op uacpi_status := on_locks Mutex.uacpi_namespace_write_lock.
Definition uacpi_namespace_write_unlock : op uacpi_status := on_locks Mutex.uacpi_namespace_write_unlock.

(** ** Nodes *)

Definition uacpi_namespace_node_is_alias (p : Z) : op bool :=
  n ← load p; mret (has_flag (nflags n) UACPI_NAMESPACE_NODE_FLAG_ALIAS).
Definition uacpi_namespace_node_is_dangling (p : Z) : op bool :=
  n ← load p; mret (has_flag (nflags n) UACPI_NAMESPACE_NODE_FLAG_DANGLING).
Definition uacpi_namespace_node_is_temporary (p : Z) : op bool :=
  n ← load p; mret (has_flag (nflags n) UACPI_NAMESPACE_NODE_FLAG_TEMPORARY).
Definition uacpi_namespace_node_is_predefined (p : Z) : op bool :=
  n ← load p; mret (has_flag (nflags n) UACPI_NAMESPACE_NODE_PREDEFINED).

Definition uacpi_namespace_get_predefined (ns : Z) : Z :=
  if UACPI_PREDEFINED_NAMESPACE_MAX <? ns then 0 else predefined_namespaces ns.

Definition uacpi_namespace_node_alloc (nm : list Z) : op Z :=
  ret ← alloc_zeroed uacpi_namespace_node;
  if ret =? 0 then mret 0
  else
    _ ← share (uacpi_shareable_init ret);
    _ ← update ret (fun n => n <| name := nm |>);
    mret ret.

Definition uacpi_namespace_node_name (p : Z) : op (list Z) := n ← load p; mret (name n).
Definition uacpi_namespace_node_parent (p : Z) : op Z :=
  n ← load (A := uacpi_namespace_node) p; mret (parent n).

Section Fuel.
Context (fuel : nat).

(** The last of the siblings from [p] on. *)
Definition last_sibling (p : Z) : op Z :=
  loop fuel (fun p =>
    n ← load (A := uacpi_namespace_node) p;
    mret (if next n =? 0 then inr p else inl (next n))) p.

Definition uacpi_namespace_node_install (parent_ node : Z) : op uacpi_status :=
  let parent_ := if parent_ =? 0 then uacpi_namespace_root else parent_ in
  dangling ← uacpi_namespace_node_is_dangling node;
  if (dangling : bool) then mret UACPI_STATUS_NAMESPACE_NODE_DANGLING
  else
    p ← load (A := uacpi_namespace_node) parent_;
    _ ← (if child p =? 0 then update parent_ (fun p => p <| child := node |>)
         else prev ← last_sibling (child p); update prev (fun n => n <| next := node |>));
    _ ← update node (fun n => n <| parent := parent_ |>);
    mret UACPI_STATUS_OK.

Definition uacpi_namespace_node_find_sub_node (parent_ : Z) (nm : list Z) : op Z :=
  let parent_ := if parent_ =? 0 then uacpi_namespace_root else parent_ in
  p ← load (A := uacpi_namespace_node) parent_;
  loop fuel (fun p =>
    if p =? 0 then mret (inr 0)
    else n ← load p; mret (if bool_decide (name n = nm) then inr p else inl (next n))) (child p).

(** ** Paths: the string left to read *)

(** The name, padded with underscores, and the rest. *)
Fixpoint segment_of (n : nat) (string : list Z) : list Z * list Z :=
  match n with
  | O => ([], string)
  | S n' =>
      match string with
      | [] => let '(out_name, rest) := segment_of n' [] in (chr "_" :: out_name, rest)
      | c :: string' =>
          if c =? chr "." then let '(out_name, rest) := segment_of n' string in (chr "_" :: out_name, rest)
          else let '(out_name, rest) := segment_of n' string' in (c :: out_name, rest)
      end
  end.
Definition segment_to_name (string : list Z) : list Z * list Z := segment_of 4 string.

(** The prefix of backslashes and carets: the node it leads to, what is left
    of the path and whether it may still be a single name. *)
Fixpoint resolve_prefix (cur_node : Z) (prev_char : Z) (path : list Z) (single_nameseg : bool)
    : op (uacpi_status * Z * list Z * bool) :=
  match path with
  | [] => mret (UACPI_STATUS_OK, cur_node, [], single_nameseg)
  | c :: path' =>
      if c =? chr "\" then
        if prev_char =? chr "^" then mret (UACPI_STATUS_INVALID_ARGUMENT, cur_node, path, false)
        else mret (UACPI_STATUS_OK, uacpi_namespace_root, path', false)
      else if c =? chr "^" then
        if cur_node =? uacpi_namespace_root then mret (UACPI_STATUS_INVALID_ARGUMENT, cur_node, path, false)
        else
          n ← load (A := uacpi_namespace_node) cur_node;
          resolve_prefix (parent n) c path' false
      else mret (UACPI_STATUS_OK, cur_node, path, single_nameseg)
  end.

(** The search above: [p] is the node whose children are looked at next. *)
Definition search_above (nm : list Z) (p : Z) : op Z :=
  loop fuel (fun p =>
    if p =? 0 then mret (inr 0)
    else
      cur_node ← uacpi_namespace_node_find_sub_node p nm;
      if truthy cur_node then mret (inr cur_node)
      else n ← load (A := uacpi_namespace_node) p; mret (inl (parent n))) p.

(** One turn of the loop over the segments. *)
Definition resolve_segment (parent_ : Z) (above : uacpi_may_search_above_parent) (it : Z * list Z * bool)
    : op (Z * list Z * bool + Z) :=
  let '(cur_node, path, single_nameseg) := it in
  match path with
  | [] => mret (inr cur_node)
  | c :: path' =>
      let '(nameseg, rest) := segment_to_name (if c =? chr "." then path' else path) in
      let single_nameseg := single_nameseg && bool_decide (rest = []) in
      cur_node ← uacpi_namespace_node_find_sub_node cur_node nameseg;
      if truthy cur_node then mret (inl (cur_node, rest, single_nameseg))
      else if bool_decide (above = UACPI_MAY_SEARCH_ABOVE_PARENT_NO) || negb single_nameseg then mret (inr 0)
      else
        n ← load (A := uacpi_namespace_node) parent_;
        cur_node ← search_above nameseg (parent n);
        mret (inr cur_node)
  end.

Definition resolve_unlocked (parent_ : Z) (path : list Z) (above : uacpi_may_search_above_parent)
    (permanent_only : uacpi_permanent_only) : op (uacpi_status * Z) :=
  let cur_node := if parent_ =? 0 then uacpi_namespace_root else parent_ in
  '(ret, cur_node, path, single) ← resolve_prefix cur_node 0 path true;
  if negb (is_ok ret) then mret (ret, 0)
  else
    cur_node ← loop fuel (resolve_segment parent_ above) (cur_node, path, single);
    if cur_node =? 0 then mret (UACPI_STATUS_NOT_FOUND, 0)
    else
      temporary ← uacpi_namespace_node_is_temporary cur_node;
      if temporary && bool_decide (permanent_only = UACPI_PERMANENT_ONLY_YES)
      then mret (UACPI_STATUS_DENIED, 0)
      else mret (UACPI_STATUS_OK, cur_node).

(** The body under the read lock, if asked for. *)
Definition under_read_lock {A} (should_lock : uacpi_should_lock) (failed : uacpi_status -> A) (body : op A) : op A :=
  if decide (should_lock = UACPI_SHOULD_LOCK_YES) then
    ret ← uacpi_namespace_read_lock;
    if negb (is_ok ret) then mret (failed ret)
    else r ← body; _ ← uacpi_namespace_read_unlock; mret r
  else body.

(** The node is written for OK only. *)
Definition uacpi_namespace_node_resolve (parent_ : Z) (path : list Z) (should_lock : uacpi_should_lock)
    (above : uacpi_may_search_above_parent) (permanent_only : uacpi_permanent_only) : op (uacpi_status * Z) :=
  under_read_lock should_lock (fun ret => (ret, 0)) (resolve_unlocked parent_ path above permanent_only).

Definition uacpi_namespace_node_find (parent_ : Z) (path : list Z) : op (uacpi_status * Z) :=
  uacpi_namespace_node_resolve parent_ path UACPI_SHOULD_LOCK_YES UACPI_MAY_SEARCH_ABOVE_PARENT_NO
    UACPI_PERMANENT_ONLY_YES.
Definition uacpi_namespace_node_resolve_from_aml_namepath (scope : Z) (path : list Z) : op (uacpi_status * Z) :=
  uacpi_namespace_node_resolve scope path UACPI_SHOULD_LOCK_YES UACPI_MAY_SEARCH_ABOVE_PARENT_YES
    UACPI_PERMANENT_ONLY_YES.

Definition uacpi_namespace_node_depth (node : Z) : op Z :=
  loop fuel (fun '(node, depth) =>
    n ← load (A := uacpi_namespace_node) node;
    mret (if parent n =? 0 then inr depth else inl (parent n, depth + 1))) (node, 0).

(** The segments of the path of [node], put before [path]. *)
Definition path_segments (node : Z) (path : list Z) : op (list Z) :=
  loop fuel (fun '(node, path) =>
    if node =? uacpi_namespace_root then mret (inr path)
    else
      n ← load node;
      let path := name n ++ path in
      mret (inl (parent n, if parent n =? uacpi_namespace_root then path else chr "." :: path))) (node, path).

(** Null, or the string of the size computed from the depth, which the
    segments fill from the end. *)
Definition uacpi_namespace_node_generate_absolute_path (node : Z) : op (option (list Z)) :=
  depth ← uacpi_namespace_node_depth node;
  let depth := depth + 1 in
  let bytes_needed := 1 + (depth - 1) * 4 + (if 2 <? depth then depth - 2 else 0) + 1 in
  p ← kernel_alloc bytes_needed;
  if p =? 0 then mret None
  else
    segments ← path_segments node [];
    if Z.of_nat (length segments) =? bytes_needed - 2
    then mret (Some (chr "\" :: segments)) else ub.

(** ** Objects of nodes *)

Definition uacpi_namespace_node_get_object (node : Z) : op Z :=
  if node =? 0 then mret 0
  else
    n ← load node;
    if object n =? 0 then mret 0 else uacpi_unwrap_internal_reference fuel (object n).

Definition uacpi_namespace_node_get_object_typed (node type_mask : Z) : op Z :=
  obj ← uacpi_namespace_node_get_object node;
  if obj =? 0 then mret 0
  else ok ← uacpi_object_is_one_of obj type_mask; mret (if (ok : bool) then obj else 0).

Definition uacpi_namespace_node_acquire_object_typed (node type_mask : Z) : op (uacpi_status * Z) :=
  under_read_lock UACPI_SHOULD_LOCK_YES (fun ret => (ret, 0)) (
    obj ← uacpi_namespace_node_get_object node;
    ok ← (if obj =? 0 then mret false else uacpi_object_is_one_of obj type_mask);
    if negb (ok : bool) then mret (UACPI_STATUS_INVALID_ARGUMENT, 0)
    else _ ← uacpi_object_ref fuel obj; mret (UACPI_STATUS_OK, obj)).
Definition uacpi_namespace_node_acquire_object (node : Z) : op (uacpi_status * Z) :=
  uacpi_namespace_node_acquire_object_typed node UACPI_OBJECT_ANY_BIT.

(** A reference is counted under the lock, for the chain it starts. *)
Definition object_mutate_refcount (obj : Z) (cb : Z -> op unit) : op uacpi_status :=
  is_reference ← uacpi_object_is obj UACPI_OBJECT_REFERENCE;
  under_read_lock (if (is_reference : bool) then UACPI_SHOULD_LOCK_YES else UACPI_SHOULD_LOCK_NO) id
    (_ ← cb obj; mret UACPI_STATUS_OK).
Definition uacpi_namespace_node_reacquire_object (obj : Z) : op uacpi_status :=
  object_mutate_refcount obj (uacpi_object_ref fuel).
Definition uacpi_namespace_node_release_object (obj : Z) : op uacpi_status :=
  object_mutate_refcount obj (uacpi_object_unref fuel).

Definition uacpi_namespace_node_type_unlocked (node : Z) : op (uacpi_status * option uacpi_object_type) :=
  if node =? 0 then mret (UACPI_STATUS_INVALID_ARGUMENT, None)
  else
    obj ← uacpi_namespace_node_get_object node;
    if obj =? 0 then mret (UACPI_STATUS_NOT_FOUND, None)
    else o ← load obj; mret (UACPI_STATUS_OK, Some (type o)).
Definition uacpi_namespace_node_type (node : Z) : op (uacpi_status * option uacpi_object_type) :=
  under_read_lock UACPI_SHOULD_LOCK_YES (fun ret => (ret, None)) (uacpi_namespace_node_type_unlocked node).

(** [*out] is written for OK only. *)
Definition uacpi_namespace_node_is_one_of_unlocked (node type_mask : Z) : op (uacpi_status * option bool) :=
  if node =? 0 then mret (UACPI_STATUS_INVALID_ARGUMENT, None)
  else
    obj ← uacpi_namespace_node_get_object node;
    if obj =? 0 then mret (UACPI_STATUS_NOT_FOUND, None)
    else ok ← uacpi_object_is_one_of obj type_mask; mret (UACPI_STATUS_OK, Some ok).
Definition uacpi_namespace_node_is_one_of (node type_mask : Z) : op (uacpi_status * option bool) :=
  under_read_lock UACPI_SHOULD_LOCK_YES (fun ret => (ret, None))
    (uacpi_namespace_node_is_one_of_unlocked node type_mask).
Definition uacpi_namespace_node_is (node : Z) (t : uacpi_object_type) : op (uacpi_status * option bool) :=
  uacpi_namespace_node_is_one_of node (type_bit t).

(** ** Iteration *)

Section Iteration.
Context {X : Type}.
Abbreviation callback := (X -> Z -> Z -> op (X * uacpi_iteration_decision)).
Context (descending_callback ascending_callback : option callback).
Context (type_mask max_depth : Z) (should_lock : uacpi_should_lock) (permanent_only : uacpi_permanent_only).

(** The locals of the loop. *)
Record walk := Walk {
  w_node : Z;
  w_depth : Z;
  walking_up : bool;
  matches : bool;
  w_user : X;
}.
#[local] Instance settable_walk : Settable walk := fun w =>
  Walk (w_node w) (w_depth w) (walking_up w) (matches w) (w_user w).

(** How the loop ends: a status, and whether the lock is still held. *)
Record ended := Ended { end_status : uacpi_status; end_locked : bool; end_user : X }.

(** Calls a callback without the lock; [inr] ends the function. *)
Definition call_unlocked (cb : callback) (user : X) (node depth : Z)
    : op (X * uacpi_iteration_decision + ended) :=
  let locking := bool_decide (should_lock = UACPI_SHOULD_LOCK_YES) in
  ret ← (if (locking : bool) then uacpi_namespace_read_unlock else mret UACPI_STATUS_OK);
  if negb (is_ok ret) then mret (inr (Ended ret false user))
  else
    '(user, decision) ← cb user node depth;
    match decision with
    | UACPI_ITERATION_DECISION_BREAK => mret (inr (Ended ret false user))
    | _ =>
        ret ← (if (locking : bool) then uacpi_namespace_read_lock else mret UACPI_STATUS_OK);
        if negb (is_ok ret) then mret (inr (Ended ret false user)) else mret (inl (user, decision))
    end.

(** The label [do_next]. *)
Definition do_next (w : walk) (decision : uacpi_iteration_decision) : op (walk + ended) :=
  n ← load (A := uacpi_namespace_node) (w_node w);
  mret (inl (
    if walking_up w then
      if truthy (next n) then w <| w_node := next n |> <| walking_up := false |>
      else w <| w_depth := u32 (w_depth w - 1) |> <| w_node := parent n |>
    else
      match decision with
      | UACPI_ITERATION_DECISION_CONTINUE =>
          if negb (w_depth w =? max_depth) && truthy (child n)
          then w <| w_node := child n |> <| w_depth := u32 (w_depth w + 1) |>
          else w <| walking_up := true |>
      | _ => w <| walking_up := true |>
      end)).

Definition visit (w : walk) : op (walk + ended) :=
  if w_depth w =? 0 then mret (inr (Ended UACPI_STATUS_OK true (w_user w)))
  else
    '(_, m) ← uacpi_namespace_node_is_one_of_unlocked (w_node w) type_mask;
    let w := w <| matches := default (matches w) m |> in
    if negb (matches w) then do_next w UACPI_ITERATION_DECISION_CONTINUE
    else
      temporary ← uacpi_namespace_node_is_temporary (w_node w);
      if temporary && bool_decide (permanent_only = UACPI_PERMANENT_ONLY_YES)
      then do_next w UACPI_ITERATION_DECISION_NEXT_PEER
      else
        match (if walking_up w then ascending_callback else descending_callback) with
        | None => do_next w UACPI_ITERATION_DECISION_CONTINUE
        | Some cb =>
            r ← call_unlocked cb (w_user w) (w_node w) (w_depth w);
            match r with
            | inr e => mret (inr e)
            | inl (user, decision) => do_next (w <| w_user := user |>) decision
            end
        end.

Definition uacpi_namespace_do_for_each_child (node : Z) (user : X) : op (uacpi_status * X) := fun s =>
  if negb (init_level_at_least (rt_level (locks s)) UACPI_INIT_LEVEL_SUBSYSTEM_INITIALIZED)
  then Some (UACPI_STATUS_INIT_LEVEL_MISMATCH, user, s)
  else
    match descending_callback, ascending_callback with
    | None, None => Some (UACPI_STATUS_INVALID_ARGUMENT, user, s)
    | _, _ =>
        if (node =? 0) || (max_depth =? 0) then Some (UACPI_STATUS_INVALID_ARGUMENT, user, s)
        else
          (ret ← (if decide (should_lock = UACPI_SHOULD_LOCK_YES) then uacpi_namespace_read_lock
                  else mret UACPI_STATUS_OK);
           if negb (is_ok ret) then mret (ret, user)
           else
             n ← load (A := uacpi_namespace_node) node;
             e ← (if child n =? 0 then mret (Ended ret true user)
                  else loop fuel visit (Walk (child n) 1 false false user));
             _ ← (if end_locked e && bool_decide (should_lock = UACPI_SHOULD_LOCK_YES)
                  then uacpi_namespace_read_unlock else mret UACPI_STATUS_OK);
             mret (end_status e, end_user e)) s
    end.
End Iteration.

Definition uacpi_namespace_for_each_child_simple {X} (parent_ : Z)
    (callback : X -> Z -> Z -> op (X * uacpi_iteration_decision)) (user : X) : op (uacpi_status * X) :=
  uacpi_namespace_do_for_each_child (Some callback) None UACPI_OBJECT_ANY_BIT UACPI_MAX_DEPTH_ANY
    UACPI_SHOULD_LOCK_YES UACPI_PERMANENT_ONLY_YES parent_ user.
Definition uacpi_namespace_for_each_child {X} (parent_ : Z)
    (descending_callback ascending_callback : option (X -> Z -> Z -> op (X * uacpi_iteration_decision)))
    (type_mask max_depth : Z) (user : X) : op (uacpi_status * X) :=
  uacpi_namespace_do_for_each_child descending_callback ascending_callback type_mask max_depth
    UACPI_SHOULD_LOCK_YES UACPI_PERMANENT_ONLY_YES parent_ user.

(** The walk along the siblings from [node] on: the status of the last check
    and the node it stopped at. *)
Definition next_typed (type_mask : Z) (ret : uacpi_status) (node : Z) : op (uacpi_status * Z) :=
  loop fuel (fun '(ret, node) =>
    if node =? 0 then mret (inr (ret, 0))
    else
      n ← load (A := uacpi_namespace_node) node;
      temporary ← uacpi_namespace_node_is_temporary node;
      if (temporary : bool) then mret (inl (ret, next n))
      else
        '(ret, is_one_of) ← uacpi_namespace_node_is_one_of_unlocked node type_mask;
        if negb (is_ok ret) then mret (inr (ret, node))
        else if default false is_one_of then mret (inr (ret, node)) else mret (inl (ret, next n)))
    (ret, node).

(** [*iter] in and out. *)
Definition uacpi_namespace_node_next_typed (parent_ iter type_mask : Z) : op (uacpi_status * Z) := fun s =>
  if negb (init_level_at_least (rt_level (locks s)) UACPI_INIT_LEVEL_SUBSYSTEM_INITIALIZED)
  then Some (UACPI_STATUS_INIT_LEVEL_MISMATCH, iter, s)
  else if (parent_ =? 0) && (iter =? 0) then Some (UACPI_STATUS_INVALID_ARGUMENT, iter, s)
  else
    (ret ← uacpi_namespace_read_lock;
     if negb (is_ok ret) then mret (ret, iter)
     else
       start ← (if iter =? 0 then p ← load (A := uacpi_namespace_node) parent_; mret (child p)
                else n ← load (A := uacpi_namespace_node) iter; mret (next n));
       '(ret, node) ← next_typed type_mask ret start;
       _ ← uacpi_namespace_read_unlock;
       mret (if node =? 0 then (UACPI_STATUS_NOT_FOUND, iter)
             else (ret, if is_ok ret then node else iter))) s.
Definition uacpi_namespace_node_next (parent_ iter : Z) : op (uacpi_status * Z) :=
  uacpi_namespace_node_next_typed parent_ iter UACPI_OBJECT_ANY_BIT.

(** ** Taking nodes away *)

Section Removal.
Context (uacpi_opregion_uninstall_handler : Z -> op unit).

Definition namespace_node_detach_object (node : Z) : op unit :=
  obj ← uacpi_namespace_node_get_object node;
  if obj =? 0 then mret tt
  else
    o ← load obj;
    _ ← (if decide (type o = UACPI_OBJECT_OPERATION_REGION) then uacpi_opregion_uninstall_handler node
         else mret tt);
    n ← load node;
    _ ← uacpi_object_unref fuel (object n);
    update node (fun n => n <| object := 0 |>).

(** The sibling before [node], from [prev] on; null when there is none. *)
Definition previous_sibling (node prev : Z) : op Z :=
  loop fuel (fun prev =>
    if prev =? 0 then mret (inr 0)
    else n ← load (A := uacpi_namespace_node) prev; mret (if next n =? node then inr prev else inl (next n))) prev.

(** Takes [node] out of the list of its siblings; [false] when it is not there. *)
Definition unlink_node (node : Z) : op bool :=
  n ← load (A := uacpi_namespace_node) node;
  prev ← (if parent n =? 0 then mret 0 else p ← load (A := uacpi_namespace_node) (parent n); mret (child p));
  if prev =? node then _ ← update (parent n) (fun p => p <| child := next n |>); mret true
  else
    prev ← previous_sibling node prev;
    if prev =? 0 then mret false
    else _ ← update prev (fun b => b <| next := next n |>); mret true.

Definition uacpi_namespace_node_uninstall (node : Z) : op uacpi_status :=
  dangling ← uacpi_namespace_node_is_dangling node;
  if (dangling : bool) then mret UACPI_STATUS_INTERNAL_ERROR
  else
    n ← load (A := uacpi_namespace_node) node;
    if truthy (child n) then mret UACPI_STATUS_DENIED
    else
      _ ← namespace_node_detach_object node;
      unlinked ← unlink_node node;
      if negb (unlinked : bool) then mret UACPI_STATUS_INTERNAL_ERROR
      else
        _ ← update node (fun n => n <| nflags := Z.lor (nflags n) UACPI_NAMESPACE_NODE_FLAG_DANGLING |>);
        _ ← uacpi_namespace_node_unref node;
        mret UACPI_STATUS_OK.

(** ** Start and end *)

Context (uacpi_osi : Z).

Definition create_os_string : op Z :=
  obj ← uacpi_create_object UACPI_OBJECT_STRING;
  if obj =? 0 then mret 0
  else
    o ← load obj;
    text ← alloc_data (Z.of_nat (length UACPI_OS_VALUE));
    b ← load (buffer o);
    _ ← put (buffer o) (Buffer text (bsize b));
    if text =? 0 then _ ← uacpi_object_unref fuel obj; mret 0
    else
      _ ← put (buffer o) (Buffer text (Z.of_nat (length UACPI_OS_VALUE)));
      _ ← write_data text (Some <$> UACPI_OS_VALUE);
      mret obj.

Definition make_object_for_predefined (ns : Z) : op Z :=
  if ns =? UACPI_PREDEFINED_NAMESPACE_ROOT then
    root ← uacpi_create_object UACPI_OBJECT_DEVICE;
    _ ← modify (fun s => s <| root_object := root |>);
    if root =? 0 then mret 0 else uacpi_create_object UACPI_OBJECT_UNINITIALIZED
  else if ns =? UACPI_PREDEFINED_NAMESPACE_OS then create_os_string
  else if ns =? UACPI_PREDEFINED_NAMESPACE_REV then
    obj ← uacpi_create_object UACPI_OBJECT_INTEGER;
    if obj =? 0 then mret 0
    else _ ← update obj (fun o => o <| integer := UACPI_REV_VALUE |>); mret obj
  else if ns =? UACPI_PREDEFINED_NAMESPACE_GL then
    obj ← uacpi_create_object UACPI_OBJECT_MUTEX;
    if obj =? 0 then mret 0
    else
      o ← load obj;
      _ ← shareable_ref (mutex o);
      _ ← modify (fun s => s <| global_lock := mutex o |>);
      mret obj
  else if ns =? UACPI_PREDEFINED_NAMESPACE_OSI then
    obj ← uacpi_create_object UACPI_OBJECT_METHOD;
    if obj =? 0 then mret 0
    else
      o ← load obj;
      _ ← update (method o) (fun m => m <| native_call := true |> <| code := uacpi_osi |> <| args := 1 |>);
      mret obj
  else uacpi_create_object UACPI_OBJECT_UNINITIALIZED.

(** One turn of the first loop of [uacpi_initialize_namespace]. *)
Definition initialize_predefined (ns : Z) : op uacpi_status :=
  let node := predefined_namespaces ns in
  _ ← share (uacpi_shareable_init node);
  obj ← make_object_for_predefined ns;
  if obj =? 0 then mret UACPI_STATUS_OUT_OF_MEMORY
  else
    r ← uacpi_create_internal_reference fuel UACPI_REFERENCE_KIND_NAMED obj;
    _ ← update node (fun n => n <| object := r |>);
    _ ← uacpi_object_unref fuel obj;
    mret (if r =? 0 then UACPI_STATUS_OUT_OF_MEMORY else UACPI_STATUS_OK).

(** The turns from [ns] on, [n] of them, up to the first that fails. *)
Fixpoint initialize_all (n : nat) (ns : Z) : op uacpi_status :=
  match n with
  | O => mret UACPI_STATUS_OK
  | S n' =>
      ret ← initialize_predefined ns;
      if negb (is_ok ret) then mret ret else initialize_all n' (ns + 1)
  end.

Definition install_predefined (ns : Z) : op unit :=
  no_osi ← gets (fun s => has_flag (rt_flags (tabs s)) UACPI_FLAG_NO_OSI);
  if (ns =? UACPI_PREDEFINED_NAMESPACE_OSI) && no_osi then mret tt
  else _ ← uacpi_namespace_node_install uacpi_namespace_root (predefined_namespaces ns); mret tt.

(** [ok1] and [ok2] tell whether the two mutexes of the lock get memory. *)
Definition uacpi_initialize_namespace (ok1 ok2 : bool) : op uacpi_status :=
  '(ret, l) ← on_locks (uacpi_rw_lock_init ok1 ok2);
  _ ← set_namespace_lock l;
  if negb (is_ok ret) then mret ret
  else
    ret ← initialize_all (Z.to_nat (UACPI_PREDEFINED_NAMESPACE_MAX + 1)) 0;
    if negb (is_ok ret) then mret ret
    else
      _ ← for_range UACPI_PREDEFINED_NAMESPACE_GPE (UACPI_PREDEFINED_NAMESPACE_MAX + 1) install_predefined;
      mret UACPI_STATUS_OK.

(** [while (current->child != UACPI_NULL) uninstall(current->child);] *)
Definition wipe_children (current : Z) : op unit :=
  loop fuel (fun _ =>
    c ← load (A := uacpi_namespace_node) current;
    if child c =? 0 then mret (inr tt)
    else _ ← uacpi_namespace_node_uninstall (child c); mret (inl tt)) tt.

(** One turn of the walk of [uacpi_deinitialize_namespace]. *)
Definition wipe_turn (it : Z * Z * Z) : op (Z * Z * Z + unit) :=
  let '(current, next_, depth) := it in
  if depth =? 0 then mret (inr tt)
  else
    next_ ← (if next_ =? 0 then c ← load (A := uacpi_namespace_node) current; mret (child c)
             else n ← load (A := uacpi_namespace_node) next_; mret (next n));
    if next_ =? 0 then
      _ ← wipe_children current;
      c ← load (A := uacpi_namespace_node) current;
      mret (inl (parent c, current, u32 (depth - 1)))
    else
      n ← load (A := uacpi_namespace_node) next_;
      if truthy (child n) then mret (inl (next_, 0, u32 (depth + 1)))
      else mret (inl (current, next_, depth)).

Definition wipe_namespace : op unit := loop fuel wipe_turn (uacpi_namespace_root, 0, 1).

Definition uacpi_deinitialize_namespace : op unit :=
  ret ← uacpi_namespace_write_lock;
  _ ← wipe_namespace;
  _ ← namespace_node_detach_object uacpi_namespace_root;
  _ ← free_namespace_node uacpi_namespace_root;
  _ ← (if bool_decide (ret = UACPI_STATUS_OK) then uacpi_namespace_write_unlock else mret UACPI_STATUS_OK);
  root ← gets root_object;
  _ ← uacpi_object_unref fuel root;
  _ ← modify (fun s => s <| root_object := 0 |>);
  gl ← gets global_lock;
  _ ← uacpi_mutex_unref gl;
  _ ← modify (fun s => s <| global_lock := 0 |>);
  l ← the_namespace_lock;
  '(_, l) ← on_locks (uacpi_rw_lock_deinit l);
  set_namespace_lock l.
End Removal.

(** [uacpi_object_resolve_as_aml_namepath] of [types.c]: a string of kind
    path, up to its terminator. *)
Definition c_string (l : list (option Z)) : option (list Z) :=
  let '(s, rest) := (take (default (length l) (fst <$> list_find (fun b => b = Some 0) l)) l,
                     list_find (fun b => b = Some 0) l) in
  _ ← rest; mapM id s.
Definition uacpi_object_resolve_as_aml_namepath (obj scope : Z) : op (uacpi_status * Z) :=
  is_path ← uacpi_object_is_aml_namepath obj;
  if negb (is_path : bool) then mret (UACPI_STATUS_INVALID_ARGUMENT, 0)
  else
    o ← load obj; b ← load (buffer o);
    text ← (fun s => l ← datas s !! data b; t ← c_string l; Some (t, s));
    uacpi_namespace_node_resolve_from_aml_namepath scope text.
End Fuel.
End Namespace.
