(* ===== verification/NamespaceTree.v ===== *)
(** * The tree behind the nodes of the namespace

    [rep_tree] relates the linked nodes to a tree; the walks of
    [namespace.c] along siblings and parents are what their names say. *)
From S2P Require Import Prelude Status Shareable KernelSync Alloc Mutex MutexSpec Tables Objects Namespace.

(** ** Trees *)

Inductive tree := Tree (tptr : Z) (tname : list Z) (tflags : Z) (kids : list tree).
Definition tptr (t : tree) : Z := let '(Tree p _ _ _) := t in p.
Definition tname (t : tree) : list Z := let '(Tree _ n _ _) := t in n.
Definition tflags (t : tree) : Z := let '(Tree _ _ f _) := t in f.
Definition kids (t : tree) : list tree := let '(Tree _ _ _ l) := t in l.

Section Induction.
Context (P : tree -> Prop).
Context (H : forall p nm fl ts, Forall P ts -> P (Tree p nm fl ts)).
Fixpoint tree_induction (t : tree) : P t :=
  match t with
  | Tree p nm fl ts =>
      H p nm fl ts ((fix all (l : list tree) : Forall P l :=
        match l with [] => Forall_nil_2 _ | u :: l' => Forall_cons_2 _ _ _ (tree_induction u) (all l') end) ts)
  end.
End Induction.

(** Preorder, and the number of nodes. *)
Fixpoint ptrs (t : tree) : list Z :=
  let '(Tree p _ _ ts) := t in p :: concat (map ptrs ts).
Definition forest_ptrs (ts : list tree) : list Z := concat (map ptrs ts).
Definition tsize (t : tree) : nat := length (ptrs t).

Lemma ptrs_node t : ptrs t = tptr t :: forest_ptrs (kids t).
Proof. by destruct t. Qed.
Lemma elem_of_forest_ptrs p ts : p ∈ forest_ptrs ts <-> exists t, t ∈ ts /\ p ∈ ptrs t.
Proof.
  unfold forest_ptrs. rewrite list_elem_of_In, in_concat. split.
  - intros (l & Hl & Hp). apply in_map_iff in Hl as (t & <- & Ht). exists t. by rewrite !list_elem_of_In.
  - intros (t & Ht & Hp). exists (ptrs t). apply list_elem_of_In in Ht, Hp. split; [by apply in_map | done].
Qed.
Lemma ptrs_self t : tptr t ∈ ptrs t.
Proof. rewrite ptrs_node. by left. Qed.
Lemma forest_ptrs_in t ts p : t ∈ ts -> p ∈ ptrs t -> p ∈ forest_ptrs ts.
Proof. intros Ht Hp. apply elem_of_forest_ptrs. by exists t. Qed.

(** The address of the first of a list of siblings; null for none. *)
Definition first (ts : list tree) : Z := match ts with [] => 0 | t :: _ => tptr t end.

Definition shows (n : uacpi_namespace_node) (t : tree) (par nxt : Z) : Prop :=
  name n = tname t /\ nflags n = tflags t /\ parent n = par /\ next n = nxt /\ child n = first (kids t).

Section Rep.
Context (N : gmap Z uacpi_namespace_node).

(** A tree below [par] whose next sibling is at [nxt], and the siblings below [par]. *)
Fixpoint rep_tree (t : tree) (par nxt : Z) : Prop :=
  (exists n, N !! tptr t = Some n /\ shows n t par nxt)
  /\ let '(Tree p _ _ ts) := t in
     (fix rep_kids (l : list tree) : Prop :=
        match l with [] => True | u :: l' => rep_tree u p (first l') /\ rep_kids l' end) ts.
Fixpoint rep_forest (ts : list tree) (par : Z) : Prop :=
  match ts with [] => True | t :: ts' => rep_tree t par (first ts') /\ rep_forest ts' par end.

Lemma rep_node t par nxt :
  rep_tree t par nxt <-> (exists n, N !! tptr t = Some n /\ shows n t par nxt) /\ rep_forest (kids t) (tptr t).
Proof.
  destruct t as [p nm fl ts]. cbn [rep_tree tptr kids].
  assert (E : forall l, (fix rep_kids (l : list tree) : Prop :=
    match l with [] => True | u :: l' => rep_tree u p (first l') /\ rep_kids l' end) l <-> rep_forest l p).
  { induction l as [|u l IH]; [done|]. cbn [rep_forest]. by rewrite <- IH. }
  by rewrite E.
Qed.

Lemma rep_forest_in ts par t : rep_forest ts par -> t ∈ ts -> exists nxt, rep_tree t par nxt.
Proof.
  induction ts as [|u ts IH]; intros Hr Ht; [by apply elem_of_nil in Ht|]. destruct Hr as [Hu Hr].
  apply elem_of_cons in Ht as [->|Ht]; [by exists (first ts) | by apply IH].
Qed.
End Rep.

(** A tree depends on the nodes it consists of. *)
Lemma rep_tree_frame N N' t : forall par nxt, (forall p, p ∈ ptrs t -> N' !! p = N !! p) ->
  rep_tree N t par nxt -> rep_tree N' t par nxt.
Proof.
  induction t as [p nm fl ts IH] using tree_induction. intros par nxt Hf. rewrite !rep_node.
  intros [(n & Hn & Hs) Hk]. split; [exists n; split; [|done]; rewrite Hf; [done | apply ptrs_self]|].
  cbn [kids tptr] in *. assert (Hf' : forall q, q ∈ forest_ptrs ts -> N' !! q = N !! q).
  { intros q Hq. apply Hf. rewrite ptrs_node. by right. }
  clear Hf Hn Hs. induction ts as [|u ts IHts]; [done|]. inversion_clear IH as [|? ? Hu Hts].
  destruct Hk as [Hk1 Hk2]. split; [apply Hu; [|done]; intros q Hq; apply Hf', elem_of_app; by left|].
  apply IHts; [done | done|]. intros q Hq. apply Hf', elem_of_app. by right.
Qed.
Lemma rep_forest_frame N N' ts par : (forall p, p ∈ forest_ptrs ts -> N' !! p = N !! p) ->
  rep_forest N ts par -> rep_forest N' ts par.
Proof.
  induction ts as [|t ts IH]; [done|]. intros Hf [Ht Hr]. split.
  - apply (rep_tree_frame N); [|done]. intros p Hp. apply Hf, elem_of_app. by left.
  - apply IH; [|done]. intros p Hp. apply Hf, elem_of_app. by right.
Qed.

(** The whole namespace: a tree at the root, of distinct nodes, none null. *)
Record rep (N : gmap Z uacpi_namespace_node) (t : tree) : Prop := {
  rep_is_tree : rep_tree N t 0 0;
  rep_root : tptr t = uacpi_namespace_root;
  rep_distinct : NoDup (ptrs t);
  rep_nonnull : 0 ∉ ptrs t;
}.

(** ** Paths of names, by the first child of each name *)

Definition child_named (nm : list Z) (ts : list tree) : option tree :=
  snd <$> list_find (fun t => tname t = nm) ts.
Fixpoint descend (t : tree) (path : list (list Z)) : option tree :=
  match path with
  | [] => Some t
  | nm :: path' => u ← child_named nm (kids t); descend u path'
  end.

Lemma child_named_in nm ts t : child_named nm ts = Some t -> t ∈ ts /\ tname t = nm.
Proof.
  unfold child_named. intros E. apply fmap_Some in E as ([i u] & E & ->).
  apply list_find_Some in E as (E & Hn & _). split; [by eapply list_elem_of_lookup_2 | done].
Qed.

Lemma descend_snoc t path nm : descend t (path ++ [nm]) = u ← descend t path; child_named nm (kids u).
Proof.
  revert t. induction path as [|x path IH]; intros t; cbn [descend app].
  - cbn [mbind option_bind]. by destruct (child_named nm (kids t)).
  - destruct (child_named x (kids t)); cbn [mbind option_bind]; [apply IH | done].
Qed.

Lemma descend_rep N t path u : forall par nxt, rep_tree N t par nxt -> descend t path = Some u ->
  exists par' nxt', rep_tree N u par' nxt'.
Proof.
  revert t. induction path as [|x path IH]; intros t par nxt Hr E; cbn [descend] in E.
  - injection E as <-. by exists par, nxt.
  - destruct (child_named x (kids t)) as [v|] eqn:Ev; cbn in E; [|done].
    apply rep_node in Hr as [_ Hk]. apply child_named_in in Ev as [Hv _].
    destruct (rep_forest_in _ _ _ _ Hk Hv) as [nxt' Hr']. by eapply IH.
Qed.

Lemma descend_ptrs t path u : descend t path = Some u -> sublist (ptrs u) (ptrs t).
Proof.
  revert t. induction path as [|x path IH]; intros t E; cbn [descend] in E; [by injection E as <-|].
  destruct (child_named x (kids t)) as [v|] eqn:Ev; cbn in E; [|done].
  etransitivity; [by eapply IH|]. apply child_named_in in Ev as [Hv _].
  apply list_elem_of_split in Hv as (l1 & l2 & Hk). rewrite (ptrs_node t), Hk. unfold forest_ptrs.
  rewrite map_app, concat_app. cbn. apply sublist_cons, sublist_inserts_l, sublist_inserts_r. done.
Qed.

Lemma descend_nil_ptr t path u : NoDup (ptrs t) -> descend t path = Some u -> tptr u = tptr t -> path = [].
Proof.
  destruct path as [|x path]; [done|]. intros Hd E Hp. exfalso. cbn [descend] in E.
  destruct (child_named x (kids t)) as [v|] eqn:Ev; cbn in E; [|done]. apply child_named_in in Ev as [Hv _].
  rewrite ptrs_node in Hd. apply NoDup_cons in Hd as [Hd _]. apply Hd, (forest_ptrs_in v); [done|].
  rewrite <- Hp. apply (elem_of_sublist (ptrs u)); [apply ptrs_self | by apply (descend_ptrs v path)].
Qed.

(** ** Walks *)

Section Walks.
Context {Plat : Platform} {Alloc : Allocator}.
Implicit Types s : store.

Lemma load_node s p n : nodes s !! p = Some n -> load (A := uacpi_namespace_node) p s = Some (n, s).
Proof. intros E. unfold load. cbn. by rewrite E. Qed.

Lemma find_in_forest fuel s nm par ts : rep_forest (nodes s) ts par -> 0 ∉ forest_ptrs ts ->
  (length ts < fuel)%nat ->
  loop fuel (fun p => if p =? 0 then mret (inr 0)
    else n ← load p; mret (if bool_decide (name n = nm) then inr p else inl (next n))) (first ts) s
  = Some (match child_named nm ts with Some t => tptr t | None => 0 end, s).
Proof.
  revert fuel. induction ts as [|t ts IH]; intros fuel Hr Hz Hf; (destruct fuel as [|fuel]; [cbn in Hf; lia|]).
  - by rewrite (loop_inr _ _ _ 0 s s) by done.
  - destruct Hr as [Ht Hr]. apply rep_node in Ht as [(n & Hn & Hname & _ & _ & Hnext & _) _].
    assert (Hp : tptr t <> 0) by (intros E; apply Hz, elem_of_app; left; rewrite <- E; apply ptrs_self).
    unfold child_named. cbn [first list_find]. destruct (decide (tname t = nm)) as [Et|Et].
    + erewrite loop_inr; [done|]. rewrite (proj2 (Z.eqb_neq _ 0)) by done.
      rewrite (bind_run _ _ _ _ _ (load_node _ _ _ Hn)). by rewrite Hname, bool_decide_true.
    + erewrite loop_inl; [|rewrite (proj2 (Z.eqb_neq _ 0)) by done;
        rewrite (bind_run _ _ _ _ _ (load_node _ _ _ Hn)); by rewrite Hname, bool_decide_false].
      rewrite Hnext, IH; [| done | intros Hin; apply Hz, elem_of_app; by right | cbn in Hf; lia].
      unfold child_named. by destruct (list_find _ ts) as [[]|].
Qed.

Lemma find_sub_node_run fuel s t par nxt nm : rep_tree (nodes s) t par nxt -> 0 ∉ ptrs t ->
  (length (kids t) < fuel)%nat ->
  uacpi_namespace_node_find_sub_node fuel (tptr t) nm s
  = Some (match child_named nm (kids t) with Some u => tptr u | None => 0 end, s).
Proof.
  intros Hr Hz Hf. assert (Hp : tptr t <> 0) by (intros E; apply Hz; rewrite <- E; apply ptrs_self).
  apply rep_node in Hr as [(n & Hn & _ & _ & _ & _ & Hchild) Hk].
  unfold uacpi_namespace_node_find_sub_node. rewrite (proj2 (Z.eqb_neq _ 0)) by done.
  rewrite (bind_run _ _ _ _ _ (load_node _ _ _ Hn)), Hchild.
  apply (find_in_forest _ _ _ (tptr t)); [done | | done]. intros Hin. apply Hz. rewrite ptrs_node. by right.
Qed.
End Walks.
