(* ===== verification/NamespacePath.v ===== *)
(** * Paths of the namespace: the absolute path of a node leads back to it *)
From S2P Require Import Prelude Status Shareable KernelSync Alloc Mutex MutexSpec Tables TableSamples Objects Namespace NamespaceTree.

(** ** Strings *)

Definition dot : Z := chr ".".
(** A name a segment can spell: four characters, none a dot. *)
Definition spelled (nm : list Z) : Prop := length nm = 4%nat /\ dot ∉ nm.

Fixpoint segs (path : list (list Z)) : list Z :=
  match path with
  | [] => []
  | nm :: path' => match path' with [] => nm | _ :: _ => nm ++ dot :: segs path' end
  end.
Definition absolute_path (path : list (list Z)) : list Z := chr "\" :: segs path.

Lemma segment_spelled nm rest : spelled nm -> segment_to_name (nm ++ rest) = (nm, rest).
Proof.
  intros [Hl Hd]. destruct nm as [|a [|b [|c [|d []]]]]; try done. unfold dot in Hd.
  rewrite !not_elem_of_cons in Hd. destruct Hd as (? & ? & ? & ? & _).
  unfold segment_to_name. cbn [segment_of app]. by rewrite !(proj2 (Z.eqb_neq _ (chr "."))) by congruence.
Qed.

Lemma segs_cons nm path : segs (nm :: path) = nm ++ match path with [] => [] | _ => dot :: segs path end.
Proof. destruct path; cbn; [by rewrite app_nil_r | done]. Qed.

Lemma segs_snoc path nm : path <> [] -> segs (path ++ [nm]) = segs path ++ dot :: nm.
Proof.
  induction path as [|x path IH]; intros Hn; [done|]. destruct path as [|y path]; [done|].
  change ((x :: y :: path) ++ [nm]) with (x :: ((y :: path) ++ [nm])).
  rewrite segs_cons, (segs_cons x (y :: path)), (IH ltac:(done)). cbn [app]. by rewrite <- app_assoc.
Qed.

Lemma segs_length path : Forall spelled path -> path <> [] ->
  Z.of_nat (length (segs path)) = 5 * Z.of_nat (length path) - 1.
Proof.
  induction path as [|x path IH]; intros Hs Hn; [done|]. inversion_clear Hs as [|? ? [Hx _] Hs'].
  rewrite segs_cons, length_app, Hx. destruct path as [|y path]; [cbn; lia|].
  cbn [length]. cbn [length] in IH. specialize (IH Hs' ltac:(done)). lia.
Qed.

(** ** Sizes *)

Lemma length_forest ts : (length ts <= length (forest_ptrs ts))%nat.
Proof.
  induction ts as [|t ts IH]; [done|]. unfold forest_ptrs. cbn. rewrite length_app, ptrs_node. cbn. unfold forest_ptrs in IH. lia.
Qed.
Lemma tsize_kids t : (length (kids t) < tsize t)%nat.
Proof. unfold tsize. rewrite ptrs_node. cbn. pose proof (length_forest (kids t)). lia. Qed.
Lemma descend_size t path u : descend t path = Some u -> (length path + tsize u <= tsize t)%nat.
Proof.
  revert t. induction path as [|x path IH]; intros t E; cbn [descend] in E; [injection E as <-; cbn; lia|].
  destruct (child_named x (kids t)) as [v|] eqn:Ev; cbn in E; [|done]. specialize (IH v E).
  apply child_named_in in Ev as [Hv _]. apply list_elem_of_split in Hv as (l1 & l2 & Hk).
  assert (Hs : (tsize v < tsize t)%nat); [|cbn; lia].
  unfold tsize. rewrite (ptrs_node t), Hk. unfold forest_ptrs. rewrite map_app, concat_app. cbn.
  rewrite !length_app. lia.
Qed.

Section Paths.
Context {Plat : Platform} {Alloc : Allocator}.
Implicit Types s : store.

(** ** The read lock *)

Definition lock_free s : Prop := exists r w, r <> w
  /\ Mutex.namespace_lock (locks s) = RwLock (Some r) (Some w) 0
  /\ natives (locks s) !! r = Some (InternalMutex false) /\ natives (locks s) !! w = Some (InternalMutex false).

Lemma locks_set s l : locks (s <| locks := l |>) = l.
Proof. reflexivity. Qed.
Lemma store_eta s : s <| locks := locks s |> = s.
Proof. by destruct s. Qed.

(** The locks while one reader is inside. *)
Definition reading s (r w : nat) : rt :=
  (set_native w true (locks s)) <| Mutex.namespace_lock := RwLock (Some r) (Some w) 1 |>.

Lemma read_lock_run s r w : r <> w -> Mutex.namespace_lock (locks s) = RwLock (Some r) (Some w) 0 ->
  native_locked r false (locks s) -> native_locked w false (locks s) ->
  uacpi_namespace_read_lock s = Some (UACPI_STATUS_OK, s <| locks := reading s r w |>).
Proof.
  intros Hne HL Hr Hw. destruct (rw_read_first r w 0 (locks s)) as (l & E & ->); [done..|].
  unfold uacpi_namespace_read_lock, the_namespace_lock, on_locks, set_namespace_lock. mstep.
  rewrite HL, E, rw_swap, (set_native_id r) by done. reflexivity.
Qed.

Lemma reading_undone L r w : Mutex.namespace_lock L = RwLock (Some r) (Some w) 0 -> native_locked w false L ->
  (set_native w false ((set_native w true L) <| Mutex.namespace_lock := RwLock (Some r) (Some w) 1 |>))
    <| Mutex.namespace_lock := RwLock (Some r) (Some w) 0 |> = L.
Proof.
  destruct L as [? n ? ? ? ? ? ? ? ? ? ? ? ?]. unfold native_locked, set_native, with_natives. cbn. intros -> Hw.
  rewrite insert_insert_eq, insert_id by done. reflexivity.
Qed.

Lemma read_unlock_run s s1 r w : r <> w -> Mutex.namespace_lock (locks s) = RwLock (Some r) (Some w) 0 ->
  native_locked r false (locks s) -> native_locked w false (locks s) -> locks s1 = reading s r w ->
  uacpi_namespace_read_unlock s1 = Some (UACPI_STATUS_OK, s1 <| locks := locks s |>).
Proof.
  intros Hne HL Hr Hw E1.
  assert (Hr1 : native_locked r false (reading s r w)).
  { unfold reading, native_locked in *. cbn. by rewrite lookup_insert_ne by done. }
  assert (Hw1 : native_locked w true (reading s r w)) by (unfold reading, native_locked; cbn; by rewrite lookup_insert_eq).
  unfold uacpi_namespace_read_unlock, the_namespace_lock, on_locks, set_namespace_lock. mstep.
  rewrite E1. change (Mutex.namespace_lock (reading s r w)) with (RwLock (Some r) (Some w) 1).
  rewrite (rw_read_unlock r w 1) by done. cbn [Z.eqb Pos.eqb]. rewrite rw_swap, (set_native_id r) by done.
  cbn [option_bind]. f_equal. f_equal. transitivity (s1 <| locks := locks s |>); [|done].
  rewrite <- (reading_undone (locks s) r w HL Hw). reflexivity.
Qed.

(** A body that leaves the locks alone runs under the read lock as without. *)
Lemma under_read_lock_run {A} sl (failed : uacpi_status -> A) (body : M store A) s s1 a : lock_free s ->
  (forall l, body (s <| locks := l |>) = Some (a, s1 <| locks := l |>)) ->
  under_read_lock sl failed body s = Some (a, s1 <| locks := locks s |>).
Proof.
  intros (r & w & Hne & HL & Hr & Hw) Hb. unfold under_read_lock. destruct (decide _).
  - rewrite (bind_run _ _ _ _ _ (read_lock_run s r w Hne HL Hr Hw)). cbn [is_ok negb].
    rewrite (bind_run _ _ _ _ _ (Hb (reading s r w))).
    rewrite (bind_run _ _ _ _ _ (read_unlock_run s (s1 <| locks := reading s r w |>) r w Hne HL Hr Hw (locks_set _ _))).
    by destruct s1.
  - rewrite <- (store_eta s) at 1. apply Hb.
Qed.

(** ** From the root down *)

Lemma resolve_turn fuel s par above t nxt par_ nm rest single (lead : bool) : rep_tree (nodes s) t par_ nxt ->
  0 ∉ ptrs t -> (tsize t <= fuel)%nat -> spelled nm ->
  resolve_segment fuel par above (tptr t, (if lead then [dot] else []) ++ nm ++ rest, single) s
  = match child_named nm (kids t) with
    | Some u => Some (inl (tptr u, rest, single && bool_decide (rest = [])), s)
    | None => resolve_segment fuel par above (tptr t, (if lead then [dot] else []) ++ nm ++ rest, single) s
    end.
Proof.
  intros Hr Hz Hf Hs. destruct (child_named nm (kids t)) as [u|] eqn:Eu; [|done].
  assert (Hu : truthy (tptr u) = true).
  { unfold truthy. apply negb_true_iff, Z.eqb_neq. intros E. apply Hz. rewrite ptrs_node, <- E. right.
    apply (forest_ptrs_in u); [by eapply child_named_in | apply ptrs_self]. }
  assert (Hk : (length (kids t) < fuel)%nat) by (pose proof (tsize_kids t); lia).
  pose proof (find_sub_node_run fuel s t par_ nxt nm Hr Hz Hk) as Ef. rewrite Eu in Ef.
  pose proof (segment_spelled nm rest Hs) as Eseg. destruct Hs as [Hl Hd].
  destruct nm as [|a nm]; [done|]. apply not_elem_of_cons in Hd as [Ha _].
  unfold resolve_segment. destruct lead; cbn [app].
  - change (dot =? chr ".") with true. cbv iota. cbn [app] in Eseg. rewrite Eseg.
    rewrite (bind_run _ _ _ _ _ Ef), Hu. reflexivity.
  - rewrite (proj2 (Z.eqb_neq a (chr "."))) by (unfold dot in Ha; congruence). cbn [app] in Eseg. rewrite Eseg.
    rewrite (bind_run _ _ _ _ _ Ef), Hu. reflexivity.
Qed.

Lemma resolve_down fuel s par above t : forall path u par_ nxt single n (lead : bool),
  rep_tree (nodes s) u par_ nxt -> 0 ∉ ptrs u -> (tsize u <= fuel)%nat -> Forall spelled path ->
  descend u path = Some t -> (length path < n)%nat -> path <> [] ->
  loop n (resolve_segment fuel par above) (tptr u, (if lead then [dot] else []) ++ segs path, single) s
  = Some (tptr t, s).
Proof.
  induction path as [|nm path IH]; intros u par_ nxt single n lead Hr Hz Hf Hs Ed Hn Hne; [done|].
  inversion_clear Hs as [|? ? Hnm Hpath]. cbn [descend] in Ed.
  destruct (child_named nm (kids u)) as [v|] eqn:Ev; cbn in Ed; [|done]. destruct n as [|n]; [cbn in Hn; lia|].
  pose proof (child_named_in _ _ _ Ev) as [Hv _].
  pose proof (proj1 (rep_node _ _ _ _) Hr) as [_ Hk]. destruct (rep_forest_in _ _ _ _ Hk Hv) as [nxt' Hrv].
  assert (Hsub : sublist (ptrs v) (ptrs u)) by (apply (descend_ptrs u [nm]); cbn; by rewrite Ev).
  rewrite segs_cons. erewrite loop_inl by (rewrite (resolve_turn fuel s par above u nxt par_) by done; by rewrite Ev).
  destruct path as [|x path].
  - injection Ed as <-. destruct n as [|n]; [cbn in Hn; lia|]. by erewrite loop_inr.
  - apply (IH v (tptr u) nxt' _ n true); try done.
    + intros Hz0. apply Hz. by eapply elem_of_sublist.
    + unfold tsize in *. pose proof (sublist_length _ _ Hsub). lia.
    + cbn [length] in *. lia.
Qed.

(** ** From a node up *)

Lemma up_one N t path nm u : rep N t -> descend t (path ++ [nm]) = Some u ->
  exists v n, descend t path = Some v /\ N !! tptr u = Some n /\ name n = nm /\ parent n = tptr v /\ tptr v <> 0
    /\ tptr u <> tptr t.
Proof.
  intros R E. pose proof (descend_ptrs _ _ _ E) as Hsub. pose proof E as E0. rewrite descend_snoc in E.
  destruct (descend t path) as [v|] eqn:Ev; cbn in E; [|done].
  destruct (descend_rep N t path v 0 0) as (par & nxt & Hr); [apply R | done |].
  apply rep_node in Hr as [_ Hk]. apply child_named_in in E as [Hu Hnm].
  destruct (rep_forest_in _ _ _ _ Hk Hu) as [nxt' Hru]. apply rep_node in Hru as [(n & Hn & Hs & _ & Hp & _) _].
  exists v, n. split_and!; [done | done | by rewrite <- Hnm | done | |].
  - intros Hz. apply (rep_nonnull _ _ R). rewrite <- Hz. apply (elem_of_sublist (ptrs v)); [apply ptrs_self|].
    by apply (descend_ptrs t path).
  - intros Et. by apply (descend_nil_ptr t (path ++ [nm]) u (rep_distinct _ _ R)) in E0; [destruct path|].
Qed.

Lemma depth_run s t path : forall u n d, rep (nodes s) t -> descend t path = Some u -> (length path < n)%nat ->
  loop n (fun '(node, depth) => nd ← load (A := uacpi_namespace_node) node;
     mret (if parent nd =? 0 then inr depth else inl (parent nd, depth + 1))) (tptr u, d) s
  = Some (d + Z.of_nat (length path), s).
Proof.
  induction path as [|nm path IH] using rev_ind; intros u n d R E Hn; (destruct n as [|n]; [lia|]).
  - injection E as <-. pose proof (proj1 (rep_node _ _ _ _) (rep_is_tree _ _ R)) as [(nd & Hnd & _ & _ & Hp & _) _].
    erewrite loop_inr; [|rewrite (bind_run _ _ _ _ _ (load_node _ _ _ Hnd)); by rewrite Hp]. by rewrite Z.add_0_r.
  - destruct (up_one _ _ _ _ _ R E) as (v & nd & Ev & Hnd & _ & Hp & Hz & _). rewrite length_app in *. cbn [length] in *.
    erewrite loop_inl; [|rewrite (bind_run _ _ _ _ _ (load_node _ _ _ Hnd)); by rewrite Hp, (proj2 (Z.eqb_neq _ 0))].
    rewrite (IH v n (d + 1) R Ev) by lia. f_equal. f_equal. lia.
Qed.

Lemma segments_run s t path : forall u n acc, rep (nodes s) t -> descend t path = Some u -> (length path < n)%nat ->
  loop n (fun '(node, path) => if node =? uacpi_namespace_root then mret (inr path)
    else nd ← load node; let path := name nd ++ path in
      mret (inl (parent nd, if parent nd =? uacpi_namespace_root then path else chr "." :: path))) (tptr u, acc) s
  = Some (segs path ++ acc, s).
Proof.
  induction path as [|nm path IH] using rev_ind; intros u n acc R E Hn; (destruct n as [|n]; [lia|]).
  - injection E as <-. erewrite loop_inr; [done|]. by rewrite (rep_root _ _ R), Z.eqb_refl.
  - destruct (up_one _ _ _ _ _ R E) as (v & nd & Ev & Hnd & Hname & Hp & _ & Hne). rewrite length_app in Hn. cbn [length] in Hn.
    rewrite (rep_root _ _ R) in Hne. erewrite loop_inl; [|rewrite (proj2 (Z.eqb_neq _ _)) by done;
      rewrite (bind_run _ _ _ _ _ (load_node _ _ _ Hnd)); rewrite Hname, Hp; cbv [mret M_ret]; cbv beta zeta; reflexivity].
    destruct (Z.eqb_spec (tptr v) uacpi_namespace_root) as [Er|Er].
    + rewrite <- (rep_root _ _ R) in Er. apply (descend_nil_ptr t path v (rep_distinct _ _ R) Ev) in Er as ->.
      by rewrite (IH v n (nm ++ acc) R Ev) by lia.
    + rewrite (IH v n _ R Ev) by lia. f_equal. f_equal.
      assert (Hpath : path <> []) by (intros ->; injection Ev as <-; by apply Er, (rep_root _ _ R)).
      rewrite segs_snoc by done. rewrite <- app_assoc. reflexivity.
Qed.

Lemma generate_run fuel s t path u : rep (nodes s) t -> descend t path = Some u -> Forall spelled path ->
  (tsize t <= fuel)%nat -> exists h r, uacpi_namespace_node_generate_absolute_path fuel (tptr u) s = Some (r, s <| oheap := h |>)
    /\ r = if (malloc (Z.of_nat (length (absolute_path path)) + 1) (oheap s)).1 =? 0 then None else Some (absolute_path path).
Proof.
  intros R E Hs Hf. pose proof (descend_size _ _ _ E) as Hsz.
  assert (Htu : (0 < tsize u)%nat) by (unfold tsize; rewrite ptrs_node; cbn; lia).
  unfold uacpi_namespace_node_generate_absolute_path, uacpi_namespace_node_depth.
  rewrite (bind_run _ _ _ _ _ (depth_run s t path u fuel 0 R E ltac:(lia))). cbv zeta. rewrite Z.add_0_l.
  set (bytes := 1 + _ * 4 + _ + 1).
  assert (El : Z.of_nat (length (segs path)) = bytes - 2).
  { subst bytes. destruct path as [|nm path]; [done|].
    rewrite (segs_length (nm :: path)) by done. cbn [length]. destruct path; [done|].
    rewrite (proj2 (Z.ltb_lt 2 _)) by (cbn [length]; lia). cbn [length]. lia. }
  assert (Eb : Z.of_nat (length (absolute_path path)) + 1 = bytes) by (unfold absolute_path; cbn [length]; lia).
  rewrite Eb. clearbody bytes. destruct (malloc bytes (oheap s)) as [p h] eqn:Em. cbn [fst].
  assert (Ea : kernel_alloc bytes s = Some (p, s <| oheap := h |>)) by (unfold kernel_alloc; by rewrite Em).
  exists h. rewrite (bind_run _ _ _ _ _ Ea). destruct (p =? 0); [by exists None|].
  exists (Some (absolute_path path)). split; [|done].
  change (nodes s) with (nodes (s <| oheap := h |>)) in R.
  pose proof (segments_run (s <| oheap := h |>) t path u fuel [] R E ltac:(lia)) as Es. rewrite app_nil_r in Es.
  rewrite (bind_run _ _ _ _ _ (Es : path_segments fuel (tptr u) [] _ = _)).
  by rewrite (proj2 (Z.eqb_eq _ _) El).
Qed.

Lemma find_run fuel s t path u par : rep (nodes s) t -> descend t path = Some u -> Forall spelled path ->
  (tsize t <= fuel)%nat -> lock_free s -> has_flag (tflags u) UACPI_NAMESPACE_NODE_FLAG_TEMPORARY = false ->
  uacpi_namespace_node_find fuel par (absolute_path path) s = Some ((UACPI_STATUS_OK, tptr u), s).
Proof.
  intros R E Hs Hf Hl Ht. rewrite <- (store_eta s) at 2. apply under_read_lock_run; [done|]. intros l.
  set (s' := s <| locks := l |>). change (nodes s) with (nodes s') in R.
  destruct (descend_rep _ _ _ _ _ _ (rep_is_tree _ _ R) E) as (par' & nxt & Hu).
  apply rep_node in Hu as [(n & Hn & _ & Hfl & _) _].
  assert (Hup : tptr u <> 0).
  { intros Hz. apply (rep_nonnull _ _ R). rewrite <- Hz. apply (elem_of_sublist (ptrs u)); [apply ptrs_self | by eapply descend_ptrs]. }
  unfold resolve_unlocked, absolute_path. cbn [resolve_prefix]. change (chr "\" =? chr "\") with true. cbv beta iota.
  change (0 =? chr "^") with false. cbv iota. rewrite bind_ret_l. cbn [is_ok negb].
  assert (Hloop : loop fuel (resolve_segment fuel par UACPI_MAY_SEARCH_ABOVE_PARENT_NO) (uacpi_namespace_root, segs path, false) s'
    = Some (tptr u, s')).
  { rewrite <- (rep_root _ _ R). pose proof (descend_size _ _ _ E).
    assert ((0 < tsize u)%nat) by (unfold tsize; rewrite ptrs_node; cbn; lia).
    destruct path as [|nm path].
    - injection E as <-. destruct fuel; [lia|]. by erewrite loop_inr.
    - apply (resolve_down fuel s' par _ u (nm :: path) t 0 0 false fuel false); try done; [apply R | apply R | lia]. }
  rewrite (bind_run _ _ _ _ _ Hloop), (proj2 (Z.eqb_neq _ 0)) by done.
  unfold uacpi_namespace_node_is_temporary. mstep. rewrite (load_node _ _ _ Hn), Hfl, Ht. done.
Qed.
End Paths.

(** ** A namespace to try things on *)

(** The nodes of a tree, linked. *)
Fixpoint link (t : tree) (par nxt : Z) : list (Z * uacpi_namespace_node) :=
  let '(Tree p nm fl ts) := t in
  (p, Node nm fl 0 par (first ts) nxt) ::
  (fix link_kids (l : list tree) : list (Z * uacpi_namespace_node) :=
     match l with [] => [] | u :: l' => link u p (first l') ++ link_kids l' end) ts.

(** The root, [\_SB_] and [\_SB_.PCI0] with two functions below, and [\_TZ_]. *)
Definition sample_tree : tree :=
  Tree uacpi_namespace_root [chr "\"; 0; 0; 0] UACPI_NAMESPACE_NODE_PREDEFINED
    [Tree (predefined_namespaces 3) (cstr "_SB_") UACPI_NAMESPACE_NODE_PREDEFINED
       [Tree 0x1000 (cstr "PCI0") 0 [Tree 0x2000 (cstr "LPC_") 0 []; Tree 0x3000 (cstr "SATA") 0 []]];
     Tree (predefined_namespaces 5) (cstr "_TZ_") UACPI_NAMESPACE_NODE_PREDEFINED []].

Definition two_locks : rt :=
  Rt UACPI_INIT_LEVEL_SUBSYSTEM_INITIALIZED (list_to_map [(0%nat, InternalMutex false); (1%nat, InternalMutex false)]) ∅
    (RwLock (Some 0%nat) (Some 1%nat) 0) [] 0 false false false 0 0%nat 0%nat None 0%nat.
Definition store_of (N : gmap Z uacpi_namespace_node) (O : gmap Z uacpi_object) (C : shareables) (L : gset Z) : store :=
  Store C O ∅ ∅ ∅ ∅ ∅ ∅ ∅ ∅ ∅ ∅ ∅ ∅ N (Heap L 0) two_locks (sample_state 0) 0 0.
Definition sample_store : store := store_of (list_to_map (link sample_tree 0 0)) ∅ ∅ ∅.

Lemma sample_rep : rep (nodes sample_store) sample_tree.
Proof.
  split; [|done | apply (bool_decide_unpack _); vm_compute; exact I | apply (bool_decide_unpack _); vm_compute; exact I].
  cbn [rep_tree sample_tree]. repeat first [exact I | split | eexists; split; [vm_compute; reflexivity | done]].
Qed.
Lemma sample_lock_free N O C L : lock_free (store_of N O C L).
Proof. by exists 0%nat, 1%nat. Qed.

(** C40: an absolute path leads back to its node.  For every permanent node of
    a namespace whose names on the way down are four characters without a
    dot, each the first of its name among its siblings,
    [uacpi_namespace_node_generate_absolute_path] gives the names from the
    root joined by dots, or null exactly when there is no memory for them and
    their terminator, and
    [uacpi_namespace_node_find] of that path gives the node, wherever the
    search starts; neither changes the tree, and the lock, free before, is
    free after each. *)
Theorem absolute_path_leads_back {Plat : Platform} {Alloc : Allocator} (fuel : nat) (s : store) (t u : tree)
    (path : list (list Z)) (R : rep (nodes s) t) (Hu : descend t path = Some u) (Hs : Forall spelled path)
    (Hf : (tsize t <= fuel)%nat) (Hl : lock_free s)
    (Hp : has_flag (tflags u) UACPI_NAMESPACE_NODE_FLAG_TEMPORARY = false) :
  exists r s1, uacpi_namespace_node_generate_absolute_path fuel (tptr u) s = Some (r, s1)
  /\ nodes s1 = nodes s /\ lock_free s1
  /\ (r = if (malloc (Z.of_nat (length (absolute_path path)) + 1) (oheap s)).1 =? 0 then None else Some (absolute_path path))
  /\ forall par, uacpi_namespace_node_find fuel par (absolute_path path) s1 = Some ((UACPI_STATUS_OK, tptr u), s1).
Proof.
  destruct (generate_run fuel s t path u R Hu Hs Hf) as (h & r & E & Hr).
  exists r, (s <| oheap := h |>). split_and!; [done | done | done | done|].
  intros par. by apply (find_run fuel (s <| oheap := h |>) t).
Qed.

Lemma absolute_path_leads_back_witness :
  exists s1, uacpi_namespace_node_generate_absolute_path (Alloc := bump) 6 0x3000 sample_store
             = Some (Some (cstr "\_SB_.PCI0.SATA"), s1)
  /\ uacpi_namespace_node_find 6 0 (cstr "\_SB_.PCI0.SATA") s1 = Some ((UACPI_STATUS_OK, 0x3000), s1).
Proof.
  destruct (absolute_path_leads_back (Plat := sample_machine) (Alloc := bump) 6 sample_store sample_tree (Tree 0x3000 (cstr "SATA") 0 [])
    [cstr "_SB_"; cstr "PCI0"; cstr "SATA"] sample_rep ltac:(vm_compute; reflexivity)
    ltac:(repeat (apply Forall_cons_2; [split; [done | apply (bool_decide_unpack _); vm_compute; exact I]|]); done)
    ltac:(apply Nat.leb_le; vm_compute; reflexivity) (sample_lock_free _ _ _ _) eq_refl)
    as (r & s1 & E & _ & _ & Hr & Hfind).
  vm_compute in Hr. subst r. exists s1. split; [exact E | exact (Hfind 0)].
Defined.
