(* ===== verification/NamespaceWalk.v ===== *)
(** * The walk over the namespace, against a recursive one

    [walk_tree] and [walk_forest] say what
    [uacpi_namespace_do_for_each_child] does on the tree behind the nodes,
    for callbacks that leave the namespace alone: a node's descending call,
    its children unless it is to be skipped, its ascending call. *)
From S2P Require Import Prelude Status Shareable KernelSync Alloc Mutex MutexSpec Tables TableSamples Objects Namespace NamespaceTree NamespacePath.

(** The type of the object a node holds by a reference that names it. *)
Definition has_type (s : store) (p : Z) (ty : uacpi_object_type) : Prop :=
  exists n r o, nodes s !! p = Some n /\ object n <> 0 /\ objects s !! object n = Some r
  /\ type r = UACPI_OBJECT_REFERENCE /\ oflags r = UACPI_REFERENCE_KIND_NAMED
  /\ objects s !! inner_object r = Some o /\ type o = ty /\ type o <> UACPI_OBJECT_REFERENCE /\ inner_object r <> 0.

Section Reference.
Context {X : Type}.
Abbreviation pure_callback := (X -> Z -> Z -> X * uacpi_iteration_decision).
Context (descending ascending : option pure_callback) (types : Z -> uacpi_object_type).
Context (type_mask max_depth : Z) (permanent_only : uacpi_permanent_only).

Definition of_interest (t : tree) : bool := has_flag (type_bit (types (tptr t))) type_mask.
Definition hidden (t : tree) : bool :=
  has_flag (tflags t) UACPI_NAMESPACE_NODE_FLAG_TEMPORARY && bool_decide (permanent_only = UACPI_PERMANENT_ONLY_YES).

(** What a callback decides about a node: nodes of other types are passed
    through, temporary ones skipped. *)
Definition consult (cb : option pure_callback) (t : tree) (d : Z) (x : X) : X * uacpi_iteration_decision :=
  if negb (of_interest t) then (x, UACPI_ITERATION_DECISION_CONTINUE)
  else if hidden t then (x, UACPI_ITERATION_DECISION_NEXT_PEER)
  else match cb with None => (x, UACPI_ITERATION_DECISION_CONTINUE) | Some f => f x (tptr t) d end.

(** The context, and [true] to go on. *)
Definition ascend (t : tree) (d : Z) (x : X) : X * bool :=
  let '(x, decision) := consult ascending t d x in
  match decision with UACPI_ITERATION_DECISION_BREAK => (x, false) | _ => (x, true) end.

Fixpoint walk_tree (t : tree) (d : Z) (x : X) : X * bool :=
  let '(Tree _ _ _ ts) := t in
  let walk_kids := fix walk_kids (l : list tree) (x : X) : X * bool :=
    match l with
    | [] => (x, true)
    | u :: l' => let '(x, go) := walk_tree u (d + 1) x in if go then walk_kids l' x else (x, false)
    end in
  let '(x, decision) := consult descending t d x in
  match decision with
  | UACPI_ITERATION_DECISION_BREAK => (x, false)
  | UACPI_ITERATION_DECISION_NEXT_PEER => ascend t d x
  | UACPI_ITERATION_DECISION_CONTINUE =>
      let '(x, go) := if d =? max_depth then (x, true) else walk_kids ts x in
      if go then ascend t d x else (x, false)
  end.
Fixpoint walk_forest (ts : list tree) (d : Z) (x : X) : X * bool :=
  match ts with
  | [] => (x, true)
  | t :: ts' => let '(x, go) := walk_tree t d x in if go then walk_forest ts' d x else (x, false)
  end.

Lemma walk_tree_eq t d x : walk_tree t d x =
  let '(x, decision) := consult descending t d x in
  match decision with
  | UACPI_ITERATION_DECISION_BREAK => (x, false)
  | UACPI_ITERATION_DECISION_NEXT_PEER => ascend t d x
  | UACPI_ITERATION_DECISION_CONTINUE =>
      let '(x, go) := if d =? max_depth then (x, true) else walk_forest (kids t) (d + 1) x in
      if go then ascend t d x else (x, false)
  end.
Proof.
  destruct t as [p nm fl ts]. cbn [walk_tree kids]. destruct (consult _ _ _ _) as [x' []]; [|done..].
  destruct (d =? max_depth); [done|]. f_equal. revert x'.
  induction ts as [|u ts IH]; intros x'; [done|]. cbn [walk_forest].
  destruct (walk_tree u (d + 1) x') as [y []]; [apply IH | done].
Qed.
End Reference.

Lemma first_nonnull ts : 0 ∉ forest_ptrs ts -> ts <> [] -> (first ts =? 0) = false.
Proof.
  intros Hz Hne. destruct ts as [|t ts]; [done|]. apply Z.eqb_neq. intros E. apply Hz, elem_of_app. left.
  cbn in E. rewrite <- E. apply ptrs_self.
Qed.

(** ** The loop follows it *)

Section Loop.
Context {Plat : Platform} {Alloc : Allocator} {X : Type}.
Abbreviation pure_callback := (X -> Z -> Z -> X * uacpi_iteration_decision).
Context (descending ascending : option pure_callback) (types : Z -> uacpi_object_type).
Context (type_mask max_depth : Z) (should_lock : uacpi_should_lock) (permanent_only : uacpi_permanent_only).

(** A callback that leaves the store alone. *)
Definition lifted (cb : option pure_callback) : option (X -> Z -> Z -> M store (X * uacpi_iteration_decision)) :=
  (fun f x p d => mret (f x p d)) <$> cb.

(** The store with the lock held, if the walk locks, and without. *)
Context (inn out : store).
Definition locking : bool := bool_decide (should_lock = UACPI_SHOULD_LOCK_YES).
Context (Hunlock : (if locking then uacpi_namespace_read_unlock else mret UACPI_STATUS_OK) inn = Some (UACPI_STATUS_OK, out)).
Context (Hlock : (if locking then uacpi_namespace_read_lock else mret UACPI_STATUS_OK) out = Some (UACPI_STATUS_OK, inn)).

Abbreviation turn fuel := (visit fuel (lifted descending) (lifted ascending) type_mask max_depth should_lock permanent_only).
Abbreviation consult_ := (consult types type_mask permanent_only).
Abbreviation interest := (of_interest types type_mask).

Lemma sees s p ty fuel : (2 <= fuel)%nat -> p <> 0 -> has_type s p ty ->
  uacpi_namespace_node_is_one_of_unlocked fuel p type_mask s
  = Some ((UACPI_STATUS_OK, Some (has_flag (type_bit ty) type_mask)), s).
Proof.
  intros Hf Hp (n & r & o & Hn & Hob & Hr & Hty & Hfl & Ho & Hty' & Hne & Hio).
  destruct fuel as [|[|fuel]]; [lia..|].
  unfold uacpi_namespace_node_is_one_of_unlocked, uacpi_namespace_node_get_object.
  rewrite !(proj2 (Z.eqb_neq p 0)) by done. mstep. rewrite (load_node _ _ _ Hn), (proj2 (Z.eqb_neq (object n) 0)) by done.
  cbn [option_bind]. unfold uacpi_unwrap_internal_reference, load. cbn [loop]. mstep. cbn [blocks object_block]. rewrite Hr. cbn [option_bind].
  rewrite Hty, Hfl, bool_decide_true by done. cbn. rewrite Ho. cbn. rewrite bool_decide_false by done. cbn.
  rewrite (proj2 (Z.eqb_neq _ 0)) by done. rewrite bind_ret_l || mstep. cbn.
  unfold uacpi_object_is_one_of, uacpi_object_get_type_bit, load. mstep. cbn. rewrite Ho. cbn. by rewrite Hty'.
Qed.

Lemma call_lifted (f : pure_callback) x p d : call_unlocked should_lock (fun x p d => mret (f x p d)) x p d inn
  = match f x p d with
    | (x', UACPI_ITERATION_DECISION_BREAK) => Some (inr (Ended UACPI_STATUS_OK false x'), out)
    | (x', decision) => Some (inl (x', decision), inn)
    end.
Proof.
  unfold call_unlocked. cbv zeta. fold locking. rewrite (bind_run _ _ _ _ _ Hunlock). cbn [is_ok negb]. rewrite bind_ret_l.
  destruct (f x p d) as [x' []]; try done; rewrite (bind_run _ _ _ _ _ Hlock); reflexivity.
Qed.

Lemma visit_node fuel t par nxt d up m x : (2 <= fuel)%nat -> tptr t <> 0 -> d <> 0 ->
  rep_tree (nodes inn) t par nxt -> has_type inn (tptr t) (types (tptr t)) ->
  turn fuel (Walk (tptr t) d up m x) inn =
  match consult_ (if up : bool then ascending else descending) t d x with
  | (x', UACPI_ITERATION_DECISION_BREAK) => Some (inr (Ended UACPI_STATUS_OK false x'), out)
  | (x', decision) => do_next max_depth (Walk (tptr t) d up (interest t) x') decision inn
  end.
Proof.
  intros Hf Hp Hd Hr Hty. apply rep_node in Hr as [(n & Hn & _ & Hfl & _) _].
  unfold visit, consult, hidden, of_interest. cbn [w_depth w_node w_user walking_up matches].
  rewrite (proj2 (Z.eqb_neq d 0)) by done. rewrite (bind_run _ _ _ _ _ (sees _ _ _ _ Hf Hp Hty)). cbv zeta. cbn.
  destruct (has_flag (type_bit _) type_mask); [cbn|done].
  unfold uacpi_namespace_node_is_temporary. mstep. rewrite (load_node _ _ _ Hn), Hfl. cbn.
  destruct (has_flag (tflags t) _ && _); [done|]. destruct up; cbn.
  all: match goal with |- context[lifted ?c] => destruct c as [f|]; [|done] end; cbn; rewrite call_lifted;
    destruct (f x (tptr t) d) as [x' []]; done.
Qed.

(** Where the walk goes after a node with next sibling [nxt] below [par]. *)
Definition onward (d par nxt : Z) (m : bool) (x : X) : walk :=
  if truthy nxt then Walk nxt d false m x else Walk par (u32 (d - 1)) true m x.

(** From [w], [n] turns lead on to [onward], or end the loop. *)
Definition leads (fuel n : nat) (w : walk) (d par nxt : Z) (r : X * bool) : Prop :=
  let '(x, go) := r in
  if go : bool then exists m, forall k, loop (n + k) (turn fuel) w inn = loop k (turn fuel) (onward d par nxt m x) inn
  else forall k, loop (n + k) (turn fuel) w inn = Some (Ended UACPI_STATUS_OK false x, out).

Lemma leads_after fuel n n' w w' d par nxt r :
  (forall k, loop (n + k) (turn fuel) w inn = loop k (turn fuel) w' inn) ->
  leads fuel n' w' d par nxt r -> leads fuel (n + n') w d par nxt r.
Proof.
  intros E. destruct r as [x []]; unfold leads; [intros [m H]; exists m | intros H]; intros k; by rewrite <- Nat.add_assoc, E.
Qed.

Lemma ascend_leads fuel t par nxt d m x : (2 <= fuel)%nat -> tptr t <> 0 -> d <> 0 ->
  rep_tree (nodes inn) t par nxt -> has_type inn (tptr t) (types (tptr t)) ->
  leads fuel 1 (Walk (tptr t) d true m x) d par nxt (ascend ascending types type_mask permanent_only t d x).
Proof.
  intros Hf Hp Hd Hr Hty. pose proof (visit_node fuel t par nxt d true m x Hf Hp Hd Hr Hty) as E. cbn in E.
  apply rep_node in Hr as [(n & Hn & _ & _ & Hpar & Hnxt & _) _].
  assert (D : forall w decision, w_node w = tptr t -> w_depth w = d -> walking_up w = true ->
    do_next max_depth w decision inn = Some (inl (onward d par nxt (matches w) (w_user w)), inn)).
  { intros w decision Hw Hwd Hup. unfold do_next. rewrite Hw. rewrite (bind_run _ _ _ _ _ (load_node _ _ _ Hn)), Hup, Hpar, Hnxt.
    unfold onward. destruct w. cbn in *. subst. by destruct (truthy _). }
  unfold ascend. destruct (consult_ ascending t d x) as [x' []].
  - exists (interest t). intros k. apply loop_inl. by rewrite E, D.
  - intros k. by apply loop_inr.
  - exists (interest t). intros k. apply loop_inl. by rewrite E, D.
Qed.

(** The hypotheses about a part of the namespace. *)
Definition seen (ps : list Z) : Prop := 0 ∉ ps /\ forall p, p ∈ ps -> has_type inn p (types p).
Lemma seen_app a b : seen (a ++ b) -> seen a /\ seen b.
Proof.
  intros [Hz Ht]. rewrite not_elem_of_app in Hz. destruct Hz as [Ha Hb].
  repeat split; try done; intros p Hp; apply Ht, elem_of_app; auto.
Qed.

Abbreviation walk_tree_ := (walk_tree descending ascending types type_mask max_depth permanent_only).
Abbreviation walk_forest_ := (walk_forest descending ascending types type_mask max_depth permanent_only).
Definition follows fuel (t : tree) : Prop := forall par nxt d m x,
  rep_tree (nodes inn) t par nxt -> seen (ptrs t) -> 0 < d -> d + Z.of_nat (tsize t) <= 2 ^ 32 ->
  exists n, (n <= 2 * tsize t)%nat /\ leads fuel n (Walk (tptr t) d false m x) d par nxt (walk_tree_ t d x).

Lemma forest_leads fuel ts : Forall (follows fuel) ts -> forall par d m x,
  ts <> [] -> rep_forest (nodes inn) ts par -> seen (forest_ptrs ts) -> 0 < d ->
  d + Z.of_nat (length (forest_ptrs ts)) <= 2 ^ 32 ->
  exists n, (n <= 2 * length (forest_ptrs ts))%nat
  /\ leads fuel n (Walk (first ts) d false m x) d par 0 (walk_forest_ ts d x).
Proof.
  induction ts as [|t ts IH]; intros HF par d m x Hne Hr Hs Hd Hd32; [done|]. clear Hne.
  inversion_clear HF as [|? ? Ht Hts]. destruct Hr as [Hrt Hr]. change (forest_ptrs (t :: ts)) with (ptrs t ++ forest_ptrs ts) in *.
  apply seen_app in Hs as [Hst Hs]. rewrite length_app in *.
  destruct (Ht par (first ts) d m x Hrt Hst Hd ltac:(unfold tsize; lia)) as (n & Hn & HL).
  cbn [first walk_forest]. destruct (walk_tree_ t d x) as [x' []]; [|exists n; unfold tsize in Hn; split; [lia | done]].
  destruct HL as [m' HL]. destruct ts as [|u ts].
  - exists n. unfold tsize in Hn. split; [lia | by exists m'].
  - pose proof (first_nonnull (u :: ts) (proj1 Hs) ltac:(done)) as Hu.
    destruct (IH Hts par d m' x' ltac:(done) Hr Hs Hd ltac:(lia)) as (n' & Hn' & HL').
    exists (n + n')%nat. split; [unfold tsize in Hn; lia|]. eapply leads_after; [|exact HL'].
    intros k. rewrite HL. unfold onward, truthy. by rewrite Hu.
Qed.

Definition continues (decision : uacpi_iteration_decision) : bool :=
  match decision with UACPI_ITERATION_DECISION_CONTINUE => true | _ => false end.
Lemma do_next_down t par nxt d m (x : X) decision : rep_tree (nodes inn) t par nxt ->
  do_next max_depth (Walk (tptr t) d false m x) decision inn
  = Some (inl (if continues decision && (negb (d =? max_depth) && truthy (first (kids t)))
               then Walk (first (kids t)) (u32 (d + 1)) false m x else Walk (tptr t) d true m x), inn).
Proof.
  intros Hr. apply rep_node in Hr as [(n & Hn & _ & _ & _ & _ & Hc) _].
  unfold do_next. cbn [w_node w_depth walking_up]. rewrite (bind_run _ _ _ _ _ (load_node _ _ _ Hn)), Hc.
  by destruct decision; [destruct (_ && _)|..].
Qed.

Lemma tree_leads fuel t : (2 <= fuel)%nat -> follows fuel t.
Proof.
  intros Hf. induction t as [p nm fl ts IH] using tree_induction. change ts with (kids (Tree p nm fl ts)) in IH.
  revert IH. generalize (Tree p nm fl ts) as t. intros t IH par nxt d m x Hr Hs Hd Hd32.
  assert (Hp : tptr t <> 0) by (intros E; apply (proj1 Hs); rewrite <- E; apply ptrs_self).
  pose proof (proj2 Hs (tptr t) (ptrs_self t)) as Hty.
  pose proof (visit_node fuel t par nxt d false m x Hf Hp ltac:(lia) Hr Hty) as E. cbn in E.
  assert (Hup : forall m' x', leads fuel 1 (Walk (tptr t) d true m' x') d par nxt
    (ascend ascending types type_mask permanent_only t d x')) by (intros; apply ascend_leads; auto; lia).
  assert (Hsz : tsize t = S (length (forest_ptrs (kids t)))) by (unfold tsize; by rewrite ptrs_node).
  rewrite walk_tree_eq. destruct (consult_ descending t d x) as [x' []].
  2: { exists 1%nat. split; [lia|]. intros k. by apply loop_inr. }
  2: { exists 2%nat. split; [lia|]. apply (leads_after fuel 1 1 _ (Walk (tptr t) d true (interest t) x')); [|done].
       intros k. apply loop_inl. by rewrite E, (do_next_down t par nxt). }
  rewrite (do_next_down t par nxt) in E by done. cbn [continues andb] in E. destruct (Z.eqb_spec d max_depth) as [Ed|Ed]; cbn [negb andb] in E.
  { exists 2%nat. split; [lia|]. apply (leads_after fuel 1 1 _ (Walk (tptr t) d true (interest t) x')); [|done].
    intros k. by apply loop_inl. }
  destruct (decide (kids t = [])) as [Ek|Ek].
  { rewrite Ek in *. exists 2%nat. split; [lia|]. apply (leads_after fuel 1 1 _ (Walk (tptr t) d true (interest t) x')); [|done].
    intros k. by apply loop_inl. }
  apply rep_node in Hr as [_ Hk]. rewrite ptrs_node in Hs. apply (seen_app [_]) in Hs as [_ Hsk].
  assert (Hfirst : truthy (first (kids t)) = true) by (unfold truthy; by rewrite (first_nonnull _ (proj1 Hsk) Ek)).
  assert (Hsz2 : (2 <= tsize t)%nat).
  { pose proof (tsize_kids t). pose proof (proj2 (Nat.neq_0_lt_0 (length (kids t)))). destruct (kids t); [done | cbn in *; lia]. }
  rewrite Hfirst, u32_small in E by lia.
  destruct (forest_leads fuel (kids t) IH (tptr t) (d + 1) (interest t) x' Ek Hk Hsk ltac:(lia) ltac:(lia)) as (n & Hn & HL).
  assert (E1 : forall k, loop (1 + k) (turn fuel) (Walk (tptr t) d false m x) inn
    = loop k (turn fuel) (Walk (first (kids t)) (d + 1) false (interest t) x') inn) by (intros k; by apply loop_inl).
  destruct (walk_forest_ (kids t) (d + 1) x') as [y []].
  - destruct HL as [m' HL]. exists (1 + (n + 1))%nat. split; [lia|].
    eapply leads_after; [exact E1|]. eapply leads_after; [|apply (Hup m' y)]. intros k. rewrite HL.
    unfold onward. cbn. by replace (d + 1 - 1) with d by lia; rewrite u32_small by lia.
  - exists (1 + n)%nat. split; [lia|]. by eapply leads_after.
Qed.
(** All the children of a node, and the way back to it. *)
Lemma children_run fuel u x : rep_forest (nodes inn) (kids u) (tptr u) -> seen (forest_ptrs (kids u)) -> kids u <> [] ->
  Z.of_nat (tsize u) < 2 ^ 32 -> (2 * tsize u < fuel)%nat ->
  loop fuel (turn fuel) (Walk (first (kids u)) 1 false false x) inn
  = let '(y, go) := walk_forest_ (kids u) 1 x in Some (Ended UACPI_STATUS_OK go y, if go : bool then inn else out).
Proof.
  intros Hk Hs Ek Hsize Hf. assert (Hsz : tsize u = S (length (forest_ptrs (kids u)))) by (unfold tsize; by rewrite ptrs_node).
  destruct (forest_leads fuel (kids u) (proj2 (Forall_forall _ _) (fun v _ => tree_leads fuel v ltac:(lia)))
    (tptr u) 1 false x Ek Hk Hs ltac:(lia) ltac:(lia)) as (k & Hk2 & HL).
  destruct (walk_forest_ (kids u) 1 x) as [y []].
  - destruct HL as [m HL]. specialize (HL (S (fuel - k - 1))).
    replace (k + S (fuel - k - 1))%nat with fuel in HL by lia. rewrite HL. by apply loop_inr.
  - specialize (HL (fuel - k)%nat). by replace (k + (fuel - k))%nat with fuel in HL by lia.
Qed.
End Loop.

(** ** The whole function *)

Section Whole.
Context {Plat : Platform} {Alloc : Allocator}.
Implicit Types s : store.

(** The store while the walk is at a node, and the two changes of the lock. *)
Lemma lock_states should_lock s : lock_free s -> exists inn, nodes inn = nodes s /\ objects inn = objects s
  /\ (if locking should_lock then uacpi_namespace_read_lock else mret UACPI_STATUS_OK) s = Some (UACPI_STATUS_OK, inn)
  /\ (if locking should_lock then uacpi_namespace_read_unlock else mret UACPI_STATUS_OK) inn = Some (UACPI_STATUS_OK, s).
Proof.
  intros (r & w & Hne & HL & Hr & Hw). destruct (locking should_lock); [|by exists s].
  exists (s <| locks := reading s r w |>). split_and!; [done | done | by apply read_lock_run|].
  rewrite (read_unlock_run s _ r w) by done. f_equal. f_equal. by destruct s.
Qed.

Lemma for_each_child_eq {X} fuel descending ascending type_mask max_depth should_lock permanent_only node (x : X) s :
  init_level_at_least (rt_level (locks s)) UACPI_INIT_LEVEL_SUBSYSTEM_INITIALIZED = true -> node <> 0 -> max_depth <> 0 ->
  descending <> None \/ ascending <> None ->
  uacpi_namespace_do_for_each_child fuel descending ascending type_mask max_depth should_lock permanent_only node x s
  = (ret ← (if bool_decide (should_lock = UACPI_SHOULD_LOCK_YES) then uacpi_namespace_read_lock else mret UACPI_STATUS_OK);
     if negb (is_ok ret) then mret (ret, x)
     else
       n ← load (A := uacpi_namespace_node) node;
       e ← (if child n =? 0 then mret (Ended ret true x)
            else loop fuel (visit fuel descending ascending type_mask max_depth should_lock permanent_only)
              (Walk (child n) 1 false false x));
       _ ← (if end_locked e && bool_decide (should_lock = UACPI_SHOULD_LOCK_YES)
            then uacpi_namespace_read_unlock else mret UACPI_STATUS_OK);
       mret (end_status e, end_user e)) s.
Proof.
  intros Hi Hn Hm Hcb. unfold uacpi_namespace_do_for_each_child.
  rewrite Hi, (proj2 (Z.eqb_neq node 0)), (proj2 (Z.eqb_neq max_depth 0)) by done. cbn [negb orb].
  destruct descending, ascending, should_lock; [done..|naive_solver|naive_solver].
Qed.

Lemma has_type_frame s s' p ty : nodes s' = nodes s -> objects s' = objects s -> has_type s p ty -> has_type s' p ty.
Proof. unfold has_type. by intros -> ->. Qed.
End Whole.

(** C24: the iteration of the namespace is a recursive walk.  For callbacks
    that leave the namespace alone,
    [uacpi_namespace_do_for_each_child] calls the descending callback at each
    node below the given one before its children and the ascending callback
    after them, siblings in order, passing through the nodes whose object is
    of no type in the mask, keeping out of the subtrees of temporary nodes
    and of nodes the callback answers NEXT_PEER for, of the children at the
    maximal depth, and of everything after a BREAK; it ends within two turns
    a node, returns OK and leaves the lock and the store as they were.  The
    lock is free, the nodes below are fewer than 2^32, and each has an object
    by a reference that names it: at a node without one the code would use
    the answer of the type check for the node before. *)
Theorem for_each_child_walks_the_tree {Plat : Platform} {Alloc : Allocator} {X : Type} (fuel : nat) (s : store)
    (t u : tree) (path : list (list Z)) (types : Z -> uacpi_object_type)
    (descending ascending : option (X -> Z -> Z -> X * uacpi_iteration_decision)) (type_mask max_depth : Z)
    (should_lock : uacpi_should_lock) (permanent_only : uacpi_permanent_only) (x : X)
    (R : rep (nodes s) t) (Hu : descend t path = Some u) (Hl : lock_free s)
    (Hinit : init_level_at_least (rt_level (locks s)) UACPI_INIT_LEVEL_SUBSYSTEM_INITIALIZED = true)
    (Hcb : descending <> None \/ ascending <> None) (Hmax : max_depth <> 0)
    (Htypes : forall p, p ∈ forest_ptrs (kids u) -> has_type s p (types p))
    (Hsize : Z.of_nat (tsize u) < 2 ^ 32) (Hf : (2 * tsize u < fuel)%nat) :
  uacpi_namespace_do_for_each_child fuel (lifted descending) (lifted ascending) type_mask max_depth should_lock
    permanent_only (tptr u) x s
  = Some ((UACPI_STATUS_OK,
           fst (walk_forest descending ascending types type_mask max_depth permanent_only (kids u) 1 x)), s).
Proof.
  destruct (lock_states should_lock s Hl) as (inn & EN & EO & Hlock & Hunlock).
  destruct (descend_rep _ _ _ _ _ _ (rep_is_tree _ _ R) Hu) as (par & nxt & Hr). rewrite <- EN in Hr.
  assert (Hz : 0 ∉ ptrs u). { intros Hz. apply (rep_nonnull _ _ R). eapply elem_of_sublist; [exact Hz | by eapply descend_ptrs]. }
  assert (Hp : tptr u <> 0) by (intros E; apply Hz; rewrite <- E; apply ptrs_self).
  pose proof (ptrs_node u) as Eptrs. assert (Hsz : tsize u = S (length (forest_ptrs (kids u)))) by (unfold tsize; by rewrite Eptrs).
  apply rep_node in Hr as [(n & Hn & _ & _ & _ & _ & Hc) Hk].
  rewrite for_each_child_eq by (done || destruct descending, ascending; naive_solver). fold (locking should_lock).
  rewrite (bind_run _ _ _ _ _ Hlock). cbn [is_ok negb]. rewrite (bind_run _ _ _ _ _ (load_node _ _ _ Hn)), Hc.
  destruct (decide (kids u = [])) as [Ek|Ek].
  { rewrite Ek. cbn [first]. change (0 =? 0) with true. cbv iota. rewrite bind_ret_l. cbn [end_locked andb].
    rewrite (bind_run _ _ _ _ _ Hunlock). reflexivity. }
  assert (Hs : seen types inn (forest_ptrs (kids u))).
  { rewrite Eptrs in Hz. split; [intros H; apply Hz; by right|]. intros p Hin. eapply has_type_frame; [exact EN | exact EO | by apply Htypes]. }
  pose proof (children_run descending ascending types type_mask max_depth should_lock permanent_only inn s
    Hunlock Hlock fuel u x Hk Hs Ek Hsize Hf) as HL.
  rewrite (first_nonnull _ (proj1 Hs) Ek). destruct (walk_forest _ _ _ _ _ _ (kids u) 1 x) as [y []]; rewrite (bind_run _ _ _ _ _ HL); cbn [end_locked end_user fst andb].
  - rewrite (bind_run _ _ _ _ _ Hunlock). reflexivity.
  - reflexivity.
Qed.

(** Every node of the sample is named by a device. *)
Definition device_store : store :=
  store_of (list_to_map (prod_map id (fun n => n <| object := 0x9000 |>) <$> link sample_tree 0 0))
    (list_to_map [(0x9000, Object UACPI_OBJECT_REFERENCE UACPI_REFERENCE_KIND_NAMED 0x9100 0 0);
                  (0x9100, Object UACPI_OBJECT_DEVICE 0 0x9200 0 0)]) ∅ ∅.
Lemma device_rep : rep (nodes device_store) sample_tree.
Proof.
  split; [|done | apply (bool_decide_unpack _); vm_compute; exact I | apply (bool_decide_unpack _); vm_compute; exact I].
  cbn [rep_tree sample_tree]. repeat first [exact I | split | eexists; split; [vm_compute; reflexivity | done]].
Qed.
Lemma device_types p : p ∈ forest_ptrs (kids sample_tree) -> has_type device_store p UACPI_OBJECT_DEVICE.
Proof.
  intros Hp. cbn in Hp. repeat (apply elem_of_cons in Hp as [->|Hp];
    [do 3 eexists; split_and!; [vm_compute; reflexivity | done | vm_compute; reflexivity | done | done | vm_compute; reflexivity | done..]|]).
  by apply elem_of_nil in Hp.
Qed.

(** Notes the nodes it is called for and their depth. *)
Definition note (stop : Z) (l : list (Z * Z)) (p d : Z) : list (Z * Z) * uacpi_iteration_decision :=
  (l ++ [(p, d)], if p =? stop then UACPI_ITERATION_DECISION_NEXT_PEER else UACPI_ITERATION_DECISION_CONTINUE).

Lemma for_each_child_walks_the_tree_witness :
  uacpi_namespace_do_for_each_child 13 (lifted (Some (note 0x1000))) (lifted (Some (note 0))) UACPI_OBJECT_ANY_BIT 2
    UACPI_SHOULD_LOCK_YES UACPI_PERMANENT_ONLY_YES uacpi_namespace_root [] device_store
  = Some ((UACPI_STATUS_OK, [(predefined_namespaces 3, 1); (0x1000, 2); (0x1000, 2); (predefined_namespaces 3, 1);
                             (predefined_namespaces 5, 1); (predefined_namespaces 5, 1)]), device_store).
Proof.
  assert (Hcb : Some (note 0x1000) <> None \/ Some (note 0) <> None) by (left; discriminate).
  assert (Hf : (2 * tsize sample_tree < 13)%nat) by (apply Nat.ltb_lt; vm_compute; reflexivity).
  pose proof (for_each_child_walks_the_tree (Plat := sample_machine) (Alloc := bump) 13 device_store sample_tree sample_tree []
    (fun _ => UACPI_OBJECT_DEVICE) (Some (note 0x1000)) (Some (note 0)) UACPI_OBJECT_ANY_BIT 2 UACPI_SHOULD_LOCK_YES
    UACPI_PERMANENT_ONLY_YES [] device_rep eq_refl (sample_lock_free _ _ _ _) eq_refl Hcb ltac:(discriminate)
    device_types eq_refl Hf) as E.
  exact E.
Defined.
