(* ===== verification/ObjectsSpec.v ===== *)
(** * References to objects, and what dropping them frees

    A reference object counts for everything it leads to: to reference one
    is to count every object of its chain, to drop one counts them down and
    frees, once the first is free, those nobody else counts.  Then what the
    host's assignment of a package does to an object that held none. *)
From S2P Require Import Prelude Status Shareable Alloc Mutex Tables TableSamples Objects Namespace NamespaceTree NamespacePath NamespaceWalk.

(** ** Chains *)

(** The objects a walk along the references from [p] visits. *)
Fixpoint chain (O : gmap Z uacpi_object) (p : Z) (l : list Z) : Prop :=
  match l with
  | [] => p = 0
  | q :: l' => q = p /\ p <> 0 /\ exists o, O !! p = Some o /\ chain O (next_in_chain o) l'
  end.

(** The counts of the chain, changed by [k]. *)
Fixpoint adjust (k : Z) (l : list Z) (C : shareables) : shareables :=
  match l with [] => C | q :: l' => adjust k l' (alter (Z.add k) q C) end.
Definition counted (C : shareables) (l : list Z) : Prop := Forall (fun q => exists c, C !! q = Some c /\ countable c) l.

(** An object without storage of its own, and its release. *)
Definition storageless (o : uacpi_object) : bool :=
  match type o with
  | UACPI_OBJECT_UNINITIALIZED | UACPI_OBJECT_INTEGER | UACPI_OBJECT_POWER_RESOURCE | UACPI_OBJECT_DEBUG
  | UACPI_OBJECT_REFERENCE => true
  | _ => false
  end.
Definition release (s : store) (q : Z) : store :=
  s <| objects := delete q (objects s) |> <| counts := delete q (counts s) |>
    <| oheap := Heap (live (oheap s) ∖ {[q]}) (calls (oheap s)) |>.
Definition owned (s : store) (q : Z) : Prop :=
  q <> 0 /\ q ∈ live (oheap s) /\ exists o, objects s !! q = Some o /\ storageless o = true.

Lemma chain_frame O O' p l : (forall q, q ∈ l -> O' !! q = O !! q) -> chain O p l -> chain O' p l.
Proof.
  revert p. induction l as [|q l IH]; intros p Hf; [done|]. intros (-> & Hp & o & Ho & Hc).
  split_and!; [done | done|]. exists o. rewrite Hf by left. split; [done|]. apply IH; [|done]. intros x Hx. apply Hf. by right.
Qed.

Lemma adjust_other k l C q : q ∉ l -> adjust k l C !! q = C !! q.
Proof.
  revert C. induction l as [|x l IH]; intros C Hq; [done|]. apply not_elem_of_cons in Hq as [Hx Hq].
  cbn [adjust]. by rewrite IH, lookup_alter_ne by congruence.
Qed.
Lemma adjust_lookup k l C q : NoDup l -> q ∈ l -> adjust k l C !! q = Z.add k <$> C !! q.
Proof.
  intros Hd. revert C. induction Hd as [|x l Hx Hd IH]; intros C Hq; [by apply elem_of_nil in Hq|].
  cbn [adjust]. apply elem_of_cons in Hq as [->|Hq]; [by rewrite adjust_other, lookup_alter_eq|].
  rewrite IH, lookup_alter_ne by (done || congruence). done.
Qed.
Lemma adjust_back k l C : NoDup l -> adjust (- k) l (adjust k l C) = C.
Proof.
  intros Hd. apply map_eq. intros q. destruct (decide (q ∈ l)) as [Hq|Hq].
  - rewrite !adjust_lookup by done. destruct (C !! q); cbn; [f_equal; lia | done].
  - by rewrite !adjust_other.
Qed.

Lemma counted_frame C C' l : (forall q, q ∈ l -> C' !! q = C !! q) -> counted C l -> counted C' l.
Proof. unfold counted. rewrite !Forall_forall. intros Hf H q Hq. rewrite Hf by done. by apply H. Qed.

Section Chains.
Context {Plat : Platform} {Alloc : Allocator}.
Implicit Types s : store.

Lemma counts_set s C C' : s <| counts := C |> <| counts := C' |> = s <| counts := C' |>.
Proof. reflexivity. Qed.
Lemma counts_of s C : counts (s <| counts := C |>) = C.
Proof. reflexivity. Qed.
Lemma counts_eta s : s <| counts := counts s |> = s.
Proof. by destruct s. Qed.

(** A step along the chain, for the two walks that change the counts. *)
Lemma share_ref s q c : countable c -> counts s !! q = Some c ->
  shareable_ref q s = Some (tt, s <| counts := <[q := c + 1]> (counts s) |>).
Proof. intros Hc Hq. unfold shareable_ref, share. mstep. by rewrite (run_ref q c _ Hc Hq). Qed.
Lemma share_bugged s q c : countable c -> counts s !! q = Some c -> share (uacpi_bugged_shareable q) s = Some (false, s).
Proof. intros Hc Hq. unfold share. rewrite (not_bugged q c _ Hc Hq). cbn. by rewrite counts_eta. Qed.
Lemma share_unref s q c : countable c -> counts s !! q = Some c ->
  share (uacpi_shareable_unref q) s = Some (c, s <| counts := <[q := c - 1]> (counts s) |>).
Proof. intros Hc Hq. unfold share. by rewrite (run_unref q c _ Hc Hq). Qed.
Lemma share_refcount s q c : counts s !! q = Some c -> share (uacpi_shareable_refcount q) s = Some (c, s).
Proof. intros Hq. unfold share, uacpi_shareable_refcount, load_refcount. rewrite Hq. cbn. by rewrite counts_eta. Qed.
Lemma load_object s q o : objects s !! q = Some o -> load (A := uacpi_object) q s = Some (o, s).
Proof. intros E. unfold load. cbn. by rewrite E. Qed.

Lemma load_counted s C q o : objects s !! q = Some o ->
  load (A := uacpi_object) q (s <| counts := C |>) = Some (o, s <| counts := C |>).
Proof. intros E. by apply load_object. Qed.

Lemma alter_is k q c (C : shareables) : C !! q = Some c -> alter (Z.add k) q C = <[q := k + c]> C.
Proof.
  intros E. apply map_eq. intros x. destruct (decide (x = q)) as [->|Hx].
  - by rewrite lookup_alter_eq, lookup_insert_eq, E.
  - by rewrite lookup_alter_ne, lookup_insert_ne.
Qed.
Lemma counted_tail k q l C : q ∉ l -> counted C (q :: l) -> counted (alter (Z.add k) q C) l.
Proof.
  intros Hq H. inversion_clear H. apply (counted_frame C); [|done]. intros x Hx. rewrite lookup_alter_ne; [done | congruence].
Qed.

Lemma ref_chain_run fuel l : forall p s, chain (objects s) p l -> NoDup l -> counted (counts s) l -> (length l < fuel)%nat ->
  uacpi_object_ref fuel p s = Some (tt, s <| counts := adjust 1 l (counts s) |>).
Proof.
  unfold uacpi_object_ref. revert fuel. induction l as [|q l IH]; intros fuel p s Hc Hd HC Hf; (destruct fuel as [|fuel]; [cbn in Hf; lia|]).
  - cbn in Hc. subst p. erewrite loop_inr by reflexivity. cbn [adjust]. by rewrite counts_eta.
  - destruct Hc as (-> & Hp & o & Ho & Hc). inversion_clear Hd as [|? ? Hq Hd']. pose proof (counted_tail 1 _ _ _ Hq HC) as HC'.
    inversion_clear HC as [|? ? (c & Ec & Hcc) _]. erewrite loop_inl.
    2: { rewrite (proj2 (Z.eqb_neq p 0)) by done. rewrite (bind_run _ _ _ _ _ (share_ref _ _ _ Hcc Ec)).
         rewrite (bind_run _ _ _ _ _ (load_counted _ _ _ _ Ho)). reflexivity. }
    rewrite IH; [|done | done | | cbn in Hf; lia].
    + cbn [adjust]. by rewrite (alter_is 1 p c), (Z.add_comm 1 c).
    + by rewrite (alter_is 1 p c), (Z.add_comm 1 c) in HC'.
Qed.

Lemma unref_chain_run fuel l : forall p s, chain (objects s) p l -> NoDup l -> counted (counts s) l -> (length l < fuel)%nat ->
  unref_chain fuel p s = Some (true, s <| counts := adjust (-1) l (counts s) |>).
Proof.
  unfold unref_chain. revert fuel. induction l as [|q l IH]; intros fuel p s Hc Hd HC Hf; (destruct fuel as [|fuel]; [cbn in Hf; lia|]).
  - cbn in Hc. subst p. erewrite loop_inr by reflexivity. cbn [adjust]. by rewrite counts_eta.
  - destruct Hc as (-> & Hp & o & Ho & Hc). inversion_clear Hd as [|? ? Hq Hd']. pose proof (counted_tail (-1) _ _ _ Hq HC) as HC'.
    inversion_clear HC as [|? ? (c & Ec & Hcc) _]. erewrite loop_inl.
    2: { rewrite (proj2 (Z.eqb_neq p 0)) by done. rewrite (bind_run _ _ _ _ _ (share_bugged _ _ _ Hcc Ec)).
         rewrite (bind_run _ _ _ _ _ (share_unref _ _ _ Hcc Ec)).
         rewrite (bind_run _ _ _ _ _ (load_counted _ _ _ _ Ho)). reflexivity. }
    rewrite IH; [|done | done | | cbn in Hf; lia].
    + cbn [adjust]. by rewrite (alter_is (-1) p c), (Z.add_comm (-1) c).
    + by rewrite (alter_is (-1) p c), (Z.add_comm (-1) c) in HC'.
Qed.

(** ** What is freed *)

Lemma free_plain fuel q s : (1 <= fuel)%nat -> owned s q -> free_object fuel q s = Some (tt, release s q).
Proof.
  intros Hf (Hq & Hl & o & Ho & Hs). destruct fuel as [|fuel]; [lia|]. unfold free_object. cbn [free_object_n].
  assert (E : forall n f g, object_storage_free n f g q s = Some (tt, s)).
  { intros n f g. unfold object_storage_free. rewrite (bind_run _ _ _ _ _ (load_object _ _ _ Ho)).
    unfold storageless in Hs. by destruct (type o). }
  unfold free_object_body. rewrite (bind_run _ _ _ _ _ (E _ _ _)). unfold free_block, kernel_free, release.
  rewrite (bind_run _ _ _ _ _ (load_object _ _ _ Ho)). mstep. by rewrite (free_live _ _ Hq Hl).
Qed.
Lemma chain_release s q p l : q ∉ l -> chain (objects s) p l -> chain (objects (release s q)) p l.
Proof. intros Hq. apply chain_frame. intros x Hx. apply lookup_delete_ne. congruence. Qed.
Lemma owned_release s q x : x <> q -> owned s x -> owned (release s q) x.
Proof.
  intros Hx (Hx0 & Hl & o & Ho & Hs). split; [done|]. split; [cbn; set_solver|].
  exists o. split; [|done]. cbn. by rewrite lookup_delete_ne.
Qed.

(** The objects of the chain whose count is [n]. *)
Definition with_count (n : Z) (C : shareables) (l : list Z) : list Z := filter (fun q => C !! q = Some n) l.

Lemma with_count_iff m n C C' l : (forall q, q ∈ l -> C' !! q = Some m <-> C !! q = Some n) ->
  with_count m C' l = with_count n C l.
Proof.
  unfold with_count. induction l as [|q l IH]; intros Hf; [done|].
  rewrite !filter_cons, IH by (intros x Hx; apply Hf; by right). pose proof (Hf q ltac:(by left)).
  destruct (decide (C' !! q = Some m)), (decide (C !! q = Some n)); tauto.
Qed.

Lemma free_chain_run fuel n l : forall p s, (1 <= n)%nat -> chain (objects s) p l -> NoDup l ->
  Forall (owned s) l -> Forall (fun q => is_Some (counts s !! q)) l -> (length l < fuel)%nat ->
  free_chain fuel (free_object n) p s = Some (tt, foldl release s (with_count 0 (counts s) l)).
Proof.
  unfold free_chain. revert fuel. induction l as [|q l IH]; intros fuel p s Hn Hc Hd Ho HC Hf;
    (destruct fuel as [|fuel]; [cbn in Hf; lia|]).
  - cbn in Hc. subst p. by erewrite loop_inr by reflexivity.
  - destruct Hc as (-> & Hp & o & Hob & Hc). apply NoDup_cons in Hd as [Hq Hd].
    apply Forall_cons in Ho as [Ho Hos]. apply Forall_cons in HC as [[c Ec] HC].
    assert (E : (c ← share (uacpi_shareable_refcount p); if c =? 0 then free_object n p else mret tt) s
      = Some (tt, if c =? 0 then release s p else s)).
    { rewrite (bind_run _ _ _ _ _ (share_refcount _ _ _ Ec)). destruct (c =? 0); [by apply free_plain | done]. }
    unfold with_count. rewrite filter_cons, Ec. erewrite loop_inl.
    2: { rewrite (proj2 (Z.eqb_neq p 0)) by done. rewrite (bind_run _ _ _ _ _ (load_object _ _ _ Hob)).
         rewrite <- bind_assoc. rewrite (bind_run _ _ _ _ _ E). reflexivity. }
    destruct (Z.eqb_spec c 0) as [->|Hc0].
    + rewrite decide_True by done. cbn [foldl]. rewrite (IH fuel _ (release s p)); [| done | by apply chain_release | done | | | cbn in Hf; lia].
      * f_equal. f_equal. f_equal. apply with_count_iff. intros x Hx. cbn. rewrite lookup_delete_ne by congruence. done.
      * rewrite Forall_forall in *. intros x Hx. apply owned_release; [congruence | by apply Hos].
      * rewrite Forall_forall in *. intros x Hx. cbn. rewrite lookup_delete_ne; [by apply HC | congruence].
    + rewrite decide_False by congruence. rewrite (IH fuel _ s); [done..| cbn in Hf; lia].
Qed.
End Chains.

(** ** What clients see *)

(** A reference taken and dropped leaves no trace.  For a chain of
    objects whose counts are below the poison value and leave room for one
    more, [uacpi_object_ref] followed by [uacpi_object_unref] of its first
    object gives back the very store: every count of the chain goes up and
    down by one, and nothing is freed. *)
Theorem reference_and_drop_balance {Plat : Platform} {Alloc : Allocator} (fuel : nat) (s : store) (p : Z) (l : list Z)
    (Hc : chain (objects s) p l) (Hd : NoDup l) (HC : counted (counts s) l)
    (Hroom : Forall (fun q => counts s !! q <> Some (BUGGED_REFCOUNT - 1)) l) (Hf : (length l < fuel)%nat) :
  let s1 := s <| counts := adjust 1 l (counts s) |> in
  uacpi_object_ref fuel p s = Some (tt, s1) /\ uacpi_object_unref fuel p s1 = Some (tt, s).
Proof.
  cbv zeta. split; [exact (ref_chain_run fuel l p s Hc Hd HC Hf)|].
  unfold uacpi_object_unref, object_unref. destruct (Z.eqb_spec p 0) as [->|Hp].
  { destruct l as [|q l]; [by cbn [adjust]; rewrite counts_eta | by destruct Hc as (_ & ? & _)]. }
  assert (HC1 : counted (adjust 1 l (counts s)) l).
  { unfold counted in *. rewrite Forall_forall in *. intros q Hq. destruct (HC q Hq) as (c & Ec & Hcc).
    exists (1 + c). rewrite adjust_lookup, Ec by done. split; [done|]. specialize (Hroom q Hq). rewrite Ec in Hroom.
    unfold countable in *. assert (c <> BUGGED_REFCOUNT - 1) by congruence. lia. }
  set (s1 := s <| counts := adjust 1 l (counts s) |>).
  rewrite (bind_run _ _ _ _ _ (unref_chain_run fuel l p s1 Hc Hd HC1 Hf)). subst s1.
  rewrite counts_set, counts_of. cbn [negb]. change (-1) with (- (1)). rewrite (adjust_back 1 l (counts s) Hd), counts_eta.
  destruct l as [|q l]; [by cbn in Hc|]. destruct Hc as (-> & _). inversion_clear HC as [|? ? (c & Ec & Hcc) _].
  rewrite (bind_run _ _ _ _ _ (share_refcount _ _ _ Ec)). rewrite (proj2 (Z.eqb_neq c 0)) by (unfold countable in Hcc; lia). done.
Qed.

(** C31: dropping a reference frees exactly what nobody else counts.  For a
    chain of distinct live objects without storage of their own (integers,
    references and the like), each counted at least once and below the poison
    value,
    [uacpi_object_unref] of its first object lowers every count by one; if
    the first object had one reference only, the objects of the chain that
    had one are freed, and otherwise none is. *)
Theorem drop_frees_what_nobody_counts {Plat : Platform} {Alloc : Allocator} (fuel : nat) (s : store) (p : Z) (l : list Z)
    (Hc : chain (objects s) p l) (Hd : NoDup l) (HC : counted (counts s) l) (Ho : Forall (owned s) l)
    (Hp : p <> 0) (Hf : (length l < fuel)%nat) :
  uacpi_object_unref fuel p s
  = Some (tt, foldl release (s <| counts := adjust (-1) l (counts s) |>)
                (if decide (counts s !! p = Some 1) then with_count 1 (counts s) l else [])).
Proof.
  unfold uacpi_object_unref, object_unref. rewrite (proj2 (Z.eqb_neq p 0)) by done.
  rewrite (bind_run _ _ _ _ _ (unref_chain_run fuel l p s Hc Hd HC Hf)). cbn [negb].
  set (s1 := s <| counts := adjust (-1) l (counts s) |>).
  assert (E : forall q, q ∈ l -> counts s1 !! q = Z.add (-1) <$> counts s !! q) by (intros q Hq; by apply adjust_lookup).
  assert (Hpl : p ∈ l). { destruct l as [|q l]; [by cbn in Hc|]. destruct Hc as (-> & _). by left. }
  unfold counted in HC. rewrite Forall_forall in HC. destruct (HC p Hpl) as (c & Ec & Hcc).
  pose proof (E p Hpl) as Ep. rewrite Ec in *. cbn in Ep.
  rewrite (bind_run _ _ _ _ _ (share_refcount s1 p (-1 + c) Ep)).
  destruct (Z.eqb_spec (-1 + c) 0) as [Hz|Hz]; [|by rewrite decide_False by (intros [= ->]; lia)].
  rewrite decide_True by (f_equal; lia).
  rewrite (free_chain_run fuel fuel l p s1); [| lia | done | done | done | | done].
  - f_equal. f_equal. f_equal. apply with_count_iff. intros q Hq. rewrite (E q Hq).
    destruct (HC q Hq) as (d & -> & _). cbn. split; intros [= ?]; f_equal; lia.
  - rewrite Forall_forall. intros q Hq. rewrite (E q Hq). destruct (HC q Hq) as (d & -> & _). by eexists.
Qed.

(** *** Samples *)

(** A reference to a reference to an integer, which something else holds too. *)
Definition linked_objects : gmap Z uacpi_object :=
  list_to_map [(0x100, Object UACPI_OBJECT_REFERENCE 0 0x200 0 0); (0x200, Object UACPI_OBJECT_REFERENCE 0 0x300 0 0);
               (0x300, Object UACPI_OBJECT_INTEGER 0 7 0 0)].
Definition linked_counts (c : Z) : shareables := list_to_map [(0x100, c); (0x200, c); (0x300, c + 1)].
Definition linked_store (c : Z) : store := store_of ∅ linked_objects (linked_counts c) {[0x100; 0x200; 0x300]}.

Lemma linked_chain c : chain (objects (linked_store c)) 0x100 [0x100; 0x200; 0x300].
Proof. cbn [chain]. repeat first [split; [done|] | eexists; split; [vm_compute; reflexivity|] | done]. Qed.
Lemma linked_distinct : NoDup [0x100; 0x200; 0x300].
Proof. apply (bool_decide_unpack _). vm_compute. exact I. Qed.
Lemma linked_counted c : 0 < c < BUGGED_REFCOUNT - 1 -> counted (counts (linked_store c)) [0x100; 0x200; 0x300].
Proof.
  intros Hc. apply Forall_cons_2; [exists c | apply Forall_cons_2; [exists c | apply Forall_cons_2; [exists (c + 1) | apply Forall_nil_2]]];
    (split; [reflexivity | unfold countable; lia]).
Qed.
Lemma linked_owned c : Forall (owned (linked_store c)) [0x100; 0x200; 0x300].
Proof.
  repeat apply Forall_cons_2; try apply Forall_nil_2;
    (split; [done|]; split; [cbn; set_solver | eexists; split; [vm_compute; reflexivity | reflexivity]]).
Qed.

Lemma reference_and_drop_balance_witness :
  exists s, uacpi_object_ref 4 0x100 (linked_store 1) = Some (tt, s) /\ counts s !! 0x100 = Some 2 /\ counts s !! 0x300 = Some 3
  /\ uacpi_object_unref (Plat := sample_machine) (Alloc := bump) 4 0x100 s = Some (tt, linked_store 1).
Proof.
  assert (Hroom : Forall (fun q => counts (linked_store 1) !! q <> Some (BUGGED_REFCOUNT - 1)) [0x100; 0x200; 0x300])
    by (repeat apply Forall_cons_2; try apply Forall_nil_2; discriminate).
  destruct (reference_and_drop_balance (Plat := sample_machine) (Alloc := bump) 4 (linked_store 1) 0x100 [0x100; 0x200; 0x300]
    (linked_chain 1) linked_distinct (linked_counted 1 ltac:(unfold BUGGED_REFCOUNT; lia)) Hroom ltac:(cbn; lia)) as [E1 E2].
  eexists. split; [exact E1|]. split; [vm_compute; reflexivity|]. split; [vm_compute; reflexivity | exact E2].
Defined.

(** The two references go, the integer stays with one count. *)
Lemma drop_frees_what_nobody_counts_witness :
  exists s, uacpi_object_unref (Plat := sample_machine) (Alloc := bump) 4 0x100 (linked_store 1) = Some (tt, s)
  /\ objects s = {[0x300 := Object UACPI_OBJECT_INTEGER 0 7 0 0]} /\ counts s = {[0x300 := 1]}.
Proof.
  eexists. split; [exact (drop_frees_what_nobody_counts (Plat := sample_machine) (Alloc := bump) 4 (linked_store 1) 0x100
    [0x100; 0x200; 0x300] (linked_chain 1) linked_distinct (linked_counted 1 ltac:(unfold BUGGED_REFCOUNT; lia)) (linked_owned 1)
    ltac:(discriminate) ltac:(cbn; lia))|].
  split; vm_compute; reflexivity.
Defined.

(** ** A package assigned to an integer *)

Section AssignPackage.
Context {Plat : Platform} {Alloc : Allocator}.
Implicit Types s : store.

Lemma alloc_block {A} `{Block A} s p h : malloc sizeof (oheap s) = (p, h) -> p <> 0 ->
  alloc_zeroed A s = Some (p, with_blocks (<[p := zeroed]> (blocks (s <| oheap := h |>))) (s <| oheap := h |>)).
Proof.
  intros E Hp. unfold alloc_zeroed, alloc_zeroed_of, kernel_alloc. mstep. rewrite E. cbn.
  by rewrite (proj2 (Z.eqb_neq p 0)).
Qed.
Lemma modify_bind {S B} (g : S -> S) (f : unit -> M S B) (s : S) : (modify g ≫= f) s = f tt (g s).
Proof. reflexivity. Qed.
Lemma alloc_no_block {A} `{Block A} s h : malloc sizeof (oheap s) = (0, h) -> alloc_zeroed A s = Some (0, s <| oheap := h |>).
Proof. intros E. unfold alloc_zeroed, alloc_zeroed_of, kernel_alloc. mstep. by rewrite E. Qed.

Lemma unref_unknown s n f : n <> 0 -> counts s !! n = None -> unref_and_delete_if_last n f s = None.
Proof.
  intros Hn Hc. unfold unref_and_delete_if_last. rewrite (proj2 (Z.eqb_neq n 0)) by done. apply bind_none.
  unfold share, uacpi_bugged_shareable, load_refcount. mstep. by rewrite Hc.
Qed.

(** The empty package for the object at [obj]. *)
Lemma empty_package_run s obj o p h : malloc 24 (oheap s) = (p, h) -> objects s !! obj = Some o ->
  package_alloc_objects obj 0 false s = if p =? 0 then Some (false, s <| oheap := h |>) else
    Some (true, s <| oheap := h |> <| packages := <[p := Package 0 0]> (packages s) |>
                  <| counts := <[p := 1]> (counts s) |> <| objects := <[obj := o <| package := p |>]> (objects s) |>).
Proof.
  intros Em Ho. change 24 with (sizeof (A := uacpi_package)) in Em. unfold package_alloc_objects, package_alloc. destruct (Z.eqb_spec p 0) as [->|Hp].
  - by rewrite (bind_run _ _ _ _ _ (alloc_no_block (A := uacpi_package) s h Em)).
  - rewrite (bind_run _ _ _ _ _ (alloc_block (A := uacpi_package) s p h Em Hp)), (proj2 (Z.eqb_neq p 0)) by done.
    unfold share, uacpi_shareable_init, uacpi_package_fill, update, load, put. mstep. cbn. rewrite Ho. cbn. by rewrite Ho.
Qed.

(** What an object that is called a package drops. *)
Lemma drop_wild fuel s obj o : objects s !! obj = Some o -> type o = UACPI_OBJECT_PACKAGE -> package o <> 0 ->
  counts s !! package o = None -> drop_contents fuel obj s = None.
Proof.
  intros Ho Ht Hp Hc. unfold drop_contents. rewrite (bind_run _ _ _ _ _ (load_object _ _ _ Ho)), Ht.
  unfold free_object_storage, object_storage_free. rewrite (bind_run _ _ _ _ _ (load_object _ _ _ Ho)), Ht.
  by apply unref_unknown.
Qed.
End AssignPackage.

(** The host cannot assign a package to an integer object.
    [uacpi_object_assign_package] writes the type before it drops what the
    object held, so the old integer is taken for the address of a package to
    release: for an integer that is no counted block's address the function
    answers OUT_OF_MEMORY or follows a wild pointer, never OK. *)
Theorem package_over_an_integer_is_wild {Plat : Platform} {Alloc : Allocator} (fuel : nat) (s : store) (obj fl n w1 w2 : Z)
    (Hobj : objects s !! obj = Some (Object UACPI_OBJECT_INTEGER fl n w1 w2)) (Ho : obj <> 0) (Hl : obj <> local_object)
    (Hn : n <> 0) (Hc : counts s !! n = None) (Hf : forall p h, malloc 24 (oheap s) = (p, h) -> p <> n) :
  uacpi_object_assign_package fuel obj [] s = None
  \/ exists s', uacpi_object_assign_package fuel obj [] s = Some (UACPI_STATUS_OUT_OF_MEMORY, s').
Proof.
  destruct (malloc 24 (oheap s)) as [p h] eqn:Em. specialize (Hf p h eq_refl).
  unfold uacpi_object_assign_package, ENSURE_VALID_USER_OBJ, with_local. rewrite (proj2 (Z.eqb_neq obj 0)) by done.
  set (tmp := Object UACPI_OBJECT_PACKAGE 0 0 0 0). set (s0 := s <| objects := <[local_object := tmp]> (objects s) |>).
  rewrite modify_bind. fold s0. cbn [length]. change (Z.of_nat 0) with 0.
  pose proof (empty_package_run s0 local_object tmp p h Em (lookup_insert_eq _ _ _)) as E.
  destruct (Z.eqb_spec p 0) as [->|Hp].
  { right. rewrite (bind_assoc (package_alloc_objects local_object 0 false)), (bind_run _ _ _ _ _ E). eexists. reflexivity. }
  left. apply bind_none. rewrite (bind_run _ _ _ _ _ E). cbn [negb].
  match goal with |- _ ?s1 = _ => set (s3 := s1) end.
  assert (Hobj3 : objects s3 !! obj = Some (Object UACPI_OBJECT_INTEGER fl n w1 w2))
    by (cbn; rewrite !lookup_insert_ne by done; exact Hobj).
  unfold update. rewrite (bind_assoc (load obj)), (bind_run _ _ _ _ _ (load_object _ _ _ Hobj3)).
  set (o' := Object UACPI_OBJECT_PACKAGE fl n w1 w2). set (s4 := s3 <| objects := <[obj := o']> (objects s3) |>).
  assert (Ep : put obj o' s3 = Some (tt, s4)) by (unfold put; cbn [blocks object_block]; by rewrite Hobj3).
  rewrite (bind_run _ _ _ _ _ Ep).
  assert (Et : objects s4 !! local_object = Some (tmp <| package := p |>)) by (cbn; by rewrite lookup_insert_ne, lookup_insert_eq).
  rewrite (bind_run _ _ _ _ _ (load_object _ _ _ Et)).
  assert (Epk : load (A := uacpi_package) p s4 = Some (Package 0 0, s4)) by (unfold load; cbn; by rewrite lookup_insert_eq).
  rewrite (bind_run (load p) _ s4 s4 _ Epk). cbn [share_elements]. rewrite bind_ret_l. apply bind_none.
  unfold uacpi_object_assign. cbn [assign_n]. unfold assign_body. rewrite (proj2 (Z.eqb_neq local_object obj)) by done.
  apply bind_none, (drop_wild _ _ _ o'); [by cbn; rewrite lookup_insert_eq | done | done |].
  cbn. by rewrite lookup_insert_ne.
Qed.

Definition integer_store : store :=
  store_of ∅ {[0x100 := Object UACPI_OBJECT_INTEGER 0 7 0 0]} {[0x100 := 1]} {[0x100]}.
Lemma package_over_an_integer_is_wild_witness :
  uacpi_object_assign_package (Plat := sample_machine) (Alloc := bump) 4 0x100 [] integer_store = None
  \/ exists s', uacpi_object_assign_package (Plat := sample_machine) (Alloc := bump) 4 0x100 [] integer_store
                = Some (UACPI_STATUS_OUT_OF_MEMORY, s').
Proof.
  assert (Hf : forall p h, malloc (H := bump) 24 (oheap integer_store) = (p, h) -> p <> 7).
  { intros p h E. injection E as <- <-. vm_compute. discriminate. }
  exact (package_over_an_integer_is_wild (Plat := sample_machine) (Alloc := bump) 4 integer_store 0x100 0 7 0 0
    eq_refl ltac:(discriminate) ltac:(discriminate) ltac:(discriminate) eq_refl Hf).
Defined.
